(* ===== verification/_CoqProject ===== *)
-Q . S2P
Prelude.v
Sha256.v
Ringbuf.v
Tlv.v
Wstring.v
Mempool.v
Timer.v
Sleep.v
Auth.v
IndexFs.v
Fs.v
Wkek.v
Kv.v
Unlock.v
Confirmation.v
Grant.v
Wca.v
FwFlash.v
SecBoot.v
Metadata.v
FwVerify.v
FwDelta.v
FwWriter.v
FwPatch.v
Fwup.v
FwupSpec.v
FwTask.v
FwDevice.v
FwStaged.v
FwW3.v
FwAtomic.v
FwSigned.v
FwUxc.v
FwDemo.v
Bip32.v
WalletKeys.v
WalletCache.v
WalletAddr.v
Psbt.v
PsbtSpec.v
SignKey.v
SignSession.v
SignFrame.v
SignKeySpec.v
SignTx.v
SignStream.v
SignPayload.v
SignFlow.v
Sap.v
SignMachine.v
SignInv.v
SignSafe.v
SignDemo.v
Descriptor.v
DescriptorSpec.v
Recovery.v
RecoverySpec.v
UcCrc.v
Uc.v
UcLink.v
UcSend.v
UcEnds.v
SecChan.v
ScCert.v
ScCertSpec.v
SecLink.v
ScCertLink.v
