(* ===== verification/Prelude.v ===== *)
(** * A verification library for the Bitkey firmware

    The firmware (src/firmware, C) runs on the Bitkey hardware wallet: FreeRTOS
    tasks over a set of libraries. This development models the libraries and
    tasks that carry its security, update, communication and storage logic,
    from the C sources, as executable definitions, and proves what makes each
    of them correct.

    ** The parts and how they interact

    - A phone talks to the device over NFC. lib/wca reassembles APDUs into a
      protobuf command, the generated router hands it to a task, and the
      response comes back through a buffer shared with the tasks, correlated by
      a sequence number (lib/protobuf/helpers, lib/ipc).
    - The second device has two processors, the core and the coprocessor (UXC).
      lib/uc frames, checks, encrypts, acknowledges and retransmits the messages
      between them; lib/secure-channel and lib/key-exchange establish the keys,
      driven by handlers of the two key manager tasks.
    - lib/auth keeps the session: opened by a fingerprint match or by the unlock
      secret, closed by a timer. lib/sleep keeps the power timer. Both run on
      the timers of lib/rtos.
    - lib/unlock checks the unlock secret. Its retry counter lives in a flash
      log (lib/indexfs), the secret in a file encrypted by lib/wallet's key
      encryption key, the pending delay in a timer; the outcome goes to
      lib/auth.
    - lib/confirmation holds the operation that waits for an approval on the
      screen. lib/grant_protocol issues requests to, and verifies grants of,
      the server, and presents them to lib/auth.
    - lib/wallet keeps the seed, derives keys from it (lib/bip32) directly or
      through a cache of three keys, and knows the keyset: the account keys of
      the phone, the device and the server. It builds the 2-of-3 scripts of the
      wallet and decides which outputs are its own. lib/psbt computes what the
      screen shows of a transaction and the digests to be signed.
    - The key manager task of the second device keeps the signing sessions: a
      transaction in one command, a sweep, a transaction streamed into flash, or
      a privileged action (lib/sap). It shows the request, waits for the
      approval in lib/confirmation, and signs with the keys of lib/wallet in a
      thread of its own, within the policy of lib/policy. It also takes the
      keyset of the wallet from the phone, signed by the key service, shows
      receive addresses, and serves the recovery commands, which open sealed
      keys and sign with the authentication key after an approval.
    - lib/fwup receives a new image, or a signed patch of the running one, into
      the slot that is not running, verifies it with lib/bootloader and
      lib/metadata and writes its signature; app/tasks/fwup drives it for one
      processor or for both, and the loader (app/w1/loader) boots the newest
      slot that verifies.
    - lib/filesystem wraps littlefs; lib/kv is a key-value file on top of it,
      made of fixed-size records. lib/ringbuf, lib/mempool, lib/tlv and lib/wstd
      are the data structures underneath.

    ** Files

    - [Prelude] (this file): machine integers, the [outcome] of a call, byte
      buffers with checked accesses, tactics and hint databases, list lemmas.
    - [Sha256]: the hash of the crypto library as a class with laws.
    - [Ringbuf]: lib/ringbuf/ringbuf.c. [Tlv]: lib/tlv/src/tlv.c. [Wstring]:
      memcmp_s and memzero of lib/wstd/src/wstring.c. [Mempool]:
      lib/mempool/src/mempool.c.
    - [Timer]: lib/rtos/src/rtos_timer.c over the class [SwTimer] (FreeRTOS
      timers). [Sleep]: lib/sleep/sleep.c. [Auth]: lib/auth/src/auth.c.
    - [IndexFs]: lib/indexfs over the class [Flash]. [Fs]: lib/filesystem over
      the class [Littlefs]. [Wkek]: wkek.c and wallet_storage.c of lib/wallet
      over the class [SecureElement]. [Kv]: lib/kv/kv.c.
    - [Unlock]: unlock.c and unlock_storage.c of lib/unlock, on [IndexFs],
      [Wkek], [Timer], [Auth] and [Wstring].
    - [Confirmation]: lib/confirmation/src/confirmation_manager.c. [Grant]: both
      files of lib/grant_protocol, over [Fs] and the class [GrantHost].
    - [Wca]: lib/wca/src/wca.c, lib/iso7816/iso7186.h and the response path of
      proto_helpers.c and ipc.c, over the class [Nanopb].
    - Firmware update. [FwFlash]: fwup_flash.c of both processors over the class
      [FlashMem]. [SecBoot]: lib/bootloader with both back ends and the loader's
      main, over [CertLayout] and [BootCrypto]. [Metadata]: lib/metadata, the
      reader of lib/msgpack and fwup_utils.c. [FwVerify]: fwup_verify.c of both
      processors behind the class [FwVerify]. [FwDelta], [FwWriter], [FwPatch]:
      fwup_delta.c over [Detools] and [PatchCrypto], its callbacks and its patch
      file. [Fwup], [FwupSpec]: fwup.c and fwup_addr.c. [FwTask]: the task of
      the core with its port as the class [FwupPort]; [FwDevice]: the port of
      the first device and the whole path to the loader; [FwStaged]:
      fwup_staged_sig.c; [FwW3]: the port of the second device; [FwAtomic],
      [FwSigned]: its atomic commit; [FwUxc]: the task of the coprocessor;
      [FwDemo]: one concrete device, on which the witnesses run.
    - The wallet. [Bip32]: lib/bip32 over the class [Secp]. [WalletKeys]: seed.c,
      derived_key_cache.c and wallet.c of lib/wallet; [WalletCache]: the cache
      agrees with the seed. [WalletAddr]: wallet_address.c over the class [Ew]
      (libew). [Psbt], [PsbtSpec]: the raw transactions of lib/psbt and what
      they show and sign.
    - Signing. [SignKey]: lib/policy, crypto_task.c and psbt_signing.c over the
      class [Ecdsa]; [SignKeySpec]: which key signs. [SignSession]: the session
      structs of key_manager_task_port.c (w3-core), which share memory: the
      class [SessionUnion] with the laws of the overlay. [SignTx]: one-shot
      requests and sweeps; [SignStream]: the records in flash; [SignFlow]:
      streamed sessions and the result handler; [Sap]: lib/sap and its handlers.
      [SignMachine]: all of these handlers, the user and the other tasks as one
      step relation. [SignFrame]: what signing leaves alone; [SignPayload]: what
      reading the payload gives; [SignInv]: the invariant; [SignSafe]: the
      theorems; [SignDemo]: a concrete device for the witnesses.
    - Descriptors and recovery. [Descriptor]: the handlers of the same task that
      verify the keys of the wallet, store the keyset and show an address;
      [DescriptorSpec]: their theorems. [Recovery]: sealed_data_utils.c,
      eek_restoration.c, keyset_repair.c, lost_app_recovery.c,
      full_account_cloud_backup_restoration.c, rotate_app_auth_keys.c,
      upgrade_rotate_app_auth_keys.c and recovery_composites.c, with one session
      per command; [RecoverySpec]: these commands as a machine, its invariant
      and its theorem.
    - The link. [UcCrc], [Uc]: uc.c and uc_route.c over COBS, nanopb, the serial
      driver and the memory pool; [UcLink], [UcSend], [UcEnds]: its invariants,
      its sender and both ends together. [SecChan]: lib/key-exchange and
      secure_channel_common.c, _uart.c and _nfc.c over a class of certificates;
      [SecLink]: the handshake of the key manager tasks. [ScCert]:
      secure_channel_cert_common.c and _impl.c, the certificates in files;
      [ScCertSpec]: their theorem; [ScCertLink]: this store as the class of
      certificates of [SecChan], and a handshake on two of them.

    ** How the code is read

    A C function is a Rocq function from the state it reads to the state it
    leaves. The state of a component (a static context in C) is a [Record] with
    the fields of the C struct; a component that calls another holds its state
    as a field. Definitions keep the C names. A w-bit unsigned integer is a [Z],
    wrapped where the C type wraps. A call returns an [outcome]: [Done] with its
    result, [Abort] for a failed ASSERT (the device resets), [Undef] for an
    access outside of an array, [Nofuel] for an exhausted bound. Array reads and
    writes go through [aget], [aset], [mread] and [mwrite], which are [Undef] out
    of bounds, so a theorem that concludes [Done] is a statement of memory
    safety. Errors of the C code are values of its own result enums. The
    handlers of the update tasks, which end in a reset of the device on many
    branches, are written in a monad over [outcome] ([FwTask]) with a small
    program logic. The hardened conditionals of lib/secutils are read as the
    conditionals they protect: faults are outside the model.

    Code outside of the sources is a class of operations with a class of laws
    that state its documented behaviour ([Flash], [FlashMem], [Littlefs],
    [SwTimer], [SecureElement], [GrantHost], [Nanopb], [Detools], ...); theorems
    are proved for every instance, and each class has a concrete instance in
    memory, on which the witnesses of the theorems compute.

    Sequences of calls are lists of events run by a fold ([attack_run],
    [auth_run], [cm_run], [ix_run], [rb_run], [tlv_run], [nfc_run],
    [fwup_thread_run], ...) or an inductive relation of reachable states
    ([w3_reach], [w3_any], [km_reach], [rc_reach]). Where tasks interleave, as in
    [Wca], the actions of the other tasks are part of the events; what the other
    tasks answer to a handler of the update is the [env] of its event.

    Any call of littlefs may fail ([LittlefsLaws] says what it does then). What
    holds only without such failures says so: [LittlefsStats] that [lfs_stat]
    finds the files that are there, [LittlefsReliable] that no call fails.

    ** What the theorems show

    - Signing: every transaction digest that is signed, by whichever routine,
      belongs to a transaction that the user saw, with its true fee, amount and
      address, and approved: the approval is of the confirmation created with
      that screen, which stayed pending and on the screen until then; what the
      screen does not name pays to the wallet ([signs_only_approved]). Every
      action proof is for an action and value that the user saw and approved in
      the same sense ([actions_only_approved]). Signatures are by the key of the
      seed at the path of the input, within the policy, for a wallet of one coin
      type on a medium without errors ([psbt_sign_sound]). The comparison of the
      commitment hash before a deferred signature is a second guard, on which
      the theorems do not rest.
    - Recovery: sealed keys are opened and digests are signed with the
      authentication key only for requests that were shown and approved, and
      only those of the request ([keys_only_approved]). Two examples show the
      limits: the hash in a keyset repair may be any digest
      ([repair_signs_any_digest]), and an approved recovery of a lost app waits
      without a time-out for the command that continues it
      ([continue_has_no_timeout]).
    - Descriptors: an address that the device shows is of a keyset that the key
      service signed and the device can spend from it, through resets and
      interrupted wipes ([shown_address_spendable]); what a successful request
      has verified and stored ([descriptor_verified]). Both are for derivations
      at paths of one coin type and a medium without errors: the app key can be
      missing after a close that failed ([success_without_app_key]). The
      signature of the key
      service covers the five public keys, not the chain codes, which also
      determine the addresses ([chaincodes_not_signed],
      [chaincode_changes_address]).
    - Transactions and keys: what is shown is exact ([raw_tx_info_exact]); the
      digests are BIP143's ([signing_data_is_bip143]); the commitment binds what
      is signed to what was shown ([commitment_binds]); change outputs are the
      wallet's own ([change_policy_exact]) and the device can spend them
      ([change_output_spendable]); keys from the cache are keys from the seed
      ([wallet_cache_sound]) as long as all paths are of one coin type
      ([testnet_path_gets_mainnet_key]); public and private derivation agree
      ([bip32_pub_matches_priv]).
    - Updates: whatever the host sends, the first device, built without
      bootloader updates, handles it, up to a command for a coprocessor, which
      may stop it, and boots a valid image that is not older
      ([fwup_device_boots]); an accepted
      update is the one that boots ([fwup_commit_boots]); what a successful
      finish has checked ([fwup_finish_sound]); chunks arrive in any order
      ([fwup_transfer_roundtrip]); patches are authenticated
      ([delta_unsigned_rejected]) and the patch library is confined, whatever
      it does ([delta_io_bounds], [delta_writer_refines_append]). On the second
      device the core writes its signature in a deferred session only after the
      coprocessor; a start of an update may erase it and the finish of a patch
      rewrites the slot, in exactly the way of the engine
      ([w3_core_commits_last]). It keeps what it will commit verified and staged
      while it waits, if the coprocessor answers a finish only when asked
      ([w3_commit_guarded]), and completes an interrupted commit
      ([w3_recovery_completes]).
    - Refinement: a ring buffer is a bounded queue ([ringbuf_refines_queue]); a
      TLV buffer is a bounded association list ([tlv_refines_assoc]); the flash
      log is a persistent counter with a flag, for as many calls as its page has
      words ([indexfs_refines_counter]); then entries leave the page
      ([indexfs_increment_leaves_page]).
    - Guessing the secret: [unlock_rate_limit] bounds the number of wrong
      guesses by the time spent, over all sequences of attempts, waits and
      resets, a reset in the middle of a check included, that the page of the
      counter has room for; [unlock_ok_sound],
      [unlock_wrong_spec] and [unlock_wipe_spec] give the behaviour of a check
      on each outcome.
    - Authorisation: what an accepted confirmation ([confirmation_validate_sound])
      or grant ([grant_verify_sound], [grant_deleted_no_replay],
      [grant_create_spec]) implies; how long a session lasts
      ([session_expires]); what enrolment needs ([enrollment_needs_grant]).
    - Transport: APDU sessions never fault ([wca_session_safe]), a command gets
      its own response or none, and no status words if it cannot be routed
      ([wca_response_correlated], [wca_reset_retires]), and both go through whole
      ([wca_roundtrip]).
    - The link: a message is delivered once, or not at all when its number is
      the last one received ([uc_exactly_once], [acks_use_up_numbers]), and
      acknowledged ([uc_acknowledged]), a send ends ([uc_send_bounded]),
      corrupted frames are dropped in silence ([uc_corruption_detected]), and no
      input breaks the state ([uc_session_invariant]); a confirmed session is with the pinned peer
      ([uart_session_authentic]), without replay ([uart_no_replay]), silent
      before ([uart_unconfirmed_silent]), and the handshake completes
      ([uart_handshake_pairs]), also on the stores of [ScCert]. The pinned
      certificate of a peer is final, through restarts, failing storage and
      interrupted migrations, as long as [lfs_stat] does not fail
      ([pin_is_final]); examples: a failure of it replaces the certificate
      ([failed_stat_replaces_pin]), an interrupted pin cannot be repeated
      ([interrupted_pin_blocks]), and a certificate left in the old directory
      is read in place of a new one ([old_certificate_shadows]).
    - Storage: [kv_set_get], [kv_survives_reset], [wkek_roundtrip],
      [fs_util_roundtrip], [tlv_init_restores].
    - Memory: [mempool_alloc_sound], [mempool_free_sound]; comparison without
      early exit equals memcmp ([memcmp_s_is_memcmp]); power:
      [shutdown_latches_timer].

    ** Loops and bounds

    Loops over a buffer or a list recurse on it or on a count the C code fixes;
    searches whose end depends on the contents take the fuel that the size of
    the searched area gives (65 turns for the records of the key-value file,
    the bytes of the page for the flash log, the bytes of the region for the
    search of image properties, the size of the patch file for its two passes),
    and the theorems that conclude [Done] show that it suffices. The wait for a
    response recurses on the actions of the other tasks that happen before the
    time-out, the wait for an acknowledgement on its retransmissions. The reader
    of [wca_roundtrip] needs at most one GET_RESPONSE per byte of the response.

    ** Not modelled

    Cryptography and bitcoin scripts (the crypto library, libew), the protobuf
    codec, drivers, the user interface, the other task loops; the mobile app,
    the server and the infrastructure. PSBT parsing, which the second device
    does not use. Of the key manager task, the commands that derive, sign and
    seal without a confirmation, as on the first device. [SignMachine] and
    [RecoverySpec] are machines of their own: in each of them the handlers of
    the other may do anything to the wallet, the confirmation and every file but
    the payload of a stream, or create and clear confirmations of other types.
    Telemetry, feature flags and onboarding records. Timing and concurrency
    appear only as the interleavings described above. *)

From Stdlib Require Export ZArith Lia.
From stdpp Require Export base numbers option list.

#[global] Open Scope Z_scope.

(** ** Machine integers

    A [w]-bit unsigned integer of the source is a [Z]; an operation that can
    leave the range of its C type is wrapped explicitly. [size_t] is 32 bits
    wide on both targets (Cortex-M33). *)

Definition u8 (x : Z) : Z := x mod 256.
Definition u16 (x : Z) : Z := x mod 65536.
Definition u32 (x : Z) : Z := x mod 4294967296.

(** A conversion of an unsigned value to [int32_t]. *)
Definition i32 (x : Z) : Z := let y := u32 x in if y <? 2147483648 then y else y - 4294967296.

Definition UINT8_MAX : Z := 255.
Definition UINT16_MAX : Z := 65535.
Definition UINT32_MAX : Z := 4294967295.

(** ** Outcomes of a call

    [Done] is a call that returned. [Abort] is a failed [ASSERT]: the device
    resets. [Undef] is undefined behaviour: an access outside of an array, or
    a division by zero. [Nofuel] marks a loop that the fuel of its model did
    not suffice for; the totality theorems exclude it. *)

Inductive outcome (A : Type) : Type :=
| Done (a : A)
| Abort
| Undef
| Nofuel.
Arguments Done {A} a.
Arguments Abort {A}.
Arguments Undef {A}.
Arguments Nofuel {A}.

Definition obind {A B} (m : outcome A) (k : A → outcome B) : outcome B :=
  match m with
  | Done a => k a
  | Abort => Abort
  | Undef => Undef
  | Nofuel => Nofuel
  end.

Declare Scope fw_scope.
Delimit Scope fw_scope with fw.
Notation "'let!' x ':=' e 'in' k" := (obind e (λ x, k))
  (at level 10, x name, e at level 200, k at level 200) : fw_scope.
Notation "'let!' ' x ':=' e 'in' k" := (obind e (λ x, k))
  (at level 10, x strict pattern, e at level 200, k at level 200) : fw_scope.
#[global] Open Scope fw_scope.

(** [ASSERT(c)] of lib/assert/assert.h. *)
Definition ASSERT (c : bool) : outcome unit := if c then Done tt else Abort.

(** ** Byte buffers

    A buffer is the list of its bytes. Lengths and offsets are [Z], as the C
    code computes with them. *)

Definition zlen {A} (l : list A) : Z := Z.of_nat (length l).

Definition ztake {A} (n : Z) (l : list A) : list A := take (Z.to_nat n) l.
Definition zdrop {A} (n : Z) (l : list A) : list A := drop (Z.to_nat n) l.

Definition byte_ok (b : Z) : Prop := 0 ≤ b < 256.
Definition bytes_ok (l : list Z) : Prop := Forall byte_ok l.

(** [l[i]] as an rvalue. *)
Definition aget {A} (l : list A) (i : Z) : outcome A :=
  if 0 <=? i then
    match l !! Z.to_nat i with Some x => Done x | None => Undef end
  else Undef.

(** [l[i] = x]. *)
Definition aset {A} (l : list A) (i : Z) (x : A) : outcome (list A) :=
  if (0 <=? i) && (i <? zlen l) then Done (<[Z.to_nat i := x]> l) else Undef.

(** [memcpy(dst, &l[off], n)]: the [n] bytes read. *)
Definition mread {A} (l : list A) (off n : Z) : outcome (list A) :=
  if (0 <=? off) && (0 <=? n) && (off + n <=? zlen l)
  then Done (ztake n (zdrop off l)) else Undef.

(** [memcpy(&l[off], d, length d)]: the buffer after the write. *)
Definition mwrite {A} (l : list A) (off : Z) (d : list A) : outcome (list A) :=
  if (0 <=? off) && (off + zlen d <=? zlen l)
  then Done (ztake off l ++ d ++ zdrop (off + zlen d) l) else Undef.

(** [a % b] on unsigned operands: division by zero is undefined. *)
Definition umod (a b : Z) : outcome Z := if b =? 0 then Undef else Done (a mod b).

(** Little-endian loads and stores, as the packed structs of the firmware are
    laid out on both targets. *)
Fixpoint le_encode (n : nat) (x : Z) : list Z :=
  match n with
  | O => []
  | S n => x mod 256 :: le_encode n (x / 256)
  end.

Fixpoint le_decode (l : list Z) : Z :=
  match l with
  | [] => 0
  | b :: l => b + 256 * le_decode l
  end.

Definition read_u16 (l : list Z) (off : Z) : outcome Z :=
  let! bs := mread l off 2 in Done (le_decode bs).
Definition read_u32 (l : list Z) (off : Z) : outcome Z :=
  let! bs := mread l off 4 in Done (le_decode bs).

(** ** Secure booleans (lib/secutils/inc/secutils.h)

    [secure_bool_t] is an enum with two sparse 32-bit encodings. In the
    absence of an injected fault the repeated reads of the [SECURE_IF_*] and
    [SECURE_DO_*] macros agree, and each macro is the plain conditional it
    protects. *)
Definition SECURE_FALSE : Z := 0xacefaecf.
Definition SECURE_TRUE : Z := 0xca38c3e8.
Definition secure_bool_t := Z.

(** ** Sizes of AES-GCM (lib/crypto/inc/aes.h) *)

Definition AES_256_LENGTH_BYTES : Z := 32.
Definition AES_GCM_IV_LENGTH : Z := 12.
Definition AES_GCM_TAG_LENGTH : Z := 16.

(** ** Tactics *)

(** Split the boolean tests that guard a model and turn them into facts about
    [Z] that [lia] understands. *)
Ltac btest :=
  repeat match goal with
  | H : context [?a && ?b] |- _ => rewrite andb_true_iff in H || rewrite andb_false_iff in H
  | H : (?a <? ?b) = true |- _ => apply Z.ltb_lt in H
  | H : (?a <? ?b) = false |- _ => apply Z.ltb_ge in H
  | H : (?a <=? ?b) = true |- _ => apply Z.leb_le in H
  | H : (?a <=? ?b) = false |- _ => apply Z.leb_gt in H
  | H : (?a =? ?b) = true |- _ => apply Z.eqb_eq in H
  | H : (?a =? ?b) = false |- _ => apply Z.eqb_neq in H
  | H : _ ∧ _ |- _ => destruct H
  end.

(** Decide a comparison of [Z] in the goal that [lia] can settle. *)
Ltac zdecide :=
  repeat first
    [ rewrite (proj2 (Z.ltb_lt _ _)) by lia
    | rewrite (proj2 (Z.ltb_ge _ _)) by lia
    | rewrite (proj2 (Z.leb_le _ _)) by lia
    | rewrite (proj2 (Z.leb_gt _ _)) by lia
    | rewrite (proj2 (Z.eqb_eq _ _)) by lia
    | rewrite (proj2 (Z.eqb_neq _ _)) by lia ].

(** ** Generic lemmas *)

Create HintDb fw.

Lemma obind_done {A B} (a : A) (k : A → outcome B) : obind (Done a) k = k a.
Proof. reflexivity. Qed.

(** A call that returned ran its first part to the end. *)
Lemma obind_inv {A B} (m : outcome A) (k : A → outcome B) b :
  obind m k = Done b → ∃ a, m = Done a ∧ k a = Done b.
Proof. destruct m; simpl; intros; try discriminate; eauto. Qed.

(** An assertion that held. *)
Lemma assert_bind {B} (c : bool) (k : unit → outcome B) b :
  obind (ASSERT c) k = Done b → c = true ∧ k tt = Done b.
Proof. destruct c; [by simpl|done]. Qed.

Lemma u8_small x : 0 ≤ x < 256 → u8 x = x.
Proof. apply Z.mod_small. Qed.
Lemma u16_small x : 0 ≤ x < 65536 → u16 x = x.
Proof. apply Z.mod_small. Qed.
Lemma u32_small x : 0 ≤ x < 4294967296 → u32 x = x.
Proof. apply Z.mod_small. Qed.
Lemma u32_range x : 0 ≤ u32 x < 4294967296.
Proof. apply Z.mod_pos_bound. lia. Qed.
Lemma u16_range x : 0 ≤ u16 x < 65536.
Proof. apply Z.mod_pos_bound. lia. Qed.

Lemma umod_done a b : b ≠ 0 → umod a b = Done (a mod b).
Proof. intros. unfold umod. by zdecide. Qed.

Lemma zlen_nonneg {A} (l : list A) : 0 ≤ zlen l.
Proof. unfold zlen. lia. Qed.
Lemma zlen_app {A} (l k : list A) : zlen (l ++ k) = zlen l + zlen k.
Proof. unfold zlen. rewrite length_app. lia. Qed.
Lemma zlen_cons {A} (x : A) l : zlen (x :: l) = 1 + zlen l.
Proof. unfold zlen. simpl length. lia. Qed.
Lemma zlen_nil {A} : zlen (@nil A) = 0.
Proof. reflexivity. Qed.
Lemma zlen_insert {A} (l : list A) i x : zlen (<[i := x]> l) = zlen l.
Proof. unfold zlen. by rewrite length_insert. Qed.
Lemma zlen_replicate {A} n (x : A) : zlen (replicate n x) = Z.of_nat n.
Proof. unfold zlen. by rewrite length_replicate. Qed.
Lemma zlen_ztake {A} n (l : list A) : 0 ≤ n ≤ zlen l → zlen (ztake n l) = n.
Proof. unfold zlen, ztake. rewrite length_take. lia. Qed.
Lemma zlen_zdrop {A} n (l : list A) : 0 ≤ n ≤ zlen l → zlen (zdrop n l) = zlen l - n.
Proof. unfold zlen, zdrop. rewrite length_drop. lia. Qed.
Lemma zlen_zero {A} (l : list A) : zlen l = 0 → l = [].
Proof. destruct l; [done|]. rewrite zlen_cons. pose proof (zlen_nonneg l). lia. Qed.
Lemma zlen_nat {A} (l : list A) : Z.to_nat (zlen l) = length l.
Proof. unfold zlen. lia. Qed.

Create Rewrite HintDb zlen.
#[export] Hint Rewrite @zlen_app @zlen_cons @zlen_nil @zlen_insert @zlen_replicate : zlen.

(** Normalise list lengths everywhere, then close by linear arithmetic. *)
Ltac zl :=
  autorewrite with zlen in *;
  repeat match goal with
  | |- context [zlen ?l] =>
      lazymatch goal with
      | H : 0 ≤ zlen l |- _ => fail
      | _ => pose proof (zlen_nonneg l)
      end
  | _ : context [zlen ?l] |- _ =>
      lazymatch goal with
      | H : 0 ≤ zlen l |- _ => fail
      | _ => pose proof (zlen_nonneg l)
      end
  end; lia.

Lemma ztake_app_exact {A} (l k : list A) n : n = zlen l → ztake n (l ++ k) = l.
Proof. intros ->. unfold ztake. rewrite zlen_nat. apply take_app_length. Qed.
Lemma zdrop_app_exact {A} (l k : list A) n : n = zlen l → zdrop n (l ++ k) = k.
Proof. intros ->. unfold zdrop. rewrite zlen_nat. apply drop_app_length. Qed.
Lemma zdrop_app_ge {A} (l k : list A) n :
  zlen l ≤ n → zdrop n (l ++ k) = zdrop (n - zlen l) k.
Proof.
  intros. unfold zdrop, zlen in *. rewrite drop_app_ge by lia. f_equal. lia.
Qed.
Lemma ztake_app_le {A} (l k : list A) n : n ≤ zlen l → ztake n (l ++ k) = ztake n l.
Proof. intros. unfold ztake, zlen in *. apply take_app_le. lia. Qed.
Lemma ztake_zdrop {A} n (l : list A) : ztake n l ++ zdrop n l = l.
Proof. apply take_drop. Qed.
Lemma ztake_all {A} (l : list A) n : zlen l ≤ n → ztake n l = l.
Proof. intros. unfold ztake, zlen in *. apply take_ge. lia. Qed.
Lemma zdrop_all {A} (l : list A) n : zlen l ≤ n → zdrop n l = [].
Proof. intros. unfold zdrop, zlen in *. apply drop_ge. lia. Qed.
Lemma ztake_0 {A} (l : list A) : ztake 0 l = [].
Proof. reflexivity. Qed.
Lemma zdrop_0 {A} (l : list A) : zdrop 0 l = l.
Proof. reflexivity. Qed.
Lemma zdrop_zdrop {A} (l : list A) n m :
  0 ≤ n → 0 ≤ m → zdrop n (zdrop m l) = zdrop (m + n) l.
Proof. intros. unfold zdrop. rewrite drop_drop. f_equal. lia. Qed.

Lemma aget_Some {A} (l : list A) i x :
  0 ≤ i → l !! Z.to_nat i = Some x → aget l i = Done x.
Proof. intros. unfold aget. zdecide. by rewrite H0. Qed.

Lemma aget_total {A} (l : list A) i : 0 ≤ i < zlen l → ∃ x, aget l i = Done x.
Proof.
  intros. unfold aget, zlen in *. zdecide.
  destruct (lookup_lt_is_Some_2 l (Z.to_nat i)) as [x ->]; [lia|eauto].
Qed.

Lemma aset_done {A} (l : list A) i x :
  0 ≤ i < zlen l → aset l i x = Done (<[Z.to_nat i := x]> l).
Proof. intros. unfold aset. zdecide. done. Qed.

Lemma mread_app {A} (l d k : list A) off n :
  off = zlen l → n = zlen d → mread (l ++ d ++ k) off n = Done d.
Proof.
  intros -> ->. unfold mread.
  replace (_ && _) with true
    by (symmetry; rewrite !andb_true_iff; repeat split; apply Z.leb_le; zl).
  rewrite zdrop_app_exact by done. by rewrite ztake_app_exact.
Qed.

Lemma mwrite_app {A} (l d0 d k : list A) off :
  off = zlen l → zlen d = zlen d0 → mwrite (l ++ d0 ++ k) off d = Done (l ++ d ++ k).
Proof.
  intros -> Hd. unfold mwrite.
  replace (_ && _) with true
    by (symmetry; rewrite !andb_true_iff; repeat split; apply Z.leb_le; zl).
  rewrite ztake_app_exact by done. rewrite (app_assoc l d0 k), zdrop_app_exact; [done|zl].
Qed.

Lemma mread_eq {A} (buf l d k : list A) off n :
  buf = l ++ d ++ k → off = zlen l → n = zlen d → mread buf off n = Done d.
Proof. intros ->. apply mread_app. Qed.

Lemma mwrite_eq {A} (buf l d0 d k : list A) off :
  buf = l ++ d0 ++ k → off = zlen l → zlen d = zlen d0 → mwrite buf off d = Done (l ++ d ++ k).
Proof. intros ->. apply mwrite_app. Qed.

(** A copy of a whole buffer. *)
Lemma mread_all {A} (l : list A) : mread l 0 (zlen l) = Done l.
Proof. apply (mread_eq l [] l []); [by rewrite app_nil_r|done|done]. Qed.

Lemma le_encode_length n x : length (le_encode n x) = n.
Proof. revert x. induction n; intros; simpl; auto. Qed.

Lemma zlen_le_encode n x : zlen (le_encode n x) = Z.of_nat n.
Proof. unfold zlen. by rewrite le_encode_length. Qed.
#[export] Hint Rewrite zlen_le_encode : zlen.

Lemma le_decode_encode n x : 0 ≤ x < 256 ^ Z.of_nat n → le_decode (le_encode n x) = x.
Proof.
  revert x. induction n as [|n IH]; intros x Hx; simpl.
  - rewrite Z.pow_0_r in Hx. lia.
  - rewrite IH.
    + pose proof (Z.div_mod x 256). lia.
    + rewrite Nat2Z.inj_succ, Z.pow_succ_r in Hx by lia. split.
      * apply Z.div_pos; lia.
      * apply Z.div_lt_upper_bound; lia.
Qed.

Lemma le_encode_decode l : bytes_ok l → le_encode (length l) (le_decode l) = l.
Proof.
  induction 1 as [|b l Hb Hl IH]; simpl; [done|]. unfold byte_ok in Hb.
  rewrite Z.mul_comm, Z.mod_add, Z.div_add, Z.mod_small by lia.
  rewrite Z.div_small by lia. f_equal. rewrite Z.add_0_l. apply IH.
Qed.

Lemma le_encode_bytes n x : bytes_ok (le_encode n x).
Proof.
  revert x. induction n; intros; simpl; constructor; [|apply IHn].
  apply Z.mod_pos_bound. lia.
Qed.

Lemma le_decode_range l : bytes_ok l → 0 ≤ le_decode l < 256 ^ zlen l.
Proof.
  induction 1 as [|b l Hb Hl IH]; [done|].
  pose proof (zlen_nonneg l). rewrite zlen_cons, Z.pow_add_r by lia.
  unfold byte_ok in Hb. simpl le_decode. lia.
Qed.

(** Fields of a packed word: a disjoint [lor] is a sum. *)
Lemma lor_shiftl_add a b n : 0 ≤ n → 0 ≤ a < 2 ^ n → Z.lor a (Z.shiftl b n) = a + b * 2 ^ n.
Proof.
  intros Hn Ha. rewrite <- Z.shiftl_mul_pow2 by done. symmetry. apply Z.add_nocarry_lor.
  apply Z.bits_inj'. intros k Hk. rewrite Z.land_spec, Z.bits_0.
  destruct (Z.lt_ge_cases k n) as [Hlt|Hge].
  - rewrite Z.shiftl_spec_low by done. apply andb_false_r.
  - rewrite <- (Z.mod_small a (2 ^ n)) by done. by rewrite Z.mod_pow2_bits_high.
Qed.

(** A test for bytes. *)
Definition is_byte (b : Z) : bool := (0 <=? b) && (b <? 256).

Lemma is_byte_ok m : forallb is_byte m = true → bytes_ok m.
Proof.
  induction m as [|b m IH]; simpl; [constructor|]. intros [Hb Hm]%andb_true_iff.
  unfold is_byte in Hb. constructor; [unfold byte_ok; lia|]. by apply IH.
Qed.

Lemma u8_byte x : byte_ok (u8 x).
Proof. apply Z.mod_pos_bound. lia. Qed.

(** ** Calls that stay within their memory

    A [safe] call returns a value that satisfies [P], or stops at an assertion;
    it neither leaves an array nor runs out of fuel. *)

Definition safe {A} (P : A → Prop) (o : outcome A) : Prop :=
  match o with
  | Done a => P a
  | Abort => True
  | Undef | Nofuel => False
  end.

Lemma safe_bind {A B} (P : A → Prop) (Q : B → Prop) (m : outcome A) (k : A → outcome B) :
  safe P m → (∀ a, P a → safe Q (k a)) → safe Q (obind m k).
Proof. destruct m; simpl; auto. Qed.

(** Like [safe], but an assertion may only fail if [F] holds. *)
Definition wp {A} (F : Prop) (P : A → Prop) (o : outcome A) : Prop :=
  match o with
  | Done a => P a
  | Abort => F
  | Undef | Nofuel => False
  end.

Lemma wp_safe {A} (P : A → Prop) (o : outcome A) : wp True P o ↔ safe P o.
Proof. by destruct o. Qed.

Lemma wp_total {A} (P : A → Prop) (o : outcome A) : wp False P o → ∃ a, o = Done a ∧ P a.
Proof. destruct o; simpl; try done. eauto. Qed.

Lemma wp_bind_safe {A B} (F : Prop) (P : A → Prop) (Q : B → Prop) (m : outcome A)
    (k : A → outcome B) :
  safe P m → (m = Abort → F) → (∀ a, P a → wp F Q (k a)) → wp F Q (obind m k).
Proof. destruct m; simpl; auto. Qed.

(** A call that fails an assertion did so in one of its parts. *)
Lemma obind_abort {A B} (m : outcome A) (k : A → outcome B) :
  obind m k = Abort → m = Abort ∨ ∃ a, m = Done a ∧ k a = Abort.
Proof. destruct m; simpl; eauto; done. Qed.

Lemma safe_mono {A} (P Q : A → Prop) (o : outcome A) : safe P o → (∀ a, P a → Q a) → safe Q o.
Proof. destruct o; simpl; auto. Qed.

Lemma safe_assert {B} (Q : B → Prop) (c : bool) (k : unit → outcome B) :
  (c = true → safe Q (k tt)) → safe Q (obind (ASSERT c) k).
Proof. destruct c; simpl; auto. Qed.

Lemma safe_aget {A B} (Q : B → Prop) (l : list A) i (k : A → outcome B) :
  0 ≤ i < zlen l → (∀ x, l !! Z.to_nat i = Some x → safe Q (k x)) → safe Q (obind (aget l i) k).
Proof.
  intros Hi Hk. unfold aget. zdecide. destruct (l !! Z.to_nat i) as [x|] eqn:E; simpl; [auto|].
  apply lookup_ge_None in E. unfold zlen in Hi. lia.
Qed.

Lemma safe_aset {A B} (Q : B → Prop) (l : list A) i x (k : list A → outcome B) :
  0 ≤ i < zlen l → safe Q (k (<[Z.to_nat i := x]> l)) → safe Q (obind (aset l i x) k).
Proof. intros. by rewrite aset_done. Qed.

Lemma safe_mread {A B} (Q : B → Prop) (l : list A) off n (k : list A → outcome B) :
  0 ≤ off → 0 ≤ n → off + n ≤ zlen l →
  (zlen (ztake n (zdrop off l)) = n → safe Q (k (ztake n (zdrop off l)))) →
  safe Q (obind (mread l off n) k).
Proof.
  intros H1 H2 H3 Hk. unfold mread. zdecide. cbn [andb obind]. apply Hk.
  rewrite zlen_ztake; [done|]. rewrite zlen_zdrop; lia.
Qed.

Lemma mwrite_done {A} (l d : list A) off :
  0 ≤ off → off + zlen d ≤ zlen l →
  ∃ l', mwrite l off d = Done l' ∧ zlen l' = zlen l.
Proof.
  intros H1 H2. unfold mwrite. zdecide. cbn [andb]. eexists. split; [done|].
  pose proof (zlen_nonneg d). rewrite !zlen_app, zlen_ztake, zlen_zdrop; lia.
Qed.

Lemma safe_mwrite {A B} (Q : B → Prop) (l d : list A) off (k : list A → outcome B) :
  0 ≤ off → off + zlen d ≤ zlen l →
  (∀ l', mwrite l off d = Done l' → zlen l' = zlen l → safe Q (k l')) →
  safe Q (obind (mwrite l off d) k).
Proof.
  intros H1 H2 Hk. destruct (mwrite_done l d off H1 H2) as (l' & E & Hl). rewrite E. by apply Hk.
Qed.

#[export] Hint Resolve le_encode_bytes zlen_nonneg u32_range u16_range : fw.
