(* ===== verification/Sha256.v ===== *)
(** * SHA-256 (lib/crypto/inc/hash.h)

    The streaming and the one-shot calls of the crypto library, which run on the
    secure element. [sha256] is the function they compute and [stream_bytes] the
    bytes that a context has been fed. *)

From S2P Require Import Prelude.

Definition SHA256_DIGEST_SIZE : Z := 32.

Class Sha256 (C : Type) := {
  crypto_sha256_stream_init : option C;
  crypto_sha256_stream_update : C → list Z → option C;
  crypto_sha256_stream_final : C → option (list Z);
  crypto_hash_sha256 : list Z → option (list Z);
  sha256 : list Z → list Z;
  stream_bytes : C → list Z;
}.

Class Sha256Laws (C : Type) `{Sha256 C} : Prop := {
  law_stream_init c : crypto_sha256_stream_init = Some c → stream_bytes c = [];
  law_stream_update c bs c' : crypto_sha256_stream_update c bs = Some c' →
    stream_bytes c' = stream_bytes c ++ bs;
  law_stream_final c h : crypto_sha256_stream_final c = Some h → h = sha256 (stream_bytes c);
  law_hash_sha256 m h : crypto_hash_sha256 m = Some h → h = sha256 m;
  law_digest m : zlen (sha256 m) = SHA256_DIGEST_SIZE ∧ bytes_ok (sha256 m);
}.

(** A digest with a domain tag: the four stream calls, as the handlers write
    them. *)
Definition tagged_digest {C} `{Sha256 C} (tag data : list Z) : option (list Z) :=
  match crypto_sha256_stream_init with
  | None => None
  | Some c =>
      match crypto_sha256_stream_update c tag with
      | None => None
      | Some c =>
          match crypto_sha256_stream_update c data with
          | None => None
          | Some c => crypto_sha256_stream_final c
          end
      end
  end.

Lemma tagged_digest_spec {C} `{Sha256Laws C} tag data h : tagged_digest (C := C) tag data = Some h →
  h = sha256 (tag ++ data).
Proof.
  unfold tagged_digest. destruct crypto_sha256_stream_init as [c0|] eqn:E0; [|done]. apply law_stream_init in E0.
  destruct (crypto_sha256_stream_update c0 _) as [c1|] eqn:E1; [|done]. apply law_stream_update in E1.
  destruct (crypto_sha256_stream_update c1 _) as [c2|] eqn:E2; [|done]. apply law_stream_update in E2.
  intros ->%law_stream_final. by rewrite E2, E1, E0.
Qed.

(** ** A toy hash *)

(** A sum, repeated to the length of a digest. *)
Definition toy_hash (l : list Z) : Z := foldl (λ a b, (a * 31 + b) mod 65521) 7 l.

Definition toy_digest (l : list Z) : list Z :=
  replicate 16 (toy_hash l mod 256) ++ replicate 16 (toy_hash l / 256 mod 256).

Definition toy_sha256 : Sha256 (list Z) := {|
  crypto_sha256_stream_init := Some [];
  crypto_sha256_stream_update c bs := Some (c ++ bs);
  crypto_sha256_stream_final c := Some (toy_digest c);
  crypto_hash_sha256 m := Some (toy_digest m);
  sha256 := toy_digest;
  stream_bytes c := c;
|}.

Lemma toy_sha256_laws : @Sha256Laws (list Z) toy_sha256.
Proof.
  split; cbn [crypto_sha256_stream_init crypto_sha256_stream_update crypto_sha256_stream_final
    crypto_hash_sha256 sha256 stream_bytes toy_sha256]; try congruence.
  intros m. unfold toy_digest. split; [by rewrite zlen_app, !zlen_replicate|].
  apply Forall_app. split; apply Forall_replicate; apply Z.mod_pos_bound; lia.
Qed.
