(* ===== verification/Ringbuf.v ===== *)
(** * The byte ring buffer (lib/ringbuf)

    [ringbuf_t] and its operations, from lib/ringbuf/ringbuf.c. Every public
    operation runs between [api.lock] and [api.unlock]; the model is the body
    of the critical section, which no other call interleaves with.

    The specification is a bounded FIFO queue. The buffer keeps two
    conventions for "full" side by side: [ringbuf_push] leaves one slot free
    and never sets [full], [ringbuf_push_buf] uses every slot and sets [full]
    when [head] catches up with [tail]. The refinement theorem says for which
    calls the two agree with the queue, and the examples at the end show what
    happens on the calls it leaves out. *)

From S2P Require Import Prelude.

Record ringbuf_t := mk_ringbuf {
  rb_buf : list Z;
  rb_max_size : Z;
  rb_head : Z;
  rb_tail : Z;
  rb_full : bool;
}.

Definition ringbuf_init (buf : list Z) (size : Z) : ringbuf_t :=
  mk_ringbuf buf size 0 0 false.

Definition ringbuf_push (b : ringbuf_t) (value : Z) : outcome (bool * ringbuf_t) :=
  let! m := umod (u32 (rb_head b + 1)) (rb_max_size b) in
  let next_head := u16 m in
  if next_head =? rb_tail b then Done (false, b)
  else
    let! buf := aset (rb_buf b) (rb_head b) value in
    Done (true, mk_ringbuf buf (rb_max_size b) next_head (rb_tail b) (rb_full b)).

Definition _ringbuf_push (b : ringbuf_t) (value : Z) : outcome ringbuf_t :=
  let! m := umod (u32 (rb_head b + 1)) (rb_max_size b) in
  let next_head := u16 m in
  let! buf := aset (rb_buf b) (rb_head b) value in
  Done (mk_ringbuf buf (rb_max_size b) next_head (rb_tail b) (next_head =? rb_tail b)).

Definition _ringbuf_size (b : ringbuf_t) : outcome Z :=
  umod (u32 (u32 (rb_head b - rb_tail b) + rb_max_size b)) (rb_max_size b).

Definition ringbuf_free (b : ringbuf_t) : outcome Z :=
  let! n := _ringbuf_size b in Done (u32 (rb_max_size b - n)).

(** The body of the loop of [ringbuf_push_buf]; [ret] is the last index. *)
Fixpoint push_buf_loop (n : nat) (i ret : Z) (b : ringbuf_t) (data : list Z)
    : outcome (Z * ringbuf_t) :=
  match n with
  | O => Done (ret, b)
  | S n =>
      let! v := aget data i in
      let! b := _ringbuf_push b v in
      push_buf_loop n (i + 1) i b data
  end.

Definition ringbuf_push_buf (b : ringbuf_t) (data : list Z) (len : Z) : outcome (Z * ringbuf_t) :=
  let! free := ringbuf_free b in
  if free <? len then Done (0, b)
  else push_buf_loop (Z.to_nat len) 0 0 b data.

Definition _ringbuf_pop (b : ringbuf_t) : outcome (Z * ringbuf_t) :=
  let! value := aget (rb_buf b) (rb_tail b) in
  let! tail := umod (u32 (rb_tail b + 1)) (rb_max_size b) in
  Done (value, mk_ringbuf (rb_buf b) (rb_max_size b) (rb_head b) tail false).

Definition ringbuf_pop (b : ringbuf_t) : outcome (option Z * ringbuf_t) :=
  if rb_head b =? rb_tail b then Done (None, b)
  else
    let! value := aget (rb_buf b) (rb_tail b) in
    let! tail := umod (u32 (rb_tail b + 1)) (rb_max_size b) in
    Done (Some value, mk_ringbuf (rb_buf b) (rb_max_size b) (rb_head b) tail (rb_full b)).

(** [out] is the caller's buffer, written from index [i] on. *)
Fixpoint pop_buf_loop (n : nat) (i ret : Z) (b : ringbuf_t) (out : list Z)
    : outcome (Z * list Z * ringbuf_t) :=
  match n with
  | O => Done (ret, out, b)
  | S n =>
      let! '(v, b) := _ringbuf_pop b in
      let! out := aset out i v in
      pop_buf_loop n (i + 1) i b out
  end.

Definition ringbuf_pop_buf (b : ringbuf_t) (out : list Z) (len : Z)
    : outcome (Z * list Z * ringbuf_t) :=
  pop_buf_loop (Z.to_nat len) 0 0 b out.

Definition ringbuf_advance (b : ringbuf_t) (bytes : Z) : outcome ringbuf_t :=
  let! tail := umod (u32 (rb_tail b + bytes)) (rb_max_size b) in
  Done (mk_ringbuf (rb_buf b) (rb_max_size b) (rb_head b) tail (rb_full b)).

Definition ringbuf_peek (b : ringbuf_t) (idx : Z) : outcome (option Z) :=
  let! n := _ringbuf_size b in
  if n <=? idx then Done None
  else
    let! p := umod (u32 (rb_tail b + idx)) (rb_max_size b) in
    let! v := aget (rb_buf b) p in
    Done (Some v).

Fixpoint copy_loop (n : nat) (i ptr : Z) (b : ringbuf_t) (out : list Z) : outcome (list Z) :=
  match n with
  | O => Done out
  | S n =>
      let! v := aget (rb_buf b) ptr in
      let! out := aset out i v in
      let! ptr := umod (u32 (ptr + 1)) (rb_max_size b) in
      copy_loop n (i + 1) ptr b out
  end.

(** The C function returns [true] on every path. *)
Definition ringbuf_copy_most_recent (b : ringbuf_t) (out : list Z) (len : Z) : outcome (list Z) :=
  if rb_max_size b <? len then Done out
  else
    let diff := rb_head b - len in
    let ptr := if diff <? 0 then u32 (rb_max_size b - len) else diff in
    copy_loop (Z.to_nat len) 0 ptr b out.

Definition ringbuf_clear (b : ringbuf_t) : ringbuf_t :=
  mk_ringbuf (rb_buf b) (rb_max_size b) (rb_head b) (rb_head b) false.

Definition ringbuf_size_contiguous (b : ringbuf_t) : Z :=
  if rb_tail b <? rb_head b then u32 (rb_head b - rb_tail b)
  else u32 (rb_max_size b - rb_tail b).

Definition ringbuf_empty (b : ringbuf_t) : bool :=
  if rb_full b then false else rb_head b =? rb_tail b.

(** The pointer returned is the index of the tail in [buf]; [None] is NULL. *)
Definition ringbuf_tail_ptr (b : ringbuf_t) : option Z :=
  if negb (rb_head b =? rb_tail b) || rb_full b then Some (rb_tail b) else None.

Definition ringbuf_size (b : ringbuf_t) : outcome Z :=
  if rb_full b then Done (rb_max_size b) else _ringbuf_size b.

(** ** The queue a ring buffer holds *)

(** The position [k] slots after [t]. *)
Definition ring_idx (m t k : Z) : Z := if t + k <? m then t + k else t + k - m.

Definition rb_count (b : ringbuf_t) : Z :=
  if rb_full b then rb_max_size b else ring_idx (rb_max_size b) (rb_head b) (rb_max_size b - rb_tail b).

Definition rb_contents (b : ringbuf_t) : list Z :=
  (λ k, rb_buf b !!! Z.to_nat (ring_idx (rb_max_size b) (rb_tail b) k)) <$> seqZ 0 (rb_count b).

(** Well-formedness. The bound on [max_size] comes from the [uint16_t]
    truncation of [next_head]. *)
Record rb_wf (b : ringbuf_t) : Prop := {
  wf_max : 0 < rb_max_size b ≤ 65536;
  wf_len : zlen (rb_buf b) = rb_max_size b;
  wf_head : 0 ≤ rb_head b < rb_max_size b;
  wf_tail : 0 ≤ rb_tail b < rb_max_size b;
  wf_full : rb_full b = true → rb_head b = rb_tail b;
}.

(** ** Operations as data, and the queue they refine *)

Inductive rb_op :=
| OpPush (v : Z)
| OpPop
| OpPushBuf (data : list Z)
| OpPopBuf (n : Z)
| OpAdvance (n : Z)
| OpPeek (i : Z)
| OpClear
| OpSize
| OpEmpty.

Inductive rb_obs :=
| ObsBool (r : bool)
| ObsByte (r : option Z)
| ObsRet (r : Z)
| ObsBytes (r : Z) (out : list Z)
| ObsUnit.

Definition rb_step (b : ringbuf_t) (op : rb_op) : outcome (rb_obs * ringbuf_t) :=
  match op with
  | OpPush v => let! '(r, b) := ringbuf_push b v in Done (ObsBool r, b)
  | OpPop => let! '(r, b) := ringbuf_pop b in Done (ObsByte r, b)
  | OpPushBuf data => let! '(r, b) := ringbuf_push_buf b data (zlen data) in Done (ObsRet r, b)
  | OpPopBuf n =>
      let! '(r, out, b) := ringbuf_pop_buf b (replicate (Z.to_nat n) 0) n in
      Done (ObsBytes r out, b)
  | OpAdvance n => let! b := ringbuf_advance b n in Done (ObsUnit, b)
  | OpPeek i => let! r := ringbuf_peek b i in Done (ObsByte r, b)
  | OpClear => Done (ObsUnit, ringbuf_clear b)
  | OpSize => let! n := ringbuf_size b in Done (ObsRet n, b)
  | OpEmpty => Done (ObsBool (ringbuf_empty b), b)
  end.

Fixpoint rb_run (b : ringbuf_t) (ops : list rb_op) : outcome (list rb_obs * ringbuf_t) :=
  match ops with
  | [] => Done ([], b)
  | op :: ops =>
      let! '(o, b) := rb_step b op in
      let! '(os, b) := rb_run b ops in
      Done (o :: os, b)
  end.

(** The bounded queue of [cap] slots. [None] is a call outside of the
    contract: a byte-wise call, a peek or an advance while every slot is
    taken, a block write while every slot is taken, or a read of more bytes
    than there are. The return value of the block operations is the index of
    the last byte moved, as in the source. *)
Definition queue_step (cap : Z) (q : list Z) (op : rb_op) : option (rb_obs * list Z) :=
  let n := zlen q in
  match op with
  | OpPush v =>
      if n =? cap then None
      else if n + 1 <? cap then Some (ObsBool true, q ++ [v]) else Some (ObsBool false, q)
  | OpPop =>
      if n =? cap then None
      else match q with [] => Some (ObsByte None, []) | x :: q => Some (ObsByte (Some x), q) end
  | OpPushBuf data =>
      if n =? cap then None
      else if cap - n <? zlen data then Some (ObsRet 0, q)
      else Some (ObsRet (Z.max 0 (zlen data - 1)), q ++ data)
  | OpPopBuf k =>
      if (0 <=? k) && (k <=? n)
      then Some (ObsBytes (Z.max 0 (k - 1)) (ztake k q), zdrop k q) else None
  | OpAdvance k =>
      if (n <? cap) && (0 <=? k) && (k <=? n) then Some (ObsUnit, zdrop k q) else None
  | OpPeek i =>
      if (n <? cap) && (0 <=? i) then Some (ObsByte (q !! Z.to_nat i), q) else None
  | OpClear => Some (ObsUnit, [])
  | OpSize => Some (ObsRet n, q)
  | OpEmpty => Some (ObsBool (n =? 0), q)
  end.

Fixpoint queue_run (cap : Z) (q : list Z) (ops : list rb_op) : option (list rb_obs * list Z) :=
  match ops with
  | [] => Some ([], q)
  | op :: ops =>
      '(o, q) ← queue_step cap q op;
      '(os, q) ← queue_run cap q ops;
      Some (o :: os, q)
  end.

(** ** Ring arithmetic *)

Lemma ring_idx_range m t k : 0 ≤ t < m → 0 ≤ k ≤ m → 0 ≤ ring_idx m t k < m ∨ k = m.
Proof. unfold ring_idx. case_match; btest; lia. Qed.

Lemma ring_idx_mod m t k : 0 ≤ t < m → 0 ≤ k < m → (t + k) mod m = ring_idx m t k.
Proof.
  intros. unfold ring_idx. case_match; btest.
  - apply Z.mod_small; lia.
  - symmetry. apply (Z.mod_unique_pos _ _ 1); lia.
Qed.

Ltac ring_arith := unfold ring_idx in *; repeat case_match; btest; try lia.

Lemma ring_succ b : rb_wf b →
  umod (u32 (rb_head b + 1)) (rb_max_size b) = Done (ring_idx (rb_max_size b) (rb_head b) 1).
Proof.
  intros [Hm _ Hh _ _]. rewrite u32_small, umod_done by lia. f_equal.
  destruct (decide (rb_max_size b = 1)) as [E|].
  - rewrite E, Z.mod_1_r. ring_arith.
  - apply ring_idx_mod; lia.
Qed.

Lemma ring_succ_tail b : rb_wf b →
  umod (u32 (rb_tail b + 1)) (rb_max_size b) = Done (ring_idx (rb_max_size b) (rb_tail b) 1).
Proof.
  intros [Hm _ _ Hh _]. rewrite u32_small, umod_done by lia. f_equal.
  destruct (decide (rb_max_size b = 1)) as [E|].
  - rewrite E, Z.mod_1_r. ring_arith.
  - apply ring_idx_mod; lia.
Qed.

Lemma rb_count_range b : rb_wf b → 0 ≤ rb_count b ≤ rb_max_size b.
Proof. intros [? ? ? ? ?]. unfold rb_count. destruct (rb_full b); [lia|]. ring_arith. Qed.

Lemma rb_count_full b : rb_wf b → rb_full b = false → rb_count b < rb_max_size b.
Proof. intros [? ? ? ? ?] Hf. unfold rb_count. rewrite Hf. ring_arith. Qed.

Lemma rb_full_count b : rb_wf b → rb_full b = (rb_count b =? rb_max_size b).
Proof.
  intros Hwf. destruct (rb_full b) eqn:E.
  - unfold rb_count. rewrite E. symmetry. by apply Z.eqb_refl.
  - pose proof (rb_count_full b Hwf E). symmetry. apply Z.eqb_neq. lia.
Qed.

Lemma zlen_contents b : rb_wf b → zlen (rb_contents b) = rb_count b.
Proof.
  intros Hwf. unfold rb_contents, zlen. rewrite length_fmap, length_seqZ.
  pose proof (rb_count_range b Hwf). lia.
Qed.

Lemma _ringbuf_size_spec b : rb_wf b →
  _ringbuf_size b = Done (if rb_full b then 0 else rb_count b).
Proof.
  intros [? ? ? ? Hf]. unfold _ringbuf_size.
  assert (u32 (u32 (rb_head b - rb_tail b) + rb_max_size b)
          = rb_head b - rb_tail b + rb_max_size b) as ->.
  { unfold u32. rewrite Zplus_mod_idemp_l. apply Z.mod_small. lia. }
  rewrite umod_done by lia. f_equal. unfold rb_count. destruct (rb_full b).
  - rewrite Hf by done. replace (_ - _ + _) with (rb_max_size b) by lia. apply Z.mod_same. lia.
  - destruct (Z.lt_ge_cases (rb_head b) (rb_tail b)).
    + rewrite Z.mod_small by lia. ring_arith.
    + symmetry. apply (Z.mod_unique_pos _ _ 1); ring_arith.
Qed.

(** The slot [k] positions after the tail holds element [k] of the queue. *)
Lemma rb_contents_lookup b k : rb_wf b → 0 ≤ k < rb_count b →
  rb_contents b !! Z.to_nat k
  = Some (rb_buf b !!! Z.to_nat (ring_idx (rb_max_size b) (rb_tail b) k)).
Proof.
  intros Hwf Hk. unfold rb_contents.
  rewrite list_lookup_fmap, (proj2 (lookup_seqZ _ _ (Z.to_nat k) k)) by lia. done.
Qed.

Lemma slot_get b i : rb_wf b → 0 ≤ i < rb_max_size b →
  aget (rb_buf b) i = Done (rb_buf b !!! Z.to_nat i).
Proof.
  intros [? Hl ? ? ?] Hi. apply aget_Some; [lia|]. apply list_lookup_lookup_total_lt.
  unfold zlen in Hl. lia.
Qed.

(** ** The two primitive moves *)

Lemma _ringbuf_push_spec b v : rb_wf b → rb_full b = false →
  ∃ b', _ringbuf_push b v = Done b' ∧ rb_wf b' ∧ rb_max_size b' = rb_max_size b
    ∧ rb_contents b' = rb_contents b ++ [v]
    ∧ rb_buf b' = <[Z.to_nat (rb_head b) := v]> (rb_buf b)
    ∧ rb_head b' = ring_idx (rb_max_size b) (rb_head b) 1 ∧ rb_tail b' = rb_tail b.
Proof.
  intros Hwf Hf. pose proof Hwf as [Hm Hl Hh Ht _]. unfold _ringbuf_push.
  rewrite ring_succ by done. simpl. rewrite u16_small by ring_arith.
  rewrite aset_done by lia. simpl. eexists. split_and!; [done| |done| |done|done|done].
  - split; simpl; rewrite ?zlen_insert; try done; [ring_arith|]. by intros ?%Z.eqb_eq.
  - set (b' := mk_ringbuf _ _ _ _ _).
    assert (rb_count b' = rb_count b + 1) as Hc.
    { unfold rb_count. subst b'; simpl. rewrite Hf. ring_arith. }
    pose proof (rb_count_full b Hwf Hf) as Hlt. pose proof (rb_count_range b Hwf).
    unfold rb_contents at 1. rewrite Hc, seqZ_app, fmap_app by lia. f_equal.
    + unfold rb_contents. apply list_fmap_ext. intros i k Hk%lookup_seqZ. subst b'; simpl.
      rewrite list_lookup_total_insert_ne; [done|].
      unfold rb_count in Hk, Hlt. rewrite Hf in Hk, Hlt. ring_arith.
    + rewrite seqZ_cons by lia. simpl. f_equal. subst b'; simpl.
      replace (ring_idx _ _ _) with (rb_head b).
      * apply list_lookup_total_insert_eq. unfold zlen in Hl. lia.
      * unfold rb_count in *. rewrite Hf in *. ring_arith.
Qed.

Lemma contents_pop b : rb_wf b → 0 < rb_count b →
  rb_contents b = rb_buf b !!! Z.to_nat (rb_tail b)
    :: rb_contents (mk_ringbuf (rb_buf b) (rb_max_size b) (rb_head b)
                      (ring_idx (rb_max_size b) (rb_tail b) 1) false).
Proof.
  intros Hwf Hc. pose proof Hwf as [Hm Hl Hh Ht Hf]. unfold rb_contents at 1.
  rewrite seqZ_cons by done. rewrite fmap_cons. f_equal.
  - f_equal. f_equal. ring_arith.
  - unfold rb_contents. set (b' := mk_ringbuf _ _ _ _ _).
    assert (rb_count b' = rb_count b - 1) as ->.
    { unfold rb_count in *. subst b'; simpl. destruct (rb_full b).
      - specialize (Hf eq_refl). ring_arith.
      - ring_arith. }
    replace (Z.pred (rb_count b)) with (rb_count b - 1) by lia.
    change (Z.succ 0) with (1 + 0).
    rewrite <- (fmap_add_seqZ 1 0 (rb_count b - 1)), <- list_fmap_compose.
    apply list_fmap_ext. intros i k Hk%lookup_seqZ. subst b'; simpl. f_equal. f_equal.
    pose proof (rb_count_range b Hwf). ring_arith.
Qed.

Lemma _ringbuf_pop_spec b : rb_wf b → 0 < rb_count b →
  ∃ v b', _ringbuf_pop b = Done (v, b') ∧ rb_wf b' ∧ rb_max_size b' = rb_max_size b
    ∧ rb_contents b = v :: rb_contents b' ∧ rb_full b' = false.
Proof.
  intros Hwf Hc. pose proof Hwf as [Hm Hl Hh Ht Hf]. unfold _ringbuf_pop.
  rewrite slot_get by done. simpl. rewrite ring_succ_tail by done. simpl.
  do 2 eexists. split_and!; [done| |done|by apply contents_pop|done].
  split; simpl; try done. ring_arith.
Qed.

(** ** The public operations on the queue *)

Lemma ringbuf_push_spec b v : rb_wf b → rb_full b = false →
  if rb_count b + 1 <? rb_max_size b
  then ∃ b', ringbuf_push b v = Done (true, b') ∧ rb_wf b' ∧ rb_max_size b' = rb_max_size b
         ∧ rb_contents b' = rb_contents b ++ [v]
  else ringbuf_push b v = Done (false, b).
Proof.
  intros Hwf Hf. pose proof Hwf as [Hm Hl Hh Ht _].
  destruct (_ringbuf_push_spec b v Hwf Hf) as (b' & E & Hwf' & Hm' & Hc & _).
  unfold ringbuf_push, _ringbuf_push in *. rewrite ring_succ in * by done. simpl in *.
  rewrite u16_small in * by ring_arith. rewrite aset_done in * by lia. simpl in *.
  injection E as <-. case_match; btest.
  - replace (ring_idx _ _ 1 =? _) with false in *.
    + rewrite Hf. eauto 10.
    + unfold rb_count in H. rewrite Hf in H. symmetry. apply Z.eqb_neq. ring_arith.
  - replace (_ =? _) with true; [done|]. symmetry. apply Z.eqb_eq.
    unfold rb_count in H. rewrite Hf in H. ring_arith.
Qed.

Lemma ringbuf_pop_spec b : rb_wf b → rb_full b = false →
  match rb_contents b with
  | [] => ringbuf_pop b = Done (None, b)
  | x :: q => ∃ b', ringbuf_pop b = Done (Some x, b') ∧ rb_wf b'
                ∧ rb_max_size b' = rb_max_size b ∧ rb_contents b' = q
  end.
Proof.
  intros Hwf Hf. pose proof (zlen_contents b Hwf) as Hlen. pose proof (rb_count_range b Hwf).
  pose proof Hwf as [Hm Hl Hh Ht _]. unfold ringbuf_pop.
  assert ((rb_head b =? rb_tail b) = (rb_count b =? 0)) as ->.
  { unfold rb_count. rewrite Hf. destruct (_ =? _) eqn:?; btest; symmetry;
      [apply Z.eqb_eq|apply Z.eqb_neq]; ring_arith. }
  destruct (rb_contents b) as [|x q] eqn:E.
  - rewrite zlen_nil in Hlen. by zdecide.
  - rewrite zlen_cons in Hlen. pose proof (zlen_nonneg q). zdecide.
    destruct (_ringbuf_pop_spec b Hwf) as (v & b' & Ep & Hwf' & Hm' & Ec & Hf'); [lia|].
    unfold _ringbuf_pop in Ep. rewrite slot_get, ring_succ_tail in * by done. simpl in *.
    injection Ep as <- <-. rewrite Hf. rewrite E in Ec. injection Ec as -> ->. eauto 10.
Qed.

Lemma push_buf_loop_spec n : ∀ i ret b data,
  rb_wf b → 0 ≤ i → zlen data = i + Z.of_nat n → rb_count b + Z.of_nat n ≤ rb_max_size b →
  ∃ b', push_buf_loop n i ret b data
          = Done (if (n =? 0)%nat then ret else zlen data - 1, b')
    ∧ rb_wf b' ∧ rb_max_size b' = rb_max_size b ∧ rb_contents b' = rb_contents b ++ zdrop i data.
Proof.
  induction n as [|n IH]; intros i ret b data Hwf Hi Hd Hc; simpl push_buf_loop.
  - eexists. split_and!; try done. rewrite zdrop_all by lia. by rewrite app_nil_r.
  - destruct (aget_total data i) as [v Hv]; [lia|]. rewrite Hv. simpl.
    assert (rb_full b = false) as Hf by (rewrite rb_full_count by done; zdecide; done).
    destruct (_ringbuf_push_spec b v Hwf Hf) as (b1 & -> & Hwf1 & Hm1 & Hc1 & _). simpl.
    assert (rb_count b1 = rb_count b + 1) as Hcount.
    { rewrite <- !zlen_contents, Hc1 by done. zl. }
    destruct (IH (i + 1) i b1 data) as (b2 & -> & Hwf2 & Hm2 & Hc2); [done|lia|lia|lia|].
    eexists. split_and!; [|done|congruence|].
    + f_equal. f_equal. destruct (n =? 0)%nat eqn:En; simpl; [|done].
      apply Nat.eqb_eq in En. subst. lia.
    + rewrite Hc2, Hc1, <- app_assoc. f_equal. unfold aget in Hv.
      destruct (0 <=? i); [|done]. destruct (data !! _) eqn:El; [|done]. injection Hv as ->.
      unfold zdrop. rewrite Z2Nat.inj_add, Nat.add_1_r by lia.
      by rewrite (drop_S _ _ _ El).
Qed.

Lemma ringbuf_push_buf_spec b data : rb_wf b → rb_full b = false →
  if rb_max_size b - rb_count b <? zlen data
  then ringbuf_push_buf b data (zlen data) = Done (0, b)
  else ∃ b', ringbuf_push_buf b data (zlen data) = Done (Z.max 0 (zlen data - 1), b')
         ∧ rb_wf b' ∧ rb_max_size b' = rb_max_size b ∧ rb_contents b' = rb_contents b ++ data.
Proof.
  intros Hwf Hf. pose proof (rb_count_range b Hwf). pose proof (zlen_nonneg data).
  pose proof Hwf as [Hm _ _ _ _].
  unfold ringbuf_push_buf, ringbuf_free. rewrite _ringbuf_size_spec, Hf by done. simpl.
  rewrite u32_small by lia. case_match; btest; [done|].
  destruct (push_buf_loop_spec (Z.to_nat (zlen data)) 0 0 b data) as (b' & -> & ?); try done; try lia.
  exists b'. split; [|done]. f_equal. f_equal.
  destruct (_ =? _)%nat eqn:E; [apply Nat.eqb_eq in E|apply Nat.eqb_neq in E]; lia.
Qed.

Lemma pop_buf_loop_spec n : ∀ i ret b out,
  rb_wf b → 0 ≤ i → zlen out = i + Z.of_nat n → Z.of_nat n ≤ rb_count b →
  ∃ b', pop_buf_loop n i ret b out
          = Done (if (n =? 0)%nat then ret else zlen out - 1,
                  ztake i out ++ ztake (Z.of_nat n) (rb_contents b), b')
    ∧ rb_wf b' ∧ rb_max_size b' = rb_max_size b
    ∧ rb_contents b' = zdrop (Z.of_nat n) (rb_contents b).
Proof.
  induction n as [|n IH]; intros i ret b out Hwf Hi Ho Hc; simpl pop_buf_loop.
  - eexists. split_and!; try done. rewrite ztake_0, app_nil_r, ztake_all by lia. done.
  - destruct (_ringbuf_pop_spec b Hwf) as (v & b1 & -> & Hwf1 & Hm1 & Hc1 & _); [lia|]. simpl.
    rewrite aset_done by lia. simpl.
    assert (rb_count b1 = rb_count b - 1) as Hcount.
    { rewrite <- !zlen_contents, Hc1 by done. zl. }
    destruct (IH (i + 1) i b1 (<[Z.to_nat i:=v]> out)) as (b2 & -> & Hwf2 & Hm2 & Hc2);
      [done|lia|rewrite zlen_insert; lia|lia|].
    eexists. split_and!; [|done|congruence|].
    + rewrite zlen_insert, Hc1. f_equal. f_equal. f_equal.
      * destruct (n =? 0)%nat eqn:En; simpl; [|done]. apply Nat.eqb_eq in En. subst. lia.
      * unfold ztake, zlen in *. rewrite Z2Nat.inj_add, Nat.add_1_r by lia.
        rewrite (take_S_r _ _ v) by (apply list_lookup_insert_eq; lia).
        rewrite take_insert_ge by lia. rewrite <- app_assoc. f_equal. simpl.
        by replace (Z.to_nat (Z.of_nat (S n))) with (S (Z.to_nat (Z.of_nat n))) by lia.
    + rewrite Hc2, Hc1. unfold zdrop.
      by replace (Z.to_nat (Z.of_nat (S n))) with (S (Z.to_nat (Z.of_nat n))) by lia.
Qed.

Lemma ringbuf_advance_spec b k : rb_wf b → rb_full b = false → 0 ≤ k ≤ rb_count b →
  ∃ b', ringbuf_advance b k = Done b' ∧ rb_wf b' ∧ rb_max_size b' = rb_max_size b
    ∧ rb_contents b' = zdrop k (rb_contents b).
Proof.
  intros Hwf Hf Hk. pose proof Hwf as [Hm Hl Hh Ht _].
  pose proof (rb_count_full b Hwf Hf) as Hlt. unfold ringbuf_advance.
  rewrite u32_small, umod_done, ring_idx_mod by lia. simpl. eexists. split_and!; [done| |done|].
  - split; simpl; try done; [ring_arith|congruence].
  - rewrite Hf. unfold rb_contents at 1. set (b' := mk_ringbuf _ _ _ _ _).
    assert (rb_count b' = rb_count b - k) as ->.
    { unfold rb_count in *. subst b'; simpl. rewrite Hf in *. ring_arith. }
    unfold rb_contents. replace (rb_count b) with (k + (rb_count b - k)) at 2 by lia.
    rewrite seqZ_app, fmap_app, zdrop_app_exact by lia || (unfold zlen; rewrite length_fmap, length_seqZ; lia).
    replace (0 + k) with (k + 0) by lia.
    rewrite <- (fmap_add_seqZ k 0), <- list_fmap_compose.
    apply list_fmap_ext. intros i j Hj%lookup_seqZ. subst b'; simpl. f_equal. f_equal.
    ring_arith.
Qed.

Lemma ringbuf_peek_spec b i : rb_wf b → rb_full b = false → 0 ≤ i →
  ringbuf_peek b i = Done (rb_contents b !! Z.to_nat i).
Proof.
  intros Hwf Hf Hi. pose proof Hwf as [Hm Hl Hh Ht _].
  pose proof (rb_count_full b Hwf Hf). pose proof (zlen_contents b Hwf) as Hlen.
  unfold ringbuf_peek. rewrite _ringbuf_size_spec, Hf by done. simpl. case_match; btest.
  - rewrite lookup_ge_None_2; [done|]. unfold zlen in Hlen. lia.
  - rewrite u32_small, umod_done, ring_idx_mod by lia. simpl. rewrite slot_get by (done || ring_arith).
    simpl. by rewrite rb_contents_lookup.
Qed.

Lemma ringbuf_clear_spec b : rb_wf b →
  rb_wf (ringbuf_clear b) ∧ rb_contents (ringbuf_clear b) = [].
Proof.
  intros [Hm Hl Hh Ht Hf]. split; [by split|].
  unfold rb_contents. replace (rb_count _) with 0; [done|].
  unfold rb_count. simpl. ring_arith.
Qed.

Lemma ringbuf_init_spec buf size : 0 < size ≤ 65536 → zlen buf = size →
  rb_wf (ringbuf_init buf size) ∧ rb_contents (ringbuf_init buf size) = [].
Proof.
  intros Hm Hl. split; [split; simpl; try lia; congruence|].
  unfold rb_contents. replace (rb_count _) with 0; [done|].
  unfold rb_count. simpl. ring_arith.
Qed.

(** ** Refinement *)

Lemma rb_full_queue b : rb_wf b →
  rb_full b = (zlen (rb_contents b) =? rb_max_size b).
Proof. intros. rewrite zlen_contents by done. by apply rb_full_count. Qed.

Lemma rb_step_refines b op o q : rb_wf b →
  queue_step (rb_max_size b) (rb_contents b) op = Some (o, q) →
  ∃ b', rb_step b op = Done (o, b') ∧ rb_wf b' ∧ rb_max_size b' = rb_max_size b
    ∧ rb_contents b' = q.
Proof.
  intros Hwf. pose proof (zlen_contents b Hwf) as Hlen. pose proof (rb_full_queue b Hwf) as Hfull.
  pose proof (rb_count_range b Hwf) as Hrange.
  destruct op as [v| |data|k|k|i| | |]; simpl;
    try (rewrite <- Hfull; destruct (rb_full b) eqn:Hf; [done|]).
  - pose proof (ringbuf_push_spec b v Hwf Hf) as Hp. rewrite Hlen.
    destruct (_ <? _); intros [= <- <-].
    + destruct Hp as (b' & -> & ? & ? & ?). simpl. eauto 10.
    + rewrite Hp. simpl. eauto 10.
  - pose proof (ringbuf_pop_spec b Hwf Hf) as Hp. destruct (rb_contents b) eqn:E; intros [= <- <-].
    + rewrite Hp. simpl. eauto 10.
    + destruct Hp as (b' & -> & ? & ? & ?). simpl. eauto 10.
  - pose proof (ringbuf_push_buf_spec b data Hwf Hf) as Hp. rewrite Hlen.
    destruct (_ <? _); intros [= <- <-].
    + rewrite Hp. simpl. eauto 10.
    + destruct Hp as (b' & -> & ? & ? & ?). simpl. eauto 10.
  - destruct (_ && _) eqn:Hk; intros [= <- <-]. btest. unfold ringbuf_pop_buf.
    destruct (pop_buf_loop_spec (Z.to_nat k) 0 0 b (replicate (Z.to_nat k) 0))
      as (b' & -> & ? & ? & ?); [done|lia|rewrite zlen_replicate; lia|lia|]. simpl.
    rewrite Z2Nat.id, zlen_replicate in * by lia. eexists. split_and!; try done.
    f_equal. f_equal. f_equal.
    destruct (_ =? _)%nat eqn:E; [apply Nat.eqb_eq in E|apply Nat.eqb_neq in E]; lia.
  - destruct (_ && _) eqn:Hk; intros [= <- <-]. btest.
    destruct (ringbuf_advance_spec b k) as (b' & -> & ? & ? & ?);
      [done|rewrite Hfull; by zdecide|lia|]. simpl. eauto 10.
  - destruct (_ && _) eqn:Hk; intros [= <- <-]. btest.
    rewrite ringbuf_peek_spec by (done || lia || (rewrite Hfull; by zdecide)). simpl. eauto 10.
  - intros [= <- <-]. destruct (ringbuf_clear_spec b Hwf). eauto 10.
  - intros [= <- <-]. unfold ringbuf_size. rewrite Hlen.
    assert (rb_full b = true → rb_count b = rb_max_size b).
    { intros Hf. rewrite Hfull in Hf. apply Z.eqb_eq in Hf. lia. }
    destruct (rb_full b) eqn:Hf.
    + simpl. rewrite H by done. eauto 10.
    + rewrite _ringbuf_size_spec, Hf by done. simpl. eauto 10.
  - intros [= <- <-]. exists b. split_and!; try done. f_equal. f_equal. f_equal.
    unfold ringbuf_empty. rewrite Hlen. pose proof Hwf as [? ? ? ? ?].
    clear Hfull Hlen. unfold rb_count in *. destruct (rb_full b); [symmetry; apply Z.eqb_neq; lia|].
    destruct (rb_head b =? rb_tail b) eqn:E; symmetry; btest; [apply Z.eqb_eq|apply Z.eqb_neq]; ring_arith.
Qed.

Lemma rb_run_refines ops : ∀ b os q, rb_wf b →
  queue_run (rb_max_size b) (rb_contents b) ops = Some (os, q) →
  ∃ b', rb_run b ops = Done (os, b') ∧ rb_wf b' ∧ rb_contents b' = q.
Proof.
  induction ops as [|op ops IH]; intros b os q Hwf; simpl.
  - intros [= <- <-]. eauto.
  - intros H. apply bind_Some in H as ([o q1] & H1 & H).
    apply bind_Some in H as ([os' q2] & H2 & [= <- <-]).
    destruct (rb_step_refines b op o q1 Hwf H1) as (b1 & -> & Hwf1 & Hm & <-). simpl.
    rewrite <- Hm in H2. destruct (IH b1 os' q2 Hwf1 H2) as (b2 & -> & ? & ?). simpl. eauto.
Qed.

(** C39: a ring buffer that [ringbuf_init] set up over [size] bytes of storage
    behaves as a bounded FIFO queue of [size] slots under every sequence of
    pushes, pops, block writes and reads, peeks, advances, clears and size
    queries that stays within the contract of the queue: each call returns
    what the queue returns, no access leaves the storage, and the buffer holds
    the bytes of the queue afterwards. *)
Theorem ringbuf_refines_queue (buf : list Z) (size : Z) (ops : list rb_op) os q :
  0 < size ≤ 65536 → zlen buf = size →
  queue_run size [] ops = Some (os, q) →
  ∃ b, rb_run (ringbuf_init buf size) ops = Done (os, b) ∧ rb_wf b ∧ rb_contents b = q.
Proof.
  intros Hs Hl Hq. destruct (ringbuf_init_spec buf size Hs Hl) as [Hwf Hc].
  apply rb_run_refines; [done|]. by rewrite Hc.
Qed.

Lemma ringbuf_refines_queue_witness :
  ∃ b, rb_run (ringbuf_init (replicate 4 0) 4)
         [OpPush 1; OpPush 2; OpPop; OpPushBuf [3; 4; 5]; OpPopBuf 2; OpPush 6; OpPop; OpSize]
       = Done ([ObsBool true; ObsBool true; ObsByte (Some 1); ObsRet 2; ObsBytes 1 [2; 3];
                ObsBool true; ObsByte (Some 4); ObsRet 2], b)
       ∧ rb_wf b ∧ rb_contents b = [5; 6].
Proof.
  apply (ringbuf_refines_queue (replicate 4 0) 4); [lia|reflexivity|reflexivity].
Defined.

(** ** Outside of the contract *)

(** A full buffer reports every slot as free, because [_ringbuf_size] cannot
    tell full from empty. *)
Lemma ringbuf_free_full b : rb_wf b → rb_full b = true →
  ringbuf_free b = Done (rb_max_size b).
Proof.
  intros Hwf Hf. pose proof Hwf as [Hm _ _ _ _]. unfold ringbuf_free.
  rewrite _ringbuf_size_spec, Hf by done. simpl. f_equal. rewrite u32_small; lia.
Qed.

(** A block write into a full buffer is therefore accepted and replaces bytes
    that were never read. *)
Theorem ringbuf_push_buf_full_overwrites :
  ∃ b b', rb_run (ringbuf_init (replicate 4 0) 4) [OpPushBuf [1; 2; 3; 4]] = Done ([ObsRet 3], b)
    ∧ rb_contents b = [1; 2; 3; 4]
    ∧ ringbuf_push_buf b [5; 6] 2 = Done (1, b') ∧ rb_buf b' = [5; 6; 3; 4].
Proof.
  exists (mk_ringbuf [1; 2; 3; 4] 4 0 0 true), (mk_ringbuf [5; 6; 3; 4] 4 2 0 false).
  split_and!; vm_compute; reflexivity.
Qed.

(** [ringbuf_advance] does not reset [full]: a buffer that was filled and then
    drained by advancing still reports [max_size] bytes. *)
Theorem ringbuf_advance_keeps_full :
  ∃ b b', rb_run (ringbuf_init (replicate 4 0) 4) [OpPushBuf [1; 2; 3; 4]] = Done ([ObsRet 3], b)
    ∧ ringbuf_advance b 3 = Done b' ∧ ringbuf_size b' = Done 4 ∧ ringbuf_empty b' = false.
Proof.
  exists (mk_ringbuf [1; 2; 3; 4] 4 0 0 true), (mk_ringbuf [1; 2; 3; 4] 4 0 3 true).
  split_and!; vm_compute; reflexivity.
Qed.

(** [ringbuf_copy_most_recent] computes the start of a copy that wraps around
    as [max_size - len] instead of [max_size + head - len]: after the fifth
    byte the two most recent are 4 and 5, and the copy is 3 and 4. *)
Theorem ringbuf_copy_most_recent_wrap :
  ∃ b os, rb_run (ringbuf_init (replicate 4 0) 4)
         [OpPush 1; OpPush 2; OpPop; OpPop; OpPush 3; OpPush 4; OpPush 5] = Done (os, b)
    ∧ rb_contents b = [3; 4; 5]
    ∧ ringbuf_copy_most_recent b [0; 0] 2 = Done [3; 4].
Proof.
  exists (mk_ringbuf [5; 2; 3; 4] 4 1 2 false).
  eexists [_; _; _; _; _; _; _]. split_and!; vm_compute; reflexivity.
Qed.
