(* ===== verification/Tlv.v ===== *)
(** * Tag-length-value records in a byte buffer (lib/tlv)

    [tlv_t] is a context over a caller-supplied buffer, modelled from
    lib/tlv/src/tlv.c byte by byte: entries are located by scanning the
    buffer, and updates and deletions move the bytes behind an entry. A NULL
    pointer is [None]. The specification is an association list without
    duplicate tags; the refinement theorem covers [tlv_add], [tlv_update],
    [tlv_delete] and [tlv_lookup] on every branch. *)

From S2P Require Import Prelude.

Inductive tlv_result_t :=
| TLV_SUCCESS
| TLV_ERR_INVALID_PARAM
| TLV_ERR_NOT_FOUND
| TLV_ERR_NO_SPACE
| TLV_ERR_DUPLICATE
| TLV_ERR_CORRUPTED.

#[global] Instance tlv_result_eq_dec : EqDecision tlv_result_t.
Proof. solve_decision. Defined.

Definition TLV_TAG_END_SENTINEL : Z := 0.
Definition TLV_TAG_NOT_FOUND : Z := -1.

(** [sizeof(tlv_tag_t)]: a 4-byte tag and a 2-byte length, packed. *)
Definition TLV_TAG_SIZE : Z := 6.

Record tlv_t := mk_tlv {
  tlv_buffer : list Z;
  tlv_capacity : Z;
  tlv_size : Z;
}.

(** The header fields of the entry at [offset]. *)
Definition tag_ptr_tag (buffer : list Z) (offset : Z) : outcome Z := read_u32 buffer offset.
Definition tag_ptr_length (buffer : list Z) (offset : Z) : outcome Z := read_u16 buffer (offset + 4).

(** The scan of [_tlv_validate]: the result and [*out_size], which is set on
    success only. *)
Fixpoint tlv_validate_loop (fuel : nat) (buffer : list Z) (capacity offset : Z)
    : outcome (tlv_result_t * option Z) :=
  match fuel with
  | O => Nofuel
  | S fuel =>
      if offset <? capacity then
        if capacity <? u32 (offset + TLV_TAG_SIZE) then
          if offset =? 0 then Done (TLV_SUCCESS, Some 0) else Done (TLV_ERR_CORRUPTED, None)
        else
          let! tag := tag_ptr_tag buffer offset in
          if tag =? TLV_TAG_END_SENTINEL then Done (TLV_SUCCESS, Some offset)
          else
            let! length := tag_ptr_length buffer offset in
            let tag_size := TLV_TAG_SIZE + length in
            if capacity <? u32 (offset + tag_size) then Done (TLV_ERR_CORRUPTED, None)
            else tlv_validate_loop fuel buffer capacity (u32 (offset + tag_size))
      else Done (TLV_SUCCESS, Some offset)
  end.

Definition _tlv_validate (buffer : list Z) (capacity : Z) : outcome (tlv_result_t * option Z) :=
  tlv_validate_loop (S (Z.to_nat capacity)) buffer capacity 0.

(** The scan of [_tlv_find_tag]. *)
Fixpoint tlv_find_loop (fuel : nat) (tlv : tlv_t) (tag offset : Z) : outcome Z :=
  match fuel with
  | O => Nofuel
  | S fuel =>
      if u32 (offset + TLV_TAG_SIZE) <=? tlv_size tlv then
        let! t := tag_ptr_tag (tlv_buffer tlv) offset in
        if t =? TLV_TAG_END_SENTINEL then Done TLV_TAG_NOT_FOUND
        else if t =? tag then Done offset
        else
          let! length := tag_ptr_length (tlv_buffer tlv) offset in
          tlv_find_loop fuel tlv tag (u32 (offset + (TLV_TAG_SIZE + length)))
      else Done TLV_TAG_NOT_FOUND
  end.

Definition _tlv_find_tag (tlv : tlv_t) (tag : Z) : outcome Z :=
  tlv_find_loop (S (Z.to_nat (tlv_size tlv))) tlv tag 0.

Definition tlv_init (tlv : option tlv_t) (buffer : option (list Z)) (capacity : Z)
    : outcome (tlv_result_t * option tlv_t) :=
  match tlv, buffer with
  | Some _, Some buffer =>
      if capacity =? 0 then Done (TLV_ERR_INVALID_PARAM, tlv)
      else
        let! '(result, size) := _tlv_validate buffer capacity in
        match size with
        | Some size => Done (TLV_SUCCESS, Some (mk_tlv buffer capacity size))
        | None => Done (result, Some (mk_tlv buffer capacity 0))
        end
  | _, _ => Done (TLV_ERR_INVALID_PARAM, tlv)
  end.

(** [*value] is the bytes it points to; a zero length gives a NULL pointer. *)
Definition tlv_lookup (tlv : tlv_t) (tag : Z)
    : outcome (tlv_result_t * option (Z * option (list Z))) :=
  let! offset := _tlv_find_tag tlv tag in
  if offset <? 0 then Done (TLV_ERR_NOT_FOUND, None)
  else
    let! length := tag_ptr_length (tlv_buffer tlv) offset in
    if 0 <? length then
      let! value := mread (tlv_buffer tlv) (offset + TLV_TAG_SIZE) length in
      Done (TLV_SUCCESS, Some (length, Some value))
    else Done (TLV_SUCCESS, Some (length, None)).

(** [value] is the [length] bytes the caller points to. *)
Definition tlv_add (tlv : tlv_t) (tag : Z) (value : option (list Z)) (length : Z)
    : outcome (tlv_result_t * tlv_t) :=
  match value with
  | None => Done (TLV_ERR_INVALID_PARAM, tlv)
  | Some value =>
      if length =? 0 then Done (TLV_ERR_INVALID_PARAM, tlv)
      else if tag =? TLV_TAG_END_SENTINEL then Done (TLV_ERR_INVALID_PARAM, tlv)
      else
        let! offset := _tlv_find_tag tlv tag in
        if negb (offset =? TLV_TAG_NOT_FOUND) then Done (TLV_ERR_DUPLICATE, tlv)
        else
          let required_space := TLV_TAG_SIZE + length in
          if tlv_capacity tlv <? u32 (tlv_size tlv + required_space)
          then Done (TLV_ERR_NO_SPACE, tlv)
          else
            let! buffer := mwrite (tlv_buffer tlv) (tlv_size tlv) (le_encode 4 tag) in
            let! buffer := mwrite buffer (tlv_size tlv + 4) (le_encode 2 length) in
            let! bytes := mread value 0 length in
            let! buffer := mwrite buffer (tlv_size tlv + TLV_TAG_SIZE) bytes in
            Done (TLV_SUCCESS,
                  mk_tlv buffer (tlv_capacity tlv) (u32 (tlv_size tlv + required_space)))
  end.

(** [memmove(&buffer[dst], &buffer[src], n)] when [n > 0]. *)
Definition move_bytes (buffer : list Z) (dst src n : Z) : outcome (list Z) :=
  if 0 <? n then
    let! bytes := mread buffer src n in
    mwrite buffer dst bytes
  else Done buffer.

Definition tlv_update (tlv : tlv_t) (tag : Z) (value : option (list Z)) (length : Z)
    : outcome (tlv_result_t * tlv_t) :=
  match value with
  | None => Done (TLV_ERR_INVALID_PARAM, tlv)
  | Some value =>
      if length =? 0 then Done (TLV_ERR_INVALID_PARAM, tlv)
      else
        let! offset := _tlv_find_tag tlv tag in
        if offset <? 0 then Done (TLV_ERR_NOT_FOUND, tlv)
        else
          let! old_length := tag_ptr_length (tlv_buffer tlv) offset in
          let old_entry_size := TLV_TAG_SIZE + old_length in
          let new_entry_size := TLV_TAG_SIZE + length in
          let! bytes := mread value 0 length in
          if old_length =? length then
            let! buffer := mwrite (tlv_buffer tlv) (offset + TLV_TAG_SIZE) bytes in
            Done (TLV_SUCCESS, mk_tlv buffer (tlv_capacity tlv) (tlv_size tlv))
          else if length <? old_length then
            let! buffer := mwrite (tlv_buffer tlv) (offset + 4) (le_encode 2 length) in
            let! buffer := mwrite buffer (offset + TLV_TAG_SIZE) bytes in
            let bytes_after := u32 (tlv_size tlv - (offset + old_entry_size)) in
            let! buffer :=
              move_bytes buffer (offset + new_entry_size) (offset + old_entry_size) bytes_after in
            Done (TLV_SUCCESS,
                  mk_tlv buffer (tlv_capacity tlv)
                    (u32 (tlv_size tlv - (old_entry_size - new_entry_size))))
          else
            let additional_space := new_entry_size - old_entry_size in
            if tlv_capacity tlv <? u32 (tlv_size tlv + additional_space)
            then Done (TLV_ERR_NO_SPACE, tlv)
            else
              let bytes_after := u32 (tlv_size tlv - (offset + old_entry_size)) in
              let! buffer :=
                move_bytes (tlv_buffer tlv) (offset + new_entry_size) (offset + old_entry_size)
                  bytes_after in
              let! buffer := mwrite buffer (offset + 4) (le_encode 2 length) in
              let! buffer := mwrite buffer (offset + TLV_TAG_SIZE) bytes in
              Done (TLV_SUCCESS,
                    mk_tlv buffer (tlv_capacity tlv) (u32 (tlv_size tlv + additional_space)))
  end.

Definition tlv_get_size (tlv : option tlv_t) : Z :=
  match tlv with None => 0 | Some tlv => tlv_size tlv end.

Definition tlv_get_remaining_capacity (tlv : option tlv_t) : Z :=
  match tlv with None => 0 | Some tlv => u32 (tlv_capacity tlv - tlv_size tlv) end.

Definition tlv_delete (tlv : tlv_t) (tag : Z) : outcome (tlv_result_t * tlv_t) :=
  let! offset := _tlv_find_tag tlv tag in
  if offset <? 0 then Done (TLV_ERR_NOT_FOUND, tlv)
  else
    let! length := tag_ptr_length (tlv_buffer tlv) offset in
    let entry_size := TLV_TAG_SIZE + length in
    let bytes_after := u32 (tlv_size tlv - (offset + entry_size)) in
    let! buffer := move_bytes (tlv_buffer tlv) offset (offset + entry_size) bytes_after in
    Done (TLV_SUCCESS, mk_tlv buffer (tlv_capacity tlv) (u32 (tlv_size tlv - entry_size))).

(** ** The association list a buffer holds *)

Abbreviation entry := (Z * list Z)%type.

Definition enc_entry (e : entry) : list Z :=
  le_encode 4 e.1 ++ le_encode 2 (zlen e.2) ++ e.2.

Definition enc (es : list entry) : list Z := mjoin (enc_entry <$> es).

Definition entry_ok (e : entry) : Prop :=
  0 < e.1 < 4294967296 ∧ zlen e.2 < 65536.

(** [rep t es]: the first [tlv_size t] bytes of the buffer are the entries
    [es]. The bound on the capacity keeps [size_t] arithmetic from wrapping. *)
Record rep (t : tlv_t) (es : list entry) : Prop := {
  rep_len : zlen (tlv_buffer t) = tlv_capacity t;
  rep_cap : tlv_capacity t < 2147483648;
  rep_ok : Forall entry_ok es;
  rep_tags : NoDup es.*1;
  rep_buf : ∃ rest, tlv_buffer t = enc es ++ rest;
  rep_size : tlv_size t = zlen (enc es);
}.

(** ** Operations as data *)

Inductive tlv_op :=
| TAdd (tag : Z) (value : list Z)
| TUpdate (tag : Z) (value : list Z)
| TDelete (tag : Z)
| TLookup (tag : Z).

(** The result code and, for a lookup, the value found. *)
Definition tlv_obs : Type := tlv_result_t * option (list Z).

Definition tlv_step (t : tlv_t) (op : tlv_op) : outcome (tlv_obs * tlv_t) :=
  match op with
  | TAdd tag v => let! '(r, t) := tlv_add t tag (Some v) (zlen v) in Done ((r, None), t)
  | TUpdate tag v => let! '(r, t) := tlv_update t tag (Some v) (zlen v) in Done ((r, None), t)
  | TDelete tag => let! '(r, t) := tlv_delete t tag in Done ((r, None), t)
  | TLookup tag =>
      let! '(r, v) := tlv_lookup t tag in
      Done ((r, (λ p, default [] p.2) <$> v), t)
  end.

Fixpoint assoc (tag : Z) (es : list entry) : option (list Z) :=
  match es with
  | [] => None
  | (t, v) :: es => if t =? tag then Some v else assoc tag es
  end.

Fixpoint assoc_set (tag : Z) (v : list Z) (es : list entry) : list entry :=
  match es with
  | [] => []
  | (t, w) :: es => if t =? tag then (t, v) :: es else (t, w) :: assoc_set tag v es
  end.

Fixpoint assoc_del (tag : Z) (es : list entry) : list entry :=
  match es with
  | [] => []
  | (t, w) :: es => if t =? tag then es else (t, w) :: assoc_del tag es
  end.

(** The specification: an association list whose encoding fits [cap] bytes. *)
Definition assoc_step (cap : Z) (es : list entry) (op : tlv_op) : tlv_obs * list entry :=
  match op with
  | TAdd tag v =>
      if (zlen v =? 0) || (tag =? 0) then ((TLV_ERR_INVALID_PARAM, None), es)
      else match assoc tag es with
           | Some _ => ((TLV_ERR_DUPLICATE, None), es)
           | None =>
               if cap <? zlen (enc (es ++ [(tag, v)])) then ((TLV_ERR_NO_SPACE, None), es)
               else ((TLV_SUCCESS, None), es ++ [(tag, v)])
           end
  | TUpdate tag v =>
      if zlen v =? 0 then ((TLV_ERR_INVALID_PARAM, None), es)
      else match assoc tag es with
           | None => ((TLV_ERR_NOT_FOUND, None), es)
           | Some _ =>
               if cap <? zlen (enc (assoc_set tag v es)) then ((TLV_ERR_NO_SPACE, None), es)
               else ((TLV_SUCCESS, None), assoc_set tag v es)
           end
  | TDelete tag =>
      match assoc tag es with
      | None => ((TLV_ERR_NOT_FOUND, None), es)
      | Some _ => ((TLV_SUCCESS, None), assoc_del tag es)
      end
  | TLookup tag =>
      match assoc tag es with
      | None => ((TLV_ERR_NOT_FOUND, None), es)
      | Some v => ((TLV_SUCCESS, Some v), es)
      end
  end.

(** The arguments of an operation are within their C types. *)
Definition op_ok (op : tlv_op) : Prop :=
  match op with
  | TAdd tag v | TUpdate tag v => 0 ≤ tag < 4294967296 ∧ zlen v < 65536
  | TDelete tag | TLookup tag => 0 ≤ tag < 4294967296
  end.

#[local] Arguments enc_entry : simpl never.
#[local] Arguments enc : simpl never.
#[local] Arguments le_encode : simpl never.

(** ** Reading entries *)

Lemma enc_app es1 es2 : enc (es1 ++ es2) = enc es1 ++ enc es2.
Proof. unfold enc. by rewrite fmap_app, join_app. Qed.
Lemma enc_cons e es : enc (e :: es) = enc_entry e ++ enc es.
Proof. done. Qed.
Lemma zlen_enc_entry t v : zlen (enc_entry (t, v)) = 6 + zlen v.
Proof. unfold enc_entry. simpl. zl. Qed.
#[local] Hint Rewrite enc_app enc_cons zlen_enc_entry : zlen.

Lemma entry_le4 t : 0 ≤ t < 4294967296 → le_decode (le_encode 4 t) = t.
Proof. intros. apply le_decode_encode. simpl. lia. Qed.
Lemma entry_le2 n : 0 ≤ n < 65536 → le_decode (le_encode 2 n) = n.
Proof. intros. apply le_decode_encode. simpl. lia. Qed.

Section ReadEntry.
Context (l : list Z) (t : Z) (v k : list Z) (off : Z).
Hypothesis Hoff : off = zlen l.

Lemma read_tag : 0 ≤ t < 4294967296 → tag_ptr_tag (l ++ enc_entry (t, v) ++ k) off = Done t.
Proof.
  intros. unfold tag_ptr_tag, read_u32.
  erewrite (mread_eq _ l (le_encode 4 t)); [|unfold enc_entry; by rewrite <- !app_assoc|done|done].
  rewrite obind_done. by rewrite entry_le4.
Qed.

Lemma read_length : zlen v < 65536 → tag_ptr_length (l ++ enc_entry (t, v) ++ k) off = Done (zlen v).
Proof.
  intros. unfold tag_ptr_length, read_u16.
  erewrite (mread_eq _ (l ++ le_encode 4 t) (le_encode 2 (zlen v)));
    [|unfold enc_entry; by rewrite <- !app_assoc|zl|done].
  rewrite obind_done, entry_le2; [done|zl].
Qed.

Lemma read_value : mread (l ++ enc_entry (t, v) ++ k) (off + TLV_TAG_SIZE) (zlen v) = Done v.
Proof.
  apply (mread_eq _ (l ++ le_encode 4 t ++ le_encode 2 (zlen v)) v k);
    [unfold enc_entry; by rewrite <- !app_assoc|unfold TLV_TAG_SIZE; zl|done].
Qed.
End ReadEntry.

#[local] Opaque enc_entry enc.

(** ** Locating entries *)

Lemma tlv_find_loop_none t es2 : ∀ fuel tag es1, rep t (es1 ++ es2) → tag ∉ es2.*1 →
  (length es2 < fuel)%nat → tlv_find_loop fuel t tag (zlen (enc es1)) = Done TLV_TAG_NOT_FOUND.
Proof.
  induction es2 as [|[t0 v0] es2 IH]; intros fuel tag es1 Hr Hn Hfuel; destruct fuel; try (simpl in *; lia).
  - pose proof Hr as [Hl Hc _ _ [r Hb] Hs]. simpl. rewrite app_nil_r in *.
    assert (zlen (enc es1) ≤ tlv_capacity t) by (rewrite Hb in Hl; zl).
    unfold TLV_TAG_SIZE. rewrite u32_small by zl. by zdecide.
  - pose proof Hr as [Hl Hc Hok _ [r Hb] Hs]. simpl in Hn. apply not_elem_of_cons in Hn as [Hne Hn].
    apply Forall_app in Hok as [_ [[Ht Hv] Hok]%Forall_cons]. simpl in Ht, Hv.
    assert (tlv_size t ≤ tlv_capacity t) by (rewrite Hb in Hl; zl).
    assert (zlen (enc es1) + 6 + zlen v0 + zlen (enc es2) = tlv_size t) by (rewrite Hs; zl).
    simpl. unfold TLV_TAG_SIZE. rewrite u32_small by zl. rewrite (proj2 (Z.leb_le _ _)) by zl.
    rewrite Hb, enc_app, enc_cons, <- !app_assoc, read_tag by (done || lia). simpl.
    unfold TLV_TAG_END_SENTINEL. zdecide.
    rewrite read_length by done. simpl. rewrite u32_small by zl.
    replace (_ + _) with (zlen (enc (es1 ++ [(t0, v0)]))) by zl.
    apply IH; [by rewrite <- app_assoc|done|simpl in *; lia].
Qed.

Lemma tlv_find_loop_some t tag v es3 es2 : ∀ fuel es1,
  rep t (es1 ++ es2 ++ (tag, v) :: es3) → (length es2 < fuel)%nat → tag ∉ es2.*1 →
  tlv_find_loop fuel t tag (zlen (enc es1)) = Done (zlen (enc (es1 ++ es2))).
Proof.
  induction es2 as [|[t0 v0] es2 IH]; intros fuel es1 Hr Hfuel Hn; destruct fuel; try (simpl in *; lia).
  - pose proof Hr as [Hl Hc Hok _ [r Hb] Hs]. simpl in *.
    apply Forall_app in Hok as [_ [[Ht Hv] Hok]%Forall_cons]. simpl in Ht, Hv.
    assert (tlv_size t ≤ tlv_capacity t) by (rewrite Hb in Hl; zl).
    unfold TLV_TAG_SIZE. rewrite u32_small by zl. rewrite (proj2 (Z.leb_le _ _)) by zl.
    rewrite Hb, enc_app, enc_cons, <- !app_assoc, read_tag by (done || lia). simpl.
    unfold TLV_TAG_END_SENTINEL. zdecide. by rewrite app_nil_r.
  - pose proof Hr as [Hl Hc Hok _ [r Hb] Hs]. simpl in Hn. apply not_elem_of_cons in Hn as [Hne Hn].
    apply Forall_app in Hok as [_ [[Ht Hv] Hok]%Forall_cons]. simpl in Ht, Hv.
    assert (tlv_size t ≤ tlv_capacity t) by (rewrite Hb in Hl; zl).
    simpl. unfold TLV_TAG_SIZE. simpl app in *. rewrite u32_small by zl.
    rewrite (proj2 (Z.leb_le _ _)) by zl.
    rewrite Hb, enc_app, enc_cons, <- !app_assoc, read_tag by (done || lia). simpl.
    unfold TLV_TAG_END_SENTINEL. zdecide.
    rewrite read_length by done. simpl. rewrite u32_small by zl.
    replace (_ + _) with (zlen (enc (es1 ++ [(t0, v0)]))) by zl.
    rewrite IH; [by rewrite <- app_assoc|by rewrite <- app_assoc|simpl in *; lia|done].
Qed.

Lemma length_enc es : (length es ≤ length (enc es))%nat.
Proof.
  induction es as [|[t v] es IH]; [done|]. rewrite enc_cons, length_app.
  pose proof (zlen_enc_entry t v). pose proof (zlen_nonneg v). unfold zlen in *. simpl length. lia.
Qed.

Lemma _tlv_find_tag_none t es tag : rep t es → tag ∉ es.*1 →
  _tlv_find_tag t tag = Done TLV_TAG_NOT_FOUND.
Proof.
  intros Hr Hn. unfold _tlv_find_tag. apply (tlv_find_loop_none t es _ tag []); [done|done|].
  rewrite (rep_size _ _ Hr), zlen_nat. pose proof (length_enc es). lia.
Qed.

Lemma _tlv_find_tag_some t a tag v b : rep t (a ++ (tag, v) :: b) → tag ∉ a.*1 →
  _tlv_find_tag t tag = Done (zlen (enc a)).
Proof.
  intros Hr Hn. unfold _tlv_find_tag.
  rewrite (tlv_find_loop_some t tag v b a _ []); [done|done| |done].
  rewrite (rep_size _ _ Hr), zlen_nat, enc_app, length_app. pose proof (length_enc a). lia.
Qed.

(** ** Association lists *)

Lemma assoc_None tag es : assoc tag es = None → tag ∉ es.*1.
Proof.
  induction es as [|[t v] es IH]; simpl; [by intros _ ?%not_elem_of_nil|]. case_match; [done|btest].
  intros ?%IH. apply not_elem_of_cons. done.
Qed.

Lemma assoc_Some tag es v : assoc tag es = Some v →
  ∃ a b, es = a ++ (tag, v) :: b ∧ tag ∉ a.*1.
Proof.
  induction es as [|[t w] es IH]; simpl; [done|]. case_match; btest.
  - intros [= ->]. subst. exists [], es. split; [done|]. apply not_elem_of_nil.
  - intros (a & b & -> & Hn)%IH. exists ((t, w) :: a), b. split; [done|].
    apply not_elem_of_cons. done.
Qed.

Lemma assoc_set_app tag v w a b : tag ∉ a.*1 →
  assoc_set tag w (a ++ (tag, v) :: b) = a ++ (tag, w) :: b.
Proof.
  induction a as [|[t u] a IH]; simpl; [by rewrite Z.eqb_refl|].
  intros [Hne Hn]%not_elem_of_cons. rewrite (proj2 (Z.eqb_neq _ _)) by done. by rewrite IH.
Qed.

Lemma assoc_del_app tag v a b : tag ∉ a.*1 → assoc_del tag (a ++ (tag, v) :: b) = a ++ b.
Proof.
  induction a as [|[t u] a IH]; simpl; [by rewrite Z.eqb_refl|].
  intros [Hne Hn]%not_elem_of_cons. rewrite (proj2 (Z.eqb_neq _ _)) by done. by rewrite IH.
Qed.

(** ** Moving the tail *)

Lemma move_bytes_back (A E B R : list Z) dst src n :
  dst = zlen A → src = zlen A + zlen E → n = zlen B →
  move_bytes (A ++ E ++ B ++ R) dst src n = Done (A ++ B ++ zdrop (zlen B) (E ++ B ++ R)).
Proof.
  intros -> -> ->. unfold move_bytes. case_match; btest.
  - rewrite (mread_eq _ (A ++ E) B R); [|by rewrite <- !app_assoc|zl|done]. simpl.
    rewrite <- (ztake_zdrop (zlen B) (E ++ B ++ R)) at 1.
    apply mwrite_eq with (d0 := ztake (zlen B) (E ++ B ++ R)); [done|done|].
    rewrite zlen_ztake; zl.
  - assert (B = []) as -> by (apply zlen_zero; zl). done.
Qed.

Lemma move_bytes_forward (A E B R : list Z) dst src n δ :
  0 ≤ δ ≤ zlen R → src = zlen A + zlen E → dst = src + δ → n = zlen B →
  ∃ G, zlen G = δ ∧
    move_bytes (A ++ E ++ B ++ R) dst src n = Done (A ++ E ++ G ++ B ++ zdrop δ R).
Proof.
  intros Hd -> -> ->. unfold move_bytes.
  assert (∀ n, 0 ≤ n ≤ zlen R → B ++ R = ztake n (B ++ R) ++ ztake (zlen B) (zdrop n (B ++ R)) ++ zdrop n R) as Hsplit.
  { intros m Hm. rewrite <- (ztake_zdrop m (B ++ R)) at 1. f_equal.
    rewrite <- (ztake_zdrop (zlen B) (zdrop m (B ++ R))) at 1. f_equal.
    rewrite zdrop_zdrop, zdrop_app_ge by zl. f_equal. lia. }
  exists (ztake δ (B ++ R)). split; [rewrite zlen_ztake; zl|]. case_match; btest.
  - rewrite (mread_eq _ (A ++ E) B R); [|by rewrite <- !app_assoc|zl|done]. simpl.
    rewrite (mwrite_eq _ (A ++ E ++ ztake δ (B ++ R)) (ztake (zlen B) (zdrop δ (B ++ R))) B (zdrop δ R)).
    + by rewrite <- !app_assoc.
    + rewrite <- !app_assoc. do 2 f_equal. by apply Hsplit.
    + rewrite !zlen_app, zlen_ztake; zl.
    + rewrite zlen_ztake; [done|]. rewrite zlen_zdrop; zl.
  - assert (B = []) as -> by (apply zlen_zero; zl). simpl. by rewrite ztake_zdrop.
Qed.

(** ** The operations refine the association list *)

(** [t] steps under [op] as [es] does. *)
Definition refines (t : tlv_t) (es : list entry) (op : tlv_op) : Prop :=
  let '(o, es') := assoc_step (tlv_capacity t) es op in
  ∃ t', tlv_step t op = Done (o, t') ∧ rep t' es' ∧ tlv_capacity t' = tlv_capacity t.

Lemma rep_fits t es : rep t es → tlv_size t ≤ tlv_capacity t.
Proof. intros [Hl _ _ _ [r Hb] Hs]. rewrite Hb in Hl. zl. Qed.

(** The replacement of one entry by another keeps the tags distinct. *)
Lemma rep_middle t a tag v w b buf n rest :
  rep t (a ++ (tag, v) :: b) → zlen w < 65536 →
  buf = enc a ++ enc_entry (tag, w) ++ enc b ++ rest →
  zlen buf = tlv_capacity t → n = zlen (enc a) + 6 + zlen w + zlen (enc b) →
  rep (mk_tlv buf (tlv_capacity t) n) (a ++ (tag, w) :: b).
Proof.
  intros [Hl Hc Hok Hd _ _] Hw -> Hbuf ->. split; simpl; try done.
  - apply Forall_app in Hok as [? [[Ht _] ?]%Forall_cons].
    apply Forall_app. split; [done|]. constructor; done.
  - rewrite fmap_app in *. done.
  - exists rest. by rewrite enc_app, enc_cons, <- !app_assoc.
  - zl.
Qed.

Lemma tlv_add_refines t es tag v : rep t es → op_ok (TAdd tag v) → refines t es (TAdd tag v).
Proof.
  intros Hr [Ht Hv]. pose proof (rep_fits t es Hr) as Hfit. pose proof (zlen_nonneg v).
  unfold refines. simpl. unfold TLV_TAG_END_SENTINEL.
  destruct (zlen v =? 0) eqn:E0; simpl; [eauto|]. destruct (tag =? 0) eqn:Et; simpl; [eauto|].
  destruct (assoc tag es) as [w|] eqn:Ea.
  { apply assoc_Some in Ea as (a & b & -> & Hn). rewrite (_tlv_find_tag_some t a tag w b) by done.
    simpl. unfold TLV_TAG_NOT_FOUND. pose proof (zlen_nonneg (enc a)).
    rewrite (proj2 (Z.eqb_neq _ _)) by lia. simpl. eauto. }
  apply assoc_None in Ea. rewrite (_tlv_find_tag_none t es) by done. simpl.
  unfold TLV_TAG_SIZE. pose proof Hr as [Hl Hc Hok Hd [r Hb] Hs]. btest.
  rewrite u32_small by zl.
  assert (zlen (enc (es ++ [(tag, v)])) = tlv_size t + (6 + zlen v)) as Hz.
  { rewrite Hs. rewrite enc_app, enc_cons. change (enc []) with (@nil Z). zl. }
  rewrite Hz. destruct (_ <? _) eqn:El; [eauto|]. btest.
  assert (∃ r1 r2 r3 r4, r = r1 ++ r2 ++ r3 ++ r4 ∧ zlen r1 = 4 ∧ zlen r2 = 2 ∧ zlen r3 = zlen v)
    as (r1 & r2 & r3 & r4 & -> & Hr1 & Hr2 & Hr3).
  { assert (6 + zlen v ≤ zlen r) by (rewrite Hb in Hl; zl).
    exists (ztake 4 r), (ztake 2 (zdrop 4 r)), (ztake (zlen v) (zdrop 2 (zdrop 4 r))),
      (zdrop (zlen v) (zdrop 2 (zdrop 4 r))).
    rewrite !ztake_zdrop. split; [done|].
    repeat (rewrite zlen_zdrop || rewrite zlen_ztake); try done; rewrite ?zlen_zdrop; lia. }
  rewrite Hb, Hs.
  rewrite (mwrite_eq _ (enc es) r1 (le_encode 4 tag) (r2 ++ r3 ++ r4)); [|done|done|zl].
  simpl. rewrite (mwrite_eq _ (enc es ++ le_encode 4 tag) r2 (le_encode 2 (zlen v)) (r3 ++ r4));
    [|by rewrite <- !app_assoc|zl|zl].
  simpl. rewrite mread_all. simpl.
  rewrite (mwrite_eq _ (enc es ++ le_encode 4 tag ++ le_encode 2 (zlen v)) r3 v r4);
    [|by rewrite <- !app_assoc|zl|zl].
  simpl. eexists. split_and!; [done| |done]. split; simpl.
  - rewrite Hb in Hl. zl.
  - done.
  - apply Forall_app. split; [done|]. repeat constructor; simpl; lia.
  - rewrite fmap_app. simpl. apply NoDup_app. split_and!; [done| |by apply NoDup_singleton].
    intros x Hx ->%list_elem_of_singleton. done.
  - exists r4. rewrite enc_app, enc_cons. change (enc []) with (@nil Z). rewrite app_nil_r.
    change (enc_entry (tag, v)) with (le_encode 4 tag ++ le_encode 2 (zlen v) ++ v).
    by rewrite <- !app_assoc.
  - rewrite Hz. zl.
Qed.

Lemma tlv_lookup_refines t es tag : rep t es → refines t es (TLookup tag).
Proof.
  intros Hr. unfold refines. simpl. unfold tlv_lookup. destruct (assoc tag es) as [v|] eqn:Ea.
  - apply assoc_Some in Ea as (a & b & -> & Hn). rewrite (_tlv_find_tag_some t a tag v b) by done.
    pose proof Hr as [Hl Hc Hok Hd [r Hb] Hs].
    apply Forall_app in Hok as [_ [[Ht Hv] _]%Forall_cons]. simpl in Ht, Hv.
    simpl. rewrite (proj2 (Z.ltb_ge _ 0)) by zl.
    rewrite Hb, enc_app, enc_cons, <- !app_assoc, read_length by done. simpl.
    destruct (0 <? zlen v) eqn:E; btest.
    + rewrite read_value by done. simpl. eauto.
    + assert (v = []) as -> by (apply zlen_zero; zl). simpl. eauto.
  - apply assoc_None in Ea. rewrite (_tlv_find_tag_none t es) by done. simpl. eauto.
Qed.

Lemma tlv_delete_refines t es tag : rep t es → refines t es (TDelete tag).
Proof.
  intros Hr. pose proof (rep_fits t es Hr) as Hfit. unfold refines. simpl. unfold tlv_delete.
  destruct (assoc tag es) as [v|] eqn:Ea.
  - apply assoc_Some in Ea as (a & b & -> & Hn). rewrite (_tlv_find_tag_some t a tag v b) by done.
    pose proof Hr as [Hl Hc Hok Hd [r Hb] Hs].
    apply Forall_app in Hok as [Hok1 [[Ht Hv] Hok2]%Forall_cons]. simpl in Ht, Hv.
    simpl. rewrite (proj2 (Z.ltb_ge _ 0)) by zl.
    rewrite Hb, enc_app, enc_cons, <- !app_assoc, read_length by done. simpl.
    unfold TLV_TAG_SIZE. rewrite !u32_small by zl.
    rewrite (move_bytes_back (enc a) (enc_entry (tag, v)) (enc b) r) by zl. simpl.
    rewrite (assoc_del_app tag v a b) by done.
    eexists. split_and!; [done| |done]. split; simpl.
    + rewrite !zlen_app, zlen_zdrop by zl. rewrite Hb in Hl. zl.
    + done.
    + by apply Forall_app.
    + rewrite fmap_app in *. simpl in Hd. apply NoDup_app in Hd as (? & Hx & [? ?]%NoDup_cons).
      apply NoDup_app. split_and!; [done| |done]. intros x Hin. by apply Hx in Hin as [_ ?]%not_elem_of_cons.
    + eexists. by rewrite enc_app, <- app_assoc.
    + rewrite Hs. zl.
  - apply assoc_None in Ea. rewrite (_tlv_find_tag_none t es) by done. simpl. eauto.
Qed.

Lemma entry_split tag v : enc_entry (tag, v) = le_encode 4 tag ++ le_encode 2 (zlen v) ++ v.
Proof. done. Qed.

(** Rewriting an entry in place with a value that is not longer. [left] is
    what remains of the old value behind the new one. *)
Lemma rewrite_entry (A : list Z) tag (v w left k : list Z) off :
  off = zlen A → zlen v = zlen w + zlen left →
  (let! buffer := mwrite (A ++ enc_entry (tag, v) ++ k) (off + 4) (le_encode 2 (zlen w)) in
   mwrite buffer (off + TLV_TAG_SIZE) w)
  = Done (A ++ enc_entry (tag, w) ++ zdrop (zlen w) v ++ k).
Proof.
  intros -> Hv. rewrite entry_split.
  rewrite (mwrite_eq _ (A ++ le_encode 4 tag) (le_encode 2 (zlen v)) _ (v ++ k));
    [|by rewrite <- !app_assoc|zl|zl]. simpl. unfold TLV_TAG_SIZE.
  rewrite (mwrite_eq _ (A ++ le_encode 4 tag ++ le_encode 2 (zlen w)) (ztake (zlen w) v) w
             (zdrop (zlen w) v ++ k)).
  - by rewrite entry_split, <- !app_assoc.
  - rewrite <- !app_assoc. do 3 f_equal. by rewrite (app_assoc (ztake _ _)), ztake_zdrop.
  - zl.
  - rewrite zlen_ztake; zl.
Qed.

(** Rewriting an entry with a longer value, into the gap [g] behind it. *)
Lemma grow_entry (A : list Z) tag (v w g k : list Z) off :
  off = zlen A → zlen w = zlen v + zlen g →
  (let! buffer := mwrite (A ++ enc_entry (tag, v) ++ g ++ k) (off + 4) (le_encode 2 (zlen w)) in
   mwrite buffer (off + TLV_TAG_SIZE) w)
  = Done (A ++ enc_entry (tag, w) ++ k).
Proof.
  intros -> Hv. rewrite entry_split.
  rewrite (mwrite_eq _ (A ++ le_encode 4 tag) (le_encode 2 (zlen v)) _ (v ++ g ++ k));
    [|by rewrite <- !app_assoc|zl|zl]. simpl. unfold TLV_TAG_SIZE.
  rewrite (mwrite_eq _ (A ++ le_encode 4 tag ++ le_encode 2 (zlen w)) (v ++ g) w k).
  - by rewrite entry_split, <- !app_assoc.
  - by rewrite <- !app_assoc.
  - zl.
  - zl.
Qed.

Lemma tlv_update_refines t es tag w : rep t es → op_ok (TUpdate tag w) → refines t es (TUpdate tag w).
Proof.
  intros Hr [Htag Hw]. pose proof (rep_fits t es Hr) as Hfit. pose proof (zlen_nonneg w).
  unfold refines. simpl. destruct (zlen w =? 0) eqn:E0; simpl; [eauto|].
  destruct (assoc tag es) as [v|] eqn:Ea;
    [|apply assoc_None in Ea; rewrite (_tlv_find_tag_none t es) by done; simpl; eauto].
  apply assoc_Some in Ea as (a & b & -> & Hn). rewrite (_tlv_find_tag_some t a tag v b) by done.
  rewrite (assoc_set_app tag v w a b) by done.
  pose proof Hr as [Hl Hc Hok Hd [r Hb] Hs].
  apply Forall_app in Hok as [Hok1 [[Ht Hv] Hok2]%Forall_cons]. simpl in Ht, Hv. btest.
  assert (zlen (enc (a ++ (tag, w) :: b)) = tlv_size t - zlen v + zlen w) as Hz by (rewrite Hs; zl).
  rewrite Hz. simpl. rewrite (proj2 (Z.ltb_ge _ 0)) by zl.
  rewrite Hb, enc_app, enc_cons, <- !app_assoc, read_length by done. simpl. rewrite mread_all. simpl.
  rewrite Hb in Hl. unfold TLV_TAG_SIZE.
  destruct (zlen v =? zlen w) eqn:E1; btest; [|destruct (zlen w <? zlen v) eqn:E2; btest].
  - rewrite (proj2 (Z.ltb_ge _ _)) by zl.
    rewrite entry_split, (mwrite_eq _ (enc a ++ le_encode 4 tag ++ le_encode 2 (zlen v)) v w (enc b ++ r));
      [|by rewrite <- !app_assoc|zl|zl]. simpl.
    eexists. split_and!; [done| |done].
    apply (rep_middle t a tag v w b _ _ r Hr); [done| |zl|zl].
    by rewrite entry_split, <- E1, <- !app_assoc.
  - rewrite (proj2 (Z.ltb_ge _ _)) by zl.
    pose proof (rewrite_entry (enc a) tag v w (zdrop (zlen w) v) (enc b ++ r) _ eq_refl) as Hre.
    unfold TLV_TAG_SIZE in Hre. specialize (Hre ltac:(rewrite zlen_zdrop; zl)).
    apply obind_inv in Hre as (buf1 & -> & Hre). rewrite obind_done, Hre. simpl.
    rewrite !u32_small by zl.
    pose proof (move_bytes_back (enc a ++ enc_entry (tag, w)) (zdrop (zlen w) v) (enc b) r) as Hmv.
    rewrite <- !app_assoc in Hmv. rewrite Hmv; [|zl|rewrite zlen_zdrop; zl|zl]. simpl.
    eexists. split_and!; [done| |done].
    eapply (rep_middle t a tag v w b _ _ _ Hr); [done|reflexivity| |zl].
    autorewrite with zlen. rewrite zlen_zdrop; rewrite !zlen_app, ?zlen_zdrop; zl.
  - rewrite (u32_small (_ + _)) by zl.
    replace (tlv_size t + (6 + zlen w - (6 + zlen v))) with (tlv_size t - zlen v + zlen w) by lia.
    destruct (_ <? _) eqn:E3; btest.
    { eexists. split_and!; [done|exact Hr|done]. }
    rewrite !u32_small by zl.
    destruct (move_bytes_forward (enc a) (enc_entry (tag, v)) (enc b) r
                (zlen (enc a) + (6 + zlen w)) (zlen (enc a) + (6 + zlen v))
                (tlv_size t - (zlen (enc a) + (6 + zlen v))) (zlen w - zlen v))
      as (g & Hg & ->); [zl|zl|lia|zl|]. simpl.
    pose proof (grow_entry (enc a) tag v w g (enc b ++ zdrop (zlen w - zlen v) r) _ eq_refl) as Hgr.
    unfold TLV_TAG_SIZE in Hgr. specialize (Hgr ltac:(lia)).
    apply obind_inv in Hgr as (buf1 & -> & Hgr). rewrite obind_done, Hgr. simpl.
    eexists. split_and!; [done| |done].
    eapply (rep_middle t a tag v w b _ _ _ Hr); [done|reflexivity| |zl].
    autorewrite with zlen. rewrite zlen_zdrop by zl. zl.
Qed.

Lemma tlv_step_refines t es op : rep t es → op_ok op → refines t es op.
Proof.
  destruct op; intros Hr Hok.
  - by apply tlv_add_refines.
  - by apply tlv_update_refines.
  - by apply tlv_delete_refines.
  - by apply tlv_lookup_refines.
Qed.

Fixpoint tlv_run (t : tlv_t) (ops : list tlv_op) : outcome (list tlv_obs * tlv_t) :=
  match ops with
  | [] => Done ([], t)
  | op :: ops =>
      let! '(o, t) := tlv_step t op in
      let! '(os, t) := tlv_run t ops in
      Done (o :: os, t)
  end.

Fixpoint assoc_run (cap : Z) (es : list entry) (ops : list tlv_op) : list tlv_obs * list entry :=
  match ops with
  | [] => ([], es)
  | op :: ops =>
      let '(o, es) := assoc_step cap es op in
      let '(os, es) := assoc_run cap es ops in
      (o :: os, es)
  end.

(** ** Validation of an existing buffer *)

(** The bytes behind the entries that [tlv_init] accepts as the end: nothing,
    too few bytes for a header, or the sentinel tag. *)
Definition ends (rest : list Z) : Prop :=
  zlen rest < TLV_TAG_SIZE ∨ ∃ r, rest = le_encode 4 TLV_TAG_END_SENTINEL ++ r.

Definition truncated (es : list entry) (rest : list Z) : bool :=
  (0 <? zlen (enc es)) && (0 <? zlen rest) && (zlen rest <? TLV_TAG_SIZE).

Lemma tlv_validate_loop_end fuel (A rest : list Z) cap :
  cap = zlen A + zlen rest → cap < 2147483648 → ends rest →
  tlv_validate_loop (S fuel) (A ++ rest) cap (zlen A)
  = Done (if (0 <? zlen A) && (0 <? zlen rest) && (zlen rest <? TLV_TAG_SIZE)
          then (TLV_ERR_CORRUPTED, None) else (TLV_SUCCESS, Some (zlen A))).
Proof.
  intros -> Hcap Hend. pose proof (zlen_nonneg A). pose proof (zlen_nonneg rest).
  simpl. unfold TLV_TAG_SIZE in *. rewrite u32_small by lia.
  destruct (0 <? zlen rest) eqn:E1; btest; zdecide.
  2: { by rewrite andb_false_r. }
  rewrite andb_true_r. destruct (zlen rest <? 6) eqn:E2; btest; zdecide.
  - rewrite andb_true_r. destruct (0 <? zlen A) eqn:E3; btest; zdecide; [done|].
    by replace (zlen A) with 0 by lia.
  - destruct Hend as [?|[r ->]]; [unfold TLV_TAG_SIZE in *; lia|]. rewrite andb_false_r.
    unfold tag_ptr_tag, read_u32. rewrite (mread_eq _ A (le_encode 4 0) r) by done. done.
Qed.

Lemma tlv_validate_loop_entries es2 : ∀ fuel es1 rest cap,
  Forall entry_ok (es1 ++ es2) → cap = zlen (enc (es1 ++ es2)) + zlen rest → cap < 2147483648 →
  ends rest → (length es2 < fuel)%nat →
  tlv_validate_loop fuel (enc (es1 ++ es2) ++ rest) cap (zlen (enc es1))
  = Done (if truncated (es1 ++ es2) rest
          then (TLV_ERR_CORRUPTED, None) else (TLV_SUCCESS, Some (zlen (enc (es1 ++ es2))))).
Proof.
  induction es2 as [|[t v] es2 IH]; intros fuel es1 rest cap Hok Hcap Hb Hend Hfuel;
    (destruct fuel; [simpl in Hfuel; lia|]).
  - rewrite app_nil_r in *. by apply tlv_validate_loop_end.
  - pose proof Hok as [_ [[Ht Hv] _]%Forall_cons]%Forall_app. simpl in Ht, Hv.
    assert (zlen (enc es1) + 6 + zlen v + zlen (enc es2) + zlen rest = cap) as Hlen
      by (rewrite Hcap; zl).
    specialize (IH fuel (es1 ++ [(t, v)]) rest cap). rewrite <- app_assoc in IH. simpl app in IH.
    rewrite <- (IH Hok Hcap Hb Hend) by (simpl in Hfuel; lia). clear IH.
    simpl. unfold TLV_TAG_SIZE. rewrite (proj2 (Z.ltb_lt _ _)) by zl.
    rewrite u32_small by zl. rewrite (proj2 (Z.ltb_ge _ _)) by zl.
    rewrite enc_app, enc_cons, <- !app_assoc, read_tag by (done || lia). simpl.
    unfold TLV_TAG_END_SENTINEL. rewrite (proj2 (Z.eqb_neq t 0)) by lia.
    rewrite read_length by done. simpl. rewrite u32_small by zl.
    rewrite (proj2 (Z.ltb_ge _ _)) by zl.
    rewrite ?enc_app, ?enc_cons. change (enc []) with (@nil Z). rewrite <- ?app_assoc.
    f_equal. rewrite app_nil_r. zl.
Qed.

Lemma tlv_init_spec t t0 es rest : rep t es → 0 < tlv_capacity t →
  tlv_buffer t = enc es ++ rest → ends rest →
  tlv_init (Some t0) (Some (tlv_buffer t)) (tlv_capacity t)
  = Done (if truncated es rest
          then (TLV_ERR_CORRUPTED, Some (mk_tlv (tlv_buffer t) (tlv_capacity t) 0))
          else (TLV_SUCCESS, Some t)).
Proof.
  intros Hr Hpos Hb Hend. pose proof Hr as [Hl Hc Hok _ _ Hs]. simpl.
  rewrite (proj2 (Z.eqb_neq _ 0)) by lia. unfold _tlv_validate.
  rewrite Hb at 1. rewrite (tlv_validate_loop_entries es _ [] rest); try done.
  - simpl app. destruct (truncated es rest); simpl; [done|]. rewrite <- Hs. by destruct t.
  - rewrite <- Hl, Hb. zl.
  - simpl. rewrite <- Hl, zlen_nat, Hb, length_app. pose proof (length_enc es). lia.
Qed.

(** ** Theorems *)

(** C38: over a blank buffer, [tlv_init] starts an empty record list, and from
    then on every sequence of additions, updates, deletions and lookups
    returns exactly the results of an association list whose encoding is
    limited to the capacity: lookups see the last value written, a duplicate
    addition and a missing tag are reported, an entry that does not fit is
    refused and changes nothing, and no access leaves the buffer. *)
Theorem tlv_refines_assoc (t0 : tlv_t) (buf : list Z) (ops : list tlv_op) :
  TLV_TAG_SIZE ≤ zlen buf < 2147483648 → (∃ r, buf = le_encode 4 TLV_TAG_END_SENTINEL ++ r) →
  Forall op_ok ops →
  ∃ t t', tlv_init (Some t0) (Some buf) (zlen buf) = Done (TLV_SUCCESS, Some t)
    ∧ tlv_run t ops = Done ((assoc_run (zlen buf) [] ops).1, t')
    ∧ rep t' (assoc_run (zlen buf) [] ops).2.
Proof.
  intros Hlen Hblank Hops. set (t := mk_tlv buf (zlen buf) 0). unfold TLV_TAG_SIZE in Hlen.
  assert (rep t []) as Hr.
  { split; simpl; [done|lia|done|constructor|by exists buf|done]. }
  exists t. enough (∃ t', tlv_run t ops = Done ((assoc_run (zlen buf) [] ops).1, t')
    ∧ rep t' (assoc_run (zlen buf) [] ops).2) as (t' & ? & ?).
  { exists t'. split; [|done].
    apply (tlv_init_spec t t0 [] buf Hr); [simpl; lia|done|by right]. }
  assert (tlv_capacity t = zlen buf) as Hcap by done. clearbody t. clear Hblank Hlen.
  revert t Hr Hcap. generalize (@nil entry) as es.
  induction Hops as [|op ops Hop Hops IH]; intros es t Hr Hcap; simpl; [eauto|].
  pose proof (tlv_step_refines t es op Hr Hop) as Hstep. unfold refines in Hstep.
  rewrite Hcap in Hstep. destruct (assoc_step _ es op) as [o es'].
  destruct Hstep as (t' & -> & Hr' & Hcap'). simpl.
  destruct (IH es' t' Hr' Hcap') as (t2 & -> & ?). simpl.
  destruct (assoc_run (zlen buf) es' ops) as [os es2]. simpl in *. eauto.
Qed.

Lemma tlv_refines_assoc_witness :
  ∃ t t', tlv_init (Some (mk_tlv [] 0 0)) (Some (replicate 20 0)) 20 = Done (TLV_SUCCESS, Some t)
    ∧ tlv_run t [TAdd 7 [1; 2]; TAdd 9 [3]; TUpdate 7 [4; 5; 6]; TLookup 7; TDelete 7; TLookup 9;
                 TAdd 9 [1]; TAdd 8 [1; 2; 3; 4; 5; 6; 7; 8]]
      = Done ([(TLV_SUCCESS, None); (TLV_SUCCESS, None); (TLV_SUCCESS, None);
               (TLV_SUCCESS, Some [4; 5; 6]); (TLV_SUCCESS, None); (TLV_SUCCESS, Some [3]);
               (TLV_ERR_DUPLICATE, None); (TLV_ERR_NO_SPACE, None)], t')
    ∧ rep t' [(9, [3])].
Proof.
  apply (tlv_refines_assoc (mk_tlv [] 0 0) (replicate 20 0)).
  - unfold TLV_TAG_SIZE, zlen. simpl. lia.
  - exists (replicate 16 0). reflexivity.
  - repeat constructor; unfold zlen; simpl; lia.
Defined.

(** [tlv_init] re-reads what the operations wrote: over a buffer that
    holds the entries [es], with nothing, or the sentinel tag, behind them,
    it restores the same context. *)
Theorem tlv_init_restores (t t0 : tlv_t) (es : list entry) (rest : list Z) :
  rep t es → 0 < tlv_capacity t → tlv_buffer t = enc es ++ rest →
  (rest = [] ∨ ∃ r, rest = le_encode 4 TLV_TAG_END_SENTINEL ++ r ∧ 2 ≤ zlen r) →
  tlv_init (Some t0) (Some (tlv_buffer t)) (tlv_capacity t) = Done (TLV_SUCCESS, Some t).
Proof.
  intros Hr Hpos Hb Hend. rewrite (tlv_init_spec t t0 es rest Hr Hpos Hb).
  - replace (truncated es rest) with false; [done|]. symmetry. unfold truncated, TLV_TAG_SIZE.
    destruct Hend as [->|(r & -> & Hlen)].
    + by destruct (0 <? zlen (enc es)).
    + rewrite (proj2 (Z.ltb_ge _ 6)) by zl. by rewrite andb_false_r.
  - destruct Hend as [->|(r & -> & _)]; [left|right; eauto].
    unfold TLV_TAG_SIZE. done.
Qed.

Lemma tlv_init_restores_witness :
  tlv_init (Some (mk_tlv [] 0 0)) (Some [7; 0; 0; 0; 1; 0; 42]) 7
  = Done (TLV_SUCCESS, Some (mk_tlv [7; 0; 0; 0; 1; 0; 42] 7 7)).
Proof.
  apply (tlv_init_restores (mk_tlv [7; 0; 0; 0; 1; 0; 42] 7 7) (mk_tlv [] 0 0) [(7, [42])] []).
  - split; simpl; try done.
    + repeat constructor; simpl; lia.
    + by apply NoDup_singleton.
    + by exists [].
  - simpl. lia.
  - reflexivity.
  - by left.
Defined.

(** One to five unused bytes at the end of the buffer, which [tlv_add] leaves
    without complaint, make [tlv_init] reject the buffer as corrupted, even
    though they are zero. *)
Theorem tlv_init_rejects_short_tail (t t0 : tlv_t) (es : list entry) (rest : list Z) :
  rep t es → es ≠ [] → tlv_buffer t = enc es ++ rest → 0 < zlen rest < TLV_TAG_SIZE →
  tlv_init (Some t0) (Some (tlv_buffer t)) (tlv_capacity t)
  = Done (TLV_ERR_CORRUPTED, Some (mk_tlv (tlv_buffer t) (tlv_capacity t) 0)).
Proof.
  intros Hr Hne Hb Hrest. pose proof (rep_len _ _ Hr) as Hl. rewrite Hb in Hl.
  rewrite (tlv_init_spec t t0 es rest Hr); [|zl|done|left; lia].
  replace (truncated es rest) with true; [done|]. symmetry. unfold truncated.
  destruct es as [|[tg v] es]; [done|]. rewrite !(proj2 (Z.ltb_lt _ _)) by zl. done.
Qed.
