(* ===== verification/Wstring.v ===== *)
(** * Constant-time comparison and zeroing (lib/wstd)

    [memcmp_s] compares two buffers without a branch on their contents: it
    folds every byte pair into a 16-bit accumulator with masks. The model
    follows lib/wstd/src/wstring.c statement by statement, at 16 bits; the
    theorem says that it computes what a naive comparison computes. *)

From S2P Require Import Prelude.

(** [memzero(pnt, len)] on a buffer; a NULL pointer is [None]. *)
Fixpoint memzero_loop (n : nat) (i : Z) (buf : list Z) : outcome (list Z) :=
  match n with
  | O => Done buf
  | S n => let! buf := aset buf i 0 in memzero_loop n (i + 1) buf
  end.

Definition memzero (pnt : option (list Z)) (len : Z) : outcome (option (list Z)) :=
  match pnt with
  | None => Done None
  | Some buf => let! buf := memzero_loop (Z.to_nat len) 0 buf in Done (Some buf)
  end.

(** One turn of the loop on the bytes [c1] and [c2]. *)
Definition memcmp_s_turn (r c1 c2 : Z) : Z :=
  let v := u16 (u8 r + 255) in
  let m := u16 (v / 256 - 1) in
  let d := u16 (c1 - c2) in
  Z.lor r (Z.land d m).

Fixpoint memcmp_s_loop (n : nat) (i r : Z) (b1 b2 : list Z) : outcome Z :=
  match n with
  | O => Done r
  | S n =>
      let! c1 := aget b1 i in
      let! c2 := aget b2 i in
      memcmp_s_loop n (i + 1) (memcmp_s_turn r c1 c2) b1 b2
  end.

Definition memcmp_s (b1 b2 : list Z) (len : Z) : outcome Z :=
  let! r := memcmp_s_loop (Z.to_nat len) 0 0 b1 b2 in
  Done (u16 (r + 0x8000) - 0x8000).

(** The reference: the difference of the first two bytes that differ. *)
Fixpoint memcmp_ref (b1 b2 : list Z) : Z :=
  match b1, b2 with
  | c1 :: b1, c2 :: b2 => if c1 =? c2 then memcmp_ref b1 b2 else c1 - c2
  | _, _ => 0
  end.

(** ** One turn *)

Lemma memcmp_s_turn_zero c1 c2 : memcmp_s_turn 0 c1 c2 = u16 (c1 - c2).
Proof.
  unfold memcmp_s_turn. change (u16 (u16 (u8 0 + 255) / 256 - 1)) with (Z.ones 16).
  rewrite Z.lor_0_l, Z.land_ones by lia. apply Z.mod_small. apply u16_range.
Qed.

Lemma memcmp_s_turn_keep r c1 c2 : r mod 256 ≠ 0 → memcmp_s_turn r c1 c2 = r.
Proof.
  intros Hr. unfold memcmp_s_turn. unfold u8.
  pose proof (Z.mod_pos_bound r 256 ltac:(lia)).
  rewrite (u16_small (r mod 256 + 255)) by lia.
  replace ((r mod 256 + 255) / 256) with 1.
  - by rewrite Z.land_0_r, Z.lor_0_r.
  - apply (Z.div_unique_pos _ _ 1 (r mod 256 - 1)); lia.
Qed.

Lemma u16_diff_low c1 c2 : byte_ok c1 → byte_ok c2 → c1 ≠ c2 → u16 (c1 - c2) mod 256 ≠ 0.
Proof.
  unfold byte_ok, u16. intros H1 H2 Hne. destruct (Z.lt_ge_cases c1 c2).
  - replace ((c1 - c2) mod 65536) with (c1 - c2 + 65536) by (apply (Z.mod_unique_pos _ _ (-1)); lia).
    replace ((c1 - c2 + 65536) mod 256) with (c1 - c2 + 256) by (apply (Z.mod_unique_pos _ _ 255); lia).
    lia.
  - rewrite !Z.mod_small by (rewrite ?Z.mod_small; lia). lia.
Qed.

(** ** The loop *)

Lemma memcmp_s_loop_keep n : ∀ i r b1 b2, r mod 256 ≠ 0 → 0 ≤ i →
  i + Z.of_nat n ≤ zlen b1 → i + Z.of_nat n ≤ zlen b2 →
  memcmp_s_loop n i r b1 b2 = Done r.
Proof.
  induction n as [|n IH]; intros i r b1 b2 Hr Hi H1 H2; simpl; [done|].
  destruct (aget_total b1 i) as [c1 ->]; [lia|]. destruct (aget_total b2 i) as [c2 ->]; [lia|].
  simpl. rewrite memcmp_s_turn_keep by done. apply IH; [done|lia|lia|lia].
Qed.

Lemma aget_app_here {A} (p l : list A) x i : i = zlen p → aget (p ++ x :: l) i = Done x.
Proof.
  intros ->. apply aget_Some; [apply zlen_nonneg|]. rewrite zlen_nat. apply list_lookup_middle. done.
Qed.

Lemma memcmp_s_loop_ref b1 : ∀ b2 p1 p2 i, i = zlen p1 → i = zlen p2 → length b1 = length b2 →
  bytes_ok b1 → bytes_ok b2 →
  memcmp_s_loop (length b1) i 0 (p1 ++ b1) (p2 ++ b2) = Done (u16 (memcmp_ref b1 b2)).
Proof.
  induction b1 as [|c1 b1 IH]; intros [|c2 b2] p1 p2 i Hi1 Hi2 Hlen Hb1 Hb2; try done.
  apply Forall_cons in Hb1 as [Hc1 Hb1]. apply Forall_cons in Hb2 as [Hc2 Hb2].
  simpl length. simpl memcmp_s_loop.
  rewrite !aget_app_here by done. simpl obind. rewrite memcmp_s_turn_zero. simpl memcmp_ref.
  destruct (c1 =? c2) eqn:E; btest.
  - subst c2. rewrite Z.sub_diag. rewrite (cons_middle c1 p1), (cons_middle c1 p2), !app_assoc.
    apply IH; [zl|zl|by injection Hlen|done|done].
  - apply memcmp_s_loop_keep; [by apply u16_diff_low|zl| |].
    + rewrite zlen_app, zlen_cons. unfold zlen at 2. lia.
    + injection Hlen as Hlen. rewrite zlen_app, zlen_cons. unfold zlen at 2. lia.
Qed.

Lemma memcmp_ref_range b1 : ∀ b2, bytes_ok b1 → bytes_ok b2 → -255 ≤ memcmp_ref b1 b2 ≤ 255.
Proof.
  induction b1 as [|c1 b1 IH]; intros [|c2 b2] H1 H2; simpl; try lia.
  apply Forall_cons in H1 as [? ?]. apply Forall_cons in H2 as [? ?]. unfold byte_ok in *.
  case_match; [by apply IH|lia].
Qed.

Lemma u16_sign x : -255 ≤ x ≤ 255 → u16 (u16 x + 0x8000) - 0x8000 = x.
Proof.
  intros. unfold u16. rewrite Zplus_mod_idemp_l, Z.mod_small by lia. lia.
Qed.

Lemma memcmp_ref_zero b1 : ∀ b2, length b1 = length b2 → memcmp_ref b1 b2 = 0 ↔ b1 = b2.
Proof.
  induction b1 as [|c1 b1 IH]; intros [|c2 b2] Hlen; try done; simpl.
  injection Hlen as Hlen. case_match; btest.
  - subst. rewrite IH by done. split; [congruence|]. by injection 1.
  - split; [lia|]. intros [=]. lia.
Qed.

Lemma memcmp_s_ref b1 b2 : length b1 = length b2 → bytes_ok b1 → bytes_ok b2 →
  memcmp_s b1 b2 (zlen b1) = Done (memcmp_ref b1 b2).
Proof.
  intros Hlen H1 H2. unfold memcmp_s. rewrite zlen_nat.
  rewrite (memcmp_s_loop_ref b1 b2 [] []) by done. simpl.
  f_equal. apply u16_sign. by apply memcmp_ref_range.
Qed.

(** Within both buffers the comparison returns. *)
Lemma memcmp_s_loop_total n : ∀ i r b1 b2, 0 ≤ i → i + Z.of_nat n ≤ zlen b1 →
  i + Z.of_nat n ≤ zlen b2 → ∃ r', memcmp_s_loop n i r b1 b2 = Done r'.
Proof.
  induction n as [|n IH]; intros i r b1 b2 Hi H1 H2; cbn [memcmp_s_loop]; [eauto|].
  destruct (aget_total b1 i) as [c1 ->]; [lia|]. destruct (aget_total b2 i) as [c2 ->]; [lia|].
  cbn [obind]. apply IH; lia.
Qed.

Lemma memcmp_s_total b1 b2 n : 0 ≤ n → n ≤ zlen b1 → n ≤ zlen b2 → ∃ r, memcmp_s b1 b2 n = Done r.
Proof.
  intros. unfold memcmp_s. destruct (memcmp_s_loop_total (Z.to_nat n) 0 0 b1 b2) as [r ->]; [lia..|].
  cbn [obind]. eauto.
Qed.

(** [memcmp_s] returns, on buffers of [len] bytes, the difference of the
    first two bytes that differ and 0 when there is none, in spite of the
    16-bit masking that keeps its timing independent of the contents. *)
Theorem memcmp_s_is_memcmp (b1 b2 : list Z) :
  length b1 = length b2 → bytes_ok b1 → bytes_ok b2 →
  memcmp_s b1 b2 (zlen b1) = Done (memcmp_ref b1 b2).
Proof. apply memcmp_s_ref. Qed.

Lemma memcmp_s_is_memcmp_witness : memcmp_s [7; 200; 3] [7; 201; 9] 3 = Done (-1).
Proof.
  apply (memcmp_s_is_memcmp [7; 200; 3] [7; 201; 9]);
    [reflexivity|repeat constructor; unfold byte_ok; lia|repeat constructor; unfold byte_ok; lia].
Defined.

(** Equality test, for the callers. *)
Lemma memcmp_s_zero b1 b2 : length b1 = length b2 → bytes_ok b1 → bytes_ok b2 →
  ∃ r, memcmp_s b1 b2 (zlen b1) = Done r ∧ (r = 0 ↔ b1 = b2).
Proof.
  intros Hlen H1 H2. exists (memcmp_ref b1 b2). split; [by apply memcmp_s_ref|].
  by apply memcmp_ref_zero.
Qed.

Lemma memzero_loop_spec n : ∀ p buf, length buf = n →
  memzero_loop n (zlen p) (p ++ buf) = Done (p ++ replicate n 0).
Proof.
  induction n as [|n IH]; intros p [|x buf] Hlen; try done.
  injection Hlen as Hlen. simpl. rewrite aset_done by zl. simpl.
  rewrite zlen_nat, insert_app_r_alt, Nat.sub_diag by lia. simpl.
  rewrite (cons_middle 0 p), app_assoc. replace (zlen p + 1) with (zlen (p ++ [0])) by zl.
  rewrite IH by done. by rewrite <- app_assoc.
Qed.

(** The buffer is all zero afterwards. *)
Lemma memzero_spec buf : memzero (Some buf) (zlen buf) = Done (Some (replicate (length buf) 0)).
Proof.
  simpl. rewrite zlen_nat. pose proof (memzero_loop_spec (length buf) [] buf eq_refl) as H.
  simpl in H. change (zlen []) with 0 in H. by rewrite H.
Qed.
