(* ===== verification/Mempool.v ===== *)
(** * Memory pools (lib/mempool)

    mempool.c: regions of equally sized entries with a free list each. A
    region keeps its bytes and the address they start at, so that pointers are
    numbers. Both operations run under [pool->mutex]. *)

From S2P Require Import Prelude.

Record mempool_region_t := mk_region {
  entry_size : Z;
  count : Z;
  total_size : Z;
  base : Z;            (* the address of buffer[0] *)
  buffer : list Z;
  freelist : list bool;
}.

(** The regions of a [mempool_t]. *)
Abbreviation mempool_t := (list mempool_region_t).

(** [mempool_create] for regions given as (entry size, count, address). *)
Definition mempool_create (decl : list (Z * Z * Z)) : mempool_t :=
  map (λ '(size, n, a), mk_region size n (size * n) a (replicate (Z.to_nat (size * n)) 0)
                          (replicate (Z.to_nat n) true)) decl.

Definition mempool_region_start_addr (r : mempool_region_t) : Z := base r.
Definition mempool_region_end_addr (r : mempool_region_t) : Z := base r + total_size r.

Definition mempool_region_contains_buf (r : mempool_region_t) (buf : Z) : bool :=
  (mempool_region_start_addr r <=? buf) && (buf <? mempool_region_end_addr r).

(** The loop over the regions: the index of the first that satisfies [f]. *)
Fixpoint first_region (f : mempool_region_t → bool) (pool : mempool_t) (i : nat) : option nat :=
  match pool with
  | [] => None
  | r :: pool => if f r then Some i else first_region f pool (S i)
  end.

Definition mempool_region_for_size (pool : mempool_t) (size : Z) : option nat :=
  if size =? 0 then None else first_region (λ r, size <=? entry_size r) pool 0.

Definition mempool_region_for_buf (pool : mempool_t) (buf : Z) : option nat :=
  first_region (λ r, mempool_region_contains_buf r buf) pool 0.

Definition mempool_region_for_idx (pool : mempool_t) (idx : Z) : outcome mempool_region_t :=
  let! _ := ASSERT (idx <? zlen pool) in
  aget pool idx.

Definition set_freelist (r : mempool_region_t) (fl : list bool) : mempool_region_t :=
  mk_region (entry_size r) (count r) (total_size r) (base r) (buffer r) fl.
Definition set_buffer (r : mempool_region_t) (b : list Z) : mempool_region_t :=
  mk_region (entry_size r) (count r) (total_size r) (base r) b (freelist r).

Fixpoint free_loop (r : mempool_region_t) (n : nat) (entry : Z)
    : outcome (option Z * mempool_region_t) :=
  match n with
  | O => Done (None, r)
  | S n =>
      let! free := aget (freelist r) entry in
      if free : bool then
        let! fl := aset (freelist r) entry false in
        Done (Some (base r + entry * entry_size r), set_freelist r fl)
      else free_loop r n (entry + 1)
  end.

Definition get_first_free_buffer (r : mempool_region_t) : outcome (option Z * mempool_region_t) :=
  free_loop r (Z.to_nat (count r)) 0.

Definition mempool_alloc (pool : mempool_t) (size : Z) : outcome (Z * mempool_t) :=
  match mempool_region_for_size pool size with
  | None => Abort
  | Some i =>
      let! r := aget pool (Z.of_nat i) in
      let! '(buf, r) := get_first_free_buffer r in
      match buf with
      | None => Abort
      | Some buf => Done (buf, <[i := r]> pool)
      end
  end.

(** [buf] is [None] for a NULL pointer. *)
Definition mempool_free (pool : mempool_t) (buf : option Z) : outcome mempool_t :=
  match buf with
  | None => Done pool
  | Some buf =>
      match mempool_region_for_buf pool buf with
      | None => Abort
      | Some i =>
          let! r := aget pool (Z.of_nat i) in
          let! bytes := mwrite (buffer r) (buf - mempool_region_start_addr r)
                          (replicate (Z.to_nat (entry_size r)) 0) in
          let r := set_buffer r bytes in
          if entry_size r =? 0 then Undef
          else
            let entry := (buf - mempool_region_start_addr r) / entry_size r in
            let! _ := ASSERT (entry <? count r) in
            let! free := aget (freelist r) entry in
            let! _ := ASSERT (negb free) in
            let! fl := aset (freelist r) entry true in
            Done (<[i := set_freelist r fl]> pool)
      end
  end.

(** ** The blocks in use *)

Definition region_ok (r : mempool_region_t) : Prop :=
  0 < entry_size r ∧ 0 ≤ count r ∧ total_size r = entry_size r * count r
  ∧ zlen (buffer r) = total_size r ∧ zlen (freelist r) = count r.

(** The regions are separate objects. *)
Definition apart (r1 r2 : mempool_region_t) : Prop :=
  base r1 + total_size r1 ≤ base r2 ∨ base r2 + total_size r2 ≤ base r1.

Record pool_ok (pool : mempool_t) : Prop := {
  pool_regions : Forall region_ok pool;
  pool_apart i j r1 r2 : pool !! i = Some r1 → pool !! j = Some r2 → i ≠ j → apart r1 r2;
}.

(** Entry [e] of region [i] is handed out: the block of [n] bytes at [a]. *)
Definition block (pool : mempool_t) (i e : nat) (a n : Z) : Prop :=
  ∃ r, pool !! i = Some r ∧ freelist r !! e = Some false ∧ a = base r + Z.of_nat e * entry_size r
    ∧ n = entry_size r.

Definition live (pool : mempool_t) (a n : Z) : Prop := ∃ i e, block pool i e a n.

(** The byte at address [x] of the pool. *)
Definition byte_at (pool : mempool_t) (x v : Z) : Prop :=
  ∃ i r, pool !! i = Some r ∧ base r ≤ x ∧ buffer r !! Z.to_nat (x - base r) = Some v.

Lemma first_region_spec f pool : ∀ k i, first_region f pool k = Some i →
  ∃ r, (k ≤ i)%nat ∧ pool !! (i - k)%nat = Some r ∧ f r = true.
Proof.
  induction pool as [|r pool IH]; intros k i; simpl; [done|]. destruct (f r) eqn:Ef.
  - intros [= <-]. exists r. by rewrite Nat.sub_diag.
  - intros (r' & Hk & Hl & Hf)%IH. exists r'. split_and!; [lia| |done].
    by replace (i - k)%nat with (S (i - S k)) by lia.
Qed.

Lemma first_region_hit f pool i r : ∀ k, pool !! i = Some r → f r = true →
  (∀ j r', pool !! j = Some r' → f r' = true → j = i) → first_region f pool k = Some (k + i)%nat.
Proof.
  revert i. induction pool as [|r0 pool IH]; intros i k Hi Hf Hu; [done|]. simpl.
  destruct (f r0) eqn:Ef0; [rewrite <- (Hu 0%nat r0) by done; f_equal; lia|].
  destruct i as [|i]; [simpl in Hi; congruence|]. simpl in Hi. rewrite (IH i); [f_equal; lia|done|done|].
  intros j r' Hj Hf'. specialize (Hu (S j) r' Hj Hf'). lia.
Qed.

Lemma free_loop_spec n : ∀ r e b r', free_loop r n e = Done (b, r') → 0 ≤ e →
  match b with
  | None => r' = r
  | Some a => ∃ k, e ≤ Z.of_nat k < e + Z.of_nat n ∧ freelist r !! k = Some true
      ∧ a = base r + Z.of_nat k * entry_size r ∧ r' = set_freelist r (<[k := false]> (freelist r))
  end.
Proof.
  induction n as [|n IH]; intros r e b r' E He; simpl in E; [by injection E as <- <-|].
  apply obind_inv in E as (free & Ef & E). unfold aget in Ef. rewrite (proj2 (Z.leb_le 0 e)) in Ef by done.
  destruct (freelist r !! Z.to_nat e) as [x|] eqn:Ex; [|done]. injection Ef as ->. destruct free.
  - apply obind_inv in E as (fl & Es & [= <- <-]). unfold aset in Es. case_match; [|done].
    injection Es as <-. exists (Z.to_nat e). split_and!; [lia|lia|done|by rewrite Z2Nat.id by lia|done].
  - apply IH in E; [|lia]. destruct b as [a|]; [|done]. destruct E as (k & Hk & ? & ? & ?).
    exists k. split_and!; [lia|lia|done|done|done].
Qed.

(** Two blocks are the same entry or do not overlap. *)
Lemma block_disjoint pool i e a n j e' b m : pool_ok pool → block pool i e a n → block pool j e' b m →
  i ≠ j ∨ e ≠ e' → a + n ≤ b ∨ b + m ≤ a.
Proof.
  intros [Hr Ha] (r1 & Hi & Hf1 & -> & ->) (r2 & Hj & Hf2 & -> & ->) Hne.
  assert (Hin : ∀ i r e, pool !! i = Some r → freelist r !! e = Some false →
    0 < entry_size r ∧ 0 ≤ Z.of_nat e * entry_size r
    ∧ Z.of_nat e * entry_size r + entry_size r ≤ total_size r).
  { intros i' r e0 Hi' Hf. pose proof (proj1 (Forall_lookup _ _) Hr _ _ Hi') as (Hs & Hc & Ht & _ & Hl).
    apply lookup_lt_Some in Hf. unfold zlen in Hl. rewrite Ht. split_and!; [done|nia|nia]. }
  destruct (Nat.eq_dec i j) as [->|Hij].
  - rewrite Hi in Hj. injection Hj as <-. destruct Hne as [|Hne]; [done|].
    destruct (Hin _ _ _ Hi Hf1) as (Hs & _). destruct (Nat.lt_ge_cases e e'); [left|right]; nia.
  - destruct (Hin _ _ _ Hi Hf1) as (? & ? & ?). destruct (Hin _ _ _ Hj Hf2) as (? & ? & ?).
    destruct (Ha _ _ _ _ Hi Hj Hij); lia.
Qed.

(** Changing one region in place. *)
Lemma pool_ok_insert pool i r r' : pool_ok pool → pool !! i = Some r → region_ok r' →
  base r' = base r → total_size r' = total_size r → pool_ok (<[i := r']> pool).
Proof.
  intros [Hr Ha] Hi Hok Hb Ht. split; [by apply Forall_insert|].
  intros j k r1 r2 Hj Hk Hne. pose proof (lookup_lt_Some _ _ _ Hi).
  assert (Hsame : ∀ x rx, <[i := r']> pool !! x = Some rx →
    ∃ r0, pool !! x = Some r0 ∧ base r0 = base rx ∧ total_size r0 = total_size rx).
  { intros x rx Hx. destruct (Nat.eq_dec i x) as [<-|].
    - rewrite list_lookup_insert_eq in Hx by done. injection Hx as <-. exists r. by rewrite Hb, Ht.
    - rewrite list_lookup_insert_ne in Hx by done. by exists rx. }
  destruct (Hsame _ _ Hj) as (a1 & Ha1 & Hb1 & Ht1). destruct (Hsame _ _ Hk) as (a2 & Ha2 & Hb2 & Ht2).
  unfold apart. rewrite <- Hb1, <- Hb2, <- Ht1, <- Ht2. by apply (Ha j k).
Qed.

(** Marking entry [k] of region [i] changes that entry only. *)
Lemma block_set pool i r r' k v j e a n : pool !! i = Some r → (k < length (freelist r))%nat →
  entry_size r' = entry_size r → base r' = base r → freelist r' = <[k := v]> (freelist r) →
  block (<[i := r']> pool) j e a n ↔
  (j = i ∧ e = k ∧ v = false ∧ a = base r + Z.of_nat k * entry_size r ∧ n = entry_size r)
  ∨ ((j ≠ i ∨ e ≠ k) ∧ block pool j e a n).
Proof.
  intros Hi Hk Hs Hb Hf. pose proof (lookup_lt_Some _ _ _ Hi) as Hlt. unfold block.
  destruct (Nat.eq_dec j i) as [->|Hji].
  - rewrite list_lookup_insert_eq by done. destruct (Nat.eq_dec e k) as [->|Hek].
    + split.
      * intros (? & [= <-] & Hfl & -> & ->). rewrite Hf, list_lookup_insert_eq in Hfl by done.
        injection Hfl as ->. rewrite Hs, Hb. by left.
      * intros [(_ & _ & -> & -> & ->)|[[] _]]; [|done|done]. exists r'.
        rewrite Hf, list_lookup_insert_eq, Hs, Hb by done. done.
    + split.
      * intros (? & [= <-] & Hfl & -> & ->). rewrite Hf, list_lookup_insert_ne in Hfl by done.
        right. split; [by right|]. exists r. by rewrite Hs, Hb.
      * intros [(_ & ? & _)|[_ (? & Hr & Hfl & -> & ->)]]; [done|]. rewrite Hi in Hr. injection Hr as <-.
        exists r'. rewrite Hf, list_lookup_insert_ne, Hs, Hb by done. done.
  - rewrite list_lookup_insert_ne by done. split; [by eauto|]. by intros [[? _]|[_ ?]].
Qed.

Lemma byte_at_set pool i r r' x v : pool !! i = Some r → base r' = base r → buffer r' = buffer r →
  byte_at (<[i := r']> pool) x v ↔ byte_at pool x v.
Proof.
  intros Hi Hb Hbuf. pose proof (lookup_lt_Some _ _ _ Hi) as Hlt. unfold byte_at.
  split; intros (j & rj & Hj & Hx & Hv).
  - destruct (Nat.eq_dec j i) as [->|]; [|rewrite list_lookup_insert_ne in Hj by done; by eauto].
    rewrite list_lookup_insert_eq in Hj by done. injection Hj as <-. rewrite Hb, Hbuf in *. by eauto.
  - destruct (Nat.eq_dec j i) as [->|]; [|exists j, rj; by rewrite list_lookup_insert_ne by done].
    rewrite Hi in Hj. injection Hj as <-. exists i, r'. rewrite list_lookup_insert_eq, Hb, Hbuf by done. done.
Qed.

(** Under the invariant an allocation stays within the pool: it succeeds or
    stops at the assertion on exhaustion. *)
Lemma free_loop_safe (r : mempool_region_t) n e :
  0 ≤ e → e + Z.of_nat n ≤ zlen (freelist r) → safe (λ _, True) (free_loop r n e).
Proof.
  revert e. induction n as [|n IH]; intros e He Hn; simpl; [done|].
  apply safe_aget; [lia|]. intros [|] _; [|apply IH; lia]. apply safe_aset; [lia|done].
Qed.

Lemma mempool_alloc_safe pool size : pool_ok pool → safe (λ _, True) (mempool_alloc pool size).
Proof.
  intros Hok. unfold mempool_alloc, mempool_region_for_size.
  destruct (size =? 0); [done|]. destruct (first_region _ pool 0) as [i|] eqn:Ei; [|done].
  destruct (first_region_spec _ _ _ _ Ei) as (r & _ & Hi & _). rewrite Nat.sub_0_r in Hi.
  rewrite (aget_Some pool (Z.of_nat i) r) by (rewrite ?Nat2Z.id; done || lia). cbn [obind].
  pose proof (proj1 (Forall_lookup _ _) (pool_regions _ Hok) _ _ Hi) as (_ & Hc & _ & _ & Hl).
  eapply safe_bind; [apply free_loop_safe; lia|]. by intros [[b|] r'] _.
Qed.

Lemma mempool_alloc_spec (pool pool' : mempool_t) (size a : Z) :
  pool_ok pool → mempool_alloc pool size = Done (a, pool') →
  pool_ok pool' ∧ ∃ n, size ≤ n
    ∧ (∀ b m, live pool b m → a + n ≤ b ∨ b + m ≤ a)
    ∧ (∀ b m, live pool' b m ↔ (b = a ∧ m = n) ∨ live pool b m)
    ∧ (∀ x v, byte_at pool' x v ↔ byte_at pool x v).
Proof.
  intros Hok E. unfold mempool_alloc, mempool_region_for_size in E.
  destruct (size =? 0) eqn:E0; [done|]. destruct (first_region _ pool 0) as [i|] eqn:Ei; [|done].
  destruct (first_region_spec _ _ _ _ Ei) as (r & _ & Hi & Hsz). rewrite Nat.sub_0_r in Hi. btest.
  rewrite (aget_Some pool (Z.of_nat i) r) in E by (rewrite ?Nat2Z.id; done || lia). cbn [obind] in E.
  apply obind_inv in E as ([[b|] r'] & Eg & E); [|done]. injection E as -> <-.
  unfold get_first_free_buffer in Eg. apply free_loop_spec in Eg as (k & Hk & Hfree & -> & ->); [|done].
  pose proof (proj1 (Forall_lookup _ _) (pool_regions _ Hok) _ _ Hi) as (Hs & Hc & Ht & Hb & Hl).
  pose proof (lookup_lt_Some _ _ _ Hfree) as Hklt.
  set (r' := set_freelist r (<[k := false]> (freelist r))).
  assert (Hok' : pool_ok (<[i := r']> pool)).
  { apply (pool_ok_insert _ _ r); [done|done| |done|done]. split_and!; simpl; try done. by rewrite zlen_insert. }
  pose proof (λ j e b m, block_set pool i r r' k false j e b m Hi Hklt eq_refl eq_refl eq_refl) as Hset.
  assert (Hnew : block (<[i := r']> pool) i k (base r + Z.of_nat k * entry_size r) (entry_size r))
    by (apply Hset; left; split_and!; done).
  split; [done|]. exists (entry_size r). split_and!; [done| | |].
  - intros b m (j & e & Hbl). assert (Hne : i ≠ j ∨ k ≠ e).
    { destruct (Nat.eq_dec i j) as [<-|]; [|by left]. right. intros <-. destruct Hbl as (r0 & Hr0 & Hf0 & _).
      rewrite Hi in Hr0. injection Hr0 as <-. congruence. }
    eapply (block_disjoint _ i k _ _ j e b m Hok'); [done| |done]. apply Hset. right. split; [|done].
    destruct Hne; [left|right]; congruence.
  - intros b m. split.
    + intros (j & e & Hbl). apply Hset in Hbl as [(_ & _ & _ & -> & ->)|[_ Hbl]]; [by left|right; by exists j, e].
    + intros [[-> ->]|(j & e & Hbl)]; [by exists i, k|]. exists j, e. apply Hset. right. split; [|done].
      destruct (Nat.eq_dec j i) as [->|]; [|by left]. right. intros ->. destruct Hbl as (r0 & Hr0 & Hf0 & _).
      rewrite Hi in Hr0. injection Hr0 as <-. congruence.
  - intros x v. by apply (byte_at_set _ _ r).
Qed.

(** [mempool_alloc] hands out a block that is large enough and overlaps
    no block in use, marks exactly that block as in use, and writes no byte of
    the pool. *)
Theorem mempool_alloc_sound (pool pool' : mempool_t) (size a : Z) :
  pool_ok pool → mempool_alloc pool size = Done (a, pool') →
  pool_ok pool' ∧ ∃ n, size ≤ n
    ∧ (∀ b m, live pool b m → a + n ≤ b ∨ b + m ≤ a)
    ∧ (∀ b m, live pool' b m ↔ (b = a ∧ m = n) ∨ live pool b m)
    ∧ (∀ x v, byte_at pool' x v ↔ byte_at pool x v).
Proof. apply mempool_alloc_spec. Qed.

Lemma mempool_free_spec (pool : mempool_t) (a n : Z) :
  pool_ok pool → live pool a n →
  ∃ pool', mempool_free pool (Some a) = Done pool' ∧ pool_ok pool'
    ∧ (∀ b m, live pool' b m ↔ live pool b m ∧ b ≠ a)
    ∧ (∀ x, a ≤ x < a + n → byte_at pool' x 0)
    ∧ (∀ x v, x < a ∨ a + n ≤ x → byte_at pool' x v ↔ byte_at pool x v).
Proof.
  intros Hok (i & k & Hbl). pose proof Hbl as (r & Hi & Hf & Ha & Hn).
  pose proof (proj1 (Forall_lookup _ _) (pool_regions _ Hok) _ _ Hi) as (Hs & Hc & Ht & Hb & Hl).
  pose proof (lookup_lt_Some _ _ _ Hf) as Hk. pose proof (lookup_lt_Some _ _ _ Hi) as Hlt.
  assert (Hoff : 0 ≤ a - base r ∧ a - base r + entry_size r ≤ total_size r)
    by (subst a; rewrite Ht; unfold zlen in Hl; nia).
  assert (Hreg : mempool_region_for_buf pool a = Some i).
  { unfold mempool_region_for_buf. rewrite (first_region_hit _ pool i r 0); [done|done| |].
    - unfold mempool_region_contains_buf, mempool_region_start_addr, mempool_region_end_addr. zdecide. done.
    - intros j rj Hj Hcj. destruct (Nat.eq_dec j i) as [|Hne]; [done|]. exfalso.
      unfold mempool_region_contains_buf, mempool_region_start_addr, mempool_region_end_addr in Hcj. btest.
      destruct (pool_apart _ Hok _ _ _ _ Hj Hi Hne); lia. }
  set (z := replicate (Z.to_nat (entry_size r)) 0).
  assert (Hz : zlen z = entry_size r) by (subst z; rewrite zlen_replicate; lia).
  set (bytes := ztake (a - base r) (buffer r) ++ z ++ zdrop (a - base r + zlen z) (buffer r)).
  set (r' := set_freelist (set_buffer r bytes) (<[k := true]> (freelist r))).
  assert (Hbytes : zlen bytes = total_size r).
  { subst bytes. rewrite !zlen_app, zlen_ztake, zlen_zdrop; lia. }
  exists (<[i := r']> pool). split.
  { unfold mempool_free. rewrite Hreg, (aget_Some pool (Z.of_nat i) r) by (rewrite ?Nat2Z.id; done || lia).
    cbn [obind]. unfold mwrite, mempool_region_start_addr. fold z.
    rewrite (proj2 (Z.leb_le 0 _)), (proj2 (Z.leb_le _ (zlen (buffer r)))) by lia. cbn [andb obind].
    simpl entry_size. zdecide. simpl base. replace ((a - base r) / entry_size r) with (Z.of_nat k)
      by (apply Z.div_unique_exact; lia). simpl count. unfold zlen in Hl. zdecide. cbn [ASSERT obind].
    simpl freelist. rewrite (aget_Some _ _ false) by (rewrite ?Nat2Z.id; done || lia). cbn [obind negb ASSERT].
    rewrite aset_done by (unfold zlen; lia). cbn [obind]. by rewrite Nat2Z.id. }
  assert (Hok' : pool_ok (<[i := r']> pool)).
  { apply (pool_ok_insert _ _ r); [done|done| |done|done]. split_and!; simpl; try done. by rewrite zlen_insert. }
  split; [done|]. split_and!.
  - intros b m.
    pose proof (λ j e, block_set pool i r r' k true j e b m Hi Hk eq_refl eq_refl eq_refl) as Hset. split.
    + intros (j & e & Hj). apply Hset in Hj as [(_ & _ & ? & _)|[Hne Hj]]; [done|].
      split; [by exists j, e|]. destruct (block_disjoint _ _ _ _ _ _ _ _ _ Hok Hj Hbl Hne); [|lia].
      destruct Hj as (rj & Hrj & _ & _ & ->).
      pose proof (proj1 (Forall_lookup _ _) (pool_regions _ Hok) _ _ Hrj) as (? & _). lia.
    + intros [(j & e & Hj) Hne]. exists j, e. apply Hset. right. split; [|done].
      destruct (Nat.eq_dec j i) as [->|]; [|by left]. right. intros ->. destruct Hj as (r0 & Hr0 & _ & -> & _).
      rewrite Hi in Hr0. injection Hr0 as <-. done.
  - intros x Hx. exists i, r'. rewrite list_lookup_insert_eq by done. split_and!; [done|simpl; lia|].
    simpl. subst bytes. unfold ztake, zlen in *. rewrite lookup_app_r by (rewrite length_take; lia).
    rewrite lookup_app_l by (rewrite length_take; lia). apply lookup_replicate. rewrite length_take. split; [done|lia].
  - intros x v Hx. assert (Hsame : base r ≤ x → bytes !! Z.to_nat (x - base r) = buffer r !! Z.to_nat (x - base r)).
    { intros Hge. subst bytes. unfold ztake, zdrop, zlen in *. destruct Hx as [Hx|Hx].
      - rewrite lookup_app_l by (rewrite length_take; lia). apply lookup_take_lt. lia.
      - rewrite lookup_app_r by (rewrite length_take; lia). rewrite lookup_app_r by (rewrite length_take; lia).
        rewrite lookup_drop, length_take. f_equal. lia. }
    split; intros (j & rj & Hj & Hge & Hv).
    + destruct (Nat.eq_dec j i) as [->|]; [|rewrite list_lookup_insert_ne in Hj by done; by exists j, rj].
      rewrite list_lookup_insert_eq in Hj by done. injection Hj as <-. simpl in Hge, Hv.
      exists i, r. by rewrite <- Hsame.
    + destruct (Nat.eq_dec j i) as [->|]; [|exists j, rj; by rewrite list_lookup_insert_ne by done].
      rewrite Hi in Hj. injection Hj as <-. exists i, r'. rewrite list_lookup_insert_eq by done. simpl.
      by rewrite Hsame.
Qed.

(** [mempool_free] of a block in use succeeds, takes exactly that block
    out of use, zeroes its bytes and leaves all other bytes alone. *)
Theorem mempool_free_sound (pool : mempool_t) (a n : Z) :
  pool_ok pool → live pool a n →
  ∃ pool', mempool_free pool (Some a) = Done pool' ∧ pool_ok pool'
    ∧ (∀ b m, live pool' b m ↔ live pool b m ∧ b ≠ a)
    ∧ (∀ x, a ≤ x < a + n → byte_at pool' x 0)
    ∧ (∀ x v, x < a ∨ a + n ≤ x → byte_at pool' x v ↔ byte_at pool x v).
Proof. apply mempool_free_spec. Qed.

(** ** A pool *)

Definition demo_pool : mempool_t := mempool_create [(4, 2, 100); (8, 3, 200)].

Definition demo_pool_used : mempool_t :=
  match mempool_alloc demo_pool 6 with Done (_, p) => p | _ => demo_pool end.

Lemma demo_pool_ok : pool_ok demo_pool ∧ pool_ok demo_pool_used.
Proof.
  split; (split;
    [vm_compute; repeat constructor; discriminate
    |intros [|[|i]] [|[|j]] r1 r2; try done; intros [= <-] [= <-] _; [left|right]; simpl; lia]).
Qed.

Lemma mempool_alloc_sound_witness :
  ∃ pool', mempool_alloc demo_pool 6 = Done (200, pool')
    ∧ ∃ n, 6 ≤ n ∧ ∀ b m, live pool' b m ↔ (b = 200 ∧ m = n) ∨ live demo_pool b m.
Proof.
  exists demo_pool_used. split; [reflexivity|].
  destruct (mempool_alloc_sound demo_pool demo_pool_used 6 200) as (_ & n & Hn & _ & Hl & _).
  - exact (proj1 demo_pool_ok).
  - reflexivity.
  - exists n. split; [exact Hn|exact Hl].
Defined.

Lemma mempool_free_sound_witness :
  ∃ pool', mempool_free demo_pool_used (Some 200) = Done pool' ∧ byte_at pool' 205 0.
Proof.
  destruct (mempool_free_sound demo_pool_used 200 8) as (pool' & E & _ & _ & Hz & _).
  - exact (proj2 demo_pool_ok).
  - exists 1%nat, 0%nat. eexists. split; [reflexivity|]. split; [reflexivity|]. split; reflexivity.
  - exists pool'. split; [exact E|]. apply Hz. lia.
Defined.
