(* ===== verification/Timer.v ===== *)
(** * One-shot software timers (lib/rtos/src/rtos_timer.c)

    The timers are FreeRTOS software timers. FreeRTOS is not part of the
    repository, so the kernel calls are the class [SwTimer], and the class
    [SwTimerLaws] states what their documentation promises. The clients
    (power timer, session timer, unlock delay) are verified against the laws;
    [count_timer] is an instance that witnesses them. *)

From S2P Require Import Prelude.

(** The kernel interface. Time is in ticks of one millisecond
    ([configTICK_RATE_HZ] is 1000 in every configuration). [timer_left] is
    [xTimerGetExpiryTime - xTaskGetTickCount]; [timer_pass] lets time pass and
    tells whether the timer callback became due. A kernel call that returns
    [pdFAIL] is [None]. *)
Class SwTimer (T : Type) := {
  xTimerCreateStatic : T;
  xTimerIsTimerActive : T → bool;
  xTimerChangePeriod : T → Z → option T;
  xTimerStop : T → T;
  xTimerReset : T → option T;
  timer_left : T → Z;
  timer_pass : T → Z → T * bool;
}.

Class SwTimerLaws (T : Type) `{SwTimer T} := {
  law_create : xTimerIsTimerActive xTimerCreateStatic = false;
  law_stop t : xTimerIsTimerActive (xTimerStop t) = false;
  law_start t d t' : 0 < d → xTimerChangePeriod t d = Some t' →
    xTimerIsTimerActive t' = true ∧ timer_left t' = d;
  law_left t : xTimerIsTimerActive t = true → 0 < timer_left t;
  law_pass_idle t n : xTimerIsTimerActive t = false →
    xTimerIsTimerActive (timer_pass t n).1 = false ∧ (timer_pass t n).2 = false;
  law_pass_early t n : xTimerIsTimerActive t = true → 0 ≤ n < timer_left t →
    xTimerIsTimerActive (timer_pass t n).1 = true ∧ (timer_pass t n).2 = false
    ∧ timer_left (timer_pass t n).1 = timer_left t - n;
  law_pass_due t n : xTimerIsTimerActive t = true → timer_left t ≤ n →
    xTimerIsTimerActive (timer_pass t n).1 = false ∧ (timer_pass t n).2 = true;
}.

Section RtosTimer.
Context {T : Type} `{SwTimer T}.

(** [rtos_timer_t]; [tm_handle] is NULL until the timer is created. *)
Record rtos_timer_t := mk_timer {
  tm_handle : option T;
  tm_active : bool;
}.

(** [ASSERT(timer && timer->handle)]. *)
Definition timer_handle (timer : rtos_timer_t) : outcome T :=
  match tm_handle timer with Some h => Done h | None => Abort end.

Definition rtos_timer_create_static : rtos_timer_t := mk_timer (Some xTimerCreateStatic) false.

Definition rtos_timer_expired (timer : rtos_timer_t) : outcome bool :=
  let! h := timer_handle timer in Done (negb (xTimerIsTimerActive h)).

Definition rtos_timer_start (timer : rtos_timer_t) (duration_ms : Z) : outcome rtos_timer_t :=
  let! h := timer_handle timer in
  match xTimerChangePeriod h duration_ms with
  | Some h => Done (mk_timer (Some h) true)
  | None => Abort
  end.

Definition rtos_timer_stop (timer : rtos_timer_t) : outcome rtos_timer_t :=
  let! h := timer_handle timer in Done (mk_timer (Some (xTimerStop h)) false).

Definition rtos_timer_restart (timer : rtos_timer_t) : outcome rtos_timer_t :=
  let! h := timer_handle timer in
  match xTimerReset h with
  | Some h => Done (mk_timer (Some h) (tm_active timer))
  | None => Abort
  end.

Definition rtos_timer_remaining_ms (timer : rtos_timer_t) : outcome Z :=
  let! h := timer_handle timer in
  if tm_active timer then Done (u32 (timer_left h)) else Done 0.

(** ** What the clients see *)

(** The timer exists and is counting down [d] milliseconds. *)
Definition armed (timer : rtos_timer_t) (d : Z) : Prop :=
  ∃ h, tm_handle timer = Some h ∧ xTimerIsTimerActive h = true ∧ timer_left h = d.

(** The timer exists and is not counting. *)
Definition idle (timer : rtos_timer_t) : Prop :=
  ∃ h, tm_handle timer = Some h ∧ xTimerIsTimerActive h = false.

(** Time passes for a timer; a timer that does not exist stays so. *)
Definition pass (timer : rtos_timer_t) (n : Z) : rtos_timer_t * bool :=
  match tm_handle timer with
  | Some h => (mk_timer (Some (timer_pass h n).1) (tm_active timer), (timer_pass h n).2)
  | None => (timer, false)
  end.

Context `{!SwTimerLaws T}.

Lemma armed_not_idle timer d : armed timer d → idle timer → False.
Proof. intros (h & E & ? & _) (h' & E' & ?). congruence. Qed.

Lemma armed_left timer d : armed timer d → 0 < d.
Proof. intros (h & _ & Ha & <-). by apply law_left. Qed.

Lemma created_idle : idle rtos_timer_create_static.
Proof. eexists. split; [done|]. apply law_create. Qed.

Lemma stop_idle timer timer' : rtos_timer_stop timer = Done timer' → idle timer'.
Proof.
  unfold rtos_timer_stop, timer_handle. destruct (tm_handle timer); [|done].
  intros [= <-]. eexists. split; [done|]. apply law_stop.
Qed.

Lemma stop_total timer : is_Some (tm_handle timer) → ∃ timer', rtos_timer_stop timer = Done timer'.
Proof. intros [h Hh]. unfold rtos_timer_stop, timer_handle. rewrite Hh. simpl. eauto. Qed.

Lemma start_armed timer d timer' : 0 < d →
  rtos_timer_start timer d = Done timer' → armed timer' d ∧ tm_active timer' = true.
Proof.
  intros Hd. unfold rtos_timer_start, timer_handle. destruct (tm_handle timer); [|done]. simpl.
  destruct (xTimerChangePeriod t d) eqn:E; [|done]. intros [= <-].
  split; [|done]. eexists. split; [done|]. by apply law_start in E.
Qed.

Lemma expired_idle timer : idle timer → rtos_timer_expired timer = Done true.
Proof. intros (h & E & Ha). unfold rtos_timer_expired, timer_handle. by rewrite E; simpl; rewrite Ha. Qed.

Lemma expired_armed timer d : armed timer d → rtos_timer_expired timer = Done false.
Proof. intros (h & E & Ha & _). unfold rtos_timer_expired, timer_handle. by rewrite E; simpl; rewrite Ha. Qed.

Lemma remaining_armed timer d : armed timer d → tm_active timer = true → d < 4294967296 →
  rtos_timer_remaining_ms timer = Done d.
Proof.
  intros (h & E & Ha & Hl) Hact Hd. unfold rtos_timer_remaining_ms, timer_handle.
  rewrite E, Hact. simpl. rewrite Hl, u32_small; [done|]. pose proof (law_left h Ha). lia.
Qed.

Lemma pass_idle timer n : idle timer →
  idle (pass timer n).1 ∧ (pass timer n).2 = false ∧ tm_active (pass timer n).1 = tm_active timer.
Proof.
  intros (h & E & Ha). unfold pass. rewrite E. simpl.
  destruct (law_pass_idle h n Ha). split_and!; [by eexists|done|done].
Qed.

Lemma pass_early timer d n : armed timer d → 0 ≤ n < d →
  armed (pass timer n).1 (d - n) ∧ (pass timer n).2 = false
  ∧ tm_active (pass timer n).1 = tm_active timer.
Proof.
  intros (h & E & Ha & Hl) Hn. unfold pass. rewrite E. simpl.
  destruct (law_pass_early h n Ha) as (? & ? & ?); [lia|].
  split_and!; [|done|done]. eexists. split_and!; [done|done|lia].
Qed.

Lemma pass_due timer d n : armed timer d → d ≤ n →
  idle (pass timer n).1 ∧ (pass timer n).2 = true.
Proof.
  intros (h & E & Ha & Hl) Hn. unfold pass. rewrite E. simpl.
  destruct (law_pass_due h n Ha) as (? & ?); [lia|]. split; [by eexists|done].
Qed.
End RtosTimer.
Arguments rtos_timer_t : clear implicits.

#[export] Hint Resolve created_idle stop_idle : fw.

(** ** An instance: a countdown *)

(** The period and, while active, the ticks left. *)
Record count_timer := mk_count { ct_period : Z; ct_left : option Z }.

#[global] Instance count_timer_ops : SwTimer count_timer := {
  xTimerCreateStatic := mk_count 1 None;
  xTimerIsTimerActive t := match ct_left t with Some d => 0 <? d | None => false end;
  xTimerChangePeriod _ d := Some (mk_count d (Some d));
  xTimerStop t := mk_count (ct_period t) None;
  xTimerReset t := Some (mk_count (ct_period t) (Some (ct_period t)));
  timer_left t := default 0 (ct_left t);
  timer_pass t n :=
    match ct_left t with
    | Some d => if 0 <? d then
                  if n <? d then (mk_count (ct_period t) (Some (d - n)), false)
                  else (mk_count (ct_period t) None, true)
                else (t, false)
    | None => (t, false)
    end;
}.

#[global] Instance count_timer_laws : SwTimerLaws count_timer.
Proof.
  split; simpl; try done.
  - intros t d t' Hd [= <-]. simpl. split; [by apply Z.ltb_lt|done].
  - intros [p [d|]]; simpl; [|done]. intros. by btest.
  - intros [p [d|]] n; simpl; [|done]. intros E. by rewrite E.
  - intros [p [d|]] n; simpl; [|done]. intros E ?. rewrite E. btest. zdecide. simpl.
    split_and!; [apply Z.ltb_lt; lia|done|done].
  - intros [p [d|]] n; simpl; [|done]. intros E ?. rewrite E. btest. zdecide. done.
Qed.
