(* ===== verification/Sleep.v ===== *)
(** * The power timer (lib/sleep)

    The device powers off when the power timer expires. [sleep_ctx] and every
    operation on it, from lib/sleep/sleep.c; each operation runs under
    [sleep_ctx.lock]. *)

From S2P Require Import Prelude Timer.

Definition POWER_TIMEOUT_MS : Z := 60000.
Definition SLEEP_INHIBIT_INFINITE : Z := UINT32_MAX.

Section Sleep.
Context {T : Type} `{SwTimer T}.

Record sleep_ctx_t := mk_sleep {
  power_timer : rtos_timer_t T;
  timer_running : bool;
  inhibit_duration_ms : Z;
  charger_extra_ms : Z;
  shutting_down : bool;
}.

Definition sleep_boot : sleep_ctx_t := mk_sleep (mk_timer None false) false 0 0 false.

Definition get_timeout_ms (s : sleep_ctx_t) : Z :=
  if inhibit_duration_ms s =? SLEEP_INHIBIT_INFINITE then SLEEP_INHIBIT_INFINITE
  else u32 (POWER_TIMEOUT_MS + inhibit_duration_ms s + charger_extra_ms s).

Definition set_power_timer (s : sleep_ctx_t) (t : rtos_timer_t T) : sleep_ctx_t :=
  mk_sleep t (timer_running s) (inhibit_duration_ms s) (charger_extra_ms s) (shutting_down s).

(** The stop/start pair that every path to the timer ends in. *)
Definition rearm (s : sleep_ctx_t) (timeout_ms : Z) : outcome sleep_ctx_t :=
  let! t := rtos_timer_stop (power_timer s) in
  let! t := rtos_timer_start t timeout_ms in
  Done (set_power_timer s t).

Definition sleep_init (s : sleep_ctx_t) : sleep_ctx_t :=
  set_power_timer s rtos_timer_create_static.

Definition sleep_start_power_timer (s : sleep_ctx_t) : outcome sleep_ctx_t :=
  if shutting_down s then Done s
  else
    let s := mk_sleep (power_timer s) true (inhibit_duration_ms s) (charger_extra_ms s)
               (shutting_down s) in
    rearm s (get_timeout_ms s).

Definition sleep_stop_power_timer (s : sleep_ctx_t) : outcome sleep_ctx_t :=
  let! t := rtos_timer_stop (power_timer s) in
  Done (mk_sleep t false 0 (charger_extra_ms s) (shutting_down s)).

Definition sleep_refresh_power_timer (s : sleep_ctx_t) : outcome sleep_ctx_t :=
  if timer_running s && negb (shutting_down s) then rearm s (get_timeout_ms s) else Done s.

Definition sleep_inhibit (s : sleep_ctx_t) (additional_ms : Z) : outcome sleep_ctx_t :=
  if shutting_down s then Done s
  else
    let s := mk_sleep (power_timer s) (timer_running s) additional_ms (charger_extra_ms s)
               (shutting_down s) in
    if timer_running s then rearm s (get_timeout_ms s) else Done s.

Definition sleep_clear_inhibit (s : sleep_ctx_t) : outcome sleep_ctx_t :=
  if shutting_down s then Done s
  else
    let s := mk_sleep (power_timer s) (timer_running s) 0 (charger_extra_ms s)
               (shutting_down s) in
    if timer_running s then rearm s (get_timeout_ms s) else Done s.

Definition sleep_set_charger_extension (s : sleep_ctx_t) (extra_ms : Z) : outcome sleep_ctx_t :=
  if shutting_down s then Done s
  else
    let s := mk_sleep (power_timer s) (timer_running s) (inhibit_duration_ms s) extra_ms
               (shutting_down s) in
    if timer_running s then rearm s (get_timeout_ms s) else Done s.

Definition sleep_get_configured_timeout (s : sleep_ctx_t) : Z := get_timeout_ms s.

Definition sleep_start_power_timer_with_timeout (s : sleep_ctx_t) (timeout_ms : Z)
    : outcome sleep_ctx_t :=
  if shutting_down s then Done s
  else
    let s := mk_sleep (power_timer s) true 0 (charger_extra_ms s) (shutting_down s) in
    rearm s timeout_ms.

(** Returns whether this call was the first to begin the shutdown. *)
Definition sleep_begin_shutdown (s : sleep_ctx_t) : outcome (bool * sleep_ctx_t) :=
  let! t := rtos_timer_stop (power_timer s) in
  Done (negb (shutting_down s),
        mk_sleep t false (inhibit_duration_ms s) (charger_extra_ms s) true).

Definition sleep_is_shutting_down (s : sleep_ctx_t) : bool := shutting_down s.

Definition sleep_cancel_shutdown (s : sleep_ctx_t) : sleep_ctx_t :=
  mk_sleep (power_timer s) (timer_running s) (inhibit_duration_ms s) (charger_extra_ms s) false.

(** ** Calls as data *)

Inductive sleep_op :=
| SlStart | SlStop | SlRefresh | SlInhibit (ms : Z) | SlClearInhibit | SlCharger (ms : Z)
| SlStartWith (ms : Z) | SlBegin | SlCancel
| SlPass (ms : Z).  (* time passes *)

Definition sleep_step (s : sleep_ctx_t) (op : sleep_op) : outcome sleep_ctx_t :=
  match op with
  | SlStart => sleep_start_power_timer s
  | SlStop => sleep_stop_power_timer s
  | SlRefresh => sleep_refresh_power_timer s
  | SlInhibit ms => sleep_inhibit s ms
  | SlClearInhibit => sleep_clear_inhibit s
  | SlCharger ms => sleep_set_charger_extension s ms
  | SlStartWith ms => sleep_start_power_timer_with_timeout s ms
  | SlBegin => let! '(_, s) := sleep_begin_shutdown s in Done s
  | SlCancel => Done (sleep_cancel_shutdown s)
  | SlPass ms => Done (set_power_timer s (pass (power_timer s) ms).1)
  end.

Fixpoint sleep_run (s : sleep_ctx_t) (ops : list sleep_op) : outcome sleep_ctx_t :=
  match ops with
  | [] => Done s
  | op :: ops => let! s := sleep_step s op in sleep_run s ops
  end.

(** ** The shutdown latch *)

Context `{!SwTimerLaws T}.

(** While the device is shutting down the power timer is off. *)
Definition latch_inv (s : sleep_ctx_t) : Prop :=
  shutting_down s = true → timer_running s = false ∧ idle (power_timer s).

Lemma rearm_keeps s ms s' : rearm s ms = Done s' → shutting_down s' = shutting_down s.
Proof.
  unfold rearm. intros (t & _ & E)%obind_inv. apply obind_inv in E as (t' & _ & [= <-]). done.
Qed.

Lemma rearm_latch s ms s' : shutting_down s = false → rearm s ms = Done s' → latch_inv s'.
Proof. intros Hs Hr Hd. apply rearm_keeps in Hr. congruence. Qed.

Lemma sleep_step_latch s op s' : latch_inv s → sleep_step s op = Done s' → latch_inv s'.
Proof.
  intros Hinv. destruct op; simpl; unfold sleep_start_power_timer, sleep_refresh_power_timer,
    sleep_inhibit, sleep_clear_inhibit, sleep_set_charger_extension,
    sleep_start_power_timer_with_timeout.
  - destruct (shutting_down s) eqn:E; [by intros [= <-]|]. by apply rearm_latch.
  - intros (t & Et & [= <-])%obind_inv _. split; [done|]. by eapply stop_idle.
  - destruct (timer_running s); simpl; [|by intros [= <-]].
    destruct (shutting_down s) eqn:E; simpl; [by intros [= <-]|]. by apply rearm_latch.
  - destruct (shutting_down s) eqn:E; [by intros [= <-]|].
    case_match; [by apply rearm_latch|]. by intros [= <-].
  - destruct (shutting_down s) eqn:E; [by intros [= <-]|].
    case_match; [by apply rearm_latch|]. by intros [= <-].
  - destruct (shutting_down s) eqn:E; [by intros [= <-]|].
    case_match; [by apply rearm_latch|]. by intros [= <-].
  - destruct (shutting_down s) eqn:E; [by intros [= <-]|]. by apply rearm_latch.
  - unfold sleep_begin_shutdown. intros ([b s1] & (t & Et & [= _ <-])%obind_inv & [= <-])%obind_inv _.
    split; [done|]. by eapply stop_idle.
  - by intros [= <-].
  - intros [= <-] Hd. simpl in *. destruct (Hinv Hd) as [? Hidle].
    split; [done|]. by apply pass_idle.
Qed.

Lemma sleep_run_latch ops : ∀ s s', latch_inv s → sleep_run s ops = Done s' → latch_inv s'.
Proof.
  induction ops as [|op ops IH]; intros s s' Hinv; simpl; [by intros [= <-]|].
  intros (s1 & H1 & H2)%obind_inv. eapply IH; [|done]. by eapply sleep_step_latch.
Qed.

(** Once begun, a shutdown stays begun until it is cancelled. *)
Lemma sleep_run_shutting ops : ∀ s s', shutting_down s = true → SlCancel ∉ ops →
  sleep_run s ops = Done s' → shutting_down s' = true.
Proof.
  induction ops as [|op ops IH]; intros s s' Hs Hn; simpl; [by intros [= <-]|].
  apply not_elem_of_cons in Hn as [Hne Hn]. intros (s1 & H1 & H2)%obind_inv.
  apply (IH s1 s'); [|done|done]. destruct op; simpl in H1;
    unfold sleep_start_power_timer, sleep_refresh_power_timer, sleep_inhibit, sleep_clear_inhibit,
      sleep_set_charger_extension, sleep_start_power_timer_with_timeout, sleep_stop_power_timer,
      sleep_begin_shutdown in H1; rewrite ?Hs, ?andb_false_r in H1; try congruence; try done.
  - by apply obind_inv in H1 as (t & _ & [= <-]).
  - apply obind_inv in H1 as ([? ?] & H1 & [= <-]). by apply obind_inv in H1 as (t & _ & [= _ <-]).
  - injection H1 as <-. done.
Qed.

(** After [sleep_begin_shutdown] no sequence of calls short of
    [sleep_cancel_shutdown] arms the power timer again: the timer stays idle,
    so it cannot fire in the middle of the shutdown sequence. *)
Theorem shutdown_latches_timer (s s1 s2 : sleep_ctx_t) (first : bool) (ops : list sleep_op) :
  sleep_begin_shutdown s = Done (first, s1) → SlCancel ∉ ops → sleep_run s1 ops = Done s2 →
  shutting_down s2 = true ∧ timer_running s2 = false ∧ idle (power_timer s2).
Proof.
  unfold sleep_begin_shutdown. intros (t & Et & [= _ <-])%obind_inv Hn Hr.
  assert (shutting_down s2 = true) as Hs by (eapply sleep_run_shutting; [|done|done]; done).
  split; [done|]. eapply sleep_run_latch; [|exact Hr|exact Hs].
  intros _. simpl. split; [done|]. by eapply stop_idle.
Qed.
End Sleep.
Arguments sleep_ctx_t : clear implicits.

Lemma shutdown_latches_timer_witness :
  ∃ s1 s2, sleep_begin_shutdown (sleep_init (T := count_timer) sleep_boot) = Done (true, s1)
    ∧ sleep_run s1 [SlStart; SlInhibit 5; SlRefresh; SlCharger 7; SlStartWith 1; SlPass 9] = Done s2
    ∧ shutting_down s2 = true ∧ timer_running s2 = false ∧ idle (power_timer s2).
Proof.
  eexists _, _. split; [reflexivity|]. split; [reflexivity|].
  eapply (shutdown_latches_timer (sleep_init sleep_boot) _ _ true
            [SlStart; SlInhibit 5; SlRefresh; SlCharger 7; SlStartWith 1; SlPass 9]).
  - reflexivity.
  - rewrite !not_elem_of_cons. split_and!; try done. apply not_elem_of_nil.
  - reflexivity.
Defined.
