(* ===== verification/Auth.v ===== *)
(** * The authenticated session (lib/auth)

    The session state of lib/auth/src/auth.c together with the power timer it
    drives. The fields are guarded by [auth.lock]; the production build is
    modelled ([AUTOMATED_TESTING] off). [callbacks.on_lock] belongs to the
    auth task; the model records its calls. *)

From S2P Require Import Prelude Timer Sleep.

Inductive auth_unlock_method_t :=
| AUTH_METHOD_UNSPECIFIED
| AUTH_METHOD_BIOMETRICS
| AUTH_METHOD_UNLOCK_SECRET.

Definition AUTH_INVALID_FINGERPRINT_INDEX : Z := 0xFF.

Section Auth.
Context {T : Type} `{SwTimer T}.

(** [auth_ctx_t], the power timer, and the arguments of the [on_lock] calls
    made so far, the latest first. *)
Record auth_ctx_t := mk_auth {
  authenticated : secure_bool_t;
  allow_fingerprint_enrollment : secure_bool_t;
  auth_method : auth_unlock_method_t;
  fingerprint_index : Z;
  auth_timer : rtos_timer_t T;
  on_lock : bool;  (* whether the callback is registered *)
  expiry_ms : Z;
  locked_events : list bool;
  auth_sleep : sleep_ctx_t T;
}.

(** The static initialiser. *)
Definition auth_boot (sl : sleep_ctx_t T) : auth_ctx_t :=
  mk_auth SECURE_FALSE SECURE_FALSE AUTH_METHOD_UNSPECIFIED AUTH_INVALID_FINGERPRINT_INDEX
    (mk_timer None false) false 0 [] sl.

Definition auth_init (a : auth_ctx_t) (config_expiry_ms : Z) (callback : bool) : auth_ctx_t :=
  mk_auth (authenticated a) (allow_fingerprint_enrollment a) (auth_method a) (fingerprint_index a)
    rtos_timer_create_static callback config_expiry_ms (locked_events a) (auth_sleep a).

(** [SECURE_DO_FAILOUT(c, { result = SECURE_TRUE; })] on a value that no fault
    disturbs. *)
Definition is_authenticated (a : auth_ctx_t) : secure_bool_t :=
  if authenticated a =? SECURE_TRUE then SECURE_TRUE else SECURE_FALSE.

Definition is_allowing_fingerprint_enrollment (a : auth_ctx_t) : secure_bool_t :=
  if allow_fingerprint_enrollment a =? SECURE_TRUE then SECURE_TRUE else SECURE_FALSE.

Definition set_auth_timer (a : auth_ctx_t) (t : rtos_timer_t T) : auth_ctx_t :=
  mk_auth (authenticated a) (allow_fingerprint_enrollment a) (auth_method a) (fingerprint_index a)
    t (on_lock a) (expiry_ms a) (locked_events a) (auth_sleep a).

Definition do_authenticate (a : auth_ctx_t) (method : auth_unlock_method_t) (index : Z)
    : outcome auth_ctx_t :=
  let! t := rtos_timer_stop (auth_timer a) in
  let! t := rtos_timer_start t (expiry_ms a) in
  let! sl := sleep_stop_power_timer (auth_sleep a) in
  Done (mk_auth SECURE_TRUE (allow_fingerprint_enrollment a) method index
          t (on_lock a) (expiry_ms a) (locked_events a) sl).

Definition auth_authenticate_biometrics (a : auth_ctx_t) (index : Z) : outcome auth_ctx_t :=
  do_authenticate a AUTH_METHOD_BIOMETRICS index.

Definition auth_authenticate_unlock_secret (a : auth_ctx_t) : outcome auth_ctx_t :=
  do_authenticate a AUTH_METHOD_UNLOCK_SECRET AUTH_INVALID_FINGERPRINT_INDEX.

Definition do_deauthenticate (a : auth_ctx_t) (show_animation : bool) : outcome auth_ctx_t :=
  let was_authenticated := authenticated a in
  let! t := rtos_timer_stop (auth_timer a) in
  let! sl := sleep_start_power_timer (auth_sleep a) in
  let events :=
    if on_lock a
    then (show_animation && (was_authenticated =? SECURE_TRUE)) :: locked_events a
    else locked_events a in
  Done (mk_auth SECURE_FALSE SECURE_FALSE AUTH_METHOD_UNSPECIFIED AUTH_INVALID_FINGERPRINT_INDEX
          t (on_lock a) (expiry_ms a) events sl).

Definition deauthenticate (a : auth_ctx_t) : outcome auth_ctx_t := do_deauthenticate a true.

Definition deauthenticate_without_animation (a : auth_ctx_t) : outcome auth_ctx_t :=
  do_deauthenticate a false.

(** [SECURE_DO] runs its statement three times. *)
Definition auth_timer_callback (a : auth_ctx_t) : outcome auth_ctx_t :=
  let! a := deauthenticate a in
  let! a := deauthenticate a in
  deauthenticate a.

Definition refresh_auth (a : auth_ctx_t) : outcome (secure_bool_t * auth_ctx_t) :=
  if is_authenticated a =? SECURE_TRUE then
    let! t := rtos_timer_stop (auth_timer a) in
    let! t := rtos_timer_start t (expiry_ms a) in
    Done (SECURE_TRUE, set_auth_timer a t)
  else Done (SECURE_FALSE, a).

Definition present_grant_for_fingerprint_enrollment (a : auth_ctx_t) : auth_ctx_t :=
  mk_auth (authenticated a) SECURE_TRUE (auth_method a) (fingerprint_index a)
    (auth_timer a) (on_lock a) (expiry_ms a) (locked_events a) (auth_sleep a).

Definition auth_get_unlock_method (a : auth_ctx_t) : auth_unlock_method_t := auth_method a.
Definition auth_get_fingerprint_index (a : auth_ctx_t) : Z := fingerprint_index a.

(** ** Events *)

Inductive auth_ev :=
| EvBiometrics (index : Z)
| EvUnlockSecret
| EvDeauth (show_animation : bool)
| EvRefresh
| EvGrant
| EvPass (ms : Z).  (* time passes; the session timer may fire *)

Definition auth_pass (a : auth_ctx_t) (ms : Z) : outcome auth_ctx_t :=
  let '(t, fired) := pass (auth_timer a) ms in
  let a := set_auth_timer a t in
  if fired : bool then auth_timer_callback a else Done a.

Definition auth_step (a : auth_ctx_t) (ev : auth_ev) : outcome auth_ctx_t :=
  match ev with
  | EvBiometrics i => auth_authenticate_biometrics a i
  | EvUnlockSecret => auth_authenticate_unlock_secret a
  | EvDeauth b => do_deauthenticate a b
  | EvRefresh => let! '(_, a) := refresh_auth a in Done a
  | EvGrant => Done (present_grant_for_fingerprint_enrollment a)
  | EvPass ms => auth_pass a ms
  end.

Fixpoint auth_run (a : auth_ctx_t) (evs : list auth_ev) : outcome auth_ctx_t :=
  match evs with
  | [] => Done a
  | ev :: evs => let! a := auth_step a ev in auth_run a evs
  end.

(** The time since the last event that could start or extend a session,
    given the time [since] before the events. *)
Fixpoint idle_time (since : Z) (evs : list auth_ev) : Z :=
  match evs with
  | [] => since
  | (EvBiometrics _ | EvUnlockSecret | EvRefresh) :: evs => idle_time 0 evs
  | EvPass ms :: evs => idle_time (since + ms) evs
  | _ :: evs => idle_time since evs
  end.

(** ** The session ends *)

Context `{!SwTimerLaws T}.

(** While the session is open its timer is armed with what is left of the
    expiry time; a locked device keeps nothing of the session. *)
Record session_inv (since : Z) (a : auth_ctx_t) : Prop := {
  inv_values : authenticated a = SECURE_TRUE ∨ authenticated a = SECURE_FALSE;
  inv_open : authenticated a = SECURE_TRUE →
    ∃ d, armed (auth_timer a) d ∧ d + since ≤ expiry_ms a;
  inv_locked : authenticated a = SECURE_FALSE →
    idle (auth_timer a) ∧ auth_method a = AUTH_METHOD_UNSPECIFIED
    ∧ fingerprint_index a = AUTH_INVALID_FINGERPRINT_INDEX;
}.

Lemma do_authenticate_inv a m i a' : 0 < expiry_ms a →
  do_authenticate a m i = Done a' → session_inv 0 a' ∧ expiry_ms a' = expiry_ms a.
Proof.
  intros He. unfold do_authenticate. intros (t & _ & E)%obind_inv.
  apply obind_inv in E as (t' & Et & E). apply obind_inv in E as (sl & _ & [= <-]).
  apply start_armed in Et as [? _]; [|done]. split; [|done].
  split; simpl; [by left| |done]. intros _. exists (expiry_ms a). split; [done|lia].
Qed.

Lemma do_deauthenticate_inv a b a' since :
  do_deauthenticate a b = Done a' → session_inv since a' ∧ expiry_ms a' = expiry_ms a.
Proof.
  unfold do_deauthenticate. intros (t & Et & E)%obind_inv.
  apply obind_inv in E as (sl & _ & [= <-]). apply stop_idle in Et.
  split; [|done]. split; simpl; [by right|done|done].
Qed.

Lemma auth_timer_callback_inv a a' since :
  auth_timer_callback a = Done a' → session_inv since a' ∧ expiry_ms a' = expiry_ms a.
Proof.
  unfold auth_timer_callback, deauthenticate.
  intros (a1 & E1 & E)%obind_inv. apply obind_inv in E as (a2 & E2 & E3).
  apply (do_deauthenticate_inv _ _ _ since) in E1 as [_ <-].
  apply (do_deauthenticate_inv _ _ _ since) in E2 as [_ <-].
  by eapply do_deauthenticate_inv.
Qed.

Lemma secure_bool_differ : SECURE_TRUE ≠ SECURE_FALSE.
Proof. done. Qed.

Lemma auth_step_inv since a ev a' : 0 < expiry_ms a → 0 ≤ since →
  (∀ ms, ev = EvPass ms → 0 ≤ ms) → session_inv since a → auth_step a ev = Done a' →
  session_inv (idle_time since [ev]) a' ∧ expiry_ms a' = expiry_ms a.
Proof.
  intros He Hs Hms Hinv. destruct ev as [i| |b| | |ms]; simpl.
  - by apply do_authenticate_inv.
  - by apply do_authenticate_inv.
  - by apply do_deauthenticate_inv.
  - intros ([r a1] & E & [= <-])%obind_inv. unfold refresh_auth in E. case_match.
    + apply obind_inv in E as (t & _ & E). apply obind_inv in E as (t' & Et & [= _ <-]).
      apply start_armed in Et as [? _]; [|done]. split; [|done].
      unfold is_authenticated in *. repeat case_match; btest; try done.
      split; simpl; [by left| |intros E; by rewrite E in *].
      intros _. exists (expiry_ms a). split; [done|lia].
    + injection E as _ <-. split; [|done]. destruct Hinv as [Hv Ho Hl].
      unfold is_authenticated in *. split; [done| |done]. intros E. rewrite E in *. done.
  - intros [= <-]. split; [|done]. destruct Hinv. by split.
  - specialize (Hms ms eq_refl). unfold auth_pass. destruct (pass (auth_timer a) ms) as [t fired] eqn:Ep.
    destruct Hinv as [Hv Ho Hl]. destruct Hv as [Hv|Hv].
    + destruct (Ho Hv) as (d & Ha & Hd). destruct (Z.lt_ge_cases ms d).
      * destruct (pass_early (auth_timer a) d ms Ha) as (Ha' & Hf & _); [lia|].
        rewrite Ep in Ha', Hf. simpl in Ha', Hf. subst fired. intros [= <-]. split; [|done].
        split; simpl; [by left| |by rewrite Hv]. intros _. exists (d - ms). split; [done|lia].
      * destruct (pass_due (auth_timer a) d ms Ha) as (Ha' & Hf); [lia|].
        rewrite Ep in Ha', Hf. simpl in Ha', Hf. subst fired. intros E.
        by apply (auth_timer_callback_inv _ _ (since + ms)) in E.
    + destruct (Hl Hv) as (Hi & Hm & Hx). destruct (pass_idle (auth_timer a) ms Hi) as (Hi' & Hf & _).
      rewrite Ep in Hi', Hf. simpl in Hi', Hf. subst fired. intros [= <-]. split; [|done].
      split; simpl; [by right|by rewrite Hv|done].
Qed.

Definition ev_ok (ev : auth_ev) : Prop := match ev with EvPass ms => 0 ≤ ms | _ => True end.

Lemma auth_run_inv evs : ∀ since a a', 0 < expiry_ms a → 0 ≤ since → Forall ev_ok evs →
  session_inv since a → auth_run a evs = Done a' → session_inv (idle_time since evs) a'
  ∧ expiry_ms a' = expiry_ms a.
Proof.
  induction evs as [|ev evs IH]; intros since a a' He Hs Hok Hinv; simpl; [by intros [= <-]|].
  apply Forall_cons in Hok as [Hev Hok]. intros (a1 & E1 & E2)%obind_inv.
  destruct (auth_step_inv since a ev a1) as [Hinv1 He1]; try done.
  { intros ms ->. done. }
  rewrite <- He1 in He |- *.
  destruct ev; simpl in *; (eapply IH; [done| |done|done|done]); lia.
Qed.

(** C40: whatever happens between [auth_init] and now - matches, unlock
    secrets, refreshes, grants, locking, the passage of time - an open session
    was started or refreshed less than [expiry_ms] ago; and a locked device
    has forgotten the unlock method and the finger that matched. *)
Theorem session_expires (sl : sleep_ctx_t T) (expiry : Z) (callback : bool)
    (evs : list auth_ev) (a : auth_ctx_t) :
  0 < expiry → Forall ev_ok evs →
  auth_run (auth_init (auth_boot sl) expiry callback) evs = Done a →
  (is_authenticated a = SECURE_TRUE → idle_time 0 evs < expiry)
  ∧ (is_authenticated a = SECURE_FALSE →
       auth_get_unlock_method a = AUTH_METHOD_UNSPECIFIED
       ∧ auth_get_fingerprint_index a = AUTH_INVALID_FINGERPRINT_INDEX).
Proof.
  intros He Hok Hrun.
  destruct (auth_run_inv evs 0 (auth_init (auth_boot sl) expiry callback) a) as [[Hv Ho Hl] Hx];
    try done.
  { split; simpl; [by right|done|]. intros _. split; [|done]. apply created_idle. }
  unfold is_authenticated. split; intros E; case_match; btest; try done.
  - destruct Ho as (d & Ha & Hd); [done|]. apply armed_left in Ha. rewrite Hx in Hd. simpl in Hd. lia.
  - destruct Hv as [Hv|Hv]; [done|]. by apply Hl in Hv as (_ & ? & ?).
Qed.

Lemma do_deauthenticate_revokes (a a' : auth_ctx_t) (show_animation : bool) :
  do_deauthenticate a show_animation = Done a' → allow_fingerprint_enrollment a' = SECURE_FALSE.
Proof.
  unfold do_deauthenticate. intros (t & Et & E)%obind_inv.
  by apply obind_inv in E as (sl & _ & [= <-]).
Qed.

Lemma auth_step_enrollment a ev a' : auth_step a ev = Done a' →
  allow_fingerprint_enrollment a' = SECURE_TRUE →
  ev = EvGrant ∨ allow_fingerprint_enrollment a = SECURE_TRUE ∧ ∀ b, ev ≠ EvDeauth b.
Proof.
  destruct ev as [i| |b| | |ms]; simpl.
  1, 2: intros (t & _ & E)%obind_inv; apply obind_inv in E as (t' & Et & E);
    apply obind_inv in E as (sl & _ & [= <-]); by right.
  - intros E%do_deauthenticate_revokes. rewrite E. done.
  - unfold refresh_auth. intros ([r a1] & E & [= <-])%obind_inv. case_match.
    + apply obind_inv in E as (t & _ & E). apply obind_inv in E as (t' & Et & [= _ <-]). by right.
    + injection E as _ <-. by right.
  - by left.
  - unfold auth_pass. destruct (pass _ _) as [t [|]].
    + unfold auth_timer_callback. intros (a1 & _ & E)%obind_inv. apply obind_inv in E as (a2 & _ & E).
      apply do_deauthenticate_revokes in E. rewrite E. done.
    + intros [= <-]. by right.
Qed.

Lemma auth_run_enrollment evs : ∀ a a', auth_run a evs = Done a' →
  allow_fingerprint_enrollment a' = SECURE_TRUE →
  (∃ pre post, evs = pre ++ EvGrant :: post ∧ ∀ b, EvDeauth b ∉ post)
  ∨ allow_fingerprint_enrollment a = SECURE_TRUE ∧ ∀ b, EvDeauth b ∉ evs.
Proof.
  induction evs as [|ev evs IH]; intros a a'; simpl.
  - intros [= <-] ?. right. split; [done|]. intros b. apply not_elem_of_nil.
  - intros (a1 & E1 & E2)%obind_inv Ha'.
    destruct (IH a1 a' E2 Ha') as [(pre & post & -> & Hn)|[Ha1 Hn]].
    { left. exists (ev :: pre), post. done. }
    destruct (auth_step_enrollment a ev a1 E1 Ha1) as [->|[Ha Hev]].
    + left. exists [], evs. done.
    + right. split; [done|]. intros b. apply not_elem_of_cons. split; [congruence|done].
Qed.

(** Fingerprint enrolment is allowed only when a grant was presented
    after the last time the device was locked. *)
Theorem enrollment_needs_grant (sl : sleep_ctx_t T) (expiry : Z) (callback : bool)
    (evs : list auth_ev) (a : auth_ctx_t) :
  auth_run (auth_init (auth_boot sl) expiry callback) evs = Done a →
  is_allowing_fingerprint_enrollment a = SECURE_TRUE →
  ∃ pre post, evs = pre ++ EvGrant :: post ∧ ∀ b, EvDeauth b ∉ post.
Proof.
  intros Hrun Ha. unfold is_allowing_fingerprint_enrollment in Ha. case_match; btest; [|done].
  destruct (auth_run_enrollment evs _ a Hrun) as [?|[? _]]; done.
Qed.
End Auth.
Arguments auth_ctx_t : clear implicits.

Lemma session_expires_witness :
  ∃ a, auth_run (T := count_timer) (auth_init (auth_boot (sleep_init sleep_boot)) 1000 true)
         [EvBiometrics 1; EvPass 400; EvRefresh; EvPass 999] = Done a
    ∧ is_authenticated a = SECURE_TRUE
    ∧ (is_authenticated a = SECURE_TRUE →
         idle_time 0 [EvBiometrics 1; EvPass 400; EvRefresh; EvPass 999] < 1000).
Proof.
  eexists. split; [reflexivity|]. split; [reflexivity|].
  eapply (session_expires (T := count_timer) (sleep_init sleep_boot) 1000 true
            [EvBiometrics 1; EvPass 400; EvRefresh; EvPass 999]).
  - lia.
  - repeat constructor; simpl; lia.
  - reflexivity.
Defined.

Lemma enrollment_needs_grant_witness :
  ∃ a, auth_run (T := count_timer) (auth_init (auth_boot (sleep_init sleep_boot)) 1000 true)
         [EvDeauth true; EvGrant; EvPass 5] = Done a
    ∧ ∃ pre post, [EvDeauth true; EvGrant; EvPass 5] = pre ++ EvGrant :: post
        ∧ ∀ b, EvDeauth b ∉ post.
Proof.
  eexists. split; [reflexivity|].
  eapply (enrollment_needs_grant (T := count_timer) (sleep_init sleep_boot) 1000 true).
  - reflexivity.
  - reflexivity.
Defined.
