(* ===== verification/IndexFs.v ===== *)
(** * The monotonic counter in flash (lib/indexfs)

    indexfs.c and indexfs_monotonic.c: an append-only log of 32-bit entries
    in a flash page. The latest entry carries the count and a 4-bit flag.

    The flash driver (mcu/*/mcu_flash.c) is register access; it is the class
    [Flash], and [FlashLaws] states what a NOR flash does: programming can only
    clear bits, an erased page reads as ones, and a rejected write changes
    nothing. [mem_flash] is an instance that witnesses the laws. *)

From S2P Require Import Prelude.

Definition MCU_FLASH_PAGE_SIZE : Z := 0x2000.
Definition ERASED : Z := 0xFFFFFFFF.

(** Addresses are byte addresses; a write takes the words to program. The
    boolean tells whether the driver returned [MCU_FLASH_STATUS_OK]. *)
Class Flash (F : Type) := {
  flash_word : F → Z → Z;
  mcu_flash_write_word : F → Z → list Z → bool * F;
  mcu_flash_erase_page : F → Z → bool * F;
}.

Class FlashLaws (F : Type) `{Flash F} := {
  law_word fl a : 0 ≤ flash_word fl a ≤ ERASED;
  law_write fl a ws fl' i w : mcu_flash_write_word fl a ws = (true, fl') →
    ws !! i = Some w →
    flash_word fl' (a + 4 * Z.of_nat i) = Z.land (flash_word fl (a + 4 * Z.of_nat i)) w;
  law_write_frame fl a ws r b : mcu_flash_write_word fl a ws = r →
    b + 4 ≤ a ∨ a + 4 * zlen ws ≤ b → flash_word r.2 b = flash_word fl b;
  law_write_rejected fl a ws fl' b : mcu_flash_write_word fl a ws = (false, fl') →
    flash_word fl' b = flash_word fl b;
  law_erase fl a fl' i : mcu_flash_erase_page fl a = (true, fl') →
    0 ≤ i < MCU_FLASH_PAGE_SIZE / 4 → flash_word fl' (a + 4 * i) = ERASED;
}.

Inductive indexfs_type_t := INDEXFS_TYPE_MONOTONIC | INDEXFS_TYPE_MAX.

Record indexfs_t := mk_indexfs {
  fs_type : indexfs_type_t;
  fs_address : Z;
  fs_size : Z;
}.

(** ** Entries *)

Definition INDEXFS_MONOTONIC_ENTRY_MAGIC : Z := 0x5A.
Definition CLEAR_TRUE : Z := 0x0.
Definition CLEAR_FALSE : Z := 0xF.
Definition FLAGS_EMPTY : Z := 0xF.
Definition INDEXFS_MONOTONIC_MAGIC : list Z := [0x49584653; 0x4d4f4e4f; 0x56455231].
Definition magic_offset : Z := 3.

(** [indexfs_monotonic_entry_t]: the packed struct as the 32-bit word it
    occupies. *)
Definition entry_magic (w : Z) : Z := Z.land w 0xFF.
Definition entry_count (w : Z) : Z := Z.land (Z.shiftr w 8) 0xFFFF.
Definition entry_clear (w : Z) : Z := Z.land (Z.shiftr w 24) 0xF.
Definition entry_flags (w : Z) : Z := Z.land (Z.shiftr w 28) 0xF.

Definition indexfs_monotonic_entry_t (magic count clear flags : Z) : Z :=
  Z.lor magic (Z.lor (Z.shiftl count 8) (Z.lor (Z.shiftl clear 24) (Z.shiftl flags 28))).

Lemma entry_value magic count clear flags :
  0 ≤ magic < 256 → 0 ≤ count < 65536 → 0 ≤ clear < 16 → 0 ≤ flags < 16 →
  indexfs_monotonic_entry_t magic count clear flags
  = magic + 256 * (count + 65536 * (clear + 16 * flags)).
Proof.
  intros. unfold indexfs_monotonic_entry_t.
  replace (Z.shiftl flags 28) with (Z.shiftl (Z.shiftl (Z.shiftl flags 4) 16) 8)
    by (rewrite !Z.shiftl_shiftl by lia; done).
  replace (Z.shiftl clear 24) with (Z.shiftl (Z.shiftl clear 16) 8)
    by (rewrite !Z.shiftl_shiftl by lia; done).
  rewrite <- !Z.shiftl_lor, (lor_shiftl_add clear flags 4) by lia.
  rewrite (lor_shiftl_add count _ 16), (lor_shiftl_add magic _ 8) by lia. lia.
Qed.

(** The fields of an entry read back as they were written. *)
Lemma entry_fields magic count clear flags w :
  0 ≤ magic < 256 → 0 ≤ count < 65536 → 0 ≤ clear < 16 → 0 ≤ flags < 16 →
  w = indexfs_monotonic_entry_t magic count clear flags →
  0 ≤ w ≤ ERASED ∧ entry_magic w = magic ∧ entry_count w = count ∧ entry_clear w = clear
  ∧ entry_flags w = flags.
Proof.
  intros ? ? ? ? ->. rewrite entry_value by done. unfold ERASED. split; [lia|].
  unfold entry_magic, entry_count, entry_clear, entry_flags.
  change 0xFF with (Z.ones 8). change 0xFFFF with (Z.ones 16). change 0xF with (Z.ones 4).
  rewrite !Z.land_ones, !Z.shiftr_div_pow2 by lia.
  change (2 ^ 4) with 16. change (2 ^ 8) with 256. change (2 ^ 16) with 65536.
  change (2 ^ 24) with (256 * 65536). change (2 ^ 28) with (256 * 65536 * 16).
  set (hi := clear + 16 * flags). set (mid := count + 65536 * hi).
  assert (E8 : (magic + 256 * mid) / 256 = mid) by (symmetry; apply (Z.div_unique _ _ _ magic); lia).
  assert (E24 : (magic + 256 * mid) / (256 * 65536) = hi).
  { rewrite <- Z.div_div, E8 by lia.
    symmetry. apply (Z.div_unique _ _ _ count); lia. }
  assert (E28 : (magic + 256 * mid) / (256 * 65536 * 16) = flags).
  { rewrite <- Z.div_div, E24 by lia.
    symmetry. apply (Z.div_unique _ _ _ clear); lia. }
  rewrite E8, E24, E28. split_and!; symmetry.
  - apply (Z.mod_unique _ _ mid); lia.
  - apply (Z.mod_unique _ _ hi); lia.
  - apply (Z.mod_unique _ _ flags); lia.
  - rewrite Z.mod_small; lia.
Qed.

#[local] Opaque indexfs_monotonic_entry_t.

Lemma land_erased w : 0 ≤ w ≤ ERASED → Z.land ERASED w = w.
Proof.
  intros. rewrite Z.land_comm. change ERASED with (Z.ones 32). rewrite Z.land_ones by lia.
  apply Z.mod_small. change (2 ^ 32) with (ERASED + 1). lia.
Qed.

Section IndexFs.
Context {F : Type} `{Flash F}.

Definition is_monotonic (fs : indexfs_t) : bool :=
  match fs_type fs with INDEXFS_TYPE_MONOTONIC => true | INDEXFS_TYPE_MAX => false end.

(** [fs->address + i] for the [uint32_t* address]. *)
Definition word_addr (fs : indexfs_t) (i : Z) : Z := fs_address fs + 4 * i.

Definition magic_exists (fl : F) (address : Z) : bool :=
  (flash_word fl address =? 0x49584653) && (flash_word fl (address + 4) =? 0x4d4f4e4f).

Definition write_magic (fl : F) (address : Z) : bool * F :=
  mcu_flash_write_word fl address INDEXFS_MONOTONIC_MAGIC.

Definition indexfs_monotonic_init (fs : indexfs_t) (fl : F) : outcome (bool * F) :=
  let! _ := ASSERT (is_monotonic fs) in
  if magic_exists fl (fs_address fs) then Done (true, fl)
  else Done (write_magic fl (fs_address fs)).

Definition indexfs_monotonic_valid (fs : indexfs_t) (fl : F) : outcome bool :=
  let! _ := ASSERT (is_monotonic fs) in
  Done (magic_exists fl (fs_address fs)).

(** One turn of the loop of [indexfs_monotonic_count] on an entry. *)
Definition count_entry (count w : Z) : Z :=
  if entry_clear w =? CLEAR_FALSE then entry_count w
  else if entry_clear w =? CLEAR_TRUE then 0
  else count.

Fixpoint count_loop (fs : indexfs_t) (fl : F) (n : nat) (i count : Z) : Z :=
  match n with
  | O => count
  | S n =>
      let w := flash_word fl (word_addr fs i) in
      if entry_magic w =? INDEXFS_MONOTONIC_ENTRY_MAGIC
      then count_loop fs fl n (i + 1) (count_entry count w)
      else count
  end.

Definition indexfs_monotonic_count (fs : indexfs_t) (fl : F) : outcome Z :=
  let! _ := ASSERT (is_monotonic fs) in
  Done (count_loop fs fl (Z.to_nat (fs_size fs - magic_offset)) magic_offset 0).

Fixpoint index_loop (fs : indexfs_t) (fl : F) (n : nat) (i : Z) : Z :=
  match n with
  | O => 0
  | S n =>
      let w := flash_word fl (word_addr fs i) in
      if entry_magic w =? INDEXFS_MONOTONIC_ENTRY_MAGIC
      then index_loop fs fl n (i + 1)
      else i - magic_offset
  end.

Definition current_index (fs : indexfs_t) (fl : F) : outcome Z :=
  let! _ := ASSERT (is_monotonic fs) in
  Done (index_loop fs fl (Z.to_nat (fs_size fs - magic_offset)) magic_offset).

Definition indexfs_monotonic_increment (fs : indexfs_t) (fl : F) : outcome (bool * F) :=
  let! _ := ASSERT (is_monotonic fs) in
  let! count := indexfs_monotonic_count fs fl in
  if UINT16_MAX <? count + 1 then Done (false, fl)
  else
    let! index := current_index fs fl in
    let write_pointer := magic_offset + index in
    let entry := indexfs_monotonic_entry_t INDEXFS_MONOTONIC_ENTRY_MAGIC (count + 1)
                   CLEAR_FALSE FLAGS_EMPTY in
    Done (mcu_flash_write_word fl (word_addr fs write_pointer) [entry]).

Definition indexfs_monotonic_clear (fs : indexfs_t) (fl : F) : outcome (bool * F) :=
  let! _ := ASSERT (is_monotonic fs) in
  let! count := indexfs_monotonic_count fs fl in
  if count =? 0 then Done (false, fl)
  else
    let! index := current_index fs fl in
    let write_pointer := magic_offset + index in
    let entry := flash_word fl (word_addr fs write_pointer) in
    let new_entry := indexfs_monotonic_entry_t INDEXFS_MONOTONIC_ENTRY_MAGIC count
                       CLEAR_TRUE (entry_flags entry) in
    Done (mcu_flash_write_word fl (word_addr fs write_pointer) [new_entry]).

Definition indexfs_monotonic_get_flag (fs : indexfs_t) (fl : F) : outcome Z :=
  let! _ := ASSERT (is_monotonic fs) in
  let! index := current_index fs fl in
  if index <? 1 then Done 0
  else
    let write_pointer := magic_offset + index - 1 in
    Done (entry_flags (flash_word fl (word_addr fs write_pointer))).

Definition indexfs_monotonic_set_flag (fs : indexfs_t) (fl : F) (flag : Z)
    : outcome (bool * F) :=
  let! _ := ASSERT (is_monotonic fs) in
  if 0x0f <? flag then Done (false, fl)
  else
    let! count := indexfs_monotonic_count fs fl in
    if count =? 0 then Done (false, fl)
    else
      let! index := current_index fs fl in
      let write_pointer := magic_offset + index in
      let entry := flash_word fl (word_addr fs write_pointer) in
      let new_entry := indexfs_monotonic_entry_t INDEXFS_MONOTONIC_ENTRY_MAGIC count
                         (entry_clear entry) (Z.land flag 0x0f) in
      Done (mcu_flash_write_word fl (word_addr fs write_pointer) [new_entry]).

(** ** indexfs.c *)

(** Where the running image and the bootloader live: linker symbols read
    through [fwup_current_slot_address], [fwup_slot_size], [fwup_bl_address]
    and [fwup_bl_size]. *)
Record flash_layout := mk_layout {
  fwup_current_slot_address : Z;
  fwup_slot_size : Z;
  fwup_bl_address : Z;
  fwup_bl_size : Z;
}.

Definition addr_in_range (addr range_start range_size : Z) : bool :=
  (range_start <=? addr) && (addr - range_start <? range_size).

Fixpoint erase_loop (fl : F) (addr : Z) (pages : nat) (page : Z) : bool * F :=
  match pages with
  | O => (true, fl)
  | S pages =>
      match mcu_flash_erase_page fl (addr + page * MCU_FLASH_PAGE_SIZE) with
      | (true, fl) => erase_loop fl addr pages (page + 1)
      | (false, fl) => (false, fl)
      end
  end.

Definition erase_flash (lay : flash_layout) (fl : F) (addr size : Z) : bool * F :=
  if negb (addr mod MCU_FLASH_PAGE_SIZE =? 0) then (false, fl)
  else if negb (size mod MCU_FLASH_PAGE_SIZE =? 0) then (false, fl)
  else if addr_in_range addr (fwup_current_slot_address lay) (fwup_slot_size lay) then (false, fl)
  else if addr_in_range addr (fwup_bl_address lay) (fwup_bl_size lay) then (false, fl)
  else erase_loop fl addr (Z.to_nat (size / MCU_FLASH_PAGE_SIZE)) 0.

(** The result tells whether a non-NULL pointer is returned. *)
Definition indexfs_create_static (lay : flash_layout) (fs : indexfs_t) (fl : F)
    : outcome (bool * F) :=
  match fs_type fs with
  | INDEXFS_TYPE_MONOTONIC =>
      let! valid := indexfs_monotonic_valid fs fl in
      let '(erased, fl) :=
        if valid then (true, fl) else erase_flash lay fl (fs_address fs) (fs_size fs) in
      if erased then indexfs_monotonic_init fs fl else Done (false, fl)
  | INDEXFS_TYPE_MAX => Done (false, fl)
  end.

(** The macro of indexfs.h: fills the static descriptor, creates the log and
    returns the address of the descriptor, whatever the creation returned. *)
Definition indexfs_create (lay : flash_layout) (type : indexfs_type_t) (address size : Z) (fl : F)
    : outcome (indexfs_t * F) :=
  let fs := mk_indexfs type address size in
  let! '(_, fl) := indexfs_create_static lay fs fl in
  Done (fs, fl).

Definition indexfs_count (fs : indexfs_t) (fl : F) : outcome Z :=
  if is_monotonic fs then indexfs_monotonic_count fs fl else Done 0.

Definition indexfs_increment (fs : indexfs_t) (fl : F) : outcome (bool * F) :=
  if is_monotonic fs then indexfs_monotonic_increment fs fl else Done (false, fl).

Definition indexfs_clear (fs : indexfs_t) (fl : F) : outcome (bool * F) :=
  if is_monotonic fs then indexfs_monotonic_clear fs fl else Done (false, fl).

(** [None] when nothing is stored through [flag]. *)
Definition indexfs_get_flag (fs : indexfs_t) (fl : F) : outcome (option Z) :=
  if is_monotonic fs then
    let! flag := indexfs_monotonic_get_flag fs fl in Done (Some flag)
  else Done None.

Definition indexfs_set_flag (fs : indexfs_t) (fl : F) (flag : Z) : outcome (bool * F) :=
  if is_monotonic fs then indexfs_monotonic_set_flag fs fl flag else Done (false, fl).

(** ** The log *)

Context `{!FlashLaws F}.

Definition entry_ok (w : Z) : Prop :=
  0 ≤ w ≤ ERASED ∧ entry_magic w = INDEXFS_MONOTONIC_ENTRY_MAGIC ∧ 0 ≤ entry_count w ≤ UINT16_MAX.

(** The count and the flag that a log stands for. *)
Definition log_count (es : list Z) : Z := foldl count_entry 0 es.
Definition log_flag (es : list Z) : Z := match last es with Some w => entry_flags w | None => 0 end.

(** The flash holds the header, the entries [es] and then [free] erased
    words, all within the bound of the loops. *)
Record log_at (fs : indexfs_t) (fl : F) (es : list Z) (free : nat) : Prop := {
  log_type : fs_type fs = INDEXFS_TYPE_MONOTONIC;
  log_magic : magic_exists fl (fs_address fs) = true;
  log_entries : Forall entry_ok es;
  log_bound : magic_offset + zlen es + Z.of_nat free ≤ fs_size fs;
  log_words k w : (es ++ replicate free ERASED) !! k = Some w →
    flash_word fl (word_addr fs (magic_offset + Z.of_nat k)) = w;
}.

Lemma entry_count_range w : 0 ≤ entry_count w ≤ UINT16_MAX.
Proof.
  unfold entry_count. change 0xFFFF with (Z.ones 16). rewrite Z.land_ones by lia.
  unfold UINT16_MAX. pose proof (Z.mod_pos_bound (Z.shiftr w 8) (2 ^ 16)). lia.
Qed.

Lemma log_count_snoc es w : log_count (es ++ [w]) = count_entry (log_count es) w.
Proof. unfold log_count. by rewrite foldl_app. Qed.

Lemma log_flag_snoc es w : log_flag (es ++ [w]) = entry_flags w.
Proof. unfold log_flag. by rewrite last_snoc. Qed.

Lemma log_count_range es : 0 ≤ log_count es ≤ UINT16_MAX.
Proof.
  induction es as [|w es IH] using rev_ind; [done|]. rewrite log_count_snoc.
  unfold count_entry. pose proof (entry_count_range w). repeat case_match; lia.
Qed.

Lemma erased_not_entry : (entry_magic ERASED =? INDEXFS_MONOTONIC_ENTRY_MAGIC) = false.
Proof. reflexivity. Qed.

(** The loops see the entries of a log and stop at the first erased word. *)
Lemma count_loop_log fs fl es : ∀ n i c,
  Forall entry_ok es → (length es < n)%nat →
  (∀ k w, (es ++ [ERASED]) !! k = Some w → flash_word fl (word_addr fs (i + Z.of_nat k)) = w) →
  count_loop fs fl n i c = foldl count_entry c es.
Proof.
  induction es as [|w es IH]; intros [|n] i c Hok Hn Hw; simpl in Hn; try lia; simpl.
  - pose proof (Hw 0%nat ERASED eq_refl) as Hw0. rewrite Z.add_0_r in Hw0. by rewrite Hw0.
  - pose proof (Hw 0%nat w eq_refl) as Hw0. rewrite Z.add_0_r in Hw0. rewrite Hw0.
    apply Forall_cons in Hok as [(_ & -> & _) Hok]. simpl.
    apply IH; [done|lia|]. intros k w' Hk. rewrite <- (Hw (S k) w' Hk). f_equal. f_equal. lia.
Qed.

Lemma index_loop_log fs fl es : ∀ n i,
  Forall entry_ok es → (length es < n)%nat →
  (∀ k w, (es ++ [ERASED]) !! k = Some w → flash_word fl (word_addr fs (i + Z.of_nat k)) = w) →
  index_loop fs fl n i = i + zlen es - magic_offset.
Proof.
  induction es as [|w es IH]; intros [|n] i Hok Hn Hw; simpl in Hn; try lia; simpl.
  - pose proof (Hw 0%nat ERASED eq_refl) as Hw0. rewrite Z.add_0_r in Hw0. rewrite Hw0.
    rewrite erased_not_entry, zlen_nil. lia.
  - pose proof (Hw 0%nat w eq_refl) as Hw0. rewrite Z.add_0_r in Hw0. rewrite Hw0.
    apply Forall_cons in Hok as [(_ & -> & _) Hok]. simpl. rewrite IH; [|done|lia|].
    + rewrite zlen_cons. lia.
    + intros k w' Hk. rewrite <- (Hw (S k) w' Hk). f_equal. f_equal. lia.
Qed.

Lemma log_at_next fs fl es free : log_at fs fl es (S free) →
  ∀ k w, (es ++ [ERASED]) !! k = Some w →
    flash_word fl (word_addr fs (magic_offset + Z.of_nat k)) = w.
Proof.
  intros Hl k w Hk. apply (log_words _ _ _ _ Hl). simpl. rewrite cons_middle, app_assoc.
  apply lookup_app_l_Some. done.
Qed.

Lemma log_at_loop fs fl es free : log_at fs fl es (S free) →
  (length es < Z.to_nat (fs_size fs - magic_offset))%nat.
Proof. intros Hl. pose proof (log_bound _ _ _ _ Hl). unfold zlen in *. lia. Qed.

Lemma log_is_monotonic fs fl es free : log_at fs fl es free → is_monotonic fs = true.
Proof. intros Hl. unfold is_monotonic. by rewrite (log_type _ _ _ _ Hl). Qed.

Lemma count_of_log fs fl es free : log_at fs fl es (S free) →
  indexfs_monotonic_count fs fl = Done (log_count es).
Proof.
  intros Hl. unfold indexfs_monotonic_count. rewrite (log_is_monotonic _ _ _ _ Hl). simpl.
  rewrite (count_loop_log fs fl es); [done|apply Hl|by eapply log_at_loop|by eapply log_at_next].
Qed.

Lemma index_of_log fs fl es free : log_at fs fl es (S free) →
  current_index fs fl = Done (zlen es).
Proof.
  intros Hl. unfold current_index. rewrite (log_is_monotonic _ _ _ _ Hl). simpl.
  rewrite (index_loop_log fs fl es); [f_equal; lia|apply Hl|by eapply log_at_loop|by eapply log_at_next].
Qed.

(** The word that the next entry goes to is erased. *)
Lemma log_at_slot fs fl es free : log_at fs fl es (S free) →
  flash_word fl (word_addr fs (magic_offset + zlen es)) = ERASED.
Proof.
  intros Hl. apply (log_words _ _ _ _ Hl). rewrite lookup_app_r by lia.
  by rewrite Nat.sub_diag.
Qed.

(** Appending an entry either succeeds or leaves the log as it is. *)
Lemma log_append fs fl es free w ok fl' : log_at fs fl es (S free) → entry_ok w →
  mcu_flash_write_word fl (word_addr fs (magic_offset + zlen es)) [w] = (ok, fl') →
  log_at fs fl' (if ok then es ++ [w] else es) (if ok then free else S free).
Proof.
  intros Hl Hw Hwr. destruct ok; destruct Hl as [Ht Hm He Hb Hws].
  - assert (Hframe : ∀ b, b + 4 ≤ word_addr fs (magic_offset + zlen es)
        ∨ word_addr fs (magic_offset + zlen es) + 4 ≤ b → flash_word fl' b = flash_word fl b).
    { intros b Hb'. apply (law_write_frame _ _ _ _ b Hwr). rewrite zlen_cons, zlen_nil. lia. }
    split; [done| | |zl|].
    + unfold magic_exists in *. pose proof (zlen_nonneg es).
      rewrite !Hframe; [done|unfold word_addr, magic_offset; lia..].
    + apply Forall_app. by split; [|constructor].
    + intros k w' Hk. rewrite <- app_assoc in Hk. simpl in Hk.
      destruct (Nat.eq_dec k (length es)) as [->|Hne].
      * rewrite lookup_app_r, Nat.sub_diag in Hk by lia. injection Hk as <-.
        pose proof (law_write _ _ _ _ 0 w Hwr eq_refl) as Hl. rewrite !Z.add_0_r in Hl.
        unfold zlen in Hl. rewrite Hl.
        rewrite (Hws (length es) ERASED); [apply land_erased, Hw|].
        rewrite lookup_app_r, Nat.sub_diag by lia. done.
      * rewrite Hframe; [|unfold word_addr, zlen; lia]. apply Hws.
        destruct (Nat.lt_ge_cases k (length es)).
        { by rewrite lookup_app_l in Hk |- * by lia. }
        rewrite lookup_app_r in Hk |- * by lia.
        destruct (k - length es)%nat eqn:?; [lia|]. done.
  - pose proof (λ b, law_write_rejected _ _ _ _ b Hwr) as Hsame.
    split; [done| |done|done|].
    + unfold magic_exists in *. by rewrite !Hsame.
    + intros k w' Hk. rewrite Hsame. by apply Hws.
Qed.

(** ** What the clients see: a counter with a flag *)

(** The log stands for the count [c] and the flag [f], and takes [free] more
    entries. *)
Definition counter_at (fs : indexfs_t) (fl : F) (c f : Z) (free : nat) : Prop :=
  ∃ es, log_at fs fl es free ∧ log_count es = c ∧ log_flag es = f.

Lemma counter_range fs fl c f free : counter_at fs fl c f free → 0 ≤ c ≤ UINT16_MAX.
Proof. intros (es & _ & <- & _). apply log_count_range. Qed.

(** The state after an append that the flash accepted or not. *)
Lemma counter_append fs fl es free count clear flags ok fl' :
  log_at fs fl es (S free) → 0 ≤ count < 65536 → 0 ≤ flags < 16 →
  clear = CLEAR_FALSE ∨ clear = CLEAR_TRUE →
  mcu_flash_write_word fl (word_addr fs (magic_offset + zlen es))
    [indexfs_monotonic_entry_t INDEXFS_MONOTONIC_ENTRY_MAGIC count clear flags] = (ok, fl') →
  counter_at fs fl' (if ok then if clear =? CLEAR_FALSE then count else 0 else log_count es)
    (if ok then flags else log_flag es) (if ok then free else S free).
Proof.
  intros Hl Hc Hf Hcl Hwr.
  assert (Hclr : 0 ≤ clear < 16) by (destruct Hcl as [-> | ->]; done).
  destruct (entry_fields INDEXFS_MONOTONIC_ENTRY_MAGIC count clear flags _ ltac:(done) Hc Hclr Hf eq_refl)
    as (Hr & Em & Ec & Ecl & Ef).
  eapply log_append in Hwr; [|done|unfold entry_ok, UINT16_MAX; rewrite Em, Ec; split_and!; [lia..|done|lia|lia]].
  exists (if ok then es ++ [indexfs_monotonic_entry_t INDEXFS_MONOTONIC_ENTRY_MAGIC count clear flags] else es).
  split; [done|]. destruct ok; [|done]. rewrite log_count_snoc, log_flag_snoc.
  split; [|done]. unfold count_entry. rewrite Ecl, Ec. by destruct Hcl as [-> | ->].
Qed.

Lemma indexfs_count_spec fs fl c f free : counter_at fs fl c f (S free) →
  indexfs_count fs fl = Done c.
Proof.
  intros (es & Hl & <- & _). unfold indexfs_count. rewrite (log_is_monotonic _ _ _ _ Hl).
  by eapply count_of_log.
Qed.

Lemma indexfs_get_flag_spec fs fl c f free : counter_at fs fl c f (S free) →
  indexfs_get_flag fs fl = Done (Some f).
Proof.
  intros (es & Hl & _ & <-). unfold indexfs_get_flag, indexfs_monotonic_get_flag.
  rewrite (log_is_monotonic _ _ _ _ Hl). simpl. rewrite (index_of_log _ _ _ _ Hl). simpl.
  unfold log_flag. destruct (last es) as [w|] eqn:E.
  - apply last_Some in E as [es' ->]. rewrite (proj2 (Z.ltb_ge _ _)) by zl.
    rewrite zlen_app, zlen_cons, zlen_nil. replace (_ - 1) with (magic_offset + zlen es') by lia.
    unfold zlen. rewrite (log_words _ _ _ _ Hl (length es') w); [done|].
    rewrite <- app_assoc, lookup_app_r, Nat.sub_diag by lia. done.
  - apply last_None in E as ->. done.
Qed.

(** The driver refuses to program some word. *)
Definition flash_can_refuse : Prop := ∃ (fl : F) a w, (mcu_flash_write_word fl a [w]).1 = false.

Lemma write_refused (fl : F) a w ok fl' : mcu_flash_write_word fl a [w] = (ok, fl') → ok = false → flash_can_refuse.
Proof. intros E ->. exists fl, a, w. by rewrite E. Qed.

Lemma indexfs_increment_spec fs fl c f free : counter_at fs fl c f (S free) →
  ∃ ok fl', indexfs_increment fs fl = Done (ok, fl')
    ∧ counter_at fs fl' (if ok then c + 1 else c) (if ok then FLAGS_EMPTY else f)
        (if ok then free else S free)
    ∧ if ok then c < UINT16_MAX else c = UINT16_MAX ∨ flash_can_refuse.
Proof.
  intros Hc. pose proof (counter_range _ _ _ _ _ Hc) as Hr. destruct Hc as (es & Hl & <- & <-).
  unfold indexfs_increment, indexfs_monotonic_increment. rewrite (log_is_monotonic _ _ _ _ Hl). simpl.
  rewrite (count_of_log _ _ _ _ Hl). simpl. case_match; btest.
  - exists false, fl. split_and!; [done|by exists es|left; lia].
  - rewrite (index_of_log _ _ _ _ Hl). simpl.
    destruct (mcu_flash_write_word _ _ _) as [ok fl'] eqn:E. exists ok, fl'.
    split_and!; [done| |destruct ok; [lia|right; by eapply write_refused]]. unfold UINT16_MAX in *.
    eapply counter_append in E; [by destruct ok|done|lia|done|by left].
Qed.

Lemma indexfs_clear_spec fs fl c f free : counter_at fs fl c f (S free) →
  ∃ ok fl', indexfs_clear fs fl = Done (ok, fl')
    ∧ counter_at fs fl' (if ok then 0 else c) (if ok then FLAGS_EMPTY else f)
        (if ok then free else S free)
    ∧ if ok then 0 < c else c = 0 ∨ flash_can_refuse.
Proof.
  intros Hc. pose proof (counter_range _ _ _ _ _ Hc) as Hr. destruct Hc as (es & Hl & <- & <-).
  unfold indexfs_clear, indexfs_monotonic_clear. rewrite (log_is_monotonic _ _ _ _ Hl). simpl.
  rewrite (count_of_log _ _ _ _ Hl). simpl. case_match; btest.
  - exists false, fl. split_and!; [done|by exists es|by left].
  - rewrite (index_of_log _ _ _ _ Hl). simpl. rewrite (log_at_slot _ _ _ _ Hl).
    destruct (mcu_flash_write_word _ _ _) as [ok fl'] eqn:E. exists ok, fl'.
    split_and!; [done| |destruct ok; [lia|right; by eapply write_refused]]. unfold UINT16_MAX in *.
    eapply counter_append in E; [by destruct ok|done|lia|done|by right].
Qed.

Lemma indexfs_set_flag_spec fs fl c f free v : counter_at fs fl c f (S free) → 0 ≤ v →
  ∃ ok fl', indexfs_set_flag fs fl v = Done (ok, fl')
    ∧ counter_at fs fl' c (if ok then v else f) (if ok then free else S free)
    ∧ if ok then 0 < c ∧ v ≤ 0x0f else c = 0 ∨ 0x0f < v ∨ flash_can_refuse.
Proof.
  intros Hc Hv. pose proof (counter_range _ _ _ _ _ Hc) as Hr. destruct Hc as (es & Hl & <- & <-).
  unfold indexfs_set_flag, indexfs_monotonic_set_flag. rewrite (log_is_monotonic _ _ _ _ Hl). simpl.
  case_match; btest; [exists false, fl; split_and!; [done|by exists es|right; left; lia]|].
  rewrite (count_of_log _ _ _ _ Hl). simpl.
  case_match; btest; [exists false, fl; split_and!; [done|by exists es|by left]|].
  rewrite (index_of_log _ _ _ _ Hl). simpl. rewrite (log_at_slot _ _ _ _ Hl).
  replace (Z.land v 15) with v
    by (change 15 with (Z.ones 4); rewrite Z.land_ones, Z.mod_small by lia; done).
  destruct (mcu_flash_write_word _ _ _) as [ok fl'] eqn:E. exists ok, fl'.
  split_and!; [done| |destruct ok; [lia|right; right; by eapply write_refused]]. unfold UINT16_MAX in *.
  eapply counter_append in E; [by destruct ok|done|lia|lia|by left].
Qed.

(** Creating the log again, at the next boot, keeps it. *)
Lemma indexfs_create_keeps lay fs fl c f free : counter_at fs fl c f free →
  indexfs_create_static lay fs fl = Done (true, fl).
Proof.
  intros (es & [Ht Hm _ _ _] & _). unfold indexfs_create_static, indexfs_monotonic_valid,
    indexfs_monotonic_init, is_monotonic. rewrite Ht. simpl.
  rewrite Hm. simpl. by rewrite Hm.
Qed.

(** A page without the header is erased and becomes the empty log. *)
Lemma indexfs_create_fresh lay fl address fl' :
  magic_exists fl address = false →
  indexfs_create_static lay (mk_indexfs INDEXFS_TYPE_MONOTONIC address MCU_FLASH_PAGE_SIZE) fl
    = Done (true, fl') →
  counter_at (mk_indexfs INDEXFS_TYPE_MONOTONIC address MCU_FLASH_PAGE_SIZE) fl' 0 0 2045.
Proof.
  intros Hm. unfold indexfs_create_static, indexfs_monotonic_valid. simpl. rewrite Hm. simpl.
  unfold erase_flash. destruct (negb (address mod _ =? 0)); [done|].
  change (negb (MCU_FLASH_PAGE_SIZE mod MCU_FLASH_PAGE_SIZE =? 0)) with false.
  destruct (addr_in_range address _ _); [done|]. destruct (addr_in_range address _ _); [done|].
  change (Z.to_nat (MCU_FLASH_PAGE_SIZE / MCU_FLASH_PAGE_SIZE)) with 1%nat. cbn [erase_loop].
  rewrite Z.mul_0_l, Z.add_0_r. destruct (mcu_flash_erase_page fl address) as [[|] fl1] eqn:Ee; [|done].
  unfold indexfs_monotonic_init. simpl.
  assert (Her : ∀ i, 0 ≤ i < 2048 → flash_word fl1 (address + 4 * i) = ERASED).
  { intros i Hi. by apply (law_erase _ _ _ _ Ee). }
  assert (Hm1 : magic_exists fl1 address = false).
  { unfold magic_exists. rewrite <- (Z.add_0_r address) at 1.
    change 0 with (4 * 0) at 1. by rewrite Her. }
  rewrite Hm1. intros [= E]. unfold write_magic in E.
  assert (Hf : ∀ k w, INDEXFS_MONOTONIC_MAGIC !! k = Some w →
      flash_word fl' (address + 4 * Z.of_nat k) = w).
  { intros k w Hk. rewrite (law_write _ _ _ _ k w E Hk), Her.
    - apply land_erased. by repeat (destruct k as [|k]; [injection Hk as <-|]).
    - apply lookup_lt_Some in Hk. simpl in Hk. lia. }
  exists []. split_and!; [|done|done]. split; [done| |constructor|done|].
  - unfold magic_exists. simpl. pose proof (Hf 0%nat _ eq_refl) as H0.
    pose proof (Hf 1%nat _ eq_refl) as H1. rewrite Z.add_0_r in H0. rewrite Z.mul_1_r in H1.
    by rewrite H0, H1.
  - intros k w Hk. apply lookup_replicate in Hk as [-> Hk]. unfold word_addr, magic_offset. simpl.
    rewrite (law_write_frame _ _ _ _ _ E); [apply Her; lia|right; simpl; unfold zlen; simpl; lia].
Qed.

(** The loops bound the word index by the size in bytes: once the page is
    full, the next entry is written into the page behind it, if that page
    reads as erased. *)
Lemma indexfs_increment_leaves_page fs fl es free : log_at fs fl es (S free) →
  zlen es = MCU_FLASH_PAGE_SIZE / 4 - magic_offset → log_count es < UINT16_MAX →
  ∃ entry, indexfs_increment fs fl
    = Done (mcu_flash_write_word fl (fs_address fs + MCU_FLASH_PAGE_SIZE) [entry]).
Proof.
  intros Hl Hfull Hc. unfold indexfs_increment, indexfs_monotonic_increment.
  rewrite (log_is_monotonic _ _ _ _ Hl). simpl. rewrite (count_of_log _ _ _ _ Hl). simpl. zdecide.
  rewrite (index_of_log _ _ _ _ Hl). simpl. eexists. unfold word_addr. rewrite Hfull. done.
Qed.

(** ** Refinement of the abstract counter *)

Inductive ix_op := IxCount | IxIncrement | IxClear | IxGetFlag | IxSetFlag (v : Z) | IxCreate.
Inductive ix_res := RNum (n : Z) | RFlag (f : option Z) | ROk (ok : bool).

Definition ix_step (lay : flash_layout) (fs : indexfs_t) (fl : F) (op : ix_op)
    : outcome (ix_res * F) :=
  match op with
  | IxCount => let! n := indexfs_count fs fl in Done (RNum n, fl)
  | IxIncrement => let! '(ok, fl) := indexfs_increment fs fl in Done (ROk ok, fl)
  | IxClear => let! '(ok, fl) := indexfs_clear fs fl in Done (ROk ok, fl)
  | IxGetFlag => let! f := indexfs_get_flag fs fl in Done (RFlag f, fl)
  | IxSetFlag v => let! '(ok, fl) := indexfs_set_flag fs fl v in Done (ROk ok, fl)
  | IxCreate => let! '(ok, fl) := indexfs_create_static lay fs fl in Done (ROk ok, fl)
  end.

Fixpoint ix_run (lay : flash_layout) (fs : indexfs_t) (fl : F) (ops : list ix_op)
    : outcome (list ix_res * F) :=
  match ops with
  | [] => Done ([], fl)
  | op :: ops =>
      let! '(r, fl) := ix_step lay fs fl op in
      let! '(rs, fl) := ix_run lay fs fl ops in
      Done (r :: rs, fl)
  end.

(** The specification: a 16-bit counter and a 4-bit flag. A call is refused, and
    then changes nothing, when the counter is at its end, when there is nothing to
    clear or to flag, when the flag does not fit, or, if the driver can refuse
    writes, because it did. *)
Inductive counter_step : Z * Z → ix_op → ix_res → Z * Z → Prop :=
| cs_count c f : counter_step (c, f) IxCount (RNum c) (c, f)
| cs_flag c f : counter_step (c, f) IxGetFlag (RFlag (Some f)) (c, f)
| cs_create c f : counter_step (c, f) IxCreate (ROk true) (c, f)
| cs_incr c f : c < UINT16_MAX → counter_step (c, f) IxIncrement (ROk true) (c + 1, FLAGS_EMPTY)
| cs_incr_refused c f : c = UINT16_MAX ∨ flash_can_refuse → counter_step (c, f) IxIncrement (ROk false) (c, f)
| cs_clear c f : 0 < c → counter_step (c, f) IxClear (ROk true) (0, FLAGS_EMPTY)
| cs_clear_refused c f : c = 0 ∨ flash_can_refuse → counter_step (c, f) IxClear (ROk false) (c, f)
| cs_set c f v : 0 < c → v ≤ 0x0f → counter_step (c, f) (IxSetFlag v) (ROk true) (c, v)
| cs_set_refused c f v : c = 0 ∨ 0x0f < v ∨ flash_can_refuse → counter_step (c, f) (IxSetFlag v) (ROk false) (c, f).

Inductive counter_run : Z * Z → list ix_op → list ix_res → Prop :=
| cr_nil st : counter_run st [] []
| cr_cons st op r st' ops rs : counter_step st op r st' → counter_run st' ops rs →
    counter_run st (op :: ops) (r :: rs).

Definition ix_op_ok (op : ix_op) : Prop := match op with IxSetFlag v => 0 ≤ v | _ => True end.

Lemma ix_step_refines lay fs fl c f free op : counter_at fs fl c f (S free) → ix_op_ok op →
  ∃ r fl' st' free', ix_step lay fs fl op = Done (r, fl') ∧ counter_step (c, f) op r st'
    ∧ counter_at fs fl' st'.1 st'.2 free' ∧ (free ≤ free')%nat.
Proof.
  intros Hc Hop. destruct op as [| | | |v|]; simpl.
  - rewrite (indexfs_count_spec _ _ _ _ _ Hc). simpl. do 4 eexists. split_and!;
      [done|constructor|done|lia].
  - destruct (indexfs_increment_spec _ _ _ _ _ Hc) as ([|] & fl' & -> & Hc' & Hok); simpl.
    + do 4 eexists. split_and!; [done|by apply cs_incr|done|lia].
    + do 4 eexists. split_and!; [done|by apply cs_incr_refused|done|lia].
  - destruct (indexfs_clear_spec _ _ _ _ _ Hc) as ([|] & fl' & -> & Hc' & Hok); simpl.
    + do 4 eexists. split_and!; [done|by apply cs_clear|done|lia].
    + do 4 eexists. split_and!; [done|by apply cs_clear_refused|done|lia].
  - rewrite (indexfs_get_flag_spec _ _ _ _ _ Hc). simpl. do 4 eexists. split_and!;
      [done|constructor|done|lia].
  - destruct (indexfs_set_flag_spec _ _ _ _ _ v Hc Hop) as ([|] & fl' & -> & Hc' & Hok); simpl.
    + do 4 eexists. split_and!; [done|by apply cs_set; apply Hok|done|lia].
    + do 4 eexists. split_and!; [done|by apply cs_set_refused|done|lia].
  - rewrite (indexfs_create_keeps _ _ _ _ _ _ Hc). simpl. do 4 eexists. split_and!;
      [done|constructor|done|lia].
Qed.

Lemma ix_run_refines lay fs ops : ∀ fl c f free, (length ops ≤ free)%nat →
  counter_at fs fl c f free → Forall ix_op_ok ops →
  ∃ rs fl', ix_run lay fs fl ops = Done (rs, fl') ∧ counter_run (c, f) ops rs.
Proof.
  induction ops as [|op ops IH]; intros fl c f free Hn Hc Hok; simpl in Hn.
  { do 2 eexists. split; [done|constructor]. }
  destruct free as [|free]; [lia|]. apply Forall_cons in Hok as [Hop Hok].
  destruct (ix_step_refines lay fs fl c f free op Hc Hop) as (r & fl' & [c' f'] & free' & E & Hs & Hc' & Hf).
  destruct (IH fl' c' f' free') as (rs & fl'' & E' & Hr); [lia|done|done|].
  exists (r :: rs), fl''. simpl. rewrite E. simpl. rewrite E'. split; [done|by econstructor].
Qed.

(** C27: a log that was created on a page without a header behaves, for as many
    calls as the page has words for entries (2045, reads included; beyond that
    entries leave the page, see [indexfs_increment_leaves_page]), as a 16-bit
    counter with a flag that is reset by every increment and clear. With a driver
    that refuses no write, an increment fails only at 65535, a clear only at 0 and
    the setting of a flag only at 0 or for a flag above 15; otherwise a refused
    call changes nothing. Creating the log again, as every boot does, keeps the
    count and the flag. *)
Theorem indexfs_refines_counter (lay : flash_layout) (fl fl0 : F) (address : Z) (ops : list ix_op) :
  magic_exists fl address = false →
  indexfs_create_static lay (mk_indexfs INDEXFS_TYPE_MONOTONIC address MCU_FLASH_PAGE_SIZE) fl
    = Done (true, fl0) →
  Z.of_nat (length ops) ≤ MCU_FLASH_PAGE_SIZE / 4 - magic_offset → Forall ix_op_ok ops →
  ∃ rs fl', ix_run lay (mk_indexfs INDEXFS_TYPE_MONOTONIC address MCU_FLASH_PAGE_SIZE) fl0 ops
              = Done (rs, fl')
    ∧ counter_run (0, 0) ops rs.
Proof.
  intros Hm Hcr Hlen Hok. eapply (ix_run_refines lay _ ops fl0 0 0 2045); [|by eapply indexfs_create_fresh|done].
  change (MCU_FLASH_PAGE_SIZE / 4 - magic_offset) with 2045 in Hlen. lia.
Qed.
End IndexFs.

(** The clients reason with the counter, not with the loops over the page. *)
#[global] Arguments indexfs_count : simpl never.
#[global] Arguments indexfs_increment : simpl never.
#[global] Arguments indexfs_clear : simpl never.
#[global] Arguments indexfs_get_flag : simpl never.
#[global] Arguments indexfs_set_flag : simpl never.
#[global] Arguments indexfs_create_static : simpl never.

(** ** A flash memory *)

(** The operations a chip has seen, the latest first, and what its words read
    as; the words of a chip out of the factory are zero here. *)
Inductive flash_op := UWrite (a : Z) (ws : list Z) | UErase (a : Z).
Definition mem_flash := list flash_op.

Fixpoint mem_word (fl : mem_flash) (b : Z) : Z :=
  match fl with
  | [] => 0
  | UWrite a ws :: fl =>
      if (a <=? b) && (b <? a + 4 * zlen ws)
      then Z.land (mem_word fl b) (nth (Z.to_nat ((b - a) / 4)) ws ERASED) else mem_word fl b
  | UErase a :: fl =>
      if (a <=? b) && (b <? a + MCU_FLASH_PAGE_SIZE) then ERASED else mem_word fl b
  end.

#[global] Instance mem_flash_ops : Flash mem_flash := {
  flash_word := mem_word;
  mcu_flash_write_word fl a ws := (true, UWrite a ws :: fl);
  mcu_flash_erase_page fl a := (true, UErase a :: fl);
}.

Lemma land_range x w : 0 ≤ x ≤ ERASED → 0 ≤ Z.land x w ≤ ERASED.
Proof.
  intros Hx. replace x with (Z.land x (Z.ones 32)).
  - rewrite <- Z.land_assoc, (Z.land_comm _ w), Z.land_assoc, Z.land_ones by lia.
    pose proof (Z.mod_pos_bound (Z.land x w) (2 ^ 32)). unfold ERASED. lia.
  - rewrite Z.land_ones by lia. apply Z.mod_small. unfold ERASED in Hx. lia.
Qed.

#[global] Instance mem_flash_laws : FlashLaws mem_flash.
Proof.
  split; simpl.
  - intros fl a. induction fl as [|[] fl IH]; simpl; [done| |by case_match].
    case_match; [by apply land_range|done].
  - intros fl a ws fl' i w [= <-] Hi. pose proof (lookup_lt_Some _ _ _ Hi). simpl. unfold zlen. zdecide.
    simpl. f_equal. replace (_ / 4) with (Z.of_nat i) by (apply Z.div_unique_exact; lia).
    by rewrite Nat2Z.id, (nth_lookup_Some _ _ _ _ Hi).
  - intros fl a ws r b <- [Hb|Hb]; simpl; zdecide; [done|by rewrite andb_false_r].
  - done.
  - intros fl a fl' i [= <-] Hi. simpl. unfold MCU_FLASH_PAGE_SIZE in *.
    change (0x2000 / 4) with 2048 in Hi. by zdecide.
Qed.

Lemma indexfs_refines_counter_witness :
  let ops := [IxIncrement; IxIncrement; IxSetFlag 0; IxCreate; IxCount; IxGetFlag; IxClear; IxCount] in
  let fs := mk_indexfs INDEXFS_TYPE_MONOTONIC 0x20000 MCU_FLASH_PAGE_SIZE in
  let lay := mk_layout 0x40000 0x20000 0 0x6000 in
  ∃ fl0, indexfs_create_static (F := mem_flash) lay fs [] = Done (true, fl0)
    ∧ (∃ fl', ix_run lay fs fl0 ops
         = Done ([ROk true; ROk true; ROk true; ROk true; RNum 2; RFlag (Some 0); ROk true; RNum 0], fl'))
    ∧ ∃ rs fl', ix_run lay fs fl0 ops = Done (rs, fl') ∧ counter_run (0, 0) ops rs.
Proof.
  intros ops fs lay. eexists. split; [vm_compute; reflexivity|].
  split; [eexists; vm_compute; reflexivity|].
  apply (indexfs_refines_counter (F := mem_flash) lay []).
  - reflexivity.
  - vm_compute. reflexivity.
  - vm_compute. discriminate.
  - repeat constructor. discriminate.
Defined.
