(* ===== verification/Fs.v ===== *)
(** * The file system layer (lib/filesystem)

    filesystem.c and filesystem_util.c above littlefs. littlefs is a
    submodule, so its calls are the class [Littlefs] and [LittlefsLaws] states
    its documented behaviour; [ram_fs] is an instance that witnesses the laws.
    Calls from interrupt handlers are not modelled: every modelled client runs
    in a task, where [rtos_mutex_lock] blocks until it has the lock. *)

From stdpp Require Export strings.
From S2P Require Import Prelude.
#[global] Open Scope list_scope.
#[global] Open Scope Z_scope.

Definition FS_O_RDONLY : Z := 1.
Definition FS_O_WRONLY : Z := 2.
Definition FS_O_RDWR : Z := 3.
Definition FS_O_CREAT : Z := 0x0100.
Definition FS_O_TRUNC : Z := 0x0400.
Definition FS_O_APPEND : Z := 0x0800.
Definition FS_SEEK_SET : Z := 0.

(** The file objects that the modelled code opens files with: the shared one,
    the one of [fs_touch] and the one of the firmware update. *)
Inductive handle := g_file | touch_file | fwup_file_handle.
#[global] Instance handle_eq_dec : EqDecision handle.
Proof. solve_decision. Defined.

(** A call returns a negative number on error. [lfs_stat] returns the size of
    a regular file; the firmware has no directories at these paths. *)
Class Littlefs (L : Type) := {
  lfs_file_opencfg : L → handle → string → Z → Z * L;
  lfs_file_close : L → handle → Z * L;
  lfs_file_read : L → handle → Z → Z * list Z * L;
  lfs_file_write : L → handle → list Z → Z * L;
  lfs_file_size : L → handle → Z;
  lfs_file_seek : L → handle → Z → Z → Z * L;
  lfs_remove : L → string → Z * L;
  lfs_stat : L → string → option Z;
  lfs_data : L → string → option (list Z);
  lfs_open_at : L → handle → option (string * Z * list Z);
}.

Definition has_flag (flags bit : Z) : bool := negb (Z.land flags bit =? 0).

(** What an opened file holds and where its first access goes: with
    [FS_O_APPEND] to its end. *)
Definition open_contents (flags : Z) (d : list Z) : list Z := if has_flag flags FS_O_TRUNC then [] else d.
Definition open_start (flags : Z) (d : list Z) : Z :=
  if has_flag flags FS_O_APPEND then zlen (open_contents flags d) else 0.

(** [lfs_data] is what a file holds on the medium; [lfs_open_at] is the path,
    the position and the buffered contents of an open file. *)
Class LittlefsLaws (L : Type) `{Littlefs L} := {
  law_open l h p flags r l' : lfs_file_opencfg l h p flags = (r, l') →
    r ≤ 0 ∧ (∀ q, q ≠ p → lfs_data l' q = lfs_data l q)
    ∧ (r ≠ 0 → lfs_data l' p = lfs_data l p)
    ∧ (r = 0 → ∃ d, (lfs_data l p = Some d ∨ lfs_data l p = None ∧ has_flag flags FS_O_CREAT = true ∧ d = [])
         ∧ lfs_data l' p = Some d
         ∧ lfs_open_at l' h = Some (p, open_start flags d, open_contents flags d));
  law_read l h n p pos d r bs l' : lfs_open_at l h = Some (p, pos, d) → 0 ≤ n → 0 ≤ pos →
    lfs_file_read l h n = (r, bs, l') →
    (∀ q, lfs_data l' q = lfs_data l q)
    ∧ lfs_open_at l' h = Some (p, pos + zlen bs, d)
    ∧ (0 ≤ r → bs = ztake n (zdrop pos d) ∧ r = zlen bs);
  law_read_range l h n r bs l' : lfs_file_read l h n = (r, bs, l') → -2147483648 ≤ r;
  law_fwrite l h bs p pos d r l' : lfs_open_at l h = Some (p, pos, d) → 0 ≤ pos ≤ zlen d →
    lfs_file_write l h bs = (r, l') →
    (∀ q, lfs_data l' q = lfs_data l q)
    ∧ (∃ pos' d', lfs_open_at l' h = Some (p, pos', d'))
    ∧ (0 ≤ r → r = zlen bs
         ∧ lfs_open_at l' h = Some (p, pos + zlen bs, ztake pos d ++ bs ++ zdrop (pos + zlen bs) d));
  law_size l h p pos d : lfs_open_at l h = Some (p, pos, d) → 0 ≤ lfs_file_size l h →
    lfs_file_size l h = zlen d;
  law_seek l h off whence p pos d r l' : lfs_open_at l h = Some (p, pos, d) →
    lfs_file_seek l h off whence = (r, l') →
    (∀ q, lfs_data l' q = lfs_data l q)
    ∧ ∃ pos', lfs_open_at l' h = Some (p, pos', d) ∧ (0 ≤ r → whence = FS_SEEK_SET → pos' = off);
  law_close l h p pos d r l' : lfs_open_at l h = Some (p, pos, d) → lfs_file_close l h = (r, l') →
    (∀ q, q ≠ p → lfs_data l' q = lfs_data l q) ∧ (r = 0 → lfs_data l' p = Some d)
    ∧ (lfs_data l p = Some d → lfs_data l' p = Some d);
  law_remove l p r l' : lfs_remove l p = (r, l') →
    (∀ q, q ≠ p → lfs_data l' q = lfs_data l q) ∧ (r = 0 → lfs_data l' p = None)
    ∧ (r ≠ 0 → lfs_data l' p = lfs_data l p);
  law_stat l p n : lfs_stat l p = Some n → ∃ d, lfs_data l p = Some d ∧ n = zlen d;
}.

(** [lfs_stat] can fail as any other call can, and the firmware then takes the
    file for absent ([fs_get_filetype]). What needs it to find the files that
    are there says so with this class. *)
Class LittlefsStats (L : Type) `{Littlefs L} : Prop :=
  stat_finds l p : is_Some (lfs_data l p) → is_Some (lfs_stat l p).

Section Fs.
Context {L : Type} `{Littlefs L}.

(** The mounted file system, NULL before [fs_mount], and the semaphore that
    guards [g_file]: [true] when it can be taken. *)
Record fs_ctx := mk_fs {
  lfs : option L;
  g_file_access_lock : bool;
}.

Definition fs_open (s : fs_ctx) (file : handle) (path : string) (flags : Z) : Z * fs_ctx :=
  match lfs s with
  | None => (-1, s)
  | Some l => let '(ret, l) := lfs_file_opencfg l file path flags in
              (ret, mk_fs (Some l) (g_file_access_lock s))
  end.

Definition fs_close (s : fs_ctx) (file : handle) : Z * fs_ctx :=
  match lfs s with
  | None => (-1, s)
  | Some l => let '(ret, l) := lfs_file_close l file in
              (ret, mk_fs (Some l) (g_file_access_lock s))
  end.

(** A semaphore that is not given in time is a timeout of the [take]. *)
Definition fs_open_global (s : fs_ctx) (path : string) (flags : Z) : Z * fs_ctx :=
  if negb (g_file_access_lock s) then (-1, s)
  else
    let s := mk_fs (lfs s) false in
    let '(ret, s) := fs_open s g_file path flags in
    if negb (ret =? 0) then (ret, mk_fs (lfs s) true) else (ret, s).

Definition fs_close_global (s : fs_ctx) : Z * fs_ctx :=
  let '(ret, s) := fs_close s g_file in
  (ret, mk_fs (lfs s) true).

Definition fs_remove (s : fs_ctx) (path : string) : Z * fs_ctx :=
  match lfs s with
  | None => (-1, s)
  | Some l => let '(ret, l) := lfs_remove l path in
              (ret, mk_fs (Some l) (g_file_access_lock s))
  end.

Inductive fs_filetype_t := FS_FILE_TYPE_ERR | FS_FILE_TYPE_REG.

Definition fs_get_filetype (s : fs_ctx) (path : string) : fs_filetype_t :=
  match lfs s with
  | None => FS_FILE_TYPE_ERR
  | Some l => match lfs_stat l path with
              | Some _ => FS_FILE_TYPE_REG
              | None => FS_FILE_TYPE_ERR
              end
  end.

Definition fs_file_exists (s : fs_ctx) (path : string) : bool :=
  match fs_get_filetype s path with FS_FILE_TYPE_REG => true | FS_FILE_TYPE_ERR => false end.

Definition fs_get_filesize (s : fs_ctx) (path : string) : Z :=
  match lfs s with
  | None => -1
  | Some l => match lfs_stat l path with Some n => n | None => -1 end
  end.

Definition fs_touch (s : fs_ctx) (path : string) : Z * fs_ctx :=
  match lfs s with
  | None => (-1, s)
  | Some l =>
      let '(ret, l) := lfs_file_opencfg l touch_file path FS_O_CREAT in
      if ret <? 0 then (ret, mk_fs (Some l) (g_file_access_lock s))
      else
        let '(ret, l) := lfs_file_close l touch_file in
        (ret, mk_fs (Some l) (g_file_access_lock s))
  end.

Definition fs_file_read (s : fs_ctx) (file : handle) (size : Z) : Z * list Z * fs_ctx :=
  match lfs s with
  | None => (-1, [], s)
  | Some l => let '(ret, bs, l) := lfs_file_read l file size in
              (ret, bs, mk_fs (Some l) (g_file_access_lock s))
  end.

Definition fs_file_write (s : fs_ctx) (file : handle) (buffer : list Z) : Z * fs_ctx :=
  match lfs s with
  | None => (-1, s)
  | Some l => let '(ret, l) := lfs_file_write l file buffer in
              (ret, mk_fs (Some l) (g_file_access_lock s))
  end.

Definition fs_file_size (s : fs_ctx) (file : handle) : Z :=
  match lfs s with None => -1 | Some l => lfs_file_size l file end.

Definition fs_file_seek (s : fs_ctx) (file : handle) (off whence : Z) : Z * fs_ctx :=
  match lfs s with
  | None => (-1, s)
  | Some l => let '(ret, l) := lfs_file_seek l file off whence in
              (ret, mk_fs (Some l) (g_file_access_lock s))
  end.

(** ** filesystem_util.c *)

Definition fs_util_write_global (s : fs_ctx) (filename : string) (data : list Z)
    : outcome (bool * fs_ctx) :=
  let! _ := ASSERT (0 <? zlen data) in
  let '(ret, s) := fs_open_global s filename (Z.lor FS_O_CREAT FS_O_RDWR) in
  if negb (ret =? 0) then Done (false, s)
  else
    let '(ret, s) := fs_file_write s g_file data in
    if negb (ret =? zlen data) then
      let '(_, s) := fs_close_global s in Done (false, s)
    else
      let '(ret, s) := fs_close_global s in Done (ret =? 0, s).

(** The bytes read, when all of them were. *)
Definition fs_util_read_global (s : fs_ctx) (filename : string) (size : Z)
    : outcome (option (list Z) * fs_ctx) :=
  let! _ := ASSERT (0 <? size) in
  let '(ret, s) := fs_open_global s filename FS_O_RDWR in
  if negb (ret =? 0) then Done (None, s)
  else
    let '(ret, bs, s) := fs_file_read s g_file size in
    if (ret <? 0) || negb (ret =? size) then
      let '(_, s) := fs_close_global s in Done (None, s)
    else
      let '(ret, s) := fs_close_global s in
      Done (if ret =? 0 then Some bs else None, s).

(** The contents of the file, up to [max_size] bytes. *)
Definition fs_util_read_all_global (s : fs_ctx) (filename : string) (max_size : Z)
    : option (list Z) * fs_ctx :=
  let '(ret, s) := fs_open_global s filename FS_O_RDWR in
  if negb (ret =? 0) then (None, s)
  else
    let size_or_err := fs_file_size s g_file in
    if size_or_err <=? 0 then
      let '(ret, s) := fs_close_global s in
      ((if size_or_err =? 0 then if ret =? 0 then Some [] else None else None), s)
    else if max_size <? size_or_err then
      let '(_, s) := fs_close_global s in (None, s)
    else
      let '(ret, bs, s) := fs_file_read s g_file size_or_err in
      if (ret <? 0) || negb (ret =? size_or_err) then
        let '(_, s) := fs_close_global s in (None, s)
      else
        let '(ret, s) := fs_close_global s in
        ((if ret =? 0 then Some bs else None), s).

(** ** What the clients see *)

Definition fs_data (s : fs_ctx) (path : string) : option (list Z) :=
  match lfs s with Some l => lfs_data l path | None => None end.

Context `{!LittlefsLaws L}.

Lemma fs_file_exists_data s p : fs_file_exists s p = true → is_Some (fs_data s p).
Proof.
  unfold fs_file_exists, fs_get_filetype, fs_data. destruct (lfs s) as [l|]; [|done].
  destruct (lfs_stat l p) as [n|] eqn:En; [|done]. intros _. apply law_stat in En as (d & -> & _). eauto.
Qed.

Lemma fs_get_filesize_data s p d : fs_data s p = Some d → 0 ≤ fs_get_filesize s p → fs_get_filesize s p = zlen d.
Proof.
  unfold fs_get_filesize, fs_data. destruct (lfs s) as [l|]; [|done]. intros Hd.
  destruct (lfs_stat l p) as [n|] eqn:En; [|lia]. apply law_stat in En as (d' & Hd' & ->). congruence.
Qed.

Lemma fs_file_exists_spec `{!LittlefsStats L} s p : fs_file_exists s p = true ↔ is_Some (fs_data s p).
Proof.
  split; [apply fs_file_exists_data|]. unfold fs_file_exists, fs_get_filetype, fs_data.
  destruct (lfs s) as [l|]; [|by intros []]. by intros [n ->]%stat_finds.
Qed.

(** An open file of any handle: path, position and contents. *)
Definition fs_handle_at (s : fs_ctx) (h : handle) (p : string) (pos : Z) (d : list Z) : Prop :=
  ∃ l, lfs s = Some l ∧ lfs_open_at l h = Some (p, pos, d).

Lemma handle_open_spec s h p flags r s' : fs_open s h p flags = (r, s') → 0 ≤ r →
  ∃ d, fs_handle_at s' h p (open_start flags d) (open_contents flags d)
    ∧ (fs_data s p = Some d ∨ fs_data s p = None ∧ has_flag flags FS_O_CREAT = true ∧ d = []).
Proof.
  unfold fs_open, fs_handle_at, fs_data. destruct (lfs s) as [l|] eqn:Hl; [|intros [= <- <-]; lia].
  destruct (lfs_file_opencfg l h p flags) as [r0 l'] eqn:E. intros [= <- <-] Hr.
  destruct (law_open _ _ _ _ _ _ E) as (Hr0 & _ & _ & H3). destruct (H3 ltac:(lia)) as (d & Hd & _ & Ho).
  exists d. split; [by exists l'|done].
Qed.

Lemma handle_read_spec s h n p pos d r bs s' : fs_handle_at s h p pos d → 0 ≤ n → 0 ≤ pos →
  fs_file_read s h n = (r, bs, s') →
  fs_handle_at s' h p (pos + zlen bs) d ∧ (0 ≤ r → bs = ztake n (zdrop pos d) ∧ r = zlen bs).
Proof.
  intros (l & Hl & Ho) Hn Hpos. unfold fs_file_read. rewrite Hl.
  destruct (lfs_file_read l h n) as [[r0 bs0] l'] eqn:E. intros [= <- <- <-].
  destruct (law_read _ _ _ _ _ _ _ _ _ Ho Hn Hpos E) as (_ & ? & ?). split; [by exists l'|done].
Qed.

Lemma file_read_range s h n r bs s' : fs_file_read s h n = (r, bs, s') → -2147483648 ≤ r.
Proof.
  unfold fs_file_read. destruct (lfs s) as [l|]; [|intros [= <- _ _]; lia].
  destruct (lfs_file_read l h n) as [[r0 bs0] l'] eqn:E. intros [= <- _ _]. by eapply law_read_range.
Qed.

Lemma handle_seek_spec s h off p pos d r s' : fs_handle_at s h p pos d →
  fs_file_seek s h off FS_SEEK_SET = (r, s') →
  ∃ pos', fs_handle_at s' h p pos' d ∧ (0 ≤ r → pos' = off).
Proof.
  intros (l & Hl & Ho). unfold fs_file_seek. rewrite Hl.
  destruct (lfs_file_seek l h off FS_SEEK_SET) as [r0 l'] eqn:E. intros [= <- <-].
  destruct (law_seek _ _ _ _ _ _ _ _ _ Ho E) as (_ & pos' & ? & ?). exists pos'.
  split; [by exists l'|auto].
Qed.

Lemma handle_size_spec s h p pos d : fs_handle_at s h p pos d → 0 ≤ fs_file_size s h →
  fs_file_size s h = zlen d.
Proof. intros (l & Hl & Ho). unfold fs_file_size. rewrite Hl. by eapply law_size. Qed.

(** The open global file: path, position and buffered contents. *)
Definition fs_open_at (s : fs_ctx) (p : string) (pos : Z) (d : list Z) : Prop :=
  ∃ l, lfs s = Some l ∧ lfs_open_at l g_file = Some (p, pos, d) ∧ g_file_access_lock s = false.

Lemma open_global_spec s p flags r s' : fs_open_global s p flags = (r, s') →
  (∀ q, q ≠ p → fs_data s' q = fs_data s q)
  ∧ (r ≠ 0 → fs_data s' p = fs_data s p ∧ g_file_access_lock s' = g_file_access_lock s)
  ∧ (r = 0 → g_file_access_lock s = true ∧ ∃ d,
       (fs_data s p = Some d ∨ fs_data s p = None ∧ has_flag flags FS_O_CREAT = true ∧ d = [])
       ∧ fs_data s' p = Some d ∧ fs_open_at s' p (open_start flags d) (open_contents flags d)).
Proof.
  unfold fs_open_global, fs_open, fs_data, fs_open_at. destruct s as [[l|] [|]]; simpl;
    try (intros [= <- <-]; simpl; split_and!; done).
  destruct (lfs_file_opencfg l g_file p flags) as [r0 l'] eqn:E.
  destruct (law_open _ _ _ _ _ _ E) as (_ & H1 & H2 & H3).
  destruct (r0 =? 0) eqn:Er; simpl; intros [= <- <-]; simpl; btest.
  - split_and!; [done|done|]. intros _. split; [done|].
    destruct (H3 Er) as (d & Hd & Hd' & Ho). exists d. split_and!; [done|done|]. by exists l'.
  - split_and!; [done| |done]. intros _. by split; [apply H2|].
Qed.

Lemma close_global_spec s p pos d r s' : fs_open_at s p pos d → fs_close_global s = (r, s') →
  (∀ q, q ≠ p → fs_data s' q = fs_data s q) ∧ (r = 0 → fs_data s' p = Some d)
  ∧ (fs_data s p = Some d → fs_data s' p = Some d) ∧ g_file_access_lock s' = true.
Proof.
  intros (l & Hl & Ho & _). unfold fs_close_global, fs_close, fs_data. rewrite Hl.
  destruct (lfs_file_close l g_file) as [r0 l'] eqn:E. intros [= <- <-]. simpl.
  by destruct (law_close _ _ _ _ _ _ _ Ho E) as (? & ? & ?).
Qed.

Lemma file_read_spec s n p pos d r bs s' : fs_open_at s p pos d → 0 ≤ n → 0 ≤ pos →
  fs_file_read s g_file n = (r, bs, s') →
  (∀ q, fs_data s' q = fs_data s q) ∧ fs_open_at s' p (pos + zlen bs) d
  ∧ (0 ≤ r → bs = ztake n (zdrop pos d) ∧ r = zlen bs).
Proof.
  intros (l & Hl & Ho & Hk) Hn Hpos. unfold fs_file_read, fs_data, fs_open_at. rewrite Hl.
  destruct (lfs_file_read l g_file n) as [[r0 bs0] l'] eqn:E. intros [= <- <- <-]. simpl.
  destruct (law_read _ _ _ _ _ _ _ _ _ Ho Hn Hpos E) as (? & ? & ?). split_and!; eauto.
Qed.

Lemma file_write_spec s bs p pos d r s' : fs_open_at s p pos d → 0 ≤ pos ≤ zlen d →
  fs_file_write s g_file bs = (r, s') →
  (∀ q, fs_data s' q = fs_data s q) ∧ (∃ pos' d', fs_open_at s' p pos' d')
  ∧ (0 ≤ r → r = zlen bs
       ∧ fs_open_at s' p (pos + zlen bs) (ztake pos d ++ bs ++ zdrop (pos + zlen bs) d)).
Proof.
  intros (l & Hl & Ho & Hk) Hpos. unfold fs_file_write, fs_data, fs_open_at. rewrite Hl.
  destruct (lfs_file_write l g_file bs) as [r0 l'] eqn:E. intros [= <- <-]. simpl.
  destruct (law_fwrite _ _ _ _ _ _ _ _ Ho Hpos E) as (H1 & (pos' & d' & H2) & H3). split_and!.
  - done.
  - exists pos', d', l'. done.
  - intros [? ?]%H3. split; [done|]. by exists l'.
Qed.

Lemma file_seek_spec s off p pos d r s' : fs_open_at s p pos d →
  fs_file_seek s g_file off FS_SEEK_SET = (r, s') →
  (∀ q, fs_data s' q = fs_data s q) ∧ ∃ pos', fs_open_at s' p pos' d ∧ (0 ≤ r → pos' = off).
Proof.
  intros (l & Hl & Ho & Hk). unfold fs_file_seek, fs_data, fs_open_at. rewrite Hl.
  destruct (lfs_file_seek l g_file off FS_SEEK_SET) as [r0 l'] eqn:E. intros [= <- <-]. simpl.
  destruct (law_seek _ _ _ _ _ _ _ _ _ Ho E) as (? & pos' & ? & ?). split; [done|].
  exists pos'. split; [by exists l'|auto].
Qed.

(** Open, read, close: the files stay as they are. *)
Lemma open_read_close s f flags n s1 r bs s2 r3 s3 : 0 ≤ n →
  has_flag flags FS_O_CREAT = false → has_flag flags FS_O_TRUNC = false →
  has_flag flags FS_O_APPEND = false → fs_open_global s f flags = (0, s1) → fs_file_read s1 g_file n = (r, bs, s2) →
  fs_close_global s2 = (r3, s3) →
  (∀ q, fs_data s3 q = fs_data s q) ∧ g_file_access_lock s3 = g_file_access_lock s
  ∧ (0 ≤ r → ∃ d, fs_data s f = Some d ∧ bs = ztake n d ∧ r = zlen bs).
Proof.
  intros Hn Hc Ht Ha E1 E2 E3. destruct (open_global_spec _ _ _ _ _ E1) as (Hq1 & _ & Ho).
  destruct (Ho eq_refl) as (Hlock & d & [Hd|(_ & Hbad & _)] & Hd1 & Hopen); [|congruence].
  unfold open_start, open_contents in Hopen. rewrite Ht, Ha in Hopen.
  destruct (file_read_spec _ n _ _ _ _ _ _ Hopen Hn ltac:(pose proof (zlen_nonneg d); lia) E2)
    as (Hq2 & Hp & Hr).
  destruct (close_global_spec _ _ _ _ _ _ Hp E3) as (Hq3 & _ & Hkeep & Hl3). split_and!.
  - intros q. destruct (decide (q = f)) as [->|]; [|by rewrite Hq3, Hq2, Hq1].
    rewrite Hd. apply Hkeep. by rewrite Hq2.
  - congruence.
  - intros [-> ->]%Hr. exists d. by rewrite zdrop_0.
Qed.

(** A file that cannot be opened is left alone. *)
Lemma open_failed s f flags r s1 : fs_open_global s f flags = (r, s1) → r ≠ 0 →
  (∀ q, fs_data s1 q = fs_data s q) ∧ g_file_access_lock s1 = g_file_access_lock s.
Proof.
  intros E Hr. destruct (open_global_spec _ _ _ _ _ E) as (Hq & Hn & _). destruct (Hn Hr) as [Hf Hl].
  split; [|done]. intros q. destruct (decide (q = f)) as [->|]; auto.
Qed.

(** Overwriting a file from its start. *)
Definition overwrite (old : option (list Z)) (data : list Z) : list Z :=
  data ++ zdrop (zlen data) (default [] old).

Lemma fs_util_write_spec s f data ok s' : fs_util_write_global s f data = Done (ok, s') →
  (∀ q, q ≠ f → fs_data s' q = fs_data s q)
  ∧ (ok = true → fs_data s' f = Some (overwrite (fs_data s f) data))
  ∧ g_file_access_lock s' = g_file_access_lock s.
Proof.
  unfold fs_util_write_global. intros ([] & _ & E)%obind_inv.
  destruct (fs_open_global s f _) as [r1 s1] eqn:E1.
  destruct (open_global_spec _ _ _ _ _ E1) as (Hq1 & Hn1 & Ho1).
  destruct (r1 =? 0) eqn:Er1; simpl in E; btest; cycle 1.
  { injection E as <- <-. split_and!; [done|done|by apply Hn1]. }
  destruct (Ho1 Er1) as (Hlock & d & Hd & Hd1 & Hopen).
  change (fs_open_at s1 f 0 d) in Hopen.
  destruct (fs_file_write s1 g_file data) as [r2 s2] eqn:E2.
  destruct (file_write_spec _ _ _ _ _ _ _ Hopen ltac:(pose proof (zlen_nonneg d); lia) E2)
    as (Hq2 & (pos & d' & Hp) & Hw).
  destruct (fs_close_global s2) as [r3 s3] eqn:E3.
  destruct (close_global_spec _ _ _ _ _ _ Hp E3) as (Hq3 & _ & _ & Hl3).
  assert (Hq : ∀ q, q ≠ f → fs_data s3 q = fs_data s q).
  { intros q Hne. by rewrite Hq3, Hq2, Hq1. }
  destruct (r2 =? zlen data) eqn:Er2; simpl in E; injection E as <- <-; btest; cycle 1.
  { by split_and!; [|done|rewrite Hl3]. }
  split_and!; [done| |by rewrite Hl3]. intros Hr3%Z.eqb_eq.
  destruct Hw as [_ Hp2]; [pose proof (zlen_nonneg data); lia|].
  destruct (close_global_spec _ _ _ _ _ _ Hp2 E3) as (_ & Hc & _). rewrite Hc by done. f_equal.
  unfold overwrite. rewrite ztake_0, Z.add_0_l. simpl. f_equal. f_equal.
  by destruct Hd as [-> | (-> & _ & ->)].
Qed.

Lemma fs_util_read_spec s f n r s' : fs_util_read_global s f n = Done (r, s') →
  (∀ q, fs_data s' q = fs_data s q)
  ∧ (∀ bs, r = Some bs → ∃ d, fs_data s f = Some d ∧ bs = ztake n d ∧ zlen bs = n)
  ∧ g_file_access_lock s' = g_file_access_lock s.
Proof.
  unfold fs_util_read_global. intros ([] & Hn & E)%obind_inv.
  unfold ASSERT in Hn. destruct (0 <? n) eqn:Hn0; [|done]. btest.
  destruct (fs_open_global s f _) as [r1 s1] eqn:E1.
  destruct (r1 =? 0) eqn:Er1; simpl in E; btest; cycle 1.
  { injection E as <- <-. by destruct (open_failed _ _ _ _ _ E1 Er1). }
  subst r1. destruct (fs_file_read s1 g_file n) as [[r2 bs] s2] eqn:E2.
  destruct (fs_close_global s2) as [r3 s3] eqn:E3.
  destruct (open_read_close _ _ FS_O_RDWR n _ _ _ _ _ _ ltac:(lia) eq_refl eq_refl eq_refl E1 E2 E3) as (Hq & Hl & Hr).
  destruct (_ || _) eqn:Er2; injection E as <- <-; split_and!; try done.
  apply orb_false_iff in Er2 as [Er2 Er3%negb_false_iff]. btest. subst.
  intros bs' Hbs. case_match; [|done]. injection Hbs as <-.
  destruct Hr as (d & Hd & Hbs & Hlen); [lia|]. by exists d.
Qed.

Lemma fs_util_read_all_spec s f max r s' : fs_util_read_all_global s f max = (r, s') →
  (∀ q, fs_data s' q = fs_data s q)
  ∧ (∀ bs, r = Some bs → fs_data s f = Some bs ∧ (zlen bs ≤ max ∨ bs = []))
  ∧ g_file_access_lock s' = g_file_access_lock s.
Proof.
  unfold fs_util_read_all_global. intros E.
  destruct (fs_open_global s f _) as [r1 s1] eqn:E1.
  destruct (open_global_spec _ _ _ _ _ E1) as (Hq1 & Hn1 & Ho1).
  destruct (r1 =? 0) eqn:Er1; simpl in E; btest; cycle 1.
  { injection E as <- <-. split_and!; [|done|by apply Hn1].
    intros q. destruct (decide (q = f)) as [->|]; [by apply Hn1|by apply Hq1]. }
  destruct (Ho1 Er1) as (Hlock & d & Hd & Hd1 & Hopen).
  change (fs_open_at s1 f 0 d) in Hopen.
  destruct Hd as [Hd|(_ & Hbad & _)]; [|done].
  assert (Hclose : ∀ s2 pos r3 s3, (∀ q, fs_data s2 q = fs_data s1 q) → fs_open_at s2 f pos d →
    fs_close_global s2 = (r3, s3) → (∀ q, fs_data s3 q = fs_data s q) ∧ g_file_access_lock s3 = true).
  { intros s2 pos r3 s3 Hq2 Hp E3.
    destruct (close_global_spec _ _ _ _ _ _ Hp E3) as (Hq3 & _ & Hkeep & Hl3). split; [|done].
    intros q. destruct (decide (q = f)) as [->|]; [|by rewrite Hq3, Hq2, Hq1].
    rewrite Hd. apply Hkeep. by rewrite Hq2. }
  assert (Hsize : 0 ≤ fs_file_size s1 g_file → fs_file_size s1 g_file = zlen d).
  { destruct Hopen as (l & Hl & Hop & _). unfold fs_file_size. rewrite Hl. intros. by eapply law_size. }
  destruct (fs_file_size s1 g_file <=? 0) eqn:Esz; btest.
  { destruct (fs_close_global s1) as [r3 s3] eqn:E3. injection E as <- <-.
    destruct (Hclose s1 0 r3 s3) as [Hq Hl]; [done|done|done|]. split_and!; [done| |by rewrite Hl].
    intros bs Hbs. case_match; [|done]. case_match; [|done]. injection Hbs as <-. btest.
    rewrite Hd. rewrite (zlen_zero d) by lia. by auto. }
  destruct (max <? fs_file_size s1 g_file) eqn:Emax; btest.
  { destruct (fs_close_global s1) as [r3 s3] eqn:E3. injection E as <- <-.
    destruct (Hclose s1 0 r3 s3) as [Hq Hl]; [done|done|done|]. by split_and!; [done| |rewrite Hl]. }
  rewrite Hsize in * by lia.
  destruct (fs_file_read s1 g_file (zlen d)) as [[r2 bs] s2] eqn:E2.
  destruct (file_read_spec _ (zlen d) _ _ _ _ _ _ Hopen ltac:(lia) ltac:(lia) E2) as (Hq2 & Hp & Hr).
  destruct (fs_close_global s2) as [r3 s3] eqn:E3.
  destruct (Hclose s2 _ r3 s3 Hq2 Hp E3) as [Hq Hl].
  destruct (_ || _) eqn:Er2; injection E as <- <-; split_and!; try done; try (by rewrite Hl).
  apply orb_false_iff in Er2 as [Er2 Er3%negb_false_iff]. btest.
  intros bs' Hbs. case_match; [|done]. injection Hbs as <-.
  destruct Hr as [Hbs Hlen]; [lia|]. rewrite zdrop_0, ztake_all in Hbs by lia. subst bs.
  rewrite Hd. auto with lia.
Qed.

Lemma fs_remove_spec s f r s' : fs_remove s f = (r, s') →
  (∀ q, q ≠ f → fs_data s' q = fs_data s q) ∧ (r = 0 → fs_data s' f = None)
  ∧ (r ≠ 0 → fs_data s' f = fs_data s f) ∧ g_file_access_lock s' = g_file_access_lock s.
Proof.
  unfold fs_remove, fs_data. destruct (lfs s) as [l|] eqn:Hl.
  - destruct (lfs_remove l f) as [r0 l'] eqn:E. intros [= <- <-]. simpl.
    by destruct (law_remove _ _ _ _ E) as (? & ? & ?).
  - intros [= <- <-]. rewrite Hl. done.
Qed.

(** [fs_touch] creates an empty file if there is none. *)
Lemma fs_touch_spec s f r s' : fs_touch s f = (r, s') →
  (∀ q, q ≠ f → fs_data s' q = fs_data s q)
  ∧ (fs_data s' f = fs_data s f ∨ fs_data s f = None ∧ fs_data s' f = Some [])
  ∧ g_file_access_lock s' = g_file_access_lock s.
Proof.
  unfold fs_touch, fs_data. destruct (lfs s) as [l|] eqn:Hl.
  - destruct (lfs_file_opencfg l touch_file f FS_O_CREAT) as [r1 l1] eqn:E1.
    destruct (law_open _ _ _ _ _ _ E1) as (Hr1 & Hq1 & Hn1 & Ho1).
    destruct (r1 <? 0) eqn:Er; btest; [intros [= <- <-]; simpl; split_and!; [done|left; apply Hn1; lia|done]|].
    destruct (Ho1 ltac:(lia)) as (d & Hd & Hd1 & Hopen). change (lfs_open_at l1 touch_file = Some (f, 0, d)) in Hopen.
    destruct (lfs_file_close l1 touch_file) as [r2 l2] eqn:E2. intros [= <- <-]. simpl.
    destruct (law_close _ _ _ _ _ _ _ Hopen E2) as (Hq2 & _ & Hk). specialize (Hk Hd1).
    split_and!; [intros; by rewrite Hq2, Hq1| |done].
    destruct Hd as [Hd|(Hd & _ & ->)]; [left; congruence|by right].
  - intros [= <- <-]. rewrite Hl. by auto.
Qed.

(** What a successful [fs_util_write_global] stored is what
    [fs_util_read_global] returns when it succeeds, also when the file was
    longer before; no other file changes; and both calls give the lock of the
    global file back. *)
Theorem fs_util_roundtrip (s s1 s2 : fs_ctx) (f : string) (data bs : list Z) :
  fs_util_write_global s f data = Done (true, s1) →
  fs_util_read_global s1 f (zlen data) = Done (Some bs, s2) →
  bs = data ∧ (∀ q, q ≠ f → fs_data s2 q = fs_data s q)
  ∧ g_file_access_lock s2 = g_file_access_lock s.
Proof.
  intros (Hq1 & Hd1 & Hl1)%fs_util_write_spec (Hq2 & Hd2 & Hl2)%fs_util_read_spec.
  destruct (Hd2 bs eq_refl) as (d & Hd & -> & _). rewrite Hd1 in Hd by done. injection Hd as <-.
  split_and!; [by apply ztake_app_exact| |congruence].
  intros q Hne. by rewrite Hq2, Hq1.
Qed.
End Fs.
Arguments fs_ctx : clear implicits.

(** ** A healthy medium

    Without I/O errors and with room left, the calls succeed. *)

Class LittlefsReliable (L : Type) `{Littlefs L} : Prop := {
  rel_open l h p flags : is_Some (lfs_data l p) ∨ has_flag flags FS_O_CREAT = true →
    (lfs_file_opencfg l h p flags).1 = 0;
  rel_read l h n p pos d : lfs_open_at l h = Some (p, pos, d) → 0 ≤ (lfs_file_read l h n).1.1;
  rel_write l h bs p pos d : lfs_open_at l h = Some (p, pos, d) → 0 ≤ (lfs_file_write l h bs).1;
  rel_close l h p pos d : lfs_open_at l h = Some (p, pos, d) → (lfs_file_close l h).1 = 0;
  rel_remove l p : is_Some (lfs_data l p) → (lfs_remove l p).1 = 0;
  rel_stat l p : is_Some (lfs_data l p) → is_Some (lfs_stat l p);
}.

#[global] Instance reliable_stats (L : Type) `{LittlefsReliable L} : LittlefsStats L.
Proof. intros l p. apply rel_stat. Qed.

Section Healthy.
Context {L : Type} `{Littlefs L} `{!LittlefsLaws L} `{!LittlefsReliable L}.
Implicit Types s : fs_ctx L.

(** Mounted, and nobody holds the global file. *)
Definition fs_ready s : Prop := is_Some (lfs s) ∧ g_file_access_lock s = true.

(** The global file can be opened. *)
Lemma open_ready s f flags : fs_ready s →
  is_Some (fs_data s f) ∨ has_flag flags FS_O_CREAT = true →
  ∃ s' d, fs_open_global s f flags = (0, s') ∧ is_Some (lfs s')
    ∧ fs_open_at s' f (open_start flags d) (open_contents flags d)
    ∧ (fs_data s f = Some d ∨ fs_data s f = None ∧ d = []).
Proof.
  intros [[l Hl] Hk] Hf. destruct (fs_open_global s f flags) as [r s'] eqn:Eo.
  assert (r = 0 ∧ is_Some (lfs s')) as [-> Hs'].
  { unfold fs_open_global, fs_open in Eo. rewrite Hk, Hl in Eo. cbn [negb lfs] in Eo.
    destruct (lfs_file_opencfg l g_file f flags) as [r0 l'] eqn:E.
    assert (r0 = 0) as ->.
    { change r0 with (r0, l').1. rewrite <- E. apply rel_open.
      unfold fs_data in Hf. by rewrite Hl in Hf. }
    injection Eo as <- <-. eauto. }
  destruct (open_global_spec _ _ _ _ _ Eo) as (_ & _ & Ho).
  destruct (Ho eq_refl) as (_ & d & Hd & _ & Hopen). exists s', d. split_and!; [done|done|done|].
  destruct Hd as [?|(? & _ & ?)]; auto.
Qed.

Lemma read_ready s f pos d n : fs_open_at s f pos d → 0 ≤ n → 0 ≤ pos ≤ zlen d →
  ∃ s', fs_file_read s g_file n = (zlen (ztake n (zdrop pos d)), ztake n (zdrop pos d), s')
    ∧ is_Some (lfs s') ∧ fs_open_at s' f (pos + zlen (ztake n (zdrop pos d))) d.
Proof.
  intros Ho Hn Hpos. destruct (fs_file_read s g_file n) as [[r bs] s'] eqn:E.
  destruct (file_read_spec _ _ _ _ _ _ _ _ Ho Hn (proj1 Hpos) E) as (_ & Hp & Hr).
  assert (0 ≤ r ∧ is_Some (lfs s')) as [Hr0 Hs'].
  { destruct Ho as (l & Hl & Hop & _). unfold fs_file_read in E. rewrite Hl in E.
    pose proof (rel_read l g_file n _ _ _ Hop) as H1.
    destruct (lfs_file_read l g_file n) as [[r0 bs0] l']. injection E as <- <- <-. eauto. }
  destruct (Hr Hr0) as [-> ->]. eauto.
Qed.

Lemma write_ready s f pos d bs : fs_open_at s f pos d → 0 ≤ pos ≤ zlen d →
  ∃ s', fs_file_write s g_file bs = (zlen bs, s') ∧ is_Some (lfs s')
    ∧ fs_open_at s' f (pos + zlen bs) (ztake pos d ++ bs ++ zdrop (pos + zlen bs) d).
Proof.
  intros Ho Hpos. destruct (fs_file_write s g_file bs) as [r s'] eqn:E.
  destruct (file_write_spec _ _ _ _ _ _ _ Ho Hpos E) as (_ & _ & Hw).
  assert (0 ≤ r ∧ is_Some (lfs s')) as [Hr0 Hs'].
  { destruct Ho as (l & Hl & Hop & _). unfold fs_file_write in E. rewrite Hl in E.
    pose proof (rel_write l g_file bs _ _ _ Hop) as H1.
    destruct (lfs_file_write l g_file bs) as [r0 l']. injection E as <- <-. eauto. }
  destruct (Hw Hr0) as [-> ?]. eauto.
Qed.

Lemma close_ready s f pos d : fs_open_at s f pos d →
  ∃ s', fs_close_global s = (0, s') ∧ fs_ready s'.
Proof.
  intros (l & Hl & Hop & _). unfold fs_close_global, fs_close. rewrite Hl.
  pose proof (rel_close l g_file _ _ _ Hop) as H1. destruct (lfs_file_close l g_file) as [r l'].
  simpl in H1. subst r. eexists. split; [done|]. split; simpl; eauto.
Qed.

Lemma util_write_ready s f data : fs_ready s → 0 < zlen data →
  ∃ s', fs_util_write_global s f data = Done (true, s') ∧ fs_ready s'.
Proof.
  intros Hs Hlen. unfold fs_util_write_global. zdecide. cbn [ASSERT obind].
  destruct (open_ready s f (Z.lor FS_O_CREAT FS_O_RDWR) Hs) as (s1 & d & -> & _ & Ho & _); [by right|].
  change (fs_open_at s1 f 0 d) in Ho. cbn [Z.eqb negb].
  destruct (write_ready s1 f 0 d data Ho) as (s2 & -> & _ & Ho2); [zl|].
  rewrite Z.eqb_refl. cbn [negb]. destruct (close_ready _ _ _ _ Ho2) as (s3 & -> & Hs3). eauto.
Qed.

Lemma util_read_ready s f d n : fs_ready s → fs_data s f = Some d → 0 < n ≤ zlen d →
  ∃ s', fs_util_read_global s f n = Done (Some (ztake n d), s') ∧ fs_ready s'.
Proof.
  intros Hs Hd Hn. unfold fs_util_read_global. zdecide. cbn [ASSERT obind].
  destruct (open_ready s f FS_O_RDWR Hs) as (s1 & d' & -> & _ & Ho & Hd'); [left; eauto|].
  change (fs_open_at s1 f 0 d') in Ho. cbn [Z.eqb negb].
  assert (d' = d) as -> by (destruct Hd' as [?|[? ?]]; congruence).
  destruct (read_ready s1 f 0 d n Ho) as (s2 & -> & _ & Ho2); [lia|lia|].
  rewrite zdrop_0 in *. rewrite zlen_ztake in * by lia. zdecide. cbn [orb negb].
  destruct (close_ready _ _ _ _ Ho2) as (s3 & -> & Hs3). eauto.
Qed.

(** A file that is shorter than the request cannot be read. *)
Lemma util_read_short s f d n : fs_ready s → fs_data s f = Some d → zlen d < n →
  ∃ s', fs_util_read_global s f n = Done (None, s') ∧ fs_ready s'.
Proof.
  intros Hs Hd Hn. unfold fs_util_read_global. pose proof (zlen_nonneg d). zdecide.
  cbn [ASSERT obind].
  destruct (open_ready s f FS_O_RDWR Hs) as (s1 & d' & -> & _ & Ho & Hd'); [left; eauto|].
  change (fs_open_at s1 f 0 d') in Ho. cbn [Z.eqb negb].
  assert (d' = d) as -> by (destruct Hd' as [?|[? ?]]; congruence).
  destruct (read_ready s1 f 0 d n Ho) as (s2 & -> & _ & Ho2); [lia|lia|].
  rewrite zdrop_0 in *. rewrite (ztake_all d n) in * by lia.
  rewrite (proj2 (Z.eqb_neq (zlen d) n)) by lia. rewrite orb_true_r.
  destruct (close_ready _ _ _ _ Ho2) as (s3 & -> & Hs3). eauto.
Qed.

Lemma remove_ready s f : fs_ready s →
  fs_ready (fs_remove s f).2 ∧ fs_data (fs_remove s f).2 f = None.
Proof.
  intros [[l Hl] Hk]. destruct (fs_remove s f) as [r s'] eqn:E. simpl.
  destruct (fs_remove_spec _ _ _ _ E) as (_ & H0 & Hn & Hlock).
  split; [split; [|congruence]|].
  - unfold fs_remove in E. rewrite Hl in E. destruct (lfs_remove l f). injection E as _ <-. eauto.
  - destruct (decide (r = 0)) as [|Hr]; [by apply H0|]. rewrite Hn by done.
    destruct (fs_data s f) as [d|] eqn:Ed; [|done]. exfalso. apply Hr.
    unfold fs_remove, fs_data in *. rewrite Hl in *.
    pose proof (rel_remove l f) as H1. rewrite Ed in H1. destruct (lfs_remove l f) as [r0 l'].
    injection E as <- _. apply H1. eauto.
Qed.
End Healthy.

(** ** A file system in memory *)

Record ram_fs := mk_ram {
  ram_files : list (string * list Z);
  ram_g : option (string * Z * list Z);
  ram_touch : option (string * Z * list Z);
  ram_fwup : option (string * Z * list Z);
}.

Fixpoint ram_find (fs : list (string * list Z)) (p : string) : option (list Z) :=
  match fs with
  | [] => None
  | (q, d) :: fs => if decide (q = p) then Some d else ram_find fs p
  end.

Definition ram_handle (l : ram_fs) (h : handle) : option (string * Z * list Z) :=
  match h with g_file => ram_g l | touch_file => ram_touch l | fwup_file_handle => ram_fwup l end.

Definition ram_set (l : ram_fs) (h : handle) (o : option (string * Z * list Z)) : ram_fs :=
  match h with
  | g_file => mk_ram (ram_files l) o (ram_touch l) (ram_fwup l)
  | touch_file => mk_ram (ram_files l) (ram_g l) o (ram_fwup l)
  | fwup_file_handle => mk_ram (ram_files l) (ram_g l) (ram_touch l) o
  end.

Definition ram_put (l : ram_fs) (p : string) (d : list Z) : ram_fs :=
  mk_ram ((p, d) :: ram_files l) (ram_g l) (ram_touch l) (ram_fwup l).

Definition ram_del (fs : list (string * list Z)) (p : string) : list (string * list Z) :=
  filter (λ e, e.1 ≠ p) fs.

#[global] Instance ram_fs_ops : Littlefs ram_fs := {
  lfs_file_opencfg l h p flags :=
    match ram_find (ram_files l) p with
    | Some d => (0, ram_set l h (Some (p, open_start flags d, open_contents flags d)))
    | None => if has_flag flags FS_O_CREAT
              then (0, ram_set (ram_put l p []) h (Some (p, 0, []))) else (-2, l)
    end;
  lfs_file_close l h :=
    match ram_handle l h with
    | Some (p, _, d) => (0, ram_set (ram_put l p d) h None)
    | None => (-9, l)
    end;
  lfs_file_read l h n :=
    match ram_handle l h with
    | Some (p, pos, d) =>
        let bs := ztake n (zdrop pos d) in (zlen bs, bs, ram_set l h (Some (p, pos + zlen bs, d)))
    | None => (-9, [], l)
    end;
  lfs_file_write l h bs :=
    match ram_handle l h with
    | Some (p, pos, d) =>
        (zlen bs, ram_set l h (Some (p, pos + zlen bs, ztake pos d ++ bs ++ zdrop (pos + zlen bs) d)))
    | None => (-9, l)
    end;
  lfs_file_size l h := match ram_handle l h with Some (_, _, d) => zlen d | None => -9 end;
  lfs_file_seek l h off whence :=
    match ram_handle l h with
    | Some (p, pos, d) =>
        if (off <? 0) || negb (whence =? FS_SEEK_SET) then (-22, l) else (off, ram_set l h (Some (p, off, d)))
    | None => (-9, l)
    end;
  lfs_remove l p :=
    match ram_find (ram_files l) p with
    | Some _ => (0, mk_ram (ram_del (ram_files l) p) (ram_g l) (ram_touch l) (ram_fwup l))
    | None => (-2, l)
    end;
  lfs_stat l p := option_map zlen (ram_find (ram_files l) p);
  lfs_data l p := ram_find (ram_files l) p;
  lfs_open_at := ram_handle;
}.

Lemma ram_find_put l p d q :
  ram_find (ram_files (ram_put l p d)) q = if decide (p = q) then Some d else ram_find (ram_files l) q.
Proof. reflexivity. Qed.

Lemma ram_find_set l h o q : ram_find (ram_files (ram_set l h o)) q = ram_find (ram_files l) q.
Proof. by destruct h. Qed.

Lemma ram_handle_set l h o : ram_handle (ram_set l h o) h = o.
Proof. by destruct h. Qed.

Lemma ram_find_del fs p q : ram_find (ram_del fs p) q = if decide (p = q) then None else ram_find fs q.
Proof.
  induction fs as [|[r d] fs IH]; simpl; [by case_decide|]. unfold ram_del in *. rewrite filter_cons.
  simpl. destruct (decide (r = p)) as [->|Hne].
  - rewrite decide_False by naive_solver. rewrite IH. by destruct (decide (p = q)).
  - rewrite decide_True by done. simpl. rewrite IH. destruct (decide (r = q)) as [->|]; [|done].
    by rewrite decide_False by done.
Qed.

#[global] Instance ram_fs_laws : LittlefsLaws ram_fs.
Proof.
  split; simpl.
  - intros l h p flags r l' E. destruct (ram_find (ram_files l) p) as [d|] eqn:Ed.
    + injection E as <- <-. split_and!; [done|intros; apply ram_find_set|done|]. intros _. exists d.
      rewrite ram_find_set, ram_handle_set, Ed. auto.
    + destruct (has_flag flags FS_O_CREAT) eqn:Ec; injection E as <- <-.
      * split_and!; [done| |done|].
        { intros q Hq. by rewrite ram_find_set, ram_find_put, decide_False by done. }
        intros _. exists []. rewrite ram_find_set, ram_find_put, decide_True, ram_handle_set by done.
        split_and!; [by auto|done|]. unfold open_start, open_contents.
        by destruct (has_flag flags FS_O_TRUNC), (has_flag flags FS_O_APPEND).
      * by split_and!.
  - intros l h n p pos d r bs l' Ho Hn Hp E. rewrite Ho in E. injection E as <- <- <-.
    split_and!; [intros; apply ram_find_set|apply ram_handle_set|done].
  - intros l h n r bs l' E. destruct (ram_handle l h) as [[[p pos] d]|]; injection E as <- _ _; [zl|lia].
  - intros l h bs p pos d r l' Ho Hp E. rewrite Ho in E. injection E as <- <-.
    split_and!; [intros; apply ram_find_set| |]; [|intros; split; [done|apply ram_handle_set]].
    rewrite ram_handle_set. eauto.
  - intros l h p pos d -> _. done.
  - intros l h off whence p pos d r l' Ho E. rewrite Ho in E.
    destruct (_ || _); injection E as <- <-; [split; [done|]; exists pos; split; [done|lia]|].
    split; [intros; apply ram_find_set|]. exists off. by rewrite ram_handle_set.
  - intros l h p pos d r l' Ho E. rewrite Ho in E. injection E as <- <-.
    rewrite ram_find_set, ram_find_put, decide_True by done. split_and!; [|done|done].
    intros q Hq. by rewrite ram_find_set, ram_find_put, decide_False by done.
  - intros l p r l' E. destruct (ram_find (ram_files l) p) eqn:Ed; injection E as <- <-; [|done].
    simpl. split_and!.
    + intros q Hq. by rewrite ram_find_del, decide_False by done.
    + intros _. by rewrite ram_find_del, decide_True by done.
    + done.
  - intros l p n. destruct (ram_find (ram_files l) p) as [d|]; [|done]. intros [= <-]. eauto.
Qed.

#[global] Instance ram_fs_reliable : LittlefsReliable ram_fs.
Proof.
  split; simpl.
  - intros l h p flags Hp. destruct (ram_find (ram_files l) p) eqn:Ed; [done|].
    destruct Hp as [[]| ->]; done.
  - intros l h n p pos d ->. simpl. zl.
  - intros l h bs p pos d ->. simpl. zl.
  - intros l h p pos d ->. done.
  - intros l p [d ->]. done.
  - intros l p [d ->]. by eexists.
Qed.

Definition ram_boot : fs_ctx ram_fs := mk_fs (Some (mk_ram [] None None None)) true.

Lemma fs_util_roundtrip_witness :
  ∃ s0 s1 s2, fs_util_write_global ram_boot "a.bin" [9; 8; 7; 6] = Done (true, s0)
    ∧ fs_util_write_global s0 "a.bin" [1; 2; 3] = Done (true, s1)
    ∧ fs_util_read_global s1 "a.bin" 3 = Done (Some [1; 2; 3], s2)
    ∧ g_file_access_lock s2 = g_file_access_lock s0.
Proof.
  eexists _, _, _. split; [reflexivity|]. split; [reflexivity|]. split; [reflexivity|].
  eapply (fs_util_roundtrip (L := ram_fs) _ _ _ "a.bin" [1; 2; 3] [1; 2; 3]); reflexivity.
Defined.
