(* ===== verification/Wkek.v ===== *)
(** * Secrets at rest (lib/wallet: wkek.c, wallet_storage.c)

    Every secret file is encrypted under the wallet key encryption key, which
    is itself wrapped by the secure element and stored in a file. The secure
    element and its AES-GCM are not in the repository: the class
    [SecureElement] has their calls and [SecureElementLaws] what they promise.
    The scratch blob comes from [wallet_pool] and is returned on every path. *)

From S2P Require Import Prelude Fs.

Definition WKEK_PATH : string := "encrypted-wkek.bin".
Definition AES_GCM_OVERHEAD : Z := AES_GCM_IV_LENGTH + AES_GCM_TAG_LENGTH.
(** [AES_256_LENGTH_BYTES + SE_WRAPPED_KEY_OVERHEAD]. *)
Definition WKEK_SIZE : Z := 32 + 28.

(** [None] is a call that returned false. [aes_gcm_encrypt] returns the
    ciphertext and the tag. *)
Class SecureElement (E : Type) := {
  generate_key : E → option (list Z) * E;
  crypto_random : E → Z → option (list Z) * E;
  aes_gcm_encrypt : list Z → list Z → list Z → option (list Z * list Z);
  aes_gcm_decrypt : list Z → list Z → list Z → list Z → option (list Z);
}.

Class SecureElementLaws (E : Type) `{SecureElement E} := {
  law_key e k e' : generate_key e = (Some k, e') → zlen k = WKEK_SIZE;
  law_random e n bs e' : crypto_random e n = (Some bs, e') → zlen bs = n;
  law_gcm key pt iv ct tag : aes_gcm_encrypt key pt iv = Some (ct, tag) →
    zlen ct = zlen pt ∧ zlen tag = AES_GCM_TAG_LENGTH ∧ aes_gcm_decrypt key ct iv tag = Some pt;
}.

Section Wkek.
Context {L E : Type} `{Littlefs L} `{SecureElement E}.

(** The RAM copy of the wrapped key, whether it was loaded, the file system
    and the secure element. *)
Record wkek_ctx := mk_wkek {
  wkek_key : list Z;
  wkek_loaded : bool;
  wkek_fs : fs_ctx L;
  wkek_se : E;
}.

Definition with_fs (w : wkek_ctx) (s : fs_ctx L) : wkek_ctx :=
  mk_wkek (wkek_key w) (wkek_loaded w) s (wkek_se w).

Definition wkek_generate_and_store (w : wkek_ctx) : outcome (bool * wkek_ctx) :=
  match generate_key (wkek_se w) with
  | (None, e) => Done (false, mk_wkek (wkek_key w) (wkek_loaded w) (wkek_fs w) e)
  | (Some k, e) =>
      let! '(ok, s) := fs_util_write_global (wkek_fs w) WKEK_PATH k in
      Done (ok, mk_wkek k (wkek_loaded w) s e)
  end.

Definition wkek_load (w : wkek_ctx) : outcome (bool * wkek_ctx) :=
  if wkek_loaded w then Done (true, w)
  else
    let! '(r, s) := fs_util_read_global (wkek_fs w) WKEK_PATH WKEK_SIZE in
    match r with
    | Some k => Done (true, mk_wkek k true s (wkek_se w))
    | None => Done (false, with_fs w s)
    end.

Definition wkek_exists (w : wkek_ctx) : bool := fs_file_exists (wkek_fs w) WKEK_PATH.

Definition wkek_remove_files (w : wkek_ctx) : Z * wkek_ctx :=
  let '(ret, s) := fs_remove (wkek_fs w) WKEK_PATH in (ret, with_fs w s).

Definition wkek_lazy_init (w : wkek_ctx) : outcome (bool * wkek_ctx) :=
  let! '(ok, w) := if wkek_exists w then Done (true, w) else wkek_generate_and_store w in
  if negb ok then Done (false, w)
  else
    let! '(loaded, w) := wkek_load w in
    Done (loaded, w).

(** The iv, the ciphertext and the tag. *)
Definition wkek_encrypt (w : wkek_ctx) (plaintext : list Z)
    : outcome (option (list Z * list Z * list Z) * wkek_ctx) :=
  let! '(ok, w) := wkek_lazy_init w in
  if negb ok then Done (None, w)
  else
    match crypto_random (wkek_se w) AES_GCM_IV_LENGTH with
    | (None, e) => Done (None, mk_wkek (wkek_key w) (wkek_loaded w) (wkek_fs w) e)
    | (Some iv, e) =>
        let w := mk_wkek (wkek_key w) (wkek_loaded w) (wkek_fs w) e in
        match aes_gcm_encrypt (wkek_key w) plaintext iv with
        | Some (ct, tag) => Done (Some (iv, ct, tag), w)
        | None => Done (None, w)
        end
    end.

Definition wkek_decrypt (w : wkek_ctx) (ciphertext iv tag : list Z)
    : outcome (option (list Z) * wkek_ctx) :=
  let! '(ok, w) := wkek_lazy_init w in
  if negb ok then Done (None, w)
  else Done (aes_gcm_decrypt (wkek_key w) ciphertext iv tag, w).

Definition wkek_encrypt_and_store (w : wkek_ctx) (filename : string) (data : list Z)
    : outcome (bool * wkek_ctx) :=
  let! '(r, w) := wkek_encrypt w data in
  match r with
  | None => Done (false, w)
  | Some (iv, ciphertext, tag) =>
      let! '(ok, s) := fs_util_write_global (wkek_fs w) filename (iv ++ ciphertext ++ tag) in
      Done (ok, with_fs w s)
  end.

Definition wkek_read_and_decrypt (w : wkek_ctx) (filename : string) (size : Z)
    : outcome (option (list Z) * wkek_ctx) :=
  let blob_size := size + AES_GCM_OVERHEAD in
  if negb (fs_file_exists (wkek_fs w) filename) then Done (None, w)
  else
    let! '(r, s) := fs_util_read_global (wkek_fs w) filename blob_size in
    let w := with_fs w s in
    match r with
    | None => Done (None, w)
    | Some blob =>
        let! iv := mread blob 0 AES_GCM_IV_LENGTH in
        let! ciphertext := mread blob AES_GCM_IV_LENGTH size in
        let! tag := mread blob (AES_GCM_IV_LENGTH + size) AES_GCM_TAG_LENGTH in
        wkek_decrypt w ciphertext iv tag
    end.

(** ** Round trip *)

Context `{!LittlefsLaws L} `{!SecureElementLaws E}.

(** The RAM copy of the key, once loaded, is the stored one. *)
Definition key_current (w : wkek_ctx) : Prop :=
  wkek_loaded w = true → ∀ d, fs_data (wkek_fs w) WKEK_PATH = Some d → ztake WKEK_SIZE d = wkek_key w.

(** [wkek_lazy_init] leaves the stored key in RAM and every other file as it
    is. *)
Lemma wkek_lazy_init_spec `{!LittlefsStats L} w ok w' : key_current w → wkek_lazy_init w = Done (ok, w') →
  (∀ q, q ≠ WKEK_PATH → fs_data (wkek_fs w') q = fs_data (wkek_fs w) q)
  ∧ (ok = true → ∃ d, fs_data (wkek_fs w') WKEK_PATH = Some d ∧ ztake WKEK_SIZE d = wkek_key w'
       ∧ (∀ d0, fs_data (wkek_fs w) WKEK_PATH = Some d0 → d0 = d)).
Proof.
  intros Hk. unfold wkek_lazy_init. intros ([ok1 w1] & E1 & E2)%obind_inv.
  assert (H1 : (∀ q, q ≠ WKEK_PATH → fs_data (wkek_fs w1) q = fs_data (wkek_fs w) q)
    ∧ (ok1 = true → key_current w1 ∧ is_Some (fs_data (wkek_fs w1) WKEK_PATH)
         ∧ ∀ d0, fs_data (wkek_fs w) WKEK_PATH = Some d0 → fs_data (wkek_fs w1) WKEK_PATH = Some d0)).
  { unfold wkek_exists in E1. destruct (fs_file_exists (wkek_fs w) WKEK_PATH) eqn:Ex.
    - injection E1 as <- <-. apply fs_file_exists_data in Ex. done.
    - unfold wkek_generate_and_store in E1. destruct (generate_key _) as [[k|] e] eqn:Ek.
      + apply obind_inv in E1 as ([ok' s] & Ew & [= <- <-]). simpl.
        destruct (fs_util_write_spec _ _ _ _ _ Ew) as (Hq & Hd & _). split; [done|].
        intros Hok. rewrite (Hd Hok). apply law_key in Ek.
        assert (Hno : fs_data (wkek_fs w) WKEK_PATH = None).
        { destruct (fs_data (wkek_fs w) WKEK_PATH) eqn:Ed; [|done].
          exfalso. apply Bool.not_true_iff_false in Ex. apply Ex, fs_file_exists_spec. eauto. }
        split_and!; [|by eauto|by rewrite Hno]. intros _ d. simpl. rewrite (Hd Hok). intros [= <-].
        unfold overwrite. rewrite ztake_app_exact; done.
      + injection E1 as <- <-. done. }
  destruct H1 as [Hq1 Hs1]. destruct ok1; simpl in E2; [|injection E2 as <- <-; done].
  destruct (Hs1 eq_refl) as (Hk1 & [d Hd] & Hold). apply obind_inv in E2 as ([ok2 w2] & E2 & [= <- <-]).
  unfold wkek_load in E2. destruct (wkek_loaded w1) eqn:Hl.
  - injection E2 as <- <-. split; [done|]. intros _. exists d. split_and!; [done|by apply Hk1|].
    intros d0 Hd0. apply Hold in Hd0. congruence.
  - apply obind_inv in E2 as ([r s] & Er & E2). destruct (fs_util_read_spec _ _ _ _ _ Er) as (Hq & Hr & _).
    destruct r as [k|]; injection E2 as <- <-; simpl.
    + split; [intros; by rewrite Hq, Hq1|]. intros _. destruct (Hr k eq_refl) as (d' & Hd' & -> & _).
      exists d'. split_and!; [by rewrite Hq|done|]. intros d0 Hd0. apply Hold in Hd0. congruence.
    + split; [intros; by rewrite Hq, Hq1|done].
Qed.

(** A secret stored by [wkek_encrypt_and_store] is what
    [wkek_read_and_decrypt] returns when it succeeds, also after a reboot that
    lost the RAM copy of the key, as long as both files are kept. *)
Theorem wkek_roundtrip `{!LittlefsStats L} (w w1 w2 w3 : wkek_ctx) (f : string) (data out : list Z) :
  key_current w → f ≠ WKEK_PATH → 0 < zlen data →
  wkek_encrypt_and_store w f data = Done (true, w1) →
  w2 = mk_wkek [] false (wkek_fs w1) (wkek_se w1) ∨ w2 = w1 →
  wkek_read_and_decrypt w2 f (zlen data) = Done (Some out, w3) →
  out = data.
Proof.
  intros Hk Hf Hlen. unfold wkek_encrypt_and_store. intros ([r wa] & Ea & E1)%obind_inv Hw2 E2.
  destruct r as [[[iv ct] tag]|]; [|done]. apply obind_inv in E1 as ([ok s] & Ew & [= -> <-]).
  unfold wkek_encrypt in Ea. apply obind_inv in Ea as ([ok wb] & Ei & Ea). destruct ok; [|done].
  destruct (wkek_lazy_init_spec _ _ _ Hk Ei) as (_ & Hs). destruct (Hs eq_refl) as (dk & Hdk & Hkey & _).
  simpl in Ea. destruct (crypto_random (wkek_se wb) _) as [[iv0|] e] eqn:Er; [|done].
  destruct (aes_gcm_encrypt _ _ _) as [[ct0 tag0]|] eqn:Eg; [|done]. injection Ea as -> -> -> <-.
  simpl in *. apply law_random in Er. apply law_gcm in Eg as (Hct & Htag & Hdec).
  destruct (fs_util_write_spec _ _ _ _ _ Ew) as (Hq & Hd & _). specialize (Hd eq_refl).
  assert (Hk2 : key_current w2 ∧ fs_data (wkek_fs w2) f = Some (overwrite (fs_data (wkek_fs wb) f) (iv ++ ct ++ tag))
    ∧ fs_data (wkek_fs w2) WKEK_PATH = Some dk).
  { destruct Hw2 as [-> | ->]; simpl; (split_and!; [|done|by rewrite Hq by done]).
    - done.
    - intros _ d. simpl. rewrite Hq, Hdk by done. by intros [= <-]. }
  destruct Hk2 as (Hk2 & Hf2 & Hw2k). clear Hw2. unfold wkek_read_and_decrypt in E2.
  case_match; [done|]. apply obind_inv in E2 as ([r s2] & Erd & E2).
  destruct (fs_util_read_spec _ _ _ _ _ Erd) as (Hq2 & Hr2 & _). destruct r as [blob|]; [|done].
  destruct (Hr2 blob eq_refl) as (d & Hd2 & Hblob & _). rewrite Hf2 in Hd2. injection Hd2 as <-.
  unfold overwrite in Hblob. rewrite ztake_app_exact in Hblob
    by (unfold AES_GCM_OVERHEAD; rewrite !zlen_app; lia). subst blob.
  rewrite (mread_eq _ [] iv (ct ++ tag)) in E2 by done. cbn [obind] in E2.
  rewrite (mread_app iv ct) in E2 by done. cbn [obind] in E2.
  rewrite (mread_eq _ (iv ++ ct) tag []) in E2
    by (rewrite ?app_nil_r, ?zlen_app, <- ?app_assoc; done || lia). cbn [obind] in E2.
  unfold wkek_decrypt in E2. apply obind_inv in E2 as ([ok w4] & Ei2 & E2). destruct ok; [|done].
  destruct (wkek_lazy_init_spec (with_fs w2 s2) true w4) as (_ & Hs2); [|done|].
  { intros Hl d0. simpl. rewrite Hq2. by apply Hk2. }
  destruct (Hs2 eq_refl) as (d' & Hd' & Hkey' & Hsame).
  assert (Hdk' : dk = d') by (apply Hsame; simpl; by rewrite Hq2). subst d'.
  injection E2 as E2 _. rewrite <- Hkey', Hkey, Hdec in E2. by injection E2.
Qed.
(** ** On a healthy medium *)

Context `{!LittlefsReliable L}.

(** What the secret file [f] holds, under the stored key. *)
Definition opened (w : wkek_ctx) (f : string) (size : Z) : option (list Z) :=
  match fs_data (wkek_fs w) WKEK_PATH, fs_data (wkek_fs w) f with
  | Some dk, Some blob =>
      if size + AES_GCM_OVERHEAD <=? zlen blob then
        aes_gcm_decrypt (ztake WKEK_SIZE dk) (ztake size (zdrop AES_GCM_IV_LENGTH blob))
          (ztake AES_GCM_IV_LENGTH blob)
          (ztake AES_GCM_TAG_LENGTH (zdrop (AES_GCM_IV_LENGTH + size) blob))
      else None
  | _, _ => None
  end.

Definition wkek_ok (w : wkek_ctx) : Prop :=
  fs_ready (wkek_fs w) ∧ key_current w
  ∧ ∀ d, fs_data (wkek_fs w) WKEK_PATH = Some d → WKEK_SIZE ≤ zlen d.

Definition has_file (w : wkek_ctx) (f : string) : Prop := is_Some (fs_data (wkek_fs w) f).

Lemma exists_spec w f : fs_file_exists (wkek_fs w) f = true ↔ has_file w f.
Proof. apply fs_file_exists_spec. Qed.

Lemma opened_ext w w' f size :
  fs_data (wkek_fs w') WKEK_PATH = fs_data (wkek_fs w) WKEK_PATH →
  fs_data (wkek_fs w') f = fs_data (wkek_fs w) f → opened w' f size = opened w f size.
Proof. unfold opened. by intros -> ->. Qed.

Lemma opened_files w f size d : opened w f size = Some d → has_file w WKEK_PATH ∧ has_file w f.
Proof.
  unfold opened, has_file. destruct (fs_data _ WKEK_PATH); [|done].
  destruct (fs_data _ f); [|done]. eauto.
Qed.

(** The key is generated once, and then available. *)
Lemma wkek_init_ready w : wkek_ok w →
  safe (λ '(ok, w'), wkek_ok w' ∧ (∀ q, q ≠ WKEK_PATH → fs_data (wkek_fs w') q = fs_data (wkek_fs w) q)
    ∧ (has_file w WKEK_PATH → ok = true ∧ ∀ q, fs_data (wkek_fs w') q = fs_data (wkek_fs w) q)
    ∧ (ok = true → ∃ d, fs_data (wkek_fs w') WKEK_PATH = Some d ∧ ztake WKEK_SIZE d = wkek_key w'))
    (wkek_lazy_init w).
Proof.
  intros (Hs & Hk & Hsz). unfold wkek_lazy_init, wkek_exists.
  assert (Hload : ∀ w1, wkek_ok w1 → has_file w1 WKEK_PATH → ∃ w2, wkek_load w1 = Done (true, w2)
    ∧ wkek_ok w2 ∧ (∀ q, fs_data (wkek_fs w2) q = fs_data (wkek_fs w1) q)
    ∧ ∃ d, fs_data (wkek_fs w2) WKEK_PATH = Some d ∧ ztake WKEK_SIZE d = wkek_key w2).
  { intros w1 (Hs1 & Hk1 & Hsz1) [d Hd]. unfold wkek_load. destruct (wkek_loaded w1) eqn:El.
    - eexists. split; [done|]. split_and!; [done|done|]. exists d. split; [done|]. by apply Hk1.
    - destruct (util_read_ready _ _ _ WKEK_SIZE Hs1 Hd) as (s2 & E2 & Hs2).
      { split; [done|]. by apply Hsz1. }
      rewrite E2. simpl. eexists. split; [done|]. apply fs_util_read_spec in E2 as (Hq & _).
      split_and!; [split_and!|done|].
      + done.
      + intros _ d'. simpl. rewrite Hq, Hd. by intros [= <-].
      + simpl. intros d'. rewrite Hq. apply Hsz1.
      + simpl. exists d. by rewrite Hq. }
  destruct (fs_file_exists _ _) eqn:Ex.
  - apply exists_spec in Ex. cbn [obind negb]. destruct (Hload w) as (w2 & -> & Hok & Hq & Hd); [done|done|].
    simpl. split_and!; [done|intros; apply Hq|done|by intros _].
  - assert (Hno : ¬ has_file w WKEK_PATH) by (rewrite <- exists_spec, Ex; done).
    unfold wkek_generate_and_store. destruct (generate_key _) as [[k|] e] eqn:Ek; simpl.
    + apply law_key in Ek. destruct (util_write_ready _ WKEK_PATH k Hs) as (s1 & E1 & Hs1); [by rewrite Ek|].
      rewrite E1. cbn [obind negb]. apply fs_util_write_spec in E1 as (Hq1 & Hd1 & _).
      specialize (Hd1 eq_refl). unfold overwrite in Hd1.
      destruct (fs_data (wkek_fs w) WKEK_PATH) eqn:E0; [exfalso; apply Hno; unfold has_file; rewrite E0; eauto|].
      simpl in Hd1. replace (zdrop (zlen k) []) with (@nil Z) in Hd1 by (unfold zdrop; by rewrite drop_nil).
      rewrite app_nil_r in Hd1.
      destruct (Hload (mk_wkek k (wkek_loaded w) s1 e)) as (w2 & -> & Hok & Hq & Hd).
      { split_and!; [done| |]; [intros _ d|intros d]; simpl; rewrite Hd1; intros [= <-];
          [by apply ztake_all; lia|lia]. }
      { unfold has_file. simpl. rewrite Hd1. eauto. }
      simpl. split_and!; [done|intros q ?; rewrite Hq; by apply Hq1|done|by intros _].
    + by split_and!.
Qed.

Lemma wkek_read_ready w f size : wkek_ok w → 0 < size → (has_file w f → has_file w WKEK_PATH) →
  safe (λ '(r, w'), wkek_ok w' ∧ (∀ q, fs_data (wkek_fs w') q = fs_data (wkek_fs w) q)
    ∧ r = opened w f size) (wkek_read_and_decrypt w f size).
Proof.
  intros Hok Hsize Hkey. unfold wkek_read_and_decrypt, opened.
  destruct (fs_file_exists _ _) eqn:Ex; cbn [negb]; cycle 1.
  { simpl. split_and!; [done|done|]. destruct (fs_data (wkek_fs w) f) eqn:Ef; [|by case_match].
    assert (has_file w f) as Hf%exists_spec by (unfold has_file; rewrite Ef; eauto). congruence. }
  apply exists_spec in Ex. destruct (Hkey Ex) as [dk Hdk]. destruct Ex as [blob Hblob].
  rewrite Hdk, Hblob. destruct Hok as (Hs & Hk & Hsz).
  assert (Hcut : size + AES_GCM_OVERHEAD = AES_GCM_IV_LENGTH + size + AES_GCM_TAG_LENGTH)
    by (unfold AES_GCM_OVERHEAD; lia).
  assert (0 < AES_GCM_IV_LENGTH ∧ 0 < AES_GCM_TAG_LENGTH) as [Hiv Htag] by done.
  destruct (size + AES_GCM_OVERHEAD <=? zlen blob) eqn:El; btest; cycle 1.
  { destruct (util_read_short _ _ _ _ Hs Hblob El) as (s' & E1 & Hs'). rewrite E1. simpl.
    apply fs_util_read_spec in E1 as (Hq & _). split_and!; [|done|done].
    split_and!; [done|intros Hl d|intros d]; simpl; rewrite Hq; [by apply Hk|apply Hsz]. }
  destruct (util_read_ready _ _ _ (size + AES_GCM_OVERHEAD) Hs Hblob ltac:(lia)) as (s' & E1 & Hs').
  rewrite E1. cbn [obind]. apply fs_util_read_spec in E1 as (Hq & _).
  assert (Hmr : ∀ off n, 0 ≤ off → 0 ≤ n → off + n ≤ size + AES_GCM_OVERHEAD →
    mread (ztake (size + AES_GCM_OVERHEAD) blob) off n = Done (ztake n (zdrop off blob))).
  { intros off n ???. unfold mread. rewrite zlen_ztake by lia. zdecide. cbn [andb]. f_equal.
    unfold ztake, zdrop. rewrite skipn_firstn_comm, take_take. f_equal. lia. }
  rewrite !Hmr by lia. cbn [obind]. unfold wkek_decrypt.
  eapply safe_bind; [apply (wkek_init_ready (with_fs w s'))|].
  { split_and!; [done|intros Hl d|intros d]; simpl; rewrite Hq; [by apply Hk|apply Hsz]. }
  intros [ok w'] (Hok' & _ & Hpres & Hd). destruct Hpres as [-> Hq'].
  { unfold has_file. simpl. rewrite Hq. eauto. }
  simpl. split_and!; [done|intros q; rewrite Hq'; apply Hq|].
  destruct (Hd eq_refl) as (d & Hd1 & <-). rewrite Hq' in Hd1. simpl in Hd1. rewrite Hq, Hdk in Hd1.
  injection Hd1 as <-. by rewrite zdrop_0.
Qed.

Lemma wkek_store_ready w f data : wkek_ok w → f ≠ WKEK_PATH → 0 < zlen data →
  safe (λ '(ok, w'), wkek_ok w'
    ∧ (∀ q, q ≠ f → q ≠ WKEK_PATH → fs_data (wkek_fs w') q = fs_data (wkek_fs w) q)
    ∧ (has_file w WKEK_PATH → fs_data (wkek_fs w') WKEK_PATH = fs_data (wkek_fs w) WKEK_PATH)
    ∧ (ok = true → has_file w' WKEK_PATH ∧ opened w' f (zlen data) = Some data)
    ∧ (ok = false → fs_data (wkek_fs w') f = fs_data (wkek_fs w) f))
    (wkek_encrypt_and_store w f data).
Proof.
  intros Hok Hf Hlen. unfold wkek_encrypt_and_store, wkek_encrypt.
  pose proof (wkek_init_ready w Hok) as Hi. destruct (wkek_lazy_init w) as [[ok w1]| | |]; try done.
  simpl in Hi. destruct Hi as (Hok1 & Hq1 & Hpres & Hd). cbn [obind].
  destruct ok; cbn [negb obind]; cycle 1.
  { simpl. split_and!; [done|intros; by apply Hq1|intros Hw; by apply Hpres|done|intros _; by apply Hq1]. }
  destruct (crypto_random (wkek_se w1) _) as [[iv|] e] eqn:Er; cbn [obind]; cycle 1.
  { simpl. split_and!; [done|intros; by apply Hq1|intros Hw; by apply Hpres|done|intros _; by apply Hq1]. }
  apply law_random in Er. cbn [wkek_key].
  destruct (aes_gcm_encrypt (wkek_key w1) data iv) as [[ct tag]|] eqn:Eg; cbn [obind]; cycle 1.
  { simpl. split_and!; [done|intros; by apply Hq1|intros Hw; by apply Hpres|done|intros _; by apply Hq1]. }
  apply law_gcm in Eg as (Hct & Htag & Hdec). cbn [wkek_fs].
  destruct (util_write_ready (wkek_fs w1) f (iv ++ ct ++ tag)) as (s2 & E2 & Hs2); [apply Hok1|zl|].
  rewrite E2. apply fs_util_write_spec in E2 as (Hq2 & Hd2 & _). specialize (Hd2 eq_refl). simpl.
  destruct (Hd eq_refl) as (d & Hdk & Hkey). destruct Hok1 as (_ & Hk1 & Hsz1). split_and!.
  - split_and!; [done|intros Hl d'|intros d']; simpl; rewrite Hq2 by done; [by apply Hk1|by apply Hsz1].
  - intros q ??. rewrite Hq2 by done. by apply Hq1.
  - intros Hw. rewrite Hq2 by done. by apply Hpres.
  - intros _. split; [unfold has_file; simpl; rewrite Hq2, Hdk by done; eauto|].
    unfold opened. simpl. rewrite Hq2, Hdk, Hd2 by done. unfold overwrite, AES_GCM_OVERHEAD.
    rewrite <- !app_assoc, !zlen_app. rewrite (proj2 (Z.leb_le _ _)) by zl.
    rewrite (zdrop_app_exact iv), (ztake_app_exact iv), (ztake_app_exact ct) by lia.
    rewrite (app_assoc iv ct), (zdrop_app_exact (iv ++ ct)), (ztake_app_exact tag) by (rewrite ?zlen_app; lia).
    by rewrite Hkey.
  - done.
Qed.
End Wkek.
Arguments wkek_ctx : clear implicits.

(** ** A toy secure element *)

(** A key of equal bytes and a cipher that adds that byte to every byte. *)
#[global] Instance toy_se : SecureElement Z := {
  generate_key e := (Some (replicate 60 e), e + 1);
  crypto_random e n := (if 0 <=? n then Some (replicate (Z.to_nat n) e) else None, e + 1);
  aes_gcm_encrypt key pt iv :=
    Some (map (Z.add (default 0 (head key))) pt, replicate 16 (default 0 (head iv)));
  aes_gcm_decrypt key ct iv tag := Some (map (λ x, x - default 0 (head key)) ct);
}.

#[global] Instance toy_se_laws : SecureElementLaws Z.
Proof.
  split; simpl.
  - intros e k e' [= <- _]. done.
  - intros e n bs e'. case_match; [|done]. intros [= <- _]. btest. rewrite zlen_replicate. lia.
  - intros key pt iv ct tag [= <- <-]. unfold zlen. rewrite length_map. split_and!; [done|done|].
    f_equal. rewrite map_map. rewrite <- (map_id pt) at 2. apply map_ext. intros. lia.
Qed.

Lemma wkek_roundtrip_witness :
  ∃ w1 w3, wkek_encrypt_and_store (mk_wkek [] false ram_boot 3) "x.bin" [1; 2; 3] = Done (true, w1)
    ∧ wkek_read_and_decrypt (mk_wkek [] false (wkek_fs w1) (wkek_se w1)) "x.bin" 3
        = Done (Some [1; 2; 3], w3) ∧ [1; 2; 3] = [1; 2; 3].
Proof.
  eexists _, _. split; [vm_compute; reflexivity|]. split; [vm_compute; reflexivity|].
  eapply (wkek_roundtrip (L := ram_fs) (E := Z) (mk_wkek [] false ram_boot 3) _ _ _ "x.bin" [1; 2; 3]).
  - intros ?. discriminate.
  - discriminate.
  - reflexivity.
  - vm_compute. reflexivity.
  - left. reflexivity.
  - vm_compute. reflexivity.
Defined.
