(* ===== verification/Kv.v ===== *)
(** * The key-value store (lib/kv)

    kv.c: fixed-size records of a key, a length byte and a value in one
    buffer, mirrored in a file. The records are modelled byte by byte. The
    lock callbacks are those of a mutex and always return. *)

From S2P Require Import Prelude Fs.
#[global] Open Scope Z_scope.

Inductive kv_result_t :=
| KV_ERR_NONE | KV_ERR_NOT_FOUND | KV_ERR_INVALID | KV_ERR_IO | KV_ERR_APPEND | KV_ERR_TRUNCATED.
#[global] Instance kv_result_eq_dec : EqDecision kv_result_t.
Proof. solve_decision. Defined.

Definition KV_MAX_KEY_LEN : Z := 11.
Definition KV_MAX_VALUE_LEN : Z := 52.
Definition KV_MAX_FILE_SIZE : Z := 4096.
Definition KVSTORE_FILE_NAME : string := "kvstore.bin".

(** [sizeof(tlv_t)] and the offsets of its fields. *)
Definition KV_TLV_SIZE : Z := 64.
Definition KV_TLV_LEN : Z := 11.
Definition KV_TLV_VALUE : Z := 12.

(** ** C strings

    A key is the list of its characters, without the terminator. *)

Definition strnlen (s : list Z) (maxlen : Z) : Z := Z.min (zlen s) maxlen.

(** [strncpy(dst, s, n)]: the [n] bytes written. *)
Definition strncpy (s : list Z) (n : nat) : list Z := take n (s ++ replicate n 0).

(** [strncmp(a, s, n) == 0] for a buffer [a] of at least [n] bytes. *)
Fixpoint strncmp_eq (a s : list Z) (n : nat) : bool :=
  match n, a with
  | O, _ => true
  | S n, c :: a =>
      match s with
      | [] => c =? 0
      | d :: s => (c =? d) && ((c =? 0) || strncmp_eq a s n)
      end
  | S _, [] => false
  end.

(** [ctx.buf] as [memset] leaves it. *)
Definition kv_zeros : list Z := replicate (Z.to_nat KV_MAX_FILE_SIZE) 0.
Arguments kv_zeros : simpl never.

Lemma zlen_kv_zeros : zlen kv_zeros = KV_MAX_FILE_SIZE.
Proof. unfold kv_zeros. by rewrite zlen_replicate. Qed.

Section Kv.
Context {L : Type} `{Littlefs L}.

(** [ctx]; [kv_ready] tells whether the lock callbacks are set. *)
Record kv_ctx := mk_kv {
  kv_buf : list Z;
  kv_len : Z;
  kv_ready : bool;
  kv_fs : fs_ctx L;
}.

Definition kv_boot (s : fs_ctx L) : kv_ctx := mk_kv kv_zeros 0 false s.

Definition set_kv_fs (c : kv_ctx) (s : fs_ctx L) : kv_ctx := mk_kv (kv_buf c) (kv_len c) (kv_ready c) s.

Definition create_if_not_exist (s : fs_ctx L) : bool * fs_ctx L :=
  if negb (fs_file_exists s KVSTORE_FILE_NAME) then
    let '(ret, s) := fs_touch s KVSTORE_FILE_NAME in (ret =? 0, s)
  else (true, s).

(** A read that fails may have put bytes into [buf]; they lie behind [len],
    where nothing looks at them, and are not modelled. *)
Definition read_from_fs (c : kv_ctx) : outcome (bool * kv_ctx) :=
  let '(_, s) := create_if_not_exist (kv_fs c) in
  let '(r, s) := fs_util_read_all_global s KVSTORE_FILE_NAME (zlen (kv_buf c)) in
  match r with
  | None => Done (false, set_kv_fs c s)
  | Some data =>
      let! buf := mwrite (kv_buf c) 0 data in
      if KV_MAX_FILE_SIZE <? zlen data then Done (false, mk_kv buf (kv_len c) (kv_ready c) s)
      else Done (true, mk_kv buf (zlen data) (kv_ready c) s)
  end.

Definition write_to_fs (c : kv_ctx) : outcome (bool * kv_ctx) :=
  let '(_, s) := create_if_not_exist (kv_fs c) in
  let! data := mread (kv_buf c) 0 (kv_len c) in
  let! '(ok, s) := fs_util_write_global s KVSTORE_FILE_NAME data in
  Done (ok, set_kv_fs c s).

(** The offset of the first record with the key. *)
Fixpoint locate_loop (n : nat) (c : kv_ctx) (key : list Z) (off : Z) : outcome (option Z) :=
  match n with
  | O => Nofuel
  | S n =>
      if off <? kv_len c then
        let! tag := mread (kv_buf c) off KV_MAX_KEY_LEN in
        if strncmp_eq tag key (Z.to_nat KV_MAX_KEY_LEN) then Done (Some off)
        else locate_loop n c key (off + KV_TLV_SIZE)
      else Done None
  end.

(** 64 records fit into the buffer; one more turn ends the loop. *)
Definition locate (c : kv_ctx) (key : list Z) : outcome (option Z) := locate_loop 65 c key 0.

Definition set_value (c : kv_ctx) (off : Z) (value : list Z) : outcome kv_ctx :=
  let! buf := aset (kv_buf c) (off + KV_TLV_LEN) (zlen value) in
  let! buf := mwrite buf (off + KV_TLV_VALUE) value in
  Done (mk_kv buf (kv_len c) (kv_ready c) (kv_fs c)).

Definition append (c : kv_ctx) (key value : list Z) : outcome (bool * kv_ctx) :=
  if KV_MAX_FILE_SIZE <? kv_len c + KV_TLV_SIZE then Done (false, c)
  else if KV_MAX_VALUE_LEN <? zlen value then Done (false, c)
  else
    let! buf := mwrite (kv_buf c) (kv_len c) (strncpy key (Z.to_nat KV_MAX_KEY_LEN)) in
    let! c' := set_value (mk_kv buf (kv_len c) (kv_ready c) (kv_fs c)) (kv_len c) value in
    Done (true, mk_kv (kv_buf c') (kv_len c + KV_TLV_SIZE) (kv_ready c) (kv_fs c)).

Definition kv_init (c : kv_ctx) (api : bool) : outcome (kv_result_t * kv_ctx) :=
  if negb api then Done (KV_ERR_INVALID, c)
  else
    let c := mk_kv (kv_buf c) (kv_len c) true (kv_fs c) in
    let! '(ok, c) := read_from_fs c in
    Done (if negb ok then KV_ERR_IO else KV_ERR_NONE, c).

(** [value_len] is the length of the value. *)
Definition kv_set (c : kv_ctx) (key value : list Z) : outcome (kv_result_t * kv_ctx) :=
  if (zlen value =? 0) || (KV_MAX_VALUE_LEN <? zlen value) then Done (KV_ERR_INVALID, c)
  else if negb (kv_ready c) then Undef
  else if strnlen key KV_MAX_KEY_LEN =? KV_MAX_KEY_LEN then Done (KV_ERR_INVALID, c)
  else
    let! tlv := locate c key in
    let! '(ok, c) :=
      match tlv with
      | Some off => let! c := set_value c off value in Done (true, c)
      | None => append c key value
      end in
    if negb ok then Done (KV_ERR_APPEND, c)
    else
      let! '(ok, c) := write_to_fs c in
      Done (if negb ok then KV_ERR_IO else KV_ERR_NONE, c).

(** The bytes copied to [value] and what [*value_len] is set to. *)
Definition kv_get (c : kv_ctx) (key : list Z) (value_len : Z)
    : outcome (kv_result_t * list Z * Z) :=
  if KV_MAX_VALUE_LEN <? value_len then Done (KV_ERR_INVALID, [], value_len)
  else if negb (kv_ready c) then Undef
  else if strnlen key KV_MAX_KEY_LEN =? KV_MAX_KEY_LEN then Done (KV_ERR_INVALID, [], value_len)
  else
    let! tlv := locate c key in
    match tlv with
    | None => Done (KV_ERR_NOT_FOUND, [], value_len)
    | Some off =>
        let! len := aget (kv_buf c) (off + KV_TLV_LEN) in
        if KV_MAX_VALUE_LEN <? len then Done (KV_ERR_INVALID, [], value_len)
        else if value_len <? len then
          let! bs := mread (kv_buf c) (off + KV_TLV_VALUE) value_len in
          Done (KV_ERR_TRUNCATED, bs, value_len)
        else
          let! bs := mread (kv_buf c) (off + KV_TLV_VALUE) len in
          Done (KV_ERR_NONE, bs, len)
    end.

Definition kv_wipe_state (c : kv_ctx) : kv_result_t * kv_ctx :=
  let '(ret, s) := fs_remove (kv_fs c) KVSTORE_FILE_NAME in
  if negb (ret =? 0) then (KV_ERR_IO, set_kv_fs c s)
  else (KV_ERR_NONE, mk_kv kv_zeros 0 (kv_ready c) s).

(** ** Records *)

(** A usable key: it fits with its terminator and has no NUL inside. *)
Definition key_ok (key : list Z) : Prop := zlen key < KV_MAX_KEY_LEN ∧ Forall (λ c, c ≠ 0) key.

Definition rec_tag (r : list Z) : list Z := ztake 11 r.
Definition rec_matches (r key : list Z) : bool := strncmp_eq (rec_tag r) key 11.

Fixpoint find_rec (rs : list (list Z)) (key : list Z) (i : nat) : option nat :=
  match rs with
  | [] => None
  | r :: rs => if rec_matches r key then Some i else find_rec rs key (S i)
  end.

(** What [kv_get] reads from a record. *)
Definition rec_get (r : list Z) (cap : Z) : kv_result_t * list Z * Z :=
  let len := nth 11 r 0 in
  if KV_MAX_VALUE_LEN <? len then (KV_ERR_INVALID, [], cap)
  else if cap <? len then (KV_ERR_TRUNCATED, ztake cap (zdrop 12 r), cap)
  else (KV_ERR_NONE, ztake len (zdrop 12 r), len).

(** A record with a new value; the bytes behind the value stay. *)
Definition rec_set (tag r value : list Z) : list Z :=
  tag ++ [zlen value] ++ value ++ zdrop (12 + zlen value) r.

(** The buffer is the records [rs] and the unused rest. *)
Record records (c : kv_ctx) (rs : list (list Z)) (rest : list Z) : Prop := {
  rec_buf : kv_buf c = concat rs ++ rest;
  rec_sizes : Forall (λ r, zlen r = KV_TLV_SIZE) rs;
  rec_lens : Forall (λ r, 0 ≤ nth 11 r 0) rs;
  rec_len : kv_len c = KV_TLV_SIZE * zlen rs;
  rec_total : zlen (kv_buf c) = KV_MAX_FILE_SIZE;
}.

Definition kv_ok (c : kv_ctx) : Prop := kv_ready c = true ∧ ∃ rs rest, records c rs rest.

Lemma zlen_concat rs : Forall (λ r : list Z, zlen r = KV_TLV_SIZE) rs →
  zlen (concat rs) = KV_TLV_SIZE * zlen rs.
Proof.
  induction 1 as [|r rs Hr _ IH]; [done|]. simpl. rewrite zlen_app, zlen_cons, IH, Hr. lia.
Qed.

(** A buffer whose used part is a multiple of the record size. *)
Lemma records_chunks n : ∀ buf : list Z, KV_TLV_SIZE * Z.of_nat n ≤ zlen buf →
  ∃ rs rest, buf = concat rs ++ rest ∧ Forall (λ r, zlen r = KV_TLV_SIZE) rs ∧ length rs = n.
Proof.
  unfold KV_TLV_SIZE. induction n as [|n IH]; intros buf Hl; [by exists [], buf|].
  destruct (IH (zdrop 64 buf)) as (rs & rest & Hd & Hf & Hn); [rewrite zlen_zdrop; lia|].
  exists (ztake 64 buf :: rs), rest. simpl. rewrite <- app_assoc, <- Hd, ztake_zdrop, Hn.
  split_and!; [done| |done]. constructor; [|done]. rewrite zlen_ztake; lia.
Qed.

(** ** Strings *)

Lemma strncmp_padded key : ∀ key' n m tl, (length key < n)%nat → (length key' < n)%nat →
  Forall (λ c, c ≠ 0) key → Forall (λ c, c ≠ 0) key' →
  strncmp_eq (key ++ replicate (S m) 0 ++ tl) key' n = bool_decide (key = key').
Proof.
  induction key as [|c key IH]; intros key' [|n] m tl Hl Hl' Hk Hk'; simpl in *; try lia.
  - destruct key' as [|d key']; [done|]. apply Forall_cons in Hk' as [Hd _].
    rewrite bool_decide_eq_false_2 by done. by destruct d.
  - apply Forall_cons in Hk as [Hc Hk]. rewrite (proj2 (Z.eqb_neq c 0)) by done.
    destruct key' as [|d key']; [by rewrite bool_decide_eq_false_2|].
    apply Forall_cons in Hk' as [Hd Hk']. simpl in Hl'. destruct (Z.eqb_spec c d) as [->|Hne]; simpl.
    + rewrite IH by (done || lia). apply bool_decide_ext. split; [congruence|by intros [=]].
    + rewrite bool_decide_eq_false_2; [done|congruence].
Qed.

(** A tag matches at most one key. *)
Lemma strncmp_unique n : ∀ t k1 k2, (length k1 < n)%nat → (length k2 < n)%nat →
  Forall (λ c, c ≠ 0) k1 → Forall (λ c, c ≠ 0) k2 →
  strncmp_eq t k1 n = true → strncmp_eq t k2 n = true → k1 = k2.
Proof.
  induction n as [|n IH]; intros [|c t] k1 k2 L1 L2 Z1 Z2 E1 E2; simpl in *; try done; try lia.
  destruct k1 as [|d1 k1], k2 as [|d2 k2]; simpl in *; btest; try done.
  - apply Forall_cons in Z2 as [? _]. congruence.
  - apply Forall_cons in Z1 as [? _]. congruence.
  - apply Forall_cons in Z1 as [? Z1]. apply Forall_cons in Z2 as [? Z2]. subst d1 d2.
    rewrite (proj2 (Z.eqb_neq c 0)) in * by done. simpl in *. f_equal. apply (IH t); (done || lia).
Qed.

Lemma rec_matches_unique r k1 k2 : key_ok k1 → key_ok k2 →
  rec_matches r k1 = true → rec_matches r k2 = true → k1 = k2.
Proof.
  intros [L1 Z1] [L2 Z2]. unfold KV_MAX_KEY_LEN, zlen in *. apply strncmp_unique; (done || lia).
Qed.

Lemma strncpy_tag key : key_ok key →
  strncpy key 11 = key ++ replicate (11 - length key) 0 ∧ zlen (strncpy key 11) = 11.
Proof.
  intros [Hl _]. unfold KV_MAX_KEY_LEN, zlen, strncpy in *.
  assert (E : take 11 (key ++ replicate 11 0) = key ++ replicate (11 - length key) 0).
  { rewrite take_app, take_ge by lia. f_equal. rewrite take_replicate. f_equal. lia. }
  rewrite E. split; [done|]. rewrite length_app, length_replicate. lia.
Qed.

Lemma rec_set_matches r v key : zlen r = KV_TLV_SIZE →
  rec_matches (rec_set (rec_tag r) r v) key = rec_matches r key.
Proof.
  intros Hr. unfold rec_matches, rec_tag, rec_set, KV_TLV_SIZE in *.
  by rewrite ztake_app_exact by (rewrite zlen_ztake; lia).
Qed.

Lemma rec_new_matches key r v key' : key_ok key → key_ok key' →
  rec_matches (rec_set (strncpy key 11) r v) key' = bool_decide (key' = key).
Proof.
  intros Hk Hk'. destruct (strncpy_tag key Hk) as [E Hl]. unfold rec_matches, rec_tag, rec_set.
  rewrite ztake_app_exact by done. rewrite E. destruct Hk as [Hlk Zk], Hk' as [Hlk' Zk'].
  unfold KV_MAX_KEY_LEN, zlen in *. destruct (11 - length key)%nat as [|m] eqn:Em; [lia|].
  rewrite <- (app_nil_r (replicate (S m) 0)).
  rewrite strncmp_padded by (done || lia). apply bool_decide_ext. done.
Qed.

(** ** The operations on records *)

Lemma find_rec_shift rs key i : find_rec rs key i = option_map (Nat.add i) (find_rec rs key 0).
Proof.
  revert i. induction rs as [|r rs IH]; intros i; simpl; [done|]. case_match; [simpl; f_equal; lia|].
  rewrite IH, (IH 1%nat). destruct (find_rec rs key 0); simpl; [|done]. f_equal. lia.
Qed.

Lemma find_rec_Some rs key i : find_rec rs key 0 = Some i →
  ∃ r, rs !! i = Some r ∧ rec_matches r key = true.
Proof.
  revert i. induction rs as [|r rs IH]; intros i; simpl; [done|]. case_match; [intros [= <-]; by exists r|].
  rewrite find_rec_shift. destruct (find_rec rs key 0); simpl; [|done]. intros [= <-]. by apply IH.
Qed.

Lemma find_rec_snoc rs r key : find_rec (rs ++ [r]) key 0 =
  match find_rec rs key 0 with
  | Some i => Some i
  | None => if rec_matches r key then Some (length rs) else None
  end.
Proof.
  induction rs as [|r0 rs IH]; simpl; [done|]. destruct (rec_matches r0 key); [done|].
  rewrite !(find_rec_shift _ _ 1), IH. by destruct (find_rec rs key 0); simpl; [|case_match].
Qed.

Lemma find_rec_update rs i r r' key : rs !! i = Some r → rec_matches r' key = rec_matches r key →
  find_rec (<[i := r']> rs) key 0 = find_rec rs key 0.
Proof.
  revert i. induction rs as [|r0 rs IH]; intros [|i] Hi Hm; simpl in *; try done.
  - injection Hi as ->. by rewrite Hm.
  - destruct (rec_matches r0 key); [done|]. rewrite !(find_rec_shift _ _ 1). by rewrite (IH i).
Qed.

(** The bytes of a record in the buffer. *)
Lemma records_split c rs rest i r : records c rs rest → rs !! i = Some r →
  ∃ pre post, kv_buf c = pre ++ r ++ post ∧ zlen pre = KV_TLV_SIZE * Z.of_nat i
    ∧ pre = concat (take i rs) ∧ post = concat (drop (S i) rs) ++ rest ∧ zlen r = KV_TLV_SIZE.
Proof.
  intros [Hb Hf _ _ _] Hi. exists (concat (take i rs)), (concat (drop (S i) rs) ++ rest).
  pose proof (proj1 (Forall_lookup _ _) Hf _ _ Hi) as Hr. pose proof (lookup_lt_Some _ _ _ Hi).
  split_and!; [| |done|done|done].
  - rewrite Hb, <- (take_drop_middle rs i r Hi) at 1. by rewrite concat_app, <- app_assoc; simpl; rewrite <- app_assoc.
  - rewrite zlen_concat by by apply Forall_take. unfold zlen. rewrite length_take. lia.
Qed.

Lemma locate_loop_spec c rs rest key : records c rs rest → ∀ todo past n,
  rs = past ++ todo → (length todo < n)%nat →
  locate_loop n c key (KV_TLV_SIZE * zlen past)
  = Done (option_map (λ i, KV_TLV_SIZE * Z.of_nat i) (find_rec todo key (length past))).
Proof.
  intros Hr. induction todo as [|r todo IH]; intros past [|n] Hrs Hn; simpl in Hn; try lia.
  - rewrite app_nil_r in Hrs. subst rs. simpl. rewrite (rec_len _ _ _ Hr), Z.ltb_irrefl. done.
  - cbn [locate_loop]. rewrite (rec_len _ _ _ Hr), Hrs. unfold KV_TLV_SIZE.
    rewrite (proj2 (Z.ltb_lt _ _)) by zl.
    destruct (records_split c rs rest (length past) r Hr) as (pre & post & Hb & Hp & _ & _ & Hl).
    { rewrite Hrs. by apply list_lookup_middle. }
    unfold KV_TLV_SIZE in *. rewrite (mread_eq _ pre (rec_tag r) (zdrop 11 r ++ post)).
    + cbn [obind]. change (strncmp_eq _ _ _) with (rec_matches r key). simpl. case_match; [done|].
      replace (64 * zlen past + 64) with (64 * zlen (past ++ [r])) by zl.
      rewrite (IH (past ++ [r]) n); [|by rewrite <- app_assoc|lia]. by rewrite length_app, Nat.add_1_r.
    + rewrite Hb. f_equal. rewrite app_assoc. unfold rec_tag. by rewrite ztake_zdrop.
    + rewrite Hp. done.
    + unfold rec_tag, KV_MAX_KEY_LEN. rewrite zlen_ztake; lia.
Qed.

Lemma records_count c rs rest : records c rs rest → (length rs ≤ 64)%nat.
Proof.
  intros [Hb Hf _ _ Ht]. rewrite Hb, zlen_app, zlen_concat in Ht by done.
  pose proof (zlen_nonneg rest). unfold KV_TLV_SIZE, KV_MAX_FILE_SIZE, zlen in *. lia.
Qed.

Lemma locate_spec c rs rest key : records c rs rest →
  locate c key = Done (option_map (λ i, KV_TLV_SIZE * Z.of_nat i) (find_rec rs key 0)).
Proof.
  intros Hr. pose proof (records_count _ _ _ Hr). unfold locate.
  apply (locate_loop_spec c rs rest key Hr rs [] 65); [done|lia].
Qed.

Lemma key_ok_strnlen key : key_ok key → (strnlen key KV_MAX_KEY_LEN =? KV_MAX_KEY_LEN) = false.
Proof. intros [Hl _]. unfold strnlen. apply Z.eqb_neq. lia. Qed.

(** [kv_get] reads the first record with the key. *)
Lemma kv_get_spec c rs rest key cap : kv_ready c = true → records c rs rest → key_ok key →
  0 ≤ cap ≤ KV_MAX_VALUE_LEN →
  kv_get c key cap = Done (match find_rec rs key 0 with
                           | None => (KV_ERR_NOT_FOUND, [], cap)
                           | Some i => rec_get (nth i rs []) cap
                           end).
Proof.
  intros Hready Hr Hk Hcap. pose proof (rec_lens _ _ _ Hr) as Hpos. unfold kv_get. rewrite (proj2 (Z.ltb_ge _ _)) by lia.
  rewrite Hready, key_ok_strnlen, (locate_spec _ _ _ _ Hr) by done. cbn [negb obind].
  destruct (find_rec rs key 0) as [i|] eqn:Ef; [|done]. cbn [option_map].
  destruct (find_rec_Some _ _ _ Ef) as (r & Hi & _). rewrite (nth_lookup_Some _ _ _ _ Hi).
  destruct (records_split _ _ _ _ _ Hr Hi) as (pre & post & Hb & Hp & _ & _ & Hl).
  pose proof (proj1 (Forall_lookup _ _) Hpos _ _ Hi) as Hn.
  unfold rec_get, KV_TLV_SIZE, KV_TLV_LEN, KV_TLV_VALUE, KV_MAX_VALUE_LEN in *.
  destruct (lookup_lt_is_Some_2 r 11) as [len Hlen]; [unfold zlen in *; lia|].
  rewrite (nth_lookup_Some _ _ _ _ Hlen) in *.
  rewrite (aget_Some _ _ len); [|lia|].
  2: { rewrite Hb, lookup_app_r by (unfold zlen in *; lia). rewrite lookup_app_l by (unfold zlen in *; lia).
       rewrite <- Hlen. f_equal. unfold zlen in *. lia. }
  cbn [obind]. destruct (52 <? len) eqn:E52; [done|]. btest.
  assert (Hread : ∀ m, 0 ≤ m ≤ 52 → mread (kv_buf c) (64 * Z.of_nat i + 12) m = Done (ztake m (zdrop 12 r))).
  { intros m Hm. apply (mread_eq _ (pre ++ ztake 12 r) _ (zdrop m (zdrop 12 r) ++ post)).
    - rewrite Hb, <- app_assoc. f_equal. rewrite (app_assoc (ztake m _)), ztake_zdrop, app_assoc, ztake_zdrop. done.
    - rewrite zlen_app, zlen_ztake; lia.
    - rewrite zlen_ztake; [done|]. rewrite zlen_zdrop; lia. }
  destruct (cap <? len) eqn:Ec; btest; rewrite Hread by lia; done.
Qed.

Lemma zlen_rec_set tag r v : zlen tag = 11 → zlen r = KV_TLV_SIZE → zlen v ≤ KV_MAX_VALUE_LEN →
  zlen (rec_set tag r v) = KV_TLV_SIZE.
Proof.
  intros Ht Hr Hv. unfold rec_set, KV_TLV_SIZE, KV_MAX_VALUE_LEN in *. pose proof (zlen_nonneg v).
  rewrite !zlen_app, zlen_cons, zlen_nil, zlen_zdrop; lia.
Qed.

(** A record returns the value it was set to. *)
Lemma rec_get_set tag r v cap : zlen tag = 11 → zlen v ≤ KV_MAX_VALUE_LEN →
  rec_get (rec_set tag r v) cap =
  if cap <? zlen v then (KV_ERR_TRUNCATED, ztake cap v, cap) else (KV_ERR_NONE, v, zlen v).
Proof.
  intros Ht Hv. unfold rec_get, rec_set.
  assert (E : nth 11 (tag ++ [zlen v] ++ v ++ zdrop (12 + zlen v) r) 0 = zlen v).
  { rewrite app_nth2; unfold zlen in *; [|lia]. by replace (11 - length tag)%nat with 0%nat by lia. }
  rewrite E, (proj2 (Z.ltb_ge _ _)) by lia.
  replace (zdrop 12 (tag ++ [zlen v] ++ v ++ zdrop (12 + zlen v) r)) with (v ++ zdrop (12 + zlen v) r).
  - destruct (cap <? zlen v) eqn:Ec; btest; [rewrite ztake_app_le by lia; done|by rewrite ztake_app_exact].
  - rewrite (app_assoc tag). symmetry. apply zdrop_app_exact. zl.
Qed.

Lemma rec_set_len tag r v : zlen tag = 11 → 0 ≤ nth 11 (rec_set tag r v) 0.
Proof.
  intros Ht. unfold rec_set. rewrite app_nth2; unfold zlen in *; [|lia].
  replace (11 - length tag)%nat with 0%nat by lia. simpl. lia.
Qed.

Lemma set_value_spec c pre r post off v : kv_buf c = pre ++ r ++ post → zlen r = KV_TLV_SIZE →
  off = zlen pre → zlen v ≤ KV_MAX_VALUE_LEN →
  set_value c off v
  = Done (mk_kv (pre ++ rec_set (rec_tag r) r v ++ post) (kv_len c) (kv_ready c) (kv_fs c)).
Proof.
  intros Hb Hr -> Hv. unfold set_value, KV_TLV_LEN, KV_TLV_VALUE, KV_TLV_SIZE, KV_MAX_VALUE_LEN in *.
  pose proof (zlen_nonneg pre). pose proof (zlen_nonneg post). pose proof (zlen_nonneg v).
  assert (Htag : zlen (ztake 11 r) = 11) by (rewrite zlen_ztake; lia).
  assert (H12 : zlen (zdrop 11 r) = 53) by (rewrite zlen_zdrop; lia).
  destruct (zdrop 11 r) as [|x r12] eqn:E11; [done|]. rewrite zlen_cons in H12.
  assert (Hr12 : zdrop 12 r = r12).
  { replace 12 with (11 + 1) by lia. rewrite <- zdrop_zdrop, E11 by lia. done. }
  rewrite aset_done by (rewrite Hb; zl). cbn [obind].
  assert (E1 : <[Z.to_nat (zlen pre + 11) := zlen v]> (kv_buf c)
    = (pre ++ ztake 11 r ++ [zlen v]) ++ r12 ++ post).
  { rewrite Hb, <- (ztake_zdrop 11 r), E11 at 1. rewrite <- !app_assoc, app_assoc. unfold zlen in *.
    rewrite insert_app_r_alt by (rewrite length_app; lia). rewrite length_app.
    replace (Z.to_nat _ - _)%nat with 0%nat by lia. by rewrite <- !app_assoc. }
  rewrite E1, (mwrite_eq _ (pre ++ ztake 11 r ++ [zlen v]) (ztake (zlen v) r12) v (zdrop (zlen v) r12 ++ post)).
  - cbn [obind]. f_equal. f_equal. unfold rec_set, rec_tag.
    rewrite <- (zdrop_zdrop r (zlen v) 12), Hr12 by lia. by rewrite <- !app_assoc.
  - by rewrite (app_assoc (ztake _ r12)), ztake_zdrop.
  - rewrite !zlen_app, zlen_cons, zlen_nil. lia.
  - rewrite zlen_ztake; lia.
Qed.

(** The records after a successful update. *)
Definition kv_put (rs : list (list Z)) (rest key v : list Z) : list (list Z) :=
  match find_rec rs key 0 with
  | Some i => <[i := rec_set (rec_tag (nth i rs [])) (nth i rs []) v]> rs
  | None => rs ++ [rec_set (strncpy key 11) (ztake 64 rest) v]
  end.

Lemma records_update c rs rest i r v : records c rs rest → rs !! i = Some r →
  zlen v ≤ KV_MAX_VALUE_LEN →
  ∃ c', set_value c (KV_TLV_SIZE * Z.of_nat i) v = Done c'
    ∧ records c' (<[i := rec_set (rec_tag r) r v]> rs) rest
    ∧ kv_ready c' = kv_ready c ∧ kv_fs c' = kv_fs c.
Proof.
  intros Hr Hi Hv. destruct (records_split _ _ _ _ _ Hr Hi) as (pre & post & Hb & Hp & -> & -> & Hl).
  assert (Htag : zlen (rec_tag r) = 11) by (unfold rec_tag, KV_TLV_SIZE in *; rewrite zlen_ztake; lia).
  pose proof (lookup_lt_Some _ _ _ Hi) as Hlt.
  eexists. split; [by apply (set_value_spec _ _ r _ _ _ Hb)|]. split; [|done].
  pose proof (zlen_rec_set (rec_tag r) r v Htag Hl Hv) as Hnew. destruct Hr as [Hbuf Hf Hlens Hlen Ht].
  assert (E : concat (take i rs) ++ rec_set (rec_tag r) r v ++ concat (drop (S i) rs) ++ rest
    = concat (<[i := rec_set (rec_tag r) r v]> rs) ++ rest).
  { rewrite insert_take_drop, concat_app by done. simpl. by rewrite <- !app_assoc. }
  split; simpl.
  - done.
  - by apply Forall_insert.
  - apply Forall_insert; [done|by apply rec_set_len].
  - by rewrite Hlen, zlen_insert.
  - rewrite E, <- Ht, Hbuf, !zlen_app, !zlen_concat, zlen_insert by (done || by apply Forall_insert). done.
Qed.

Lemma records_append c rs rest key v ok c' : records c rs rest → key_ok key →
  zlen v ≤ KV_MAX_VALUE_LEN → append c key v = Done (ok, c') → ok = true →
  records c' (rs ++ [rec_set (strncpy key 11) (ztake 64 rest) v]) (zdrop 64 rest)
  ∧ kv_ready c' = kv_ready c ∧ kv_fs c' = kv_fs c.
Proof.
  intros Hr Hk Hv E ->. unfold append in E. destruct (KV_MAX_FILE_SIZE <? _) eqn:Efull; [done|].
  destruct (KV_MAX_VALUE_LEN <? zlen v) eqn:Ev; [done|]. btest.
  destruct Hr as [Hbuf Hf Hlens Hlen Ht]. destruct (strncpy_tag key Hk) as [_ Htag].
  assert (Hrest : 64 ≤ zlen rest).
  { rewrite Hbuf, zlen_app, zlen_concat in Ht by done. unfold KV_TLV_SIZE in *. lia. }
  assert (Hsplit : kv_buf c = concat rs ++ ztake 11 rest ++ zdrop 11 rest) by by rewrite ztake_zdrop.
  assert (Hcl : kv_len c = zlen (concat rs)) by by rewrite zlen_concat.
  change (Z.to_nat KV_MAX_KEY_LEN) with 11%nat in E.
  rewrite (mwrite_eq _ _ _ (strncpy key 11) _ _ Hsplit Hcl) in E by (rewrite Htag, zlen_ztake; lia).
  cbn [obind] in E. apply obind_inv in E as (c1 & E1 & [= <-]).
  set (r0 := strncpy key 11 ++ ztake 53 (zdrop 11 rest)).
  assert (Hr0 : zlen r0 = KV_TLV_SIZE).
  { subst r0. rewrite zlen_app, Htag, zlen_ztake by (rewrite zlen_zdrop; lia). done. }
  rewrite (set_value_spec _ (concat rs) r0 (zdrop 53 (zdrop 11 rest))) in E1; [|simpl| done|done|done].
  2: { subst r0. by rewrite <- app_assoc, ztake_zdrop. }
  injection E1 as <-. simpl. split; [|done].
  assert (Enew : rec_set (rec_tag r0) r0 v = rec_set (strncpy key 11) (ztake 64 rest) v).
  { unfold rec_set, rec_tag. subst r0. rewrite ztake_app_exact by done. do 3 f_equal.
    unfold zdrop, ztake, zlen in *. rewrite drop_app_ge by lia. rewrite !skipn_firstn_comm, !drop_drop.
    f_equal; [lia|]. f_equal. lia. }
  rewrite Enew. set (r1 := rec_set _ _ _).
  assert (Hr1 : zlen r1 = KV_TLV_SIZE) by (apply zlen_rec_set; [done| |done]; unfold KV_TLV_SIZE; rewrite zlen_ztake; lia).
  rewrite zdrop_zdrop by lia. change (11 + 53) with 64.
  split; simpl.
  - by rewrite concat_app; simpl; rewrite app_nil_r, <- app_assoc.
  - apply Forall_app. by split; [|constructor].
  - apply Forall_app. split; [done|]. constructor; [by apply rec_set_len|constructor].
  - rewrite Hlen, zlen_app, zlen_cons, zlen_nil. unfold KV_TLV_SIZE. lia.
  - rewrite <- Ht, Hbuf, !zlen_app, Hr1, zlen_zdrop by lia. unfold KV_TLV_SIZE. lia.
Qed.

(** ** The store *)

Lemma find_put rs rest key v key' : key_ok key → key_ok key' → Forall (λ r, zlen r = KV_TLV_SIZE) rs →
  find_rec (kv_put rs rest key v) key' 0 =
  if decide (key' = key) then Some (default (length rs) (find_rec rs key 0)) else find_rec rs key' 0.
Proof.
  intros Hk Hk' Hf. unfold kv_put. destruct (find_rec rs key 0) as [i|] eqn:Ef.
  - destruct (find_rec_Some _ _ _ Ef) as (r & Hi & Hm). rewrite (nth_lookup_Some _ _ _ _ Hi).
    pose proof (proj1 (Forall_lookup _ _) Hf _ _ Hi) as Hr.
    rewrite (find_rec_update _ _ r) by (done || by apply rec_set_matches).
    case_decide; [by subst|done].
  - rewrite find_rec_snoc, rec_new_matches by done. case_decide as E.
    + subst key'. by rewrite Ef, bool_decide_eq_true_2.
    + rewrite bool_decide_eq_false_2 by done. by destruct (find_rec rs key' 0).
Qed.

(** What [kv_set] does to the records. *)
Lemma kv_set_records c rs rest key v c' : kv_ready c = true → records c rs rest → key_ok key →
  kv_set c key v = Done (KV_ERR_NONE, c') →
  kv_ready c' = true ∧ zlen v ≤ KV_MAX_VALUE_LEN
  ∧ (∃ rest', records c' (kv_put rs rest key v) rest')
  ∧ (find_rec rs key 0 = None → 64 ≤ zlen rest)
  ∧ ∃ c1, kv_fs c1 = kv_fs c ∧ kv_buf c1 = kv_buf c' ∧ kv_len c1 = kv_len c'
      ∧ write_to_fs c1 = Done (true, c').
Proof.
  intros Hready Hr Hk E. unfold kv_set in E. destruct (_ || _) eqn:Elen; [done|].
  apply orb_false_iff in Elen as [_ Hv]. btest. rewrite Hready, key_ok_strnlen in E by done. cbn [negb] in E.
  rewrite (locate_spec _ _ _ _ Hr) in E. cbn [obind] in E.
  apply obind_inv in E as ([ok c1] & E1 & E). destruct ok; [|done]. cbn [negb] in E.
  apply obind_inv in E as ([ok2 c2] & Ew & E). destruct ok2; [|done]. injection E as <-.
  assert (H1 : (∃ rest', records c1 (kv_put rs rest key v) rest') ∧ kv_ready c1 = kv_ready c
    ∧ kv_fs c1 = kv_fs c ∧ (find_rec rs key 0 = None → 64 ≤ zlen rest)).
  { unfold kv_put. destruct (find_rec rs key 0) as [i|] eqn:Ef; cbn [option_map] in E1.
    - destruct (find_rec_Some _ _ _ Ef) as (r & Hi & _).
      destruct (records_update c rs rest i r v Hr Hi Hv) as (c0 & E0 & Hr0 & ? & ?).
      rewrite E0 in E1. cbn [obind] in E1. injection E1 as <-. rewrite (nth_lookup_Some _ _ _ _ Hi).
      split_and!; [by exists rest|done|done|done].
    - pose proof E1 as Eap. destruct (records_append _ _ _ _ _ _ _ Hr Hk Hv E1 eq_refl) as (Hr1 & ? & ?).
      split_and!; [by eauto|done|done|]. intros _. unfold append in Eap.
      destruct (KV_MAX_FILE_SIZE <? _) eqn:Efull; [done|]. btest. destruct Hr as [Hbuf Hf _ Hlen Ht].
      rewrite Hbuf, zlen_app, zlen_concat in Ht by done. unfold KV_TLV_SIZE in *. lia. }
  destruct H1 as ([rest' Hr1] & Hrd & Hfs & Hroom).
  assert (Hc : kv_buf c2 = kv_buf c1 ∧ kv_len c2 = kv_len c1 ∧ kv_ready c2 = kv_ready c1).
  { unfold write_to_fs in Ew. destruct (create_if_not_exist _) as [? s0].
    apply obind_inv in Ew as (d & _ & Ew). by apply obind_inv in Ew as ([ok s1] & _ & [= _ <-]). }
  destruct Hc as (Hb & Hl & Hrd2). split_and!; [congruence|done| |done|].
  - exists rest'. destruct Hr1. split; by rewrite ?Hb, ?Hl.
  - exists c1. split_and!; congruence.
Qed.

(** A successful [kv_set] makes [kv_get] of the key return the value -
    truncated, and reported so, when the caller's buffer is too small - and
    changes the answer for no other key. *)
Theorem kv_set_get (c c' : kv_ctx) (key value : list Z) :
  kv_ok c → key_ok key → kv_set c key value = Done (KV_ERR_NONE, c') →
  kv_ok c' ∧ ∀ key' cap, key_ok key' → 0 ≤ cap ≤ KV_MAX_VALUE_LEN →
    kv_get c' key' cap =
      if decide (key' = key)
      then Done (if cap <? zlen value then (KV_ERR_TRUNCATED, ztake cap value, cap)
                 else (KV_ERR_NONE, value, zlen value))
      else kv_get c key' cap.
Proof.
  intros (Hready & rs & rest & Hr) Hk E.
  destruct (kv_set_records _ _ _ _ _ _ Hready Hr Hk E) as (Hready' & Hv & [rest' Hr'] & Hroom & _).
  pose proof (rec_sizes _ _ _ Hr) as Hf. split; [by split; [|eauto]|]. intros key' cap Hk' Hcap.
  rewrite (kv_get_spec _ _ _ _ _ Hready' Hr' Hk' Hcap), (kv_get_spec _ _ _ _ _ Hready Hr Hk' Hcap).
  rewrite (find_put rs rest key value key' Hk Hk' Hf). destruct (decide (key' = key)) as [->|Hne].
  - f_equal. unfold kv_put. destruct (find_rec rs key 0) as [i|] eqn:Ef; simpl.
    + destruct (find_rec_Some _ _ _ Ef) as (r & Hi & _). pose proof (lookup_lt_Some _ _ _ Hi).
      rewrite (nth_lookup_Some _ _ _ _ Hi).
      rewrite (nth_lookup_Some _ _ _ (rec_set (rec_tag r) r value)) by by apply list_lookup_insert_eq.
      apply rec_get_set; [|done]. pose proof (proj1 (Forall_lookup _ _) Hf _ _ Hi).
      unfold rec_tag, KV_TLV_SIZE in *. rewrite zlen_ztake; lia.
    + rewrite app_nth2, Nat.sub_diag by lia. simpl. apply rec_get_set; [by apply strncpy_tag|done].
  - destruct (find_rec rs key' 0) as [j|] eqn:Ej; [|done]. f_equal. unfold kv_put.
    destruct (find_rec_Some _ _ _ Ej) as (rj & Hj & Hmj). pose proof (lookup_lt_Some _ _ _ Hj).
    destruct (find_rec rs key 0) as [i|] eqn:Ef.
    + destruct (find_rec_Some _ _ _ Ef) as (r & Hi & Hm). assert (i ≠ j).
      { intros ->. rewrite Hi in Hj. injection Hj as <-. by apply Hne, (rec_matches_unique r). }
      rewrite !(nth_lookup_Some _ j _ rj); [done|done|]. by rewrite list_lookup_insert_ne.
    + by rewrite app_nth1.
Qed.

Context `{!LittlefsLaws L}.

Lemma create_if_not_exist_spec s ok s' : create_if_not_exist s = (ok, s') →
  fs_data s' KVSTORE_FILE_NAME = fs_data s KVSTORE_FILE_NAME
  ∨ fs_data s KVSTORE_FILE_NAME = None ∧ fs_data s' KVSTORE_FILE_NAME = Some [].
Proof.
  unfold create_if_not_exist. destruct (negb _).
  - destruct (fs_touch s _) as [r s1] eqn:E. intros [= _ <-]. by apply (fs_touch_spec _ _ _ _ E).
  - intros [= _ <-]. by left.
Qed.

(** The file holds no more than the used part of the buffer. *)
Definition file_ok (c : kv_ctx) : Prop :=
  ∀ d, fs_data (kv_fs c) KVSTORE_FILE_NAME = Some d → zlen d ≤ kv_len c.

Lemma write_to_fs_spec c c' : file_ok c → write_to_fs c = Done (true, c') →
  fs_data (kv_fs c') KVSTORE_FILE_NAME = Some (ztake (kv_len c) (kv_buf c))
  ∧ 0 < kv_len c ≤ zlen (kv_buf c).
Proof.
  intros Hfile E. unfold write_to_fs in E. destruct (create_if_not_exist _) as [okc s0] eqn:Ec.
  apply obind_inv in E as (d & Ed & E). apply obind_inv in E as ([ok s1] & Ew & [= -> <-]). simpl.
  unfold mread in Ed. destruct (_ && _) eqn:Eb; [|done]. injection Ed as <-. btest. rewrite zdrop_0 in *.
  destruct (fs_util_write_spec _ _ _ _ _ Ew) as (_ & Hw & _).
  unfold fs_util_write_global in Ew. apply obind_inv in Ew as ([] & Ha & _). unfold ASSERT in Ha.
  destruct (0 <? _) eqn:E0; [|done]. btest. rewrite zlen_ztake in E0 by lia. split; [|lia].
  rewrite Hw by done. unfold overwrite. rewrite zdrop_all; [by rewrite app_nil_r|].
  rewrite zlen_ztake by lia.
  destruct (create_if_not_exist_spec _ _ _ Ec) as [-> | [_ ->]]; [|simpl; rewrite zlen_nil; lia].
  destruct (fs_data (kv_fs c) _) eqn:Ef; simpl; [by apply Hfile|rewrite zlen_nil; lia].
Qed.

(** What a successful [kv_set] stored is still there after a reset:
    [kv_init] from the file that was written answers every [kv_get] as the
    store did before. *)
Theorem kv_survives_reset (c c' c2 : kv_ctx) (key value : list Z) :
  kv_ok c → file_ok c → key_ok key →
  kv_set c key value = Done (KV_ERR_NONE, c') →
  kv_init (kv_boot (kv_fs c')) true = Done (KV_ERR_NONE, c2) →
  kv_ok c2 ∧ file_ok c2 ∧ ∀ key' cap, key_ok key' → 0 ≤ cap ≤ KV_MAX_VALUE_LEN →
    kv_get c2 key' cap = kv_get c' key' cap.
Proof.
  intros (Hready & rs & rest & Hr) Hfile Hk E Ei.
  destruct (kv_set_records _ _ _ _ _ _ Hready Hr Hk E) as (Hready' & Hv & [rest' Hr'] & _ & c1 & Hfs & Hb & Hl & Ew).
  assert (Hfile1 : file_ok c1).
  { intros d Hd. rewrite Hfs in Hd. apply Hfile in Hd. rewrite Hl, (rec_len _ _ _ Hr').
    rewrite (rec_len _ _ _ Hr) in Hd. unfold kv_put. case_match; rewrite ?zlen_insert; [done|].
    rewrite zlen_app, zlen_cons, zlen_nil. unfold KV_TLV_SIZE in *. lia. }
  apply (write_to_fs_spec _ _ Hfile1) in Ew as [Hdata Hlen]. rewrite Hb, Hl in Hdata, Hlen.
  unfold kv_init in Ei. cbn [negb] in Ei. apply obind_inv in Ei as ([ok c3] & Er & Ei).
  destruct ok; [|done]. injection Ei as <-. unfold read_from_fs in Er. cbn [kv_fs kv_boot] in Er.
  destruct (create_if_not_exist (kv_fs c')) as [okc s0] eqn:Ec.
  destruct (create_if_not_exist_spec _ _ _ Ec) as [Hs0|[Hnone _]]; [|congruence].
  destruct (fs_util_read_all_global s0 _ _) as [r s1] eqn:Eread.
  destruct (fs_util_read_all_spec _ _ _ _ _ Eread) as (Hq & Hread & _). destruct r as [data|]; [|done].
  destruct (Hread data eq_refl) as [Hd _]. rewrite Hs0, Hdata in Hd. injection Hd as <-.
  apply obind_inv in Er as (buf & Ewr & Er). rewrite (rec_total _ _ _ Hr') in Hlen.
  assert (Hd : zlen (ztake (kv_len c') (kv_buf c')) = kv_len c')
    by (rewrite zlen_ztake; [done|rewrite (rec_total _ _ _ Hr'); lia]).
  rewrite Hd, (proj2 (Z.ltb_ge _ _)) in Er by lia. injection Er as <-.
  assert (Hused : ztake (kv_len c') (kv_buf c') = concat (kv_put rs rest key value)).
  { rewrite (rec_buf _ _ _ Hr'), ztake_app_exact; [done|].
    rewrite (rec_len _ _ _ Hr'), zlen_concat; [done|apply Hr']. }
  assert (Hr2 : records (mk_kv buf (kv_len c') true s1) (kv_put rs rest key value) (zdrop (kv_len c') kv_zeros)).
  { unfold mwrite in Ewr. destruct (_ && _) eqn:Eb; [|done]. injection Ewr as <-. simpl.
    destruct Hr' as [Hbuf' Hf' Hlens' Hlen' Ht']. rewrite Hd in *.
    split; simpl; [by rewrite Hused|done|done|done|].
    rewrite zlen_app, Hd, zlen_zdrop; rewrite zlen_kv_zeros; lia. }
  split; [by split; [|eauto]|]. split.
  - intros d Hfd. simpl in Hfd |- *. rewrite Hq, Hs0, Hdata in Hfd. injection Hfd as <-. lia.
  - intros key' cap Hk' Hcap.
    change (kv_get (mk_kv buf (kv_len c') true s1) key' cap = kv_get c' key' cap).
    rewrite (kv_get_spec (mk_kv buf (kv_len c') true s1) _ _ key' cap eq_refl Hr2 Hk' Hcap).
    by rewrite (kv_get_spec _ _ _ _ _ Hready' Hr' Hk' Hcap).
Qed.
End Kv.
Arguments kv_ctx : clear implicits.

(** ** An example store *)

Definition demo_kv : kv_ctx ram_fs :=
  match kv_init (kv_boot ram_boot) true with Done (_, c) => c | _ => kv_boot ram_boot end.

Definition demo_key : list Z := [107; 49].

Lemma demo_kv_ok : kv_ok demo_kv ∧ file_ok demo_kv ∧ key_ok demo_key.
Proof.
  split_and!.
  - split; [done|]. exists [], (kv_buf demo_kv). split; [done|done|done|vm_compute; done|vm_compute; done].
  - intros d. vm_compute. by intros [= <-].
  - split; [done|]. repeat constructor; done.
Qed.

Lemma kv_set_get_witness :
  ∃ c', kv_set demo_kv demo_key [1; 2; 3] = Done (KV_ERR_NONE, c')
    ∧ kv_get c' demo_key 2 = Done (KV_ERR_TRUNCATED, [1; 2], 2).
Proof.
  eexists. split; [vm_compute; reflexivity|].
  eapply (kv_set_get (L := ram_fs) demo_kv _ demo_key [1; 2; 3]).
  - apply demo_kv_ok.
  - apply demo_kv_ok.
  - vm_compute. reflexivity.
  - apply demo_kv_ok.
  - unfold KV_MAX_VALUE_LEN. lia.
Defined.

Definition demo_kv_set : kv_ctx ram_fs :=
  match kv_set demo_kv demo_key [1; 2; 3] with Done (_, c) => c | _ => demo_kv end.

Lemma kv_survives_reset_witness :
  ∃ c2, kv_init (kv_boot (kv_fs demo_kv_set)) true = Done (KV_ERR_NONE, c2)
    ∧ kv_get c2 demo_key 9 = kv_get demo_kv_set demo_key 9.
Proof.
  eexists. split; [vm_compute; reflexivity|].
  eapply (kv_survives_reset (L := ram_fs) demo_kv demo_kv_set _ demo_key [1; 2; 3]).
  - apply demo_kv_ok.
  - apply demo_kv_ok.
  - apply demo_kv_ok.
  - vm_compute. reflexivity.
  - vm_compute. reflexivity.
  - apply demo_kv_ok.
  - unfold KV_MAX_VALUE_LEN. lia.
Defined.
