(* ===== verification/Unlock.v ===== *)
(** * Unlocking with a secret (lib/unlock)

    unlock.c and unlock_storage.c: the retry counter and its delays. The
    counter lives in the flash log of [IndexFs], the secret in an encrypted
    file ([Wkek]), the delay is a one-shot timer ([Timer]), and a match opens
    the session of [Auth]. *)

From S2P Require Import Prelude Wstring Timer Sleep Auth IndexFs Fs Wkek.
#[global] Open Scope Z_scope.

Inductive unlock_err_t :=
| UNLOCK_OK
| UNLOCK_WRONG_SECRET
| UNLOCK_STORAGE_ERR
| UNLOCK_NO_SECRET_PROVISIONED
| UNLOCK_WAITING_ON_DELAY
| UNLOCK_LIMIT_RESPONSE_TAKEN
| UNLOCK_NOT_INITIALIZED.
#[global] Instance unlock_err_eq_dec : EqDecision unlock_err_t.
Proof. solve_decision. Defined.

(** [unlock_limit_response_t] and [unlock_delay_status_t]: enums that are
    stored as one byte and read back without a check. *)
Definition RESPONSE_DELAY : Z := 0.
Definition RESPONSE_WIPE_STATE : Z := 1.
Definition DEFAULT_LIMIT_RESPONSE : Z := RESPONSE_WIPE_STATE.
Definition DELAY_COMPLETE : Z := 0.
Definition DELAY_INCOMPLETE : Z := 0xf.
Definition ATTEMPT_LIMIT : Z := 10.
Definition SHA256_DIGEST_SIZE : Z := 32.
Definition UNLOCK_SECRET_PATH : string := "unlock-secret.bin".
Definition LIMIT_RESPONSE_PATH : string := "limit-response.bin".

Definition delay_table : list Z :=
  [0; 0; 0; 0; 10 * 1000; 10 * 1000; 60 * 1000; 60 * 1000 * 5; 60 * 1000 * 10; 60 * 1000 * 30;
   60 * 1000 * 30].

Section Unlock.
Context {T F L SE : Type} `{SwTimer T} `{Flash F} `{Littlefs L} `{SecureElement SE}.

(** Linker symbols and the build configuration: where the log is
    ([fwup_target_slot_address]) and how long a session lasts. *)
Record unlock_env := mk_env {
  env_layout : flash_layout;
  fwup_target_slot_address : Z;
  auth_expiry_ms : Z;
}.

(** [unlock_ctx], [unlock_retry_counter_fs] and the components it drives;
    [wipe_requests] counts the [IPC_KEY_MANAGER_REMOVE_WALLET_STATE] messages
    sent to the key manager. *)
Record unlock_st := mk_unlock {
  limit_response : Z;
  delay_timer : rtos_timer_t T;
  initialized : bool;
  unlock_retry_counter_fs : option indexfs_t;
  u_flash : F;
  u_wkek : wkek_ctx L SE;
  u_auth : auth_ctx_t T;
  wipe_requests : nat;
}.

Definition set_delay_timer (st : unlock_st) (t : rtos_timer_t T) : unlock_st :=
  mk_unlock (limit_response st) t (initialized st) (unlock_retry_counter_fs st) (u_flash st)
    (u_wkek st) (u_auth st) (wipe_requests st).
Definition set_flash (st : unlock_st) (fl : F) : unlock_st :=
  mk_unlock (limit_response st) (delay_timer st) (initialized st) (unlock_retry_counter_fs st) fl
    (u_wkek st) (u_auth st) (wipe_requests st).
Definition set_wkek (st : unlock_st) (w : wkek_ctx L SE) : unlock_st :=
  mk_unlock (limit_response st) (delay_timer st) (initialized st) (unlock_retry_counter_fs st)
    (u_flash st) w (u_auth st) (wipe_requests st).
Definition set_auth (st : unlock_st) (a : auth_ctx_t T) : unlock_st :=
  mk_unlock (limit_response st) (delay_timer st) (initialized st) (unlock_retry_counter_fs st)
    (u_flash st) (u_wkek st) a (wipe_requests st).
Definition set_limit_response (st : unlock_st) (r : Z) : unlock_st :=
  mk_unlock r (delay_timer st) (initialized st) (unlock_retry_counter_fs st)
    (u_flash st) (u_wkek st) (u_auth st) (wipe_requests st).
Definition set_initialized (st : unlock_st) : unlock_st :=
  mk_unlock (limit_response st) (delay_timer st) true (unlock_retry_counter_fs st)
    (u_flash st) (u_wkek st) (u_auth st) (wipe_requests st).
Definition set_retry_fs (st : unlock_st) (fs : indexfs_t) : unlock_st :=
  mk_unlock (limit_response st) (delay_timer st) (initialized st) (Some fs)
    (u_flash st) (u_wkek st) (u_auth st) (wipe_requests st).
Definition set_u_fs (st : unlock_st) (s : fs_ctx L) : unlock_st :=
  set_wkek st (with_fs (u_wkek st) s).

Definition set_auth_sleep (a : auth_ctx_t T) (sl : sleep_ctx_t T) : auth_ctx_t T :=
  mk_auth (authenticated a) (allow_fingerprint_enrollment a) (auth_method a) (fingerprint_index a)
    (auth_timer a) (on_lock a) (expiry_ms a) (locked_events a) sl.

(** ** unlock_storage.c *)

Definition write_to_filesystem (s : fs_ctx L) (path : string) (data : list Z)
    : outcome (unlock_err_t * fs_ctx L) :=
  let! _ := ASSERT (0 <? zlen data) in
  let '(ret, s) := fs_open_global s path (Z.lor FS_O_CREAT FS_O_RDWR) in
  if negb (ret =? 0) then Done (UNLOCK_STORAGE_ERR, s)
  else
    let '(ret, s) := fs_file_write s g_file data in
    let result := if negb (ret =? zlen data) then UNLOCK_STORAGE_ERR else UNLOCK_OK in
    let '(_, s) := fs_close_global s in
    Done (result, s).

Definition read_from_filesystem (s : fs_ctx L) (path : string) (size : Z)
    : outcome (unlock_err_t * list Z * fs_ctx L) :=
  let! _ := ASSERT (0 <? size) in
  let '(ret, s) := fs_open_global s path FS_O_RDONLY in
  if negb (ret =? 0) then Done (UNLOCK_STORAGE_ERR, [], s)
  else
    let '(ret, bs, s) := fs_file_read s g_file size in
    let result := if negb (ret =? size) then UNLOCK_STORAGE_ERR else UNLOCK_OK in
    let '(_, s) := fs_close_global s in
    Done (result, bs, s).

(** The pointer test after [indexfs_create] never fails: the macro returns
    the address of a static object. *)
Definition unlock_storage_init (env : unlock_env) (st : unlock_st)
    : outcome (unlock_err_t * unlock_st) :=
  let! '(fs, fl) := indexfs_create (env_layout env) INDEXFS_TYPE_MONOTONIC
                      (fwup_target_slot_address env) MCU_FLASH_PAGE_SIZE (u_flash st) in
  Done (UNLOCK_OK, set_flash (set_retry_fs st fs) fl).

(** Dereferencing [unlock_retry_counter_fs]. *)
Definition retry_fs (st : unlock_st) : outcome indexfs_t :=
  match unlock_retry_counter_fs st with Some fs => Done fs | None => Undef end.

Definition retry_counter_read (st : unlock_st) : outcome (unlock_err_t * Z) :=
  let! fs := retry_fs st in
  let! count := indexfs_count fs (u_flash st) in
  Done (UNLOCK_OK, count).

Definition retry_counter_write (st : unlock_st) (new_value : Z)
    : outcome (unlock_err_t * unlock_st) :=
  let! fs := retry_fs st in
  let! '(ok, fl) := if new_value =? 0 then indexfs_clear fs (u_flash st)
                    else indexfs_increment fs (u_flash st) in
  let st := set_flash st fl in
  if negb ok then Done (UNLOCK_STORAGE_ERR, st)
  else
    let! just_written := indexfs_count fs (u_flash st) in
    if negb (just_written =? new_value) then Done (UNLOCK_STORAGE_ERR, st)
    else Done (UNLOCK_OK, st).

Definition retry_counter_read_delay_period_status (st : unlock_st) : outcome (unlock_err_t * option Z) :=
  let! fs := retry_fs st in
  let! flag := indexfs_get_flag fs (u_flash st) in
  match flag with
  | Some f => Done (UNLOCK_OK, Some f)
  | None => Done (UNLOCK_STORAGE_ERR, None)
  end.

Definition retry_counter_write_delay_period_status (st : unlock_st) (status : Z)
    : outcome (unlock_err_t * unlock_st) :=
  let! fs := retry_fs st in
  let! '(ok, fl) := indexfs_set_flag fs (u_flash st) status in
  Done (if ok : bool then UNLOCK_OK else UNLOCK_STORAGE_ERR, set_flash st fl).

Definition unlock_secret_read (st : unlock_st) : outcome (unlock_err_t * list Z * unlock_st) :=
  let! '(r, w) := wkek_read_and_decrypt (u_wkek st) UNLOCK_SECRET_PATH SHA256_DIGEST_SIZE in
  match r with
  | Some bytes => Done (UNLOCK_OK, bytes, set_wkek st w)
  | None => Done (UNLOCK_STORAGE_ERR, [], set_wkek st w)
  end.

Definition unlock_secret_write (st : unlock_st) (secret : list Z)
    : outcome (unlock_err_t * unlock_st) :=
  let! '(ok, w) := wkek_encrypt_and_store (u_wkek st) UNLOCK_SECRET_PATH secret in
  Done (if ok : bool then UNLOCK_OK else UNLOCK_STORAGE_ERR, set_wkek st w).

Definition unlock_secret_exists (st : unlock_st) : unlock_err_t * bool :=
  (UNLOCK_OK, fs_file_exists (wkek_fs (u_wkek st)) UNLOCK_SECRET_PATH).

(** The error, the value stored through [limit_response], the state. *)
Definition limit_response_read (st : unlock_st) : outcome (unlock_err_t * Z * unlock_st) :=
  let! '(result, bs, s) := read_from_filesystem (wkek_fs (u_wkek st)) LIMIT_RESPONSE_PATH 1 in
  let st := set_u_fs st s in
  match result with
  | UNLOCK_OK => let! r := aget bs 0 in Done (UNLOCK_OK, r, st)
  | err =>
      let! '(_, s) := write_to_filesystem (wkek_fs (u_wkek st)) LIMIT_RESPONSE_PATH
                        [DEFAULT_LIMIT_RESPONSE] in
      Done (err, DEFAULT_LIMIT_RESPONSE, set_u_fs st s)
  end.

Definition limit_response_write (st : unlock_st) (response : Z)
    : outcome (unlock_err_t * unlock_st) :=
  let! '(err, s) := write_to_filesystem (wkek_fs (u_wkek st)) LIMIT_RESPONSE_PATH [response] in
  Done (err, set_u_fs st s).

(** ** unlock.c *)

Definition get_delay_for_retry_count (st : unlock_st) (count : Z) : outcome Z :=
  if count =? 0 then Done 0
  else
    let! '(err, status) := retry_counter_read_delay_period_status st in
    if bool_decide (err = UNLOCK_OK) && bool_decide (status = Some DELAY_COMPLETE) then Done 0
    else if ATTEMPT_LIMIT <=? count then aget delay_table ATTEMPT_LIMIT
    else aget delay_table count.

Definition delay_callback (st : unlock_st) : outcome unlock_st :=
  let! '(_, st) := retry_counter_write_delay_period_status st DELAY_COMPLETE in
  let! t := rtos_timer_stop (delay_timer st) in
  Done (set_delay_timer st t).

Definition begin_delay (st : unlock_st) (current_count : Z) : outcome unlock_st :=
  let! delay_ms := get_delay_for_retry_count st current_count in
  if delay_ms =? 0 then Done st
  else
    let! sl := sleep_inhibit (auth_sleep (u_auth st)) delay_ms in
    let! t := rtos_timer_start (delay_timer st) delay_ms in
    Done (set_delay_timer (set_auth st (set_auth_sleep (u_auth st) sl)) t).

Definition get_remaining_delay_ms (st : unlock_st) : outcome Z :=
  let! expired := rtos_timer_expired (delay_timer st) in
  if expired : bool then Done 0 else rtos_timer_remaining_ms (delay_timer st).

Definition compare_secrets (secret stored_secret : list Z) : outcome secure_bool_t :=
  let! r := memcmp_s secret stored_secret SHA256_DIGEST_SIZE in
  Done (if r =? 0 then SECURE_TRUE else SECURE_FALSE).

Definition unlock_perform_wipe_state (st : unlock_st) : unlock_st :=
  mk_unlock (limit_response st) (delay_timer st) (initialized st) (unlock_retry_counter_fs st)
    (u_flash st) (u_wkek st) (u_auth st) (S (wipe_requests st)).

Definition perform_limit_response (st : unlock_st) : unlock_st :=
  if limit_response st =? RESPONSE_DELAY then st
  else if limit_response st =? RESPONSE_WIPE_STATE then unlock_perform_wipe_state st
  else st.

Definition unlock_init_and_begin_delay (env : unlock_env) (st : unlock_st) : outcome unlock_st :=
  let! '(_, st) := unlock_storage_init env st in
  let st := set_initialized st in
  let st := set_delay_timer st rtos_timer_create_static in
  let! '(err, response, st) := limit_response_read st in
  let st := if bool_decide (err = UNLOCK_OK) then set_limit_response st response else st in
  let! '(err, count) := retry_counter_read st in
  let current_count := if bool_decide (err = UNLOCK_OK) then count else ATTEMPT_LIMIT in
  begin_delay st current_count.

(** What [unlock_check_secret] returns, and what it stores through
    [remaining_delay_ms] and [retry_counter] ([None]: nothing). *)
Record check_out := mk_out {
  out_err : unlock_err_t;
  out_delay : option Z;
  out_count : option Z;
}.

(** The body down to the retry counter write: either an early return, or the
    count that was made persistent before the comparison. *)
Definition unlock_check_begin (st : unlock_st) : outcome (unlock_st * (check_out + Z)) :=
  let '(err, provisioned) := unlock_secret_exists st in
  if bool_decide (err ≠ UNLOCK_OK) || negb provisioned
  then Done (st, inl (mk_out UNLOCK_NO_SECRET_PROVISIONED None None))
  else
    let! '(err, current_count) := retry_counter_read st in
    if bool_decide (err ≠ UNLOCK_OK) then Done (st, inl (mk_out UNLOCK_STORAGE_ERR None None))
    else
      let! remaining := get_remaining_delay_ms st in
      if 0 <? remaining
      then Done (st, inl (mk_out UNLOCK_WAITING_ON_DELAY (Some remaining) (Some current_count)))
      else
        let current_count :=
          if current_count <? UINT32_MAX then current_count + 1 else current_count in
        let! '(err, st) := retry_counter_write st current_count in
        if bool_decide (err ≠ UNLOCK_OK)
        then Done (st, inl (mk_out UNLOCK_STORAGE_ERR (Some remaining) None))
        else Done (st, inr current_count).

(** The comparison: whether the secret matches, or the read error. *)
Definition unlock_check_compare (st : unlock_st) (secret : list Z)
    : outcome (unlock_st * (unlock_err_t + bool)) :=
  let! '(err, stored_secret, st) := unlock_secret_read st in
  if bool_decide (err ≠ UNLOCK_OK) then Done (st, inl err)
  else
    let! r := compare_secrets secret stored_secret in
    Done (st, inr (r =? SECURE_TRUE)).

(** The rest of the body, for a wrong and for the right secret. *)
Definition unlock_check_wrong (st : unlock_st) (current_count : Z)
    : outcome (unlock_st * check_out) :=
  let! st := begin_delay st current_count in
  let! remaining := get_remaining_delay_ms st in
  if ATTEMPT_LIMIT <? current_count
  then Done (perform_limit_response st,
             mk_out UNLOCK_LIMIT_RESPONSE_TAKEN (Some remaining) (Some current_count))
  else Done (st, mk_out UNLOCK_WRONG_SECRET (Some remaining) (Some current_count)).

Definition unlock_check_success (st : unlock_st) : outcome (unlock_st * check_out) :=
  let! '(err, st) := retry_counter_write st 0 in
  if bool_decide (err ≠ UNLOCK_OK) then Done (st, mk_out UNLOCK_STORAGE_ERR (Some 0) None)
  else
    let! sl := sleep_clear_inhibit (auth_sleep (u_auth st)) in
    let! t := rtos_timer_stop (delay_timer st) in
    let! a := auth_authenticate_unlock_secret (set_auth_sleep (u_auth st) sl) in
    Done (set_auth (set_delay_timer st t) a, mk_out UNLOCK_OK (Some 0) (Some 0)).

Definition unlock_check_secret (st : unlock_st) (secret : list Z)
    : outcome (unlock_st * check_out) :=
  let! '(st, r) := unlock_check_begin st in
  match r with
  | inl out => Done (st, out)
  | inr current_count =>
      let! '(st, cmp) := unlock_check_compare st secret in
      match cmp with
      | inl err => Done (st, mk_out err (Some 0) None)
      | inr true => unlock_check_success st
      | inr false => unlock_check_wrong st current_count
      end
  end.

Definition unlock_provision_secret (st : unlock_st) (secret : list Z)
    : outcome (unlock_err_t * unlock_st) := unlock_secret_write st secret.

Definition unlock_set_configured_limit_response (st : unlock_st) (response : Z)
    : outcome (unlock_err_t * unlock_st) :=
  let! '(err, st) := limit_response_write st response in
  if bool_decide (err ≠ UNLOCK_OK) then Done (UNLOCK_STORAGE_ERR, st)
  else
    let! '(err, read_back, st) := limit_response_read st in
    if bool_decide (err ≠ UNLOCK_OK) then Done (UNLOCK_STORAGE_ERR, st)
    else if negb (read_back =? response) then Done (UNLOCK_STORAGE_ERR, st)
    else Done (UNLOCK_OK, st).

Definition unlock_reset_retry_counter (st : unlock_st) : outcome (unlock_err_t * unlock_st) :=
  if negb (initialized st) then Done (UNLOCK_NOT_INITIALIZED, st)
  else
    let! '(err, current_count) := retry_counter_read st in
    if bool_decide (err ≠ UNLOCK_OK) then Done (UNLOCK_STORAGE_ERR, st)
    else if current_count =? 0 then Done (UNLOCK_OK, st)
    else retry_counter_write st 0.

Definition unlock_wipe_state (st : unlock_st) : outcome unlock_st :=
  let '(_, s) := fs_remove (wkek_fs (u_wkek st)) UNLOCK_SECRET_PATH in
  let '(_, s) := fs_remove s LIMIT_RESPONSE_PATH in
  let! '(_, st) := unlock_reset_retry_counter (set_u_fs st s) in
  Done st.

(** ** An attacker with the device *)

(** The delay after the [n]-th failed attempt, and the sum of the delays
    after the first [n]. *)
Definition delay_of (n : nat) : Z := nth (Nat.min n 10) delay_table 0.
Fixpoint total_delay (n : nat) : Z :=
  match n with O => 0 | S n => total_delay n + delay_of (S n) end.

(** A reset: RAM is initialised again, flash and files stay. *)
Definition unlock_boot (env : unlock_env) (st : unlock_st) : outcome unlock_st :=
  unlock_init_and_begin_delay env
    (mk_unlock RESPONSE_DELAY (mk_timer None false) false None (u_flash st)
       (mk_wkek [] false (mk_fs (lfs (wkek_fs (u_wkek st))) true) (wkek_se (u_wkek st)))
       (auth_init (auth_boot (sleep_init sleep_boot)) (auth_expiry_ms env) true) (wipe_requests st)).

(** Time passes: the session timer and the delay timer may fire. *)
Definition unlock_pass (st : unlock_st) (ms : Z) : outcome unlock_st :=
  let! a := auth_pass (u_auth st) ms in
  let '(t, fired) := pass (delay_timer st) ms in
  let st := set_auth (set_delay_timer st t) a in
  if fired : bool then delay_callback st else Done st.

(** The attacker tries secrets, waits, and resets the device, also in the
    middle of an attempt: once the comparison is done, before the device can
    act on it. *)
Inductive attack_ev :=
| AGuess (secret : list Z)
| AGuessCut (secret : list Z)
| AWait (ms : Z)
| AReset.

Definition is_wrong (err : unlock_err_t) : nat :=
  match err with UNLOCK_WRONG_SECRET | UNLOCK_LIMIT_RESPONSE_TAKEN => 1 | _ => 0 end.

(** The error codes returned and the number of secrets that were compared and
    found wrong. *)
Definition attack_step (env : unlock_env) (st : unlock_st) (ev : attack_ev)
    : outcome (unlock_st * list unlock_err_t * nat) :=
  match ev with
  | AGuess secret =>
      let! '(st, out) := unlock_check_secret st secret in
      Done (st, [out_err out], is_wrong (out_err out))
  | AGuessCut secret =>
      let! '(st, r) := unlock_check_begin st in
      match r with
      | inl out => let! st := unlock_boot env st in Done (st, [], 0%nat)
      | inr _ =>
          let! '(st, cmp) := unlock_check_compare st secret in
          let! st := unlock_boot env st in
          Done (st, [], match cmp with inr false => 1%nat | _ => 0%nat end)
      end
  | AWait ms => let! st := unlock_pass st ms in Done (st, [], 0%nat)
  | AReset => let! st := unlock_boot env st in Done (st, [], 0%nat)
  end.

Fixpoint attack_run (env : unlock_env) (st : unlock_st) (evs : list attack_ev)
    : outcome (unlock_st * list unlock_err_t * nat) :=
  match evs with
  | [] => Done (st, [], 0%nat)
  | ev :: evs =>
      let! '(st, rs, n) := attack_step env st ev in
      let! '(st, rs', n') := attack_run env st evs in
      Done (st, rs ++ rs', (n + n')%nat)
  end.

Definition ev_time (ev : attack_ev) : Z := match ev with AWait ms => ms | _ => 0 end.
Fixpoint trace_time (evs : list attack_ev) : Z :=
  match evs with [] => 0 | ev :: evs => ev_time ev + trace_time evs end.

(** ** The rate limit *)

Context `{!SwTimerLaws T} `{!FlashLaws F}.

Lemma delay_of_range n : 0 ≤ delay_of n ≤ 1800000.
Proof.
  unfold delay_of. pose proof (Nat.le_min_r n 10) as Hm. set (k := Nat.min n 10) in *. clearbody k.
  do 11 (destruct k as [|k]; [cbn; lia|]). lia.
Qed.

Lemma delay_of_mono n m : (n ≤ m)%nat → delay_of n ≤ delay_of m.
Proof.
  intros Hnm. unfold delay_of. pose proof (Nat.min_le_compat_r n m 10 Hnm) as Hk.
  pose proof (Nat.le_min_r m 10) as Hm.
  set (k := Nat.min n 10) in *. set (j := Nat.min m 10) in *. clearbody k j. clear Hnm.
  do 11 (destruct j as [|j]; [do 11 (destruct k as [|k]; [cbn; lia|]); lia|]). lia.
Qed.

Lemma total_delay_mono n m : (n ≤ m)%nat → total_delay n ≤ total_delay m.
Proof. induction 1 as [|m _ IH]; [done|]. simpl. pose proof (delay_of_range (S m)). lia. Qed.

Lemma total_delay_pred n : total_delay n ≤ total_delay (pred n) + delay_of n.
Proof. destruct n; simpl; [|lia]. pose proof (delay_of_range 0). lia. Qed.

(** The descriptor of the retry log. *)
Definition retry_log (env : unlock_env) : indexfs_t :=
  mk_indexfs INDEXFS_TYPE_MONOTONIC (fwup_target_slot_address env) MCU_FLASH_PAGE_SIZE.

(** What survives a reset after [t] milliseconds and [n] wrong secrets, with
    room for [free] more entries: the counter is at least [n]; a period that
    is marked as waited out was waited out. *)
Definition flash_inv (env : unlock_env) (fl : F) (n : nat) (t : Z) (room : nat) : Prop :=
  total_delay (pred n) ≤ t ∧
  ∃ c f free, counter_at (retry_log env) fl c f free ∧ (room < free)%nat ∧ Z.of_nat n ≤ c
    ∧ (f = DELAY_COMPLETE → total_delay n ≤ t).

(** And what holds of the delay timer while the device runs. *)
Definition timer_inv (timer : rtos_timer_t T) (n : nat) (t : Z) : Prop :=
  (idle timer ∧ total_delay n ≤ t)
  ∨ ∃ d, armed timer d ∧ tm_active timer = true ∧ d < 4294967296 ∧ total_delay n ≤ t + d.

Record attack_inv (env : unlock_env) (st : unlock_st) (n : nat) (t : Z) (room : nat) : Prop := {
  ai_log : unlock_retry_counter_fs st = Some (retry_log env);
  ai_flash : flash_inv env (u_flash st) n t room;
  ai_timer : timer_inv (delay_timer st) n t;
}.

Lemma get_delay_spec env st c f free :
  unlock_retry_counter_fs st = Some (retry_log env) →
  counter_at (retry_log env) (u_flash st) c f (S free) →
  get_delay_for_retry_count st c
  = Done (if (c =? 0) || (f =? DELAY_COMPLETE) then 0 else delay_of (Z.to_nat c)).
Proof.
  intros Hfs Hc. pose proof (counter_range _ _ _ _ _ Hc) as Hr. unfold get_delay_for_retry_count.
  destruct (c =? 0) eqn:Ec; [done|]. btest. simpl.
  unfold retry_counter_read_delay_period_status, retry_fs. rewrite Hfs. simpl.
  rewrite (indexfs_get_flag_spec _ _ _ _ _ Hc). simpl.
  destruct (f =? DELAY_COMPLETE) eqn:Ef; btest.
  - subst f. done.
  - rewrite (bool_decide_eq_false_2 (Some f = _)) by congruence. simpl. unfold ATTEMPT_LIMIT, delay_of.
    case_match; btest.
    + by rewrite Nat.min_r by lia.
    + rewrite Nat.min_l by lia. unfold aget. zdecide.
      assert (Hk : (Z.to_nat c < 10)%nat) by lia. set (k := Z.to_nat c) in *. clearbody k.
      do 10 (destruct k as [|k]; [done|]). lia.
Qed.

(** Starting the delay of the current count re-establishes the timer part. *)
Lemma begin_delay_inv env st n t room c f free st' : 0 ≤ t →
  unlock_retry_counter_fs st = Some (retry_log env) →
  counter_at (retry_log env) (u_flash st) c f (S free) → (room < S free)%nat → Z.of_nat n ≤ c →
  (f = DELAY_COMPLETE → total_delay n ≤ t) → total_delay (pred n) ≤ t → idle (delay_timer st) →
  begin_delay st c = Done st' → attack_inv env st' n t room.
Proof.
  intros Ht Hfs Hc Hroom Hn Hf Hp Hi. unfold begin_delay. rewrite (get_delay_spec env _ c f free) by done.
  pose proof (total_delay_pred n) as Hpred.
  pose proof (delay_of_mono n (Z.to_nat c) ltac:(lia)) as Hmono.
  assert (Hfl : flash_inv env (u_flash st) n t room) by (split; [done|]; by exists c, f, (S free)).
  simpl. set (delay := if _ || _ then 0 else _). destruct (delay =? 0) eqn:Ed; btest.
  - intros [= <-]. split; [done|done|]. left. split; [done|]. subst delay.
    destruct (c =? 0) eqn:Ec; btest; [by replace n with 0%nat by lia|].
    destruct (f =? DELAY_COMPLETE) eqn:Ef; btest; [by apply Hf|]. simpl in Ed. lia.
  - intros (sl & _ & E)%obind_inv. apply obind_inv in E as (tm & Et & [= <-]).
    assert (Hd : delay = delay_of (Z.to_nat c)) by (subst delay; by destruct (_ || _)).
    pose proof (delay_of_range (Z.to_nat c)).
    apply start_armed in Et as [Ha Hact]; [|lia]. split; [done|done|]. right. exists delay.
    split_and!; [done|done|lia|lia].
Qed.

(** A reset starts the delay of the stored count over. *)
Lemma unlock_boot_inv env st n t room st' : 0 ≤ t → flash_inv env (u_flash st) n t room →
  unlock_boot env st = Done st' → attack_inv env st' n t room.
Proof.
  intros Ht (Hp & c & f & free & Hc & Hroom & Hn & Hf) E. destruct free as [|free]; [lia|].
  unfold unlock_boot, unlock_init_and_begin_delay in E. apply obind_inv in E as ([e1 st1] & E1 & E).
  unfold unlock_storage_init, indexfs_create in E1. simpl in E1. fold (retry_log env) in E1.
  rewrite (indexfs_create_keeps _ _ _ _ _ _ Hc) in E1. simpl in E1. injection E1 as <- <-.
  apply obind_inv in E as ([[e2 resp] st2] & E2 & E).
  assert (Hs2 : unlock_retry_counter_fs st2 = Some (retry_log env) ∧ u_flash st2 = u_flash st
    ∧ delay_timer st2 = rtos_timer_create_static).
  { unfold limit_response_read in E2. apply obind_inv in E2 as ([[err bs] s] & _ & E2).
    destruct err; apply obind_inv in E2 as ([] & _ & [= <- <- <-]) ||
      (apply obind_inv in E2 as (? & _ & [= <- <- <-])); done. }
  destruct Hs2 as (Hfs2 & Hfl2 & Htm2). set (st3 := if bool_decide _ then _ else st2) in E.
  assert (Hs3 : unlock_retry_counter_fs st3 = Some (retry_log env) ∧ u_flash st3 = u_flash st
    ∧ delay_timer st3 = rtos_timer_create_static) by (subst st3; by case_match).
  destruct Hs3 as (Hfs3 & Hfl3 & Htm3). unfold retry_counter_read, retry_fs in E. rewrite Hfs3 in E.
  cbn [obind] in E. rewrite Hfl3, (indexfs_count_spec _ _ _ _ _ Hc) in E. cbn [obind] in E.
  rewrite bool_decide_eq_true_2 in E by done.
  eapply (begin_delay_inv env st3 n t room c f free); try done.
  - by rewrite Hfl3.
  - rewrite Htm3. apply created_idle.
Qed.

(** The state between the counter write and the comparison. *)
Record counted (env : unlock_env) (st : unlock_st) (n : nat) (t : Z) (room : nat) (c : Z) : Prop := {
  ct_log : unlock_retry_counter_fs st = Some (retry_log env);
  ct_idle : idle (delay_timer st);
  ct_waited : total_delay n ≤ t;
  ct_flash : ∃ free, counter_at (retry_log env) (u_flash st) c FLAGS_EMPTY free ∧ (room < free)%nat;
  ct_count : Z.of_nat (S n) ≤ c;
}.

Lemma remaining_idle st : idle (delay_timer st) → get_remaining_delay_ms st = Done 0.
Proof. intros Hi. unfold get_remaining_delay_ms. by rewrite (expired_idle _ Hi). Qed.

Lemma remaining_pending st d : armed (delay_timer st) d → tm_active (delay_timer st) = true →
  d < 4294967296 → get_remaining_delay_ms st = Done d.
Proof.
  intros Ha Hact Hd. unfold get_remaining_delay_ms. rewrite (expired_armed _ _ Ha). simpl.
  by apply remaining_armed.
Qed.

Lemma retry_counter_read_spec env st c f free :
  unlock_retry_counter_fs st = Some (retry_log env) →
  counter_at (retry_log env) (u_flash st) c f (S free) →
  retry_counter_read st = Done (UNLOCK_OK, c).
Proof.
  intros Hfs Hc. unfold retry_counter_read, retry_fs. rewrite Hfs. cbn [obind].
  by rewrite (indexfs_count_spec _ _ _ _ _ Hc).
Qed.

(** Writing the next count appends an entry or fails without a trace. *)
Lemma retry_counter_write_next env st c f free err st' :
  unlock_retry_counter_fs st = Some (retry_log env) →
  counter_at (retry_log env) (u_flash st) c f (S (S free)) →
  retry_counter_write st (c + 1) = Done (err, st') →
  ∃ fl', st' = set_flash st fl' ∧
    (err = UNLOCK_OK ∧ counter_at (retry_log env) fl' (c + 1) FLAGS_EMPTY (S free)
     ∨ err = UNLOCK_STORAGE_ERR ∧ counter_at (retry_log env) fl' c f (S (S free))).
Proof.
  intros Hfs Hc E. pose proof (counter_range _ _ _ _ _ Hc). unfold retry_counter_write, retry_fs in E.
  rewrite Hfs in E. cbn [obind] in E. rewrite (proj2 (Z.eqb_neq (c + 1) 0)) in E by lia.
  destruct (indexfs_increment_spec _ _ _ _ _ Hc) as (ok & fl' & Ei & Hc' & Hok).
  rewrite Ei in E. cbn [obind] in E. destruct ok; cbn [negb u_flash set_flash] in E.
  - rewrite (indexfs_count_spec _ _ _ _ _ Hc') in E. cbn [obind] in E.
    rewrite Z.eqb_refl in E. cbn [negb] in E. injection E as <- <-. exists fl'. auto.
  - injection E as <- <-. exists fl'. auto.
Qed.

Lemma unlock_check_begin_inv env st n t room st' r : 0 ≤ t → attack_inv env st n t (S room) →
  unlock_check_begin st = Done (st', r) →
  match r with
  | inl out => attack_inv env st' n t room ∧ is_wrong (out_err out) = 0%nat
  | inr c => counted env st' n t room c
  end.
Proof.
  intros Ht [Hfs Hfl Htm] E. pose proof Hfl as (Hp & c & f & free & Hc & Hroom & Hn & Hf).
  assert (Hweak : flash_inv env (u_flash st) n t room)
    by (split; [done|]; exists c, f, free; split_and!; [done|lia|done|done]).
  destruct free as [|[|free]]; [lia|lia|]. unfold unlock_check_begin, unlock_secret_exists in E.
  rewrite (bool_decide_eq_false_2 (UNLOCK_OK ≠ UNLOCK_OK)) in E by (by intros []).
  destruct (negb _); cbn [orb] in E; [injection E as <- <-; done|].
  rewrite (retry_counter_read_spec env st c f _ Hfs Hc) in E. cbn [obind] in E.
  rewrite (bool_decide_eq_false_2 (UNLOCK_OK ≠ UNLOCK_OK)) in E by (by intros []).
  destruct Htm as [[Hi Hw]|(d & Ha & Hact & Hd & Hw)].
  - rewrite (remaining_idle _ Hi) in E. cbn [obind] in E. change (0 <? 0) with false in E. cbv iota in E.
    pose proof (counter_range _ _ _ _ _ Hc). unfold UINT16_MAX in *.
    rewrite (proj2 (Z.ltb_lt c UINT32_MAX)) in E by (unfold UINT32_MAX; lia).
    apply obind_inv in E as ([err st1] & Ew & E).
    destruct (retry_counter_write_next _ _ _ _ _ _ _ Hfs Hc Ew)
      as (fl' & -> & [[-> Hc']|[-> Hc']]).
    + rewrite (bool_decide_eq_false_2 (UNLOCK_OK ≠ UNLOCK_OK)) in E by (by intros []).
      injection E as <- <-. split; try done; [|lia]. exists (S free). split; [done|lia].
    + rewrite bool_decide_eq_true_2 in E by done. injection E as <- <-.
      split; [|done]. split; [done| |by left].
      split; [done|]. exists c, f, (S (S free)). split_and!; [done|lia|done|done].
  - rewrite (remaining_pending _ d) in E by done. cbn [obind] in E. pose proof (armed_left _ _ Ha).
    rewrite (proj2 (Z.ltb_lt 0 d)) in E by lia. injection E as <- <-.
    split; [|done]. split; [done|done|]. right. by exists d.
Qed.

Lemma unlock_check_compare_frame st secret st' r : unlock_check_compare st secret = Done (st', r) →
  ∃ w, st' = set_wkek st w.
Proof.
  unfold unlock_check_compare, unlock_secret_read. intros ([[err sec] st1] & E1 & E)%obind_inv.
  apply obind_inv in E1 as ([rd w] & _ & E1). exists w.
  assert (st1 = set_wkek st w) as -> by (destruct rd; by injection E1).
  case_bool_decide; [by injection E|]. apply obind_inv in E as (? & _ & E). by injection E.
Qed.

Lemma counted_flash env st n t room c w :
  counted env st n t room c → counted env (set_wkek st w) n t room c.
Proof. intros [? ? ? ? ?]. by split. Qed.

(** Whatever the comparison says, the stored count covers it. *)
Lemma counted_flash_inv env st n t room c k : (k ≤ 1)%nat → counted env st n t room c →
  flash_inv env (u_flash st) (k + n) t room.
Proof.
  intros Hk [_ _ Hw (free & Hc & Hroom) Hn]. split.
  - etransitivity; [apply (total_delay_mono _ n)|done]. lia.
  - exists c, FLAGS_EMPTY, free. split_and!; [done|done|lia|done].
Qed.

Lemma unlock_check_wrong_inv env st n t room c st' out : 0 ≤ t → counted env st n t room c →
  unlock_check_wrong st c = Done (st', out) →
  attack_inv env st' (S n) t room ∧ is_wrong (out_err out) = 1%nat.
Proof.
  intros Ht [Hfs Hi Hw (free & Hc & Hroom) Hn]. unfold unlock_check_wrong.
  intros (st1 & Eb & E)%obind_inv. destruct free as [|free]; [lia|].
  eapply (begin_delay_inv env st (S n) t room) in Eb as [Hfs1 Hfl1 Htm1]; try done.
  apply obind_inv in E as (rem & _ & E). case_match; injection E as <- <-; split; try done.
  unfold perform_limit_response. by repeat case_match; split.
Qed.

Lemma retry_counter_write_zero env st c f free err st' :
  unlock_retry_counter_fs st = Some (retry_log env) →
  counter_at (retry_log env) (u_flash st) c f (S free) →
  retry_counter_write st 0 = Done (err, st') → err ≠ UNLOCK_OK →
  (0 < free)%nat → ∃ fl', st' = set_flash st fl' ∧ counter_at (retry_log env) fl' c f (S free)
    ∧ err = UNLOCK_STORAGE_ERR.
Proof.
  intros Hfs Hc E Herr Hfree. unfold retry_counter_write, retry_fs in E. rewrite Hfs in E. cbn [obind] in E.
  change (0 =? 0) with true in E. cbv iota in E.
  destruct (indexfs_clear_spec _ _ _ _ _ Hc) as (ok & fl' & Ei & Hc' & Hok).
  rewrite Ei in E. cbn [obind] in E. destruct ok; cbn [negb u_flash set_flash] in E.
  - destruct free as [|free]; [lia|].
    rewrite (indexfs_count_spec _ _ _ _ _ Hc') in E. cbn in E. by injection E as <- <-.
  - injection E as <- <-. eauto.
Qed.

Lemma unlock_check_success_inv env st n t room c st' out : 0 ≤ t →
  counted env st n t (S room) c → unlock_check_success st = Done (st', out) →
  out_err out ≠ UNLOCK_OK → attack_inv env st' n t room ∧ is_wrong (out_err out) = 0%nat.
Proof.
  intros Ht [Hfs Hi Hw (free & Hc & Hroom) Hn]. unfold unlock_check_success.
  intros ([err st1] & Ew & E)%obind_inv Hout. destruct free as [|[|free]]; [lia|lia|].
  case_bool_decide as Herr; cycle 1.
  { apply obind_inv in E as (? & _ & E). apply obind_inv in E as (? & _ & E).
    apply obind_inv in E as (? & _ & E). by injection E as <- <-. }
  destruct (retry_counter_write_zero _ _ _ _ _ _ _ Hfs Hc Ew Herr) as (fl' & -> & Hc' & ->); [lia|].
  injection E as <- <-. split; [|done]. split; [done| |by left]. split.
  - etransitivity; [apply (total_delay_mono _ n)|done]. lia.
  - exists c, FLAGS_EMPTY, (S (S free)). split_and!; [done|lia|lia|done].
Qed.

Lemma flash_inv_weaken env fl n t t' room room' : (room' ≤ room)%nat → t ≤ t' →
  flash_inv env fl n t room → flash_inv env fl n t' room'.
Proof.
  intros Hr Ht (Hp & c & f & free & Hc & Hroom & Hn & Hf). split; [lia|].
  exists c, f, free. split_and!; [done|lia|done|]. intros ?. specialize (Hf ltac:(done)). lia.
Qed.

(** Waiting runs the timer down, and marks the period when it is over. *)
Lemma unlock_pass_inv env st n t room ms st' : 0 ≤ ms → attack_inv env st n t (S room) →
  unlock_pass st ms = Done st' → attack_inv env st' n (t + ms) room.
Proof.
  intros Hms [Hfs Hfl Htm]. unfold unlock_pass. intros (a & _ & E)%obind_inv.
  pose proof (flash_inv_weaken env _ n t (t + ms) (S room) room ltac:(lia) ltac:(lia) Hfl) as Hfl'.
  destruct (pass (delay_timer st) ms) as [tm fired] eqn:Ep.
  destruct Htm as [[Hi Hw]|(d & Ha & Hact & Hd & Hw)].
  - destruct (pass_idle _ ms Hi) as (Hi' & Hf & _). rewrite Ep in Hi', Hf. simpl in Hi', Hf. subst fired.
    injection E as <-. split; [done|done|]. left. split; [done|lia].
  - destruct (Z.lt_ge_cases ms d).
    + destruct (pass_early _ d ms Ha) as (Ha' & Hf & Hact'); [lia|]. rewrite Ep in Ha', Hf, Hact'.
      simpl in Ha', Hf, Hact'. subst fired. injection E as <-. split; [done|done|]. right.
      exists (d - ms). split_and!; [done|simpl; congruence|lia|lia].
    + destruct (pass_due _ d ms Ha) as (Hi' & Hf); [lia|]. rewrite Ep in Hi', Hf. simpl in Hi', Hf.
      subst fired. unfold delay_callback in E. apply obind_inv in E as ([err st1] & Ew & E).
      apply obind_inv in E as (tm' & Et & [= <-]). apply stop_idle in Et.
      unfold retry_counter_write_delay_period_status, retry_fs in Ew.
      cbn [unlock_retry_counter_fs set_auth set_delay_timer] in Ew. rewrite Hfs in Ew. cbn [obind] in Ew.
      destruct Hfl as (Hp & c & f & free & Hc & Hroom & Hn & Hf). destruct free as [|free]; [lia|].
      destruct (indexfs_set_flag_spec _ _ _ _ _ DELAY_COMPLETE Hc ltac:(done)) as (ok & fl' & Es & Hc' & Hok).
      cbn [u_flash set_auth set_delay_timer] in Ew. rewrite Es in Ew. cbn [obind] in Ew.
      injection Ew as <- <-. split; [done| |left; split; [done|lia]]. split; [lia|].
      do 3 eexists. split_and!; [exact Hc'|destruct ok; lia|done|]. intros _. lia.
Qed.

Lemma attack_step_inv env st ev n t room st' rs k : 0 ≤ t → 0 ≤ ev_time ev →
  attack_inv env st n t (S (S room)) → attack_step env st ev = Done (st', rs, k) →
  UNLOCK_OK ∉ rs → attack_inv env st' (k + n) (t + ev_time ev) room.
Proof.
  intros Ht Hev Hinv E Hrs. destruct ev as [secret|secret|ms|]; simpl in Hev |- *; rewrite ?Z.add_0_r.
  - unfold attack_step, unlock_check_secret in E. apply obind_inv in E as ([st1 out] & E & [= <- <- <-]).
    apply not_elem_of_cons in Hrs as [Hout _].
    apply obind_inv in E as ([st2 r] & Eb & E). apply (unlock_check_begin_inv env _ n t (S room)) in Eb; try done.
    destruct r as [out'|c].
    { injection E as <- <-. destruct Eb as [[? Hfl ?] ->]. split; [done| |done].
      by eapply flash_inv_weaken; [| |exact Hfl]; lia. }
    apply obind_inv in E as ([st3 cmp] & Ec & E).
    apply unlock_check_compare_frame in Ec as Hframe. destruct Hframe as [w ->]. apply counted_flash with (w := w) in Eb.
    destruct cmp as [err|[|]].
    + injection E as <- <-. simpl in *.
      assert (is_wrong err = 0%nat) as ->.
      { unfold unlock_check_compare in Ec. apply obind_inv in Ec as ([[e s] st4] & Er & Ec).
        unfold unlock_secret_read in Er. apply obind_inv in Er as ([[b|] w'] & _ & [= <- <- <-]);
          [|by injection Ec as _ <-].
        cbn in Ec. by apply obind_inv in Ec as (? & _ & ?). }
      split; [apply Eb| |left; split; apply Eb].
      eapply flash_inv_weaken; [| |apply (counted_flash_inv _ _ _ _ _ _ 0 ltac:(lia) Eb)]; lia.
    + destruct (unlock_check_success_inv _ _ _ _ _ _ _ _ Ht Eb E) as [? ->]; [congruence|done].
    + destruct (unlock_check_wrong_inv _ _ _ _ _ _ _ _ Ht Eb E) as [[? Hfl ?] ->]. split; [done| |done].
      by eapply flash_inv_weaken; [| |exact Hfl]; lia.
  - unfold attack_step in E. apply obind_inv in E as ([st2 r] & Eb & E).
    apply (unlock_check_begin_inv env _ n t (S room)) in Eb; try done. destruct r as [out'|c].
    + apply obind_inv in E as (st3 & E & [= <- <- <-]). destruct Eb as [[? Hfl ?] _].
      eapply unlock_boot_inv; [done| |done]. by eapply flash_inv_weaken; [| |exact Hfl]; lia.
    + apply obind_inv in E as ([st3 cmp] & Ec & E). apply unlock_check_compare_frame in Ec as [w ->].
      apply counted_flash with (w := w) in Eb. apply obind_inv in E as (st4 & E & [= <- <- <-]).
      eapply unlock_boot_inv; [done| |exact E].
      eapply flash_inv_weaken; [| |eapply counted_flash_inv; [|exact Eb]]; [lia|lia|].
      by repeat case_match; lia.
  - unfold attack_step in E. apply obind_inv in E as (st1 & E & [= <- <- <-]). simpl.
    eapply unlock_pass_inv; [done| |exact E]. destruct Hinv as [? Hfl ?]. split; [done| |done].
    by eapply flash_inv_weaken; [| |exact Hfl]; lia.
  - unfold attack_step in E. apply obind_inv in E as (st1 & E & [= <- <- <-]). simpl.
    destruct Hinv as [? Hfl ?]. eapply unlock_boot_inv; [done| |exact E].
    by eapply flash_inv_weaken; [| |exact Hfl]; lia.
Qed.

Lemma attack_run_inv env evs : ∀ st n t room st' rs k, 0 ≤ t → Forall (λ ev, 0 ≤ ev_time ev) evs →
  (2 * length evs ≤ room)%nat → attack_inv env st n t room →
  attack_run env st evs = Done (st', rs, k) → UNLOCK_OK ∉ rs →
  total_delay (pred (k + n)) ≤ t + trace_time evs.
Proof.
  induction evs as [|ev evs IH]; intros st n t room st' rs k Ht Hok Hroom Hinv E Hrs.
  - injection E as <- <- <-. simpl. destruct Hinv as [_ [Hp _] _]. lia.
  - apply Forall_cons in Hok as [Hev Hok]. simpl in Hroom. destruct room as [|[|room]]; [lia|lia|].
    cbn [attack_run] in E. apply obind_inv in E as ([[st1 rs1] k1] & E1 & E).
    apply obind_inv in E as ([[st2 rs2] k2] & E2 & [= <- <- <-]).
    apply not_elem_of_app in Hrs as [Hrs1 Hrs2].
    pose proof (attack_step_inv _ _ _ _ _ _ _ _ _ Ht Hev Hinv E1 Hrs1) as Hinv1.
    assert (Hle : total_delay (pred (k2 + (k1 + n))) ≤ t + ev_time ev + trace_time evs)
      by (eapply IH; [|done| |exact Hinv1|exact E2|done]; lia).
    simpl. replace (k1 + k2 + n)%nat with (k2 + (k1 + n))%nat by lia. lia.
Qed.

(** C4: whoever holds the device and does not know the secret is slowed down.
    From a reset with a cleared retry counter, in a sequence of attempts, waits
    and resets - resets between the comparison and its consequences included,
    flash writes failing or not - in which no attempt succeeds, [n] secrets found
    wrong cost at least the delays after the first [n - 1] failed attempts. The
    sequence has fewer than half as many events as the page of the counter has
    free words ([free], at most 2045), because an event writes up to two entries:
    on a full page the counter leaves its page
    ([IndexFs.indexfs_increment_leaves_page]) and nothing is claimed. *)
Theorem unlock_rate_limit (env : unlock_env) (st0 st1 st : unlock_st) (f : Z) (free : nat)
    (evs : list attack_ev) (rs : list unlock_err_t) (n : nat) :
  counter_at (retry_log env) (u_flash st0) 0 f free →
  (2 * length evs < free)%nat → Forall (λ ev, 0 ≤ ev_time ev) evs →
  unlock_boot env st0 = Done st1 →
  attack_run env st1 evs = Done (st, rs, n) → UNLOCK_OK ∉ rs →
  total_delay (pred n) ≤ trace_time evs.
Proof.
  intros Hc Hlen Hok Hboot Hrun Hrs. rewrite <- (Nat.add_0_r n).
  apply (attack_run_inv env evs st1 0 0 (2 * length evs) st rs n); try done.
  eapply unlock_boot_inv; [done| |exact Hboot]. split; [done|].
  exists 0, f, free. split_and!; [done|lia|lia|done].
Qed.

(** ** The outcome of one attempt *)

(** An attempt that got past the delay and the counter write. *)
Lemma unlock_check_counted env st c f free st1 c1 :
  unlock_retry_counter_fs st = Some (retry_log env) →
  counter_at (retry_log env) (u_flash st) c f (S (S free)) →
  unlock_check_begin st = Done (st1, inr c1) →
  c1 = c + 1 ∧ ∃ fl rem, st1 = set_flash st fl ∧ get_remaining_delay_ms st = Done rem ∧ rem ≤ 0
    ∧ counter_at (retry_log env) fl (c + 1) FLAGS_EMPTY (S free).
Proof.
  intros Hfs Hc E. unfold unlock_check_begin, unlock_secret_exists in E. case_match; [done|].
  rewrite (retry_counter_read_spec env st c f _ Hfs Hc) in E. cbn [obind] in E.
  rewrite (bool_decide_eq_false_2 (UNLOCK_OK ≠ UNLOCK_OK)) in E by (by intros []).
  apply obind_inv in E as (rem & Er & E). destruct (0 <? rem) eqn:Erem; [done|]. btest.
  pose proof (counter_range _ _ _ _ _ Hc). unfold UINT16_MAX in *.
  rewrite (proj2 (Z.ltb_lt c UINT32_MAX)) in E by (unfold UINT32_MAX; lia).
  apply obind_inv in E as ([err st2] & Ew & E).
  destruct (retry_counter_write_next _ _ _ _ _ _ _ Hfs Hc Ew) as (fl' & -> & [[-> Hc']|[-> _]]).
  - rewrite (bool_decide_eq_false_2 (UNLOCK_OK ≠ UNLOCK_OK)) in E by (by intros []).
    injection E as <- <-. split; [done|]. by exists fl', rem.
  - by rewrite bool_decide_eq_true_2 in E by done.
Qed.

Lemma unlock_check_begin_errors st st1 out : unlock_check_begin st = Done (st1, inl out) →
  out_err out ≠ UNLOCK_OK ∧ is_wrong (out_err out) = 0%nat.
Proof.
  unfold unlock_check_begin. intros E. destruct (unlock_secret_exists st) as [err p].
  destruct (_ || _); [by injection E as <- <-|]. apply obind_inv in E as ([err2 c] & _ & E).
  case_bool_decide; [by injection E as <- <-|]. apply obind_inv in E as (rem & _ & E).
  destruct (0 <? rem); [by injection E as <- <-|]. apply obind_inv in E as ([err3 st2] & _ & E).
  case_bool_decide; [by injection E as <- <-|done].
Qed.

(** The comparison of [unlock_check_compare] is the equality of the secrets. *)
Lemma unlock_check_compare_spec st secret st1 m : bytes_ok secret → zlen secret = SHA256_DIGEST_SIZE →
  unlock_check_compare st secret = Done (st1, inr m) →
  ∃ stored w, wkek_read_and_decrypt (u_wkek st) UNLOCK_SECRET_PATH SHA256_DIGEST_SIZE = Done (Some stored, w)
    ∧ st1 = set_wkek st w
    ∧ (bytes_ok stored → zlen stored = SHA256_DIGEST_SIZE → m = bool_decide (secret = stored)).
Proof.
  intros Hb Hl E. unfold unlock_check_compare, unlock_secret_read in E.
  apply obind_inv in E as ([[err sec] st2] & E1 & E). apply obind_inv in E1 as ([[b|] w] & Er & [= <- <- <-]).
  - exists b, w. rewrite (bool_decide_eq_false_2 (UNLOCK_OK ≠ UNLOCK_OK)) in E by (by intros []).
    apply obind_inv in E as (r & Ec & [= <- <-]). split_and!; [done|done|]. intros Hb' Hl'.
    unfold compare_secrets in Ec. rewrite <- Hl in Ec.
    destruct (memcmp_s_zero secret b) as (v & Ev & Hv); [unfold zlen in *; lia|done|done|].
    rewrite Ev in Ec. simpl in Ec. injection Ec as <-. destruct (v =? 0) eqn:E0; btest.
    + by rewrite bool_decide_eq_true_2 by tauto.
    + by rewrite bool_decide_eq_false_2 by tauto.
  - by rewrite bool_decide_eq_true_2 in E by done.
Qed.

(** C5: [unlock_check_secret] returns [UNLOCK_OK] only for the stored secret
    and only when no delay is pending; the retry counter is then 0 and the
    session is open. *)
Theorem unlock_ok_sound (env : unlock_env) (st st' : unlock_st) (secret : list Z) (out : check_out)
    (c f : Z) (free : nat) :
  unlock_retry_counter_fs st = Some (retry_log env) →
  counter_at (retry_log env) (u_flash st) c f (S (S (S free))) →
  bytes_ok secret → zlen secret = SHA256_DIGEST_SIZE →
  unlock_check_secret st secret = Done (st', out) → out_err out = UNLOCK_OK →
  (∃ rem, get_remaining_delay_ms st = Done rem ∧ rem ≤ 0)
  ∧ (∃ stored w, wkek_read_and_decrypt (u_wkek st) UNLOCK_SECRET_PATH SHA256_DIGEST_SIZE
                   = Done (Some stored, w)
       ∧ (bytes_ok stored → zlen stored = SHA256_DIGEST_SIZE → secret = stored))
  ∧ retry_counter_read st' = Done (UNLOCK_OK, 0)
  ∧ is_authenticated (u_auth st') = SECURE_TRUE
  ∧ auth_get_unlock_method (u_auth st') = AUTH_METHOD_UNLOCK_SECRET
  ∧ idle (delay_timer st').
Proof.
  intros Hfs Hc Hb Hl E Hok. unfold unlock_check_secret in E. apply obind_inv in E as ([st1 r] & Eb & E).
  destruct r as [out'|c1]; [injection E as <- <-; by apply unlock_check_begin_errors in Eb as [? _]|].
  destruct (unlock_check_counted _ _ _ _ _ _ _ Hfs Hc Eb) as (-> & fl & rem & -> & Hrem & Hle & Hc1).
  split; [by exists rem|]. apply obind_inv in E as ([st2 cmp] & Ec & E). destruct cmp as [err|m].
  { injection E as <- <-. simpl in Hok. subst err. unfold unlock_check_compare in Ec.
    apply obind_inv in Ec as ([[e s] st4] & Er & Ec). case_bool_decide; [by injection Ec as <- ->|].
    by apply obind_inv in Ec as (? & _ & ?). }
  destruct (unlock_check_compare_spec _ _ _ _ Hb Hl Ec) as (stored & w & Hst & -> & Hm).
  destruct m; cycle 1.
  { unfold unlock_check_wrong in E. apply obind_inv in E as (? & _ & E). apply obind_inv in E as (? & _ & E).
    case_match; by injection E as <- <-. }
  split.
  { exists stored, w. split; [done|]. intros ? ?. apply (bool_decide_eq_true_1 (secret = stored)). by rewrite <- Hm. }
  clear Hm. unfold unlock_check_success in E. apply obind_inv in E as ([err st3] & Ew & E).
  case_bool_decide as Herr; [by injection E as <- <-|].
  apply obind_inv in E as (sl & _ & E). apply obind_inv in E as (tm & Et & E).
  apply obind_inv in E as (a & Ea & [= <- <-]). apply stop_idle in Et.
  split; [|unfold auth_authenticate_unlock_secret, do_authenticate in Ea;
    apply obind_inv in Ea as (? & _ & Ea); apply obind_inv in Ea as (? & _ & Ea);
    apply obind_inv in Ea as (? & _ & [= <-]); done].
  unfold retry_counter_write, retry_fs in Ew. cbn [unlock_retry_counter_fs set_wkek set_flash] in Ew.
  rewrite Hfs in Ew. cbn [obind] in Ew. change (0 =? 0) with true in Ew. cbv iota in Ew.
  destruct (indexfs_clear_spec _ _ _ _ _ Hc1) as (ok & fl' & Ei & Hc' & _).
  cbn [u_flash set_wkek set_flash] in Ew. rewrite Ei in Ew. cbn [obind] in Ew.
  destruct ok; cbn [negb u_flash set_flash] in Ew; [|injection Ew as <- <-; discriminate Herr].
  apply obind_inv in Ew as (jw & _ & Ew). case_match; injection Ew as <- <-; [discriminate Herr|].
  by apply (retry_counter_read_spec env _ 0 FLAGS_EMPTY free).
Qed.

(** After a wrong secret the counter is one higher and persistent, the
    delay of the new count runs, and the attempts beyond [ATTEMPT_LIMIT] - and
    only those - take the limit response, which asks the key manager to wipe
    the wallet when the device is configured so. *)
Theorem unlock_wrong_spec (env : unlock_env) (st st' : unlock_st) (secret : list Z) (out : check_out)
    (c f : Z) (free : nat) :
  unlock_retry_counter_fs st = Some (retry_log env) →
  counter_at (retry_log env) (u_flash st) c f (S (S (S free))) →
  unlock_check_secret st secret = Done (st', out) → is_wrong (out_err out) = 1%nat →
  retry_counter_read st' = Done (UNLOCK_OK, c + 1) ∧ out_count out = Some (c + 1)
  ∧ (0 < delay_of (Z.to_nat (c + 1)) → armed (delay_timer st') (delay_of (Z.to_nat (c + 1)))
       ∧ out_delay out = Some (delay_of (Z.to_nat (c + 1))))
  ∧ out_err out = (if ATTEMPT_LIMIT <? c + 1 then UNLOCK_LIMIT_RESPONSE_TAKEN else UNLOCK_WRONG_SECRET)
  ∧ wipe_requests st' =
      (if (ATTEMPT_LIMIT <? c + 1) && (limit_response st =? RESPONSE_WIPE_STATE)
       then S (wipe_requests st) else wipe_requests st).
Proof.
  intros Hfs Hc E Hw. unfold unlock_check_secret in E. apply obind_inv in E as ([st1 r] & Eb & E).
  destruct r as [out'|c1]; [injection E as <- <-; apply unlock_check_begin_errors in Eb as [_ Hw0]; congruence|].
  destruct (unlock_check_counted _ _ _ _ _ _ _ Hfs Hc Eb) as (-> & fl & rem & -> & _ & _ & Hc1).
  apply obind_inv in E as ([st2 cmp] & Ec & E).
  apply unlock_check_compare_frame in Ec as Hframe. destruct Hframe as [w ->].
  destruct cmp as [err|[|]].
  { injection E as <- <-. unfold unlock_check_compare, unlock_secret_read in Ec.
    apply obind_inv in Ec as ([[e s] st4] & Er & Ec). apply obind_inv in Er as ([[b|] w'] & _ & [= <- <- <-]).
    - cbn in Ec. by apply obind_inv in Ec as (? & _ & ?).
    - by injection Ec as _ <-. }
  { unfold unlock_check_success in E. apply obind_inv in E as ([err st3] & _ & E).
    case_bool_decide; [by injection E as <- <-|].
    do 3 (apply obind_inv in E as (? & _ & E)). by injection E as <- <-. }
  unfold unlock_check_wrong in E. apply obind_inv in E as (st3 & Ed & E).
  apply obind_inv in E as (rem2 & Er & E). pose proof (counter_range _ _ _ _ _ Hc).
  set (st2 := set_wkek (set_flash st fl) w) in Ed.
  unfold begin_delay in Ed. rewrite (get_delay_spec env st2 (c + 1) FLAGS_EMPTY (S free) Hfs Hc1) in Ed.
  cbn [obind] in Ed. rewrite (proj2 (Z.eqb_neq (c + 1) 0)) in Ed by lia.
  change (FLAGS_EMPTY =? DELAY_COMPLETE) with false in Ed. cbn [orb] in Ed. cbv iota in Ed.
  set (dl := delay_of (Z.to_nat (c + 1))) in *. pose proof (delay_of_range (Z.to_nat (c + 1))).
  assert (Hst3 : ∃ sl tm, st3 = set_delay_timer (set_auth st2 (set_auth_sleep (u_auth st2) sl)) tm
    ∧ (0 < dl → armed tm dl ∧ tm_active tm = true) ∨ st3 = st2 ∧ dl = 0).
  { destruct (dl =? 0) eqn:E0; btest.
    - injection Ed as <-. by exists (auth_sleep (u_auth st)), (delay_timer st); right.
    - apply obind_inv in Ed as (sl & _ & Ed). apply obind_inv in Ed as (tm & Et & [= <-]).
      exists sl, tm. left. split; [done|]. intros. by apply start_armed in Et. }
  assert (Hres : u_flash st3 = fl ∧ unlock_retry_counter_fs st3 = Some (retry_log env)
    ∧ wipe_requests st3 = wipe_requests st ∧ limit_response st3 = limit_response st
    ∧ (0 < dl → armed (delay_timer st3) dl ∧ rem2 = dl)).
  { destruct Hst3 as (sl & tm & [[-> Ha]|[-> Hz]]); split_and!; try done; [|lia].
    intros Hpos. destruct (Ha Hpos) as [Ha' Hact]. split; [done|].
    rewrite (remaining_pending _ dl) in Er; [by injection Er|done|done|lia]. }
  destruct Hres as (Hfl & Hfs3 & Hwr & Hlr & Htm). rewrite <- Hlr, <- Hwr.
  destruct (ATTEMPT_LIMIT <? c + 1); injection E as <- <-; simpl.
  - unfold perform_limit_response. split_and!.
    + eapply (retry_counter_read_spec env _ (c + 1) FLAGS_EMPTY (S free)); repeat case_match; simpl; by rewrite ?Hfl.
    + done.
    + intros [? ->]%Htm. by repeat case_match.
    + done.
    + unfold RESPONSE_DELAY, RESPONSE_WIPE_STATE in *. repeat case_match; btest; try done; congruence.
  - split_and!; try done.
    + eapply (retry_counter_read_spec env _ (c + 1) FLAGS_EMPTY (S free)); [done|by rewrite Hfl].
    + by intros [? ->]%Htm.
Qed.

Context `{!LittlefsLaws L}.

(** Once [unlock_wipe_state] has removed the secret file no secret
    unlocks the device: every attempt is answered with
    [UNLOCK_NO_SECRET_PROVISIONED] and changes nothing. *)
Theorem unlock_wipe_spec (st st' : unlock_st) (s : fs_ctx L) (secret : list Z) :
  fs_remove (wkek_fs (u_wkek st)) UNLOCK_SECRET_PATH = (0, s) →
  unlock_wipe_state st = Done st' →
  unlock_check_secret st' secret = Done (st', mk_out UNLOCK_NO_SECRET_PROVISIONED None None).
Proof.
  intros Hrm E. unfold unlock_wipe_state in E. rewrite Hrm in E.
  destruct (fs_remove s LIMIT_RESPONSE_PATH) as [r2 s2] eqn:E2.
  destruct (fs_remove_spec _ _ _ _ Hrm) as (_ & Hgone & _). specialize (Hgone eq_refl).
  destruct (fs_remove_spec _ _ _ _ E2) as (Hkeep & _). apply obind_inv in E as ([err st1] & Er & [= <-]).
  assert (Hfs : wkek_fs (u_wkek st1) = s2).
  { unfold unlock_reset_retry_counter in Er. case_match; [by injection Er as _ <-|].
    apply obind_inv in Er as ([e1 c1] & _ & Er). case_bool_decide; [by injection Er as _ <-|].
    case_match; [by injection Er as _ <-|]. unfold retry_counter_write in Er.
    apply obind_inv in Er as (fs & _ & Er). apply obind_inv in Er as ([ok fl] & _ & Er).
    case_match; [by injection Er as _ <-|]. apply obind_inv in Er as (jw & _ & Er).
    case_match; by injection Er as _ <-. }
  unfold unlock_check_secret, unlock_check_begin, unlock_secret_exists. rewrite Hfs.
  destruct (fs_file_exists s2 UNLOCK_SECRET_PATH) eqn:Ex; [|by rewrite orb_true_r].
  apply fs_file_exists_data in Ex. rewrite Hkeep, Hgone in Ex by done. by destruct Ex.
Qed.
End Unlock.
Arguments unlock_st : clear implicits.

(** ** A device *)

Definition demo_env : unlock_env := mk_env (mk_layout 0x40000 0x20000 0 0x6000) 0x20000 60000.
Definition demo_secret : list Z := replicate 32 7.
Definition demo_guess : list Z := replicate 32 8.

(** The flash of a device whose retry log was just created. *)
Definition demo_flash : mem_flash :=
  match indexfs_create_static (F := mem_flash) (env_layout demo_env) (retry_log demo_env) [] with
  | Done (_, fl) => fl
  | _ => []
  end.

(** A device with a provisioned secret, switched off. *)
Definition demo_device : unlock_st count_timer mem_flash ram_fs Z :=
  let st := mk_unlock RESPONSE_DELAY (mk_timer None false) false None demo_flash
              (mk_wkek [] false ram_boot 3) (auth_boot sleep_boot) 0 in
  match unlock_provision_secret st demo_secret with
  | Done (_, st) => st
  | _ => st
  end.

(** The device after a boot and some events. *)
Definition demo_after (evs : list attack_ev) : unlock_st count_timer mem_flash ram_fs Z :=
  match unlock_boot demo_env demo_device with
  | Done st => match attack_run demo_env st evs with Done (st, _, _) => st | _ => st end
  | _ => demo_device
  end.

Lemma demo_log : counter_at (retry_log demo_env) demo_flash 0 0 2045.
Proof. by apply (indexfs_create_fresh (F := mem_flash) (env_layout demo_env) []). Qed.

Lemma unlock_rate_limit_witness :
  let evs := [AGuess demo_guess; AGuess demo_guess; AGuess demo_guess; AGuess demo_guess;
              AGuess demo_guess; AWait 10000; AGuessCut demo_guess; AWait 10000; AGuess demo_guess] in
  ∃ st1 st rs, unlock_boot demo_env demo_device = Done st1
    ∧ attack_run demo_env st1 evs = Done (st, rs, 6%nat)
    ∧ total_delay (pred 6) ≤ trace_time evs.
Proof.
  intros evs. eexists _, _, _. split; [vm_compute; reflexivity|]. split; [vm_compute; reflexivity|].
  eapply (unlock_rate_limit demo_env demo_device _ _ 0 2045 evs).
  - exact demo_log.
  - subst evs. cbn [length]. lia.
  - repeat constructor; vm_compute; discriminate.
  - vm_compute. reflexivity.
  - vm_compute. reflexivity.
  - apply (bool_decide_unpack _). vm_compute. exact I.
Defined.

Lemma demo_after_flash : unlock_retry_counter_fs (demo_after []) = Some (retry_log demo_env)
  ∧ u_flash (demo_after []) = demo_flash.
Proof. vm_compute. split; reflexivity. Qed.

Lemma unlock_ok_sound_witness :
  ∃ st' out, unlock_check_secret (demo_after []) demo_secret = Done (st', out)
    ∧ out_err out = UNLOCK_OK ∧ is_authenticated (u_auth st') = SECURE_TRUE.
Proof.
  eexists _, _. split; [vm_compute; reflexivity|]. split; [reflexivity|].
  eapply (unlock_ok_sound demo_env (demo_after []) _ demo_secret _ 0 0 2042).
  - apply demo_after_flash.
  - rewrite (proj2 demo_after_flash). exact demo_log.
  - apply Forall_replicate. unfold byte_ok. lia.
  - reflexivity.
  - vm_compute. reflexivity.
  - reflexivity.
Defined.

Lemma unlock_wrong_spec_witness :
  ∃ st' out, unlock_check_secret (demo_after []) demo_guess = Done (st', out)
    ∧ retry_counter_read st' = Done (UNLOCK_OK, 1) ∧ out_count out = Some 1.
Proof.
  eexists _, _. split; [vm_compute; reflexivity|].
  refine (let Hw := unlock_wrong_spec demo_env (demo_after []) _ demo_guess _ 0 0 2042 ?[Hlog] ?[Hctr]
                      ?[Hrun] ?[Hwrong] in conj (proj1 Hw) (proj1 (proj2 Hw))).
  - apply demo_after_flash.
  - rewrite (proj2 demo_after_flash). exact demo_log.
  - vm_compute. reflexivity.
  - reflexivity.
Defined.

Lemma unlock_wipe_spec_witness :
  ∃ st', unlock_wipe_state (demo_after []) = Done st'
    ∧ unlock_check_secret st' demo_secret
      = Done (st', mk_out UNLOCK_NO_SECRET_PROVISIONED None None).
Proof.
  eexists. split; [vm_compute; reflexivity|].
  eapply (unlock_wipe_spec (demo_after [])).
  - vm_compute. reflexivity.
  - vm_compute. reflexivity.
Defined.

(** The first boot persists [DEFAULT_LIMIT_RESPONSE] but runs with
    [RESPONSE_DELAY], because [limit_response_read] reports the missing file. *)
Lemma unlock_first_boot_response :
  limit_response (demo_after []) = RESPONSE_DELAY
  ∧ fs_data (wkek_fs (u_wkek (demo_after []))) LIMIT_RESPONSE_PATH = Some [RESPONSE_WIPE_STATE].
Proof. vm_compute. split; reflexivity. Qed.
