(* ===== verification/Confirmation.v ===== *)
(** * Two-tap confirmations (lib/confirmation)

    confirmation_manager.c: one pending operation at a time, with two random
    handles, that the user approves on the screen and the phone then executes.
    Every function runs under [confirmation_mutex]. The results of
    [crypto_random] and of [rtos_thread_systime] are arguments. *)

From S2P Require Import Prelude Wstring.

Definition CONFIRMATION_TIMEOUT_MS : Z := 60 * 1000.
Definition CONFIRMATION_HANDLE_SIZE : Z := 32.
Definition MAX_OPERATION_DATA_SIZE : Z := 256.

(** [confirmation_type_t]: 0 is [CONFIRMATION_TYPE_NONE], and
    [CONFIRMATION_TYPE_COUNT] follows the last operation. *)
Definition CONFIRMATION_TYPE_NONE : Z := 0.
Definition CONFIRMATION_TYPE_COUNT : Z := 17.

Inductive confirmation_result_t :=
| CONFIRMATION_RESULT_SUCCESS
| CONFIRMATION_RESULT_ERROR
| CONFIRMATION_RESULT_ALREADY_PENDING
| CONFIRMATION_RESULT_INVALID_PARAMS
| CONFIRMATION_RESULT_TIMEOUT
| CONFIRMATION_RESULT_NOT_APPROVED
| CONFIRMATION_RESULT_TYPE_MISMATCH.
#[global] Instance confirmation_result_eq_dec : EqDecision confirmation_result_t.
Proof. solve_decision. Defined.

Record pending_confirmation_t := mk_pending {
  active : secure_bool_t;
  user_approved : secure_bool_t;
  ptype : Z;
  response_handle : list Z;
  confirmation_handle : list Z;
  timestamp : Z;
  operation_data : list Z;
  operation_data_size : Z;
}.

Section Confirmation.
(** The result handlers that the tasks register. *)
Context {H : Type}.

(** The statics of the file. *)
Record confirmation_ctx := mk_cm {
  pending : pending_confirmation_t;
  mutex_created : bool;
  result_handlers : list (option H);
}.

Definition reset_pending_confirmation : pending_confirmation_t :=
  mk_pending SECURE_FALSE SECURE_FALSE 0 (replicate 32 0) (replicate 32 0) 0 (replicate 256 0) 0.

(** The zeroed BSS before [confirmation_manager_init]. *)
Definition confirmation_boot : confirmation_ctx :=
  mk_cm (mk_pending 0 0 0 (replicate 32 0) (replicate 32 0) 0 (replicate 256 0) 0) false
    (replicate 17 None).

Definition set_pending (cm : confirmation_ctx) (p : pending_confirmation_t) : confirmation_ctx :=
  mk_cm p (mutex_created cm) (result_handlers cm).

Definition confirmation_manager_init (cm : confirmation_ctx) : confirmation_ctx :=
  mk_cm reset_pending_confirmation true (result_handlers cm).

(** [operation_data] is [None] for a NULL pointer, [outs] whether both output
    pointers are set; [rng1] and [rng2] are the bytes that the two calls of
    [crypto_random] produce, [None] when they fail. On success the two handles
    are returned. *)
Definition confirmation_manager_create (cm : confirmation_ctx) (type : Z) (data : option (list Z))
    (data_size : Z) (outs : bool) (response_handle_size confirmation_handle_size : Z)
    (rng1 rng2 : option (list Z)) (systime : Z)
    : outcome (confirmation_result_t * option (list Z * list Z) * confirmation_ctx) :=
  let! _ := ASSERT (mutex_created cm) in
  if MAX_OPERATION_DATA_SIZE <? data_size then Done (CONFIRMATION_RESULT_INVALID_PARAMS, None, cm)
  else
    match data with
    | None => Done (CONFIRMATION_RESULT_INVALID_PARAMS, None, cm)
    | Some data =>
        if negb outs then Done (CONFIRMATION_RESULT_INVALID_PARAMS, None, cm)
        else if negb (response_handle_size =? CONFIRMATION_HANDLE_SIZE)
                || negb (confirmation_handle_size =? CONFIRMATION_HANDLE_SIZE)
        then Done (CONFIRMATION_RESULT_INVALID_PARAMS, None, cm)
        else
          let p := if active (pending cm) =? SECURE_TRUE then reset_pending_confirmation
                   else pending cm in
          match rng1 with
          | None => Done (CONFIRMATION_RESULT_ERROR, None, set_pending cm reset_pending_confirmation)
          | Some rh =>
              match rng2 with
              | None => Done (CONFIRMATION_RESULT_ERROR, None, set_pending cm reset_pending_confirmation)
              | Some ch =>
                  let! src := mread data 0 data_size in
                  let! opdata := mwrite (operation_data p) 0 src in
                  Done (CONFIRMATION_RESULT_SUCCESS, Some (rh, ch),
                        set_pending cm (mk_pending SECURE_TRUE SECURE_FALSE type rh ch systime
                                          opdata data_size))
              end
          end
    end.

Definition confirmation_manager_validate (cm : confirmation_ctx) (rh : option (list Z))
    (response_handle_size : Z) (ch : option (list Z)) (confirmation_handle_size : Z) (systime : Z)
    : outcome (confirmation_result_t * confirmation_ctx) :=
  let! _ := ASSERT (mutex_created cm) in
  let p := pending cm in
  if negb (active p =? SECURE_TRUE) then Done (CONFIRMATION_RESULT_INVALID_PARAMS, cm)
  else
    match rh, ch with
    | Some rh, Some ch =>
        if negb (response_handle_size =? CONFIRMATION_HANDLE_SIZE)
           || negb (confirmation_handle_size =? CONFIRMATION_HANDLE_SIZE)
        then Done (CONFIRMATION_RESULT_INVALID_PARAMS, cm)
        else
          let elapsed_time := u32 (systime - timestamp p) in
          if CONFIRMATION_TIMEOUT_MS <? elapsed_time
          then Done (CONFIRMATION_RESULT_TIMEOUT, set_pending cm reset_pending_confirmation)
          else
            let! r1 := memcmp_s rh (response_handle p) CONFIRMATION_HANDLE_SIZE in
            let! differ :=
              if negb (r1 =? 0) then Done true
              else let! r2 := memcmp_s ch (confirmation_handle p) CONFIRMATION_HANDLE_SIZE in
                   Done (negb (r2 =? 0)) in
            if differ : bool then Done (CONFIRMATION_RESULT_INVALID_PARAMS, cm)
            else if negb (user_approved p =? SECURE_TRUE)
            then Done (CONFIRMATION_RESULT_NOT_APPROVED, cm)
            else Done (CONFIRMATION_RESULT_SUCCESS, cm)
    | _, _ => Done (CONFIRMATION_RESULT_INVALID_PARAMS, cm)
    end.

(** [outs]: whether both output pointers are set. *)
Definition confirmation_manager_get_operation_data (cm : confirmation_ctx) (expected_type : Z)
    (outs : bool) : outcome (option (list Z)) :=
  let! _ := ASSERT (mutex_created cm) in
  let p := pending cm in
  if negb (active p =? SECURE_TRUE) then Done None
  else if negb (ptype p =? expected_type) then Done None
  else if negb outs then Done None
  else let! data := mread (operation_data p) 0 (operation_data_size p) in Done (Some data).

Definition confirmation_manager_approve (cm : confirmation_ctx) : outcome confirmation_ctx :=
  let! _ := ASSERT (mutex_created cm) in
  let p := pending cm in
  if active p =? SECURE_TRUE
  then Done (set_pending cm (mk_pending (active p) SECURE_TRUE (ptype p) (response_handle p)
               (confirmation_handle p) (timestamp p) (operation_data p) (operation_data_size p)))
  else Done cm.

Definition confirmation_manager_is_approved (cm : confirmation_ctx) : outcome bool :=
  let! _ := ASSERT (mutex_created cm) in
  Done ((active (pending cm) =? SECURE_TRUE) && (user_approved (pending cm) =? SECURE_TRUE)).

Definition confirmation_manager_clear (cm : confirmation_ctx) : outcome confirmation_ctx :=
  let! _ := ASSERT (mutex_created cm) in
  Done (set_pending cm reset_pending_confirmation).

Definition confirmation_manager_is_pending (cm : confirmation_ctx) : outcome bool :=
  let! _ := ASSERT (mutex_created cm) in
  Done (active (pending cm) =? SECURE_TRUE).

Definition confirmation_manager_get_type (cm : confirmation_ctx) : outcome Z :=
  let! _ := ASSERT (mutex_created cm) in
  Done (if active (pending cm) =? SECURE_TRUE then ptype (pending cm) else CONFIRMATION_TYPE_NONE).

Definition confirmation_manager_refresh_timestamp (cm : confirmation_ctx) (systime : Z)
    : outcome confirmation_ctx :=
  let! _ := ASSERT (mutex_created cm) in
  let p := pending cm in
  if active p =? SECURE_TRUE
  then Done (set_pending cm (mk_pending (active p) (user_approved p) (ptype p) (response_handle p)
               (confirmation_handle p) systime (operation_data p) (operation_data_size p)))
  else Done cm.

Definition confirmation_manager_is_expired (cm : confirmation_ctx) (systime : Z) : outcome bool :=
  let! _ := ASSERT (mutex_created cm) in
  let p := pending cm in
  if (active p =? SECURE_TRUE) && negb (user_approved p =? SECURE_TRUE)
  then Done (CONFIRMATION_TIMEOUT_MS <? u32 (systime - timestamp p))
  else Done false.

Definition confirmation_manager_register_result_handler (cm : confirmation_ctx) (type : Z) (handler : H)
    : outcome confirmation_ctx :=
  if type <? CONFIRMATION_TYPE_COUNT then
    let! tbl := aset (result_handlers cm) type (Some handler) in
    Done (mk_cm (pending cm) (mutex_created cm) tbl)
  else Done cm.

(** The handler that is called, and the result. *)
Definition confirmation_manager_dispatch_result (cm : confirmation_ctx) : outcome (option H * bool) :=
  let! type := confirmation_manager_get_type cm in
  if type <? CONFIRMATION_TYPE_COUNT then
    let! h := aget (result_handlers cm) type in
    match h with Some h => Done (Some h, true) | None => Done (None, false) end
  else Done (None, false).

(** ** Events *)

(** The calls that change the state, with the arguments the tasks pass. *)
Inductive cm_ev :=
| CmCreate (type : Z) (data : list Z) (rng1 rng2 : option (list Z))
| CmValidate (rh ch : list Z)
| CmApprove
| CmClear
| CmRefresh.

Definition cm_validate (cm : confirmation_ctx) (rh ch : list Z) (now : Z)
    : outcome (confirmation_result_t * confirmation_ctx) :=
  confirmation_manager_validate cm (Some rh) (zlen rh) (Some ch) (zlen ch) (u32 now).

Definition cm_step (cm : confirmation_ctx) (now : Z) (ev : cm_ev) : outcome confirmation_ctx :=
  match ev with
  | CmCreate type data r1 r2 =>
      let! '(_, _, cm) := confirmation_manager_create cm type (Some data) (zlen data) true
                            CONFIRMATION_HANDLE_SIZE CONFIRMATION_HANDLE_SIZE r1 r2 (u32 now) in
      Done cm
  | CmValidate rh ch => let! '(_, cm) := cm_validate cm rh ch now in Done cm
  | CmApprove => confirmation_manager_approve cm
  | CmClear => confirmation_manager_clear cm
  | CmRefresh => confirmation_manager_refresh_timestamp cm (u32 now)
  end.

Fixpoint cm_run (cm : confirmation_ctx) (evs : list (Z * cm_ev)) : outcome confirmation_ctx :=
  match evs with
  | [] => Done cm
  | (now, ev) :: evs => let! cm := cm_step cm now ev in cm_run cm evs
  end.

(** ** Where an approved confirmation comes from *)

Definition handle_ok (h : list Z) : Prop := zlen h = CONFIRMATION_HANDLE_SIZE ∧ bytes_ok h.

(** [crypto_random] fills the whole handle. *)
Definition cm_ev_ok (ev : cm_ev) : Prop :=
  match ev with
  | CmCreate _ _ r1 r2 => (∀ h, r1 = Some h → handle_ok h) ∧ (∀ h, r2 = Some h → handle_ok h)
  | _ => True
  end.

(** An event that does not replace or clear the pending confirmation. *)
Definition quiet (e : Z * cm_ev) : Prop :=
  match e.2 with
  | CmCreate _ data _ _ => MAX_OPERATION_DATA_SIZE < zlen data
  | CmClear => False
  | _ => True
  end.

(** The pending confirmation was created by an event of the past, and nothing
    has replaced it since. *)
Definition created_by (past : list (Z * cm_ev)) (p : pending_confirmation_t) (t0 : Z) (data : list Z)
    (mid : list (Z * cm_ev)) : Prop :=
  (∃ pre, past = pre ++ (t0, CmCreate (ptype p) data (Some (response_handle p))
                               (Some (confirmation_handle p))) :: mid)
  ∧ Forall quiet mid
  ∧ ztake (operation_data_size p) (operation_data p) = data
  ∧ (user_approved p = SECURE_TRUE → ∃ ta, (ta, CmApprove) ∈ mid)
  ∧ ∃ tl, timestamp p = u32 tl ∧ (tl = t0 ∨ (tl, CmRefresh) ∈ mid).

Record cm_inv (past : list (Z * cm_ev)) (cm : confirmation_ctx) : Prop := {
  cm_mutex : mutex_created cm = true;
  cm_buffer : zlen (operation_data (pending cm)) = MAX_OPERATION_DATA_SIZE;
  cm_size : 0 ≤ operation_data_size (pending cm) ≤ MAX_OPERATION_DATA_SIZE;
  cm_active : active (pending cm) = SECURE_TRUE → ∃ t0 data mid,
    created_by past (pending cm) t0 data mid
    ∧ handle_ok (response_handle (pending cm)) ∧ handle_ok (confirmation_handle (pending cm));
}.

Lemma cm_inv_reset past cm : mutex_created cm = true →
  cm_inv past (set_pending cm reset_pending_confirmation).
Proof. intros ?. split; simpl; try done. Qed.

(** A quiet event extends the history of the pending confirmation. *)
Lemma created_by_snoc past p t0 data mid e : quiet e → created_by past p t0 data mid →
  created_by (past ++ [e]) p t0 data (mid ++ [e]).
Proof.
  intros He ((pre & ->) & Hq & Hd & Ha & tl & Ht & Htl). split_and!; [| |done| |].
  - exists pre. by rewrite <- app_assoc.
  - apply Forall_app. by split; [|constructor].
  - intros [ta Hta]%Ha. exists ta. apply elem_of_app. by left.
  - exists tl. split; [done|]. destruct Htl; [by left|right]. apply elem_of_app. by left.
Qed.

Lemma cm_inv_quiet past cm e : quiet e → cm_inv past cm → cm_inv (past ++ [e]) cm.
Proof.
  intros He [Hm Hb Hs Ha]. split; [done..|]. intros Hact.
  destruct (Ha Hact) as (t0 & data & mid & Hc & Hh). exists t0, data, (mid ++ [e]).
  split; [by apply created_by_snoc|done].
Qed.

Lemma cm_create_inv past cm now type data r1 r2 res hs cm' :
  cm_ev_ok (CmCreate type data r1 r2) → cm_inv past cm →
  confirmation_manager_create cm type (Some data) (zlen data) true
    CONFIRMATION_HANDLE_SIZE CONFIRMATION_HANDLE_SIZE r1 r2 (u32 now) = Done (res, hs, cm') →
  cm_inv (past ++ [(now, CmCreate type data r1 r2)]) cm'.
Proof.
  intros [Hr1 Hr2] Hinv E. pose proof Hinv as [Hm Hb Hs Ha].
  unfold confirmation_manager_create in E. rewrite Hm in E. simpl in E.
  destruct (MAX_OPERATION_DATA_SIZE <? zlen data) eqn:Elen; btest.
  { injection E as <- <- <-. by apply cm_inv_quiet. }
  destruct r1 as [rh|]; [|injection E as <- <- <-; by apply cm_inv_reset].
  destruct r2 as [ch|]; [|injection E as <- <- <-; by apply cm_inv_reset].
  apply obind_inv in E as (src & Es & E). rewrite mread_all in Es. injection Es as <-.
  set (p := if _ =? _ then _ else _) in E.
  assert (Hp : zlen (operation_data p) = MAX_OPERATION_DATA_SIZE) by (subst p; by case_match).
  apply obind_inv in E as (opd & Ew & [= <- <- <-]).
  unfold mwrite in Ew. case_match; [|done]. injection Ew as <-.
  pose proof (zlen_nonneg data). split; simpl; [done| |done|].
  - rewrite zlen_app, zlen_zdrop; lia.
  - intros _. exists now, data, []. split; [|by split; [apply Hr1|apply Hr2]].
    split_and!; simpl; [by exists past|done|by apply ztake_app_exact|done|]. exists now. auto.
Qed.

Lemma cm_step_inv past cm now ev cm' : cm_ev_ok ev → cm_inv past cm →
  cm_step cm now ev = Done cm' → cm_inv (past ++ [(now, ev)]) cm'.
Proof.
  intros Hok Hinv E. pose proof (cm_mutex _ _ Hinv) as Hm. destruct ev as [type data r1 r2|rh ch| | |].
  - apply obind_inv in E as ([[res hs] cm1] & E & [= <-]). by eapply cm_create_inv.
  - apply obind_inv in E as ([res cm1] & E & [= <-]). apply (cm_inv_quiet _ _ (now, CmValidate rh ch)) in Hinv; [|done].
    unfold cm_validate, confirmation_manager_validate in E. rewrite Hm in E. simpl in E.
    destruct (negb _); [by injection E as <- <-|]. destruct (_ || _); [by injection E as <- <-|].
    destruct (_ <? _); [injection E as <- <-; by apply cm_inv_reset|].
    apply obind_inv in E as (v & _ & E). apply obind_inv in E as ([|] & _ & E); [by injection E as <- <-|].
    destruct (negb _); by injection E as <- <-.
  - simpl in E. unfold confirmation_manager_approve in E. rewrite Hm in E. simpl in E.
    destruct (_ =? _) eqn:Eact; injection E as <-; [|by apply cm_inv_quiet]. btest.
    destruct Hinv as [_ Hb Hs Ha]. split; simpl; [done..|]. intros _.
    destruct (Ha Eact) as (t0 & data & mid & Hc & Hh). exists t0, data, (mid ++ [(now, CmApprove)]).
    split; [|done]. apply (created_by_snoc _ _ _ _ _ (now, CmApprove)) in Hc; [|done].
    destruct Hc as (H1 & H2 & H3 & _ & H4). split_and!; simpl; try done.
    intros _. exists now. apply elem_of_app. right. by constructor.
  - simpl in E. unfold confirmation_manager_clear in E. rewrite Hm in E. injection E as <-. by apply cm_inv_reset.
  - simpl in E. unfold confirmation_manager_refresh_timestamp in E. rewrite Hm in E. simpl in E.
    destruct (_ =? _) eqn:Eact; injection E as <-; [|by apply cm_inv_quiet]. btest.
    destruct Hinv as [_ Hb Hs Ha]. split; simpl; [done..|]. intros _.
    destruct (Ha Eact) as (t0 & data & mid & Hc & Hh). exists t0, data, (mid ++ [(now, CmRefresh)]).
    split; [|done]. apply (created_by_snoc _ _ _ _ _ (now, CmRefresh)) in Hc; [|done].
    destruct Hc as (H1 & H2 & H3 & H4 & _). split_and!; simpl; try done.
    exists now. split; [done|]. right. apply elem_of_app. right. by constructor.
Qed.

Lemma cm_run_inv evs : ∀ past cm cm', Forall (λ e, cm_ev_ok e.2) evs → cm_inv past cm →
  cm_run cm evs = Done cm' → cm_inv (past ++ evs) cm'.
Proof.
  induction evs as [|[now ev] evs IH]; intros past cm cm' Hok Hinv; simpl.
  - intros [= <-]. by rewrite app_nil_r.
  - apply Forall_cons in Hok as [Hev Hok]. intros (cm1 & E1 & E2)%obind_inv.
    rewrite (cons_middle (now, ev)), app_assoc.
    eapply IH; [done|by eapply cm_step_inv|done].
Qed.

(** The two comparisons of [confirmation_manager_validate]. *)
Lemma handle_cmp h1 h2 : handle_ok h1 → handle_ok h2 →
  ∃ r, memcmp_s h1 h2 CONFIRMATION_HANDLE_SIZE = Done r ∧ (r = 0 ↔ h1 = h2).
Proof.
  intros [Hl1 Hb1] [Hl2 Hb2]. rewrite <- Hl1. apply memcmp_s_zero; [|done|done].
  unfold zlen in *. lia.
Qed.

(** C25: [confirmation_manager_validate] accepts a pair of handles only if
    they were handed out by [confirmation_manager_create], the operation was
    approved on the screen after that, nothing replaced or cleared it, and it
    was created or refreshed within the timeout (modulo the wrap of the 32-bit
    clock); the operation data that is then executed are those it was created
    with. *)
Theorem confirmation_validate_sound (evs : list (Z * cm_ev)) (cm cm' : confirmation_ctx)
    (rh ch : list Z) (now : Z) :
  Forall (λ e, cm_ev_ok e.2) evs → handle_ok rh → handle_ok ch →
  cm_run (confirmation_manager_init confirmation_boot) evs = Done cm →
  cm_validate cm rh ch now = Done (CONFIRMATION_RESULT_SUCCESS, cm') →
  ∃ pre t0 type data mid ta tl,
    evs = pre ++ (t0, CmCreate type data (Some rh) (Some ch)) :: mid
    ∧ Forall quiet mid
    ∧ (ta, CmApprove) ∈ mid
    ∧ (tl = t0 ∨ (tl, CmRefresh) ∈ mid) ∧ u32 (now - tl) ≤ CONFIRMATION_TIMEOUT_MS
    ∧ confirmation_manager_get_operation_data cm' type true = Done (Some data).
Proof.
  intros Hok Hrh Hch Hrun Hval.
  assert (Hinv : cm_inv ([] ++ evs) cm).
  { eapply cm_run_inv; [done| |exact Hrun]. by split. }
  destruct Hinv as [Hm Hb Hs Ha]. unfold cm_validate, confirmation_manager_validate in Hval.
  rewrite Hm in Hval. simpl in Hval.
  destruct (active (pending cm) =? SECURE_TRUE) eqn:Eact; simpl in Hval; [|done]. btest.
  destruct (_ || _); [done|]. destruct (_ <? _) eqn:Et; [done|]. btest.
  destruct (Ha Eact) as (t0 & data & mid & ((pre & Hpre) & Hq & Hd & Happ & tl & Htl & Htm) & Hh1 & Hh2).
  destruct (handle_cmp _ _ Hrh Hh1) as (v1 & E1 & Hv1). destruct (handle_cmp _ _ Hch Hh2) as (v2 & E2 & Hv2).
  rewrite E1 in Hval. simpl in Hval. destruct (v1 =? 0) eqn:Z1; simpl in Hval; [|done]. btest.
  rewrite E2 in Hval. simpl in Hval. destruct (v2 =? 0) eqn:Z2; simpl in Hval; [|done]. btest.
  destruct (user_approved (pending cm) =? SECURE_TRUE) eqn:Eapp; simpl in Hval; [|done]. btest.
  injection Hval as <-. destruct (Happ Eapp) as [ta Hta].
  apply Hv1 in Z1. apply Hv2 in Z2. subst rh ch.
  exists pre, t0, (ptype (pending cm)), data, mid, ta, tl. split_and!; try done.
  - rewrite Htl in Et. unfold u32 in *. by rewrite <- Zminus_mod in Et.
  - unfold confirmation_manager_get_operation_data. rewrite Hm, Eact. simpl. rewrite Z.eqb_refl. simpl.
    unfold mread. zdecide. simpl. by rewrite zdrop_0, Hd.
Qed.
End Confirmation.
Arguments confirmation_ctx : clear implicits.

Lemma confirmation_validate_sound_witness :
  let evs := [(10, CmCreate 2 [1; 2; 3] (Some (replicate 32 5)) (Some (replicate 32 6)));
              (500, CmRefresh); (700, CmApprove)] in
  ∃ cm cm', cm_run (H := unit) (confirmation_manager_init confirmation_boot) evs = Done cm
    ∧ cm_validate cm (replicate 32 5) (replicate 32 6) 60400 = Done (CONFIRMATION_RESULT_SUCCESS, cm')
    ∧ ∃ pre t0 type data mid ta tl,
        evs = pre ++ (t0, CmCreate type data (Some (replicate 32 5)) (Some (replicate 32 6))) :: mid
        ∧ Forall quiet mid ∧ (ta, CmApprove) ∈ mid
        ∧ (tl = t0 ∨ (tl, CmRefresh) ∈ mid) ∧ u32 (60400 - tl) ≤ CONFIRMATION_TIMEOUT_MS
        ∧ confirmation_manager_get_operation_data cm' type true = Done (Some data).
Proof.
  intros evs. eexists _, _. split; [vm_compute; reflexivity|]. split; [vm_compute; reflexivity|].
  assert (Hh : ∀ b, 0 ≤ b < 256 → handle_ok (replicate 32 b)).
  { intros b Hb. split; [reflexivity|]. by apply Forall_replicate. }
  eapply (confirmation_validate_sound (H := unit) evs).
  - unfold evs. rewrite !Forall_cons. split_and!; try done.
    split; intros h [= <-]; [apply (Hh 5)|apply (Hh 6)]; lia.
  - apply Hh. lia.
  - apply Hh. lia.
  - vm_compute. reflexivity.
  - vm_compute. reflexivity.
Defined.
