(* ===== verification/Grant.v ===== *)
(** * Grants (lib/grant_protocol)

    grant_protocol.c and grant_protocol_storage.c: the device asks the server
    for the authorisation of an action, and acts only on a grant for exactly
    that request. The packed structs are the byte buffers that the code copies
    them as; the offsets are those of grant_protocol.h.

    The signature schemes, the hash, the key derivation and the chip id are
    parameters; no property of theirs is assumed. *)

From S2P Require Import Prelude Fs.
#[global] Open Scope Z_scope.

Definition GRANT_PROTOCOL_VERSION : Z := 1.
Definition GRANT_DEVICE_ID_LEN : Z := 8.
Definition GRANT_CHALLENGE_LEN : Z := 16.
Definition GRANT_SIGNATURE_LEN : Z := 64.
Definition ACTION_INVALID : Z := 0.
Definition ACTION_FINGERPRINT_RESET : Z := 1.
Definition GRANT_REQUEST_PATH : string := "grant-request.bin".
Definition APP_AUTH_PUBKEY_PATH : string := "app-auth-pubkey.bin".

(** [sizeof(grant_request_t)] and the offsets of its fields. *)
Definition GRANT_REQUEST_SIZE : Z := 90.
Definition REQ_VERSION : Z := 0.
Definition REQ_DEVICE_ID : Z := 1.
Definition REQ_CHALLENGE : Z := 9.
Definition REQ_ACTION : Z := 25.
Definition GRANT_REQUEST_EXCLUDING_SIGNATURE_LEN : Z := 26.

(** [sizeof(grant_t)] and the offsets of its fields. *)
Definition GRANT_SIZE : Z := 219.
Definition GRANT_VERSION : Z := 0.
Definition GRANT_SERIALIZED_REQUEST : Z := 1.
Definition GRANT_APP_SIGNATURE : Z := 91.
Definition GRANT_EXCLUDING_WSM_SIGNATURE_LEN : Z := 155.

(** "BKGrantReq", "BKGrant" and "BKAppBind". *)
Definition GRANT_REQUEST_LABEL : list Z := [66; 75; 71; 114; 97; 110; 116; 82; 101; 113].
Definition GRANT_LABEL : list Z := [66; 75; 71; 114; 97; 110; 116].
Definition APP_BIND_LABEL : list Z := [66; 75; 65; 112; 112; 66; 105; 110; 100].

Inductive grant_protocol_result_t :=
| GRANT_RESULT_OK
| GRANT_RESULT_ERROR_SIGNING
| GRANT_RESULT_ERROR_VERIFICATION
| GRANT_RESULT_ERROR_REQUEST_MISMATCH
| GRANT_RESULT_ERROR_VERSION_MISMATCH
| GRANT_RESULT_ERROR_INTERNAL
| GRANT_RESULT_ERROR_STORAGE
| GRANT_RESULT_ERROR_APP_VERIFICATION
| GRANT_RESULT_ERROR_NO_APP_PUBKEY
| GRANT_RESULT_ERROR_INVALID_ARGUMENT.
#[global] Instance grant_result_eq_dec : EqDecision grant_protocol_result_t.
Proof. solve_decision. Defined.

(** What the protocol calls outside of the component; [K] is the type of the
    hardware authentication key. *)
Class GrantHost (K : Type) := {
  wallet_get_w1_auth_key : option K;
  crypto_hash_sha256 : list Z → option (list Z);
  bip32_sign : K → list Z → option (list Z);
  crypto_ecc_secp256k1_verify_signature : list Z → list Z → list Z → bool;
  crypto_ecc_secp256k1_pubkey_verify : list Z → bool;
  wsm_verify_signature : list Z → list Z → bool;
  sysinfo_chip_id_read : list Z;
}.

Section Grant.
Context {L K : Type} `{Littlefs L} `{GrantHost K}.

(** [grant_ctx] with the file system; [grants_presented] counts the
    [IPC_AUTH_PRESENT_GRANT_FOR_FINGERPRINT_ENROLLMENT] messages sent to the
    auth task. [wik_pubkey] is [Some] of whether the production key is
    selected. *)
Record grant_ctx := mk_grant {
  wik_pubkey : option bool;
  outstanding_request : list Z;
  grant_fs : fs_ctx L;
  grants_presented : nat;
}.

Definition set_grant_fs (g : grant_ctx) (s : fs_ctx L) : grant_ctx :=
  mk_grant (wik_pubkey g) (outstanding_request g) s (grants_presented g).

Definition is_ok (r : grant_protocol_result_t) : bool := bool_decide (r = GRANT_RESULT_OK).

(** ** grant_protocol_storage.c *)

Definition grant_write_to_filesystem (s : fs_ctx L) (path : string) (data : list Z)
    : outcome (grant_protocol_result_t * fs_ctx L) :=
  let! _ := ASSERT (0 <? zlen data) in
  let '(ret, s) := fs_open_global s path (Z.lor FS_O_RDWR (Z.lor FS_O_CREAT FS_O_TRUNC)) in
  if negb (ret =? 0) then Done (GRANT_RESULT_ERROR_STORAGE, s)
  else
    let '(ret, s) := fs_file_write s g_file data in
    let result := if negb (ret =? zlen data) then GRANT_RESULT_ERROR_STORAGE else GRANT_RESULT_OK in
    let '(_, s) := fs_close_global s in
    Done (result, s).

Definition grant_read_from_filesystem (s : fs_ctx L) (path : string) (size : Z)
    : outcome (grant_protocol_result_t * list Z * fs_ctx L) :=
  let! _ := ASSERT (0 <? size) in
  let '(ret, s) := fs_open_global s path FS_O_RDONLY in
  if negb (ret =? 0) then Done (GRANT_RESULT_ERROR_STORAGE, [], s)
  else
    let '(ret, bs, s) := fs_file_read s g_file size in
    let result := if negb (ret =? size) then GRANT_RESULT_ERROR_STORAGE else GRANT_RESULT_OK in
    let '(_, s) := fs_close_global s in
    Done (result, bs, s).

Definition grant_storage_read_request (s : fs_ctx L)
    : outcome (grant_protocol_result_t * list Z * fs_ctx L) :=
  grant_read_from_filesystem s GRANT_REQUEST_PATH GRANT_REQUEST_SIZE.

Definition grant_storage_write_request (s : fs_ctx L) (request : list Z)
    : outcome (grant_protocol_result_t * fs_ctx L) :=
  grant_write_to_filesystem s GRANT_REQUEST_PATH request.

Definition grant_storage_delete_request (s : fs_ctx L) : grant_protocol_result_t * fs_ctx L :=
  if fs_file_exists s GRANT_REQUEST_PATH then
    let '(ret, s) := fs_remove s GRANT_REQUEST_PATH in
    if negb (ret =? 0) then (GRANT_RESULT_ERROR_STORAGE, s) else (GRANT_RESULT_OK, s)
  else (GRANT_RESULT_OK, s).

Definition grant_storage_read_app_auth_pubkey (s : fs_ctx L) : option (list Z) * fs_ctx L :=
  let '(ret, s) := fs_open_global s APP_AUTH_PUBKEY_PATH FS_O_RDONLY in
  if negb (ret =? 0) then (None, s)
  else
    let '(ret, bs, s) := fs_file_read s g_file 33 in
    let '(_, s) := fs_close_global s in
    if negb (ret =? 33) then (None, s) else (Some bs, s).

Definition grant_storage_write_app_auth_pubkey (s : fs_ctx L) (pubkey : list Z)
    : outcome (bool * fs_ctx L) :=
  let '(ret, s) := fs_open_global s APP_AUTH_PUBKEY_PATH
                     (Z.lor FS_O_RDWR (Z.lor FS_O_CREAT FS_O_TRUNC)) in
  if negb (ret =? 0) then Done (false, s)
  else
    let! src := mread pubkey 0 33 in
    let '(ret, s) := fs_file_write s g_file src in
    let '(_, s) := fs_close_global s in
    Done (ret =? 33, s).

Definition grant_storage_app_auth_pubkey_exists (s : fs_ctx L) : bool :=
  fs_file_exists s APP_AUTH_PUBKEY_PATH.

Definition grant_storage_delete_app_auth_pubkey (s : fs_ctx L) : bool * fs_ctx L :=
  if fs_file_exists s APP_AUTH_PUBKEY_PATH then
    let '(ret, s) := fs_remove s APP_AUTH_PUBKEY_PATH in
    if negb (ret =? 0) then (false, s) else (true, s)
  else (true, s).

Definition grant_protocol_provision_app_auth_pubkey (g : grant_ctx) (new_pubkey : list Z)
    : outcome (grant_protocol_result_t * grant_ctx) :=
  if negb (crypto_ecc_secp256k1_pubkey_verify new_pubkey)
  then Done (GRANT_RESULT_ERROR_INVALID_ARGUMENT, g)
  else
    let! '(ok, s) := grant_storage_write_app_auth_pubkey (grant_fs g) new_pubkey in
    Done (if ok : bool then GRANT_RESULT_OK else GRANT_RESULT_ERROR_STORAGE, set_grant_fs g s).

(** ** grant_protocol.c *)

Definition grant_protocol_init (g : grant_ctx) (is_production : bool) : grant_ctx :=
  mk_grant (Some is_production) (outstanding_request g) (grant_fs g) (grants_presented g).

Definition sign_with_hw_auth_key (message : list Z) : outcome (option (list Z)) :=
  let! _ := ASSERT (0 <? zlen message) in
  match wallet_get_w1_auth_key with
  | None => Done None
  | Some key_priv =>
      match crypto_hash_sha256 message with
      | None => Done None
      | Some digest => Done (bip32_sign key_priv digest)
      end
  end.

(** The request with its signature field filled in. *)
Definition sign_request (request : list Z) : outcome (grant_protocol_result_t * list Z) :=
  let! core := mread request 0 GRANT_REQUEST_EXCLUDING_SIGNATURE_LEN in
  let! sig := sign_with_hw_auth_key (GRANT_REQUEST_LABEL ++ core) in
  match sig with
  | None => Done (GRANT_RESULT_ERROR_SIGNING, request)
  | Some sig =>
      let! request := mwrite request GRANT_REQUEST_EXCLUDING_SIGNATURE_LEN sig in
      Done (GRANT_RESULT_OK, request)
  end.

Definition verify_app_signature (s : fs_ctx L) (grant request : list Z)
    : outcome (grant_protocol_result_t * fs_ctx L) :=
  let '(pk, s) := grant_storage_read_app_auth_pubkey s in
  match pk with
  | None => Done (GRANT_RESULT_ERROR_NO_APP_PUBKEY, s)
  | Some app_pubkey =>
      let! core := mread request 0 GRANT_REQUEST_EXCLUDING_SIGNATURE_LEN in
      let! app_signature := mread grant GRANT_APP_SIGNATURE GRANT_SIGNATURE_LEN in
      if negb (crypto_ecc_secp256k1_verify_signature app_pubkey (APP_BIND_LABEL ++ core) app_signature)
      then Done (GRANT_RESULT_ERROR_APP_VERIFICATION, s)
      else Done (GRANT_RESULT_OK, s)
  end.

Definition verify_grant_signature (grant : list Z) : outcome grant_protocol_result_t :=
  let! body := mread grant 0 GRANT_EXCLUDING_WSM_SIGNATURE_LEN in
  let! wsm_signature := mread grant GRANT_EXCLUDING_WSM_SIGNATURE_LEN GRANT_SIGNATURE_LEN in
  Done (if negb (wsm_verify_signature (GRANT_LABEL ++ body) wsm_signature)
        then GRANT_RESULT_ERROR_VERIFICATION else GRANT_RESULT_OK).

(** The result of the storage call is not looked at. *)
Definition delete_outstanding_request (g : grant_ctx) : grant_protocol_result_t * grant_ctx :=
  let '(_, s) := grant_storage_delete_request (grant_fs g) in
  (GRANT_RESULT_OK, mk_grant (wik_pubkey g) (replicate 90 0) s (grants_presented g)).

Definition validate_action (action : Z) : grant_protocol_result_t :=
  if action =? ACTION_FINGERPRINT_RESET then GRANT_RESULT_OK else GRANT_RESULT_ERROR_INVALID_ARGUMENT.

Definition perform_action (g : grant_ctx) (action : Z) : grant_protocol_result_t * grant_ctx :=
  let validation_result := validate_action action in
  if negb (is_ok validation_result) then (validation_result, g)
  else if action =? ACTION_FINGERPRINT_RESET
  then (GRANT_RESULT_OK, mk_grant (wik_pubkey g) (outstanding_request g) (grant_fs g)
                           (S (grants_presented g)))
  else (GRANT_RESULT_ERROR_INTERNAL, g).

(** [out_request] is the caller's buffer; [rng] what [crypto_random] yields. *)
Definition grant_protocol_create_request (g : grant_ctx) (action : Z) (out_request : list Z)
    (rng : option (list Z)) : outcome (grant_protocol_result_t * list Z * grant_ctx) :=
  let! _ := ASSERT (match wik_pubkey g with Some _ => true | None => false end) in
  let validation_result := validate_action action in
  if negb (is_ok validation_result) then Done (validation_result, out_request, g)
  else if (action =? ACTION_FINGERPRINT_RESET)
          && negb (grant_storage_app_auth_pubkey_exists (grant_fs g))
  then Done (GRANT_RESULT_ERROR_NO_APP_PUBKEY, out_request, g)
  else
    let! req := aset out_request REQ_VERSION GRANT_PROTOCOL_VERSION in
    let! req := aset req REQ_ACTION action in
    let! req := mwrite req REQ_DEVICE_ID sysinfo_chip_id_read in
    if negb (zlen sysinfo_chip_id_read =? GRANT_DEVICE_ID_LEN)
    then Done (GRANT_RESULT_ERROR_INTERNAL, req, g)
    else
      match rng with
      | None => Done (GRANT_RESULT_ERROR_INTERNAL, req, g)
      | Some challenge =>
          let! req := mwrite req REQ_CHALLENGE challenge in
          let! '(result, req) := sign_request req in
          if negb (is_ok result) then Done (result, req, g)
          else
            let g := mk_grant (wik_pubkey g) req (grant_fs g) (grants_presented g) in
            if action =? ACTION_FINGERPRINT_RESET then
              let! '(result, s) := grant_storage_write_request (grant_fs g) req in
              Done (result, req, set_grant_fs g s)
            else Done (GRANT_RESULT_OK, req, g)
      end.

Definition grant_protocol_verify_grant (g : grant_ctx) (grant : list Z)
    : outcome (grant_protocol_result_t * grant_ctx) :=
  let! _ := ASSERT (match wik_pubkey g with Some _ => true | None => false end) in
  let! '(result, original_request, s) := grant_storage_read_request (grant_fs g) in
  let g := set_grant_fs g s in
  if negb (is_ok result) then Done (result, g)
  else
    let! version := aget grant GRANT_VERSION in
    let! original_version := aget original_request REQ_VERSION in
    if negb (version =? GRANT_PROTOCOL_VERSION) || negb (original_version =? GRANT_PROTOCOL_VERSION)
    then Done (GRANT_RESULT_ERROR_VERSION_MISMATCH, g)
    else
      let! serialized := mread grant GRANT_SERIALIZED_REQUEST GRANT_REQUEST_SIZE in
      if negb (bool_decide (serialized = original_request))
      then Done (GRANT_RESULT_ERROR_REQUEST_MISMATCH, g)
      else
        let! '(app_sig_result, s) := verify_app_signature (grant_fs g) grant original_request in
        let g := set_grant_fs g s in
        if negb (is_ok app_sig_result) then Done (app_sig_result, g)
        else
          let! wik_sig_result := verify_grant_signature grant in
          if negb (is_ok wik_sig_result) then Done (wik_sig_result, g)
          else
            let! action := aget original_request REQ_ACTION in
            Done (perform_action g action).

Definition grant_protocol_delete_outstanding_request (g : grant_ctx)
    : grant_protocol_result_t * grant_ctx := delete_outstanding_request g.

Definition grant_protocol_delete_app_auth_pubkey (g : grant_ctx)
    : grant_protocol_result_t * grant_ctx :=
  let '(ok, s) := grant_storage_delete_app_auth_pubkey (grant_fs g) in
  (if negb ok then GRANT_RESULT_ERROR_STORAGE else GRANT_RESULT_OK, set_grant_fs g s).

(** ** Soundness *)

Context `{!LittlefsLaws L}.

Lemma grant_read_request_spec s r bs s' : grant_storage_read_request s = Done (r, bs, s') →
  (∀ q, fs_data s' q = fs_data s q)
  ∧ (r = GRANT_RESULT_OK → ∃ d, fs_data s GRANT_REQUEST_PATH = Some d
       ∧ bs = ztake GRANT_REQUEST_SIZE d ∧ zlen bs = GRANT_REQUEST_SIZE)
  ∧ (r ≠ GRANT_RESULT_OK → r = GRANT_RESULT_ERROR_STORAGE).
Proof.
  unfold grant_storage_read_request, grant_read_from_filesystem. simpl.
  destruct (fs_open_global s _ _) as [r1 s1] eqn:E1. destruct (r1 =? 0) eqn:Er1; simpl; btest; cycle 1.
  { intros [= <- <- <-]. by destruct (open_failed _ _ _ _ _ E1 Er1). }
  subst r1. destruct (fs_file_read s1 g_file _) as [[r2 bs2] s2] eqn:E2.
  destruct (fs_close_global s2) as [r3 s3] eqn:E3. intros [= <- <- <-].
  destruct (open_read_close _ _ FS_O_RDONLY GRANT_REQUEST_SIZE _ _ _ _ _ _ ltac:(done) eq_refl eq_refl eq_refl E1 E2 E3) as (Hq & _ & Hr).
  split_and!; [done| |by case_match]. case_match; [done|]. intros _.
  destruct (r2 =? GRANT_REQUEST_SIZE) eqn:Er2; [|done]. btest.
  destruct Hr as (d & Hd & Hbs & Hl); [by subst|]. exists d. split_and!; [done|done|congruence].
Qed.

Lemma grant_read_pubkey_spec s pk s' : grant_storage_read_app_auth_pubkey s = (pk, s') →
  (∀ q, fs_data s' q = fs_data s q)
  ∧ (∀ bs, pk = Some bs → ∃ d, fs_data s APP_AUTH_PUBKEY_PATH = Some d ∧ bs = ztake 33 d).
Proof.
  unfold grant_storage_read_app_auth_pubkey. destruct (fs_open_global s _ _) as [r1 s1] eqn:E1.
  destruct (r1 =? 0) eqn:Er1; simpl; btest; cycle 1.
  { intros [= <- <-]. by destruct (open_failed _ _ _ _ _ E1 Er1). }
  subst r1. destruct (fs_file_read s1 g_file _) as [[r2 bs2] s2] eqn:E2.
  destruct (fs_close_global s2) as [r3 s3] eqn:E3.
  destruct (open_read_close _ _ FS_O_RDONLY 33 _ _ _ _ _ _ ltac:(done) eq_refl eq_refl eq_refl E1 E2 E3) as (Hq & _ & Hr).
  destruct (r2 =? 33) eqn:Er2; simpl; intros [= <- <-]; [|done]. btest. split; [done|].
  intros bs [= <-]. destruct Hr as (d & Hd & Hbs & _); [by subst|]. by exists d.
Qed.

(** The parts of a grant. *)
Lemma grant_parts (grant : list Z) : zlen grant = GRANT_SIZE →
  ∃ v req asig wsig, grant = v :: req ++ asig ++ wsig ∧ zlen req = GRANT_REQUEST_SIZE
    ∧ zlen asig = GRANT_SIGNATURE_LEN ∧ zlen wsig = GRANT_SIGNATURE_LEN.
Proof.
  unfold GRANT_SIZE, GRANT_REQUEST_SIZE, GRANT_SIGNATURE_LEN. intros Hl.
  destruct grant as [|v rest]; [done|]. rewrite zlen_cons in Hl.
  exists v, (ztake 90 rest), (ztake 64 (zdrop 90 rest)), (zdrop 64 (zdrop 90 rest)).
  rewrite !ztake_zdrop. split; [done|].
  assert (zlen (zdrop 90 rest) = 128) by (rewrite zlen_zdrop; lia).
  split_and!; [rewrite zlen_ztake; lia|rewrite zlen_ztake; lia|rewrite zlen_zdrop; lia].
Qed.

(** C26: [grant_protocol_verify_grant] accepts a grant only if the request in
    it is byte for byte the request the device stored, both are of this
    protocol version, the provisioned app key signed that request, the server
    key signed the grant, and the action is the one the device supports; it
    then presents the grant to the auth task exactly once, and in every other
    case not at all. *)
Theorem grant_verify_sound (g g' : grant_ctx) (grant : list Z) (r : grant_protocol_result_t) :
  zlen grant = GRANT_SIZE →
  grant_protocol_verify_grant g grant = Done (r, g') →
  (r ≠ GRANT_RESULT_OK → grants_presented g' = grants_presented g)
  ∧ (r = GRANT_RESULT_OK →
       grants_presented g' = S (grants_presented g)
       ∧ ∃ req asig wsig stored key,
           grant = GRANT_PROTOCOL_VERSION :: req ++ asig ++ wsig
           ∧ fs_data (grant_fs g) GRANT_REQUEST_PATH = Some stored
           ∧ req = ztake GRANT_REQUEST_SIZE stored
           ∧ aget req REQ_VERSION = Done GRANT_PROTOCOL_VERSION
           ∧ aget req REQ_ACTION = Done ACTION_FINGERPRINT_RESET
           ∧ fs_data (grant_fs g) APP_AUTH_PUBKEY_PATH = Some key
           ∧ crypto_ecc_secp256k1_verify_signature (ztake 33 key)
               (APP_BIND_LABEL ++ ztake GRANT_REQUEST_EXCLUDING_SIGNATURE_LEN req) asig = true
           ∧ wsm_verify_signature (GRANT_LABEL ++ GRANT_PROTOCOL_VERSION :: req ++ asig) wsig = true).
Proof.
  intros Hlen E. destruct (grant_parts _ Hlen) as (v & req & asig & wsig & -> & Hreq & Has & Hws).
  unfold grant_protocol_verify_grant in E. apply obind_inv in E as ([] & _ & E).
  apply obind_inv in E as ([[r1 orig] s1] & E1 & E).
  destruct (grant_read_request_spec _ _ _ _ E1) as (Hq1 & Hd1 & _).
  unfold is_ok in E. case_bool_decide as Hr1; simpl in E; [|injection E as <- <-; done].
  destruct (Hd1 Hr1) as (stored & Hstored & Horig & Horiglen).
  destruct (aget orig REQ_VERSION) as [ov| | |] eqn:Eov; simpl in E; try done.
  destruct (_ || _) eqn:Ever; [injection E as <- <-; done|].
  apply orb_false_iff in Ever as [Ev%negb_false_iff Eo%negb_false_iff]. btest. subst v ov.
  rewrite (mread_eq _ [GRANT_PROTOCOL_VERSION] req (asig ++ wsig)) in E by done. cbn [obind] in E.
  case_bool_decide as Hsame; simpl in E; [|injection E as <- <-; done].
  rewrite <- Hsame in E, Eov, Horig, Horiglen. clear Hsame orig E1 Hd1.
  apply obind_inv in E as ([r2 s2] & E2 & E). unfold verify_app_signature in E2.
  destruct (grant_storage_read_app_auth_pubkey _) as [pk s3] eqn:Epk.
  destruct (grant_read_pubkey_spec _ _ _ Epk) as (Hq3 & Hpk).
  destruct pk as [pk|]; [|injection E2 as <- <-; simpl in E; injection E as <- <-; done].
  destruct (Hpk pk eq_refl) as (key & Hkey & ->). simpl in Hkey. rewrite Hq1 in Hkey.
  replace (mread req 0 GRANT_REQUEST_EXCLUDING_SIGNATURE_LEN)
    with (Done (ztake GRANT_REQUEST_EXCLUDING_SIGNATURE_LEN req)) in E2
    by (unfold mread; rewrite Hreq; done).
  cbn [obind] in E2.
  rewrite (mread_eq _ (GRANT_PROTOCOL_VERSION :: req) asig wsig) in E2
    by (rewrite ?zlen_cons, ?Hreq, ?Has; done). cbn [obind] in E2.
  destruct (crypto_ecc_secp256k1_verify_signature _ _ _) eqn:Eapp; simpl in E2; injection E2 as <- <-;
    simpl in E; [|injection E as <- <-; done].
  apply obind_inv in E as (r3 & E3 & E). unfold verify_grant_signature in E3.
  rewrite (mread_eq _ [] (GRANT_PROTOCOL_VERSION :: req ++ asig) wsig) in E3
    by (rewrite ?zlen_cons, ?zlen_app, ?Hreq, ?Has; simpl; rewrite <- ?app_assoc; done).
  cbn [obind] in E3.
  rewrite (mread_eq _ (GRANT_PROTOCOL_VERSION :: req ++ asig) wsig []) in E3
    by (rewrite ?app_nil_r, ?zlen_cons, ?zlen_app, ?Hreq, ?Has; simpl; rewrite <- ?app_assoc; done).
  cbn [obind] in E3. injection E3 as <-.
  destruct (wsm_verify_signature _ _) eqn:Ewsm; simpl in E; [|injection E as <- <-; done].
  apply obind_inv in E as (action & Eact & [= E]). unfold perform_action, validate_action, is_ok in E.
  destruct (action =? ACTION_FINGERPRINT_RESET) eqn:Ea; simpl in E; injection E as <- <-; [|done]. btest.
  split; [done|]. intros _. split; [done|]. exists req, asig, wsig, stored, key.
  subst action. split_and!; try done.
Qed.

(** Once the outstanding request was deleted, no grant is accepted until
    a new request is created: a grant cannot be replayed. *)
Theorem grant_deleted_no_replay `{!LittlefsStats L} (g g' : grant_ctx) (s : fs_ctx L) (grant : list Z)
    (r : grant_protocol_result_t) :
  grant_storage_delete_request (grant_fs g) = (GRANT_RESULT_OK, s) →
  grant_protocol_verify_grant (grant_protocol_delete_outstanding_request g).2 grant = Done (r, g') →
  r = GRANT_RESULT_ERROR_STORAGE ∧ grants_presented g' = grants_presented g.
Proof.
  intros Hdel. unfold grant_protocol_delete_outstanding_request, delete_outstanding_request.
  rewrite Hdel. simpl. assert (Hgone : fs_data s GRANT_REQUEST_PATH = None).
  { unfold grant_storage_delete_request in Hdel. destruct (fs_file_exists _ _) eqn:Ex.
    - destruct (fs_remove _ _) as [ret s'] eqn:Erm. destruct (ret =? 0) eqn:Er; simpl in Hdel; [|done].
      injection Hdel as <-. btest. apply (fs_remove_spec _ _ _ _ Erm). done.
    - injection Hdel as <-. destruct (fs_data _ _) eqn:Ed; [|done]. exfalso.
      apply not_true_iff_false in Ex. apply Ex, fs_file_exists_spec. eauto. }
  unfold grant_protocol_verify_grant. intros ([] & _ & E)%obind_inv.
  apply obind_inv in E as ([[r1 orig] s1] & E1 & E).
  destruct (grant_read_request_spec _ _ _ _ E1) as (_ & Hd1 & He1).
  unfold is_ok in E. case_bool_decide as Hr1; simpl in E.
  - destruct (Hd1 Hr1) as (d & Hd & _). simpl in Hd. congruence.
  - injection E as <- <-. split; [by apply He1|done].
Qed.

(** A 90-byte buffer as the fields of a request. *)
Lemma request_buffer (buf : list Z) : zlen buf = GRANT_REQUEST_SIZE →
  ∃ v id ch a sig, buf = v :: id ++ ch ++ a :: sig ∧ zlen id = GRANT_DEVICE_ID_LEN
    ∧ zlen ch = GRANT_CHALLENGE_LEN ∧ zlen sig = GRANT_SIGNATURE_LEN.
Proof.
  unfold GRANT_REQUEST_SIZE, GRANT_DEVICE_ID_LEN, GRANT_CHALLENGE_LEN, GRANT_SIGNATURE_LEN. intros Hl.
  destruct buf as [|v rest]; [done|]. rewrite zlen_cons in Hl.
  assert (H8 : zlen (zdrop 8 rest) = 81) by (rewrite zlen_zdrop; lia).
  assert (H16 : zlen (zdrop 16 (zdrop 8 rest)) = 65) by (rewrite zlen_zdrop; lia).
  destruct (zdrop 16 (zdrop 8 rest)) as [|a sig] eqn:Er; [done|]. rewrite zlen_cons in H16.
  exists v, (ztake 8 rest), (ztake 16 (zdrop 8 rest)), a, sig.
  rewrite <- Er, !ztake_zdrop. split_and!; [done|rewrite zlen_ztake; lia|rewrite zlen_ztake; lia|lia].
Qed.

(** A created request carries the protocol version, the chip id, the
    fresh challenge and the action, and is signed by the hardware key under
    the label of requests; it is made only when an app key is provisioned,
    and nothing is presented to the auth task. *)
Theorem grant_create_spec (g g' : grant_ctx) (action : Z) (buf req challenge : list Z) :
  zlen buf = GRANT_REQUEST_SIZE → zlen challenge = GRANT_CHALLENGE_LEN →
  (∀ k d sig, bip32_sign k d = Some sig → zlen sig = GRANT_SIGNATURE_LEN) →
  grant_protocol_create_request g action buf (Some challenge) = Done (GRANT_RESULT_OK, req, g') →
  ∃ key digest sig core,
    core = GRANT_PROTOCOL_VERSION :: sysinfo_chip_id_read ++ challenge ++ [ACTION_FINGERPRINT_RESET]
    ∧ req = core ++ sig ∧ action = ACTION_FINGERPRINT_RESET
    ∧ wallet_get_w1_auth_key = Some key
    ∧ crypto_hash_sha256 (GRANT_REQUEST_LABEL ++ core) = Some digest
    ∧ bip32_sign key digest = Some sig
    ∧ is_Some (fs_data (grant_fs g) APP_AUTH_PUBKEY_PATH)
    ∧ outstanding_request g' = req ∧ grants_presented g' = grants_presented g.
Proof.
  intros Hbuf Hch Hsig E. destruct (request_buffer buf Hbuf) as (v & id & ch & a & sig0 & -> & Hid & Hc & Hs).
  unfold GRANT_REQUEST_SIZE, GRANT_DEVICE_ID_LEN, GRANT_CHALLENGE_LEN, GRANT_SIGNATURE_LEN in *.
  unfold grant_protocol_create_request in E. apply obind_inv in E as ([] & _ & E).
  unfold validate_action, is_ok in E. destruct (action =? ACTION_FINGERPRINT_RESET) eqn:Ea; [|done]. btest.
  rewrite bool_decide_eq_true_2 in E by done. cbn [negb andb] in E.
  destruct (grant_storage_app_auth_pubkey_exists (grant_fs g)) eqn:Ex; cbn [negb] in E; [|done].
  apply fs_file_exists_data in Ex.
  rewrite aset_done in E by (unfold REQ_VERSION; zl). cbn [obind] in E.
  change (<[_ := _]> (v :: ?l)) with (GRANT_PROTOCOL_VERSION :: l) in E.
  rewrite aset_done in E by (unfold REQ_ACTION; zl). cbn [obind] in E.
  replace (<[_ := action]> _) with (GRANT_PROTOCOL_VERSION :: id ++ ch ++ action :: sig0) in E.
  2: { change (Z.to_nat REQ_ACTION) with (S 24). simpl. f_equal. unfold zlen in *.
       rewrite !insert_app_r_alt by lia. replace (24 - length id - length ch)%nat with 0%nat by lia. done. }
  apply obind_inv in E as (req1 & E1 & E). destruct (negb _) eqn:El; [done|].
  apply negb_false_iff in El. btest. unfold GRANT_DEVICE_ID_LEN in El.
  rewrite (mwrite_eq _ [GRANT_PROTOCOL_VERSION] id _ (ch ++ action :: sig0)) in E1 by (done || lia).
  injection E1 as <-. simpl app in E.
  rewrite (mwrite_eq _ (GRANT_PROTOCOL_VERSION :: sysinfo_chip_id_read) ch challenge (action :: sig0)) in E
    by (rewrite ?zlen_cons, ?El; (done || lia)).
  cbn [obind] in E. set (core := GRANT_PROTOCOL_VERSION :: sysinfo_chip_id_read ++ challenge ++ [action]).
  assert (Hcore : zlen core = 26) by (subst core; zl).
  replace ((GRANT_PROTOCOL_VERSION :: sysinfo_chip_id_read) ++ challenge ++ action :: sig0)
    with (core ++ sig0) in E by (subst core; simpl; by rewrite <- !app_assoc).
  unfold sign_request in E. rewrite (mread_eq _ [] core sig0) in E by done. cbn [obind] in E.
  apply obind_inv in E as ([res req2] & Es & E). apply obind_inv in Es as (osig & Eo & Es).
  unfold sign_with_hw_auth_key in Eo. apply obind_inv in Eo as ([] & _ & Eo).
  destruct wallet_get_w1_auth_key as [key|] eqn:Ekey; [|injection Eo as <-; by injection Es as <- <-].
  destruct (crypto_hash_sha256 _) as [digest|] eqn:Eh; [|injection Eo as <-; by injection Es as <- <-].
  injection Eo as Eo. destruct osig as [sig|]; [|by injection Es as <- <-].
  pose proof (Hsig _ _ _ Eo) as Hsl.
  rewrite (mwrite_eq _ core sig0 sig []) in Es by (rewrite ?app_nil_r; (done || lia)).
  cbn [obind] in Es. rewrite app_nil_r in Es. injection Es as <- <-. simpl in E.
  apply obind_inv in E as ([res s] & Ew & [= -> <- <-]).
  exists key, digest, sig, core. subst action. split_and!; done.
Qed.
End Grant.
Arguments grant_ctx : clear implicits.

(** ** A host *)

#[global] Instance toy_host : GrantHost unit := {
  wallet_get_w1_auth_key := Some tt;
  crypto_hash_sha256 m := Some (ztake 32 m);
  bip32_sign _ _ := Some (replicate 64 9);
  crypto_ecc_secp256k1_verify_signature pk m sig := bool_decide (sig = replicate 64 5);
  crypto_ecc_secp256k1_pubkey_verify _ := true;
  wsm_verify_signature m sig := bool_decide (sig = replicate 64 6);
  sysinfo_chip_id_read := replicate 8 3;
}.

Definition demo_grant_ctx : grant_ctx ram_fs := mk_grant (Some true) (replicate 90 0) ram_boot 0.

(** The context after the app key was provisioned and a request was made. *)
Definition demo_requested : list Z * grant_ctx ram_fs :=
  match grant_protocol_provision_app_auth_pubkey demo_grant_ctx (replicate 33 2) with
  | Done (_, g) =>
      match grant_protocol_create_request g 1 (replicate 90 0) (Some (replicate 16 4)) with
      | Done (_, req, g) => (req, g)
      | _ => ([], g)
      end
  | _ => ([], demo_grant_ctx)
  end.

Definition demo_grant : list Z := 1 :: demo_requested.1 ++ replicate 64 5 ++ replicate 64 6.

Lemma grant_verify_sound_witness :
  ∃ g', grant_protocol_verify_grant demo_requested.2 demo_grant = Done (GRANT_RESULT_OK, g')
    ∧ grants_presented g' = 1%nat.
Proof.
  eexists. split; [vm_compute; reflexivity|].
  eapply (grant_verify_sound (L := ram_fs) (K := unit) demo_requested.2 _ demo_grant GRANT_RESULT_OK).
  - vm_compute. reflexivity.
  - vm_compute. reflexivity.
  - reflexivity.
Defined.

Lemma grant_deleted_no_replay_witness :
  ∃ r g', grant_protocol_verify_grant (grant_protocol_delete_outstanding_request demo_requested.2).2 demo_grant
    = Done (r, g') ∧ r = GRANT_RESULT_ERROR_STORAGE ∧ grants_presented g' = grants_presented demo_requested.2.
Proof.
  eexists _, _. split; [vm_compute; reflexivity|].
  eapply (grant_deleted_no_replay (L := ram_fs) (K := unit) demo_requested.2 _ _ demo_grant).
  - vm_compute. reflexivity.
  - vm_compute. reflexivity.
Defined.

Lemma grant_create_spec_witness :
  ∃ req g', grant_protocol_create_request demo_requested.2 1 (replicate 90 0) (Some (replicate 16 7))
      = Done (GRANT_RESULT_OK, req, g')
    ∧ ∃ key digest sig core,
        core = GRANT_PROTOCOL_VERSION :: sysinfo_chip_id_read ++ replicate 16 7 ++ [ACTION_FINGERPRINT_RESET]
        ∧ req = core ++ sig ∧ 1 = ACTION_FINGERPRINT_RESET
        ∧ wallet_get_w1_auth_key = Some key
        ∧ crypto_hash_sha256 (GRANT_REQUEST_LABEL ++ core) = Some digest
        ∧ bip32_sign key digest = Some sig
        ∧ is_Some (fs_data (grant_fs demo_requested.2) APP_AUTH_PUBKEY_PATH)
        ∧ outstanding_request g' = req ∧ grants_presented g' = grants_presented demo_requested.2.
Proof.
  eexists _, _. split; [vm_compute; reflexivity|].
  eapply (grant_create_spec (L := ram_fs) (K := unit) demo_requested.2 _ 1 (replicate 90 0) _ (replicate 16 7)).
  - reflexivity.
  - reflexivity.
  - intros k d sig [= <-]. reflexivity.
  - vm_compute. reflexivity.
Defined.
