(* ===== verification/Wca.v ===== *)
(** * Wallet custom APDUs (lib/wca, lib/iso7816, the response path of lib/ipc
      and lib/protobuf/helpers)

    The NFC task receives APDUs, reassembles the protobuf command they carry,
    routes it to the task that owns it and answers with the protobuf response,
    drained over as many APDUs as the reader needs. The response arrives from
    other tasks: [producer] lists what such a task can do to the shared
    response buffer (each under ipc's [response_lock]), and a command that waits
    is run with the groups of producer actions that happen while it does. Every
    build flag is that of the firmware ([EMBEDDED_BUILD]).

    nanopb is not part of the sources: its encoder, its tag decoder and the
    sizes it generates are the class [Nanopb]. The router [ipc_proto_route] is
    generated at build time: whether it accepted the command is an input of the
    exchange, and what it was handed is recorded in [routed]. *)

From S2P Require Import Prelude.

Class Nanopb := {
  rsp_t : Type;                              (* fwpb_wallet_rsp *)
  error_rsp : rsp_t;                         (* .status = fwpb_status_ERROR *)
  RESPONSE_BUFFER_SIZE : Z;                  (* fwpb_wallet_rsp_size *)
  COMMAND_BUFFER_SIZE : Z;                   (* fwpb_wallet_cmd_size *)
  pb_encode : rsp_t → option (list Z);       (* into RESPONSE_BUFFER_SIZE bytes *)
  pb_decode_tag : list Z → option Z;         (* the tag at the head of a stream *)
}.

(** nanopb's output stream never passes the end of its buffer; the message that
    only carries a status fits. *)
Class NanopbLaws `(P : Nanopb) : Prop := {
  response_size_range : 0 < RESPONSE_BUFFER_SIZE < 65536;
  command_size_range : 0 < COMMAND_BUFFER_SIZE < 65536;
  pb_encode_fits r b : pb_encode r = Some b → zlen b ≤ RESPONSE_BUFFER_SIZE;
  error_rsp_encodes : is_Some (pb_encode error_rsp);
}.

(** ** ISO 7816 (lib/iso7816/iso7186.h) *)

Definition CLA : Z := 0.
Definition INS : Z := 1.
Definition P1 : Z := 2.
Definition P2 : Z := 3.
Definition LC : Z := 4.
Definition SW_SIZE : Z := 2.

Definition ISO7816_SET_STATUS (rsp : list Z) (off sw1 sw2 : Z) : outcome (list Z) :=
  let! rsp := aset rsp off sw1 in
  aset rsp (off + 1) sw2.

Definition RSP_OK rsp off := ISO7816_SET_STATUS rsp off 0x90 0x00.
Definition RSP_UNSUPPORTED_INS rsp off := ISO7816_SET_STATUS rsp off 0x68 0x00.
Definition RSP_FCI_GENERIC_FAILURE rsp off := ISO7816_SET_STATUS rsp off 0x6F 0x00.
Definition RSP_BYTES_REMAIN rsp off := ISO7816_SET_STATUS rsp off 0x61 0x00.

(** [lc_to_int(&cmd[off])]. *)
Definition lc_to_int (cmd : list Z) (off : Z) : outcome Z :=
  let! b0 := aget cmd off in
  if negb (b0 =? 0) then Done b0
  else
    let! b1 := aget cmd (off + 1) in
    let! b2 := aget cmd (off + 2) in
    Done (u16 (Z.lor (Z.shiftl b1 8) b2)).

Definition is_short_coding (value : Z) : bool := (1 <=? value) && (value <=? 255).

(** ** State *)

Definition WCA_VERSION : Z := 1.
Definition WCA_CLA : Z := 0x87.
Definition WCA_INS_VERSION : Z := 0x74.
Definition WCA_INS_PROTO : Z := 0x75.
Definition WCA_INS_PROTO_CONT : Z := 0x77.
Definition WCA_INS_GET_RESPONSE : Z := 0x78.

Record rsp_ctx_t := mk_rsp_ctx {
  rsp_buffer : list Z;
  rsp_offset : Z;
  rsp_size : Z;
}.

Record cmd_ctx_t := mk_cmd_ctx {
  cmd_buffer : list Z;
  cmd_offset : Z;
  cmd_size : Z;
  cmd_tag : Z;
}.

(** [wca_priv], with the binary semaphore [sem] its callbacks give and take,
    [g_cmd_seq] of proto_helpers.c, [response_seq] of ipc.c, and the commands
    handed to the router: tag, payload, sequence number. *)
Record wca_priv_t := mk_wca {
  cmd_seq : Z;
  encoded_proto_rsp_ctx : rsp_ctx_t;
  encoded_proto_cmd_ctx : cmd_ctx_t;
  sem : bool;
  g_cmd_seq : Z;
  response_seq : Z;
  routed : list (Z * list Z * Z);
}.

Definition set_cmd_seq s w := mk_wca s (encoded_proto_rsp_ctx w) (encoded_proto_cmd_ctx w)
  (sem w) (g_cmd_seq w) (response_seq w) (routed w).
Definition set_rsp c w := mk_wca (cmd_seq w) c (encoded_proto_cmd_ctx w)
  (sem w) (g_cmd_seq w) (response_seq w) (routed w).
Definition set_cmd c w := mk_wca (cmd_seq w) (encoded_proto_rsp_ctx w) c
  (sem w) (g_cmd_seq w) (response_seq w) (routed w).
Definition set_sem b w := mk_wca (cmd_seq w) (encoded_proto_rsp_ctx w) (encoded_proto_cmd_ctx w)
  b (g_cmd_seq w) (response_seq w) (routed w).
Definition set_routed l w := mk_wca (cmd_seq w) (encoded_proto_rsp_ctx w) (encoded_proto_cmd_ctx w)
  (sem w) (g_cmd_seq w) (response_seq w) l.

(** ** Sequence numbers (proto_helpers.c, ipc.c) *)

Definition proto_set_cmd_seq (seq : Z) (w : wca_priv_t) : wca_priv_t :=
  mk_wca (cmd_seq w) (encoded_proto_rsp_ctx w) (encoded_proto_cmd_ctx w) (sem w) seq
    (response_seq w) (routed w).

Definition ipc_proto_set_response_seq (seq : Z) (w : wca_priv_t) : wca_priv_t :=
  mk_wca (cmd_seq w) (encoded_proto_rsp_ctx w) (encoded_proto_cmd_ctx w) (sem w)
    (g_cmd_seq w) seq (routed w).

Definition proto_retire_cmd_seq (seq : Z) (w : wca_priv_t) : wca_priv_t :=
  let w := if g_cmd_seq w =? seq then proto_set_cmd_seq 0 w else w in
  if response_seq w =? seq then ipc_proto_set_response_seq 0 w else w.

(** ** Clearing *)

Definition clear_proto_cmd_ctx (w : wca_priv_t) : wca_priv_t :=
  set_cmd (mk_cmd_ctx (cmd_buffer (encoded_proto_cmd_ctx w)) 0 0 0) w.

(** The loop takes the semaphore until it is empty. *)
Definition clear_proto_rsp_ctx (w : wca_priv_t) : wca_priv_t :=
  set_rsp (mk_rsp_ctx (rsp_buffer (encoded_proto_rsp_ctx w)) 0 0) (set_sem false w).

Definition clear_proto_state (w : wca_priv_t) : wca_priv_t :=
  clear_proto_cmd_ctx (clear_proto_rsp_ctx w).

Definition wca_reset_session_state (w : wca_priv_t) : wca_priv_t :=
  clear_proto_state (proto_retire_cmd_seq (cmd_seq w) w).

Section Wca.
Context `{P : Nanopb}.

(** BSS, then [wca_init]. *)
Definition wca_bss : wca_priv_t :=
  mk_wca 0 (mk_rsp_ctx (replicate (Z.to_nat RESPONSE_BUFFER_SIZE) 0) 0 0)
    (mk_cmd_ctx (replicate (Z.to_nat COMMAND_BUFFER_SIZE) 0) 0 0 0) false 0 0 [].
Definition wca_init : wca_priv_t := wca_reset_session_state wca_bss.

(** ** Producers: other tasks writing the response *)

(** [encoded_proto] is [NULL], or points to the response buffer itself, which
    holds the [size] bytes to send: the copy is onto itself. *)
Definition handle_proto_response (encoded_proto : option (list Z)) (w : wca_priv_t)
    : outcome wca_priv_t :=
  match encoded_proto with
  | None => Done (set_sem true (clear_proto_rsp_ctx w))
  | Some d =>
      let! _ := ASSERT (zlen d <=? RESPONSE_BUFFER_SIZE) in
      let! buf := mwrite (rsp_buffer (encoded_proto_rsp_ctx w)) 0 d in
      Done (set_sem true (set_rsp (mk_rsp_ctx buf 0 (zlen d)) w))
  end.

(** The buffer after the encoding, and the bytes written. *)
Definition encode_rsp_with_fallback (buf : list Z) (r : rsp_t) : outcome (list Z * list Z) :=
  match pb_encode r with
  | Some d => let! buf := mwrite buf 0 d in Done (buf, d)
  | None =>
      let! buf := mwrite buf 0 (replicate (Z.to_nat RESPONSE_BUFFER_SIZE) 0) in
      match pb_encode error_rsp with
      | Some d => let! buf := mwrite buf 0 d in Done (buf, d)
      | None => Abort
      end
  end.

Definition send_rsp_internal (seq : Z) (r : rsp_t) (w : wca_priv_t) : outcome (bool * wca_priv_t) :=
  if (seq =? 0) || negb (seq =? g_cmd_seq w) then Done (false, w)
  else
    let c := encoded_proto_rsp_ctx w in
    let! '(buf, d) := encode_rsp_with_fallback (rsp_buffer c) r in
    let w := set_rsp (mk_rsp_ctx buf (rsp_offset c) (rsp_size c)) w in
    let w := ipc_proto_set_response_seq seq w in
    let! w := handle_proto_response (Some d) w in
    Done (true, w).

(** What another task does: [proto_send_rsp] and its variants; the responses
    the router sends itself, which skip the staleness check; and
    [ipc_proto_notify_done]. *)
Inductive producer :=
| Send (seq : Z) (r : rsp_t)
| Direct (seq : Z) (d : list Z)
| Notify_done.

Definition produce (e : producer) (w : wca_priv_t) : outcome wca_priv_t :=
  match e with
  | Send seq r => let! '(_, w) := send_rsp_internal seq r w in Done w
  | Direct seq d => handle_proto_response (Some d) (ipc_proto_set_response_seq seq w)
  | Notify_done => handle_proto_response None w
  end.

Fixpoint produce_all (es : list producer) (w : wca_priv_t) : outcome wca_priv_t :=
  match es with
  | [] => Done w
  | e :: es => let! w := produce e w in produce_all es w
  end.

(** ** The consumer *)

(** What a handler gives back: its result, the response buffer, [*rsp_len]. *)
Definition reply : Type := bool * list Z * Z * wca_priv_t.

Definition received_full_proto (w : wca_priv_t) : bool :=
  cmd_size (encoded_proto_cmd_ctx w) <=? cmd_offset (encoded_proto_cmd_ctx w).

Definition next_cmd_seq (w : wca_priv_t) : wca_priv_t :=
  let s := u32 (cmd_seq w + 1) in
  set_cmd_seq (if s =? 0 then 1 else s) w.

Definition wca_has_readable_lc (cmd : list Z) : outcome bool :=
  if LC <? zlen cmd then
    let! b := aget cmd LC in
    Done (negb (b =? 0) || (LC + 3 <=? zlen cmd))
  else Done false.

Definition drain_response_buffer (rsp : list Z) (in_len : Z) (w : wca_priv_t)
    : outcome (list Z * Z * wca_priv_t) :=
  let c := encoded_proto_rsp_ctx w in
  if rsp_size c =? 0 then
    let! rsp := RSP_OK rsp 0 in
    Done (rsp, SW_SIZE, w)
  else
    let max_bytes := u32 (in_len - SW_SIZE) in
    let n := Z.min max_bytes (rsp_size c) in
    let! d := mread (rsp_buffer c) (rsp_offset c) n in
    let! rsp := mwrite rsp 0 d in
    let left := rsp_size c - n in
    let w := set_rsp (mk_rsp_ctx (rsp_buffer c) (u32 (rsp_offset c + n)) left) w in
    let! rsp :=
      if 0 <? left then
        let! rsp := RSP_BYTES_REMAIN rsp n in
        aset rsp (n + 1) (if UINT8_MAX <? left then UINT8_MAX else left)
      else RSP_OK rsp n in
    Done (rsp, n + SW_SIZE, w).

Definition response_timeout (expected_seq : Z) (rsp : list Z) (w : wca_priv_t) : outcome reply :=
  let! rsp := RSP_FCI_GENERIC_FAILURE rsp 0 in
  Done (false, rsp, SW_SIZE, clear_proto_state (proto_retire_cmd_seq expected_seq w)).

(** [gs] are the groups of producer actions that happen during the wait. A
    blocked [sem_take] lets the next group run and looks again; a [sem_take]
    that succeeded lets the next group run before the response lock is taken;
    when no group is left, the take times out. *)
Fixpoint wca_wait_for_proto_response (gs : list (list producer)) (expected_seq : Z)
    (rsp : list Z) (in_len : Z) (w : wca_priv_t) : outcome reply :=
  match gs with
  | [] =>
      if sem w && (response_seq w =? expected_seq) then
        let! '(rsp, len, w) := drain_response_buffer rsp in_len (set_sem false w) in
        Done (true, rsp, len, w)
      else response_timeout expected_seq rsp (set_sem false w)
  | g :: gs =>
      if sem w then
        let! w := produce_all g (set_sem false w) in
        if response_seq w =? expected_seq then
          let! '(rsp, len, w) := drain_response_buffer rsp in_len w in
          Done (true, rsp, len, w)
        else wca_wait_for_proto_response gs expected_seq rsp in_len w
      else
        let! w := produce_all g w in
        wca_wait_for_proto_response gs expected_seq rsp in_len w
  end.

(** What happens around one exchange: the producers that run after the clear
    and before the new sequence number is published, the router's answer, and
    the producers that run during the wait. *)
Record exchange := mk_exchange {
  ex_race : list producer;
  ex_routed : bool;
  ex_wait : list (list producer);
}.

Definition ipc_proto_route (ok : bool) (tag : Z) (d : list Z) (seq : Z) (w : wca_priv_t)
    : bool * wca_priv_t :=
  (ok, set_routed (routed w ++ [(tag, d, seq)]) w).

Definition handle_proto_exchange (x : exchange) (rsp : list Z) (in_len : Z) (w : wca_priv_t)
    : outcome reply :=
  let w := clear_proto_rsp_ctx w in
  let! w := produce_all (ex_race x) w in
  let w := next_cmd_seq w in
  let my_seq := cmd_seq w in
  let w := proto_set_cmd_seq my_seq w in
  let c := encoded_proto_cmd_ctx w in
  let! d := mread (cmd_buffer c) 0 (cmd_size c) in
  let '(status, w) := ipc_proto_route (ex_routed x) (cmd_tag c) d my_seq w in
  if negb status then Done (false, rsp, in_len, clear_proto_state w)
  else wca_wait_for_proto_response (ex_wait x) my_seq rsp in_len w.

Definition wca_is_wca (cmd : list Z) : outcome bool :=
  if CLA <? zlen cmd then
    let! b := aget cmd CLA in Done (b =? WCA_CLA)
  else Done false.

Definition wca_is_valid (cmd : list Z) : outcome bool :=
  if zlen cmd <? P2 + 1 then Done false
  else
    let! is_wca := wca_is_wca cmd in
    if negb is_wca then Done false
    else
      let! ins := aget cmd INS in
      if (ins =? WCA_INS_PROTO) || (ins =? WCA_INS_PROTO_CONT) then wca_has_readable_lc cmd
      else Done true.

(** [htons(WCA_VERSION)], stored. *)
Definition wca_version (rsp : list Z) (w : wca_priv_t) : outcome reply :=
  let! rsp := mwrite rsp 0 [WCA_VERSION / 256; WCA_VERSION mod 256] in
  let! rsp := RSP_OK rsp 2 in
  Done (true, rsp, 4, w).

(** The label [err] of [wca_proto] and [wca_proto_cont]. *)
Definition proto_err (rsp : list Z) (w : wca_priv_t) : outcome reply :=
  let! rsp := RSP_FCI_GENERIC_FAILURE rsp 0 in
  Done (false, rsp, SW_SIZE, clear_proto_state w).

(** Copy [n] bytes of the APDU to the assembly buffer and go on. *)
Definition proto_append (x : exchange) (cmd : list Z) (data_off n : Z) (rsp : list Z) (in_len : Z)
    (w : wca_priv_t) : outcome reply :=
  let c := encoded_proto_cmd_ctx w in
  let! d := mread cmd data_off n in
  let! buf := mwrite (cmd_buffer c) (cmd_offset c) d in
  let w := set_cmd (mk_cmd_ctx buf (u32 (cmd_offset c + n)) (cmd_size c) (cmd_tag c)) w in
  if received_full_proto w then handle_proto_exchange x rsp in_len w
  else
    let! rsp := RSP_OK rsp 0 in
    Done (true, rsp, SW_SIZE, w).

Definition wca_proto (x : exchange) (cmd rsp : list Z) (in_len : Z) (w : wca_priv_t)
    : outcome reply :=
  let w := clear_proto_state w in
  let! readable := wca_has_readable_lc cmd in
  if negb readable then proto_err rsp w
  else
    let! p1 := aget cmd P1 in
    let! p2 := aget cmd P2 in
    let desired_size := Z.lor (Z.shiftl p1 8) p2 in
    if COMMAND_BUFFER_SIZE <? desired_size then proto_err rsp w
    else
      let! num_bytes := lc_to_int cmd LC in
      let data_off := if is_short_coding num_bytes then LC + 1 else LC + 3 in
      let remaining := u32 (zlen cmd - data_off) in
      if (zlen cmd <? remaining) || (remaining <? num_bytes) then proto_err rsp w
      else
        let! stream := mread cmd data_off remaining in
        match pb_decode_tag stream with
        | None => proto_err rsp w
        | Some tag =>
            let w := set_cmd (mk_cmd_ctx (cmd_buffer (encoded_proto_cmd_ctx w)) 0 desired_size
                                (u16 tag)) w in
            if desired_size <? num_bytes then proto_err rsp w
            else proto_append x cmd data_off num_bytes rsp in_len w
        end.

Definition wca_proto_cont (x : exchange) (cmd rsp : list Z) (in_len : Z) (w : wca_priv_t)
    : outcome reply :=
  let! readable := wca_has_readable_lc cmd in
  if negb readable then proto_err rsp w
  else
    let! num_bytes := lc_to_int cmd LC in
    let data_off := if is_short_coding num_bytes then LC + 1 else LC + 3 in
    let remaining := u32 (zlen cmd - data_off) in
    if (zlen cmd <? remaining) || (remaining <? num_bytes) then proto_err rsp w
    else
      let c := encoded_proto_cmd_ctx w in
      if (cmd_size c =? 0) || received_full_proto w then proto_err rsp w
      else if cmd_size c <? cmd_offset c then proto_err rsp w
      else if cmd_size c - cmd_offset c <? num_bytes then proto_err rsp w
      else proto_append x cmd data_off num_bytes rsp in_len w.

Definition wca_get_response (rsp : list Z) (in_len : Z) (w : wca_priv_t) : outcome reply :=
  if rsp_size (encoded_proto_rsp_ctx w) =? 0 then
    let w := clear_proto_state w in
    let! rsp := RSP_FCI_GENERIC_FAILURE rsp 0 in
    Done (false, rsp, SW_SIZE, w)
  else
    let! '(rsp, len, w) := drain_response_buffer rsp in_len w in
    Done (true, rsp, len, w).

(** The label [err] of [wca_handle_command]. *)
Definition command_err (rsp : list Z) (w : wca_priv_t) : outcome reply :=
  let w := clear_proto_state w in
  let! rsp := RSP_UNSUPPORTED_INS rsp 0 in
  Done (false, rsp, SW_SIZE, w).

Definition wca_handle_command (x : exchange) (cmd rsp : list Z) (in_len : Z) (w : wca_priv_t)
    : outcome reply :=
  let! _ := ASSERT (SW_SIZE <=? in_len) in
  let! valid := wca_is_valid cmd in
  if negb valid then command_err rsp w
  else
    let! ins := aget cmd INS in
    if ins =? WCA_INS_VERSION then wca_version rsp w
    else if ins =? WCA_INS_PROTO then wca_proto x cmd rsp in_len w
    else if ins =? WCA_INS_PROTO_CONT then wca_proto_cont x cmd rsp in_len w
    else if ins =? WCA_INS_GET_RESPONSE then wca_get_response rsp in_len w
    else command_err rsp w.

(** ** Invariant and memory safety *)

#[local] Arguments handle_proto_response : simpl never.
#[local] Arguments send_rsp_internal : simpl never.
#[local] Arguments drain_response_buffer : simpl never.
#[local] Arguments ISO7816_SET_STATUS : simpl never.
#[local] Arguments aget : simpl never.
#[local] Arguments u16 : simpl never.
#[local] Arguments u32 : simpl never.

Record wca_inv (w : wca_priv_t) : Prop := {
  inv_rsp_buffer : zlen (rsp_buffer (encoded_proto_rsp_ctx w)) = RESPONSE_BUFFER_SIZE;
  inv_rsp_offset : 0 ≤ rsp_offset (encoded_proto_rsp_ctx w);
  inv_rsp_size : 0 ≤ rsp_size (encoded_proto_rsp_ctx w);
  inv_rsp_end : rsp_offset (encoded_proto_rsp_ctx w) + rsp_size (encoded_proto_rsp_ctx w)
                ≤ RESPONSE_BUFFER_SIZE;
  inv_cmd_buffer : zlen (cmd_buffer (encoded_proto_cmd_ctx w)) = COMMAND_BUFFER_SIZE;
  inv_cmd_offset : 0 ≤ cmd_offset (encoded_proto_cmd_ctx w)
                     ≤ cmd_size (encoded_proto_cmd_ctx w);
  inv_cmd_size : cmd_size (encoded_proto_cmd_ctx w) ≤ COMMAND_BUFFER_SIZE;
  inv_cmd_seq : 0 ≤ cmd_seq w < 4294967296;
  inv_g_cmd_seq : g_cmd_seq w = 0 ∨ g_cmd_seq w = cmd_seq w;
}.

(** The part of the state that producers leave alone. *)
Definition cmd_side (w : wca_priv_t) : Z * cmd_ctx_t * Z * list (Z * list Z * Z) :=
  (cmd_seq w, encoded_proto_cmd_ctx w, g_cmd_seq w, routed w).

Definition producer_ok (e : producer) : Prop :=
  match e with Direct _ d => zlen d ≤ RESPONSE_BUFFER_SIZE | _ => True end.

Definition exchange_ok (x : exchange) : Prop :=
  Forall producer_ok (ex_race x) ∧ Forall (Forall producer_ok) (ex_wait x).

Context `{L : !NanopbLaws P}.

(** A copy to the start of a buffer it fits. *)
Lemma mwrite_prefix {A} (l d : list A) :
  zlen d ≤ zlen l → mwrite l 0 d = Done (d ++ zdrop (zlen d) l).
Proof. intros. unfold mwrite. zdecide. simpl. by rewrite Z.add_0_l. Qed.

Lemma mwrite_prefix_length {A} (l d : list A) :
  zlen d ≤ zlen l → zlen (d ++ zdrop (zlen d) l) = zlen l.
Proof. intros. rewrite zlen_app, zlen_zdrop; zl. Qed.

(** Two status bytes at [off]. *)
Lemma set_status_app (l k : list Z) a b sw1 sw2 off :
  off = zlen l →
  ISO7816_SET_STATUS (l ++ a :: b :: k) off sw1 sw2 = Done (l ++ sw1 :: sw2 :: k).
Proof.
  intros ->. unfold ISO7816_SET_STATUS. rewrite aset_done by zl. simpl.
  rewrite zlen_nat, insert_app_r_alt, Nat.sub_diag by lia. simpl.
  rewrite aset_done by zl. rewrite insert_app_r_alt by (unfold zlen; lia).
  replace (Z.to_nat (zlen l + 1) - length l)%nat with 1%nat by (unfold zlen; lia). done.
Qed.

(** A buffer with room for two bytes after the first [n]. *)
Lemma split_status {A} (l : list A) n :
  0 ≤ n → n + 2 ≤ zlen l → ∃ a b, l = ztake n l ++ a :: b :: zdrop (n + 2) l.
Proof.
  intros. assert (zlen (zdrop n l) = zlen l - n) as Hd by (apply zlen_zdrop; lia).
  destruct (zdrop n l) as [|a [|b k]] eqn:E; [autorewrite with zlen in Hd; lia..|].
  exists a, b. rewrite <- (ztake_zdrop n l) at 1. rewrite E. do 3 f_equal.
  rewrite <- (zdrop_zdrop l 2 n) by lia. by rewrite E.
Qed.

Lemma set_status_done (l : list Z) sw1 sw2 off :
  0 ≤ off → off + 2 ≤ zlen l →
  ISO7816_SET_STATUS l off sw1 sw2 = Done (ztake off l ++ sw1 :: sw2 :: zdrop (off + 2) l).
Proof.
  intros. destruct (split_status l off) as (a & b & E); [done..|].
  rewrite E at 1. apply set_status_app. rewrite zlen_ztake; lia.
Qed.

Lemma set_status_length (l : list Z) sw1 sw2 off :
  0 ≤ off → off + 2 ≤ zlen l → zlen (ztake off l ++ sw1 :: sw2 :: zdrop (off + 2) l) = zlen l.
Proof. intros. rewrite zlen_app, !zlen_cons, zlen_ztake, zlen_zdrop; lia. Qed.

Lemma handle_response_inv d w :
  wca_inv w → zlen d ≤ RESPONSE_BUFFER_SIZE →
  ∃ k, handle_proto_response (Some d) w = Done (set_sem true (set_rsp (mk_rsp_ctx (d ++ k) 0 (zlen d)) w)) ∧
       wca_inv (set_sem true (set_rsp (mk_rsp_ctx (d ++ k) 0 (zlen d)) w)).
Proof.
  intros [] Hd. exists (zdrop (zlen d) (rsp_buffer (encoded_proto_rsp_ctx w))).
  unfold handle_proto_response. zdecide. simpl. rewrite mwrite_prefix by lia. split; [done|].
  pose proof (zlen_nonneg d).
  split; simpl; try done; try lia. rewrite mwrite_prefix_length; lia.
Qed.

(** The bytes a response is sent as. *)
Definition encoded_rsp (r : rsp_t) : list Z :=
  match pb_encode r with Some d => d | None => default [] (pb_encode error_rsp) end.

Lemma encoded_rsp_fits r : zlen (encoded_rsp r) ≤ RESPONSE_BUFFER_SIZE.
Proof.
  unfold encoded_rsp. destruct (pb_encode r) eqn:E; [by eapply pb_encode_fits|].
  destruct error_rsp_encodes as [d Hd]. rewrite Hd. by eapply pb_encode_fits.
Qed.

Lemma encode_rsp_spec buf r :
  zlen buf = RESPONSE_BUFFER_SIZE →
  ∃ k, encode_rsp_with_fallback buf r = Done (encoded_rsp r ++ k, encoded_rsp r) ∧
       zlen (encoded_rsp r ++ k) = RESPONSE_BUFFER_SIZE.
Proof.
  intros Hb. unfold encode_rsp_with_fallback. pose proof (encoded_rsp_fits r) as Hf.
  pose proof response_size_range. unfold encoded_rsp in *. destruct (pb_encode r) as [d|].
  - rewrite mwrite_prefix by lia. eexists. split; [done|]. rewrite mwrite_prefix_length; lia.
  - destruct error_rsp_encodes as [d Hd]. rewrite Hd in *. simpl in *.
    rewrite mwrite_prefix by zl. simpl.
    set (z := replicate _ _ ++ _). assert (zlen z = RESPONSE_BUFFER_SIZE) as Hz
      by (unfold z; rewrite mwrite_prefix_length; zl).
    rewrite mwrite_prefix by lia. eexists. split; [done|]. rewrite mwrite_prefix_length; lia.
Qed.

(** [send_rsp_internal]: a stale response is dropped, the current one replaces
    the buffer and its sequence number. *)
Lemma send_rsp_spec seq r w :
  wca_inv w →
  (seq = 0 ∨ seq ≠ g_cmd_seq w) ∧ send_rsp_internal seq r w = Done (false, w) ∨
  (seq ≠ 0 ∧ seq = g_cmd_seq w) ∧
    ∃ k, let w' := set_sem true (set_rsp (mk_rsp_ctx (encoded_rsp r ++ k) 0 (zlen (encoded_rsp r)))
                                   (ipc_proto_set_response_seq seq w)) in
         send_rsp_internal seq r w = Done (true, w') ∧ wca_inv w'.
Proof.
  intros Hi. unfold send_rsp_internal.
  destruct (seq =? 0) eqn:E0; btest; [left; split; [by left|done]|].
  destruct (seq =? g_cmd_seq w) eqn:E1; btest; simpl; [|left; split; [by right|done]].
  right. split; [done|].
  destruct (encode_rsp_spec (rsp_buffer (encoded_proto_rsp_ctx w)) r) as (k & -> & Hk);
    [apply Hi|]. simpl.
  set (w1 := ipc_proto_set_response_seq _ _).
  assert (wca_inv w1) as Hi1 by (destruct Hi; split; simpl; done).
  destruct (handle_response_inv (encoded_rsp r) w1 Hi1 (encoded_rsp_fits r)) as (k' & -> & Hw).
  exists k'. split; [done|]. exact Hw.
Qed.

Lemma clear_rsp_inv w : wca_inv w → wca_inv (clear_proto_rsp_ctx w).
Proof. intros []. pose proof response_size_range. split; simpl; try done; lia. Qed.

Lemma clear_state_inv w : wca_inv w → wca_inv (clear_proto_state w).
Proof.
  intros []. pose proof response_size_range. pose proof command_size_range.
  split; simpl; try done; lia.
Qed.

Lemma set_sem_inv b w : wca_inv w → wca_inv (set_sem b w).
Proof. intros []. by split. Qed.

Lemma retire_inv seq w : wca_inv w → wca_inv (proto_retire_cmd_seq seq w).
Proof.
  intros []. unfold proto_retire_cmd_seq.
  destruct (g_cmd_seq w =? seq), (response_seq _ =? seq); split; simpl; auto.
Qed.

#[local] Hint Resolve clear_rsp_inv clear_state_inv set_sem_inv retire_inv : fw.

Lemma produce_inv e w :
  wca_inv w → producer_ok e →
  ∃ w', produce e w = Done w' ∧ wca_inv w' ∧ cmd_side w' = cmd_side w.
Proof.
  intros Hi He. destruct e as [seq r|seq d|]; simpl.
  - destruct (send_rsp_spec seq r w Hi) as [[_ ->]|[_ (k & -> & Hw)]]; simpl; eauto.
  - set (w1 := ipc_proto_set_response_seq seq w).
    assert (wca_inv w1) as Hi1 by (destruct Hi; split; simpl; done).
    destruct (handle_response_inv d w1 Hi1 He) as (k & -> & Hw). eauto.
  - eexists. split; [done|]. split; [|done]. auto with fw.
Qed.

Lemma produce_all_inv es w :
  wca_inv w → Forall producer_ok es →
  ∃ w', produce_all es w = Done w' ∧ wca_inv w' ∧ cmd_side w' = cmd_side w.
Proof.
  intros Hi He. revert w Hi. induction He as [|e es He _ IH]; intros w Hi; simpl; [eauto|].
  destruct (produce_inv e w Hi He) as (w1 & -> & Hi1 & Hc). simpl.
  destruct (IH w1 Hi1) as (w2 & -> & Hi2 & Hc2). exists w2. by rewrite Hc2, Hc.
Qed.

(** *** Draining the response *)

(** The bytes of the response not yet sent. *)
Definition pending (w : wca_priv_t) : list Z :=
  ztake (rsp_size (encoded_proto_rsp_ctx w))
    (zdrop (rsp_offset (encoded_proto_rsp_ctx w)) (rsp_buffer (encoded_proto_rsp_ctx w))).

Lemma zlen_pending w : wca_inv w → zlen (pending w) = rsp_size (encoded_proto_rsp_ctx w).
Proof. intros []. unfold pending. rewrite zlen_ztake; [done|]. rewrite zlen_zdrop; lia. Qed.

(** The status words after which [left] bytes remain. *)
Definition sw_of (left : Z) : list Z :=
  if left =? 0 then [0x90; 0x00] else [0x61; Z.min UINT8_MAX left].

Lemma zlen_sw_of left : zlen (sw_of left) = SW_SIZE.
Proof. unfold sw_of. by destruct (left =? 0). Qed.

Lemma ztake_ztake_le {A} (l : list A) n m : n ≤ m → ztake n (ztake m l) = ztake n l.
Proof. intros. unfold ztake. rewrite take_take. f_equal. lia. Qed.

Lemma zdrop_ztake {A} (l : list A) n m :
  0 ≤ n ≤ m → zdrop n (ztake m l) = ztake (m - n) (zdrop n l).
Proof. intros. unfold ztake, zdrop. rewrite take_drop_commute. do 2 f_equal. lia. Qed.

Lemma drain_spec rsp in_len w :
  wca_inv w → SW_SIZE ≤ in_len ≤ zlen rsp → in_len < 4294967296 →
  let n := Z.min (in_len - SW_SIZE) (zlen (pending w)) in
  ∃ k w', drain_response_buffer rsp in_len w
          = Done (ztake n (pending w) ++ sw_of (zlen (pending w) - n) ++ k, n + SW_SIZE, w') ∧
          zlen (ztake n (pending w) ++ sw_of (zlen (pending w) - n) ++ k) = zlen rsp ∧
          wca_inv w' ∧ pending w' = zdrop n (pending w) ∧
          cmd_side w' = cmd_side w ∧ response_seq w' = response_seq w ∧ sem w' = sem w.
Proof.
  intros Hi Hl Hu n. assert (zlen (pending w) = _) as Hp by by apply zlen_pending.
  pose proof response_size_range. unfold SW_SIZE in *. pose proof Hi as [].
  unfold drain_response_buffer. set (c := encoded_proto_rsp_ctx w) in *.
  destruct (rsp_size c =? 0) eqn:E; btest.
  - assert (pending w = []) as Hnil by (apply zlen_zero; lia).
    assert (n = 0) as -> by lia. rewrite Hnil. unfold RSP_OK.
    rewrite set_status_done by lia. simpl. eexists _, w. split; [done|].
    split; [|done]. apply (set_status_length rsp 144 0 0); lia.
  - unfold SW_SIZE. rewrite u32_small by lia. rewrite <- Hp. fold n.
    assert (0 ≤ n ≤ zlen (pending w)) by lia.
    unfold mread. zdecide. simpl.
    assert (ztake n (zdrop (rsp_offset c) (rsp_buffer c)) = ztake n (pending w)) as ->
      by (unfold pending; fold c; rewrite ztake_ztake_le; [done|lia]).
    assert (zlen (ztake n (pending w)) = n) as Hn by (apply zlen_ztake; lia).
    rewrite mwrite_prefix by lia. simpl. rewrite Hn.
    rewrite u32_small by lia.
    set (w' := set_rsp _ w).
    assert (wca_inv w') as Hi' by (split; simpl; try done; fold c; lia).
    assert (pending w' = zdrop n (pending w)) as Hp'.
    { unfold pending. simpl. fold c. rewrite zdrop_ztake by lia.
      rewrite zdrop_zdrop by lia. by rewrite Hp. }
    destruct (split_status (zdrop n rsp) 0) as (a & b & Hab); [lia|rewrite zlen_zdrop; lia|].
    rewrite ztake_0 in Hab. simpl app in Hab. rewrite Hab. unfold sw_of.
    destruct (0 <? _) eqn:El; btest; zdecide; unfold RSP_BYTES_REMAIN, RSP_OK;
      rewrite set_status_app by done; simpl.
    + rewrite aset_done by zl. rewrite insert_app_r_alt by (unfold zlen in Hn; lia).
      replace (Z.to_nat (n + 1) - _)%nat with 1%nat by (unfold zlen in Hn; lia). simpl.
      eexists _, w'. split; [|split; [|done]].
      * do 5 f_equal. unfold UINT8_MAX. destruct (255 <? _) eqn:E8; btest; f_equal; lia.
      * rewrite zlen_app. simpl. rewrite !zlen_cons, zdrop_zdrop, zlen_zdrop; lia.
    + eexists _, w'. split; [done|]. split; [|done].
      rewrite zlen_app. simpl. rewrite !zlen_cons, zdrop_zdrop, zlen_zdrop; lia.
Qed.

(** *** No handler reads or writes out of bounds *)

Definition reply_ok (rsp : list Z) (in_len : Z) (o : outcome reply) : Prop :=
  ∃ ok rsp' len w', o = Done (ok, rsp', len, w') ∧ wca_inv w' ∧ zlen rsp' = zlen rsp ∧
    SW_SIZE ≤ len ≤ in_len.

Section Safety.
Context (rsp : list Z) (in_len : Z).
Hypothesis (Hmin : 4 ≤ in_len).
Hypothesis (Hcap : in_len ≤ zlen rsp).
Hypothesis (Hu32 : in_len < 4294967296).

Lemma status_reply_ok sw1 sw2 w' :
  wca_inv w' →
  reply_ok rsp in_len (let! rsp := ISO7816_SET_STATUS rsp 0 sw1 sw2 in Done (false, rsp, SW_SIZE, w')).
Proof.
  intros. rewrite set_status_done by lia. eexists _, _, _, _. split; [done|].
  split; [done|]. split; [apply set_status_length; lia|]. unfold SW_SIZE. lia.
Qed.

Lemma drain_reply_ok w :
  wca_inv w →
  reply_ok rsp in_len (let! '(rsp, len, w) := drain_response_buffer rsp in_len w in
                       Done (true, rsp, len, w)).
Proof.
  intros Hi. pose proof (zlen_nonneg (pending w)). unfold SW_SIZE in *.
  destruct (drain_spec rsp in_len w Hi) as (k & w' & -> & Hl & Hi' & _);
    [unfold SW_SIZE; lia|done|].
  eexists _, _, _, _. split; [done|]. split; [done|]. split; [done|]. unfold SW_SIZE. lia.
Qed.

Lemma wait_reply_ok gs seq w :
  wca_inv w → Forall (Forall producer_ok) gs →
  reply_ok rsp in_len (wca_wait_for_proto_response gs seq rsp in_len w).
Proof.
  intros Hi Hgs. revert w Hi. induction Hgs as [|g gs Hg _ IH]; intros w Hi; simpl.
  - destruct (_ && _); [apply drain_reply_ok|apply status_reply_ok]; auto with fw.
  - destruct (sem w).
    + destruct (produce_all_inv g (set_sem false w)) as (w1 & -> & Hi1 & _); [auto with fw..|].
      simpl. destruct (_ =? _); [apply drain_reply_ok|apply IH]; done.
    + destruct (produce_all_inv g w) as (w1 & -> & Hi1 & _); [done..|]. by apply IH.
Qed.

Lemma next_seq_range w : wca_inv w → 0 < cmd_seq (next_cmd_seq w) < 4294967296.
Proof.
  intros _. unfold next_cmd_seq, set_cmd_seq. cbn [cmd_seq].
  pose proof (u32_range (cmd_seq w + 1)) as Hs. revert Hs. generalize (u32 (cmd_seq w + 1)).
  intros s Hs. destruct (s =? 0) eqn:E; btest; lia.
Qed.

(** The state in which the wait starts: the new sequence number is published
    and the assembled command handed to the router. *)
Definition route_state (w : wca_priv_t) : wca_priv_t :=
  let c := encoded_proto_cmd_ctx w in
  let seq := cmd_seq (next_cmd_seq w) in
  mk_wca seq (encoded_proto_rsp_ctx w) c (sem w) seq (response_seq w)
    (routed w ++ [(cmd_tag c, ztake (cmd_size c) (cmd_buffer c), seq)]).

Lemma route_state_inv w : wca_inv w → wca_inv (route_state w).
Proof.
  intros Hi. pose proof (next_seq_range w Hi). destruct Hi.
  split; try done; [|by right]. change (cmd_seq (route_state w)) with (cmd_seq (next_cmd_seq w)).
  lia.
Qed.

Lemma exchange_open x w :
  wca_inv w → exchange_ok x →
  ∃ w1, produce_all (ex_race x) (clear_proto_rsp_ctx w) = Done w1 ∧ wca_inv w1 ∧
    cmd_side w1 = cmd_side w ∧
    handle_proto_exchange x rsp in_len w =
      if ex_routed x then
        wca_wait_for_proto_response (ex_wait x) (cmd_seq (next_cmd_seq w)) rsp in_len (route_state w1)
      else Done (false, rsp, in_len, clear_proto_state (route_state w1)).
Proof.
  intros Hi [Hr _]. unfold handle_proto_exchange.
  destruct (produce_all_inv (ex_race x) (clear_proto_rsp_ctx w)) as (w1 & E & Hi1 & Hc);
    [auto with fw..|]. exists w1. split; [done|]. split; [done|]. split; [done|].
  rewrite E. cbn [obind]. pose proof Hi1 as [].
  assert (cmd_seq w1 = cmd_seq w) as Hs by by injection Hc.
  assert (cmd_seq (next_cmd_seq w1) = cmd_seq (next_cmd_seq w)) as Hs'
    by (unfold next_cmd_seq; by rewrite Hs).
  unfold mread. cbn [encoded_proto_cmd_ctx next_cmd_seq set_cmd_seq proto_set_cmd_seq].
  zdecide. cbn [obind andb Z.leb Z.compare]. rewrite zdrop_0. unfold ipc_proto_route.
  rewrite <- Hs'. by destruct (ex_routed x).
Qed.

Lemma exchange_reply_ok x w :
  wca_inv w → exchange_ok x → reply_ok rsp in_len (handle_proto_exchange x rsp in_len w).
Proof.
  intros Hi Hx. destruct (exchange_open x w Hi Hx) as (w1 & _ & Hi1 & _ & ->).
  apply route_state_inv in Hi1.
  destruct (ex_routed x); [apply wait_reply_ok; [done|apply Hx]|].
  eexists _, _, _, _. split; [done|]. split; [by apply clear_state_inv|]. split; [done|].
  unfold SW_SIZE. lia.
Qed.

Lemma append_reply_ok x cmd data_off n w :
  wca_inv w → exchange_ok x → 0 ≤ data_off → 0 ≤ n → data_off + n ≤ zlen cmd →
  cmd_offset (encoded_proto_cmd_ctx w) + n ≤ cmd_size (encoded_proto_cmd_ctx w) →
  reply_ok rsp in_len (proto_append x cmd data_off n rsp in_len w).
Proof.
  intros Hi Hx ? ? ? ?. pose proof Hi as []. pose proof command_size_range.
  unfold proto_append, mread. zdecide. simpl.
  assert (zlen (ztake n (zdrop data_off cmd)) = n) as Hd
    by (apply zlen_ztake; rewrite zlen_zdrop; lia).
  unfold mwrite. rewrite Hd. zdecide. simpl.
  rewrite u32_small by lia.
  set (w' := set_cmd _ w). assert (wca_inv w').
  { split; simpl; try done; try lia. rewrite !zlen_app, zlen_ztake, Hd, zlen_zdrop; lia. }
  destruct (received_full_proto w'); [by apply exchange_reply_ok|].
  unfold RSP_OK. rewrite set_status_done by lia. eexists _, _, _, _. split; [done|].
  split; [done|]. split; [apply set_status_length; lia|]. unfold SW_SIZE. lia.
Qed.

Lemma lor_bytes a b : byte_ok a → byte_ok b → Z.lor (Z.shiftl a 8) b = a * 256 + b.
Proof. unfold byte_ok. intros. rewrite Z.lor_comm, lor_shiftl_add by (simpl; lia). lia. Qed.

Lemma aget_byte cmd i : bytes_ok cmd → 0 ≤ i < zlen cmd → ∃ b, aget cmd i = Done b ∧ byte_ok b.
Proof.
  intros Hb Hi. destruct (aget_total cmd i Hi) as [b Hg]. exists b. split; [done|].
  unfold aget in Hg. destruct (0 <=? i); [|done].
  destruct (cmd !! Z.to_nat i) eqn:E; [|done]. injection Hg as <-.
  by apply (Forall_lookup_1 _ _ _ _ Hb E).
Qed.

(** A readable [Lc] decodes to a 16-bit length, and its data offset is past it. *)
Lemma readable_lc cmd :
  bytes_ok cmd → wca_has_readable_lc cmd = Done true →
  ∃ n, lc_to_int cmd LC = Done n ∧ 0 ≤ n < 65536 ∧ LC < zlen cmd.
Proof.
  intros Hb. unfold wca_has_readable_lc, lc_to_int, LC in *.
  destruct (4 <? zlen cmd) eqn:E; [|done]; btest.
  destruct (aget_byte cmd 4) as (b & -> & Hb4); [done|lia|]. unfold byte_ok in *. simpl.
  destruct (b =? 0) eqn:E0; simpl; intros Hr; [|exists b; split; [done|lia]].
  injection Hr as Hr; btest. change (4 + 1) with 5. change (4 + 2) with 6.
  destruct (aget_byte cmd 5) as (b1 & -> & ?); [done|lia|].
  destruct (aget_byte cmd 6) as (b2 & -> & ?); [done|lia|]. simpl.
  eexists. split; [done|]. split; [apply u16_range|lia].
Qed.

Lemma readable_lc_total cmd : ∃ r, wca_has_readable_lc cmd = Done r.
Proof.
  unfold wca_has_readable_lc, LC. destruct (4 <? zlen cmd) eqn:E; [|eauto]; btest.
  destruct (aget_total cmd 4) as [b ->]; [lia|]. simpl. eauto.
Qed.

(** The bounds check on [data_off] and [num_bytes], with its wrap-around. *)
Lemma remaining_ok (cmd : list Z) data_off n :
  zlen cmd < 4294967296 → 0 ≤ data_off < 8 → 0 ≤ n →
  (zlen cmd <? u32 (zlen cmd - data_off)) || (u32 (zlen cmd - data_off) <? n) = false →
  data_off + n ≤ zlen cmd ∧ u32 (zlen cmd - data_off) = zlen cmd - data_off.
Proof.
  intros Hu Hd Hn H. rewrite orb_false_iff in H. btest.
  destruct (Z.le_gt_cases data_off (zlen cmd)) as [Hle|Hgt].
  - rewrite u32_small in * by zl. lia.
  - pose proof (zlen_nonneg cmd).
    assert (u32 (zlen cmd - data_off) = zlen cmd - data_off + 4294967296) as E.
    { unfold u32. rewrite <- (Z.mod_add _ 1) by lia. apply Z.mod_small. lia. }
    lia.
Qed.

Lemma data_off_range n : 0 ≤ (if is_short_coding n then LC + 1 else LC + 3) < 8.
Proof. unfold LC. destruct (is_short_coding n); lia. Qed.

Lemma proto_err_ok w : wca_inv w → reply_ok rsp in_len (proto_err rsp w).
Proof. intros. apply status_reply_ok. auto with fw. Qed.

Lemma command_err_ok w : wca_inv w → reply_ok rsp in_len (command_err rsp w).
Proof. intros. apply status_reply_ok. auto with fw. Qed.

#[local] Hint Resolve proto_err_ok command_err_ok : fw.

Section Command.
Context (x : exchange) (cmd : list Z).
Hypothesis (Hx : exchange_ok x).
Hypothesis (Hb : bytes_ok cmd).
Hypothesis (Hlen : zlen cmd < 4294967296).

Lemma wca_proto_ok w : wca_inv w → reply_ok rsp in_len (wca_proto x cmd rsp in_len w).
Proof.
  intros Hi. pose proof (clear_state_inv w Hi) as Hc. unfold wca_proto.
  destruct (readable_lc_total cmd) as [r Hr]. rewrite Hr. cbn [obind].
  destruct r; cbn [negb]; [|auto with fw].
  destruct (readable_lc cmd Hb Hr) as (n & Hn & Hn16 & Hlc). unfold LC in Hlc.
  destruct (aget_byte cmd P1) as (p1 & -> & H1); [done|unfold P1; lia|].
  destruct (aget_byte cmd P2) as (p2 & -> & H2); [done|unfold P2; lia|]. cbn [obind].
  rewrite lor_bytes by done. unfold byte_ok in *.
  destruct (_ <? p1 * 256 + p2) eqn:Es; [auto with fw|]; btest.
  rewrite Hn. cbn [obind]. pose proof (data_off_range n) as Ho.
  set (off := if is_short_coding n then _ else _) in *.
  destruct (_ || _) eqn:Er; [auto with fw|].
  apply remaining_ok in Er as [Hon Hrem]; [|lia..]. rewrite Hrem.
  unfold mread at 1. zdecide. cbn [obind andb].
  destruct (pb_decode_tag _) as [tag|]; [|auto with fw].
  set (w1 := set_cmd _ _). assert (wca_inv w1) as Hi1
    by (pose proof response_size_range; destruct Hc; split; try done; simpl; lia).
  destruct (_ <? n) eqn:Ed; [auto with fw|]; btest.
  apply append_reply_ok; try done; simpl; lia.
Qed.

Lemma wca_proto_cont_ok w : wca_inv w → reply_ok rsp in_len (wca_proto_cont x cmd rsp in_len w).
Proof.
  intros Hi. unfold wca_proto_cont.
  destruct (readable_lc_total cmd) as [r Hr]. rewrite Hr. cbn [obind].
  destruct r; cbn [negb]; [|auto with fw].
  destruct (readable_lc cmd Hb Hr) as (n & -> & Hn16 & _). cbn [obind].
  pose proof (data_off_range n) as Ho. set (off := if is_short_coding n then _ else _) in *.
  destruct (_ || _) eqn:Er; [auto with fw|].
  apply remaining_ok in Er as [Hon _]; [|lia..].
  destruct (_ || received_full_proto w); [auto with fw|].
  destruct (cmd_size _ <? cmd_offset _); [auto with fw|].
  destruct (_ <? n) eqn:Ed; [auto with fw|]; btest.
  apply append_reply_ok; try done; lia.
Qed.

Lemma wca_is_valid_total : ∃ v, wca_is_valid cmd = Done v ∧ (v = true → P2 < zlen cmd).
Proof.
  unfold wca_is_valid, wca_is_wca. destruct (zlen cmd <? P2 + 1) eqn:E; [by exists false|].
  btest. unfold P2, CLA in *. zdecide.
  destruct (aget_total cmd 0) as [b ->]; [lia|]. cbn [obind].
  destruct (b =? WCA_CLA); cbn [negb]; [|by exists false].
  destruct (aget_total cmd INS) as [i ->]; [unfold INS; lia|]. cbn [obind].
  destruct (_ || _); [|exists true; split; [done|lia]].
  destruct (readable_lc_total cmd) as [r ->]. exists r. split; [done|lia].
Qed.

Lemma wca_handle_command_ok w :
  wca_inv w → reply_ok rsp in_len (wca_handle_command x cmd rsp in_len w).
Proof.
  intros Hi. unfold wca_handle_command, SW_SIZE. zdecide. cbn [obind ASSERT].
  destruct wca_is_valid_total as (v & -> & Hv). cbn [obind].
  destruct v; cbn [negb]; [|auto with fw]. unfold P2 in Hv.
  destruct (aget_total cmd INS) as [i ->]; [unfold INS; specialize (Hv eq_refl); lia|].
  cbn [obind]. destruct (i =? WCA_INS_VERSION).
  { unfold wca_version. rewrite mwrite_prefix by (unfold zlen at 1; simpl; lia). cbn [obind].
    set (l := _ ++ _). assert (zlen l = zlen rsp) as Hl
      by (apply mwrite_prefix_length; unfold zlen at 1; simpl; lia).
    unfold RSP_OK. rewrite set_status_done by lia. eexists _, _, _, _. split; [done|].
    split; [done|]. split; [|unfold SW_SIZE; lia]. rewrite set_status_length; lia. }
  destruct (i =? WCA_INS_PROTO); [by apply wca_proto_ok|].
  destruct (i =? WCA_INS_PROTO_CONT); [by apply wca_proto_cont_ok|].
  destruct (i =? WCA_INS_GET_RESPONSE); [|auto with fw].
  unfold wca_get_response.
  destruct (_ =? 0); [apply status_reply_ok; auto with fw|by apply drain_reply_ok].
Qed.
End Command.
End Safety.

(** ** Correlation of responses *)

(** Producers that go through [proto_send_rsp] and its variants. *)
Definition is_send (e : producer) : Prop := match e with Send _ _ => True | _ => False end.

Lemma sends_ok es : Forall is_send es → Forall producer_ok es.
Proof. intros H. eapply Forall_impl; [exact H|]. by intros []. Qed.

Lemma sends_all_ok gs : Forall (Forall is_send) gs → Forall (Forall producer_ok) gs.
Proof. intros H. eapply Forall_impl; [exact H|]. apply sends_ok. Qed.

Definition answered (seq : Z) (r : rsp_t) (w : wca_priv_t) : Prop :=
  response_seq w = seq ∧ pending w = encoded_rsp r.

(** A run of producers leaves the state alone, unless it holds a response to
    the current command: then it ends with one, and the semaphore given. *)
Lemma sends_spec seq es w :
  wca_inv w → Forall is_send es → g_cmd_seq w = seq →
  ∃ w', produce_all es w = Done w' ∧ wca_inv w' ∧ cmd_side w' = cmd_side w ∧
    (seq ≠ 0 ∧ (∃ r, Send seq r ∈ es ∧ answered seq r w') ∧ sem w' = true ∨
     (seq ≠ 0 → ∀ r, Send seq r ∉ es) ∧ w' = w).
Proof.
  intros Hi Hs. revert w Hi. induction Hs as [|e es He Hes IH]; intros w Hi Hg; simpl.
  { exists w. do 3 (split; [done|]). right. split; [|done]. intros ? r. apply not_elem_of_nil. }
  destruct e as [s r| |]; [|done..]. simpl.
  destruct (send_rsp_spec s r w Hi) as [[Hst ->]|[[Hs0 ->] (k & -> & Hw)]]; cbn [obind].
  - destruct (IH w Hi Hg) as (w' & -> & Hi' & Hc & H). exists w'. do 3 (split; [done|]).
    destruct H as [(Hz & (r' & Hr & Ha) & Hsem)|[Hn Hw]].
    + left. split; [done|]. split; [|done]. exists r'. split; [by right|done].
    + right. split; [|done]. intros Hz r' Hin. apply elem_of_cons in Hin as [[= -> ->]|Hin].
      * destruct Hst; congruence.
      * by apply (Hn Hz r').
  - set (w1 := set_sem _ _) in *. subst seq. destruct (IH w1 Hw eq_refl) as (w' & -> & Hi' & Hc & H).
    exists w'. do 3 (split; [done|]). left. change (g_cmd_seq w1) with (g_cmd_seq w) in H.
    destruct H as [(Hz & (r' & Hr & Ha) & Hsem)|[Hn ->]]; split; try done.
    + split; [|done]. exists r'. split; [by right|done].
    + split; [|done]. exists r. split; [by left|]. split; [done|].
      unfold pending. simpl. rewrite zdrop_0. by apply ztake_app_exact.
Qed.

Section Correlation.
Context (rsp : list Z) (in_len seq : Z).
Hypothesis (Hmin : SW_SIZE ≤ in_len).
Hypothesis (Hcap : in_len ≤ zlen rsp).
Hypothesis (Hu32 : in_len < 4294967296).
Hypothesis (Hseq : seq ≠ 0).

(** The reply carries the first bytes of [r]'s encoding, the state the rest. *)
Definition delivered (r : rsp_t) (w : wca_priv_t) (o : outcome reply) : Prop :=
  let d := encoded_rsp r in
  let n := Z.min (in_len - SW_SIZE) (zlen d) in
  ∃ k w', o = Done (true, ztake n d ++ sw_of (zlen d - n) ++ k, n + SW_SIZE, w') ∧
    zlen (ztake n d ++ sw_of (zlen d - n) ++ k) = zlen rsp ∧
    wca_inv w' ∧ pending w' = zdrop n d ∧ cmd_side w' = cmd_side w.

(** The reply is the failure status, and the sequence number is retired. *)
Definition timed_out (w : wca_priv_t) (o : outcome reply) : Prop :=
  ∃ w', o = Done (false, [0x6F; 0x00] ++ zdrop 2 rsp, SW_SIZE, w') ∧
    wca_inv w' ∧ pending w' = [] ∧ g_cmd_seq w' = 0 ∧ routed w' = routed w.

Lemma drain_delivered r w :
  wca_inv w → pending w = encoded_rsp r →
  delivered r w (let! '(rsp, len, w) := drain_response_buffer rsp in_len w in
                 Done (true, rsp, len, w)).
Proof.
  intros Hi Hp. destruct (drain_spec rsp in_len w Hi) as (k & w' & -> & Hl & Hi' & Hp' & Hc & _);
    [done..|]. cbn [obind]. rewrite Hp in *. exists k, w'. done.
Qed.

Lemma timeout_spec w :
  wca_inv w → g_cmd_seq w = seq → timed_out w (response_timeout seq rsp w).
Proof.
  intros Hi Hg. unfold response_timeout, RSP_FCI_GENERIC_FAILURE. unfold SW_SIZE in *.
  rewrite set_status_done by lia. eexists. split; [done|].
  split; [auto with fw|]. unfold proto_retire_cmd_seq. rewrite Hg, Z.eqb_refl.
  split; [|destruct (_ =? _); done]. unfold pending. simpl. by destruct (_ =? _).
Qed.

(** Once the current command is answered, the wait delivers an answer. *)
Lemma wait_answered (R : rsp_t → Prop) gs r w :
  wca_inv w → Forall (Forall is_send) gs → g_cmd_seq w = seq →
  (∀ r, Send seq r ∈ concat gs → R r) → R r → answered seq r w → sem w = true →
  ∃ r', R r' ∧ delivered r' w (wca_wait_for_proto_response gs seq rsp in_len w).
Proof.
  intros Hi Hgs Hg HR Hr [Hs Hp] Hsem. destruct gs as [|g gs]; simpl; rewrite Hsem.
  - rewrite (proj2 (Z.eqb_eq _ _) Hs). cbn [andb]. exists r. split; [done|].
    apply (drain_delivered r (set_sem false w)); auto with fw.
  - inversion Hgs as [|? ? Hg1 Hgs1]; subst.
    destruct (sends_spec (g_cmd_seq w) g (set_sem false w))
      as (w1 & -> & Hi1 & Hc & H); [auto with fw|done..|]. cbn [obind].
    destruct H as [(_ & (r' & Hin & Hs' & Hp') & _)|[_ ->]].
    + rewrite Hs', Z.eqb_refl. exists r'. split.
      * apply HR. simpl. apply elem_of_app. by left.
      * destruct (drain_delivered r' w1 Hi1 Hp') as (k & w2 & ? & ? & ? & ? & Hc2).
        exists k, w2. by rewrite Hc2, Hc.
    + simpl. rewrite Hs, Z.eqb_refl. exists r. split; [done|].
      by apply (drain_delivered r (set_sem false w)); [auto with fw|].
Qed.

Lemma delivered_frame r w w1 o : cmd_side w1 = cmd_side w → delivered r w1 o → delivered r w o.
Proof. intros Hc (k & w' & ? & ? & ? & ? & Hc'). exists k, w'. by rewrite Hc', Hc. Qed.

Lemma wait_fresh (R : rsp_t → Prop) gs w :
  wca_inv w → Forall (Forall is_send) gs → g_cmd_seq w = seq →
  (∀ r, Send seq r ∈ concat gs → R r) → response_seq w ≠ seq →
  let o := wca_wait_for_proto_response gs seq rsp in_len w in
  (∃ r, R r ∧ delivered r w o) ∨ (∀ r, Send seq r ∉ concat gs) ∧ timed_out w o.
Proof.
  intros Hi Hgs. revert w Hi. induction Hgs as [|g gs Hg Hgs IH]; intros w Hi Hgw HR Hf; simpl.
  { right. split; [intros r; apply not_elem_of_nil|].
    rewrite (proj2 (Z.eqb_neq _ _) Hf), andb_false_r.
    apply (timeout_spec (set_sem false w)); auto with fw. }
  assert (∀ r, Send seq r ∈ g → R r) as HRg
    by (intros; apply HR; simpl; apply elem_of_app; by left).
  assert (∀ r, Send seq r ∈ concat gs → R r) as HRgs
    by (intros; apply HR; simpl; apply elem_of_app; by right).
  assert (∀ w1, w1 = w ∨ w1 = set_sem false w → (∀ r, Send seq r ∉ g) →
    let o := wca_wait_for_proto_response gs seq rsp in_len w1 in
    (∃ r, R r ∧ delivered r w o) ∨ (∀ r, Send seq r ∉ g ++ concat gs) ∧ timed_out w o) as Hskip.
  { intros w1 Hw1 Hn. destruct (IH w1) as [(r & HRr & Hd)|[Hn' Ht]];
      [by destruct Hw1; subst; auto with fw..| |].
    - left. exists r. split; [done|]. eapply delivered_frame; [|done]. by destruct Hw1; subst.
    - right. split; [|by destruct Hw1; subst]. intros r [?|?]%elem_of_app; [by eapply Hn|by eapply Hn']. }
  destruct (sem w) eqn:Hsem.
  - destruct (sends_spec seq g (set_sem false w)) as (w1 & -> & Hi1 & Hc & H); [auto with fw|done..|].
    cbn [obind]. destruct H as [(_ & (r & Hin & Hs' & Hp') & _)|[Hn ->]].
    + rewrite Hs', Z.eqb_refl. left. exists r. split; [by apply HRg|].
      eapply delivered_frame; [|by apply drain_delivered]. done.
    + simpl. rewrite (proj2 (Z.eqb_neq _ _) Hf). apply Hskip; [by right|by apply Hn].
  - destruct (sends_spec seq g w) as (w1 & -> & Hi1 & Hc & H); [done..|].
    cbn [obind]. destruct H as [(_ & (r & Hin & Ha) & Hs1)|[Hn ->]].
    + left. destruct (wait_answered R gs r w1) as (r' & HRr & Hd); try done.
      * unfold cmd_side in Hc. by simplify_eq.
      * by apply HRg.
      * exists r'. split; [done|]. by eapply delivered_frame.
    + apply Hskip; [by left|by apply Hn].
Qed.
End Correlation.

Lemma next_seq_fresh w :
  wca_inv w → cmd_seq (next_cmd_seq w) ≠ 0 ∧ cmd_seq (next_cmd_seq w) ≠ cmd_seq w.
Proof.
  intros Hi. pose proof (next_seq_range w Hi) as Hr. split; [lia|].
  pose proof (inv_cmd_seq w Hi) as Hc. revert Hr. unfold next_cmd_seq, set_cmd_seq. cbn [cmd_seq].
  destruct (Z.eq_dec (cmd_seq w) 4294967295) as [E|E].
  - rewrite E. change (u32 (4294967295 + 1)) with 0. simpl. lia.
  - rewrite u32_small by lia. zdecide. lia.
Qed.

Definition sends_only (x : exchange) : Prop :=
  Forall is_send (ex_race x) ∧ Forall (Forall is_send) (ex_wait x).

Lemma sends_only_ok x : sends_only x → exchange_ok x.
Proof. intros []. split; [by apply sends_ok|by apply sends_all_ok]. Qed.

(** An exchange whose command was routed: what the wait ends with. *)
Lemma exchange_spec x rsp in_len w :
  wca_inv w → sends_only x → ex_routed x = true →
  SW_SIZE ≤ in_len → in_len ≤ zlen rsp → in_len < 4294967296 →
  let seq := cmd_seq (next_cmd_seq w) in
  response_seq w ≠ seq →
  let o := handle_proto_exchange x rsp in_len w in
  (∃ r, Send seq r ∈ concat (ex_wait x) ∧ delivered rsp in_len r (route_state w) o) ∨
  (∀ r, Send seq r ∉ concat (ex_wait x)) ∧ timed_out rsp (route_state w) o.
Proof.
  intros Hi Hx Ht Hmin Hcap Hu seq Hf.
  destruct (exchange_open rsp in_len x w Hi (sends_only_ok x Hx)) as (w1 & E1 & Hi1 & Hc & ->).
  rewrite Ht. destruct (next_seq_fresh w Hi) as [Hz Hn]. fold seq in Hz, Hn.
  assert (cmd_side (route_state w1) = cmd_side (route_state w)) as Hcr.
  { unfold cmd_side, route_state, next_cmd_seq in *. simplify_eq. simpl.
    repeat match goal with H : _ w1 = _ w |- _ => rewrite H end. done. }
  assert (response_seq w1 ≠ seq) as Hf1.
  { destruct (sends_spec (g_cmd_seq w) (ex_race x) (clear_proto_rsp_ctx w))
      as (w1' & E1' & _ & _ & H); [auto with fw|apply Hx|done|].
    rewrite E1 in E1'. injection E1' as <-. destruct H as [(Hg & (r & _ & Hs & _) & _)|[_ ->]].
    - destruct (inv_g_cmd_seq w Hi); congruence.
    - done. }
  destruct (wait_fresh rsp in_len seq Hmin Hcap Hu Hz (λ r, Send seq r ∈ concat (ex_wait x))
              (ex_wait x) (route_state w1)) as [(r & HR & Hd)|[Hn' Ht']].
  - by apply route_state_inv.
  - apply Hx.
  - injection Hc. intros _ _ _ Hs. unfold route_state, seq, next_cmd_seq. simpl. by rewrite Hs.
  - done.
  - done.
  - left. exists r. split; [done|]. by eapply delivered_frame.
  - right. split; [done|]. destruct Ht' as (w' & ? & ? & ? & ? & Hro). exists w'.
    do 4 (split; [done|]). rewrite Hro. injection Hcr. done.
Qed.

(** ** A reader's session *)

Definition lc_bytes (n : Z) : list Z :=
  if n <=? 255 then [n] else [0; n / 256; n mod 256].

(** The APDU that carries [data]. *)
Definition apdu (ins size : Z) (data : list Z) : list Z :=
  [WCA_CLA; ins; size / 256; size mod 256] ++ lc_bytes (zlen data) ++ data.

(** Send the chunks after the first. *)
Fixpoint reader_cont (x : exchange) (size : Z) (cs : list (list Z)) (rsp : list Z) (in_len : Z)
    (rep : reply) : outcome reply :=
  match cs with
  | [] => Done rep
  | c :: cs =>
      let '(ok, _, _, w) := rep in
      if ok : bool then
        let! rep := wca_handle_command x (apdu WCA_INS_PROTO_CONT size c) rsp in_len w in
        reader_cont x size cs rsp in_len rep
      else Done rep
  end.

(** Send a command split into [c :: cs]. *)
Definition reader_send (x : exchange) (c : list Z) (cs : list (list Z)) (rsp : list Z) (in_len : Z)
    (w : wca_priv_t) : outcome reply :=
  let size := zlen (concat (c :: cs)) in
  let! rep := wca_handle_command x (apdu WCA_INS_PROTO size c) rsp in_len w in
  reader_cont x size cs rsp in_len rep.

(** Collect the response, with GET_RESPONSE while the status says [61 xx]. *)
Fixpoint reader_drain (fuel : nat) (x : exchange) (rsp : list Z) (in_len : Z) (rep : reply)
    : outcome (option (list Z) * wca_priv_t) :=
  let '(_, out, len, w) := rep in
  let d := ztake (len - SW_SIZE) out in
  let! sw1 := aget out (len - SW_SIZE) in
  if sw1 =? 0x90 then Done (Some d, w)
  else if sw1 =? 0x61 then
    match fuel with
    | O => Nofuel
    | S fuel =>
        let! rep := wca_handle_command x [WCA_CLA; WCA_INS_GET_RESPONSE; 0; 0] rsp in_len w in
        let! '(rest, w) := reader_drain fuel x rsp in_len rep in
        Done (app d <$> rest, w)
    end
  else Done (None, w).

Lemma aget_app_exact {A} (l k : list A) a i : i = zlen l → aget (l ++ a :: k) i = Done a.
Proof.
  intros ->. apply aget_Some; [apply zlen_nonneg|]. rewrite zlen_nat.
  by rewrite list_lookup_middle.
Qed.

Lemma reader_drain_spec fuel x rsp in_len d k w :
  SW_SIZE < in_len → in_len ≤ zlen rsp → in_len < 4294967296 →
  zlen d ≤ Z.of_nat fuel → wca_inv w →
  let n := Z.min (in_len - SW_SIZE) (zlen d) in
  pending w = zdrop n d →
  ∃ w', reader_drain fuel x rsp in_len (true, ztake n d ++ sw_of (zlen d - n) ++ k, n + SW_SIZE, w)
        = Done (Some d, w') ∧ wca_inv w' ∧ cmd_side w' = cmd_side w.
Proof.
  intros Hmin Hcap Hu. revert d k w. assert (SW_SIZE = 2) as HSW by done.
  induction fuel as [|fuel IH]; intros d k w Hf Hi n Hp; pose proof (zlen_nonneg d);
    assert (zlen (ztake n d) = n) as Hn by (apply zlen_ztake; lia);
    cbn [reader_drain]; rewrite ztake_app_exact by lia;
    unfold sw_of; destruct (zlen d - n =? 0) eqn:E; btest;
    [ | lia | | ].
  1, 2: cbn [app]; rewrite (aget_app_exact (ztake n d)) by lia; cbn [obind];
    exists w; split; [|done]; simpl; by rewrite ztake_all by lia.
  cbn [app]. rewrite (aget_app_exact (ztake n d)) by lia. cbn [obind]. simpl (97 =? _).
  cbn iota. unfold wca_handle_command at 1. zdecide. cbn [obind ASSERT].
  change (wca_is_valid _) with (@Done bool true). cbn [obind negb].
  change (aget _ INS) with (Done 0x78). cbn [obind]. simpl (0x78 =? _). cbn iota.
  unfold wca_get_response.
  assert (zlen (pending w) = zlen d - n) as Hpl by (rewrite Hp, zlen_zdrop; lia).
  rewrite <- zlen_pending by done. zdecide.
  destruct (drain_spec rsp in_len w Hi) as (k' & w1 & -> & _ & Hi1 & Hp1 & Hc1 & _);
    [lia|done|]. cbn [obind].
  destruct (IH (pending w) k' w1) as (w' & -> & Hi' & Hc'); [lia|done|exact Hp1|].
  cbn [obind]. exists w'. split; [|by rewrite Hc'].
  simpl. by rewrite Hp, ztake_zdrop.
Qed.

(** *** What the handlers read of such an APDU *)

Lemma lc_offset n :
  1 ≤ n → zlen (lc_bytes n) = (if is_short_coding n then LC + 1 else LC + 3) - LC.
Proof.
  intros. unfold lc_bytes, is_short_coding. rewrite (proj2 (Z.leb_le 1 n)) by done.
  cbn [andb]. destruct (n <=? 255); reflexivity.
Qed.

Section Apdu.
Context (ins size : Z) (c : list Z).
Hypothesis (Hc : 1 ≤ zlen c).
Hypothesis (Hc16 : zlen c < 65536).

Lemma apdu_length :
  zlen (apdu ins size c) = (if is_short_coding (zlen c) then LC + 1 else LC + 3) + zlen c.
Proof.
  unfold apdu. rewrite !zlen_app, lc_offset by done. change (zlen [_; _; _; _]) with 4.
  unfold LC. lia.
Qed.

Lemma apdu_readable : wca_has_readable_lc (apdu ins size c) = Done true.
Proof.
  unfold wca_has_readable_lc. rewrite apdu_length. unfold LC, is_short_coding, apdu, lc_bytes.
  zdecide. cbn [andb]. destruct (zlen c <=? 255) eqn:E; btest; zdecide.
  - change (aget _ 4) with (Done (zlen c)). cbn [obind]. by zdecide.
  - change (aget _ 4) with (Done 0). cbn [obind]. by zdecide.
Qed.

Lemma apdu_lc : lc_to_int (apdu ins size c) LC = Done (zlen c).
Proof.
  unfold lc_to_int, apdu, lc_bytes, LC. destruct (zlen c <=? 255) eqn:E; btest.
  - change (aget _ 4) with (Done (zlen c)). cbn [obind]. by zdecide.
  - change (aget _ 4) with (Done 0). cbn [obind negb Z.eqb].
    change (aget _ (4 + 1)) with (Done (zlen c / 256)).
    change (aget _ (4 + 2)) with (Done (zlen c mod 256)). cbn [obind]. f_equal.
    pose proof (Z.div_mod (zlen c) 256). pose proof (Z.mod_pos_bound (zlen c) 256).
    rewrite lor_bytes by (unfold byte_ok; lia). rewrite u16_small; lia.
Qed.

Lemma apdu_data :
  mread (apdu ins size c) (if is_short_coding (zlen c) then LC + 1 else LC + 3) (zlen c) = Done c.
Proof.
  apply (mread_eq _ ([WCA_CLA; ins; size / 256; size mod 256] ++ lc_bytes (zlen c)) c []);
    [|rewrite zlen_app, lc_offset by done; change (zlen [_; _; _; _]) with 4; unfold LC; lia|done].
  unfold apdu. by rewrite app_nil_r, <- app_assoc.
Qed.

Lemma apdu_dispatch x rsp in_len w :
  SW_SIZE ≤ in_len → ins = WCA_INS_PROTO ∨ ins = WCA_INS_PROTO_CONT →
  wca_handle_command x (apdu ins size c) rsp in_len w =
    if ins =? WCA_INS_PROTO then wca_proto x (apdu ins size c) rsp in_len w
    else wca_proto_cont x (apdu ins size c) rsp in_len w.
Proof.
  intros Hl Hins. unfold wca_handle_command, wca_is_valid. zdecide. cbn [obind ASSERT].
  rewrite (proj2 (Z.ltb_ge (zlen _) _))
    by (rewrite apdu_length; unfold P2, LC; destruct (is_short_coding _); lia).
  unfold wca_is_wca. rewrite (proj2 (Z.ltb_lt _ (zlen _)))
    by (rewrite apdu_length; unfold CLA, LC; destruct (is_short_coding _); lia).
  change (aget (apdu ins size c) CLA) with (Done WCA_CLA). cbn [obind]. rewrite Z.eqb_refl.
  cbn [negb]. change (aget (apdu ins size c) INS) with (Done ins). cbn [obind].
  replace (_ || _) with true by (destruct Hins as [E|E]; rewrite E; reflexivity).
  rewrite apdu_readable. cbn [obind negb]. generalize (apdu ins size c).
  destruct Hins as [E|E]; rewrite E; reflexivity.
Qed.
End Apdu.

(** *** Reassembly *)

(** [p] has been received of a command of [size] bytes. *)
Definition assembling (p : list Z) (size tag : Z) (w : wca_priv_t) : Prop :=
  wca_inv w ∧ ∃ k, encoded_proto_cmd_ctx w = mk_cmd_ctx (p ++ k) (zlen p) size tag.

Definition session (w : wca_priv_t) : Z * Z * Z * list (Z * list Z * Z) :=
  (cmd_seq w, g_cmd_seq w, response_seq w, routed w).

Section Reassembly.
Context (x : exchange) (rsp : list Z) (in_len : Z).
Hypothesis (Hmin : SW_SIZE ≤ in_len).
Hypothesis (Hcap : in_len ≤ zlen rsp).

(** The outcome of a chunk: the next is awaited, or the exchange starts. *)
Definition chunk_result (p : list Z) (size : Z) (w : wca_priv_t) : outcome reply :=
  if size <=? zlen p then handle_proto_exchange x rsp in_len w
  else Done (true, [0x90; 0x00] ++ zdrop 2 rsp, SW_SIZE, w).

Lemma append_assembling cmd off c p size tag w :
  assembling p size tag w → mread cmd off (zlen c) = Done c → zlen p + zlen c ≤ size →
  ∃ w', proto_append x cmd off (zlen c) rsp in_len w = chunk_result (p ++ c) size w' ∧
        assembling (p ++ c) size tag w' ∧ session w' = session w.
Proof.
  intros [Hi [k Hk]] Hr Hs. pose proof Hi as []. rewrite Hk in *. simpl in *.
  pose proof command_size_range. pose proof (zlen_nonneg c).
  unfold proto_append. rewrite Hr, Hk. cbn [obind cmd_buffer cmd_offset cmd_size cmd_tag].
  rewrite zlen_app in inv_cmd_buffer0.
  rewrite (mwrite_eq _ p (ztake (zlen c) k) c (zdrop (zlen c) k));
    [|by rewrite ztake_zdrop|done|by rewrite zlen_ztake by lia]. cbn [obind].
  rewrite u32_small by lia. rewrite app_assoc, <- zlen_app.
  set (w' := set_cmd _ w). exists w'. split; [|split; [|done]].
  - unfold chunk_result, received_full_proto. simpl. destruct (size <=? _); [done|].
    unfold RSP_OK. unfold SW_SIZE in Hmin. rewrite set_status_done by lia. done.
  - split; [|by eexists]. split; simpl; try done; rewrite ?zlen_app; try lia.
    rewrite zlen_zdrop; lia.
Qed.

Lemma proto_first c size tag w :
  wca_inv w → 1 ≤ zlen c ≤ size → size ≤ COMMAND_BUFFER_SIZE → pb_decode_tag c = Some tag →
  ∃ w', wca_handle_command x (apdu WCA_INS_PROTO size c) rsp in_len w = chunk_result c size w' ∧
        assembling c size (u16 tag) w' ∧ session w' = session w.
Proof.
  intros Hi Hc Hs Htag. pose proof command_size_range.
  rewrite apdu_dispatch by (try done; try lia; by left). rewrite Z.eqb_refl.
  pose proof (clear_state_inv w Hi) as Hi1. unfold wca_proto.
  rewrite apdu_readable by lia. cbn [obind negb].
  change (aget (apdu _ size c) P1) with (Done (size / 256)).
  change (aget (apdu _ size c) P2) with (Done (size mod 256)). cbn [obind].
  pose proof (Z.div_mod size 256). pose proof (Z.mod_pos_bound size 256).
  rewrite lor_bytes by (unfold byte_ok; lia).
  replace (size / 256 * 256 + size mod 256) with size by lia. zdecide.
  rewrite apdu_lc by lia. cbn [obind]. rewrite apdu_length by lia.
  set (off := if is_short_coding (zlen c) then _ else _).
  assert (0 ≤ off < 8) as Ho by apply data_off_range.
  replace (off + zlen c - off) with (zlen c) by lia. rewrite u32_small by lia. zdecide.
  cbn [orb]. unfold off at 1. rewrite apdu_data by lia. cbn [obind]. rewrite Htag. zdecide.
  set (w1 := set_cmd _ _). destruct (append_assembling (apdu WCA_INS_PROTO size c) off c [] size (u16 tag) w1)
    as (w' & -> & Ha & Hse).
  - split; [|by eexists]. pose proof response_size_range.
    destruct Hi1; split; try done; simpl; lia.
  - apply apdu_data; lia.
  - rewrite zlen_nil. lia.
  - by exists w'.
Qed.

Lemma proto_next c p size tag w :
  assembling p size tag w → 1 ≤ zlen c → zlen p + zlen c ≤ size →
  ∃ w', wca_handle_command x (apdu WCA_INS_PROTO_CONT size c) rsp in_len w
          = chunk_result (p ++ c) size w' ∧
        assembling (p ++ c) size tag w' ∧ session w' = session w.
Proof.
  intros Ha Hc Hs. pose proof Ha as [Hi [k Hk]]. pose proof command_size_range.
  pose proof (inv_cmd_size w Hi) as Hsz. rewrite Hk in Hsz. simpl in Hsz.
  pose proof (zlen_nonneg p).
  rewrite apdu_dispatch by (try done; try lia; by right). simpl (_ =? _). cbn iota.
  unfold wca_proto_cont. rewrite apdu_readable by lia. cbn [obind negb].
  rewrite apdu_lc by lia. cbn [obind]. rewrite apdu_length by lia.
  set (off := if is_short_coding (zlen c) then _ else _).
  assert (0 ≤ off < 8) as Ho by apply data_off_range.
  replace (off + zlen c - off) with (zlen c) by lia. rewrite u32_small by lia. zdecide.
  cbn [orb]. unfold received_full_proto. rewrite Hk. cbn [cmd_offset cmd_size]. zdecide. cbn [orb].
  apply append_assembling; [done|apply apdu_data; lia|done].
Qed.

Lemma reader_cont_spec size tag cs p ok0 out0 len0 w :
  cs ≠ [] → Forall (λ c, 1 ≤ zlen c) cs → zlen p + zlen (concat cs) = size →
  assembling p size tag w → ok0 = true →
  ∃ w', reader_cont x size cs rsp in_len (ok0, out0, len0, w)
          = handle_proto_exchange x rsp in_len w' ∧
        assembling (p ++ concat cs) size tag w' ∧ session w' = session w.
Proof.
  intros Hne Hcs Hsz Ha ->. revert p out0 len0 w Hne Hsz Ha.
  induction Hcs as [|c cs Hc Hcs IH]; intros p out0 len0 w Hne Hsz Ha; [done|].
  cbn [concat] in Hsz. rewrite zlen_app in Hsz. pose proof (zlen_nonneg (concat cs)).
  cbn [reader_cont].
  destruct (proto_next c p size tag w Ha Hc) as (w1 & -> & Ha1 & Hs1); [lia|].
  unfold chunk_result. destruct cs as [|c' cs].
  - rewrite zlen_app. cbn [concat] in *. rewrite zlen_nil in Hsz. zdecide.
    exists w1. rewrite app_nil_r. split; [|done].
    by destruct (handle_proto_exchange x rsp in_len w1).
  - assert (1 ≤ zlen c') by by inversion Hcs.
    cbn [concat] in *. rewrite zlen_app in *. pose proof (zlen_nonneg (concat cs)). zdecide.
    cbn [obind].
    destruct (IH (p ++ c) ([144; 0] ++ zdrop 2 rsp) SW_SIZE w1) as (w2 & -> & Ha2 & Hs2);
      [done|rewrite zlen_app; lia|done|].
    exists w2. rewrite <- app_assoc in Ha2. split; [done|]. split; [done|]. by rewrite Hs2.
Qed.

(** The chunks of a command, sent in order, start one exchange with their
    concatenation assembled. *)
Lemma reader_send_spec c cs tag w :
  wca_inv w → Forall (λ c, 1 ≤ zlen c) (c :: cs) →
  zlen (concat (c :: cs)) ≤ COMMAND_BUFFER_SIZE → pb_decode_tag c = Some tag →
  ∃ w', reader_send x c cs rsp in_len w = handle_proto_exchange x rsp in_len w' ∧
        assembling (concat (c :: cs)) (zlen (concat (c :: cs))) (u16 tag) w' ∧
        session w' = session w.
Proof.
  intros Hi Hcs Hsz Htag. unfold reader_send. inversion Hcs as [|? ? Hc Hcs']; subst.
  cbn [concat] in *. pose proof (zlen_nonneg (concat cs)).
  destruct (proto_first c (zlen (c ++ concat cs)) tag w Hi) as (w1 & -> & Ha1 & Hs1);
    [rewrite zlen_app; lia|done|done|].
  unfold chunk_result. destruct cs as [|c' cs].
  - cbn [concat] in *. rewrite app_nil_r in *. rewrite Z.leb_refl. exists w1. split; [|done].
    by destruct (handle_proto_exchange x rsp in_len w1).
  - assert (1 ≤ zlen c') by by inversion Hcs'.
    rewrite (proj2 (Z.leb_gt _ (zlen c)))
      by (cbn [concat]; rewrite !zlen_app; pose proof (zlen_nonneg (concat cs)); lia).
    cbn [obind].
    destruct (reader_cont_spec (zlen (c ++ concat (c' :: cs))) (u16 tag) (c' :: cs) c true
                ([144; 0] ++ zdrop 2 rsp) SW_SIZE w1) as (w2 & -> & Ha2 & Hs2);
      [done|done|by rewrite zlen_app|done|done|].
    exists w2. split; [done|]. split; [done|]. by rewrite Hs2.
Qed.
End Reassembly.

(** ** The properties *)

(** What can happen to the NFC task: an APDU, with the room the listener gives
    for the reply; other tasks sending responses between two APDUs; the loss of
    the field. *)
Inductive nfc_event :=
| Apdu (x : exchange) (cmd rsp : list Z) (in_len : Z)
| Tasks (es : list producer)
| Field_lost.

Definition nfc_event_ok (e : nfc_event) : Prop :=
  match e with
  | Apdu x cmd rsp in_len =>
      exchange_ok x ∧ bytes_ok cmd ∧ zlen cmd < 4294967296 ∧
      4 ≤ in_len ∧ in_len ≤ zlen rsp ∧ in_len < 4294967296
  | Tasks es => Forall producer_ok es
  | Field_lost => True
  end.

(** The state after a session, and the replies with the room they had. *)
Fixpoint nfc_run (es : list nfc_event) (w : wca_priv_t) : outcome (list (Z * Z) * wca_priv_t) :=
  match es with
  | [] => Done ([], w)
  | Apdu x cmd rsp in_len :: es =>
      let! '(_, _, len, w) := wca_handle_command x cmd rsp in_len w in
      let! '(lens, w) := nfc_run es w in
      Done ((in_len, len) :: lens, w)
  | Tasks ps :: es => let! w := produce_all ps w in nfc_run es w
  | Field_lost :: es => nfc_run es (wca_reset_session_state w)
  end.

Lemma wca_init_inv : wca_inv wca_init.
Proof.
  pose proof response_size_range. pose proof command_size_range. unfold wca_init.
  apply clear_state_inv, retire_inv. split; simpl; try lia; try (left; done);
    rewrite zlen_replicate; lia.
Qed.

Lemma reset_inv w : wca_inv w → wca_inv (wca_reset_session_state w).
Proof. unfold wca_reset_session_state. auto with fw. Qed.

(** Whatever APDUs a reader sends, however the other tasks interleave, the
    firmware neither faults nor asserts, and keeps its invariant. *)
Lemma nfc_run_safe es w :
  wca_inv w → Forall nfc_event_ok es →
  ∃ lens w', nfc_run es w = Done (lens, w') ∧ wca_inv w' ∧
    Forall (λ '(in_len, len), SW_SIZE ≤ len ≤ in_len) lens.
Proof.
  intros Hi Hes. revert w Hi. induction Hes as [|e es He _ IH]; intros w Hi; simpl.
  { exists [], w. done. }
  destruct e as [x cmd rsp in_len|ps|].
  - destruct He as (Hx & Hb & Hlen & Hmin & Hcap & Hu).
    destruct (wca_handle_command_ok rsp in_len Hmin Hcap Hu x cmd Hx Hb Hlen w Hi)
      as (ok & rsp' & len & w1 & -> & Hi1 & _ & Hl). cbn [obind].
    destruct (IH w1 Hi1) as (lens & w2 & -> & Hi2 & Hls). cbn [obind].
    eexists _, w2. split; [done|]. split; [done|]. by constructor.
  - destruct (produce_all_inv ps w Hi He) as (w1 & -> & Hi1 & _). by apply IH.
  - by apply IH, reset_inv.
Qed.

(** From boot, for every sequence of APDUs of arbitrary bytes, of responses
    sent by other tasks (before, during and after the exchanges) and of field
    losses, no handler reads or writes out of bounds or fails an assertion
    (given room for four reply bytes), every wait ends, every reply length is
    at least the two status bytes and at most the room given, and the
    invariant on both buffers holds throughout. *)
Theorem wca_session_safe es :
  Forall nfc_event_ok es →
  ∃ lens w', nfc_run es wca_init = Done (lens, w') ∧ wca_inv w' ∧
    Forall (λ '(in_len, len), SW_SIZE ≤ len ≤ in_len) lens.
Proof. apply nfc_run_safe, wca_init_inv. Qed.

(** The command could not be handed to a task: the exchange returns false, the
    reply buffer and its length are as the caller set them, without status words,
    and nothing is pending. *)
Definition unrouted (rsp : list Z) (in_len : Z) (o : outcome reply) : Prop :=
  ∃ w', o = Done (false, rsp, in_len, w') ∧ wca_inv w' ∧ pending w' = [].

(** C28: A command is answered by its own response or not at all. Provided that
    every response goes through the senders that compare the sequence number
    ([sends_only]), whatever the order of the responses and however stale their
    numbers, and that the number of the command is not that of the last response
    (numbers are 32 bits wide), an exchange ends in one of three ways: it returns
    true with a prefix of the encoding of a response that was sent with the
    sequence number of this command, the rest of which is left pending; or no
    such response was sent, the reply is 6F 00, nothing is pending and the number
    is retired; or the command could not be routed to a task, and then the
    exchange returns false without writing status words. *)
Theorem wca_response_correlated x rsp in_len w :
  wca_inv w → sends_only x →
  SW_SIZE ≤ in_len → in_len ≤ zlen rsp → in_len < 4294967296 →
  response_seq w ≠ cmd_seq (next_cmd_seq w) →
  let seq := cmd_seq (next_cmd_seq w) in
  let o := handle_proto_exchange x rsp in_len w in
  if ex_routed x then
    (∃ r, Send seq r ∈ concat (ex_wait x) ∧ delivered rsp in_len r (route_state w) o) ∨
    (∀ r, Send seq r ∉ concat (ex_wait x)) ∧ timed_out rsp (route_state w) o
  else unrouted rsp in_len o.
Proof.
  intros Hi Hx Hmin Hcap Hu Hf seq o. destruct (ex_routed x) eqn:Ht; [by apply exchange_spec|].
  destruct (exchange_open rsp in_len x w Hi (sends_only_ok x Hx)) as (w1 & _ & Hi1 & _ & Eo).
  rewrite Ht in Eo. exists (clear_proto_state (route_state w1)). split_and!; [exact Eo| |done].
  by apply clear_state_inv, route_state_inv.
Qed.

(** After the field is lost, nothing a task sends late reaches the next
    session: any run of responses, whatever their numbers, leaves the state as
    the reset left it, and GET_RESPONSE answers 6F 00. *)
Theorem wca_reset_retires w es rsp in_len :
  wca_inv w → Forall is_send es → SW_SIZE ≤ in_len ≤ zlen rsp →
  produce_all es (wca_reset_session_state w) = Done (wca_reset_session_state w) ∧
  ∃ w', wca_get_response rsp in_len (wca_reset_session_state w)
        = Done (false, [0x6F; 0x00] ++ zdrop 2 rsp, SW_SIZE, w') ∧ pending w' = [].
Proof.
  intros Hi Hs Hl. set (w1 := wca_reset_session_state w).
  assert (g_cmd_seq w1 = 0) as Hg.
  { unfold w1, wca_reset_session_state, proto_retire_cmd_seq. destruct (inv_g_cmd_seq w Hi) as [E|E].
    - rewrite E. destruct (0 =? cmd_seq w), (response_seq _ =? cmd_seq w); simpl; done.
    - rewrite E, Z.eqb_refl. by destruct (response_seq _ =? cmd_seq w). }
  split.
  - destruct (sends_spec 0 es w1) as (w' & -> & _ & _ & [(? & _)|[_ ->]]);
      [by apply reset_inv|done..].
  - unfold wca_get_response. cbn [rsp_size encoded_proto_rsp_ctx w1 wca_reset_session_state
      clear_proto_state clear_proto_cmd_ctx clear_proto_rsp_ctx set_cmd set_rsp Z.eqb].
    unfold RSP_FCI_GENERIC_FAILURE, SW_SIZE in *. rewrite set_status_done by lia.
    eexists. split; [done|]. reflexivity.
Qed.

(** C24: A command goes through. A reader that splits an encoded command into
    non-empty chunks, sends them as PROTO and PROTO_CONT (short or extended
    Lc, by size) and then issues GET_RESPONSE while the status is 61 xx, has
    routed exactly that command, once, under the tag of its first field, and
    collects exactly the encoding of the response that the task sent, whatever
    the room of each reply (at least one byte beside the status) and whatever
    stale responses arrive in between. As many GET_RESPONSE as the response has
    bytes are enough. *)
Theorem wca_roundtrip x c cs tag r rsp in_len fuel w :
  wca_inv w → sends_only x → ex_routed x = true →
  SW_SIZE < in_len → in_len ≤ zlen rsp → in_len < 4294967296 →
  Forall (λ c, 1 ≤ zlen c) (c :: cs) → zlen (concat (c :: cs)) ≤ COMMAND_BUFFER_SIZE →
  pb_decode_tag c = Some tag →
  let seq := cmd_seq (next_cmd_seq w) in
  response_seq w ≠ seq →
  Send seq r ∈ concat (ex_wait x) →
  (∀ r', Send seq r' ∈ concat (ex_wait x) → r' = r) →
  zlen (encoded_rsp r) ≤ Z.of_nat fuel →
  ∃ w', (let! rep := reader_send x c cs rsp in_len w in reader_drain fuel x rsp in_len rep)
        = Done (Some (encoded_rsp r), w') ∧
    routed w' = routed w ++ [(u16 tag, concat (c :: cs), seq)].
Proof.
  intros Hi Hx Ht Hmin Hcap Hu Hcs Hsz Htag seq Hf Hin Huniq Hfuel.
  assert (SW_SIZE ≤ in_len) as Hmin' by lia.
  destruct (reader_send_spec x rsp in_len Hmin' Hcap c cs tag w Hi Hcs Hsz Htag)
    as (w1 & -> & [Hi1 [k Hk]] & Hs1).
  assert (cmd_seq (next_cmd_seq w1) = seq) as Hseq1
    by (injection Hs1; intros _ _ _ E; unfold seq, next_cmd_seq; simpl; by rewrite E).
  destruct (exchange_spec x rsp in_len w1 Hi1 Hx Ht Hmin' Hcap Hu) as [(r' & Hr' & Hd)|[Hn _]].
  - rewrite Hseq1. injection Hs1. intros _ E _ _. by rewrite E.
  - rewrite Hseq1 in Hr'. rewrite (Huniq r' Hr') in Hd.
    destruct Hd as (k' & w2 & -> & _ & Hi2 & Hp2 & Hc2). cbn [obind].
    destruct (reader_drain_spec fuel x rsp in_len (encoded_rsp r) k' w2) as (w3 & -> & _ & Hc3);
      try done.
    exists w3. split; [done|].
    assert (routed w3 = routed (route_state w1)) as ->
      by (unfold cmd_side in *; congruence).
    unfold route_state. rewrite Hk, Hseq1. cbn [routed cmd_tag cmd_size cmd_buffer].
    rewrite ztake_app_exact by done. injection Hs1. intros -> _ _ _. done.
  - rewrite Hseq1 in Hn. by destruct (Hn r).
Qed.
End Wca.

(** ** A concrete encoder

    Responses are their own encoding, at most eight bytes; a tag is the first
    byte without its wire type. *)

#[export] Instance toy_pb : Nanopb := {|
  rsp_t := list Z;
  error_rsp := [8; 1];
  RESPONSE_BUFFER_SIZE := 8;
  COMMAND_BUFFER_SIZE := 600;
  pb_encode l := if zlen l <=? 8 then Some l else None;
  pb_decode_tag l := match l with b :: _ => Some (b / 8) | [] => None end;
|}.

#[export] Instance toy_pb_laws : NanopbLaws toy_pb.
Proof.
  split; simpl; [lia..| |by eexists]. intros r b. destruct (zlen r <=? 8) eqn:E; btest; [|done].
  by intros [= <-].
Qed.

#[local] Abbreviation send := (@Send toy_pb).

Definition toy_rsp : list Z := replicate 5 0.

(** A late response to command 0, a stale one, then the answer to command 1. *)
Definition toy_exchange : exchange :=
  mk_exchange [send 7 [9]] true [[send 3 [1; 2]]; [send 1 [10; 20; 30; 40; 50; 60; 70]; send 2 [5]]].

Lemma toy_sends : sends_only toy_exchange.
Proof. split; repeat constructor. Qed.

Lemma wca_session_safe_witness :
  ∃ lens w', nfc_run [Apdu toy_exchange [0x87; 0x75; 0; 2; 0; 0] toy_rsp 5;
                      Tasks [send 1 [1; 2; 3]; Notify_done]; Field_lost;
                      Apdu toy_exchange (apdu WCA_INS_PROTO 2 [8; 1]) toy_rsp 5] wca_init
             = Done (lens, w') ∧ wca_inv w' ∧
    Forall (λ '(in_len, len), SW_SIZE ≤ len ≤ in_len) lens.
Proof.
  apply wca_session_safe.
  repeat constructor; try done; try (unfold zlen, byte_ok; simpl; lia).
Defined.

Lemma wca_response_correlated_witness :
  let o := handle_proto_exchange toy_exchange toy_rsp 5 wca_init in
  ((∃ r, send 1 r ∈ concat (ex_wait toy_exchange) ∧
        delivered toy_rsp 5 r (route_state wca_init) o) ∨
  (∀ r, send 1 r ∉ concat (ex_wait toy_exchange)) ∧ timed_out toy_rsp (route_state wca_init) o)
  ∧ unrouted toy_rsp 5 (handle_proto_exchange (mk_exchange [] false []) toy_rsp 5 wca_init).
Proof.
  split.
  - apply (wca_response_correlated toy_exchange toy_rsp 5 wca_init);
      [apply wca_init_inv|apply toy_sends|done|done|done|done].
  - apply (wca_response_correlated (mk_exchange [] false []) toy_rsp 5 wca_init);
      [apply wca_init_inv|by split|done|done|done|done].
Defined.

Lemma wca_reset_retires_witness :
  produce_all [send 1 [9]; send 0 [8]] (wca_reset_session_state wca_init)
    = Done (wca_reset_session_state wca_init) ∧
  ∃ w', wca_get_response toy_rsp 5 (wca_reset_session_state wca_init)
        = Done (false, [0x6F; 0x00] ++ zdrop 2 toy_rsp, SW_SIZE, w') ∧ pending w' = [].
Proof.
  apply (wca_reset_retires wca_init [send 1 [9]; send 0 [8]] toy_rsp 5);
    [apply wca_init_inv|repeat constructor|done].
Defined.

(** 300 bytes in two chunks, the first with an extended Lc; seven bytes back,
    three at a time. *)
Lemma wca_roundtrip_witness :
  ∃ w', (let! rep := reader_send toy_exchange (18 :: replicate 259 1) [replicate 40 2] toy_rsp 5
                       wca_init in
         reader_drain 7 toy_exchange toy_rsp 5 rep)
        = Done (Some [10; 20; 30; 40; 50; 60; 70], w') ∧
    routed w' = [(2, (18 :: replicate 259 1) ++ replicate 40 2, 1)].
Proof.
  apply (wca_roundtrip toy_exchange (18 :: replicate 259 1) [replicate 40 2] 2
           [10; 20; 30; 40; 50; 60; 70] toy_rsp 5 7 wca_init);
    [apply wca_init_inv|apply toy_sends|done|done|done|done| |done|done|done| | |done].
  - repeat constructor; done.
  - simpl. by right; left.
  - intros r'. simpl. rewrite !elem_of_cons, elem_of_nil.
    intros [E|[E|[E|E]]]; [injection E..|done]; intros; subst; done.
Defined.

(** ** What the status of an extended Lc is

    [is_short_coding] tests the length, not how it was written: an extended Lc
    below 256 is read one or two bytes early. *)
Lemma extended_lc_misread :
  let cmd := [0x87; 0x75; 0; 2; 0; 0; 2; 18; 1] in
  ∃ rsp' w', wca_handle_command (mk_exchange [] true []) cmd toy_rsp 5 wca_init
             = Done (false, rsp', SW_SIZE, w') ∧ routed w' = [(0, [0; 2], 1)].
Proof. vm_compute. eexists _, _. split; reflexivity. Qed.
