(* ===== verification/FwFlash.v ===== *)
(** * Flash as the firmware update sees it

    fwup_flash.c of both targets: chunk size, erasing of a slot, of the page of
    a signature and of the bootloader, and writing. The flash driver of the
    microcontroller is the class [FlashMem], whose laws are what mcu_flash.h
    promises: bytes are programmed by clearing bits, a page is erased to 0xFF,
    and nothing outside of the addressed range changes, whether or not the call
    succeeds. The performance counters are left out. *)

From S2P Require Import Prelude.

Definition FLASH_PAGE_SIZE : Z := 0x2000.
Definition MCU_FLASH_STATUS_OK : Z := 0.

(** [flash_byte fl a] is the byte a load from address [a] returns. *)
Class FlashMem (F : Type) := {
  flash_byte : F → Z → Z;
  mcu_write : F → Z → list Z → Z * F;
  mcu_erase_page : F → Z → Z * F;
}.

Class FlashMemLaws (F : Type) `{FlashMem F} := {
  law_flash_byte fl a : byte_ok (flash_byte fl a);
  law_flash_write fl a bs fl' i b : mcu_write fl a bs = (MCU_FLASH_STATUS_OK, fl') →
    bs !! i = Some b →
    flash_byte fl' (a + Z.of_nat i) = Z.land (flash_byte fl (a + Z.of_nat i)) b;
  law_flash_write_frame fl a bs r fl' b : mcu_write fl a bs = (r, fl') →
    b < a ∨ a + zlen bs ≤ b → flash_byte fl' b = flash_byte fl b;
  law_flash_erase fl a fl' b : mcu_erase_page fl a = (MCU_FLASH_STATUS_OK, fl') →
    a mod FLASH_PAGE_SIZE = 0 → a ≤ b < a + FLASH_PAGE_SIZE → flash_byte fl' b = 0xFF;
  law_flash_erase_frame fl a r fl' b : mcu_erase_page fl a = (r, fl') →
    a mod FLASH_PAGE_SIZE = 0 → b < a ∨ a + FLASH_PAGE_SIZE ≤ b →
    flash_byte fl' b = flash_byte fl b;
}.

(** The write granule of the target: 4 bytes on the EFR32, 16 on the STM32U5. *)
Class Platform := {
  MCU_FLASH_WRITE_ALIGNMENT : Z;
  alignment_ok : 0 < MCU_FLASH_WRITE_ALIGNMENT ≤ 452;
}.
#[refine] Definition efr32 : Platform := {| MCU_FLASH_WRITE_ALIGNMENT := 4 |}.
Proof. lia. Defined.
#[refine] Definition stm32 : Platform := {| MCU_FLASH_WRITE_ALIGNMENT := 16 |}.
Proof. lia. Defined.

(** [sizeof(fwpb_fwup_transfer_cmd_fwup_data_t.bytes)], from wallet.proto. *)
Definition FWUP_DATA_MAX : Z := 452.

(** [ECC_SIG_SIZE] of ecc.h. *)
Definition ECC_SIG_SIZE : Z := 64.
Definition FWUP_SIGNATURE_SIZE : Z := ECC_SIG_SIZE.

Section Flash.
Context {F : Type} `{FlashMem F} `{Platform}.

(** The bytes at [a .. a + n). *)
Definition mem_bytes (fl : F) (a n : Z) : list Z :=
  map (λ i, flash_byte fl (a + Z.of_nat i)) (seq 0 (Z.to_nat n)).

(** A 32-bit load. *)
Definition mem_u32 (fl : F) (a : Z) : Z := le_decode (mem_bytes fl a 4).

Fixpoint max_chunk_loop (max_chunk_size : nat) : Z :=
  match max_chunk_size with
  | O => 0
  | S n => if negb (Z.of_nat (S n) mod MCU_FLASH_WRITE_ALIGNMENT =? 0)
           then max_chunk_loop n else Z.of_nat (S n)
  end.

Definition fwup_flash_get_max_chunk_size : Z := max_chunk_loop (Z.to_nat FWUP_DATA_MAX).

Fixpoint flash_erase_loop (fl : F) (slot_addr page : Z) (pages : nat) : bool * F :=
  match pages with
  | O => (true, fl)
  | S pages =>
      let page_address := u32 (slot_addr + page * FLASH_PAGE_SIZE) in
      let '(result, fl) := mcu_erase_page fl page_address in
      if negb (result =? MCU_FLASH_STATUS_OK) then (false, fl)
      else flash_erase_loop fl slot_addr (page + 1) pages
  end.

Definition fwup_flash_erase (fl : F) (slot_addr size : Z) : bool * F :=
  flash_erase_loop fl slot_addr 0 (Z.to_nat (size / FLASH_PAGE_SIZE)).

(** [fwup_slot_size()] is the size the linker gives to both slots. *)
Definition fwup_flash_erase_app (fwup_slot_size : Z) (fl : F) (slot_addr : Z) : bool * F :=
  fwup_flash_erase fl slot_addr fwup_slot_size.

Definition fwup_flash_erase_app_excluding_signature (fwup_slot_size : Z) (fl : F) (slot_addr : Z)
    : bool * F :=
  fwup_flash_erase fl slot_addr (u32 (fwup_slot_size - FLASH_PAGE_SIZE)).

Definition fwup_flash_erase_app_signature (fl : F) (signature_addr : Z) : bool * F :=
  let page_base := Z.ldiff signature_addr (FLASH_PAGE_SIZE - 1) in
  fwup_flash_erase fl page_base FLASH_PAGE_SIZE.

Definition fwup_flash_erase_bl (fl : F) (slot_addr bl_size : Z) : bool * F :=
  fwup_flash_erase fl slot_addr bl_size.

Definition fwup_flash_write (fl : F) (address : Z) (data : list Z) : bool * F :=
  let '(result, fl) := mcu_write fl address data in
  (result =? MCU_FLASH_STATUS_OK, fl).

(** ** Reading *)

Lemma mem_bytes_length fl a n : length (mem_bytes fl a n) = Z.to_nat n.
Proof. unfold mem_bytes. by rewrite length_map, length_seq. Qed.

Lemma zlen_mem_bytes fl a n : 0 ≤ n → zlen (mem_bytes fl a n) = n.
Proof. intros. unfold zlen. rewrite mem_bytes_length. lia. Qed.

Lemma mem_bytes_lookup fl a n i : (i < Z.to_nat n)%nat →
  mem_bytes fl a n !! i = Some (flash_byte fl (a + Z.of_nat i)).
Proof.
  intros Hi. unfold mem_bytes. change (map ?f) with (fmap (M := list) f).
  rewrite list_lookup_fmap, lookup_seq_lt by done. done.
Qed.

(** Two memories that agree on a range have the same bytes there. *)
Lemma mem_bytes_ext fl fl' a n :
  (∀ b, a ≤ b < a + n → flash_byte fl' b = flash_byte fl b) →
  mem_bytes fl' a n = mem_bytes fl a n.
Proof.
  intros Heq. unfold mem_bytes. apply map_ext_in. intros i Hi%in_seq. apply Heq. lia.
Qed.

Lemma mem_bytes_inv fl fl' a n : mem_bytes fl' a n = mem_bytes fl a n →
  ∀ b, a ≤ b < a + n → flash_byte fl' b = flash_byte fl b.
Proof.
  intros Heq b Hb. assert (Hl := f_equal (λ l, l !! Z.to_nat (b - a)) Heq). cbn beta in Hl.
  rewrite !mem_bytes_lookup in Hl by lia. injection Hl as Hl.
  by replace (a + Z.of_nat (Z.to_nat (b - a))) with b in Hl by lia.
Qed.

(** The memory holds exactly these bytes at [a]. *)
Lemma mem_bytes_eq fl a bs :
  (∀ i b, bs !! i = Some b → flash_byte fl (a + Z.of_nat i) = b) → mem_bytes fl a (zlen bs) = bs.
Proof.
  intros Hbs. apply list_eq. intros i. destruct (decide (i < length bs)%nat) as [Hi|Hi].
  - rewrite mem_bytes_lookup by (rewrite zlen_nat; lia).
    destruct (lookup_lt_is_Some_2 bs i Hi) as [b Hb]. by rewrite Hb, (Hbs i b).
  - rewrite !lookup_ge_None_2; [done|lia|]. rewrite mem_bytes_length, zlen_nat. lia.
Qed.

Context `{!FlashMemLaws F}.

Lemma mem_bytes_ok fl a n : bytes_ok (mem_bytes fl a n).
Proof.
  unfold mem_bytes, bytes_ok. apply List.Forall_map, Forall_forall. intros. apply law_flash_byte.
Qed.

(** ** Changes confined to a range *)

(** [fl'] differs from [fl] within [lo .. hi) only. *)
Definition within (lo hi : Z) (fl fl' : F) : Prop :=
  ∀ a, a < lo ∨ hi ≤ a → flash_byte fl' a = flash_byte fl a.

#[global] Instance within_preorder lo hi : PreOrder (within lo hi).
Proof.
  split; [by intros fl a|]. intros f1 f2 f3 H1 H2 a Ha. by rewrite H2, H1.
Qed.

Lemma within_mono lo hi lo' hi' fl fl' :
  within lo hi fl fl' → lo' ≤ lo → hi ≤ hi' → within lo' hi' fl fl'.
Proof. intros Hw Hl Hh a Ha. apply Hw. lia. Qed.

Lemma within_bytes lo hi fl fl' a n : within lo hi fl fl' → a + n ≤ lo ∨ hi ≤ a →
  mem_bytes fl' a n = mem_bytes fl a n.
Proof. intros Hw Ha. apply mem_bytes_ext. intros b Hb. apply Hw. lia. Qed.

Lemma within_u32 lo hi fl fl' a : within lo hi fl fl' → a + 4 ≤ lo ∨ hi ≤ a →
  mem_u32 fl' a = mem_u32 fl a.
Proof. intros Hw Ha. unfold mem_u32. by erewrite within_bytes. Qed.

Lemma write_within fl a bs ok fl' : fwup_flash_write fl a bs = (ok, fl') →
  within a (a + zlen bs) fl fl'.
Proof.
  unfold fwup_flash_write. destruct (mcu_write fl a bs) as [r fl1] eqn:E. intros [= _ <-] b Hb.
  eapply law_flash_write_frame; eauto.
Qed.

Lemma write_ok fl a bs fl' i b : fwup_flash_write fl a bs = (true, fl') → bs !! i = Some b →
  flash_byte fl' (a + Z.of_nat i) = Z.land (flash_byte fl (a + Z.of_nat i)) b.
Proof.
  unfold fwup_flash_write. destruct (mcu_write fl a bs) as [r fl1] eqn:E.
  intros [= ->%Z.eqb_eq <-] Hb. by eapply law_flash_write.
Qed.

Lemma page_aligned a p : a mod FLASH_PAGE_SIZE = 0 → (a + p * FLASH_PAGE_SIZE) mod FLASH_PAGE_SIZE = 0.
Proof. intros. unfold FLASH_PAGE_SIZE in *. by rewrite Z.mod_add. Qed.

Lemma erase_loop_spec pages : ∀ fl a page ok fl',
  flash_erase_loop fl a page pages = (ok, fl') → a mod FLASH_PAGE_SIZE = 0 → 0 ≤ a → 0 ≤ page →
  a + (page + Z.of_nat pages) * FLASH_PAGE_SIZE ≤ 4294967296 →
  within (a + page * FLASH_PAGE_SIZE) (a + (page + Z.of_nat pages) * FLASH_PAGE_SIZE) fl fl'
  ∧ (ok = true → ∀ b, a + page * FLASH_PAGE_SIZE ≤ b < a + (page + Z.of_nat pages) * FLASH_PAGE_SIZE →
       flash_byte fl' b = 0xFF).
Proof.
  assert (HP : FLASH_PAGE_SIZE = 8192) by done.
  induction pages as [|pages IH]; intros fl a page ok fl' E Ha Ha0 Hp Hend; cbn [flash_erase_loop] in E.
  { injection E as <- <-. split; [done|]. intros _ b Hb. lia. }
  rewrite u32_small in E by lia.
  destruct (mcu_erase_page fl (a + page * FLASH_PAGE_SIZE)) as [r fl1] eqn:E1.
  assert (Hw1 : within (a + page * FLASH_PAGE_SIZE) (a + (page + Z.of_nat (S pages)) * FLASH_PAGE_SIZE) fl fl1).
  { intros b Hb. eapply law_flash_erase_frame; [exact E1|by apply page_aligned|lia]. }
  destruct (r =? MCU_FLASH_STATUS_OK) eqn:Er; cbn [negb] in E; btest; cycle 1.
  { injection E as <- <-. split; [|done].
    eapply within_mono; [exact Hw1|lia|lia]. }
  subst r. apply IH in E as [Hw2 Hff]; [|done|done|lia|lia]. split.
  - transitivity fl1; [done|]. eapply within_mono; [exact Hw2|lia|lia].
  - intros Hok b Hb. destruct (Z.lt_ge_cases b (a + (page + 1) * FLASH_PAGE_SIZE)).
    + rewrite Hw2 by lia. eapply law_flash_erase; [exact E1|by apply page_aligned|lia].
    + apply Hff; [done|lia].
Qed.

(** Erasing whole pages stays within them and, on success, leaves 0xFF. *)
Lemma flash_erase_spec fl a size ok fl' : fwup_flash_erase fl a size = (ok, fl') →
  a mod FLASH_PAGE_SIZE = 0 → size mod FLASH_PAGE_SIZE = 0 → 0 ≤ a → 0 ≤ size →
  a + size ≤ 4294967296 →
  within a (a + size) fl fl'
  ∧ (ok = true → ∀ b, a ≤ b < a + size → flash_byte fl' b = 0xFF).
Proof.
  intros E Ha Hs Ha0 Hs0 Hend. unfold fwup_flash_erase in E.
  assert (Hsz : size / FLASH_PAGE_SIZE * FLASH_PAGE_SIZE = size).
  { unfold FLASH_PAGE_SIZE in *. pose proof (Z.div_mod size 8192). lia. }
  assert (0 ≤ size / FLASH_PAGE_SIZE) by (apply Z.div_pos; [done|unfold FLASH_PAGE_SIZE; lia]).
  apply erase_loop_spec in E as [Hw Hff]; [|done|done|lia|lia].
  rewrite Z2Nat.id in * by done. rewrite Z.mul_0_l, Z.add_0_r, Z.add_0_l, Hsz in *. done.
Qed.

(** The page that holds a signature. *)
Lemma signature_page_spec fl sig lo hi ok fl' : fwup_flash_erase_app_signature fl sig = (ok, fl') →
  lo mod FLASH_PAGE_SIZE = 0 → hi mod FLASH_PAGE_SIZE = 0 → 0 ≤ lo → lo ≤ sig < hi →
  hi ≤ 4294967296 → within lo hi fl fl'.
Proof.
  intros E Hlo Hhi Hlo0 Hsig Hend. unfold fwup_flash_erase_app_signature in E.
  change (FLASH_PAGE_SIZE - 1) with (Z.ones 13) in E. rewrite Z.ldiff_ones_r in E by lia.
  rewrite Z.shiftr_div_pow2, Z.shiftl_mul_pow2 in E by lia. change (2 ^ 13) with FLASH_PAGE_SIZE in E.
  unfold FLASH_PAGE_SIZE in *.
  pose proof (Z.div_mod sig 8192 ltac:(lia)). pose proof (Z.mod_pos_bound sig 8192 ltac:(lia)).
  pose proof (Z.div_mod lo 8192 ltac:(lia)). pose proof (Z.div_mod hi 8192 ltac:(lia)).
  apply flash_erase_spec in E as [Hw _]; unfold FLASH_PAGE_SIZE in *; try lia;
    [|apply Z.mod_mul; lia|done].
  eapply within_mono; [exact Hw|lia|lia].
Qed.
End Flash.
#[export] Hint Rewrite @zlen_mem_bytes using lia : zlen.

Lemma max_chunk_bounds `{Platform} n : 0 ≤ max_chunk_loop n ≤ Z.of_nat n.
Proof. induction n; cbn [max_chunk_loop]; [lia|]. case_match; lia. Qed.

Lemma max_chunk_exists `{Platform} n m : 0 < m ≤ Z.of_nat n →
  m mod MCU_FLASH_WRITE_ALIGNMENT = 0 → 0 < max_chunk_loop n.
Proof.
  induction n as [|n IH]; intros Hm Hmod; [lia|]. cbn [max_chunk_loop].
  destruct (_ =? 0) eqn:E; cbn [negb]; [lia|]. apply IH; [|done].
  destruct (decide (m = Z.of_nat (S n))) as [->|]; [|lia]. btest. done.
Qed.

(** The chunk size is never 0, so the assertion on it holds. *)
Lemma max_chunk_size_range `{Platform} : 0 < fwup_flash_get_max_chunk_size ≤ FWUP_DATA_MAX.
Proof.
  pose proof alignment_ok. unfold fwup_flash_get_max_chunk_size. split.
  - apply (max_chunk_exists _ MCU_FLASH_WRITE_ALIGNMENT); [unfold FWUP_DATA_MAX; lia|].
    apply Z.mod_same. lia.
  - apply max_chunk_bounds.
Qed.

(** ** A flash in memory *)

(** The programmed bytes, the latest first; the rest is erased. *)
Record ram_flash := mk_rf { rf_cells : list (Z * Z) }.

Fixpoint rf_find (cells : list (Z * Z)) (a : Z) : Z :=
  match cells with
  | [] => 0xFF
  | (b, x) :: cells => if a =? b then u8 x else rf_find cells a
  end.

(** Program bytes one after the other, clearing bits. *)
Fixpoint rf_program (cells : list (Z * Z)) (a : Z) (bs : list Z) : list (Z * Z) :=
  match bs with
  | [] => cells
  | b :: bs => rf_program ((a, Z.land (rf_find cells a) b) :: cells) (a + 1) bs
  end.

Definition rf_in_page (a : Z) (e : Z * Z) : bool := (a <=? e.1) && (e.1 <? a + FLASH_PAGE_SIZE).

Definition rf_erase (cells : list (Z * Z)) (a : Z) : list (Z * Z) :=
  List.filter (λ e, negb (rf_in_page a e)) cells.

#[global] Instance ram_flash_ops : FlashMem ram_flash := {
  flash_byte fl a := rf_find (rf_cells fl) a;
  mcu_write fl a bs := (MCU_FLASH_STATUS_OK, mk_rf (rf_program (rf_cells fl) a bs));
  mcu_erase_page fl a :=
    if a mod FLASH_PAGE_SIZE =? 0 then (MCU_FLASH_STATUS_OK, mk_rf (rf_erase (rf_cells fl) a))
    else (-74, fl);
}.

Lemma rf_find_byte cells a : byte_ok (rf_find cells a).
Proof.
  induction cells as [|[b x] cells IH]; cbn [rf_find]; [split; lia|]. case_match; [apply u8_byte|done].
Qed.

(** Clearing bits of a byte leaves a byte. *)
Lemma u8_land x b : byte_ok x → u8 (Z.land x b) = Z.land x b.
Proof.
  intros Hx. unfold u8. change 256 with (2 ^ 8). rewrite <- Z.land_ones by lia.
  rewrite <- Z.land_assoc, (Z.land_comm b), Z.land_assoc. f_equal.
  rewrite Z.land_ones by lia. by apply Z.mod_small.
Qed.

Lemma rf_program_frame bs : ∀ cells a b, b < a ∨ a + zlen bs ≤ b →
  rf_find (rf_program cells a bs) b = rf_find cells b.
Proof.
  induction bs as [|x bs IH]; intros cells a b Hb; cbn [rf_program]; [done|].
  rewrite zlen_cons in Hb. pose proof (zlen_nonneg bs). rewrite IH by lia. cbn [rf_find].
  by rewrite (proj2 (Z.eqb_neq b a)) by lia.
Qed.

Lemma rf_program_ok bs : ∀ cells a i b, bs !! i = Some b →
  rf_find (rf_program cells a bs) (a + Z.of_nat i) = Z.land (rf_find cells (a + Z.of_nat i)) b.
Proof.
  induction bs as [|x bs IH]; intros cells a [|i] b Hb; try done; cbn [rf_program lookup] in *.
  - injection Hb as ->. rewrite Z.add_0_r, rf_program_frame by lia. cbn [rf_find].
    by rewrite Z.eqb_refl, u8_land by apply rf_find_byte.
  - replace (a + Z.of_nat (S i)) with (a + 1 + Z.of_nat i) by lia. rewrite (IH _ _ i b Hb).
    cbn [rf_find]. by rewrite (proj2 (Z.eqb_neq _ a)) by lia.
Qed.

Lemma rf_find_erase cells a b :
  rf_find (rf_erase cells a) b = if rf_in_page a (b, 0) then 0xFF else rf_find cells b.
Proof.
  unfold rf_erase. induction cells as [|[c x] cells IH]; [by case_match|].
  cbn [List.filter]. unfold rf_in_page in *. cbn [fst] in *.
  destruct ((a <=? c) && (c <? a + FLASH_PAGE_SIZE)) eqn:E; cbn [negb rf_find]; rewrite IH.
  - case_match; [done|]. destruct (b =? c) eqn:Eb; [|done]. apply Z.eqb_eq in Eb. subst. congruence.
  - destruct (b =? c) eqn:Eb; [|done]. apply Z.eqb_eq in Eb. subst. by rewrite E.
Qed.

#[global] Instance ram_flash_laws : FlashMemLaws ram_flash.
Proof.
  split; cbn [flash_byte mcu_write mcu_erase_page ram_flash_ops].
  - intros. apply rf_find_byte.
  - intros fl a bs fl' i b [= <-]. apply rf_program_ok.
  - intros fl a bs r fl' b [= _ <-]. apply rf_program_frame.
  - intros fl a fl' b E Ha Hb. rewrite Ha in E. injection E as <-. cbn [rf_cells].
    rewrite rf_find_erase. unfold rf_in_page. cbn [fst]. by zdecide.
  - intros fl a r fl' b E Ha Hb. rewrite Ha in E. injection E as _ <-. cbn [rf_cells].
    rewrite rf_find_erase. unfold rf_in_page. cbn [fst].
    case_match; [|done]. btest. lia.
Qed.
