(* ===== verification/SecBoot.v ===== *)
(** * Secure boot (lib/bootloader, the loader's main)

    The verification of an application slot (bl_secureboot.c with its two
    back ends), the selection of the slot to boot, and the loader of the first
    device (app/w1/loader/main.c) that composes them. The same verification is
    used by the firmware update before it commits an image.

    Structures in flash are read at their addresses with [mem_u32] and
    [mem_bytes]. The certificate and property structures come from outside of
    the sources (the vendor's SDK, the picocert submodule), so their field
    offsets are the class [CertLayout]; hashing, ECDSA and picocert are the
    class [BootCrypto]. A [secure_bool_t] result is a [bool] that tells whether
    it is [SECURE_TRUE]. *)

From S2P Require Import Prelude Wstring FwFlash.

Class CertLayout := {
  sizeof_app_properties : Z;
  off_props_magic : Z;
  off_props_structVersion : Z;
  off_props_version : Z;
  off_props_productId : Z;
  off_props_cert : Z;
  sizeof_app_certificate : Z;
  off_cert_version : Z;
  off_cert_key : Z;
  sizeof_cert_key : Z;
  off_cert_signature : Z;
}.

(** The fields of both structures lie within them. *)
Class CertLayoutLaws `{CertLayout} := {
  law_props_pos : 0 < sizeof_app_properties;
  law_props_sizes : 0 ≤ off_props_version ∧ off_props_version + 4 ≤ sizeof_app_properties
    ∧ 0 ≤ off_props_productId ∧ off_props_productId + 16 ≤ sizeof_app_properties
    ∧ 0 ≤ off_props_cert ∧ off_props_cert + 4 ≤ sizeof_app_properties;
  law_cert_sizes : 0 ≤ off_cert_version ∧ off_cert_version + 4 ≤ sizeof_app_certificate
    ∧ 0 ≤ off_cert_key ∧ 0 ≤ sizeof_cert_key
    ∧ off_cert_key + sizeof_cert_key ≤ sizeof_app_certificate
    ∧ 0 ≤ off_cert_signature ∧ off_cert_signature + ECC_SIG_SIZE ≤ sizeof_app_certificate;
}.

(** [crypto_hash] with ALG_SHA256, [None] on failure; [crypto_ecc_verify_hash]
    of a key, a hash and a signature; picocert's context with the two
    callbacks, and its check of a certificate (given by its bytes). *)
Class BootCrypto := {
  crypto_hash : list Z → option (list Z);
  crypto_ecc_verify_hash : list Z → list Z → list Z → bool;
  picocert_ctx : Type;
  picocert_init_context : (list Z → option (list Z)) → (list Z → list Z → list Z → bool) →
    option picocert_ctx;
  picocert_verify_hash : picocert_ctx → list Z → list Z → list Z → bool;
}.

(** The symbols of the linker script. *)
Record slot_symbols := mk_slot {
  start_addr : Z;
  signing_size : Z;
  properties_addr : Z;
  signature_addr : Z;
  sym_boot_addr : Z;
}.

Record boot_layout := mk_boot_layout {
  application_a : slot_symbols;
  application_b : slot_symbols;
  bl_base_addr : Z;
  bl_slot_size : Z;
  bl_certificate : Z;
}.

Inductive boot_slot_id := SLOT_A | SLOT_B.
#[global] Instance boot_slot_id_eq_dec : EqDecision boot_slot_id.
Proof. solve_decision. Defined.

Definition slot_of (lay : boot_layout) (s : boot_slot_id) : slot_symbols :=
  match s with SLOT_A => application_a lay | SLOT_B => application_b lay end.

Record boot_slot_t := mk_boot_slot {
  props : Z;
  boot_addr : Z;
  signature_verified : bool;
}.

Inductive mcu_reset_reason_t :=
| MCU_RESET_INVALID_SIGNATURE
| MCU_RESET_INVALID_PROPERTIES.

(** Where the loader ends: in the application at a vector table, with the
    stack pointer and the entry point found there, or in a reset. *)
Inductive boot_result :=
| JumpApp (addr app_stack app_entry : Z)
| ResetMcu (reason : mcu_reset_reason_t).

Definition default_product_id : list Z := replicate 16 0.

Section SecBoot.
Context {F : Type} `{FlashMem F} `{CertLayout} `{BootCrypto}.
(** What [mcu_devinfo_chipid] returns. *)
Variable chipid : list Z.
Variable lay : boot_layout.

(** ** Fields of the structures in flash *)

Definition props_magic (fl : F) (p : Z) : list Z := mem_bytes fl (p + off_props_magic) 16.
Definition props_structVersion (fl : F) (p : Z) : Z := mem_u32 fl (p + off_props_structVersion).
Definition props_version (fl : F) (p : Z) : Z := mem_u32 fl (p + off_props_version).
Definition props_productId (fl : F) (p : Z) : list Z := mem_bytes fl (p + off_props_productId) 16.
Definition props_cert (fl : F) (p : Z) : Z := mem_u32 fl (p + off_props_cert).
Definition cert_version (fl : F) (c : Z) : Z := mem_u32 fl (c + off_cert_version).
Definition cert_key (fl : F) (c : Z) : list Z := mem_bytes fl (c + off_cert_key) sizeof_cert_key.
Definition cert_signature (fl : F) (c : Z) : list Z := mem_bytes fl (c + off_cert_signature) ECC_SIG_SIZE.

(** ** bl_secureboot_verify.c, app_cert and picocert *)

Definition bl_secureboot_verify_app_cert (fl : F) (cert : Z) (sig data : list Z) : bool :=
  if (cert =? 0) || (zlen data =? 0) then false
  else match crypto_hash data with
       | None => false
       | Some hash =>
           if negb (crypto_ecc_verify_hash (cert_key fl cert) hash sig) then false
           else crypto_ecc_verify_hash (cert_key fl cert) hash sig
       end.

Definition bl_secureboot_verify_hash (data : list Z) : option (list Z) := crypto_hash data.

Definition bl_secureboot_verify_ecc (key hash signature : list Z) : bool :=
  crypto_ecc_verify_hash key hash signature.

Definition bl_secureboot_verify_picocert (fl : F) (cert : Z) (sig data : list Z) : bool :=
  if (cert =? 0) || (zlen data =? 0) then false
  else match crypto_hash data with
       | None => false
       | Some hash =>
           match picocert_init_context bl_secureboot_verify_hash bl_secureboot_verify_ecc with
           | None => false
           | Some ctx => picocert_verify_hash ctx (mem_bytes fl cert sizeof_app_certificate) hash sig
           end
       end.

End SecBoot.

(** The back end that the target links. *)
Class SecureBoot (F : Type) := {
  bl_secureboot_verify : F → Z → list Z → list Z → bool;
}.

(** The back end reads its certificate only. *)
Class SecureBootLaws (F : Type) `{FlashMem F} `{CertLayout} `{SecureBoot F} := {
  law_secureboot_local fl fl' cert sig data :
    mem_bytes fl' cert sizeof_app_certificate = mem_bytes fl cert sizeof_app_certificate →
    bl_secureboot_verify fl' cert sig data = bl_secureboot_verify fl cert sig data;
}.

Definition app_cert_boot {F} `{FlashMem F} `{CertLayout} `{BootCrypto} : SecureBoot F :=
  {| bl_secureboot_verify := bl_secureboot_verify_app_cert |}.
Definition picocert_boot {F} `{FlashMem F} `{CertLayout} `{BootCrypto} : SecureBoot F :=
  {| bl_secureboot_verify := bl_secureboot_verify_picocert |}.

Section Verify.
Context {F : Type} `{FlashMem F} `{CertLayout} `{SecureBoot F}.
Variable chipid : list Z.
Variable lay : boot_layout.

(** ** bl_secureboot.c *)

(** A device-bound image carries the chip's identity in its product id. *)
Definition bl_product_id_valid_for_chipid (fl : F) (app_properties : Z) : outcome bool :=
  if app_properties =? 0 then Done false
  else
    let! r := memcmp_s (props_productId fl app_properties) default_product_id 16 in
    if r =? 0 then Done true
    else
      let! r := memcmp_s (props_productId fl app_properties) chipid (zlen chipid) in
      if negb (r =? 0) then Done false
      else Done (forallb (λ b, b =? 0) (zdrop (zlen chipid) (props_productId fl app_properties))).

Definition addr_in_region (addr region_start region_size : Z) : bool :=
  (region_start <=? addr) && (addr <? u32 (region_start + region_size)).

Definition both_in_region (a b region_start region_size : Z) : bool :=
  addr_in_region a region_start region_size && addr_in_region b region_start region_size.

Definition addrs_in_same_slot (a b : Z) : bool :=
  if both_in_region a b (start_addr (application_a lay)) (signing_size (application_a lay)) then true
  else if both_in_region a b (start_addr (application_b lay)) (signing_size (application_b lay)) then true
  else both_in_region a b (bl_base_addr lay) (bl_slot_size lay).

Definition bl_verify_app_certificate (fl : F) (app_cert bl_cert : Z) : bool :=
  if (app_cert =? 0) || (bl_cert =? 0) then false
  else if cert_version fl app_cert <? cert_version fl bl_cert then false
  else bl_secureboot_verify fl bl_cert (cert_signature fl app_cert)
         (mem_bytes fl app_cert off_cert_signature).

Definition bl_verify_application (fl : F) (app_cert app app_size : Z) (signature : list Z) : bool :=
  if app_cert =? 0 then false
  else bl_secureboot_verify fl app_cert signature (mem_bytes fl app app_size).

(** The signature may be in flash or in a RAM buffer: it is given by its
    bytes. *)
Definition bl_verify_app_slot (fl : F) (bl_cert app_properties app app_size : Z)
    (app_signature : list Z) : outcome bool :=
  if negb (addrs_in_same_slot app_properties app) then Done false
  else if negb (addrs_in_same_slot (props_cert fl app_properties) app_properties) then Done false
  else if props_cert fl app_properties <=? app_properties then Done false
  else if negb (bl_verify_app_certificate fl (props_cert fl app_properties) bl_cert) then Done false
  else if negb (bl_verify_application fl (props_cert fl app_properties) app app_size app_signature)
  then Done false
  else
    let! ok := bl_product_id_valid_for_chipid fl app_properties in
    if negb ok then Done false else Done true.

Definition bl_select_slot (fl : F) (slot_a slot_b : option boot_slot_t) : option boot_slot_id :=
  match slot_a, slot_b with
  | Some a, Some b =>
      if negb (signature_verified a) && negb (signature_verified b) then None
      else if signature_verified a && negb (signature_verified b) then Some SLOT_A
      else if negb (signature_verified a) && signature_verified b then Some SLOT_B
      else if negb (signature_verified a) || negb (signature_verified b) then None
      else if props_version fl (props b) <? props_version fl (props a) then Some SLOT_A
      else if props_version fl (props a) <? props_version fl (props b) then Some SLOT_B
      else if props_version fl (props a) =? props_version fl (props b) then Some SLOT_A
      else None
  | _, _ => None
  end.

(** ** app/w1/loader/main.c *)

Definition verify_slot (fl : F) (s : boot_slot_id) : outcome bool :=
  let sy := slot_of lay s in
  bl_verify_app_slot fl (bl_certificate lay) (properties_addr sy) (start_addr sy) (signing_size sy)
    (mem_bytes fl (signature_addr sy) ECC_SIG_SIZE).

Definition jump_to_app (fl : F) (addr : Z) : boot_result :=
  JumpApp addr (mem_u32 fl addr) (mem_u32 fl (addr + 4)).

Definition loader_main (fl : F) : outcome boot_result :=
  let! a_slot_valid := verify_slot fl SLOT_A in
  let! b_slot_valid := verify_slot fl SLOT_B in
  if negb a_slot_valid && negb b_slot_valid then Done (ResetMcu MCU_RESET_INVALID_SIGNATURE)
  else
    let slot_a := mk_boot_slot (properties_addr (application_a lay)) (sym_boot_addr (application_a lay))
                    a_slot_valid in
    let slot_b := mk_boot_slot (properties_addr (application_b lay)) (sym_boot_addr (application_b lay))
                    b_slot_valid in
    match bl_select_slot fl (Some slot_a) (Some slot_b) with
    | None => Done (ResetMcu MCU_RESET_INVALID_PROPERTIES)
    | Some SLOT_A => if negb a_slot_valid then Done (ResetMcu MCU_RESET_INVALID_SIGNATURE)
                     else Done (jump_to_app fl (boot_addr slot_a))
    | Some SLOT_B => if negb b_slot_valid then Done (ResetMcu MCU_RESET_INVALID_SIGNATURE)
                     else Done (jump_to_app fl (boot_addr slot_b))
    end.

(** ** Lemmas *)

Context `{!FlashMemLaws F} `{!CertLayoutLaws} `{!SecureBootLaws F}.

Lemma product_id_total fl p : zlen chipid ≤ 16 → ∃ ok, bl_product_id_valid_for_chipid fl p = Done ok.
Proof.
  intros Hc. unfold bl_product_id_valid_for_chipid. destruct (p =? 0); [eauto|].
  assert (Hl : zlen (props_productId fl p) = 16) by (unfold props_productId; by rewrite zlen_mem_bytes).
  destruct (memcmp_s_total (props_productId fl p) default_product_id 16) as [r ->];
    [lia|lia|done|]. cbn [obind]. case_match; [eauto|].
  destruct (memcmp_s_total (props_productId fl p) chipid (zlen chipid)) as [r' ->];
    [zl|lia|lia|]. cbn [obind]. case_match; eauto.
Qed.

(** The verification returns, for every contents of the flash. *)
Lemma verify_app_slot_total fl bl p app n sig :
  zlen chipid ≤ 16 → ∃ ok, bl_verify_app_slot fl bl p app n sig = Done ok.
Proof.
  intros Hc. unfold bl_verify_app_slot. repeat (case_match; [eauto|]).
  destruct (product_id_total fl p Hc) as [ok ->]. cbn [obind]. case_match; eauto.
Qed.

(** What an accepted image has: a certificate that the bootloader's key signed,
    in the same slot and behind the properties, and a signature by the key of
    that certificate over the image. *)
Lemma verify_app_slot_sound fl bl p app n sig :
  bl_verify_app_slot fl bl p app n sig = Done true →
  let c := props_cert fl p in
  addrs_in_same_slot p app = true ∧ addrs_in_same_slot c p = true ∧ p < c
  ∧ cert_version fl bl ≤ cert_version fl c
  ∧ bl_secureboot_verify fl bl (cert_signature fl c) (mem_bytes fl c off_cert_signature) = true
  ∧ bl_secureboot_verify fl c sig (mem_bytes fl app n) = true
  ∧ bl_product_id_valid_for_chipid fl p = Done true.
Proof.
  intros E c. unfold bl_verify_app_slot in E. fold c in E. clearbody c.
  destruct (addrs_in_same_slot p app); [|done]. destruct (addrs_in_same_slot c p); [|done].
  cbn [negb] in E. destruct (c <=? p) eqn:Ec; [done|].
  unfold bl_verify_app_certificate, bl_verify_application in E.
  destruct ((c =? 0) || (bl =? 0)) eqn:E0; [done|]. apply orb_false_iff in E0 as [E0 _].
  rewrite E0 in E. destruct (cert_version fl c <? cert_version fl bl) eqn:Ev; [done|].
  destruct (bl_secureboot_verify fl bl _ _); [|done]. cbn [negb] in E.
  destruct (bl_secureboot_verify fl c _ _); [|done]. cbn [negb] in E.
  apply obind_inv in E as (ok & Eok & E). destruct ok; [|done]. btest. by split_and!; [| |lia|lia| | |].
Qed.

(** The slot that gets booted: the only valid one, or the newer of two. *)
Lemma select_slot_spec fl pa pb ba bb va vb :
  bl_select_slot fl (Some (mk_boot_slot pa ba va)) (Some (mk_boot_slot pb bb vb)) =
  match va, vb with
  | false, false => None
  | true, false => Some SLOT_A
  | false, true => Some SLOT_B
  | true, true => Some (if props_version fl pa <? props_version fl pb then SLOT_B else SLOT_A)
  end.
Proof.
  destruct va, vb; cbn [bl_select_slot signature_verified negb andb orb props]; try done.
  destruct (Z.lt_total (props_version fl pa) (props_version fl pb)) as [Hlt|[Heq|Hgt]]; zdecide; done.
Qed.

Definition other_slot (s : boot_slot_id) : boot_slot_id :=
  match s with SLOT_A => SLOT_B | SLOT_B => SLOT_A end.

(** The properties and the version of the image in a slot. *)
Definition slot_version (fl : F) (s : boot_slot_id) : Z :=
  props_version fl (properties_addr (slot_of lay s)).

(** The loader never resets while one slot is valid, and jumps into a valid
    slot that no valid slot supersedes. *)
Lemma loader_boots fl s : zlen chipid ≤ 16 → verify_slot fl s = Done true →
  ∃ t, loader_main fl = Done (jump_to_app fl (sym_boot_addr (slot_of lay t)))
    ∧ verify_slot fl t = Done true
    ∧ (verify_slot fl (other_slot t) = Done true → slot_version fl (other_slot t) ≤ slot_version fl t).
Proof.
  intros Hc Hs. unfold loader_main.
  assert (Hall : ∀ x, ∃ v, verify_slot fl x = Done v) by (intros x; by apply verify_app_slot_total).
  destruct (Hall SLOT_A) as [va Ea], (Hall SLOT_B) as [vb Eb]. rewrite Ea, Eb. cbn [obind].
  assert (Hv : va || vb = true) by (destruct s, va, vb; done || congruence).
  replace (negb va && negb vb) with false by (destruct va, vb; done).
  rewrite select_slot_spec. unfold slot_version.
  destruct va, vb; try done.
  - destruct (_ <? _) eqn:Ev; btest.
    + exists SLOT_B. cbn [slot_of other_slot boot_addr negb]. split_and!; [done|done|lia].
    + exists SLOT_A. cbn [slot_of other_slot boot_addr negb]. split_and!; [done|done|lia].
  - exists SLOT_A. cbn [slot_of other_slot boot_addr negb]. split_and!; [done|done|by rewrite Eb].
  - exists SLOT_B. cbn [slot_of other_slot boot_addr negb]. split_and!; [done|done|by rewrite Ea].
Qed.

(** ** Verification reads its slot and the bootloader only *)

Definition slot_end (sy : slot_symbols) : Z := signature_addr sy + ECC_SIG_SIZE.

Record slot_wf (sy : slot_symbols) : Prop := {
  slot_pos : 0 < start_addr sy;
  slot_sig : signature_addr sy = start_addr sy + signing_size sy;
  slot_size_pos : 0 ≤ signing_size sy;
  slot_props : start_addr sy ≤ properties_addr sy;
  slot_props_end : properties_addr sy + sizeof_app_properties ≤ signature_addr sy;
}.

(** The whole certificate of the image lies in the slot; the source checks its
    first byte. *)
Definition cert_inside (fl : F) (sy : slot_symbols) : Prop :=
  props_cert fl (properties_addr sy) + sizeof_app_certificate ≤ slot_end sy.

Lemma cert_fields_ext fl fl' c :
  mem_bytes fl' c sizeof_app_certificate = mem_bytes fl c sizeof_app_certificate →
  cert_version fl' c = cert_version fl c ∧ cert_signature fl' c = cert_signature fl c
  ∧ mem_bytes fl' c off_cert_signature = mem_bytes fl c off_cert_signature.
Proof.
  intros Heq. pose proof (mem_bytes_inv _ _ _ _ Heq) as Hb. pose proof law_cert_sizes.
  unfold cert_version, cert_signature, mem_u32, ECC_SIG_SIZE in *.
  split_and!; [f_equal|..]; apply mem_bytes_ext; intros b ?; apply Hb; lia.
Qed.

Lemma props_fields_ext lo hi fl fl' p : within lo hi fl fl' →
  p + sizeof_app_properties ≤ lo ∨ hi ≤ p →
  props_version fl' p = props_version fl p ∧ props_cert fl' p = props_cert fl p
  ∧ props_productId fl' p = props_productId fl p.
Proof.
  intros Hw Hp. pose proof law_props_sizes. unfold props_version, props_cert, props_productId.
  split_and!; [eapply within_u32|eapply within_u32|eapply within_bytes]; eauto; lia.
Qed.

(** A change outside of the image, of its properties and of both certificates
    changes nothing. *)
Lemma verify_app_slot_local lo hi fl fl' bl p app n sig : within lo hi fl fl' →
  p + sizeof_app_properties ≤ lo ∨ hi ≤ p → app + n ≤ lo ∨ hi ≤ app →
  (p < props_cert fl p → props_cert fl p + sizeof_app_certificate ≤ lo ∨ hi ≤ props_cert fl p) →
  bl + sizeof_app_certificate ≤ lo ∨ hi ≤ bl →
  bl_verify_app_slot fl' bl p app n sig = bl_verify_app_slot fl bl p app n sig.
Proof.
  intros Hw Hp Happ Hcert Hbl. destruct (props_fields_ext lo hi fl fl' p Hw Hp) as (_ & Ec & Epid).
  unfold bl_verify_app_slot, bl_product_id_valid_for_chipid. rewrite Ec, Epid.
  case_match; [done|]. case_match; [done|].
  destruct (props_cert fl p <=? p) eqn:Ecp; [done|]. btest. specialize (Hcert Ecp).
  set (c := props_cert fl p) in *.
  assert (Hc : mem_bytes fl' c sizeof_app_certificate = mem_bytes fl c sizeof_app_certificate)
    by (by eapply within_bytes).
  assert (Hb : mem_bytes fl' bl sizeof_app_certificate = mem_bytes fl bl sizeof_app_certificate)
    by (by eapply within_bytes).
  unfold bl_verify_app_certificate, bl_verify_application.
  destruct (cert_fields_ext _ _ _ Hc) as (-> & -> & ->). destruct (cert_fields_ext _ _ _ Hb) as (-> & _ & _).
  rewrite (within_bytes lo hi fl fl' app n) by done.
  by rewrite !(law_secureboot_local _ _ _ _ _ Hc), (law_secureboot_local _ _ _ _ _ Hb).
Qed.

Lemma verify_slot_local lo hi fl fl' s :
  within lo hi fl fl' → slot_wf (slot_of lay s) → cert_inside fl (slot_of lay s) →
  slot_end (slot_of lay s) ≤ lo ∨ hi ≤ start_addr (slot_of lay s) →
  bl_certificate lay + sizeof_app_certificate ≤ lo ∨ hi ≤ bl_certificate lay →
  verify_slot fl' s = verify_slot fl s ∧ slot_version fl' s = slot_version fl s.
Proof.
  intros Hw Hwf Hin Hslot Hbl. unfold verify_slot, slot_version. destruct (slot_of lay s) as [st n p sg bt].
  destruct Hwf as [Hpos Hsig Hn Hp Hpe]. unfold cert_inside, slot_end in *.
  cbn [start_addr signing_size properties_addr signature_addr] in *. pose proof law_props_pos.
  unfold ECC_SIG_SIZE in *.
  destruct (props_fields_ext lo hi fl fl' p Hw) as (Ev & _ & _); [lia|]. split; [|done].
  rewrite (within_bytes lo hi fl fl' sg) by (done || lia).
  apply (verify_app_slot_local lo hi); [done|lia|lia|lia|done].
Qed.
End Verify.

(** Both back ends read their certificate only. *)
Lemma app_cert_boot_local {F} `{FlashMem F, CertLayout, !CertLayoutLaws, BootCrypto} :
  @SecureBootLaws F _ _ app_cert_boot.
Proof.
  split. intros fl fl' c sig data Heq. cbn [bl_secureboot_verify app_cert_boot].
  unfold bl_secureboot_verify_app_cert. replace (cert_key fl' c) with (cert_key fl c); [done|].
  pose proof law_cert_sizes. unfold cert_key. symmetry. apply mem_bytes_ext. intros b Hb.
  apply (mem_bytes_inv _ _ _ _ Heq). lia.
Qed.

Lemma picocert_boot_local {F} `{FlashMem F, CertLayout, BootCrypto} :
  @SecureBootLaws F _ _ picocert_boot.
Proof.
  split. intros fl fl' c sig data Heq. cbn [bl_secureboot_verify picocert_boot].
  unfold bl_secureboot_verify_picocert. by rewrite Heq.
Qed.
