(* ===== verification/Metadata.v ===== *)
(** * Image metadata (lib/metadata) and versions (fwup_utils.c)

    Each image carries a page of metadata: a header with a CRC and a length,
    then a MessagePack map. The MessagePack library is a submodule: its reading
    calls are the class [Cmp], over the memory reader of lib/msgpack. *)

From stdpp Require Import strings pretty.
From S2P Require Import Prelude FwFlash.
#[local] Open Scope Z_scope.
#[local] Open Scope list_scope.

Inductive metadata_target_t := META_TGT_BL | META_TGT_APP_A | META_TGT_APP_B | META_TGT_MAX.
Inductive metadata_result_t := METADATA_VALID | METADATA_INVALID | METADATA_MISSING | METADATA_ROOT_ERROR.
#[global] Instance metadata_target_eq_dec : EqDecision metadata_target_t.
Proof. solve_decision. Defined.
#[global] Instance metadata_result_eq_dec : EqDecision metadata_result_t.
Proof. solve_decision. Defined.

Definition METADATA_BUILD_STR_MAX_LEN : Z := 7.
Definition METADATA_GIT_STR_MAX_LEN : Z := 64.
Definition METADATA_HW_REV_STR_MAX_LEN : Z := 32.
Definition METADATA_HASH_LENGTH : Z := 20.
Definition MAX_KEY_LEN : Z := 64.
(** [sizeof(metadata_header_t)]: a CRC of 4 bytes and a size of 2. *)
Definition METADATA_HEADER_SIZE : Z := 6.

Record metadata_t := mk_meta {
  m_target : metadata_target_t;
  m_git_id : list Z;
  m_git_branch : list Z;
  m_major : Z;
  m_minor : Z;
  m_patch : Z;
  m_build : list Z;
  m_timestamp : Z;
  m_sha1hash : list Z;
  m_hardware_revision : list Z;
}.

Definition meta_zero : metadata_t := mk_meta META_TGT_BL [] [] 0 0 0 [] 0 [] [].

(** [msgpack_mem_access_t] of lib/msgpack. *)
Record msgpack_mem_access_t := mk_ma {
  ma_buf : list Z;
  ma_size : Z;
  ma_index : Z;
}.

Definition msgpack_mem_access_ro_init (buf : list Z) (size : Z) : msgpack_mem_access_t :=
  mk_ma buf size 0.

(** The reader that the library calls for its input. *)
Definition cmp_mem_reader (mem : msgpack_mem_access_t) (len : Z)
    : outcome (option (list Z) * msgpack_mem_access_t) :=
  if u32 (ma_index mem + len) <=? ma_size mem then
    let! data := mread (ma_buf mem) (ma_index mem) len in
    Done (Some data, mk_ma (ma_buf mem) (ma_size mem) (u32 (ma_index mem + len)))
  else Done (None, mem).

(** A read of the library returns the value or [None], and the reader after
    it. A string that does not fit its buffer is an error that reports a
    length. *)
Class Cmp := {
  cmp_read_map : msgpack_mem_access_t → option Z * msgpack_mem_access_t;
  cmp_read_str : msgpack_mem_access_t → Z → (list Z + Z) * msgpack_mem_access_t;
  cmp_read_uchar : msgpack_mem_access_t → option Z * msgpack_mem_access_t;
  cmp_read_ulong : msgpack_mem_access_t → option Z * msgpack_mem_access_t;
  cmp_read_bin : msgpack_mem_access_t → Z → option (list Z) * msgpack_mem_access_t;
  cmp_skip_object : msgpack_mem_access_t → bool * msgpack_mem_access_t;
}.

(** [strncmp(a, b, n) == 0], on strings without their terminator. *)
Fixpoint strncmp_eq (a b : list Z) (n : nat) : bool :=
  match n with
  | O => true
  | S n =>
      let x := hd 0 a in
      if negb (x =? hd 0 b) then false
      else if x =? 0 then true
      else strncmp_eq (tl a) (tl b) n
  end.

Definition c_string (s : string) : list Z :=
  map (λ c, Z.of_nat (Ascii.nat_of_ascii c)) (String.list_ascii_of_string s).

(** ** CRC *)

Fixpoint crc32b_bits (k : nat) (crc : Z) : Z :=
  match k with
  | O => crc
  | S k => crc32b_bits k
             (if Z.testbit crc 0 then Z.lxor (Z.shiftr crc 1) 0xedb88320 else Z.shiftr crc 1)
  end.

Fixpoint crc32b_loop (message : list Z) (crc : Z) : Z :=
  match message with
  | [] => crc
  | b :: message => crc32b_loop message (crc32b_bits 8 (Z.lxor crc b))
  end.

Definition crc32b (message : list Z) : Z := Z.lxor (crc32b_loop message 0xFFFFFFFF) 0xFFFFFFFF.

(** The sections of the linker script, and the slot this image was built for. *)
Record meta_layout := mk_meta_layout {
  bl_metadata_page : Z; bl_metadata_size : Z;
  app_a_metadata_page : Z; app_a_metadata_size : Z;
  app_b_metadata_page : Z; app_b_metadata_size : Z;
}.

Definition fwpb_SLOT_A : Z := 1.
Definition fwpb_SLOT_B : Z := 2.

Definition target_index (t : metadata_target_t) : Z :=
  match t with META_TGT_BL => 0 | META_TGT_APP_A => 1 | META_TGT_APP_B => 2 | META_TGT_MAX => 3 end.

Definition memory_get_metadata_addr (ml : meta_layout) (t : metadata_target_t) : outcome Z :=
  let! _ := ASSERT (target_index t <? target_index META_TGT_MAX) in
  Done (match t with
        | META_TGT_APP_A => app_a_metadata_page ml
        | META_TGT_APP_B => app_b_metadata_page ml
        | _ => bl_metadata_page ml
        end).

Definition memory_get_metadata_size (ml : meta_layout) (t : metadata_target_t) : outcome Z :=
  let! _ := ASSERT (target_index t <? target_index META_TGT_MAX) in
  Done (match t with
        | META_TGT_BL => bl_metadata_size ml
        | META_TGT_APP_A => app_a_metadata_size ml
        | META_TGT_APP_B => app_b_metadata_size ml
        | META_TGT_MAX => 0
        end).

Definition validate_meta (data : list Z) (crc : Z) : metadata_result_t :=
  if crc =? crc32b data then METADATA_VALID else METADATA_INVALID.

(** ** The map *)

Section Read.
Context `{Cmp}.

Definition metadata_read_str (ma : msgpack_mem_access_t) (dst_size : Z)
    : option (list Z) * msgpack_mem_access_t :=
  match cmp_read_str ma dst_size with
  | (inl s, ma) => (Some s, ma)
  | (inr _, ma) => (None, ma)
  end.

Definition set_meta {A} (r : option A * msgpack_mem_access_t) (meta : metadata_t)
    (f : A → metadata_t) : bool * metadata_t * msgpack_mem_access_t :=
  match r with
  | (Some v, ma) => (true, f v, ma)
  | (None, ma) => (false, meta, ma)
  end.

(** One key and its value; an unknown key is skipped. *)
Definition read_entry (meta : metadata_t) (ma : msgpack_mem_access_t)
    : bool * metadata_t * msgpack_mem_access_t :=
  let '(kr, ma) := cmp_read_str ma MAX_KEY_LEN in
  let '(key, key_len) := match kr with inl s => (s, zlen s) | inr n => ([], n) end in
  let key_is lit := strncmp_eq (c_string lit) key (Z.to_nat key_len) in
  let '(mk_meta t id br ma1 mi pa bu ts sh hw) := meta in
  if key_is "git_id"%string then
    set_meta (metadata_read_str ma (METADATA_GIT_STR_MAX_LEN + 1)) meta
      (λ v, mk_meta t v br ma1 mi pa bu ts sh hw)
  else if key_is "git_branch"%string then
    set_meta (metadata_read_str ma (METADATA_GIT_STR_MAX_LEN + 1)) meta
      (λ v, mk_meta t id v ma1 mi pa bu ts sh hw)
  else if key_is "ver_major"%string then
    set_meta (cmp_read_uchar ma) meta (λ v, mk_meta t id br v mi pa bu ts sh hw)
  else if key_is "ver_minor"%string then
    set_meta (cmp_read_uchar ma) meta (λ v, mk_meta t id br ma1 v pa bu ts sh hw)
  else if key_is "ver_patch"%string then
    set_meta (cmp_read_uchar ma) meta (λ v, mk_meta t id br ma1 mi v bu ts sh hw)
  else if key_is "timestamp"%string then
    set_meta (cmp_read_ulong ma) meta (λ v, mk_meta t id br ma1 mi pa bu v sh hw)
  else if key_is "build"%string || key_is "build_type"%string then
    set_meta (metadata_read_str ma (METADATA_BUILD_STR_MAX_LEN + 1)) meta
      (λ v, mk_meta t id br ma1 mi pa v ts sh hw)
  else if key_is "hash"%string then
    set_meta (cmp_read_bin ma METADATA_HASH_LENGTH) meta
      (λ v, mk_meta t id br ma1 mi pa bu ts v hw)
  else if key_is "hw_rev"%string then
    set_meta (metadata_read_str ma METADATA_HW_REV_STR_MAX_LEN) meta
      (λ v, mk_meta t id br ma1 mi pa bu ts sh v)
  else let '(success, ma) := cmp_skip_object ma in (success, meta, ma).

Fixpoint read_entries (key_count : nat) (meta : metadata_t) (ma : msgpack_mem_access_t)
    : metadata_result_t * metadata_t :=
  match key_count with
  | O => (METADATA_VALID, meta)
  | S key_count =>
      let '(success, meta, ma) := read_entry meta ma in
      if negb success then (METADATA_INVALID, meta) else read_entries key_count meta ma
  end.

Definition metadata_read_from_serialized (meta : metadata_t) (ma : msgpack_mem_access_t)
    : metadata_result_t * metadata_t :=
  match cmp_read_map ma with
  | (None, _) => (METADATA_ROOT_ERROR, meta)
  | (Some key_count, ma) => read_entries (Z.to_nat key_count) meta ma
  end.

Context {F : Type} `{FlashMem F}.
Variable ml : meta_layout.

Definition metadata_read (fl : F) (meta : metadata_t) (buffer buffer_size : Z)
    : metadata_result_t * metadata_t :=
  if buffer_size <? METADATA_HEADER_SIZE then (METADATA_MISSING, meta)
  else
    let size := buffer_size - METADATA_HEADER_SIZE in
    metadata_read_from_serialized meta
      (msgpack_mem_access_ro_init (mem_bytes fl (buffer + METADATA_HEADER_SIZE) size) size).

Definition metadata_validity (fl : F) (t : metadata_target_t) : outcome metadata_result_t :=
  let! _ := ASSERT (target_index t <? target_index META_TGT_MAX) in
  let! meta_addr := memory_get_metadata_addr ml t in
  let hdr_crc := mem_u32 fl meta_addr in
  let hdr_size := le_decode (mem_bytes fl (meta_addr + 4) 2) in
  let! msize := memory_get_metadata_size ml t in
  if msize <? hdr_size then Done METADATA_MISSING
  else Done (validate_meta (mem_bytes fl (meta_addr + METADATA_HEADER_SIZE) hdr_size) hdr_crc).

Definition meta_init (t : metadata_target_t) : metadata_t := mk_meta t [] [] 0 0 0 [] 0 [] [].

Definition metadata_get (fl : F) (t : metadata_target_t) (meta : metadata_t)
    : outcome (metadata_result_t * metadata_t) :=
  let! _ := ASSERT (target_index t <? target_index META_TGT_MAX) in
  let! state := metadata_validity fl t in
  match state with
  | METADATA_VALID =>
      let! a := memory_get_metadata_addr ml t in
      let! n := memory_get_metadata_size ml t in
      Done (metadata_read fl (meta_init t) a n)
  | _ => Done (state, meta)
  end.

(** The slot, when it is known, and the result. *)
Definition metadata_get_active_slot (active_slot : Z) (fl : F) (meta : metadata_t)
    : outcome (metadata_result_t * metadata_t * option Z) :=
  if active_slot =? fwpb_SLOT_A then
    let! '(r, meta) := metadata_get fl META_TGT_APP_A meta in Done (r, meta, Some fwpb_SLOT_A)
  else if active_slot =? fwpb_SLOT_B then
    let! '(r, meta) := metadata_get fl META_TGT_APP_B meta in Done (r, meta, Some fwpb_SLOT_B)
  else Done (METADATA_MISSING, meta, None).

Definition metadata_get_firmware_version (active_slot : Z) (fl : F)
    : outcome (metadata_result_t * Z) :=
  let! '(result, metadata, _) := metadata_get_active_slot active_slot fl meta_zero in
  match result with
  | METADATA_VALID =>
      Done (METADATA_VALID, Z.lor (Z.lor (Z.shiftl (m_major metadata) 16)
                                         (Z.shiftl (m_minor metadata) 8)) (m_patch metadata))
  | _ => Done (result, 0)
  end.

(** ** fwup_utils.c *)

Record fwpb_semver := mk_semver { sv_major : Z; sv_minor : Z; sv_patch : Z }.

Definition fwup_semver_equals (v1 v2 : option fwpb_semver) : bool :=
  match v1, v2 with
  | Some v1, Some v2 =>
      (sv_major v1 =? sv_major v2) && (sv_minor v1 =? sv_minor v2) && (sv_patch v1 =? sv_patch v2)
  | _, _ => false
  end.

Definition meta_semver (m : metadata_t) : fwpb_semver := mk_semver (m_major m) (m_minor m) (m_patch m).

Definition fwup_get_self_version (active_slot : Z) (fl : F) : outcome (option fwpb_semver) :=
  let! '(r, metadata, _) := metadata_get_active_slot active_slot fl meta_zero in
  match r with
  | METADATA_VALID =>
      if (m_major metadata =? 0) && (m_minor metadata =? 0) && (m_patch metadata =? 0)
      then Done None else Done (Some (meta_semver metadata))
  | _ => Done None
  end.

(** [slot] keeps its initial value SLOT_A when the active slot is unknown. *)
Definition fwup_get_target_version (active_slot : Z) (fl : F) : outcome (option fwpb_semver) :=
  let! '(r, _, slot) := metadata_get_active_slot active_slot fl meta_zero in
  match r with
  | METADATA_VALID =>
      let target := if default fwpb_SLOT_A slot =? fwpb_SLOT_A then META_TGT_APP_B else META_TGT_APP_A in
      let! '(r, meta) := metadata_get fl target meta_zero in
      match r with
      | METADATA_VALID => Done (Some (meta_semver meta))
      | _ => Done None
      end
  | _ => Done None
  end.

(** The characters written, or [None] where the call returns false. *)
Definition fwup_format_version_string (version : option fwpb_semver) (buffer_size : Z)
    : option string :=
  match version with
  | None => None
  | Some v =>
      if buffer_size <? 16 then None
      else
        let s := ("v" +:+ pretty (Z.to_N (sv_major v)) +:+ "." +:+ pretty (Z.to_N (sv_minor v))
                  +:+ "." +:+ pretty (Z.to_N (sv_patch v)))%string in
        if buffer_size <=? Z.of_nat (String.length s) then None else Some s
  end.
End Read.

(** ** Checks *)

(** The check value of this CRC-32. *)
Example crc32b_check : crc32b (c_string "123456789") = 0xCBF43926.
Proof. reflexivity. Qed.

Lemma fwup_semver_equals_spec v1 v2 : fwup_semver_equals (Some v1) (Some v2) = true ↔ v1 = v2.
Proof.
  destruct v1 as [a b c], v2 as [a' b' c']; cbn. rewrite !andb_true_iff, !Z.eqb_eq.
  split; [by intros [[-> ->] ->]|by intros [= -> -> ->]].
Qed.

(** The metadata is read for one of the three targets: the assertions hold. *)
Lemma metadata_get_total `{Cmp} {F} `{FlashMem F} ml fl t meta :
  t ≠ META_TGT_MAX → ∃ r, metadata_get ml fl t meta = Done r.
Proof.
  intros Ht. unfold metadata_get, metadata_validity, memory_get_metadata_addr, memory_get_metadata_size.
  destruct t; [..|done]; cbn [target_index Z.ltb Z.compare Pos.compare Pos.compare_cont ASSERT obind];
    (case_match; cbn [obind]; [eauto|]; case_match; eauto).
Qed.

Lemma fwup_get_target_version_total `{Cmp} {F} `{FlashMem F} ml act fl :
  ∃ r, fwup_get_target_version ml act fl = Done r.
Proof.
  unfold fwup_get_target_version, metadata_get_active_slot.
  assert (Hk : ∀ r : metadata_result_t * metadata_t * option Z, ∃ v : option fwpb_semver,
    (let! '(r, _, slot) := Done r in
     match r with
     | METADATA_VALID =>
       let target := if default fwpb_SLOT_A slot =? fwpb_SLOT_A then META_TGT_APP_B else META_TGT_APP_A in
       let! '(r, meta) := metadata_get ml fl target meta_zero in
       match r with METADATA_VALID => Done (Some (meta_semver meta)) | _ => Done None end
     | _ => Done None end) = Done v).
  { intros [[r m] slot]. cbn [obind]. destruct r; eauto. cbn zeta.
    destruct (metadata_get_total ml fl
      (if default fwpb_SLOT_A slot =? fwpb_SLOT_A then META_TGT_APP_B else META_TGT_APP_A) meta_zero)
      as [[r' m'] ->]; [by case_match|]. cbn [obind]. destruct r'; eauto. }
  case_match.
  - destruct (metadata_get_total ml fl META_TGT_APP_A meta_zero) as [[r m] ->]; [done|]. apply Hk.
  - case_match; [|apply Hk].
    destruct (metadata_get_total ml fl META_TGT_APP_B meta_zero) as [[r m] ->]; [done|]. apply Hk.
Qed.
