(* ===== verification/FwVerify.v ===== *)
(** * Verification of a new image (fwup_verify.c of both targets)

    [Efr32] models the core processors: the new application is checked against
    the version of the running image and the certificate of the bootloader, a
    new bootloader is checked, copied over the old one and checked again.
    [Stm32] models the coprocessor of the second device, which has no
    bootloader update. The class [FwVerify] is what the update engine calls;
    [FwVerifyLaws] is what it relies on, discharged for both targets. *)

From S2P Require Import Prelude FwFlash SecBoot Metadata.

Inductive fwup_verify_status_t :=
| FWUP_VERIFY_SUCCESS
| FWUP_VERIFY_SIGNATURE_INVALID
| FWUP_VERIFY_VERSION_INVALID
| FWUP_VERIFY_BAD_OFFSET
| FWUP_VERIFY_ERROR
| FWUP_VERIFY_CANT_FIND_PROPERTIES
| FWUP_VERIFY_FLASH_ERROR
| FWUP_VERIFY_CONFIRMATION_MISMATCH
| FWUP_VERIFY_MISSING_HEADER.
#[global] Instance fwup_verify_status_eq_dec : EqDecision fwup_verify_status_t.
Proof. solve_decision. Defined.

(** [fwup_priv_t] of fwup_impl.h, without the performance counters. *)
Record fwup_priv_t := mk_priv {
  target_slot_addr : Z;
  current_slot_addr : Z;
  target_slot_signature : Z;
  app_slot_size : Z;
  support_bl_upgrade : bool;
  require_confirmation : secure_bool_t;
  has_confirmation_version : bool;
  confirmation_version : fwpb_semver;
  pending_signature : list Z;
  has_pending_signature : bool;
}.

Class FwVerify (F : Type) := {
  fwup_verify_new_app : fwup_priv_t → F → Z → list Z → outcome fwup_verify_status_t;
  fwup_verify_new_bootloader : fwup_priv_t → F → outcome (fwup_verify_status_t * F);
}.

(** ** EFR32: the core processors *)

Module Efr32.
Section Efr32.
Context {F : Type} `{FlashMem F} `{CertLayout} `{BootCrypto} `{SecureBoot F}.
Variable chipid : list Z.
Variable lay : boot_layout.
(** The address of this image's [sl_app_properties] and of the bootloader's
    signature; the check with the secure boot key in the secure element. *)
Variables sl_app_properties bl_signature_addr : Z.
Variable secure_boot_verify_hash : list Z → list Z → bool.

Fixpoint locate_magic_loop (fuel : nat) (fl : F) (addr last : Z) : outcome (option Z) :=
  match fuel with
  | O => Nofuel
  | S fuel =>
      if addr <? last then
        if bool_decide (mem_bytes fl addr 16 = props_magic fl sl_app_properties) then Done (Some addr)
        else locate_magic_loop fuel fl (addr + 4) last
      else Done None
  end.

(** The properties of a bootloader are found by their magic. *)
Definition locate_bl_sl_app_properties (fl : F) (base size : Z) : outcome (option Z) :=
  locate_magic_loop (S (Z.to_nat size)) fl base (u32 (base + size)).

Definition verify_new_bootloader (fl : F) (cert : Z) (data signature : list Z) : fwup_verify_status_t :=
  match crypto_hash (mem_bytes fl cert off_cert_signature) with
  | None => FWUP_VERIFY_SIGNATURE_INVALID
  | Some hash =>
      if negb (secure_boot_verify_hash hash (cert_signature fl cert)) then FWUP_VERIFY_SIGNATURE_INVALID
      else match crypto_hash data with
           | None => FWUP_VERIFY_SIGNATURE_INVALID
           | Some hash =>
               if crypto_ecc_verify_hash (cert_key fl cert) hash signature
               then FWUP_VERIFY_SUCCESS else FWUP_VERIFY_SIGNATURE_INVALID
           end
  end.

Definition fwup_verify_new_app_efr32 (priv : fwup_priv_t) (fl : F) (app_properties_offset : Z)
    (signature : list Z) : outcome fwup_verify_status_t :=
  if u32 (app_slot_size priv - sizeof_app_properties) <? app_properties_offset
  then Done FWUP_VERIFY_BAD_OFFSET
  else
    let new_app_props := target_slot_addr priv + app_properties_offset in
    if props_version fl new_app_props <=? props_version fl sl_app_properties
    then Done FWUP_VERIFY_VERSION_INVALID
    else
      let! bl := locate_bl_sl_app_properties fl (bl_base_addr lay) (bl_slot_size lay) in
      match bl with
      | None => Done FWUP_VERIFY_CANT_FIND_PROPERTIES
      | Some bl_props =>
          let! verified := bl_verify_app_slot chipid lay fl (props_cert fl bl_props) new_app_props
            (target_slot_addr priv) (u32 (app_slot_size priv - ECC_SIG_SIZE)) signature in
          if verified then Done FWUP_VERIFY_SUCCESS else Done FWUP_VERIFY_SIGNATURE_INVALID
      end.

(** The checks before the old bootloader is touched. *)
Definition check_new_bootloader (priv : fwup_priv_t) (fl : F) : outcome (fwup_verify_status_t + Z) :=
  let slot_size := bl_slot_size lay in
  if u32 (app_slot_size priv - FWUP_SIGNATURE_SIZE) <? slot_size then Done (inl FWUP_VERIFY_ERROR)
  else
    let sig_addr := target_slot_addr priv + slot_size - ECC_SIG_SIZE in
    let! cur := locate_bl_sl_app_properties fl (bl_base_addr lay) slot_size in
    match cur with
    | None => Done (inl FWUP_VERIFY_CANT_FIND_PROPERTIES)
    | Some current_bl_app_props =>
        let! new := locate_bl_sl_app_properties fl (target_slot_addr priv) slot_size in
        match new with
        | None => Done (inl FWUP_VERIFY_CANT_FIND_PROPERTIES)
        | Some new_bl_app_props =>
            if props_version fl new_bl_app_props <=? props_version fl current_bl_app_props
            then Done (inl FWUP_VERIFY_VERSION_INVALID)
            else if negb (bool_decide (verify_new_bootloader fl (props_cert fl current_bl_app_props)
                      (mem_bytes fl (target_slot_addr priv) (slot_size - ECC_SIG_SIZE))
                      (mem_bytes fl sig_addr ECC_SIG_SIZE) = FWUP_VERIFY_SUCCESS))
            then Done (inl FWUP_VERIFY_SIGNATURE_INVALID)
            else Done (inr new_bl_app_props)
        end
    end.

Definition fwup_verify_new_bootloader_efr32 (priv : fwup_priv_t) (fl : F)
    : outcome (fwup_verify_status_t * F) :=
  let slot_size := bl_slot_size lay in
  let! c := check_new_bootloader priv fl in
  match c with
  | inl status => Done (status, fl)
  | inr new_bl_app_props =>
      let '(ok, fl) := fwup_flash_erase_bl fl (bl_base_addr lay) slot_size in
      if negb ok then Done (FWUP_VERIFY_FLASH_ERROR, fl)
      else
        let '(ok, fl) := fwup_flash_write fl (bl_base_addr lay)
                           (mem_bytes fl (target_slot_addr priv) slot_size) in
        if negb ok then Done (FWUP_VERIFY_FLASH_ERROR, fl)
        else if negb (bool_decide (verify_new_bootloader fl (props_cert fl new_bl_app_props)
                  (mem_bytes fl (bl_base_addr lay) (slot_size - ECC_SIG_SIZE))
                  (mem_bytes fl bl_signature_addr ECC_SIG_SIZE) = FWUP_VERIFY_SUCCESS))
        then Done (FWUP_VERIFY_SIGNATURE_INVALID, fl)
        else Done (FWUP_VERIFY_SUCCESS, fl)
  end.

Definition efr32_verifier : FwVerify F :=
  {| fwup_verify_new_app := fwup_verify_new_app_efr32;
     fwup_verify_new_bootloader := fwup_verify_new_bootloader_efr32 |}.
End Efr32.
End Efr32.

(** ** STM32: the coprocessor *)

Module Stm32.
Definition PICO_CERT_APP_PROPERTIES_MAGIC : list Z :=
  [0x42; 0x49; 0x54; 0x4B; 0x45; 0x59; 0x2D; 0x55; 0x58; 0x43; 0; 0; 0; 0; 0; 0].

Section Stm32.
Context {F : Type} `{FlashMem F} `{CertLayout} `{SecureBoot F}.
Variable chipid : list Z.
Variable lay : boot_layout.

Definition is_valid_app_properties (fl : F) (p : Z) : bool :=
  if p =? 0 then false
  else if (props_structVersion fl p =? 0) || (props_structVersion fl p =? UINT32_MAX) then false
  else if negb (bool_decide (props_magic fl p = PICO_CERT_APP_PROPERTIES_MAGIC)) then false
  else
    let cert_addr := props_cert fl p in
    if negb (addrs_in_same_slot lay cert_addr p) then false
    else if cert_addr <=? p then false
    else if negb (Z.land cert_addr 3 =? 0) then false
    else true.

Fixpoint locate_props_loop (fuel : nat) (fl : F) (region_base offset last : Z) : outcome (option Z) :=
  match fuel with
  | O => Nofuel
  | S fuel =>
      if offset <=? last then
        if is_valid_app_properties fl (region_base + offset) then Done (Some (region_base + offset))
        else locate_props_loop fuel fl region_base (offset + 4) last
      else Done None
  end.

Definition locate_app_properties (fl : F) (region_base region_size : Z) : outcome (option Z) :=
  if (region_base =? 0) || (region_size <? sizeof_app_properties) then Done None
  else locate_props_loop (S (Z.to_nat region_size)) fl region_base 0 (region_size - sizeof_app_properties).

Definition verify_app_signature (fl : F) (bl_cert app_props app_base app_size : Z) (signature : list Z)
    : outcome fwup_verify_status_t :=
  if (bl_cert =? 0) || (app_props =? 0) || (app_base =? 0) then Done FWUP_VERIFY_ERROR
  else
    let! verified := bl_verify_app_slot chipid lay fl bl_cert app_props app_base app_size signature in
    if verified then Done FWUP_VERIFY_SUCCESS else Done FWUP_VERIFY_SIGNATURE_INVALID.

Definition fwup_verify_new_app_stm32 (priv : fwup_priv_t) (fl : F) (app_properties_offset : Z)
    (signature : list Z) : outcome fwup_verify_status_t :=
  if (target_slot_addr priv =? 0) || (current_slot_addr priv =? 0) then Done FWUP_VERIFY_ERROR
  else if u32 (app_slot_size priv - sizeof_app_properties) <? app_properties_offset
  then Done FWUP_VERIFY_BAD_OFFSET
  else
    let new_props := target_slot_addr priv + app_properties_offset in
    if negb (is_valid_app_properties fl new_props) then Done FWUP_VERIFY_CANT_FIND_PROPERTIES
    else
      let! cur := locate_app_properties fl (current_slot_addr priv) (app_slot_size priv) in
      match cur with
      | None => Done FWUP_VERIFY_CANT_FIND_PROPERTIES
      | Some current_props =>
          if props_version fl new_props <=? props_version fl current_props
          then Done FWUP_VERIFY_VERSION_INVALID
          else
            let! bl := locate_app_properties fl (bl_base_addr lay) (bl_slot_size lay) in
            match bl with
            | None => Done FWUP_VERIFY_CANT_FIND_PROPERTIES
            | Some bl_props =>
                verify_app_signature fl (props_cert fl bl_props) new_props (target_slot_addr priv)
                  (u32 (app_slot_size priv - ECC_SIG_SIZE)) signature
            end
      end.

Definition fwup_verify_new_bootloader_stm32 (priv : fwup_priv_t) (fl : F)
    : outcome (fwup_verify_status_t * F) := Done (FWUP_VERIFY_ERROR, fl).

Definition stm32_verifier : FwVerify F :=
  {| fwup_verify_new_app := fwup_verify_new_app_stm32;
     fwup_verify_new_bootloader := fwup_verify_new_bootloader_stm32 |}.
End Stm32.
End Stm32.

(** ** What the update engine relies on *)

(** The bootloader's area is made of whole pages. *)
Record bl_area_wf (lay : boot_layout) : Prop := {
  bl_base_page : bl_base_addr lay mod FLASH_PAGE_SIZE = 0;
  bl_size_page : bl_slot_size lay mod FLASH_PAGE_SIZE = 0;
  bl_base_pos : 0 ≤ bl_base_addr lay;
  bl_size_pos : 0 ≤ bl_slot_size lay;
  bl_area_end : bl_base_addr lay + bl_slot_size lay ≤ UINT32_MAX;
}.

(** Where a target finds the properties of the running image and those of the
    bootloader, whose certificate it trusts. *)
Class FwTrust (F : Type) := {
  running_props : fwup_priv_t → F → outcome (option Z);
  bootloader_props : F → outcome (option Z);
}.

Definition efr32_trust {F} `{FlashMem F, CertLayout} (lay : boot_layout) (sl : Z) : FwTrust F :=
  {| running_props _ _ := Done (Some sl);
     bootloader_props fl := Efr32.locate_bl_sl_app_properties sl fl (bl_base_addr lay) (bl_slot_size lay) |}.
Definition stm32_trust {F} `{FlashMem F, CertLayout} (lay : boot_layout) : FwTrust F :=
  {| running_props p fl := Stm32.locate_app_properties lay fl (current_slot_addr p) (app_slot_size p);
     bootloader_props fl := Stm32.locate_app_properties lay fl (bl_base_addr lay) (bl_slot_size lay) |}.

(** An accepted application is newer than the running image, and its slot
    verifies under the certificate of the bootloader with the signature that
    was passed; a bootloader update changes nothing but the bootloader. *)
Class FwVerifyLaws (F : Type) `{FlashMem F, CertLayout, SecureBoot F, FwVerify F, FwTrust F}
    (chipid : list Z) (lay : boot_layout) := {
  law_verify_app_total priv fl off sig : 0 ≤ target_slot_addr priv →
    ∃ st, fwup_verify_new_app priv fl off sig = Done st;
  law_verify_app_sound priv fl off sig :
    fwup_verify_new_app priv fl off sig = Done FWUP_VERIFY_SUCCESS →
    off ≤ u32 (app_slot_size priv - sizeof_app_properties)
    ∧ (∃ cur, running_props priv fl = Done (Some cur)
        ∧ props_version fl cur < props_version fl (target_slot_addr priv + off))
    ∧ ∃ bl, bootloader_props fl = Done (Some bl)
        ∧ bl_verify_app_slot chipid lay fl (props_cert fl bl) (target_slot_addr priv + off)
            (target_slot_addr priv) (u32 (app_slot_size priv - ECC_SIG_SIZE)) sig = Done true;
  law_verify_bl_total priv fl : 0 ≤ target_slot_addr priv →
    ∃ r, fwup_verify_new_bootloader priv fl = Done r;
  law_verify_bl_frame priv fl st fl' : fwup_verify_new_bootloader priv fl = Done (st, fl') →
    within (bl_base_addr lay) (bl_base_addr lay + bl_slot_size lay) fl fl';
}.

Lemma locate_magic_total {F} `{FlashMem F, CertLayout} sl fuel : ∀ (fl : F) addr last,
  (0 < fuel)%nat → last - addr < 4 * Z.of_nat fuel - 3 →
  ∃ r, Efr32.locate_magic_loop sl fuel fl addr last = Done r.
Proof.
  induction fuel as [|fuel IH]; intros fl addr last Hpos Hf; [lia|]. cbn [Efr32.locate_magic_loop].
  destruct (addr <? last) eqn:E; [|eauto]. case_match; [eauto|]. btest. apply IH; lia.
Qed.

Lemma locate_bl_total {F} `{FlashMem F, CertLayout} sl (fl : F) base size :
  0 ≤ base → 0 ≤ size → ∃ r, Efr32.locate_bl_sl_app_properties sl fl base size = Done r.
Proof.
  intros. apply locate_magic_total; [lia|]. unfold u32.
  pose proof (Z.mod_le (base + size) 4294967296). lia.
Qed.

Lemma locate_props_total {F} `{FlashMem F, CertLayout} lay fuel : ∀ (fl : F) base off last,
  (0 < fuel)%nat → last - off < 4 * Z.of_nat fuel - 4 →
  ∃ r, Stm32.locate_props_loop lay fuel fl base off last = Done r.
Proof.
  induction fuel as [|fuel IH]; intros fl base off last Hpos Hf; [lia|]. cbn [Stm32.locate_props_loop].
  destruct (off <=? last) eqn:E; [|eauto]. case_match; [eauto|]. btest. apply IH; lia.
Qed.

Lemma locate_app_total {F} `{FlashMem F, CertLayout, !CertLayoutLaws} lay (fl : F) base size :
  ∃ r, Stm32.locate_app_properties lay fl base size = Done r.
Proof.
  unfold Stm32.locate_app_properties. pose proof law_props_pos.
  destruct (base =? 0); [cbn [orb]; eauto|]. destruct (size <? sizeof_app_properties) eqn:E; [cbn [orb]; eauto|].
  cbn [orb]. btest. apply locate_props_total; lia.
Qed.

Section Laws.
Context {F : Type} `{FlashMem F, CertLayout, BootCrypto, SecureBoot F}.
Context `{!FlashMemLaws F, !CertLayoutLaws, !SecureBootLaws F}.
Variable chipid : list Z.
Variable lay : boot_layout.
Hypothesis chipid_len : zlen chipid ≤ 16.
Hypothesis area : bl_area_wf lay.

(** The bootloader update, once its checks have passed, writes its area. *)
Lemma check_new_bootloader_total sl sbv priv (fl : F) : 0 ≤ target_slot_addr priv →
  ∃ r, Efr32.check_new_bootloader lay sl sbv priv fl = Done r.
Proof.
  intros Ht. unfold Efr32.check_new_bootloader. case_match; [eauto|].
  destruct (locate_bl_total sl fl (bl_base_addr lay) (bl_slot_size lay)) as [[c|] ->];
    [apply area|apply area| |cbn [obind]; eauto]. cbn [obind].
  destruct (locate_bl_total sl fl (target_slot_addr priv) (bl_slot_size lay)) as [[c'|] ->];
    [done|apply area| |cbn [obind]; eauto]. cbn [obind].
  repeat (case_match; [eauto|]). eauto.
Qed.

Lemma new_bootloader_total sl bsig sbv priv (fl : F) : 0 ≤ target_slot_addr priv →
  ∃ r, Efr32.fwup_verify_new_bootloader_efr32 lay sl bsig sbv priv fl = Done r.
Proof.
  intros Ht. unfold Efr32.fwup_verify_new_bootloader_efr32.
  destruct (check_new_bootloader_total sl sbv priv fl Ht) as [[st|p] ->]; cbn [obind]; [by eauto|].
  destruct (fwup_flash_erase_bl fl _ _) as [[] fl1]; cbn [negb]; [|by eauto].
  destruct (fwup_flash_write fl1 _ _) as [[] fl2]; cbn [negb]; [|by eauto]. case_match; by eauto.
Qed.

Lemma new_bootloader_frame sl bsig sbv priv (fl fl' : F) st :
  Efr32.fwup_verify_new_bootloader_efr32 lay sl bsig sbv priv fl = Done (st, fl') →
  within (bl_base_addr lay) (bl_base_addr lay + bl_slot_size lay) fl fl'.
Proof.
  destruct area as [Hb Hs Hb0 Hs0 He]. unfold UINT32_MAX in He.
  unfold Efr32.fwup_verify_new_bootloader_efr32, fwup_flash_erase_bl.
  intros ([st1|p] & _ & E)%obind_inv; [by injection E as <- <-|].
  destruct (fwup_flash_erase fl _ _) as [ok fl1] eqn:E1.
  apply flash_erase_spec in E1 as [Hw1 _]; [|done|done|done|done|lia].
  destruct ok; cbn [negb] in E; [|by injection E as <- <-].
  destruct (fwup_flash_write fl1 _ _) as [ok fl2] eqn:E2. apply write_within in E2 as Hw2.
  rewrite zlen_mem_bytes in Hw2 by done.
  assert (fl' = fl2) as ->; [|by transitivity fl1].
  destruct ok; cbn [negb] in E; [|by injection E as <- <-]. case_match; by injection E as <- <-.
Qed.

Lemma efr32_verifier_laws sl bsig sbv :
  @FwVerifyLaws F _ _ _ (Efr32.efr32_verifier chipid lay sl bsig sbv) (efr32_trust lay sl) chipid lay.
Proof.
  split; cbn [fwup_verify_new_app fwup_verify_new_bootloader Efr32.efr32_verifier].
  - intros priv fl off sig Ht. unfold Efr32.fwup_verify_new_app_efr32. case_match; [eauto|].
    case_match; [eauto|].
    destruct (locate_bl_total sl fl (bl_base_addr lay) (bl_slot_size lay)) as [[c|] ->];
      [apply area|apply area| |cbn [obind]; eauto]. cbn [obind].
    edestruct (verify_app_slot_total chipid lay fl) as [ok ->]; [done|]. cbn [obind]. case_match; eauto.
  - intros priv fl off sig. unfold Efr32.fwup_verify_new_app_efr32.
    destruct (_ <? off) eqn:Eo; [done|].
    destruct (props_version fl _ <=? _) eqn:Ev; [done|]. intros (bl & Hbl & E)%obind_inv.
    destruct bl as [bp|]; [|done]. apply obind_inv in E as (ok & Eok & E). destruct ok; [|done].
    btest. split_and!; [lia|by exists sl|by exists bp].
  - intros priv fl Ht. by apply new_bootloader_total.
  - intros priv fl st fl'. apply new_bootloader_frame.
Qed.

Lemma stm32_verifier_laws : @FwVerifyLaws F _ _ _ (Stm32.stm32_verifier chipid lay) (stm32_trust lay) chipid lay.
Proof.
  split; cbn [fwup_verify_new_app fwup_verify_new_bootloader Stm32.stm32_verifier].
  - intros priv fl off sig Ht. unfold Stm32.fwup_verify_new_app_stm32. case_match; [eauto|].
    case_match; [eauto|]. case_match; [eauto|].
    destruct (locate_app_total lay fl (current_slot_addr priv) (app_slot_size priv)) as [[c|] ->];
      cbn [obind]; [|eauto]. case_match; [eauto|].
    destruct (locate_app_total lay fl (bl_base_addr lay) (bl_slot_size lay)) as [[b|] ->];
      cbn [obind]; [|eauto]. unfold Stm32.verify_app_signature. case_match; [eauto|].
    edestruct (verify_app_slot_total chipid lay fl) as [ok ->]; [done|]. cbn [obind]. case_match; eauto.
  - intros priv fl off sig. unfold Stm32.fwup_verify_new_app_stm32. case_match; [done|].
    destruct (_ <? off) eqn:Eo; [done|]. case_match; [done|].
    intros ([cur|] & Hcur & E)%obind_inv; [|done].
    destruct (props_version fl _ <=? _) eqn:Ev; [done|]. apply obind_inv in E as ([bp|] & Hbp & E); [|done].
    unfold Stm32.verify_app_signature in E. case_match; [done|].
    apply obind_inv in E as (ok & Eok & E). destruct ok; [|done]. 
    apply Z.ltb_ge in Eo. apply Z.leb_gt in Ev. split_and!; [lia|by exists cur|by exists bp].
  - intros priv fl Ht. unfold Stm32.fwup_verify_new_bootloader_stm32. eauto.
  - intros priv fl st fl' [= _ <-]. done.
Qed.
End Laws.
