(* ===== verification/FwDelta.v ===== *)
(** * Delta updates (lib/fwup/src/fwup_delta.c)

    A delta update stores a signed patch in a file, verifies it, and has the
    patch library (detools, a submodule) rebuild the new image from the running
    one. The library works through three callbacks of this file: it reads the
    running image, seeks in it, and writes the new image. The library is the
    class [Detools], whose calls are programs [dtio] over the three callbacks,
    so the theorems hold for everything the library may do with them. Inline
    mode is compiled out in the source, as it is here. *)

From S2P Require Import Prelude Sha256 FwFlash Fs Metadata FwVerify.
#[local] Open Scope Z_scope.
#[local] Open Scope list_scope.

Definition FWUP_MODE_NORMAL : Z := 0.
Definition FWUP_MODE_DELTA_INLINE : Z := 1.
Definition FWUP_MODE_DELTA_ONESHOT : Z := 2.

Definition FWUP_DELTA_PATCH_SIGNATURE_SIZE : Z := 64.
Definition FWUP_DELTA_PATCH_IO_BUFFER_SIZE : Z := 512.
Definition PATCH_PATH : string := "patch.bin".
Definition FWUP_DELTA_MIN_PATCH_SIZE : Z := FWUP_DELTA_PATCH_SIGNATURE_SIZE + 1.
(** 'B' 'K' 'F' 'W' *)
Definition fwup_delta_header_magic : list Z := [0x42; 0x4B; 0x46; 0x57].
Definition FWUP_DELTA_HEADER_MAGIC_SIZE : Z := 4.
Definition FWUP_DELTA_HEADER_VERSION_1 : Z := 1.
Definition FWUP_DELTA_HEADER_V1_SIZE : Z := 9.

(** [fwpb_fwup_transfer_cmd]. *)
Record transfer_cmd := mk_transfer {
  tx_sequence_id : Z;
  tx_data : list Z;
  tx_offset : Z;
  tx_mode : Z;
  tx_mcu_role : Z;
}.

(** What a call of the patch library does: it reads, seeks and writes through
    the callbacks and goes on with what they return. *)
Inductive dtio (R : Type) : Type :=
| dt_ret (r : R)
| dt_read (size : Z) (k : Z → list Z → dtio R)
| dt_seek (offset : Z) (k : Z → dtio R)
| dt_write (buf : list Z) (k : Z → dtio R).
Arguments dt_ret {R} r.
Arguments dt_read {R} size k.
Arguments dt_seek {R} offset k.
Arguments dt_write {R} buf k.

Class Detools (D : Type) := {
  detools_zero : D;
  detools_apply_patch_init : D → Z → Z * D;
  detools_apply_patch_process : D → list Z → dtio (Z * D);
  detools_apply_patch_finalize : D → dtio (Z * D);
}.

(** The streaming hash and the signature check of lib/crypto. *)
Class PatchCrypto (C : Type) := {
  patch_sha256 :: Sha256 C;
  patch_verify_hash : list Z → list Z → list Z → bool;
}.

Record delta_state_t := mk_delta {
  remaining_patch_size : Z;
  active_slot_base_addr : Z;
  slot_size : Z;
  active_slot_offset_pointer : Z;
  target_slot_base_addr : Z;
  target_slot_offset_pointer : Z;
  delta_initialized : bool;
  file_opened : bool;
  write_buffer : list Z;
  write_buffer_fill : Z;
  header_size : Z;
}.

Record delta_cfg := mk_cfg {
  cfg_mode : Z;
  cfg_patch_size : Z;
  cfg_active_slot_base_addr : Z;
  cfg_slot_size : Z;
  cfg_target_slot_base_addr : Z;
}.

Definition set_active (d : delta_state_t) (off : Z) : delta_state_t :=
  mk_delta (remaining_patch_size d) (active_slot_base_addr d) (slot_size d) off
    (target_slot_base_addr d) (target_slot_offset_pointer d) (delta_initialized d) (file_opened d)
    (write_buffer d) (write_buffer_fill d) (header_size d).

Definition set_target (d : delta_state_t) (off : Z) (wb : list Z) (fill : Z) : delta_state_t :=
  mk_delta (remaining_patch_size d) (active_slot_base_addr d) (slot_size d)
    (active_slot_offset_pointer d) (target_slot_base_addr d) off (delta_initialized d) (file_opened d)
    wb fill (header_size d).

Definition set_file_opened (d : delta_state_t) (o : bool) : delta_state_t :=
  mk_delta (remaining_patch_size d) (active_slot_base_addr d) (slot_size d)
    (active_slot_offset_pointer d) (target_slot_base_addr d) (target_slot_offset_pointer d)
    (delta_initialized d) o (write_buffer d) (write_buffer_fill d) (header_size d).

Definition set_header (d : delta_state_t) (n : Z) (init : bool) : delta_state_t :=
  mk_delta (remaining_patch_size d) (active_slot_base_addr d) (slot_size d)
    (active_slot_offset_pointer d) (target_slot_base_addr d) (target_slot_offset_pointer d)
    init (file_opened d) (write_buffer d) (write_buffer_fill d) n.

(** ** Ranges *)

Definition fwup_delta_slot_range_valid (slot_size offset size : Z) : bool :=
  (offset <=? slot_size) && (size <=? slot_size - offset).

(** The new offset, [None] where the call returns false. [offset] is an [int],
    widened before it is negated. *)
Definition fwup_delta_slot_seek (slot_size current_offset offset : Z) : option Z :=
  if slot_size <? current_offset then None
  else if offset <? 0 then
    let backward := u32 (- offset) in
    if current_offset <? backward then None else Some (current_offset - backward)
  else
    let forward := u32 offset in
    if slot_size - current_offset <? forward then None else Some (current_offset + forward).

Definition target_slot_logical_offset (d : delta_state_t) : option Z :=
  if fwup_delta_slot_range_valid (slot_size d) (target_slot_offset_pointer d) (write_buffer_fill d)
  then Some (target_slot_offset_pointer d + write_buffer_fill d) else None.

Section Delta.
Context {F L D C : Type} `{FlashMem F} `{Platform} `{Littlefs L} `{Detools D} `{PatchCrypto C}.
(** [fwup_slot_size()] of the linker, the limit of the platform on patches,
    and the key of the security configuration. *)
Variables fwup_slot_size FWUP_DELTA_MAX_PATCH_SIZE : Z.
Variable fwup_delta_patch_pubkey : list Z.

Record dworld := mk_dw {
  ds : delta_state_t;
  dflash : F;
  dfs : fs_ctx L;
  apply_patch : D;
}.

Definition put_ds (w : dworld) (d : delta_state_t) : dworld := mk_dw d (dflash w) (dfs w) (apply_patch w).
Definition put_fs (w : dworld) (s : fs_ctx L) : dworld := mk_dw (ds w) (dflash w) s (apply_patch w).
Definition put_dt (w : dworld) (p : D) : dworld := mk_dw (ds w) (dflash w) (dfs w) p.
Definition put_flash (w : dworld) (fl : F) : dworld := mk_dw (ds w) fl (dfs w) (apply_patch w).

(** ** The callbacks *)

Definition close (w : dworld) : bool * dworld :=
  let '(r, s) := fs_close (dfs w) fwup_file_handle in
  if negb (r =? 0) then (false, put_fs w s)
  else (true, put_ds (put_fs w s) (set_file_opened (ds w) false)).

(** The status and the bytes copied to the caller's buffer. *)
Definition from_read (w : dworld) (size : Z) : Z * list Z * dworld :=
  let d := ds w in
  if negb (fwup_delta_slot_range_valid (slot_size d) (active_slot_offset_pointer d) size)
  then (-1, [], w)
  else
    let bytes := mem_bytes (dflash w) (u32 (active_slot_base_addr d + active_slot_offset_pointer d)) size in
    (0, bytes, put_ds w (set_active d (active_slot_offset_pointer d + size))).

Definition from_seek (w : dworld) (offset : Z) : Z * dworld :=
  match fwup_delta_slot_seek (slot_size (ds w)) (active_slot_offset_pointer (ds w)) offset with
  | None => (-1, w)
  | Some next_offset => (0, put_ds w (set_active (ds w) next_offset))
  end.

(** Fill the pending block and program it once it is full: [inl] returns from
    the callback, [inr] goes on with the rest of the input. *)
Definition fill_pending (w : dworld) (src : list Z) : outcome ((Z + list Z) * dworld) :=
  let d := ds w in
  if 0 <? write_buffer_fill d then
    let space_in_buffer := MCU_FLASH_WRITE_ALIGNMENT - write_buffer_fill d in
    let to_copy := if zlen src <? space_in_buffer then zlen src else space_in_buffer in
    let! part := mread src 0 to_copy in
    let! wb := mwrite (write_buffer d) (write_buffer_fill d) part in
    let d := set_target d (target_slot_offset_pointer d) wb (write_buffer_fill d + to_copy) in
    let src := zdrop to_copy src in
    if write_buffer_fill d =? MCU_FLASH_WRITE_ALIGNMENT then
      let flash_addr := u32 (target_slot_base_addr d + target_slot_offset_pointer d) in
      let! block := mread wb 0 MCU_FLASH_WRITE_ALIGNMENT in
      let '(ok, fl) := fwup_flash_write (dflash w) flash_addr block in
      let w := put_flash (put_ds w d) fl in
      if negb ok then Done (inl (-1), w)
      else Done (inr src, put_ds w (set_target d (target_slot_offset_pointer d
                                      + MCU_FLASH_WRITE_ALIGNMENT) wb 0))
    else Done (inl 0, put_ds w d)
  else Done (inr src, w).

(** Program the full blocks of the input and keep the tail. *)
Definition write_blocks (w : dworld) (src : list Z) : outcome (Z * dworld) :=
  let! '(r, src, w) :=
    (if MCU_FLASH_WRITE_ALIGNMENT <=? zlen src then
       let d := ds w in
       let aligned_len := zlen src - zlen src mod MCU_FLASH_WRITE_ALIGNMENT in
       let flash_addr := u32 (target_slot_base_addr d + target_slot_offset_pointer d) in
       let! blocks := mread src 0 aligned_len in
       let '(ok, fl) := fwup_flash_write (dflash w) flash_addr blocks in
       let w := put_flash w fl in
       if negb ok then Done (-1, src, w)
       else Done (0, zdrop aligned_len src,
                  put_ds w (set_target d (target_slot_offset_pointer d + aligned_len)
                              (write_buffer d) (write_buffer_fill d)))
     else Done (0, src, w)) in
  if negb (r =? 0) then Done (r, w)
  else if 0 <? zlen src then
    let d := ds w in
    let! wb := mwrite (write_buffer d) 0 src in
    Done (0, put_ds w (set_target d (target_slot_offset_pointer d) wb (zlen src)))
  else Done (0, w).

Definition to_write (w : dworld) (buf_p : list Z) : outcome (Z * dworld) :=
  match target_slot_logical_offset (ds w) with
  | None => Done (-1, w)
  | Some logical_offset =>
      if negb (fwup_delta_slot_range_valid (slot_size (ds w)) logical_offset (zlen buf_p))
      then Done (-1, w)
      else
        let! '(r, w) := fill_pending w buf_p in
        match r with
        | inl ret => Done (ret, w)
        | inr src => write_blocks w src
        end
  end.

Definition flush_write_buffer (w : dworld) : outcome (bool * dworld) :=
  let d := ds w in
  if write_buffer_fill d =? 0 then Done (true, w)
  else if negb (fwup_delta_slot_range_valid (slot_size d) (target_slot_offset_pointer d)
                  MCU_FLASH_WRITE_ALIGNMENT) then Done (false, w)
  else
    let! wb := mwrite (write_buffer d) (write_buffer_fill d)
                 (replicate (Z.to_nat (MCU_FLASH_WRITE_ALIGNMENT - write_buffer_fill d)) 0xFF) in
    let flash_addr := u32 (target_slot_base_addr d + target_slot_offset_pointer d) in
    let! block := mread wb 0 MCU_FLASH_WRITE_ALIGNMENT in
    let '(ok, fl) := fwup_flash_write (dflash w) flash_addr block in
    let w := put_flash (put_ds w (set_target d (target_slot_offset_pointer d) wb (write_buffer_fill d))) fl in
    if negb ok then Done (false, w)
    else Done (true, put_ds w (set_target d (target_slot_offset_pointer d + MCU_FLASH_WRITE_ALIGNMENT)
                                 wb 0)).

(** Run a call of the library on the callbacks; their arguments have the C
    types [size_t] and [int]. *)
Fixpoint run_dt {R} (p : dtio R) (w : dworld) : outcome (R * dworld) :=
  match p with
  | dt_ret r => Done (r, w)
  | dt_read size k => let '(ret, bytes, w) := from_read w (u32 size) in run_dt (k ret bytes) w
  | dt_seek offset k => let '(ret, w) := from_seek w (i32 offset) in run_dt (k ret) w
  | dt_write buf k => let! '(ret, w) := to_write w buf in run_dt (k ret) w
  end.

(** ** The patch file *)

Definition fwup_delta_open (w : dworld) : bool * dworld :=
  let w := if file_opened (ds w) then (close w).2 else w in
  let '(removed, w) :=
    if fs_file_exists (dfs w) PATCH_PATH
    then let '(r, s) := fs_remove (dfs w) PATCH_PATH in (r =? 0, put_fs w s)
    else (true, w) in
  if negb removed then (false, w)
  else
    let '(r, s) := fs_open (dfs w) fwup_file_handle PATCH_PATH (Z.lor FS_O_RDWR FS_O_CREAT) in
    (negb (r <? 0), put_fs w s).

Definition fwup_delta_write_patch (w : dworld) (cmd : transfer_cmd) : outcome (bool * dworld) :=
  let max_chunk_size := fwup_flash_get_max_chunk_size in
  let! _ := ASSERT (negb (max_chunk_size =? 0)) in
  if (UINT32_MAX - tx_offset cmd) / max_chunk_size <? tx_sequence_id cmd then
    Done (false, (close w).2)
  else
    let write_address_offset := tx_sequence_id cmd * max_chunk_size + tx_offset cmd in
    if max_chunk_size <? zlen (tx_data cmd) then Done (false, (close w).2)
    else
      let '(r, s) := fs_file_seek (dfs w) fwup_file_handle (i32 write_address_offset) FS_SEEK_SET in
      let w := put_fs w s in
      if r <? 0 then Done (false, (close w).2)
      else
        let '(r, s) := fs_file_write (dfs w) fwup_file_handle (tx_data cmd) in
        let w := put_fs w s in
        if r <? 0 then Done (false, (close w).2) else Done (true, w).

Definition fwup_delta_cleanup_stale_signing_files (w : dworld) : dworld :=
  let s := (fs_remove (dfs w) "signing_payload").2 in
  put_fs w (fs_remove s "signing_sigs").2.

Definition fwup_delta_cleanup_stale_patch (w : dworld) : dworld :=
  if fs_file_exists (dfs w) PATCH_PATH then put_fs w (fs_remove (dfs w) PATCH_PATH).2 else w.

Definition fwup_delta_init (w : dworld) (cfg : delta_cfg) : bool * dworld :=
  let d := ds w in
  let w := put_ds w (mk_delta (cfg_patch_size cfg) (cfg_active_slot_base_addr cfg) (cfg_slot_size cfg) 0
             (cfg_target_slot_base_addr cfg) 0 false (file_opened d) (write_buffer d) 0 (header_size d)) in
  if cfg_slot_size cfg =? 0 then (false, w)
  else if (u32 (UINT32_MAX - cfg_slot_size cfg) <? cfg_active_slot_base_addr cfg)
          || (u32 (UINT32_MAX - cfg_slot_size cfg) <? cfg_target_slot_base_addr cfg) then (false, w)
  else if negb (cfg_target_slot_base_addr cfg mod MCU_FLASH_WRITE_ALIGNMENT =? 0) then (false, w)
  else
    let w := put_dt w detools_zero in
    if (cfg_patch_size cfg <? FWUP_DELTA_MIN_PATCH_SIZE)
       || (FWUP_DELTA_MAX_PATCH_SIZE <? cfg_patch_size cfg) then (false, w)
    else
      let w := fwup_delta_cleanup_stale_signing_files w in
      let '(opened, w) :=
        if cfg_mode cfg =? FWUP_MODE_DELTA_ONESHOT then
          let '(o, w) := fwup_delta_open w in (o, put_ds w (set_file_opened (ds w) o))
        else (true, w) in
      if negb opened then (false, w)
      else
        let '(r, p) := detools_apply_patch_init (apply_patch w) (cfg_patch_size cfg) in
        let w := put_dt w p in
        if negb (r =? 0) then (false, w)
        else (true, put_ds w (set_header (ds w) 0 true)).

Definition fwup_delta_transfer (w : dworld) (cmd : transfer_cmd) : outcome (bool * dworld) :=
  if tx_mode cmd =? FWUP_MODE_DELTA_INLINE then Done (false, w)
  else if tx_mode cmd =? FWUP_MODE_DELTA_ONESHOT then fwup_delta_write_patch w cmd
  else Done (false, w).

(** ** Checks of the patch *)

(** Hash the file up to its signature; [None] on a read or hash error. *)
Fixpoint hash_patch (fuel : nat) (w : dworld) (c : C) (buf_size bytes_read total_bytes : Z)
    : outcome (option C * dworld) :=
  match fuel with
  | O => Nofuel
  | S fuel =>
      if bytes_read <? total_bytes then
        let to_read := Z.min buf_size (total_bytes - bytes_read) in
        let '(read_size, bytes, s) := fs_file_read (dfs w) fwup_file_handle to_read in
        let w := put_fs w s in
        if negb (u32 read_size =? to_read) then Done (None, w)
        else match crypto_sha256_stream_update c bytes with
             | None => Done (None, w)
             | Some c => hash_patch fuel w c buf_size (bytes_read + to_read) total_bytes
             end
      else Done (Some c, w)
  end.

Definition verify_patch (w : dworld) (buf_size patch_size : Z) : outcome (bool * dworld) :=
  let! _ := ASSERT (SHA256_DIGEST_SIZE + FWUP_DELTA_PATCH_SIGNATURE_SIZE <=? buf_size) in
  if patch_size <? FWUP_DELTA_MIN_PATCH_SIZE then Done (false, w)
  else match crypto_sha256_stream_init with
  | None => Done (false, w)
  | Some c =>
      let total_bytes := patch_size - FWUP_DELTA_PATCH_SIGNATURE_SIZE in
      let! '(r, w) := hash_patch (Z.to_nat total_bytes + 1) w c buf_size 0 total_bytes in
      match r with
      | None => Done (false, w)
      | Some c =>
          match crypto_sha256_stream_final c with
          | None => Done (false, w)
          | Some hash =>
              let '(n, sig, s) := fs_file_read (dfs w) fwup_file_handle FWUP_DELTA_PATCH_SIGNATURE_SIZE in
              let w := put_fs w s in
              if negb (n =? FWUP_DELTA_PATCH_SIGNATURE_SIZE) then Done (false, w)
              else Done (patch_verify_hash fwup_delta_patch_pubkey hash sig, w)
          end
      end
  end.

(** A [uint8_t] field of the packed header. *)
Definition hdr_byte (header : list Z) (i : nat) : Z := u8 (default 0 (header !! i)).

(** [fwup_delta_header_v1_t]: magic, version, size, then the three parts of the
    firmware version. *)
Definition fwup_delta_check_header_from_buf (buf : list Z) (expected_version : option fwpb_semver)
    (require_header : bool) : fwup_verify_status_t :=
  if zlen buf <? FWUP_DELTA_HEADER_V1_SIZE then FWUP_VERIFY_ERROR
  else if negb (bool_decide (ztake FWUP_DELTA_HEADER_MAGIC_SIZE buf = fwup_delta_header_magic)) then
    if require_header then FWUP_VERIFY_MISSING_HEADER else FWUP_VERIFY_SUCCESS
  else if (hdr_byte buf 4 <? FWUP_DELTA_HEADER_VERSION_1)
          || (hdr_byte buf 5 <? FWUP_DELTA_HEADER_V1_SIZE) then FWUP_VERIFY_ERROR
  else match expected_version with
       | Some v =>
           if (UINT8_MAX <? sv_major v) || (UINT8_MAX <? sv_minor v) || (UINT8_MAX <? sv_patch v)
              || negb (hdr_byte buf 6 =? sv_major v) || negb (hdr_byte buf 7 =? sv_minor v)
              || negb (hdr_byte buf 8 =? sv_patch v)
           then FWUP_VERIFY_CONFIRMATION_MISMATCH else FWUP_VERIFY_SUCCESS
       | None => FWUP_VERIFY_SUCCESS
       end.

Definition fwup_delta_check_header (w : dworld) (expected_version : option fwpb_semver)
    (require_header : bool) : fwup_verify_status_t * dworld :=
  if negb (file_opened (ds w)) then (FWUP_VERIFY_ERROR, w)
  else
    let '(r, s) := fs_file_seek (dfs w) fwup_file_handle 0 FS_SEEK_SET in
    let w := put_fs w s in
    if r <? 0 then (FWUP_VERIFY_ERROR, w)
    else
      let '(n, header, s) := fs_file_read (dfs w) fwup_file_handle FWUP_DELTA_HEADER_V1_SIZE in
      let w := put_fs w s in
      if negb (n =? FWUP_DELTA_HEADER_V1_SIZE) then (FWUP_VERIFY_ERROR, w)
      else
        let result := fwup_delta_check_header_from_buf header expected_version require_header in
        if bool_decide (ztake FWUP_DELTA_HEADER_MAGIC_SIZE header = fwup_delta_header_magic) then
          let file_size := fs_file_size (dfs w) fwup_file_handle in
          if (file_size <=? FWUP_DELTA_PATCH_SIGNATURE_SIZE)
             || (u32 (file_size - FWUP_DELTA_PATCH_SIGNATURE_SIZE) <=? hdr_byte header 5)
          then (FWUP_VERIFY_ERROR, w)
          else (result, put_ds w (set_header (ds w) (hdr_byte header 5) (delta_initialized (ds w))))
        else (result, w).

(** ** Applying the patch *)

(** Feed the patch to the library: [true] goes on to the finalisation, [false]
    is a read error. *)
Fixpoint feed_patch (fuel : nat) (w : dworld) (buf_size bytes_read total_bytes : Z)
    : outcome (bool * dworld) :=
  match fuel with
  | O => Nofuel
  | S fuel =>
      if bytes_read <? total_bytes then
        let to_read := Z.min buf_size (total_bytes - bytes_read) in
        let '(read_size, bytes, s) := fs_file_read (dfs w) fwup_file_handle to_read in
        let w := put_fs w s in
        if negb (u32 read_size =? to_read) then Done (false, w)
        else
          let! '(r, p, w) :=
            (let! '(rp, w) := run_dt (detools_apply_patch_process (apply_patch w) bytes) w in
             Done (rp.1, rp.2, w)) in
          let w := put_dt w p in
          if negb (r =? 0) then Done (true, w)
          else feed_patch fuel w buf_size (bytes_read + to_read) total_bytes
      else Done (true, w)
  end.

(** The second pass over the file, after its verification. *)
Definition apply_verified_patch (w : dworld) (buf_size patch_size : Z) : outcome (bool * dworld) :=
  let '(ok, fl) := fwup_flash_erase_app fwup_slot_size (dflash w) (target_slot_base_addr (ds w)) in
  let w := put_flash w fl in
  if negb ok then Done (false, w)
  else if patch_size <=? FWUP_DELTA_PATCH_SIGNATURE_SIZE + header_size (ds w) then Done (false, w)
  else
    let '(r, s) := fs_file_seek (dfs w) fwup_file_handle (header_size (ds w)) FS_SEEK_SET in
    let w := put_fs w s in
    if r <? 0 then Done (false, w)
    else
      let detools_patch_size := patch_size - FWUP_DELTA_PATCH_SIGNATURE_SIZE - header_size (ds w) in
      let '(r, p) := detools_apply_patch_init (apply_patch w) detools_patch_size in
      let w := put_dt w p in
      if negb (r =? 0) then Done (false, w)
      else
        let! '(go, w) := feed_patch (Z.to_nat detools_patch_size + 1) w buf_size 0 detools_patch_size in
        if negb go then Done (false, w)
        else
          let! '(rp, w) := run_dt (detools_apply_patch_finalize (apply_patch w)) w in
          let w := put_dt w rp.2 in
          if rp.1 <? 0 then Done (false, w) else flush_write_buffer w.

Definition apply_patch_body (w : dworld) : outcome (bool * dworld) :=
  let buf_size := FWUP_DELTA_PATCH_IO_BUFFER_SIZE in
  let '(opened, w) :=
    if negb (file_opened (ds w)) then
      let '(r, s) := fs_open (dfs w) fwup_file_handle PATCH_PATH FS_O_RDWR in
      if r <? 0 then (false, put_fs w s)
      else (true, put_ds (put_fs w s) (set_file_opened (ds w) true))
    else (true, w) in
  if negb opened then Done (false, w)
  else
    let '(r, s) := fs_file_seek (dfs w) fwup_file_handle 0 FS_SEEK_SET in
    let w := put_fs w s in
    if r <? 0 then Done (false, w)
    else
      let size_or_err := fs_file_size (dfs w) fwup_file_handle in
      if size_or_err <? 0 then Done (false, w)
      else
        let! '(patch_verified, w) := verify_patch w buf_size size_or_err in
        if negb patch_verified then Done (false, w)
        else apply_verified_patch w buf_size size_or_err.

Definition apply_patch_from_file (w : dworld) : outcome (bool * dworld) :=
  let! '(result, w) := apply_patch_body w in
  let w := if file_opened (ds w) then (close w).2 else w in
  Done (result, fwup_delta_cleanup_stale_patch w).

Definition fwup_delta_finish (w : dworld) (mode : Z) : outcome (bool * dworld) :=
  if negb (delta_initialized (ds w)) then Done (false, w)
  else if mode =? FWUP_MODE_DELTA_INLINE then Done (false, w)
  else if mode =? FWUP_MODE_DELTA_ONESHOT then apply_patch_from_file w
  else Done (false, w).
End Delta.
Arguments dworld : clear implicits.
