(* ===== verification/FwWriter.v ===== *)
(** * The callbacks of a delta update stay in their slots

    Lemmas and theorems about fwup_delta.c: whatever the patch library does,
    its writes stay in the target slot and its reads in the active slot; the
    buffering of partial flash blocks writes the same image as a plain append;
    and a patch without a valid signature changes nothing. *)

From S2P Require Import Prelude FwFlash Fs Metadata FwVerify FwDelta.
#[local] Open Scope Z_scope.
#[local] Open Scope list_scope.

Section Writer.
Context {F L D : Type} `{FlashMem F} `{Platform} `{Littlefs L} `{!FlashMemLaws F}.
Implicit Types (w : dworld F L D) (d : delta_state_t).

Abbreviation A := MCU_FLASH_WRITE_ALIGNMENT.
Abbreviation off d := (target_slot_offset_pointer d).
Abbreviation fill d := (write_buffer_fill d).
Abbreviation tb d := (target_slot_base_addr d).

(** The invariant of the delta state: what [fwup_delta_init] establishes. *)
Record dwf d : Prop := {
  wf_slot : 0 ≤ slot_size d;
  wf_active_base : 0 ≤ active_slot_base_addr d;
  wf_active_end : active_slot_base_addr d + slot_size d ≤ UINT32_MAX;
  wf_active : 0 ≤ active_slot_offset_pointer d ≤ slot_size d;
  wf_base : 0 ≤ tb d;
  wf_base_end : tb d + slot_size d ≤ UINT32_MAX;
  wf_off : 0 ≤ off d;
  wf_buffer : zlen (write_buffer d) = A;
  wf_fill : 0 ≤ fill d ≤ A;
}.

(** A step of the callbacks: the slots, the file and the library's state stay,
    the flash changes within the target slot. *)
Record confined w w' : Prop := {
  cf_base : tb (ds w') = tb (ds w);
  cf_size : slot_size (ds w') = slot_size (ds w);
  cf_active : active_slot_base_addr (ds w') = active_slot_base_addr (ds w);
  cf_opened : file_opened (ds w') = file_opened (ds w);
  cf_header : header_size (ds w') = header_size (ds w);
  cf_init : delta_initialized (ds w') = delta_initialized (ds w);
  cf_fs : dfs w' = dfs w;
  cf_dt : apply_patch w' = apply_patch w;
  cf_flash : within (tb (ds w)) (tb (ds w) + slot_size (ds w)) (dflash w) (dflash w');
}.

#[global] Instance confined_preorder : PreOrder confined.
Proof.
  split.
  - intros w. by split.
  - intros w1 w2 w3 [Hb Hs ? ? ? ? ? ? Hw] [? ? ? ? ? ? ? ? Hw']. rewrite Hb, Hs in Hw'.
    split; try congruence. by transitivity (dflash w2).
Qed.

Lemma confined_refl w : confined w w.
Proof. reflexivity. Qed.
#[local] Hint Resolve confined_refl : core.

Lemma range_valid_spec n o s : fwup_delta_slot_range_valid n o s = true ↔ o ≤ n ∧ o + s ≤ n.
Proof. unfold fwup_delta_slot_range_valid. rewrite andb_true_iff, !Z.leb_le. lia. Qed.

Lemma logical_offset_spec d o : target_slot_logical_offset d = Some o →
  o = off d + fill d ∧ off d ≤ slot_size d ∧ off d + fill d ≤ slot_size d.
Proof.
  unfold target_slot_logical_offset. destruct (fwup_delta_slot_range_valid _ _ _) eqn:E; [|done].
  apply range_valid_spec in E. intros [= <-]. lia.
Qed.

(** A flash write of [bs] at the offset of the writer. *)
Lemma write_at_offset w bs ok fl : dwf (ds w) →
  off (ds w) + zlen bs ≤ slot_size (ds w) →
  fwup_flash_write (dflash w) (u32 (tb (ds w) + off (ds w))) bs = (ok, fl) →
  u32 (tb (ds w) + off (ds w)) = tb (ds w) + off (ds w)
  ∧ within (tb (ds w) + off (ds w)) (tb (ds w) + off (ds w) + zlen bs) (dflash w) fl
  ∧ within (tb (ds w)) (tb (ds w) + slot_size (ds w)) (dflash w) fl.
Proof.
  intros [] Hend E. pose proof (zlen_nonneg bs). unfold UINT32_MAX in *.
  rewrite u32_small in * by lia. apply write_within in E. split_and!; [done|done|].
  eapply within_mono; [exact E|lia|lia].
Qed.

(** ** The callbacks without their array accesses *)

Definition put_target w (o : Z) (wb : list Z) (n : Z) : dworld F L D :=
  put_ds w (set_target (ds w) o wb n).

(** Program a block at the writer's offset. *)
Definition program w (block : list Z) : bool * F :=
  fwup_flash_write (dflash w) (u32 (tb (ds w) + off (ds w))) block.

Lemma mread_prefix {T} (l : list T) n : 0 ≤ n ≤ zlen l → mread l 0 n = Done (ztake n l).
Proof.
  intros. unfold mread. zdecide. cbn [andb]. by rewrite zdrop_0.
Qed.

Lemma mwrite_at {T} (l x : list T) n : 0 ≤ n → n + zlen x ≤ zlen l →
  mwrite l n x = Done (ztake n l ++ x ++ zdrop (n + zlen x) l).
Proof. intros. unfold mwrite. by zdecide. Qed.

Lemma fill_set d o wb n : fill (set_target d o wb n) = n.
Proof. done. Qed.

Lemma fill_pending_eq w src : dwf (ds w) →
  fill_pending w src =
  let d := ds w in
  if fill d =? 0 then Done (inr src, w)
  else if zlen src <? A - fill d then
    Done (inl 0, put_target w (off d)
                   (ztake (fill d) (write_buffer d) ++ src ++ zdrop (fill d + zlen src) (write_buffer d))
                   (fill d + zlen src))
  else
    let block := ztake (fill d) (write_buffer d) ++ ztake (A - fill d) src in
    let '(ok, fl) := program w block in
    let w1 := put_flash (put_target w (off d) block A) fl in
    if negb ok then Done (inl (-1), w1)
    else Done (inr (zdrop (A - fill d) src), put_target w1 (off d + A) block 0).
Proof.
  intros [_ _ _ _ _ _ _ Hb Hf]. pose proof alignment_ok. pose proof (zlen_nonneg src).
  unfold fill_pending. cbn zeta. destruct (fill (ds w) =? 0) eqn:E0; btest.
  { by rewrite E0. }
  rewrite (proj2 (Z.ltb_lt 0 (fill (ds w)))) by lia.
  destruct (zlen src <? A - fill (ds w)) eqn:Es; btest.
  - rewrite mread_prefix, ztake_all by lia. cbn [obind]. rewrite mwrite_at by lia. cbn [obind].
    rewrite fill_set, (proj2 (Z.eqb_neq _ A)) by lia. done.
  - rewrite mread_prefix by lia. cbn [obind].
    assert (Hp : zlen (ztake (A - fill (ds w)) src) = A - fill (ds w)) by (apply zlen_ztake; lia).
    rewrite mwrite_at by lia. cbn [obind].
    rewrite Hp, (zdrop_all (write_buffer (ds w))), app_nil_r by lia.
    rewrite fill_set, (proj2 (Z.eqb_eq _ A)) by lia.
    rewrite mread_prefix, ztake_all by (rewrite zlen_app, zlen_ztake; lia). cbn [obind].
    unfold program. cbn [target_slot_base_addr target_slot_offset_pointer set_target].
    destruct (fwup_flash_write _ _ _) as [ok fl]. unfold put_target.
    replace (fill (ds w) + (A - fill (ds w))) with A by lia. by destruct ok.
Qed.

Lemma write_blocks_eq w src : dwf (ds w) →
  write_blocks w src =
  let d := ds w in
  let n := zlen src - zlen src mod A in
  let '(ok, w1) :=
    if A <=? zlen src then
      let '(ok, fl) := program w (ztake n src) in
      (ok, if ok then put_target (put_flash w fl) (off d + n) (write_buffer d) (fill d)
           else put_flash w fl)
    else (true, w) in
  let tail := zdrop n src in
  if negb ok then Done (-1, w1)
  else if 0 <? zlen tail then
    Done (0, put_target w1 (off (ds w1)) (tail ++ zdrop (zlen tail) (write_buffer d)) (zlen tail))
  else Done (0, w1).
Proof.
  intros [_ _ _ _ _ _ _ Hb Hf]. pose proof alignment_ok. pose proof (zlen_nonneg src).
  assert (HA : 0 < A) by apply alignment_ok.
  pose proof (Z.mod_pos_bound (zlen src) A HA). pose proof (Z.mod_le (zlen src) A ltac:(done) HA).
  unfold write_blocks. cbn zeta. destruct (A <=? zlen src) eqn:Ea; btest.
  - rewrite mread_prefix by lia. cbn [obind]. unfold program.
    destruct (fwup_flash_write _ _ _) as [[] fl]; cbn [negb obind Z.eqb]; [|done].
    destruct (0 <? zlen (zdrop _ src)) eqn:Et; [|done].
    unfold put_target, put_flash, put_ds. cbn [ds set_target write_buffer target_slot_offset_pointer].
    rewrite mwrite_at by (rewrite ?zlen_zdrop; lia). cbn [obind]. done.
  - cbn [obind negb Z.eqb]. rewrite Z.mod_small, Z.sub_diag, zdrop_0 by lia.
    destruct (0 <? zlen src) eqn:Et; [|done]. rewrite mwrite_at by lia. cbn [obind]. done.
Qed.

Lemma flush_eq w : dwf (ds w) →
  flush_write_buffer w =
  let d := ds w in
  if fill d =? 0 then Done (true, w)
  else if negb (fwup_delta_slot_range_valid (slot_size d) (off d) A) then Done (false, w)
  else
    let block := ztake (fill d) (write_buffer d) ++ replicate (Z.to_nat (A - fill d)) 0xFF in
    let '(ok, fl) := program w block in
    let w1 := put_flash (put_target w (off d) block (fill d)) fl in
    if negb ok then Done (false, w1) else Done (true, put_target w1 (off d + A) block 0).
Proof.
  intros [_ _ _ _ _ _ _ Hb Hf]. pose proof alignment_ok. unfold flush_write_buffer. cbn zeta.
  destruct (fill (ds w) =? 0) eqn:E0; [done|]. destruct (negb _); [done|].
  assert (Hr : zlen (replicate (Z.to_nat (A - fill (ds w))) 0xFF) = A - fill (ds w))
    by (rewrite zlen_replicate; lia).
  rewrite mwrite_at by lia. cbn [obind].
  rewrite Hr, (zdrop_all (write_buffer (ds w))), app_nil_r by lia.
  rewrite mread_prefix, ztake_all by (rewrite zlen_app, zlen_ztake; lia). cbn [obind].
  unfold program. destruct (fwup_flash_write _ _ _) as [[] fl]; done.
Qed.

(** ** The callbacks are confined *)

Lemma put_target_wf w o wb n : dwf (ds w) → 0 ≤ o → zlen wb = A → 0 ≤ n ≤ A →
  dwf (ds (put_target w o wb n)).
Proof. intros [] ? ? ?. by split. Qed.

Lemma put_target_confined w o wb n : confined w (put_target w o wb n).
Proof. by split. Qed.

Lemma program_confined w block ok fl : dwf (ds w) → off (ds w) + zlen block ≤ slot_size (ds w) →
  program w block = (ok, fl) → confined w (put_flash w fl).
Proof. intros Hwf Hend E. destruct (write_at_offset w block ok fl Hwf Hend E) as (_ & _ & Hw). by split. Qed.

(** [fill_pending] and [write_blocks] return, keep the invariant and stay in
    the slot. *)
Lemma fill_pending_spec w src : dwf (ds w) → off (ds w) + fill (ds w) + zlen src ≤ slot_size (ds w) →
  ∃ r w', fill_pending w src = Done (r, w') ∧ dwf (ds w') ∧ confined w w'
    ∧ match r with
      | inl _ => True
      | inr rest => fill (ds w') = 0 ∧ off (ds w') + zlen rest ≤ slot_size (ds w')
      end.
Proof.
  intros Hwf Hend. pose proof (wf_buffer _ Hwf) as Hb. pose proof (wf_fill _ Hwf) as Hf.
  pose proof (wf_off _ Hwf) as Ho. pose proof (zlen_nonneg src) as Hs.
  assert (HA : 0 < A) by apply alignment_ok.
  rewrite fill_pending_eq by done. cbn zeta. destruct (fill (ds w) =? 0) eqn:E0; btest.
  { exists (inr src), w. split_and!; [done|done|done|done|lia]. }
  destruct (zlen src <? A - fill (ds w)) eqn:Es; btest.
  { eexists (inl _), _. split_and!; [done| |apply put_target_confined|done].
    apply put_target_wf; [done|done| |lia]. rewrite !zlen_app, zlen_ztake, zlen_zdrop; lia. }
  set (block := ztake _ _ ++ ztake _ _).
  assert (Hblock : zlen block = A) by (unfold block; rewrite zlen_app, !zlen_ztake; lia).
  destruct (program w block) as [ok fl] eqn:Ep.
  apply program_confined in Ep as Hc; [|done|lia].
  assert (Hc1 : confined w (put_flash (put_target w (off (ds w)) block A) fl)) by (by destruct Hc; split).
  assert (Hwf1 : dwf (ds (put_flash (put_target w (off (ds w)) block A) fl)))
    by (apply (put_target_wf w); [done|lia|done|lia]).
  destruct ok; cbn [negb]; [eexists (inr _), _|eexists (inl _), _]; (split; [done|]).
  - split_and!; [apply put_target_wf; [done|lia|done|lia]| |done|].
    + etransitivity; [exact Hc1|apply put_target_confined].
    + unfold put_target, put_flash, put_ds.
      cbn [ds set_target target_slot_offset_pointer slot_size]. rewrite zlen_zdrop; lia.
  - by split_and!.
Qed.

Lemma write_blocks_spec w src : dwf (ds w) → off (ds w) + zlen src ≤ slot_size (ds w) →
  ∃ r w', write_blocks w src = Done (r, w') ∧ dwf (ds w') ∧ confined w w'.
Proof.
  intros Hwf Hend. pose proof (wf_buffer _ Hwf) as Hb. pose proof (wf_fill _ Hwf) as Hf.
  pose proof (wf_off _ Hwf) as Ho. pose proof (zlen_nonneg src) as Hs.
  assert (HA : 0 < A) by apply alignment_ok.
  pose proof (Z.mod_pos_bound (zlen src) A HA) as Hm. pose proof (Z.mod_le (zlen src) A Hs HA) as Hm'.
  rewrite write_blocks_eq by done. cbn zeta. set (n := zlen src - zlen src mod A).
  assert (Hstep : ∃ ok w1,
    (if A <=? zlen src then let '(ok, fl) := program w (ztake n src) in
       (ok, if ok then put_target (put_flash w fl) (off (ds w) + n) (write_buffer (ds w)) (fill (ds w))
            else put_flash w fl)
     else (true, w)) = (ok, w1) ∧ dwf (ds w1) ∧ confined w w1).
  { destruct (A <=? zlen src); [|by eauto].
    destruct (program w (ztake n src)) as [ok fl] eqn:Ep.
    apply program_confined in Ep as Hc; [|done|rewrite zlen_ztake; lia].
    eexists _, _. split; [done|]. destruct ok; [|done]. split.
    - apply put_target_wf; [done|lia|done|done].
    - etransitivity; [exact Hc|apply put_target_confined]. }
  destruct Hstep as (ok & w1 & -> & Hwf1 & Hc1).
  destruct ok; cbn [negb]; [|by eauto].
  assert (Htail : zlen (zdrop n src) = zlen src mod A) by (rewrite zlen_zdrop; lia).
  destruct (0 <? zlen (zdrop n src)); [|by eauto].
  eexists _, _. split; [done|]. split.
  - apply put_target_wf; [done|apply Hwf1| |lia]. rewrite zlen_app, Htail, zlen_zdrop; lia.
  - etransitivity; [exact Hc1|apply put_target_confined].
Qed.

Lemma to_write_spec w buf : dwf (ds w) →
  ∃ r w', to_write w buf = Done (r, w') ∧ dwf (ds w') ∧ confined w w'.
Proof.
  intros Hwf. unfold to_write.
  destruct (target_slot_logical_offset (ds w)) as [o|] eqn:El; [|by eauto].
  apply logical_offset_spec in El as (-> & Ho & Hf).
  destruct (fwup_delta_slot_range_valid _ _ _) eqn:Er; cbn [negb]; [|by eauto].
  apply range_valid_spec in Er.
  destruct (fill_pending_spec w buf Hwf) as (r & w1 & -> & Hwf1 & Hc1 & Hr); [lia|]. cbn [obind].
  destruct r as [ret|rest]; [by eauto|]. destruct Hr as [_ Hr].
  destruct (write_blocks_spec w1 rest Hwf1) as (ret & w2 & -> & Hwf2 & Hc2); [lia|].
  eexists _, _. split_and!; [done|done|]. by transitivity w1.
Qed.

Lemma flush_spec w : dwf (ds w) →
  ∃ r w', flush_write_buffer w = Done (r, w') ∧ dwf (ds w') ∧ confined w w'.
Proof.
  intros Hwf. pose proof (wf_buffer _ Hwf) as Hb. pose proof (wf_fill _ Hwf) as Hf.
  pose proof (wf_off _ Hwf) as Ho. assert (HA : 0 < A) by apply alignment_ok.
  rewrite flush_eq by done. cbn zeta. destruct (fill (ds w) =? 0); [by eauto|].
  destruct (fwup_delta_slot_range_valid _ _ _) eqn:Er; cbn [negb]; [|by eauto].
  apply range_valid_spec in Er. set (block := ztake _ _ ++ replicate _ _).
  assert (Hblock : zlen block = A) by (unfold block; rewrite zlen_app, zlen_ztake, zlen_replicate; lia).
  destruct (program w block) as [ok fl] eqn:Ep. apply program_confined in Ep as Hc; [|done|lia].
  assert (Hc1 : confined w (put_flash (put_target w (off (ds w)) block (fill (ds w))) fl))
    by (by destruct Hc; split).
  assert (Hwf1 : dwf (ds (put_flash (put_target w (off (ds w)) block (fill (ds w))) fl)))
    by (apply (put_target_wf w); [done|lia|done|lia]).
  destruct ok; cbn [negb]; eexists _, _; (split; [done|]); [|done]. split.
  - apply put_target_wf; [done|lia|done|lia].
  - etransitivity; [exact Hc1|apply put_target_confined].
Qed.

Lemma set_active_wf d o : dwf d → 0 ≤ o ≤ slot_size d → dwf (set_active d o).
Proof. intros [] ?. by split. Qed.

(** A read returns bytes of the active slot, or fails without an effect. *)
Lemma from_read_spec w n ret bs w' : dwf (ds w) → 0 ≤ n → from_read w n = (ret, bs, w') →
  dwf (ds w') ∧ confined w w'
  ∧ (ret = 0 → active_slot_offset_pointer (ds w) + n ≤ slot_size (ds w)
       ∧ bs = mem_bytes (dflash w) (active_slot_base_addr (ds w) + active_slot_offset_pointer (ds w)) n).
Proof.
  intros Hwf Hn. unfold from_read. destruct (fwup_delta_slot_range_valid _ _ _) eqn:Er; cbn [negb].
  - apply range_valid_spec in Er. destruct (Hwf) as [? Hab Hae Ha _ _ _ _ _]. unfold UINT32_MAX in *.
    intros [= <- <- <-]. split_and!; [apply set_active_wf; [done|lia]|by split|].
    intros _. rewrite u32_small by lia. split; [lia|done].
  - intros [= <- <- <-]. split_and!; [done|done|lia].
Qed.

Lemma i32_range x : -2147483648 ≤ i32 x < 2147483648.
Proof. unfold i32. pose proof (u32_range x). case_match; btest; lia. Qed.

Lemma from_seek_spec w o ret w' : dwf (ds w) → -2147483648 ≤ o < 2147483648 →
  from_seek w o = (ret, w') → dwf (ds w') ∧ confined w w'.
Proof.
  intros Hwf Ho. unfold from_seek, fwup_delta_slot_seek. destruct (Hwf) as [? _ _ Ha _ _ _ _ _].
  destruct (_ <? active_slot_offset_pointer _) eqn:E1; btest; [lia|].
  destruct (o <? 0) eqn:E2; btest; rewrite u32_small by lia.
  - destruct (_ <? - o) eqn:E3; intros [= <- <-]; [done|]. btest.
    split; [apply set_active_wf; [done|lia]|by split].
  - destruct (_ <? o) eqn:E3; intros [= <- <-]; [done|]. btest.
    split; [apply set_active_wf; [done|lia]|by split].
Qed.

Lemma run_dt_spec {R} (p : dtio R) : ∀ w, dwf (ds w) →
  ∃ r w', run_dt p w = Done (r, w') ∧ dwf (ds w') ∧ confined w w'.
Proof.
  induction p as [r|n k IH|o k IH|buf k IH]; intros w Hwf; cbn [run_dt].
  - by eauto.
  - destruct (from_read w (u32 n)) as [[ret bs] w1] eqn:E.
    apply from_read_spec in E as (Hwf1 & Hc1 & _); [|done|apply u32_range].
    destruct (IH ret bs w1 Hwf1) as (r & w2 & -> & Hwf2 & Hc2).
    eexists _, _. split_and!; [done|done|by transitivity w1].
  - destruct (from_seek w (i32 o)) as [ret w1] eqn:E.
    apply from_seek_spec in E as (Hwf1 & Hc1); [|done|apply i32_range].
    destruct (IH ret w1 Hwf1) as (r & w2 & -> & Hwf2 & Hc2).
    eexists _, _. split_and!; [done|done|by transitivity w1].
  - destruct (to_write_spec w buf Hwf) as (ret & w1 & -> & Hwf1 & Hc1). cbn [obind].
    destruct (IH ret w1 Hwf1) as (r & w2 & -> & Hwf2 & Hc2).
    eexists _, _. split_and!; [done|done|by transitivity w1].
Qed.

(** C13: whatever the patch library does with its callbacks, the call returns
    without an access outside of an array; it changes the flash within the
    target slot only and keeps the files, the slots and the bounds of the
    state; and a successful read returns bytes of the active slot. *)
Theorem delta_io_bounds {R} (p : dtio R) w n ret bs w1 : dwf (ds w) →
  from_read w (u32 n) = (ret, bs, w1) →
  (∃ r w', run_dt p w = Done (r, w') ∧ dwf (ds w') ∧ dfs w' = dfs w
    ∧ ∀ a, a < tb (ds w) ∨ tb (ds w) + slot_size (ds w) ≤ a →
           flash_byte (dflash w') a = flash_byte (dflash w) a)
  ∧ (ret = 0 → ∃ o, 0 ≤ o ∧ o + u32 n ≤ slot_size (ds w)
       ∧ bs = mem_bytes (dflash w) (active_slot_base_addr (ds w) + o) (u32 n)).
Proof.
  intros Hwf E. destruct (run_dt_spec p w Hwf) as (r & w' & Er & Hwf' & Hc). split.
  - exists r, w'. split_and!; [done|done|apply Hc|apply Hc].
  - intros Hret. apply from_read_spec in E as (_ & _ & Hr); [|done|apply u32_range].
    destruct (Hr Hret) as [Hend ->]. exists (active_slot_offset_pointer (ds w)).
    split_and!; [apply Hwf|done|done].
Qed.

(** ** The writer is an append *)

(** The slot holds [bs] from its start and is erased behind them. *)
Definition flashed (fl : F) (base size : Z) (bs : list Z) : Prop :=
  (∀ i b, bs !! i = Some b → flash_byte fl (base + Z.of_nat i) = b)
  ∧ (∀ a, base + zlen bs ≤ a < base + size → flash_byte fl a = 0xFF).

(** The bytes written so far: those in flash, then those in the buffer. *)
Definition emitted w (bs : list Z) : Prop :=
  ∃ front pend, bs = front ++ pend ∧ zlen front = off (ds w) ∧ zlen pend = fill (ds w)
    ∧ ztake (fill (ds w)) (write_buffer (ds w)) = pend
    ∧ flashed (dflash w) (tb (ds w)) (slot_size (ds w)) front
    ∧ bytes_ok bs.

Lemma land_erased_byte b : byte_ok b → Z.land 0xFF b = b.
Proof.
  intros. change 0xFF with (Z.ones 8). rewrite Z.land_comm, Z.land_ones by lia. by apply Z.mod_small.
Qed.

Lemma program_flashed w front block fl : dwf (ds w) → off (ds w) = zlen front →
  off (ds w) + zlen block ≤ slot_size (ds w) → bytes_ok block →
  flashed (dflash w) (tb (ds w)) (slot_size (ds w)) front → program w block = (true, fl) →
  flashed fl (tb (ds w)) (slot_size (ds w)) (front ++ block).
Proof.
  intros Hwf Hoff Hend Hok [Hf Hrest] E.
  destruct (write_at_offset w block true fl Hwf Hend E) as (Ha & Hw & _).
  unfold program in E. rewrite Ha in E. split.
  - intros i b Hb. apply lookup_app_Some in Hb as [Hb|[Hi Hb]].
    + rewrite Hw; [by apply Hf|]. apply lookup_lt_Some in Hb. unfold zlen in *. lia.
    + pose proof (write_ok _ _ _ _ _ _ E Hb) as Hv.
      replace (tb (ds w) + Z.of_nat i) with (tb (ds w) + off (ds w) + Z.of_nat (i - length front))
        by (unfold zlen in *; lia).
      rewrite Hv, Hrest by (apply lookup_lt_Some in Hb; unfold zlen in *; lia).
      apply land_erased_byte. by eapply Forall_lookup_1.
  - rewrite zlen_app. intros a Ha'. rewrite Hw by lia. apply Hrest. pose proof (zlen_nonneg block). lia.
Qed.

Lemma fill_pending_append w src r w' bs : dwf (ds w) → bytes_ok src → emitted w bs →
  off (ds w) + fill (ds w) + zlen src ≤ slot_size (ds w) →
  fill_pending w src = Done (r, w') →
  match r with
  | inl ret => ret = 0 → emitted w' (bs ++ src)
  | inr rest => ∃ used, src = used ++ rest ∧ emitted w' (bs ++ used) ∧ fill (ds w') = 0
  end.
Proof.
  intros Hwf Hok (front & pend & -> & Hfr & Hpe & Htk & Hfl & Hbok) Hend.
  pose proof (wf_buffer _ Hwf) as Hb. pose proof (wf_fill _ Hwf) as Hf. pose proof (zlen_nonneg src).
  rewrite fill_pending_eq by done. cbn zeta. destruct (fill (ds w) =? 0) eqn:E0.
  { intros [= <- <-]. apply Z.eqb_eq in E0. exists []. split_and!; [done| |done].
    rewrite app_nil_r. exists front, pend. by split_and!. }
  destruct (zlen src <? A - fill (ds w)) eqn:Es; btest.
  { intros [= <- <-] _. exists front, (pend ++ src).
    unfold put_target, put_ds. cbn [ds dflash set_target target_slot_offset_pointer write_buffer_fill
      write_buffer target_slot_base_addr slot_size].
    split_and!; [by rewrite app_assoc|done|zl| |done|by apply Forall_app].
    rewrite app_assoc, ztake_app_exact; [by rewrite Htk|rewrite zlen_app, zlen_ztake; lia]. }
  set (block := ztake _ _ ++ ztake _ _).
  assert (Hblen : zlen block = A) by (unfold block; rewrite zlen_app, !zlen_ztake; lia).
  assert (Hblk : bytes_ok block).
  { unfold block. rewrite Htk. apply Forall_app in Hbok as [_ Hp]. apply Forall_app. split; [done|].
    by apply Forall_take. }
  destruct (program w block) as [ok fl] eqn:Ep. destruct ok; cbn [negb]; intros [= <- <-]; [|lia].
  exists (ztake (A - fill (ds w)) src). split_and!; [by rewrite ztake_zdrop| |done].
  exists (front ++ block), []. unfold put_target, put_ds, put_flash. cbn [ds dflash set_target
    target_slot_offset_pointer write_buffer_fill write_buffer target_slot_base_addr slot_size].
  split_and!; [|zl|done|done| |].
  - unfold block. by rewrite Htk, app_nil_r, <- !app_assoc.
  - eapply program_flashed; eauto. lia.
  - rewrite <- app_assoc. apply Forall_app in Hbok as [? ?].
    apply Forall_app; split; [done|]. apply Forall_app; split; [done|]. by apply Forall_take.
Qed.

Lemma write_blocks_append w src w' bs : dwf (ds w) → bytes_ok src → emitted w bs → fill (ds w) = 0 →
  off (ds w) + zlen src ≤ slot_size (ds w) →
  write_blocks w src = Done (0, w') → emitted w' (bs ++ src).
Proof.
  intros Hwf Hok (front & pend & -> & Hfr & Hpe & Htk & Hfl & Hbok) Hz Hend.
  rewrite Hz in Hpe. apply zlen_zero in Hpe as ->. rewrite app_nil_r in *.
  pose proof (wf_buffer _ Hwf) as Hb. pose proof (zlen_nonneg src) as Hs.
  assert (HA : 0 < A) by apply alignment_ok.
  pose proof (Z.mod_pos_bound (zlen src) A HA) as Hm. pose proof (Z.mod_le (zlen src) A Hs HA) as Hm'.
  rewrite write_blocks_eq by done. cbn zeta. set (n := zlen src - zlen src mod A).
  assert (Hstep : ∀ ok w1,
    (if A <=? zlen src then let '(ok, fl) := program w (ztake n src) in
       (ok, if ok then put_target (put_flash w fl) (off (ds w) + n) (write_buffer (ds w)) (fill (ds w))
            else put_flash w fl)
     else (true, w)) = (ok, w1) → ok = true →
    off (ds w1) = zlen (front ++ ztake n src) ∧ fill (ds w1) = 0 ∧ tb (ds w1) = tb (ds w)
    ∧ slot_size (ds w1) = slot_size (ds w) ∧ write_buffer (ds w1) = write_buffer (ds w)
    ∧ flashed (dflash w1) (tb (ds w)) (slot_size (ds w)) (front ++ ztake n src)).
  { intros ok w1. destruct (A <=? zlen src) eqn:Ea; btest.
    - destruct (program w (ztake n src)) as [ok' fl] eqn:Ep. intros [= <- <-] ->.
      unfold put_target, put_ds, put_flash. cbn [ds dflash set_target
        target_slot_offset_pointer write_buffer_fill write_buffer target_slot_base_addr slot_size].
      split_and!; try done; [rewrite zlen_app, zlen_ztake; lia|].
      eapply program_flashed; eauto; [rewrite zlen_ztake; lia|by apply Forall_take].
    - intros [= <- <-] _. replace n with 0 by (unfold n; rewrite Z.mod_small; lia).
      by rewrite ztake_0, app_nil_r. }
  destruct (if A <=? zlen src then _ else _) as [ok w1].
  destruct ok; cbn [negb]; [|done].
  destruct (Hstep true w1 eq_refl eq_refl) as (Ho1 & Hf1 & Hb1 & Hs1 & Hwb1 & Hfl1).
  assert (Htail : zlen (zdrop n src) = zlen src mod A) by (rewrite zlen_zdrop; lia).
  assert (Hsrc : front ++ src = (front ++ ztake n src) ++ zdrop n src)
    by (by rewrite <- app_assoc, ztake_zdrop).
  destruct (0 <? zlen (zdrop n src)) eqn:Et; intros [= <-]; btest;
    exists (front ++ ztake n src), (zdrop n src); unfold put_target, put_ds;
    cbn [ds dflash set_target target_slot_offset_pointer write_buffer_fill write_buffer
         target_slot_base_addr slot_size]; rewrite ?Hb1, ?Hs1.
  - split_and!; [done|by symmetry|done| |done|by apply Forall_app]. by apply ztake_app_exact.
  - assert (zlen (zdrop n src) = 0) by (pose proof (zlen_nonneg (zdrop n src)); lia).
    split_and!; [done|by symmetry|lia| |done|by apply Forall_app].
    rewrite Hf1, ztake_0. by rewrite (zlen_zero (zdrop n src)).
Qed.

Lemma to_write_append w buf w' bs : dwf (ds w) → bytes_ok buf → emitted w bs →
  to_write w buf = Done (0, w') → emitted w' (bs ++ buf) ∧ zlen (bs ++ buf) ≤ slot_size (ds w).
Proof.
  intros Hwf Hok Hem. unfold to_write.
  destruct (target_slot_logical_offset (ds w)) as [o|] eqn:El; [|done].
  apply logical_offset_spec in El as (-> & Ho & Hf).
  destruct (fwup_delta_slot_range_valid _ _ _) eqn:Er; cbn [negb]; [|done].
  apply range_valid_spec in Er. pose proof Hem as (front & pend & Hbs & Hfr & Hpe & _).
  intros ([r w1] & E1 & E)%obind_inv.
  pose proof (fill_pending_append w buf r w1 bs Hwf Hok Hem ltac:(lia) E1) as Hap.
  split; [|subst bs; zl]. destruct r as [ret|rest].
  - injection E as -> ->. by apply Hap.
  - destruct Hap as (used & -> & Hem1 & Hf1).
    destruct (fill_pending_spec w (used ++ rest) Hwf) as (r' & w1' & E1' & Hwf1 & Hc1 & Hr); [lia|].
    rewrite E1 in E1'. injection E1' as <- <-. destruct Hr as [_ Hr]. apply Forall_app in Hok as [_ Hok].
    rewrite app_assoc. by eapply write_blocks_append.
Qed.

(** The pieces of an image, one callback after the other. *)
Fixpoint write_all w (pieces : list (list Z)) : outcome (Z * dworld F L D) :=
  match pieces with
  | [] => Done (0, w)
  | buf :: pieces =>
      let! '(r, w) := to_write w buf in
      if negb (r =? 0) then Done (r, w) else write_all w pieces
  end.

Lemma write_all_append pieces : ∀ w w' bs, dwf (ds w) → Forall bytes_ok pieces → emitted w bs →
  zlen bs ≤ slot_size (ds w) → write_all w pieces = Done (0, w') →
  emitted w' (bs ++ concat pieces) ∧ dwf (ds w') ∧ confined w w'
  ∧ zlen (bs ++ concat pieces) ≤ slot_size (ds w).
Proof.
  induction pieces as [|buf pieces IH]; intros w w' bs Hwf Hok Hem Hl E; cbn [write_all concat] in *.
  { injection E as <-. by rewrite app_nil_r. }
  apply Forall_cons in Hok as [Hb Hok].
  destruct (to_write_spec w buf Hwf) as (r & w1 & E1 & Hwf1 & Hc1). rewrite E1 in E. cbn [obind] in E.
  destruct (r =? 0) eqn:Er; cbn [negb] in E; btest; [|by injection E as -> _]. subst r.
  destruct (to_write_append w buf w1 bs Hwf Hb Hem E1) as [Hem1 Hl1].
  rewrite <- (cf_size _ _ Hc1) in Hl1.
  destruct (IH w1 w' (bs ++ buf) Hwf1 Hok Hem1 Hl1 E) as (Hem' & Hwf' & Hc' & Hl').
  rewrite <- app_assoc in *. rewrite (cf_size _ _ Hc1) in Hl'. split_and!; [done|done|by transitivity w1|done].
Qed.

(** A slot that is flashed with [bs] holds them, padded with 0xFF. *)
Lemma flashed_bytes fl base size bs : flashed fl base size bs → zlen bs ≤ size →
  mem_bytes fl base size = bs ++ replicate (Z.to_nat (size - zlen bs)) 0xFF.
Proof.
  intros [Hf Hrest] Hl. set (img := bs ++ _). replace size with (zlen img) by (unfold img; zl).
  apply mem_bytes_eq. intros i b Hb. apply lookup_app_Some in Hb as [Hb|[Hi Hb]]; [by apply Hf|].
  apply lookup_replicate in Hb as [-> Hi']. apply Hrest. unfold zlen in *. lia.
Qed.

(** Flushing pads the pending block with what the erased slot holds anyway. *)
Lemma flush_flashed w bs w' : dwf (ds w) → emitted w bs → flush_write_buffer w = Done (true, w') →
  flashed (dflash w') (tb (ds w)) (slot_size (ds w)) bs.
Proof.
  intros Hwf Hem E2.
  destruct Hem as (front & pend & Hbs & Hfr & Hpe & Htk & Hfl & Hbok). subst bs.
  rewrite flush_eq in E2 by done. cbn zeta in E2. destruct (fill (ds w) =? 0) eqn:E0; btest.
  { injection E2 as <-. rewrite (zlen_zero pend) by lia. by rewrite app_nil_r. }
  destruct (fwup_delta_slot_range_valid _ _ _) eqn:Er; cbn [negb] in E2; [|done].
  apply range_valid_spec in Er. rewrite Htk in E2.
  set (pad := replicate _ 0xFF) in *.
  destruct (program w (pend ++ pad)) as [ok fl] eqn:Ep. destruct ok; cbn [negb] in E2; [|done].
  injection E2 as <-. unfold put_target, put_ds, put_flash. cbn [dflash].
  assert (Hpad : zlen pad = A - fill (ds w)).
  { unfold pad. rewrite zlen_replicate. pose proof (wf_fill _ Hwf). lia. }
  assert (Hfp : flashed fl (tb (ds w)) (slot_size (ds w)) (front ++ (pend ++ pad))).
  { eapply program_flashed; eauto; [zl|]. apply Forall_app in Hbok as [_ ?]. apply Forall_app. split; [done|].
    apply Forall_replicate. split; lia. }
  destruct Hfp as [Hf1 Hr1]. rewrite app_assoc in *. split.
  - intros i b Hb. apply Hf1. by apply lookup_app_l_Some.
  - intros a Ha. destruct (Z.lt_ge_cases a (tb (ds w) + zlen ((front ++ pend) ++ pad))) as [Hlt|Hge]; [|apply Hr1; lia].
    specialize (Hf1 (Z.to_nat (a - tb (ds w))) 0xFF).
    replace (tb (ds w) + Z.of_nat (Z.to_nat (a - tb (ds w)))) with a in Hf1 by (pose proof (zlen_nonneg (front ++ pend)); lia).
    apply Hf1. rewrite lookup_app_r by (unfold zlen in *; lia). apply lookup_replicate.
    split; [done|]. rewrite (zlen_app _ pad), Hpad in Hlt. unfold zlen in Hlt, Ha. lia.
Qed.

(** C14: the buffered writer refines a plain append. When the callbacks accept
    the pieces of an image and the flush succeeds, the erased target slot holds
    the concatenation of the pieces followed by 0xFF to its end, however the
    pieces fall across the write granules of the flash. *)
Theorem delta_writer_refines_append w pieces w1 w2 : dwf (ds w) → off (ds w) = 0 → fill (ds w) = 0 →
  (∀ a, tb (ds w) ≤ a < tb (ds w) + slot_size (ds w) → flash_byte (dflash w) a = 0xFF) →
  Forall bytes_ok pieces →
  write_all w pieces = Done (0, w1) → flush_write_buffer w1 = Done (true, w2) →
  zlen (concat pieces) ≤ slot_size (ds w)
  ∧ mem_bytes (dflash w2) (tb (ds w)) (slot_size (ds w)) =
    concat pieces ++ replicate (Z.to_nat (slot_size (ds w) - zlen (concat pieces))) 0xFF.
Proof.
  intros Hwf Ho Hf Her Hok E1 E2.
  assert (Hem : emitted w []).
  { exists [], []. rewrite Ho, Hf. do 4 (split; [done|]). split; [|constructor]. split; [done|]. intros a Ha. apply Her.
    rewrite zlen_nil in Ha. lia. }
  destruct (write_all_append pieces w w1 [] Hwf Hok Hem) as (Hem1 & Hwf1 & Hc1 & Hl);
    [rewrite zlen_nil; apply Hwf|done|]. cbn [app] in *.
  split; [done|]. rewrite <- (cf_base _ _ Hc1), <- (cf_size _ _ Hc1) in *.
  apply flashed_bytes; [|done].
  by eapply flush_flashed.
Qed.
End Writer.
