(* ===== verification/FwPatch.v ===== *)
(** * Applying a patch

    The file part of a delta update: applying a patch returns for every
    behaviour of the file system, the flash and the patch library, and changes
    the flash within the target slot only; and it changes nothing at all unless
    the file carries a valid signature. *)

From S2P Require Import Prelude Sha256 FwFlash Fs Metadata FwVerify FwDelta FwWriter.
#[local] Open Scope Z_scope.
#[local] Open Scope list_scope.

Section Patch.
Context {F L D C : Type} `{FlashMem F} `{Platform} `{Littlefs L} `{Detools D} `{PatchCrypto C}.
Context `{!FlashMemLaws F}.
Variables fwup_slot_size FWUP_DELTA_MAX_PATCH_SIZE : Z.
Variable fwup_delta_patch_pubkey : list Z.
Implicit Types (w : dworld F L D) (d : list Z).

(** What the parts of an application keep: the slots, and the flash outside of
    the target slot. *)
Record kept w w' : Prop := {
  kp_base : target_slot_base_addr (ds w') = target_slot_base_addr (ds w);
  kp_size : slot_size (ds w') = slot_size (ds w);
  kp_active : active_slot_base_addr (ds w') = active_slot_base_addr (ds w);
  kp_header : header_size (ds w') = header_size (ds w);
  kp_flash : within (target_slot_base_addr (ds w)) (target_slot_base_addr (ds w) + slot_size (ds w))
               (dflash w) (dflash w');
}.

#[global] Instance kept_preorder : PreOrder kept.
Proof.
  split; [intros w; by split|].
  intros w1 w2 w3 [Hb Hs ? ? Hw] [? ? ? ? Hw']. rewrite Hb, Hs in Hw'. split; try congruence.
  by transitivity (dflash w2).
Qed.

Lemma confined_kept w w' : confined w w' → kept w w'.
Proof. intros []. by split. Qed.

(** A step that leaves the flash and the slots alone. *)
Lemma same_kept w w' : dflash w' = dflash w → ds w' = ds w → kept w w'.
Proof. intros Hf Hd. split; rewrite ?Hd; try done. by rewrite Hf. Qed.

Lemma put_fs_kept w s : kept w (put_fs w s).
Proof. by apply same_kept. Qed.
Lemma put_dt_kept w p : kept w (put_dt w p).
Proof. by apply same_kept. Qed.
#[local] Hint Resolve put_fs_kept put_dt_kept : core.

Lemma kept_refl w : kept w w.
Proof. reflexivity. Qed.
#[local] Hint Resolve kept_refl : core.

(** ** Closing and cleaning up *)

Lemma close_spec w : kept w (close w).2 ∧ dflash (close w).2 = dflash w
  ∧ (dwf (ds w) → dwf (ds (close w).2)).
Proof.
  unfold close. destruct (fs_close (dfs w) fwup_file_handle) as [r s].
  destruct (r =? 0); cbn [negb snd]; (split; [by split|]; split; [done|]; intros []; by split).
Qed.

Lemma cleanup_patch_spec w : kept w (fwup_delta_cleanup_stale_patch w)
  ∧ dflash (fwup_delta_cleanup_stale_patch w) = dflash w
  ∧ ds (fwup_delta_cleanup_stale_patch w) = ds w.
Proof. unfold fwup_delta_cleanup_stale_patch. by case_match; split_and!. Qed.

(** ** Hashing and feeding the file *)

Lemma hash_patch_total fuel : ∀ w (c : C) b n total, 0 < b → 0 ≤ n →
  total - n < Z.of_nat fuel → (0 < fuel)%nat →
  ∃ r w', hash_patch fuel w c b n total = Done (r, w') ∧ ds w' = ds w ∧ dflash w' = dflash w.
Proof.
  induction fuel as [|fuel IH]; intros w c b n total Hb Hn Hf Hpos; [lia|]. cbn [hash_patch].
  destruct (n <? total) eqn:E; btest; [|by eauto].
  destruct (fs_file_read _ _ _) as [[r bs] s]. destruct (negb _); [by eauto|].
  destruct (crypto_sha256_stream_update c bs) as [c'|]; [|by eauto].
  destruct (IH (put_fs w s) c' b (n + Z.min b (total - n)) total) as (r' & w' & -> & Hd & Hfl); [lia..|].
  eauto.
Qed.

Lemma verify_patch_total w n : ∃ r w',
  verify_patch fwup_delta_patch_pubkey w FWUP_DELTA_PATCH_IO_BUFFER_SIZE n = Done (r, w')
  ∧ ds w' = ds w ∧ dflash w' = dflash w.
Proof.
  unfold verify_patch. cbn [ASSERT Z.leb Z.compare obind]. change (_ <=? _) with true. cbn [ASSERT obind].
  destruct (n <? FWUP_DELTA_MIN_PATCH_SIZE) eqn:E; [by eauto|]. btest.
  destruct crypto_sha256_stream_init as [c|]; [|by eauto].
  unfold FWUP_DELTA_MIN_PATCH_SIZE, FWUP_DELTA_PATCH_SIGNATURE_SIZE in *.
  destruct (hash_patch_total (Z.to_nat (n - 64) + 1) w c FWUP_DELTA_PATCH_IO_BUFFER_SIZE 0 (n - 64))
    as (r & w1 & -> & Hd & Hf); [done|lia|lia|lia|]. cbn [obind].
  destruct r as [c'|]; [|by eauto]. destruct (crypto_sha256_stream_final c') as [h|]; [|by eauto].
  destruct (fs_file_read _ _ _) as [[r bs] s]. destruct (negb _); by eauto.
Qed.

Lemma feed_patch_spec fuel : ∀ w b n total, 0 < b → 0 ≤ n → dwf (ds w) →
  total - n < Z.of_nat fuel → (0 < fuel)%nat →
  ∃ r w', feed_patch fuel w b n total = Done (r, w') ∧ dwf (ds w') ∧ kept w w'.
Proof.
  induction fuel as [|fuel IH]; intros w b n total Hb Hn Hwf Hf Hpos; [lia|]. cbn [feed_patch].
  destruct (n <? total) eqn:E; btest; [|by eauto].
  destruct (fs_file_read _ _ _) as [[r bs] s]. destruct (negb _); [by eauto|].
  destruct (run_dt_spec (detools_apply_patch_process (apply_patch (put_fs w s)) bs) (put_fs w s) Hwf)
    as ([r1 p] & w1 & -> & Hwf1 & Hc1). cbn [obind fst snd].
  apply confined_kept in Hc1.
  assert (Hk : kept w (put_dt w1 p)) by (transitivity (put_fs w s); [done|]; by transitivity w1).
  destruct (negb (r1 =? 0)); [by eauto|].
  destruct (IH (put_dt w1 p) b (n + Z.min b (total - n)) total) as (r' & w' & -> & Hwf' & Hk'); [lia|lia|done|lia|lia|].
  eexists _, _. split_and!; [done|done|]. by transitivity (put_dt w1 p).
Qed.

(** ** The whole application *)

(** The target slot is made of whole pages, and its size is the linker's. *)
Record slot_pages w : Prop := {
  sp_size : slot_size (ds w) = fwup_slot_size;
  sp_base_page : target_slot_base_addr (ds w) mod FLASH_PAGE_SIZE = 0;
  sp_size_page : fwup_slot_size mod FLASH_PAGE_SIZE = 0;
  sp_header : 0 ≤ header_size (ds w);
}.

Lemma slot_pages_kept w w' : kept w w' → slot_pages w → slot_pages w'.
Proof. intros [Hb Hs _ Hh _] []. by split; rewrite ?Hb, ?Hs, ?Hh. Qed.

Lemma erase_slot_kept w ok fl : dwf (ds w) → slot_pages w →
  fwup_flash_erase_app fwup_slot_size (dflash w) (target_slot_base_addr (ds w)) = (ok, fl) →
  kept w (put_flash w fl).
Proof.
  intros [] [Hsz ? ? ?]. unfold UINT32_MAX, fwup_flash_erase_app in *. rewrite <- Hsz in *.
  intros [Hw _]%flash_erase_spec; [by split|done|done|done|done|lia].
Qed.

Lemma apply_verified_spec w n : dwf (ds w) → slot_pages w →
  ∃ r w', apply_verified_patch fwup_slot_size w FWUP_DELTA_PATCH_IO_BUFFER_SIZE n = Done (r, w')
    ∧ dwf (ds w') ∧ kept w w'.
Proof.
  intros Hwf Hsp. unfold apply_verified_patch.
  destruct (fwup_flash_erase_app _ _ _) as [ok fl] eqn:Ee. apply erase_slot_kept in Ee as Hk1; [|done|done].
  set (w1 := put_flash w fl) in *. assert (Hwf1 : dwf (ds w1)) by done.
  destruct ok; cbn [negb]; [|by eauto].
  destruct (n <=? _) eqn:En; [by eauto|]. btest.
  destruct (fs_file_seek _ _ _ _) as [r s].
  assert (Hks : kept w (put_fs w1 s)) by (by transitivity w1). destruct (r <? 0); [by eauto|].
  destruct (detools_apply_patch_init _ _) as [r1 p].
  set (w2 := put_dt (put_fs w1 s) p). assert (Hk2 : kept w w2) by (transitivity w1; [done|by apply same_kept]).
  destruct (negb (r1 =? 0)); [by eauto|].
  set (m := n - FWUP_DELTA_PATCH_SIGNATURE_SIZE - header_size (ds (put_fs w1 s))).
  destruct (feed_patch_spec (Z.to_nat m + 1) w2 FWUP_DELTA_PATCH_IO_BUFFER_SIZE 0 m)
    as (go & w3 & -> & Hwf3 & Hk3); [done|lia|done|lia|lia|]. cbn [obind].
  assert (Hk3' : kept w w3) by (by transitivity w2). destruct go; cbn [negb]; [|by eauto].
  destruct (run_dt_spec (detools_apply_patch_finalize (apply_patch w3)) w3 Hwf3)
    as ([r4 p4] & w4 & -> & Hwf4 & Hc4). cbn [obind fst snd]. apply confined_kept in Hc4.
  assert (Hk4 : kept w (put_dt w4 p4)) by (transitivity w3; [done|]; by transitivity w4).
  destruct (r4 <? 0); [by eauto|].
  destruct (flush_spec (put_dt w4 p4) Hwf4) as (r5 & w5 & -> & Hwf5 & Hc5).
  apply confined_kept in Hc5. eexists _, _. split_and!; [done|done|]. by transitivity (put_dt w4 p4).
Qed.

(** The state after the file has been opened. *)
Definition open_patch w : bool * dworld F L D :=
  if negb (file_opened (ds w)) then
    let '(r, s) := fs_open (dfs w) fwup_file_handle PATCH_PATH FS_O_RDWR in
    if r <? 0 then (false, put_fs w s)
    else (true, put_ds (put_fs w s) (set_file_opened (ds w) true))
  else (true, w).

Lemma open_patch_spec w ok w' : open_patch w = (ok, w') →
  kept w w' ∧ dflash w' = dflash w ∧ (dwf (ds w) → dwf (ds w')).
Proof.
  unfold open_patch. destruct (file_opened (ds w)); cbn [negb]; [by intros [= <- <-]|].
  destruct (fs_open _ _ _ _) as [r s]. destruct (r <? 0); intros [= <- <-]; [done|].
  split; [by split|]. split; [done|]. intros []; by split.
Qed.

(** The first pass: open, seek, measure and verify the file. *)
Definition check_patch w : outcome (option Z * dworld F L D) :=
  let '(opened, w) := open_patch w in
  if negb opened then Done (None, w)
  else
    let '(r, s) := fs_file_seek (dfs w) fwup_file_handle 0 FS_SEEK_SET in
    let w := put_fs w s in
    if r <? 0 then Done (None, w)
    else
      let size_or_err := fs_file_size (dfs w) fwup_file_handle in
      if size_or_err <? 0 then Done (None, w)
      else
        let! '(v, w) := verify_patch fwup_delta_patch_pubkey w FWUP_DELTA_PATCH_IO_BUFFER_SIZE size_or_err in
        Done (if v then Some size_or_err else None, w).

Lemma apply_patch_body_eq w :
  apply_patch_body fwup_slot_size fwup_delta_patch_pubkey w =
  let! '(n, w) := check_patch w in
  match n with
  | None => Done (false, w)
  | Some n => apply_verified_patch fwup_slot_size w FWUP_DELTA_PATCH_IO_BUFFER_SIZE n
  end.
Proof.
  unfold apply_patch_body, check_patch. fold (open_patch w). destruct (open_patch w) as [o w1].
  destruct o; cbn [negb obind]; [|done]. destruct (fs_file_seek _ _ _ _) as [r s].
  destruct (r <? 0); [done|]. destruct (_ <? 0); [done|].
  destruct (verify_patch_total (put_fs w1 s) (fs_file_size (dfs (put_fs w1 s)) fwup_file_handle))
    as (v & w2 & -> & _ & _). cbn [obind]. by destruct v.
Qed.

Lemma check_patch_total w : ∃ n w', check_patch w = Done (n, w') ∧ kept w w' ∧ dflash w' = dflash w
  ∧ (dwf (ds w) → dwf (ds w')).
Proof.
  unfold check_patch. destruct (open_patch w) as [o w1] eqn:Eo.
  apply open_patch_spec in Eo as (Hk & Hf & Hwf). destruct o; cbn [negb]; [|by eauto 10].
  destruct (fs_file_seek _ _ _ _) as [r s].
  assert (Hk1 : kept w (put_fs w1 s)) by (by transitivity w1).
  destruct (r <? 0); [by eauto 10|]. destruct (_ <? 0); [by eauto 10|].
  destruct (verify_patch_total (put_fs w1 s) (fs_file_size (dfs (put_fs w1 s)) fwup_file_handle))
    as (v & w2 & -> & Hd2 & Hf2). cbn [obind]. eexists _, _. split; [done|]. split_and!.
  - transitivity (put_fs w1 s); [done|by apply same_kept].
  - by rewrite Hf2.
  - intros Hw. rewrite Hd2. by apply Hwf.
Qed.

Lemma apply_spec w : dwf (ds w) → slot_pages w →
  ∃ r w', apply_patch_from_file fwup_slot_size fwup_delta_patch_pubkey w = Done (r, w')
    ∧ dwf (ds w') ∧ kept w w'.
Proof.
  intros Hwf Hsp. unfold apply_patch_from_file. rewrite apply_patch_body_eq.
  destruct (check_patch_total w) as (n & w1 & -> & Hk1 & _ & Hwf1). cbn [obind]. specialize (Hwf1 Hwf).
  assert (Hbody : ∃ r w2, match n with
    | None => Done (false, w1)
    | Some n => apply_verified_patch fwup_slot_size w1 FWUP_DELTA_PATCH_IO_BUFFER_SIZE n
    end = Done (r, w2) ∧ dwf (ds w2) ∧ kept w1 w2).
  { destruct n as [n|]; [|by eauto]. apply apply_verified_spec; [done|]. by eapply slot_pages_kept. }
  destruct Hbody as (r & w2 & -> & Hwf2 & Hk2). cbn [obind].
  set (w3 := if file_opened (ds w2) then (close w2).2 else w2).
  assert (Hcl : kept w2 w3 ∧ dwf (ds w3)).
  { unfold w3. destruct (close_spec w2) as (? & _ & ?). case_match; split; auto. }
  destruct Hcl as [Hk3 Hwf3]. destruct (cleanup_patch_spec w3) as (Hk4 & _ & Hd4).
  eexists _, _. split_and!; [done|by rewrite Hd4|].
  transitivity w1; [done|]. transitivity w2; [done|]. by transitivity w3.
Qed.

(** ** The signature *)

Context `{!LittlefsLaws L} `{!Sha256Laws C}.

(** The patch of this update: the open file, or the one that will be opened. *)
Definition patch_contents w d : Prop :=
  if file_opened (ds w) then ∃ pos, fs_handle_at (dfs w) fwup_file_handle PATCH_PATH pos d
  else fs_data (dfs w) PATCH_PATH = Some d.

(** Its last 64 bytes are a signature of the rest under the configured key. *)
Definition patch_signed d : Prop :=
  let n := zlen d - FWUP_DELTA_PATCH_SIGNATURE_SIZE in
  patch_verify_hash fwup_delta_patch_pubkey (sha256 (ztake n d)) (zdrop n d) = true.

(** A read that returned the requested count is not an error in disguise. *)
Lemma u32_read r n : -2147483648 ≤ r → (0 ≤ r → r ≤ n) → u32 r = n → 0 ≤ n ≤ 512 → 0 ≤ r.
Proof.
  unfold u32. intros Hr Hm Hu Hn. destruct (Z.lt_ge_cases r 0); [|done].
  assert (r mod 4294967296 = r + 4294967296) by (symmetry; apply (Z.mod_unique_pos _ _ (-1)); lia). lia.
Qed.

Lemma ztake_split (d : list Z) n m : 0 ≤ n → 0 ≤ m → ztake n d ++ ztake m (zdrop n d) = ztake (n + m) d.
Proof.
  intros. unfold ztake, zdrop. rewrite Z2Nat.inj_add by lia. by rewrite take_take_drop.
Qed.

(** Reading the next [n] bytes of the open file. *)
Lemma read_next w d pos n r bs s : fs_handle_at (dfs w) fwup_file_handle PATCH_PATH pos d →
  0 ≤ pos → 0 ≤ n ≤ 512 → pos + n ≤ zlen d → fs_file_read (dfs w) fwup_file_handle n = (r, bs, s) →
  u32 r = n →
  bs = ztake n (zdrop pos d) ∧ fs_handle_at s fwup_file_handle PATCH_PATH (pos + n) d.
Proof.
  intros Hh Hpos Hn Hend E Hu. pose proof (file_read_range _ _ _ _ _ _ E) as Hr.
  eapply handle_read_spec in E as (Hh' & Hrd); [|exact Hh|lia|lia].
  assert (Hl : zlen (ztake n (zdrop pos d)) = n) by (rewrite zlen_ztake; [done|rewrite zlen_zdrop; lia]).
  assert (0 ≤ r) by (eapply u32_read; [done| |exact Hu|lia]; intros ?; destruct Hrd as [-> ->]; [done|lia]).
  destruct Hrd as [Hbs Hz]; [done|]. rewrite Hbs, Hl in Hh'. done.
Qed.

Lemma hash_patch_sound fuel : ∀ w d (c c' : C) b n total w', 0 < b ≤ 512 → 0 ≤ n ≤ total → total ≤ zlen d →
  fs_handle_at (dfs w) fwup_file_handle PATCH_PATH n d → stream_bytes c = ztake n d →
  hash_patch fuel w c b n total = Done (Some c', w') →
  stream_bytes c' = ztake total d ∧ fs_handle_at (dfs w') fwup_file_handle PATCH_PATH total d.
Proof.
  induction fuel as [|fuel IH]; intros w d c c' b n total w' Hb Hn Ht Hh Hs E; cbn [hash_patch] in E; [done|].
  destruct (n <? total) eqn:En; btest; cycle 1.
  { injection E as <- <-. by replace total with n by lia. }
  destruct (fs_file_read _ _ _) as [[r bs] s] eqn:Er.
  destruct (u32 r =? _) eqn:Eu; cbn [negb] in E; [|done]. apply Z.eqb_eq in Eu.
  eapply read_next in Er as [Hbs Hh']; [|exact Hh|lia|lia|lia|exact Eu]. subst bs.
  destruct (crypto_sha256_stream_update c _) as [c1|] eqn:Ec; [|done].
  apply law_stream_update in Ec. rewrite Hs, ztake_split in Ec by lia.
  eapply IH in E; [exact E|lia|lia|lia|exact Hh'|exact Ec].
Qed.

Lemma verify_patch_sound w d w' : fs_handle_at (dfs w) fwup_file_handle PATCH_PATH 0 d →
  verify_patch fwup_delta_patch_pubkey w FWUP_DELTA_PATCH_IO_BUFFER_SIZE (zlen d) = Done (true, w') →
  patch_signed d.
Proof.
  intros Hh E. unfold verify_patch in E. apply obind_inv in E as ([] & _ & E).
  destruct (zlen d <? FWUP_DELTA_MIN_PATCH_SIZE) eqn:El; [done|]. btest.
  unfold FWUP_DELTA_MIN_PATCH_SIZE, FWUP_DELTA_PATCH_SIGNATURE_SIZE in *.
  destruct crypto_sha256_stream_init as [c|] eqn:Ec; [|done]. apply law_stream_init in Ec.
  apply obind_inv in E as ([r w1] & E1 & E). destruct r as [c1|]; [|done].
  apply (hash_patch_sound _ _ d) in E1 as [Hs Hh1]; [|done|lia|lia|exact Hh|by rewrite Ec].
  destruct (crypto_sha256_stream_final c1) as [h|] eqn:Ef; [|done]. apply law_stream_final in Ef as ->.
  destruct (fs_file_read _ _ _) as [[r sig] s] eqn:Er. destruct (r =? 64) eqn:E64; cbn [negb] in E; [|done].
  apply Z.eqb_eq in E64.
  eapply read_next in Er as [Hsig _]; [|exact Hh1|lia|lia|lia|by subst r]. subst sig.
  injection E as E _. unfold patch_signed, FWUP_DELTA_PATCH_SIGNATURE_SIZE. rewrite <- Hs.
  rewrite ztake_all in E by (rewrite zlen_zdrop; lia). done.
Qed.

Lemma check_patch_sound w d n w' : patch_contents w d → check_patch w = Done (Some n, w') →
  patch_signed d.
Proof.
  intros Hp. unfold check_patch. destruct (open_patch w) as [o w1] eqn:Eo. destruct o; cbn [negb]; [|done].
  assert (Hh : ∃ pos, fs_handle_at (dfs w1) fwup_file_handle PATCH_PATH pos d).
  { unfold open_patch, patch_contents in *. destruct (file_opened (ds w)); cbn [negb] in Eo; [by injection Eo as <-|].
    destruct (fs_open _ _ _ _) as [r s] eqn:Eop. destruct (r <? 0) eqn:Er; [done|]. injection Eo as <-. btest.
    apply handle_open_spec in Eop as (d' & Hh & [Hd|(Hd & _)]); [|congruence|done].
    exists 0. rewrite Hp in Hd. injection Hd as <-. done. }
  destruct Hh as [pos Hh]. destruct (fs_file_seek _ _ _ _) as [r s] eqn:Es.
  destruct (r <? 0) eqn:Er; [done|]. btest.
  eapply handle_seek_spec in Es as (pos' & Hh1 & Hpos); [|exact Hh]. rewrite (Hpos Er) in Hh1.
  destruct (fs_file_size _ _ <? 0) eqn:Ez; [done|]. btest.
  cbn [dfs put_fs] in *. rewrite (handle_size_spec _ _ _ _ _ Hh1 Ez). intros ([v w2] & Ev & E)%obind_inv.
  destruct v; [|done]. by apply (verify_patch_sound (put_fs w1 s) d w2).
Qed.

(** C12: a patch file whose signature is not valid under the configured key is
    refused: the application returns false and the flash is what it was. *)
Theorem delta_unsigned_rejected w d : patch_contents w d → ¬ patch_signed d →
  ∃ w', apply_patch_from_file fwup_slot_size fwup_delta_patch_pubkey w = Done (false, w')
    ∧ dflash w' = dflash w.
Proof.
  intros Hp Hs. unfold apply_patch_from_file. rewrite apply_patch_body_eq.
  destruct (check_patch_total w) as (n & w1 & E & _ & Hf1 & _). rewrite E. cbn [obind].
  destruct n as [n|]; [by destruct Hs; eapply check_patch_sound|]. cbn [obind].
  eexists. split; [done|]. destruct (cleanup_patch_spec (if file_opened (ds w1) then (close w1).2 else w1))
    as (_ & -> & _). destruct (close_spec w1) as (_ & Hc & _). case_match; congruence.
Qed.
End Patch.
