(* ===== verification/Fwup.v ===== *)
(** * The update engine (lib/fwup/src/fwup.c, fwup_addr.c)

    [fwup_start] erases the inactive slot (or prepares a delta update),
    [fwup_transfer] writes chunks of the image, [fwup_finish] verifies it and
    [fwup_commit_signature] makes it bootable. The last 64 bytes of the slot,
    the signature, are kept in RAM until then: [fwup_handle_write] redirects
    them. The performance counters and the event log are left out. *)

From S2P Require Import Prelude FwFlash Fs SecBoot Metadata FwVerify FwDelta.
#[local] Open Scope Z_scope.
#[local] Open Scope list_scope.

(** [fwpb_fwup_start_cmd] and [fwpb_fwup_finish_cmd]; [st_version] is [None]
    when [has_version] is false. *)
Record start_cmd := mk_start {
  st_mode : Z;
  st_patch_size : Z;
  st_mcu_role : Z;
  st_version : option fwpb_semver;
  st_defer_commit : bool;
}.

Record finish_cmd := mk_finish {
  fi_app_properties_offset : Z;
  fi_signature_offset : Z;
  fi_bl_upgrade : bool;
  fi_mode : Z;
  fi_mcu_role : Z;
}.

Inductive start_status := START_UNSPECIFIED | START_SUCCESS | START_ERROR.
Inductive transfer_status := TRANSFER_UNSPECIFIED | TRANSFER_SUCCESS | TRANSFER_ERROR.
Inductive finish_status :=
| FINISH_UNSPECIFIED
| FINISH_SUCCESS
| FINISH_SIGNATURE_INVALID
| FINISH_VERSION_INVALID
| FINISH_ERROR
| FINISH_WILL_APPLY_PATCH
| FINISH_CONFIRMATION_MISMATCH.

(** The status and, on success, the chunk size of a start. *)
Record start_rsp := mk_start_rsp { sr_status : start_status; sr_max_chunk_size : Z }.

(** ** fwup_addr.c *)

(** The linker symbols; [active_slot] is 1 in images for slot A and 2 in images
    for slot B. *)
Record fw_symbols := mk_fw_symbols {
  app_a_slot_page : Z;
  app_b_slot_page : Z;
  app_a_signature : Z;
  app_b_signature : Z;
  sym_app_slot_size : Z;
  active_slot : Z;
}.

Section Addr.
Variable sy : fw_symbols.

Definition fwup_target_slot : outcome Z :=
  if active_slot sy =? fwpb_SLOT_A then Done fwpb_SLOT_B
  else if active_slot sy =? fwpb_SLOT_B then Done fwpb_SLOT_A
  else Abort.

Definition fwup_target_slot_address : outcome Z :=
  if active_slot sy =? fwpb_SLOT_A then Done (app_b_slot_page sy)
  else if active_slot sy =? fwpb_SLOT_B then Done (app_a_slot_page sy)
  else Abort.

Definition fwup_slot_signature_address (slot : Z) : Z :=
  if slot =? fwpb_SLOT_A then app_a_signature sy
  else if slot =? fwpb_SLOT_B then app_b_signature sy
  else 0.

Definition fwup_target_slot_signature_address : outcome Z :=
  if active_slot sy =? fwpb_SLOT_A then Done (app_b_signature sy)
  else if active_slot sy =? fwpb_SLOT_B then Done (app_a_signature sy)
  else Abort.

Definition fwup_current_slot_address : outcome Z :=
  if active_slot sy =? fwpb_SLOT_A then Done (app_a_slot_page sy)
  else if active_slot sy =? fwpb_SLOT_B then Done (app_b_slot_page sy)
  else Abort.

Definition fwup_slot_size : Z := sym_app_slot_size sy.
End Addr.

Section Fwup.
Context {F L D C : Type} `{FlashMem F} `{Platform} `{Littlefs L} `{Detools D} `{PatchCrypto C}.
Context `{FwVerify F} `{Cmp}.
Variable sy : fw_symbols.
Variable ml : meta_layout.
Variable FWUP_DELTA_MAX_PATCH_SIZE : Z.
Variable fwup_delta_patch_pubkey : list Z.

Record fwup_t := mk_fwup {
  fwup_priv : fwup_priv_t;
  fwup_pending : bool;
  fwup_coproc_pending : bool;
  fwup_reset_pending : bool;
  dw : dworld F L D;
}.

Definition put_priv (s : fwup_t) (p : fwup_priv_t) : fwup_t :=
  mk_fwup p (fwup_pending s) (fwup_coproc_pending s) (fwup_reset_pending s) (dw s).
Definition put_dw (s : fwup_t) (w : dworld F L D) : fwup_t :=
  mk_fwup (fwup_priv s) (fwup_pending s) (fwup_coproc_pending s) (fwup_reset_pending s) w.
Definition put_fl (s : fwup_t) (fl : F) : fwup_t := put_dw s (put_flash (dw s) fl).
Definition flash (s : fwup_t) : F := dflash (dw s).

Definition fwup_get_require_confirmation (s : fwup_t) : secure_bool_t :=
  require_confirmation (fwup_priv s).

Definition confirmation_check_required (s : fwup_t) : bool :=
  if has_confirmation_version (fwup_priv s) then true
  else fwup_get_require_confirmation s =? SECURE_TRUE.

Definition fwup_in_progress (s : fwup_t) : bool := fwup_pending s || fwup_coproc_pending s.
Definition fwup_cleanup_stale_patch (s : fwup_t) : fwup_t :=
  put_dw s (fwup_delta_cleanup_stale_patch (dw s)).
Definition fwup_mark_pending (s : fwup_t) (p : bool) : fwup_t :=
  mk_fwup (fwup_priv s) p (fwup_coproc_pending s) (fwup_reset_pending s) (dw s).
Definition fwup_mark_coproc_pending (s : fwup_t) (p : bool) : fwup_t :=
  mk_fwup (fwup_priv s) (fwup_pending s) p (fwup_reset_pending s) (dw s).
Definition fwup_is_coproc_pending (s : fwup_t) : bool := fwup_coproc_pending s.
Definition fwup_mark_reset_pending (s : fwup_t) : fwup_t :=
  mk_fwup (fwup_priv s) (fwup_pending s) (fwup_coproc_pending s) true (dw s).
Definition fwup_clear_reset_pending (s : fwup_t) : fwup_t :=
  mk_fwup (fwup_priv s) (fwup_pending s) (fwup_coproc_pending s) false (dw s).
Definition fwup_should_reject_cmd (s : fwup_t) : bool := fwup_reset_pending s.

Definition is_delta_update (mode : Z) : bool :=
  (mode =? FWUP_MODE_DELTA_INLINE) || (mode =? FWUP_MODE_DELTA_ONESHOT).

(** ** Initialisation *)

Definition fwup_init (s : fwup_t) (target current signature size : Z) (bl : bool)
    (conf : secure_bool_t) : fwup_t :=
  let p := fwup_priv s in
  mk_fwup (mk_priv target current signature size bl conf (has_confirmation_version p)
             (confirmation_version p) (pending_signature p) (has_pending_signature p))
    false false false (dw s).

(** ** Start *)

(** Record the confirmed version and clear the signature of an earlier try. *)
Definition begin_session (p : fwup_priv_t) (version : option fwpb_semver) : fwup_priv_t :=
  mk_priv (target_slot_addr p) (current_slot_addr p) (target_slot_signature p) (app_slot_size p)
    (support_bl_upgrade p) (require_confirmation p)
    (match version with Some _ => true | None => false end) (default (confirmation_version p) version)
    (replicate (Z.to_nat FWUP_SIGNATURE_SIZE) 0) false.

Definition fwup_start (s : fwup_t) (cmd : start_cmd) : bool * start_rsp * fwup_t :=
  let p := begin_session (fwup_priv s) (st_version cmd) in
  let s := put_priv s p in
  let '(ok, s) :=
    if is_delta_update (st_mode cmd) then
      let '(ok, w) := fwup_delta_init FWUP_DELTA_MAX_PATCH_SIZE (dw s)
        (mk_cfg (st_mode cmd) (st_patch_size cmd) (current_slot_addr p) (app_slot_size p)
                (target_slot_addr p)) in
      (ok, put_dw s w)
    else
      let '(ok, fl) := fwup_flash_erase_app (fwup_slot_size sy) (flash s) (target_slot_addr p) in
      (ok, put_fl s fl) in
  if negb ok then (false, mk_start_rsp START_ERROR 0, s)
  else (true, mk_start_rsp START_SUCCESS fwup_flash_get_max_chunk_size, s).

(** ** Transfer *)

Definition put_pending_signature (p : fwup_priv_t) (sig : list Z) : fwup_priv_t :=
  mk_priv (target_slot_addr p) (current_slot_addr p) (target_slot_signature p) (app_slot_size p)
    (support_bl_upgrade p) (require_confirmation p) (has_confirmation_version p)
    (confirmation_version p) sig true.

(** The part of a chunk before the signature goes to flash. *)
Definition write_firmware_part (s : fwup_t) (wao end_ sig_boundary : Z) (data : list Z)
    : outcome (bool * fwup_t) :=
  let flash_end := Z.min end_ sig_boundary in
  let flash_len := if wao <? flash_end then flash_end - wao else 0 in
  if 0 <? flash_len then
    let! bytes := mread data 0 flash_len in
    let '(ok, fl) := fwup_flash_write (flash s) (target_slot_addr (fwup_priv s) + wao) bytes in
    Done (ok, put_fl s fl)
  else Done (true, s).

(** The part in the signature goes to RAM. *)
Definition store_signature_part (s : fwup_t) (wao end_ sig_boundary : Z) (data : list Z)
    : outcome (bool * fwup_t) :=
  let p := fwup_priv s in
  if (sig_boundary <? end_) && (wao <? app_slot_size p) then
    let sig_start := Z.max wao sig_boundary in
    let sig_data_offset := sig_start - wao in
    let buf_offset := sig_start - sig_boundary in
    let sig_len := end_ - sig_start in
    if FWUP_SIGNATURE_SIZE <? buf_offset + sig_len then Done (false, s)
    else
      let! part := mread data sig_data_offset sig_len in
      let! sig := mwrite (pending_signature p) buf_offset part in
      Done (true, put_priv s (put_pending_signature p sig))
  else Done (true, s).

Definition fwup_handle_write (s : fwup_t) (cmd : transfer_cmd) : outcome (bool * transfer_status * fwup_t) :=
  let data := tx_data cmd in
  let max_chunk_size := fwup_flash_get_max_chunk_size in
  let! _ := ASSERT (negb (max_chunk_size =? 0)) in
  if (UINT32_MAX - tx_offset cmd) / max_chunk_size <? tx_sequence_id cmd
  then Done (false, TRANSFER_ERROR, s)
  else
    let write_address_offset := u32 (tx_sequence_id cmd * max_chunk_size + tx_offset cmd) in
    let end_ := u32 (write_address_offset + zlen data) in
    if end_ <? write_address_offset then Done (false, TRANSFER_ERROR, s)
    else if app_slot_size (fwup_priv s) <? end_ then Done (false, TRANSFER_ERROR, s)
    else if app_slot_size (fwup_priv s) <? FWUP_SIGNATURE_SIZE then Done (false, TRANSFER_ERROR, s)
    else
      let sig_boundary := app_slot_size (fwup_priv s) - FWUP_SIGNATURE_SIZE in
      let! '(ok, s) := write_firmware_part s write_address_offset end_ sig_boundary data in
      if negb ok then Done (false, TRANSFER_ERROR, s)
      else
        let! '(ok, s) := store_signature_part s write_address_offset end_ sig_boundary data in
        if negb ok then Done (false, TRANSFER_ERROR, s)
        else Done (true, TRANSFER_SUCCESS, s).

Definition fwup_transfer (s : fwup_t) (cmd : transfer_cmd) : outcome (bool * transfer_status * fwup_t) :=
  if is_delta_update (tx_mode cmd) then
    let! '(ok, w) := fwup_delta_transfer (dw s) cmd in
    Done (ok, if ok then TRANSFER_SUCCESS else TRANSFER_ERROR, put_dw s w)
  else fwup_handle_write s cmd.

(** ** Finish *)

(** The status of the response, where it is set. *)
Definition fwup_pre_apply_check (s : fwup_t) (cmd : finish_cmd) : bool * option finish_status * fwup_t :=
  if negb (fi_mode cmd =? FWUP_MODE_DELTA_ONESHOT) then (true, None, s)
  else
    let require := confirmation_check_required s in
    let p := fwup_priv s in
    if require && negb (has_confirmation_version p) then (false, Some FINISH_CONFIRMATION_MISMATCH, s)
    else
      let expected := if has_confirmation_version p then Some (confirmation_version p) else None in
      let '(status, w) := fwup_delta_check_header (dw s) expected require in
      let s := put_dw s w in
      match status with
      | FWUP_VERIFY_SUCCESS => (true, None, s)
      | FWUP_VERIFY_CONFIRMATION_MISMATCH | FWUP_VERIFY_MISSING_HEADER =>
          (false, Some FINISH_CONFIRMATION_MISMATCH, s)
      | _ => (false, Some FINISH_ERROR, s)
      end.

(** The version that the user confirmed is the one in the flashed metadata. *)
Definition check_confirmed_version (s : fwup_t) : outcome bool :=
  let p := fwup_priv s in
  if negb (has_confirmation_version p) then Done false
  else
    let! target_version := fwup_get_target_version ml (active_slot sy) (flash s) in
    Done (fwup_semver_equals (Some (confirmation_version p)) target_version).

Definition verify_application (s : fwup_t) (cmd : finish_cmd) : outcome fwup_verify_status_t :=
  let p := fwup_priv s in
  let! status :=
    (if app_slot_size p <? FWUP_SIGNATURE_SIZE then Done FWUP_VERIFY_ERROR
     else if negb (fi_signature_offset cmd =? app_slot_size p - FWUP_SIGNATURE_SIZE)
     then Done FWUP_VERIFY_BAD_OFFSET
     else if negb (has_pending_signature p) then Done FWUP_VERIFY_SIGNATURE_INVALID
     else fwup_verify_new_app p (flash s) (fi_app_properties_offset cmd) (pending_signature p)) in
  match status with
  | FWUP_VERIFY_SUCCESS =>
      if confirmation_check_required s then
        let! ok := check_confirmed_version s in
        Done (if ok then FWUP_VERIFY_SUCCESS else FWUP_VERIFY_CONFIRMATION_MISMATCH)
      else Done FWUP_VERIFY_SUCCESS
  | _ => Done status
  end.

Definition finish_result (status : fwup_verify_status_t) : bool * finish_status :=
  match status with
  | FWUP_VERIFY_VERSION_INVALID => (false, FINISH_VERSION_INVALID)
  | FWUP_VERIFY_SIGNATURE_INVALID => (false, FINISH_SIGNATURE_INVALID)
  | FWUP_VERIFY_CONFIRMATION_MISMATCH => (false, FINISH_CONFIRMATION_MISMATCH)
  | FWUP_VERIFY_SUCCESS => (true, FINISH_SUCCESS)
  | _ => (false, FINISH_ERROR)
  end.

Definition fwup_finish (s : fwup_t) (cmd : finish_cmd) : outcome (bool * finish_status * fwup_t) :=
  if fi_bl_upgrade cmd && negb (support_bl_upgrade (fwup_priv s)) then Done (false, FINISH_ERROR, s)
  else
    let! '(ok, s) :=
      (if is_delta_update (fi_mode cmd) then
         let! '(ok, w) := fwup_delta_finish (fwup_slot_size sy) fwup_delta_patch_pubkey (dw s)
                            (fi_mode cmd) in
         Done (ok, put_dw s w)
       else Done (true, s)) in
    if negb ok then Done (false, FINISH_ERROR, s)
    else
      let! '(status, s) :=
        (if fi_bl_upgrade cmd then
           let! '(status, fl) := fwup_verify_new_bootloader (fwup_priv s) (flash s) in
           Done (status, put_fl s fl)
         else
           let! status := verify_application s cmd in Done (status, s)) in
      Done (finish_result status, s).

(** ** Commit *)

Definition fwup_get_pending_signature (s : fwup_t) : option (list Z) :=
  if has_pending_signature (fwup_priv s) then Some (pending_signature (fwup_priv s)) else None.

Definition fwup_get_target_slot_signature_addr (s : fwup_t) : Z := target_slot_signature (fwup_priv s).

Definition fwup_commit_signature_to (s : fwup_t) (target_addr : Z) (signature : list Z) : bool * fwup_t :=
  let '(ok, fl) := fwup_flash_write (flash s) target_addr signature in
  if negb ok then
    let '(_, fl) := fwup_flash_erase_app_signature fl target_addr in (false, put_fl s fl)
  else (true, put_fl s fl).

Definition fwup_commit_signature (s : fwup_t) : bool * fwup_t :=
  let p := fwup_priv s in
  if negb (has_pending_signature p) then (false, s)
  else fwup_commit_signature_to s (target_slot_signature p) (pending_signature p).
End Fwup.
Arguments fwup_t : clear implicits.
