(* ===== verification/FwupSpec.v ===== *)
(** * The update engine stays in the target slot

    The invariant of the engine, that every operation keeps it and changes the
    flash within the target slot only, that chunks reach their place however
    they are ordered and repeated, and what a successful finish has checked. *)

From S2P Require Import Prelude FwFlash Fs SecBoot Metadata FwVerify FwDelta FwWriter FwPatch Fwup.
#[local] Open Scope Z_scope.
#[local] Open Scope list_scope.

Section Spec.
Context {F L D C : Type} `{FlashMem F} `{Platform} `{Littlefs L} `{Detools D} `{PatchCrypto C}.
Context `{FwVerify F} `{Cmp} `{!FlashMemLaws F}.
Variable sy : fw_symbols.
Variable ml : meta_layout.
Variable FWUP_DELTA_MAX_PATCH_SIZE : Z.
Variable pubkey : list Z.
Implicit Types (s : fwup_t F L D).

Abbreviation tgt s := (target_slot_addr (fwup_priv s)).
Abbreviation size s := (app_slot_size (fwup_priv s)).

(** What the linker script and [fwup_init] give. *)
Record slots_wf (p : fwup_priv_t) : Prop := {
  sw_size : app_slot_size p = fwup_slot_size sy;
  sw_page : target_slot_addr p mod FLASH_PAGE_SIZE = 0;
  sw_size_page : app_slot_size p mod FLASH_PAGE_SIZE = 0;
  sw_size_min : FWUP_SIGNATURE_SIZE ≤ app_slot_size p;
  sw_pos : 0 ≤ target_slot_addr p;
  sw_end : target_slot_addr p + app_slot_size p ≤ UINT32_MAX;
  sw_current : 0 ≤ current_slot_addr p;
  sw_sig : target_slot_signature p = target_slot_addr p + app_slot_size p - FWUP_SIGNATURE_SIZE;
  sw_pending : zlen (pending_signature p) = FWUP_SIGNATURE_SIZE;
}.

(** The delta state is only used once [fwup_delta_init] has set it up for the
    slots of the engine. *)
Record delta_ok (p : fwup_priv_t) (d : delta_state_t) : Prop := {
  dk_buffer : zlen (write_buffer d) = MCU_FLASH_WRITE_ALIGNMENT;
  dk_header : 0 ≤ header_size d;
  dk_init : delta_initialized d = true →
    dwf d ∧ target_slot_base_addr d = target_slot_addr p ∧ slot_size d = app_slot_size p;
}.

Record fwup_wf s : Prop := {
  fw_slots : slots_wf (fwup_priv s);
  fw_delta : delta_ok (fwup_priv s) (ds (dw s));
}.

(** The engine keeps its slots and writes the target slot only. *)
Record fw_step s s' : Prop := {
  fs_slots : target_slot_addr (fwup_priv s') = tgt s ∧ app_slot_size (fwup_priv s') = size s
    ∧ target_slot_signature (fwup_priv s') = target_slot_signature (fwup_priv s)
    ∧ support_bl_upgrade (fwup_priv s') = support_bl_upgrade (fwup_priv s);
  fs_flash : within (tgt s) (tgt s + size s) (flash s) (flash s');
}.

#[global] Instance fw_step_preorder : PreOrder fw_step.
Proof.
  split; [intros s; by split|]. intros s1 s2 s3 [(Ht & Hs & ? & ?) Hw] [(? & ? & ? & ?) Hw'].
  rewrite Ht, Hs in Hw'. split; [split_and!; congruence|]. by transitivity (flash s2).
Qed.

Lemma fw_step_refl s : fw_step s s.
Proof. reflexivity. Qed.
#[local] Hint Resolve fw_step_refl : core.

Lemma slots_wf_pages s : slots_wf (fwup_priv s) → 0 < FLASH_PAGE_SIZE ∧ tgt s + size s ≤ 4294967295
  ∧ (tgt s + size s) mod FLASH_PAGE_SIZE = 0.
Proof.
  intros []. unfold FLASH_PAGE_SIZE, UINT32_MAX in *. split_and!; [lia|lia|].
  rewrite Zplus_mod, sw_page0, sw_size_page0. done.
Qed.

(** ** Start *)

Lemma begin_session_wf p v : slots_wf p → slots_wf (begin_session p v).
Proof. intros []. by split. Qed.

Lemma delta_ok_opened p d b : delta_ok p d → delta_ok p (set_file_opened d b).
Proof. intros [Hb Hh Hi]. split; [done|done|]. intros Hd. destruct (Hi Hd) as ([] & ? & ?). by split_and!. Qed.

(** Not initialised, the state only needs its buffer. *)
Lemma delta_ok_idle p d : zlen (write_buffer d) = MCU_FLASH_WRITE_ALIGNMENT → 0 ≤ header_size d →
  delta_initialized d = false → delta_ok p d.
Proof. intros ? ? Hi. split; [done|done|]. by rewrite Hi. Qed.

Lemma close_opened (w : dworld F L D) : dflash (close w).2 = dflash w
  ∧ ∃ b, ds (close w).2 = set_file_opened (ds w) b.
Proof.
  unfold close. destruct (fs_close (dfs w) fwup_file_handle) as [r s]. case_match; cbn [snd].
  - split; [done|]. exists (file_opened (ds w)). by destruct w as [[] ? ? ?].
  - split; [done|]. by exists false.
Qed.

Lemma delta_open_opened (w : dworld F L D) ok w' : fwup_delta_open w = (ok, w') →
  dflash w' = dflash w ∧ ∃ b, ds w' = set_file_opened (ds w) b.
Proof.
  unfold fwup_delta_open. set (w1 := if file_opened (ds w) then _ else w).
  assert (Hw1 : dflash w1 = dflash w ∧ ∃ b, ds w1 = set_file_opened (ds w) b).
  { unfold w1. destruct (file_opened (ds w)); [apply close_opened|]. split; [done|].
    exists (file_opened (ds w)). by destruct w as [[] ? ? ?]. }
  clearbody w1. destruct (fs_file_exists _ _).
  - destruct (fs_remove _ _) as [r s]. destruct (r =? 0); cbn [negb].
    + destruct (fs_open _ _ _ _) as [r2 s2]. by intros [= _ <-].
    + by intros [= _ <-].
  - cbn [negb]. destruct (fs_open _ _ _ _) as [r2 s2]. by intros [= _ <-].
Qed.

Lemma delta_init_ok p (w w' : dworld F L D) cfg ok : slots_wf p → delta_ok p (ds w) →
  cfg_slot_size cfg = app_slot_size p → cfg_target_slot_base_addr cfg = target_slot_addr p →
  cfg_active_slot_base_addr cfg = current_slot_addr p →
  fwup_delta_init FWUP_DELTA_MAX_PATCH_SIZE w cfg = (ok, w') →
  delta_ok p (ds w') ∧ dflash w' = dflash w.
Proof.
  intros Hp [Hb Hh _] Hcs Hct Hca. unfold fwup_delta_init. cbn zeta.
  set (d0 := mk_delta _ _ _ _ _ _ _ _ _ _ _).
  assert (Hd0 : ∀ d b, d = set_file_opened d0 b → delta_ok p d) by (by intros d b ->; apply delta_ok_idle).
  assert (Hd0' : delta_ok p d0) by (by apply delta_ok_idle).
  destruct (cfg_slot_size cfg =? 0); [by intros [= <- <-]|].
  destruct (_ || _) eqn:Eov; [by intros [= <- <-]|]. apply orb_false_iff in Eov as [Eov1 Eov2].
  destruct (negb _); [by intros [= <- <-]|]. destruct (_ || _); [by intros [= <- <-]|].
  set (w1 := fwup_delta_cleanup_stale_signing_files _).
  assert (Hw1 : ds w1 = d0 ∧ dflash w1 = dflash w) by done. clearbody w1. destruct Hw1 as [Hd1 Hf1].
  assert (Ho : ∀ o w2, (if cfg_mode cfg =? FWUP_MODE_DELTA_ONESHOT
      then let '(o, w) := fwup_delta_open w1 in (o, put_ds w (set_file_opened (ds w) o))
      else (true, w1)) = (o, w2) → dflash w2 = dflash w ∧ ∃ b, ds w2 = set_file_opened d0 b).
  { intros o w2. destruct (cfg_mode cfg =? _).
    - destruct (fwup_delta_open w1) as [o1 w3] eqn:Eo. apply delta_open_opened in Eo as (Hf & b & Hd).
      intros [= <- <-]. split; [by rewrite <- Hf1|]. exists o1. cbn [ds put_ds]. rewrite Hd, Hd1. done.
    - intros [= <- <-]. split; [done|]. by exists (file_opened d0). }
  destruct (if cfg_mode cfg =? _ then _ else _) as [o w2]. destruct (Ho o w2 eq_refl) as (Hf2 & b & Hd2).
  destruct o; cbn [negb]; [|intros [= <- <-]; by eauto].
  destruct (detools_apply_patch_init _ _) as [r dt]. destruct (r =? 0); cbn [negb]; [|intros [= <- <-]; by eauto].
  intros [= <- <-]. split; [|done]. cbn [ds put_ds put_dt]. rewrite Hd2. split; [done|done|].
  intros _. split_and!; [|done|done]. destruct Hp. btest. unfold UINT32_MAX, FWUP_SIGNATURE_SIZE, ECC_SIG_SIZE in *.
  assert (HA : 0 < MCU_FLASH_WRITE_ALIGNMENT) by apply alignment_ok.
  rewrite Hcs in Eov1, Eov2. rewrite u32_small in Eov1, Eov2 by lia. unfold d0.
  split; cbn [slot_size active_slot_base_addr active_slot_offset_pointer target_slot_base_addr
    target_slot_offset_pointer write_buffer write_buffer_fill set_header set_file_opened];
    first [done|unfold UINT32_MAX; lia].
Qed.

Lemma put_dw_step s w : dflash w = flash s → fw_step s (put_dw s w).
Proof. intros Hw. split; [done|]. unfold flash at 2. cbn [dw put_dw]. by rewrite Hw. Qed.

Lemma start_spec s cmd ok rsp s' : fwup_wf s →
  fwup_start sy FWUP_DELTA_MAX_PATCH_SIZE s cmd = (ok, rsp, s') →
  fwup_wf s' ∧ fw_step s s'
  ∧ zlen (pending_signature (fwup_priv s')) = FWUP_SIGNATURE_SIZE
  ∧ (ok = true → is_delta_update (st_mode cmd) = false →
       ∀ a, tgt s ≤ a < tgt s + size s → flash_byte (flash s') a = 0xFF).
Proof.
  intros [Hp Hd]. unfold fwup_start. set (p := begin_session _ _).
  assert (Hp' : slots_wf p) by (by apply begin_session_wf).
  assert (Hd' : delta_ok p (ds (dw s))) by (by destruct Hd; split).
  destruct (is_delta_update (st_mode cmd)) eqn:Em.
  - destruct (fwup_delta_init _ _ _) as [ok1 w] eqn:Ei.
    apply (delta_init_ok p) in Ei as [Hd1 Hf1]; [|done|done|done|done|done].
    destruct ok1; cbn [negb]; intros [= <- <- <-];
      (split_and!; [by split|by split; [|unfold flash; cbn [dw put_dw put_priv]; rewrite Hf1]|apply Hp'|done]).
  - destruct (fwup_flash_erase_app _ _ _) as [ok1 fl] eqn:Ee.
    unfold fwup_flash_erase_app in Ee. rewrite <- (sw_size _ Hp') in Ee.
    assert (Hw : within (tgt s) (tgt s + size s) (flash s) fl
      ∧ (ok1 = true → ∀ a, tgt s ≤ a < tgt s + size s → flash_byte fl a = 0xFF)).
    { destruct Hp. unfold UINT32_MAX, FWUP_SIGNATURE_SIZE, ECC_SIG_SIZE in *.
      eapply flash_erase_spec in Ee; [exact Ee|done|done|done|cbn; lia|cbn; lia]. }
    destruct Hw as [Hw Hff].
    destruct ok1; cbn [negb]; intros [= <- <- <-]; (split_and!; [by split|by split|apply Hp'|]); [|done].
    intros _ _ a Ha. by apply Hff.
Qed.

(** ** Transfer *)

(** The ranges of the fields of a decoded command. *)
Record tx_ok (cmd : transfer_cmd) : Prop := {
  tx_seq_ok : 0 ≤ tx_sequence_id cmd;
  tx_off_ok : 0 ≤ tx_offset cmd ≤ UINT32_MAX;
  tx_len_ok : zlen (tx_data cmd) ≤ FWUP_DATA_MAX;
}.

(** Where the chunk goes in the slot. *)
Definition chunk_at (cmd : transfer_cmd) : Z :=
  tx_sequence_id cmd * fwup_flash_get_max_chunk_size + tx_offset cmd.

Abbreviation boundary s := (size s - FWUP_SIGNATURE_SIZE).

Lemma write_part_spec s o data : fwup_wf s → 0 ≤ o → o + zlen data ≤ size s →
  ∃ ok s', write_firmware_part s o (o + zlen data) (boundary s) data = Done (ok, s')
    ∧ fwup_wf s' ∧ fwup_priv s' = fwup_priv s ∧ fw_step s s'
    ∧ within (tgt s + o) (tgt s + Z.min (o + zlen data) (boundary s)) (flash s) (flash s')
    ∧ (ok = true → ∀ i b, data !! i = Some b → o + Z.of_nat i < boundary s →
         flash_byte (flash s') (tgt s + o + Z.of_nat i)
         = Z.land (flash_byte (flash s) (tgt s + o + Z.of_nat i)) b).
Proof.
  intros Hwf Ho Hend. pose proof (zlen_nonneg data) as Hl.
  assert (HS : FWUP_SIGNATURE_SIZE = 64) by done. unfold write_firmware_part.
  set (e := Z.min (o + zlen data) (boundary s)). set (n := if o <? e then e - o else 0).
  assert (Hn : 0 ≤ n ≤ zlen data) by (unfold n, e; case_match; btest; lia).
  destruct (0 <? n) eqn:En; btest; cycle 1.
  { exists true, s. split_and!; [done|done|done|done|by intros a|].
    intros _ i b Hb Hi. apply lookup_lt_Some in Hb. unfold n, e, zlen in *. case_match; btest; lia. }
  assert (Hne : n = e - o) by (unfold n in *; case_match; [done|lia]).
  rewrite mread_prefix by lia. cbn [obind].
  destruct (fwup_flash_write _ _ _) as [ok fl] eqn:Ew. apply write_within in Ew as Hw.
  rewrite zlen_ztake in Hw by lia.
  assert (Hw' : within (tgt s + o) (tgt s + e) (flash s) fl) by (eapply within_mono; [exact Hw|lia|lia]).
  exists ok, (put_fl s fl). split; [done|]. split; [by destruct Hwf; split|]. split; [done|].
  split; [split; [done|]; eapply within_mono; [exact Hw|lia|unfold e in *; lia]|]. split; [done|].
  intros -> i b Hb Hi. eapply write_ok; [exact Ew|]. unfold ztake. rewrite lookup_take.
  rewrite decide_True; [done|]. apply lookup_lt_Some in Hb. unfold e, zlen in *. lia.
Qed.

Lemma store_part_spec s o data : fwup_wf s → 0 ≤ o → o + zlen data ≤ size s →
  ∃ s', store_signature_part s o (o + zlen data) (boundary s) data = Done (true, s')
    ∧ fwup_wf s' ∧ flash s' = flash s ∧ fw_step s s'
    ∧ (has_pending_signature (fwup_priv s) = true → has_pending_signature (fwup_priv s') = true)
    ∧ (∀ j, boundary s + Z.of_nat j < o ∨ o + zlen data ≤ boundary s + Z.of_nat j →
         pending_signature (fwup_priv s') !! j = pending_signature (fwup_priv s) !! j)
    ∧ (∀ i b j, data !! i = Some b → o + Z.of_nat i = boundary s + Z.of_nat j →
         pending_signature (fwup_priv s') !! j = Some b ∧ has_pending_signature (fwup_priv s') = true).
Proof.
  intros Hwf Ho Hend. pose proof (zlen_nonneg data) as Hl.
  assert (HS : FWUP_SIGNATURE_SIZE = 64) by done. unfold store_signature_part.
  destruct (boundary s <? o + zlen data) eqn:Eb; btest; cbn [andb]; cycle 1.
  { exists s. split_and!; [done|done|done|done|done|done|].
    intros i b j Hb%lookup_lt_Some Hi. unfold zlen in *. lia. }
  destruct (o <? size s) eqn:Eo; btest; cycle 1.
  { exists s. split_and!; [done|done|done|done|done|done|].
    intros i b j Hb%lookup_lt_Some Hi. unfold zlen in *. lia. }
  pose proof (sw_pending _ (fw_slots _ Hwf)) as Hpl. pose proof (sw_size_min _ (fw_slots _ Hwf)) as Hmin.
  set (st := Z.max o (boundary s)). set (part := ztake (o + zlen data - st) (zdrop (st - o) data)).
  assert (Hst : o ≤ st ≤ o + zlen data ∧ boundary s ≤ st) by (unfold st; lia).
  rewrite (proj2 (Z.ltb_ge _ _)) by lia.
  assert (Hpart : zlen part = o + zlen data - st) by (unfold part; rewrite zlen_ztake; [done|rewrite zlen_zdrop; lia]).
  unfold mread. replace (_ && _) with true by (symmetry; rewrite !andb_true_iff, !Z.leb_le; lia).
  cbn [obind]. fold part. rewrite mwrite_at by lia. cbn [obind].
  set (sig := ztake _ _ ++ part ++ zdrop _ _).
  assert (Hsig : zlen sig = FWUP_SIGNATURE_SIZE) by (unfold sig; rewrite !zlen_app, zlen_ztake, zlen_zdrop; lia).
  exists (put_priv s (put_pending_signature (fwup_priv s) sig)). split; [done|].
  split; [destruct Hwf as [[] []]; by split; split|]. split; [done|]. split; [by split|]. split; [done|].
  cbn [fwup_priv put_priv put_pending_signature pending_signature has_pending_signature].
  assert (Htk : length (ztake (st - boundary s) (pending_signature (fwup_priv s))) = Z.to_nat (st - boundary s)).
  { unfold ztake. rewrite length_take. unfold zlen in Hpl. lia. }
  split.
  - intros j Hj. unfold sig. destruct (decide (Z.of_nat j < st - boundary s)) as [Hlt|Hge].
    + rewrite lookup_app_l by lia. unfold ztake. rewrite lookup_take. by rewrite decide_True by lia.
    + rewrite lookup_app_r by lia. assert (zlen part ≤ Z.of_nat j - (st - boundary s)) by lia.
      rewrite lookup_app_r by (unfold zlen in *; lia). unfold zdrop. rewrite lookup_drop. f_equal.
      rewrite Htk. unfold zlen in *. lia.
  - intros i b j Hb Hij. split; [|done]. pose proof (lookup_lt_Some _ _ _ Hb) as Hi. unfold sig.
    assert (st - boundary s ≤ Z.of_nat j) by (unfold st; lia).
    rewrite lookup_app_r, Htk by lia. rewrite lookup_app_l by (unfold zlen in *; lia).
    unfold part, ztake, zdrop. rewrite lookup_take, lookup_drop. rewrite decide_True by (unfold zlen in *; lia).
    rewrite <- Hb. f_equal. unfold st in *. lia.
Qed.

(** What an accepted chunk of [data] at offset [o] of the slot leaves: its
    bytes are programmed, or are in the signature buffer, and the rest stays. *)
Record placed s (o : Z) (data : list Z) s' : Prop := {
  pl_end : o + zlen data ≤ size s;
  pl_flash i b : data !! i = Some b → o + Z.of_nat i < boundary s →
    flash_byte (flash s') (tgt s + o + Z.of_nat i)
    = Z.land (flash_byte (flash s) (tgt s + o + Z.of_nat i)) b;
  pl_flash_frame : within (tgt s + o) (tgt s + Z.min (o + zlen data) (boundary s)) (flash s) (flash s');
  pl_sig i b j : data !! i = Some b → o + Z.of_nat i = boundary s + Z.of_nat j →
    pending_signature (fwup_priv s') !! j = Some b ∧ has_pending_signature (fwup_priv s') = true;
  pl_sig_frame j : boundary s + Z.of_nat j < o ∨ o + zlen data ≤ boundary s + Z.of_nat j →
    pending_signature (fwup_priv s') !! j = pending_signature (fwup_priv s) !! j;
  pl_keep : has_pending_signature (fwup_priv s) = true → has_pending_signature (fwup_priv s') = true;
}.

Lemma handle_write_spec s cmd : fwup_wf s → tx_ok cmd →
  ∃ ok st s', fwup_handle_write s cmd = Done (ok, st, s') ∧ fwup_wf s' ∧ fw_step s s'
    ∧ within (tgt s) (tgt s + boundary s) (flash s) (flash s')
    ∧ (ok = true → placed s (chunk_at cmd) (tx_data cmd) s').
Proof.
  intros Hwf [Hseq Hoff Hlen]. pose proof max_chunk_size_range as Hmax. pose proof (zlen_nonneg (tx_data cmd)).
  assert (HS : FWUP_SIGNATURE_SIZE = 64) by done. pose proof (sw_size_min _ (fw_slots _ Hwf)) as Hmin.
  destruct (slots_wf_pages s (fw_slots _ Hwf)) as (_ & Hend & _). pose proof (sw_pos _ (fw_slots _ Hwf)).
  assert (Hr : within (tgt s) (tgt s + boundary s) (flash s) (flash s)) by reflexivity.
  unfold fwup_handle_write. rewrite (proj2 (Z.eqb_neq _ 0)) by lia. cbn [negb ASSERT obind].
  destruct (_ <? tx_sequence_id cmd) eqn:Eseq; [by exists false, TRANSFER_ERROR, s|]. btest.
  assert (Hca : 0 ≤ chunk_at cmd ≤ UINT32_MAX).
  { unfold chunk_at. pose proof (Z.mul_div_le (UINT32_MAX - tx_offset cmd) fwup_flash_get_max_chunk_size (proj1 max_chunk_size_range)).
    nia. }
  fold (chunk_at cmd). unfold UINT32_MAX, FWUP_DATA_MAX in *. rewrite (u32_small (chunk_at cmd)) by lia.
  destruct (_ <? chunk_at cmd) eqn:Ewr; [by exists false, TRANSFER_ERROR, s|]. btest.
  assert (Hno : u32 (chunk_at cmd + zlen (tx_data cmd)) = chunk_at cmd + zlen (tx_data cmd)).
  { destruct (Z.lt_ge_cases (chunk_at cmd + zlen (tx_data cmd)) 4294967296); [apply u32_small; lia|].
    unfold u32 in Ewr. rewrite <- (Z.mod_unique_pos _ 4294967296 1
      (chunk_at cmd + zlen (tx_data cmd) - 4294967296)) in Ewr; lia. }
  rewrite Hno. destruct (size s <? _) eqn:Esz; [by exists false, TRANSFER_ERROR, s|]. btest.
  rewrite (proj2 (Z.ltb_ge (size s) _)) by lia.
  destruct (write_part_spec s (chunk_at cmd) (tx_data cmd) Hwf ltac:(lia) ltac:(lia))
    as (ok1 & s1 & -> & Hwf1 & Hp1 & Hs1 & Hw1 & Hb1). cbn [obind].
  assert (Hw : within (tgt s) (tgt s + boundary s) (flash s) (flash s1))
    by (eapply within_mono; [exact Hw1|lia|lia]).
  destruct ok1; cbn [negb]; [|by exists false, TRANSFER_ERROR, s1].
  destruct (store_part_spec s1 (chunk_at cmd) (tx_data cmd) Hwf1) as (s2 & E2 & Hwf2 & Hf2 & Hs2 & Hk2 & Hfr2 & Hsg2);
    [lia|rewrite Hp1; lia|]. rewrite Hp1 in *. rewrite E2. cbn [obind negb].
  eexists _, _, s2. split; [done|]. split; [done|]. split; [by transitivity s1|]. split; [by rewrite Hf2|].
  intros _. split; [lia| |by rewrite Hf2|done|done|done]. intros i b Hb Hi. rewrite Hf2. by apply Hb1.
Qed.

Lemma delta_transfer_spec (w : dworld F L D) cmd :
  ∃ ok w', fwup_delta_transfer w cmd = Done (ok, w') ∧ dflash w' = dflash w
    ∧ ∃ b, ds w' = set_file_opened (ds w) b.
Proof.
  assert (Hid : ∀ w : dworld F L D, ∃ b, ds w = set_file_opened (ds w) b)
    by (intros [[] ? ? ?]; by eexists).
  unfold fwup_delta_transfer. destruct (tx_mode cmd =? _); [by eauto|].
  destruct (tx_mode cmd =? _); [|by eauto]. pose proof max_chunk_size_range.
  unfold fwup_delta_write_patch. rewrite (proj2 (Z.eqb_neq _ 0)) by lia. cbn [negb ASSERT obind].
  destruct (_ <? tx_sequence_id cmd); [eexists _, _; split; [done|apply close_opened]|].
  destruct (_ <? zlen _); [eexists _, _; split; [done|apply close_opened]|].
  destruct (fs_file_seek _ _ _ _) as [r1 s1].
  destruct (r1 <? 0); [eexists _, _; split; [done|apply (close_opened (put_fs w s1))]|].
  destruct (fs_file_write _ _ _) as [r2 s2].
  destruct (r2 <? 0); [eexists _, _; split; [done|apply (close_opened (put_fs (put_fs w s1) s2))]|].
  eexists _, _. split; [done|]. split; [done|]. apply (Hid w).
Qed.

(** A transfer never touches the signature in flash. *)
Lemma transfer_spec s cmd : fwup_wf s → tx_ok cmd →
  ∃ ok st s', fwup_transfer s cmd = Done (ok, st, s') ∧ fwup_wf s' ∧ fw_step s s'
    ∧ within (tgt s) (tgt s + boundary s) (flash s) (flash s')
    ∧ (ok = true → is_delta_update (tx_mode cmd) = false → placed s (chunk_at cmd) (tx_data cmd) s').
Proof.
  intros Hwf Hok. unfold fwup_transfer. destruct (is_delta_update (tx_mode cmd)) eqn:Em.
  - destruct (delta_transfer_spec (dw s) cmd) as (ok & w' & -> & Hf & b & Hd). cbn [obind].
    eexists _, _, _. split; [done|]. destruct Hwf as [Hp Hdk]. split.
    { split; [done|]. cbn [ds dw put_dw fwup_priv]. rewrite Hd. by apply delta_ok_opened. }
    split; [by apply put_dw_step|]. split; [|done]. unfold flash at 2. cbn [dw put_dw]. by rewrite Hf.
  - destruct (handle_write_spec s cmd Hwf Hok) as (ok & st & s' & -> & ? & ? & ? & ?). by eauto 10.
Qed.

(** ** Chunks in any order *)

Fixpoint transfer_all s (cmds : list transfer_cmd) : outcome (bool * fwup_t F L D) :=
  match cmds with
  | [] => Done (true, s)
  | cmd :: cmds =>
      let! '(ok, _, s) := fwup_transfer s cmd in
      if negb ok then Done (false, s) else transfer_all s cmds
  end.

(** A command that carries a piece of [image] to its place. *)
Record chunk_of (image : list Z) (cmd : transfer_cmd) : Prop := {
  co_ok : tx_ok cmd;
  co_mode : is_delta_update (tx_mode cmd) = false;
  co_data i b : tx_data cmd !! i = Some b →
    image !! Z.to_nat (chunk_at cmd + Z.of_nat i) = Some b;
}.

Definition covers (cmd : transfer_cmd) (i : nat) : Prop :=
  chunk_at cmd ≤ Z.of_nat i < chunk_at cmd + zlen (tx_data cmd).

(** The slot and the signature buffer hold what the chunks have covered; the
    rest of the image is erased or there already, the signature is erased. *)
Record mirrors s (image : list Z) (cmds : list transfer_cmd) : Prop := {
  mi_some i b : image !! i = Some b → Z.of_nat i < boundary s →
    flash_byte (flash s) (tgt s + Z.of_nat i) = 0xFF ∨ flash_byte (flash s) (tgt s + Z.of_nat i) = b;
  mi_flash i b : image !! i = Some b → Z.of_nat i < boundary s → Exists (λ c, covers c i) cmds →
    flash_byte (flash s) (tgt s + Z.of_nat i) = b;
  mi_sig i b j : image !! i = Some b → Z.of_nat i = boundary s + Z.of_nat j →
    Exists (λ c, covers c i) cmds →
    pending_signature (fwup_priv s) !! j = Some b ∧ has_pending_signature (fwup_priv s) = true;
  mi_erased a : tgt s + boundary s ≤ a < tgt s + size s → flash_byte (flash s) a = 0xFF;
}.

Lemma land_same b : Z.land b b = b.
Proof. apply Z.land_diag. Qed.

(** One chunk more. *)
Lemma placed_mirrors s image cmd cmds s' : fw_step s s' → bytes_ok image →
  within (tgt s) (tgt s + boundary s) (flash s) (flash s') →
  mirrors s image cmds → chunk_of image cmd → 0 ≤ chunk_at cmd →
  placed s (chunk_at cmd) (tx_data cmd) s' → mirrors s' image (cmd :: cmds).
Proof.
  intros [(Ht & Hs & _ & _) _] Hby Hw [Ms Mf Mg Me] [_ _ Hdata] Hpos [Pe Pf Pff Pg Pgf Pk].
  assert (Hhit : ∀ i b, image !! i = Some b → covers cmd i →
    ∃ k, tx_data cmd !! k = Some b ∧ Z.of_nat i = chunk_at cmd + Z.of_nat k).
  { intros i b Hi Hc. unfold covers in Hc.
    destruct (lookup_lt_is_Some_2 (tx_data cmd) (Z.to_nat (Z.of_nat i - chunk_at cmd))) as [x Hx];
      [unfold zlen in Hc; lia|].
    exists (Z.to_nat (Z.of_nat i - chunk_at cmd)). split; [|lia]. rewrite Hx. f_equal.
    pose proof (Hdata _ _ Hx) as Hd. replace (Z.to_nat _) with i in Hd by lia. congruence. }
  assert (Hmiss : ∀ i, ¬ covers cmd i → Z.of_nat i < boundary s →
    flash_byte (flash s') (tgt s + Z.of_nat i) = flash_byte (flash s) (tgt s + Z.of_nat i)).
  { intros i Hc Hi. apply Pff. unfold covers in Hc. lia. }
  assert (Hnew : ∀ i b, image !! i = Some b → covers cmd i → Z.of_nat i < boundary s →
    flash_byte (flash s') (tgt s + Z.of_nat i) = b).
  { intros i b Hi Hc Hb. destruct (Hhit i b Hi Hc) as (k & Hk & Hik).
    pose proof (Pf k b Hk ltac:(lia)) as Hf.
    replace (tgt s + chunk_at cmd + Z.of_nat k) with (tgt s + Z.of_nat i) in Hf by lia. rewrite Hf.
    destruct (Ms i b Hi Hb) as [-> | ->]; [|apply land_same].
    apply land_erased_byte. by eapply Forall_lookup_1. }
  assert (Hdec : ∀ i, covers cmd i ∨ ¬ covers cmd i) by (intros i; unfold covers; lia).
  split; rewrite ?Ht, ?Hs.
  - intros i b Hi Hb. destruct (Hdec i) as [Hc|Hc]; [right; by apply Hnew|]. rewrite Hmiss by done. by apply Ms.
  - intros i b Hi Hb Hex. destruct (Hdec i) as [Hc|Hc]; [by apply Hnew|]. rewrite Hmiss by done.
    apply Exists_cons in Hex as [?|Hex]; [done|]. by apply Mf.
  - intros i b j Hi Hij Hex. destruct (Hdec i) as [Hc|Hc].
    + destruct (Hhit i b Hi Hc) as (k & Hk & Hik). apply (Pg k b j Hk). lia.
    + apply Exists_cons in Hex as [?|Hex]; [done|]. destruct (Mg i b j Hi Hij Hex) as [Hp Hh].
      split; [|by apply Pk]. rewrite Pgf; [done|]. unfold covers in Hc. lia.
  - intros a Ha. rewrite Hw by lia. apply Me. lia.
Qed.

Lemma transfer_all_mirrors image cmds : ∀ s seen s', fwup_wf s → bytes_ok image →
  Forall (chunk_of image) cmds → mirrors s image seen →
  transfer_all s cmds = Done (true, s') →
  fwup_wf s' ∧ fw_step s s' ∧ mirrors s' image (rev cmds ++ seen).
Proof.
  induction cmds as [|cmd cmds IH]; intros s seen s' Hwf Hby Hall Hm E; cbn [transfer_all rev] in *.
  { by injection E as <-. }
  apply Forall_cons in Hall as [Hc Hall].
  destruct (transfer_spec s cmd Hwf (co_ok _ _ Hc)) as (ok & st & s1 & E1 & Hwf1 & Hs1 & Hw1 & Hp).
  rewrite E1 in E. cbn [obind] in E. destruct ok; cbn [negb] in E; [|done].
  specialize (Hp eq_refl (co_mode _ _ Hc)).
  assert (Hpos : 0 ≤ chunk_at cmd).
  { destruct Hc as [[] _ _]. pose proof max_chunk_size_range. unfold chunk_at. nia. }
  pose proof (placed_mirrors s image cmd seen s1 Hs1 Hby Hw1 Hm Hc Hpos Hp) as Hm1.
  destruct (IH s1 (cmd :: seen) s' Hwf1 Hby Hall Hm1 E) as (Hwf2 & Hs2 & Hm2).
  split_and!; [done|by transitivity s1|]. by rewrite <- app_assoc.
Qed.

(** C11: a full image sent in chunks, in any order and with any repetitions,
    arrives: after a start in normal mode, once every byte is covered and every
    transfer was answered with success, the slot holds the image up to the
    signature, the signature is in RAM, and its place in flash is still
    erased. *)
Theorem fwup_transfer_roundtrip s cmd rsp s1 image cmds s2 : fwup_wf s →
  is_delta_update (st_mode cmd) = false →
  fwup_start sy FWUP_DELTA_MAX_PATCH_SIZE s cmd = (true, rsp, s1) →
  zlen image = size s → bytes_ok image → Forall (chunk_of image) cmds →
  (∀ i, (i < length image)%nat → Exists (λ c, covers c i) cmds) →
  transfer_all s1 cmds = Done (true, s2) →
  mem_bytes (flash s2) (tgt s) (boundary s) = ztake (boundary s) image
  ∧ fwup_get_pending_signature s2 = Some (zdrop (boundary s) image)
  ∧ mem_bytes (flash s2) (tgt s + boundary s) FWUP_SIGNATURE_SIZE
    = replicate (Z.to_nat FWUP_SIGNATURE_SIZE) 0xFF.
Proof.
  intros Hwf Hmode Est Hlen Hby Hall Hcov E. pose proof (sw_size_min _ (fw_slots _ Hwf)) as Hmin.
  assert (HS : FWUP_SIGNATURE_SIZE = 64) by done.
  apply start_spec in Est as (Hwf1 & [(Ht & Hs & _) _] & Hpl & Hff); [|done]. specialize (Hff eq_refl Hmode).
  assert (Hm : mirrors s1 image []).
  { split; rewrite ?Ht, ?Hs; [|by intros ? ? ? ? ?%Exists_nil|by intros ? ? ? ? ? ?%Exists_nil|].
    - intros i b Hi Hb. left. apply Hff. lia.
    - intros a Ha. apply Hff. lia. }
  destruct (transfer_all_mirrors image cmds s1 [] s2 Hwf1 Hby Hall Hm E)
    as (Hwf2 & [(Ht2 & Hs2 & _) _] & [Ms Mf Mg Me]).
  rewrite app_nil_r, Ht2, Hs2, Ht, Hs in *.
  assert (Hc : ∀ i b, image !! i = Some b → Exists (λ c, covers c i) (rev cmds)).
  { intros i b Hi. apply List.Exists_rev, Hcov. by eapply lookup_lt_Some. }
  pose proof (sw_pending _ (fw_slots _ Hwf2)) as Hpl2.
  assert (Hsig : ∀ j b, image !! (Z.to_nat (boundary s) + j)%nat = Some b →
    pending_signature (fwup_priv s2) !! j = Some b ∧ has_pending_signature (fwup_priv s2) = true).
  { intros j b Hj. eapply Mg; [exact Hj|lia|by eapply Hc]. }
  split_and!.
  - replace (boundary s) with (zlen (ztake (boundary s) image)) at 1 by (rewrite zlen_ztake; lia).
    apply mem_bytes_eq. intros i b Hb. apply lookup_take_Some in Hb as [Hb Hi].
    apply Mf; [done|lia|by eapply Hc].
  - unfold fwup_get_pending_signature.
    destruct (lookup_lt_is_Some_2 image (Z.to_nat (boundary s) + 0)) as [b0 Hb0]; [unfold zlen in *; lia|].
    destruct (Hsig 0%nat b0 Hb0) as [_ ->]. f_equal. apply list_eq. intros j.
    unfold zdrop. rewrite lookup_drop. destruct (image !! (Z.to_nat (boundary s) + j)%nat) as [b|] eqn:Hj; [by destruct (Hsig j b Hj)|].
    apply lookup_ge_None in Hj. apply lookup_ge_None. unfold zlen in *. lia.
  - refine (mem_bytes_eq (flash s2) _ (replicate (Z.to_nat FWUP_SIGNATURE_SIZE) 0xFF) _).
    intros i b Hb. apply lookup_replicate in Hb as [-> Hi]. apply Me. lia.
Qed.

(** ** Commit *)

Lemma signature_in_slot s : fwup_wf s →
  target_slot_signature (fwup_priv s) = tgt s + boundary s
  ∧ tgt s ≤ tgt s + boundary s ∧ tgt s + boundary s + FWUP_SIGNATURE_SIZE = tgt s + size s.
Proof. intros [[] _]. unfold FWUP_SIGNATURE_SIZE, ECC_SIG_SIZE in *. lia. Qed.

(** Writing a signature to its place. *)
Lemma commit_to_spec s sig ok s' : fwup_wf s → zlen sig = FWUP_SIGNATURE_SIZE →
  fwup_commit_signature_to s (target_slot_signature (fwup_priv s)) sig = (ok, s') →
  fwup_wf s' ∧ fw_step s s' ∧ fwup_priv s' = fwup_priv s
  ∧ (ok = true → within (tgt s + boundary s) (tgt s + size s) (flash s) (flash s')
       ∧ (bytes_ok sig →
          mem_bytes (flash s) (tgt s + boundary s) FWUP_SIGNATURE_SIZE
            = replicate (Z.to_nat FWUP_SIGNATURE_SIZE) 0xFF →
          mem_bytes (flash s') (tgt s + boundary s) FWUP_SIGNATURE_SIZE = sig)).
Proof.
  intros Hwf Hlen. pose proof (signature_in_slot s Hwf) as (Ha & Hlo & Hhi).
  destruct (slots_wf_pages s (fw_slots _ Hwf)) as (_ & Hend & Hpg). pose proof (fw_slots _ Hwf) as [].
  unfold fwup_commit_signature_to.
  rewrite Ha. destruct (fwup_flash_write _ _ _) as [ok1 fl1] eqn:Ew. apply write_within in Ew as Hw1.
  rewrite Hlen, Hhi in Hw1.
  assert (Hwf' : ∀ fl, fwup_wf (put_fl s fl)) by (intros fl; by destruct Hwf as [? []]; split).
  assert (Hw1' : within (tgt s) (tgt s + size s) (flash s) fl1) by (eapply within_mono; [exact Hw1|lia|lia]).
  destruct ok1; cbn [negb]; cycle 1.
  { destruct (fwup_flash_erase_app_signature fl1 _) as [ok2 fl2] eqn:Ee.
    apply (signature_page_spec _ _ (tgt s) (tgt s + size s)) in Ee; try done;
      [|unfold FWUP_SIGNATURE_SIZE, ECC_SIG_SIZE in *; lia|lia].
    intros [= <- <-]. split_and!; [done| |done|done]. split; [done|]. by transitivity fl1. }
  intros [= <- <-]. split_and!; [done|by split|done|]. intros _. split; [done|]. intros Hb Her.
  pose proof (mem_bytes_eq fl1 (tgt s + boundary s) sig) as He.
  rewrite Hlen in He. apply He. intros i b Hi. rewrite (write_ok _ _ _ _ i b Ew Hi).
  assert (Hlt : (i < Z.to_nat FWUP_SIGNATURE_SIZE)%nat).
  { apply lookup_lt_Some in Hi. unfold zlen in Hlen. lia. }
  pose proof (mem_bytes_lookup (flash s) (tgt s + boundary s) FWUP_SIGNATURE_SIZE i Hlt) as Hl.
  rewrite Her, lookup_replicate_2 in Hl by done. injection Hl as <-. apply land_erased_byte. by eapply Forall_lookup_1.
Qed.

Lemma commit_spec s ok s' : fwup_wf s → fwup_commit_signature s = (ok, s') →
  fwup_wf s' ∧ fw_step s s' ∧ fwup_priv s' = fwup_priv s
  ∧ (ok = true → within (tgt s + boundary s) (tgt s + size s) (flash s) (flash s')
       ∧ (bytes_ok (pending_signature (fwup_priv s)) →
          mem_bytes (flash s) (tgt s + boundary s) FWUP_SIGNATURE_SIZE
            = replicate (Z.to_nat FWUP_SIGNATURE_SIZE) 0xFF →
          mem_bytes (flash s') (tgt s + boundary s) FWUP_SIGNATURE_SIZE
            = pending_signature (fwup_priv s))).
Proof.
  intros Hwf. unfold fwup_commit_signature. destruct (negb _); [by intros [= <- <-]|].
  apply commit_to_spec; [done|]. apply (fw_slots _ Hwf).
Qed.

(** ** Finish *)

Context `{CertLayout} `{SecureBoot F} `{FwTrust F} (chipid : list Z) (lay : boot_layout).
Context `{!FwVerifyLaws F chipid lay}.

Lemma delta_finish_spec s mode : fwup_wf s →
  ∃ ok w', fwup_delta_finish (fwup_slot_size sy) pubkey (dw s) mode = Done (ok, w')
    ∧ fwup_wf (put_dw s w') ∧ fw_step s (put_dw s w').
Proof.
  intros Hwf. assert (Hid : fwup_wf (put_dw s (dw s)) ∧ fw_step s (put_dw s (dw s))) by (by destruct s).
  unfold fwup_delta_finish. destruct (delta_initialized (ds (dw s))) eqn:Ei; cbn [negb]; [|by eauto].
  destruct (mode =? _); [by eauto|]. destruct (mode =? _); [|by eauto].
  destruct Hwf as [Hp Hd]. destruct Hd as [Hb Hh Hi]. destruct (Hi Ei) as (Hdw & Htb & Hsz).
  destruct (apply_spec (fwup_slot_size sy) pubkey (dw s)) as (ok & w' & -> & Hdw' & [Kb Ks Ka Kh Kf]); [done| |].
  { split; [|rewrite Htb; apply Hp|rewrite <- (sw_size _ Hp); apply Hp|done].
    by rewrite Hsz, (sw_size _ Hp). }
  rewrite Htb, Hsz in *. eexists _, _. split; [done|]. split.
  - split; [done|]. split; [apply Hdw'|by rewrite <- Kh in Hh|]. intros _. by split_and!.
  - by split.
Qed.

Lemma verify_application_total s cmd : fwup_wf s → ∃ st, verify_application sy ml s cmd = Done st.
Proof.
  intros Hwf. unfold verify_application.
  assert (Hk : ∀ status, ∃ st, match status with
    | FWUP_VERIFY_SUCCESS => if confirmation_check_required s then
        let! ok := check_confirmed_version sy ml s in
        Done (if ok then FWUP_VERIFY_SUCCESS else FWUP_VERIFY_CONFIRMATION_MISMATCH)
      else Done FWUP_VERIFY_SUCCESS
    | _ => Done status end = Done st).
  { intros []; try by eauto. case_match; [|by eauto]. unfold check_confirmed_version. case_match; [by eauto|].
    destruct (fwup_get_target_version_total ml (active_slot sy) (flash s)) as [v ->]. by eauto. }
  assert (Hst : ∃ status, (if size s <? FWUP_SIGNATURE_SIZE then Done FWUP_VERIFY_ERROR
     else if negb (fi_signature_offset cmd =? boundary s) then Done FWUP_VERIFY_BAD_OFFSET
     else if negb (has_pending_signature (fwup_priv s)) then Done FWUP_VERIFY_SIGNATURE_INVALID
     else fwup_verify_new_app (fwup_priv s) (flash s) (fi_app_properties_offset cmd)
            (pending_signature (fwup_priv s))) = Done status).
  { destruct (_ <? _); [by eauto|]. destruct (negb _); [by eauto|]. destruct (negb _); [by eauto|].
    apply law_verify_app_total, (sw_pos _ (fw_slots _ Hwf)). }
  destruct Hst as [status ->]. apply Hk.
Qed.

(** Without a bootloader update, a finish returns and stays in the slot. *)
Lemma finish_spec s cmd : fwup_wf s → support_bl_upgrade (fwup_priv s) = false →
  ∃ ok st s', fwup_finish sy ml pubkey s cmd = Done (ok, st, s') ∧ fwup_wf s' ∧ fw_step s s'
    ∧ fwup_priv s' = fwup_priv s
    ∧ (is_delta_update (fi_mode cmd) = false → flash s' = flash s).
Proof.
  intros Hwf Hbl. unfold fwup_finish. rewrite Hbl.
  destruct (fi_bl_upgrade cmd); cbn [andb negb].
  { exists false, FINISH_ERROR, s. by split_and!. }
  destruct (is_delta_update (fi_mode cmd)) eqn:Em.
  - destruct (delta_finish_spec s (fi_mode cmd) Hwf) as (ok & w' & -> & Hwf1 & Hs1). cbn [obind].
    destruct ok; cbn [negb]; [|exists false, FINISH_ERROR, (put_dw s w'); by split_and!].
    destruct (verify_application_total (put_dw s w') cmd Hwf1) as [st ->]. cbn [obind].
    destruct (finish_result st) as [ok st']. exists ok, st', (put_dw s w'). by split_and!.
  - cbn [obind negb]. destruct (verify_application_total s cmd Hwf) as [st ->]. cbn [obind].
    destruct (finish_result st) as [ok st']. exists ok, st', s. by split_and!.
Qed.

Lemma finish_result_ok status st : finish_result status = (true, st) →
  status = FWUP_VERIFY_SUCCESS ∧ st = FINISH_SUCCESS.
Proof. by destruct status; intros [=]. Qed.

Lemma verify_application_sound s cmd : verify_application sy ml s cmd = Done FWUP_VERIFY_SUCCESS →
  FWUP_SIGNATURE_SIZE ≤ size s ∧ fi_signature_offset cmd = boundary s
  ∧ has_pending_signature (fwup_priv s) = true
  ∧ fwup_verify_new_app (fwup_priv s) (flash s) (fi_app_properties_offset cmd)
      (pending_signature (fwup_priv s)) = Done FWUP_VERIFY_SUCCESS
  ∧ (confirmation_check_required s = true → check_confirmed_version sy ml s = Done true).
Proof.
  unfold verify_application. intros (status & E1 & E2)%obind_inv.
  assert (status = FWUP_VERIFY_SUCCESS) as -> by (by destruct status).
  destruct (size s <? _) eqn:Es; [done|]. destruct (negb _) eqn:Eo in E1; [done|].
  destruct (has_pending_signature _); [|done]. apply negb_false_iff, Z.eqb_eq in Eo.
  apply Z.ltb_ge in Es. split_and!; [done|done|done|done|]. intros Hc. rewrite Hc in E2.
  apply obind_inv in E2 as ([] & E2 & ?); done.
Qed.

Lemma finish_sound s cmd st s' : fi_bl_upgrade cmd = false →
  fwup_finish sy ml pubkey s cmd = Done (true, st, s') →
  let p := fwup_priv s' in
  let image_props := target_slot_addr p + fi_app_properties_offset cmd in
  st = FINISH_SUCCESS
  ∧ fi_signature_offset cmd = app_slot_size p - FWUP_SIGNATURE_SIZE
  ∧ fwup_get_pending_signature s' = Some (pending_signature p)
  ∧ (∃ cur, running_props p (flash s') = Done (Some cur)
      ∧ props_version (flash s') cur < props_version (flash s') image_props)
  ∧ (∃ bl, bootloader_props (flash s') = Done (Some bl)
      ∧ bl_verify_app_slot chipid lay (flash s') (props_cert (flash s') bl) image_props
          (target_slot_addr p) (u32 (app_slot_size p - ECC_SIG_SIZE)) (pending_signature p) = Done true)
  ∧ (confirmation_check_required s' = true → has_confirmation_version p = true
      ∧ ∃ v, fwup_get_target_version ml (active_slot sy) (flash s') = Done v
          ∧ fwup_semver_equals (Some (confirmation_version p)) v = true).
Proof.
  intros Hbl E p props. subst p props. unfold fwup_finish in E. rewrite Hbl in E. cbn [andb] in E.
  apply obind_inv in E as ([ok s1] & _ & E). destruct ok; cbn [negb] in E; [|done].
  apply obind_inv in E as ([status s2] & E1 & E). apply obind_inv in E1 as (status' & E1 & [= -> ->]).
  injection E as Er ->. apply finish_result_ok in Er as [-> ->].
  apply verify_application_sound in E1 as (_ & Ho & Hh & Hv & Hc).
  apply law_verify_app_sound in Hv as (_ & Hcur & Hslot). split_and!; [done|done| |done|done|].
  - unfold fwup_get_pending_signature. by rewrite Hh.
  - intros Hr. specialize (Hc Hr). unfold check_confirmed_version in Hc.
    destruct (has_confirmation_version _); [|done]. split; [done|].
    apply obind_inv in Hc as (v & Hv & [= He]). by exists v.
Qed.

(** C10: what a successful finish of an application update has checked, on the
    flash as the finish leaves it (after a patch has been applied): the
    signature is the last 64 bytes of the slot and was received, the image is
    newer than the running one, its slot verifies under the certificate of the
    device's bootloader with that signature, and when a version was confirmed
    (or a confirmation is required) the metadata of the new image carries
    exactly the confirmed version. *)
Theorem fwup_finish_sound s cmd st s' : fi_bl_upgrade cmd = false →
  fwup_finish sy ml pubkey s cmd = Done (true, st, s') →
  let p := fwup_priv s' in
  let image_props := target_slot_addr p + fi_app_properties_offset cmd in
  st = FINISH_SUCCESS
  ∧ fi_signature_offset cmd = app_slot_size p - FWUP_SIGNATURE_SIZE
  ∧ fwup_get_pending_signature s' = Some (pending_signature p)
  ∧ (∃ cur, running_props p (flash s') = Done (Some cur)
      ∧ props_version (flash s') cur < props_version (flash s') image_props)
  ∧ (∃ bl, bootloader_props (flash s') = Done (Some bl)
      ∧ bl_verify_app_slot chipid lay (flash s') (props_cert (flash s') bl) image_props
          (target_slot_addr p) (u32 (app_slot_size p - ECC_SIG_SIZE)) (pending_signature p) = Done true)
  ∧ (confirmation_check_required s' = true → has_confirmation_version p = true
      ∧ ∃ v, fwup_get_target_version ml (active_slot sy) (flash s') = Done v
          ∧ fwup_semver_equals (Some (confirmation_version p)) v = true).
Proof. apply finish_sound. Qed.
End Spec.
