(* ===== verification/FwTask.v ===== *)
(** * The update task of the core (app/tasks/fwup/src/core, src/w1-core)

    [fwup_task.c] routes the commands of the host to the update engine or,
    through its port, to the coprocessor, and ends an update with a reset. The
    port is the class [FwupPort]; this file has the port of the first device,
    which has no coprocessor.

    A handler runs in the monad [task]: it passes the world (the engine, the
    session, the state of the port and the log of what left the device), and
    stops where the source calls [mcu_reset_with_reason]. What the handler asks
    of the other tasks (whether a message could be sent, the time, random
    bytes) is the [env] of the event. Sleeps are left out. *)

From S2P Require Import Prelude Timer Sleep Auth FwFlash Fs SecBoot Metadata FwVerify FwDelta.
From S2P Require Import FwWriter FwPatch Fwup FwupSpec.
#[local] Open Scope Z_scope.
#[local] Open Scope list_scope.

Definition MCU_ROLE_CORE : Z := 0.
Definition MCU_ROLE_UXC : Z := 1.

(** ** What leaves the device *)

Inductive ui_event :=
| UI_EVENT_FWUP_START
| UI_EVENT_FWUP_CONFIRMATION
| UI_EVENT_FWUP_VERIFYING
| UI_EVENT_FWUP_COMPLETE (is_final : option bool)
| UI_EVENT_FWUP_FAILED
| UI_EVENT_LED_CLEAR.

Inductive fwpb_status := STATUS_ERROR | STATUS_CONFIRMATION_PENDING | STATUS_CONFIRMATION_NOT_COMPLETED.

(** [fwpb_wallet_rsp]; a pending confirmation carries its two handles. *)
Inductive wallet_rsp :=
| fwup_start_rsp (r : start_rsp)
| fwup_transfer_rsp (st : transfer_status)
| fwup_finish_rsp (st : finish_status)
| get_confirmation_result_rsp (r : start_rsp)
| status_rsp (st : fwpb_status) (handles : option (list Z * list Z)).

(** The messages of the update between the two processors. *)
Inductive uxc_msg_host :=
| host_start (cmd : start_cmd)
| host_transfer (cmd : transfer_cmd)
| host_finish (cmd : finish_cmd)
| host_commit_sig.

Inductive uxc_msg_device :=
| device_start (r : start_rsp)
| device_transfer (st : transfer_status)
| device_finish (st : finish_status)
| device_commit_sig (ok : bool).

Inductive out :=
| Rsp (seq : Z) (r : wallet_rsp)
| Ui (e : ui_event)
| ToUxc (seq : Z) (m : uxc_msg_host)
| ToCore (seq : Z) (m : uxc_msg_device)
| NfcDisable
| NfcEnable (token : Z)
| UxcPendingVersion (v : fwpb_semver)
| UxcHeldInReset
| McuReset.

(** What the other tasks answer to the handler of an event: whether a message
    could be allocated and sent, whether the response was still awaited, the
    state of the onboarding, the time, the bytes of [crypto_random], and the
    token of [nfc_disable]. *)
Record env := mk_env {
  uc_alloc : bool;
  uc_sent : bool;
  rsp_sent : bool;
  onboarded : secure_bool_t;
  now : Z;
  rng1 : option (list Z);
  rng2 : option (list Z);
  nfc_token : Z;
}.

(** The messages of the task's queue; [seq] is what [proto_get_cmd_seq] or the
    header of the other processor's message carries. *)
Inductive fwup_msg :=
| FWUP_START_CMD (seq : Z) (cmd : start_cmd)
| FWUP_TRANSFER_CMD (seq : Z) (cmd : transfer_cmd)
| FWUP_FINISH_CMD (seq : Z) (cmd : finish_cmd)
| FWUP_CONFIRMATION_RESULT (seq : Z) (rh ch : list Z)
| FWUP_START_COPROC_RSP (seq : Z) (r : start_rsp)
| FWUP_TRANSFER_COPROC_RSP (seq : Z) (st : transfer_status)
| FWUP_FINISH_COPROC_RSP (seq : Z) (st : finish_status)
| FWUP_COMMIT_SIG_COPROC_RSP (seq : Z) (ok : bool)
| FWUP_COPROC_VERSION (v : fwpb_semver).

(** ** The monad of the handlers *)

Record world (F L D T P : Type) := mk_world {
  fw : fwup_t F L D;
  auth : auth_ctx_t T;
  port : P;
  log : list out;
}.
Arguments mk_world {F L D T P}.
Arguments fw {F L D T P}.
Arguments auth {F L D T P}.
Arguments port {F L D T P}.
Arguments log {F L D T P}.

(** [None] after [mcu_reset_with_reason]. *)
Definition task (W A : Type) : Type := W → outcome (option A * W).

Definition ret {W A} (a : A) : task W A := λ w, Done (Some a, w).
Definition tbind {W A B} (m : task W A) (k : A → task W B) : task W B := λ w,
  let! '(a, w) := m w in
  match a with Some a => k a w | None => Done (None, w) end.

Declare Scope task_scope.
Delimit Scope task_scope with task.
Notation "'do!' x ':=' e 'in' k" := (tbind e (λ x, k))
  (at level 10, x name, e at level 200, k at level 200) : task_scope.
Notation "'run!' e 'in' k" := (tbind e (λ _ : unit, k))
  (at level 10, e at level 200, k at level 200) : task_scope.
#[local] Open Scope task_scope.

Section Monad.
Context {F L D T P : Type}.
#[local] Abbreviation world := (world F L D T P).
#[local] Abbreviation task := (task world).

Definition put_fw (w : world) (s : fwup_t F L D) : world := mk_world s (auth w) (port w) (log w).
Definition put_auth (w : world) (a : auth_ctx_t T) : world := mk_world (fw w) a (port w) (log w).
Definition put_port (w : world) (p : P) : world := mk_world (fw w) (auth w) p (log w).
Definition put_log (w : world) (l : list out) : world := mk_world (fw w) (auth w) (port w) l.

(** The newest entry of the log is its last. *)
Definition emit (o : out) : task unit := λ w, Done (Some tt, put_log w (log w ++ [o])).
Definition get_fw : task (fwup_t F L D) := λ w, Done (Some (fw w), w).
Definition get_port : task P := λ w, Done (Some (port w), w).
Definition set_port (p : P) : task unit := λ w, Done (Some tt, put_port w p).
Definition update_fw (f : fwup_t F L D → fwup_t F L D) : task unit := λ w,
  Done (Some tt, put_fw w (f (fw w))).

(** A call of the engine. *)
Definition on_fw {A} (f : fwup_t F L D → outcome (A * fwup_t F L D)) : task A := λ w,
  let! '(a, s) := f (fw w) in Done (Some a, put_fw w s).

Definition on_auth `{SwTimer T} (f : auth_ctx_t T → outcome (auth_ctx_t T)) : task unit := λ w,
  let! a := f (auth w) in Done (Some tt, put_auth w a).

Definition mcu_reset_with_reason {A} : task A := λ w, Done (None, put_log w (log w ++ [McuReset])).
Definition tassert (c : bool) : task unit := λ w, let! _ := ASSERT c in Done (Some tt, w).
End Monad.

(** What core/fwup_task.c calls of its port. *)
Class FwupPort (F L D T P : Type) := {
  fwup_task_send_coproc_fwup_start_cmd : env → Z → start_cmd → task (world F L D T P) bool;
  fwup_task_send_coproc_fwup_transfer_cmd : env → Z → transfer_cmd → task (world F L D T P) unit;
  fwup_task_send_coproc_fwup_finish_cmd : env → Z → finish_cmd → task (world F L D T P) unit;
  fwup_handle_confirmation_result : env → Z → list Z → list Z → task (world F L D T P) bool;
  fwup_task_handle_coproc_fwup_start : env → Z → start_rsp → task (world F L D T P) unit;
  fwup_task_handle_coproc_fwup_transfer : env → Z → transfer_status → task (world F L D T P) unit;
  fwup_task_handle_coproc_fwup_finish : env → Z → finish_status → task (world F L D T P) unit;
  fwup_task_handle_commit_sig_rsp : env → Z → bool → task (world F L D T P) unit;
  fwup_task_handle_coproc_version : env → fwpb_semver → task (world F L D T P) unit;
  fwup_task_port_handle_start_cmd : env → Z → start_cmd → task (world F L D T P) bool;
  fwup_task_port_try_atomic_commit : env → task (world F L D T P) bool;
  fwup_task_port_is_deferred_session : task (world F L D T P) bool;
}.

(** ** core/fwup_task.c *)

Section Task.
Context {F L D C T P : Type} `{FlashMem F} `{Platform} `{Littlefs L} `{Detools D} `{PatchCrypto C}.
Context `{FwVerify F} `{Cmp} `{SwTimer T} `{Port : FwupPort F L D T P}.
Variable sy : fw_symbols.
Variable ml : meta_layout.
Variable fwup_delta_patch_pubkey : list Z.
#[local] Abbreviation world := (world F L D T P).
#[local] Abbreviation task := (task world).

(** [fwup_task_create]: [options] are the two fields of the argument. *)
Definition fwup_task_create (s : fwup_t F L D) (bl_upgrade : bool) (confirmation : secure_bool_t)
    : outcome (fwup_t F L D) :=
  let! target := fwup_target_slot_address sy in
  let! current := fwup_current_slot_address sy in
  let! signature := fwup_target_slot_signature_address sy in
  Done (fwup_init s target current signature (fwup_slot_size sy) bl_upgrade confirmation).

Definition known_role (role : Z) : bool := (role =? MCU_ROLE_CORE) || (role =? MCU_ROLE_UXC).

Definition fwup_task_handle_start_cmd (e : env) (seq : Z) (cmd : start_cmd) : task bool :=
  do! s := get_fw in
  if negb (known_role (st_mcu_role cmd)) || fwup_should_reject_cmd s then
    run! emit (Rsp seq (fwup_start_rsp (mk_start_rsp START_ERROR 0))) in ret false
  else if negb (st_mcu_role cmd =? MCU_ROLE_CORE) then fwup_task_send_coproc_fwup_start_cmd e seq cmd
  else fwup_task_port_handle_start_cmd e seq cmd.

Definition fwup_task_handle_transfer_cmd (e : env) (seq : Z) (cmd : transfer_cmd) : task unit :=
  do! s := get_fw in
  if negb (known_role (tx_mcu_role cmd)) || fwup_should_reject_cmd s then
    emit (Rsp seq (fwup_transfer_rsp TRANSFER_ERROR))
  else if negb (tx_mcu_role cmd =? MCU_ROLE_CORE) then fwup_task_send_coproc_fwup_transfer_cmd e seq cmd
  else
    do! r := on_fw (λ s, let! '(ok, st, s) := fwup_transfer s cmd in Done (st, s)) in
    emit (Rsp seq (fwup_transfer_rsp r)).

(** [SECURE_DO] runs its statement three times. *)
Definition secure_deauthenticate (f : auth_ctx_t T → outcome (auth_ctx_t T)) : task unit :=
  run! on_auth f in run! on_auth f in on_auth f.

(** The engine's finish, after the response for a patch that is applied
    outside of the NFC field, before it otherwise; the result is [success]. *)
Definition finish_engine (seq : Z) (cmd : finish_cmd) : task bool :=
  if fi_mode cmd =? FWUP_MODE_DELTA_ONESHOT then
    do! c := on_fw (λ s, let '(ok, st, s) := fwup_pre_apply_check s cmd in Done ((ok, st), s)) in
    if negb (fst c) then
      run! emit (Rsp seq (fwup_finish_rsp (default FINISH_UNSPECIFIED (snd c)))) in ret false
    else
      run! emit (Rsp seq (fwup_finish_rsp FINISH_WILL_APPLY_PATCH)) in
      run! emit (Ui UI_EVENT_FWUP_VERIFYING) in
      on_fw (λ s, let! '(ok, st, s) := fwup_finish sy ml fwup_delta_patch_pubkey s cmd in Done (ok, s))
  else
    run! emit (Ui UI_EVENT_FWUP_VERIFYING) in
    do! r := on_fw (λ s, let! '(ok, st, s) := fwup_finish sy ml fwup_delta_patch_pubkey s cmd in
                         Done ((ok, st), s)) in
    run! emit (Rsp seq (fwup_finish_rsp (snd r))) in
    ret (fst r).

(** The rest of the handler, once no atomic commit has been started. *)
Definition finish_update (success bl_upgrade : bool) : task unit :=
  do! deferred := fwup_task_port_is_deferred_session in
  let success := if success && deferred then false else success in
  do! success := (if success && negb bl_upgrade then on_fw (λ s, Done (fwup_commit_signature s))
                  else ret success) in
  run! emit (Ui UI_EVENT_LED_CLEAR) in
  run! (if (success : bool) then emit (Ui (UI_EVENT_FWUP_COMPLETE (Some true)))
        else run! secure_deauthenticate deauthenticate_without_animation in
             emit (Ui UI_EVENT_FWUP_FAILED)) in
  mcu_reset_with_reason.

Definition fwup_task_handle_finish_cmd (e : env) (seq : Z) (cmd : finish_cmd) : task unit :=
  do! s := get_fw in
  if negb (known_role (fi_mcu_role cmd)) || fwup_should_reject_cmd s then
    emit (Rsp seq (fwup_finish_rsp FINISH_ERROR))
  else if negb (fi_mcu_role cmd =? MCU_ROLE_CORE) then fwup_task_send_coproc_fwup_finish_cmd e seq cmd
  else
    do! success := finish_engine seq cmd in
    do! started := (if success then fwup_task_port_try_atomic_commit e else ret false) in
    if (started : bool) then ret tt else finish_update success (fi_bl_upgrade cmd).

(** The start of [fwup_thread], with what [sysevent_get] says of the file
    system, and one turn of its loop. *)
Definition fwup_thread_start (fs_ready : bool) : task unit :=
  if fs_ready then update_fw fwup_cleanup_stale_patch else ret tt.

Definition fwup_thread_step (e : env) (m : fwup_msg) : task unit :=
  match m with
  | FWUP_START_CMD seq cmd => do! _ := fwup_task_handle_start_cmd e seq cmd in ret tt
  | FWUP_TRANSFER_CMD seq cmd => fwup_task_handle_transfer_cmd e seq cmd
  | FWUP_FINISH_CMD seq cmd => fwup_task_handle_finish_cmd e seq cmd
  | FWUP_CONFIRMATION_RESULT seq rh ch => do! _ := fwup_handle_confirmation_result e seq rh ch in ret tt
  | FWUP_START_COPROC_RSP seq r => fwup_task_handle_coproc_fwup_start e seq r
  | FWUP_TRANSFER_COPROC_RSP seq st => fwup_task_handle_coproc_fwup_transfer e seq st
  | FWUP_FINISH_COPROC_RSP seq st => fwup_task_handle_coproc_fwup_finish e seq st
  | FWUP_COMMIT_SIG_COPROC_RSP seq ok => fwup_task_handle_commit_sig_rsp e seq ok
  | FWUP_COPROC_VERSION v => fwup_task_handle_coproc_version e v
  end.

(** The messages until the task resets the device. *)
Fixpoint fwup_thread_run (ms : list (env * fwup_msg)) : task unit :=
  match ms with
  | [] => ret tt
  | (e, m) :: ms => run! fwup_thread_step e m in fwup_thread_run ms
  end.
End Task.

(** ** Reasoning about handlers

    [hoare ab pre m post rst]: from a world with [pre] the handler returns with
    [post] or resets the device with [rst]. With [ab = False] it does one of the
    two (total correctness); with [ab = True] an assertion may also fail
    (partial correctness). *)
Section Hoare.
Context {W : Type}.

Definition hoare {A} (ab : Prop) (pre : W → Prop) (m : task W A) (post : A → W → Prop)
    (rst : W → Prop) : Prop :=
  ∀ w, pre w → match m w with
               | Done (Some a, w') => post a w'
               | Done (None, w') => rst w'
               | _ => ab
               end.

(** A handler that keeps an invariant, also where it resets the device. *)
Definition keeps {A} (ab : Prop) (inv : W → Prop) (m : task W A) : Prop := hoare ab inv m (λ _, inv) inv.

Lemma hoare_bind {A B} ab pre (m : task W A) mid (k : A → task W B) post rst :
  hoare ab pre m mid rst → (∀ a, hoare ab (mid a) (k a) post rst) → hoare ab pre (tbind m k) post rst.
Proof.
  intros Hm Hk w Hw. specialize (Hm w Hw). unfold tbind. destruct (m w) as [[[a|] w']| | |]; cbn [obind]; try done.
  by apply Hk.
Qed.

Lemma hoare_ret {A} ab (a : A) (post : A → W → Prop) rst : hoare ab (post a) (ret a) post rst.
Proof. by intros w Hw. Qed.

Lemma hoare_consequence {A} ab (pre pre' : W → Prop) (m : task W A) (post post' : A → W → Prop)
    (rst rst' : W → Prop) :
  hoare ab pre m post rst → (∀ w, pre' w → pre w) → (∀ a w, post a w → post' a w) →
  (∀ w, rst w → rst' w) → hoare ab pre' m post' rst'.
Proof.
  intros Hm Hpre Hpost Hrst w Hw. specialize (Hm w (Hpre w Hw)). destruct (m w) as [[[a|] w']| | |]; auto.
Qed.

Lemma keeps_ret {A} ab inv (a : A) : keeps ab inv (ret a).
Proof. by intros w Hw. Qed.

Lemma keeps_bind {A B} ab inv (m : task W A) (k : A → task W B) :
  keeps ab inv m → (∀ a, keeps ab inv (k a)) → keeps ab inv (tbind m k).
Proof. intros Hm Hk. by eapply hoare_bind. Qed.
End Hoare.

Section HoareWorld.
Context {F L D T P : Type}.
Implicit Types (inv : world F L D T P → Prop).

Lemma keeps_emit ab inv o : (∀ w l, inv w → inv (put_log w l)) → keeps ab inv (emit o).
Proof. intros Hl w Hw. by apply Hl. Qed.

Lemma keeps_reset {A} ab inv : (∀ w l, inv w → inv (put_log w l)) →
  keeps ab inv (mcu_reset_with_reason (A := A)).
Proof. intros Hl w Hw. by apply Hl. Qed.

Lemma keeps_get_fw ab inv : keeps ab inv get_fw.
Proof. by intros w Hw. Qed.

Lemma keeps_get_port ab inv : keeps ab inv get_port.
Proof. by intros w Hw. Qed.

Lemma keeps_tassert (ab : Prop) inv c : (c = false → ab) → keeps ab inv (tassert c).
Proof. intros Hc w Hw. unfold tassert, ASSERT. destruct c; cbn [obind]; auto. Qed.
End HoareWorld.

#[export] Hint Resolve keeps_ret keeps_get_fw keeps_get_port : fw.
