(* ===== verification/FwDevice.v ===== *)
(** * The first device: the update task on top of the loader

    The port of the first device (app/tasks/fwup/src/w1-core), which has no
    coprocessor, and what the whole update path promises: whatever the host
    sends, up to a command for the coprocessor that the device does not have,
    which stops it on an assertion, the loader finds a valid image that is no older than the running
    one, and an update that was accepted and committed is the one it boots. *)

From S2P Require Import Prelude Timer Sleep Auth FwFlash Fs SecBoot Metadata FwVerify FwDelta.
From S2P Require Import FwWriter FwPatch Fwup FwupSpec FwTask.
#[local] Open Scope Z_scope.
#[local] Open Scope list_scope.
#[local] Open Scope task_scope.

Module W1.
Section W1.
Context {F L D T : Type} `{FlashMem F} `{Platform} `{Littlefs L} `{Detools D}.
Variable sy : fw_symbols.
Variable FWUP_DELTA_MAX_PATCH_SIZE : Z.
#[local] Abbreviation task := (task (world F L D T unit)).

(** Should never be called on this device. *)
Definition send_coproc_start (_ : env) (_ : Z) (_ : start_cmd) : task bool :=
  run! tassert false in ret false.
Definition never {A} (_ : env) (_ : Z) (_ : A) : task unit := tassert false.

Definition port_handle_start_cmd (_ : env) (seq : Z) (cmd : start_cmd) : task bool :=
  run! emit (Ui UI_EVENT_FWUP_START) in
  do! r := on_fw (λ s, let '(result, rsp, s) := fwup_start sy FWUP_DELTA_MAX_PATCH_SIZE s cmd in
                       Done ((result, rsp), fwup_mark_pending s result)) in
  run! emit (Rsp seq (fwup_start_rsp (snd r))) in
  run! (if negb (fst r) then emit (Ui UI_EVENT_LED_CLEAR) else ret tt) in
  ret (fst r).

#[global] Instance w1_port : FwupPort F L D T unit := {
  fwup_task_send_coproc_fwup_start_cmd := send_coproc_start;
  fwup_task_send_coproc_fwup_transfer_cmd := never;
  fwup_task_send_coproc_fwup_finish_cmd := never;
  fwup_handle_confirmation_result _ _ _ _ := ret false;
  fwup_task_handle_coproc_fwup_start := never;
  fwup_task_handle_coproc_fwup_transfer := never;
  fwup_task_handle_coproc_fwup_finish := never;
  fwup_task_handle_commit_sig_rsp := never;
  fwup_task_handle_coproc_version _ _ := tassert false;
  fwup_task_port_handle_start_cmd := port_handle_start_cmd;
  fwup_task_port_try_atomic_commit _ := ret false;
  fwup_task_port_is_deferred_session := ret false;
}.
End W1.
End W1.

(** ** Every operation of the engine stays in the target slot *)

Section Engine.
Context {F L D C : Type} `{FlashMem F} `{Platform} `{Littlefs L} `{Detools D} `{PatchCrypto C}.
Context `{FwVerify F} `{Cmp} `{!FlashMemLaws F} `{CertLayout} `{SecureBoot F} `{FwTrust F}.
Variable sy : fw_symbols.
Variable ml : meta_layout.
Variable FWUP_DELTA_MAX_PATCH_SIZE : Z.
Variable pubkey : list Z.
Variables (chipid : list Z) (lay : boot_layout).
Context `{!FwVerifyLaws F chipid lay}.
Implicit Types (s : fwup_t F L D).

(** The state of the engine since [s0], on a device without bootloader
    updates. *)
Record since s0 s : Prop := {
  si_wf : fwup_wf sy s;
  si_step : fw_step s0 s;
  si_bl : support_bl_upgrade (fwup_priv s) = false;
}.

Lemma since_step s0 s s' : since s0 s → fwup_wf sy s' → fw_step s s' → since s0 s'.
Proof.
  intros [? Hst Hbl] ? Hst'. split; [done|by transitivity s|]. destruct Hst' as [(_ & _ & _ & ->) _]. done.
Qed.

(** A change of the flags, or of the file system, is no step. *)
Lemma since_same s0 s s' : since s0 s → fwup_priv s' = fwup_priv s → ds (dw s') = ds (dw s) →
  flash s' = flash s → since s0 s'.
Proof.
  intros [Hwf Hst Hbl] Hp Hd Hf. split; [|split|by rewrite Hp]; rewrite ?Hp, ?Hf; [|apply Hst|apply Hst].
  destruct Hwf. split; rewrite ?Hp, ?Hd; done.
Qed.

Lemma cleanup_same s : let s' := fwup_cleanup_stale_patch s in
  fwup_priv s' = fwup_priv s ∧ ds (dw s') = ds (dw s) ∧ flash s' = flash s.
Proof.
  unfold fwup_cleanup_stale_patch, fwup_delta_cleanup_stale_patch, flash. cbn [fwup_priv dw put_dw].
  by destruct (fs_file_exists _ _).
Qed.

Lemma check_header_ok p (w : dworld F L D) v req st w' : delta_ok p (ds w) →
  fwup_delta_check_header w v req = (st, w') → delta_ok p (ds w') ∧ dflash w' = dflash w.
Proof.
  intros Hd. unfold fwup_delta_check_header. destruct (negb _); [by intros [= <- <-]|].
  destruct (fs_file_seek _ _ _ _) as [r s1]. destruct (r <? 0); [by intros [= <- <-]|].
  destruct (fs_file_read _ _ _) as [[n header] s2]. destruct (negb _); [by intros [= <- <-]|].
  destruct (bool_decide _); [|by intros [= <- <-]]. destruct (_ || _); [by intros [= <- <-]|].
  intros [= <- <-]. split; [|done]. destruct Hd as [Hb Hh Hi]. split; cbn [ds put_ds put_fs].
  - done.
  - unfold set_header, hdr_byte, u8. cbn [header_size]. apply Z.mod_pos_bound. lia.
  - intros Hd. destruct (Hi Hd) as ([] & ? & ?). by split_and!.
Qed.

Lemma pre_apply_since s0 s cmd ok st s' : since s0 s → fwup_pre_apply_check s cmd = (ok, st, s') → since s0 s'.
Proof.
  intros Hs. unfold fwup_pre_apply_check. destruct (negb _); [by intros [= <- <- <-]|].
  destruct (_ && _); [by intros [= <- <- <-]|].
  destruct (fwup_delta_check_header _ _ _) as [status w] eqn:Ec. intros E.
  assert (s' = put_dw s w) as -> by (by destruct status; injection E).
  pose proof (si_wf _ _ Hs) as [Hsl Hd]. apply (check_header_ok (fwup_priv s)) in Ec as [Hd' Hf]; [|done].
  eapply since_step; [done|by split|by apply put_dw_step].
Qed.
End Engine.

(** ** The session ends without an assertion *)

Section Session.
Context {T : Type} `{SwTimer T}.

(** [auth_init] and [sleep_init] have created the timers. *)
Definition auth_ready (a : auth_ctx_t T) : Prop :=
  is_Some (tm_handle (auth_timer a)) ∧ is_Some (tm_handle (power_timer (auth_sleep a))).

(** The command queue of the kernel's timer task has room. *)
Definition timers_start : Prop := ∀ (t : T) d, is_Some (xTimerChangePeriod t d).

Lemma deauthenticate_ready a b : timers_start → auth_ready a →
  ∃ a', do_deauthenticate a b = Done a' ∧ auth_ready a' ∧ is_authenticated a' = SECURE_FALSE.
Proof.
  intros Hs [[h Hh] [h' Hh']]. unfold do_deauthenticate, rtos_timer_stop, timer_handle. rewrite Hh. cbn [obind].
  unfold sleep_start_power_timer. destruct (shutting_down _).
  - cbn [obind]. eexists. split; [done|]. split; [|done]. split; [done|by exists h'].
  - unfold rearm, rtos_timer_stop, rtos_timer_start, timer_handle. cbn [power_timer]. rewrite Hh'. cbn [obind tm_handle].
    match goal with |- context [xTimerChangePeriod ?t ?d] => destruct (Hs t d) as [t' ->] end.
    eexists. split; [done|]. split; [|done]. by split.
Qed.
End Session.

Section Device.
Context {F L D C T : Type} `{FlashMem F} `{Platform} `{Littlefs L} `{Detools D} `{PatchCrypto C}.
Context `{FwVerify F} `{Cmp} `{SwTimer T} `{CertLayout} `{SecureBoot F} `{FwTrust F}.
Context `{!FlashMemLaws F} `{!CertLayoutLaws} `{!SecureBootLaws F}.
Variable sy : fw_symbols.
Variable ml : meta_layout.
Variable FWUP_DELTA_MAX_PATCH_SIZE : Z.
Variable pubkey : list Z.
Variables (chipid : list Z) (lay : boot_layout).
Context `{!FwVerifyLaws F chipid lay}.
#[local] Abbreviation world := (world F L D T unit).
#[local] Abbreviation tgt s := (target_slot_addr (fwup_priv s)).
#[local] Abbreviation size s := (app_slot_size (fwup_priv s)).
#[local] Abbreviation step := (fwup_thread_step (Port := W1.w1_port sy FWUP_DELTA_MAX_PATCH_SIZE) sy ml pubkey).

Record dev_inv (s0 : fwup_t F L D) (w : world) : Prop := {
  di_fw : since sy s0 (fw w);
  di_auth : auth_ready (auth w);
}.

Hypothesis Htimers : timers_start (T := T).

Lemma dev_log s0 w l : dev_inv s0 w → dev_inv s0 (put_log w l).
Proof. by intros []. Qed.
#[local] Hint Resolve dev_log : core.

Lemma dev_emit s0 o : keeps False (dev_inv s0) (emit o).
Proof. apply keeps_emit. auto. Qed.

Lemma dev_reset {A} s0 : keeps False (dev_inv s0) (mcu_reset_with_reason (A := A)).
Proof. apply keeps_reset. auto. Qed.

(** A call of the engine that keeps its invariant. *)
Lemma dev_on_fw {A} s0 (f : fwup_t F L D → outcome (A * fwup_t F L D)) :
  (∀ s, since sy s0 s → ∃ a s', f s = Done (a, s') ∧ since sy s0 s') → keeps False (dev_inv s0) (on_fw f).
Proof. intros Hf w []. unfold on_fw. destruct (Hf (fw w)) as (a & s' & -> & ?); [done|]. by split. Qed.

Lemma dev_deauth s0 b : keeps False (dev_inv s0) (on_auth (λ a, do_deauthenticate a b)).
Proof.
  intros w []. unfold on_auth. destruct (deauthenticate_ready (auth w) b) as (a & -> & ? & _); [done|done|]. by split.
Qed.
#[local] Hint Resolve dev_emit dev_reset dev_deauth : fw.

Ltac keep := repeat first [apply keeps_bind; [|intros] | solve [eauto with fw] | case_match].

Lemma dev_start s0 e seq cmd :
  keeps False (dev_inv s0) (W1.port_handle_start_cmd sy FWUP_DELTA_MAX_PATCH_SIZE e seq cmd).
Proof.
  unfold W1.port_handle_start_cmd. keep.
  apply dev_on_fw. intros s Hs. destruct (fwup_start _ _ _ _) as [[ok rsp] s'] eqn:E.
  apply start_spec in E as (Hwf & Hst & _); [|apply Hs]. eexists _, _. split; [done|].
  apply (since_same _ _ s'); [by apply (since_step _ _ s)|done|done|done].
Qed.

Lemma dev_transfer s0 cmd : tx_ok cmd → keeps False (dev_inv s0)
  (on_fw (λ s, let! '(_, st, s) := fwup_transfer s cmd in Done (st, s))).
Proof.
  intros Hok. apply dev_on_fw. intros s Hs.
  destruct (transfer_spec sy s cmd (si_wf _ _ _ Hs) Hok) as (ok & st & s' & -> & ? & ? & _).
  eexists _, _. split; [done|]. by apply (since_step _ _ s).
Qed.

Lemma dev_finish {A} s0 cmd (k : bool → finish_status → A) : keeps False (dev_inv s0)
  (on_fw (λ s, let! '(ok, st, s) := fwup_finish sy ml pubkey s cmd in Done (k ok st, s))).
Proof.
  apply dev_on_fw. intros s Hs.
  destruct (finish_spec sy ml pubkey chipid lay s cmd (si_wf _ _ _ Hs) (si_bl _ _ _ Hs))
    as (ok & st & s' & -> & ? & ? & _).
  eexists _, _. split; [done|]. by apply (since_step _ _ s).
Qed.

Lemma dev_pre_apply s0 cmd : keeps False (dev_inv s0)
  (on_fw (λ s, let '(ok, st, s) := fwup_pre_apply_check s cmd in Done ((ok, st), s))).
Proof.
  apply dev_on_fw. intros s Hs. destruct (fwup_pre_apply_check s cmd) as [[ok st] s'] eqn:E.
  eexists _, _. split; [done|]. by eapply pre_apply_since.
Qed.

Lemma dev_commit s0 : keeps False (dev_inv s0) (on_fw (λ s, Done (fwup_commit_signature s))).
Proof.
  apply dev_on_fw. intros s Hs. destruct (fwup_commit_signature s) as [ok s'] eqn:E.
  apply (commit_spec sy) in E as (? & ? & _); [|apply Hs]. eexists _, _. split; [done|].
  by apply (since_step _ _ s).
Qed.
#[local] Hint Resolve dev_start dev_transfer dev_finish dev_pre_apply dev_commit : fw.

(** The messages of the first device: whatever the host sends, decoded. Messages
    of a coprocessor do not exist. *)
Definition host_msg (m : fwup_msg) : Prop :=
  match m with
  | FWUP_TRANSFER_CMD _ cmd => tx_ok cmd
  | FWUP_START_CMD _ _ | FWUP_FINISH_CMD _ _ | FWUP_CONFIRMATION_RESULT _ _ _ => True
  | _ => False
  end.

(** The host addresses a coprocessor. *)
Definition to_coprocessor (m : fwup_msg) : bool :=
  match m with
  | FWUP_START_CMD _ cmd => st_mcu_role cmd =? MCU_ROLE_UXC
  | FWUP_TRANSFER_CMD _ cmd => tx_mcu_role cmd =? MCU_ROLE_UXC
  | FWUP_FINISH_CMD _ cmd => fi_mcu_role cmd =? MCU_ROLE_UXC
  | _ => false
  end.

Lemma known_core role (b : bool) : (role =? MCU_ROLE_UXC) = false → negb (known_role role) || b = false →
  negb (role =? MCU_ROLE_CORE) = false.
Proof. unfold known_role, MCU_ROLE_UXC, MCU_ROLE_CORE. intros ? E. repeat (case_match; btest); done || lia. Qed.

Lemma dev_core_step s0 e m : host_msg m → to_coprocessor m = false → keeps False (dev_inv s0) (step e m).
Proof.
  destruct m as [seq cmd|seq cmd|seq cmd|seq rh ch| | | | |]; cbn [host_msg to_coprocessor fwup_thread_step]; intros Hm Hc;
    try done.
  - apply keeps_bind; [|intros; eauto with fw]. unfold fwup_task_handle_start_cmd.
    apply keeps_bind; [eauto with fw|]. intros s. destruct (_ || _) eqn:E; [keep|].
    rewrite (known_core _ _ Hc E). apply dev_start.
  - unfold fwup_task_handle_transfer_cmd.
    apply keeps_bind; [eauto with fw|]. intros s. destruct (_ || _) eqn:E; [keep|].
    rewrite (known_core _ _ Hc E). keep.
  - unfold fwup_task_handle_finish_cmd.
    apply keeps_bind; [eauto with fw|]. intros s. destruct (_ || _) eqn:E; [keep|].
    rewrite (known_core _ _ Hc E). unfold finish_engine, finish_update, secure_deauthenticate. keep; apply keeps_ret.
  - keep; apply keeps_ret.
Qed.

(** A command for a coprocessor is refused or fails the assertion of the port. *)
Lemma dev_coprocessor_step s0 e m w : to_coprocessor m = true → dev_inv s0 w →
  step e m w = Abort ∨ ∃ r w', step e m w = Done (r, w') ∧ dev_inv s0 w'.
Proof.
  intros Hc Hw.
  assert (Huxc : ∀ role b, (role =? MCU_ROLE_UXC) = true → negb (known_role role) || b = b ∧ negb (role =? MCU_ROLE_CORE) = true).
  { intros role b ->%Z.eqb_eq. done. }
  destruct m as [seq cmd|seq cmd|seq cmd| | | | | |]; cbn [to_coprocessor] in Hc; try done;
    destruct (Huxc _ (fwup_should_reject_cmd (fw w)) Hc) as [Hrej Hrole]; cbn [fwup_thread_step];
    unfold fwup_task_handle_start_cmd, fwup_task_handle_transfer_cmd, fwup_task_handle_finish_cmd, tbind, get_fw;
    cbn [obind]; rewrite Hrej, Hrole; destruct (fwup_should_reject_cmd (fw w));
    (right; do 2 eexists; split; [reflexivity|by apply dev_log]) || by left.
Qed.

(** The run up to the command that stops the device, if there is one. *)
Lemma dev_run s0 ms : Forall (λ em, host_msg em.2) ms → ∀ w, dev_inv s0 w →
  ∃ ms1 ms2 r w', ms = ms1 ++ ms2 ∧ dev_inv s0 w'
    ∧ fwup_thread_run (Port := W1.w1_port sy FWUP_DELTA_MAX_PATCH_SIZE) sy ml pubkey ms1 w = Done (r, w')
    ∧ (r = None ∨ ms2 = [] ∨ ∃ e m ms3, ms2 = (e, m) :: ms3 ∧ to_coprocessor m = true ∧ step e m w' = Abort).
Proof.
  induction 1 as [|[e m] ms Hm _ IH]; intros w Hw.
  { exists [], [], (Some tt), w. by split_and!; auto. }
  assert (Hs : step e m w = Abort ∧ to_coprocessor m = true ∨ ∃ r w', step e m w = Done (r, w') ∧ dev_inv s0 w').
  { destruct (to_coprocessor m) eqn:Ec; [destruct (dev_coprocessor_step s0 e m w Ec Hw); auto|right].
    pose proof (dev_core_step s0 e m Hm Ec w Hw) as Hk.
    destruct (step e m w) as [[[[]|] w']| | |]; [..|done|done|done]; by eexists _, _. }
  destruct Hs as [[Ha Hc]|(r & w1 & E1 & Hw1)].
  { exists [], ((e, m) :: ms), (Some tt), w. split_and!; [done|done|done|]. right. right. by exists e, m, ms. }
  destruct r as [[]|].
  - destruct (IH w1 Hw1) as (ms1 & ms2 & r & w' & -> & Hw' & Er & Hend). exists ((e, m) :: ms1), ms2, r, w'.
    split_and!; [done|done| |done]. cbn [fwup_thread_run]. unfold tbind at 1. rewrite E1. exact Er.
  - exists [(e, m)], ms, None, w1. split_and!; [done|done| |by left].
    cbn [fwup_thread_run]. unfold tbind at 1. by rewrite E1.
Qed.

(** ** Booting *)

(** The memory map of the device that runs [active]: the engine of [s] updates
    the other slot, which overlaps neither the running image nor the
    certificate of the bootloader. *)
Record map_wf (active : boot_slot_id) (s : fwup_t F L D) : Prop := {
  mw_chipid : zlen chipid ≤ 16;
  mw_slot : slot_wf (slot_of lay active);
  mw_apart : slot_end (slot_of lay active) ≤ tgt s ∨ tgt s + size s ≤ start_addr (slot_of lay active);
  mw_cert : bl_certificate lay + sizeof_app_certificate ≤ tgt s ∨ tgt s + size s ≤ bl_certificate lay;
}.

Lemma step_boots active s s' : map_wf active s → cert_inside (flash s) (slot_of lay active) →
  verify_slot chipid lay (flash s) active = Done true → fw_step s s' →
  verify_slot chipid lay (flash s') active = Done true
  ∧ slot_version lay (flash s') active = slot_version lay (flash s) active.
Proof.
  intros [Hc Hs Ha Hb] Hin Hv [_ Hw].
  destruct (verify_slot_local chipid lay _ _ _ _ active Hw Hs Hin Ha Hb) as [-> ->]. done.
Qed.

(** The loader's choice, given that the active slot verifies. *)
Lemma boots_newest fl active : zlen chipid ≤ 16 → verify_slot chipid lay fl active = Done true →
  ∃ t, loader_main chipid lay fl = Done (jump_to_app fl (sym_boot_addr (slot_of lay t)))
    ∧ verify_slot chipid lay fl t = Done true
    ∧ slot_version lay fl active ≤ slot_version lay fl t.
Proof.
  intros Hc Hv. destruct (loader_boots chipid lay fl active Hc Hv) as (t & Hb & Ht & Hn).
  exists t. split_and!; [done|done|]. destruct active, t; cbn [other_slot] in Hn; try lia; by apply Hn.
Qed.

(** C6: whatever sequence of update commands the host sends to the first device,
    built without bootloader updates, the task handles them without undefined
    behaviour and without a failed assertion, up to the first command for a
    coprocessor, which the device does not have: such a command is refused or
    stops the device on an assertion, before it has changed anything. When the
    device then restarts, after the task's reset, the failed assertion or a loss
    of power between commands, the loader boots a slot that verifies and whose
    image is not older than the one that was running before. *)
Theorem fwup_device_boots active (w : world) ms :
  fwup_wf sy (fw w) → support_bl_upgrade (fwup_priv (fw w)) = false → auth_ready (auth w) →
  map_wf active (fw w) → cert_inside (flash (fw w)) (slot_of lay active) →
  verify_slot chipid lay (flash (fw w)) active = Done true →
  Forall (λ em, host_msg em.2) ms →
  ∃ ms1 ms2 r w' t,
    ms = ms1 ++ ms2
    ∧ fwup_thread_run (Port := W1.w1_port sy FWUP_DELTA_MAX_PATCH_SIZE) sy ml pubkey ms1 w = Done (r, w')
    ∧ (r = None ∨ ms2 = [] ∨ ∃ e m ms3, ms2 = (e, m) :: ms3 ∧ to_coprocessor m = true ∧ step e m w' = Abort)
    ∧ loader_main chipid lay (flash (fw w')) =
        Done (jump_to_app (flash (fw w')) (sym_boot_addr (slot_of lay t)))
    ∧ verify_slot chipid lay (flash (fw w')) t = Done true
    ∧ slot_version lay (flash (fw w)) active ≤ slot_version lay (flash (fw w')) t.
Proof.
  intros Hwf Hbl Hau Hmap Hin Hv Hms.
  assert (Hw : dev_inv (fw w) w) by (split; [by split; [|reflexivity|]|done]).
  destruct (dev_run (fw w) ms Hms w Hw) as (ms1 & ms2 & r & w' & Hsplit & [[_ Hst _] _] & Er & Hend).
  destruct (step_boots active _ _ Hmap Hin Hv Hst) as [Hv' Hver].
  destruct (boots_newest _ _ (mw_chipid _ _ Hmap) Hv') as (t & Hb & Ht & Hn).
  exists ms1, ms2, r, w', t. rewrite Hver in Hn. by split_and!.
Qed.

(** The slot that the engine of [s] updates, as the loader knows it, with its
    properties where the finish command said. *)
Record target_is (t : boot_slot_id) (s : fwup_t F L D) (off : Z) : Prop := {
  ti_start : start_addr (slot_of lay t) = tgt s;
  ti_size : signing_size (slot_of lay t) = size s - FWUP_SIGNATURE_SIZE;
  ti_sig : signature_addr (slot_of lay t) = target_slot_signature (fwup_priv s);
  ti_props : properties_addr (slot_of lay t) = tgt s + off;
  ti_wf : slot_wf (slot_of lay t);
}.

(** A verified image whose signature is then written verifies in the loader. *)
Lemma committed_verifies t s off s' :
  fwup_wf sy s → target_is t s off → bytes_ok (pending_signature (fwup_priv s)) →
  mem_bytes (flash s) (tgt s + (size s - FWUP_SIGNATURE_SIZE)) FWUP_SIGNATURE_SIZE
    = replicate (Z.to_nat FWUP_SIGNATURE_SIZE) 0xFF →
  bl_certificate lay + sizeof_app_certificate ≤ tgt s ∨ tgt s + size s ≤ bl_certificate lay →
  props_cert (flash s) (tgt s + off) + sizeof_app_certificate ≤ tgt s + (size s - FWUP_SIGNATURE_SIZE) →
  bl_verify_app_slot chipid lay (flash s) (bl_certificate lay) (tgt s + off) (tgt s)
    (u32 (size s - ECC_SIG_SIZE)) (pending_signature (fwup_priv s)) = Done true →
  fwup_commit_signature s = (true, s') →
  verify_slot chipid lay (flash s') t = Done true
  ∧ slot_version lay (flash s') t = props_version (flash s) (tgt s + off).
Proof.
  intros Hwf [Ts Tn Tg Tp [? Wsg ? ? Wpe]] Hby Her Hbl Hce Hv Ec.
  pose proof (signature_in_slot sy s Hwf) as (Hsa & Hlo & _).
  pose proof (sw_end _ _ (fw_slots _ _ Hwf)) as Hend. pose proof (sw_pos _ _ (fw_slots _ _ Hwf)) as Hpos.
  pose proof (sw_size_min _ _ (fw_slots _ _ Hwf)) as Hmin.
  apply (commit_spec sy) in Ec as (_ & _ & _ & Hok); [|done]. destruct (Hok eq_refl) as [Hw Hsg].
  specialize (Hsg Hby Her). unfold verify_slot, slot_version.
  rewrite Tp, Ts, Tn, Tg, Hsa in *. unfold FWUP_SIGNATURE_SIZE, UINT32_MAX, ECC_SIG_SIZE in *.
  pose proof law_props_pos. rewrite u32_small in Hv by lia. rewrite Hsg. split.
  - rewrite <- Hv. eapply (verify_app_slot_local chipid lay _ _ _ _ _ _ _ _ _ Hw); lia.
  - eapply (props_fields_ext _ _ _ _ _ Hw). lia.
Qed.

(** An update that was finished and committed is the one that boots. After
    a successful finish of an application, when the place of the signature in
    flash is erased and [fwup_commit_signature] succeeds, the loader jumps into
    the new image: its slot verifies and it is strictly newer than the image
    that was running, whether or not that one still verifies. *)
Theorem fwup_commit_boots active s cmd st s1 s2 :
  fi_bl_upgrade cmd = false → fwup_finish sy ml pubkey s cmd = Done (true, st, s1) → fwup_wf sy s1 →
  map_wf active s1 → target_is (other_slot active) s1 (fi_app_properties_offset cmd) →
  (∀ cur, running_props (fwup_priv s1) (flash s1) = Done (Some cur) →
     cur = properties_addr (slot_of lay active)) →
  (∀ bl, bootloader_props (flash s1) = Done (Some bl) → props_cert (flash s1) bl = bl_certificate lay) →
  bytes_ok (pending_signature (fwup_priv s1)) →
  mem_bytes (flash s1) (tgt s1 + (size s1 - FWUP_SIGNATURE_SIZE)) FWUP_SIGNATURE_SIZE
    = replicate (Z.to_nat FWUP_SIGNATURE_SIZE) 0xFF →
  props_cert (flash s1) (tgt s1 + fi_app_properties_offset cmd) + sizeof_app_certificate
    ≤ tgt s1 + (size s1 - FWUP_SIGNATURE_SIZE) →
  fwup_commit_signature s1 = (true, s2) →
  loader_main chipid lay (flash s2) =
    Done (jump_to_app (flash s2) (sym_boot_addr (slot_of lay (other_slot active))))
  ∧ slot_version lay (flash s2) active < slot_version lay (flash s2) (other_slot active).
Proof.
  intros Hbl Ef Hwf Hmap Hti Hrun Hboot Hby Her Hce Ec.
  destruct (finish_sound sy ml pubkey chipid lay _ _ _ _ Hbl Ef) as (_ & _ & _ & (cur & Hcur & Hnew) & (bl & Hblp & Hv) & _).
  apply Hrun in Hcur as ->. apply Hboot in Hblp. rewrite Hblp in Hv.
  destruct (committed_verifies _ _ _ _ Hwf Hti Hby Her (mw_cert _ _ Hmap) Hce Hv Ec) as [Hvt Hver].
  assert (Hold : slot_version lay (flash s2) active = props_version (flash s1) (properties_addr (slot_of lay active))).
  { apply (commit_spec sy) in Ec as (_ & [_ Hw] & _); [|done]. destruct Hmap as [_ [] Ha _].
    eapply (props_fields_ext _ _ _ _ _ Hw). unfold slot_end, ECC_SIG_SIZE in Ha. lia. }
  rewrite Hold, Hver. split; [|done].
  destruct (loader_boots chipid lay _ _ (mw_chipid _ _ Hmap) Hvt) as (u & Hb & Hu & Hn).
  destruct (decide (u = other_slot active)) as [->|Hne]; [done|].
  assert (u = active) as -> by (by destruct u, active). specialize (Hn Hvt). lia.
Qed.
End Device.
