(* ===== verification/FwStaged.v ===== *)
(** * The staged signature (lib/fwup/src/fwup_staged_sig.c)

    Before the second device commits an update of both of its processors, the
    core stores its signature in a file, so that a loss of power between the
    two commits can be repaired after the restart. *)

From S2P Require Import Prelude FwFlash Fs SecBoot Metadata FwVerify FwDelta FwWriter FwPatch Fwup FwupSpec.
From stdpp Require Import strings.
#[local] Open Scope Z_scope.
#[local] Open Scope list_scope.

Definition FWUP_STAGED_SIG_PATH : string := "staged_sig".

Record fwup_staged_sig_t := mk_staged {
  sg_signature : list Z;
  sg_target_slot : Z;
  sg_core_target_version : fwpb_semver;
  sg_uxc_target_version : fwpb_semver;
}.

(** The layout of the struct: [fwpb_firmware_slot] and the fields of
    [fwpb_semver] are four bytes each, without padding. *)
Definition semver_bytes (v : fwpb_semver) : list Z :=
  le_encode 4 (sv_major v) ++ le_encode 4 (sv_minor v) ++ le_encode 4 (sv_patch v).
Definition staged_bytes (st : fwup_staged_sig_t) : list Z :=
  sg_signature st ++ le_encode 4 (sg_target_slot st) ++ semver_bytes (sg_core_target_version st)
  ++ semver_bytes (sg_uxc_target_version st).
Definition sizeof_staged_sig : Z := ECC_SIG_SIZE + 4 + 12 + 12.

Definition u32_at (l : list Z) (off : Z) : Z := le_decode (ztake 4 (zdrop off l)).
Definition semver_at (l : list Z) (off : Z) : fwpb_semver :=
  mk_semver (u32_at l off) (u32_at l (off + 4)) (u32_at l (off + 8)).
Definition staged_of_bytes (l : list Z) : fwup_staged_sig_t :=
  mk_staged (ztake ECC_SIG_SIZE l) (u32_at l ECC_SIG_SIZE) (semver_at l (ECC_SIG_SIZE + 4))
    (semver_at l (ECC_SIG_SIZE + 16)).

Section Staged.
Context {F L D : Type} `{FlashMem F} `{Platform} `{Littlefs L}.
Variable sy : fw_symbols.
Implicit Types (s : fwup_t F L D).

Definition put_files s (fs : fs_ctx L) : fwup_t F L D := put_dw s (put_fs (dw s) fs).

Definition fwup_staged_sig_write s (staged : fwup_staged_sig_t) : outcome (bool * fwup_t F L D) :=
  let! '(result, fs) := fs_util_write_global (dfs (dw s)) FWUP_STAGED_SIG_PATH (staged_bytes staged) in
  Done (result, put_files s fs).

Definition fwup_staged_sig_read s : outcome (option fwup_staged_sig_t * fwup_t F L D) :=
  let! '(r, fs) := fs_util_read_global (dfs (dw s)) FWUP_STAGED_SIG_PATH sizeof_staged_sig in
  Done (option_map staged_of_bytes r, put_files s fs).

Definition fwup_staged_sig_remove s : fwup_t F L D :=
  put_files s (fs_remove (dfs (dw s)) FWUP_STAGED_SIG_PATH).2.

Definition fwup_staged_sig_exists s : bool := fs_file_exists (dfs (dw s)) FWUP_STAGED_SIG_PATH.

Definition fwup_staged_sig_commit_to_flash s (staged : fwup_staged_sig_t) : outcome (bool * fwup_t F L D) :=
  let! target := fwup_target_slot sy in
  if negb (sg_target_slot staged =? target) then Done (false, s)
  else
    let addr := fwup_slot_signature_address sy (sg_target_slot staged) in
    if addr =? 0 then Done (false, s)
    else Done (fwup_commit_signature_to s addr (sg_signature staged)).
End Staged.

(** ** Lemmas *)

Definition semver_ok (v : fwpb_semver) : Prop :=
  0 ≤ sv_major v ≤ UINT32_MAX ∧ 0 ≤ sv_minor v ≤ UINT32_MAX ∧ 0 ≤ sv_patch v ≤ UINT32_MAX.

Lemma u32_at_app a x b off : zlen a = off → 0 ≤ x ≤ UINT32_MAX → u32_at (a ++ le_encode 4 x ++ b) off = x.
Proof.
  intros <- Hx. unfold u32_at, zdrop, ztake, zlen. rewrite Nat2Z.id, drop_app_length.
  change (Z.to_nat 4) with 4%nat. rewrite take_app_length' by (by rewrite le_encode_length).
  apply le_decode_encode. unfold UINT32_MAX in Hx. lia.
Qed.

Lemma semver_at_app a v b off : zlen a = off → semver_ok v → semver_at (a ++ semver_bytes v ++ b) off = v.
Proof.
  intros Ha (? & ? & ?). destruct v as [x y z]. unfold semver_at, semver_bytes.
  cbn [sv_major sv_minor sv_patch] in *.
  f_equal; rewrite <- ?app_assoc.
  - by apply u32_at_app.
  - rewrite (app_assoc a). apply u32_at_app; [|done]. rewrite zlen_app, zlen_le_encode. lia.
  - rewrite (app_assoc a), (app_assoc (a ++ _)). apply u32_at_app; [|done].
    rewrite !zlen_app, !zlen_le_encode. lia.
Qed.

(** Field by field, whatever the versions are. *)
Lemma staged_fields old st : zlen (sg_signature st) = ECC_SIG_SIZE → 0 ≤ sg_target_slot st ≤ UINT32_MAX →
  let st' := staged_of_bytes (ztake sizeof_staged_sig (overwrite old (staged_bytes st))) in
  sg_signature st' = sg_signature st ∧ sg_target_slot st' = sg_target_slot st
  ∧ (semver_ok (sg_uxc_target_version st) → sg_uxc_target_version st' = sg_uxc_target_version st).
Proof.
  intros Hs Hl. unfold overwrite. rewrite ztake_app_exact; cycle 1.
  { unfold staged_bytes, semver_bytes, sizeof_staged_sig. rewrite !zlen_app, !zlen_le_encode. lia. }
  destruct st as [sig slot cv uv]. unfold staged_of_bytes, staged_bytes.
  cbn [sg_signature sg_target_slot sg_core_target_version sg_uxc_target_version] in *. split_and!.
  - rewrite <- Hs. unfold ztake, zlen. by rewrite Nat2Z.id, take_app_length.
  - by apply u32_at_app.
  - intros Hu. rewrite (app_assoc sig), (app_assoc (sig ++ _)), <- (app_nil_r (semver_bytes uv)).
    apply semver_at_app; [|done]. unfold semver_bytes. rewrite !zlen_app, !zlen_le_encode. lia.
Qed.

Section Lemmas.
Context {F L D : Type} `{FlashMem F} `{Platform} `{Littlefs L} `{!FlashMemLaws F} `{!LittlefsLaws L}.
Variable sy : fw_symbols.
Implicit Types (s : fwup_t F L D).

(** What the file system holds under the path of the staged signature. *)
Definition staged_file s : option (list Z) := fs_data (dfs (dw s)) FWUP_STAGED_SIG_PATH.

(** The engine apart from its files. *)
Definition same_engine s s' : Prop :=
  fwup_priv s' = fwup_priv s ∧ ds (dw s') = ds (dw s) ∧ flash s' = flash s
  ∧ fwup_pending s' = fwup_pending s ∧ fwup_coproc_pending s' = fwup_coproc_pending s
  ∧ fwup_reset_pending s' = fwup_reset_pending s.

Lemma put_files_same s fs : same_engine s (put_files s fs).
Proof. by split_and!. Qed.

Lemma staged_write_spec s st ok s' : fwup_staged_sig_write s st = Done (ok, s') →
  same_engine s s' ∧ (ok = true → staged_file s' = Some (overwrite (staged_file s) (staged_bytes st))).
Proof.
  unfold fwup_staged_sig_write. intros ([r fs] & E & [= <- <-])%obind_inv. split; [apply put_files_same|].
  apply fs_util_write_spec in E as (_ & Hd & _). apply Hd.
Qed.

Lemma staged_read_spec s r s' : fwup_staged_sig_read s = Done (r, s') →
  same_engine s s' ∧ staged_file s' = staged_file s
  ∧ (∀ st, r = Some st → zlen (sg_signature st) = FWUP_SIGNATURE_SIZE
       ∧ ∃ d, staged_file s = Some d ∧ st = staged_of_bytes (ztake sizeof_staged_sig d)).
Proof.
  unfold fwup_staged_sig_read. intros ([o fs] & E & [= <- <-])%obind_inv. split; [apply put_files_same|].
  apply fs_util_read_spec in E as (Hq & Hr & _). split; [apply Hq|].
  intros st Hst. destruct o as [bs|]; [|done]. injection Hst as <-.
  destruct (Hr bs eq_refl) as (d & Hd & Hb & Hl). subst bs. split; [|by exists d].
  unfold staged_of_bytes. cbn [sg_signature]. unfold sizeof_staged_sig in *. rewrite zlen_ztake; [done|].
  rewrite Hl. unfold ECC_SIG_SIZE. lia.
Qed.

(** The signature of the target slot is where the engine has it. *)
Definition sig_symbol s : Prop :=
  fwup_target_slot_signature_address sy = Done (target_slot_signature (fwup_priv s)).

Lemma sig_symbol_slot s slot : sig_symbol s → fwup_target_slot sy = Done slot →
  fwup_slot_signature_address sy slot = target_slot_signature (fwup_priv s).
Proof.
  unfold sig_symbol, fwup_target_slot, fwup_target_slot_signature_address, fwup_slot_signature_address.
  intros Hsym Hslot.
  destruct (active_slot sy =? fwpb_SLOT_A); [by injection Hslot as <-; injection Hsym|].
  destruct (active_slot sy =? fwpb_SLOT_B); [by injection Hslot as <-; injection Hsym|done].
Qed.

Lemma staged_commit_spec s st ok s' : fwup_wf sy s → sig_symbol s → zlen (sg_signature st) = FWUP_SIGNATURE_SIZE →
  fwup_staged_sig_commit_to_flash sy s st = Done (ok, s') →
  fwup_wf sy s' ∧ fw_step s s' ∧ fwup_priv s' = fwup_priv s
  ∧ (ok = true → fwup_target_slot sy = Done (sg_target_slot st)
       ∧ fwup_commit_signature_to s (target_slot_signature (fwup_priv s)) (sg_signature st) = (true, s'))
  ∧ (ok = false → fwup_target_slot sy ≠ Done (sg_target_slot st) → flash s' = flash s).
Proof.
  intros Hwf Hsym Hlen. unfold fwup_staged_sig_commit_to_flash. intros (slot & Hslot & E)%obind_inv.
  destruct (sg_target_slot st =? slot) eqn:Es; cbn [negb] in E; cycle 1.
  { injection E as <- <-. split_and!; [done|reflexivity|done|done|done]. }
  apply Z.eqb_eq in Es. rewrite Es in *.
  assert (Ha : fwup_slot_signature_address sy slot = target_slot_signature (fwup_priv s)) by (by apply sig_symbol_slot).
  rewrite Ha in E. destruct (_ =? 0); [injection E as <- <-; split_and!; [done|reflexivity|done|done|by rewrite Hslot]|].
  injection E as E. pose proof E as Ec. apply (commit_to_spec sy) in Ec as (? & ? & ? & _); [|done|done].
  split_and!; [done|done|done| |by rewrite Hslot]. intros ->. done.
Qed.

Lemma staged_remove_same s : same_engine s (fwup_staged_sig_remove s).
Proof. by split_and!. Qed.

End Lemmas.
