(* ===== verification/FwW3.v ===== *)
(** * The second device: updates of two processors (src/w3-core/fwup_task_port.c)

    The core of the second device forwards the update of its coprocessor (the
    UXC), asks the user to confirm the version, and, in a deferred session,
    makes both new images bootable together: it stages its own signature, asks
    the UXC to commit, and commits itself on the acknowledgement, or after a
    restart when the UXC reports the new version. *)

From S2P Require Import Prelude Timer Sleep Auth Confirmation FwFlash Fs SecBoot Metadata FwVerify FwDelta.
From S2P Require Import FwWriter FwPatch Fwup FwupSpec FwTask FwStaged.
From stdpp Require Import strings.
#[local] Open Scope Z_scope.
#[local] Open Scope list_scope.
#[local] Open Scope task_scope.

Definition CONFIRMATION_TYPE_FWUP_START : Z := 2.
Definition NFC_CONTROL_INVALID_TOKEN : Z := 0.

(** [fwup_confirmation_data_t]. *)
Record fwup_confirmation_data_t := mk_conf_data {
  cd_cmd : start_cmd;
  cd_version_str : string;
  cd_skip_confirmation : bool;
}.

(** The confirmation manager stores a copy of the struct's bytes. *)
Class ConfData := {
  conf_bytes : fwup_confirmation_data_t → list Z;
  conf_of_bytes : list Z → fwup_confirmation_data_t;
}.

Inductive fwup_uxc_pending_kind_t :=
| FWUP_UXC_PENDING_NONE
| FWUP_UXC_PENDING_START_DIRECT
| FWUP_UXC_PENDING_START_CONFIRMATION_RESULT
| FWUP_UXC_PENDING_TRANSFER
| FWUP_UXC_PENDING_FINISH
| FWUP_UXC_PENDING_DELTA_RESULT
| FWUP_UXC_PENDING_CACHED_CONFIRMATION_RESULT.
#[global] Instance pending_kind_eq_dec : EqDecision fwup_uxc_pending_kind_t.
Proof. solve_decision. Defined.

Record fwup_uxc_pending_t := mk_uxc_pending {
  pd_seq : Z;
  pd_kind : fwup_uxc_pending_kind_t;
  pd_cached_ready : bool;
  pd_cached : start_rsp;
}.

(** The statics of the file, and the confirmation manager. *)
Record w3_t := mk_w3 {
  pending_uxc_fwup : fwup_uxc_pending_t;
  ucv_version : fwpb_semver;  (* user_confirmed_version *)
  ucv_valid : bool;
  awaiting_coproc_delta_result : bool;
  coproc_delta_nfc_token : Z;
  awaiting_atomic_commit_rsp : bool;
  coproc_commit_seq : Z;
  coproc_commit_seq_counter : Z;
  session_defer_commit : bool;
  uxc_verified : bool;
  cm : confirmation_ctx unit;
}.

Definition no_pending : fwup_uxc_pending_t :=
  mk_uxc_pending 0 FWUP_UXC_PENDING_NONE false (mk_start_rsp START_UNSPECIFIED 0).

Definition w3_boot (c : confirmation_ctx unit) : w3_t :=
  mk_w3 no_pending (mk_semver 0 0 0) false false NFC_CONTROL_INVALID_TOKEN false 0 0 false false c.

Definition set_uxc_pending (v : fwup_uxc_pending_t) (p : w3_t) : w3_t :=
  mk_w3 v (ucv_version p) (ucv_valid p) (awaiting_coproc_delta_result p) (coproc_delta_nfc_token p)
    (awaiting_atomic_commit_rsp p) (coproc_commit_seq p) (coproc_commit_seq_counter p)
    (session_defer_commit p) (uxc_verified p) (cm p).
Definition set_confirmed (v : fwpb_semver) (p : w3_t) : w3_t :=
  mk_w3 (pending_uxc_fwup p) v true (awaiting_coproc_delta_result p) (coproc_delta_nfc_token p)
    (awaiting_atomic_commit_rsp p) (coproc_commit_seq p) (coproc_commit_seq_counter p)
    (session_defer_commit p) (uxc_verified p) (cm p).
Definition clear_confirmed (p : w3_t) : w3_t :=
  mk_w3 (pending_uxc_fwup p) (ucv_version p) false (awaiting_coproc_delta_result p)
    (coproc_delta_nfc_token p) (awaiting_atomic_commit_rsp p) (coproc_commit_seq p)
    (coproc_commit_seq_counter p) (session_defer_commit p) (uxc_verified p) (cm p).
Definition set_delta_wait (b : bool) (token : Z) (p : w3_t) : w3_t :=
  mk_w3 (pending_uxc_fwup p) (ucv_version p) (ucv_valid p) b token
    (awaiting_atomic_commit_rsp p) (coproc_commit_seq p) (coproc_commit_seq_counter p)
    (session_defer_commit p) (uxc_verified p) (cm p).
Definition set_commit_wait (b : bool) (seq : Z) (p : w3_t) : w3_t :=
  mk_w3 (pending_uxc_fwup p) (ucv_version p) (ucv_valid p) (awaiting_coproc_delta_result p)
    (coproc_delta_nfc_token p) b seq (coproc_commit_seq_counter p)
    (session_defer_commit p) (uxc_verified p) (cm p).
Definition set_commit_counter (n : Z) (p : w3_t) : w3_t :=
  mk_w3 (pending_uxc_fwup p) (ucv_version p) (ucv_valid p) (awaiting_coproc_delta_result p)
    (coproc_delta_nfc_token p) (awaiting_atomic_commit_rsp p) (coproc_commit_seq p) n
    (session_defer_commit p) (uxc_verified p) (cm p).
Definition set_session_defer (b : bool) (p : w3_t) : w3_t :=
  mk_w3 (pending_uxc_fwup p) (ucv_version p) (ucv_valid p) (awaiting_coproc_delta_result p)
    (coproc_delta_nfc_token p) (awaiting_atomic_commit_rsp p) (coproc_commit_seq p)
    (coproc_commit_seq_counter p) b (uxc_verified p) (cm p).
Definition set_uxc_verified (b : bool) (p : w3_t) : w3_t :=
  mk_w3 (pending_uxc_fwup p) (ucv_version p) (ucv_valid p) (awaiting_coproc_delta_result p)
    (coproc_delta_nfc_token p) (awaiting_atomic_commit_rsp p) (coproc_commit_seq p)
    (coproc_commit_seq_counter p) (session_defer_commit p) b (cm p).
Definition set_cm (c : confirmation_ctx unit) (p : w3_t) : w3_t :=
  mk_w3 (pending_uxc_fwup p) (ucv_version p) (ucv_valid p) (awaiting_coproc_delta_result p)
    (coproc_delta_nfc_token p) (awaiting_atomic_commit_rsp p) (coproc_commit_seq p)
    (coproc_commit_seq_counter p) (session_defer_commit p) (uxc_verified p) c.

(** ** Operations on the statics *)

Definition fwup_uxc_response_pending (p : w3_t) : bool :=
  negb (bool_decide (pd_kind (pending_uxc_fwup p) = FWUP_UXC_PENDING_NONE)).

Definition fwup_uxc_set_pending (kind : fwup_uxc_pending_kind_t) (seq : Z) (p : w3_t) : w3_t :=
  let q := pending_uxc_fwup p in
  let ready := if negb (bool_decide (kind = FWUP_UXC_PENDING_CACHED_CONFIRMATION_RESULT)) then false
               else pd_cached_ready q in
  set_uxc_pending (mk_uxc_pending seq kind ready (pd_cached q)) p.

Definition fwup_uxc_clear_pending (p : w3_t) : w3_t := set_uxc_pending no_pending p.

Definition fwup_uxc_cache_start_result (r : start_rsp) (p : w3_t) : w3_t :=
  set_uxc_pending (mk_uxc_pending 0 FWUP_UXC_PENDING_CACHED_CONFIRMATION_RESULT true r) p.

(** The correlated sequence number of a response, [None] to drop it; [msg_seq]
    is 0 in the responses of an old UXC. *)
Definition fwup_uxc_take_rsp_seq (msg_seq : Z) (p : w3_t) : option Z :=
  if negb (fwup_uxc_response_pending p) then None
  else if msg_seq =? 0 then Some (pd_seq (pending_uxc_fwup p))
  else if negb (msg_seq =? pd_seq (pending_uxc_fwup p)) then None
  else Some msg_seq.

Definition fwup_next_internal_uxc_seq (p : w3_t) : Z * w3_t :=
  let n := u32 (coproc_commit_seq_counter p + 1) in
  let n := if n =? 0 then 1 else n in
  (n, set_commit_counter n p).

(** The formatted version is shorter than its buffer, so [strncpy] copies all
    of it. *)
Definition fwup_build_confirmation_data (cmd : start_cmd) : fwup_confirmation_data_t :=
  mk_conf_data cmd (default "" (fwup_format_version_string (st_version cmd) 32))%string false.

Definition version_confirmed (p : w3_t) (cmd : start_cmd) : bool :=
  ucv_valid p && match st_version cmd with
                 | Some v => fwup_semver_equals (Some (ucv_version p)) (Some v)
                 | None => false
                 end.

Section W3.
Context {F L D C T : Type} `{FlashMem F} `{Platform} `{Littlefs L} `{Detools D}.
Context `{Cmp} `{SwTimer T} `{ConfData}.
Variable sy : fw_symbols.
Variable ml : meta_layout.
Variable FWUP_DELTA_MAX_PATCH_SIZE : Z.
#[local] Abbreviation world := (world F L D T w3_t).
#[local] Abbreviation task := (task world).

Definition update (f : w3_t → w3_t) : task unit := λ w, Done (Some tt, put_port w (f (port w))).

(** A call of the confirmation manager. *)
Definition on_cm {A} (f : confirmation_ctx unit → outcome (A * confirmation_ctx unit)) : task A := λ w,
  let! '(a, c) := f (cm (port w)) in Done (Some a, put_port w (set_cm c (port w))).
Definition clear_confirmation : task unit :=
  on_cm (λ c, let! c := confirmation_manager_clear c in Done (tt, c)).

Definition start_error : wallet_rsp := fwup_start_rsp (mk_start_rsp START_ERROR 0).

Definition fwup_send_confirmation_result_rsp (e : env) (seq : Z) (result : start_rsp)
    (clear_on_send : bool) : task bool :=
  run! emit (Rsp seq (get_confirmation_result_rsp result)) in
  if rsp_sent e && clear_on_send then
    run! clear_confirmation in
    run! update fwup_uxc_clear_pending in
    ret (rsp_sent e)
  else ret (rsp_sent e).

Definition fwup_forward_coproc_start (e : env) (seq : Z) (cmd : start_cmd) : task bool :=
  run! tassert (uc_alloc e) in
  run! update (fwup_uxc_set_pending FWUP_UXC_PENDING_START_DIRECT seq) in
  if negb (uc_sent e) then
    run! emit (Rsp seq start_error) in
    run! update fwup_uxc_clear_pending in
    run! update (set_session_defer false) in
    ret (uc_sent e)
  else
    run! emit (ToUxc seq (host_start cmd)) in
    run! update_fw (λ s, fwup_mark_coproc_pending s true) in
    ret (uc_sent e).

(** Create a confirmation and answer with its handles, or with [error]. *)
Definition ask_confirmation (e : env) (seq : Z) (cmd : start_cmd) (error : wallet_rsp) : task bool :=
  let data := conf_bytes (fwup_build_confirmation_data cmd) in
  do! r := on_cm (λ c,
    let! '(r, handles, c) := confirmation_manager_create c CONFIRMATION_TYPE_FWUP_START (Some data)
      (zlen data) true 32 32 (rng1 e) (rng2 e) (now e) in
    Done ((r, handles), c)) in
  if negb (bool_decide (fst r = CONFIRMATION_RESULT_SUCCESS)) then
    run! emit (Rsp seq error) in ret false
  else
    run! emit (Ui UI_EVENT_FWUP_CONFIRMATION) in
    run! emit (Rsp seq (status_rsp STATUS_CONFIRMATION_PENDING (snd r))) in
    ret true.

(** ** Commands for the UXC *)

(** Drop an undelivered result together with the confirmation it belongs to. *)
Definition drop_cached_result : task unit :=
  do! p := get_port in
  if bool_decide (pd_kind (pending_uxc_fwup p) = FWUP_UXC_PENDING_CACHED_CONFIRMATION_RESULT) then
    run! update fwup_uxc_clear_pending in
    do! type := on_cm (λ c, let! t := confirmation_manager_get_type c in Done (t, c)) in
    if type =? CONFIRMATION_TYPE_FWUP_START then clear_confirmation else ret tt
  else ret tt.

Definition confirm_version (v : option fwpb_semver) : task unit :=
  match v with Some v => update (set_confirmed v) | None => ret tt end.

Definition send_coproc_start (e : env) (seq : Z) (cmd : start_cmd) : task bool :=
  run! tassert (st_mcu_role cmd =? MCU_ROLE_UXC) in
  run! drop_cached_result in
  do! p := get_port in
  if fwup_uxc_response_pending p then
    run! emit (Rsp seq start_error) in ret false
  else
    run! update (set_session_defer (st_defer_commit cmd)) in
    if st_defer_commit cmd && match st_version cmd with Some _ => false | None => true end then
      run! emit (Rsp seq start_error) in
      run! update (set_session_defer false) in
      ret false
    else
      do! s := get_fw in
      if fwup_get_require_confirmation s =? SECURE_FALSE then
        run! confirm_version (st_version cmd) in
        fwup_forward_coproc_start e seq cmd
      else if negb (onboarded e =? SECURE_TRUE) || version_confirmed p cmd then
        run! confirm_version (st_version cmd) in
        do! result := fwup_forward_coproc_start e seq cmd in
        run! (if (result : bool) then emit (Ui UI_EVENT_FWUP_START)
              else run! update clear_confirmed in update (set_session_defer false)) in
        ret result
      else ask_confirmation e seq cmd start_error.

(** The size of [fwup_data] is that of the command, which fits. *)
Definition send_coproc_transfer (e : env) (seq : Z) (cmd : transfer_cmd) : task unit :=
  run! tassert (tx_mcu_role cmd =? MCU_ROLE_UXC) in
  do! p := get_port in
  if fwup_uxc_response_pending p then emit (Rsp seq (fwup_transfer_rsp TRANSFER_ERROR))
  else
    run! tassert (uc_alloc e) in
    let data := ztake (Z.min FWUP_DATA_MAX (zlen (tx_data cmd))) (tx_data cmd) in
    let msg := mk_transfer (tx_sequence_id cmd) data (tx_offset cmd) (tx_mode cmd) (tx_mcu_role cmd) in
    run! update (fwup_uxc_set_pending FWUP_UXC_PENDING_TRANSFER seq) in
    if negb (uc_sent e) then
      run! emit (Rsp seq (fwup_transfer_rsp TRANSFER_ERROR)) in
      run! update clear_confirmed in
      run! update_fw (λ s, fwup_mark_coproc_pending s false) in
      update fwup_uxc_clear_pending
    else emit (ToUxc seq (host_transfer msg)).

Definition send_coproc_finish (e : env) (seq : Z) (cmd : finish_cmd) : task unit :=
  run! tassert (fi_mcu_role cmd =? MCU_ROLE_UXC) in
  do! p := get_port in
  if fwup_uxc_response_pending p then emit (Rsp seq (fwup_finish_rsp FINISH_ERROR))
  else
    run! tassert (uc_alloc e) in
    run! update (fwup_uxc_set_pending FWUP_UXC_PENDING_FINISH seq) in
    run! update_fw fwup_mark_reset_pending in
    if negb (uc_sent e) then
      run! emit (Rsp seq (fwup_finish_rsp FINISH_ERROR)) in
      run! update clear_confirmed in
      run! update_fw (λ s, fwup_mark_coproc_pending s false) in
      run! update_fw fwup_clear_reset_pending in
      update fwup_uxc_clear_pending
    else emit (ToUxc seq (host_finish cmd)).

(** ** Responses of the UXC *)

Definition coproc_failed : task unit :=
  run! update clear_confirmed in
  update_fw (λ s, fwup_mark_coproc_pending s false).

Definition handle_coproc_start (e : env) (msg_seq : Z) (r : start_rsp) : task unit :=
  let success := match sr_status r with START_SUCCESS => true | _ => false end in
  do! p := get_port in
  match fwup_uxc_take_rsp_seq msg_seq p with
  | None => ret tt
  | Some seq =>
      run! (if bool_decide (pd_kind (pending_uxc_fwup p) = FWUP_UXC_PENDING_START_CONFIRMATION_RESULT) then
              run! update (λ p, let q := pending_uxc_fwup p in
                                set_uxc_pending (mk_uxc_pending (pd_seq q) (pd_kind q) true r) p) in
              do! sent := fwup_send_confirmation_result_rsp e seq r true in
              if negb sent then update (fwup_uxc_cache_start_result r) else ret tt
            else
              run! emit (Rsp seq (fwup_start_rsp r)) in
              update fwup_uxc_clear_pending) in
      if negb success then coproc_failed else ret tt
  end.

Definition handle_coproc_transfer (_ : env) (msg_seq : Z) (st : transfer_status) : task unit :=
  do! p := get_port in
  match fwup_uxc_take_rsp_seq msg_seq p with
  | None => ret tt
  | Some seq =>
      run! emit (Rsp seq (fwup_transfer_rsp st)) in
      run! update fwup_uxc_clear_pending in
      match st with TRANSFER_SUCCESS => ret tt | _ => coproc_failed end
  end.

Definition fwup_coproc_finish_ui (success : bool) : task unit :=
  run! emit (Ui UI_EVENT_LED_CLEAR) in
  do! p := get_port in
  if success && session_defer_commit p then
    run! update (set_uxc_verified true) in
    run! (if ucv_valid p then emit (UxcPendingVersion (ucv_version p)) else ret tt) in
    run! update_fw fwup_clear_reset_pending in
    emit (Ui (UI_EVENT_FWUP_COMPLETE (Some false)))
  else if success then emit (Ui (UI_EVENT_FWUP_COMPLETE None))
  else if session_defer_commit p then
    run! secure_deauthenticate deauthenticate_without_animation in
    run! emit (Ui UI_EVENT_FWUP_FAILED) in
    mcu_reset_with_reason
  else
    run! secure_deauthenticate deauthenticate in
    run! emit (Ui UI_EVENT_FWUP_FAILED) in
    run! update clear_confirmed in
    run! update_fw (λ s, fwup_mark_coproc_pending s false) in
    update_fw fwup_clear_reset_pending.

Definition end_delta_wait : task unit :=
  do! p := get_port in
  run! emit (NfcEnable (coproc_delta_nfc_token p)) in
  update (set_delta_wait false NFC_CONTROL_INVALID_TOKEN).

Definition is_finish_success (st : finish_status) : bool :=
  match st with FINISH_SUCCESS => true | _ => false end.

Definition handle_coproc_finish (e : env) (msg_seq : Z) (st : finish_status) : task unit :=
  do! p := get_port in
  match fwup_uxc_take_rsp_seq msg_seq p with
  | None => ret tt
  | Some seq =>
      if awaiting_coproc_delta_result p then
        run! update fwup_uxc_clear_pending in
        run! end_delta_wait in
        fwup_coproc_finish_ui (is_finish_success st)
      else
        run! emit (Rsp seq (fwup_finish_rsp st)) in
        match st with
        | FINISH_WILL_APPLY_PATCH =>
            run! emit (Ui UI_EVENT_FWUP_VERIFYING) in
            run! emit NfcDisable in
            run! update (set_delta_wait true (nfc_token e)) in
            update (λ p, let q := pending_uxc_fwup p in
                         set_uxc_pending (mk_uxc_pending (pd_seq q) FWUP_UXC_PENDING_DELTA_RESULT
                                            (pd_cached_ready q) (pd_cached q)) p)
        | _ =>
            run! update fwup_uxc_clear_pending in
            fwup_coproc_finish_ui (is_finish_success st)
        end
  end.

(** ** Updates of the core *)

(** Start the engine; [mark_pending] follows at once. *)
Definition start_engine (cmd : start_cmd) : task (bool * start_rsp) :=
  on_fw (λ s, let '(result, rsp, s) := fwup_start sy FWUP_DELTA_MAX_PATCH_SIZE s cmd in
              Done ((result, rsp), fwup_mark_pending s result)).

Definition port_handle_start_cmd (e : env) (seq : Z) (cmd : start_cmd) : task bool :=
  do! p := get_port in
  if st_defer_commit cmd && negb (uxc_verified p) then
    run! update (set_session_defer false) in
    run! emit (Rsp seq start_error) in
    ret false
  else
    run! update (set_session_defer (st_defer_commit cmd || uxc_verified p)) in
    do! s := get_fw in
    if fwup_get_require_confirmation s =? SECURE_FALSE then
      do! r := start_engine cmd in
      run! emit (Rsp seq (fwup_start_rsp (snd r))) in
      ret (fst r)
    else if negb (onboarded e =? SECURE_TRUE) || version_confirmed p cmd then
      do! r := start_engine cmd in
      run! (if fst r then emit (Ui UI_EVENT_FWUP_START) else ret tt) in
      run! emit (Rsp seq (fwup_start_rsp (snd r))) in
      ret (fst r)
    else ask_confirmation e seq cmd (status_rsp STATUS_ERROR None).

(** The host asks for the result of the confirmation of [saved]. *)
Definition confirmed_uxc_start (e : env) (seq : Z) (saved : start_cmd) : task bool :=
  do! p := get_port in
  let q := pending_uxc_fwup p in
  if pd_cached_ready q then
    do! _ := fwup_send_confirmation_result_rsp e seq (pd_cached q) true in ret true
  else if fwup_uxc_response_pending p then
    run! emit (Rsp seq (status_rsp STATUS_CONFIRMATION_PENDING None)) in ret true
  else if negb (uc_alloc e) then
    run! update clear_confirmed in
    run! emit (Rsp seq (status_rsp STATUS_ERROR None)) in
    run! clear_confirmation in ret false
  else
    run! update (fwup_uxc_set_pending FWUP_UXC_PENDING_START_CONFIRMATION_RESULT seq) in
    if negb (uc_sent e) then
      run! update fwup_uxc_clear_pending in
      run! update clear_confirmed in
      run! emit (Rsp seq (status_rsp STATUS_ERROR None)) in
      run! clear_confirmation in ret false
    else
      run! emit (ToUxc seq (host_start saved)) in
      run! update_fw (λ s, fwup_mark_coproc_pending s true) in
      run! emit (Ui UI_EVENT_FWUP_START) in ret true.

Definition confirmed_core_start (seq : Z) (saved : start_cmd) : task bool :=
  do! r := start_engine saved in
  run! (if fst r then emit (Ui UI_EVENT_FWUP_START) else update clear_confirmed) in
  run! clear_confirmation in
  run! emit (Rsp seq (get_confirmation_result_rsp (snd r))) in
  ret true.

Definition handle_confirmation_result (e : env) (seq : Z) (rh ch : list Z) : task bool :=
  do! v := on_cm (λ c,
    let! '(r, c) := confirmation_manager_validate c (Some rh) (zlen rh) (Some ch) (zlen ch) (now e) in
    let! waiting := confirmation_manager_is_pending c in
    Done ((r, waiting), c)) in
  match fst v with
  | CONFIRMATION_RESULT_SUCCESS =>
      do! saved := on_cm (λ c,
        let! d := confirmation_manager_get_operation_data c CONFIRMATION_TYPE_FWUP_START true in
        Done (option_map (λ d, cd_cmd (conf_of_bytes d)) d, c)) in
      match saved with
      | None => run! emit (Rsp seq (status_rsp STATUS_ERROR None)) in ret false
      | Some saved =>
          do! s := get_fw in
          if negb (known_role (st_mcu_role saved)) || fwup_should_reject_cmd s then
            run! clear_confirmation in
            run! emit (Rsp seq (get_confirmation_result_rsp (mk_start_rsp START_ERROR 0))) in
            ret false
          else
            run! (match st_version saved with
                  | Some v => update (set_confirmed v)
                  | None => update clear_confirmed
                  end) in
            if st_mcu_role saved =? MCU_ROLE_UXC then confirmed_uxc_start e seq saved
            else confirmed_core_start seq saved
      end
  | CONFIRMATION_RESULT_NOT_APPROVED =>
      if (snd v : bool) then
        run! emit (Rsp seq (status_rsp STATUS_CONFIRMATION_PENDING None)) in ret true
      else run! emit (Rsp seq (status_rsp STATUS_CONFIRMATION_NOT_COMPLETED None)) in ret false
  | _ => run! emit (Rsp seq (status_rsp STATUS_CONFIRMATION_NOT_COMPLETED None)) in ret false
  end.

(** ** The atomic commit *)

Definition remove_staged : task unit := update_fw fwup_staged_sig_remove.

Definition fwup_atomic_commit (e : env) (core_version uxc_version : fwpb_semver) : task bool :=
  do! s := get_fw in
  match fwup_get_pending_signature s with
  | None => ret false
  | Some sig =>
      do! slot := on_fw (λ s, let! t := fwup_target_slot sy in Done (t, s)) in
      do! ok := on_fw (λ s, fwup_staged_sig_write s (mk_staged sig slot core_version uxc_version)) in
      if negb ok then ret false
      else if negb (uc_alloc e) then run! remove_staged in ret false
      else
        do! p := get_port in
        let '(seq, p) := fwup_next_internal_uxc_seq p in
        run! set_port (set_commit_wait true seq p) in
        if negb (uc_sent e) then
          run! update (set_commit_wait false 0) in ret false
        else
          run! emit (ToUxc seq host_commit_sig) in
          run! update_fw fwup_mark_reset_pending in
          ret true
  end.

Definition try_atomic_commit (e : env) : task bool :=
  do! p := get_port in
  do! s := get_fw in
  if negb (session_defer_commit p) || negb (uxc_verified p) || negb (fwup_is_coproc_pending s)
     || negb (ucv_valid p)
  then ret false
  else
    do! v := on_fw (λ s, let! v := fwup_get_target_version ml (active_slot sy) (flash s) in Done (v, s)) in
    match v with
    | None => ret false
    | Some core_version => fwup_atomic_commit e core_version (ucv_version p)
    end.

Definition end_commit_wait : task unit := update (set_commit_wait false 0).

Definition handle_commit_sig_rsp (_ : env) (msg_seq : Z) (ok : bool) : task unit :=
  do! p := get_port in
  if negb (awaiting_atomic_commit_rsp p) then ret tt
  else if msg_seq =? 0 then
    run! end_commit_wait in fwup_coproc_finish_ui false
  else if negb (msg_seq =? coproc_commit_seq p) then ret tt
  else
    run! end_commit_wait in
    if negb ok then
      run! remove_staged in fwup_coproc_finish_ui false
    else
      do! committed := on_fw (λ s, Done (fwup_commit_signature s)) in
      if negb committed then
        run! remove_staged in fwup_coproc_finish_ui false
      else
        run! remove_staged in
        run! emit (Ui UI_EVENT_LED_CLEAR) in
        run! emit (Ui (UI_EVENT_FWUP_COMPLETE (Some true))) in
        run! emit UxcHeldInReset in
        mcu_reset_with_reason.

(** A commit that was interrupted is completed when the UXC runs the version
    that was staged. *)
Definition recover_staged (version : fwpb_semver) : task unit :=
  do! staged := on_fw fwup_staged_sig_read in
  match staged with
  | None => ret tt
  | Some staged =>
      run! (if fwup_semver_equals (Some (sg_uxc_target_version staged)) (Some version) then
              do! ok := on_fw (λ s, fwup_staged_sig_commit_to_flash sy s staged) in
              if (ok : bool) then run! remove_staged in mcu_reset_with_reason else ret tt
            else ret tt) in
      remove_staged
  end.

Definition handle_coproc_version (_ : env) (version : fwpb_semver) : task unit :=
  do! p := get_port in
  run! (if awaiting_coproc_delta_result p then
          run! end_delta_wait in
          run! update fwup_uxc_clear_pending in
          fwup_coproc_finish_ui
            (if ucv_valid p then fwup_semver_equals (Some (ucv_version p)) (Some version) else true)
        else ret tt) in
  run! recover_staged version in
  run! end_commit_wait in
  run! update fwup_uxc_clear_pending in
  run! update (set_uxc_verified false) in
  run! update_fw (λ s, fwup_mark_coproc_pending s false) in
  do! s := get_fw in
  run! (if negb (fwup_in_progress s) then update (set_session_defer false) else ret tt) in
  update_fw fwup_clear_reset_pending.

#[global] Instance w3_port : FwupPort F L D T w3_t := {
  fwup_task_send_coproc_fwup_start_cmd := send_coproc_start;
  fwup_task_send_coproc_fwup_transfer_cmd := send_coproc_transfer;
  fwup_task_send_coproc_fwup_finish_cmd := send_coproc_finish;
  fwup_handle_confirmation_result := handle_confirmation_result;
  fwup_task_handle_coproc_fwup_start := handle_coproc_start;
  fwup_task_handle_coproc_fwup_transfer := handle_coproc_transfer;
  fwup_task_handle_coproc_fwup_finish := handle_coproc_finish;
  fwup_task_handle_commit_sig_rsp := handle_commit_sig_rsp;
  fwup_task_handle_coproc_version := handle_coproc_version;
  fwup_task_port_handle_start_cmd := port_handle_start_cmd;
  fwup_task_port_try_atomic_commit := try_atomic_commit;
  fwup_task_port_is_deferred_session := do! p := get_port in ret (session_defer_commit p);
}.
End W3.
