(* ===== verification/FwAtomic.v ===== *)
(** * The atomic commit of the second device

    What the core of the second device promises while it makes an update of
    both processors bootable: from the moment it has asked the coprocessor to
    commit until that is settled, its own image stays verified, staged and
    untouched; in a deferred session it writes its signature only on the
    coprocessor's acknowledgement of that very request or when the coprocessor
    runs the version that was staged; and an interrupted commit is completed
    after the restart. *)

From S2P Require Import Prelude Timer Sleep Auth Confirmation FwFlash Fs SecBoot Metadata FwVerify FwDelta.
From S2P Require Import FwWriter FwPatch Fwup FwupSpec FwTask FwDevice FwStaged FwW3.
#[local] Open Scope Z_scope.
#[local] Open Scope list_scope.
#[local] Open Scope task_scope.

Section Atomic.
Context {F L D C T : Type} `{FlashMem F} `{Platform} `{Littlefs L} `{Detools D} `{PatchCrypto C}.
Context `{FwVerify F} `{Cmp} `{SwTimer T} `{ConfData} `{CertLayout} `{SecureBoot F} `{FwTrust F}.
Context `{!FlashMemLaws F} `{!LittlefsLaws L}.
Variable sy : fw_symbols.
Variable ml : meta_layout.
Variable FWUP_DELTA_MAX_PATCH_SIZE : Z.
Variable pubkey : list Z.
Variables (chipid : list Z) (lay : boot_layout).
Context `{!FwVerifyLaws F chipid lay}.
#[local] Abbreviation world := (world F L D T w3_t).
#[local] Abbreviation tgt s := (target_slot_addr (fwup_priv s)).
#[local] Abbreviation size s := (app_slot_size (fwup_priv s)).
#[local] Abbreviation kind w := (pd_kind (pending_uxc_fwup (port w))).
#[local] Abbreviation step :=
  (fwup_thread_step (Port := w3_port sy ml FWUP_DELTA_MAX_PATCH_SIZE) sy ml pubkey).

(** The image in the target slot verifies with the signature in RAM under the
    certificate of the bootloader, and is newer than the running one. *)
Definition image_verified (s : fwup_t F L D) : Prop :=
  let p := fwup_priv s in
  fwup_get_pending_signature s = Some (pending_signature p)
  ∧ ∃ off cur bl,
      running_props p (flash s) = Done (Some cur)
      ∧ props_version (flash s) cur < props_version (flash s) (target_slot_addr p + off)
      ∧ bootloader_props (flash s) = Done (Some bl)
      ∧ bl_verify_app_slot chipid lay (flash s) (props_cert (flash s) bl) (target_slot_addr p + off)
          (target_slot_addr p) (u32 (app_slot_size p - ECC_SIG_SIZE)) (pending_signature p) = Done true.

(** The file holds the signature, for the slot that is updated. *)
Definition sig_staged (s : fwup_t F L D) (version : fwpb_semver) : Prop :=
  ∃ slot core d, fwup_target_slot sy = Done slot
    ∧ staged_file s = Some (overwrite d
        (staged_bytes (mk_staged (pending_signature (fwup_priv s)) slot core version))).

(** A finish of the coprocessor is outstanding. *)
Definition finishing (w : world) : Prop :=
  kind w = FWUP_UXC_PENDING_FINISH ∨ kind w = FWUP_UXC_PENDING_DELTA_RESULT.

Record commit_inv (s0 : fwup_t F L D) (w : world) : Prop := {
  ci_since : since sy s0 (fw w);
  ci_finishing : finishing w → fwup_reset_pending (fw w) = true;
  ci_awaiting : awaiting_atomic_commit_rsp (port w) = true →
    fwup_reset_pending (fw w) = true ∧ ¬ finishing w
    ∧ image_verified (fw w) ∧ (∃ v, sig_staged (fw w) v)
    ∧ 0 < coproc_commit_seq (port w) ≤ UINT32_MAX;
  ci_counter : 0 ≤ coproc_commit_seq_counter (port w) ≤ UINT32_MAX;
  ci_sym : sig_symbol sy s0;
}.

(** The coprocessor answers a finish only when one is outstanding. *)
Definition answers (w : world) (m : fwup_msg) : Prop :=
  match m with
  | FWUP_FINISH_COPROC_RSP _ _ => finishing w
  | FWUP_TRANSFER_CMD _ cmd => tx_ok cmd
  | _ => True
  end.

(** ** Elementary steps *)

(** Between requests to the coprocessor that must not be disturbed. *)
Record base (s0 : fwup_t F L D) (w : world) : Prop := {
  ba_since : since sy s0 (fw w);
  ba_counter : 0 ≤ coproc_commit_seq_counter (port w) ≤ UINT32_MAX;
  ba_sym : sig_symbol sy s0;
}.

Record calm (s0 : fwup_t F L D) (w : world) : Prop := {
  ca_base : base s0 w;
  ca_awaiting : awaiting_atomic_commit_rsp (port w) = false;
  ca_finishing : ¬ finishing w;
}.

Lemma calm_inv s0 w : calm s0 w → commit_inv s0 w.
Proof. intros [[] Ha Hf]. split; [done|done|by rewrite Ha|done|done]. Qed.

Lemma inv_base s0 w : commit_inv s0 w → base s0 w.
Proof. by intros []. Qed.

Lemma inv_calm s0 w : commit_inv s0 w → fwup_reset_pending (fw w) = false → calm s0 w.
Proof.
  intros [? Hf Ha ? ?] Hr. split; [done| |].
  - destruct (awaiting_atomic_commit_rsp (port w)); [|done]. destruct (Ha eq_refl). congruence.
  - intros Hfin. specialize (Hf Hfin). congruence.
Qed.

(** An invariant of the fields that the confirmation manager, the log and the
    bookkeeping of the session leave alone. *)
Definition frame (w w' : world) : Prop :=
  (fwup_priv (fw w') = fwup_priv (fw w) ∧ ds (dw (fw w')) = ds (dw (fw w)) ∧ flash (fw w') = flash (fw w)
   ∧ fwup_reset_pending (fw w') = fwup_reset_pending (fw w))
  ∧ staged_file (fw w') = staged_file (fw w)
  ∧ kind w' = kind w
  ∧ awaiting_atomic_commit_rsp (port w') = awaiting_atomic_commit_rsp (port w)
  ∧ coproc_commit_seq (port w') = coproc_commit_seq (port w)
  ∧ coproc_commit_seq_counter (port w') = coproc_commit_seq_counter (port w).

Lemma base_engine s0 w w' : base s0 w →
  fwup_priv (fw w') = fwup_priv (fw w) → ds (dw (fw w')) = ds (dw (fw w)) → flash (fw w') = flash (fw w) →
  coproc_commit_seq_counter (port w') = coproc_commit_seq_counter (port w) → base s0 w'.
Proof. intros [Hs Hc Hy] Hp Hd Hf Hn. split; [by apply (since_same _ _ (fw w))|by rewrite Hn|done]. Qed.

Lemma base_frame s0 w w' : base s0 w → frame w w' → base s0 w'.
Proof. intros Hb ((? & ? & ? & _) & _ & _ & _ & _ & ?). by apply (base_engine _ w). Qed.

Lemma calm_frame s0 w w' : calm s0 w → frame w w' → calm s0 w'.
Proof.
  intros [Hb Ha Hf] Hw. pose proof Hw as (_ & _ & Hk & Ha' & _). split; [by eapply base_frame|congruence|].
  unfold finishing in *. by rewrite Hk.
Qed.

Lemma inv_frame s0 w w' : commit_inv s0 w → frame w w' → commit_inv s0 w'.
Proof.
  intros Hi Hw. pose proof (base_frame _ _ _ (inv_base _ _ Hi) Hw) as [Hs Hc Hy].
  destruct Hw as ((Hp & Hd & Hf & Hr) & Hsf & Hk & Ha & Hq & Hn). destruct Hi as [_ Hfin Hwait _ _].
  split; [done|unfold finishing in *; by rewrite Hk, Hr| |done|done].
  unfold finishing in *. rewrite Ha, Hk, Hr, Hq. intros Ht. destruct (Hwait Ht) as (? & ? & Hv & (v & Hst) & ?).
  do 2 (split; [done|]). split; [|split; [|done]].
  - unfold image_verified, fwup_get_pending_signature in *. by rewrite Hp, Hf.
  - exists v. unfold sig_staged in *. by rewrite Hp, Hsf.
Qed.

(** What each of the three invariants is kept by. *)
Class Framed (inv : world → Prop) : Prop := framed w w' : inv w → frame w w' → inv w'.
#[export] Instance base_framed s0 : Framed (base s0).
Proof. intros w w'. apply base_frame. Qed.
#[export] Instance calm_framed s0 : Framed (calm s0).
Proof. intros w w'. apply calm_frame. Qed.
#[export] Instance inv_framed s0 : Framed (commit_inv s0).
Proof. intros w w'. apply inv_frame. Qed.

Lemma framed_emit inv `{!Framed inv} o : keeps True inv (emit o).
Proof. intros w Hw. eapply framed; [done|]. by split_and!. Qed.

Lemma framed_update inv `{!Framed inv} f : (∀ w, frame w (put_port w (f (port w)))) →
  keeps True inv (update f).
Proof. intros Hf w Hw. eapply framed; [done|]. apply Hf. Qed.

Lemma framed_cm {A} inv `{!Framed inv} (f : confirmation_ctx unit → outcome (A * confirmation_ctx unit)) :
  keeps True inv (on_cm f).
Proof.
  intros w Hw. unfold on_cm. destruct (f (cm (port w))) as [[a c]| | |]; cbn [obind]; try done.
  eapply framed; [done|]. by split_and!.
Qed.

Lemma framed_auth inv `{!Framed inv} f : keeps True inv (on_auth f).
Proof.
  intros w Hw. unfold on_auth. destruct (f (auth w)) as [a| | |]; cbn [obind]; try done.
  eapply framed; [done|]. by split_and!.
Qed.

Lemma framed_assert (inv : world → Prop) c : keeps True inv (tassert c).
Proof. by apply keeps_tassert. Qed.

Lemma framed_coproc inv `{!Framed inv} b : keeps True inv (update_fw (λ s, fwup_mark_coproc_pending s b)).
Proof. intros w Hw. eapply framed; [done|]. by split_and!. Qed.

(** A change of a flag of the engine, outside of the two critical sections. *)
Lemma calm_flag s0 f : (∀ s, fwup_priv (f s) = fwup_priv s ∧ ds (dw (f s)) = ds (dw s) ∧ flash (f s) = flash s) →
  keeps True (calm s0) (update_fw f) ∧ keeps True (base s0) (update_fw f).
Proof.
  intros Hf. assert (Hb : keeps True (base s0) (update_fw f)).
  { intros w Hw. destruct (Hf (fw w)) as (? & ? & ?). by eapply base_engine. }
  split; [|done]. intros w [Hw Ha Hk]. split; [by apply (Hb w)|done|done].
Qed.

(** A request that is not a finish is recorded, or none any more. *)
Lemma calm_kind s0 f : (∀ p, (∀ w : world, finishing (put_port w (f p)) → finishing (put_port w p))
    ∧ awaiting_atomic_commit_rsp (f p) = awaiting_atomic_commit_rsp p
    ∧ coproc_commit_seq_counter (f p) = coproc_commit_seq_counter p) →
  keeps True (calm s0) (update f) ∧ keeps True (base s0) (update f).
Proof.
  intros Hf. assert (Hb : keeps True (base s0) (update f)).
  { intros w Hw. destruct (Hf (port w)) as (_ & _ & ?). by eapply base_engine. }
  split; [|done]. intros w [Hw Ha Hk]. destruct (Hf (port w)) as (Hfin & Haw & _). split; [by apply (Hb w)| |].
  - cbn. by rewrite Haw.
  - intros Hx. apply Hk. apply Hfin in Hx. by destruct w.
Qed.

Lemma inv_kind s0 f : (∀ (w : world), finishing (put_port w (f (port w))) → finishing w) →
  (∀ p, awaiting_atomic_commit_rsp (f p) = awaiting_atomic_commit_rsp p
    ∧ coproc_commit_seq (f p) = coproc_commit_seq p
    ∧ coproc_commit_seq_counter (f p) = coproc_commit_seq_counter p) →
  keeps True (commit_inv s0) (update f).
Proof.
  intros Hk Hf w [Hs Hfin Hwait Hc Hy]. destruct (Hf (port w)) as (Ha & Hq & Hn). split.
  - done.
  - intros Hx. by apply Hfin, Hk.
  - cbn [port put_port fw]. rewrite Ha, Hq. intros Ht. destruct (Hwait Ht) as (? & Hnf & ? & ? & ?).
    split_and!; try done || lia. intros Hx. by apply Hnf, Hk.
  - cbn [port put_port]. by rewrite Hn.
  - done.
Qed.

Lemma framed_clear inv `{!Framed inv} : keeps True inv (clear_confirmation (F := F) (L := L) (D := D) (T := T)).
Proof. by apply framed_cm. Qed.

Lemma framed_ask inv `{!Framed inv} e seq cmd error : keeps True inv (ask_confirmation (F := F) e seq cmd error).
Proof.
  unfold ask_confirmation. apply keeps_bind; [by apply framed_cm|]. intros r.
  case_match; repeat (apply keeps_bind; [by apply framed_emit|intros]); apply keeps_ret.
Qed.

Lemma framed_confirm inv `{!Framed inv} v : keeps True inv (confirm_version (F := F) (L := L) (D := D) (T := T) v).
Proof. destruct v; [apply framed_update; [done|by intros; split_and!]|apply keeps_ret]. Qed.

(** One elementary step under an invariant, and a handler of such steps. *)
Ltac kind_step := first
  [ apply calm_kind; by intros p; split_and!; [intros ? [?|?]| |]
  | apply inv_kind; [by intros ? [?|?]|done] ].
Ltac fstep := first
  [ apply keeps_ret | apply keeps_get_fw | apply keeps_get_port | apply framed_assert
  | apply framed_emit; apply _ | apply framed_cm; apply _ | apply framed_auth; apply _
  | apply framed_coproc; apply _ | apply framed_update; [apply _|by intros; split_and!]
  | apply framed_clear; apply _ | apply framed_ask; apply _ | apply framed_confirm; apply _
  | apply calm_flag; done | kind_step | solve [eauto 2 with fw] ].
Ltac keep := repeat first [fstep | apply keeps_bind; [|intros] | case_match].

(** ** Commands and responses outside of the critical sections *)

Lemma calm_forward s0 e seq cmd : keeps True (calm s0) (fwup_forward_coproc_start (F := F) e seq cmd).
Proof. unfold fwup_forward_coproc_start. keep. Qed.
#[local] Hint Resolve calm_forward : fw.

Lemma calm_send_start s0 e seq cmd : keeps True (calm s0) (send_coproc_start (F := F) e seq cmd).
Proof. unfold send_coproc_start, drop_cached_result. keep. Qed.

Lemma calm_send_transfer s0 e seq cmd : keeps True (calm s0) (send_coproc_transfer (F := F) e seq cmd).
Proof. unfold send_coproc_transfer. keep. Qed.

Lemma calm_result_rsp s0 e seq r b : keeps True (calm s0) (fwup_send_confirmation_result_rsp (F := F) e seq r b).
Proof. unfold fwup_send_confirmation_result_rsp. keep. Qed.
#[local] Hint Resolve calm_send_start calm_send_transfer calm_result_rsp : fw.

(** A call of the engine. *)
Lemma calm_on_fw {A} s0 (f : fwup_t F L D → outcome (A * fwup_t F L D)) :
  (∀ s a s', since sy s0 s → f s = Done (a, s') → since sy s0 s') → keeps True (calm s0) (on_fw f).
Proof.
  intros Hf w [[Hs Hc Hy] Ha Hk]. unfold on_fw. destruct (f (fw w)) as [[a s']| | |] eqn:E; cbn [obind]; try done.
  split; [split; [by eapply Hf|done|done]|done|done].
Qed.

Lemma calm_start_engine s0 cmd : keeps True (calm s0) (start_engine (T := T) sy FWUP_DELTA_MAX_PATCH_SIZE cmd).
Proof.
  apply calm_on_fw. intros s a s' Hs. destruct (fwup_start _ _ _ _) as [[ok rsp] s1] eqn:E. intros [= <- <-].
  apply start_spec in E as (Hwf & Hst & _); [|apply Hs].
  apply (since_same _ _ s1); [by apply (since_step _ _ s)|done|done|done].
Qed.
#[local] Hint Resolve calm_start_engine : fw.

Lemma calm_core_start s0 e seq cmd :
  keeps True (calm s0) (port_handle_start_cmd (T := T) sy FWUP_DELTA_MAX_PATCH_SIZE e seq cmd).
Proof. unfold port_handle_start_cmd. keep. Qed.

Lemma calm_confirmed_uxc s0 e seq cmd : keeps True (calm s0) (confirmed_uxc_start (F := F) e seq cmd).
Proof. unfold confirmed_uxc_start. keep. Qed.

Lemma calm_confirmed_core s0 seq cmd :
  keeps True (calm s0) (confirmed_core_start (T := T) sy FWUP_DELTA_MAX_PATCH_SIZE seq cmd).
Proof. unfold confirmed_core_start. keep. Qed.
#[local] Hint Resolve calm_core_start calm_confirmed_uxc calm_confirmed_core : fw.

(** ** The invariant through every handler *)

(** A handler keeps the invariant; where it resets the device, the slots. *)
Definition guards {A} (s0 : fwup_t F L D) (m : task world A) : Prop :=
  hoare True (commit_inv s0) m (λ _, commit_inv s0) (base s0).

Lemma keeps_guards {A} s0 (m : task world A) : keeps True (commit_inv s0) m → guards s0 m.
Proof. intros Hm. eapply hoare_consequence; [exact Hm|done|done|by intros w []]. Qed.

Lemma calm_hoare {A} s0 (m : task world A) : keeps True (calm s0) m →
  hoare True (calm s0) m (λ _, commit_inv s0) (base s0).
Proof. intros Hm. eapply hoare_consequence; [exact Hm|done|intros ? ?; apply calm_inv|apply ca_base]. Qed.

Lemma guards_bind {A B} s0 (m : task world A) (k : A → task world B) :
  guards s0 m → (∀ a, guards s0 (k a)) → guards s0 (tbind m k).
Proof. intros. by eapply hoare_bind. Qed.

(** Past the check of [fwup_should_reject_cmd] the invariant is the calm one. *)
Lemma guards_unless_reject {A} s0 (c : fwup_t F L D → bool) (m1 m2 : task world A) :
  guards s0 m1 → hoare True (calm s0) m2 (λ _, commit_inv s0) (base s0) →
  guards s0 (do! s := get_fw in if c s || fwup_should_reject_cmd s then m1 else m2).
Proof.
  intros Hm1 Hm2 w Hw. unfold tbind, get_fw. cbn [obind]. destruct (c (fw w) || _) eqn:E; [by apply Hm1|].
  apply Hm2, inv_calm; [done|]. by apply orb_false_iff in E as [_ E].
Qed.

Lemma inv_send_finish s0 e seq cmd :
  hoare True (calm s0) (send_coproc_finish (F := F) e seq cmd) (λ _, commit_inv s0) (base s0).
Proof.
  intros w [[Hs Hc Hy] Ha Hf]. unfold send_coproc_finish, tbind, tassert, get_port, update, update_fw, emit, ASSERT.
  cbn [obind]. destruct (fi_mcu_role cmd =? _); cbn [obind]; [|done].
  destruct (fwup_uxc_response_pending (port w)); [by apply calm_inv|].
  destruct (uc_alloc e); cbn [obind]; [|done]. destruct (uc_sent e); cbn [negb obind].
  - split; [by apply (since_same _ _ (fw w))|done|cbn; by rewrite Ha|done|done].
  - apply calm_inv. split; [split; [by apply (since_same _ _ (fw w))|done|done]|done|by intros [?|?]].
Qed.

Lemma inv_confirmation_result s0 e seq rh ch :
  guards s0 (handle_confirmation_result (T := T) sy FWUP_DELTA_MAX_PATCH_SIZE e seq rh ch).
Proof.
  unfold handle_confirmation_result. apply guards_bind; [apply keeps_guards; keep|]. intros v.
  destruct (fst v); try (apply keeps_guards; keep; fail).
  apply guards_bind; [apply keeps_guards; keep|]. intros [saved|]; [|apply keeps_guards; keep].
  apply (guards_unless_reject s0 (λ _ : fwup_t F L D, negb (known_role (st_mcu_role saved)))).
  - apply keeps_guards. keep.
  - apply calm_hoare. keep.
Qed.

Lemma inv_result_rsp s0 e seq r b :
  keeps True (commit_inv s0) (fwup_send_confirmation_result_rsp (F := F) e seq r b).
Proof. unfold fwup_send_confirmation_result_rsp. keep. Qed.
#[local] Hint Resolve inv_result_rsp : fw.

Lemma inv_coproc_start s0 e seq r : keeps True (commit_inv s0) (handle_coproc_start (F := F) e seq r).
Proof. unfold handle_coproc_start, coproc_failed. keep. Qed.

Lemma inv_coproc_transfer s0 e seq st : keeps True (commit_inv s0) (handle_coproc_transfer (F := F) e seq st).
Proof. unfold handle_coproc_transfer, coproc_failed. keep. Qed.

(** Outside of the critical sections, and with the slots alone. *)
Lemma calm_finish_ui s0 b : keeps True (calm s0) (fwup_coproc_finish_ui (F := F) (L := L) (D := D) (T := T) b).
Proof. unfold fwup_coproc_finish_ui, secure_deauthenticate. keep. Qed.

Lemma base_finish_ui s0 b : keeps True (base s0) (fwup_coproc_finish_ui (F := F) (L := L) (D := D) (T := T) b).
Proof. unfold fwup_coproc_finish_ui, secure_deauthenticate. keep. Qed.
#[local] Hint Resolve calm_finish_ui base_finish_ui : fw.

Lemma inv_coproc_finish s0 e seq st :
  hoare True (λ w, commit_inv s0 w ∧ finishing w) (handle_coproc_finish (F := F) e seq st)
    (λ _, commit_inv s0) (base s0).
Proof.
  intros w [Hi Hfin]. pose proof Hi as [Hs Hr Ha Hc Hy].
  assert (Hna : awaiting_atomic_commit_rsp (port w) = false).
  { destruct (awaiting_atomic_commit_rsp (port w)); [|done]. by destruct (Ha eq_refl) as (_ & ? & _). }
  assert (Hcalm : calm s0 (put_port w (fwup_uxc_clear_pending (port w))))
    by (split; [by split|done|by intros [?|?]]).
  unfold handle_coproc_finish. unfold tbind at 1. unfold get_port at 1. cbn [obind].
  destruct (fwup_uxc_take_rsp_seq seq (port w)) as [sq|]; [|done].
  destruct (awaiting_coproc_delta_result (port w)).
  - unfold tbind at 1. unfold update at 1. cbn [obind]. revert Hcalm. apply calm_hoare.
    unfold end_delta_wait. keep.
  - unfold tbind at 1. unfold emit at 1. cbn [obind].
    assert (Hlog : ∀ l w', calm s0 w' → calm s0 (put_log w' l)).
    { intros l w' Hw'. eapply calm_frame; [done|]. by split_and!. }
    destruct st; try (unfold tbind at 1; unfold update at 1; cbn [obind];
      match goal with |- context [put_log w ?l] =>
        apply (calm_hoare s0 _ (calm_finish_ui s0 _) (put_port (put_log w l) _)), (Hlog l _ Hcalm) end).
    unfold tbind, emit, update. cbn [obind]. split; [done| |cbn; by rewrite Hna|done|done].
    intros _. by apply Hr.
Qed.

(** ** The commit *)

Lemma calm_remove_staged s0 : keeps True (calm s0) (remove_staged (F := F) (L := L) (D := D) (T := T)).
Proof. by apply calm_flag. Qed.

Lemma base_remove_staged s0 : keeps True (base s0) (remove_staged (F := F) (L := L) (D := D) (T := T)).
Proof. by apply calm_flag. Qed.

Lemma calm_commit s0 : keeps True (calm s0) (on_fw (λ s, Done (fwup_commit_signature s))).
Proof.
  apply calm_on_fw. intros s a s' Hs E. injection E as E. destruct (fwup_commit_signature s) as [ok s1] eqn:Ec.
  injection E as <- <-. apply (commit_spec sy) in Ec as (? & ? & _); [|apply Hs]. by apply (since_step _ _ s).
Qed.
#[local] Hint Resolve calm_remove_staged base_remove_staged calm_commit : fw.

Lemma inv_commit_sig s0 e seq ok : guards s0 (handle_commit_sig_rsp (F := F) (L := L) (D := D) (T := T) e seq ok).
Proof.
  intros w Hw. pose proof Hw as [Hs Hr Ha Hc Hy]. unfold handle_commit_sig_rsp.
  unfold tbind at 1. unfold get_port at 1. cbn [obind].
  destruct (awaiting_atomic_commit_rsp (port w)) eqn:Ea; cbn [negb]; [|done].
  destruct (Ha eq_refl) as (_ & Hnf & _).
  assert (Hcalm : calm s0 (put_port w (set_commit_wait false 0 (port w)))) by (split; [by split|done|done]).
  destruct (seq =? 0); [|destruct (negb _); [done|]].
  all: unfold tbind at 1; unfold end_commit_wait, update; cbn [obind]; revert Hcalm; apply calm_hoare; keep.
Qed.

Lemma since_symbol (s0 s : fwup_t F L D) : since sy s0 s → sig_symbol sy s0 → sig_symbol sy s.
Proof. intros [_ [(_ & _ & Hg & _) _] _] Hy. unfold sig_symbol in *. by rewrite Hg. Qed.

(** ** The coprocessor has restarted *)

Lemma base_on_fw {A} s0 (f : fwup_t F L D → outcome (A * fwup_t F L D)) :
  (∀ s a s', since sy s0 s → sig_symbol sy s0 → f s = Done (a, s') → since sy s0 s') →
  keeps True (base s0) (on_fw f).
Proof.
  intros Hf w [Hs Hc Hy]. unfold on_fw. destruct (f (fw w)) as [[a s']| | |] eqn:E; cbn [obind]; try done.
  split; [by eapply Hf|done|done].
Qed.

(** The staged signature, if it was read, has its length. *)
Lemma base_read_staged s0 : hoare True (base s0) (on_fw fwup_staged_sig_read)
  (λ r w, base s0 w ∧ ∀ st, r = Some st → zlen (sg_signature st) = FWUP_SIGNATURE_SIZE) (base s0).
Proof.
  intros w [Hs Hc Hy]. unfold on_fw. destruct (fwup_staged_sig_read _) as [[r s']| | |] eqn:E; cbn [obind]; try done.
  apply staged_read_spec in E as ((? & ? & ? & _) & _ & Hst). split.
  - split; [by apply (since_same _ _ (fw w))|done|done].
  - intros st Hr. by destruct (Hst st Hr).
Qed.

Lemma base_recover s0 v : keeps True (base s0) (recover_staged (F := F) (L := L) (D := D) (T := T) sy v).
Proof.
  unfold recover_staged. eapply hoare_bind; [apply base_read_staged|]. intros [st|];
    [|intros w [Hw _]; by apply (keeps_ret _ _ tt)].
  intros w [Hw Hlen]. specialize (Hlen st eq_refl). revert w Hw.
  change (keeps True (base s0) (tbind (if fwup_semver_equals (Some (sg_uxc_target_version st)) (Some v) then
      do! ok := on_fw (λ s, fwup_staged_sig_commit_to_flash sy s st) in
      if (ok : bool) then run! remove_staged in mcu_reset_with_reason else ret tt else ret tt)
    (λ _, remove_staged (F := F) (L := L) (D := D) (T := T)))).
  apply keeps_bind; [|intros _; apply base_remove_staged].
  case_match; [|apply keeps_ret]. apply keeps_bind.
  - apply base_on_fw. intros s ok s' Hs Hy E.
    apply (staged_commit_spec sy) in E as (? & ? & _); [by apply (since_step _ _ s)|apply Hs|by eapply since_symbol|done].
  - intros []; [|apply keeps_ret]. apply keeps_bind; [apply base_remove_staged|]. intros _.
    apply keeps_reset. intros w l Hw. eapply base_frame; [done|]. by split_and!.
Qed.

Lemma base_delta_lost s0 (b success : bool) : keeps True (base s0)
  (if b then run! end_delta_wait in run! update fwup_uxc_clear_pending in
     fwup_coproc_finish_ui (F := F) (L := L) (D := D) (T := T) success else ret tt).
Proof. unfold end_delta_wait. keep. Qed.

(** Once the wait for the commit and every request are dropped, all is calm. *)
Lemma end_waits_calm s0 : hoare True (base s0)
  (tbind (end_commit_wait (F := F) (L := L) (D := D) (T := T)) (λ _, update fwup_uxc_clear_pending))
  (λ _, calm s0) (base s0).
Proof. intros w [Hs Hc Hy]. split; [by split|done|by intros [?|?]]. Qed.

Lemma tbind_assoc {W A B E} (m : task W A) (k : A → task W B) (h : B → task W E) w :
  tbind m (λ a, tbind (k a) h) w = tbind (tbind m k) h w.
Proof. unfold tbind. destruct (m w) as [[[a|] w']| | |]; done. Qed.

Lemma inv_coproc_version s0 e v : guards s0 (handle_coproc_version (F := F) (L := L) (D := D) (T := T) sy e v).
Proof.
  unfold guards.
  apply (hoare_consequence True (base s0) _ _ (λ _, calm s0) _ (base s0)); [|apply inv_base|intros ?; apply calm_inv|done].
  unfold handle_coproc_version. apply (hoare_bind _ _ _ (λ _, base s0)); [apply keeps_get_port|]. intros p.
  apply (hoare_bind _ _ _ (λ _, base s0)); [apply base_delta_lost|]. intros _.
  apply (hoare_bind _ _ _ (λ _, base s0)); [apply base_recover|]. intros _.
  intros w Hw. rewrite tbind_assoc. revert w Hw.
  apply (hoare_bind _ _ _ (λ _, calm s0)); [apply end_waits_calm|]. intros _.
  apply (hoare_consequence True (calm s0) _ _ (λ _, calm s0) _ (calm s0)); [|done|done|apply ca_base].
  fold (keeps (A := unit) True (calm s0)). keep.
Qed.

(** ** The core finishes *)

Lemma finish_verified s cmd st s' : support_bl_upgrade (fwup_priv s) = false →
  fwup_finish sy ml pubkey s cmd = Done (true, st, s') → image_verified s'.
Proof.
  intros Hbl E. assert (Hb : fi_bl_upgrade cmd = false).
  { unfold fwup_finish in E. rewrite Hbl in E. by destruct (fi_bl_upgrade cmd). }
  destruct (finish_sound sy ml pubkey chipid lay _ _ _ _ Hb E)
    as (_ & _ & Hp & (cur & ? & ?) & (bl & ? & ?) & _).
  split; [done|]. by exists (fi_app_properties_offset cmd), cur, bl.
Qed.

Lemma image_verified_same s s' : fwup_priv s' = fwup_priv s → flash s' = flash s →
  image_verified s → image_verified s'.
Proof. intros Hp Hf. unfold image_verified, fwup_get_pending_signature. by rewrite Hp, Hf. Qed.

Definition verified_if (s0 : fwup_t F L D) (ok : bool) (w : world) : Prop :=
  calm s0 w ∧ (ok = true → image_verified (fw w)).

Lemma calm_finish {A} s0 cmd (k : bool → finish_status → A) (p : A → bool) : (∀ ok st, p (k ok st) = ok) →
  hoare True (calm s0)
    (on_fw (λ s, let! '(ok, st, s) := fwup_finish sy ml pubkey s cmd in Done (k ok st, s)))
    (λ a, verified_if s0 (p a)) (base s0).
Proof.
  intros Hp w [[Hs Hc Hy] Ha Hk]. unfold on_fw.
  destruct (finish_spec sy ml pubkey chipid lay (fw w) cmd (si_wf _ _ _ Hs) (si_bl _ _ _ Hs))
    as (ok & st & s' & E & Hwf & Hst & _). rewrite E. cbn [obind]. split.
  - split; [split; [by apply (since_step _ _ (fw w))|done|done]|done|done].
  - rewrite Hp. intros ->. by apply (finish_verified (fw w) cmd st); [apply Hs|].
Qed.

Lemma verified_if_frame s0 ok w w' : verified_if s0 ok w → frame w w' → verified_if s0 ok w'.
Proof.
  intros [Hc Hv] Hf. split; [by eapply calm_frame|]. intros Hok. destruct Hf as ((? & _ & ? & _) & _).
  by eapply image_verified_same; [| |apply Hv].
Qed.
#[export] Instance verified_if_framed s0 ok : Framed (verified_if s0 ok).
Proof. intros w w'. apply verified_if_frame. Qed.

Lemma framed_hoare {A} inv `{!Framed inv} s0 (m : task world A) : keeps True inv m → (∀ w, inv w → base s0 w) →
  hoare True inv m (λ _, inv) (base s0).
Proof. intros Hm Hb. by eapply hoare_consequence; [exact Hm|done|done|]. Qed.

Lemma verified_base s0 ok w : verified_if s0 ok w → base s0 w.
Proof. intros [[] _]. done. Qed.

Lemma calm_finish_engine s0 seq cmd :
  hoare True (calm s0) (finish_engine sy ml pubkey seq cmd) (verified_if s0) (base s0).
Proof.
  assert (Hemit : ∀ o, hoare True (calm s0) (emit o) (λ _, calm s0) (base s0)).
  { intros o. apply framed_hoare; [apply _|apply framed_emit; apply _|apply ca_base]. }
  assert (Hfalse : hoare True (calm s0) (ret false) (verified_if s0) (base s0)) by (by intros w Hw).
  unfold finish_engine. destruct (fi_mode cmd =? _).
  - apply (hoare_bind _ _ _ (λ _, calm s0)).
    { apply framed_hoare; [apply _| |apply ca_base]. apply calm_on_fw. intros s a s' Hs.
      destruct (fwup_pre_apply_check s cmd) as [[ok st] s1] eqn:E. intros [= <- <-]. by eapply pre_apply_since. }
    intros c. destruct (negb (fst c)).
    + apply (hoare_bind _ _ _ (λ _, calm s0)); [apply Hemit|]. intros _. apply Hfalse.
    + do 2 (apply (hoare_bind _ _ _ (λ _, calm s0)); [apply Hemit|intros _]).
      apply (calm_finish s0 cmd (λ ok _, ok) id). done.
  - apply (hoare_bind _ _ _ (λ _, calm s0)); [apply Hemit|]. intros _.
    apply (hoare_bind _ _ _ (λ r, verified_if s0 (fst r))); [by apply (calm_finish s0 cmd pair fst)|]. intros r.
    apply (hoare_bind _ _ _ (λ _, verified_if s0 (fst r))).
    + apply framed_hoare; [apply _|by apply framed_emit; apply _|apply verified_base].
    + intros _ w Hw. done.
Qed.

Lemma commit_seq_range p : let n := (fwup_next_internal_uxc_seq p).1 in 0 < n ≤ UINT32_MAX.
Proof.
  unfold fwup_next_internal_uxc_seq. cbn [fst]. unfold u32, UINT32_MAX.
  pose proof (Z.mod_pos_bound (coproc_commit_seq_counter p + 1) 4294967296). case_match; btest; lia.
Qed.

(** After the staging, a request that was sent leaves the device waiting for
    its acknowledgement with a verified image. *)
Lemma inv_atomic_commit s0 e cv uv :
  hoare True (verified_if s0 true) (fwup_atomic_commit (F := F) (L := L) (D := D) (T := T) sy e cv uv)
    (λ started, if started then commit_inv s0 else calm s0) (base s0).
Proof.
  intros w [Hcalm Hver]. specialize (Hver eq_refl). pose proof Hver as [Hsig _].
  unfold fwup_atomic_commit. unfold tbind at 1. unfold get_fw at 1. cbn [obind]. rewrite Hsig.
  unfold tbind at 1. unfold on_fw at 1. destruct (fwup_target_slot sy) as [slot| | |] eqn:Eslot; try done. cbn [obind].
  unfold tbind at 1. unfold on_fw at 1. cbn [fw put_fw].
  destruct (fwup_staged_sig_write _ _) as [[ok s1]| | |] eqn:Ew; try done. cbn [obind].
  apply staged_write_spec in Ew as ((Hp & Hd & Hf & _ & _ & Hr) & Hfile).
  set (w1 := put_fw (put_fw w (fw w)) s1).
  destruct Hcalm as [Hb Ha Hk]. pose proof (base_engine s0 w w1 Hb Hp Hd Hf eq_refl) as Hb1.
  assert (Hc1 : calm s0 w1) by (by split).
  destruct ok; cbn [negb]; [|done]. specialize (Hfile eq_refl).
  destruct (uc_alloc e); cbn [negb].
  - unfold tbind at 1. unfold get_port at 1. cbn [obind].
    pose proof (commit_seq_range (port w1)) as Hn. destruct (fwup_next_internal_uxc_seq (port w1)) as [n p1] eqn:En.
    assert (Hp1 : p1 = set_commit_counter n (port w1)) by (unfold fwup_next_internal_uxc_seq in En; by injection En as <- <-).
    cbn [fst] in Hn. subst p1. destruct Hb1 as [Hs1 Hc Hy].
    unfold tbind, set_port, update, emit, update_fw. destruct (uc_sent e); cbn [negb obind ret].
    + split; [by apply (since_same _ _ (fw w1))|done| |cbn; lia|done].
      intros _. do 2 (split; [done|]). split; [by apply (image_verified_same (fw w))|]. split; [|done].
      exists uv, slot, cv, (staged_file (put_fw w (fw w)).(fw)). split; [done|]. cbn. rewrite Hp. exact Hfile.
    + split; [split; [done|cbn; lia|done]|done|done].
  - exact (calm_remove_staged s0 w1 Hc1).
Qed.

Lemma inv_try_commit s0 e :
  hoare True (verified_if s0 true) (try_atomic_commit (F := F) (L := L) (D := D) (T := T) sy ml e)
    (λ started, if started then commit_inv s0 else calm s0) (base s0).
Proof.
  unfold try_atomic_commit. intros w Hw. unfold tbind at 1 2. unfold get_port, get_fw. cbn [obind].
  destruct (_ || _); [apply Hw|]. unfold tbind at 1. unfold on_fw at 1.
  destruct (fwup_get_target_version _ _ _) as [[v|]| | |]; try done; cbn [obind].
  - apply inv_atomic_commit. by destruct w.
  - destruct w. apply Hw.
Qed.

(** The end of an update that is not committed with the coprocessor's resets
    the device. *)
Lemma calm_finish_update s0 success bl :
  hoare True (calm s0) (finish_update (Port := w3_port sy ml FWUP_DELTA_MAX_PATCH_SIZE) success bl)
    (λ _, commit_inv s0) (base s0).
Proof.
  apply calm_hoare. unfold finish_update, secure_deauthenticate. apply keeps_bind.
  { cbn [fwup_task_port_is_deferred_session w3_port]. keep. }
  intros deferred. keep; apply keeps_reset; intros w l Hw; (eapply calm_frame; [done|by split_and!]).
Qed.

Lemma inv_finish_cmd s0 e seq cmd :
  guards s0 (fwup_task_handle_finish_cmd (Port := w3_port sy ml FWUP_DELTA_MAX_PATCH_SIZE) sy ml pubkey e seq cmd).
Proof.
  unfold fwup_task_handle_finish_cmd.
  apply (guards_unless_reject s0 (λ _ : fwup_t F L D, negb (known_role (fi_mcu_role cmd)))); [apply keeps_guards; keep|].
  destruct (negb _); [apply inv_send_finish|].
  apply (hoare_bind _ _ _ (verified_if s0)); [apply calm_finish_engine|]. intros success.
  apply (hoare_bind _ _ _ (λ started : bool, if started then commit_inv s0 else calm s0)).
  - destruct success; [apply inv_try_commit|]. intros w [Hw _]. done.
  - intros []; [|apply calm_finish_update]. by intros w Hw.
Qed.

Lemma calm_core_transfer s0 cmd : tx_ok cmd →
  keeps True (calm s0) (on_fw (λ s, let! '(ok, st, s) := fwup_transfer s cmd in Done (st, s))).
Proof.
  intros Hok. apply calm_on_fw. intros s a s' Hs.
  destruct (transfer_spec sy s cmd (si_wf _ _ _ Hs) Hok) as (ok & st & s1 & -> & ? & ? & _).
  intros [= <- <-]. by apply (since_step _ _ s).
Qed.

(** Every message keeps the invariant. *)
Lemma inv_step s0 e m :
  hoare True (λ w, commit_inv s0 w ∧ answers w m) (step e m) (λ _, commit_inv s0) (base s0).
Proof.
  assert (Hweak : ∀ mm : task world unit, guards s0 mm →
    hoare True (λ w, commit_inv s0 w ∧ answers w m) mm (λ _, commit_inv s0) (base s0)).
  { intros mm Hm w [Hw _]. by apply Hm. }
  destruct m as [seq cmd|seq cmd|seq cmd|seq rh ch|seq r|seq st|seq st|seq ok|v]; cbn [fwup_thread_step].
  - apply Hweak, guards_bind; [|intros; apply keeps_guards, keeps_ret]. unfold fwup_task_handle_start_cmd.
    apply (guards_unless_reject s0 (λ _ : fwup_t F L D, negb (known_role (st_mcu_role cmd)))); [apply keeps_guards; keep|].
    apply calm_hoare. destruct (negb _); [apply calm_send_start|apply calm_core_start].
  - intros w [Hw Hok]. cbn [answers] in Hok. revert w Hw. change (guards s0
      (fwup_task_handle_transfer_cmd (Port := w3_port sy ml FWUP_DELTA_MAX_PATCH_SIZE) e seq cmd)).
    unfold fwup_task_handle_transfer_cmd.
    apply (guards_unless_reject s0 (λ _ : fwup_t F L D, negb (known_role (tx_mcu_role cmd)))); [apply keeps_guards; keep|].
    apply calm_hoare. destruct (negb _); [apply calm_send_transfer|].
    apply keeps_bind; [by apply calm_core_transfer|]. intros. keep.
  - apply Hweak, inv_finish_cmd.
  - apply Hweak, guards_bind; [apply inv_confirmation_result|]. intros. apply keeps_guards, keeps_ret.
  - apply Hweak, keeps_guards, inv_coproc_start.
  - apply Hweak, keeps_guards, inv_coproc_transfer.
  - apply inv_coproc_finish.
  - apply Hweak, inv_commit_sig.
  - apply Hweak, inv_coproc_version.
Qed.

(** ** Runs of the task *)

(** From a boot, with any messages of the host, and a coprocessor that answers
    a finish only when one is outstanding. *)
Inductive w3_reach (w0 : world) : world → Prop :=
| reach_boot : w3_reach w0 w0
| reach_step w e m w' : w3_reach w0 w → answers w m → step e m w = Done (Some tt, w') → w3_reach w0 w'.

Record booted (w0 : world) : Prop := {
  bo_wf : fwup_wf sy (fw w0);
  bo_bl : support_bl_upgrade (fwup_priv (fw w0)) = false;
  bo_sym : sig_symbol sy (fw w0);
  bo_port : ∃ c, port w0 = w3_boot c;
}.

Lemma boot_calm w0 : booted w0 → calm (fw w0) w0.
Proof.
  intros [Hwf Hbl Hy [c Hp]]. split.
  - split; [by split; [|reflexivity|]|by rewrite Hp|done].
  - by rewrite Hp.
  - unfold finishing. rewrite Hp. by intros [?|?].
Qed.

Lemma reach_inv w0 w : booted w0 → w3_reach w0 w → commit_inv (fw w0) w.
Proof.
  intros Hb Hr. induction Hr as [|w e m w' _ IH Ha E]; [by apply calm_inv, boot_calm|].
  pose proof (inv_step (fw w0) e m w (conj IH Ha)) as Hs. by rewrite E in Hs.
Qed.

(** ** Whatever messages arrive

    The slots, their symbols and the counter of the requests survive every
    message, also answers of the coprocessor that nobody waits for. *)

(** The chunk of a transfer was decoded; nothing else is asked of a message. *)
Definition decoded (m : fwup_msg) : Prop := match m with FWUP_TRANSFER_CMD _ cmd => tx_ok cmd | _ => True end.

Lemma base_update s0 f : (∀ p, coproc_commit_seq_counter (f p) = coproc_commit_seq_counter p) →
  keeps True (base s0) (update f).
Proof. intros Hf w Hw. by eapply base_engine; [..|apply Hf]. Qed.

Lemma base_reset {A} s0 : keeps True (base s0) (mcu_reset_with_reason (A := A)).
Proof. apply keeps_reset. intros w l Hw. eapply base_frame; [done|]. by split_and!. Qed.

Ltac bstep := first
  [ apply keeps_ret | apply keeps_get_fw | apply keeps_get_port | apply framed_assert | apply base_reset
  | apply framed_emit; apply _ | apply framed_cm; apply _ | apply framed_auth; apply _
  | apply framed_coproc; apply _ | apply framed_clear; apply _ | apply framed_ask; apply _
  | apply framed_confirm; apply _ | apply base_update; done | apply calm_flag; done | solve [eauto 2 with fw] ].
Ltac bkeep := repeat first [bstep | apply keeps_bind; [|intros] | case_match].

Lemma base_start_engine s0 cmd : keeps True (base s0) (start_engine (T := T) sy FWUP_DELTA_MAX_PATCH_SIZE cmd).
Proof.
  apply base_on_fw. intros s a s' Hs _. destruct (fwup_start _ _ _ _) as [[ok rsp] s1] eqn:E. intros [= <- <-].
  apply start_spec in E as (Hwf & Hst & _); [|apply Hs].
  apply (since_same _ _ s1); [by apply (since_step _ _ s)|done|done|done].
Qed.

Lemma base_forward s0 e seq cmd : keeps True (base s0) (fwup_forward_coproc_start (F := F) e seq cmd).
Proof. unfold fwup_forward_coproc_start. bkeep. Qed.

Lemma base_result_rsp s0 e seq r b : keeps True (base s0) (fwup_send_confirmation_result_rsp (F := F) e seq r b).
Proof. unfold fwup_send_confirmation_result_rsp. bkeep. Qed.
#[local] Hint Resolve base_start_engine base_forward base_result_rsp : fw.

Lemma base_finish {A} s0 cmd (k : bool → finish_status → A) : keeps True (base s0)
  (on_fw (λ s, let! '(ok, st, s) := fwup_finish sy ml pubkey s cmd in Done (k ok st, s))).
Proof.
  apply base_on_fw. intros s a s' Hs _.
  destruct (finish_spec sy ml pubkey chipid lay s cmd (si_wf _ _ _ Hs) (si_bl _ _ _ Hs)) as (ok & st & s1 & -> & ? & ? & _).
  intros [= <- <-]. by apply (since_step _ _ s).
Qed.

Lemma base_pre_apply s0 cmd : keeps True (base s0)
  (on_fw (λ s, let '(ok, st, s) := fwup_pre_apply_check s cmd in Done ((ok, st), s))).
Proof.
  apply base_on_fw. intros s a s' Hs _. destruct (fwup_pre_apply_check s cmd) as [[ok st] s1] eqn:E.
  intros [= <- <-]. by eapply pre_apply_since.
Qed.

Lemma base_commit s0 : keeps True (base s0) (on_fw (λ s, Done (fwup_commit_signature s))).
Proof.
  apply base_on_fw. intros s a s' Hs _ E. injection E as E. destruct (fwup_commit_signature s) as [ok s1] eqn:Ec.
  injection E as <- <-. apply (commit_spec sy) in Ec as (? & ? & _); [|apply Hs]. by apply (since_step _ _ s).
Qed.

Lemma base_transfer s0 cmd : tx_ok cmd →
  keeps True (base s0) (on_fw (λ s, let! '(ok, st, s) := fwup_transfer s cmd in Done (st, s))).
Proof.
  intros Hok. apply base_on_fw. intros s a s' Hs _.
  destruct (transfer_spec sy s cmd (si_wf _ _ _ Hs) Hok) as (ok & st & s1 & -> & ? & ? & _).
  intros [= <- <-]. by apply (since_step _ _ s).
Qed.
#[local] Hint Resolve base_finish base_pre_apply base_commit base_transfer : fw.

Lemma base_try_commit s0 e : keeps True (base s0) (try_atomic_commit (F := F) (L := L) (D := D) (T := T) sy ml e).
Proof.
  unfold try_atomic_commit. do 2 (apply keeps_bind; [bkeep|intros]). destruct (_ || _); [bkeep|]. apply keeps_bind.
  { apply base_on_fw. intros s' x s1 Hs _ E. apply obind_inv in E as (v & _ & E). by injection E as <- <-. }
  intros [v|]; [|bkeep]. unfold fwup_atomic_commit. apply keeps_bind; [bkeep|]. intros s. destruct (fwup_get_pending_signature s); [|bkeep].
  apply keeps_bind.
  { apply base_on_fw. intros s1 x s' Hs _ E. apply obind_inv in E as (t & _ & E). by injection E as <- <-. }
  intros slot. apply keeps_bind.
  { apply base_on_fw. intros s1 x s' Hs _ E. apply staged_write_spec in E as ((? & ? & ? & _) & _). by apply (since_same _ _ s1). }
  intros ok. destruct (negb ok); [bkeep|]. destruct (negb (uc_alloc e)); [bkeep|].
  intros w [Hs Hc Hy]. unfold tbind at 1. unfold get_port at 1. cbn [obind].
  pose proof (commit_seq_range (port w)) as Hn. destruct (fwup_next_internal_uxc_seq (port w)) as [n p1] eqn:En.
  assert (Hp1 : p1 = set_commit_counter n (port w)) by (unfold fwup_next_internal_uxc_seq in En; by injection En as <- <-).
  cbn [fst] in Hn. subst p1. unfold tbind, set_port, update, emit, update_fw. destruct (uc_sent e); cbn [negb obind ret];
    (split; [by apply (since_same _ _ (fw w))|cbn; lia|done]).
Qed.
#[local] Hint Resolve base_try_commit : fw.

Lemma base_step s0 e m : decoded m → keeps True (base s0) (step e m).
Proof.
  destruct m as [seq cmd|seq cmd|seq cmd|seq rh ch|seq r|seq st|seq st|seq ok|v]; cbn [fwup_thread_step decoded]; intros Hm.
  - unfold fwup_task_handle_start_cmd. cbn [w3_port fwup_task_send_coproc_fwup_start_cmd fwup_task_port_handle_start_cmd].
    unfold send_coproc_start, drop_cached_result, port_handle_start_cmd. bkeep.
  - unfold fwup_task_handle_transfer_cmd. cbn [w3_port fwup_task_send_coproc_fwup_transfer_cmd].
    unfold send_coproc_transfer. bkeep.
  - unfold fwup_task_handle_finish_cmd.
    cbn [w3_port fwup_task_send_coproc_fwup_finish_cmd fwup_task_port_try_atomic_commit].
    unfold send_coproc_finish, finish_engine, finish_update, secure_deauthenticate.
    cbn [w3_port fwup_task_port_is_deferred_session]. bkeep.
  - cbn [w3_port fwup_handle_confirmation_result]. unfold handle_confirmation_result, confirmed_uxc_start, confirmed_core_start.
    bkeep.
  - cbn [w3_port fwup_task_handle_coproc_fwup_start]. unfold handle_coproc_start, coproc_failed. bkeep.
  - cbn [w3_port fwup_task_handle_coproc_fwup_transfer]. unfold handle_coproc_transfer, coproc_failed. bkeep.
  - cbn [w3_port fwup_task_handle_coproc_fwup_finish]. unfold handle_coproc_finish, end_delta_wait. bkeep.
  - cbn [w3_port fwup_task_handle_commit_sig_rsp]. unfold handle_commit_sig_rsp, end_commit_wait. bkeep.
  - cbn [w3_port fwup_task_handle_coproc_version]. unfold handle_coproc_version, end_commit_wait.
    apply keeps_bind; [bkeep|]. intros p. apply keeps_bind; [apply base_delta_lost|]. intros _.
    apply keeps_bind; [apply base_recover|]. intros _. bkeep.
Qed.

(** From a boot, with any messages of the host and of the coprocessor. *)
Inductive w3_any (w0 : world) : world → Prop :=
| any_boot : w3_any w0 w0
| any_step w e m w' : w3_any w0 w → decoded m → step e m w = Done (Some tt, w') → w3_any w0 w'.

Lemma reach_any w0 w : w3_reach w0 w → w3_any w0 w.
Proof.
  induction 1 as [|w e m w' _ IH Ha E]; [apply any_boot|]. eapply any_step; [exact IH| |exact E]. by destruct m.
Qed.

Lemma any_base w0 w : booted w0 → w3_any w0 w → base (fw w0) w.
Proof.
  intros Hb Hr. induction Hr as [|w e m w' _ IH Hm E]; [by apply boot_calm|].
  pose proof (base_step (fw w0) e m Hm w IH) as Hs. by rewrite E in Hs.
Qed.

(** C8: from the moment the core of the second device has asked the coprocessor
    to commit until the answer is settled, whatever the host sends, and provided
    that the coprocessor answers a finish only while one is outstanding
    ([answers]: a stray finish response would clear the refusal of commands): new
    update commands are refused, the image in the target slot still verifies with
    the signature in RAM and is newer than the running one, and that signature is
    staged in the file system. What is committed on the acknowledgement is what
    was verified. *)
Theorem w3_commit_guarded w0 w : booted w0 → w3_reach w0 w → awaiting_atomic_commit_rsp (port w) = true →
  fwup_should_reject_cmd (fw w) = true ∧ image_verified (fw w) ∧ (∃ v, sig_staged (fw w) v)
  ∧ 0 < coproc_commit_seq (port w) ∧ within (tgt (fw w0)) (tgt (fw w0) + size (fw w0)) (flash (fw w0)) (flash (fw w)).
Proof.
  intros Hb Hr Ha. destruct (reach_inv _ _ Hb Hr) as [[_ [_ Hst] _] _ Hwait _ _].
  destruct (Hwait Ha) as (Hrej & _ & Hver & Hstg & Hpos & _). exact (conj Hrej (conj Hver (conj Hstg (conj Hpos Hst)))).
Qed.
End Atomic.
