(* ===== verification/FwSigned.v ===== *)
(** * Who writes the signature of the second device's core

    In a deferred session the core writes its signature to flash only in two
    cases: on the coprocessor's acknowledgement of the commit that was asked
    for, and when the coprocessor runs the version that was staged. Otherwise
    the place of the signature changes only with the slot, when a start erases
    it or the finish of a delta update applies the patch, and the flash is then
    exactly what the erase or the engine's finish leaves. The second case
    completes a commit that a loss of power interrupted. *)

From S2P Require Import Prelude Timer Sleep Auth Confirmation FwFlash Fs SecBoot Metadata FwVerify FwDelta.
From S2P Require Import FwWriter FwPatch Fwup FwupSpec FwTask FwDevice FwStaged FwW3 FwAtomic.
#[local] Open Scope Z_scope.
#[local] Open Scope list_scope.
#[local] Open Scope task_scope.

Section Atomic.
Context {F L D C T : Type} `{FlashMem F} `{Platform} `{Littlefs L} `{Detools D} `{PatchCrypto C}.
Context `{FwVerify F} `{Cmp} `{SwTimer T} `{ConfData} `{CertLayout} `{SecureBoot F} `{FwTrust F}.
Context `{!FlashMemLaws F} `{!LittlefsLaws L}.
Variable sy : fw_symbols.
Variable ml : meta_layout.
Variable FWUP_DELTA_MAX_PATCH_SIZE : Z.
Variable pubkey : list Z.
Variables (chipid : list Z) (lay : boot_layout).
Context `{!FwVerifyLaws F chipid lay}.
#[local] Abbreviation world := (world F L D T w3_t).
#[local] Abbreviation tgt s := (target_slot_addr (fwup_priv s)).
#[local] Abbreviation size s := (app_slot_size (fwup_priv s)).
#[local] Abbreviation kind w := (pd_kind (pending_uxc_fwup (port w))).
#[local] Abbreviation step :=
  (fwup_thread_step (Port := w3_port sy ml FWUP_DELTA_MAX_PATCH_SIZE) sy ml pubkey).

(** ** Who writes the signature *)

(** The flash has the property [fl]. *)
Implicit Types (fl : F → Prop).
Definition still fl (w : world) : Prop := fl (flash (fw w)).
#[local] Instance still_framed fl : Framed (still fl).
Proof. intros w w' Hw ((_ & _ & Hf & _) & _). unfold still in *. by rewrite Hf. Qed.

Lemma still_update fl f : keeps True (still fl) (update f).
Proof. by intros w Hw. Qed.

Lemma still_fw fl f : (∀ s, flash (f s) = flash s) → keeps True (still fl) (update_fw f).
Proof. intros Hf w Hw. unfold still in *. cbn. by rewrite Hf. Qed.

Lemma still_reset {A} fl : keeps True (still fl) (mcu_reset_with_reason (A := A)).
Proof. by intros w Hw. Qed.

Ltac sstep := first
  [ apply keeps_ret | apply keeps_get_fw | apply keeps_get_port | apply framed_assert
  | apply still_update | apply still_reset | apply still_fw; done
  | apply framed_emit; apply _ | apply framed_cm; apply _ | apply framed_auth; apply _
  | apply framed_coproc; apply _ | apply framed_clear; apply _
  | solve [eauto 2 with fw] ].
Ltac skeep := repeat first [sstep | apply keeps_bind; [|intros] | case_match].

Lemma still_forward fl e seq cmd : keeps True (still fl) (fwup_forward_coproc_start (F := F) e seq cmd).
Proof. unfold fwup_forward_coproc_start. skeep. Qed.

Lemma still_result_rsp fl e seq r b : keeps True (still fl) (fwup_send_confirmation_result_rsp (F := F) e seq r b).
Proof. unfold fwup_send_confirmation_result_rsp. skeep. Qed.

Lemma still_finish_ui fl b : keeps True (still fl) (fwup_coproc_finish_ui (F := F) (L := L) (D := D) (T := T) b).
Proof. unfold fwup_coproc_finish_ui, secure_deauthenticate. skeep. Qed.

Lemma still_remove fl : keeps True (still fl) (remove_staged (F := F) (L := L) (D := D) (T := T)).
Proof. by apply still_fw. Qed.
#[local] Hint Resolve still_forward still_result_rsp still_finish_ui still_remove : fw.

Lemma still_send_transfer fl e seq cmd : keeps True (still fl) (send_coproc_transfer (F := F) e seq cmd).
Proof. unfold send_coproc_transfer. skeep. Qed.

Lemma still_send_finish fl e seq cmd : keeps True (still fl) (send_coproc_finish (F := F) e seq cmd).
Proof. unfold send_coproc_finish. skeep. Qed.

Lemma still_coproc_start fl e seq r : keeps True (still fl) (handle_coproc_start (F := F) e seq r).
Proof. unfold handle_coproc_start, coproc_failed. skeep. Qed.

Lemma still_coproc_transfer fl e seq st : keeps True (still fl) (handle_coproc_transfer (F := F) e seq st).
Proof. unfold handle_coproc_transfer, coproc_failed. skeep. Qed.

Lemma still_coproc_finish fl e seq st : keeps True (still fl) (handle_coproc_finish (F := F) e seq st).
Proof. unfold handle_coproc_finish, end_delta_wait. skeep. Qed.

Lemma still_elim {A} (m : task world A) w r w' :
  (∀ fl, keeps True (still fl) m) → m w = Done (r, w') → flash (fw w') = flash (fw w).
Proof. intros Hm E. pose proof (Hm (λ f, f = flash (fw w)) w eq_refl) as Hs. rewrite E in Hs. by destruct r. Qed.

(** ** Starting an update *)

(** What the erase of the target slot leaves, and whether it succeeded. *)
Definition slot_erase (s : fwup_t F L D) : bool * F := fwup_flash_erase_app (fwup_slot_size sy) (flash s) (tgt s).

(** The flash is that of [s], or the target slot of it was erased. *)
Definition maybe_erased (s : fwup_t F L D) (f : F) : Prop := f = flash s ∨ f = (slot_erase s).2.

(** Starting a delta update leaves the flash alone. *)
Lemma delta_init_flash (w w' : dworld F L D) cfg ok :
  fwup_delta_init FWUP_DELTA_MAX_PATCH_SIZE w cfg = (ok, w') → dflash w' = dflash w.
Proof.
  unfold fwup_delta_init. cbn zeta. do 3 (case_match; [by intros [= _ <-]|]). case_match; [by intros [= _ <-]|].
  set (w1 := fwup_delta_cleanup_stale_signing_files _).
  assert (Hw1 : dflash w1 = dflash w) by done. clearbody w1.
  destruct (cfg_mode cfg =? FWUP_MODE_DELTA_ONESHOT).
  - destruct (fwup_delta_open w1) as [o w2] eqn:Eo. apply delta_open_opened in Eo as [Eo _]. destruct o; cbn [negb]; [|intros [= _ <-]; cbn; congruence].
    destruct (detools_apply_patch_init _ _) as [r p]. case_match; intros [= _ <-]; cbn; congruence.
  - cbn [negb]. destruct (detools_apply_patch_init _ _) as [r p]. case_match; intros [= _ <-]; cbn; congruence.
Qed.

Lemma start_flash s cmd ok rsp s' : fwup_start sy FWUP_DELTA_MAX_PATCH_SIZE s cmd = (ok, rsp, s') →
  maybe_erased s (flash s').
Proof.
  unfold fwup_start, maybe_erased, slot_erase. cbn zeta. destruct (is_delta_update (st_mode cmd)).
  - destruct (fwup_delta_init _ _ _) as [o w] eqn:Ei. apply delta_init_flash in Ei.
    destruct o; cbn [negb]; intros [= _ _ <-]; left; exact Ei.
  - cbn [put_priv fwup_priv begin_session target_slot_addr dw]. unfold flash.
    destruct (fwup_flash_erase_app _ _ _) as [o f] eqn:Ee. cbn [snd].
    destruct o; cbn [negb]; intros [= _ _ <-]; right; done.
Qed.

(** The engine is that of [s]. *)
Definition at_start (s : fwup_t F L D) (w : world) : Prop := fwup_priv (fw w) = fwup_priv s ∧ flash (fw w) = flash s.
#[local] Instance at_start_framed s : Framed (at_start s).
Proof. intros w w' [Hp Hf] ((Hp' & _ & Hf' & _) & _). unfold at_start. by rewrite Hp', Hf'. Qed.

Lemma at_start_update s f : keeps True (at_start s) (update f).
Proof. by intros w Hw. Qed.

(** From the engine of [s] the handler ends with its flash, erased or not. *)
Definition may_start {A} s (m : task world A) : Prop :=
  hoare True (at_start s) m (λ _, still (maybe_erased s)) (still (maybe_erased s)).

Lemma at_start_done {A} s (m : task world A) : keeps True (at_start s) m → may_start s m.
Proof. intros Hm. eapply hoare_consequence; [exact Hm|done|intros _ w [_ Hf]; by left|intros w [_ Hf]; by left]. Qed.

Lemma may_start_before {A B} s (m : task world A) (k : A → task world B) :
  keeps True (at_start s) m → (∀ a, may_start s (k a)) → may_start s (tbind m k).
Proof.
  intros Hm Hk. apply (hoare_bind _ _ _ (λ _, at_start s)); [|done].
  eapply hoare_consequence; [exact Hm|done|done|]. intros w [_ Hf]. by left.
Qed.

Lemma may_start_after {A B} s (m : task world A) (k : A → task world B) :
  may_start s m → (∀ a fl, keeps True (still fl) (k a)) → may_start s (tbind m k).
Proof. intros Hm Hk. eapply hoare_bind; [exact Hm|]. intros a. apply Hk. Qed.

Lemma may_start_engine s cmd : may_start s (start_engine sy FWUP_DELTA_MAX_PATCH_SIZE cmd).
Proof.
  intros w [Hp Hf]. unfold start_engine, on_fw. destruct (fwup_start _ _ _ _) as [[ok rsp] s'] eqn:E. cbn [obind].
  apply start_flash in E. unfold still, maybe_erased, slot_erase in *. by rewrite <- Hp, <- Hf.
Qed.

Ltac astep := first
  [ apply keeps_ret | apply keeps_get_fw | apply keeps_get_port | apply framed_assert | apply at_start_update
  | apply framed_emit; apply _ | apply framed_cm; apply _ | apply framed_auth; apply _
  | apply framed_coproc; apply _ | apply framed_clear; apply _ | apply framed_ask; apply _ | apply framed_confirm; apply _ ].
Ltac akeep := repeat first [astep | apply keeps_bind; [|intros] | case_match].

Lemma may_start_core s e seq cmd : may_start s (port_handle_start_cmd sy FWUP_DELTA_MAX_PATCH_SIZE e seq cmd).
Proof.
  unfold port_handle_start_cmd. apply may_start_before; [akeep|]. intros p. destruct (_ && _); [apply at_start_done; akeep|].
  do 2 (apply may_start_before; [akeep|intros]). destruct (_ =? _).
  { apply may_start_after; [apply may_start_engine|]. intros. skeep. }
  destruct (_ || _); [|apply at_start_done; akeep].
  apply may_start_after; [apply may_start_engine|]. intros. skeep.
Qed.

Lemma may_start_coproc s e seq cmd : may_start s (send_coproc_start (F := F) e seq cmd).
Proof. apply at_start_done. unfold send_coproc_start, drop_cached_result, fwup_forward_coproc_start. akeep. Qed.

Lemma may_start_cmd s e seq cmd :
  may_start s (fwup_task_handle_start_cmd (Port := w3_port sy ml FWUP_DELTA_MAX_PATCH_SIZE) e seq cmd).
Proof.
  unfold fwup_task_handle_start_cmd. apply may_start_before; [akeep|]. intros s1.
  destruct (_ || _); [apply at_start_done; akeep|]. destruct (negb _); [apply may_start_coproc|apply may_start_core].
Qed.

Lemma may_start_result s e seq rh ch :
  may_start s (handle_confirmation_result (T := T) sy FWUP_DELTA_MAX_PATCH_SIZE e seq rh ch).
Proof.
  unfold handle_confirmation_result. apply may_start_before; [akeep|]. intros v.
  destruct (fst v); try (apply at_start_done; akeep; fail).
  apply may_start_before; [akeep|]. intros [saved|]; [|apply at_start_done; akeep].
  apply may_start_before; [akeep|]. intros s1. destruct (_ || _); [apply at_start_done; akeep|].
  apply may_start_before; [akeep|]. intros _. destruct (_ =? _).
  - apply at_start_done. unfold confirmed_uxc_start, fwup_send_confirmation_result_rsp. akeep.
  - unfold confirmed_core_start. apply may_start_after; [apply may_start_engine|]. intros. skeep.
Qed.

Lemma may_start_elim {A} (m : task world A) w r w' : may_start (fw w) m → m w = Done (r, w') →
  maybe_erased (fw w) (flash (fw w')).
Proof. intros Hm E. specialize (Hm w (conj eq_refl eq_refl)). rewrite E in Hm. by destruct r. Qed.

(** ** Answers of the coprocessor *)

(** The acknowledgement that the core waits for. *)
Definition acknowledged (w : world) (seq : Z) (ok : bool) : Prop :=
  awaiting_atomic_commit_rsp (port w) = true ∧ seq ≠ 0 ∧ seq = coproc_commit_seq (port w) ∧ ok = true.

Lemma commit_sig_still e seq ok w r w' :
  handle_commit_sig_rsp e seq ok w = Done (r, w') → flash (fw w') = flash (fw w) ∨ acknowledged w seq ok.
Proof.
  unfold handle_commit_sig_rsp. unfold tbind at 1. unfold get_port at 1. cbn [obind].
  destruct (awaiting_atomic_commit_rsp (port w)) eqn:Ea; cbn [negb]; [|by intros [= <- <-]; left].
  destruct (seq =? 0) eqn:E0.
  { intros E. left. eapply still_elim; [|exact E]. intros fl. unfold end_commit_wait. skeep. }
  destruct (seq =? coproc_commit_seq (port w)) eqn:Eq; cbn [negb]; [|by intros [= <- <-]; left].
  destruct ok; cbn [negb]; [|intros E; left; eapply still_elim; [|exact E]; intros fl; unfold end_commit_wait; skeep].
  intros _. right. apply Z.eqb_neq in E0. apply Z.eqb_eq in Eq. done.
Qed.

(** The coprocessor runs the version that was staged for this slot. *)
Definition recovered (w : world) (v : fwpb_semver) : Prop :=
  ∃ d, staged_file (fw w) = Some d
    ∧ let st := staged_of_bytes (ztake sizeof_staged_sig d) in
      sg_uxc_target_version st = v ∧ fwup_target_slot sy = Done (sg_target_slot st).

(** The files are those of [s]. *)
Definition same_files (s : fwup_t F L D) (w : world) : Prop :=
  flash (fw w) = flash s ∧ staged_file (fw w) = staged_file s ∧ sig_symbol sy (fw w) ∧ fwup_wf sy (fw w).

Lemma recover_still s v w r w' : same_files s w → recover_staged sy v w = Done (r, w') →
  flash (fw w') = flash s ∨ recovered w v.
Proof.
  intros (Hf & Hsf & Hy & Hwf). unfold recover_staged. unfold tbind at 1. unfold on_fw at 1.
  destruct (fwup_staged_sig_read (fw w)) as [[o s1]| | |] eqn:Er; try done. cbn [obind].
  apply staged_read_spec in Er as ((Hp1 & Hd1 & Hf1 & _) & _ & Hst).
  destruct o as [st|]; [|intros [= <- <-]; left; change (flash s1 = flash s); congruence].
  destruct (Hst st eq_refl) as (Hlen & d & Hd & Hdec).
  destruct (fwup_semver_equals _ _) eqn:Ev.
  - unfold tbind at 1 2. unfold on_fw at 1. unfold fwup_staged_sig_commit_to_flash.
    destruct (fwup_target_slot sy) as [slot| | |] eqn:Esl; try done. cbn [obind].
    destruct (sg_target_slot st =? slot) eqn:Es.
    + intros _. right. exists d. apply Z.eqb_eq in Es as <-. rewrite <- Hdec. split; [done|].
      split; [|done]. by apply fwup_semver_equals_spec.
    + cbn [negb obind ret]. intros [= <- <-]. left. change (flash s1 = flash s). congruence.
  - intros [= <- <-]. left. change (flash s1 = flash s). congruence.
Qed.

(** ** The finish of a deferred session *)

(** The flash has the property [fl] in a deferred session. *)
Record deferred fl (w : world) : Prop := {
  df_flash : fl (flash (fw w));
  df_defer : session_defer_commit (port w) = true;
}.

Lemma deferred_emit fl o : keeps True (deferred fl) (emit o).
Proof. intros w []. by split. Qed.

Lemma deferred_engine fl w s' : deferred fl w → flash s' = flash (fw w) → deferred fl (put_fw w s').
Proof. intros [? ?] Hf. split; cbn [fw put_fw port]; [by rewrite Hf|done]. Qed.

(** What the finish command leaves: the flash as it was, or as the engine's
    finish of a delta update leaves it. *)
Definition maybe_patched (s : fwup_t F L D) (cmd : finish_cmd) (f : F) : Prop :=
  f = flash s ∨ is_delta_update (fi_mode cmd) = true ∧ ∃ s1 ok st s2,
    fwup_priv s1 = fwup_priv s ∧ flash s1 = flash s
    ∧ fwup_finish sy ml pubkey s1 cmd = Done (ok, st, s2) ∧ f = flash s2.

(** Before the engine's finish. *)
Record before_finish (s : fwup_t F L D) (w : world) : Prop := {
  bf_at : at_start s w;
  bf_defer : session_defer_commit (port w) = true;
  bf_wf : fwup_wf sy (fw w);
  bf_bl : support_bl_upgrade (fwup_priv (fw w)) = false;
}.

Lemma before_emit s o : keeps True (before_finish s) (emit o).
Proof. intros w []. by split. Qed.

Lemma before_deferred s cmd w : before_finish s w → deferred (maybe_patched s cmd) w.
Proof. intros [[_ Hf] Hd _ _]. split; [by left|done]. Qed.

Lemma finish_patches {A} s cmd (k : bool → finish_status → A) : hoare True (before_finish s)
  (on_fw (λ s, let! '(ok, st, s) := fwup_finish sy ml pubkey s cmd in Done (k ok st, s)))
  (λ _, deferred (maybe_patched s cmd)) (still (maybe_patched s cmd)).
Proof.
  intros w [[Hp Hf] Hd Hwf Hbl]. unfold on_fw.
  destruct (finish_spec sy ml pubkey chipid lay (fw w) cmd Hwf Hbl) as (ok & st & s' & E & _ & _ & _ & Hn).
  rewrite E. cbn [obind]. split; [|done]. cbn [fw put_fw]. destruct (is_delta_update (fi_mode cmd)) eqn:Em.
  - right. split; [done|]. by exists (fw w), ok, st, s'.
  - left. rewrite Hn by done. exact Hf.
Qed.

Lemma pre_apply_before s cmd : keeps True (before_finish s)
  (on_fw (λ s, let '(ok, st, s) := fwup_pre_apply_check s cmd in Done ((ok, st), s))).
Proof.
  intros w [[Hp Hf] Hd Hwf Hbl]. unfold on_fw. destruct (fwup_pre_apply_check (fw w) cmd) as [[ok st] s'] eqn:E. cbn [obind].
  assert (Hs : since sy (fw w) (fw w)) by (by split; [|reflexivity|]).
  pose proof (pre_apply_since sy _ _ _ _ _ _ Hs E) as [Hwf' _ Hbl'].
  assert (Hpf : fwup_priv s' = fwup_priv (fw w) ∧ flash s' = flash (fw w)).
  { revert E. unfold fwup_pre_apply_check. destruct (negb _); [by intros [= _ _ <-]|]. destruct (_ && _); [by intros [= _ _ <-]|].
    destruct (fwup_delta_check_header _ _ _) as [status d] eqn:Ec.
    apply (check_header_ok (fwup_priv (fw w))) in Ec as [_ Hdf]; [|apply Hwf].
    destruct status; intros [= _ _ <-]; (split; [done|exact Hdf]). }
  destruct Hpf as [Hp' Hf']. split; [split; cbn [fw put_fw]; congruence|done|done|done].
Qed.

Lemma deferred_finish_engine s seq cmd : hoare True (before_finish s) (finish_engine sy ml pubkey seq cmd)
  (λ _, deferred (maybe_patched s cmd)) (still (maybe_patched s cmd)).
Proof.
  assert (Hb : ∀ A (m : task world A), keeps True (before_finish s) m →
    hoare True (before_finish s) m (λ _, before_finish s) (still (maybe_patched s cmd))).
  { intros A m Hm. eapply hoare_consequence; [exact Hm|done|done|]. intros w [[_ Hf] _ _ _]. by left. }
  assert (Hret : ∀ A (a : A) fl, hoare True (deferred fl) (ret a) (λ _, deferred fl) (still fl)) by (by intros A a fl w Hw).
  unfold finish_engine. destruct (fi_mode cmd =? _).
  - apply (hoare_bind _ _ _ (λ _, before_finish s)); [apply Hb, pre_apply_before|]. intros c. destruct (negb _).
    + apply (hoare_bind _ _ _ (λ _, before_finish s)); [apply Hb, before_emit|]. intros _ w Hw. by apply before_deferred.
    + do 2 (apply (hoare_bind _ _ _ (λ _, before_finish s)); [apply Hb, before_emit|intros _]).
      apply (finish_patches s cmd (λ ok _, ok)).
  - apply (hoare_bind _ _ _ (λ _, before_finish s)); [apply Hb, before_emit|]. intros _.
    apply (hoare_bind _ _ _ (λ _, deferred (maybe_patched s cmd))); [apply (finish_patches s cmd pair)|]. intros r.
    apply (hoare_bind _ _ _ (λ _, deferred (maybe_patched s cmd))); [|intros _; apply Hret].
    eapply hoare_consequence; [apply deferred_emit|done|done|by intros w []].
Qed.

Lemma deferred_update fl f : (∀ p, session_defer_commit (f p) = session_defer_commit p) →
  keeps True (deferred fl) (update f).
Proof. intros Hf w []. split; [done|cbn; by rewrite Hf]. Qed.

Lemma deferred_remove fl : keeps True (deferred fl) (remove_staged (F := F) (L := L) (D := D) (T := T)).
Proof. intros w Hw. by apply deferred_engine. Qed.

Lemma deferred_try fl e : keeps True (deferred fl) (try_atomic_commit (F := F) (L := L) (D := D) (T := T) sy ml e).
Proof.
  unfold try_atomic_commit. do 2 (apply keeps_bind; [by intros w Hw|intros]). destruct (_ || _); [apply keeps_ret|].
  apply keeps_bind.
  { intros w Hw. unfold on_fw. destruct (fwup_get_target_version _ _ _); try done. by apply deferred_engine. }
  intros [v|]; [|apply keeps_ret]. unfold fwup_atomic_commit. apply keeps_bind; [by intros w Hw|]. intros s.
  destruct (fwup_get_pending_signature s); [|apply keeps_ret]. apply keeps_bind.
  { intros w Hw. unfold on_fw. destruct (fwup_target_slot sy); try done. by apply deferred_engine. }
  intros slot. apply keeps_bind.
  { intros w Hw. unfold on_fw. destruct (fwup_staged_sig_write _ _) as [[ok s1]| | |] eqn:E; try done.
    apply staged_write_spec in E as ((_ & _ & ? & _) & _). by apply deferred_engine. }
  intros ok. destruct (negb ok); [apply keeps_ret|]. destruct (negb (uc_alloc e)).
  { apply keeps_bind; [apply deferred_remove|]. intros. apply keeps_ret. }
  intros w Hw. unfold tbind at 1. unfold get_port at 1. cbn [obind].
  unfold fwup_next_internal_uxc_seq. unfold tbind at 1. unfold set_port at 1. cbn [obind].
  destruct Hw as [? ?]. destruct (uc_sent e); by split.
Qed.

(** In a deferred session the direct commit is not taken. *)
Lemma deferred_finish_update fl success bl :
  hoare True (deferred fl)
    (finish_update (Port := w3_port sy ml FWUP_DELTA_MAX_PATCH_SIZE) success bl) (λ _, still fl) (still fl).
Proof.
  intros w [Hf Hd]. unfold finish_update. unfold tbind at 1.
  cbn [fwup_task_port_is_deferred_session w3_port]. unfold tbind at 1. unfold get_port, ret at 1. cbn [obind].
  rewrite Hd. replace (if success && true then false else success) with false by (by destruct success).
  cbn [andb]. revert w Hf Hd. enough (Hk : keeps True (still fl) (tbind (ret false) (λ success : bool,
      run! emit (Ui UI_EVENT_LED_CLEAR) in
      run! (if success then emit (Ui (UI_EVENT_FWUP_COMPLETE (Some true)))
            else run! secure_deauthenticate deauthenticate_without_animation in
                 emit (Ui UI_EVENT_FWUP_FAILED)) in
      mcu_reset_with_reason (A := unit)))) by (intros w Hf _; by apply (Hk w)).
  unfold secure_deauthenticate. skeep.
Qed.

Lemma finish_cmd_patches e seq cmd w r w' : fwup_wf sy (fw w) → support_bl_upgrade (fwup_priv (fw w)) = false →
  session_defer_commit (port w) = true →
  fwup_task_handle_finish_cmd (Port := w3_port sy ml FWUP_DELTA_MAX_PATCH_SIZE) sy ml pubkey e seq cmd w
    = Done (r, w') → maybe_patched (fw w) cmd (flash (fw w')).
Proof.
  intros Hwf Hbl Hd E. set (fl := maybe_patched (fw w) cmd).
  assert (Hh : hoare True (before_finish (fw w))
    (fwup_task_handle_finish_cmd (Port := w3_port sy ml FWUP_DELTA_MAX_PATCH_SIZE) sy ml pubkey e seq cmd)
    (λ _, still fl) (still fl)).
  { unfold fwup_task_handle_finish_cmd. apply (hoare_bind _ _ _ (λ _, before_finish (fw w))); [by intros ? ?|]. intros s.
    assert (Hst : ∀ m : task world unit, (∀ fl, keeps True (still fl) m) →
      hoare True (before_finish (fw w)) m (λ _, still fl) (still fl)).
    { intros m Hk w1 [[_ Hf] _ _ _]. apply (Hk fl w1). by left. }
    destruct (_ || _); [apply Hst; intros; skeep|]. destruct (negb _); [apply Hst; intros; apply still_send_finish|].
    apply (hoare_bind _ _ _ (λ _, deferred fl)); [apply deferred_finish_engine|]. intros success.
    apply (hoare_bind _ _ _ (λ _, deferred fl)).
    - apply (hoare_consequence _ (deferred fl) _ _ (λ _, deferred fl) _ (deferred fl)); [|done|done|by intros ? []].
      destruct success; [apply deferred_try|apply keeps_ret].
    - intros []; [by intros ? []|apply deferred_finish_update]. }
  assert (Hw : before_finish (fw w) w) by (by split). specialize (Hh w Hw). rewrite E in Hh. by destruct r.
Qed.

(** The bytes of the target slot's signature. *)
Definition flashed_signature (s : fwup_t F L D) : list Z :=
  mem_bytes (flash s) (tgt s + (size s - FWUP_SIGNATURE_SIZE)) FWUP_SIGNATURE_SIZE.

(** The messages on which the core may commit its signature. *)
Definition may_sign (w : world) (m : fwup_msg) : Prop :=
  match m with
  | FWUP_COMMIT_SIG_COPROC_RSP seq ok => acknowledged w seq ok
  | FWUP_COPROC_VERSION v => recovered w v
  | _ => False
  end.

(** The messages that start an update. *)
Definition is_start (m : fwup_msg) : bool :=
  match m with FWUP_START_CMD _ _ | FWUP_CONFIRMATION_RESULT _ _ _ => true | _ => false end.

#[local] Instance files_framed s : Framed (same_files s).
Proof.
  intros w w' (Hf & Hsf & Hy & [Hsl Hd]) ((Hp & Hds & Hfl & _) & Hsf' & _).
  unfold same_files, sig_symbol in *. rewrite Hp, Hfl, Hsf'. split_and!; try done.
  split; rewrite ?Hp, ?Hds; done.
Qed.

Lemma files_update s f : keeps True (same_files s) (update f).
Proof. by intros w Hw. Qed.

(** A change of a flag of the engine. *)
Lemma files_flag s f : (∀ s, fwup_priv (f s) = fwup_priv s ∧ dw (f s) = dw s) →
  keeps True (same_files s) (update_fw f).
Proof.
  intros Hf w (Hfl & Hsf & Hy & [Hsl Hd]). destruct (Hf (fw w)) as [Hp Hw].
  change (same_files s (put_fw w (f (fw w)))).
  unfold same_files, sig_symbol, staged_file, flash in *. cbn [fw put_fw]. rewrite Hp, Hw. split_and!; try done.
  split; rewrite ?Hp, ?Hw; done.
Qed.

Lemma files_delta_lost s (b success : bool) : keeps True (same_files s)
  (if b then run! end_delta_wait in run! update fwup_uxc_clear_pending in
     fwup_coproc_finish_ui (F := F) (L := L) (D := D) (T := T) success else ret tt).
Proof.
  unfold end_delta_wait, fwup_coproc_finish_ui, secure_deauthenticate.
  repeat first [apply files_update | apply files_flag; done | sstep | apply keeps_bind; [|intros] | case_match].
  all: apply keeps_reset; intros w l Hw; (eapply (files_framed s); [done|by split_and!]).
Qed.

(** The version report of the coprocessor, up to the recovery and after it. *)
Definition after_recovery : task world unit :=
  run! end_commit_wait in
  run! update fwup_uxc_clear_pending in
  run! update (set_uxc_verified false) in
  run! update_fw (λ s, fwup_mark_coproc_pending s false) in
  do! s := get_fw in
  run! (if negb (fwup_in_progress s) then update (set_session_defer false) else ret tt) in
  update_fw fwup_clear_reset_pending.

Lemma still_after_recovery fl : keeps True (still fl) after_recovery.
Proof. unfold after_recovery, end_commit_wait. skeep. Qed.

Lemma recovered_same s w v : same_files s w → recovered w v → ∃ d, staged_file s = Some d
  ∧ let st := staged_of_bytes (ztake sizeof_staged_sig d) in
    sg_uxc_target_version st = v ∧ fwup_target_slot sy = Done (sg_target_slot st).
Proof. intros (_ & Hsf & _ & _). unfold recovered. by rewrite Hsf. Qed.

Lemma version_still s0 e v w r w' : base sy s0 w →
  handle_coproc_version sy e v w = Done (r, w') → flash (fw w') = flash (fw w) ∨ recovered w v.
Proof.
  intros [Hs _ Hy] E. unfold handle_coproc_version in E. fold after_recovery in E.
  unfold tbind at 1 in E. unfold get_port at 1 in E. cbn [obind] in E. unfold tbind at 1 in E.
  assert (Hw : same_files (fw w) w) by (split_and!; [done|done|by eapply since_symbol|apply Hs]).
  pose proof (files_delta_lost (fw w) (awaiting_coproc_delta_result (port w))
    (if ucv_valid (port w) then fwup_semver_equals (Some (ucv_version (port w))) (Some v) else true) w Hw) as Hpre.
  match type of E with obind ?m _ = _ => destruct m as [[[[]|] w1]| | |] end; try done; cbn [obind] in E.
  - unfold tbind at 1 in E. destruct (recover_staged sy v w1) as [[r2 w2]| | |] eqn:Er; try done; cbn [obind] in E.
    apply (recover_still (fw w)) in Er as [Hf|Hr]; [|by right; apply (recovered_same _ _ _ Hpre)|done].
    left. destruct r2 as [[]|]; [|by injection E as <- <-].
    rewrite <- Hf. eapply still_elim; [apply still_after_recovery|exact E].
  - injection E as <- <-. left. apply Hpre.
Qed.

(** Not touched by a transfer. *)
Lemma transfer_signature e seq cmd w r w' : fwup_wf sy (fw w) → tx_ok cmd →
  fwup_task_handle_transfer_cmd (Port := w3_port sy ml FWUP_DELTA_MAX_PATCH_SIZE) e seq cmd w = Done (r, w') →
  within (tgt (fw w)) (tgt (fw w) + (size (fw w) - FWUP_SIGNATURE_SIZE)) (flash (fw w)) (flash (fw w')).
Proof.
  intros Hwf Hok. unfold fwup_task_handle_transfer_cmd. unfold tbind at 1. unfold get_fw at 1. cbn [obind].
  destruct (_ || _); [by intros [= <- <-]|]. destruct (negb _).
  { intros E. rewrite (still_elim _ _ _ _ (λ fl, still_send_transfer fl e seq cmd) E). done. }
  unfold tbind at 1. unfold on_fw at 1.
  destruct (transfer_spec sy (fw w) cmd Hwf Hok) as (ok & st & s' & -> & _ & _ & Hw & _). by intros [= <- <-].
Qed.

(** An erase that succeeds leaves the place of the signature blank. *)
Lemma erased_signature s (w' : world) : fwup_wf sy s → tgt (fw w') = tgt s → size (fw w') = size s →
  flash (fw w') = (slot_erase s).2 → (slot_erase s).1 = true →
  flashed_signature (fw w') = replicate (Z.to_nat FWUP_SIGNATURE_SIZE) 0xFF.
Proof.
  intros Hwf Ht Hs Hf Hok. unfold flashed_signature. rewrite Ht, Hs, Hf.
  unfold slot_erase, fwup_flash_erase_app in *. rewrite <- (sw_size _ _ (fw_slots _ _ Hwf)) in *.
  destruct (fwup_flash_erase _ _ _) as [ok f] eqn:Ee. cbn [fst snd] in *. subst ok.
  pose proof (fw_slots _ _ Hwf) as []. unfold UINT32_MAX, FWUP_SIGNATURE_SIZE, ECC_SIG_SIZE in *.
  apply flash_erase_spec in Ee as [_ Hff]; [|done|done|done|lia|lia].
  change 64 with (zlen (replicate (Z.to_nat 64) 0xFF)) at 2. apply mem_bytes_eq. intros i b [-> Hi]%lookup_replicate.
  apply Hff; [done|]. lia.
Qed.

(** C7: in a deferred session of the second device, in every state that any
    messages of the host and of the coprocessor lead to, no message makes the
    core write its signature, and so the new image bootable, but two: the
    coprocessor's acknowledgement, with the number of this very request, that
    it has committed its own; and the coprocessor's report that it runs the
    version staged with the signature. Every other message leaves the place of
    the signature as it is, with two exceptions that replace the whole slot. A
    message that starts an update may erase it: the flash is then exactly what
    the erase of the slot leaves, blank in the place of the signature if the
    erase succeeded. And the finish of a delta update applies the patch: the
    flash is then exactly what the engine's finish leaves, without a commit
    after it. *)
Theorem w3_core_commits_last w0 w e m r w' : booted sy w0 →
  w3_any sy ml FWUP_DELTA_MAX_PATCH_SIZE pubkey w0 w → decoded m →
  session_defer_commit (port w) = true → step e m w = Done (r, w') → ¬ may_sign w m →
  flashed_signature (fw w') = flashed_signature (fw w)
  ∨ is_start m = true ∧ flash (fw w') = (slot_erase (fw w)).2
    ∧ ((slot_erase (fw w)).1 = true →
       flashed_signature (fw w') = replicate (Z.to_nat FWUP_SIGNATURE_SIZE) 0xFF)
  ∨ ∃ seq cmd s ok st s', m = FWUP_FINISH_CMD seq cmd ∧ is_delta_update (fi_mode cmd) = true
      ∧ fwup_priv s = fwup_priv (fw w) ∧ flash s = flash (fw w)
      ∧ fwup_finish sy ml pubkey s cmd = Done (ok, st, s') ∧ flash (fw w') = flash s'.
Proof.
  intros Hb Hr Ha Hd E Hno. pose proof (any_base sy ml _ pubkey chipid lay _ _ Hb Hr) as Hi.
  pose proof (base_step sy ml FWUP_DELTA_MAX_PATCH_SIZE pubkey chipid lay (fw w0) e m Ha w Hi) as Hb'. rewrite E in Hb'.
  assert (Hi' : base sy (fw w0) w') by (by destruct r). clear Hb'.
  pose proof Hi as [[Hwf [(Ht & Hs & _) _] Hbl] _ _]. destruct Hi' as [[_ [(Ht' & Hs' & _) _] _] _ _].
  rewrite <- Ht in Ht'. rewrite <- Hs in Hs'.
  assert (Hstill : flash (fw w') = flash (fw w) → flashed_signature (fw w') = flashed_signature (fw w)).
  { intros Hf. unfold flashed_signature. by rewrite Hf, Ht', Hs'. }
  assert (Hstart : is_start m = true → maybe_erased (fw w) (flash (fw w')) →
    flashed_signature (fw w') = flashed_signature (fw w)
    ∨ is_start m = true ∧ flash (fw w') = (slot_erase (fw w)).2
      ∧ ((slot_erase (fw w)).1 = true → flashed_signature (fw w') = replicate (Z.to_nat FWUP_SIGNATURE_SIZE) 0xFF)).
  { intros Hm [Hf|Hf]; [left; by apply Hstill|right]. split_and!; [done|done|]. by apply erased_signature. }
  destruct m as [seq cmd|seq cmd|seq cmd|seq rh ch|seq st|seq st|seq st|seq ok|v];
    cbn [fwup_thread_step may_sign decoded is_start] in *.
  - enough (Hm : maybe_erased (fw w) (flash (fw w'))) by (destruct (Hstart eq_refl Hm); [by left|by right; left]).
    eapply may_start_elim; [|exact E]. apply may_start_after; [apply may_start_cmd|]. intros. apply keeps_ret.
  - apply transfer_signature in E as Hw; [|done|done]. left. unfold flashed_signature. rewrite Ht', Hs'.
    eapply within_bytes; [exact Hw|]. lia.
  - apply finish_cmd_patches in E as [Hf|(Hm & s & ok & st & s' & ? & ? & ? & ?)]; [left; by apply Hstill| |done..].
    right. right. by exists seq, cmd, s, ok, st, s'.
  - enough (Hm : maybe_erased (fw w) (flash (fw w'))) by (destruct (Hstart eq_refl Hm); [by left|by right; left]).
    eapply may_start_elim; [|exact E]. apply may_start_after; [apply may_start_result|]. intros. apply keeps_ret.
  - left. apply Hstill. eapply still_elim; [|exact E]. intros fl. apply still_coproc_start.
  - left. apply Hstill. eapply still_elim; [|exact E]. intros fl. apply still_coproc_transfer.
  - left. apply Hstill. eapply still_elim; [|exact E]. intros fl. apply still_coproc_finish.
  - left. apply Hstill. by apply commit_sig_still in E as [|].
  - left. apply Hstill. by destruct (version_still (fw w0) e v w r w' Hi E).
Qed.

(** ** Recovery after a restart *)

(** The same slots, files and flash, as a restart leaves them. *)
Definition restarted (s s1 : fwup_t F L D) : Prop :=
  flash s1 = flash s ∧ staged_file s1 = staged_file s ∧ tgt s1 = tgt s ∧ size s1 = size s.

Lemma target_slot_range slot : fwup_target_slot sy = Done slot → 0 ≤ slot ≤ UINT32_MAX.
Proof. unfold fwup_target_slot. repeat case_match; intros E; simplify_eq; done. Qed.

(** The staged file holds what was staged, also in a file that was longer. *)
Lemma staged_reads s s1 v st s2 : fwup_wf sy s → sig_staged sy s v → semver_ok v → restarted s s1 →
  fwup_staged_sig_read s1 = Done (Some st, s2) →
  sg_signature st = pending_signature (fwup_priv s) ∧ sg_uxc_target_version st = v
  ∧ fwup_target_slot sy = Done (sg_target_slot st) ∧ same_engine s1 s2.
Proof.
  intros Hwf (slot & core & d & Hslot & Hfile) Hv (_ & Hsf & _ & _) E.
  apply staged_read_spec in E as (Hsame & _ & Hst). destruct (Hst st eq_refl) as (_ & d' & Hd & ->).
  rewrite Hsf, Hfile in Hd. injection Hd as <-.
  destruct (staged_fields d (mk_staged (pending_signature (fwup_priv s)) slot core v)) as (-> & -> & Hu);
    [apply Hwf|by eapply target_slot_range|]. cbn [sg_signature sg_uxc_target_version sg_target_slot] in *.
  by rewrite Hu.
Qed.

(** C9: a commit that a loss of power interrupted is completed. If the device
    restarts while it waits for the coprocessor's acknowledgement, with its
    flash and its files as they were, then, once the coprocessor reports the
    version that was staged, the core (provided that the file can be read and
    the flash written) writes the very signature that it had verified to its
    place, changes nothing else, and resets into the new image. *)
Theorem w3_recovery_completes w0 w v w1 e st s1 s2 : booted sy w0 →
  w3_reach sy ml FWUP_DELTA_MAX_PATCH_SIZE pubkey w0 w → awaiting_atomic_commit_rsp (port w) = true →
  sig_staged sy (fw w) v → semver_ok v →
  booted sy w1 → restarted (fw w) (fw w1) → target_slot_signature (fwup_priv (fw w1)) ≠ 0 →
  fwup_staged_sig_read (fw w1) = Done (Some st, s1) →
  fwup_commit_signature_to s1 (target_slot_signature (fwup_priv s1)) (sg_signature st) = (true, s2) →
  ∃ w', step e (FWUP_COPROC_VERSION v) w1 = Done (None, w')
    ∧ within (tgt (fw w) + (size (fw w) - FWUP_SIGNATURE_SIZE)) (tgt (fw w) + size (fw w))
        (flash (fw w)) (flash (fw w'))
    ∧ (bytes_ok (pending_signature (fwup_priv (fw w))) →
       flashed_signature (fw w) = replicate (Z.to_nat FWUP_SIGNATURE_SIZE) 0xFF →
       flashed_signature (fw w') = pending_signature (fwup_priv (fw w))).
Proof.
  intros Hb Hr Ha Hstg Hv Hb1 Hres Hnz Er Ec. destruct (reach_inv sy ml _ pubkey chipid lay _ _ Hb Hr) as [[Hwf _ _] _ _ _ _].
  destruct (staged_reads _ _ _ _ _ Hwf Hstg Hv Hres Er) as (Hsig & Hver & Hslot & (Hp1 & Hd1 & Hf1 & _)).
  destruct Hres as (Hf & _ & Ht & Hs). destruct Hb1 as [Hwf1 _ Hy1 [c Hport]].
  assert (Hwf2 : fwup_wf sy s1) by (destruct Hwf1; by split; rewrite ?Hp1, ?Hd1).
  assert (Hlen : zlen (sg_signature st) = FWUP_SIGNATURE_SIZE) by (rewrite Hsig; apply Hwf).
  pose proof Ec as Hc. apply (commit_to_spec sy) in Hc as (_ & [(Ht2 & Hs2 & _) _] & _ & Hok); [|done|done].
  destruct (Hok eq_refl) as [Hw Hm]. rewrite Hp1, Hf1, Hf, Ht, Hs in *.
  exists (put_log (put_fw w1 (fwup_staged_sig_remove s2)) (log w1 ++ [McuReset])). split.
  - cbn [fwup_thread_step fwup_task_handle_coproc_version w3_port]. unfold handle_coproc_version.
    unfold tbind at 1. unfold get_port at 1. cbn [obind]. rewrite Hport. cbn [awaiting_coproc_delta_result w3_boot].
    unfold tbind at 1. cbn [ret obind]. unfold tbind at 1. unfold recover_staged. unfold tbind at 1. unfold on_fw at 1.
    rewrite Er. cbn [obind]. unfold tbind at 1 2. rewrite Hver.
    replace (fwup_semver_equals (Some v) (Some v)) with true by (symmetry; by apply fwup_semver_equals_spec).
    unfold tbind at 1. unfold on_fw at 1. cbn [fw put_fw]. unfold fwup_staged_sig_commit_to_flash. rewrite Hslot. cbn [obind].
    rewrite Z.eqb_refl. cbn [negb].
    assert (Haddr : fwup_slot_signature_address sy (sg_target_slot st) = target_slot_signature (fwup_priv (fw w1)))
      by (by apply sig_symbol_slot).
    rewrite Haddr, (proj2 (Z.eqb_neq _ _) Hnz), Ec. done.
  - change (flash (fw (put_log (put_fw w1 (fwup_staged_sig_remove s2)) (log w1 ++ [McuReset])))) with (flash s2).
    split; [done|]. intros Hby Her. unfold flashed_signature in *.
    change (fw (put_log (put_fw w1 (fwup_staged_sig_remove s2)) (log w1 ++ [McuReset]))) with (fwup_staged_sig_remove s2).
    change (flash (fwup_staged_sig_remove s2)) with (flash s2). change (fwup_priv (fwup_staged_sig_remove s2)) with (fwup_priv s2).
    rewrite Ht2, Hs2, <- Hsig. apply Hm; [by rewrite Hsig|done].
Qed.
End Atomic.
