(* ===== verification/FwUxc.v ===== *)
(** * The update task of the coprocessor (app/tasks/fwup/src/uxc/fwup_task.c)

    The coprocessor runs the same engine on the commands that the core
    forwards. In a deferred session it keeps the signature in RAM until the
    core asks for the commit. *)

From S2P Require Import Prelude FwFlash Fs SecBoot Metadata FwVerify FwDelta.
From S2P Require Import FwWriter FwPatch Fwup FwupSpec Timer Auth FwTask FwDevice.
#[local] Open Scope Z_scope.
#[local] Open Scope list_scope.
#[local] Open Scope task_scope.

Record uxc_world (F L D : Type) := mk_uxc_world {
  ufw : fwup_t F L D;
  uxc_defer_commit : bool;
  ulog : list out;
}.
Arguments mk_uxc_world {F L D}.
Arguments ufw {F L D}.
Arguments uxc_defer_commit {F L D}.
Arguments ulog {F L D}.

Section Uxc.
Context {F L D C : Type} `{FlashMem F} `{Platform} `{Littlefs L} `{Detools D} `{PatchCrypto C}.
Context `{FwVerify F} `{Cmp}.
Variable sy : fw_symbols.
Variable ml : meta_layout.
Variable FWUP_DELTA_MAX_PATCH_SIZE : Z.
Variable fwup_delta_patch_pubkey : list Z.
#[local] Abbreviation world := (uxc_world F L D).
#[local] Abbreviation task := (task world).

Definition u_emit (o : out) : task unit := λ w,
  Done (Some tt, mk_uxc_world (ufw w) (uxc_defer_commit w) (ulog w ++ [o])).
Definition u_set_defer (b : bool) : task unit := λ w, Done (Some tt, mk_uxc_world (ufw w) b (ulog w)).
Definition u_deferred : task bool := λ w, Done (Some (uxc_defer_commit w), w).
Definition u_assert (c : bool) : task unit := λ w, let! _ := ASSERT c in Done (Some tt, w).
Definition u_on_fw {A} (f : fwup_t F L D → outcome (A * fwup_t F L D)) : task A := λ w,
  let! '(a, s) := f (ufw w) in Done (Some a, mk_uxc_world s (uxc_defer_commit w) (ulog w)).
Definition u_reset {A} : task A := λ w,
  Done (None, mk_uxc_world (ufw w) (uxc_defer_commit w) (ulog w ++ [McuReset])).

Definition _fwup_task_handle_fwup_start (e : env) (seq : Z) (cmd : start_cmd) : task unit :=
  run! u_set_defer (st_defer_commit cmd) in
  run! u_assert (uc_alloc e) in
  do! r := u_on_fw (λ s, let '(_, rsp, s) := fwup_start sy FWUP_DELTA_MAX_PATCH_SIZE s cmd in Done (rsp, s)) in
  u_emit (ToCore seq (device_start r)).

Definition _fwup_task_handle_fwup_transfer (e : env) (seq : Z) (cmd : transfer_cmd) : task unit :=
  run! u_assert (uc_alloc e) in
  do! st := u_on_fw (λ s, let! '(_, st, s) := fwup_transfer s cmd in Done (st, s)) in
  u_emit (ToCore seq (device_transfer st)).

Definition u_finish (cmd : finish_cmd) : task (bool * finish_status) :=
  u_on_fw (λ s, let! '(ok, st, s) := fwup_finish sy ml fwup_delta_patch_pubkey s cmd in Done ((ok, st), s)).
Definition u_commit : task bool := u_on_fw (λ s, Done (fwup_commit_signature s)).

(** Apply the patch after the first response. *)
Definition finish_patch (e : env) (seq : Z) (cmd : finish_cmd) : task unit :=
  run! u_emit (ToCore seq (device_finish FINISH_WILL_APPLY_PATCH)) in
  do! r := u_finish cmd in
  run! u_assert (uc_alloc e) in
  run! u_emit (ToCore seq (device_finish (if fst r then FINISH_SUCCESS else FINISH_ERROR))) in
  do! deferred := u_deferred in
  if negb deferred then
    run! (if fst r then do! _ := u_commit in ret tt else ret tt) in u_reset
  else ret tt.

Definition _fwup_task_handle_fwup_finish (e : env) (seq : Z) (cmd : finish_cmd) : task unit :=
  run! u_assert (uc_alloc e) in
  if fi_mode cmd =? FWUP_MODE_DELTA_ONESHOT then
    do! c := u_on_fw (λ s, let '(ok, st, s) := fwup_pre_apply_check s cmd in Done ((ok, st), s)) in
    if negb (fst c) then
      run! u_emit (ToCore seq (device_finish (default FINISH_UNSPECIFIED (snd c)))) in u_reset
    else finish_patch e seq cmd
  else
    do! r := u_finish cmd in
    do! deferred := u_deferred in
    let finish_ok := match snd r with FINISH_SUCCESS => true | _ => false end in
    run! (if finish_ok && negb deferred then do! _ := u_commit in ret tt else ret tt) in
    run! u_emit (ToCore seq (device_finish (snd r))) in
    if negb deferred then u_reset else ret tt.

Definition _fwup_task_handle_commit_sig (e : env) (seq : Z) : task unit :=
  run! u_assert (uc_alloc e) in
  do! ok := u_commit in
  u_emit (ToCore seq (device_commit_sig ok)).

Definition uxc_thread_step (e : env) (seq : Z) (m : uxc_msg_host) : task unit :=
  match m with
  | host_start cmd => _fwup_task_handle_fwup_start e seq cmd
  | host_transfer cmd => _fwup_task_handle_fwup_transfer e seq cmd
  | host_finish cmd => _fwup_task_handle_fwup_finish e seq cmd
  | host_commit_sig => _fwup_task_handle_commit_sig e seq
  end.
End Uxc.

(** ** The coprocessor stays in its target slot *)

Section Safe.
Context {F L D C : Type} `{FlashMem F} `{Platform} `{Littlefs L} `{Detools D} `{PatchCrypto C}.
Context `{FwVerify F} `{Cmp} `{CertLayout} `{SecureBoot F} `{FwTrust F} `{!FlashMemLaws F}.
Variable sy : fw_symbols.
Variable ml : meta_layout.
Variable FWUP_DELTA_MAX_PATCH_SIZE : Z.
Variable pubkey : list Z.
Variables (chipid : list Z) (lay : boot_layout).
Context `{!FwVerifyLaws F chipid lay}.
#[local] Abbreviation world := (uxc_world F L D).

Definition host_ok (m : uxc_msg_host) : Prop :=
  match m with host_transfer cmd => tx_ok cmd | _ => True end.

Definition u_since (s0 : fwup_t F L D) (w : world) : Prop := since sy s0 (ufw w).

Lemma u_keeps_fw {A} s0 (f : fwup_t F L D → outcome (A * fwup_t F L D)) :
  (∀ s, since sy s0 s → ∃ a s', f s = Done (a, s') ∧ since sy s0 s') → keeps True (u_since s0) (u_on_fw f).
Proof. intros Hf w Hw. unfold u_on_fw. by destruct (Hf (ufw w) Hw) as (a & s' & -> & ?). Qed.

Lemma u_keeps_emit s0 o : keeps True (u_since s0) (u_emit o).
Proof. by intros w Hw. Qed.
Lemma u_keeps_defer s0 b : keeps True (u_since s0) (u_set_defer b).
Proof. by intros w Hw. Qed.
Lemma u_keeps_deferred s0 : keeps True (u_since s0) u_deferred.
Proof. by intros w Hw. Qed.
Lemma u_keeps_reset {A} s0 : keeps True (u_since s0) (u_reset (A := A)).
Proof. by intros w Hw. Qed.
Lemma u_keeps_assert s0 c : keeps True (u_since s0) (u_assert c).
Proof. intros w Hw. unfold u_assert, ASSERT. by destruct c. Qed.

Lemma u_keeps_finish s0 cmd : keeps True (u_since s0) (u_finish sy ml pubkey cmd).
Proof.
  apply u_keeps_fw. intros s Hs.
  destruct (finish_spec sy ml pubkey chipid lay s cmd (si_wf _ _ _ Hs) (si_bl _ _ _ Hs))
    as (ok & st & s' & -> & ? & ? & _). eexists _, _. split; [done|]. by apply (since_step _ _ s).
Qed.

Lemma u_keeps_commit s0 : keeps True (u_since s0) u_commit.
Proof.
  apply u_keeps_fw. intros s Hs. destruct (fwup_commit_signature s) as [ok s'] eqn:E.
  apply (commit_spec sy) in E as (? & ? & _); [|apply Hs]. eexists _, _. split; [done|].
  by apply (since_step _ _ s).
Qed.
#[local] Hint Resolve u_keeps_emit u_keeps_defer u_keeps_deferred u_keeps_reset u_keeps_assert
  u_keeps_finish u_keeps_commit : fw.

Ltac ukeep := repeat first [apply keeps_bind; [|intros] | solve [eauto with fw] | case_match].

(** Every command of the core keeps the engine of the coprocessor well formed
    and its flash unchanged outside of its target slot. *)
Lemma uxc_step_since s0 e seq m : host_ok m →
  keeps True (u_since s0) (uxc_thread_step sy ml FWUP_DELTA_MAX_PATCH_SIZE pubkey e seq m).
Proof.
  destruct m as [cmd|cmd|cmd|]; cbn [host_ok uxc_thread_step]; intros Hm.
  - unfold _fwup_task_handle_fwup_start. ukeep. apply u_keeps_fw. intros s Hs.
    destruct (fwup_start _ _ _ _) as [[ok rsp] s'] eqn:E.
    apply start_spec in E as (? & ? & _); [|apply Hs]. eexists _, _. split; [done|]. by apply (since_step _ _ s).
  - unfold _fwup_task_handle_fwup_transfer. ukeep. apply u_keeps_fw. intros s Hs.
    destruct (transfer_spec sy s cmd (si_wf _ _ _ Hs) Hm) as (ok & st & s' & -> & ? & ? & _).
    eexists _, _. split; [done|]. by apply (since_step _ _ s).
  - unfold _fwup_task_handle_fwup_finish, finish_patch. ukeep. apply u_keeps_fw. intros s Hs.
    destruct (fwup_pre_apply_check s cmd) as [[ok st] s'] eqn:E. eexists _, _. split; [done|]. by eapply pre_apply_since.
  - unfold _fwup_task_handle_commit_sig. ukeep.
Qed.

(** The acknowledgement of a commit tells whether the signature was written. *)
Lemma uxc_commit_acks e seq w : uc_alloc e = true →
  uxc_thread_step sy ml FWUP_DELTA_MAX_PATCH_SIZE pubkey e seq host_commit_sig w =
  Done (Some tt, mk_uxc_world (fwup_commit_signature (ufw w)).2 (uxc_defer_commit w)
    (ulog w ++ [ToCore seq (device_commit_sig (fwup_commit_signature (ufw w)).1)])).
Proof.
  intros He. cbn [uxc_thread_step]. unfold _fwup_task_handle_commit_sig, tbind, u_assert, u_commit, u_on_fw, u_emit.
  rewrite He. cbn [ASSERT obind]. by destruct (fwup_commit_signature (ufw w)) as [ok s].
Qed.
End Safe.
