(* ===== verification/FwDemo.v ===== *)
(** * A concrete device for the update theorems

    The theorems on updates are stated for any flash, file system, patch
    library, cryptography and certificate layout that keep their laws. This
    file has one device of that kind, small enough to run: a bootloader and two
    slots of one page each, the image of slot A running, and an update to
    version 2.0.0 that is sent in four chunks. The witnesses of the theorems
    evaluate the handlers on it. *)

From S2P Require Import Prelude Sha256 Timer Sleep Auth Confirmation FwFlash Fs SecBoot Metadata FwVerify FwDelta.
From S2P Require Import FwWriter FwPatch Fwup FwupSpec FwTask FwDevice FwStaged FwW3 FwAtomic FwSigned FwUxc.
#[local] Open Scope Z_scope.
#[local] Open Scope list_scope.

(** ** Parameters *)

#[local] Existing Instance efr32.

#[local] Instance demo_layout : CertLayout := {
  sizeof_app_properties := 44;
  off_props_magic := 0;
  off_props_structVersion := 16;
  off_props_version := 20;
  off_props_productId := 24;
  off_props_cert := 40;
  sizeof_app_certificate := 76;
  off_cert_version := 0;
  off_cert_key := 4;
  sizeof_cert_key := 8;
  off_cert_signature := 12;
}.

#[local] Instance demo_layout_laws : CertLayoutLaws.
Proof. split; cbn; unfold ECC_SIG_SIZE; lia. Qed.

(** A signature is valid when it starts with the first byte of the key. *)
#[local] Instance demo_crypto : BootCrypto := {
  crypto_hash data := Some (take 8 data);
  crypto_ecc_verify_hash key _ sig := hd 0 sig =? hd 0 key;
  picocert_ctx := unit;
  picocert_init_context _ _ := Some tt;
  picocert_verify_hash _ _ _ _ := false;
}.

#[local] Existing Instance toy_sha256.
#[local] Existing Instance toy_sha256_laws.

(** The signature of a patch must start with 1. *)
#[local] Instance demo_patch_crypto : PatchCrypto (list Z) := {
  patch_verify_hash _ _ sig := hd 0 sig =? 1;
}.

#[local] Instance demo_detools : Detools unit := {
  detools_zero := tt;
  detools_apply_patch_init _ _ := (0, tt);
  detools_apply_patch_process _ bs := dt_write bs (λ r, dt_ret (r, tt));
  detools_apply_patch_finalize _ := dt_ret (0, tt);
}.

(** A map of three entries: a byte that names the part of the version, then its
    value. *)
Definition demo_byte (ma : msgpack_mem_access_t) : option Z * msgpack_mem_access_t :=
  match cmp_mem_reader ma 1 with
  | Done (Some [b], ma) => (Some b, ma)
  | _ => (None, ma)
  end.

#[local] Instance demo_cmp : Cmp := {
  cmp_read_map ma := demo_byte ma;
  cmp_read_str ma _ :=
    match demo_byte ma with
    | (Some k, ma) =>
        (inl (c_string (if k =? 1 then "ver_major" else if k =? 2 then "ver_minor" else "ver_patch")), ma)
    | (None, ma) => (inr 0, ma)
    end;
  cmp_read_uchar ma := demo_byte ma;
  cmp_read_ulong ma := (None, ma);
  cmp_read_bin ma _ := (None, ma);
  cmp_skip_object ma := (false, ma);
}.

#[local] Instance demo_conf_data : ConfData := {
  conf_bytes _ := [];
  conf_of_bytes _ := mk_conf_data (mk_start 0 0 0 None false) "" false;
}.

(** ** The memory map *)

Definition demo_slot (base : Z) : slot_symbols := mk_slot base 8128 (base + 256) (base + 8128) base.

Definition demo_lay : boot_layout := mk_boot_layout (demo_slot 8192) (demo_slot 16384) 0 8192 128.
Definition demo_chipid : list Z := replicate 8 7.
Definition demo_sy : fw_symbols := mk_fw_symbols 8192 16384 16320 24512 8192 fwpb_SLOT_A.
Definition demo_ml : meta_layout := mk_meta_layout 1024 64 9216 64 17408 64.

#[local] Instance demo_boot : SecureBoot ram_flash := app_cert_boot.
#[local] Instance demo_boot_laws : SecureBootLaws ram_flash := app_cert_boot_local.
#[local] Instance demo_verifier : FwVerify ram_flash :=
  Efr32.efr32_verifier demo_chipid demo_lay 8448 8128 (λ _ _, false).
#[local] Instance demo_trust : FwTrust ram_flash := efr32_trust demo_lay 8448.

Lemma demo_area : bl_area_wf demo_lay.
Proof. by split. Qed.

#[local] Instance demo_verifier_laws : FwVerifyLaws ram_flash demo_chipid demo_lay.
Proof. apply efr32_verifier_laws; [done|apply demo_area]. Qed.

(** ** Images *)

Definition demo_props (version cert : Z) : list Z :=
  replicate 16 0x4D ++ le_encode 4 1 ++ le_encode 4 version ++ replicate 16 0 ++ le_encode 4 cert.
Definition demo_sig : list Z := replicate 64 5.
Definition demo_cert : list Z := le_encode 4 1 ++ replicate 8 5 ++ demo_sig.
Definition demo_meta (major : Z) : list Z :=
  let body := [3; 1; major; 2; 0; 3; 0] in le_encode 4 (crc32b body) ++ le_encode 2 (zlen body) ++ body.

Definition segment (a : Z) (bs : list Z) : list (Z * Z) := imap (λ i b, (a + Z.of_nat i, b)) bs.

(** The bootloader, and version 1.0.0 in slot A; slot B is erased. *)
Definition demo_flash : ram_flash := mk_rf
  (segment 64 (demo_props 1 128) ++ segment 128 demo_cert
   ++ segment 8448 (demo_props 1 8704) ++ segment 8704 demo_cert
   ++ segment 9216 (demo_meta 1) ++ segment 16320 demo_sig).

(** A byte that was never programmed. *)
Lemma rf_absent cells a : Forall (λ e, e.1 ≠ a) cells → rf_find cells a = 0xFF.
Proof.
  induction 1 as [|[b x] cells Hb _ IH]; cbn [rf_find]; [done|]. cbn [fst] in Hb.
  by rewrite (proj2 (Z.eqb_neq a b)) by congruence.
Qed.

Lemma demo_slot_b_erased : Forall (λ e, e.1 < 16384) (rf_cells demo_flash).
Proof. apply (bool_decide_unpack _). vm_compute. exact I. Qed.

Example demo_boots_a : loader_main demo_chipid demo_lay demo_flash = Done (jump_to_app demo_flash 8192).
Proof. vm_compute. reflexivity. Qed.

(** ** The update, on the first device *)

Abbreviation demo_fwup := (fwup_t ram_flash ram_fs unit).

Definition demo_delta : delta_state_t := mk_delta 0 0 0 0 0 0 false false (replicate 4 0) 0 0.

Definition demo_engine (conf : secure_bool_t) : demo_fwup :=
  mk_fwup (mk_priv 16384 8192 24512 8192 false conf false (mk_semver 0 0 0) (replicate 64 0) false)
    false false false (mk_dw demo_delta demo_flash ram_boot tt).

Lemma demo_slots_wf p : target_slot_addr p = 16384 → current_slot_addr p = 8192 →
  target_slot_signature p = 24512 → app_slot_size p = 8192 → zlen (pending_signature p) = 64 →
  slots_wf demo_sy p.
Proof. intros Ht Hc Hs Hz Hp. by split; rewrite ?Ht, ?Hc, ?Hs, ?Hz, ?Hp. Qed.

Lemma demo_engine_wf conf : fwup_wf demo_sy (demo_engine conf).
Proof. split; [by apply demo_slots_wf|by apply delta_ok_idle]. Qed.

(** The facts about the memory map that the theorems ask for. *)
Lemma demo_map_wf (s : demo_fwup) : target_slot_addr (fwup_priv s) = 16384 →
  app_slot_size (fwup_priv s) = 8192 → map_wf demo_chipid demo_lay SLOT_A s.
Proof. intros Ht Hz. split; rewrite ?Ht, ?Hz; [done|by split|by left|by left]. Qed.

Lemma demo_target_is (s : demo_fwup) : target_slot_addr (fwup_priv s) = 16384 →
  app_slot_size (fwup_priv s) = 8192 → target_slot_signature (fwup_priv s) = 24512 →
  target_is demo_lay SLOT_B s 256.
Proof. intros Ht Hz Hs. by split; rewrite ?Ht, ?Hz, ?Hs. Qed.

(** The four chunks: properties, certificate, metadata and signature. *)
Definition demo_chunk (off : Z) (bs : list Z) : transfer_cmd := mk_transfer 0 bs off 0 MCU_ROLE_CORE.
Definition demo_chunks : list transfer_cmd :=
  [demo_chunk 256 (demo_props 2 16896); demo_chunk 512 demo_cert; demo_chunk 1024 (demo_meta 2);
   demo_chunk 8128 demo_sig].

Definition demo_v2 : fwpb_semver := mk_semver 2 0 0.
Definition demo_start (role : Z) : start_cmd := mk_start 0 0 role (Some demo_v2) true.
Definition demo_finish (role : Z) : finish_cmd := mk_finish 256 8128 false 0 role.

Definition result_of {A B} (o : outcome (A * B)) (d : B) : B :=
  match o with Done (_, b) => b | _ => d end.

Definition demo_received : demo_fwup :=
  let s1 := (fwup_start demo_sy 0 (demo_engine SECURE_FALSE) (demo_start MCU_ROLE_CORE)).2 in
  result_of (transfer_all s1 demo_chunks) s1.

Lemma demo_received_wf : fwup_wf demo_sy demo_received.
Proof. split; [apply demo_slots_wf|apply delta_ok_idle]; vm_compute; reflexivity || lia || discriminate. Qed.

Lemma demo_finishes :
  fwup_finish demo_sy demo_ml [] demo_received (demo_finish MCU_ROLE_CORE)
  = Done (true, FINISH_SUCCESS, demo_received).
Proof. vm_compute. reflexivity. Qed.

Lemma demo_bootloader : bootloader_props (flash demo_received) = Done (Some 64).
Proof. vm_compute. reflexivity. Qed.

Lemma fwup_finish_sound_witness :
  confirmation_check_required demo_received = true
  ∧ has_confirmation_version (fwup_priv demo_received) = true.
Proof.
  split; [reflexivity|].
  destruct (fwup_finish_sound demo_sy demo_ml [] demo_chipid demo_lay demo_received
    (demo_finish MCU_ROLE_CORE) _ _ eq_refl demo_finishes) as (_ & _ & _ & _ & _ & Hc).
  by apply Hc.
Defined.

Definition demo_committed : demo_fwup := (fwup_commit_signature demo_received).2.

(** The host's update boots version 2.0.0 in slot B. *)
Lemma fwup_commit_boots_witness :
  loader_main demo_chipid demo_lay (flash demo_committed) =
    Done (jump_to_app (flash demo_committed) 16384)
  ∧ slot_version demo_lay (flash demo_committed) SLOT_A < slot_version demo_lay (flash demo_committed) SLOT_B.
Proof.
  apply (fwup_commit_boots demo_sy demo_ml [] demo_chipid demo_lay SLOT_A demo_received
           (demo_finish MCU_ROLE_CORE) _ demo_received demo_committed eq_refl demo_finishes demo_received_wf).
  - apply demo_map_wf; vm_compute; reflexivity.
  - apply demo_target_is; vm_compute; reflexivity.
  - intros cur [= <-]. reflexivity.
  - intros bl Hbl. rewrite demo_bootloader in Hbl. injection Hbl as <-. vm_compute. reflexivity.
  - vm_compute. repeat constructor; discriminate.
  - vm_compute. reflexivity.
  - vm_compute. discriminate.
  - vm_compute. reflexivity.
Defined.

Abbreviation demo_world P := (world ram_flash ram_fs unit count_timer P).

Definition demo_auth : auth_ctx_t count_timer := auth_init (auth_boot (sleep_init sleep_boot)) 1000 true.
Definition demo_w1 : demo_world unit := mk_world (demo_engine SECURE_FALSE) demo_auth tt [].
Definition demo_env : env := mk_env true true true SECURE_TRUE 0 None None 1.

(** A host that starts an update, sends a chunk of it, turns to a coprocessor
    and finishes too early. *)
Definition demo_messages : list (env * fwup_msg) :=
  [(demo_env, FWUP_START_CMD 1 (demo_start MCU_ROLE_CORE));
   (demo_env, FWUP_TRANSFER_CMD 2 (demo_chunk 256 (demo_props 2 16896)));
   (demo_env, FWUP_START_CMD 3 (demo_start MCU_ROLE_UXC));
   (demo_env, FWUP_FINISH_CMD 4 (demo_finish MCU_ROLE_CORE))].

Lemma demo_w1_messages : Forall (λ em, host_msg em.2) demo_messages.
Proof. by repeat constructor. Qed.

Lemma fwup_device_boots_witness :
  ∃ ms1 ms2 r w' t, demo_messages = ms1 ++ ms2
    ∧ fwup_thread_run (Port := W1.w1_port demo_sy 0) demo_sy demo_ml [] ms1 demo_w1 = Done (r, w')
    ∧ (r = None ∨ ms2 = [] ∨ ∃ e m ms3, ms2 = (e, m) :: ms3 ∧ to_coprocessor m = true
         ∧ fwup_thread_step (Port := W1.w1_port demo_sy 0) demo_sy demo_ml [] e m w' = Abort)
    ∧ loader_main demo_chipid demo_lay (flash (fw w')) =
        Done (jump_to_app (flash (fw w')) (sym_boot_addr (slot_of demo_lay t)))
    ∧ verify_slot demo_chipid demo_lay (flash (fw w')) t = Done true
    ∧ slot_version demo_lay (flash (fw demo_w1)) SLOT_A ≤ slot_version demo_lay (flash (fw w')) t.
Proof.
  apply (fwup_device_boots demo_sy demo_ml 0 [] demo_chipid demo_lay).
  - intros t d. by eexists.
  - apply demo_engine_wf.
  - reflexivity.
  - by split; eexists.
  - by apply demo_map_wf.
  - vm_compute. discriminate.
  - vm_compute. reflexivity.
  - apply demo_w1_messages.
Defined.

(** ** A full image in chunks *)

Section Ram.
Context {L D : Type} `{Littlefs L}.
Variable sy : fw_symbols.
Implicit Types (s : fwup_t ram_flash L D).

Lemma ram_part_ok s o e b data r s' :
  write_firmware_part s o e b data = Done (r, s') → r = true.
Proof.
  unfold write_firmware_part. destruct (0 <? _); [|by intros [= <- _]].
  intros (bs & _ & E)%obind_inv. by injection E as <- _.
Qed.

(** The flash in memory accepts every chunk that fits the slot. *)
Lemma ram_transfer_ok s cmd : fwup_wf sy s → tx_ok cmd → is_delta_update (tx_mode cmd) = false →
  chunk_at cmd + zlen (tx_data cmd) ≤ app_slot_size (fwup_priv s) →
  ∃ st s', fwup_transfer s cmd = Done (true, st, s') ∧ fwup_wf sy s'
    ∧ app_slot_size (fwup_priv s') = app_slot_size (fwup_priv s).
Proof.
  intros Hwf Hok Hm Hfit. pose proof max_chunk_size_range as Hmax. pose proof Hok as [Hs Ho Hl].
  pose proof (sw_size_min _ _ (fw_slots _ _ Hwf)) as Hmin. pose proof (sw_end _ _ (fw_slots _ _ Hwf)) as Hend.
  pose proof (sw_pos _ _ (fw_slots _ _ Hwf)) as Hpos. pose proof (zlen_nonneg (tx_data cmd)) as Hn.
  unfold fwup_transfer. rewrite Hm. unfold fwup_handle_write. unfold chunk_at in Hfit.
  set (m := fwup_flash_get_max_chunk_size) in *. set (o := tx_sequence_id cmd * m + tx_offset cmd) in *.
  unfold UINT32_MAX in *. assert (0 ≤ o) by (unfold o; nia).
  rewrite (proj2 (Z.eqb_neq m 0)) by lia. cbn [negb ASSERT obind].
  rewrite (proj2 (Z.ltb_ge _ _)); cycle 1.
  { apply Z.div_le_lower_bound; [lia|]. unfold o in *. lia. }
  rewrite (u32_small o), (u32_small (o + _)) by lia. rewrite !(proj2 (Z.ltb_ge _ _)) by lia.
  destruct (write_part_spec sy s o (tx_data cmd) Hwf) as (ok & s1 & E1 & Hwf1 & Hp & _); [lia|lia|].
  rewrite E1. cbn [obind]. rewrite (ram_part_ok _ _ _ _ _ _ _ E1). cbn [negb].
  destruct (store_part_spec sy s1 o (tx_data cmd) Hwf1) as (s2 & E2 & Hwf2 & _ & [(_ & Hz & _) _] & _);
    [lia|rewrite Hp; lia|].
  rewrite Hp in E2. rewrite E2. cbn [obind negb]. eexists _, _. split_and!; [done|done|by rewrite Hz, Hp].
Qed.

Lemma ram_transfer_all cmds : ∀ s, fwup_wf sy s →
  Forall (λ c, tx_ok c ∧ is_delta_update (tx_mode c) = false
               ∧ chunk_at c + zlen (tx_data c) ≤ app_slot_size (fwup_priv s)) cmds →
  ∃ s', transfer_all s cmds = Done (true, s').
Proof.
  induction cmds as [|c cmds IH]; intros s Hwf Hall; cbn [transfer_all]; [eauto|].
  apply Forall_cons in Hall as [(Hok & Hm & Hfit) Hall].
  destruct (ram_transfer_ok s c Hwf Hok Hm Hfit) as (st & s1 & -> & Hwf1 & Hz). cbn [obind negb].
  apply IH; [done|]. by rewrite Hz.
Qed.
End Ram.

(** An image of 8192 bytes, sent in 19 chunks from the last to the first. *)
Definition demo_image : list Z := map (λ i, Z.of_nat i mod 251) (seq 0 (Z.to_nat 8192)).
Definition demo_piece (k : nat) : transfer_cmd :=
  mk_transfer (Z.of_nat k) (take 452 (drop (k * 452) demo_image)) 0 0 MCU_ROLE_CORE.
Definition demo_pieces : list transfer_cmd := map demo_piece (rev (seq 0 19)).

Lemma demo_image_length : length demo_image = Z.to_nat 8192.
Proof. unfold demo_image. by rewrite length_map, length_seq. Qed.

Lemma demo_image_bytes : bytes_ok demo_image.
Proof.
  apply List.Forall_map, List.Forall_forall. intros i _. split; [apply Z.mod_pos_bound; lia|].
  pose proof (Z.mod_pos_bound (Z.of_nat i) 251). lia.
Qed.

Lemma demo_piece_at k : chunk_at (demo_piece k) = Z.of_nat (k * 452).
Proof. unfold chunk_at. change fwup_flash_get_max_chunk_size with 452. cbn [tx_sequence_id tx_offset demo_piece]. lia. Qed.

Lemma demo_piece_length k : (k < 19)%nat →
  zlen (tx_data (demo_piece k)) = Z.of_nat (452 `min` (Z.to_nat 8192 - k * 452)).
Proof.
  intros Hk. unfold zlen. cbn [tx_data demo_piece]. by rewrite length_take, length_drop, demo_image_length.
Qed.

Lemma demo_piece_ok k : (k < 19)%nat → tx_ok (demo_piece k).
Proof.
  intros Hk. split; [cbn; lia|done|]. rewrite demo_piece_length by done. unfold FWUP_DATA_MAX. lia.
Qed.

Lemma demo_pieces_all (P : transfer_cmd → Prop) :
  (∀ k, (k < 19)%nat → P (demo_piece k)) → Forall P demo_pieces.
Proof.
  intros HP. apply List.Forall_map, List.Forall_forall. intros k Hk%in_rev%in_seq. apply HP. lia.
Qed.

Lemma demo_piece_of k : (k < 19)%nat → chunk_of demo_image (demo_piece k).
Proof.
  intros Hk. split; [by apply demo_piece_ok|done|]. intros i b. rewrite demo_piece_at.
  cbn [tx_data demo_piece]. rewrite lookup_take. case_decide; [|done]. rewrite lookup_drop.
  intros <-. f_equal. lia.
Qed.

Lemma demo_pieces_cover i : (i < length demo_image)%nat → Exists (λ c, covers c i) demo_pieces.
Proof.
  rewrite demo_image_length. intros Hi. assert (Hd := Nat.div_mod i 452 ltac:(lia)).
  assert (Hm := Nat.mod_upper_bound i 452 ltac:(lia)). set (k := (i / 452)%nat) in *.
  assert (Hk : (k < 19)%nat) by (apply Nat.Div0.div_lt_upper_bound; lia).
  apply List.Exists_exists. exists (demo_piece k). split.
  - apply in_map, in_rev. rewrite rev_involutive. apply in_seq. lia.
  - unfold covers. rewrite demo_piece_at, demo_piece_length by done. lia.
Qed.

Definition demo_erased : demo_fwup :=
  (fwup_start demo_sy 0 (demo_engine SECURE_FALSE) (demo_start MCU_ROLE_CORE)).2.

Lemma demo_erased_wf : fwup_wf demo_sy demo_erased.
Proof. split; [by apply demo_slots_wf|by apply delta_ok_idle]. Qed.

Lemma fwup_transfer_roundtrip_witness : ∃ s2,
  transfer_all demo_erased demo_pieces = Done (true, s2)
  ∧ mem_bytes (flash s2) 16384 8128 = ztake 8128 demo_image
  ∧ fwup_get_pending_signature s2 = Some (zdrop 8128 demo_image)
  ∧ mem_bytes (flash s2) (16384 + 8128) FWUP_SIGNATURE_SIZE = replicate (Z.to_nat FWUP_SIGNATURE_SIZE) 0xFF.
Proof.
  destruct (ram_transfer_all demo_sy demo_pieces demo_erased demo_erased_wf) as [s2 E].
  { apply demo_pieces_all. intros k Hk. split_and!; [by apply demo_piece_ok|done|].
    rewrite demo_piece_at, demo_piece_length by done. change (app_slot_size _) with 8192. lia. }
  exists s2. split; [exact E|].
  apply (fwup_transfer_roundtrip demo_sy 0 (demo_engine SECURE_FALSE) (demo_start MCU_ROLE_CORE)
           (mk_start_rsp START_SUCCESS 452) demo_erased demo_image demo_pieces s2).
  - apply demo_engine_wf.
  - reflexivity.
  - reflexivity.
  - unfold zlen. by rewrite demo_image_length.
  - apply demo_image_bytes.
  - apply demo_pieces_all. apply demo_piece_of.
  - apply demo_pieces_cover.
  - exact E.
Defined.

(** ** Delta updates *)

Definition demo_dworld (fs : fs_ctx ram_fs) : dworld ram_flash ram_fs unit :=
  mk_dw (mk_delta 0 8192 64 0 16384 0 true false (replicate 4 0) 0 0) demo_flash fs tt.

Lemma demo_dwf fs : dwf (ds (demo_dworld fs)).
Proof. by split. Qed.

(** A library that reads beyond the slot, seeks back and writes three bytes. *)
Definition demo_io : dtio Z :=
  dt_read 100 (λ _ _, dt_seek (-4) (λ r, dt_write [1; 2; 3] (λ _, dt_ret r))).

Lemma delta_io_bounds_witness :
  (∃ r w', run_dt demo_io (demo_dworld ram_boot) = Done (r, w') ∧ dwf (ds w') ∧ dfs w' = ram_boot
    ∧ ∀ a, a < 16384 ∨ 16384 + 64 ≤ a → flash_byte (dflash w') a = flash_byte demo_flash a)
  ∧ ∃ o, 0 ≤ o ∧ o + 16 ≤ 64
      ∧ (from_read (demo_dworld ram_boot) 16).1.2 = mem_bytes demo_flash (8192 + o) 16.
Proof.
  destruct (delta_io_bounds demo_io (demo_dworld ram_boot) 16 0
    (mem_bytes demo_flash 8192 16) _ (demo_dwf _) eq_refl) as [Hio Hr].
  split; [exact Hio|exact (Hr eq_refl)].
Defined.

Lemma delta_writer_refines_append_witness : ∃ w1 w2,
  write_all (demo_dworld ram_boot) [[1; 2; 3]; [4; 5; 6; 7; 8; 9]; [10]] = Done (0, w1)
  ∧ flush_write_buffer w1 = Done (true, w2)
  ∧ mem_bytes (dflash w2) 16384 64 = [1; 2; 3; 4; 5; 6; 7; 8; 9; 10] ++ replicate 54 0xFF.
Proof.
  eexists _, _. split; [vm_compute; reflexivity|]. split; [vm_compute; reflexivity|].
  refine (proj2 (delta_writer_refines_append (demo_dworld ram_boot) [[1; 2; 3]; [4; 5; 6; 7; 8; 9]; [10]] _ _
    (demo_dwf _) eq_refl eq_refl _ _ _ _)).
  - intros a Ha. apply rf_absent. eapply Forall_impl; [exact demo_slot_b_erased|].
    intros e He. cbn in Ha, He |- *. lia.
  - repeat constructor; discriminate.
  - vm_compute. reflexivity.
  - vm_compute. reflexivity.
Defined.

(** A patch with a signature of zeros. *)
Definition demo_patch : list Z := replicate 16 9 ++ replicate 64 0.
Definition demo_patch_fs : fs_ctx ram_fs :=
  mk_fs (Some (mk_ram [(PATCH_PATH, demo_patch)] None None None)) true.

Lemma delta_unsigned_rejected_witness :
  ∃ w', apply_patch_from_file 8192 [] (demo_dworld demo_patch_fs) = Done (false, w')
    ∧ dflash w' = demo_flash.
Proof.
  apply (delta_unsigned_rejected 8192 [] (demo_dworld demo_patch_fs) demo_patch).
  - reflexivity.
  - vm_compute. discriminate.
Defined.

(** ** The update of both processors *)

Abbreviation demo_step :=
  (fwup_thread_step (Port := w3_port demo_sy demo_ml 0) demo_sy demo_ml []).

Definition demo_w3_boot : demo_world w3_t :=
  mk_world (demo_engine SECURE_FALSE) demo_auth (w3_boot (confirmation_manager_init confirmation_boot)) [].

(** The coprocessor is updated first, then the core; the last message makes the
    core ask the coprocessor to commit. *)
Definition demo_w3_messages : list fwup_msg :=
  [FWUP_START_CMD 1 (demo_start MCU_ROLE_UXC);
   FWUP_START_COPROC_RSP 1 (mk_start_rsp START_SUCCESS 452);
   FWUP_FINISH_CMD 2 (demo_finish MCU_ROLE_UXC);
   FWUP_FINISH_COPROC_RSP 2 FINISH_SUCCESS;
   FWUP_START_CMD 3 (demo_start MCU_ROLE_CORE)]
  ++ map (FWUP_TRANSFER_CMD 4) demo_chunks
  ++ [FWUP_FINISH_CMD 8 (demo_finish MCU_ROLE_CORE)].

(** The world after the messages, as long as each is one that may come and
    does not reset the device. *)
Definition may_come (w : demo_world w3_t) (m : fwup_msg) : bool :=
  match m with
  | FWUP_FINISH_COPROC_RSP _ _ =>
      bool_decide (pd_kind (pending_uxc_fwup (port w)) = FWUP_UXC_PENDING_FINISH)
  | FWUP_TRANSFER_CMD _ cmd =>
      (0 <=? tx_sequence_id cmd) && (0 <=? tx_offset cmd) && (tx_offset cmd <=? UINT32_MAX)
      && (zlen (tx_data cmd) <=? FWUP_DATA_MAX)
  | _ => true
  end.

Fixpoint demo_run (w : demo_world w3_t) (ms : list fwup_msg) : option (demo_world w3_t) :=
  match ms with
  | [] => Some w
  | m :: ms =>
      if negb (may_come w m) then None
      else match demo_step demo_env m w with
           | Done (Some tt, w) => demo_run w ms
           | _ => None
           end
  end.

Lemma may_come_answers w m : may_come w m = true → answers w m.
Proof.
  destruct m; cbn [may_come answers]; try done.
  - rewrite !andb_true_iff, !Z.leb_le. intros [[[? ?] ?] ?]. by split.
  - intros Hk%bool_decide_eq_true. by left.
Qed.

Lemma demo_run_reach w0 ms : ∀ w w',
  w3_reach demo_sy demo_ml 0 [] w0 w → demo_run w ms = Some w' → w3_reach demo_sy demo_ml 0 [] w0 w'.
Proof.
  induction ms as [|m ms IH]; intros w w' Hr; cbn [demo_run]; [by intros [= <-]|].
  destruct (may_come w m) eqn:Em; [|done]. cbn [negb].
  destruct (demo_step demo_env m w) as [[[[]|] w1]| | |] eqn:E; try done.
  apply IH. by eapply reach_step; [|apply may_come_answers|].
Qed.

Definition demo_awaiting : demo_world w3_t := default demo_w3_boot (demo_run demo_w3_boot demo_w3_messages).

Lemma demo_w3_booted : booted demo_sy demo_w3_boot.
Proof. split; [apply demo_engine_wf|done|done|by eexists]. Qed.

Lemma demo_awaiting_reached : w3_reach demo_sy demo_ml 0 [] demo_w3_boot demo_awaiting.
Proof. eapply (demo_run_reach _ demo_w3_messages); [apply reach_boot|]. vm_compute. reflexivity. Qed.

Lemma w3_commit_guarded_witness :
  awaiting_atomic_commit_rsp (port demo_awaiting) = true
  ∧ fwup_should_reject_cmd (fw demo_awaiting) = true
  ∧ image_verified demo_chipid demo_lay (fw demo_awaiting)
  ∧ 0 < coproc_commit_seq (port demo_awaiting).
Proof.
  assert (Ha : awaiting_atomic_commit_rsp (port demo_awaiting) = true) by (vm_compute; reflexivity).
  destruct (w3_commit_guarded demo_sy demo_ml 0 [] demo_chipid demo_lay demo_w3_boot demo_awaiting
    demo_w3_booted demo_awaiting_reached Ha) as (Hrej & Hver & _ & Hpos & _).
  split_and!; [exact Ha|exact Hrej|exact Hver|exact Hpos].
Defined.

(** The coprocessor could not commit: the core does not sign, and resets. *)
Definition demo_refused : fwup_msg := FWUP_COMMIT_SIG_COPROC_RSP 1 false.
Definition demo_after_refusal : demo_world w3_t :=
  result_of (demo_step demo_env demo_refused demo_awaiting) demo_awaiting.

Lemma w3_core_commits_last_witness :
  acknowledged demo_awaiting 1 true
  ∧ flashed_signature (fw demo_after_refusal) = flashed_signature (fw demo_awaiting).
Proof.
  split; [vm_compute; split_and!; reflexivity || discriminate|].
  destruct (w3_core_commits_last demo_sy demo_ml 0 [] demo_chipid demo_lay demo_w3_boot demo_awaiting demo_env
    demo_refused None demo_after_refusal demo_w3_booted (reach_any _ _ _ _ _ _ demo_awaiting_reached))
    as [Heq|[[Hs _]|(seq & cmd & s & ok & st & s' & Hm & _)]]; [| | | |exact Heq|discriminate Hs|discriminate Hm].
  - exact I.
  - vm_compute. reflexivity.
  - vm_compute. reflexivity.
  - intros (_ & _ & _ & Hok). discriminate Hok.
Defined.

(** The device loses power while it waits, and starts again. *)
Definition demo_restart : demo_world w3_t :=
  let s := demo_engine SECURE_FALSE in
  mk_world (put_dw s (mk_dw demo_delta (flash (fw demo_awaiting)) (dfs (dw (fw demo_awaiting))) tt))
    demo_auth (w3_boot (confirmation_manager_init confirmation_boot)) [].

Lemma demo_restart_booted : booted demo_sy demo_restart.
Proof.
  split; [|reflexivity|reflexivity|by eexists]. split; [by apply demo_slots_wf|by apply delta_ok_idle].
Qed.

Definition demo_staged : fwup_staged_sig_t := mk_staged demo_sig fwpb_SLOT_B demo_v2 demo_v2.

Lemma demo_is_staged : sig_staged demo_sy (fw demo_awaiting) demo_v2.
Proof.
  exists fwpb_SLOT_B, demo_v2, None. split; [reflexivity|]. vm_compute. reflexivity.
Qed.

Definition demo_read : demo_fwup :=
  result_of (fwup_staged_sig_read (fw demo_restart)) (fw demo_restart).
Definition demo_rewritten : demo_fwup := (fwup_commit_signature_to demo_read 24512 demo_sig).2.

Lemma w3_recovery_completes_witness :
  ∃ w', demo_step demo_env (FWUP_COPROC_VERSION demo_v2) demo_restart = Done (None, w')
    ∧ flashed_signature (fw w') = demo_sig.
Proof.
  destruct (w3_recovery_completes demo_sy demo_ml 0 [] demo_chipid demo_lay demo_w3_boot demo_awaiting demo_v2
    demo_restart demo_env demo_staged demo_read demo_rewritten) as (w' & E & _ & Hs).
  - apply demo_w3_booted.
  - apply demo_awaiting_reached.
  - vm_compute. reflexivity.
  - apply demo_is_staged.
  - vm_compute. split_and!; discriminate.
  - apply demo_restart_booted.
  - vm_compute. split_and!; reflexivity.
  - vm_compute. discriminate.
  - vm_compute. reflexivity.
  - vm_compute. reflexivity.
  - exists w'. split; [exact E|]. rewrite Hs; [vm_compute; reflexivity| |vm_compute; reflexivity].
    vm_compute. repeat constructor; discriminate.
Defined.

(** ** Observations *)

(** The coprocessor runs the commands of the core one after the other. *)
Fixpoint demo_uxc_run (w : uxc_world ram_flash ram_fs unit) (ms : list uxc_msg_host)
    : option (uxc_world ram_flash ram_fs unit) :=
  match ms with
  | [] => Some w
  | m :: ms =>
      match uxc_thread_step demo_sy demo_ml 0 [] demo_env 1 m w with
      | Done (Some tt, w) => demo_uxc_run w ms
      | _ => None
      end
  end.

Definition demo_uxc : uxc_world ram_flash ram_fs unit := mk_uxc_world (demo_engine SECURE_FALSE) false [].

(** [fwup_commit_signature] asks for a successful [fwup_finish] before it; the
    coprocessor's handler of the commit does not look for one. It writes the
    signature of an image that it has never verified, and acknowledges. *)
Example uxc_commits_unverified :
  (λ w, (last (ulog w), mem_bytes (flash (ufw w)) 24512 64, verify_slot demo_chipid demo_lay (flash (ufw w)) SLOT_B))
    <$> demo_uxc_run demo_uxc
          [host_start (demo_start MCU_ROLE_UXC); host_transfer (demo_chunk 8128 demo_sig); host_commit_sig]
  = Some (Some (ToCore 1 (device_commit_sig true)), demo_sig, Done false).
Proof. vm_compute. reflexivity. Qed.

(** A host that addresses the coprocessor of the first device, which has none,
    stops the device on an assertion. *)
Example w1_coprocessor_command_asserts :
  fwup_thread_step (Port := W1.w1_port demo_sy 0) demo_sy demo_ml [] demo_env
    (FWUP_START_CMD 1 (demo_start MCU_ROLE_UXC)) demo_w1 = Abort.
Proof. reflexivity. Qed.
