(* ===== verification/Bip32.v ===== *)
(** * Hierarchical keys (lib/bip32)

    bip32.c: child key derivation, fingerprints and serialization. The curve,
    the HMAC and the key hash are calls of lib/crypto into libsecp256k1 and the
    secure element: the class [Secp] has them and [SecpLaws] what they promise.
    Pointers that every caller sets are not modelled as nullable. *)

From S2P Require Import Prelude Sha256.

Definition BIP32_MAX_DERIVATION_DEPTH : Z := 256.
Definition BIP32_KEY_SIZE : Z := 32.
Definition BIP32_SEC1_KEY_SIZE : Z := 33.
Definition BIP32_CHAINCODE_SIZE : Z := 32.
Definition BIP32_SERIALIZED_EXT_KEY_SIZE : Z := 78.
Definition BIP32_HARDENED_BIT : Z := 0x80000000.
Definition BIP32_PRIVKEY_PREFIX : Z := 0.
Definition SEC1_COMPRESSED_PUBKEY_EVEN : Z := 2.
Definition SEC1_COMPRESSED_PUBKEY_ODD : Z := 3.
Definition BIP32_KEY_FINGERPRINT_SIZE : Z := 4.

(** [extended_key_t]. *)
Record extended_key_t := mk_key {
  prefix : Z;
  key : list Z;
  chaincode : list Z;
}.
#[global] Instance extended_key_eq_dec : EqDecision extended_key_t.
Proof. solve_decision. Defined.

Definition zero_key : extended_key_t := mk_key 0 (replicate 32 0) (replicate 32 0).

(** The packed struct as bytes, and its first 33 bytes as a SEC1 key. *)
Definition sec1 (k : extended_key_t) : list Z := prefix k :: key k.
Definition key_bytes (k : extended_key_t) : list Z := sec1 k ++ chaincode k.
Definition key_of_bytes (l : list Z) : extended_key_t :=
  mk_key (default 0 (head l)) (ztake BIP32_KEY_SIZE (zdrop 1 l)) (zdrop BIP32_SEC1_KEY_SIZE l).

Definition key_ok (k : extended_key_t) : Prop :=
  zlen (key k) = BIP32_KEY_SIZE ∧ zlen (chaincode k) = BIP32_CHAINCODE_SIZE.

(** [None] is a call that returned false. A call that updates a key in place
    returns what it leaves in the buffer beside its result. *)
Class Secp := {
  crypto_hmac_sha512 : list Z → list Z → option (list Z);
  crypto_hash160 : list Z → option (list Z);
  secp256k1_priv_to_sec_encoded_pub : list Z → option (list Z);
  secp256k1_priv_tweak_add : list Z → list Z → bool * list Z;
  secp256k1_pub_tweak_add : list Z → list Z → bool * list Z;
  secp256k1_priv_verify : list Z → bool;
}.

(** A tweaked private key is the key of the tweaked public key. *)
Class SecpLaws `{Secp} : Prop := {
  law_hmac k m d : crypto_hmac_sha512 k m = Some d → zlen d = 64;
  law_hash160 m d : crypto_hash160 m = Some d → zlen d = 20;
  law_pub k p : secp256k1_priv_to_sec_encoded_pub k = Some p →
    zlen p = BIP32_SEC1_KEY_SIZE
    ∧ (head p = Some SEC1_COMPRESSED_PUBKEY_EVEN ∨ head p = Some SEC1_COMPRESSED_PUBKEY_ODD);
  law_priv_tweak k t b k' : secp256k1_priv_tweak_add k t = (b, k') → zlen k' = zlen k;
  law_pub_tweak p t b p' : secp256k1_pub_tweak_add p t = (b, p') → zlen p' = zlen p;
  law_tweak k t k' p : secp256k1_priv_tweak_add k t = (true, k') →
    secp256k1_priv_to_sec_encoded_pub k = Some p →
    ∃ p', secp256k1_pub_tweak_add p t = (true, p')
      ∧ secp256k1_priv_to_sec_encoded_pub k' = Some p';
}.

(** [htonl] stored in memory: big-endian. *)
Definition be32 (x : Z) : list Z := rev (le_encode 4 x).

Definition is_hardened (index : Z) : bool := negb (Z.land index BIP32_HARDENED_BIT =? 0).

Section Bip32.
Context `{Secp}.

Definition all_zeroes (buf : list Z) : bool := foldl Z.lor 0 buf =? 0.

Definition compute_identifier (sec_encoded_pubkey : list Z) : option (list Z) :=
  crypto_hash160 sec_encoded_pubkey.

(** The two halves of a digest: the tweak and the new chain code. *)
Definition ckd_priv (k : extended_key_t) (data : list Z) : bool * extended_key_t :=
  match crypto_hmac_sha512 (chaincode k) data with
  | None => (false, k)
  | Some digest =>
      match secp256k1_priv_tweak_add (key k) (ztake BIP32_KEY_SIZE digest) with
      | (false, key') => (false, mk_key (prefix k) key' (chaincode k))
      | (true, key') => (true, mk_key (prefix k) key' (zdrop BIP32_KEY_SIZE digest))
      end
  end.

Definition ckd_priv_unhardened (k : extended_key_t) (index : Z) : bool * extended_key_t :=
  match secp256k1_priv_to_sec_encoded_pub (key k) with
  | None => (false, k)
  | Some pub => ckd_priv k (pub ++ be32 index)
  end.

Definition ckd_priv_hardened (k : extended_key_t) (index : Z) : outcome (bool * extended_key_t) :=
  let! _ := ASSERT (is_hardened index) in
  let! _ := ASSERT (prefix k =? BIP32_PRIVKEY_PREFIX) in
  Done (ckd_priv k (sec1 k ++ be32 index)).

Definition is_sec1_prefix (x : Z) : bool :=
  (x =? SEC1_COMPRESSED_PUBKEY_EVEN) || (x =? SEC1_COMPRESSED_PUBKEY_ODD).

Definition ckd_pub (k : extended_key_t) (index : Z) : outcome (bool * extended_key_t) :=
  let! _ := ASSERT (is_sec1_prefix (prefix k)) in
  match crypto_hmac_sha512 (chaincode k) (sec1 k ++ be32 index) with
  | None => Done (false, k)
  | Some digest =>
      let '(ok, pub) := secp256k1_pub_tweak_add (sec1 k) (ztake BIP32_KEY_SIZE digest) in
      Done (ok, mk_key (default 0 (head pub)) (tail pub)
                  (if ok then zdrop BIP32_KEY_SIZE digest else chaincode k))
  end.

Definition bitcoin_seed : list Z := [66; 105; 116; 99; 111; 105; 110; 32; 115; 101; 101; 100].

(** [out] is what the buffer of the caller holds. *)
Definition bip32_derive_master_key (seed : list Z) (out : extended_key_t)
    : outcome (bool * extended_key_t) :=
  let! _ := ASSERT ((16 <=? zlen seed) && (zlen seed <=? 64)) in
  match crypto_hmac_sha512 bitcoin_seed seed with
  | None => Done (false, out)
  | Some digest =>
      let k := ztake BIP32_KEY_SIZE digest in
      let c := zdrop BIP32_KEY_SIZE digest in
      if negb (secp256k1_priv_verify k) then Done (false, mk_key (prefix out) k c)
      else Done (true, mk_key BIP32_PRIVKEY_PREFIX k c)
  end.

Definition bip32_priv_to_pub (priv_in out : extended_key_t) : outcome (bool * extended_key_t) :=
  let! _ := ASSERT (prefix priv_in =? BIP32_PRIVKEY_PREFIX) in
  match secp256k1_priv_to_sec_encoded_pub (key priv_in) with
  | None => Done (false, out)
  | Some pub => Done (true, mk_key (default 0 (head pub)) (tail pub) (chaincode priv_in))
  end.

Definition bip32_compute_fingerprint (k : extended_key_t) : outcome (option (list Z)) :=
  let! pub :=
    if prefix k =? BIP32_PRIVKEY_PREFIX then
      let! '(ok, p) := bip32_priv_to_pub k zero_key in Done (if ok : bool then Some p else None)
    else if is_sec1_prefix (prefix k) then Done (Some k)
    else Done None in
  match pub with
  | None => Done None
  | Some pub =>
      match compute_identifier (sec1 pub) with
      | None => Done None
      | Some identifier =>
          let! fp := mread identifier 0 BIP32_KEY_FINGERPRINT_SIZE in Done (Some fp)
      end
  end.

(** The loop of [bip32_derive_path_priv]; [fp] is the buffer for the
    fingerprint of the parent of the last child, [None] when the caller does
    not want it. *)
Fixpoint derive_priv_loop (child : extended_key_t) (fp : option (list Z)) (indices : list Z)
    : outcome (bool * extended_key_t * option (list Z)) :=
  match indices with
  | [] => Done (true, child, fp)
  | index :: rest =>
      let! f := match fp with
                | None => Done (Some None)
                | Some _ => let! r := bip32_compute_fingerprint child in
                            Done (option_map Some r)
                end in
      match f with
      | None => Done (false, child, fp)
      | Some fp =>
          let! '(ok, child) := if is_hardened index then ckd_priv_hardened child index
                               else Done (ckd_priv_unhardened child index) in
          if ok : bool then derive_priv_loop child fp rest else Done (false, child, fp)
      end
  end.

Definition bip32_derive_path_priv (priv_parent : extended_key_t) (want_fingerprint : bool)
    (path : list Z) : outcome (bool * extended_key_t * option (list Z)) :=
  let! _ := ASSERT (zlen path <=? BIP32_MAX_DERIVATION_DEPTH) in
  derive_priv_loop priv_parent (if want_fingerprint then Some (replicate 4 0) else None) path.

Fixpoint derive_pub_loop (child : extended_key_t) (indices : list Z)
    : outcome (bool * extended_key_t) :=
  match indices with
  | [] => Done (true, child)
  | index :: rest =>
      if is_hardened index then Done (false, child)
      else
        let! '(ok, child) := ckd_pub child index in
        if ok : bool then derive_pub_loop child rest else Done (false, child)
  end.

Definition bip32_derive_path_pub (pub_parent : extended_key_t) (path : list Z)
    : outcome (bool * extended_key_t) :=
  let! _ := ASSERT (zlen path <=? BIP32_MAX_DERIVATION_DEPTH) in
  derive_pub_loop pub_parent path.

Definition bip32_fingerprint_for_path (priv_key : extended_key_t) (path : list Z)
    : outcome (option (list Z)) :=
  let! '(ok, child, _) := bip32_derive_path_priv priv_key true path in
  if negb ok then Done None else bip32_compute_fingerprint child.

Definition MAINNET_PUB : Z := 0x0488B21E.
Definition MAINNET_PRIV : Z := 0x0488ADE4.
Definition TESTNET_PUB : Z := 0x043587CF.
Definition TESTNET_PRIV : Z := 0x04358394.

(** The parent comes as a key, as a fingerprint, or both. *)
Definition bip32_serialize_ext_key (ext_key : extended_key_t) (parent_pub_key : option extended_key_t)
    (parent_fingerprint : option (list Z)) (version child_num depth serialized_size : Z)
    : outcome (bool * list Z) :=
  let! _ := ASSERT (serialized_size =? BIP32_SERIALIZED_EXT_KEY_SIZE) in
  let serialized := replicate (Z.to_nat serialized_size) 0 in
  let is_pub := (version =? MAINNET_PUB) || (version =? TESTNET_PUB) in
  let! _ := ASSERT (is_pub || (version =? MAINNET_PRIV) || (version =? TESTNET_PRIV)) in
  let! _ := ASSERT (if is_pub then is_sec1_prefix (prefix ext_key)
                    else prefix ext_key =? BIP32_PRIVKEY_PREFIX) in
  if all_zeroes (chaincode ext_key) || all_zeroes (key ext_key) then Done (false, serialized)
  else
    let! s := mwrite serialized 0 (be32 version) in
    let! s := aset s 4 depth in
    let! '(ok, s) :=
      if depth =? 0 then Done (true, s)
      else
        let! _ := ASSERT (match parent_pub_key, parent_fingerprint with None, None => false | _, _ => true end) in
        let! s := match parent_fingerprint with
                  | Some fp => let! f := mread fp 0 BIP32_KEY_FINGERPRINT_SIZE in mwrite s 5 f
                  | None => Done s
                  end in
        match parent_pub_key with
        | None => Done (true, s)
        | Some parent =>
            let! r := bip32_compute_fingerprint parent in
            match r with
            | None => Done (false, s)
            | Some f =>
                let! s := mwrite s 5 f in
                let! _ := match parent_fingerprint with
                          | Some fp => let! g := mread fp 0 BIP32_KEY_FINGERPRINT_SIZE in
                                       ASSERT (bool_decide (f = g))
                          | None => Done tt
                          end in
                Done (true, s)
            end
        end in
    if negb ok then Done (false, s)
    else
      let! s := mwrite s 9 (be32 child_num) in
      let! s := mwrite s 13 (chaincode ext_key) in
      let! s := aset s 45 (prefix ext_key) in
      let! s := mwrite s 46 (key ext_key) in
      Done (true, s).

(** ** Derivation *)

(** A path in two parts. *)
Lemma derive_priv_app k p1 p2 :
  derive_priv_loop k None (p1 ++ p2)
  = let! '(ok, c, _) := derive_priv_loop k None p1 in
    if ok : bool then derive_priv_loop c None p2 else Done (false, c, None).
Proof.
  revert k. induction p1 as [|i p1 IH]; intros k; [done|].
  cbn [app derive_priv_loop obind]. destruct (is_hardened i).
  - destruct (ckd_priv_hardened k i) as [[[|] c]| | |]; [apply IH|done..].
  - cbn [obind]. destruct (ckd_priv_unhardened k i) as [[|] c]; [apply IH|done].
Qed.

(** Without a fingerprint buffer there is no fingerprint. *)
Lemma derive_priv_no_fp k p ok c f :
  derive_priv_loop k None p = Done (ok, c, f) → f = None.
Proof.
  revert k. induction p as [|i p IH]; intros k; cbn [derive_priv_loop obind]; [by intros [= _ _ <-]|].
  intros ([[|] c'] & _ & E)%obind_inv; [by apply IH in E|by injection E as _ _ <-].
Qed.

Context `{!SecpLaws}.

Lemma sec1_cons p : zlen p = BIP32_SEC1_KEY_SIZE → default 0 (head p) :: tail p = p.
Proof. by destruct p. Qed.

(** Derived keys are whole keys, and no array is left. *)
Lemma ckd_priv_ok k d ok c : key_ok k → ckd_priv k d = (ok, c) → key_ok c.
Proof.
  intros [Hk Hc]. unfold ckd_priv, key_ok.
  destruct (crypto_hmac_sha512 _ _) as [dg|] eqn:Eh; [|by intros [= _ <-]].
  apply law_hmac in Eh. destruct (secp256k1_priv_tweak_add _ _) as [b k'] eqn:Et.
  apply law_priv_tweak in Et. destruct b; intros [= _ <-]; cbn [key chaincode].
  - split; [lia|]. rewrite zlen_zdrop; unfold BIP32_KEY_SIZE, BIP32_CHAINCODE_SIZE; lia.
  - split; [lia|done].
Qed.

Lemma derive_priv_ok k p : key_ok k → safe (λ '(_, c, f), key_ok c ∧ f = None) (derive_priv_loop k None p).
Proof.
  revert k. induction p as [|i p IH]; intros k Hk; cbn [derive_priv_loop obind]; [done|].
  destruct (is_hardened i) eqn:Ei.
  - unfold ckd_priv_hardened. rewrite Ei. cbn [ASSERT obind].
    destruct (prefix k =? BIP32_PRIVKEY_PREFIX); cbn [ASSERT obind]; [|done].
    destruct (ckd_priv k _) as [[|] c] eqn:Ec; [|by split; [apply (ckd_priv_ok _ _ _ _ Hk Ec)|]].
    apply IH. by apply (ckd_priv_ok _ _ _ _ Hk Ec).
  - unfold ckd_priv_unhardened. destruct (secp256k1_priv_to_sec_encoded_pub _) as [P|]; [|done].
    cbn [obind]. destruct (ckd_priv k _) as [[|] c] eqn:Ec;
      [|by split; [apply (ckd_priv_ok _ _ _ _ Hk Ec)|]].
    apply IH. by apply (ckd_priv_ok _ _ _ _ Hk Ec).
Qed.

Lemma master_ok seed o : zlen seed = 32 →
  safe (λ '(ok, m), ok = true → key_ok m ∧ prefix m = BIP32_PRIVKEY_PREFIX
    ∧ ∀ o', bip32_derive_master_key seed o' = Done (true, m)) (bip32_derive_master_key seed o).
Proof.
  intros Hs. unfold bip32_derive_master_key. rewrite Hs. cbn [Z.leb Z.compare andb ASSERT obind].
  destruct (crypto_hmac_sha512 _ _) as [d|] eqn:Eh; [|done]. apply law_hmac in Eh.
  destruct (secp256k1_priv_verify _) eqn:Ev; cbn [negb safe]; [|done]. intros _. split_and!; [|done|done].
  unfold key_ok. cbn [key chaincode]. unfold BIP32_KEY_SIZE, BIP32_CHAINCODE_SIZE.
  rewrite zlen_ztake, zlen_zdrop; lia.
Qed.

(** The public half of a private key. *)
Definition neuter (k K : extended_key_t) : Prop :=
  prefix k = BIP32_PRIVKEY_PREFIX ∧ is_sec1_prefix (prefix K) = true
  ∧ secp256k1_priv_to_sec_encoded_pub (key k) = Some (sec1 K) ∧ chaincode K = chaincode k.

Lemma priv_to_pub_neuter k o K : bip32_priv_to_pub k o = Done (true, K) ↔ neuter k K.
Proof.
  unfold bip32_priv_to_pub, neuter. split.
  - intros [Hp E]%assert_bind.
    destruct (secp256k1_priv_to_sec_encoded_pub (key k)) as [p|] eqn:Ep; [|done].
    injection E as <-. destruct (law_pub _ _ Ep) as [Hl Hh]. unfold sec1. cbn [prefix key chaincode].
    rewrite sec1_cons by done. split_and!; [lia| |done|done].
    unfold is_sec1_prefix. destruct Hh as [->| ->]; done.
  - intros (Hp & _ & Ep & Hc). rewrite Hp, Ep. simpl. destruct K; simpl in *. by subst.
Qed.

(** Derivation commutes with taking the public key, one level down. *)
Lemma ckd_neuter k K index c : neuter k K → ckd_priv_unhardened k index = (true, c) →
  ∃ C, ckd_pub K index = Done (true, C) ∧ neuter c C.
Proof.
  intros (Hp & HP & Ek & Hc). unfold ckd_priv_unhardened, ckd_priv, ckd_pub. rewrite Ek, HP, Hc.
  cbn [ASSERT obind]. destruct (crypto_hmac_sha512 _ _) as [d|]; [|done].
  destruct (secp256k1_priv_tweak_add (key k) _) as [[|] k'] eqn:Et; [|done]. intros [= <-].
  destruct (law_tweak _ _ _ _ Et Ek) as (p' & -> & Ep'). eexists. split; [done|].
  destruct (law_pub _ _ Ep') as [Hl Hh]. unfold neuter, sec1. cbn [prefix key chaincode].
  rewrite sec1_cons by done. split_and!; [done| |done|done].
  unfold is_sec1_prefix. destruct Hh as [->| ->]; done.
Qed.

Lemma derive_neuter path : ∀ k K c f, neuter k K → forallb (negb ∘ is_hardened) path = true →
  derive_priv_loop k None path = Done (true, c, f) →
  ∃ C, derive_pub_loop K path = Done (true, C) ∧ neuter c C.
Proof.
  induction path as [|i path IH]; intros k K c f HN; cbn [forallb derive_priv_loop derive_pub_loop].
  - intros _ [= <- _]. eauto.
  - intros [Hi Hpath]%andb_true_iff. simpl in Hi. destruct (is_hardened i); [done|]. cbn [obind].
    destruct (ckd_priv_unhardened k i) as [[|] k'] eqn:Ek; [|done]. intros E.
    destruct (ckd_neuter _ _ _ _ HN Ek) as (C & -> & HN'). cbn [obind]. eauto.
Qed.

(** C23: The public keys that the device derives from an account key, to build
    scripts and addresses, are those of the private keys it signs with: along a
    path without hardened levels, deriving the private child and then taking
    its public key gives what deriving from the public parent gives, and the
    public derivation succeeds. *)
Theorem bip32_pub_matches_priv k o K path c f :
  bip32_priv_to_pub k o = Done (true, K) →
  forallb (negb ∘ is_hardened) path = true →
  bip32_derive_path_priv k false path = Done (true, c, f) →
  ∃ C, bip32_derive_path_pub K path = Done (true, C) ∧ bip32_priv_to_pub c o = Done (true, C).
Proof.
  intros HK%priv_to_pub_neuter Hpath. unfold bip32_derive_path_priv, bip32_derive_path_pub.
  intros [-> E]%assert_bind. cbn [ASSERT obind].
  destruct (derive_neuter _ _ _ _ _ HK Hpath E) as (C & -> & HC).
  exists C. split; [done|]. by apply priv_to_pub_neuter.
Qed.
End Bip32.

(** ** A toy curve *)

(** The public key is the private key with a prefix, a tweak is added byte by
    byte, and a hash is a sum. *)

Definition toy_add (k t : list Z) : bool * list Z :=
  if zlen t =? zlen k then (true, zip_with (λ a b, (a + b) mod 256) k t) else (false, k).

Definition toy_secp : Secp := {|
  crypto_hmac_sha512 k m :=
    let h := toy_hash (k ++ m) in
    Some (replicate 32 (h mod 256) ++ replicate 32 ((h / 256) mod 256));
  crypto_hash160 m := Some (replicate 20 (toy_hash m mod 256));
  secp256k1_priv_to_sec_encoded_pub k := if zlen k =? 32 then Some (2 :: k) else None;
  secp256k1_priv_tweak_add := toy_add;
  secp256k1_pub_tweak_add p t :=
    match p with [] => (false, []) | x :: k => let '(ok, k) := toy_add k t in (ok, x :: k) end;
  secp256k1_priv_verify k := true;
|}.
#[local] Existing Instance toy_secp.

Lemma toy_add_len k t b k' : toy_add k t = (b, k') → zlen k' = zlen k.
Proof.
  unfold toy_add. destruct (zlen t =? zlen k) eqn:El; intros [= _ <-]; [|done]. btest.
  unfold zlen in *. rewrite length_zip_with. lia.
Qed.

Lemma toy_secp_laws : SecpLaws.
Proof.
  split; simpl.
  - by intros k m d [= <-].
  - by intros m d [= <-].
  - intros k p. destruct (zlen k =? 32) eqn:El; [|done]. intros [= <-]. btest.
    rewrite zlen_cons. unfold BIP32_SEC1_KEY_SIZE. split; [lia|by left].
  - intros k t b k'. apply toy_add_len.
  - intros [|x k] t b p'; [by intros [= _ <-]|]. destruct (toy_add k t) as [ok k'] eqn:E.
    intros [= _ <-]. rewrite !zlen_cons. by rewrite (toy_add_len _ _ _ _ E).
  - intros k t k' p Et. rewrite (toy_add_len _ _ _ _ Et).
    destruct (zlen k =? 32); [|done]. intros [= <-]. rewrite Et. eauto.
Qed.

#[local] Existing Instance toy_secp_laws.

Definition demo_key : extended_key_t := mk_key 0 (replicate 32 5) (replicate 32 6).

Lemma bip32_pub_matches_priv_witness :
  ∃ K c, bip32_priv_to_pub demo_key zero_key = Done (true, K)
    ∧ bip32_derive_path_priv demo_key false [0; 7] = Done (true, c, None)
    ∧ ∃ C, bip32_derive_path_pub K [0; 7] = Done (true, C)
        ∧ bip32_priv_to_pub c zero_key = Done (true, C).
Proof.
  eexists _, _. split; [vm_compute; reflexivity|]. split; [vm_compute; reflexivity|].
  eapply (bip32_pub_matches_priv demo_key zero_key); vm_compute; reflexivity.
Defined.
