(* ===== verification/WalletKeys.v ===== *)
(** * Keys from the seed (lib/wallet: seed.c, derived_key_cache.c, wallet.c)

    The seed is a secret file; the keys that are used most are kept in a second
    secret file and in RAM, so that a signature does not derive them from the
    seed again. *)

From S2P Require Import Prelude Fs Wkek Bip32.

Definition SEED_PATH : string := "bip32-seed.bin".
Definition SEED_SIZE : Z := 32.
Definition DERIVED_KEY_CACHE_PATH : string := "derived-keys.bin".
Definition DERIVED_KEY_CACHE_VERSION : Z := 0.
Definition WALLET_KEYSET_PATH : string := "wallet-keyset.bin".
Definition BTC_NETWORK_PATH : string := "btc-network-type.bin".
Definition CSEK_LENGTH : Z := 32.

(** ** Known paths (derived_key_cache_impl.h) *)

Inductive purpose_t := PURPOSE_UNKNOWN | PURPOSE_BIP84 | PURPOSE_W1_AUTH.
Inductive coin_type_t := COIN_TYPE_UNKNOWN | COIN_TYPE_MAINNET | COIN_TYPE_TESTNET.
Inductive change_t := CHANGE_UNKNOWN | CHANGE_EXTERNAL | CHANGE_INTERNAL.
#[global] Instance purpose_eq_dec : EqDecision purpose_t.
Proof. solve_decision. Defined.
#[global] Instance coin_type_eq_dec : EqDecision coin_type_t.
Proof. solve_decision. Defined.
#[global] Instance change_eq_dec : EqDecision change_t.
Proof. solve_decision. Defined.

Record derivation_path_parts_t := mk_parts {
  purpose : purpose_t;
  coin_type : coin_type_t;
  change : change_t;
  path : list Z;
}.

Definition hardened (i : Z) : Z := Z.lor i BIP32_HARDENED_BIT.

Definition BIP84_MAINNET_EXTERNAL : derivation_path_parts_t :=
  mk_parts PURPOSE_BIP84 COIN_TYPE_MAINNET CHANGE_EXTERNAL [hardened 84; hardened 0; hardened 0; 0].
Definition BIP84_MAINNET_INTERNAL : derivation_path_parts_t :=
  mk_parts PURPOSE_BIP84 COIN_TYPE_MAINNET CHANGE_INTERNAL [hardened 84; hardened 0; hardened 0; 1].
Definition BIP84_TESTNET_EXTERNAL : derivation_path_parts_t :=
  mk_parts PURPOSE_BIP84 COIN_TYPE_TESTNET CHANGE_EXTERNAL [hardened 84; hardened 1; hardened 0; 0].
Definition BIP84_TESTNET_INTERNAL : derivation_path_parts_t :=
  mk_parts PURPOSE_BIP84 COIN_TYPE_TESTNET CHANGE_INTERNAL [hardened 84; hardened 1; hardened 0; 1].
Definition W1_AUTH : derivation_path_parts_t :=
  mk_parts PURPOSE_W1_AUTH COIN_TYPE_UNKNOWN CHANGE_UNKNOWN [hardened 87497287; hardened 0].

Definition DERIVATION_PATHS : list derivation_path_parts_t :=
  [BIP84_MAINNET_EXTERNAL; BIP84_MAINNET_INTERNAL; W1_AUTH;
   BIP84_TESTNET_EXTERNAL; BIP84_TESTNET_INTERNAL].

(** Whether [a] is a prefix of [b]. *)
Fixpoint derivation_path_is_subset (a b : list Z) : bool :=
  match a, b with
  | [], _ => true
  | i :: a, j :: b => (i =? j) && derivation_path_is_subset a b
  | _ :: _, [] => false
  end.

Definition get_derivation_path (p : purpose_t) (ct : coin_type_t) (ch : change_t) : option (list Z) :=
  path <$> list_find (λ m, purpose m = p ∧ coin_type m = ct ∧ change m = ch) DERIVATION_PATHS
    ≫= (λ '(_, m), Some m).

Fixpoint find_parts (l : list derivation_path_parts_t) (p : list Z) : option derivation_path_parts_t :=
  match l with
  | [] => None
  | parts :: l => if derivation_path_is_subset (path parts) p then Some parts else find_parts l p
  end.

Definition get_derivation_path_parts (p : list Z) : option derivation_path_parts_t :=
  find_parts DERIVATION_PATHS p.

(** ** The cache *)

Record derived_key_cache_t := mk_cache {
  version : Z;
  bip84_external_key : extended_key_t;
  bip84_internal_key : extended_key_t;
  w1_auth_key : extended_key_t;
}.

(** The packed struct. *)
Definition CACHE_SIZE : Z := 1 + 3 * 65.

Definition cache_bytes (c : derived_key_cache_t) : list Z :=
  version c :: key_bytes (bip84_external_key c) ++ key_bytes (bip84_internal_key c)
    ++ key_bytes (w1_auth_key c).

Definition cache_of_bytes (l : list Z) : derived_key_cache_t :=
  mk_cache (default 0 (head l)) (key_of_bytes (ztake 65 (zdrop 1 l)))
    (key_of_bytes (ztake 65 (zdrop 66 l))) (key_of_bytes (ztake 65 (zdrop 131 l))).

Inductive seed_res_t :=
| SEED_RES_OK
| SEED_RES_ERR_WKEK
| SEED_RES_ERR_MASTER_DERIVE
| SEED_RES_ERR_MASTER_FINGERPRINT
| SEED_RES_ERR_DERIVE_CHILD
| SEED_RES_ERR_SEED_WRITE.
#[global] Instance seed_res_eq_dec : EqDecision seed_res_t.
Proof. solve_decision. Defined.

(** [wallet_res_t] of wallet.h. *)
Inductive wallet_res_t :=
| WALLET_RES_OK
| WALLET_RES_ERR
| WALLET_RES_ALREADY_CREATED
| WALLET_RES_NOT_CREATED
| WALLET_RES_WKEK_ERR
| WALLET_RES_NO_WKEK
| WALLET_RES_MASTER_KEY_ERR
| WALLET_RES_STORAGE_ERR
| WALLET_RES_KEY_DERIVATION_ERR
| WALLET_RES_SIGNING_ERR
| WALLET_RES_SEALING_ERR
| WALLET_RES_UNSEALING_ERR
| WALLET_RES_OOM
| WALLET_RES_SERIALIZATION_ERR
| WALLET_RES_UNIMPLEMENTED_ERR
| WALLET_RES_NETWORK_ERR.
#[global] Instance wallet_res_eq_dec : EqDecision wallet_res_t.
Proof. solve_decision. Defined.

Section WalletKeys.
Context {L E : Type} `{Littlefs L} `{SecureElement E} `{Secp}.

(** The key encryption key, the cache in RAM and whether it is valid. *)
Record wallet_ctx := mk_wallet {
  wk : wkek_ctx L E;
  derived_key_cache : derived_key_cache_t;
  derived_key_cache_initialized : bool;
}.

Definition set_wk (w : wallet_ctx) (k : wkek_ctx L E) : wallet_ctx :=
  mk_wallet k (derived_key_cache w) (derived_key_cache_initialized w).
Definition set_cache (w : wallet_ctx) (c : derived_key_cache_t) : wallet_ctx :=
  mk_wallet (wk w) c (derived_key_cache_initialized w).
Definition set_initialized (w : wallet_ctx) (b : bool) : wallet_ctx :=
  mk_wallet (wk w) (derived_key_cache w) b.

Definition wallet_is_initialized (w : wallet_ctx) : bool := fs_file_exists (wkek_fs (wk w)) SEED_PATH.

(** *** seed.c *)

Definition set_se (k : wkek_ctx L E) (e : E) : wkek_ctx L E :=
  mk_wkek (wkek_key k) (wkek_loaded k) (wkek_fs k) e.

(** [master] is what the buffer of the caller holds. *)
Definition master_key_lazy_init (k : wkek_ctx L E) (master : extended_key_t)
    : outcome (seed_res_t * extended_key_t * wkek_ctx L E) :=
  let! '(r, k) := wkek_read_and_decrypt k SEED_PATH SEED_SIZE in
  let! '(seed, k) :=
    match r with
    | Some seed => Done (seed, k)
    | None => match crypto_random (wkek_se k) SEED_SIZE with
              | (Some bs, e) => Done (bs, set_se k e)
              | (None, _) => Abort
              end
    end in
  let! '(ok, master) := bip32_derive_master_key seed master in
  if negb ok then Done (SEED_RES_ERR_MASTER_DERIVE, master, k)
  else
    match r with
    | Some _ => Done (SEED_RES_OK, master, k)
    | None =>
        let! '(stored, k) := wkek_encrypt_and_store k SEED_PATH seed in
        Done (if stored : bool then SEED_RES_OK else SEED_RES_ERR_SEED_WRITE, master, k)
    end.

Definition seed_as_extended_key (k : wkek_ctx L E) (out : extended_key_t)
    : outcome (seed_res_t * extended_key_t * wkek_ctx L E) :=
  let! '(ok, k) := wkek_lazy_init k in
  if negb ok then Done (SEED_RES_ERR_WKEK, out, k) else master_key_lazy_init k out.

(** The key, the master fingerprint and the fingerprint of the parent. *)
Definition seed_derive_bip32 (k : wkek_ctx L E) (p : list Z) (out : extended_key_t)
    : outcome (seed_res_t * extended_key_t * option (list Z * list Z) * wkek_ctx L E) :=
  let! '(ok, k) := wkek_lazy_init k in
  if negb ok then Done (SEED_RES_ERR_WKEK, out, None, k)
  else
    let! '(result, master_key, k) := master_key_lazy_init k zero_key in
    if negb (bool_decide (result = SEED_RES_OK)) then Done (result, out, None, k)
    else
      let! fp := bip32_compute_fingerprint master_key in
      match fp with
      | None => Done (SEED_RES_ERR_MASTER_FINGERPRINT, out, None, k)
      | Some master_fingerprint =>
          if zlen p =? 0 then
            Done (SEED_RES_OK, master_key, Some (master_fingerprint, replicate 4 0), k)
          else
            let! '(ok, child, parent) := bip32_derive_path_priv master_key true p in
            if negb ok then Done (SEED_RES_ERR_DERIVE_CHILD, child, None, k)
            else Done (SEED_RES_OK, child, Some (master_fingerprint, default [] parent), k)
      end.

(** *** derived_key_cache.c *)

Definition derive_key_priv_from_seed (k : wkek_ctx L E) (key_priv : extended_key_t) (p : list Z)
    : outcome (bool * extended_key_t * wkek_ctx L E) :=
  let! '(res, master_key, k) := seed_as_extended_key k zero_key in
  if negb (bool_decide (res = SEED_RES_OK)) then Done (false, key_priv, k)
  else
    let! '(ok, child, _) := bip32_derive_path_priv master_key false p in
    Done (ok, child, k).

(** One key of the cache: [ASSERT(path)], then a derivation into the cache. *)
Definition fill_key (w : wallet_ctx) (p : option (list Z)) (old : extended_key_t)
    : outcome (bool * extended_key_t * wallet_ctx) :=
  match p with
  | None => Abort
  | Some p => let! '(ok, key, k) := derive_key_priv_from_seed (wk w) old p in
              Done (ok, key, set_wk w k)
  end.

Definition create_derived_key_cache (w : wallet_ctx) (ct : coin_type_t) : outcome (bool * wallet_ctx) :=
  let c := derived_key_cache w in
  let! '(ok, key, w) := fill_key w (get_derivation_path PURPOSE_BIP84 ct CHANGE_EXTERNAL)
                          (bip84_external_key c) in
  let c := mk_cache (version c) key (bip84_internal_key c) (w1_auth_key c) in
  let w := set_cache w c in
  if negb ok then Done (false, w)
  else
    let! '(ok, key, w) := fill_key w (get_derivation_path PURPOSE_BIP84 ct CHANGE_INTERNAL)
                            (bip84_internal_key c) in
    let c := mk_cache (version c) (bip84_external_key c) key (w1_auth_key c) in
    let w := set_cache w c in
    if negb ok then Done (false, w)
    else
      let! '(ok, key, w) :=
        fill_key w (get_derivation_path PURPOSE_W1_AUTH COIN_TYPE_UNKNOWN CHANGE_UNKNOWN)
          (w1_auth_key c) in
      let c := mk_cache (version c) (bip84_external_key c) (bip84_internal_key c) key in
      let w := set_cache w c in
      if negb ok then Done (false, w)
      else
        let! '(stored, k) := wkek_encrypt_and_store (wk w) DERIVED_KEY_CACHE_PATH (cache_bytes c) in
        Done (stored, set_wk w k).

Definition derived_key_cache_lazy_init (w : wallet_ctx) (ct : coin_type_t) : outcome wallet_ctx :=
  if derived_key_cache_initialized w then Done w
  else if negb (fs_file_exists (wkek_fs (wk w)) DERIVED_KEY_CACHE_PATH) then
    let! '(ok, w) := create_derived_key_cache w ct in Done (set_initialized w ok)
  else
    let! '(r, k) := wkek_read_and_decrypt (wk w) DERIVED_KEY_CACHE_PATH CACHE_SIZE in
    let w := set_wk w k in
    let w := match r with
             | Some bytes => mk_wallet (wk w) (cache_of_bytes bytes) true
             | None => set_initialized w false
             end in
    if version (derived_key_cache w) =? DERIVED_KEY_CACHE_VERSION then Done w
    else
      let '(ret, s) := fs_remove (wkek_fs (wk w)) DERIVED_KEY_CACHE_PATH in
      let w := set_wk w (with_fs (wk w) s) in
      if 0 <=? ret then
        let c := derived_key_cache w in
        let w := set_cache w (mk_cache DERIVED_KEY_CACHE_VERSION (bip84_external_key c)
                                (bip84_internal_key c) (w1_auth_key c)) in
        let! '(ok, w) := create_derived_key_cache w ct in Done (set_initialized w ok)
      else Done w.

Definition wallet_clear_derived_key_cache (w : wallet_ctx) : wallet_ctx :=
  mk_wallet (wk w) (mk_cache (version (derived_key_cache w)) zero_key zero_key zero_key) false.

Definition maybe_derive_from_cached_key (key_priv : extended_key_t) (p : list Z)
    (cached_key : extended_key_t) (common_levels : Z) : outcome (bool * extended_key_t) :=
  let! _ := ASSERT (common_levels <=? zlen p) in
  if zlen p =? common_levels then Done (true, cached_key)
  else
    let! '(ok, child, _) := bip32_derive_path_priv cached_key false (zdrop common_levels p) in
    Done (ok, child).

Definition full_derive (w : wallet_ctx) (key_priv : extended_key_t) (p : list Z)
    : outcome (bool * extended_key_t * wallet_ctx) :=
  let! '(ok, key, k) := derive_key_priv_from_seed (wk w) key_priv p in Done (ok, key, set_wk w k).

Definition from_cache (w : wallet_ctx) (key_priv : extended_key_t) (p : list Z)
    (cached : extended_key_t) (parts : derivation_path_parts_t)
    : outcome (bool * extended_key_t * wallet_ctx) :=
  let! '(ok, key) := maybe_derive_from_cached_key key_priv p cached (zlen (path parts)) in
  Done (ok, key, w).

Definition known_coin (ct : coin_type_t) : bool :=
  bool_decide (ct = COIN_TYPE_MAINNET ∨ ct = COIN_TYPE_TESTNET).

Definition wallet_derive_key_priv_using_cache (w : wallet_ctx) (key_priv : extended_key_t) (p : list Z)
    : outcome (bool * extended_key_t * wallet_ctx) :=
  match get_derivation_path_parts p with
  | None => full_derive w key_priv p
  | Some parts =>
      if bool_decide (purpose parts = PURPOSE_W1_AUTH)
         && negb (fs_file_exists (wkek_fs (wk w)) DERIVED_KEY_CACHE_PATH)
      then full_derive w key_priv p
      else
        let! w := derived_key_cache_lazy_init w (coin_type parts) in
        if negb (derived_key_cache_initialized w) then full_derive w key_priv p
        else
          let c := derived_key_cache w in
          match purpose parts, change parts with
          | PURPOSE_BIP84, CHANGE_EXTERNAL =>
              let! _ := ASSERT (known_coin (coin_type parts)) in
              from_cache w key_priv p (bip84_external_key c) parts
          | PURPOSE_BIP84, CHANGE_INTERNAL =>
              let! _ := ASSERT (known_coin (coin_type parts)) in
              from_cache w key_priv p (bip84_internal_key c) parts
          | PURPOSE_W1_AUTH, ch =>
              let! _ := ASSERT (bool_decide (coin_type parts = COIN_TYPE_UNKNOWN ∧ ch = CHANGE_UNKNOWN)) in
              from_cache w key_priv p (w1_auth_key c) parts
          | _, _ => full_derive w key_priv p
          end
  end.

Definition wallet_get_w1_auth_path : list Z := path W1_AUTH.

Definition wallet_get_w1_auth_key (w : wallet_ctx) (key_priv : extended_key_t)
    : outcome (bool * extended_key_t * wallet_ctx) :=
  wallet_derive_key_priv_using_cache w key_priv wallet_get_w1_auth_path.

(** *** wallet.c *)


(** The ciphertext, the iv and the tag. *)
Definition wallet_csek_encrypt (k : wkek_ctx L E) (csek : list Z)
    : outcome (wallet_res_t * option (list Z * list Z * list Z) * wkek_ctx L E) :=
  let! _ := ASSERT (zlen csek =? CSEK_LENGTH) in
  let! '(ok, k) := wkek_lazy_init k in
  if negb ok then Done (WALLET_RES_WKEK_ERR, None, k)
  else
    let! '(r, k) := wkek_encrypt k csek in
    match r with
    | None => Done (WALLET_RES_SEALING_ERR, None, k)
    | Some (iv, ct, tag) => Done (WALLET_RES_OK, Some (ct, iv, tag), k)
    end.

Definition wallet_csek_decrypt (k : wkek_ctx L E) (wrapped iv tag : list Z)
    : outcome (wallet_res_t * option (list Z) * wkek_ctx L E) :=
  let! '(ok, k) := wkek_lazy_init k in
  if negb ok then Done (WALLET_RES_WKEK_ERR, None, k)
  else
    let! '(r, k) := wkek_decrypt k wrapped iv tag in
    match r with
    | None => Done (WALLET_RES_UNSEALING_ERR, None, k)
    | Some csek => Done (WALLET_RES_OK, Some csek, k)
    end.

(** *** wallet_remove_files of wallet_storage.c *)

Definition removed_files : list string :=
  [DERIVED_KEY_CACHE_PATH; WALLET_KEYSET_PATH; BTC_NETWORK_PATH; SEED_PATH;
   "encrypted-auth-key-active.bin"; "encrypted-config-key-active.bin";
   "encrypted-spend-key-active.bin"; "encrypted-auth-key-recovery.bin";
   "encrypted-config-key-recovery.bin"; "encrypted-spend-key-recovery.bin";
   "encrypted-auth-key-inactive.bin"; "encrypted-config-key-inactive.bin";
   "encrypted-spend-key-inactive.bin"; WKEK_PATH]%string.

(** The results of the removals are ignored. *)
Definition remove_all (files : list string) (s : fs_ctx L) : fs_ctx L :=
  foldl (λ s f, snd (fs_remove s f)) s files.

Definition wallet_remove_files (w : wallet_ctx) : wallet_ctx :=
  set_wk w (with_fs (wk w) (remove_all removed_files (wkek_fs (wk w)))).
End WalletKeys.
Arguments wallet_ctx : clear implicits.
