(* ===== verification/WalletCache.v ===== *)
(** * The key cache agrees with the seed

    [wallet_cache_sound]: over derivations, clears, reboots and interrupted
    wipes, on a wallet of one coin type and a medium without errors, the keys
    that the cache gives are the ones that a derivation from the stored seed
    gives. *)

From S2P Require Import Prelude Fs Wkek Bip32 WalletKeys.

(** ** Encoding of the cache *)

Lemma key_of_bytes_spec k r : key_ok k → key_of_bytes (ztake 65 (key_bytes k ++ r)) = k.
Proof.
  intros [Hk Hc]. unfold BIP32_KEY_SIZE, BIP32_CHAINCODE_SIZE in *.
  assert (Hl : zlen (key_bytes k) = 65) by (unfold key_bytes, sec1; rewrite zlen_app, zlen_cons; lia).
  rewrite ztake_app_exact by done. destruct k as [p ky c]. unfold key_bytes, sec1, key_of_bytes in *.
  cbn [prefix key chaincode] in *. cbn [app head default]. f_equal.
  - change (zdrop 1 (p :: ky ++ c)) with (ky ++ c). by rewrite ztake_app_exact.
  - change (p :: ky ++ c) with ((p :: ky) ++ c). apply zdrop_app_exact. rewrite zlen_cons.
    unfold BIP32_SEC1_KEY_SIZE. lia.
Qed.

Definition cache_ok (c : derived_key_cache_t) : Prop :=
  key_ok (bip84_external_key c) ∧ key_ok (bip84_internal_key c) ∧ key_ok (w1_auth_key c).

Lemma zlen_key_bytes k : key_ok k → zlen (key_bytes k) = 65.
Proof.
  intros [Hk Hc]. unfold BIP32_KEY_SIZE, BIP32_CHAINCODE_SIZE in *. unfold key_bytes, sec1.
  rewrite zlen_app, zlen_cons. lia.
Qed.

Lemma cache_bytes_spec c : cache_ok c →
  cache_of_bytes (cache_bytes c) = c ∧ zlen (cache_bytes c) = CACHE_SIZE.
Proof.
  intros (H1 & H2 & H3). pose proof (zlen_key_bytes _ H1). pose proof (zlen_key_bytes _ H2).
  pose proof (zlen_key_bytes _ H3). destruct c as [v a b w]. unfold cache_of_bytes, cache_bytes.
  cbn [version bip84_external_key bip84_internal_key w1_auth_key head default] in *. split.
  - f_equal.
    + change (zdrop 1 (v :: ?l)) with l. by apply key_of_bytes_spec.
    + rewrite (app_comm_cons (key_bytes a)), zdrop_app_exact by (rewrite zlen_cons; lia).
      by apply key_of_bytes_spec.
    + rewrite (app_comm_cons (key_bytes a)), (app_assoc (v :: key_bytes a)), zdrop_app_exact
        by (rewrite zlen_app, zlen_cons; lia).
      rewrite <- (app_nil_r (key_bytes w)). by apply key_of_bytes_spec.
  - unfold CACHE_SIZE. rewrite zlen_cons, !zlen_app. lia.
Qed.

(** A known path is a prefix of the paths it stands for. *)
Lemma subset_app a b : derivation_path_is_subset a b = true → b = a ++ zdrop (zlen a) b.
Proof.
  revert b. induction a as [|i a IH]; intros b; [done|]. destruct b as [|j b]; [done|].
  cbn [derivation_path_is_subset]. intros [->%Z.eqb_eq Hs]%andb_true_iff. cbn [app]. f_equal.
  rewrite (IH _ Hs) at 1. f_equal. unfold zdrop, zlen. rewrite !Nat2Z.id. done.
Qed.

Lemma find_parts_spec l p parts : find_parts l p = Some parts →
  parts ∈ l ∧ p = path parts ++ zdrop (zlen (path parts)) p.
Proof.
  induction l as [|q l IH]; [done|]. cbn [find_parts].
  destruct (derivation_path_is_subset (path q) p) eqn:Es.
  - intros [= <-]. split; [by left|]. by apply subset_app.
  - intros [? ?]%IH. split; [by right|done].
Qed.

Section WalletCache.
Context {L E : Type} `{Littlefs L} `{SecureElement E} `{Secp}.
Context `{!LittlefsLaws L} `{!LittlefsReliable L} `{!SecureElementLaws E} `{!SecpLaws}.
Implicit Types (k : wkek_ctx L E) (w : wallet_ctx L E).

(** ** The seed *)

Definition seed_inv k : Prop :=
  wkek_ok k
  ∧ (has_file k SEED_PATH → has_file k WKEK_PATH
       ∧ ∃ seed, opened k SEED_PATH SEED_SIZE = Some seed ∧ zlen seed = SEED_SIZE).

(** The master key of the stored seed. *)
Definition master k (m : extended_key_t) : Prop :=
  ∃ seed, opened k SEED_PATH SEED_SIZE = Some seed
    ∧ key_ok m ∧ ∀ o, bip32_derive_master_key seed o = Done (true, m).

Lemma master_functional k m m' : master k m → master k m' → m = m'.
Proof.
  intros (s & Hs & _ & Hm) (s' & Hs' & _ & Hm'). rewrite Hs in Hs'. injection Hs' as <-.
  specialize (Hm zero_key). rewrite Hm' in Hm. by injection Hm.
Qed.

(** The key encryption key and the master key stay what they are, once there
    are some. *)
Definition same_master k k' : Prop :=
  (has_file k WKEK_PATH → fs_data (wkek_fs k') WKEK_PATH = fs_data (wkek_fs k) WKEK_PATH)
  ∧ ∀ m, master k m → master k' m.
#[global] Instance same_master_preorder : PreOrder same_master.
Proof.
  split; [by intros k; split|]. intros k1 k2 k3 [A1 B1] [A2 B2]. split; [|by auto].
  intros Hw. rewrite A2; [by apply A1|]. unfold has_file. by rewrite A1.
Qed.

(** What a call keeps: every file but the seed and the key, both of them once
    they exist, and the master key. *)
Definition keeps k k' : Prop :=
  (∀ q, q ≠ SEED_PATH → q ≠ WKEK_PATH → fs_data (wkek_fs k') q = fs_data (wkek_fs k) q)
  ∧ same_master k k'.

Lemma keeps_trans k1 k2 k3 : keeps k1 k2 → keeps k2 k3 → keeps k1 k3.
Proof.
  intros [A1 B1] [A2 B2]. split; [intros q ??; by rewrite A2, A1|by etrans].
Qed.

Lemma keeps_files k k' : (∀ q, fs_data (wkek_fs k') q = fs_data (wkek_fs k) q) → keeps k k'.
Proof.
  intros Hq. split; [done|split; [done|]]. intros m (s & Hs & ? & ?). exists s. split_and!; [|done|done].
  rewrite <- Hs. by apply opened_ext.
Qed.

Lemma seed_as_key_ready k o : seed_inv k →
  safe (λ '(res, m, k'), seed_inv k' ∧ keeps k k'
    ∧ (res = SEED_RES_OK → has_file k' WKEK_PATH ∧ master k' m)) (seed_as_extended_key k o).
Proof.
  intros [Hok Hseed]. unfold seed_as_extended_key.
  eapply safe_bind; [by apply wkek_init_ready|]. intros [ok k1] (Hok1 & Hq1 & Hpres & Hd1).
  assert (Hs1 : seed_inv k1 ∧ keeps k k1).
  { assert (Hw : has_file k WKEK_PATH → ∀ q, fs_data (wkek_fs k1) q = fs_data (wkek_fs k) q) by (intros; by apply Hpres).
    split.
    - split; [done|]. unfold has_file at 1. rewrite Hq1 by done. intros Hf.
      destruct (Hseed Hf) as (HW & s & Hs & Hl). split; [unfold has_file; by rewrite Hw|].
      exists s. split; [|done]. rewrite <- Hs. apply opened_ext; by apply Hw.
    - split; [by auto|split; [by intros; apply Hw|]]. intros m (s & Hs & ? & ?). exists s.
      split_and!; [|done|done]. rewrite <- Hs. apply opened_files in Hs as [HW _].
      apply opened_ext; by apply Hw. }
  destruct Hs1 as [[_ Hseed1] Hkeep]. destruct ok; cbn [negb]; [|simpl; by split_and!].
  assert (HW : has_file k1 WKEK_PATH). { destruct (Hd1 eq_refl) as (d & Hd & _). unfold has_file. rewrite Hd. eauto. }
  unfold master_key_lazy_init. eapply safe_bind; [apply wkek_read_ready; done|].
  intros [r k2] (Hok2 & Hq2 & ->). pose proof (keeps_files _ _ Hq2) as Hkeep2.
  assert (Hop2 : ∀ f n, opened k2 f n = opened k1 f n) by (intros; by apply opened_ext).
  assert (HW2 : has_file k2 WKEK_PATH) by (unfold has_file; by rewrite Hq2).
  assert (Hseed2 : seed_inv k2).
  { split; [done|]. unfold has_file at 1. rewrite Hq2. intros Hf. split; [done|].
    rewrite Hop2. by apply Hseed1. }
  destruct (opened k1 SEED_PATH SEED_SIZE) as [seed|] eqn:Eo; cbn [obind].
  - assert (zlen seed = 32).
    { destruct Hseed1 as (_ & s & [= ->] & ?); [|done]. by apply opened_files in Eo as [_ ?]. }
    eapply safe_bind; [by apply master_ok|]. intros [ok m] Hm.
    destruct ok; simpl; (split_and!; [apply Hseed2|by eapply keeps_trans|]); [|done].
    intros _. split; [done|]. destruct (Hm eq_refl) as (? & _ & ?). exists seed. split; [by rewrite Hop2|done].
  - destruct (crypto_random (wkek_se k2) SEED_SIZE) as [[seed|] e] eqn:Er; cbn [obind]; [|done].
    apply law_random in Er. eapply safe_bind; [by apply master_ok|]. intros [ok m] Hm.
    assert (HwkE : wkek_ok (set_se k2 e)) by done.
    destruct ok; cbn [negb].
    2:{ simpl. split_and!; [apply Hseed2|by eapply keeps_trans|done]. }
    eapply safe_bind; [apply wkek_store_ready; [done|done|rewrite Er; done]|].
    intros [st k3] (Hok3 & Hq3 & HW3 & Hst & Hno). simpl. rewrite Er in Hst.
    specialize (HW3 HW2). simpl in HW3.
    assert (Hkeep3 : keeps k2 k3).
    { split; [intros q ??; by rewrite Hq3|split; [done|]]. intros m' (s & Hs & _). rewrite Hop2 in Hs. congruence. }
    destruct st; (split_and!; [|eapply keeps_trans; [done|]; by eapply keeps_trans|]).
    + split; [done|]. intros _. destruct (Hst eq_refl). split; [done|]. by exists seed.
    + intros _. destruct (Hst eq_refl) as [? Hop]. split; [done|]. destruct (Hm eq_refl) as (? & _ & ?).
      by exists seed.
    + split; [done|]. unfold has_file at 1. rewrite Hno by done. simpl. intros Hf.
      destruct Hseed2 as [_ Hs2]. destruct (Hs2 Hf) as (_ & s & Hs & _). rewrite Hop2 in Hs. congruence.
    + done.
Qed.
(** The private key at a path below the master key of the stored seed. *)
Definition seed_key k (p : list Z) (key : extended_key_t) : Prop :=
  ∃ m, master k m ∧ derive_priv_loop m None p = Done (true, key, None).

Lemma from_seed_ready k o p : seed_inv k →
  safe (λ '(ok, key, k'), seed_inv k' ∧ keeps k k'
    ∧ (ok = true → has_file k' WKEK_PATH ∧ key_ok key ∧ seed_key k' p key))
    (derive_key_priv_from_seed k o p).
Proof.
  intros Hk. unfold derive_key_priv_from_seed. eapply safe_bind; [by apply seed_as_key_ready|].
  intros [[res m] k1] (Hk1 & Hkeep & Hm). case_bool_decide as Hres; simpl; [|by split_and!].
  destruct (Hm Hres) as [HW HM]. assert (Hmok : key_ok m) by (by destruct HM as (? & _ & ? & _)).
  unfold bip32_derive_path_priv. destruct (zlen p <=? _); cbn [ASSERT obind]; [|done].
  pose proof (derive_priv_ok m p Hmok) as Hd. destruct (derive_priv_loop m None p) as [[[ok c] f]| | |] eqn:Ed;
    try done. destruct Hd as [Hc ->]. simpl. split_and!; [done..|]. intros ->. split_and!; [done|done|]. by exists m.
Qed.

(** ** The cache *)

(** The key that the cache keeps for a known path. *)
Definition cached_key (parts : derivation_path_parts_t) (c : derived_key_cache_t) : extended_key_t :=
  match purpose parts, change parts with
  | PURPOSE_BIP84, CHANGE_EXTERNAL => bip84_external_key c
  | PURPOSE_BIP84, CHANGE_INTERNAL => bip84_internal_key c
  | _, _ => w1_auth_key c
  end.

(** The paths of a wallet of one coin type. *)
Definition of_coin (ct : coin_type_t) (parts : derivation_path_parts_t) : Prop :=
  coin_type parts = ct ∨ coin_type parts = COIN_TYPE_UNKNOWN.

Definition good (ct : coin_type_t) k (c : derived_key_cache_t) : Prop :=
  version c = DERIVED_KEY_CACHE_VERSION ∧ cache_ok c
  ∧ ∀ parts, parts ∈ DERIVATION_PATHS → of_coin ct parts → seed_key k (path parts) (cached_key parts c).

Lemma seed_key_keeps k k' p key : keeps k k' → seed_key k p key → seed_key k' p key.
Proof. intros (_ & _ & Hm) (m & ? & ?). exists m. auto. Qed.

Lemma good_keeps ct k k' c : keeps k k' → good ct k c → good ct k' c.
Proof. intros Hk (Hv & Hc & Hg). split_and!; [done|done|]. intros. eapply seed_key_keeps; eauto. Qed.

Definition wallet_inv (ct : coin_type_t) w : Prop :=
  seed_inv (wk w)
  ∧ version (derived_key_cache w) = DERIVED_KEY_CACHE_VERSION
  ∧ (has_file (wk w) DERIVED_KEY_CACHE_PATH → ∃ c,
       opened (wk w) DERIVED_KEY_CACHE_PATH CACHE_SIZE = Some (cache_bytes c) ∧ good ct (wk w) c)
  ∧ (derived_key_cache_initialized w = true → good ct (wk w) (derived_key_cache w)).

(** The cache file under calls that keep the files. *)
Lemma inv_keeps ct w k' : wallet_inv ct w → seed_inv k' → keeps (wk w) k' →
  wallet_inv ct (set_wk w k').
Proof.
  intros (_ & Hv & Hf & Hi) Hs Hk. pose proof Hk as (Hq & HW & _). split_and!; [done|done| |].
  - cbn [set_wk wk]. unfold has_file. rewrite Hq by done. intros Hc.
    destruct (Hf Hc) as (c & Ho & Hg). exists c. split; [|by eapply good_keeps].
    rewrite <- Ho. apply opened_files in Ho as [HK _]. apply opened_ext; [by apply HW|by apply Hq].
  - intros Hin. eapply good_keeps; [done|]. by apply Hi.
Qed.

Lemma fill_key_ready ct w p o : wallet_inv ct w →
  safe (λ '(ok, key, w'), wallet_inv ct w' ∧ keeps (wk w) (wk w')
    ∧ derived_key_cache w' = derived_key_cache w
    ∧ derived_key_cache_initialized w' = derived_key_cache_initialized w
    ∧ (ok = true → key_ok key ∧ ∀ p', p = Some p' → seed_key (wk w') p' key)) (fill_key w p o).
Proof.
  intros Hw. unfold fill_key. destruct p as [p|]; [|done].
  eapply safe_bind; [apply from_seed_ready, Hw|]. intros [[ok key] k'] (Hs & Hk & Hkey). simpl.
  split_and!; [by apply inv_keeps|done|done|done|]. intros Hok. destruct (Hkey Hok) as (_ & ? & ?).
  split; [done|]. by intros p' [= <-].
Qed.

(** The contents of an invalid cache do not matter. *)
Lemma inv_set_cache ct w c : wallet_inv ct w → derived_key_cache_initialized w = false →
  version c = DERIVED_KEY_CACHE_VERSION → wallet_inv ct (set_cache w c).
Proof.
  intros (? & ? & ? & ?) Hi Hv. split_and!; [done|done|done|]. cbn. by rewrite Hi.
Qed.

(** The three cached paths of a coin type. *)
Lemma of_coin_cases ct parts : known_coin ct = true → parts ∈ DERIVATION_PATHS → of_coin ct parts →
  (purpose parts = PURPOSE_BIP84 ∧ change parts = CHANGE_EXTERNAL ∧ coin_type parts = ct
     ∧ get_derivation_path PURPOSE_BIP84 ct CHANGE_EXTERNAL = Some (path parts))
  ∨ (purpose parts = PURPOSE_BIP84 ∧ change parts = CHANGE_INTERNAL ∧ coin_type parts = ct
       ∧ get_derivation_path PURPOSE_BIP84 ct CHANGE_INTERNAL = Some (path parts))
  ∨ (purpose parts = PURPOSE_W1_AUTH
       ∧ get_derivation_path PURPOSE_W1_AUTH COIN_TYPE_UNKNOWN CHANGE_UNKNOWN = Some (path parts)).
Proof.
  unfold known_coin, of_coin, DERIVATION_PATHS. intros Hk%bool_decide_eq_true.
  rewrite !elem_of_cons, elem_of_nil.
  intros Hp [<-|Hu]; destruct Hp as [->|[->|[->|[->|[->|[]]]]]]; try done; destruct Hk; try done;
    first [left; by split_and! | right; left; by split_and! | right; right; by split_and!].
Qed.

(** Calls that keep the seed and its key. *)
Lemma seed_files k k' : wkek_ok k' → seed_inv k →
  fs_data (wkek_fs k') WKEK_PATH = fs_data (wkek_fs k) WKEK_PATH →
  fs_data (wkek_fs k') SEED_PATH = fs_data (wkek_fs k) SEED_PATH →
  seed_inv k' ∧ same_master k k'.
Proof.
  intros Hok [_ Hs] HW HS. assert (Ho : ∀ n, opened k' SEED_PATH n = opened k SEED_PATH n).
  { intros n. by apply opened_ext. }
  split; [split; [done|]|].
  - unfold has_file. rewrite HW, HS, Ho. apply Hs.
  - split; [done|]. intros m (sd & ? & ?). exists sd. by rewrite Ho.
Qed.

(** A good cache is stored. *)
Lemma store_cache_ready ct w : wallet_inv ct w → derived_key_cache_initialized w = false →
  good ct (wk w) (derived_key_cache w) → has_file (wk w) WKEK_PATH →
  safe (λ '(ok, k'), wallet_inv ct (set_wk w k') ∧ same_master (wk w) k' ∧ good ct k' (derived_key_cache w))
    (wkek_encrypt_and_store (wk w) DERIVED_KEY_CACHE_PATH (cache_bytes (derived_key_cache w))).
Proof.
  intros Hw Hi Hg HW. pose proof Hg as (_ & Hc & _). destruct (cache_bytes_spec _ Hc) as [_ Hlen].
  pose proof Hw as (Hseed & Hv & Hf & _). pose proof Hseed as [Hok _].
  eapply safe_mono; [apply wkek_store_ready; [done|done|by rewrite Hlen]|].
  intros [ok k'] (Hok' & Hq & HWk & Hst & Hno). specialize (HWk HW).
  destruct (seed_files (wk w) k' Hok' Hseed HWk) as [Hseed' Hsm]; [by apply Hq|]. pose proof Hsm as [_ Hm].
  assert (Hgood : ∀ c, good ct (wk w) c → good ct k' c).
  { intros c (? & ? & Hx). split_and!; [done|done|]. intros parts ??.
    destruct (Hx parts) as (m & ? & ?); [done|done|]. exists m. auto. }
  split; [|split; [done|by apply Hgood]]. split_and!; [done|done| |cbn; by rewrite Hi].
  cbn [set_wk wk]. intros Hcf. destruct ok.
  - exists (derived_key_cache w). split; [|by apply Hgood]. rewrite <- Hlen. by apply Hst.
  - unfold has_file in Hcf. rewrite (Hno eq_refl) in Hcf. destruct (Hf Hcf) as (c & Ho & Hgc).
    exists c. split; [|by apply Hgood]. rewrite <- Ho. apply opened_ext; [done|by apply Hno].
Qed.

Lemma create_ready ct w : wallet_inv ct w → known_coin ct = true →
  derived_key_cache_initialized w = false →
  safe (λ '(ok, w'), wallet_inv ct w' ∧ same_master (wk w) (wk w') ∧ derived_key_cache_initialized w' = false
    ∧ (ok = true → good ct (wk w') (derived_key_cache w'))) (create_derived_key_cache w ct).
Proof.
  intros Hw Hct Hi. unfold create_derived_key_cache. pose proof Hw as (_ & Hv & _).
  eapply safe_bind; [by apply fill_key_ready|]. intros [[ok1 k1] w1] (Hw1 & Hk1 & Hc1 & Hi1 & Hs1).
  set (c1 := mk_cache _ k1 _ _). rewrite Hi in Hi1.
  assert (Hw1' : wallet_inv ct (set_cache w1 c1)) by (by apply inv_set_cache).
  assert (Hm1 : same_master (wk w) (wk w1)) by apply Hk1.
  destruct ok1; cbn [negb]; [|by simpl; split_and!]. destruct (Hs1 eq_refl) as [Hok1 Hp1].
  eapply safe_bind; [apply fill_key_ready, Hw1'|]. intros [[ok2 k2] w2] (Hw2 & Hk2 & Hc2 & Hi2 & Hs2).
  set (c2 := mk_cache _ _ k2 _). cbn [set_cache derived_key_cache_initialized wk] in *. rewrite Hi1 in Hi2.
  assert (Hw2' : wallet_inv ct (set_cache w2 c2)) by (by apply inv_set_cache).
  assert (Hm2 : same_master (wk w) (wk w2)) by (etrans; [exact Hm1|apply Hk2]).
  destruct ok2; cbn [negb]; [|by simpl; split_and!]. destruct (Hs2 eq_refl) as [Hok2 Hp2].
  eapply safe_bind; [apply fill_key_ready, Hw2'|]. intros [[ok3 k3] w3] (Hw3 & Hk3 & Hc3 & Hi3 & Hs3).
  set (c3 := mk_cache _ _ _ k3). cbn [set_cache derived_key_cache_initialized wk] in *. rewrite Hi2 in Hi3.
  assert (Hw3' : wallet_inv ct (set_cache w3 c3)) by (by apply inv_set_cache).
  assert (Hm3 : same_master (wk w) (wk w3)) by (etrans; [exact Hm2|apply Hk3]).
  destruct ok3; cbn [negb]; [|by simpl; split_and!]. destruct (Hs3 eq_refl) as [Hok3 Hp3].
  assert (Hg : good ct (wk w3) c3).
  { split_and!; [done|done|]. intros parts Hin Hof. unfold cached_key.
    destruct (of_coin_cases _ _ Hct Hin Hof) as [(-> & -> & _ & Hp)|[(-> & -> & _ & Hp)|(-> & Hp)]]; cbn.
    - eapply seed_key_keeps; [exact Hk3|]. eapply seed_key_keeps; [exact Hk2|]. by apply Hp1.
    - eapply seed_key_keeps; [exact Hk3|]. by apply Hp2.
    - by apply Hp3. }
  assert (has_file (wk w3) WKEK_PATH).
  { destruct (Hp3 _ eq_refl) as (m & (sd & Ho & _) & _). by apply opened_files in Ho as [? _]. }
  eapply safe_bind; [by apply (store_cache_ready ct (set_cache w3 c3))|].
  intros [ok4 k4] (Hw4 & Hm4 & Hg4). simpl. split_and!; [done| |done|done]. by etrans.
Qed.

Lemma lazy_init_ready ct w q : wallet_inv ct w → known_coin ct = true →
  q = ct ∨ has_file (wk w) DERIVED_KEY_CACHE_PATH →
  safe (λ w', wallet_inv ct w' ∧ same_master (wk w) (wk w')) (derived_key_cache_lazy_init w q).
Proof.
  intros Hw Hct Hq. unfold derived_key_cache_lazy_init.
  destruct (derived_key_cache_initialized w) eqn:Hi; [by split|].
  destruct (fs_file_exists _ _) eqn:Ex; cbn [negb].
  - apply exists_spec in Ex. pose proof Hw as (Hs & Hv & Hf & _). destruct (Hf Ex) as (c & Ho & Hg).
    eapply safe_bind; [apply wkek_read_ready; [apply Hs|done|]|].
    { intros _. by apply opened_files in Ho as [? _]. }
    intros [r k'] (Hok' & Hqf & ->). rewrite Ho. cbn [set_wk wk derived_key_cache].
    pose proof Hg as (Hgv & Hgc & _). destruct (cache_bytes_spec _ Hgc) as [-> _]. rewrite Hgv.
    cbn [Z.eqb DERIVED_KEY_CACHE_VERSION]. simpl.
    assert (Hk : keeps (wk w) k') by (by apply keeps_files).
    destruct (seed_files (wk w) k') as [Hs' _]; [done|done|apply Hqf|apply Hqf|].
    destruct (inv_keeps ct w k' Hw Hs' Hk) as (? & ? & ? & _). split; [|apply Hk].
    split_and!; [done|done|done|]. intros _. by eapply good_keeps.
  - assert (q = ct) as ->. { destruct Hq as [?|Hq]; [done|]. apply exists_spec in Hq. congruence. }
    eapply safe_bind; [by apply create_ready|]. intros [ok w'] (Hw' & Hm & Hi' & Hg). simpl.
    destruct Hw' as (? & ? & ? & ?). split; [|done]. split_and!; [done..|]. cbn. intros ->. by apply Hg.
Qed.
(** The rest of a path below a cached key. *)
Lemma from_cache_ready ct w o p parts : wallet_inv ct w →
  seed_key (wk w) (path parts) (cached_key parts (derived_key_cache w)) →
  key_ok (cached_key parts (derived_key_cache w)) → p = path parts ++ zdrop (zlen (path parts)) p →
  safe (λ '(ok, key, w'), wallet_inv ct w' ∧ same_master (wk w) (wk w') ∧ (ok = true → seed_key (wk w') p key))
    (from_cache w o p (cached_key parts (derived_key_cache w)) parts).
Proof.
  intros Hw (m & Hm & Hd) Hc Hp. unfold from_cache, maybe_derive_from_cached_key.
  set (c := cached_key parts _) in *. set (rest := zdrop (zlen (path parts)) p) in *.
  destruct (zlen (path parts) <=? zlen p); cbn [ASSERT obind]; [|done].
  destruct (zlen p =? zlen (path parts)) eqn:El; btest; cbn [obind].
  - simpl. split_and!; [done|done|]. intros _. exists m. split; [done|]. rewrite Hp.
    rewrite (zlen_zero rest); [by rewrite app_nil_r|]. rewrite Hp, zlen_app in El. lia.
  - unfold bip32_derive_path_priv. destruct (_ <=? _); cbn [ASSERT obind]; [|done].
    pose proof (derive_priv_ok c rest Hc) as Hr.
    destruct (derive_priv_loop c None rest) as [[[ok k] f]| | |] eqn:Er; try done.
    destruct Hr as [_ ->]. simpl. split_and!; [done|done|]. intros ->. exists m. split; [done|].
    rewrite Hp, derive_priv_app, Hd. exact Er.
Qed.

Lemma full_derive_ready ct w o p : wallet_inv ct w →
  safe (λ '(ok, key, w'), wallet_inv ct w' ∧ same_master (wk w) (wk w') ∧ (ok = true → seed_key (wk w') p key)) (full_derive w o p).
Proof.
  intros Hw. unfold full_derive. eapply safe_bind; [apply from_seed_ready, Hw|].
  intros [[ok key] k'] (Hs & Hk & Hkey). simpl. split_and!; [by apply inv_keeps|apply Hk|]. intros Hok. by apply Hkey.
Qed.

(** A path of a wallet of coin type [ct]: known for that type, or unknown. *)
Definition path_of_coin (ct : coin_type_t) (p : list Z) : Prop :=
  match get_derivation_path_parts p with Some parts => of_coin ct parts | None => True end.

Lemma derive_ready ct w o p : wallet_inv ct w → known_coin ct = true → path_of_coin ct p →
  safe (λ '(ok, key, w'), wallet_inv ct w' ∧ same_master (wk w) (wk w') ∧ (ok = true → seed_key (wk w') p key))
    (wallet_derive_key_priv_using_cache w o p).
Proof.
  intros Hw Hct Hp. unfold wallet_derive_key_priv_using_cache, path_of_coin in *.
  destruct (get_derivation_path_parts p) as [parts|] eqn:Ep; [|by apply full_derive_ready].
  destruct (find_parts_spec _ _ _ Ep) as [Hin Hpp].
  destruct (_ && _) eqn:Ew1; [by apply full_derive_ready|].
  eapply safe_bind; [apply (lazy_init_ready ct); [done|done|]|].
  { destruct (of_coin_cases _ _ Hct Hin Hp) as [(_ & _ & ? & _)|[(_ & _ & ? & _)|(Hpu & _)]];
      [by left|by left|]. right. rewrite bool_decide_true in Ew1 by done. simpl in Ew1. apply negb_false_iff in Ew1.
    by apply exists_spec. }
  clear Ew1. intros w' [Hw' Hm]. eapply (safe_mono (λ '(ok, key, w2), wallet_inv ct w2 ∧ same_master (wk w') (wk w2)
    ∧ (ok = true → seed_key (wk w2) p key))).
  2:{ intros [[ok key] w2] (? & Hm2 & ?). split_and!; [done| |done]. by etrans. }
  destruct (derived_key_cache_initialized w') eqn:Hi; cbn [negb]; [|by apply full_derive_ready].
  pose proof Hw' as (_ & _ & _ & Hg). destruct (Hg Hi) as (_ & (Hk1 & Hk2 & Hk3) & Hkeys).
  specialize (Hkeys parts Hin Hp).
  pose proof (λ Hk, from_cache_ready ct w' o p parts Hw' Hkeys Hk Hpp) as Hfc. unfold cached_key in Hfc.
  destruct (purpose parts), (change parts);
    first [by apply full_derive_ready | case_bool_decide | destruct (known_coin (coin_type parts))];
    cbn [ASSERT obind]; first [done | by apply Hfc].
Qed.

(** ** Sequences of calls *)

(** [WWipe n]: [wallet_remove_files], interrupted after [n] removals or run to
    its end, and the reset that follows it. A reset loses the RAM. *)
Inductive wallet_ev :=
| WDerive (p : list Z)
| WClear
| WReboot
| WWipe (n : nat).

Definition boot_cache : derived_key_cache_t :=
  mk_cache DERIVED_KEY_CACHE_VERSION zero_key zero_key zero_key.

Definition wallet_reboot w : wallet_ctx L E :=
  mk_wallet (mk_wkek [] false (mk_fs (lfs (wkek_fs (wk w))) true) (wkek_se (wk w))) boot_cache false.

Definition wallet_step w (ev : wallet_ev) : outcome (wallet_ctx L E) :=
  match ev with
  | WDerive p => let! '(_, _, w) := wallet_derive_key_priv_using_cache w zero_key p in Done w
  | WClear => Done (wallet_clear_derived_key_cache w)
  | WReboot => Done (wallet_reboot w)
  | WWipe n => Done (wallet_reboot (set_wk w (with_fs (wk w)
                 (remove_all (take n removed_files) (wkek_fs (wk w))))))
  end.

Fixpoint wallet_run w (evs : list wallet_ev) : outcome (wallet_ctx L E) :=
  match evs with
  | [] => Done w
  | ev :: evs => let! w := wallet_step w ev in wallet_run w evs
  end.

Definition ev_of_coin (ct : coin_type_t) (ev : wallet_ev) : Prop :=
  match ev with WDerive p => path_of_coin ct p | _ => True end.

Lemma removed_ready (s : fs_ctx L) files : fs_ready s →
  fs_ready (remove_all files s)
  ∧ ∀ q, fs_data (remove_all files s) q = if decide (q ∈ files) then None else fs_data s q.
Proof.
  revert s. induction files as [|f files IH]; intros s Hs.
  - split; [done|]. intros q. rewrite decide_False; [done|]. apply not_elem_of_nil.
  - destruct (remove_ready s f Hs) as [Hs1 Hn]. destruct (fs_remove s f) as [r s1] eqn:Er.
    destruct (fs_remove_spec _ _ _ _ Er) as (Hq & _). unfold remove_all. cbn [foldl]. rewrite Er.
    cbn [snd] in *. destruct (IH s1 Hs1) as [Hs2 Hd]. split; [done|]. intros q. fold (remove_all files s1).
    rewrite Hd. destruct (decide (q = f)) as [->|Hne].
    + rewrite (decide_True (P := f ∈ f :: files)) by (by left). by case_decide.
    + destruct (decide (q ∈ files)); [by rewrite decide_True by (by right)|].
      rewrite decide_False; [by apply Hq|]. by intros [->|?]%elem_of_cons.
Qed.

(** A reset keeps what is on the medium. *)
Lemma reboot_ready ct w : seed_inv (wk w) →
  (has_file (wk w) DERIVED_KEY_CACHE_PATH → ∃ c,
     opened (wk w) DERIVED_KEY_CACHE_PATH CACHE_SIZE = Some (cache_bytes c) ∧ good ct (wk w) c) →
  wallet_inv ct (wallet_reboot w).
Proof.
  intros Hs Hf. pose proof Hs as (((Hl & Hk) & Hc & Hz) & Hsd).
  assert (Hfs : mk_fs (lfs (wkek_fs (wk w))) true = wkek_fs (wk w)).
  { destruct (wkek_fs (wk w)) as [l b]. cbn in *. by subst b. }
  unfold wallet_inv, wallet_reboot. rewrite Hfs. split_and!; [|done|exact Hf|done].
  split; [split_and!; [by split|done|exact Hz]|exact Hsd].
Qed.

(** The order of the removals: the cache before the seed, the key last. *)
Definition wipe_order_at (n : nat) : bool :=
  let gone f := bool_decide (f ∈ take n removed_files) in
  implb (gone SEED_PATH) (gone DERIVED_KEY_CACHE_PATH)
  && implb (gone WKEK_PATH) (gone SEED_PATH && gone DERIVED_KEY_CACHE_PATH).

Lemma wipe_order n :
  (SEED_PATH ∈ take n removed_files → DERIVED_KEY_CACHE_PATH ∈ take n removed_files)
  ∧ (WKEK_PATH ∈ take n removed_files →
       SEED_PATH ∈ take n removed_files ∧ DERIVED_KEY_CACHE_PATH ∈ take n removed_files).
Proof.
  assert (Hb : wipe_order_at n = true).
  { do 14 (destruct n as [|n]; [vm_compute; reflexivity|]).
    unfold wipe_order_at. rewrite take_ge by (simpl; lia). vm_compute. reflexivity. }
  unfold wipe_order_at in Hb. apply andb_true_iff in Hb as [Hb1 Hb2]. split; intros Hin.
  - rewrite bool_decide_true in Hb1 by done. by apply bool_decide_eq_true in Hb1.
  - rewrite bool_decide_true in Hb2 by done. apply andb_true_iff in Hb2 as [?%bool_decide_eq_true ?%bool_decide_eq_true].
    done.
Qed.

Lemma wipe_ready ct w n : wallet_inv ct w →
  wallet_inv ct (wallet_reboot (set_wk w (with_fs (wk w)
    (remove_all (take n removed_files) (wkek_fs (wk w)))))).
Proof.
  intros (Hs & Hv & Hf & _). pose proof Hs as ((Hr & Hc & Hz) & Hsd).
  destruct (removed_ready _ (take n removed_files) Hr) as [Hr' Hd].
  set (s' := remove_all _ _) in *.
  destruct (wipe_order n) as [Ho1 Ho2].
  apply reboot_ready; [split; [split_and!|]|]; cbn [set_wk wk with_fs wkek_fs].
  - done.
  - intros Hl d. cbn. rewrite Hd. case_decide; [done|]. by apply Hc.
  - cbn. intros d. rewrite Hd. case_decide; [done|]. apply Hz.
  - unfold has_file at 1. cbn. rewrite Hd. case_decide as Hcd; [by intros []|]. intros Hf1.
    destruct (Hsd Hf1) as (HW & sd & Hop & Hl). split.
    + unfold has_file. cbn. rewrite Hd, decide_False by tauto. done.
    + exists sd. split; [|done]. rewrite <- Hop. apply opened_ext; cbn; rewrite Hd, decide_False by tauto; done.
  - unfold has_file. cbn. rewrite Hd. case_decide as Hcd; [by intros []|]. intros Hf1.
    destruct (Hf Hf1) as (c & Hop & Hg). exists c. split.
    + rewrite <- Hop. apply opened_ext; cbn; rewrite Hd, decide_False by tauto; done.
    + destruct Hg as (? & ? & Hk). split_and!; [done|done|]. intros parts ??.
      destruct (Hk parts) as (m & (sd & Hsd' & Hm) & ?); [done|done|]. exists m. split; [|done]. exists sd.
      split; [|done]. rewrite <- Hsd'. apply opened_ext; cbn; rewrite Hd, decide_False by tauto; done.
Qed.

Lemma step_ready ct w ev : wallet_inv ct w → known_coin ct = true → ev_of_coin ct ev →
  safe (wallet_inv ct) (wallet_step w ev).
Proof.
  intros Hw Hct Hev. destruct ev as [p| | |n]; cbn [wallet_step].
  - eapply safe_bind; [by apply (derive_ready ct)|]. by intros [[ok key] w'] (? & _).
  - destruct Hw as (? & ? & ? & ?). by split_and!.
  - destruct Hw as (? & _ & ? & _). by apply reboot_ready.
  - by apply wipe_ready.
Qed.

Lemma run_ready ct evs w : wallet_inv ct w → known_coin ct = true → Forall (ev_of_coin ct) evs →
  safe (wallet_inv ct) (wallet_run w evs).
Proof.
  intros Hw Hct Hevs. revert w Hw. induction Hevs as [|ev evs Hev _ IH]; intros w Hw; [done|].
  cbn [wallet_run]. eapply safe_bind; [by apply (step_ready ct)|done].
Qed.

(** A device without files. *)
Definition factory w : Prop :=
  fs_ready (wkek_fs (wk w)) ∧ wkek_loaded (wk w) = false ∧ derived_key_cache w = boot_cache
  ∧ derived_key_cache_initialized w = false ∧ ∀ f, fs_data (wkek_fs (wk w)) f = None.

Lemma factory_inv ct w : factory w → wallet_inv ct w.
Proof.
  intros (Hs & Hl & Hc & Hi & Hf). split_and!; [split; [split_and!|]|by rewrite Hc| |by rewrite Hi].
  - done.
  - intros Hl'. congruence.
  - intros d. by rewrite Hf.
  - unfold has_file. rewrite Hf. by intros [].
  - unfold has_file. rewrite Hf. by intros [].
Qed.

(** C22: The key cache of a wallet of one network never gives a wrong key. After
    any sequence of key derivations at paths of one coin type, cache clears,
    reboots and wipes, complete or interrupted at any removal, on a device that
    started without files and whose medium has no errors ([LittlefsReliable]): a
    derivation through the cache, at a path of that coin type, stays within its
    memory, and a key that it returns is the key at that path below the master
    key of the seed that is stored now. With paths of both coin types it does
    not hold ([testnet_path_gets_mainnet_key]). *)
Theorem wallet_cache_sound (ct : coin_type_t) w0 evs w p o :
  factory w0 → known_coin ct = true → Forall (ev_of_coin ct) evs → path_of_coin ct p →
  wallet_run w0 evs = Done w →
  safe (λ '(ok, key, w'), ok = true → seed_key (wk w') p key) (wallet_derive_key_priv_using_cache w o p).
Proof.
  intros Hf Hct Hevs Hp Hrun. pose proof (run_ready ct evs w0 (factory_inv ct w0 Hf) Hct Hevs) as Hw.
  rewrite Hrun in Hw. eapply safe_mono; [by apply (derive_ready ct)|]. by intros [[ok key] w'] (_ & _ & ?).
Qed.
End WalletCache.

(** ** Examples *)

#[local] Existing Instance toy_secp.
#[local] Existing Instance toy_secp_laws.

Definition demo_wallet : wallet_ctx ram_fs Z :=
  mk_wallet (mk_wkek [] false ram_boot 3) boot_cache false.

Definition mainnet_receive (i : Z) : list Z := path BIP84_MAINNET_EXTERNAL ++ [i].
Definition testnet_receive (i : Z) : list Z := path BIP84_TESTNET_EXTERNAL ++ [i].

Lemma demo_factory : factory demo_wallet.
Proof. by split_and!. Qed.

(** Derive, reboot, derive through the stored cache. *)
Lemma wallet_cache_sound_witness :
  ∃ w, wallet_run demo_wallet [WDerive (mainnet_receive 4); WReboot] = Done w
    ∧ safe (λ '(ok, key, w'), ok = true → seed_key (wk w') (mainnet_receive 9) key)
        (wallet_derive_key_priv_using_cache w zero_key (mainnet_receive 9)).
Proof.
  eexists. split; [vm_compute; reflexivity|].
  eapply (wallet_cache_sound COIN_TYPE_MAINNET demo_wallet [WDerive (mainnet_receive 4); WReboot]).
  - exact demo_factory.
  - reflexivity.
  - repeat constructor.
  - left. reflexivity.
  - vm_compute. reflexivity.
Defined.

(** The result of a derivation after a sequence of calls. *)
Definition key_after (evs : list wallet_ev) (p : list Z) : outcome (bool * extended_key_t) :=
  let! w := wallet_run demo_wallet evs in
  let! '(ok, key, _) := wallet_derive_key_priv_using_cache w zero_key p in Done (ok, key).

Example cached_key_after_reboot :
  key_after [WDerive (mainnet_receive 4); WReboot] (mainnet_receive 9)
  = key_after [WDerive (mainnet_receive 4); WClear; WReboot] (mainnet_receive 9)
  ∧ key_after [WDerive (mainnet_receive 4); WReboot] (mainnet_receive 9) ≠ Abort.
Proof. split; [vm_compute; reflexivity|vm_compute; discriminate]. Qed.

(** The cache is not keyed by the coin type: once it holds the keys of one
    network, a path of the other network gets a key of the first. *)
Example testnet_path_gets_mainnet_key :
  ∃ key, key_after [WDerive (mainnet_receive 4)] (testnet_receive 9) = Done (true, key)
    ∧ key_after [WDerive (mainnet_receive 4)] (mainnet_receive 9) = Done (true, key)
    ∧ key_after [] (testnet_receive 9) ≠ Done (true, key).
Proof.
  eexists. split; [vm_compute; reflexivity|]. split; [vm_compute; reflexivity|].
  vm_compute. discriminate.
Qed.

(** A file system in memory whose next read can fail with an I/O error. *)
Record flaky_fs := mk_flaky { fail_next_read : bool; flaky_ram : ram_fs }.

Definition on_ram (l : flaky_fs) (r : Z * ram_fs) : Z * flaky_fs :=
  (r.1, mk_flaky (fail_next_read l) r.2).

#[global] Instance flaky_ops : Littlefs flaky_fs := {
  lfs_file_opencfg l h p flags := on_ram l (lfs_file_opencfg (flaky_ram l) h p flags);
  lfs_file_close l h := on_ram l (lfs_file_close (flaky_ram l) h);
  lfs_file_read l h n :=
    if fail_next_read l then (-5, [], mk_flaky false (flaky_ram l))
    else let '(r, bs, l') := lfs_file_read (flaky_ram l) h n in (r, bs, mk_flaky false l');
  lfs_file_write l h bs := on_ram l (lfs_file_write (flaky_ram l) h bs);
  lfs_file_size l h := lfs_file_size (flaky_ram l) h;
  lfs_file_seek l h off whence := on_ram l (lfs_file_seek (flaky_ram l) h off whence);
  lfs_remove l p := on_ram l (lfs_remove (flaky_ram l) p);
  lfs_stat l p := lfs_stat (flaky_ram l) p;
  lfs_data l p := lfs_data (flaky_ram l) p;
  lfs_open_at l h := lfs_open_at (flaky_ram l) h;
}.

#[global] Instance flaky_laws : LittlefsLaws flaky_fs.
Proof.
  split; cbn [lfs_file_opencfg lfs_file_close lfs_file_read lfs_file_write lfs_file_size lfs_file_seek
    lfs_remove lfs_stat lfs_data lfs_open_at flaky_ops].
  - intros l h p flags r l' [= <- <-]. eapply law_open. apply surjective_pairing.
  - intros l h n p pos d r bs l' Ho Hn Hp E. destruct (fail_next_read l).
    + injection E as <- <- <-. cbn [flaky_ram zlen length]. rewrite Z.add_0_r. by split_and!.
    + destruct (lfs_file_read (flaky_ram l) h n) as [[r0 bs0] l0] eqn:Er. injection E as <- <- <-.
      by eapply law_read.
  - intros l h n r bs l' E. destruct (fail_next_read l); [by injection E as <- _ _|].
    destruct (lfs_file_read (flaky_ram l) h n) as [[r0 bs0] l0] eqn:Er. injection E as <- _ _.
    by eapply law_read_range.
  - intros l h bs p pos d r l' Ho Hp [= <- <-]. eapply law_fwrite; [done|done|]. apply surjective_pairing.
  - intros l h p pos d. apply law_size.
  - intros l h off whence p pos d r l' Ho [= <- <-]. eapply law_seek; [done|]. apply surjective_pairing.
  - intros l h p pos d r l' Ho [= <- <-]. eapply law_close; [done|]. apply surjective_pairing.
  - intros l p r l' [= <- <-]. eapply law_remove. apply surjective_pairing.
  - intros l p n. apply law_stat.
Qed.

(** One failed read of the seed file replaces the seed: the firmware takes any
    failure to read it for a device without a seed. *)
Definition flaky_wallet : wallet_ctx flaky_fs Z :=
  mk_wallet (mk_wkek [] false (mk_fs (Some (mk_flaky false (mk_ram [] None None None))) true) 3)
    boot_cache false.

Definition break_next_read (w : wallet_ctx flaky_fs Z) : wallet_ctx flaky_fs Z :=
  let s := wkek_fs (wk w) in
  set_wk w (with_fs (wk w) (mk_fs (option_map (λ l, mk_flaky true (flaky_ram l)) (lfs s))
              (g_file_access_lock s))).

Example read_error_replaces_seed :
  ∃ k1 k2 w1 w2, wallet_derive_key_priv_using_cache flaky_wallet zero_key [0] = Done (true, k1, w1)
    ∧ wallet_derive_key_priv_using_cache (break_next_read w1) zero_key [0] = Done (true, k2, w2)
    ∧ opened (wk w1) SEED_PATH SEED_SIZE ≠ opened (wk w2) SEED_PATH SEED_SIZE ∧ k1 ≠ k2.
Proof.
  eexists _, _, _, _. split; [vm_compute; reflexivity|]. split; [vm_compute; reflexivity|].
  split; vm_compute; discriminate.
Qed.
