(* ===== verification/WalletAddr.v ===== *)
(** * Scripts and addresses of the wallet (lib/wallet/src/wallet_address.c)

    The wallet is a 2-of-3 of the keys of the app, the hardware and the server.
    The keyset has the public account keys; from them the firmware derives the
    script of a path, the address it shows and the check that an output that
    the app calls change comes back to the wallet. The script and address
    encodings are calls of libew, a third-party library: the class [Ew]. *)

From S2P Require Import Prelude Sha256 Wstring Bip32 WalletKeys.

(** [xpub_t] and [wallet_keyset_t] of wallet.h. *)
Record xpub_t := mk_xpub {
  xpub_pubkey : list Z;
  xpub_chaincode : list Z;
}.

Record wallet_keyset_t := mk_keyset {
  ks_version : Z;
  ks_network : Z;
  ks_account_index : Z;
  ks_app : xpub_t;
  ks_hw : xpub_t;
  ks_server : xpub_t;
}.

Definition WALLET_KEYSET_VERSION : Z := 2.
Definition WALLET_KEYSET_SIZE : Z := 3 + 3 * 65.
Definition WALLET_KEYSET_ACCOUNT_DEPTH : Z := 3.
Definition NETWORK_MAINNET : Z := 0.
Definition NETWORK_TESTNET : Z := 1.
Definition WALLET_MIN_CHANGE_PATH_LEN : Z := WALLET_KEYSET_ACCOUNT_DEPTH + 2.
Definition WALLET_MAX_CHANGE_PATH_LEN : Z := 10.
Definition MAX_MULTISIG_SCRIPT_SIZE : Z := 256.
Definition MAX_WITNESS_PROGRAM_SIZE : Z := 34.
Definition BIP84_PURPOSE : Z := hardened 84.
Definition BIP84_COIN_MAINNET : Z := hardened 0.
Definition BIP84_COIN_TESTNET : Z := hardened 1.

(** The packed structs. *)
Definition xpub_bytes (x : xpub_t) : list Z := xpub_pubkey x ++ xpub_chaincode x.
Definition xpub_of_bytes (l : list Z) : xpub_t := mk_xpub (ztake 33 l) (ztake 32 (zdrop 33 l)).
Definition keyset_bytes (k : wallet_keyset_t) : list Z :=
  ks_version k :: ks_network k :: ks_account_index k
    :: xpub_bytes (ks_app k) ++ xpub_bytes (ks_hw k) ++ xpub_bytes (ks_server k).
Definition keyset_of_bytes (l : list Z) : wallet_keyset_t :=
  mk_keyset (nth 0 l 0) (nth 1 l 0) (nth 2 l 0) (xpub_of_bytes (zdrop 3 l))
    (xpub_of_bytes (zdrop 68 l)) (xpub_of_bytes (zdrop 133 l)).

Inductive ew_network_t := EW_NETWORK_MAINNET | EW_NETWORK_TESTNET.
#[global] Instance ew_network_eq_dec : EqDecision ew_network_t.
Proof. solve_decision. Defined.

Definition keyset_network (k : wallet_keyset_t) : ew_network_t :=
  if ks_network k =? NETWORK_MAINNET then EW_NETWORK_MAINNET else EW_NETWORK_TESTNET.

(** [None] is a result other than [EW_OK]; the last argument of each call is
    the size of its output buffer. *)
Class Ew := {
  ew_multisig_witness_script_from_pubkeys : list Z → Z → bool → Z → option (list Z);
  ew_p2wsh_scriptpubkey_from_witness : list Z → Z → option (list Z);
  ew_script_to_address : list Z → ew_network_t → Z → option (list Z);
}.

(** The output fits its buffer, an address with the NUL that ends it; the
    program is a string of bytes. *)
Class EwLaws `{Ew} : Prop := {
  law_ew_script pks t b n s : ew_multisig_witness_script_from_pubkeys pks t b n = Some s → zlen s ≤ n;
  law_ew_p2wsh s n spk : ew_p2wsh_scriptpubkey_from_witness s n = Some spk →
    0 < zlen spk ≤ n ∧ bytes_ok spk;
  law_ew_address spk net n a : ew_script_to_address spk net n = Some a → zlen a < n;
}.

(** [x & ~BIP32_HARDENED_BIT] on 32 bits. *)
Definition unhardened (x : Z) : Z := Z.land x 0x7fffffff.

Section WalletAddr.
Context `{Secp} `{Ew}.

(** The key of an xpub as the parent of a derivation. *)
Definition xpub_key (x : xpub_t) : outcome extended_key_t :=
  let! p := aget (xpub_pubkey x) 0 in
  let! k := mread (xpub_pubkey x) 1 BIP32_KEY_SIZE in
  let! c := mread (xpub_chaincode x) 0 BIP32_CHAINCODE_SIZE in
  Done (mk_key p k c).

Definition derive_child_pubkey_for_output (parent : xpub_t) (full_path : list Z) (account_depth : Z)
    : outcome (option (list Z)) :=
  if zlen full_path <=? account_depth then Done None
  else
    let! k := xpub_key parent in
    let! '(ok, child) := bip32_derive_path_pub k (zdrop account_depth full_path) in
    Done (if ok : bool then Some (sec1 child) else None).

(** The full path without its hardened bits, at account 0. *)
Definition server_path (p : list Z) : outcome (list Z) := aset (map unhardened p) 2 0.

Definition wallet_derive_p2wsh_scriptpubkey (keyset : wallet_keyset_t) (p : list Z) (buf_len : Z)
    : outcome (option (list Z)) :=
  if buf_len =? 0 then Done None
  else if negb (ks_version keyset =? WALLET_KEYSET_VERSION) then Done None
  else if (zlen p <? WALLET_MIN_CHANGE_PATH_LEN) || (WALLET_MAX_CHANGE_PATH_LEN <? zlen p)
  then Done None
  else
    let expected_coin := if ks_network keyset =? NETWORK_MAINNET then BIP84_COIN_MAINNET
                         else BIP84_COIN_TESTNET in
    let! p0 := aget p 0 in
    if negb (p0 =? BIP84_PURPOSE) then Done None
    else
      let! p1 := aget p 1 in
      if negb (p1 =? expected_coin) then Done None
      else
        let! p2 := aget p 2 in
        if negb (is_hardened p2) then Done None
        else if negb (unhardened p2 =? ks_account_index keyset) then Done None
        else
          let! p3 := aget p 3 in
          if 1 <? p3 then Done None
          else if existsb is_hardened (zdrop 3 p) then Done None
          else
            let! sp := server_path p in
            let! app := derive_child_pubkey_for_output (ks_app keyset) p WALLET_KEYSET_ACCOUNT_DEPTH in
            match app with
            | None => Done None
            | Some app_child =>
                let! hw := derive_child_pubkey_for_output (ks_hw keyset) p WALLET_KEYSET_ACCOUNT_DEPTH in
                match hw with
                | None => Done None
                | Some hw_child =>
                    let! server := derive_child_pubkey_for_output (ks_server keyset) sp 0 in
                    match server with
                    | None => Done None
                    | Some server_child =>
                        match ew_multisig_witness_script_from_pubkeys
                                (app_child ++ server_child ++ hw_child) 2 true MAX_MULTISIG_SCRIPT_SIZE with
                        | None => Done None
                        | Some script => Done (ew_p2wsh_scriptpubkey_from_witness script buf_len)
                        end
                    end
                end
            end.

Definition wallet_change_output_belongs_to_policy (keyset : wallet_keyset_t) (p spk : list Z)
    : outcome bool :=
  if zlen spk =? 0 then Done false
  else
    let! r := wallet_derive_p2wsh_scriptpubkey keyset p MAX_WITNESS_PROGRAM_SIZE in
    match r with
    | None => Done false
    | Some expected_spk =>
        if negb (zlen spk =? zlen expected_spk) then Done false
        else let! c := memcmp_s spk expected_spk (zlen expected_spk) in Done (c =? 0)
    end.

Definition receive_path (keyset : wallet_keyset_t) (address_index : Z) : list Z :=
  [BIP84_PURPOSE;
   if ks_network keyset =? NETWORK_MAINNET then BIP84_COIN_MAINNET else BIP84_COIN_TESTNET;
   hardened (ks_account_index keyset); 0; address_index].

Definition wallet_derive_address (keyset : wallet_keyset_t) (address_index address_len : Z)
    : outcome (wallet_res_t * option (list Z)) :=
  if address_len =? 0 then Done (WALLET_RES_ERR, None)
  else if BIP32_HARDENED_BIT <=? address_index then Done (WALLET_RES_ERR, None)
  else
    let! r := wallet_derive_p2wsh_scriptpubkey keyset (receive_path keyset address_index)
                MAX_WITNESS_PROGRAM_SIZE in
    match r with
    | None => Done (WALLET_RES_ERR, None)
    | Some spk =>
        match ew_script_to_address spk (keyset_network keyset) address_len with
        | None => Done (WALLET_RES_ERR, None)
        | Some address => Done (WALLET_RES_OK, Some address)
        end
    end.
(** ** What an accepted change output is *)

Definition coin_of (keyset : wallet_keyset_t) : Z :=
  if ks_network keyset =? NETWORK_MAINNET then BIP84_COIN_MAINNET else BIP84_COIN_TESTNET.

(** A path of the current account: m/84'/coin'/account'/0..1/... *)
Definition policy_path (keyset : wallet_keyset_t) (p : list Z) : Prop :=
  WALLET_MIN_CHANGE_PATH_LEN ≤ zlen p ≤ WALLET_MAX_CHANGE_PATH_LEN
  ∧ p !! 0%nat = Some BIP84_PURPOSE ∧ p !! 1%nat = Some (coin_of keyset)
  ∧ (∃ a, p !! 2%nat = Some a ∧ is_hardened a = true ∧ unhardened a = ks_account_index keyset)
  ∧ (∃ c, p !! 3%nat = Some c ∧ c ≤ 1)
  ∧ forallb (negb ∘ is_hardened) (zdrop 3 p) = true.

(** The three child keys of a path, and the P2WSH program of their 2-of-3. *)
Definition child_key (x : xpub_t) (suffix : list Z) (c : extended_key_t) : Prop :=
  ∃ k, xpub_key x = Done k ∧ bip32_derive_path_pub k suffix = Done (true, c).

Definition wallet_script (keyset : wallet_keyset_t) (p : list Z) (buf_len : Z)
    (app hw server : extended_key_t) (spk : list Z) : Prop :=
  child_key (ks_app keyset) (zdrop 3 p) app ∧ child_key (ks_hw keyset) (zdrop 3 p) hw
  ∧ child_key (ks_server keyset) (<[2%nat := 0]> (map unhardened p)) server
  ∧ ∃ script, ew_multisig_witness_script_from_pubkeys (sec1 app ++ sec1 server ++ sec1 hw) 2 true
                MAX_MULTISIG_SCRIPT_SIZE = Some script
      ∧ ew_p2wsh_scriptpubkey_from_witness script buf_len = Some spk.

Lemma aget_lookup {A} (l : list A) (i : nat) x : l !! i = Some x → aget l (Z.of_nat i) = Done x.
Proof. intros Hl. apply aget_Some; [lia|]. by rewrite Nat2Z.id. Qed.

Lemma aget_inv {A} (l : list A) (i : nat) x : aget l (Z.of_nat i) = Done x → l !! i = Some x.
Proof. unfold aget. zdecide. rewrite Nat2Z.id. destruct (l !! i); [by intros [= ->]|done]. Qed.

Lemma existsb_forallb {A} (f : A → bool) l : existsb f l = negb (forallb (negb ∘ f) l).
Proof. induction l as [|x l IH]; simpl; [done|]. rewrite IH. by destruct (f x). Qed.

Lemma derive_child_iff x q d r :
  derive_child_pubkey_for_output x q d = Done (Some r)
  ↔ d < zlen q ∧ ∃ c, child_key x (zdrop d q) c ∧ r = sec1 c.
Proof.
  unfold derive_child_pubkey_for_output, child_key. destruct (zlen q <=? d) eqn:El; btest.
  - split; [done|]. intros [? _]. lia.
  - split.
    + intros (k & Ek & ([ok c] & Ec & E)%obind_inv)%obind_inv. destruct ok; [|done].
      injection E as <-. split; [done|]. eauto.
    + intros [_ (c & (k & -> & Ec) & ->)]. cbn [obind]. by rewrite Ec.
Qed.

(** The path that the server key is derived along. *)
Lemma server_path_done p : 5 ≤ zlen p →
  server_path p = Done (<[2%nat := 0]> (map unhardened p)) ∧ zlen (<[2%nat := 0]> (map unhardened p)) = zlen p.
Proof.
  intros. unfold server_path, zlen in *. rewrite aset_done, length_insert, length_map; [done|].
  unfold zlen. rewrite length_map. lia.
Qed.

Lemma derive_spk_sound keyset p n spk :
  wallet_derive_p2wsh_scriptpubkey keyset p n = Done (Some spk) →
  n ≠ 0 ∧ ks_version keyset = WALLET_KEYSET_VERSION ∧ policy_path keyset p
  ∧ ∃ app hw server, wallet_script keyset p n app hw server spk.
Proof.
  unfold wallet_derive_p2wsh_scriptpubkey. fold (coin_of keyset).
  destruct (n =? 0) eqn:En; [done|]. destruct (ks_version keyset =? _) eqn:Ev; cbn [negb]; [|done].
  destruct (_ || _) eqn:El; [done|]. apply orb_false_iff in El as [El1 El2].
  intros (p0 & E0%(aget_inv p 0) & E)%obind_inv. destruct (p0 =? BIP84_PURPOSE) eqn:Ep0; [|done].
  cbn [negb] in E. apply obind_inv in E as (p1 & E1%(aget_inv p 1) & E).
  destruct (p1 =? coin_of keyset) eqn:Ep1; [|done]. cbn [negb] in E.
  apply obind_inv in E as (p2 & E2%(aget_inv p 2) & E). destruct (is_hardened p2) eqn:Eh; [|done].
  cbn [negb] in E. destruct (unhardened p2 =? ks_account_index keyset) eqn:Ea; [|done]. cbn [negb] in E.
  apply obind_inv in E as (p3 & E3%(aget_inv p 3) & E). destruct (1 <? p3) eqn:Ep3; [done|].
  rewrite existsb_forallb in E. destruct (forallb _ (zdrop 3 p)) eqn:Ef; [|done]. cbn [negb] in E.
  btest. subst. change WALLET_MIN_CHANGE_PATH_LEN with 5 in *.
  destruct (server_path_done p) as [Hsp _]; [lia|]. rewrite Hsp in E. cbn [obind] in E.
  apply obind_inv in E as ([app|] & Happ & E); [|done].
  apply obind_inv in E as ([hw|] & Hhw & E); [|done].
  apply obind_inv in E as ([server|] & Hserver & E); [|done].
  destruct (ew_multisig_witness_script_from_pubkeys _ _ _ _) as [script|] eqn:Es; [|done].
  injection E as E. apply derive_child_iff in Happ as (_ & ca & Ha & ->), Hhw as (_ & ch & Hh & ->),
    Hserver as (_ & cs & Hs & ->).
  split_and!; [done|done| |].
  - unfold policy_path. change WALLET_MIN_CHANGE_PATH_LEN with 5. split_and!; eauto.
  - exists ca, ch, cs. split_and!; [done|done|done|eauto].
Qed.

Lemma derive_spk_complete keyset p n spk app hw server :
  n ≠ 0 → ks_version keyset = WALLET_KEYSET_VERSION → policy_path keyset p →
  wallet_script keyset p n app hw server spk →
  wallet_derive_p2wsh_scriptpubkey keyset p n = Done (Some spk).
Proof.
  intros Hn Hv (Hl & E0 & E1 & (a & E2 & Eh & Ea) & (c & E3 & Ec) & Ef) (Ha & Hh & Hs & script & Es & Ep).
  change WALLET_MIN_CHANGE_PATH_LEN with 5 in Hl. change WALLET_MAX_CHANGE_PATH_LEN with 10 in Hl.
  unfold wallet_derive_p2wsh_scriptpubkey. fold (coin_of keyset). rewrite Hv.
  change WALLET_MIN_CHANGE_PATH_LEN with 5. change WALLET_MAX_CHANGE_PATH_LEN with 10. zdecide.
  cbn [orb negb]. rewrite (aget_lookup p 0 _ E0 : aget p 0 = _). cbn [obind]. rewrite Z.eqb_refl. cbn [negb].
  rewrite (aget_lookup p 1 _ E1 : aget p 1 = _). cbn [obind]. rewrite Z.eqb_refl. cbn [negb].
  rewrite (aget_lookup p 2 _ E2 : aget p 2 = _). cbn [obind]. rewrite Eh, Ea, Z.eqb_refl. cbn [negb].
  rewrite (aget_lookup p 3 _ E3 : aget p 3 = _). cbn [obind]. zdecide.
  rewrite existsb_forallb, Ef. cbn [negb]. destruct (server_path_done p) as [-> Hsl]; [lia|]. cbn [obind].
  assert (Hd : ∀ x k, child_key x (zdrop 3 p) k →
    derive_child_pubkey_for_output x p WALLET_KEYSET_ACCOUNT_DEPTH = Done (Some (sec1 k))).
  { intros x k Hk. apply derive_child_iff. unfold WALLET_KEYSET_ACCOUNT_DEPTH. split; [lia|eauto]. }
  rewrite (Hd _ _ Ha), (Hd _ _ Hh). cbn [obind].
  rewrite (proj2 (derive_child_iff (ks_server keyset) _ 0 (sec1 server))); [|rewrite Hsl; split; [lia|eauto]].
  cbn [obind]. by rewrite Es, Ep.
Qed.

Context `{!EwLaws}.

Lemma policy_accepts keyset p spk : bytes_ok spk →
  wallet_change_output_belongs_to_policy keyset p spk = Done true →
  ks_version keyset = WALLET_KEYSET_VERSION ∧ policy_path keyset p
  ∧ ∃ app hw server, wallet_script keyset p MAX_WITNESS_PROGRAM_SIZE app hw server spk.
Proof.
  intros Hb. unfold wallet_change_output_belongs_to_policy.
  destruct (zlen spk =? 0); [done|]. intros ([e|] & Ee & E)%obind_inv; [|done].
  destruct (zlen spk =? zlen e) eqn:El; [|done]. cbn [negb] in E. btest.
  apply derive_spk_sound in Ee as (_ & Hv & Hp & app & hw & server & Hs).
  pose proof Hs as (_ & _ & _ & script & _ & Hep). apply law_ew_p2wsh in Hep as [_ Hbe].
  rewrite <- El in E. destruct (memcmp_s_zero spk e) as (r & Er & Hr); [unfold zlen in El; lia|done|done|].
  rewrite Er in E. cbn [obind] in E. injection E as E%Z.eqb_eq. apply Hr in E as ->. eauto 10.
Qed.

(** C21: An output that the app declares as change is hidden from the user only
    if it comes back to the wallet: the check accepts a script exactly when the
    path is one of the current account of the keyset (BIP84, the network of the
    keyset, chain 0 or 1, nothing hardened below the account, 5 to 10 levels)
    and the script is the P2WSH program of the 2-of-3 of the app, hardware and
    server keys at that path. *)
Theorem change_policy_exact keyset p spk : bytes_ok spk →
  wallet_change_output_belongs_to_policy keyset p spk = Done true
  ↔ ks_version keyset = WALLET_KEYSET_VERSION ∧ policy_path keyset p
    ∧ ∃ app hw server, wallet_script keyset p MAX_WITNESS_PROGRAM_SIZE app hw server spk.
Proof.
  intros Hb. split; [by apply policy_accepts|]. unfold wallet_change_output_belongs_to_policy.
  intros (Hv & Hp & app & hw & server & Hs). pose proof Hs as (_ & _ & _ & script & _ & Hep).
  apply law_ew_p2wsh in Hep as [Hl _]. zdecide.
  rewrite (derive_spk_complete keyset p MAX_WITNESS_PROGRAM_SIZE spk app hw server) by done. cbn [obind].
  rewrite Z.eqb_refl. cbn [negb]. destruct (memcmp_s_zero spk spk) as (r & -> & Hr); [done..|].
  cbn [obind]. f_equal. apply Z.eqb_eq. by apply Hr.
Qed.

(** ** The device can sign for its outputs *)

(** A hardened index is its value with the top bit. *)
Lemma hardened_split a : 0 ≤ a < 2 ^ 32 → is_hardened a = true → hardened (unhardened a) = a.
Proof.
  intros Ha Hh. unfold hardened, unhardened, is_hardened, BIP32_HARDENED_BIT in *.
  change 0x80000000 with (2 ^ 31) in *. change 0x7fffffff with (Z.ones 31).
  assert (H31 : Z.testbit a 31 = true).
  { destruct (Z.testbit a 31) eqn:Eb; [done|]. exfalso. apply negb_true_iff, Z.eqb_neq in Hh. apply Hh.
    apply Z.bits_inj'. intros k Hk. rewrite Z.land_spec, Z.bits_0, Z.pow2_bits_eqb by lia.
    destruct (31 =? k) eqn:E; [|apply andb_false_r]. btest. subst. by rewrite Eb. }
  apply Z.bits_inj'. intros k Hk. rewrite Z.lor_spec, Z.land_spec, Z.pow2_bits_eqb by lia.
  destruct (31 =? k) eqn:E; btest.
  - subst. by rewrite H31, orb_true_r.
  - rewrite orb_false_r. destruct (Z.lt_ge_cases k 31) as [Hlt|Hge].
    + rewrite Z.ones_spec_low by lia. apply andb_true_r.
    + rewrite Z.ones_spec_high by lia. rewrite andb_false_r. symmetry.
      rewrite <- (Z.mod_small a (2 ^ 32)) by done. apply Z.mod_pow2_bits_high. lia.
Qed.

(** The hardware key of the keyset is the account key below master key [m]. *)
Definition hw_account (keyset : wallet_keyset_t) (m : extended_key_t) : Prop :=
  ∃ acct pub, derive_priv_loop m None [BIP84_PURPOSE; coin_of keyset; hardened (ks_account_index keyset)]
                = Done (true, acct, None)
    ∧ bip32_priv_to_pub acct zero_key = Done (true, pub) ∧ xpub_key (ks_hw keyset) = Done pub.

Lemma policy_path_split keyset p : policy_path keyset p → Forall (λ x, 0 ≤ x < 2 ^ 32) p →
  p = [BIP84_PURPOSE; coin_of keyset; hardened (ks_account_index keyset)] ++ zdrop 3 p.
Proof.
  intros (_ & E0 & E1 & (a & E2 & Eh & Ea) & _) Hr. destruct p as [|p0 [|p1 [|p2 p]]]; try done.
  cbn in E0, E1, E2. injection E0 as ->. injection E1 as ->. injection E2 as ->. rewrite <- Ea.
  rewrite hardened_split; [done| |done]. rewrite !Forall_cons in Hr. tauto.
Qed.

Context `{!SecpLaws}.

(** The hardware key of the script belongs to the private key at the path. *)
Lemma script_spendable keyset m p n spk key app hw server : Forall (λ x, 0 ≤ x < 2 ^ 32) p →
  hw_account keyset m → policy_path keyset p → wallet_script keyset p n app hw server spk →
  derive_priv_loop m None p = Done (true, key, None) → neuter key hw.
Proof.
  intros Hr (acct & pub & Ha & Hpub%priv_to_pub_neuter & Hx) Hp (_ & (k & Hk & Hd) & _) Hkey.
  rewrite Hx in Hk. injection Hk as <-. apply assert_bind in Hd as [_ Hd].
  rewrite (policy_path_split _ _ Hp Hr), derive_priv_app, Ha in Hkey. cbn [obind] in Hkey.
  destruct Hp as (_ & _ & _ & _ & _ & Hf).
  destruct (derive_neuter _ _ _ _ _ Hpub Hf Hkey) as (C & HC & HN). rewrite HC in Hd. by injection Hd as ->.
Qed.

(** The coins that the wallet keeps can be spent with the device: when the
    hardware key of the keyset is the account key of the device's seed, an
    accepted change output (or receive address) pays to a script whose hardware
    key is the public key of the private key that the device derives from its
    master key at that path. *)
Theorem change_output_spendable keyset m p spk key : bytes_ok spk → Forall (λ x, 0 ≤ x < 2 ^ 32) p →
  hw_account keyset m →
  wallet_change_output_belongs_to_policy keyset p spk = Done true →
  derive_priv_loop m None p = Done (true, key, None) →
  ∃ app hw server, wallet_script keyset p MAX_WITNESS_PROGRAM_SIZE app hw server spk
    ∧ bip32_priv_to_pub key zero_key = Done (true, hw).
Proof.
  intros Hb Hr Ha (_ & Hp & app & hw & server & Hs)%policy_accepts Hkey; [|done].
  exists app, hw, server. split; [done|]. apply priv_to_pub_neuter. by eapply script_spendable.
Qed.
End WalletAddr.

(** ** A toy script encoding *)

(** The script is the sorted flag, the threshold and the keys; the program is
    the length and the hash of the script; the address is the program. *)
Definition toy_ew : Ew := {|
  ew_multisig_witness_script_from_pubkeys pks t b n :=
    let s := t :: (if b then 1 else 0) :: pks in if zlen s <=? n then Some s else None;
  ew_p2wsh_scriptpubkey_from_witness s n :=
    let spk := [0; 32] ++ replicate 32 (toy_hash s mod 256) in if zlen spk <=? n then Some spk else None;
  ew_script_to_address spk net n :=
    let a := (if decide (net = EW_NETWORK_MAINNET) then 98 else 116) :: spk in
    if (0 <? zlen spk) && (zlen a <? n) then Some a else None;
|}.
#[local] Existing Instance toy_ew.

Lemma toy_program_bytes h : bytes_ok ([0; 32] ++ replicate 32 (h mod 256)).
Proof.
  apply Forall_app. split; [by apply is_byte_ok|]. apply Forall_replicate.
  apply Z.mod_pos_bound. lia.
Qed.

Lemma toy_ew_laws : EwLaws.
Proof.
  split; simpl.
  - intros pks t b n s. destruct (_ <=? _) eqn:E; [|done]. intros [= <-]. by btest.
  - intros s n spk. destruct (_ <=? _) eqn:E; [|done]. intros [= <-]. btest.
    split; [split; [done|exact E]|]. apply (toy_program_bytes (toy_hash s)).
  - intros spk net n a. destruct (_ && _) eqn:E; [|done]. intros [= <-]. by btest.
Qed.

#[local] Existing Instance toy_ew_laws.
#[local] Existing Instance toy_secp.
#[local] Existing Instance toy_secp_laws.

(** A device whose master key is [demo_key], and its keyset. *)
Definition demo_acct (coin a : Z) : extended_key_t :=
  match derive_priv_loop demo_key None [BIP84_PURPOSE; hardened coin; hardened a] with
  | Done (_, k, _) => k
  | _ => zero_key
  end.

Definition xpub_of (k : extended_key_t) : xpub_t :=
  match bip32_priv_to_pub k zero_key with
  | Done (_, p) => mk_xpub (sec1 p) (chaincode p)
  | _ => mk_xpub [] []
  end.

Definition demo_keyset : wallet_keyset_t :=
  mk_keyset WALLET_KEYSET_VERSION NETWORK_MAINNET 1
    (xpub_of (mk_key 0 (replicate 32 11) (replicate 32 12))) (xpub_of (demo_acct 0 1))
    (xpub_of (mk_key 0 (replicate 32 13) (replicate 32 14))).

Definition demo_change_path : list Z := [BIP84_PURPOSE; BIP84_COIN_MAINNET; hardened 1; 1; 8].

Definition demo_change_spk : list Z :=
  match wallet_derive_p2wsh_scriptpubkey demo_keyset demo_change_path MAX_WITNESS_PROGRAM_SIZE with
  | Done (Some spk) => spk
  | _ => []
  end.

Lemma demo_change_spk_bytes : bytes_ok demo_change_spk.
Proof. apply is_byte_ok. vm_compute. reflexivity. Qed.

Lemma change_policy_exact_witness :
  wallet_change_output_belongs_to_policy demo_keyset demo_change_path demo_change_spk = Done true
  ∧ policy_path demo_keyset demo_change_path.
Proof.
  split; [vm_compute; reflexivity|].
  apply (change_policy_exact demo_keyset demo_change_path demo_change_spk demo_change_spk_bytes).
  vm_compute. reflexivity.
Defined.

Lemma demo_hw_account : hw_account demo_keyset demo_key.
Proof. eexists _, _. split; [vm_compute; reflexivity|]. split; vm_compute; reflexivity. Qed.

Lemma change_output_spendable_witness :
  ∃ key, derive_priv_loop demo_key None demo_change_path = Done (true, key, None)
    ∧ ∃ app hw server,
        wallet_script demo_keyset demo_change_path MAX_WITNESS_PROGRAM_SIZE app hw server demo_change_spk
        ∧ bip32_priv_to_pub key zero_key = Done (true, hw).
Proof.
  eexists. split; [vm_compute; reflexivity|].
  eapply (change_output_spendable demo_keyset demo_key demo_change_path demo_change_spk).
  - exact demo_change_spk_bytes.
  - repeat constructor; unfold BIP84_PURPOSE, BIP84_COIN_MAINNET, hardened; vm_compute; congruence.
  - exact demo_hw_account.
  - vm_compute. reflexivity.
  - vm_compute. reflexivity.
Defined.
