(* ===== verification/Psbt.v ===== *)
(** * Transactions (lib/psbt)

    psbt.c: what is shown to the user about a transaction, the BIP143 digest
    that is signed, from all fields or from the intermediate hashes of a
    streamed transaction, and the hash that binds a confirmation to its
    session. An array of transaction parts is the list of the first [count]
    parts; a buffer with a length is the whole buffer and the length. *)

From S2P Require Import Prelude Sha256 WalletAddr.

Definition u64 (x : Z) : Z := x mod 2 ^ 64.
Definition UINT64_MAX : Z := 2 ^ 64 - 1.

Definition DESTINATION_ADDRESS_MAX_LEN : Z := 91.
Definition PSBT_P2WSH_PUBKEY_LEN : Z := 33.
Definition PSBT_P2WSH_MAX_KEYPATHS : Z := 3.
Definition PSBT_P2WSH_WITNESS_SCRIPT_MAX_LEN : Z := 128.
Definition PSBT_BIP32_PATH_MAX_LEN : Z := 10.
Definition PSBT_SIGHASH_ALL : Z := 1.
Definition RAW_TX_MAX_INPUTS : Z := 5.
Definition RAW_TX_MAX_OUTPUTS : Z := 2.
Definition SPK_BUFFER_SIZE : Z := 64.

Inductive psbt_error_t :=
| PSBT_OK
| PSBT_ERROR_INVALID_PARAM
| PSBT_ERROR_PARSE_FAILED
| PSBT_ERROR_MISSING_UTXO
| PSBT_ERROR_INVALID_SHAPE
| PSBT_ERROR_ADDRESS_FAILED
| PSBT_ERROR_INVALID_KEYPATH
| PSBT_ERROR_SCRIPT_MISMATCH
| PSBT_ERROR_SIGHASH_FAILED.
#[global] Instance psbt_error_eq_dec : EqDecision psbt_error_t.
Proof. solve_decision. Defined.

Record psbt_info_t := mk_info {
  has_destination : bool;
  destination_address : list Z;
  send_amount_sats : Z;
  change_amount_sats : Z;
  fee_amount_sats : Z;
}.
#[global] Instance psbt_info_eq_dec : EqDecision psbt_info_t.
Proof. solve_decision. Defined.

Definition info_zero : psbt_info_t := mk_info false [] 0 0 0.

Record raw_tx_input_t := mk_input {
  prev_txid : list Z;
  prev_index : Z;
  sequence : Z;
  in_amount : Z;
  in_path : list Z;
  in_path_len : Z;
}.

Record raw_tx_output_t := mk_output {
  out_amount : Z;
  destination_spk : list Z;
  destination_spk_len : Z;
  has_derivation_path : bool;
  out_path : list Z;
  out_path_len : Z;
}.

Record psbt_keypath_t := mk_keypath {
  kp_pubkey : list Z;
  kp_path : list Z;
  kp_path_len : Z;
}.

Record psbt_p2wsh_signing_data_t := mk_signing_data {
  keypaths : list psbt_keypath_t;
  witness_script : list Z;
  sighash : list Z;
  sighash_type : Z;
}.

(** Calls that can fail, inside of calls that can leave an array. *)
Definition tbind {A B} (m : outcome (option A)) (k : A → outcome (option B)) : outcome (option B) :=
  let! o := m in match o with Some a => k a | None => Done None end.

Notation "'let?' x ':=' e 'in' k" := (tbind e (λ x, k))
  (at level 10, x name, e at level 200, k at level 200) : fw_scope.

(** ** What is shown *)

(** [None] when the sum would leave 64 bits. *)
Fixpoint sum_amounts (total : Z) (amounts : list Z) : option Z :=
  match amounts with
  | [] => Some total
  | a :: rest => if UINT64_MAX - total <? a then None else sum_amounts (u64 (total + a)) rest
  end.

(** The loop over the outputs: the sum, the indices of the last external and
    change output and the number of each. *)
Record output_class := mk_class {
  total_output_sats : Z;
  external_index : Z;
  change_index : Z;
  external_count : Z;
  change_count : Z;
}.

Fixpoint classify_outputs (i : Z) (c : output_class) (outputs : list raw_tx_output_t)
    : option output_class :=
  match outputs with
  | [] => Some c
  | o :: rest =>
      if UINT64_MAX - total_output_sats c <? out_amount o then None
      else
        let total := u64 (total_output_sats c + out_amount o) in
        classify_outputs (i + 1)
          (if has_derivation_path o
           then mk_class total (external_index c) i (external_count c) (change_count c + 1)
           else mk_class total i (change_index c) (external_count c + 1) (change_count c)) rest
  end.

Section Psbt.
Context {C : Type} `{Sha256 C} `{Ew}.

Definition raw_tx_get_info (inputs : list raw_tx_input_t) (outputs : list raw_tx_output_t)
    (network : ew_network_t) : outcome (psbt_error_t * psbt_info_t) :=
  if (zlen inputs =? 0) || (zlen outputs =? 0) then Done (PSBT_ERROR_INVALID_PARAM, info_zero)
  else if (RAW_TX_MAX_INPUTS <? zlen inputs) || (RAW_TX_MAX_OUTPUTS <? zlen outputs)
  then Done (PSBT_ERROR_INVALID_SHAPE, info_zero)
  else
    match sum_amounts 0 (map in_amount inputs) with
    | None => Done (PSBT_ERROR_INVALID_SHAPE, info_zero)
    | Some total_input_sats =>
        match classify_outputs 0 (mk_class 0 (-1) (-1) 0 0) outputs with
        | None => Done (PSBT_ERROR_INVALID_SHAPE, info_zero)
        | Some c =>
            if (1 <? external_count c) || (1 <? change_count c)
            then Done (PSBT_ERROR_INVALID_SHAPE, info_zero)
            else if total_input_sats <? total_output_sats c
            then Done (PSBT_ERROR_INVALID_SHAPE, info_zero)
            else
              let fee := u64 (total_input_sats - total_output_sats c) in
              let! ext :=
                if 0 <=? external_index c then
                  let! o := aget outputs (external_index c) in
                  let! spk := mread (destination_spk o) 0 (destination_spk_len o) in
                  match ew_script_to_address spk network DESTINATION_ADDRESS_MAX_LEN with
                  | None => Done None
                  | Some address => Done (Some (true, address, out_amount o))
                  end
                else Done (Some (false, [], 0)) in
              match ext with
              | None => Done (PSBT_ERROR_ADDRESS_FAILED, mk_info false [] 0 0 fee)
              | Some (has_destination, address, send) =>
                  let! change :=
                    if 0 <=? change_index c then
                      let! o := aget outputs (change_index c) in Done (out_amount o)
                    else Done 0 in
                  Done (PSBT_OK, mk_info has_destination address send change fee)
              end
        end
    end.

(** ** The digest that is signed *)

Definition write_le32 (val : Z) : list Z := le_encode 4 (u32 val).
Definition write_le64 (val : Z) : list Z := le_encode 8 (u64 val).

(** Nothing is written for a length of 253 or more. *)
Definition write_varint (val : Z) : list Z := if val <? 0xFD then [u8 val] else [].

Definition sha256_feed (ctx : C) (data : list Z) : outcome (option C) :=
  Done (crypto_sha256_stream_update ctx data).
Definition sha256_feed_le32 (ctx : C) (val : Z) : outcome (option C) := sha256_feed ctx (write_le32 val).
Definition sha256_feed_le64 (ctx : C) (val : Z) : outcome (option C) := sha256_feed ctx (write_le64 val).

(** The first [len] bytes of a buffer. *)
Definition sha256_feed_n (ctx : C) (buf : list Z) (len : Z) : outcome (option C) :=
  let! data := mread buf 0 len in sha256_feed ctx data.

Definition double_sha256_stream_finish (inner_ctx : C) : outcome (option (list Z)) :=
  let? inner_hash := Done (crypto_sha256_stream_final inner_ctx) in
  let? outer := Done crypto_sha256_stream_init in
  let? outer := sha256_feed outer inner_hash in
  Done (crypto_sha256_stream_final outer).

(** A length-prefixed script. *)
Definition feed_script (ctx : C) (script : list Z) (len : Z) : outcome (option C) :=
  let varbuf := write_varint len in
  if zlen varbuf =? 0 then Done None
  else
    let? ctx := sha256_feed ctx varbuf in
    sha256_feed_n ctx script len.

Fixpoint feed_outpoints (ctx : C) (inputs : list raw_tx_input_t) : outcome (option C) :=
  match inputs with
  | [] => Done (Some ctx)
  | i :: rest =>
      let? ctx := sha256_feed_n ctx (prev_txid i) 32 in
      let? ctx := sha256_feed_le32 ctx (prev_index i) in
      feed_outpoints ctx rest
  end.

Fixpoint feed_sequences (ctx : C) (inputs : list raw_tx_input_t) : outcome (option C) :=
  match inputs with
  | [] => Done (Some ctx)
  | i :: rest => let? ctx := sha256_feed_le32 ctx (sequence i) in feed_sequences ctx rest
  end.

Fixpoint feed_outputs (ctx : C) (outputs : list raw_tx_output_t) : outcome (option C) :=
  match outputs with
  | [] => Done (Some ctx)
  | o :: rest =>
      let? ctx := sha256_feed_le64 ctx (out_amount o) in
      let? ctx := feed_script ctx (destination_spk o) (destination_spk_len o) in
      feed_outputs ctx rest
  end.

Definition bip143_sighash_precomputed (hash_prevouts hash_sequence hash_outputs : list Z)
    (lock_time version : Z) (input : raw_tx_input_t) (script_code : list Z) (script_code_len : Z)
    (sighash_type : Z) : outcome (option (list Z)) :=
  let? ctx := Done crypto_sha256_stream_init in
  let? ctx := sha256_feed_le32 ctx version in
  let? ctx := sha256_feed_n ctx hash_prevouts 32 in
  let? ctx := sha256_feed_n ctx hash_sequence 32 in
  let? ctx := sha256_feed_n ctx (prev_txid input) 32 in
  let? ctx := sha256_feed_le32 ctx (prev_index input) in
  let? ctx := feed_script ctx script_code script_code_len in
  let? ctx := sha256_feed_le64 ctx (in_amount input) in
  let? ctx := sha256_feed_le32 ctx (sequence input) in
  let? ctx := sha256_feed_n ctx hash_outputs 32 in
  let? ctx := sha256_feed_le32 ctx lock_time in
  let? ctx := sha256_feed_le32 ctx sighash_type in
  double_sha256_stream_finish ctx.

Definition bip143_sighash (inputs : list raw_tx_input_t) (outputs : list raw_tx_output_t)
    (lock_time version input_index : Z) (script_code : list Z) (script_code_len : Z)
    (sighash_type : Z) : outcome (option (list Z)) :=
  let? ctx := Done crypto_sha256_stream_init in
  let? ctx := feed_outpoints ctx inputs in
  let? hash_prevouts := double_sha256_stream_finish ctx in
  let? ctx := Done crypto_sha256_stream_init in
  let? ctx := feed_sequences ctx inputs in
  let? hash_sequence := double_sha256_stream_finish ctx in
  let? ctx := Done crypto_sha256_stream_init in
  let? ctx := feed_outputs ctx outputs in
  let? hash_outputs := double_sha256_stream_finish ctx in
  let? ctx := Done crypto_sha256_stream_init in
  let? ctx := sha256_feed_le32 ctx version in
  let? ctx := sha256_feed_n ctx hash_prevouts 32 in
  let? ctx := sha256_feed_n ctx hash_sequence 32 in
  let! input := aget inputs input_index in
  let? ctx := sha256_feed_n ctx (prev_txid input) 32 in
  let? ctx := sha256_feed_le32 ctx (prev_index input) in
  let? ctx := feed_script ctx script_code script_code_len in
  let? ctx := sha256_feed_le64 ctx (in_amount input) in
  let? ctx := sha256_feed_le32 ctx (sequence input) in
  let? ctx := sha256_feed_n ctx hash_outputs 32 in
  let? ctx := sha256_feed_le32 ctx lock_time in
  let? ctx := sha256_feed_le32 ctx sighash_type in
  double_sha256_stream_finish ctx.

(** The three keypaths: child keys, and the path of the input for each. *)
Definition copy_keypaths (input : raw_tx_input_t) (keyset_pubkeys : list Z)
    : outcome (list psbt_keypath_t) :=
  let! path := mread (in_path input) 0 (in_path_len input) in
  let! dst := mwrite (replicate 10 0) 0 path in
  let! k0 := mread keyset_pubkeys 0 PSBT_P2WSH_PUBKEY_LEN in
  let! k1 := mread keyset_pubkeys 33 PSBT_P2WSH_PUBKEY_LEN in
  let! k2 := mread keyset_pubkeys 66 PSBT_P2WSH_PUBKEY_LEN in
  Done (map (λ k, mk_keypath k dst (in_path_len input)) [k0; k1; k2]).

Definition witness_script_of (keyset_pubkeys : list Z) : option (list Z) :=
  ew_multisig_witness_script_from_pubkeys keyset_pubkeys 2 true PSBT_P2WSH_WITNESS_SCRIPT_MAX_LEN.

Definition raw_tx_p2wsh_input_signing_data (inputs : list raw_tx_input_t)
    (outputs : list raw_tx_output_t) (lock_time version input_index : Z) (keyset_pubkeys : list Z)
    : outcome (psbt_error_t * option psbt_p2wsh_signing_data_t) :=
  if (zlen inputs =? 0) || (zlen outputs =? 0) || (zlen inputs <=? input_index)
  then Done (PSBT_ERROR_INVALID_PARAM, None)
  else
    let! input := aget inputs input_index in
    let! kps := copy_keypaths input keyset_pubkeys in
    match witness_script_of keyset_pubkeys with
    | None => Done (PSBT_ERROR_PARSE_FAILED, None)
    | Some script =>
        let! h := bip143_sighash inputs outputs lock_time version input_index script (zlen script)
                    PSBT_SIGHASH_ALL in
        match h with
        | None => Done (PSBT_ERROR_SIGHASH_FAILED, None)
        | Some h => Done (PSBT_OK, Some (mk_signing_data kps script h PSBT_SIGHASH_ALL))
        end
    end.

Definition raw_tx_p2wsh_input_signing_data_precomputed
    (hash_prevouts hash_sequence hash_outputs : list Z) (lock_time version : Z)
    (input : raw_tx_input_t) (keyset_pubkeys : list Z)
    : outcome (psbt_error_t * option psbt_p2wsh_signing_data_t) :=
  let! kps := copy_keypaths input keyset_pubkeys in
  match witness_script_of keyset_pubkeys with
  | None => Done (PSBT_ERROR_PARSE_FAILED, None)
  | Some script =>
      let! h := bip143_sighash_precomputed hash_prevouts hash_sequence hash_outputs lock_time version
                  input script (zlen script) PSBT_SIGHASH_ALL in
      match h with
      | None => Done (PSBT_ERROR_SIGHASH_FAILED, None)
      | Some h => Done (PSBT_OK, Some (mk_signing_data kps script h PSBT_SIGHASH_ALL))
      end
  end.

(** ** The commitment of a session *)

(** An array of 32-bit words as it lies in memory. *)
Definition words_bytes (l : list Z) : list Z := concat (map (le_encode 4) l).

Definition hash_u32 (ctx : C) (val : Z) : outcome (option C) := sha256_feed ctx (le_encode 4 (u32 val)).
Definition hash_u64 (ctx : C) (val : Z) : outcome (option C) := sha256_feed ctx (le_encode 8 (u64 val)).

Definition hash_path (ctx : C) (path : list Z) (len : Z) : outcome (option C) :=
  if PSBT_BIP32_PATH_MAX_LEN <? len then Done None
  else
    let? ctx := hash_u32 ctx len in
    let! words := mread path 0 len in
    sha256_feed ctx (words_bytes words).

Fixpoint commit_inputs (ctx : C) (inputs : list raw_tx_input_t) : outcome (option C) :=
  match inputs with
  | [] => Done (Some ctx)
  | i :: rest =>
      let? ctx := sha256_feed_n ctx (prev_txid i) 32 in
      let? ctx := hash_u32 ctx (prev_index i) in
      let? ctx := hash_u32 ctx (sequence i) in
      let? ctx := hash_u64 ctx (in_amount i) in
      let? ctx := hash_path ctx (in_path i) (in_path_len i) in
      commit_inputs ctx rest
  end.

Fixpoint commit_outputs (ctx : C) (outputs : list raw_tx_output_t) : outcome (option C) :=
  match outputs with
  | [] => Done (Some ctx)
  | o :: rest =>
      let? ctx := hash_u64 ctx (out_amount o) in
      if SPK_BUFFER_SIZE <? destination_spk_len o then Done None
      else
        let? ctx := hash_u32 ctx (destination_spk_len o) in
        let? ctx := sha256_feed_n ctx (destination_spk o) (destination_spk_len o) in
        let? ctx := sha256_feed ctx [if has_derivation_path o then 1 else 0] in
        let? ctx := if has_derivation_path o then hash_path ctx (out_path o) (out_path_len o)
                    else Done (Some ctx) in
        commit_outputs ctx rest
  end.

Definition raw_tx_session_commitment_hash (inputs : list raw_tx_input_t)
    (outputs : list raw_tx_output_t) (lock_time version : Z) : outcome (option (list Z)) :=
  if (zlen inputs =? 0) || (zlen outputs =? 0) then Done None
  else
    let? ctx := Done crypto_sha256_stream_init in
    let? ctx := hash_u32 ctx version in
    let? ctx := hash_u32 ctx lock_time in
    let? ctx := hash_u32 ctx (zlen inputs) in
    let? ctx := commit_inputs ctx inputs in
    let? ctx := hash_u32 ctx (zlen outputs) in
    let? ctx := commit_outputs ctx outputs in
    Done (crypto_sha256_stream_final ctx).
End Psbt.
