(* ===== verification/PsbtSpec.v ===== *)
(** * Transactions: what is shown, signed and committed to

    [raw_tx_get_info] shows the exact amounts; both signing routines sign the
    BIP143 digest of the transaction; a commitment stands for one transaction. *)

From S2P Require Import Prelude Sha256 WalletAddr Psbt.

(** ** Well-formed parts *)

Definition u32_ok (x : Z) : Prop := 0 ≤ x < 2 ^ 32.
Definition u64_ok (x : Z) : Prop := 0 ≤ x < 2 ^ 64.

Record input_ok (i : raw_tx_input_t) : Prop := {
  io_txid : zlen (prev_txid i) = 32;
  io_index : u32_ok (prev_index i);
  io_sequence : u32_ok (sequence i);
  io_amount : u64_ok (in_amount i);
  io_path : zlen (in_path i) = PSBT_BIP32_PATH_MAX_LEN;
  io_words : Forall u32_ok (in_path i);
  io_len : 0 ≤ in_path_len i ≤ PSBT_BIP32_PATH_MAX_LEN;
}.

Record output_ok (o : raw_tx_output_t) : Prop := {
  oo_amount : u64_ok (out_amount o);
  oo_spk : zlen (destination_spk o) = SPK_BUFFER_SIZE;
  oo_spk_len : 0 ≤ destination_spk_len o ≤ SPK_BUFFER_SIZE;
  oo_path : zlen (out_path o) = PSBT_BIP32_PATH_MAX_LEN;
  oo_words : Forall u32_ok (out_path o);
  oo_len : 0 ≤ out_path_len o ≤ PSBT_BIP32_PATH_MAX_LEN;
}.

(** The script of an output and the paths that count. *)
Definition spk (o : raw_tx_output_t) : list Z := ztake (destination_spk_len o) (destination_spk o).
Definition path_in (i : raw_tx_input_t) : list Z := ztake (in_path_len i) (in_path i).
Definition path_out (o : raw_tx_output_t) : list Z := ztake (out_path_len o) (out_path o).

Definition sum_z (l : list Z) : Z := foldr Z.add 0 l.

(** ** What is shown *)

Lemma sum_amounts_spec l : ∀ t, u64_ok t → Forall u64_ok l →
  sum_amounts t l = if t + sum_z l <=? UINT64_MAX then Some (t + sum_z l) else None.
Proof.
  unfold u64_ok, UINT64_MAX. induction l as [|a l IH]; intros t Ht Hl; cbn [sum_amounts sum_z foldr].
  - rewrite Z.add_0_r. by zdecide.
  - apply Forall_cons in Hl as [Ha Hl]. fold (sum_z l).
    assert (0 ≤ sum_z l).
    { clear -Hl. induction Hl; cbn [sum_z foldr]; [lia|]. unfold sum_z in *. lia. }
    unfold UINT64_MAX. destruct (2 ^ 64 - 1 - t <? a) eqn:E; btest; [by zdecide|].
    unfold u64. rewrite Z.mod_small by lia. rewrite IH by (done || lia). by rewrite Z.add_assoc.
Qed.

(** The external and the change outputs of a list that starts at index [i]. *)
Definition external (outputs : list raw_tx_output_t) : list raw_tx_output_t :=
  List.filter (λ o, negb (has_derivation_path o)) outputs.
Definition change (outputs : list raw_tx_output_t) : list raw_tx_output_t :=
  List.filter has_derivation_path outputs.

(** At most one output of a kind: its index, and -1 when there is none. *)
Definition index_of (l : list raw_tx_output_t) (kind : raw_tx_output_t → bool) (i : Z) : Prop :=
  match List.filter kind l with
  | [] => i = -1
  | [o] => 0 ≤ i ∧ l !! Z.to_nat i = Some o
  | _ => True
  end.

Lemma index_of_snoc l kind i o : index_of l kind i →
  index_of (l ++ [o]) kind (if kind o then zlen l else i).
Proof.
  unfold index_of. rewrite List.filter_app. cbn [List.filter]. destruct (kind o) eqn:Ek.
  - destruct (List.filter kind l) as [|x [|y f]]; cbn [app]; [|done|done].
    intros _. split; [zl|]. rewrite zlen_nat. apply list_lookup_middle. done.
  - rewrite app_nil_r. destruct (List.filter kind l) as [|x [|y f]]; [done| |done].
    intros [? Hx]. split; [done|]. by apply lookup_app_l_Some.
Qed.

Lemma classify_spec l : ∀ pre c r, Forall output_ok (pre ++ l) →
  total_output_sats c = sum_z (map out_amount pre) → total_output_sats c ≤ UINT64_MAX →
  index_of pre (negb ∘ has_derivation_path) (external_index c) →
  index_of pre has_derivation_path (change_index c) →
  external_count c = zlen (external pre) → change_count c = zlen (change pre) →
  classify_outputs (zlen pre) c l = Some r →
  total_output_sats r = sum_z (map out_amount (pre ++ l)) ∧ total_output_sats r ≤ UINT64_MAX
  ∧ index_of (pre ++ l) (negb ∘ has_derivation_path) (external_index r)
  ∧ index_of (pre ++ l) has_derivation_path (change_index r)
  ∧ external_count r = zlen (external (pre ++ l)) ∧ change_count r = zlen (change (pre ++ l)).
Proof.
  induction l as [|o l IH]; intros pre c r Hok Ht Htm He Hc Hne Hnc; cbn [classify_outputs].
  { intros [= <-]. by rewrite app_nil_r. }
  destruct (UINT64_MAX - total_output_sats c <? out_amount o) eqn:Eo; [done|]. btest.
  assert (Ho : output_ok o). { apply Forall_app in Hok as [_ Hok]. by apply Forall_cons in Hok as [? _]. }
  destruct Ho as [[Ha0 Ha1] _ _ _ _ _].
  assert (Hsum : ∀ a b, sum_z (a ++ b) = sum_z a + sum_z b).
  { intros a b. unfold sum_z. induction a as [|x a IHa]; cbn; [done|]. rewrite IHa. lia. }
  assert (0 ≤ total_output_sats c).
  { rewrite Ht. apply Forall_app in Hok as [Hok _]. clear -Hok. induction Hok as [|x y Hx _ IHx]; cbn; [lia|].
    destruct Hx as [[? ?] _ _ _ _ _]. unfold sum_z in IHx. lia. }
  unfold u64. rewrite Z.mod_small by (unfold UINT64_MAX in *; lia).
  replace (zlen pre + 1) with (zlen (pre ++ [o])) by zl.
  rewrite (cons_middle o pre l), app_assoc in *. intros Hr.
  pose proof (index_of_snoc pre (negb ∘ has_derivation_path) _ o He) as He'.
  pose proof (index_of_snoc pre has_derivation_path _ o Hc) as Hc'. cbn [compose] in He'.
  apply IH in Hr; [done|done|..].
  all: destruct (has_derivation_path o) eqn:Eh; cbn [negb total_output_sats external_index change_index
    external_count change_count] in *; try done.
  all: unfold external, change in *; rewrite ?map_app, ?Hsum, ?List.filter_app; cbn [map sum_z foldr List.filter];
    rewrite ?Eh; cbn [negb]; rewrite ?app_nil_r, ?zlen_app; try lia.
  all: change (zlen [o]) with 1; lia.
Qed.

Section PsbtSpec.
Context {C : Type} `{Sha256 C} `{Ew}.

(** What a screen that shows [info] says about the transaction. *)
Record shown_exactly (inputs : list raw_tx_input_t) (outputs : list raw_tx_output_t)
    (network : ew_network_t) (info : psbt_info_t) : Prop := {
  shown_fee : fee_amount_sats info
    = sum_z (map in_amount inputs) - sum_z (map out_amount outputs);
  shown_total : sum_z (map out_amount outputs) = send_amount_sats info + change_amount_sats info;
  shown_range : 0 ≤ fee_amount_sats info ∧ 0 ≤ sum_z (map out_amount outputs) ∧ sum_z (map in_amount inputs) ≤ UINT64_MAX;
  shown_send : match external outputs with
    | [] => has_destination info = false ∧ send_amount_sats info = 0
    | [o] => has_destination info = true ∧ send_amount_sats info = out_amount o
             ∧ ew_script_to_address (spk o) network DESTINATION_ADDRESS_MAX_LEN
               = Some (destination_address info)
    | _ => False
    end;
  shown_change : match change outputs with
    | [] => change_amount_sats info = 0
    | [o] => change_amount_sats info = out_amount o
    | _ => False
    end;
}.

(** The total of the outputs is the total of both kinds. *)
Lemma sum_kinds outputs :
  sum_z (map out_amount outputs) = sum_z (map out_amount (external outputs)) + sum_z (map out_amount (change outputs)).
Proof.
  unfold sum_z, external, change. induction outputs as [|o l IH]; cbn; [done|].
  destruct (has_derivation_path o); cbn; lia.
Qed.

(** The one output of a kind, at the index that the loop found. *)
Definition found_at (outputs kind : list raw_tx_output_t) (i : Z) : Prop :=
  match kind with
  | [] => i = -1
  | [o] => 0 ≤ i ∧ outputs !! Z.to_nat i = Some o
  | _ => False
  end.

Lemma sums_shown inputs outputs network ti c : Forall input_ok inputs → Forall output_ok outputs →
  sum_amounts 0 (map in_amount inputs) = Some ti →
  classify_outputs 0 (mk_class 0 (-1) (-1) 0 0) outputs = Some c →
  (1 <? external_count c) || (1 <? change_count c) = false → (ti <? total_output_sats c) = false →
  found_at outputs (external outputs) (external_index c)
  ∧ found_at outputs (change outputs) (change_index c)
  ∧ ∀ b addr send amt,
      match external outputs with
      | [] => b = false ∧ send = 0
      | [o] => b = true ∧ send = out_amount o
               ∧ ew_script_to_address (spk o) network DESTINATION_ADDRESS_MAX_LEN = Some addr
      | _ => False
      end →
      match change outputs with [] => amt = 0 | [o] => amt = out_amount o | _ => False end →
      shown_exactly inputs outputs network (mk_info b addr send amt (u64 (ti - total_output_sats c))).
Proof.
  intros Hi Ho Es Ec En Ef.
  assert (Hai : Forall u64_ok (map in_amount inputs)).
  { apply Forall_map. eapply Forall_impl; [exact Hi|]. by intros i [].  }
  rewrite sum_amounts_spec in Es by (done || exact Hai). rewrite Z.add_0_l in Es. destruct (_ <=? UINT64_MAX) eqn:Em; [|done].
  injection Es as <-.
  apply (classify_spec outputs []) in Ec as (Ht & Htm & He & Hc & Hne & Hnc); try done. cbn [app] in *.
  apply orb_false_iff in En as [En1 En2]. btest.
  assert (Hout0 : 0 ≤ total_output_sats c).
  { rewrite Ht. clear -Ho. induction Ho as [|x y Hx _ IHx]; cbn; [lia|].
    destruct Hx as [[? ?] _ _ _ _ _]. unfold sum_z in IHx. lia. }
  rewrite Hne in En1. rewrite Hnc in En2.
  unfold index_of in He, Hc. fold (change outputs) in Hc.
  change (List.filter (negb ∘ has_derivation_path) outputs) with (external outputs) in He.
  pose proof (sum_kinds outputs) as Hk. rewrite <- Ht in Hk. unfold found_at.
  assert (Hmany : ∀ (o p : raw_tx_output_t) l, zlen (o :: p :: l) ≤ 1 → False) by (intros ?? l ?; zl).
  split_and!.
  - destruct (external outputs) as [|? [|]]; [done|done|by eapply Hmany].
  - destruct (change outputs) as [|? [|]]; [done|done|by eapply Hmany].
  - intros b addr send amt Hext Hchg. unfold u64. rewrite Z.mod_small by (unfold UINT64_MAX in *; lia).
    split; cbn; try (rewrite <- Ht); try done; try lia.
    rewrite Hk. destruct (external outputs) as [|? [|]], (change outputs) as [|? [|]]; cbn; try done; lia.
Qed.

Lemma get_info_ok inputs outputs network : Forall input_ok inputs → Forall output_ok outputs →
  safe (λ '(e, info), e = PSBT_OK → shown_exactly inputs outputs network info)
    (raw_tx_get_info inputs outputs network).
Proof.
  intros Hi Ho. unfold raw_tx_get_info.
  destruct (_ || _); [done|]. destruct (_ || _); [done|].
  destruct (sum_amounts _ _) as [ti|] eqn:Es; [|done]. destruct (classify_outputs _ _ _) as [c|] eqn:Ec; [|done].
  destruct (_ || _) eqn:En; [done|]. destruct (_ <? total_output_sats c) eqn:Ef; [done|].
  destruct (sums_shown _ _ network _ _ Hi Ho Es Ec En Ef) as (He & Hc & Hshown). unfold found_at in *.
  assert (Hchange : ∃ amt, (if 0 <=? change_index c then let! o := aget outputs (change_index c) in Done (out_amount o)
                            else Done 0) = Done amt
    ∧ match change outputs with [] => amt = 0 | [o] => amt = out_amount o | _ => False end).
  { destruct (change outputs) as [|o [|]]; [| |done].
    - rewrite Hc. by exists 0.
    - destruct Hc as [Hc0 Hc]. zdecide. rewrite (aget_Some _ _ _ Hc0 Hc). by exists (out_amount o). }
  destruct Hchange as (amt & Hcm & Hck). rewrite Hcm. clear Hcm Hc.
  destruct (external outputs) as [|o [|]] eqn:Ee; [| |done].
  - rewrite He. cbn. intros _. by apply Hshown.
  - destruct He as [He0 He]. zdecide. rewrite (aget_Some _ _ _ He0 He). cbn [obind].
    assert (Hoo : output_ok o) by (by apply (Forall_lookup_1 _ _ _ _ Ho He)).
    destruct Hoo as [_ Hspk Hlen _ _ _].
    unfold mread. zdecide. cbn [andb obind]. rewrite zdrop_0. fold (spk o).
    destruct (ew_script_to_address _ _ _) as [a|] eqn:Ea; cbn; [|done]. intros _. by apply Hshown.
Qed.

(** C16: The screen tells the truth about a transaction. When
    [raw_tx_get_info] accepts it, the fee it shows is the exact difference of
    the inputs and the outputs, without wrap-around; at most one output is
    external, its amount and the address of its script are what is shown as
    sent, and every other satoshi goes to the one change output; and no input
    makes it leave its arrays. *)
Theorem raw_tx_info_exact inputs outputs network : Forall input_ok inputs → Forall output_ok outputs →
  safe (λ '(e, info), e = PSBT_OK → shown_exactly inputs outputs network info)
    (raw_tx_get_info inputs outputs network).
Proof. apply get_info_ok. Qed.
(** ** What is signed *)

Context `{!Sha256Laws C} `{!EwLaws}.

Definition hash256 (m : list Z) : list Z := sha256 (C := C) (sha256 (C := C) m).

(** The serializations of BIP143. *)
Definition outpoint_bytes (i : raw_tx_input_t) : list Z := prev_txid i ++ le_encode 4 (prev_index i).
Definition sequence_bytes (i : raw_tx_input_t) : list Z := le_encode 4 (sequence i).
Definition output_bytes (o : raw_tx_output_t) : list Z :=
  le_encode 8 (out_amount o) ++ [destination_spk_len o] ++ spk o.

Definition hash_prevouts (inputs : list raw_tx_input_t) : list Z :=
  hash256 (concat (map outpoint_bytes inputs)).
Definition hash_sequence (inputs : list raw_tx_input_t) : list Z :=
  hash256 (concat (map sequence_bytes inputs)).
Definition hash_outputs (outputs : list raw_tx_output_t) : list Z :=
  hash256 (concat (map output_bytes outputs)).

Definition bip143 (inputs : list raw_tx_input_t) (outputs : list raw_tx_output_t)
    (lock_time version : Z) (input : raw_tx_input_t) (script : list Z) (type : Z) : list Z :=
  hash256 (le_encode 4 version ++ hash_prevouts inputs ++ hash_sequence inputs
    ++ outpoint_bytes input ++ [zlen script] ++ script ++ le_encode 8 (in_amount input)
    ++ sequence_bytes input ++ hash_outputs outputs ++ le_encode 4 lock_time ++ le_encode 4 type).

(** [feeds c m bs]: the call [m] is memory safe, and if it succeeds the context
    has been fed [bs] after what it had. *)
Definition feeds (c : C) (bs : list Z) (m : outcome (option C)) : Prop :=
  safe (λ r, ∀ c', r = Some c' → stream_bytes c' = stream_bytes c ++ bs) m.

Lemma feeds_bind {B} c bs m (k : C → outcome (option B)) (P : option B → Prop) :
  feeds c bs m → P None → (∀ c', stream_bytes c' = stream_bytes c ++ bs → safe P (k c')) →
  safe P (tbind m k).
Proof.
  intros Hm HN Hk. unfold tbind. eapply safe_bind; [exact Hm|]. intros [c'|] Hc; [|done]. by apply Hk, Hc.
Qed.

Lemma feeds_seq c b1 b2 m k : feeds c b1 m →
  (∀ c', stream_bytes c' = stream_bytes c ++ b1 → feeds c' b2 (k c')) → feeds c (b1 ++ b2) (tbind m k).
Proof.
  intros Hm Hk. unfold feeds. eapply feeds_bind; [exact Hm|done|]. intros c' Hc.
  eapply safe_mono; [by apply Hk|]. intros r Hr c2 ->. rewrite (Hr _ eq_refl), Hc. by rewrite app_assoc.
Qed.

Lemma feeds_skip c : feeds c [] (Done (Some c)).
Proof. intros c' [= <-]. by rewrite app_nil_r. Qed.

Lemma feed_data c d : feeds c d (sha256_feed c d).
Proof. unfold feeds, sha256_feed. simpl. intros c' Hc. by apply law_stream_update in Hc. Qed.

Lemma feed_le32 c x : u32_ok x → feeds c (le_encode 4 x) (sha256_feed_le32 c x).
Proof. intros Hx. unfold sha256_feed_le32, write_le32. rewrite u32_small by done. apply feed_data. Qed.

Lemma feed_le64 c x : u64_ok x → feeds c (le_encode 8 x) (sha256_feed_le64 c x).
Proof.
  intros Hx. unfold sha256_feed_le64, write_le64, u64. rewrite Z.mod_small by done. apply feed_data.
Qed.

Lemma feed_n c buf n : 0 ≤ n ≤ zlen buf → feeds c (ztake n buf) (sha256_feed_n c buf n).
Proof.
  intros Hn. unfold feeds, sha256_feed_n. apply safe_mread; [lia|lia|lia|]. intros _.
  rewrite zdrop_0. apply feed_data.
Qed.

Lemma feed_all c buf n : zlen buf = n → feeds c buf (sha256_feed_n c buf n).
Proof. intros Hn. rewrite <- (ztake_all buf n) at 1 by lia. apply feed_n. zl. Qed.

Lemma feed_script_spec c script len : 0 ≤ len ≤ zlen script →
  feeds c ([len] ++ ztake len script) (feed_script c script len).
Proof.
  intros Hl. unfold feed_script, write_varint. destruct (len <? 0xFD) eqn:E; btest; [|done].
  rewrite u8_small by lia. change (zlen [len] =? 0) with false.
  apply feeds_seq; [apply feed_data|]. intros c' _. by apply feed_n.
Qed.

Lemma double_finish_spec c : safe (λ r, ∀ h, r = Some h → h = hash256 (stream_bytes c))
  (double_sha256_stream_finish c).
Proof.
  unfold double_sha256_stream_finish, tbind. cbn [obind].
  destruct (crypto_sha256_stream_final c) as [h1|] eqn:E1; [|done]. cbn [obind].
  destruct crypto_sha256_stream_init as [c1|] eqn:E2; [|done]. cbn [obind sha256_feed].
  destruct (crypto_sha256_stream_update c1 h1) as [c2|] eqn:E3; [|done]. cbn [obind].
  apply law_stream_final in E1. apply law_stream_init in E2. apply law_stream_update in E3.
  simpl. intros h Hh. apply law_stream_final in Hh. rewrite Hh, E3, E2, E1. done.
Qed.

Lemma feed_outpoints_spec l : ∀ c, Forall input_ok l →
  feeds c (concat (map outpoint_bytes l)) (feed_outpoints c l).
Proof.
  induction l as [|i l IH]; intros c Hl; cbn [feed_outpoints map concat]; [apply feeds_skip|].
  apply Forall_cons in Hl as [[Ht Hx _ _ _ _ _] Hl]. unfold outpoint_bytes at 1. rewrite <- app_assoc.
  apply feeds_seq; [by apply feed_all|]. intros c1 _. apply feeds_seq; [by apply feed_le32|auto].
Qed.

Lemma feed_sequences_spec l : ∀ c, Forall input_ok l →
  feeds c (concat (map sequence_bytes l)) (feed_sequences c l).
Proof.
  induction l as [|i l IH]; intros c Hl; cbn [feed_sequences map concat]; [apply feeds_skip|].
  apply Forall_cons in Hl as [[_ _ Hs _ _ _ _] Hl]. apply feeds_seq; [by apply feed_le32|auto].
Qed.

Lemma feed_outputs_spec l : ∀ c, Forall output_ok l →
  feeds c (concat (map output_bytes l)) (feed_outputs c l).
Proof.
  induction l as [|o l IH]; intros c Hl; cbn [feed_outputs map concat]; [apply feeds_skip|].
  apply Forall_cons in Hl as [[Ha Hs Hn _ _ _] Hl]. unfold output_bytes at 1. rewrite <- !app_assoc.
  apply feeds_seq; [by apply feed_le64|]. intros c1 _. rewrite app_assoc.
  apply feeds_seq; [apply feed_script_spec; by rewrite Hs|auto].
Qed.

(** A hash of everything that is fed to a fresh context. *)
Lemma hash256_of (feed : C → outcome (option C)) bs {B} (k : list Z → outcome (option B)) P :
  (∀ c, feeds c bs (feed c)) → P None → safe P (k (hash256 bs)) →
  safe P (let? ctx := Done crypto_sha256_stream_init in
          let? ctx := feed ctx in
          let? h := double_sha256_stream_finish ctx in k h).
Proof.
  intros Hf HN Hk. unfold tbind at 1. cbn [obind].
  destruct crypto_sha256_stream_init as [c|] eqn:Ec; [|done]. apply law_stream_init in Ec.
  eapply feeds_bind; [apply Hf|done|]. rewrite Ec. cbn [app]. intros c' Hc.
  unfold tbind. eapply safe_bind; [apply double_finish_spec|]. intros [h|] Hh; [|done].
  rewrite (Hh _ eq_refl), Hc. exact Hk.
Qed.
(** One call of a chain: the bytes that the context now has. *)
Ltac feeding lem :=
  eapply feeds_bind; [lem|done|];
  let c := fresh "c" in let E := fresh "E" in intros c E;
  lazymatch type of E with _ = stream_bytes ?c0 ++ _ =>
    match goal with Hc : stream_bytes c0 = _ |- _ => rewrite Hc in E; clear Hc end end.

Ltac fed := match goal with Hc : stream_bytes _ = _ |- _ => rewrite Hc end.

Lemma precomputed_spec hp hs ho lock_time version input script type :
  zlen hp = 32 → zlen hs = 32 → zlen ho = 32 → input_ok input → u32_ok lock_time → u32_ok version →
  u32_ok type →
  safe (λ r, ∀ h, r = Some h → h = hash256 (le_encode 4 version ++ hp ++ hs ++ outpoint_bytes input
      ++ [zlen script] ++ script ++ le_encode 8 (in_amount input) ++ sequence_bytes input ++ ho
      ++ le_encode 4 lock_time ++ le_encode 4 type))
    (bip143_sighash_precomputed hp hs ho lock_time version input script (zlen script) type).
Proof.
  intros Hp Hs Ho [Ht Hi Hq Ha _ _ _] Hl Hv Hy. unfold bip143_sighash_precomputed.
  unfold tbind at 1. cbn [obind]. destruct crypto_sha256_stream_init as [c|] eqn:Ec; [|done].
  apply law_stream_init in Ec.
  feeding ltac:(by apply feed_le32). feeding ltac:(by apply feed_all). feeding ltac:(by apply feed_all).
  feeding ltac:(by apply feed_all). feeding ltac:(by apply feed_le32).
  feeding ltac:(apply feed_script_spec; zl). feeding ltac:(by apply feed_le64).
  feeding ltac:(by apply feed_le32). feeding ltac:(by apply feed_all). feeding ltac:(by apply feed_le32).
  feeding ltac:(by apply feed_le32).
  eapply safe_mono; [apply double_finish_spec|]. intros r Hr h Hh. rewrite (Hr h Hh). fed. f_equal.
  rewrite ztake_all by lia. unfold outpoint_bytes, sequence_bytes. by rewrite <- !app_assoc.
Qed.

Lemma zlen_hash256 m : zlen (hash256 m) = 32.
Proof. apply law_digest. Qed.

Lemma sighash_spec inputs outputs lock_time version idx input script type :
  Forall input_ok inputs → Forall output_ok outputs → u32_ok lock_time → u32_ok version → u32_ok type →
  aget inputs idx = Done input →
  safe (λ r, ∀ h, r = Some h → h = bip143 inputs outputs lock_time version input script type)
    (bip143_sighash inputs outputs lock_time version idx script (zlen script) type).
Proof.
  intros Hin Hout Hl Hv Hy Hidx. unfold bip143_sighash.
  assert (Hi : input_ok input).
  { unfold aget in Hidx. case_match; [|done]. destruct (inputs !! Z.to_nat idx) as [i|] eqn:E; [|done].
    injection Hidx as <-. by apply (Forall_lookup_1 _ _ _ _ Hin E). }
  destruct Hi as [Ht Hi Hq Ha _ _ _].
  apply (hash256_of (λ ctx, feed_outpoints ctx inputs) (concat (map outpoint_bytes inputs)));
    [intros; by apply feed_outpoints_spec|done|].
  apply (hash256_of (λ ctx, feed_sequences ctx inputs) (concat (map sequence_bytes inputs)));
    [intros; by apply feed_sequences_spec|done|].
  apply (hash256_of (λ ctx, feed_outputs ctx outputs) (concat (map output_bytes outputs)));
    [intros; by apply feed_outputs_spec|done|].
  unfold tbind at 1. cbn [obind]. destruct crypto_sha256_stream_init as [c|] eqn:Ec; [|done].
  apply law_stream_init in Ec.
  feeding ltac:(by apply feed_le32). feeding ltac:(apply feed_all, zlen_hash256).
  feeding ltac:(apply feed_all, zlen_hash256). rewrite Hidx. cbn [obind].
  feeding ltac:(by apply feed_all). feeding ltac:(by apply feed_le32).
  feeding ltac:(apply feed_script_spec; zl). feeding ltac:(by apply feed_le64).
  feeding ltac:(by apply feed_le32). feeding ltac:(apply feed_all, zlen_hash256).
  feeding ltac:(by apply feed_le32). feeding ltac:(by apply feed_le32).
  eapply safe_mono; [apply double_finish_spec|]. intros r Hr h Hh. rewrite (Hr h Hh). fed. unfold bip143. f_equal.
  rewrite ztake_all by lia. unfold outpoint_bytes, sequence_bytes. by rewrite <- !app_assoc.
Qed.

(** The child keys of three cosigners. *)
Definition pubkeys_ok (l : list Z) : Prop := zlen l = PSBT_P2WSH_MAX_KEYPATHS * PSBT_P2WSH_PUBKEY_LEN.

Lemma copy_keypaths_done input pks : input_ok input → pubkeys_ok pks →
  ∃ kps, copy_keypaths input pks = Done kps.
Proof.
  intros [_ _ _ _ Hp _ Hl] Hk. unfold pubkeys_ok, PSBT_P2WSH_MAX_KEYPATHS, PSBT_P2WSH_PUBKEY_LEN in Hk.
  unfold copy_keypaths, PSBT_BIP32_PATH_MAX_LEN, PSBT_P2WSH_PUBKEY_LEN in *.
  unfold mread at 1. zdecide. cbn [andb obind]. rewrite zdrop_0.
  assert (Hzt : zlen (ztake (in_path_len input) (in_path input)) = in_path_len input) by (apply zlen_ztake; lia).
  unfold mwrite. rewrite Hzt, zlen_replicate. zdecide. cbn [andb obind]. unfold mread.
  zdecide. cbn [andb obind]. eauto.
Qed.

(** C17: The device signs the digest that BIP143 defines for the transaction,
    and the two ways to compute it agree. For the fields of a session, the
    one-shot routine neither leaves its arrays nor returns anything but
    SIGHASH_ALL data whose digest is the BIP143 hash of all inputs and outputs
    at that input; and the streaming routine, given the intermediate hashes of
    the same inputs and outputs, returns the very same signing data. *)
Theorem signing_data_is_bip143 inputs outputs lock_time version idx input pks :
  Forall input_ok inputs → Forall output_ok outputs → u32_ok lock_time → u32_ok version → pubkeys_ok pks →
  aget inputs idx = Done input →
  safe (λ '(e, r), e = PSBT_OK → ∃ d, r = Some d ∧ sighash_type d = PSBT_SIGHASH_ALL
      ∧ sighash d = bip143 inputs outputs lock_time version input (witness_script d) PSBT_SIGHASH_ALL
      ∧ safe (λ '(e', r'), e' = PSBT_OK → r' = Some d)
          (raw_tx_p2wsh_input_signing_data_precomputed (hash_prevouts inputs) (hash_sequence inputs)
             (hash_outputs outputs) lock_time version input pks))
    (raw_tx_p2wsh_input_signing_data inputs outputs lock_time version idx pks).
Proof.
  intros Hin Hout Hl Hv Hk Hidx.
  assert (Hi : input_ok input).
  { unfold aget in Hidx. case_match; [|done]. destruct (inputs !! Z.to_nat idx) as [i|] eqn:E; [|done].
    injection Hidx as <-. by apply (Forall_lookup_1 _ _ _ _ Hin E). }
  unfold raw_tx_p2wsh_input_signing_data, raw_tx_p2wsh_input_signing_data_precomputed.
  destruct (_ || _); [done|]. rewrite Hidx. cbn [obind].
  destruct (copy_keypaths_done input pks Hi Hk) as [kps ->]. cbn [obind].
  destruct (witness_script_of pks) as [script|]; [|done].
  eapply safe_bind; [by apply sighash_spec|]. intros [h|] Hh; [|done]. cbn. intros _.
  eexists. split; [done|]. cbn. split_and!; [done|by apply Hh|].
  eapply safe_bind; [apply precomputed_spec; try done; apply zlen_hash256|].
  intros [h'|] Hh'; [|done]. cbn. intros _. rewrite (Hh h eq_refl), (Hh' h' eq_refl). done.
Qed.
(** ** What is committed to *)

Definition path_bytes (path : list Z) : list Z := le_encode 4 (zlen path) ++ words_bytes path.
Definition commit_input_bytes (i : raw_tx_input_t) : list Z :=
  prev_txid i ++ le_encode 4 (prev_index i) ++ le_encode 4 (sequence i) ++ le_encode 8 (in_amount i)
    ++ path_bytes (path_in i).
Definition commit_output_bytes (o : raw_tx_output_t) : list Z :=
  le_encode 8 (out_amount o) ++ le_encode 4 (destination_spk_len o) ++ spk o
    ++ [if has_derivation_path o then 1 else 0]
    ++ (if has_derivation_path o then path_bytes (path_out o) else []).
Definition commit_bytes (inputs : list raw_tx_input_t) (outputs : list raw_tx_output_t)
    (lock_time version : Z) : list Z :=
  le_encode 4 version ++ le_encode 4 lock_time ++ le_encode 4 (zlen inputs)
    ++ concat (map commit_input_bytes inputs) ++ le_encode 4 (zlen outputs)
    ++ concat (map commit_output_bytes outputs).

Lemma hash_u32_spec c x : u32_ok x → feeds c (le_encode 4 x) (hash_u32 c x).
Proof. apply feed_le32. Qed.

Lemma hash_u64_spec c x : u64_ok x → feeds c (le_encode 8 x) (hash_u64 c x).
Proof. apply feed_le64. Qed.

Lemma hash_path_spec c path len : zlen path = PSBT_BIP32_PATH_MAX_LEN → 0 ≤ len ≤ PSBT_BIP32_PATH_MAX_LEN →
  feeds c (path_bytes (ztake len path)) (hash_path c path len).
Proof.
  intros Hp Hl. unfold hash_path, path_bytes. unfold PSBT_BIP32_PATH_MAX_LEN in *.
  rewrite zlen_ztake by lia. destruct (10 <? len) eqn:E; [done|].
  apply feeds_seq; [apply hash_u32_spec; unfold u32_ok; lia|]. intros c1 _.
  unfold feeds. apply safe_mread; [lia|lia|lia|]. intros _. rewrite zdrop_0. apply feed_data.
Qed.

Lemma commit_inputs_spec l : ∀ c, Forall input_ok l →
  feeds c (concat (map commit_input_bytes l)) (commit_inputs c l).
Proof.
  induction l as [|i l IH]; intros c Hl; cbn [commit_inputs map concat]; [apply feeds_skip|].
  apply Forall_cons in Hl as [[Ht Hi Hq Ha Hp _ Hn] Hl]. unfold commit_input_bytes at 1. rewrite <- !app_assoc.
  apply feeds_seq; [by apply feed_all|]. intros c1 _. apply feeds_seq; [by apply hash_u32_spec|].
  intros c2 _. apply feeds_seq; [by apply hash_u32_spec|]. intros c3 _.
  apply feeds_seq; [by apply hash_u64_spec|]. intros c4 _. apply feeds_seq; [by apply hash_path_spec|auto].
Qed.

Lemma commit_outputs_spec l : ∀ c, Forall output_ok l →
  feeds c (concat (map commit_output_bytes l)) (commit_outputs c l).
Proof.
  induction l as [|o l IH]; intros c Hl; cbn [commit_outputs map concat]; [apply feeds_skip|].
  apply Forall_cons in Hl as [[Ha Hs Hn Hp _ Hm] Hl]. unfold commit_output_bytes at 1. rewrite <- !app_assoc.
  apply feeds_seq; [by apply hash_u64_spec|]. intros c1 _.
  destruct (SPK_BUFFER_SIZE <? destination_spk_len o); [done|]. unfold SPK_BUFFER_SIZE in *.
  apply feeds_seq; [apply hash_u32_spec; unfold u32_ok; lia|]. intros c2 _.
  apply feeds_seq; [apply feed_n; lia|]. intros c3 _. apply feeds_seq; [apply feed_data|]. intros c4 _.
  apply feeds_seq; [|auto]. destruct (has_derivation_path o); [by apply hash_path_spec|apply feeds_skip].
Qed.

Lemma commitment_spec inputs outputs lock_time version :
  Forall input_ok inputs → Forall output_ok outputs → u32_ok lock_time → u32_ok version →
  u32_ok (zlen inputs) → u32_ok (zlen outputs) →
  safe (λ r, ∀ h, r = Some h → h = sha256 (C := C) (commit_bytes inputs outputs lock_time version))
    (raw_tx_session_commitment_hash inputs outputs lock_time version).
Proof.
  intros Hi Ho Hl Hv Hni Hno. unfold raw_tx_session_commitment_hash. destruct (_ || _); [done|].
  unfold tbind at 1. cbn [obind]. destruct crypto_sha256_stream_init as [c|] eqn:Ec; [|done].
  apply law_stream_init in Ec.
  feeding ltac:(by apply hash_u32_spec). feeding ltac:(by apply hash_u32_spec).
  feeding ltac:(by apply hash_u32_spec). feeding ltac:(by apply commit_inputs_spec).
  feeding ltac:(by apply hash_u32_spec). feeding ltac:(by apply commit_outputs_spec).
  cbn. intros h Hh. apply law_stream_final in Hh. rewrite Hh. fed. unfold commit_bytes.
  by rewrite <- !app_assoc.
Qed.

(** Two parts that agree on every field that counts. *)
Record same_input (i j : raw_tx_input_t) : Prop := {
  si_txid : prev_txid i = prev_txid j;
  si_index : prev_index i = prev_index j;
  si_sequence : sequence i = sequence j;
  si_amount : in_amount i = in_amount j;
  si_path : path_in i = path_in j;
}.

Record same_output (o p : raw_tx_output_t) : Prop := {
  so_amount : out_amount o = out_amount p;
  so_spk : spk o = spk p;
  so_kind : has_derivation_path o = has_derivation_path p;
  so_path : has_derivation_path o = true → path_out o = path_out p;
}.

(** A prefix of known length splits off. *)
Lemma app_split {A} (a b r s : list A) : zlen a = zlen b → a ++ r = b ++ s → a = b ∧ r = s.
Proof. intros Hl. apply app_inj_1. unfold zlen in Hl. lia. Qed.

Lemma le_encode_inj n x y : 0 ≤ x < 256 ^ Z.of_nat n → 0 ≤ y < 256 ^ Z.of_nat n →
  le_encode n x = le_encode n y → x = y.
Proof. intros Hx Hy Heq. rewrite <- (le_decode_encode n x), <- (le_decode_encode n y) by done. by rewrite Heq. Qed.

Lemma le_split n x y r s : 0 ≤ x < 256 ^ Z.of_nat n → 0 ≤ y < 256 ^ Z.of_nat n →
  le_encode n x ++ r = le_encode n y ++ s → x = y ∧ r = s.
Proof.
  intros Hx Hy [He Hr]%app_split; [|by rewrite !zlen_le_encode]. split; [by apply (le_encode_inj n)|done].
Qed.

Lemma words_bytes_split p : ∀ q r s, zlen p = zlen q → Forall u32_ok p → Forall u32_ok q →
  words_bytes p ++ r = words_bytes q ++ s → p = q ∧ r = s.
Proof.
  induction p as [|x p IH]; intros [|y q] r s Hl Hp Hq; try done; try (unfold zlen in Hl; simpl in Hl; lia).
  apply Forall_cons in Hp as [Hx Hp]. apply Forall_cons in Hq as [Hy Hq]. rewrite !zlen_cons in Hl.
  unfold words_bytes. cbn [map concat]. rewrite <- !app_assoc. intros [-> E]%le_split; [|done|done].
  apply IH in E as [-> ->]; [done|lia|done|done].
Qed.

Lemma path_bytes_split p q r s : zlen p ≤ 10 → zlen q ≤ 10 → Forall u32_ok p → Forall u32_ok q →
  path_bytes p ++ r = path_bytes q ++ s → p = q ∧ r = s.
Proof.
  intros Hp Hq Fp Fq. unfold path_bytes. rewrite <- !app_assoc.
  pose proof (zlen_nonneg p). pose proof (zlen_nonneg q).
  intros [Hl E]%le_split; [|simpl; lia|simpl; lia]. by apply words_bytes_split in E.
Qed.
Lemma path_in_ok i : input_ok i → zlen (path_in i) ≤ 10 ∧ Forall u32_ok (path_in i) ∧ zlen (path_in i) = in_path_len i.
Proof.
  intros [_ _ _ _ Hp Hw Hl]. unfold path_in, PSBT_BIP32_PATH_MAX_LEN in *. rewrite zlen_ztake by lia.
  split_and!; [lia|by apply Forall_take|done].
Qed.

Lemma path_out_ok o : output_ok o → zlen (path_out o) ≤ 10 ∧ Forall u32_ok (path_out o).
Proof.
  intros [_ _ _ Hp Hw Hl]. unfold path_out, PSBT_BIP32_PATH_MAX_LEN in *. rewrite zlen_ztake by lia.
  split; [lia|by apply Forall_take].
Qed.

Lemma spk_len_ok o : output_ok o → zlen (spk o) = destination_spk_len o.
Proof. intros [_ Hs Hn _ _ _]. apply zlen_ztake. lia. Qed.

Lemma input_split i j r s : input_ok i → input_ok j →
  commit_input_bytes i ++ r = commit_input_bytes j ++ s → same_input i j ∧ r = s.
Proof.
  intros Hi Hj. destruct (path_in_ok i Hi) as (Li & Wi & _), (path_in_ok j Hj) as (Lj & Wj & _).
  destruct Hi as [Ti Xi Qi Ai _ _ _], Hj as [Tj Xj Qj Aj _ _ _]. unfold commit_input_bytes.
  rewrite <- !app_assoc. intros [Ex1 E]%app_split; [|by rewrite Ti, Tj].
  apply le_split in E as [Ex2 E]; [|done|done]. apply le_split in E as [Ex3 E]; [|done|done].
  apply le_split in E as [Ex4 E]; [|done|done]. apply path_bytes_split in E as [Ex5 E]; [|done..].
  by split.
Qed.

Lemma output_split o p r s : output_ok o → output_ok p →
  commit_output_bytes o ++ r = commit_output_bytes p ++ s → same_output o p ∧ r = s.
Proof.
  intros Ho Hp. destruct (path_out_ok o Ho) as [Lo Wo], (path_out_ok p Hp) as [Lp Wp].
  pose proof (spk_len_ok o Ho) as So. pose proof (spk_len_ok p Hp) as Sp.
  destruct Ho as [Ao _ No _ _ _], Hp as [Ap _ Np _ _ _]. unfold commit_output_bytes, SPK_BUFFER_SIZE in *.
  rewrite <- !app_assoc. intros [Ex1 E]%le_split; [|done|done].
  apply le_split in E as [Ex2 E]; [|simpl; lia|simpl; lia]. apply app_split in E as [Ex3 E]; [|lia].
  cbn [app] in E. injection E as Ex4 E.
  assert (Hk : has_derivation_path o = has_derivation_path p)
    by (destruct (has_derivation_path o), (has_derivation_path p); done).
  rewrite <- Hk in E. destruct (has_derivation_path o) eqn:Eo.
  - apply path_bytes_split in E as [Ex5 E]; [|done..]. split; [|done]. split; by rewrite ?Eo.
  - split; [|done]. split; by rewrite ?Eo.
Qed.

(** Lists of parts that split off one by one. *)
Lemma parts_split {A} (f : A → list Z) (ok : A → Prop) (R : A → A → Prop) l : ∀ l' r s,
  (∀ x y r s, ok x → ok y → f x ++ r = f y ++ s → R x y ∧ r = s) →
  length l = length l' → Forall ok l → Forall ok l' →
  concat (map f l) ++ r = concat (map f l') ++ s → Forall2 R l l' ∧ r = s.
Proof.
  induction l as [|x l IH]; intros [|y l'] r s Hf Hl Hx Hy; try done.
  apply Forall_cons in Hx as [Hx Hxs]. apply Forall_cons in Hy as [Hy Hys]. cbn [map concat].
  rewrite <- !app_assoc. intros [HR E]%Hf; [|done|done]. injection Hl as Hl.
  apply IH in E as [HF ->]; [|done..]. split; [by constructor|done].
Qed.

Lemma commit_bytes_inj i1 o1 t1 v1 i2 o2 t2 v2 :
  Forall input_ok i1 → Forall output_ok o1 → Forall input_ok i2 → Forall output_ok o2 →
  u32_ok t1 → u32_ok v1 → u32_ok t2 → u32_ok v2 → u32_ok (zlen i1) → u32_ok (zlen o1) →
  u32_ok (zlen i2) → u32_ok (zlen o2) →
  commit_bytes i1 o1 t1 v1 = commit_bytes i2 o2 t2 v2 →
  t1 = t2 ∧ v1 = v2 ∧ Forall2 same_input i1 i2 ∧ Forall2 same_output o1 o2.
Proof.
  intros Hi1 Ho1 Hi2 Ho2 Ht1 Hv1 Ht2 Hv2 Hni1 Hno1 Hni2 Hno2. unfold commit_bytes. intros E.
  apply le_split in E as [Hv E]; [|done|done]. apply le_split in E as [Ht E]; [|done|done].
  apply le_split in E as [Hn E]; [|done|done].
  apply (parts_split _ input_ok same_input) in E as [HI E]; [|exact input_split|unfold zlen in Hn; lia|done|done].
  apply le_split in E as [Hm E]; [|done|done].
  rewrite <- (app_nil_r (concat (map commit_output_bytes o1))), <- (app_nil_r (concat (map _ o2))) in E.
  apply (parts_split _ output_ok same_output) in E as [HO _]; [|exact output_split|unfold zlen in Hm; lia|done|done].
  done.
Qed.

(** ** Parts that agree are shown and signed alike *)

Lemma obind_cong {A B} (m m' : outcome A) (k k' : A → outcome B) :
  m = m' → (∀ x, k x = k' x) → obind m k = obind m' k'.
Proof. intros <- Hk. destruct m; cbn; congruence. Qed.

Lemma tbind_cong {A B} (m m' : outcome (option A)) (k k' : A → outcome (option B)) :
  m = m' → (∀ x, k x = k' x) → tbind m k = tbind m' k'.
Proof. intros Hm Hk. apply obind_cong; [done|]. by intros [x|]. Qed.

Lemma spk_read o : output_ok o → mread (destination_spk o) 0 (destination_spk_len o) = Done (spk o).
Proof. intros [_ Hs Hn _ _ _]. unfold mread. zdecide. by rewrite zdrop_0. Qed.

Lemma path_read i : input_ok i → mread (in_path i) 0 (in_path_len i) = Done (path_in i).
Proof. intros [_ _ _ _ Hp _ Hl]. unfold mread. zdecide. by rewrite zdrop_0. Qed.

Lemma same_spk_len o p : output_ok o → output_ok p → same_output o p →
  destination_spk_len o = destination_spk_len p.
Proof. intros Ho Hp [_ Hs _ _]. by rewrite <- (spk_len_ok o Ho), <- (spk_len_ok p Hp), Hs. Qed.

Lemma same_feed_script o p c : output_ok o → output_ok p → same_output o p →
  feed_script (C := C) c (destination_spk o) (destination_spk_len o)
  = feed_script c (destination_spk p) (destination_spk_len p).
Proof.
  intros Ho Hp Hs. unfold feed_script, sha256_feed_n. rewrite (spk_read o Ho), (spk_read p Hp).
  rewrite (same_spk_len o p Ho Hp Hs). by destruct Hs as [_ -> _ _].
Qed.

Lemma same_classify l l' : Forall2 same_output l l' → ∀ i c, classify_outputs i c l = classify_outputs i c l'.
Proof.
  induction 1 as [|o p l l' [Ha _ Hk _] _ IH]; intros i c; [done|]. cbn [classify_outputs].
  by rewrite Ha, Hk, IH.
Qed.

(** Reading the same index of two lists of parts that agree. *)
Lemma same_aget {A B} (ok : A → Prop) (R : A → A → Prop) l l' n (k k' : A → outcome B) :
  Forall2 R l l' → Forall ok l → Forall ok l' → (∀ x y, ok x → ok y → R x y → k x = k' y) →
  obind (aget l n) k = obind (aget l' n) k'.
Proof.
  intros HR W1 W2 Hk. unfold aget. destruct (0 <=? n); [|done].
  destruct (l !! Z.to_nat n) as [x|] eqn:E1, (l' !! Z.to_nat n) as [y|] eqn:E2; cbn; [| | |done].
  - apply Hk; [by apply (Forall_lookup_1 _ _ _ _ W1 E1)|by apply (Forall_lookup_1 _ _ _ _ W2 E2)|].
    by apply (Forall2_lookup_lr _ _ _ _ _ _ HR E1 E2).
  - exfalso. apply (Forall2_lookup_l _ _ _ _ _ HR) in E1 as (z & Hz & _). congruence.
  - exfalso. apply (Forall2_lookup_r _ _ _ _ _ HR) in E2 as (z & Hz & _). congruence.
Qed.

Lemma same_zlen {A} (R : A → A → Prop) l l' : Forall2 R l l' → zlen l = zlen l'.
Proof. intros HR. unfold zlen. by rewrite (Forall2_length _ _ _ HR). Qed.

Lemma same_get_info i1 i2 o1 o2 network : Forall2 same_input i1 i2 → Forall2 same_output o1 o2 →
  Forall output_ok o1 → Forall output_ok o2 →
  raw_tx_get_info i1 o1 network = raw_tx_get_info i2 o2 network.
Proof.
  intros Hi Ho W1 W2. unfold raw_tx_get_info.
  assert (Hm : map in_amount i1 = map in_amount i2).
  { clear -Hi. induction Hi as [|x y l l' [] _ IH]; cbn; [done|]. by f_equal. }
  rewrite (same_zlen _ _ _ Hi), (same_zlen _ _ _ Ho), Hm, (same_classify _ _ Ho).
  destruct (_ || _); [done|]. destruct (_ || _); [done|].
  destruct (sum_amounts _ _); [|done]. destruct (classify_outputs _ _ _) as [c|]; [|done].
  destruct (_ || _); [done|]. destruct (_ <? _); [done|].
  apply obind_cong.
  - destruct (0 <=? external_index c); [|done]. apply (same_aget _ _ _ _ _ _ _ Ho W1 W2).
    intros x y Hx Hy Hs. rewrite (spk_read x Hx), (spk_read y Hy). by destruct Hs as [-> -> _ _].
  - intros [[[b a] s]|]; [|done]. apply obind_cong; [|done].
    destruct (0 <=? change_index c); [|done]. apply (same_aget _ _ _ _ _ _ _ Ho W1 W2).
    by intros x y _ _ [-> _ _ _].
Qed.

Lemma same_feed_outpoints l l' : Forall2 same_input l l' →
  ∀ c : C, feed_outpoints c l = feed_outpoints c l'.
Proof.
  induction 1 as [|i j l l' [Ha Hb _ _ _] _ IH]; intros c; [done|]. cbn [feed_outpoints]. rewrite Ha, Hb.
  apply tbind_cong; [done|]. intros c1. apply tbind_cong; [done|]. intros c2. apply IH.
Qed.

Lemma same_feed_sequences l l' : Forall2 same_input l l' →
  ∀ c : C, feed_sequences c l = feed_sequences c l'.
Proof.
  induction 1 as [|i j l l' [_ _ Hq _ _] _ IH]; intros c; [done|]. cbn [feed_sequences]. rewrite Hq.
  apply tbind_cong; [done|]. intros c1. apply IH.
Qed.

Lemma same_feed_outputs l l' : Forall2 same_output l l' → Forall output_ok l → Forall output_ok l' →
  ∀ c : C, feed_outputs c l = feed_outputs c l'.
Proof.
  induction 1 as [|o p l l' Hs _ IH]; intros W1 W2 c; [done|]. apply Forall_cons in W1 as [Wo W1].
  apply Forall_cons in W2 as [Wp W2]. cbn [feed_outputs]. pose proof (so_amount _ _ Hs) as ->.
  apply tbind_cong; [done|]. intros c1. rewrite (same_feed_script o p c1 Wo Wp Hs).
  apply tbind_cong; [done|]. intros c2. by apply IH.
Qed.

Lemma same_keypaths i j pks : input_ok i → input_ok j → same_input i j →
  copy_keypaths i pks = copy_keypaths j pks.
Proof.
  intros Hi Hj [_ _ _ _ Hp]. unfold copy_keypaths. rewrite (path_read i Hi), (path_read j Hj).
  destruct (path_in_ok i Hi) as (_ & _ & <-), (path_in_ok j Hj) as (_ & _ & <-). by rewrite Hp.
Qed.

Lemma same_sighash i1 i2 o1 o2 t v n script len type :
  Forall2 same_input i1 i2 → Forall2 same_output o1 o2 → Forall input_ok i1 → Forall input_ok i2 →
  Forall output_ok o1 → Forall output_ok o2 →
  bip143_sighash (C := C) i1 o1 t v n script len type = bip143_sighash i2 o2 t v n script len type.
Proof.
  intros Hi Ho Wi1 Wi2 Wo1 Wo2. unfold bip143_sighash.
  apply tbind_cong; [done|]. intros c1. apply tbind_cong; [by apply same_feed_outpoints|]. intros c2.
  apply tbind_cong; [done|]. intros h1. apply tbind_cong; [done|]. intros c3.
  apply tbind_cong; [by apply same_feed_sequences|]. intros c4. apply tbind_cong; [done|]. intros h2.
  apply tbind_cong; [done|]. intros c5. apply tbind_cong; [by apply same_feed_outputs|]. intros c6.
  do 5 (apply tbind_cong; [done|]; intros ?).
  apply (same_aget _ _ _ _ _ _ _ Hi Wi1 Wi2). by intros i j _ _ [-> -> -> -> _].
Qed.

Lemma same_signing_data i1 i2 o1 o2 t v n pks :
  Forall2 same_input i1 i2 → Forall2 same_output o1 o2 → Forall input_ok i1 → Forall input_ok i2 →
  Forall output_ok o1 → Forall output_ok o2 →
  raw_tx_p2wsh_input_signing_data (C := C) i1 o1 t v n pks = raw_tx_p2wsh_input_signing_data i2 o2 t v n pks.
Proof.
  intros Hi Ho Wi1 Wi2 Wo1 Wo2. unfold raw_tx_p2wsh_input_signing_data.
  rewrite (same_zlen _ _ _ Hi), (same_zlen _ _ _ Ho). destruct (_ || _); [done|].
  apply (same_aget _ _ _ _ _ _ _ Hi Wi1 Wi2). intros x y Hx Hy Hs.
  rewrite (same_keypaths x y pks Hx Hy Hs). apply obind_cong; [done|]. intros kps.
  destruct (witness_script_of pks); [|done]. by rewrite (same_sighash i1 i2 o1 o2).
Qed.

(** A session as the handlers keep it. *)
Record session_ok (inputs : list raw_tx_input_t) (outputs : list raw_tx_output_t) (lock_time version : Z)
    : Prop := {
  sn_inputs : Forall input_ok inputs;
  sn_outputs : Forall output_ok outputs;
  sn_lock : u32_ok lock_time;
  sn_version : u32_ok version;
  sn_n_inputs : u32_ok (zlen inputs);
  sn_n_outputs : u32_ok (zlen outputs);
}.

(** C18: A commitment stands for one transaction. When two sessions have the
    same commitment hash, and SHA-256 does not collide on the two encodings
    that are hashed, then the sessions agree on every field of the
    transaction: the same amounts, fee and destination are shown on every
    network, and for every input and keyset the very same data is signed. *)
Theorem commitment_binds i1 o1 t1 v1 i2 o2 t2 v2 h :
  session_ok i1 o1 t1 v1 → session_ok i2 o2 t2 v2 →
  raw_tx_session_commitment_hash (C := C) i1 o1 t1 v1 = Done (Some h) →
  raw_tx_session_commitment_hash (C := C) i2 o2 t2 v2 = Done (Some h) →
  (sha256 (C := C) (commit_bytes i1 o1 t1 v1) = sha256 (C := C) (commit_bytes i2 o2 t2 v2) →
   commit_bytes i1 o1 t1 v1 = commit_bytes i2 o2 t2 v2) →
  t1 = t2 ∧ v1 = v2
  ∧ (∀ network, raw_tx_get_info i1 o1 network = raw_tx_get_info i2 o2 network)
  ∧ (∀ n pks, raw_tx_p2wsh_input_signing_data (C := C) i1 o1 t1 v1 n pks
              = raw_tx_p2wsh_input_signing_data i2 o2 t2 v2 n pks).
Proof.
  intros [Wi1 Wo1 Wt1 Wv1 Wni1 Wno1] [Wi2 Wo2 Wt2 Wv2 Wni2 Wno2] E1 E2 Hcol.
  pose proof (commitment_spec i1 o1 t1 v1 Wi1 Wo1 Wt1 Wv1 Wni1 Wno1) as S1.
  pose proof (commitment_spec i2 o2 t2 v2 Wi2 Wo2 Wt2 Wv2 Wni2 Wno2) as S2.
  rewrite E1 in S1. rewrite E2 in S2. cbn in S1, S2.
  rewrite (S1 h eq_refl) in S2. specialize (Hcol (S2 _ eq_refl)).
  apply commit_bytes_inj in Hcol as (<- & <- & HI & HO); try done.
  split_and!; [done|done|..]; intros; [by apply same_get_info|by apply same_signing_data].
Qed.
End PsbtSpec.

(** ** A transaction *)

#[local] Existing Instance toy_sha256.
#[local] Existing Instance toy_sha256_laws.
#[local] Existing Instance toy_ew.
#[local] Existing Instance toy_ew_laws.

Definition demo_path_buf : list Z := demo_change_path ++ replicate 5 0.
Definition demo_inputs : list raw_tx_input_t :=
  [mk_input (replicate 32 17) 0 0xFFFFFFFD 60000 demo_path_buf 5;
   mk_input (replicate 32 19) 4 0xFFFFFFFD 45000 demo_path_buf 5].
Definition demo_spk (b : Z) (rest : list Z) : list Z := 0 :: 32 :: replicate 32 b ++ rest.
Definition demo_outputs : list raw_tx_output_t :=
  [mk_output 70000 (demo_spk 5 (replicate 30 0)) 34 false (replicate 10 0) 0;
   mk_output 34000 (demo_spk 9 (replicate 30 0)) 34 true demo_path_buf 5].
(** The same transaction with other bytes in the unused parts of its buffers. *)
Definition demo_outputs' : list raw_tx_output_t :=
  [mk_output 70000 (demo_spk 5 (replicate 30 1)) 34 false (replicate 10 3) 0;
   mk_output 34000 (demo_spk 9 (replicate 30 2)) 34 true demo_path_buf 5].

Ltac ok_parts := repeat constructor; vm_compute; congruence.

Lemma demo_inputs_ok : Forall input_ok demo_inputs.
Proof. ok_parts. Qed.
Lemma demo_outputs_ok : Forall output_ok demo_outputs.
Proof. ok_parts. Qed.
Lemma demo_outputs'_ok : Forall output_ok demo_outputs'.
Proof. ok_parts. Qed.

Lemma demo_session_ok : session_ok demo_inputs demo_outputs 0 2.
Proof. split; [exact demo_inputs_ok|exact demo_outputs_ok|..]; ok_parts. Qed.
Lemma demo_session'_ok : session_ok demo_inputs demo_outputs' 0 2.
Proof. split; [exact demo_inputs_ok|exact demo_outputs'_ok|..]; ok_parts. Qed.

Lemma raw_tx_info_exact_witness :
  (∃ info, raw_tx_get_info demo_inputs demo_outputs EW_NETWORK_MAINNET = Done (PSBT_OK, info)
           ∧ fee_amount_sats info = 1000)
  ∧ safe (λ '(e, info), e = PSBT_OK → shown_exactly demo_inputs demo_outputs EW_NETWORK_MAINNET info)
      (raw_tx_get_info demo_inputs demo_outputs EW_NETWORK_MAINNET).
Proof.
  split; [eexists; vm_compute; split; reflexivity|].
  apply (raw_tx_info_exact demo_inputs demo_outputs EW_NETWORK_MAINNET demo_inputs_ok demo_outputs_ok).
Defined.

Definition demo_pks : list Z := replicate 33 2 ++ replicate 33 3 ++ replicate 33 4.

Lemma signing_data_is_bip143_witness : ∃ d,
  raw_tx_p2wsh_input_signing_data (C := list Z) demo_inputs demo_outputs 0 2 1 demo_pks = Done (PSBT_OK, Some d)
  ∧ sighash d = bip143 (C := list Z) demo_inputs demo_outputs 0 2
      (mk_input (replicate 32 19) 4 0xFFFFFFFD 45000 demo_path_buf 5) (witness_script d) PSBT_SIGHASH_ALL.
Proof.
  eexists. split; [vm_compute; reflexivity|].
  pose proof (signing_data_is_bip143 (C := list Z) demo_inputs demo_outputs 0 2 1
    (mk_input (replicate 32 19) 4 0xFFFFFFFD 45000 demo_path_buf 5) demo_pks
    demo_inputs_ok demo_outputs_ok ltac:(ok_parts) ltac:(ok_parts) ltac:(ok_parts) eq_refl) as Hs.
  match type of Hs with safe _ ?m => let r := eval vm_compute in m in
    assert (Em : m = r) by (vm_compute; reflexivity); rewrite Em in Hs end.
  destruct (Hs eq_refl) as (d & [= <-] & _ & Hd & _). exact Hd.
Defined.

Lemma commitment_binds_witness :
  raw_tx_session_commitment_hash (C := list Z) demo_inputs demo_outputs 0 2
    = raw_tx_session_commitment_hash (C := list Z) demo_inputs demo_outputs' 0 2
  ∧ raw_tx_get_info demo_inputs demo_outputs EW_NETWORK_MAINNET
    = raw_tx_get_info demo_inputs demo_outputs' EW_NETWORK_MAINNET.
Proof.
  split; [vm_compute; reflexivity|].
  eapply (commitment_binds (C := list Z) demo_inputs demo_outputs 0 2 demo_inputs demo_outputs' 0 2).
  - exact demo_session_ok.
  - exact demo_session'_ok.
  - vm_compute. reflexivity.
  - vm_compute. reflexivity.
  - intros _. vm_compute. reflexivity.
Defined.
