(* ===== verification/SignKey.v ===== *)
(** * Signing with the keys of the wallet

    lib/policy/policy.c, the signing thread of
    app/tasks/key_manager/src/core/crypto_task.c and the signing of P2WSH inputs
    of psbt_signing.c. The signature itself is [crypto_ecc_sign_hash] of the
    crypto library, and its encoding libew's: the class [Ecdsa]. *)

From S2P Require Import Prelude Wstring Fs Wkek Bip32 WalletKeys WalletAddr Psbt.

Definition ECC_SIG_SIZE : Z := 64.
Definition PSBT_DER_SIGNATURE_MAX_LEN : Z := 72.
Definition PSBT_SIGNATURE_MAX_LEN : Z := PSBT_DER_SIGNATURE_MAX_LEN + 1.

(** [crypto_ecc_sign_hash] gets the private key and the digest; the last
    argument of [ew_ec_sig_to_der] is the size of its buffer. *)
Class Ecdsa := {
  crypto_ecc_sign_hash : list Z → list Z → option (list Z);
  ew_ec_sig_normalize : list Z → option (list Z);
  ew_ec_sig_to_der : list Z → Z → option (list Z);
}.

Class EcdsaLaws `{Ecdsa} : Prop := {
  law_sign_size k h s : crypto_ecc_sign_hash k h = Some s → zlen s = ECC_SIG_SIZE;
  law_der_size s n d : ew_ec_sig_to_der s n = Some d → zlen d ≤ n;
}.

Inductive policy_sign_result_t :=
| POLICY_SIGN_SUCCESS
| POLICY_SIGN_POLICY_VIOLATION
| POLICY_SIGN_SIGNING_ERROR.
#[global] Instance policy_sign_result_eq_dec : EqDecision policy_sign_result_t.
Proof. solve_decision. Defined.

(** The path that [fetch_path_cb] returns, [None] before [policy_init]. *)
Record policy_ctx_t := mk_policy {
  fetch_path_cb : option (list Z);
  policy_enabled : secure_bool_t;
  grant_presented : secure_bool_t;
}.

Definition policy_boot : policy_ctx_t := mk_policy None SECURE_TRUE SECURE_FALSE.

Definition policy_init (p : policy_ctx_t) (cb : list Z) (enabled : secure_bool_t) : policy_ctx_t :=
  mk_policy (Some cb) enabled (grant_presented p).

Definition policy_disable (p : policy_ctx_t) : policy_ctx_t :=
  mk_policy (fetch_path_cb p) SECURE_FALSE (grant_presented p).

Definition policy_present_grant (p : policy_ctx_t) : policy_ctx_t :=
  mk_policy (fetch_path_cb p) (policy_enabled p) SECURE_TRUE.

(** Two paths of the same length, compared index by index. *)
Definition path_matches_allowed_path (path allowed : list Z) : bool :=
  (zlen path =? zlen allowed) && forallb (λ '(x, y), x =? y) (combine path allowed).

Inductive crypto_task_status_t :=
| CRYPTO_TASK_WAITING
| CRYPTO_TASK_IN_PROGRESS
| CRYPTO_TASK_SUCCESS
| CRYPTO_TASK_ERROR
| CRYPTO_TASK_DERIVATION_FAILED
| CRYPTO_TASK_SIGNING_FAILED
| CRYPTO_TASK_POLICY_VIOLATION.
#[global] Instance crypto_task_status_eq_dec : EqDecision crypto_task_status_t.
Proof. solve_decision. Defined.

Inductive key_manager_psbt_sign_result_t :=
| KEY_MANAGER_PSBT_SIGN_OK
| KEY_MANAGER_PSBT_SIGN_INVALID_PARAM
| KEY_MANAGER_PSBT_SIGN_PSBT_ERROR
| KEY_MANAGER_PSBT_SIGN_KEYPATH_MISMATCH
| KEY_MANAGER_PSBT_SIGN_CRYPTO_BUSY
| KEY_MANAGER_PSBT_SIGN_DERIVATION_FAILED
| KEY_MANAGER_PSBT_SIGN_SIGNING_FAILED
| KEY_MANAGER_PSBT_SIGN_POLICY_VIOLATION
| KEY_MANAGER_PSBT_SIGN_CRYPTO_ERROR
| KEY_MANAGER_PSBT_SIGN_OUTPUT_TOO_SMALL.
#[global] Instance key_manager_psbt_sign_result_eq_dec : EqDecision key_manager_psbt_sign_result_t.
Proof. solve_decision. Defined.

Record key_manager_psbt_input_t := mk_km_input {
  km_input_index : Z;
  signing_data : psbt_p2wsh_signing_data_t;
}.

(** The first [signature_len] bytes of the buffer of the signature. *)
Record key_manager_psbt_signature_t := mk_km_sig {
  sig_input_index : Z;
  sig_pubkey : list Z;
  sig_signature : list Z;
  sig_sighash_type : Z;
}.

(** [crypto_thread_priv]: the scratch array has 256 indices. *)
Record crypto_thread_t := mk_crypto {
  ct_status : crypto_task_status_t;
  ct_num_indices : Z;
  ct_indices_scratch : list Z;
  ct_hash : list Z;
  ct_signature : list Z;
}.

Definition crypto_thread_boot : crypto_thread_t :=
  mk_crypto CRYPTO_TASK_WAITING 0 (replicate 256 0) (replicate 32 0) (replicate 64 0).

Definition set_status (c : crypto_thread_t) (s : crypto_task_status_t) : crypto_thread_t :=
  mk_crypto s (ct_num_indices c) (ct_indices_scratch c) (ct_hash c) (ct_signature c).

Definition crypto_task_get_status (c : crypto_thread_t) : crypto_task_status_t := ct_status c.
Definition crypto_task_reset_status (c : crypto_thread_t) : crypto_thread_t :=
  set_status c CRYPTO_TASK_WAITING.

Definition crypto_task_set_parameters (c : crypto_thread_t) (path hash : list Z)
    : outcome crypto_thread_t :=
  let! _ := ASSERT (bool_decide (ct_status c = CRYPTO_TASK_WAITING)) in
  let! h := mread hash 0 32 in
  let! _ := ASSERT (zlen path <=? BIP32_MAX_DERIVATION_DEPTH) in
  let! scratch := mwrite (ct_indices_scratch c) 0 path in
  Done (mk_crypto CRYPTO_TASK_IN_PROGRESS (zlen path) scratch h (ct_signature c)).

(** The signature, when the hash and the indices are the expected ones. *)
Definition crypto_task_get_and_clear_signature (c : crypto_thread_t) (expected_hash expected_indices : list Z)
    : outcome (option (list Z) * crypto_thread_t) :=
  let! _ := ASSERT (bool_decide (ct_status c = CRYPTO_TASK_SUCCESS)) in
  let! r1 := memcmp_s (ct_hash c) expected_hash 32 in
  let! r2 := memcmp_s (words_bytes (ct_indices_scratch c)) (words_bytes expected_indices)
               (zlen expected_indices * 4) in
  Done (if (r1 =? 0) && (r2 =? 0) then Some (ct_signature c) else None,
        mk_crypto CRYPTO_TASK_WAITING (ct_num_indices c) (replicate 256 0) (replicate 32 0)
          (replicate 64 0)).

Section SignKey.
Context {L E : Type} `{Littlefs L} `{SecureElement E} `{Secp} `{Ecdsa}.

(** Success and the signature buffer, zeroed when signing fails. *)
Definition bip32_sign (k : extended_key_t) (digest : list Z) : bool * list Z :=
  match crypto_ecc_sign_hash (key k) digest with
  | Some s => (true, s)
  | None => (false, replicate 64 0)
  end.

(** [signature_out] is what the buffer of the caller holds. *)
Definition bip32_sign_with_policy (p : policy_ctx_t) (k : extended_key_t) (path digest signature_out : list Z)
    : outcome (policy_sign_result_t * list Z) :=
  match fetch_path_cb p with
  | None => Abort
  | Some allowed =>
      let can_sign :=
        (policy_enabled p =? SECURE_FALSE)
        || ((policy_enabled p =? SECURE_TRUE) && (grant_presented p =? SECURE_TRUE))
        || ((policy_enabled p =? SECURE_TRUE) && (grant_presented p =? SECURE_FALSE)
            && path_matches_allowed_path path allowed) in
      if negb can_sign then Done (POLICY_SIGN_POLICY_VIOLATION, signature_out)
      else
        let '(ok, s) := bip32_sign k digest in
        Done (if ok : bool then POLICY_SIGN_SUCCESS else POLICY_SIGN_SIGNING_ERROR, s)
  end.

(** The wallet, the policy and the signing thread. *)
Record signer := mk_signer {
  sg_wallet : wallet_ctx L E;
  sg_policy : policy_ctx_t;
  sg_crypto : crypto_thread_t;
}.

Definition set_wallet (g : signer) (w : wallet_ctx L E) : signer := mk_signer w (sg_policy g) (sg_crypto g).
Definition set_crypto (g : signer) (c : crypto_thread_t) : signer := mk_signer (sg_wallet g) (sg_policy g) c.

Definition crypto_derive_and_sign (g : signer) : outcome signer :=
  let c := sg_crypto g in
  let! _ := ASSERT (bool_decide (ct_status c = CRYPTO_TASK_IN_PROGRESS)) in
  let! path := mread (ct_indices_scratch c) 0 (ct_num_indices c) in
  let! '(ok, key_priv, w) := wallet_derive_key_priv_using_cache (sg_wallet g) zero_key path in
  let g := set_wallet g w in
  if negb ok then Done (set_crypto g (set_status c CRYPTO_TASK_DERIVATION_FAILED))
  else
    let! '(r, s) := bip32_sign_with_policy (sg_policy g) key_priv path (ct_hash c) (ct_signature c) in
    let st := match r with
              | POLICY_SIGN_SUCCESS => CRYPTO_TASK_SUCCESS
              | POLICY_SIGN_SIGNING_ERROR => CRYPTO_TASK_SIGNING_FAILED
              | POLICY_SIGN_POLICY_VIOLATION => CRYPTO_TASK_POLICY_VIOLATION
              end in
    Done (set_crypto g (mk_crypto st (ct_num_indices c) (ct_indices_scratch c) (ct_hash c) s)).

(** *** psbt_signing.c *)

(** The caller sleeps while the thread works: the turn of [crypto_thread] that
    the signal starts runs to its end, then the status is read. *)
Definition psbt_sign_hash_with_crypto_task (g : signer) (path hash : list Z)
    : outcome (key_manager_psbt_sign_result_t * list Z * signer) :=
  if negb (bool_decide (crypto_task_get_status (sg_crypto g) = CRYPTO_TASK_WAITING))
  then Done (KEY_MANAGER_PSBT_SIGN_CRYPTO_BUSY, [], g)
  else
    let! c := crypto_task_set_parameters (sg_crypto g) path hash in
    let! g := crypto_derive_and_sign (set_crypto g c) in
    let failed r := Done (r, [], set_crypto g (crypto_task_reset_status (sg_crypto g))) in
    match crypto_task_get_status (sg_crypto g) with
    | CRYPTO_TASK_SUCCESS =>
        let! '(s, c) := crypto_task_get_and_clear_signature (sg_crypto g) hash path in
        match s with
        | None => Done (KEY_MANAGER_PSBT_SIGN_CRYPTO_ERROR, [], set_crypto g c)
        | Some s => Done (KEY_MANAGER_PSBT_SIGN_OK, s, set_crypto g c)
        end
    | CRYPTO_TASK_DERIVATION_FAILED => failed KEY_MANAGER_PSBT_SIGN_DERIVATION_FAILED
    | CRYPTO_TASK_SIGNING_FAILED => failed KEY_MANAGER_PSBT_SIGN_SIGNING_FAILED
    | CRYPTO_TASK_POLICY_VIOLATION => failed KEY_MANAGER_PSBT_SIGN_POLICY_VIOLATION
    | _ => failed KEY_MANAGER_PSBT_SIGN_CRYPTO_ERROR
    end.

Definition psbt_compact_sig_to_der (sig : list Z) (der_out_len : Z) : psbt_error_t * list Z :=
  if negb (zlen sig =? ECC_SIG_SIZE) || (der_out_len =? 0) then (PSBT_ERROR_INVALID_PARAM, [])
  else
    match ew_ec_sig_normalize sig with
    | None => (PSBT_ERROR_PARSE_FAILED, [])
    | Some normalized =>
        match ew_ec_sig_to_der normalized der_out_len with
        | None => (PSBT_ERROR_PARSE_FAILED, [])
        | Some der => (PSBT_OK, der)
        end
    end.

(** The public key that the wallet has at a path, if it has one. *)
Definition wallet_pubkey_at (w : wallet_ctx L E) (path : list Z)
    : outcome (option (list Z) * wallet_ctx L E) :=
  let! '(ok, key_priv, w) := wallet_derive_key_priv_using_cache w zero_key path in
  if negb ok then Done (None, w)
  else
    let! '(ok, key_pub) := bip32_priv_to_pub key_priv zero_key in
    Done (if ok : bool then Some (sec1 key_pub) else None, w).

(** The loop over the keypaths: the last one whose key is ours and the number
    of those seen, stopping at the second. *)
Fixpoint match_keypaths (w : wallet_ctx L E) (kps : list psbt_keypath_t) (found : option psbt_keypath_t)
    (count : Z) : outcome (option psbt_keypath_t * Z * wallet_ctx L E) :=
  match kps with
  | [] => Done (found, count, w)
  | kp :: rest =>
      let! path := mread (kp_path kp) 0 (kp_path_len kp) in
      let! '(pub, w) := wallet_pubkey_at w path in
      match pub with
      | None => match_keypaths w rest found count
      | Some pub =>
          if bool_decide (pub = kp_pubkey kp) then
            if 1 <? count + 1 then Done (Some kp, count + 1, w)
            else match_keypaths w rest (Some kp) (count + 1)
          else match_keypaths w rest found count
      end
  end.

(** One input: the signature, or the error. *)
Definition sign_p2wsh_input (g : signer) (input : key_manager_psbt_input_t)
    : outcome (key_manager_psbt_sign_result_t * option key_manager_psbt_signature_t * signer) :=
  let d := signing_data input in
  let! '(found, count, w) := match_keypaths (sg_wallet g) (keypaths d) None 0 in
  let g := set_wallet g w in
  match found with
  | None => Done (KEY_MANAGER_PSBT_SIGN_KEYPATH_MISMATCH, None, g)
  | Some kp =>
      if negb (count =? 1) then Done (KEY_MANAGER_PSBT_SIGN_KEYPATH_MISMATCH, None, g)
      else
        let! path := mread (kp_path kp) 0 (kp_path_len kp) in
        let! '(r, compact_sig, g) := psbt_sign_hash_with_crypto_task g path (sighash d) in
        if negb (bool_decide (r = KEY_MANAGER_PSBT_SIGN_OK)) then Done (r, None, g)
        else
          let '(e, der) := psbt_compact_sig_to_der compact_sig PSBT_DER_SIGNATURE_MAX_LEN in
          if negb (bool_decide (e = PSBT_OK)) then Done (KEY_MANAGER_PSBT_SIGN_CRYPTO_ERROR, None, g)
          else if PSBT_SIGNATURE_MAX_LEN <? zlen der + 1
          then Done (KEY_MANAGER_PSBT_SIGN_CRYPTO_ERROR, None, g)
          else
            Done (KEY_MANAGER_PSBT_SIGN_OK,
                  Some (mk_km_sig (km_input_index input) (kp_pubkey kp)
                          (der ++ [Z.land (sighash_type d) 0xff]) (sighash_type d)), g)
  end.

Fixpoint sign_p2wsh_loop (g : signer) (inputs : list key_manager_psbt_input_t)
    (sigs : list key_manager_psbt_signature_t)
    : outcome (key_manager_psbt_sign_result_t * list key_manager_psbt_signature_t * signer) :=
  match inputs with
  | [] => Done (KEY_MANAGER_PSBT_SIGN_OK, sigs, g)
  | i :: rest =>
      let! '(r, s, g) := sign_p2wsh_input g i in
      match s with
      | None => Done (r, [], g)
      | Some s => sign_p2wsh_loop g rest (sigs ++ [s])
      end
  end.

(** The first [sigs_written] signatures. *)
Definition key_manager_psbt_sign_p2wsh_inputs (g : signer) (inputs : list key_manager_psbt_input_t)
    (sigs_out_len : Z) : outcome (key_manager_psbt_sign_result_t * list key_manager_psbt_signature_t * signer) :=
  if zlen inputs =? 0 then Done (KEY_MANAGER_PSBT_SIGN_INVALID_PARAM, [], g)
  else if sigs_out_len <? zlen inputs then Done (KEY_MANAGER_PSBT_SIGN_OUTPUT_TOO_SMALL, [], g)
  else sign_p2wsh_loop g inputs [].
End SignKey.

Arguments signer : clear implicits.
