(* ===== verification/SignSession.v ===== *)
(** * Signing sessions (app/tasks/key_manager/src/w3-core/key_manager_task_port.c)

    The three sessions of the key manager task, the union that they share, and
    the commitments that bind a confirmation to a session. *)

From S2P Require Import Prelude Sha256 Fs Wkek Bip32 WalletKeys WalletAddr Psbt SignKey.

Definition STREAM_TX_MAX_INPUTS : Z := 400.
Definition STREAM_TX_MAX_OUTPUTS : Z := 10.
Definition STREAM_HEADER_SIZE : Z := 16.
Definition STREAM_INPUT_RECORD_SIZE : Z := 69.
Definition STREAM_OUTPUT_RECORD_SIZE : Z := 66.
Definition STREAM_PAYLOAD_PATH : string := "signing_payload".
Definition STREAM_SIGS_PATH : string := "signing_sigs".
Definition SIG_RECORD_SIZE : Z := 33 + 1 + 73.
Definition CONFIRMATION_TYPE_SIGN_TRANSACTION : Z := 3.
Definition CONFIRMATION_TYPE_SIGN_ACTION_PROOF : Z := 4.

(** The status codes of wallet.proto that these handlers use. *)
Inductive fwpb_status :=
| fwpb_status_UNSPECIFIED
| fwpb_status_SUCCESS
| fwpb_status_ERROR
| fwpb_status_KEY_DERIVATION_FAILED
| fwpb_status_SIGNING_FAILED
| fwpb_status_STORAGE_ERR
| fwpb_status_FILE_NOT_FOUND
| fwpb_status_INVALID_STATE
| fwpb_status_IN_PROGRESS
| fwpb_status_INVALID_ARGUMENT
| fwpb_status_VERIFICATION_FAILED
| fwpb_status_CONFIRMATION_PENDING
| fwpb_status_DESCRIPTOR_NOT_LOADED
| fwpb_status_CONFIRMATION_NOT_COMPLETED
| fwpb_status_CONFIRMATION_MISMATCH
| fwpb_status_SEAL_CSEK_UNSEAL_FAILED.
#[global] Instance fwpb_status_eq_dec : EqDecision fwpb_status.
Proof. solve_decision. Defined.

Inductive stream_signing_state_t :=
| STREAM_STATE_IDLE
| STREAM_STATE_RECEIVING
| STREAM_STATE_FINALIZED
| STREAM_STATE_CONFIRMED.
#[global] Instance stream_signing_state_eq_dec : EqDecision stream_signing_state_t.
Proof. solve_decision. Defined.

Definition zero_xpub : xpub_t := mk_xpub (replicate 33 0) (replicate 32 0).

Record sweep_context_t := mk_sweep {
  sw_active : bool;
  sw_old_account_index : Z;
  sw_app_xpub : xpub_t;
  sw_server_xpub : xpub_t;
  sw_hw_xpub : xpub_t;
}.

Definition zero_sweep : sweep_context_t := mk_sweep false 0 zero_xpub zero_xpub zero_xpub.

(** The first [num_inputs] inputs, [num_outputs] outputs and [num_signatures]
    signatures of the arrays. *)
Record w3_signing_session_t := mk_signing {
  ss_active : bool;
  ss_inputs : list raw_tx_input_t;
  ss_outputs : list raw_tx_output_t;
  ss_lock_time : Z;
  ss_version : Z;
  ss_signatures : list key_manager_psbt_signature_t;
  ss_sign_result : fwpb_status;
  ss_sweep : sweep_context_t;
}.

Definition zero_signing : w3_signing_session_t :=
  mk_signing false [] [] 0 0 [] fwpb_status_UNSPECIFIED zero_sweep.

Definition set_sign_result (s : w3_signing_session_t) (r : fwpb_status) : w3_signing_session_t :=
  mk_signing (ss_active s) (ss_inputs s) (ss_outputs s) (ss_lock_time s) (ss_version s)
    (ss_signatures s) r (ss_sweep s).

Definition set_signatures (s : w3_signing_session_t) (l : list key_manager_psbt_signature_t)
    : w3_signing_session_t :=
  mk_signing (ss_active s) (ss_inputs s) (ss_outputs s) (ss_lock_time s) (ss_version s)
    l (ss_sign_result s) (ss_sweep s).

Record stream_signing_session_t (C : Type) := mk_stream {
  st_state : stream_signing_state_t;
  st_num_inputs : Z;
  st_num_outputs : Z;
  st_version : Z;
  st_lock_time : Z;
  st_expected_payload_size : Z;
  st_bytes_received : Z;
  st_next_sequence_id : Z;
  st_commitment_ctx : C;
  st_hash_prevouts : list Z;
  st_hash_sequence : list Z;
  st_hash_outputs : list Z;
  st_sigs_computed : Z;
  st_precompute_done : bool;
  st_precompute_failed : bool;
  st_btc_display_unit : Z;
  st_payload_hash : list Z;
  st_sweep : sweep_context_t;
}.
Arguments mk_stream {C}.
Arguments st_state {C}.
Arguments st_num_inputs {C}.
Arguments st_num_outputs {C}.
Arguments st_version {C}.
Arguments st_lock_time {C}.
Arguments st_expected_payload_size {C}.
Arguments st_bytes_received {C}.
Arguments st_next_sequence_id {C}.
Arguments st_commitment_ctx {C}.
Arguments st_hash_prevouts {C}.
Arguments st_hash_sequence {C}.
Arguments st_hash_outputs {C}.
Arguments st_sigs_computed {C}.
Arguments st_precompute_done {C}.
Arguments st_precompute_failed {C}.
Arguments st_btc_display_unit {C}.
Arguments st_payload_hash {C}.
Arguments st_sweep {C}.

Definition zero_stream {C} (ctx : C) : stream_signing_session_t C :=
  mk_stream STREAM_STATE_IDLE 0 0 0 0 0 0 0 ctx (replicate 32 0) (replicate 32 0) (replicate 32 0)
    0 false false 0 (replicate 32 0) zero_sweep.

(** A C string of the request is the list of its characters. *)
Record sap_pending_data_t := mk_sap_data {
  sap_valid : bool;
  sap_version : Z;
  sap_action : list Z;
  sap_value : list Z;
  sap_bindings : list Z;
}.

Record sap_session_t := mk_sap {
  sap_pending_data : sap_pending_data_t;
  sap_payload_buffer : list Z;
  sap_signature : list Z;
  sap_signed_ok : bool;
  sap_sign_attempted : bool;
  sap_sign_result : fwpb_status;
}.

Definition zero_sap : sap_session_t :=
  mk_sap (mk_sap_data false 0 [] [] []) (replicate 600 0) (replicate 64 0) false false
    fwpb_status_UNSPECIFIED.

(** [session_union]: the memory and its three members. [zero_ctx] is a hash
    context of zero bytes. What a member reads after another one was written is
    the layout that the compiler chose; the laws have what the source relies on:
    a member reads back what was written through it, the memory starts zeroed
    and is zero again once all three members are cleared, and the flag at the
    start of the one-shot and of the action-proof session lies on the state of
    the streaming session. *)
Class SessionUnion (C M : Type) := {
  zero_ctx : C;
  union_boot : M;
  get_signing : M → w3_signing_session_t;
  put_signing : M → w3_signing_session_t → M;
  get_stream : M → stream_signing_session_t C;
  put_stream : M → stream_signing_session_t C → M;
  get_sap : M → sap_session_t;
  put_sap : M → sap_session_t → M;
}.

Definition first_flag (b : bool) : stream_signing_state_t :=
  if b then STREAM_STATE_RECEIVING else STREAM_STATE_IDLE.

Class SessionUnionLaws (C M : Type) `{SessionUnion C M} : Prop := {
  law_get_signing m s : get_signing (put_signing m s) = s;
  law_get_stream m s : get_stream (put_stream m s) = s;
  law_get_sap m s : get_sap (put_sap m s) = s;
  law_boot : get_signing union_boot = zero_signing ∧ get_stream union_boot = zero_stream zero_ctx
    ∧ get_sap union_boot = zero_sap;
  law_reset m : let m := put_sap (put_stream (put_signing m zero_signing) (zero_stream zero_ctx)) zero_sap in
    get_signing m = zero_signing ∧ get_stream m = zero_stream zero_ctx ∧ get_sap m = zero_sap;
  law_signing_state m s : st_state (get_stream (put_signing m s)) = first_flag (ss_active s);
  law_sap_state m s :
    st_state (get_stream (put_sap m s)) = first_flag (sap_valid (sap_pending_data s));
  law_stream_active m t b : st_state t = first_flag b → ss_active (get_signing (put_stream m t)) = b;
  law_sap_active m s : ss_active (get_signing (put_sap m s)) = sap_valid (sap_pending_data s);
  law_signing_valid m s : sap_valid (sap_pending_data (get_sap (put_signing m s))) = ss_active s;
  law_stream_valid m t b : st_state t = first_flag b →
    sap_valid (sap_pending_data (get_sap (put_stream m t))) = b;
}.

(** [tx_session_confirmation_data_t] as it lies in memory, and the field
    [session_hash] of it. The streaming variant has the same layout. *)
Definition info_bytes (i : psbt_info_t) : list Z :=
  [if has_destination i then 1 else 0] ++ ztake 91 (destination_address i ++ replicate 91 0)
    ++ replicate 4 0 ++ le_encode 8 (send_amount_sats i) ++ le_encode 8 (change_amount_sats i)
    ++ le_encode 8 (fee_amount_sats i).
Definition confirmation_bytes (i : psbt_info_t) (session_hash : list Z) : list Z :=
  info_bytes i ++ session_hash.
Definition session_hash_of (data : list Z) : list Z := zdrop 120 data.
Definition CONFIRMATION_DATA_SIZE : Z := 120 + 32.

Section SignSession.
Context {C : Type} `{Sha256 C}.

Definition compute_session_commitment_hash (s : w3_signing_session_t) : outcome (option (list Z)) :=
  raw_tx_session_commitment_hash (C := C) (ss_inputs s) (ss_outputs s) (ss_lock_time s) (ss_version s).

Definition compute_stream_session_commitment_hash (s : stream_signing_session_t C) (payload_hash : list Z)
    : option (list Z) :=
  ctx ← crypto_sha256_stream_init;
  ctx ← crypto_sha256_stream_update ctx (st_hash_prevouts s);
  ctx ← crypto_sha256_stream_update ctx (st_hash_sequence s);
  ctx ← crypto_sha256_stream_update ctx (st_hash_outputs s);
  ctx ← crypto_sha256_stream_update ctx (le_encode 4 (st_version s));
  ctx ← crypto_sha256_stream_update ctx (le_encode 4 (st_lock_time s));
  ctx ← crypto_sha256_stream_update ctx (le_encode 4 (st_num_inputs s));
  ctx ← crypto_sha256_stream_update ctx (le_encode 4 (st_num_outputs s));
  ctx ← crypto_sha256_stream_update ctx payload_hash;
  crypto_sha256_stream_final ctx.
End SignSession.

Definition map_psbt_sign_result (r : key_manager_psbt_sign_result_t) : fwpb_status :=
  match r with
  | KEY_MANAGER_PSBT_SIGN_OK => fwpb_status_SUCCESS
  | KEY_MANAGER_PSBT_SIGN_INVALID_PARAM => fwpb_status_INVALID_ARGUMENT
  | KEY_MANAGER_PSBT_SIGN_KEYPATH_MISMATCH => fwpb_status_KEY_DERIVATION_FAILED
  | KEY_MANAGER_PSBT_SIGN_DERIVATION_FAILED => fwpb_status_KEY_DERIVATION_FAILED
  | KEY_MANAGER_PSBT_SIGN_CRYPTO_BUSY => fwpb_status_IN_PROGRESS
  | KEY_MANAGER_PSBT_SIGN_SIGNING_FAILED => fwpb_status_SIGNING_FAILED
  | _ => fwpb_status_ERROR
  end.

(** ** Keys of an input *)

(** [derivation_path[2]] without its hardened bit. *)
Definition input_account (i : raw_tx_input_t) : outcome Z :=
  let! x := aget (in_path i) 2 in Done (unhardened x).

Inductive child_keys :=
| keys_path_too_long
| keys_derive_failed
| keys_derived (pubkeys : list Z).

Section ChildKeys.
Context `{Secp}.

Definition derive_child_pubkey_from_xpub (x : xpub_t) (full_path : list Z) (account_depth : Z)
    : outcome (option (list Z)) :=
  if zlen full_path <=? account_depth then Done None
  else
    let! k := xpub_key x in
    let! '(ok, child) := bip32_derive_path_pub k (zdrop account_depth full_path) in
    Done (if ok : bool then Some (sec1 child) else None).

(** The buffer [server_path] has ten words, of which the first
    [derivation_path_len] are used. *)
Definition input_server_path (path : list Z) : outcome (list Z) :=
  let! buf := mwrite (replicate 10 0) 0 (map unhardened path) in
  let! buf := aset buf 2 0 in
  mread buf 0 (zlen path).

Definition derive_child_pubkeys (app hw server : xpub_t) (i : raw_tx_input_t) : outcome child_keys :=
  if PSBT_BIP32_PATH_MAX_LEN <? in_path_len i then Done keys_path_too_long
  else
    let! path := mread (in_path i) 0 (in_path_len i) in
    let! sp := input_server_path path in
    let! a := derive_child_pubkey_from_xpub app path 3 in
    match a with
    | None => Done keys_derive_failed
    | Some a =>
        let! h := derive_child_pubkey_from_xpub hw path 3 in
        match h with
        | None => Done keys_derive_failed
        | Some h =>
            let! s := derive_child_pubkey_from_xpub server sp 0 in
            match s with
            | None => Done keys_derive_failed
            | Some s => Done (keys_derived (a ++ h ++ s))
            end
        end
    end.

(** The account that inputs must have and the account keys, of a sweep or of
    the current keyset. *)
Definition expected_account (sw : sweep_context_t) (k : wallet_keyset_t) : Z :=
  if sw_active sw then sw_old_account_index sw else ks_account_index k.
Definition session_pubkeys (sw : sweep_context_t) (k : wallet_keyset_t) (i : raw_tx_input_t)
    : outcome child_keys :=
  if sw_active sw then derive_child_pubkeys (sw_app_xpub sw) (sw_hw_xpub sw) (sw_server_xpub sw) i
  else derive_child_pubkeys (ks_app k) (ks_hw k) (ks_server k) i.
End ChildKeys.
