(* ===== verification/SignFrame.v ===== *)
(** * What signing leaves alone

    Deriving keys, reading the keyset and signing go through the file system.
    None of these calls touches the payload of a streamed session, whatever
    they return. *)

From S2P Require Import Prelude Wstring Fs Wkek Bip32 WalletKeys WalletAddr Psbt SignKey SignSession.

(** ** Results of calls that return *)

Definition post {A} (P : A → Prop) (m : outcome A) : Prop := ∀ a, m = Done a → P a.

Lemma post_done {A} (P : A → Prop) a : P a → post P (Done a).
Proof. by intros ? ? [= <-]. Qed.

Lemma post_bind {A B} (Q : A → Prop) (P : B → Prop) (m : outcome A) (k : A → outcome B) :
  post Q m → (∀ a, Q a → post P (k a)) → post P (obind m k).
Proof. intros Hm Hk b (a & Ea & Eb)%obind_inv. eapply Hk; [by apply Hm|done]. Qed.

Lemma post_eq {A B} (P : B → Prop) (m : outcome A) (k : A → outcome B) :
  (∀ a, m = Done a → post P (k a)) → post P (obind m k).
Proof. intros Hk b (a & Ea & Eb)%obind_inv. by eapply Hk. Qed.

(** A call whose result does not matter. *)
Lemma post_any {A B} (P : B → Prop) (m : outcome A) (k : A → outcome B) :
  (∀ a, post P (k a)) → post P (obind m k).
Proof. intros Hk. by apply (post_bind (λ _, True)). Qed.

Lemma post_mono {A} (P Q : A → Prop) (m : outcome A) : post P m → (∀ a, P a → Q a) → post Q m.
Proof. intros Hm Hpq a Ha. by apply Hpq, Hm. Qed.

Lemma post_safe {A} (P : A → Prop) (m : outcome A) : safe P m → post P m.
Proof. intros Hm a ->. exact Hm. Qed.

(** What was read. *)
Lemma mread_inv {A} (l : list A) off n r : mread l off n = Done r →
  r = ztake n (zdrop off l) ∧ 0 ≤ off ∧ 0 ≤ n ∧ off + n ≤ zlen l.
Proof. unfold mread. destruct (_ && _) eqn:Eb; [|done]. intros [= <-]. btest. split_and!; [done|lia..]. Qed.

Lemma mread_len {A} (l : list A) off n r : mread l off n = Done r → zlen r = n.
Proof. intros (-> & ? & ? & ?)%mread_inv. rewrite zlen_ztake; [done|]. rewrite zlen_zdrop; lia. Qed.

Create HintDb frame.

(** Walks through a call: the binds by the lemmas of [frame], the tests by
    cases. *)
Ltac walk_step :=
  lazymatch goal with
  | |- post _ (Done _) => apply post_done; cbn
  | |- post _ Abort => intros ? ?; discriminate
  | |- post _ (obind _ _) =>
      first [eapply post_bind; [solve [eauto with frame]|intros ? ?]
            |apply post_any; intros ?]
  | |- post _ (match ?x with _ => _ end) => first [is_var x; destruct x|destruct x eqn:?]
  | |- post _ _ => solve [eauto with frame]
  end.
Ltac walk := repeat (walk_step; cbn beta iota zeta in * ).

Section Frame.
Context {L E : Type} `{Littlefs L} `{SecureElement E} `{Secp} `{Ecdsa} `{!LittlefsLaws L}.
Implicit Types (k : wkek_ctx L E) (w : wallet_ctx L E) (g : signer L E) (s : fs_ctx L).

(** A file that is none of the three that keys are kept in, as the file system,
    the wallet and the signer have it. *)
Context (q : string) (Hfree : q ∉ [WKEK_PATH; SEED_PATH; DERIVED_KEY_CACHE_PATH]).

Definition fat s : option (list Z) := fs_data s q.
Definition kat k : option (list Z) := fat (wkek_fs k).
Definition wat w : option (list Z) := kat (wk w).
Definition gat g : option (list Z) := wat (sg_wallet g).

Definition other (f : string) : Prop := f ≠ q.

Lemma other_key_file f : f ∈ [WKEK_PATH; SEED_PATH; DERIVED_KEY_CACHE_PATH] → other f.
Proof. intros Hf ->. by apply Hfree. Qed.

Lemma util_write_keeps s f data D : other f → fat s = D →
  post (λ '(_, s'), fat s' = D) (fs_util_write_global s f data).
Proof.
  intros Hf <- [ok s'] (Hq & _)%fs_util_write_spec. apply Hq. by apply not_eq_sym.
Qed.

Lemma util_read_keeps s f n D : fat s = D → post (λ '(_, s'), fat s' = D) (fs_util_read_global s f n).
Proof. intros <- [r s'] (Hq & _)%fs_util_read_spec. apply Hq. Qed.

Lemma remove_keeps s f D : other f → fat s = D → fat (fs_remove s f).2 = D.
Proof.
  intros Hf <-. destruct (fs_remove s f) as [r s'] eqn:Er. apply fs_remove_spec in Er as (Hq & _).
  apply Hq. by apply not_eq_sym.
Qed.

Hint Resolve util_write_keeps util_read_keeps : frame.
Hint Extern 1 (other _) => (apply other_key_file; repeat first [left | right]) : frame.

Ltac framed := walk; cbn in *; try done; eauto with frame.

Lemma generate_keeps k D : kat k = D → post (λ '(_, k'), kat k' = D) (wkek_generate_and_store k).
Proof. intros Hk. unfold wkek_generate_and_store, kat in *. framed. Qed.

Lemma load_keeps k D : kat k = D → post (λ '(_, k'), kat k' = D) (wkek_load k).
Proof. intros Hk. unfold wkek_load, kat in *. framed. Qed.

Hint Resolve generate_keeps load_keeps : frame.

Lemma lazy_init_keeps k D : kat k = D → post (λ '(_, k'), kat k' = D) (wkek_lazy_init k).
Proof.
  intros Hk. unfold wkek_lazy_init. apply (post_bind (λ '(_, k'), kat k' = D)); [framed|].
  intros [ok k'] Hk'. framed.
Qed.
Hint Resolve lazy_init_keeps : frame.

Lemma encrypt_keeps k pt D : kat k = D → post (λ '(_, k'), kat k' = D) (wkek_encrypt k pt).
Proof. intros Hk. unfold wkek_encrypt. framed. Qed.

Lemma decrypt_keeps k ct iv tag D : kat k = D → post (λ '(_, k'), kat k' = D) (wkek_decrypt k ct iv tag).
Proof. intros Hk. unfold wkek_decrypt. framed. Qed.
Hint Resolve encrypt_keeps decrypt_keeps : frame.

Lemma store_keeps k f data D : other f → kat k = D →
  post (λ '(_, k'), kat k' = D) (wkek_encrypt_and_store k f data).
Proof. intros Hf Hk. unfold wkek_encrypt_and_store. framed. Qed.

Lemma read_keeps k f n D : kat k = D → post (λ '(_, k'), kat k' = D) (wkek_read_and_decrypt k f n).
Proof. intros Hk. unfold wkek_read_and_decrypt. framed. Qed.
Hint Resolve store_keeps read_keeps : frame.

Lemma master_keeps k m D : kat k = D → post (λ '(_, _, k'), kat k' = D) (master_key_lazy_init k m).
Proof.
  intros Hk. unfold master_key_lazy_init. eapply post_bind; [by apply read_keeps|]. intros [r k1] H1k.
  apply (post_bind (λ '(_, k'), kat k' = D)); [framed|]. intros [seed k2] H2k. framed.
Qed.
Hint Resolve master_keeps : frame.

Lemma seed_ext_keeps k m D : kat k = D → post (λ '(_, _, k'), kat k' = D) (seed_as_extended_key k m).
Proof. intros Hk. unfold seed_as_extended_key. framed. Qed.
Hint Resolve seed_ext_keeps : frame.

Lemma from_seed_keeps k m p D : kat k = D → post (λ '(_, _, k'), kat k' = D) (derive_key_priv_from_seed k m p).
Proof. intros Hk. unfold derive_key_priv_from_seed. framed. Qed.
Hint Resolve from_seed_keeps : frame.

Lemma fill_keeps w p m D : wat w = D → post (λ '(_, _, w'), wat w' = D) (fill_key w p m).
Proof. intros Hw. unfold fill_key, wat in *. framed. Qed.

Lemma full_keeps w m p D : wat w = D → post (λ '(_, _, w'), wat w' = D) (full_derive w m p).
Proof. intros Hw. unfold full_derive, wat in *. framed. Qed.

Lemma cached_keeps w m p c parts D : wat w = D → post (λ '(_, _, w'), wat w' = D) (from_cache w m p c parts).
Proof. intros Hw. unfold from_cache. framed. Qed.
Hint Resolve fill_keeps full_keeps cached_keeps : frame.

Lemma create_keeps w ct D : wat w = D → post (λ '(_, w'), wat w' = D) (create_derived_key_cache w ct).
Proof.
  intros Hw. unfold create_derived_key_cache. eapply post_bind; [by apply fill_keeps|]. intros [[ok1 c1] w1] H1w.
  cbn zeta. destruct (negb ok1); [framed|].
  eapply post_bind; [apply (fill_keeps _ _ _ D); exact H1w|]. intros [[ok2 c2] w2] H2w. cbn zeta.
  destruct (negb ok2); [framed|].
  eapply post_bind; [apply (fill_keeps _ _ _ D); exact H2w|]. intros [[ok3 c3] w3] H3w. cbn zeta.
  destruct (negb ok3); [framed|]. unfold wat in *. framed.
Qed.
Hint Resolve create_keeps : frame.

Lemma cache_init_keeps w ct D : wat w = D → post (λ w', wat w' = D) (derived_key_cache_lazy_init w ct).
Proof.
  intros Hw. unfold derived_key_cache_lazy_init. destruct (derived_key_cache_initialized w); [framed|].
  destruct (negb _); [framed|]. eapply post_bind; [by apply read_keeps|]. intros [r k1] H1k. cbn zeta.
  set (w2 := match r with Some _ => _ | None => _ end).
  assert (Hw2 : wat w2 = D) by (subst w2; by destruct r). destruct (_ =? _); [framed|].
  destruct (fs_remove (wkek_fs (wk w2)) DERIVED_KEY_CACHE_PATH) as [ret s] eqn:Er.
  assert (Hs : fat s = D).
  { change s with (ret, s).2. rewrite <- Er. apply remove_keeps; [|done]. apply other_key_file. right. right. left. }
  destruct (0 <=? ret); [|framed]. cbn zeta. eapply post_bind; [by apply create_keeps|]. intros [ok w3] Hw3. framed.
Qed.
Hint Resolve cache_init_keeps : frame.

Lemma derive_keeps w m p D : wat w = D →
  post (λ '(_, _, w'), wat w' = D) (wallet_derive_key_priv_using_cache w m p).
Proof. intros Hw. unfold wallet_derive_key_priv_using_cache. framed. Qed.
Hint Resolve derive_keeps : frame.

Lemma auth_key_keeps w m D : wat w = D → post (λ '(_, _, w'), wat w' = D) (wallet_get_w1_auth_key w m).
Proof. intros Hw. unfold wallet_get_w1_auth_key. framed. Qed.

Lemma pubkey_keeps w p D : wat w = D → post (λ '(_, w'), wat w' = D) (wallet_pubkey_at w p).
Proof. intros Hw. unfold wallet_pubkey_at. framed. Qed.
Hint Resolve pubkey_keeps : frame.

Lemma match_keeps kps : ∀ w found n D, wat w = D →
  post (λ '(_, _, w'), wat w' = D) (match_keypaths w kps found n).
Proof. induction kps as [|kp kps IH]; intros w found n D Hw; cbn [match_keypaths]; framed. Qed.
Hint Resolve match_keeps : frame.

Lemma derive_sign_keeps g D : gat g = D → post (λ g', gat g' = D) (crypto_derive_and_sign g).
Proof. intros Hg. unfold crypto_derive_and_sign, gat in *. framed. Qed.
Hint Resolve derive_sign_keeps : frame.

Lemma sign_hash_keeps g p h D : gat g = D →
  post (λ '(_, _, g'), gat g' = D) (psbt_sign_hash_with_crypto_task g p h).
Proof.
  intros Hg. unfold psbt_sign_hash_with_crypto_task. destruct (negb _); [framed|]. apply post_any. intros c.
  eapply post_bind; [apply (derive_sign_keeps _ D); exact Hg|]. intros g' Hg'. cbn zeta.
  destruct (crypto_task_get_status (sg_crypto g')); framed.
Qed.
Hint Resolve sign_hash_keeps : frame.

Lemma sign_input_keeps g i D : gat g = D → post (λ '(_, _, g'), gat g' = D) (sign_p2wsh_input g i).
Proof.
  intros Hg. unfold sign_p2wsh_input. eapply post_bind; [apply (match_keeps _ _ _ _ D); exact Hg|].
  intros [[found n] w'] Hw'. cbn zeta. destruct found as [kp|]; [|framed]. destruct (negb (n =? 1)); [framed|].
  apply post_any. intros path. eapply post_bind; [apply (sign_hash_keeps _ _ _ D); exact Hw'|].
  intros [[r sig] g'] Hg'. framed.
Qed.
Hint Resolve sign_input_keeps : frame.

Lemma sign_loop_keeps inputs : ∀ g sigs D, gat g = D →
  post (λ '(_, _, g'), gat g' = D) (sign_p2wsh_loop g inputs sigs).
Proof. induction inputs as [|i inputs IH]; intros g sigs D Hg; cbn [sign_p2wsh_loop]; framed. Qed.
Hint Resolve sign_loop_keeps : frame.

Lemma sign_inputs_keeps g inputs n D : gat g = D →
  post (λ '(_, _, g'), gat g' = D) (key_manager_psbt_sign_p2wsh_inputs g inputs n).
Proof. intros Hg. unfold key_manager_psbt_sign_p2wsh_inputs. framed. Qed.
End Frame.

(** ** The payload *)

Section Payload.
Context {L E : Type} `{Littlefs L} `{SecureElement E} `{Secp} `{Ecdsa} `{!LittlefsLaws L}.
Implicit Types (k : wkek_ctx L E) (w : wallet_ctx L E) (g : signer L E).

Definition fpay (s : fs_ctx L) : option (list Z) := fs_data s STREAM_PAYLOAD_PATH.
Definition kpay k : option (list Z) := fpay (wkek_fs k).
Definition wpay w : option (list Z) := kpay (wk w).
Definition gpay g : option (list Z) := wpay (sg_wallet g).

Definition own (f : string) : Prop := f ≠ STREAM_PAYLOAD_PATH.

Lemma payload_free : STREAM_PAYLOAD_PATH ∉ [WKEK_PATH; SEED_PATH; DERIVED_KEY_CACHE_PATH].
Proof. by apply (bool_decide_unpack _). Qed.

Lemma remove_frame (s : fs_ctx L) f D : own f → fpay s = D → fpay (fs_remove s f).2 = D.
Proof. apply remove_keeps. Qed.

Lemma read_frame k f n D : kpay k = D → post (λ '(_, k'), kpay k' = D) (wkek_read_and_decrypt k f n).
Proof. apply (read_keeps _ payload_free). Qed.

Lemma derive_frame w m p D : wpay w = D →
  post (λ '(_, _, w'), wpay w' = D) (wallet_derive_key_priv_using_cache w m p).
Proof. apply (derive_keeps _ payload_free). Qed.

Lemma auth_key_frame w m D : wpay w = D → post (λ '(_, _, w'), wpay w' = D) (wallet_get_w1_auth_key w m).
Proof. apply (auth_key_keeps _ payload_free). Qed.

Lemma sign_inputs_frame g inputs n D : gpay g = D →
  post (λ '(_, _, g'), gpay g' = D) (key_manager_psbt_sign_p2wsh_inputs g inputs n).
Proof. apply (sign_inputs_keeps _ payload_free). Qed.
End Payload.

#[export] Hint Resolve read_frame derive_frame auth_key_frame sign_inputs_frame : frame.

(** ** The keyset *)

Section Keyset.
Context {L E : Type} `{Littlefs L} `{SecureElement E} `{Secp} `{!LittlefsLaws L}.

Lemma keyset_free : WALLET_KEYSET_PATH ∉ [WKEK_PATH; SEED_PATH; DERIVED_KEY_CACHE_PATH].
Proof. by apply (bool_decide_unpack _). Qed.

Definition keyset_of_wallet (w : wallet_ctx L E) : option (list Z) := fs_data (wkek_fs (wk w)) WALLET_KEYSET_PATH.

Lemma read_keyset_frame (k : wkek_ctx L E) f n D : fs_data (wkek_fs k) WALLET_KEYSET_PATH = D →
  post (λ '(_, k'), fs_data (wkek_fs k') WALLET_KEYSET_PATH = D) (wkek_read_and_decrypt k f n).
Proof. apply (read_keeps _ keyset_free). Qed.

Lemma derive_keyset_frame (w : wallet_ctx L E) m p D : keyset_of_wallet w = D →
  post (λ '(_, _, w'), keyset_of_wallet w' = D) (wallet_derive_key_priv_using_cache w m p).
Proof. apply (derive_keeps _ keyset_free). Qed.
End Keyset.
