(* ===== verification/SignKeySpec.v ===== *)
(** * Which key signs

    A signature of an input is made with the private key that the seed of the
    device has at the one path of the input whose public key is the device's,
    and within the policy. *)

From S2P Require Import Prelude Wstring Fs Wkek Bip32 WalletKeys WalletCache WalletAddr Psbt SignKey SignSession SignFrame.

(** The indices of a path. *)
Definition kp_indices (kp : psbt_keypath_t) : list Z := ztake (kp_path_len kp) (kp_path kp).

(** What the policy allows: it is off, or a grant was presented, or the path is
    the one that is allowed without one. *)
Definition may_sign (p : policy_ctx_t) (path : list Z) : Prop :=
  policy_enabled p = SECURE_FALSE
  ∨ policy_enabled p = SECURE_TRUE ∧ grant_presented p = SECURE_TRUE
  ∨ policy_enabled p = SECURE_TRUE ∧ grant_presented p = SECURE_FALSE ∧ fetch_path_cb p = Some path.

Lemma path_matches_spec p : ∀ q, path_matches_allowed_path p q = true ↔ p = q.
Proof.
  unfold path_matches_allowed_path. induction p as [|x p IH]; intros [|y q]; cbn [combine forallb].
  - done.
  - rewrite zlen_cons, zlen_nil. pose proof (zlen_nonneg q). zdecide. done.
  - rewrite zlen_cons, zlen_nil. pose proof (zlen_nonneg p). zdecide. done.
  - rewrite !zlen_cons. specialize (IH q). rewrite !andb_true_iff, !Z.eqb_eq in *. split.
    + intros (Hl & -> & Hf). f_equal. apply IH. split; [lia|done].
    + intros [= -> ->]. destruct IH as [_ IH]. destruct (IH eq_refl). split_and!; [lia|done|done].
Qed.

Section SignKeySpec.
Context {L E : Type} `{Littlefs L} `{SecureElement E} `{Secp} `{Ecdsa}.
Context `{!LittlefsLaws L} `{!LittlefsReliable L} `{!SecureElementLaws E} `{!SecpLaws}.
Context (ct : coin_type_t) (Hct : known_coin ct = true).
Implicit Types (w : wallet_ctx L E) (g : signer L E).

(** The call leaves a wallet of the coin type and the master key. *)
Definition stays w w' : Prop := wallet_inv ct w' ∧ same_master (wk w) (wk w').

Lemma stays_trans w1 w2 w3 : stays w1 w2 → stays w2 w3 → stays w1 w3.
Proof. intros [_ H12] [Hi H23]. split; [done|]. by etrans. Qed.

(** The device has the private key of the public key, at the path. *)
Definition owned w (kp : psbt_keypath_t) : Prop :=
  ∃ k K, seed_key (wk w) (kp_indices kp) k ∧ neuter k K ∧ sec1 K = kp_pubkey kp.

Lemma seed_key_same w w' p k : same_master (wk w) (wk w') → seed_key (wk w) p k → seed_key (wk w') p k.
Proof. intros [_ Hs] (m & Hm & Hd). exists m. auto. Qed.

Lemma owned_stays w w' kp : stays w w' → owned w kp → owned w' kp.
Proof. intros [_ Hs] (k & K & Hk & ?). exists k, K. split; [by eapply seed_key_same|done]. Qed.

Lemma seed_key_functional w p k1 k2 : seed_key (wk w) p k1 → seed_key (wk w) p k2 → k1 = k2.
Proof.
  intros (m1 & Hm1 & E1) (m2 & Hm2 & E2). rewrite (master_functional _ _ _ Hm1 Hm2) in E1. congruence.
Qed.

Lemma wallet_pubkey_at_spec w p : wallet_inv ct w → path_of_coin ct p →
  post (λ '(pub, w'), stays w w' ∧ ∀ P, pub = Some P → ∃ k K, seed_key (wk w') p k ∧ neuter k K ∧ sec1 K = P)
    (wallet_pubkey_at w p).
Proof.
  intros Hw Hp. unfold wallet_pubkey_at. eapply post_bind; [by apply post_safe, (derive_ready ct)|].
  intros [[ok k] w'] (Hw' & Hs & Hk). destruct ok; cbn [negb]; [|by apply post_done].
  apply post_eq. intros [ok K] EK. apply post_done. split; [done|]. intros P. destruct ok; [|done]. intros [= <-].
  apply priv_to_pub_neuter in EK. exists k, K. split_and!; [by apply Hk|done|done].
Qed.

Lemma match_keypaths_spec kps : ∀ w found n, wallet_inv ct w →
  Forall (λ kp, path_of_coin ct (kp_indices kp)) kps → (∀ kp, found = Some kp → owned w kp) →
  post (λ '(found', n', w'), stays w w' ∧ ∀ kp, found' = Some kp → owned w' kp ∧ (kp ∈ kps ∨ found = Some kp))
    (match_keypaths w kps found n).
Proof.
  induction kps as [|kp kps IH]; intros w found n Hw Hkps Hf; cbn [match_keypaths].
  { apply post_done. split; [by split|]. intros kp E1. split; [by apply Hf|by right]. }
  apply Forall_cons in Hkps as [Hkp Hkps]. apply post_eq. intros p (-> & _)%mread_inv. rewrite zdrop_0.
  fold (kp_indices kp). eapply post_bind; [by apply wallet_pubkey_at_spec|]. intros [pub w1] [Hw1 Hpub].
  assert (Hrest : ∀ n, post (λ '(found', n', w'), stays w w'
      ∧ ∀ kp', found' = Some kp' → owned w' kp' ∧ (kp' ∈ kp :: kps ∨ found = Some kp')) (match_keypaths w1 kps found n)).
  { intros n'. eapply post_mono; [apply (IH w1); [apply Hw1|done|]|].
    - intros kp' E1. eapply owned_stays; [done|]. by apply Hf.
    - intros [[f' n''] w2] [Hs Ho]. split; [by eapply stays_trans|]. intros kp' E1. destruct (Ho kp' E1) as [? [?|?]].
      + split; [done|]. left. by right.
      + split; [done|]. by right. }
  destruct pub as [pub|]; [|apply Hrest]. case_bool_decide as Ep; [|apply Hrest].
  assert (Hown : owned w1 kp). { destruct (Hpub _ eq_refl) as (k & K & ? & ? & ?). exists k, K. split_and!; congruence. }
  destruct (_ <? _).
  - apply post_done. split; [done|]. intros kp' [= <-]. split; [done|]. left. by left.
  - eapply post_mono; [apply (IH w1); [apply Hw1|done|by intros kp' [= <-]]|].
    intros [[f' n''] w2] [Hs Ho]. split; [by eapply stays_trans|]. intros kp' E1. destruct (Ho kp' E1) as [? [?|[= <-]]].
    + split; [done|]. left. by right.
    + split; [done|]. left. by left.
Qed.

(** A signature by the key at the path, allowed by the policy. *)
Definition signed_at g (p hash sig : list Z) : Prop :=
  ∃ k, seed_key (wk (sg_wallet g)) p k ∧ crypto_ecc_sign_hash (key k) hash = Some sig ∧ may_sign (sg_policy g) p.

Lemma sign_with_policy_spec pol k p hash old :
  post (λ '(r, s), r = POLICY_SIGN_SUCCESS → crypto_ecc_sign_hash (key k) hash = Some s ∧ may_sign pol p)
    (bip32_sign_with_policy pol k p hash old).
Proof.
  unfold bip32_sign_with_policy, may_sign. destruct (fetch_path_cb pol) as [allowed|]; [|done]. cbn zeta.
  destruct (_ || _) eqn:Ec; cbn [negb]; [|by apply post_done]. unfold bip32_sign.
  destruct (crypto_ecc_sign_hash _ _) as [s|] eqn:Es; apply post_done; [|done]. intros _. split; [done|].
  rewrite !orb_true_iff, !andb_true_iff, !Z.eqb_eq, path_matches_spec in Ec.
  destruct Ec as [[?|[? ?]]|[[? ?] ->]]; auto.
Qed.

Lemma sign_hash_spec g p hash : wallet_inv ct (sg_wallet g) → path_of_coin ct p → zlen hash = 32 →
  post (λ '(r, s, g'), stays (sg_wallet g) (sg_wallet g') ∧ sg_policy g' = sg_policy g
      ∧ (r = KEY_MANAGER_PSBT_SIGN_OK → signed_at g' p hash s)) (psbt_sign_hash_with_crypto_task g p hash).
Proof.
  intros Hw Hp Hh. unfold psbt_sign_hash_with_crypto_task.
  destruct (negb _); [by apply post_done|]. unfold crypto_task_set_parameters.
  apply post_eq. intros c (_ & _ & E1)%obind_inv. apply obind_inv in E1 as (h & Eh & E1).
  rewrite <- Hh, mread_all in Eh. injection Eh as <-. apply obind_inv in E1 as (_ & _ & E1).
  apply obind_inv in E1 as (scratch & Ew & [= <-]). unfold mwrite in Ew. destruct (_ && _); [|done].
  injection Ew as <-.
  eapply (post_bind (λ g', stays (sg_wallet g) (sg_wallet g') ∧ sg_policy g' = sg_policy g
    ∧ (ct_status (sg_crypto g') = CRYPTO_TASK_SUCCESS → signed_at g' p hash (ct_signature (sg_crypto g'))))).
  - unfold crypto_derive_and_sign. cbn [sg_crypto set_crypto ct_status ct_indices_scratch ct_num_indices ct_hash].
    apply post_any. intros _. erewrite (mread_eq (p ++ _) [] p) by reflexivity. cbn [obind].
    eapply post_bind; [by apply post_safe, (derive_ready ct)|]. intros [[ok k] w'] (Hw' & Hs & Hk).
    cbn [sg_wallet set_wallet set_crypto] in *. destruct ok; cbn [negb]; [|by apply post_done].
    eapply post_bind; [apply sign_with_policy_spec|]. intros [r s] Hr. apply post_done. cbn.
    split_and!; [done|done|]. destruct r; try done. intros _. destruct (Hr eq_refl). exists k. by auto.
  - intros g' (Hs & Hpol & Hsig). unfold crypto_task_get_status.
    destruct (ct_status (sg_crypto g')) eqn:Est; try by apply post_done.
    unfold crypto_task_get_and_clear_signature. apply post_eq. intros [s c] (_ & _ & E1)%obind_inv.
    apply obind_inv in E1 as (r1 & _ & E1). apply obind_inv in E1 as (r2 & _ & [= <- <-]).
    destruct (_ && _); apply post_done; split_and!; try done. by intros _; apply Hsig.
Qed.

(** What a signature of an input is. *)
Definition signed_by_seed g (i : key_manager_psbt_input_t) (s : key_manager_psbt_signature_t) : Prop :=
  ∃ kp k K compact normalized der,
    kp ∈ keypaths (signing_data i)
    ∧ seed_key (wk (sg_wallet g)) (kp_indices kp) k ∧ neuter k K ∧ sec1 K = kp_pubkey kp
    ∧ crypto_ecc_sign_hash (key k) (sighash (signing_data i)) = Some compact
    ∧ ew_ec_sig_normalize compact = Some normalized
    ∧ ew_ec_sig_to_der normalized PSBT_DER_SIGNATURE_MAX_LEN = Some der
    ∧ s = mk_km_sig (km_input_index i) (sec1 K) (der ++ [Z.land (sighash_type (signing_data i)) 0xff])
            (sighash_type (signing_data i))
    ∧ may_sign (sg_policy g) (kp_indices kp).

Definition input_ok (i : key_manager_psbt_input_t) : Prop :=
  zlen (sighash (signing_data i)) = 32
  ∧ Forall (λ kp, path_of_coin ct (kp_indices kp)) (keypaths (signing_data i)).

Lemma signed_by_seed_stays g g' i s : stays (sg_wallet g) (sg_wallet g') → sg_policy g' = sg_policy g →
  signed_by_seed g i s → signed_by_seed g' i s.
Proof.
  intros [_ Hs] Hp (kp & k & K & c & n & d & Hin & Hk & Hrest). exists kp, k, K, c, n, d. rewrite Hp.
  split; [done|]. split; [by eapply seed_key_same|done].
Qed.

Lemma sign_input_spec g i : wallet_inv ct (sg_wallet g) → input_ok i →
  post (λ '(r, s, g'), stays (sg_wallet g) (sg_wallet g') ∧ sg_policy g' = sg_policy g
      ∧ match s with Some x => signed_by_seed g' i x | None => r ≠ KEY_MANAGER_PSBT_SIGN_OK end)
    (sign_p2wsh_input g i).
Proof.
  intros Hw [Hh Hkps]. unfold sign_p2wsh_input. cbn zeta. eapply post_bind; [by apply match_keypaths_spec|].
  intros [[found n] w1] [Hw1 Hf]. destruct found as [kp|]; [|by apply post_done].
  destruct (Hf kp eq_refl) as [Hown [Hin|?]]; [|done]. destruct (negb _); [by apply post_done|].
  apply post_eq. intros p (-> & _)%mread_inv. rewrite zdrop_0. fold (kp_indices kp).
  pose proof (proj1 (Forall_forall _ _) Hkps kp Hin) as Hp.
  eapply post_bind; [apply sign_hash_spec; [apply Hw1|done|done]|].
  intros [[r s] g2] (Hs2 & Hpol & Hsig). cbn [set_wallet sg_wallet sg_policy] in *.
  pose proof (stays_trans _ _ _ Hw1 Hs2) as Hs. case_bool_decide as Er; cbn [negb]; [|by apply post_done].
  destruct (Hsig Er) as (k & Hk & Es & Hm). unfold psbt_compact_sig_to_der.
  destruct (_ || _); [by apply post_done|]. destruct (ew_ec_sig_normalize s) as [nrm|] eqn:En; [|by apply post_done].
  destruct (ew_ec_sig_to_der nrm _) as [der|] eqn:Ed; [|by apply post_done]. cbn [negb bool_decide].
  case_bool_decide; cbn [negb]; [|by apply post_done]. destruct (_ <? _); [by apply post_done|].
  apply post_done. split_and!; [exact Hs|done|].
  destruct (owned_stays _ _ _ Hs2 Hown) as (k' & K & Hk' & HK & EK).
  rewrite (seed_key_functional _ _ _ _ Hk' Hk) in HK. exists kp, k, K, s, nrm, der. rewrite EK. split_and!; auto.
Qed.

Lemma sign_loop_spec inputs : ∀ g done_in sigs, wallet_inv ct (sg_wallet g) → Forall input_ok inputs →
  Forall2 (signed_by_seed g) done_in sigs →
  post (λ '(r, sigs', g'), stays (sg_wallet g) (sg_wallet g') ∧ sg_policy g' = sg_policy g
      ∧ (r = KEY_MANAGER_PSBT_SIGN_OK → Forall2 (signed_by_seed g') (done_in ++ inputs) sigs'))
    (sign_p2wsh_loop g inputs sigs).
Proof.
  induction inputs as [|i inputs IH]; intros g done_in sigs Hw Hok Hd; cbn [sign_p2wsh_loop].
  { apply post_done. rewrite app_nil_r. by split_and!. }
  apply Forall_cons in Hok as [Hi Hok]. eapply post_bind; [by apply sign_input_spec|].
  intros [[r s] g1] (Hs1 & Hp1 & Hx). destruct s as [s|]; [|by apply post_done].
  eapply post_mono; [apply (IH g1 (done_in ++ [i])); [apply Hs1|done|]|].
  - apply Forall2_app; [|by constructor]. eapply Forall2_impl; [exact Hd|]. intros. by eapply signed_by_seed_stays.
  - intros [[r' sigs'] g'] (Hs2 & Hp2 & Hf). rewrite <- app_assoc in Hf. split_and!; [by eapply stays_trans| |done].
    congruence.
Qed.

(** C15: A transaction signature is made with the right key, over the right
    digest, within the policy. Let the wallet be in a state of one coin type
    ([wallet_inv], which derivations of that coin type, clears, reboots and wipes
    keep), all key paths of the inputs be of that coin type, and the medium have
    no errors ([LittlefsReliable]). When the signing of a list of inputs succeeds
    there is one signature per input, in order, and each is the DER form of the
    low-S form of the signature over the digest of that input, followed by the
    sighash byte; the private key is the one that the stored seed has at a path
    that the input names, the public key given with the signature is the public
    half of that key and the one that the input names for the path, and unless
    the policy is off or a grant was presented, the path is the allowed one. For
    a path of the other coin type the cache can give a key of this one
    ([WalletCache.testnet_path_gets_mainnet_key]). *)
Theorem psbt_sign_sound g inputs n sigs g' :
  wallet_inv ct (sg_wallet g) → Forall input_ok inputs →
  key_manager_psbt_sign_p2wsh_inputs g inputs n = Done (KEY_MANAGER_PSBT_SIGN_OK, sigs, g') →
  Forall2 (signed_by_seed g') inputs sigs ∧ sg_policy g' = sg_policy g ∧ stays (sg_wallet g) (sg_wallet g').
Proof.
  intros Hw Hin. unfold key_manager_psbt_sign_p2wsh_inputs. destruct (_ =? _); [done|]. destruct (_ <? _); [done|].
  intros (Hs & Hp & Hf)%(sign_loop_spec inputs g [] [] Hw Hin ltac:(constructor)). by split_and!; [apply Hf|..].
Qed.
End SignKeySpec.
