(* ===== verification/SignTx.v ===== *)
(** * One-shot signing and sweeps

    The handlers of key_manager_task_port.c (w3-core) for transactions of at
    most five inputs: [sign_tx_request], [sweep_sign], the confirmation on the
    screen, the signing after approval and the result that the phone fetches.
    Random bytes and the time of a command are arguments; what a handler shows
    and which digests it signs are part of its result. *)

From S2P Require Import Prelude Sha256 Wstring Fs Wkek Confirmation Bip32 WalletKeys WalletAddr Psbt SignKey SignSession.

(** ** Requests and displays *)

Record sign_tx_input := mk_tx_input {
  pi_prev_txid : list Z;
  pi_prev_index : Z;
  pi_sequence : Z;
  pi_amount : Z;
  pi_derivation_path : list Z;
}.

Record sign_tx_output := mk_tx_output {
  po_amount : Z;
  po_destination_spk : list Z;
  po_derivation_path : list Z;
  po_has_derivation_path : bool;
}.

Record sign_tx_request_cmd := mk_tx_request {
  rq_lock_time : Z;
  rq_inputs : list sign_tx_input;
  rq_outputs : list sign_tx_output;
  rq_version : Z;
  rq_btc_display_unit : Z;
}.

(** The bytes fields of [sweep_sign_cmd] before the transaction. *)
Record sweep_keys := mk_sweep_keys {
  sk_old_account_index : Z;
  sk_app_pubkey : list Z;
  sk_app_chaincode : list Z;
  sk_server_pubkey : list Z;
  sk_server_chaincode : list Z;
}.

Record send_transaction_data_t := mk_display {
  dp_amount_sats : list Z;
  dp_fee_sats : list Z;
  dp_address : list Z;
  dp_btc_display_unit : Z;
  dp_self_send : bool;
}.

(** [printf] of an unsigned number of at most 20 digits. *)
Fixpoint decimal_loop (fuel : nat) (n : Z) (acc : list Z) : list Z :=
  match fuel with
  | O => acc
  | S fuel =>
      let acc := 48 + n mod 10 :: acc in
      if n / 10 =? 0 then acc else decimal_loop fuel (n / 10) acc
  end.
Definition decimal (n : Z) : list Z := decimal_loop 20 n [].

Definition parse_tx_input (i : sign_tx_input) : option raw_tx_input_t :=
  if negb (zlen (pi_prev_txid i) =? 32) then None
  else if (zlen (pi_derivation_path i) <? 5) || (PSBT_BIP32_PATH_MAX_LEN <? zlen (pi_derivation_path i))
  then None
  else Some (mk_input (pi_prev_txid i) (pi_prev_index i) (pi_sequence i) (pi_amount i)
               (ztake 10 (pi_derivation_path i ++ replicate 10 0)) (zlen (pi_derivation_path i))).

Definition parse_tx_output (o : sign_tx_output) : option raw_tx_output_t :=
  let spk := po_destination_spk o in
  let p := po_derivation_path o in
  if (zlen spk =? 0) || (SPK_BUFFER_SIZE <? zlen spk) then None
  else
    let out len := mk_output (po_amount o) (ztake 64 (spk ++ replicate 64 0)) (zlen spk)
                     (po_has_derivation_path o) (ztake 10 (ztake len p ++ replicate 10 0)) len in
    if po_has_derivation_path o then
      if (zlen p =? 0) || (PSBT_BIP32_PATH_MAX_LEN <? zlen p) then None else Some (out (zlen p))
    else if negb (zlen p =? 0) then None else Some (out 0).

(** Every input and output of the request, or a failure. *)
Definition parse_transaction (rq : sign_tx_request_cmd) : option (list raw_tx_input_t * list raw_tx_output_t) :=
  inputs ← mapM parse_tx_input (rq_inputs rq);
  outputs ← mapM parse_tx_output (rq_outputs rq);
  Some (inputs, outputs).

Definition counts_ok (rq : sign_tx_request_cmd) : bool :=
  negb ((zlen (rq_inputs rq) =? 0) || (RAW_TX_MAX_INPUTS <? zlen (rq_inputs rq))
        || (zlen (rq_outputs rq) =? 0) || (RAW_TX_MAX_OUTPUTS <? zlen (rq_outputs rq))).
Definition version_ok (rq : sign_tx_request_cmd) : bool :=
  negb ((rq_version rq =? 0) || (2 <? rq_version rq)).

(** A digest that was signed, with the key path and the signature. *)
Record signed_digest := mk_signed {
  sd_data : psbt_p2wsh_signing_data_t;
  sd_signature : key_manager_psbt_signature_t;
}.

(** The answer to a command: a status, the handles of a confirmation, and
    what the result of a confirmation carries. *)
Inductive km_result :=
| no_result
| sign_tx_result (signatures : list key_manager_psbt_signature_t)
| sign_stream_signatures_ready (num_inputs : Z)
| sign_action_proof_result (signature : list Z).

Record km_rsp := mk_rsp {
  rsp_status : fwpb_status;
  rsp_handles : option (list Z * list Z);
  rsp_result : km_result;
}.

Definition status_only (st : fwpb_status) : km_rsp := mk_rsp st None no_result.

(** The random bytes and the time that a command sees. *)
Record env := mk_env {
  rng1 : option (list Z);
  rng2 : option (list Z);
  systime : Z;
}.

Section SignTx.
Context {L E C M : Type} `{Littlefs L} `{SecureElement E} `{Secp} `{Ecdsa} `{Ew} `{Sha256 C}
  `{SessionUnion C M}.

(** The state of the key manager task. *)
Record km := mk_km {
  km_signer : signer L E;
  km_cm : confirmation_ctx unit;
  km_mem : M;
}.

Definition set_signer (k : km) (g : signer L E) : km := mk_km g (km_cm k) (km_mem k).
Definition set_cm (k : km) (c : confirmation_ctx unit) : km := mk_km (km_signer k) c (km_mem k).
Definition set_mem (k : km) (m : M) : km := mk_km (km_signer k) (km_cm k) m.
Definition km_fs (k : km) : fs_ctx L := wkek_fs (wk (sg_wallet (km_signer k))).
Definition set_fs (k : km) (s : fs_ctx L) : km :=
  let w := sg_wallet (km_signer k) in
  set_signer k (set_wallet (km_signer k) (set_wk w (with_fs (wk w) s))).

Definition signing_session_reset (k : km) : km := set_mem k (put_signing (km_mem k) zero_signing).

Definition stream_session_reset (k : km) : km :=
  let '(_, s) := fs_remove (km_fs k) STREAM_PAYLOAD_PATH in
  let '(_, s) := fs_remove s STREAM_SIGS_PATH in
  let k := set_fs k s in
  set_mem k (put_stream (km_mem k) (zero_stream zero_ctx)).

Definition sap_session_init (k : km) : km := set_mem k (put_sap (km_mem k) zero_sap).

Definition clear_confirmation (k : km) : outcome km :=
  let! c := confirmation_manager_clear (km_cm k) in Done (set_cm k c).

(** What every handler that starts a session does first. *)
Definition teardown (k : km) : outcome km :=
  let! k := clear_confirmation k in
  Done (sap_session_init (stream_session_reset (signing_session_reset k))).

Definition load_keyset (k : km) : outcome (option wallet_keyset_t * km) :=
  let g := km_signer k in
  let! '(r, w) := wkek_read_and_decrypt (wk (sg_wallet g)) WALLET_KEYSET_PATH WALLET_KEYSET_SIZE in
  Done (option_map keyset_of_bytes r, set_signer k (set_wallet g (set_wk (sg_wallet g) w))).

(** ** Signing *)

Fixpoint accounts_ok (expected : Z) (inputs : list raw_tx_input_t) : outcome bool :=
  match inputs with
  | [] => Done true
  | i :: rest =>
      let! acct := input_account i in
      if negb (acct =? expected) then Done false else accounts_ok expected rest
  end.

(** Signs one input; the signature only when exactly one was made. *)
Definition sign_one (g : signer L E) (idx : Z) (d : psbt_p2wsh_signing_data_t)
    : outcome (key_manager_psbt_sign_result_t * option signed_digest * signer L E) :=
  let! '(r, sigs, g) := key_manager_psbt_sign_p2wsh_inputs g [mk_km_input idx d] 1 in
  match sigs with
  | [s] => if bool_decide (r = KEY_MANAGER_PSBT_SIGN_OK) then Done (r, Some (mk_signed d s), g)
           else Done (r, None, g)
  | _ => Done (r, None, g)
  end.

(** The loop over the inputs from index [idx], with the signatures made. *)
Fixpoint sign_raw_inputs (g : signer L E) (s : w3_signing_session_t) (keyset : wallet_keyset_t) (idx : Z)
    (todo : list raw_tx_input_t) (done : list signed_digest)
    : outcome (fwpb_status * list signed_digest * signer L E) :=
  match todo with
  | [] => Done (fwpb_status_SUCCESS, done, g)
  | i :: rest =>
      let! ks := session_pubkeys (ss_sweep s) keyset i in
      match ks with
      | keys_derived pks =>
          let! '(e, d) := raw_tx_p2wsh_input_signing_data (C := C) (ss_inputs s) (ss_outputs s)
                            (ss_lock_time s) (ss_version s) idx pks in
          match d with
          | Some d =>
              if negb (bool_decide (e = PSBT_OK)) then Done (fwpb_status_ERROR, done, g)
              else
                let! '(r, sd, g) := sign_one g idx d in
                match sd with
                | None => Done (map_psbt_sign_result r, done, g)
                | Some sd => sign_raw_inputs g s keyset (idx + 1) rest (done ++ [sd])
                end
          | None => Done (fwpb_status_ERROR, done, g)
          end
      | _ => Done (fwpb_status_ERROR, done, g)
      end
  end.

(** The status, the digests signed, and the session with its signatures. *)
Definition sign_raw_tx_with_hw_key (k : km) : outcome (fwpb_status * list signed_digest * km) :=
  let! '(ks, k) := load_keyset k in
  match ks with
  | None => Done (fwpb_status_DESCRIPTOR_NOT_LOADED, [], k)
  | Some keyset =>
      if negb (ks_version keyset =? WALLET_KEYSET_VERSION) then Done (fwpb_status_ERROR, [], k)
      else
        let s := get_signing (km_mem k) in
        let! ok := accounts_ok (expected_account (ss_sweep s) keyset) (ss_inputs s) in
        if negb ok then Done (fwpb_status_INVALID_ARGUMENT, [], k)
        else
          let! '(st, sds, g) := sign_raw_inputs (km_signer k) s keyset 0 (ss_inputs s) [] in
          let k := set_signer k g in
          Done (st, sds, set_mem k (put_signing (km_mem k) (set_signatures s (map sd_signature sds))))
  end.

(** The data that was stored with the confirmation, of the expected size. *)
Definition confirmed_data (k : km) : outcome (option (list Z)) :=
  let! d := confirmation_manager_get_operation_data (km_cm k) CONFIRMATION_TYPE_SIGN_TRANSACTION true in
  Done (match d with
        | Some d => if zlen d =? CONFIRMATION_DATA_SIZE then Some d else None
        | None => None
        end).

Definition set_result (k : km) (r : fwpb_status) : km :=
  set_mem k (put_signing (km_mem k) (set_sign_result (get_signing (km_mem k)) r)).

Definition key_manager_task_try_deferred_sign (k : km) : outcome (list signed_digest * km) :=
  let state := st_state (get_stream (km_mem k)) in
  let s := get_signing (km_mem k) in
  if bool_decide (state = STREAM_STATE_FINALIZED) || bool_decide (state = STREAM_STATE_CONFIRMED)
  then Done ([], k)
  else if negb (ss_active s) || (0 <? zlen (ss_signatures s)) then Done ([], k)
  else
    let! type := confirmation_manager_get_type (km_cm k) in
    if negb (type =? CONFIRMATION_TYPE_SIGN_TRANSACTION) then Done ([], k)
    else
      let! approved := confirmation_manager_is_approved (km_cm k) in
      if negb approved then Done ([], k)
      else
        let! d := confirmed_data k in
        match d with
        | None => Done ([], set_result k fwpb_status_ERROR)
        | Some d =>
            let! h := compute_session_commitment_hash (C := C) s in
            match h with
            | None => Done ([], set_result k fwpb_status_ERROR)
            | Some h =>
                let! diff := memcmp_s h (session_hash_of d) 32 in
                if negb (diff =? 0) then Done ([], set_result k fwpb_status_VERIFICATION_FAILED)
                else
                  let! '(st, sds, k) := sign_raw_tx_with_hw_key k in
                  Done (sds, set_result k st)
            end
        end.

(** ** The confirmation *)

(** Every output that is declared as change belongs to the wallet. *)
Fixpoint change_outputs_ok (keyset : wallet_keyset_t) (outputs : list raw_tx_output_t) : outcome bool :=
  match outputs with
  | [] => Done true
  | o :: rest =>
      if negb (has_derivation_path o) then change_outputs_ok keyset rest
      else
        let! p := mread (out_path o) 0 (out_path_len o) in
        let! spk := mread (destination_spk o) 0 (destination_spk_len o) in
        let! ok := wallet_change_output_belongs_to_policy keyset p spk in
        if negb ok then Done false else change_outputs_ok keyset rest
  end.

(** What the screen shows about a transaction. *)
Definition display_of (info : psbt_info_t) (is_sweep : bool) (unit : Z) : send_transaction_data_t :=
  let is_self_send := is_sweep || negb (has_destination info) in
  mk_display
    (decimal (if is_self_send then u64 (send_amount_sats info + change_amount_sats info)
              else send_amount_sats info))
    (decimal (fee_amount_sats info))
    (if is_self_send then [] else ztake 127 (destination_address info)) unit is_self_send.

(** Creates the confirmation and shows it; the texts fit their 32 bytes. *)
Definition show_confirmation (k : km) (e : env) (info : psbt_info_t) (session_hash : list Z)
    (is_sweep : bool) (unit : Z)
    : outcome (fwpb_status * option (list Z * list Z) * option send_transaction_data_t * km) :=
  let data := confirmation_bytes info session_hash in
  let! '(r, handles, c) :=
    confirmation_manager_create (km_cm k) CONFIRMATION_TYPE_SIGN_TRANSACTION (Some data) (zlen data) true
      CONFIRMATION_HANDLE_SIZE CONFIRMATION_HANDLE_SIZE (rng1 e) (rng2 e) (systime e) in
  let k := set_cm k c in
  if negb (bool_decide (r = CONFIRMATION_RESULT_SUCCESS)) then Done (fwpb_status_ERROR, None, None, k)
  else
    let d := display_of info is_sweep unit in
    if (32 <=? zlen (dp_amount_sats d)) || (32 <=? zlen (dp_fee_sats d)) then
      let! k := clear_confirmation k in Done (fwpb_status_ERROR, None, None, k)
    else Done (fwpb_status_SUCCESS, handles, Some d, k).

Definition raw_tx_request_confirmation (k : km) (e : env) (unit : Z)
    : outcome (fwpb_status * option (list Z * list Z) * option send_transaction_data_t * km) :=
  let! '(ks, k) := load_keyset k in
  match ks with
  | None => Done (fwpb_status_DESCRIPTOR_NOT_LOADED, None, None, k)
  | Some keyset =>
      let s := get_signing (km_mem k) in
      let! '(err, info) := raw_tx_get_info (ss_inputs s) (ss_outputs s) (keyset_network keyset) in
      if negb (bool_decide (err = PSBT_OK)) then Done (fwpb_status_ERROR, None, None, k)
      else
        let! ok := change_outputs_ok keyset (ss_outputs s) in
        if negb ok then Done (fwpb_status_ERROR, None, None, k)
        else
          let! h := compute_session_commitment_hash (C := C) s in
          match h with
          | None => Done (fwpb_status_ERROR, None, None, k)
          | Some h => show_confirmation k e info h (sw_active (ss_sweep s)) unit
          end
  end.

(** The end of both handlers: the session becomes active and is shown. *)
Definition activate_session (k : km) (e : env) (unit : Z)
    : outcome (km_rsp * option send_transaction_data_t * km) :=
  let s := get_signing (km_mem k) in
  let k := set_mem k (put_signing (km_mem k)
             (mk_signing true (ss_inputs s) (ss_outputs s) (ss_lock_time s) (ss_version s)
                (ss_signatures s) (ss_sign_result s) (ss_sweep s))) in
  let! '(st, handles, d, k) := raw_tx_request_confirmation k e unit in
  if bool_decide (st = fwpb_status_SUCCESS)
  then Done (mk_rsp fwpb_status_CONFIRMATION_PENDING handles no_result, d, k)
  else Done (status_only st, None, signing_session_reset k).

(** The parsed transaction is written into the cleared session. *)
Definition store_transaction (k : km) (rq : sign_tx_request_cmd) (inputs : list raw_tx_input_t)
    (outputs : list raw_tx_output_t) : km :=
  let s := get_signing (km_mem k) in
  set_mem k (put_signing (km_mem k)
    (mk_signing (ss_active s) inputs outputs (rq_lock_time rq) (rq_version rq) (ss_signatures s)
       (ss_sign_result s) (ss_sweep s))).

Definition key_manager_task_handle_sign_tx_request (k : km) (e : env) (rq : sign_tx_request_cmd)
    : outcome (km_rsp * option send_transaction_data_t * km) :=
  let! k := teardown k in
  if negb (counts_ok rq) then Done (status_only fwpb_status_INVALID_ARGUMENT, None, k)
  else if negb (version_ok rq) then Done (status_only fwpb_status_INVALID_ARGUMENT, None, k)
  else
    match parse_transaction rq with
    | None => Done (status_only fwpb_status_INVALID_ARGUMENT, None, signing_session_reset k)
    | Some (inputs, outputs) =>
        activate_session (store_transaction k rq inputs outputs) e (rq_btc_display_unit rq)
    end.

(** ** Sweeps *)

Definition account_path (network account : Z) : list Z :=
  [hardened 84; hardened (if network =? NETWORK_MAINNET then 0 else 1); hardened account].

Definition derive_sweep_hw_xpub (k : km) (old_account_index network : Z) : outcome (option xpub_t * km) :=
  let g := km_signer k in
  let! '(ok, priv, w) := wallet_derive_key_priv_using_cache (sg_wallet g) zero_key
                           (account_path network old_account_index) in
  let k := set_signer k (set_wallet g w) in
  if negb ok then Done (None, k)
  else
    let! '(ok, pub) := bip32_priv_to_pub priv zero_key in
    Done (if ok : bool then Some (mk_xpub (sec1 pub) (chaincode pub)) else None, k).

(** [pubkey_verify] is the curve check of the crypto library. *)
Context (pubkey_verify : list Z → bool).

Definition validate_pubkey (pubkey : list Z) : outcome bool :=
  let! p0 := aget pubkey 0 in
  if negb (p0 =? SEC1_COMPRESSED_PUBKEY_EVEN) && negb (p0 =? SEC1_COMPRESSED_PUBKEY_ODD) then Done false
  else Done (pubkey_verify pubkey).

Definition validate_and_init_sweep_ctx (k : km) (keyset : wallet_keyset_t) (sk : sweep_keys)
    : outcome (fwpb_status * option sweep_context_t * km) :=
  if sk_old_account_index sk =? ks_account_index keyset then Done (fwpb_status_INVALID_ARGUMENT, None, k)
  else if negb (zlen (sk_app_pubkey sk) =? 33) || negb (zlen (sk_app_chaincode sk) =? 32)
          || negb (zlen (sk_server_pubkey sk) =? 33) || negb (zlen (sk_server_chaincode sk) =? 32)
  then Done (fwpb_status_INVALID_ARGUMENT, None, k)
  else
    let! a := validate_pubkey (sk_app_pubkey sk) in
    let! b := if a : bool then validate_pubkey (sk_server_pubkey sk) else Done false in
    if negb b then Done (fwpb_status_INVALID_ARGUMENT, None, k)
    else
      let! '(hw, k) := derive_sweep_hw_xpub k (sk_old_account_index sk) (ks_network keyset) in
      match hw with
      | None => Done (fwpb_status_ERROR, None, k)
      | Some hw =>
          Done (fwpb_status_SUCCESS,
                Some (mk_sweep true (sk_old_account_index sk)
                        (mk_xpub (sk_app_pubkey sk) (sk_app_chaincode sk))
                        (mk_xpub (sk_server_pubkey sk) (sk_server_chaincode sk)) hw), k)
      end.

Definition derive_current_fresh_receive_spk (keyset : wallet_keyset_t) (spk_buf_len : Z)
    : outcome (option (list Z)) :=
  wallet_derive_p2wsh_scriptpubkey keyset
    (account_path (ks_network keyset) (ks_account_index keyset) ++ [0; 0]) spk_buf_len.

(** The output goes to the fresh receive script. *)
Definition output_is_fresh (o : raw_tx_output_t) (fresh_spk : list Z) : outcome bool :=
  if negb (destination_spk_len o =? zlen fresh_spk) then Done false
  else let! spk := mread (destination_spk o) 0 (zlen fresh_spk) in Done (bool_decide (spk = fresh_spk)).

Definition validate_sweep_tx_shape (keyset : wallet_keyset_t) (old_account_index : Z)
    (inputs : list raw_tx_input_t) (outputs : list raw_tx_output_t) : outcome fwpb_status :=
  let! ok := accounts_ok old_account_index inputs in
  if negb ok then Done fwpb_status_INVALID_ARGUMENT
  else if negb (zlen outputs =? 1) then Done fwpb_status_INVALID_ARGUMENT
  else
    let! fresh := derive_current_fresh_receive_spk keyset SPK_BUFFER_SIZE in
    match fresh with
    | None => Done fwpb_status_ERROR
    | Some fresh_spk =>
        let! o := aget outputs 0 in
        let! same := output_is_fresh o fresh_spk in
        Done (if same : bool then fwpb_status_SUCCESS else fwpb_status_INVALID_ARGUMENT)
    end.

Definition set_sweep (k : km) (sw : sweep_context_t) : km :=
  let s := get_signing (km_mem k) in
  set_mem k (put_signing (km_mem k)
    (mk_signing (ss_active s) (ss_inputs s) (ss_outputs s) (ss_lock_time s) (ss_version s)
       (ss_signatures s) (ss_sign_result s) sw)).

Definition key_manager_task_handle_sweep_sign (k : km) (e : env) (sk : sweep_keys) (rq : sign_tx_request_cmd)
    : outcome (km_rsp * option send_transaction_data_t * km) :=
  let! k := teardown k in
  if negb (counts_ok rq) then Done (status_only fwpb_status_INVALID_ARGUMENT, None, k)
  else if negb (version_ok rq) then Done (status_only fwpb_status_INVALID_ARGUMENT, None, k)
  else
    let! '(ks, k) := load_keyset k in
    match ks with
    | None => Done (status_only fwpb_status_DESCRIPTOR_NOT_LOADED, None, k)
    | Some keyset =>
        if negb (ks_version keyset =? WALLET_KEYSET_VERSION) then Done (status_only fwpb_status_ERROR, None, k)
        else
          let! '(st, sw, k) := validate_and_init_sweep_ctx k keyset sk in
          match sw with
          | None => Done (status_only st, None, signing_session_reset k)
          | Some sw =>
              let k := set_sweep k sw in
              match parse_transaction rq with
              | None => Done (status_only fwpb_status_INVALID_ARGUMENT, None, signing_session_reset k)
              | Some (inputs, outputs) =>
                  let k := store_transaction k rq inputs outputs in
                  let! shape := validate_sweep_tx_shape keyset (sw_old_account_index sw) inputs outputs in
                  if negb (bool_decide (shape = fwpb_status_SUCCESS))
                  then Done (status_only shape, None, signing_session_reset k)
                  else activate_session k e (rq_btc_display_unit rq)
              end
          end
    end.
End SignTx.

Arguments km : clear implicits.
