(* ===== verification/SignStream.v ===== *)
(** * Streamed signing

    The handlers of key_manager_task_port.c (w3-core) for transactions of up to
    400 inputs: the payload is written to a file while it arrives, shown after
    its hash has been checked, and signed from the file after approval; the
    signatures are kept in a second file until the phone fetches them. *)

From S2P Require Import Prelude Sha256 Wstring Fs Wkek Confirmation Bip32 WalletKeys WalletAddr Psbt SignKey SignSession SignTx.

Definition BATCH_MAX_SIGNATURES : Z := 10.

Record sign_stream_start_cmd := mk_stream_start {
  sr_num_inputs : Z;
  sr_num_outputs : Z;
  sr_version : Z;
  sr_lock_time : Z;
  sr_payload_size : Z;
  sr_btc_display_unit : Z;
}.

(** ** Records of the payload *)

(** The fields of [out] that a record does not set are zero: every caller
    clears it. *)
Definition decode_input_record (rec : list Z) : outcome (option raw_tx_input_t) :=
  let! txid := mread rec 0 32 in
  let! idx := mread rec 32 4 in
  let! seq := mread rec 36 4 in
  let! amount := mread rec 40 8 in
  let! path_len := aget rec 48 in
  if negb (path_len =? 5) then Done None
  else
    let! w0 := mread rec 49 4 in
    let! w1 := mread rec 53 4 in
    let! w2 := mread rec 57 4 in
    let! w3 := mread rec 61 4 in
    let! w4 := mread rec 65 4 in
    let path := ztake path_len (map le_decode [w0; w1; w2; w3; w4]) in
    Done (Some (mk_input txid (le_decode idx) (le_decode seq) (le_decode amount)
                  (ztake 10 (path ++ replicate 10 0)) path_len)).

Definition decode_output_record (rec : list Z) : outcome (option raw_tx_output_t) :=
  let! amount := mread rec 0 8 in
  let! spk_len := aget rec 8 in
  if (SPK_BUFFER_SIZE <? spk_len) || (35 <? spk_len) then Done None
  else
    let! spk := mread rec 9 spk_len in
    let! has_path := aget rec 44 in
    let! out_path_len := aget rec 45 in
    if PSBT_BIP32_PATH_MAX_LEN <? out_path_len then Done None
    else
      let! w0 := mread rec 46 4 in
      let! w1 := mread rec 50 4 in
      let! w2 := mread rec 54 4 in
      let! w3 := mread rec 58 4 in
      let! w4 := mread rec 62 4 in
      let path := ztake out_path_len (map le_decode [w0; w1; w2; w3; w4]) in
      Done (Some (mk_output (le_decode amount) (ztake 64 (spk ++ replicate 64 0)) spk_len
                    (negb (has_path =? 0)) (ztake 10 (path ++ replicate 10 0)) out_path_len)).

Definition input_offset (index : Z) : Z := u32 (STREAM_HEADER_SIZE + index * STREAM_INPUT_RECORD_SIZE).
Definition output_offset (num_inputs index : Z) : Z :=
  u32 (STREAM_HEADER_SIZE + num_inputs * STREAM_INPUT_RECORD_SIZE + index * STREAM_OUTPUT_RECORD_SIZE).

Section SignStream.
Context {L E C M : Type} `{Littlefs L} `{SecureElement E} `{Secp} `{Ecdsa} `{Ew} `{Sha256 C}
  `{SessionUnion C M}.

(** ** Reading the payload *)

(** The bytes, when the seek and the whole read succeed. *)
Definition flash_read_at_f (s : fs_ctx L) (offset size : Z) : option (list Z) * fs_ctx L :=
  let '(r, s) := fs_file_seek s g_file (i32 offset) FS_SEEK_SET in
  if r <? 0 then (None, s)
  else
    let '(r, bs, s) := fs_file_read s g_file size in
    (if r =? size then Some bs else None, s).

Definition flash_read_at (s : fs_ctx L) (offset size : Z) : option (list Z) * fs_ctx L :=
  let '(r, s) := fs_open_global s STREAM_PAYLOAD_PATH FS_O_RDONLY in
  if negb (r =? 0) then (None, s)
  else
    let '(bs, s) := flash_read_at_f s offset size in
    let '(_, s) := fs_close_global s in
    (bs, s).

Definition parse_input_from_flash_f (s : fs_ctx L) (t : stream_signing_session_t C) (index : Z)
    : outcome (option raw_tx_input_t * fs_ctx L) :=
  if st_num_inputs t <=? index then Done (None, s)
  else
    let '(rec, s) := flash_read_at_f s (input_offset index) STREAM_INPUT_RECORD_SIZE in
    match rec with
    | None => Done (None, s)
    | Some rec => let! i := decode_input_record rec in Done (i, s)
    end.

Definition parse_output_from_flash_f (s : fs_ctx L) (t : stream_signing_session_t C) (index : Z)
    : outcome (option raw_tx_output_t * fs_ctx L) :=
  if st_num_outputs t <=? index then Done (None, s)
  else
    let '(rec, s) := flash_read_at_f s (output_offset (st_num_inputs t) index) STREAM_OUTPUT_RECORD_SIZE in
    match rec with
    | None => Done (None, s)
    | Some rec => let! o := decode_output_record rec in Done (o, s)
    end.

Definition parse_input_from_flash (s : fs_ctx L) (t : stream_signing_session_t C) (index : Z)
    : outcome (option raw_tx_input_t * fs_ctx L) :=
  if st_num_inputs t <=? index then Done (None, s)
  else
    let '(rec, s) := flash_read_at s (input_offset index) STREAM_INPUT_RECORD_SIZE in
    match rec with
    | None => Done (None, s)
    | Some rec => let! i := decode_input_record rec in Done (i, s)
    end.

(** Runs [body] on the open payload file and closes it. *)
Definition with_payload {A} (s : fs_ctx L) (failed : A) (body : fs_ctx L → outcome (A * fs_ctx L))
    : outcome (A * fs_ctx L) :=
  let '(r, s) := fs_open_global s STREAM_PAYLOAD_PATH FS_O_RDONLY in
  if negb (r =? 0) then Done (failed, s)
  else
    let! '(a, s) := body s in
    let '(_, s) := fs_close_global s in
    Done (a, s).

(** The loops over the records, from index [i] on, [n] of them left. *)
Fixpoint hash_fields (n : nat) (i off len : Z) (ctx : C) (s : fs_ctx L) : option C * fs_ctx L :=
  match n with
  | O => (Some ctx, s)
  | S n =>
      let '(bs, s) := flash_read_at_f s (u32 (input_offset i + off)) len in
      match bs with
      | None => (None, s)
      | Some bs =>
          match crypto_sha256_stream_update ctx bs with
          | None => (None, s)
          | Some ctx => hash_fields n (i + 1) off len ctx s
          end
      end
  end.

Fixpoint hash_output_records (n : nat) (t : stream_signing_session_t C) (i : Z) (ctx : C) (s : fs_ctx L)
    : outcome (option C * fs_ctx L) :=
  match n with
  | O => Done (Some ctx, s)
  | S n =>
      let! '(o, s) := parse_output_from_flash_f s t i in
      match o with
      | None => Done (None, s)
      | Some o =>
          match crypto_sha256_stream_update ctx (le_encode 8 (out_amount o)) with
          | None => Done (None, s)
          | Some ctx =>
              match crypto_sha256_stream_update ctx [u8 (destination_spk_len o)] with
              | None => Done (None, s)
              | Some ctx =>
                  let! spk := mread (destination_spk o) 0 (destination_spk_len o) in
                  match crypto_sha256_stream_update ctx spk with
                  | None => Done (None, s)
                  | Some ctx => hash_output_records n t (i + 1) ctx s
                  end
              end
          end
      end
  end.

Definition finish_hash256 (ctx : option C) : option (list Z) :=
  ctx ← ctx; inner ← crypto_sha256_stream_final ctx; crypto_hash_sha256 (C := C) inner.

(** The three intermediate hashes. *)
Definition stream_compute_bip143_hashes (s : fs_ctx L) (t : stream_signing_session_t C)
    : outcome (option (list Z * list Z * list Z) * fs_ctx L) :=
  with_payload s None (λ s,
    match crypto_sha256_stream_init with
    | None => Done (None, s)
    | Some ctx =>
        let '(c, s) := hash_fields (Z.to_nat (st_num_inputs t)) 0 0 36 ctx s in
        match finish_hash256 c with
        | None => Done (None, s)
        | Some hp =>
            match crypto_sha256_stream_init with
            | None => Done (None, s)
            | Some ctx =>
                let '(c, s) := hash_fields (Z.to_nat (st_num_inputs t)) 0 36 4 ctx s in
                match finish_hash256 c with
                | None => Done (None, s)
                | Some hs =>
                    match crypto_sha256_stream_init with
                    | None => Done (None, s)
                    | Some ctx =>
                        let! '(c, s) := hash_output_records (Z.to_nat (st_num_outputs t)) t 0 ctx s in
                        match finish_hash256 c with
                        | None => Done (None, s)
                        | Some ho => Done (Some (hp, hs, ho), s)
                        end
                    end
                end
            end
        end
    end).

Fixpoint sum_input_records (n : nat) (t : stream_signing_session_t C) (i total : Z) (s : fs_ctx L)
    : outcome (option Z * fs_ctx L) :=
  match n with
  | O => Done (Some total, s)
  | S n =>
      let! '(inp, s) := parse_input_from_flash_f s t i in
      match inp with
      | None => Done (None, s)
      | Some inp =>
          if UINT64_MAX - total <? in_amount inp then Done (None, s)
          else sum_input_records n t (i + 1) (u64 (total + in_amount inp)) s
      end
  end.

Fixpoint classify_output_records (n : nat) (t : stream_signing_session_t C) (i : Z) (c : output_class)
    (s : fs_ctx L) : outcome (option output_class * fs_ctx L) :=
  match n with
  | O => Done (Some c, s)
  | S n =>
      let! '(o, s) := parse_output_from_flash_f s t i in
      match o with
      | None => Done (None, s)
      | Some o =>
          if UINT64_MAX - total_output_sats c <? out_amount o then Done (None, s)
          else
            let total := u64 (total_output_sats c + out_amount o) in
            classify_output_records n t (i + 1)
              (if has_derivation_path o
               then mk_class total (external_index c) i (external_count c) (change_count c + 1)
               else mk_class total i (change_index c) (external_count c + 1) (change_count c)) s
      end
  end.

Definition stream_get_tx_info (s : fs_ctx L) (t : stream_signing_session_t C) (network : ew_network_t)
    : outcome (option psbt_info_t * fs_ctx L) :=
  with_payload s None (λ s,
    let! '(ti, s) := sum_input_records (Z.to_nat (st_num_inputs t)) t 0 0 s in
    match ti with
    | None => Done (None, s)
    | Some total_input_sats =>
        let! '(c, s) := classify_output_records (Z.to_nat (st_num_outputs t)) t 0 (mk_class 0 (-1) (-1) 0 0) s in
        match c with
        | None => Done (None, s)
        | Some c =>
            if (1 <? external_count c) || (1 <? change_count c) then Done (None, s)
            else if total_input_sats <? total_output_sats c then Done (None, s)
            else
              let fee := u64 (total_input_sats - total_output_sats c) in
              let! '(ext, s) :=
                if 0 <=? external_index c then
                  let! '(o, s) := parse_output_from_flash_f s t (external_index c) in
                  match o with
                  | None => Done (None, s)
                  | Some o =>
                      let! spk := mread (destination_spk o) 0 (destination_spk_len o) in
                      match ew_script_to_address spk network DESTINATION_ADDRESS_MAX_LEN with
                      | None => Done (None, s)
                      | Some address => Done (Some (true, address, out_amount o), s)
                      end
                  end
                else Done (Some (false, [], 0), s) in
              match ext with
              | None => Done (None, s)
              | Some (has_dest, address, send) =>
                  if 0 <=? change_index c then
                    let! '(o, s) := parse_output_from_flash_f s t (change_index c) in
                    match o with
                    | None => Done (None, s)
                    | Some o => Done (Some (mk_info has_dest address send (out_amount o) fee), s)
                    end
                  else Done (Some (mk_info has_dest address send 0 fee), s)
              end
        end
    end).

Fixpoint input_records_account (n : nat) (t : stream_signing_session_t C) (expected i : Z) (s : fs_ctx L)
    : outcome (bool * fs_ctx L) :=
  match n with
  | O => Done (true, s)
  | S n =>
      let! '(inp, s) := parse_input_from_flash_f s t i in
      match inp with
      | None => Done (false, s)
      | Some inp =>
          let! acct := input_account inp in
          if negb (acct =? expected) then Done (false, s) else input_records_account n t expected (i + 1) s
      end
  end.

Definition stream_validate_input_accounts (s : fs_ctx L) (t : stream_signing_session_t C) (expected : Z)
    : outcome (bool * fs_ctx L) :=
  with_payload s false (input_records_account (Z.to_nat (st_num_inputs t)) t expected 0).

Fixpoint output_records_policy (n : nat) (t : stream_signing_session_t C) (keyset : wallet_keyset_t) (i : Z)
    (s : fs_ctx L) : outcome (bool * fs_ctx L) :=
  match n with
  | O => Done (true, s)
  | S n =>
      let! '(o, s) := parse_output_from_flash_f s t i in
      match o with
      | None => Done (false, s)
      | Some o =>
          if negb (has_derivation_path o) then
            if negb (out_path_len o =? 0) then Done (false, s)
            else output_records_policy n t keyset (i + 1) s
          else if negb (out_path_len o =? 5) then Done (false, s)
          else
            let! p := mread (out_path o) 0 (out_path_len o) in
            let! spk := mread (destination_spk o) 0 (destination_spk_len o) in
            let! ok := wallet_change_output_belongs_to_policy keyset p spk in
            if negb ok then Done (false, s) else output_records_policy n t keyset (i + 1) s
      end
  end.

Definition stream_validate_change_outputs (s : fs_ctx L) (t : stream_signing_session_t C)
    (keyset : wallet_keyset_t) : outcome (bool * fs_ctx L) :=
  with_payload s false (output_records_policy (Z.to_nat (st_num_outputs t)) t keyset 0).

Definition stream_validate_sweep_shape (s : fs_ctx L) (t : stream_signing_session_t C)
    (keyset : wallet_keyset_t) : outcome (bool * fs_ctx L) :=
  if negb (st_num_outputs t =? 1) then Done (false, s)
  else
    let! fresh := derive_current_fresh_receive_spk keyset SPK_BUFFER_SIZE in
    match fresh with
    | None => Done (false, s)
    | Some fresh_spk =>
        let! '(o, s) := with_payload s None (λ s, parse_output_from_flash_f s t 0) in
        match o with
        | None => Done (false, s)
        | Some o => let! same := output_is_fresh o fresh_spk in Done (same, s)
        end
    end.

(** The read loop: 256 bytes at a time until nothing is left. Every turn but
    the last reads a byte, so the size of the file bounds the turns. *)
Fixpoint hash_file (fuel : nat) (ctx : C) (s : fs_ctx L) : option C * fs_ctx L :=
  match fuel with
  | O => (None, s)
  | S fuel =>
      let '(r, bs, s) := fs_file_read s g_file 256 in
      if r <? 0 then (None, s)
      else if r =? 0 then (Some ctx, s)
      else
        match crypto_sha256_stream_update ctx bs with
        | None => (None, s)
        | Some ctx => hash_file fuel ctx s
        end
  end.

Definition recompute_payload_hash_from_flash (s : fs_ctx L) : option (list Z) * fs_ctx L :=
  let '(r, s) := fs_open_global s STREAM_PAYLOAD_PATH FS_O_RDONLY in
  if negb (r =? 0) then (None, s)
  else
    match crypto_sha256_stream_init with
    | None => let '(_, s) := fs_close_global s in (None, s)
    | Some ctx =>
        let '(c, s) := hash_file (S (Z.to_nat (fs_file_size s g_file))) ctx s in
        let '(_, s) := fs_close_global s in
        (match c with None => None | Some ctx => crypto_sha256_stream_final ctx end, s)
    end.
End SignStream.
