(* ===== verification/SignPayload.v ===== *)
(** * The transaction in a payload

    What the routines of streamed signing read from the payload file is the
    transaction whose records lie in it: the same sums, the same intermediate
    hashes and the same inputs as if the records had been decoded into lists. *)

From S2P Require Import Prelude Sha256 Wstring Fs Wkek Bip32 WalletKeys WalletAddr Psbt PsbtSpec SignKey SignSession SignFrame SignTx SignStream.

(** ** Records *)

Definition record_at (D : list Z) (off n : Z) : option (list Z) :=
  if off + n <=? zlen D then Some (ztake n (zdrop off D)) else None.

Definition decoded {A} (m : outcome (option A)) : option A := match m with Done r => r | _ => None end.

Definition payload_input (D : list Z) (i : Z) : option raw_tx_input_t :=
  rec ← record_at D (16 + 69 * i) 69; decoded (decode_input_record rec).
Definition payload_output (D : list Z) (num_inputs i : Z) : option raw_tx_output_t :=
  rec ← record_at D (16 + 69 * num_inputs + 66 * i) 66; decoded (decode_output_record rec).

(** [n] records from index [i] on. *)
Fixpoint payload_inputs (D : list Z) (i : Z) (n : nat) : option (list raw_tx_input_t) :=
  match n with
  | O => Some []
  | S n => x ← payload_input D i; l ← payload_inputs D (i + 1) n; Some (x :: l)
  end.
Fixpoint payload_outputs (D : list Z) (num_inputs i : Z) (n : nat) : option (list raw_tx_output_t) :=
  match n with
  | O => Some []
  | S n => x ← payload_output D num_inputs i; l ← payload_outputs D num_inputs (i + 1) n; Some (x :: l)
  end.

Lemma payload_inputs_cons D i n l : payload_inputs D i (S n) = Some l →
  ∃ x r, l = x :: r ∧ payload_input D i = Some x ∧ payload_inputs D (i + 1) n = Some r.
Proof. cbn. intros (x & Hx & (r & Hr & [= <-])%bind_Some)%bind_Some. eauto. Qed.

Lemma payload_outputs_cons D ni i n l : payload_outputs D ni i (S n) = Some l →
  ∃ x r, l = x :: r ∧ payload_output D ni i = Some x ∧ payload_outputs D ni (i + 1) n = Some r.
Proof. cbn. intros (x & Hx & (r & Hr & [= <-])%bind_Some)%bind_Some. eauto. Qed.

Lemma payload_inputs_lookup D n : ∀ i l j, payload_inputs D i n = Some l → (j < n)%nat →
  l !! j = payload_input D (i + Z.of_nat j) ∧ is_Some (l !! j).
Proof.
  induction n as [|n IH]; intros i l j; [lia|]. intros (x & r & -> & Hx & Hr)%payload_inputs_cons Hj.
  destruct j as [|j].
  - by rewrite Z.add_0_r, Hx.
  - change ((x :: r) !! S j) with (r !! j). destruct (IH _ _ j Hr ltac:(lia)) as [E Hs]. split; [|done]. rewrite E. f_equal. lia.
Qed.

Lemma payload_outputs_lookup D ni n : ∀ i l j, payload_outputs D ni i n = Some l → (j < n)%nat →
  l !! j = payload_output D ni (i + Z.of_nat j) ∧ is_Some (l !! j).
Proof.
  induction n as [|n IH]; intros i l j; [lia|]. intros (x & r & -> & Hx & Hr)%payload_outputs_cons Hj.
  destruct j as [|j].
  - by rewrite Z.add_0_r, Hx.
  - change ((x :: r) !! S j) with (r !! j). destruct (IH _ _ j Hr ltac:(lia)) as [E Hs]. split; [|done]. rewrite E. f_equal. lia.
Qed.

Lemma payload_inputs_length D n : ∀ i l, payload_inputs D i n = Some l → length l = n.
Proof.
  induction n as [|n IH]; intros i l; [by intros [= <-]|].
  intros (x & r & -> & _ & Hr)%payload_inputs_cons. cbn. f_equal. by eapply IH.
Qed.

Lemma payload_outputs_length D ni n : ∀ i l, payload_outputs D ni i n = Some l → length l = n.
Proof.
  induction n as [|n IH]; intros i l; [by intros [= <-]|].
  intros (x & r & -> & _ & Hr)%payload_outputs_cons. cbn. f_equal. by eapply IH.
Qed.

(** ** Decoded records are well formed *)

Lemma mread_bytes l off n r : bytes_ok l → mread l off n = Done r → bytes_ok r.
Proof. intros Hl (-> & _)%mread_inv. by apply Forall_take, Forall_drop. Qed.

Lemma record_bytes D off n rec : bytes_ok D → record_at D off n = Some rec → 0 ≤ n → 0 ≤ off →
  bytes_ok rec ∧ zlen rec = n.
Proof.
  unfold record_at. intros HD. case_match; [|done]. intros [= <-] Hn Ho. btest. split; [by apply Forall_take, Forall_drop|].
  rewrite zlen_ztake; [done|]. rewrite zlen_zdrop; lia.
Qed.

Lemma aget_is_byte l i x : bytes_ok l → aget l i = Done x → byte_ok x.
Proof.
  intros Hl. unfold aget. case_match; [|done]. destruct (l !! Z.to_nat i) as [y|] eqn:Ey; [|done].
  intros [= <-]. by apply (Forall_lookup_1 _ _ _ _ Hl Ey).
Qed.

Lemma word_ok rec off w : bytes_ok rec → mread rec off 4 = Done w → bytes_ok w ∧ zlen w = 4.
Proof. intros Hb E. split; [by eapply mread_bytes|by eapply mread_len]. Qed.

Lemma le_word w n : bytes_ok w → zlen w = Z.of_nat n → le_encode n (le_decode w) = w.
Proof. intros Hb Hl. rewrite <- (le_encode_decode w Hb) at 2. f_equal. unfold zlen in Hl. lia. Qed.

Lemma le_range w n : bytes_ok w → zlen w = n → 0 ≤ le_decode w < 256 ^ n.
Proof. intros Hb <-. by apply le_decode_range. Qed.

(** The little-endian words of a path, in a buffer of ten. *)
Lemma path_buffer_ok rec n ws : bytes_ok rec → Forall (λ w, ∃ off, mread rec off 4 = Done w) ws →
  let p := ztake 10 (ztake n (map le_decode ws) ++ replicate 10 0) in
  zlen p = PSBT_BIP32_PATH_MAX_LEN ∧ Forall u32_ok p.
Proof.
  intros Hb Hws. cbn zeta. split.
  - unfold PSBT_BIP32_PATH_MAX_LEN. rewrite zlen_ztake; [done|]. rewrite zlen_app, zlen_replicate.
    pose proof (zlen_nonneg (ztake n (map le_decode ws))). lia.
  - apply Forall_take, Forall_app. split; [|apply Forall_replicate; done]. apply Forall_take, Forall_map.
    eapply Forall_impl; [exact Hws|]. intros w (off & Hw). destruct (word_ok _ _ _ Hb Hw). by apply (le_range w 4).
Qed.

Lemma decode_input_ok rec x : bytes_ok rec → decode_input_record rec = Done (Some x) →
  input_ok x ∧ in_path_len x = 5 ∧ outpoint_bytes x = ztake 36 rec
  ∧ sequence_bytes x = ztake 4 (zdrop 36 rec).
Proof.
  intros Hb E. unfold decode_input_record in E.
  apply obind_inv in E as (txid & Etx & E). apply obind_inv in E as (idx & Eidx & E).
  apply obind_inv in E as (seq & Eseq & E). apply obind_inv in E as (amt & Eamt & E).
  apply obind_inv in E as (plen & Eplen & E). destruct (plen =? 5) eqn:Ep; [|done].
  apply obind_inv in E as (w0 & E0 & E). apply obind_inv in E as (w1 & E1 & E).
  apply obind_inv in E as (w2 & E2 & E). apply obind_inv in E as (w3 & E3 & E).
  apply obind_inv in E as (w4 & E4 & [= <-]). btest.
  destruct (word_ok _ _ _ Hb Eidx) as [Bidx Lidx]. destruct (word_ok _ _ _ Hb Eseq) as [Bseq Lseq].
  pose proof (mread_bytes _ _ _ _ Hb Eamt) as Bamt. pose proof (mread_len _ _ _ _ Eamt) as Lamt.
  destruct (path_buffer_ok rec plen [w0; w1; w2; w3; w4] Hb) as [Hpl Hpw].
  { rewrite !Forall_cons. split_and!; eauto. }
  unfold outpoint_bytes, sequence_bytes. cbn [prev_txid prev_index sequence in_path_len].
  rewrite (le_word idx), (le_word seq) by done. apply mread_inv in Etx as (-> & _ & _ & Hlen).
  apply mread_inv in Eidx as (-> & _). apply mread_inv in Eseq as (-> & _).
  split_and!; [split; cbn| done | |done].
  - rewrite zdrop_0, zlen_ztake by lia. done.
  - apply (le_range _ 4 Bidx Lidx).
  - apply (le_range _ 4 Bseq Lseq).
  - apply (le_range _ 8 Bamt Lamt).
  - exact Hpl.
  - exact Hpw.
  - unfold PSBT_BIP32_PATH_MAX_LEN. lia.
  - rewrite zdrop_0. unfold ztake, zdrop. change (Z.to_nat 36) with (32 + 4)%nat.
    by rewrite <- take_take_drop.
Qed.

Lemma decode_output_ok rec x : bytes_ok rec → decode_output_record rec = Done (Some x) → output_ok x.
Proof.
  intros Hb E. unfold decode_output_record in E.
  apply obind_inv in E as (amt & Eamt & E). apply obind_inv in E as (slen & Eslen & E).
  destruct (_ || _) eqn:Es; [done|]. apply obind_inv in E as (sp & Esp & E). apply obind_inv in E as (hp & Ehp & E).
  apply obind_inv in E as (plen & Eplen & E). case_match; [done|].
  apply obind_inv in E as (w0 & E0 & E). apply obind_inv in E as (w1 & E1 & E).
  apply obind_inv in E as (w2 & E2 & E). apply obind_inv in E as (w3 & E3 & E).
  apply obind_inv in E as (w4 & E4 & [= <-]). btest.
  pose proof (mread_bytes _ _ _ _ Hb Eamt) as Bamt. pose proof (mread_len _ _ _ _ Eamt) as Lamt.
  destruct (path_buffer_ok rec plen [w0; w1; w2; w3; w4] Hb) as [Hpl Hpw].
  { rewrite !Forall_cons. split_and!; eauto. }
  pose proof (aget_is_byte _ _ _ Hb Eslen). pose proof (aget_is_byte _ _ _ Hb Eplen).
  apply orb_false_iff in Es as [Es _]. btest.
  split; cbn [out_amount destination_spk destination_spk_len out_path out_path_len].
  - apply (le_range _ 8 Bamt Lamt).
  - unfold SPK_BUFFER_SIZE. rewrite zlen_ztake; [done|]. zl.
  - unfold byte_ok in *. lia.
  - exact Hpl.
  - exact Hpw.
  - unfold byte_ok in *. lia.
Qed.

Lemma payload_input_ok D i x : bytes_ok D → 0 ≤ i → payload_input D i = Some x → input_ok x ∧ in_path_len x = 5.
Proof.
  intros HD Hi (rec & Hr & Hx)%bind_Some. destruct (record_bytes _ _ _ _ HD Hr) as [Hb _]; [lia|lia|].
  unfold decoded in Hx. destruct (decode_input_record rec) as [y| | |] eqn:Ed; try done. subst y.
  by destruct (decode_input_ok _ _ Hb Ed) as (? & ? & _).
Qed.

Lemma payload_output_ok D ni i x : bytes_ok D → 0 ≤ ni → 0 ≤ i → payload_output D ni i = Some x → output_ok x.
Proof.
  intros HD Hn Hi (rec & Hr & Hx)%bind_Some. destruct (record_bytes _ _ _ _ HD Hr) as [Hb _]; [lia|lia|].
  unfold decoded in Hx. destruct (decode_output_record rec) as [y| | |] eqn:Ed; try done. subst y.
  by eapply decode_output_ok.
Qed.

(** A part of a record. *)
Lemma record_part D off n m k rec : record_at D off n = Some rec → 0 ≤ off → 0 ≤ m → 0 ≤ k → m + k ≤ n →
  record_at D (off + m) k = Some (ztake k (zdrop m rec)).
Proof.
  unfold record_at. case_match; [|done]. intros [= <-] ????. btest. zdecide. f_equal.
  unfold ztake, zdrop. rewrite skipn_firstn_comm, take_take, drop_drop.
  rewrite (Nat.min_l (Z.to_nat k)) by lia. do 2 f_equal. lia.
Qed.

Lemma payload_input_parts D i x : bytes_ok D → 0 ≤ i → payload_input D i = Some x →
  record_at D (16 + 69 * i + 0) 36 = Some (outpoint_bytes x)
  ∧ record_at D (16 + 69 * i + 36) 4 = Some (sequence_bytes x).
Proof.
  intros HD Hi (rec & Hr & Hx)%bind_Some. destruct (record_bytes _ _ _ _ HD Hr) as [Hb _]; [lia|lia|].
  unfold decoded in Hx. destruct (decode_input_record rec) as [y| | |] eqn:Ed; try done. subst y.
  destruct (decode_input_ok _ _ Hb Ed) as (_ & _ & -> & ->).
  split; rewrite (record_part _ _ 69 _ _ rec) by (done || lia); [by rewrite zdrop_0|done].
Qed.

(** ** Reading the file *)

Section SignPayload.
Context {L E C M : Type} `{Littlefs L} `{SecureElement E} `{Secp} `{Ecdsa} `{Ew} `{Sha256 C}
  `{SessionUnion C M}.
Context `{!LittlefsLaws L} `{!Sha256Laws C}.
Implicit Types (s : fs_ctx L) (t : stream_signing_session_t C).

Definition same_files s s' : Prop := ∀ q, fs_data s' q = fs_data s q.

Lemma same_files_trans s1 s2 s3 : same_files s1 s2 → same_files s2 s3 → same_files s1 s3.
Proof. intros A B q. by rewrite B, A. Qed.

(** The payload is open, with its contents. *)
Definition reading s (D : list Z) : Prop := fpay s = Some D ∧ ∃ pos, fs_open_at s STREAM_PAYLOAD_PATH pos D.

(** [reads s D P m]: [m] leaves the payload open and every file as it is, and
    [P] holds of its result. *)
Definition reads {A} s D (P : A → Prop) (m : A * fs_ctx L) : Prop :=
  reading m.2 D ∧ same_files s m.2 ∧ P m.1.

Lemma flash_read_spec s D off n : reading s D → 0 ≤ off < 2 ^ 31 → 0 < n →
  reads s D (λ r, ∀ bs, r = Some bs → record_at D off n = Some bs) (flash_read_at_f s off n).
Proof.
  intros [HD [pos Ho]] Hoff Hn. unfold flash_read_at_f, reads.
  assert (Hi : i32 off = off) by (unfold i32, u32; rewrite Z.mod_small by lia; by zdecide). rewrite Hi.
  destruct (fs_file_seek s g_file off FS_SEEK_SET) as [r s1] eqn:Es.
  destruct (file_seek_spec _ _ _ _ _ _ _ Ho Es) as (Hq1 & pos' & Ho1 & Hp).
  destruct (Z.ltb_spec r 0) as [Er|Er]; cbn [fst snd].
  { split_and!; [split; [by unfold fpay; rewrite Hq1|eauto]|done|done]. }
  specialize (Hp Er). subst pos'.
  destruct (fs_file_read s1 g_file n) as [[r2 bs] s2] eqn:E2.
  destruct (file_read_spec _ _ _ _ _ _ _ _ Ho1 (Z.lt_le_incl _ _ Hn) (proj1 Hoff) E2) as (Hq2 & Ho2 & Hr).
  cbn [fst snd]. split_and!; [split; [unfold fpay; by rewrite Hq2, Hq1|eauto]|by intros q; rewrite Hq2, Hq1|].
  intros bs' Hb. destruct (r2 =? n) eqn:En; [|done]. injection Hb as <-. btest. subst r2.
  destruct (Hr ltac:(lia)) as [Hbs Hlen]. unfold record_at.
  assert (off + n ≤ zlen D).
  { rewrite Hbs in Hlen. unfold zlen, ztake, zdrop in *. rewrite length_take, length_drop in Hlen. lia. }
  zdecide. by rewrite Hbs.
Qed.
(** A session that a start command set up. *)
Record stream_ok t : Prop := {
  so_inputs : 0 < st_num_inputs t ≤ STREAM_TX_MAX_INPUTS;
  so_outputs : 0 < st_num_outputs t ≤ STREAM_TX_MAX_OUTPUTS;
  so_version : u32_ok (st_version t);
  so_lock : u32_ok (st_lock_time t);
}.

Lemma input_offset_eq i : 0 ≤ i < STREAM_TX_MAX_INPUTS → input_offset i = 16 + 69 * i.
Proof.
  unfold STREAM_TX_MAX_INPUTS, input_offset, STREAM_HEADER_SIZE, STREAM_INPUT_RECORD_SIZE. intros.
  rewrite u32_small; lia.
Qed.

Lemma output_offset_eq ni i : 0 ≤ ni ≤ STREAM_TX_MAX_INPUTS → 0 ≤ i < STREAM_TX_MAX_OUTPUTS →
  output_offset ni i = 16 + 69 * ni + 66 * i.
Proof.
  unfold STREAM_TX_MAX_INPUTS, STREAM_TX_MAX_OUTPUTS, output_offset, STREAM_HEADER_SIZE,
    STREAM_INPUT_RECORD_SIZE, STREAM_OUTPUT_RECORD_SIZE. intros. rewrite u32_small; lia.
Qed.

Lemma reads_ret {A} s D (P : A → Prop) (a : A) : reading s D → P a → reads s D P (a, s).
Proof. intros Hs HP. by split_and!. Qed.

Lemma reads_from {A} s s1 D (P : A → Prop) m : same_files s s1 → reads s1 D P m → reads s D P m.
Proof. intros Hs (Hr & Hq & HP). split_and!; [done|by eapply same_files_trans|done]. Qed.

Lemma parse_input_spec s t D i : reading s D → stream_ok t → 0 ≤ i →
  post (reads s D (λ r, ∀ x, r = Some x → payload_input D i = Some x)) (parse_input_from_flash_f s t i).
Proof.
  intros Hs [Hni Hno _ _] Hi. unfold parse_input_from_flash_f.
  destruct (Z.leb_spec (st_num_inputs t) i); [by apply post_done, reads_ret|].
  rewrite input_offset_eq by lia. unfold STREAM_TX_MAX_INPUTS in *.
  destruct (flash_read_spec s D (16 + 69 * i) STREAM_INPUT_RECORD_SIZE Hs ltac:(lia) ltac:(done)) as (Hr & Hq & Hrec).
  destruct (flash_read_at_f _ _ _) as [[rec|] s']; cbn [fst snd] in *; [|by apply post_done].
  intros a (y & Ey & [= <-])%obind_inv. split_and!; [done|done|]. intros x [= ->].
  unfold payload_input. rewrite (Hrec rec eq_refl : record_at D (16 + 69 * i) 69 = Some rec).
  cbn [mbind option_bind]. by rewrite Ey.
Qed.

Lemma parse_output_spec s t D i : reading s D → stream_ok t → 0 ≤ i →
  post (reads s D (λ r, ∀ x, r = Some x → payload_output D (st_num_inputs t) i = Some x))
    (parse_output_from_flash_f s t i).
Proof.
  intros Hs [Hni Hno _ _] Hi. unfold parse_output_from_flash_f.
  destruct (Z.leb_spec (st_num_outputs t) i); [by apply post_done, reads_ret|].
  rewrite output_offset_eq by lia. unfold STREAM_TX_MAX_INPUTS, STREAM_TX_MAX_OUTPUTS in *.
  destruct (flash_read_spec s D (16 + 69 * st_num_inputs t + 66 * i) STREAM_OUTPUT_RECORD_SIZE Hs
    ltac:(lia) ltac:(done)) as (Hr & Hq & Hrec).
  destruct (flash_read_at_f _ _ _) as [[rec|] s']; cbn [fst snd] in *; [|by apply post_done].
  intros a (y & Ey & [= <-])%obind_inv. split_and!; [done|done|]. intros x [= ->].
  unfold payload_output.
  rewrite (Hrec rec eq_refl : record_at D (16 + 69 * st_num_inputs t + 66 * i) 66 = Some rec).
  cbn [mbind option_bind]. by rewrite Ey.
Qed.

(** Opening the payload, reading it and closing it. *)
Lemma open_payload s r s' : fs_open_global s STREAM_PAYLOAD_PATH FS_O_RDONLY = (r, s') →
  same_files s s' ∧ (r = 0 → ∃ D, fpay s = Some D ∧ reading s' D).
Proof.
  intros Eo. destruct (open_global_spec _ _ _ _ _ Eo) as (Hq & Hn & Ho).
  destruct (decide (r = 0)) as [Hr|Hr].
  - destruct (Ho Hr) as (_ & D & [HD|(_ & Hbad & _)] & HD' & Hat); [|done]. split.
    + intros q. destruct (decide (q = STREAM_PAYLOAD_PATH)) as [->|]; [congruence|by apply Hq].
    + intros _. exists D. split; [done|]. split; [done|]. by eexists.
  - split; [|done]. intros q. destruct (decide (q = STREAM_PAYLOAD_PATH)) as [->|]; [by apply Hn|by apply Hq].
Qed.

Lemma close_payload s D : reading s D → same_files s (fs_close_global s).2.
Proof.
  intros [HD [pos Ho]] q. destruct (fs_close_global s) as [r s'] eqn:Ec.
  destruct (close_global_spec _ _ _ _ _ _ Ho Ec) as (Hq & _ & Hk & _).
  destruct (decide (q = STREAM_PAYLOAD_PATH)) as [->|]; [|by apply Hq]. cbn. rewrite (Hk HD). by symmetry.
Qed.

Lemma with_payload_spec {A} s failed (body : fs_ctx L → outcome (A * fs_ctx L)) (P : list Z → A → Prop) :
  (∀ s1 D, fpay s = Some D → reading s1 D → post (reads s1 D (P D)) (body s1)) →
  post (λ '(a, s'), same_files s s' ∧ (a = failed ∨ ∃ D, fpay s = Some D ∧ P D a)) (with_payload s failed body).
Proof.
  intros Hb. unfold with_payload. destruct (fs_open_global s _ _) as [r s1] eqn:Eo.
  destruct (open_payload _ _ _ Eo) as [Hq1 Ho]. destruct (Z.eqb_spec r 0) as [Hr|Hr]; cbn [negb]; [|by apply post_done; auto].
  destruct (Ho Hr) as (D & HD & Hrd). eapply post_bind; [by apply Hb|]. intros [a s2] (Hrd2 & Hq2 & HP).
  cbn [fst snd] in *. pose proof (close_payload _ _ Hrd2) as Hq3. destruct (fs_close_global s2) as [r3 s3].
  apply post_done. split; [|eauto]. by do 2 (eapply same_files_trans; [eassumption|]).
Qed.
(** ** The loops *)

Lemma hash_fields_spec D off len (part : raw_tx_input_t → list Z) : 0 ≤ off < 69 → 0 < len →
  (∀ j x, 0 ≤ j → payload_input D j = Some x → record_at D (16 + 69 * j + off) len = Some (part x)) →
  ∀ n i ctx s, reading s D → 0 ≤ i → i + Z.of_nat n ≤ STREAM_TX_MAX_INPUTS →
  reads s D (λ c, ∀ c' xs, c = Some c' → payload_inputs D i n = Some xs →
    stream_bytes c' = stream_bytes ctx ++ concat (map part xs)) (hash_fields n i off len ctx s).
Proof.
  intros Hoff Hlen Hpart. induction n as [|n IH]; intros i ctx s Hs Hi Hn; cbn [hash_fields].
  { apply reads_ret; [done|]. intros c' xs [= <-] [= <-]. by rewrite app_nil_r. }
  rewrite input_offset_eq by lia. unfold STREAM_TX_MAX_INPUTS in *. rewrite u32_small by lia.
  destruct (flash_read_spec s D (16 + 69 * i + off) len Hs ltac:(lia) Hlen) as (Hr & Hq & Hrec).
  destruct (flash_read_at_f _ _ _) as [[bs|] s1]; cbn [fst snd] in *; [|by split_and!].
  destruct (crypto_sha256_stream_update ctx bs) as [ctx1|] eqn:Eu; [|by split_and!].
  eapply reads_from; [exact Hq|]. destruct (IH (i + 1) ctx1 s1 Hr) as (Hr2 & Hq2 & Hc); [lia|lia|].
  split_and!; [done|done|]. intros c' xs Ec' (x & xr & -> & Hx & Hxr)%payload_inputs_cons.
  rewrite (Hc c' xr Ec' Hxr), (law_stream_update _ _ _ Eu). cbn [map concat].
  apply (Hpart _ _ Hi) in Hx. rewrite (Hrec bs eq_refl) in Hx. injection Hx as ->. by rewrite <- app_assoc.
Qed.

Lemma finish_hash_spec (c : option C) h : finish_hash256 c = Some h →
  ∃ ctx, c = Some ctx ∧ h = hash256 (C := C) (stream_bytes ctx).
Proof.
  unfold finish_hash256. intros (ctx & -> & (inner & Ei & Eh)%bind_Some)%bind_Some.
  exists ctx. split; [done|]. by rewrite (law_hash_sha256 _ _ Eh), (law_stream_final _ _ Ei).
Qed.

Lemma hash_outputs_spec D t : stream_ok t → bytes_ok D →
  ∀ n i ctx s, reading s D → 0 ≤ i →
  post (reads s D (λ c, ∀ c', c = Some c' → ∃ xs, payload_outputs D (st_num_inputs t) i n = Some xs
    ∧ stream_bytes c' = stream_bytes ctx ++ concat (map output_bytes xs))) (hash_output_records n t i ctx s).
Proof.
  intros Ht HD. induction n as [|n IH]; intros i ctx s Hs Hi; cbn [hash_output_records].
  { apply post_done, reads_ret; [done|]. intros c' [= <-]. exists []. by rewrite app_nil_r. }
  eapply post_bind; [by apply parse_output_spec|]. intros [o s1] (Hr & Hq & Ho). cbn [fst snd] in *.
  destruct o as [o|]; [|by apply post_done]. specialize (Ho o eq_refl).
  assert (Hok : output_ok o) by (eapply payload_output_ok; [done| |exact Hi|done]; destruct Ht; lia).
  destruct (crypto_sha256_stream_update ctx _) as [c1|] eqn:E1; [|by apply post_done].
  destruct (crypto_sha256_stream_update c1 _) as [c2|] eqn:E2; [|by apply post_done].
  rewrite spk_read by done. cbn [obind].
  destruct (crypto_sha256_stream_update c2 _) as [c3|] eqn:E3; [|by apply post_done].
  intros [c s'] Ec. eapply reads_from; [exact Hq|]. destruct (IH (i + 1) c3 s1 Hr ltac:(lia) _ Ec) as (Hr2 & Hq2 & Hc).
  split_and!; [done|done|]. intros c' Ec'. destruct (Hc c' Ec') as (xs & Hxs & Hb). exists (o :: xs).
  cbn [payload_outputs]. rewrite Ho, Hxs. split; [done|]. cbn [map concat]. rewrite Hb.
  rewrite (law_stream_update _ _ _ E3), (law_stream_update _ _ _ E2), (law_stream_update _ _ _ E1).
  destruct Hok as [_ _ Hlen _ _ _]. rewrite u8_small by (unfold SPK_BUFFER_SIZE in *; lia).
  unfold output_bytes. by rewrite <- !app_assoc.
Qed.

(** The intermediate hashes are those of the transaction in the payload. *)
Lemma bip143_hashes_spec s t : stream_ok t → (∀ D, fpay s = Some D → bytes_ok D) →
  post (λ '(r, s'), same_files s s' ∧ ∀ hp hs ho, r = Some (hp, hs, ho) → ∃ D, fpay s = Some D
    ∧ (∀ ins, payload_inputs D 0 (Z.to_nat (st_num_inputs t)) = Some ins →
         hp = hash_prevouts (C := C) ins ∧ hs = hash_sequence (C := C) ins)
    ∧ (∀ outs, payload_outputs D (st_num_inputs t) 0 (Z.to_nat (st_num_outputs t)) = Some outs →
         ho = hash_outputs (C := C) outs)) (stream_compute_bip143_hashes s t).
Proof.
  intros Ht HD. pose proof Ht as [Hni Hno _ _]. unfold stream_compute_bip143_hashes.
  eapply post_mono; [apply (with_payload_spec _ _ _ (λ D r, ∀ hp hs ho, r = Some (hp, hs, ho) →
      (∀ ins, payload_inputs D 0 (Z.to_nat (st_num_inputs t)) = Some ins →
         hp = hash_prevouts (C := C) ins ∧ hs = hash_sequence (C := C) ins)
      ∧ (∀ outs, payload_outputs D (st_num_inputs t) 0 (Z.to_nat (st_num_outputs t)) = Some outs →
           ho = hash_outputs (C := C) outs)))|]; cycle 1.
  { intros [r s'] [Hq Hr]. split; [done|]. intros hp hs ho ->. destruct Hr as [?|(D & HpD & Hp)]; [done|]. eauto. }
  intros s1 D HpD Hs1. specialize (HD D HpD). destruct crypto_sha256_stream_init as [c0|] eqn:E0; [|by apply post_done].
  apply law_stream_init in E0.
  assert (Hlen : 0 + Z.of_nat (Z.to_nat (st_num_inputs t)) ≤ STREAM_TX_MAX_INPUTS) by lia.
  destruct (hash_fields_spec D 0 36 outpoint_bytes ltac:(lia) ltac:(done)
    (λ j x Hj Hx, proj1 (payload_input_parts D j x HD Hj Hx)) (Z.to_nat (st_num_inputs t)) 0 c0 s1 Hs1 ltac:(done) Hlen)
    as (Hs2 & Hq2 & Hc1).
  destruct (hash_fields _ 0 0 36 c0 s1) as [ca s2]; cbn [fst snd] in *.
  destruct (finish_hash256 ca) as [hp|] eqn:Ehp; [|by apply post_done].
  destruct (hash_fields_spec D 36 4 sequence_bytes ltac:(lia) ltac:(done)
    (λ j x Hj Hx, proj2 (payload_input_parts D j x HD Hj Hx)) (Z.to_nat (st_num_inputs t)) 0 c0 s2 Hs2 ltac:(done) Hlen)
    as (Hs3 & Hq3 & Hc2).
  destruct (hash_fields _ 0 36 4 c0 s2) as [cb s3]; cbn [fst snd] in *.
  assert (Hq13 : same_files s1 s3) by (by eapply same_files_trans).
  destruct (finish_hash256 cb) as [hs|] eqn:Ehs; [|by apply post_done].
  eapply post_bind; [by apply hash_outputs_spec|]. intros [cc s4] (Hs4 & Hq4 & Hc3). cbn [fst snd] in *.
  assert (Hq14 : same_files s1 s4) by (by eapply same_files_trans).
  destruct (finish_hash256 cc) as [ho|] eqn:Eho; [|by apply post_done].
  apply post_done. split_and!; [done|done|]. cbn [fst]. intros ??? [= <- <- <-].
  apply finish_hash_spec in Ehp as (xa & -> & ->). apply finish_hash_spec in Ehs as (xb & -> & ->).
  apply finish_hash_spec in Eho as (xc & -> & ->). rewrite E0 in *. split.
  - intros ins Hins. by rewrite (Hc1 _ _ eq_refl Hins), (Hc2 _ _ eq_refl Hins).
  - intros outs Houts. destruct (Hc3 _ eq_refl) as (xs & Hxs & ->). rewrite Houts in Hxs. by injection Hxs as <-.
Qed.
Lemma sum_records_spec D t : stream_ok t →
  ∀ n i total s, reading s D → 0 ≤ i →
  post (reads s D (λ r, ∀ v, r = Some v → ∃ xs, payload_inputs D i n = Some xs
    ∧ sum_amounts total (map in_amount xs) = Some v)) (sum_input_records n t i total s).
Proof.
  intros Ht. induction n as [|n IH]; intros i total s Hs Hi; cbn [sum_input_records].
  { apply post_done, reads_ret; [done|]. intros v [= <-]. by exists []. }
  eapply post_bind; [by apply parse_input_spec|]. intros [x s1] (Hr & Hq & Hx). cbn [fst snd] in *.
  destruct x as [x|]; [|by apply post_done]. destruct (_ <? _) eqn:El; [by apply post_done|].
  intros [r s'] Er. eapply reads_from; [exact Hq|]. destruct (IH (i + 1) _ s1 Hr ltac:(lia) _ Er) as (Hr2 & Hq2 & Hv).
  split_and!; [done|done|]. intros v Ev. destruct (Hv v Ev) as (xs & Hxs & Hsum). exists (x :: xs).
  cbn [payload_inputs map sum_amounts]. rewrite (Hx x eq_refl), Hxs, El. done.
Qed.

Lemma classify_records_spec D t : stream_ok t →
  ∀ n i c s, reading s D → 0 ≤ i →
  post (reads s D (λ r, ∀ v, r = Some v → ∃ xs, payload_outputs D (st_num_inputs t) i n = Some xs
    ∧ classify_outputs i c xs = Some v)) (classify_output_records n t i c s).
Proof.
  intros Ht. induction n as [|n IH]; intros i c s Hs Hi; cbn [classify_output_records].
  { apply post_done, reads_ret; [done|]. intros v [= <-]. by exists []. }
  eapply post_bind; [by apply parse_output_spec|]. intros [x s1] (Hr & Hq & Hx). cbn [fst snd] in *.
  destruct x as [x|]; [|by apply post_done]. destruct (_ <? _) eqn:El; [by apply post_done|].
  intros [r s'] Er. eapply reads_from; [exact Hq|]. destruct (IH (i + 1) _ s1 Hr ltac:(lia) _ Er) as (Hr2 & Hq2 & Hv).
  split_and!; [done|done|]. intros v Ev. destruct (Hv v Ev) as (xs & Hxs & Hc). exists (x :: xs).
  cbn [payload_outputs classify_outputs]. rewrite (Hx x eq_refl), Hxs, El. done.
Qed.

Lemma payload_inputs_ok D n i l : bytes_ok D → 0 ≤ i → payload_inputs D i n = Some l → Forall input_ok l.
Proof.
  intros HD. revert i l. induction n as [|n IH]; intros i l Hi; [by intros [= <-]|].
  intros (x & r & -> & Hx & Hr)%payload_inputs_cons. constructor; [by eapply payload_input_ok|].
  eapply IH; [|exact Hr]. lia.
Qed.

Lemma payload_outputs_ok D ni n i l : bytes_ok D → 0 ≤ ni → 0 ≤ i → payload_outputs D ni i n = Some l → Forall output_ok l.
Proof.
  intros HD Hni. revert i l. induction n as [|n IH]; intros i l Hi; [by intros [= <-]|].
  intros (x & r & -> & Hx & Hr)%payload_outputs_cons. constructor; [by eapply (payload_output_ok D ni i)|].
  eapply IH; [|exact Hr]. lia.
Qed.

(** Reading an output again gives the one of the list. *)
Lemma reread D ni n outs i o x : payload_outputs D ni 0 n = Some outs → 0 ≤ i →
  outs !! Z.to_nat i = Some o → payload_output D ni i = Some x → x = o.
Proof.
  intros Ho Hi Hl Hx. pose proof (payload_outputs_length _ _ _ _ _ Ho) as Hlen.
  apply lookup_lt_Some in Hl as Hlt. destruct (payload_outputs_lookup D ni n 0 outs (Z.to_nat i) Ho) as [E1 _]; [lia|].
  rewrite Z2Nat.id, Z.add_0_l in E1 by done. congruence.
Qed.

(** The transaction in a payload. *)
Definition payload_parts D t (ins : list raw_tx_input_t) (outs : list raw_tx_output_t) : Prop :=
  payload_inputs D 0 (Z.to_nat (st_num_inputs t)) = Some ins
  ∧ payload_outputs D (st_num_inputs t) 0 (Z.to_nat (st_num_outputs t)) = Some outs.

(** What is shown about a streamed transaction is exact. *)
Lemma stream_info_spec s t network : stream_ok t → (∀ D, fpay s = Some D → bytes_ok D) →
  post (λ '(r, s'), same_files s s' ∧ ∀ info, r = Some info → ∃ D ins outs, fpay s = Some D
    ∧ payload_parts D t ins outs ∧ shown_exactly ins outs network info) (stream_get_tx_info s t network).
Proof.
  intros Ht HD. pose proof Ht as [Hni Hno _ _]. unfold stream_get_tx_info.
  eapply post_mono; [apply (with_payload_spec _ _ _ (λ D r, ∀ info, r = Some info → ∃ ins outs,
      payload_parts D t ins outs ∧ shown_exactly ins outs network info))|]; cycle 1.
  { intros [r s'] [Hq Hr]. split; [done|]. intros info ->. destruct Hr as [?|(D & HpD & Hp)]; [done|].
    destruct (Hp info eq_refl) as (ins & outs & ? & ?). eauto 10. }
  intros s1 D HpD Hs1. specialize (HD D HpD).
  eapply post_bind; [by apply sum_records_spec|]. intros [ti s2] (Hs2 & Hq2 & Hti). cbn [fst snd] in *.
  destruct ti as [ti|]; [|by apply post_done]. destruct (Hti ti eq_refl) as (ins & Hins & Hsum).
  eapply post_bind; [by apply classify_records_spec|]. intros [c s3] (Hs3 & Hq3 & Hc). cbn [fst snd] in *.
  assert (Hq13 : same_files s1 s3) by (by eapply same_files_trans).
  destruct c as [c|]; [|by apply post_done]. destruct (Hc c eq_refl) as (outs & Houts & Hcl).
  destruct (_ || _) eqn:En; [by apply post_done|]. destruct (ti <? _) eqn:Ef; [by apply post_done|]. cbn zeta.
  assert (Hio : Forall input_ok ins) by (by eapply payload_inputs_ok).
  assert (Hoo : Forall output_ok outs).
  { eapply (payload_outputs_ok D (st_num_inputs t) _ 0); [done|lia|done|exact Houts]. }
  destruct (sums_shown ins outs network ti c Hio Hoo Hsum Hcl En Ef) as (He & Hch & Hshown).
  unfold found_at in *.
  eapply post_bind with (Q := reads s1 D (λ r, ∀ b a v, r = Some (b, a, v) →
    match external outs with
    | [] => b = false ∧ v = 0
    | [o] => b = true ∧ v = out_amount o
             ∧ ew_script_to_address (spk o) network DESTINATION_ADDRESS_MAX_LEN = Some a
    | _ => False
    end)).
  { destruct (Z.leb_spec 0 (external_index c)) as [Hx|Hx]; cycle 1.
    { apply post_done. split_and!; [done|done|]. cbn. intros b a v [= <- <- <-].
      destruct (external outs) as [|o [|]]; [done| |done]. lia. }
    eapply post_bind; [by apply parse_output_spec|]. intros [o s4] (Hs4 & Hq4 & Ho). cbn [fst snd] in *.
    assert (Hq14 : same_files s1 s4) by (by eapply same_files_trans).
    destruct o as [o|]; [|by apply post_done]. specialize (Ho o eq_refl).
    assert (Hok : output_ok o) by (eapply (payload_output_ok D (st_num_inputs t)); [done|lia|exact Hx|done]).
    rewrite spk_read by done. cbn [obind].
    destruct (ew_script_to_address _ _ _) as [a|] eqn:Ea; apply post_done; (split_and!; [done|done|]); cbn; [|done].
    intros b a' v [= <- <- <-]. destruct (external outs) as [|o' [|]]; [lia| |done].
    destruct He as [He0 He]. by rewrite <- (reread _ _ _ _ _ _ _ Houts He0 He Ho). }
  intros [ext s4] (Hs4 & Hq4 & Hext). cbn [fst snd] in *.
  destruct ext as [[[b a] v]|]; [|by apply post_done]. specialize (Hext b a v eq_refl).
  destruct (Z.leb_spec 0 (change_index c)) as [Hx|Hx]; cycle 1.
  { apply post_done. split_and!; [done|done|]. cbn. intros info [= <-]. exists ins, outs. split; [done|].
    apply Hshown; [done|]. destruct (change outs) as [|o [|]]; [done| |done]. lia. }
  eapply post_bind; [by apply parse_output_spec|]. intros [o s5] (Hs5 & Hq5 & Ho). cbn [fst snd] in *.
  assert (Hq15 : same_files s1 s5) by (by eapply same_files_trans).
  destruct o as [o|]; [|by apply post_done]. apply post_done. split_and!; [done|done|]. cbn. intros info [= <-].
  exists ins, outs. split; [done|]. apply Hshown; [done|].
  destruct (change outs) as [|o' [|]]; [lia| |done]. destruct Hch as [Hch0 Hch].
  by rewrite <- (reread _ _ _ _ _ _ _ Houts Hch0 Hch (Ho o eq_refl)).
Qed.
(** ** Checks *)

(** A change output belongs to the wallet. *)
Definition change_ok (keyset : wallet_keyset_t) (o : raw_tx_output_t) : Prop :=
  has_derivation_path o = true →
  wallet_change_output_belongs_to_policy keyset (path_out o) (spk o) = Done true.

Lemma out_path_read o : output_ok o → mread (out_path o) 0 (out_path_len o) = Done (path_out o).
Proof.
  intros [_ _ _ Hp _ Hl]. unfold mread, path_out. rewrite Hp. zdecide. cbn [andb]. by rewrite zdrop_0.
Qed.

Lemma change_outputs_spec keyset outs : Forall output_ok outs →
  post (λ b, b = true → Forall (change_ok keyset) outs) (change_outputs_ok keyset outs).
Proof.
  induction 1 as [|o outs Ho _ IH]; cbn [change_outputs_ok]; [by apply post_done|].
  destruct (has_derivation_path o) eqn:Eh; cbn [negb].
  - rewrite out_path_read, spk_read by done. cbn [obind]. intros b (ok & Eok & Eb)%obind_inv Hb.
    destruct ok; cbn [negb] in Eb; [|by injection Eb as <-]. constructor; [by intros _|]. by apply (IH b).
  - intros b Eb Hb. constructor; [intros Ht; congruence|]. by apply (IH b).
Qed.

Lemma policy_records_spec D t keyset : stream_ok t → bytes_ok D →
  ∀ n i s, reading s D → 0 ≤ i →
  post (reads s D (λ b, b = true → ∃ outs, payload_outputs D (st_num_inputs t) i n = Some outs
    ∧ Forall (change_ok keyset) outs)) (output_records_policy n t keyset i s).
Proof.
  intros Ht HD. induction n as [|n IH]; intros i s Hs Hi; cbn [output_records_policy].
  { apply post_done, reads_ret; [done|]. by exists []. }
  eapply post_bind; [by apply parse_output_spec|]. intros [o s1] (Hr & Hq & Ho). cbn [fst snd] in *.
  destruct o as [o|]; [|by apply post_done]. specialize (Ho o eq_refl).
  assert (Hok : output_ok o) by (eapply (payload_output_ok D (st_num_inputs t)); [done|destruct Ht; lia|exact Hi|done]).
  assert (Hrest : change_ok keyset o → post (reads s D (λ b, b = true → ∃ outs,
      payload_outputs D (st_num_inputs t) i (S n) = Some outs ∧ Forall (change_ok keyset) outs))
      (output_records_policy n t keyset (i + 1) s1)).
  { intros Hc [b s'] Eb. eapply reads_from; [exact Hq|]. destruct (IH (i + 1) s1 Hr ltac:(lia) _ Eb) as (Hr2 & Hq2 & Hv).
    split_and!; [done|done|]. intros Hb. destruct (Hv Hb) as (xs & Hxs & Hall). exists (o :: xs).
    cbn [payload_outputs]. rewrite Ho, Hxs. split; [done|]. by constructor. }
  destruct (has_derivation_path o) eqn:Eh; cbn [negb].
  - destruct (negb _); [by apply post_done|]. rewrite out_path_read, spk_read by done. cbn [obind].
    intros r (ok & Eok & Er)%obind_inv. destruct ok; cbn [negb] in Er; [|by injection Er as <-].
    apply Hrest; [by intros _|done].
  - destruct (negb _); [by apply post_done|]. apply Hrest. intros ?. congruence.
Qed.

Lemma stream_changes_spec s t keyset : stream_ok t → (∀ D, fpay s = Some D → bytes_ok D) →
  post (λ '(b, s'), same_files s s' ∧ (b = true → ∃ D outs, fpay s = Some D
    ∧ payload_outputs D (st_num_inputs t) 0 (Z.to_nat (st_num_outputs t)) = Some outs
    ∧ Forall (change_ok keyset) outs)) (stream_validate_change_outputs s t keyset).
Proof.
  intros Ht HD. eapply post_mono; [apply (with_payload_spec _ _ _ (λ D b, b = true → ∃ outs,
    payload_outputs D (st_num_inputs t) 0 (Z.to_nat (st_num_outputs t)) = Some outs
    ∧ Forall (change_ok keyset) outs))|].
  - intros s1 D HpD Hs1. apply policy_records_spec; [done|by apply HD|done|done].
  - intros [b s'] [Hq Hb]. split; [done|]. intros ->. destruct Hb as [?|(D & HpD & Hp)]; [done|].
    destruct (Hp eq_refl) as (outs & ? & ?). eauto.
Qed.

Lemma account_records_spec D t expected : stream_ok t →
  ∀ n i s, reading s D → 0 ≤ i →
  post (reads s D (λ b, b = true → ∃ ins, payload_inputs D i n = Some ins
    ∧ Forall (λ x, input_account x = Done expected) ins)) (input_records_account n t expected i s).
Proof.
  intros Ht. induction n as [|n IH]; intros i s Hs Hi; cbn [input_records_account].
  { apply post_done, reads_ret; [done|]. by exists []. }
  eapply post_bind; [by apply parse_input_spec|]. intros [x s1] (Hr & Hq & Hx). cbn [fst snd] in *.
  destruct x as [x|]; [|by apply post_done]. intros r (acct & Ea & Er)%obind_inv.
  destruct (Z.eqb_spec acct expected) as [->|]; cbn [negb] in Er; [|by injection Er as <-].
  eapply reads_from; [exact Hq|]. destruct (IH (i + 1) s1 Hr ltac:(lia) _ Er) as (Hr2 & Hq2 & Hv).
  split_and!; [done|done|]. intros Hb. destruct (Hv Hb) as (xs & Hxs & Hall). exists (x :: xs).
  cbn [payload_inputs]. rewrite (Hx x eq_refl), Hxs. split; [done|]. by constructor.
Qed.

Lemma stream_accounts_spec s t expected : stream_ok t →
  post (λ '(b, s'), same_files s s' ∧ (b = true → ∃ D ins, fpay s = Some D
    ∧ payload_inputs D 0 (Z.to_nat (st_num_inputs t)) = Some ins
    ∧ Forall (λ x, input_account x = Done expected) ins)) (stream_validate_input_accounts s t expected).
Proof.
  intros Ht. eapply post_mono; [apply (with_payload_spec _ _ _ (λ D b, b = true → ∃ ins,
    payload_inputs D 0 (Z.to_nat (st_num_inputs t)) = Some ins
    ∧ Forall (λ x, input_account x = Done expected) ins))|].
  - intros s1 D HpD Hs1. by apply account_records_spec.
  - intros [b s'] [Hq Hb]. split; [done|]. intros ->. destruct Hb as [?|(D & HpD & Hp)]; [done|].
    destruct (Hp eq_refl) as (ins & ? & ?). eauto.
Qed.

(** A sweep pays to the fresh receive script of the wallet. *)
Definition pays_fresh (keyset : wallet_keyset_t) (outs : list raw_tx_output_t) : Prop :=
  ∃ o, outs = [o] ∧ derive_current_fresh_receive_spk keyset SPK_BUFFER_SIZE = Done (Some (spk o)).

Lemma output_fresh_spec o fresh : output_ok o →
  post (λ b, b = true → spk o = fresh) (output_is_fresh o fresh).
Proof.
  intros Ho. unfold output_is_fresh. destruct (Z.eqb_spec (destination_spk_len o) (zlen fresh)) as [El|]; cbn [negb];
    [|by apply post_done]. rewrite <- El, spk_read by done. cbn [obind]. apply post_done. apply bool_decide_eq_true_1.
Qed.

Lemma stream_sweep_spec s t keyset : stream_ok t → (∀ D, fpay s = Some D → bytes_ok D) →
  post (λ '(b, s'), same_files s s' ∧ (b = true → ∃ D outs, fpay s = Some D
    ∧ payload_outputs D (st_num_inputs t) 0 (Z.to_nat (st_num_outputs t)) = Some outs
    ∧ pays_fresh keyset outs)) (stream_validate_sweep_shape s t keyset).
Proof.
  intros Ht HD. unfold stream_validate_sweep_shape.
  destruct (Z.eqb_spec (st_num_outputs t) 1) as [E1|]; cbn [negb]; [|by apply post_done].
  intros r (fresh & Ef & Er)%obind_inv. revert r Er. destruct fresh as [fresh|]; [|by apply post_done].
  eapply post_bind; [apply (with_payload_spec _ _ _ (λ D r, ∀ o, r = Some o →
    payload_output D (st_num_inputs t) 0 = Some o))|].
  { intros s1 D HpD Hs1. by apply parse_output_spec. }
  intros [o s'] [Hq Ho]. cbn [fst snd] in *. destruct o as [o|]; [|by apply post_done].
  destruct Ho as [?|(D & HpD & Ho)]; [done|]. specialize (Ho o eq_refl).
  assert (Hok : output_ok o) by (eapply (payload_output_ok D (st_num_inputs t) 0);
    [by apply HD|destruct Ht; lia|done|done]).
  eapply post_bind; [by apply output_fresh_spec|]. intros b Hb. apply post_done. split; [done|]. intros ->.
  exists D, [o]. rewrite E1. change (Z.to_nat 1) with 1%nat. cbn [payload_outputs]. rewrite Ho.
  split_and!; [done|done|]. exists o. by rewrite (Hb eq_refl).
Qed.

(** ** Single reads *)

Lemma parse_input_closed s t i : stream_ok t → 0 ≤ i →
  post (λ '(r, s'), same_files s s' ∧ ∀ x, r = Some x → ∃ D, fpay s = Some D
    ∧ payload_input D i = Some x ∧ i < st_num_inputs t) (parse_input_from_flash s t i).
Proof.
  intros Ht Hi. pose proof Ht as [Hni _ _ _]. unfold parse_input_from_flash, flash_read_at.
  destruct (Z.leb_spec (st_num_inputs t) i); [by apply post_done|].
  destruct (fs_open_global s _ _) as [r s1] eqn:Eo. destruct (open_payload _ _ _ Eo) as [Hq1 Ho].
  destruct (Z.eqb_spec r 0) as [Hr|Hr]; cbn [negb]; [|by apply post_done].
  destruct (Ho Hr) as (D & HD & Hrd). rewrite input_offset_eq by lia. unfold STREAM_TX_MAX_INPUTS in *.
  destruct (flash_read_spec s1 D (16 + 69 * i) STREAM_INPUT_RECORD_SIZE Hrd ltac:(lia) ltac:(done)) as (Hr2 & Hq2 & Hrec).
  destruct (flash_read_at_f _ _ _) as [rec s2]; cbn [fst snd] in *.
  pose proof (close_payload _ _ Hr2) as Hq3. destruct (fs_close_global s2) as [r3 s3]. cbn [snd] in *.
  assert (Hq : same_files s s3) by (by do 2 (eapply same_files_trans; [eassumption|])).
  destruct rec as [rec|]; [|by apply post_done]. intros a (y & Ey & [= <-])%obind_inv. split; [done|].
  intros x ->. exists D. split_and!; [done| |done]. unfold payload_input.
  rewrite (Hrec rec eq_refl : record_at D (16 + 69 * i) 69 = Some rec). cbn [mbind option_bind]. by rewrite Ey.
Qed.

Lemma ztake_len {A} n (l : list A) : ztake (zlen (ztake n l)) l = ztake n l.
Proof.
  unfold ztake. rewrite zlen_nat, length_take. destruct (Nat.le_ge_cases (Z.to_nat n) (length l)).
  - by rewrite Nat.min_l.
  - by rewrite Nat.min_r, !take_ge.
Qed.

(** The payload hash reads the whole file. *)
Lemma hash_file_spec D fuel : ∀ ctx s pos, fpay s = Some D → fs_open_at s STREAM_PAYLOAD_PATH pos D → 0 ≤ pos →
  let '(c, s') := hash_file fuel ctx s in
  reading s' D ∧ same_files s s' ∧ ∀ c', c = Some c' → stream_bytes c' = stream_bytes ctx ++ zdrop pos D.
Proof.
  induction fuel as [|fuel IH]; intros ctx s pos HD Ho Hpos; cbn [hash_file].
  { split_and!; [split; eauto|done|done]. }
  destruct (fs_file_read s g_file 256) as [[r bs] s1] eqn:Er.
  destruct (file_read_spec _ 256 _ _ _ _ _ _ Ho (proj1 (Z.leb_le 0 256) eq_refl) Hpos Er) as (Hq & Ho1 & Hr).
  assert (HD1 : fpay s1 = Some D) by (unfold fpay; by rewrite Hq).
  destruct (Z.ltb_spec r 0); [split_and!; [split; eauto|done|done]|]. destruct (Hr ltac:(done)) as [Hbs Hlen].
  destruct (Z.eqb_spec r 0) as [->|Hr0].
  { split_and!; [split; eauto|done|]. intros c' [= <-]. symmetry in Hlen. apply zlen_zero in Hlen. subst bs.
    destruct (zdrop pos D); [by rewrite app_nil_r|done]. }
  destruct (crypto_sha256_stream_update ctx bs) as [ctx1|] eqn:Eu; [|split_and!; [split; eauto|done|done]].
  pose proof (zlen_nonneg bs). specialize (IH ctx1 s1 (pos + zlen bs) HD1 Ho1 ltac:(lia)).
  destruct (hash_file fuel ctx1 s1) as [c s']. destruct IH as (Hrd & Hq' & Hc).
  split_and!; [done|by eapply same_files_trans|]. intros c' Ec. rewrite (Hc c' Ec), (law_stream_update _ _ _ Eu).
  rewrite <- app_assoc. f_equal. rewrite <- (ztake_zdrop (zlen bs) (zdrop pos D)). f_equal.
  - rewrite Hbs. symmetry. apply ztake_len.
  - by rewrite zdrop_zdrop.
Qed.

Lemma recompute_spec s :
  let '(r, s') := recompute_payload_hash_from_flash (C := C) s in
  same_files s s' ∧ ∀ h, r = Some h → ∃ D, fpay s = Some D ∧ h = sha256 (C := C) D.
Proof.
  unfold recompute_payload_hash_from_flash. destruct (fs_open_global s _ _) as [r s1] eqn:Eo.
  destruct (open_payload _ _ _ Eo) as [Hq1 Ho]. destruct (Z.eqb_spec r 0) as [Hr|Hr]; cbn [negb]; [|done].
  destruct (Ho Hr) as (D & HD & Hrd). destruct crypto_sha256_stream_init as [c0|] eqn:E0; cycle 1.
  { pose proof (close_payload _ _ Hrd) as Hq. destruct (fs_close_global s1). split; [|done].
    by eapply same_files_trans. }
  pose proof (open_global_spec _ _ _ _ _ Eo) as (_ & _ & Hop). destruct (Hop Hr) as (_ & D' & _ & HD' & Hat).
  assert (D' = D) as ->. { destruct Hrd as [Hrd _]. unfold fpay in Hrd. congruence. }
  pose proof (hash_file_spec D (S (Z.to_nat (fs_file_size s1 g_file))) c0 s1 0 (proj1 Hrd) Hat ltac:(done)) as Hf.
  destruct (hash_file _ c0 s1) as [c s2]. destruct Hf as (Hrd2 & Hq2 & Hc).
  pose proof (close_payload _ _ Hrd2) as Hq3. destruct (fs_close_global s2) as [r3 s3]. cbn [snd] in Hq3.
  split; [by do 2 (eapply same_files_trans; [eassumption|])|]. intros h Hh. exists D. split; [done|].
  destruct c as [c|]; [|done]. rewrite (law_stream_final _ _ Hh), (Hc c eq_refl), (law_stream_init _ E0). done.
Qed.
End SignPayload.
