(* ===== verification/SignFlow.v ===== *)
(** * Streamed signing: the session, its confirmation and its signatures

    The handlers of key_manager_task_port.c (w3-core) that start a streamed
    session, receive and finalize it, sign it after approval and return the
    signatures, and the handler that the phone polls for the result of a
    transaction confirmation. *)

From S2P Require Import Prelude Sha256 Wstring Fs Wkek Confirmation Bip32 WalletKeys WalletAddr FwDelta Psbt SignKey SignSession SignTx SignStream.

(** ** Updates of a streaming session *)

Section Updates.
Context {C : Type}.
Implicit Types t : stream_signing_session_t C.

Definition set_state t (x : stream_signing_state_t) : stream_signing_session_t C :=
  mk_stream x (st_num_inputs t) (st_num_outputs t) (st_version t) (st_lock_time t)
    (st_expected_payload_size t) (st_bytes_received t) (st_next_sequence_id t) (st_commitment_ctx t)
    (st_hash_prevouts t) (st_hash_sequence t) (st_hash_outputs t) (st_sigs_computed t)
    (st_precompute_done t) (st_precompute_failed t) (st_btc_display_unit t) (st_payload_hash t) (st_sweep t).

Definition set_received t (bytes seq : Z) (ctx : C) : stream_signing_session_t C :=
  mk_stream (st_state t) (st_num_inputs t) (st_num_outputs t) (st_version t) (st_lock_time t)
    (st_expected_payload_size t) bytes seq ctx (st_hash_prevouts t) (st_hash_sequence t)
    (st_hash_outputs t) (st_sigs_computed t) (st_precompute_done t) (st_precompute_failed t)
    (st_btc_display_unit t) (st_payload_hash t) (st_sweep t).

Definition set_payload_hash t (h : list Z) : stream_signing_session_t C :=
  mk_stream (st_state t) (st_num_inputs t) (st_num_outputs t) (st_version t) (st_lock_time t)
    (st_expected_payload_size t) (st_bytes_received t) (st_next_sequence_id t) (st_commitment_ctx t)
    (st_hash_prevouts t) (st_hash_sequence t) (st_hash_outputs t) (st_sigs_computed t)
    (st_precompute_done t) (st_precompute_failed t) (st_btc_display_unit t) h (st_sweep t).

Definition set_hashes t (hp hs ho : list Z) : stream_signing_session_t C :=
  mk_stream (st_state t) (st_num_inputs t) (st_num_outputs t) (st_version t) (st_lock_time t)
    (st_expected_payload_size t) (st_bytes_received t) (st_next_sequence_id t) (st_commitment_ctx t)
    hp hs ho (st_sigs_computed t) (st_precompute_done t) (st_precompute_failed t)
    (st_btc_display_unit t) (st_payload_hash t) (st_sweep t).

Definition set_precompute t (n : Z) (done failed : bool) : stream_signing_session_t C :=
  mk_stream (st_state t) (st_num_inputs t) (st_num_outputs t) (st_version t) (st_lock_time t)
    (st_expected_payload_size t) (st_bytes_received t) (st_next_sequence_id t) (st_commitment_ctx t)
    (st_hash_prevouts t) (st_hash_sequence t) (st_hash_outputs t) n done failed
    (st_btc_display_unit t) (st_payload_hash t) (st_sweep t).

Definition set_stream_sweep t (sw : sweep_context_t) : stream_signing_session_t C :=
  mk_stream (st_state t) (st_num_inputs t) (st_num_outputs t) (st_version t) (st_lock_time t)
    (st_expected_payload_size t) (st_bytes_received t) (st_next_sequence_id t) (st_commitment_ctx t)
    (st_hash_prevouts t) (st_hash_sequence t) (st_hash_outputs t) (st_sigs_computed t)
    (st_precompute_done t) (st_precompute_failed t) (st_btc_display_unit t) (st_payload_hash t) sw.

(** The fields that a start command sets. *)
Definition start_stream t (rq : sign_stream_start_cmd) : stream_signing_session_t C :=
  mk_stream STREAM_STATE_RECEIVING (sr_num_inputs rq) (sr_num_outputs rq) (sr_version rq)
    (sr_lock_time rq) (sr_payload_size rq) 0 0 (st_commitment_ctx t) (st_hash_prevouts t)
    (st_hash_sequence t) (st_hash_outputs t) (st_sigs_computed t) (st_precompute_done t)
    (st_precompute_failed t) (sr_btc_display_unit rq) (st_payload_hash t) (st_sweep t).
End Updates.

(** A record of the file of signatures: 33 + 1 + 73 bytes, zero padded. *)
Definition sig_record (s : key_manager_psbt_signature_t) : outcome (list Z) :=
  let! buf := mwrite (replicate 107 0) 0 (sig_pubkey s) in
  let! buf := aset buf 33 (u8 (zlen (sig_signature s))) in
  mwrite buf 34 (sig_signature s).

(** The key and the signature of a record, if its length byte is valid. *)
Definition record_signature (rec : list Z) : outcome (option (list Z * list Z)) :=
  let! sig_len := aget rec 33 in
  if (sig_len =? 0) || (PSBT_SIGNATURE_MAX_LEN <? sig_len) then Done None
  else
    let! pub := mread rec 0 33 in
    let! sig := mread rec 34 sig_len in
    Done (Some (pub, sig)).

Section SignFlow.
Context {L E C M : Type} `{Littlefs L} `{SecureElement E} `{Secp} `{Ecdsa} `{Ew} `{Sha256 C}
  `{SessionUnion C M}.

Definition stream_of (k : km L E M) : stream_signing_session_t C := get_stream (km_mem k).
Definition put_stream_of (k : km L E M) (t : stream_signing_session_t C) : km L E M :=
  set_mem k (put_stream (km_mem k) t).

(** [fs_open_global], [fs_file_write] and [fs_close_global] of one record. *)
Definition append_to_file (k : km L E M) (path : string) (data : list Z) : option bool * km L E M :=
  let '(r, s) := fs_open_global (km_fs k) path (Z.lor FS_O_WRONLY FS_O_APPEND) in
  if negb (r =? 0) then (None, set_fs k s)
  else
    let '(written, s) := fs_file_write s g_file data in
    let '(_, s) := fs_close_global s in
    (Some (written =? zlen data), set_fs k s).

Definition create_file (k : km L E M) (path : string) : bool * km L E M :=
  let '(r, s) := fs_open_global (km_fs k) path (Z.lor FS_O_WRONLY (Z.lor FS_O_CREAT FS_O_TRUNC)) in
  if negb (r =? 0) then (false, set_fs k s)
  else let '(_, s) := fs_close_global s in (true, set_fs k s).

(** ** Signing an input of the payload *)

Inductive input_result :=
| input_parse_failed
| input_wrong_account
| input_path_too_long
| input_derive_failed
| input_data_failed
| input_sign_failed (r : key_manager_psbt_sign_result_t)
| input_signed (sd : signed_digest).

(** The signing steps that the three routines share: check the account of the
    input, derive the keys, hash and sign. *)
Definition sign_parsed_input (k : km L E M) (keyset : wallet_keyset_t) (idx : Z) (i : raw_tx_input_t)
    : outcome (input_result * km L E M) :=
  let t := stream_of k in
  let! acct := input_account i in
  if negb (acct =? expected_account (st_sweep t) keyset) then Done (input_wrong_account, k)
  else
    let! ks := session_pubkeys (st_sweep t) keyset i in
    match ks with
    | keys_path_too_long => Done (input_path_too_long, k)
    | keys_derive_failed => Done (input_derive_failed, k)
    | keys_derived pks =>
        let! '(e, d) := raw_tx_p2wsh_input_signing_data_precomputed (C := C) (st_hash_prevouts t)
                          (st_hash_sequence t) (st_hash_outputs t) (st_lock_time t) (st_version t) i pks in
        match d with
        | None => Done (input_data_failed, k)
        | Some d =>
            if negb (bool_decide (e = PSBT_OK)) then Done (input_data_failed, k)
            else
              let! '(r, sd, g) := sign_one (km_signer k) idx d in
              let k := set_signer k g in
              match sd with
              | None => Done (input_sign_failed r, k)
              | Some sd => Done (input_signed sd, k)
              end
        end
    end.

(** Reads the input and signs it. *)
Definition sign_stream_input (k : km L E M) (keyset : wallet_keyset_t) (idx : Z)
    : outcome (input_result * km L E M) :=
  let! '(i, s) := parse_input_from_flash (km_fs k) (stream_of k) idx in
  let k := set_fs k s in
  match i with
  | None => Done (input_parse_failed, k)
  | Some i => sign_parsed_input k keyset idx i
  end.

Definition precompute_failed (k : km L E M) : km L E M :=
  let t := stream_of k in put_stream_of k (set_precompute t (st_sigs_computed t) (st_precompute_done t) true).

(** The end of the label [fail]: the cache is removed. *)
Definition precompute_abandon (k : km L E M) : km L E M :=
  let k := precompute_failed k in
  let '(_, s) := fs_remove (km_fs k) STREAM_SIGS_PATH in
  let k := set_fs k s in
  let t := stream_of k in put_stream_of k (set_precompute t 0 (st_precompute_done t) (st_precompute_failed t)).

(** The loop from input [i] on, with [n] inputs left. *)
Fixpoint precompute_loop (n : nat) (k : km L E M) (keyset : wallet_keyset_t) (i : Z) (sds : list signed_digest)
    : outcome (list signed_digest * km L E M) :=
  match n with
  | O =>
      let t := stream_of k in
      Done (sds, put_stream_of k (set_precompute t (st_sigs_computed t) true (st_precompute_failed t)))
  | S n =>
      let! '(r, k) := sign_stream_input k keyset i in
      match r with
      | input_signed sd =>
          let! rec := sig_record (sd_signature sd) in
          let '(ok, k) := append_to_file k STREAM_SIGS_PATH rec in
          match ok with
          | Some true =>
              let t := stream_of k in
              let k := put_stream_of k (set_precompute t (i + 1) (st_precompute_done t) (st_precompute_failed t)) in
              precompute_loop n k keyset (i + 1) (sds ++ [sd])
          | _ => Done (sds ++ [sd], precompute_abandon k)
          end
      | _ => Done (sds, precompute_abandon k)
      end
  end.

Definition stream_precompute_signatures (k : km L E M) : outcome (list signed_digest * km L E M) :=
  let '(created, k) := create_file k STREAM_SIGS_PATH in
  if negb created then Done ([], precompute_failed k)
  else
    let! '(ks, k) := load_keyset k in
    match ks with
    | None => Done ([], precompute_failed k)
    | Some keyset =>
        if negb (ks_version keyset =? WALLET_KEYSET_VERSION) then Done ([], precompute_failed k)
        else precompute_loop (Z.to_nat (st_num_inputs (stream_of k))) k keyset 0 []
    end.

(** The commitment of the session and the payload in the file is the one that
    was confirmed; [None] when it cannot be computed. *)
Definition stream_commitment_matches (k : km L E M) (d : list Z) : outcome (option bool * km L E M) :=
  let '(ph, s) := recompute_payload_hash_from_flash (C := C) (km_fs k) in
  let k := set_fs k s in
  match ph with
  | None => Done (None, k)
  | Some ph =>
      match compute_stream_session_commitment_hash (stream_of k) ph with
      | None => Done (None, k)
      | Some h =>
          let! diff := memcmp_s h (session_hash_of d) 32 in
          Done (Some (diff =? 0), k)
      end
  end.

Definition abandon_stream (k : km L E M) : outcome (km L E M) :=
  let! k := clear_confirmation k in Done (stream_session_reset k).

Definition key_manager_task_try_deferred_stream_sign (k : km L E M)
    : outcome (list signed_digest * km L E M) :=
  if negb (bool_decide (st_state (stream_of k) = STREAM_STATE_FINALIZED)) then Done ([], k)
  else
    let! type := confirmation_manager_get_type (km_cm k) in
    if negb (type =? CONFIRMATION_TYPE_SIGN_TRANSACTION) then Done ([], k)
    else
      let! approved := confirmation_manager_is_approved (km_cm k) in
      if negb approved then Done ([], k)
      else
        let! d := confirmed_data k in
        match d with
        | None => let! k := abandon_stream k in Done ([], k)
        | Some d =>
            let! '(same, k) := stream_commitment_matches k d in
            match same with
            | Some true =>
                let k := put_stream_of k (set_state (stream_of k) STREAM_STATE_CONFIRMED) in
                stream_precompute_signatures k
            | _ => let! k := abandon_stream k in Done ([], k)
            end
        end.

(** ** Confirming a streamed transaction *)

Definition stream_tx_request_confirmation (k : km L E M) (e : env)
    : outcome (fwpb_status * option (list Z * list Z) * option send_transaction_data_t * km L E M) :=
  let! '(ks, k) := load_keyset k in
  match ks with
  | None => Done (fwpb_status_DESCRIPTOR_NOT_LOADED, None, None, k)
  | Some keyset =>
      let t := stream_of k in
      let! '(ok, s) := stream_validate_input_accounts (km_fs k) t (expected_account (st_sweep t) keyset) in
      let k := set_fs k s in
      if negb ok then Done (fwpb_status_INVALID_ARGUMENT, None, None, k)
      else
        let! '(ok, s) := stream_validate_change_outputs (km_fs k) t keyset in
        let k := set_fs k s in
        if negb ok then Done (fwpb_status_ERROR, None, None, k)
        else
          let! '(ok, s) := if sw_active (st_sweep t) then stream_validate_sweep_shape (km_fs k) t keyset
                           else Done (true, km_fs k) in
          let k := set_fs k s in
          if negb ok then Done (fwpb_status_INVALID_ARGUMENT, None, None, k)
          else
            let! '(info, s) := stream_get_tx_info (km_fs k) t (keyset_network keyset) in
            let k := set_fs k s in
            match info with
            | None => Done (fwpb_status_ERROR, None, None, k)
            | Some info =>
                match compute_stream_session_commitment_hash t (st_payload_hash t) with
                | None => Done (fwpb_status_ERROR, None, None, k)
                | Some h => show_confirmation k e info h (sw_active (st_sweep t)) (st_btc_display_unit t)
                end
            end
  end.

(** ** The handlers of a stream *)

Definition start_counts_ok (rq : sign_stream_start_cmd) : bool :=
  negb ((sr_num_inputs rq =? 0) || (sr_num_outputs rq =? 0))
  && negb ((STREAM_TX_MAX_INPUTS <? sr_num_inputs rq) || (STREAM_TX_MAX_OUTPUTS <? sr_num_outputs rq))
  && negb ((sr_version rq =? 0) || (2 <? sr_version rq))
  && (sr_payload_size rq =? u32 (STREAM_HEADER_SIZE + sr_num_inputs rq * STREAM_INPUT_RECORD_SIZE
                                 + sr_num_outputs rq * STREAM_OUTPUT_RECORD_SIZE)).

(** [fwup_cleanup_stale_patch] on the file system of this task. *)
Definition cleanup_stale_patch (k : km L E M) : km L E M :=
  if fs_file_exists (km_fs k) PATCH_PATH then set_fs k (fs_remove (km_fs k) PATCH_PATH).2 else k.

(** The end of both start handlers: the cleared session receives; success. *)
Definition begin_stream (k : km L E M) (rq : sign_stream_start_cmd) : bool * km L E M :=
  let t := start_stream (stream_of k) rq in
  match crypto_sha256_stream_init with
  | None => (false, stream_session_reset (put_stream_of k t))
  | Some ctx => (true, put_stream_of k (set_received t 0 0 ctx))
  end.

Definition key_manager_task_handle_sign_stream_start (k : km L E M) (rq : sign_stream_start_cmd)
    : outcome (bool * km L E M) :=
  let! k := teardown k in
  let k := cleanup_stale_patch k in
  if negb (start_counts_ok rq) then Done (false, k)
  else
    let '(created, k) := create_file k STREAM_PAYLOAD_PATH in
    if negb created then Done (false, k) else Done (begin_stream k rq).

Definition key_manager_task_handle_sweep_sign_stream_start (pubkey_verify : list Z → bool)
    (k : km L E M) (sk : sweep_keys) (rq : sign_stream_start_cmd)
    : outcome (bool * km L E M) :=
  let! k := teardown k in
  let k := cleanup_stale_patch k in
  if negb (start_counts_ok rq) then Done (false, k)
  else
    let! '(ks, k) := load_keyset k in
    match ks with
    | None => Done (false, k)
    | Some keyset =>
        if negb (ks_version keyset =? WALLET_KEYSET_VERSION) then Done (false, k)
        else
          let! '(_, sw, k) := validate_and_init_sweep_ctx pubkey_verify k keyset sk in
          match sw with
          | None => Done (false, stream_session_reset k)
          | Some sw =>
              let k := put_stream_of k (set_stream_sweep (stream_of k) sw) in
              let '(created, k) := create_file k STREAM_PAYLOAD_PATH in
              if negb created then Done (false, stream_session_reset k) else Done (begin_stream k rq)
          end
    end.

Definition key_manager_task_handle_sign_stream_transfer (k : km L E M) (sequence_id : Z) (chunk : list Z)
    : fwpb_status * km L E M :=
  let t := stream_of k in
  if negb (bool_decide (st_state t = STREAM_STATE_RECEIVING)) then (fwpb_status_INVALID_STATE, k)
  else if negb (sequence_id =? st_next_sequence_id t)
  then (fwpb_status_INVALID_STATE, stream_session_reset k)
  else if zlen chunk =? 0 then (fwpb_status_INVALID_ARGUMENT, stream_session_reset k)
  else if st_expected_payload_size t <? u32 (st_bytes_received t + zlen chunk)
  then (fwpb_status_INVALID_ARGUMENT, stream_session_reset k)
  else
    let '(ok, k) := append_to_file k STREAM_PAYLOAD_PATH chunk in
    match ok with
    | Some true =>
        match crypto_sha256_stream_update (st_commitment_ctx t) chunk with
        | None => (fwpb_status_ERROR, stream_session_reset k)
        | Some ctx =>
            (fwpb_status_SUCCESS,
             put_stream_of k (set_received t (u32 (st_bytes_received t + zlen chunk))
                                (u32 (st_next_sequence_id t + 1)) ctx))
        end
    | _ => (fwpb_status_STORAGE_ERR, stream_session_reset k)
    end.

Definition key_manager_task_handle_sign_stream_finalize (k : km L E M) (e : env) (commitment_hash : list Z)
    : outcome (km_rsp * option send_transaction_data_t * km L E M) :=
  let t := stream_of k in
  let failed st k := Done (status_only st, None, stream_session_reset k) in
  if negb (bool_decide (st_state t = STREAM_STATE_RECEIVING))
  then Done (status_only fwpb_status_INVALID_STATE, None, k)
  else if negb (st_bytes_received t =? st_expected_payload_size t) then failed fwpb_status_INVALID_ARGUMENT k
  else
    match crypto_sha256_stream_final (st_commitment_ctx t) with
    | None => failed fwpb_status_ERROR k
    | Some computed_hash =>
        if negb (zlen commitment_hash =? SHA256_DIGEST_SIZE)
           || negb (bool_decide (computed_hash = commitment_hash))
        then failed fwpb_status_VERIFICATION_FAILED k
        else
          let k := put_stream_of k (set_payload_hash t computed_hash) in
          let! '(hs, s) := stream_compute_bip143_hashes (km_fs k) (stream_of k) in
          let k := set_fs k s in
          match hs with
          | None => failed fwpb_status_ERROR k
          | Some (hp, hq, ho) =>
              let k := put_stream_of k (set_state (set_hashes (stream_of k) hp hq ho) STREAM_STATE_FINALIZED) in
              let! '(st, handles, d, k) := stream_tx_request_confirmation k e in
              if bool_decide (st = fwpb_status_SUCCESS)
              then Done (mk_rsp fwpb_status_CONFIRMATION_PENDING handles no_result, d, k)
              else failed st k
          end
    end.

(** ** Fetching signatures *)

(** A signature of the cache, when the record can be read and is valid. *)
Definition cached_signature (k : km L E M) (idx : Z) : outcome (option (list Z * list Z) * km L E M) :=
  let '(r, s) := fs_open_global (km_fs k) STREAM_SIGS_PATH FS_O_RDONLY in
  if negb (r =? 0) then Done (None, set_fs k s)
  else
    let '(rec, s) := flash_read_at_f s (u32 (idx * SIG_RECORD_SIZE)) SIG_RECORD_SIZE in
    let '(_, s) := fs_close_global s in
    match rec with
    | None => Done (None, set_fs k s)
    | Some rec => let! sig := record_signature rec in Done (sig, set_fs k s)
    end.

Definition of_signed (sd : signed_digest) : list Z * list Z :=
  (sig_pubkey (sd_signature sd), sig_signature (sd_signature sd)).

(** The signature computed on demand, and what was signed for it. *)
Definition signature_on_demand (k : km L E M) (idx : Z)
    : outcome (fwpb_status * option (list Z * list Z) * list signed_digest * km L E M) :=
  let! '(i, s) := parse_input_from_flash (km_fs k) (stream_of k) idx in
  let k := set_fs k s in
  match i with
  | None => Done (fwpb_status_ERROR, None, [], k)
  | Some i =>
      let! '(ks, k) := load_keyset k in
      match ks with
      | None => Done (fwpb_status_STORAGE_ERR, None, [], k)
      | Some keyset =>
          if negb (ks_version keyset =? WALLET_KEYSET_VERSION) then Done (fwpb_status_ERROR, None, [], k)
          else
            let! '(r, k) := sign_parsed_input k keyset idx i in
            match r with
            | input_signed sd => Done (fwpb_status_SUCCESS, Some (of_signed sd), [sd], k)
            | input_sign_failed r => Done (map_psbt_sign_result r, None, [], k)
            | _ => Done (fwpb_status_ERROR, None, [], k)
            end
      end
  end.

Definition key_manager_task_handle_get_tx_signature (k : km L E M) (idx : Z)
    : outcome (fwpb_status * option (list Z * list Z) * list signed_digest * km L E M) :=
  let t := stream_of k in
  if negb (bool_decide (st_state t = STREAM_STATE_CONFIRMED)) then Done (fwpb_status_INVALID_STATE, None, [], k)
  else if st_num_inputs t <=? idx then Done (fwpb_status_INVALID_ARGUMENT, None, [], k)
  else
    let! '(hit, k) := if st_precompute_done t && (idx <? st_sigs_computed t) then cached_signature k idx
                      else Done (None, k) in
    let! '(st, sig, sds, k) :=
      match hit with
      | Some sig => Done (fwpb_status_SUCCESS, Some sig, [], k)
      | None => signature_on_demand k idx
      end in
    if bool_decide (st = fwpb_status_SUCCESS) && (idx =? st_num_inputs t - 1)
    then Done (st, sig, sds, stream_session_reset k)
    else Done (st, sig, sds, k).

Definition sign_single_input (k : km L E M) (idx : Z) (keyset : wallet_keyset_t)
    : outcome (fwpb_status * option signed_digest * km L E M) :=
  let! '(r, k) := sign_stream_input k keyset idx in
  match r with
  | input_signed sd => Done (fwpb_status_SUCCESS, Some sd, k)
  | input_wrong_account | input_path_too_long => Done (fwpb_status_INVALID_ARGUMENT, None, k)
  | input_derive_failed => Done (fwpb_status_KEY_DERIVATION_FAILED, None, k)
  | input_sign_failed r => Done (map_psbt_sign_result r, None, k)
  | input_parse_failed | input_data_failed => Done (fwpb_status_ERROR, None, k)
  end.

(** [n] records read one after another from the open file. *)
Fixpoint read_records (n : nat) (s : fs_ctx L) (acc : list (list Z * list Z))
    : outcome (option (list (list Z * list Z)) * fs_ctx L) :=
  match n with
  | O => Done (Some acc, s)
  | S n =>
      let '(r, rec, s) := fs_file_read s g_file SIG_RECORD_SIZE in
      if negb (r =? SIG_RECORD_SIZE) then Done (None, s)
      else
        let! sig := record_signature rec in
        match sig with
        | None => Done (None, s)
        | Some sig => read_records n s (acc ++ [sig])
        end
  end.

Definition cached_batch (k : km L E M) (start count : Z)
    : outcome (option (list (list Z * list Z)) * km L E M) :=
  let '(r, s) := fs_open_global (km_fs k) STREAM_SIGS_PATH FS_O_RDONLY in
  if negb (r =? 0) then Done (None, set_fs k s)
  else
    let '(r, s) := fs_file_seek s g_file (i32 (start * SIG_RECORD_SIZE)) FS_SEEK_SET in
    if r <? 0 then let '(_, s) := fs_close_global s in Done (None, set_fs k s)
    else
      let! '(sigs, s) := read_records (Z.to_nat count) s [] in
      let '(_, s) := fs_close_global s in
      Done (sigs, set_fs k s).

(** The loop of the slow path: stops at the first failure. *)
Fixpoint sign_batch (n : nat) (k : km L E M) (keyset : wallet_keyset_t) (i : Z) (sds : list signed_digest)
    : outcome (fwpb_status * list signed_digest * km L E M) :=
  match n with
  | O => Done (fwpb_status_SUCCESS, sds, k)
  | S n =>
      let! '(st, sd, k) := sign_single_input k i keyset in
      match sd with
      | None => Done (st, sds, k)
      | Some sd => sign_batch n k keyset (i + 1) (sds ++ [sd])
      end
  end.

Definition batch_on_demand (k : km L E M) (start count : Z)
    : outcome (fwpb_status * list signed_digest * km L E M) :=
  let! '(ks, k) := load_keyset k in
  match ks with
  | None => Done (fwpb_status_STORAGE_ERR, [], k)
  | Some keyset =>
      if negb (ks_version keyset =? WALLET_KEYSET_VERSION) then Done (fwpb_status_ERROR, [], k)
      else sign_batch (Z.to_nat count) k keyset start []
  end.

Definition key_manager_task_handle_get_tx_signatures_batch (k : km L E M) (start count : Z)
    : outcome (fwpb_status * list (list Z * list Z) * list signed_digest * km L E M) :=
  let t := stream_of k in
  if negb (bool_decide (st_state t = STREAM_STATE_CONFIRMED)) then Done (fwpb_status_INVALID_STATE, [], [], k)
  else if (count =? 0) || (BATCH_MAX_SIGNATURES <? count) then Done (fwpb_status_INVALID_ARGUMENT, [], [], k)
  else if st_num_inputs t <=? start then Done (fwpb_status_INVALID_ARGUMENT, [], [], k)
  else
    let count := if st_num_inputs t <? u32 (start + count) then st_num_inputs t - start else count in
    let finish k := if st_num_inputs t <=? u32 (start + count) then stream_session_reset k else k in
    let! '(hit, k) := if st_precompute_done t && (u32 (start + count) <=? st_sigs_computed t)
                      then cached_batch k start count else Done (None, k) in
    match hit with
    | Some sigs => Done (fwpb_status_SUCCESS, sigs, [], finish k)
    | None =>
        let! '(st, sds, k) := batch_on_demand k start count in
        if bool_decide (st = fwpb_status_SUCCESS) then Done (st, map of_signed sds, sds, finish k)
        else Done (st, map of_signed sds, sds, k)
    end.

(** ** The result of a transaction confirmation *)

Definition refuse (k : km L E M) (st : fwpb_status) : outcome (km_rsp * km L E M) :=
  let! k := clear_confirmation k in Done (status_only st, signing_session_reset k).

(** The result of a one-shot session. *)
Definition one_shot_result (k : km L E M) : outcome (km_rsp * km L E M) :=
  let! d := confirmed_data k in
  match d with
  | None => refuse k fwpb_status_ERROR
  | Some d =>
      let s := get_signing (km_mem k) in
      let! h := compute_session_commitment_hash (C := C) s in
      match h with
      | None => refuse k fwpb_status_ERROR
      | Some h =>
          let! diff := memcmp_s h (session_hash_of d) 32 in
          if negb (diff =? 0) then refuse k fwpb_status_VERIFICATION_FAILED
          else if (zlen (ss_signatures s) =? zlen (ss_inputs s)) && (0 <? zlen (ss_signatures s)) then
            let! k := clear_confirmation k in
            Done (mk_rsp fwpb_status_SUCCESS None (sign_tx_result (ss_signatures s)), signing_session_reset k)
          else if negb (bool_decide (ss_sign_result s = fwpb_status_SUCCESS))
                  && negb (bool_decide (ss_sign_result s = fwpb_status_UNSPECIFIED))
          then refuse k (ss_sign_result s)
          else Done (status_only fwpb_status_CONFIRMATION_PENDING, k)
      end
  end.

(** The result of a streamed session that has been signed. *)
Definition stream_result (k : km L E M) : outcome (km_rsp * km L E M) :=
  let failed st k := let! k := abandon_stream k in Done (status_only st, k) in
  let! d := confirmed_data k in
  match d with
  | None => failed fwpb_status_ERROR k
  | Some d =>
      let! '(same, k) := stream_commitment_matches k d in
      match same with
      | None => failed fwpb_status_ERROR k
      | Some false => failed fwpb_status_VERIFICATION_FAILED k
      | Some true =>
          Done (mk_rsp fwpb_status_SUCCESS None (sign_stream_signatures_ready (st_num_inputs (stream_of k))), k)
      end
  end.

Definition sign_transaction_confirmation_result_handler (k : km L E M) (rh ch : list Z) (now : Z)
    : outcome (km_rsp * km L E M) :=
  let! '(v, c) := confirmation_manager_validate (km_cm k) (Some rh) (zlen rh) (Some ch) (zlen ch) now in
  let k := set_cm k c in
  match v with
  | CONFIRMATION_RESULT_NOT_APPROVED => Done (status_only fwpb_status_CONFIRMATION_PENDING, k)
  | CONFIRMATION_RESULT_SUCCESS =>
      match st_state (stream_of k) with
      | STREAM_STATE_CONFIRMED => stream_result k
      | STREAM_STATE_FINALIZED => Done (status_only fwpb_status_CONFIRMATION_PENDING, k)
      | _ => one_shot_result k
      end
  | _ => Done (status_only fwpb_status_CONFIRMATION_NOT_COMPLETED, k)
  end.
End SignFlow.
