(* ===== verification/Sap.v ===== *)
(** * Action proofs (lib/sap and key_manager_task_port.c of w3-core)

    A privileged action of the app is signed with the authentication key of the
    device after the user has confirmed it on the screen. The signed payload is
    [ACTIONPROOF, 1, action, value, bindings], joined by a separator byte. *)

From S2P Require Import Prelude Sha256 Wstring Fs Wkek Confirmation Bip32 WalletKeys WalletAddr Psbt SignKey SignSession SignTx.

Definition SAP_PAYLOAD_MAX_SIZE : Z := 600.
Definition SAP_UNIT_SEPARATOR : Z := 0x1F.

(** The characters of a string. *)
Definition chars (s : string) : list Z := map (λ c, Z.of_nat (Ascii.nat_of_ascii c)) (String.list_ascii_of_string s).

Definition SAP_CANONICAL_MAGIC : list Z := chars "ACTIONPROOF".
Definition SAP_CANONICAL_VERSION : list Z := chars "1".

Definition sap_action_strings : list (list Z) := map chars
  ["SetSpendWithoutHardware"; "DisableSpendWithoutHardware"; "SetVerificationThreshold";
   "SetRecoveryEmail"; "DisableRecoveryEmail"; "SetRecoveryPhone"; "DisableRecoveryPhone";
   "SetRecoveryPushNotifications"; "DisableRecoveryPushNotifications"; "AddRecoveryContact";
   "RemoveRecoveryContact"; "AddBeneficiary"; "RemoveBeneficiary"; "AcceptRecoveryContactsInvite";
   "AcceptBeneficiariesInvite"; "CreateLostAppRecovery"; "CancelLostAppRecovery"; "DeleteAccount";
   "RotateAppAuthKeys"; "UpdateDescriptorBackups"; "RotateSpendingKeyset"; "EekRestoration";
   "FullAccountCloudBackupRestore"; "ApproveAppRecovery"; "StartRecovery"; "CompleteWallet";
   "UpgradeWallet"; "CancelLostHardwareRecovery"; "CancelConflictingRecovery";
   "InitiateWalletUpgrade"; "RemoveRecoveryCustomer"; "RemoveBenefactor"; "KeysetRepairUnseal";
   "KeysetRepairRotate"; "SetDelayNotifyPeriod"]%string.

Definition SAP_ACTION_COUNT : Z := 35.

(** The index of the first entry from [i] on that is the string. *)
Fixpoint find_action (str : list Z) (i : Z) (l : list (list Z)) : Z :=
  match l with
  | [] => SAP_ACTION_COUNT
  | a :: rest => if bool_decide (str = a) then i else find_action str (i + 1) rest
  end.

Definition sap_parse_action (str : list Z) : Z := find_action str 0 sap_action_strings.

Definition sap_contains_separator (str : list Z) : bool := existsb (λ c, c =? SAP_UNIT_SEPARATOR) str.

(** The macros [SAP_APPEND] and [SAP_APPEND_SEP]: the new offset, or a failure,
    and the buffer. *)
Fixpoint sap_append (buf : list Z) (offset : Z) (pieces : list (list Z)) : outcome (Z * list Z) :=
  match pieces with
  | [] => Done (offset, buf)
  | p :: rest =>
      if SAP_PAYLOAD_MAX_SIZE <? offset + zlen p then Done (-1, buf)
      else let! buf := mwrite buf offset p in sap_append buf (offset + zlen p) rest
  end.

Definition sap_pieces (d : sap_pending_data_t) : list (list Z) :=
  [SAP_CANONICAL_MAGIC; [SAP_UNIT_SEPARATOR]; SAP_CANONICAL_VERSION; [SAP_UNIT_SEPARATOR];
   sap_action d; [SAP_UNIT_SEPARATOR]; sap_value d; [SAP_UNIT_SEPARATOR]; sap_bindings d].

(** The length of the payload, -1 on failure, and the buffer. *)
Definition sap_build_payload (d : sap_pending_data_t) (buf : list Z) : outcome (Z * list Z) :=
  if negb (sap_valid d) then Done (-1, buf)
  else if sap_contains_separator (sap_action d) || sap_contains_separator (sap_value d)
          || sap_contains_separator (sap_bindings d)
  then Done (-1, buf)
  else sap_append buf 0 (sap_pieces d).

Record sign_action_proof_cmd := mk_action_cmd {
  ac_version : Z;
  ac_action : list Z;
  ac_value : list Z;
  ac_bindings : list Z;
}.

(** What the screen shows: the action and the value, if there is one. *)
Record action_display := mk_action_display {
  ad_action : Z;
  ad_value : option (list Z);
}.

Section Sap.
Context {L E C M : Type} `{Littlefs L} `{SecureElement E} `{Secp} `{Ecdsa} `{Sha256 C}
  `{SessionUnion C M}.

(** The digest that was signed, when one was, the session and the wallet. *)
Definition sap_sign (s : sap_session_t) (w : wallet_ctx L E)
    : outcome (option (list Z) * sap_session_t * wallet_ctx L E) :=
  let! '(len, buf) := sap_build_payload (sap_pending_data s) (sap_payload_buffer s) in
  let failed r := mk_sap (sap_pending_data s) buf (sap_signature s) (sap_signed_ok s) true r in
  if len <=? 0 then Done (None, failed fwpb_status_ERROR, w)
  else
    let! payload := mread buf 0 len in
    match crypto_hash_sha256 (C := C) payload with
    | None => Done (None, failed fwpb_status_ERROR, w)
    | Some hash =>
        let! '(ok, auth_key, w) := wallet_get_w1_auth_key w zero_key in
        if negb ok then Done (None, failed fwpb_status_KEY_DERIVATION_FAILED, w)
        else
          let '(ok, sig) := bip32_sign auth_key hash in
          if negb ok then Done (None, failed fwpb_status_SIGNING_FAILED, w)
          else Done (Some hash, mk_sap (sap_pending_data s) buf sig true true fwpb_status_SUCCESS, w)
    end.

Definition key_manager_task_handle_sign_action_proof (k : km L E M) (e : env) (cmd : sign_action_proof_cmd)
    : outcome (km_rsp * option action_display * km L E M) :=
  let! k := teardown k in
  if negb (ac_version cmd =? 1) then Done (status_only fwpb_status_ERROR, None, k)
  else
    let action := sap_parse_action (ac_action cmd) in
    if action =? SAP_ACTION_COUNT then Done (status_only fwpb_status_INVALID_ARGUMENT, None, k)
    else
      let g := km_signer k in
      let! '(ok, _, w) := wallet_get_w1_auth_key (sg_wallet g) zero_key in
      let k := set_signer k (set_wallet g w) in
      if negb ok then Done (status_only fwpb_status_KEY_DERIVATION_FAILED, None, k)
      else
        let s := get_sap (km_mem k) in
        let k := set_mem k (put_sap (km_mem k)
                   (mk_sap (mk_sap_data true (ac_version cmd) (ztake 63 (ac_action cmd))
                              (ztake 127 (ac_value cmd)) (ztake 255 (ac_bindings cmd)))
                      (sap_payload_buffer s) (sap_signature s) (sap_signed_ok s) (sap_sign_attempted s)
                      (sap_sign_result s))) in
        let! '(r, handles, c) :=
          confirmation_manager_create (km_cm k) CONFIRMATION_TYPE_SIGN_ACTION_PROOF (Some [1]) 1 true
            CONFIRMATION_HANDLE_SIZE CONFIRMATION_HANDLE_SIZE (rng1 e) (rng2 e) (systime e) in
        let k := set_cm k c in
        if negb (bool_decide (r = CONFIRMATION_RESULT_SUCCESS))
        then Done (status_only fwpb_status_ERROR, None, sap_session_init k)
        else
          Done (mk_rsp fwpb_status_CONFIRMATION_PENDING handles no_result,
                Some (mk_action_display action
                        (if 0 <? zlen (ac_value cmd) then Some (ztake 127 (ac_value cmd)) else None)), k).

(** The digest signed, if any. *)
Definition key_manager_task_try_sap_deferred_sign (k : km L E M) : outcome (option (list Z) * km L E M) :=
  let s := get_sap (km_mem k) in
  if negb (sap_valid (sap_pending_data s)) || sap_signed_ok s then Done (None, k)
  else
    let! type := confirmation_manager_get_type (km_cm k) in
    if negb (type =? CONFIRMATION_TYPE_SIGN_ACTION_PROOF) then Done (None, k)
    else
      let! approved := confirmation_manager_is_approved (km_cm k) in
      if negb approved then Done (None, k)
      else
        let g := km_signer k in
        let! '(h, s, w) := sap_sign s (sg_wallet g) in
        let k := set_signer k (set_wallet g w) in
        Done (h, set_mem k (put_sap (km_mem k) s)).

Definition sap_clear_state (k : km L E M) : outcome (km L E M) :=
  let! k := clear_confirmation k in Done (sap_session_init k).

Definition sap_confirmation_result_handler (k : km L E M) (rh ch : list Z) (now : Z)
    : outcome (km_rsp * km L E M) :=
  let! '(v, c) := confirmation_manager_validate (km_cm k) (Some rh) (zlen rh) (Some ch) (zlen ch) now in
  let k := set_cm k c in
  match v with
  | CONFIRMATION_RESULT_NOT_APPROVED => Done (status_only fwpb_status_CONFIRMATION_PENDING, k)
  | CONFIRMATION_RESULT_SUCCESS =>
      let s := get_sap (km_mem k) in
      if sap_signed_ok s then
        let! k := sap_clear_state k in
        Done (mk_rsp fwpb_status_SUCCESS None (sign_action_proof_result (sap_signature s)), k)
      else if sap_sign_attempted s then
        let! k := sap_clear_state k in Done (status_only (sap_sign_result s), k)
      else Done (status_only fwpb_status_CONFIRMATION_PENDING, k)
  | _ => let! k := sap_clear_state k in Done (status_only fwpb_status_CONFIRMATION_NOT_COMPLETED, k)
  end.
End Sap.
