(* ===== verification/SignMachine.v ===== *)
(** * The key manager as a machine

    The commands of the phone, the user and the other tasks that reach the
    signing sessions, one step each, and the history of a run. *)

From S2P Require Import Prelude Sha256 Fs Wkek Confirmation Bip32 WalletKeys WalletAddr Psbt PsbtSpec SignKey SignSession SignTx SignStream SignFlow Sap.

Section SignMachine.
Context {L E C M : Type} `{Littlefs L} `{SecureElement E} `{Secp} `{Ecdsa} `{Ew} `{Sha256 C}
  `{SessionUnion C M}.
Context (pubkey_verify : list Z → bool).

Abbreviation km := (km L E M).

(** [EvWorld g]: another task changed the wallet or the files. [EvConfirm]:
    another task asks for a confirmation of a type that is not handled here.
    [EvApprove] and [EvCancel] are the user's, [EvDeferred] the message that the
    screen sends after an approval, [EvResult] the phone's poll. *)
Inductive km_ev :=
| EvSignTx (e : env) (rq : sign_tx_request_cmd)
| EvSweep (e : env) (sk : sweep_keys) (rq : sign_tx_request_cmd)
| EvStreamStart (rq : sign_stream_start_cmd)
| EvSweepStreamStart (sk : sweep_keys) (rq : sign_stream_start_cmd)
| EvTransfer (sequence_id : Z) (chunk : list Z)
| EvFinalize (e : env) (commitment_hash : list Z)
| EvGetSignature (idx : Z)
| EvGetBatch (start count : Z)
| EvAction (e : env) (cmd : sign_action_proof_cmd)
| EvDeferred
| EvResult (rh ch : list Z) (now : Z)
| EvApprove
| EvCancel
| EvConfirm (e : env) (type : Z) (data : list Z)
| EvWorld (g : signer L E).

Inductive km_out :=
| OShow (d : send_transaction_data_t)
| OShowAction (d : action_display)
| OSigned (sd : signed_digest)
| OSignedAction (digest : list Z)
| ORsp (r : km_rsp)
| OSignatures (l : list (list Z * list Z)).

Definition shows (d : option send_transaction_data_t) : list km_out :=
  match d with Some d => [OShow d] | None => [] end.

Definition shows_action (d : option action_display) : list km_out :=
  match d with Some d => [OShowAction d] | None => [] end.

Definition km_step (k : km) (ev : km_ev) : outcome (list km_out * km) :=
  match ev with
  | EvSignTx e rq =>
      let! '(r, d, k) := key_manager_task_handle_sign_tx_request (C := C) k e rq in
      Done (shows d ++ [ORsp r], k)
  | EvSweep e sk rq =>
      let! '(r, d, k) := key_manager_task_handle_sweep_sign (C := C) pubkey_verify k e sk rq in
      Done (shows d ++ [ORsp r], k)
  | EvStreamStart rq =>
      let! '(_, k) := key_manager_task_handle_sign_stream_start (C := C) k rq in Done ([], k)
  | EvSweepStreamStart sk rq =>
      let! '(_, k) := key_manager_task_handle_sweep_sign_stream_start (C := C) pubkey_verify k sk rq in
      Done ([], k)
  | EvTransfer seq chunk =>
      let '(st, k) := key_manager_task_handle_sign_stream_transfer (C := C) k seq chunk in
      Done ([ORsp (status_only st)], k)
  | EvFinalize e h =>
      let! '(r, d, k) := key_manager_task_handle_sign_stream_finalize (C := C) k e h in
      Done (shows d ++ [ORsp r], k)
  | EvGetSignature idx =>
      let! '(st, sig, sds, k) := key_manager_task_handle_get_tx_signature (C := C) k idx in
      Done (map OSigned sds ++ [OSignatures (option_list sig); ORsp (status_only st)], k)
  | EvGetBatch start count =>
      let! '(st, sigs, sds, k) := key_manager_task_handle_get_tx_signatures_batch (C := C) k start count in
      Done (map OSigned sds ++ [OSignatures sigs; ORsp (status_only st)], k)
  | EvAction e cmd =>
      let! '(r, d, k) := key_manager_task_handle_sign_action_proof (C := C) k e cmd in
      Done (shows_action d ++ [ORsp r], k)
  | EvDeferred =>
      let! '(sds1, k) := key_manager_task_try_deferred_sign (C := C) k in
      let! '(sds2, k) := key_manager_task_try_deferred_stream_sign (C := C) k in
      let! '(h, k) := key_manager_task_try_sap_deferred_sign (C := C) k in
      Done (map OSigned (sds1 ++ sds2) ++ map OSignedAction (option_list h), k)
  | EvResult rh ch now =>
      let! type := confirmation_manager_get_type (km_cm k) in
      if type =? CONFIRMATION_TYPE_SIGN_TRANSACTION then
        let! '(r, k) := sign_transaction_confirmation_result_handler (C := C) k rh ch now in Done ([ORsp r], k)
      else if type =? CONFIRMATION_TYPE_SIGN_ACTION_PROOF then
        let! '(r, k) := sap_confirmation_result_handler (C := C) k rh ch now in Done ([ORsp r], k)
      else Done ([], k)
  | EvApprove => let! c := confirmation_manager_approve (km_cm k) in Done ([], set_cm k c)
  | EvCancel => let! k := clear_confirmation k in Done ([], k)
  | EvConfirm e type data =>
      let! '(_, _, c) := confirmation_manager_create (km_cm k) type (Some data) (zlen data) true
                           CONFIRMATION_HANDLE_SIZE CONFIRMATION_HANDLE_SIZE (rng1 e) (rng2 e) (systime e) in
      Done ([], set_cm k c)
  | EvWorld g => Done ([], set_signer k g)
  end.

(** The fields of a decoded request have the range of their types. *)
Record rq_ok (rq : sign_tx_request_cmd) : Prop := {
  rq_ok_inputs : Forall (λ i, u32_ok (pi_prev_index i) ∧ u32_ok (pi_sequence i) ∧ u64_ok (pi_amount i)
    ∧ Forall u32_ok (pi_derivation_path i)) (rq_inputs rq);
  rq_ok_outputs : Forall (λ o, u64_ok (po_amount o) ∧ Forall u32_ok (po_derivation_path o)) (rq_outputs rq);
  rq_ok_lock : u32_ok (rq_lock_time rq);
  rq_ok_version : u32_ok (rq_version rq);
}.

Record start_ok (rq : sign_stream_start_cmd) : Prop := {
  start_ok_inputs : u32_ok (sr_num_inputs rq);
  start_ok_outputs : u32_ok (sr_num_outputs rq);
  start_ok_lock : u32_ok (sr_lock_time rq);
  start_ok_version : u32_ok (sr_version rq);
}.

(** A file holds bytes. *)
Definition payload_bytes (k : km) : Prop :=
  ∀ d, fs_data (km_fs k) STREAM_PAYLOAD_PATH = Some d → bytes_ok d.

(** The other tasks leave the payload alone or remove it. *)
Definition ev_ok (k : km) (ev : km_ev) : Prop :=
  match ev with
  | EvSignTx _ rq | EvSweep _ _ rq => rq_ok rq
  | EvStreamStart rq | EvSweepStreamStart _ rq => start_ok rq
  | EvGetSignature idx => u32_ok idx
  | EvGetBatch start count => u32_ok start ∧ u32_ok count
  | EvConfirm _ type _ => type ≠ CONFIRMATION_TYPE_SIGN_TRANSACTION ∧ type ≠ CONFIRMATION_TYPE_SIGN_ACTION_PROOF
  | EvWorld g =>
      let s := wkek_fs (wk (sg_wallet g)) in
      fs_data s STREAM_PAYLOAD_PATH = fs_data (km_fs k) STREAM_PAYLOAD_PATH
      ∨ fs_data s STREAM_PAYLOAD_PATH = None
  | _ => True
  end.

(** A step that was taken: the event, what came out and the state after it. *)
Record taken := mk_taken {
  tk_ev : km_ev;
  tk_outs : list km_out;
  tk_after : km;
}.

(** [km_reach k0 h k]: the history [h], newest step first, leads from [k0] to
    [k]. *)
Inductive km_reach (k0 : km) : list taken → km → Prop :=
| reach_boot : km_reach k0 [] k0
| reach_step h k ev outs k' :
    km_reach k0 h k → ev_ok k ev → km_step k ev = Done (outs, k') → payload_bytes k' →
    km_reach k0 (mk_taken ev outs k' :: h) k'.

(** After power-up: zeroed sessions and no confirmation. *)
Definition km_boot (k : km) : Prop :=
  km_mem k = union_boot ∧ mutex_created (km_cm k) = true
  ∧ pending (km_cm k) = reset_pending_confirmation ∧ payload_bytes k.
End SignMachine.
