(* ===== verification/SignInv.v ===== *)
(** * Only what was shown and approved is signed

    The invariant of the key manager as a machine: the transaction that a
    session holds is the one on the screen, from the moment it is shown until
    the session ends, and the flag that lets a signing routine run was set by
    the user when the confirmation that was created with that screen, and no
    other, was pending. *)

From S2P Require Import Prelude Sha256 Wstring Fs Wkek Confirmation Bip32 WalletKeys WalletAddr FwDelta Psbt PsbtSpec SignKey SignSession SignFrame SignTx SignStream SignPayload SignFlow Sap SignMachine.

(** ** Confirmations *)

Section Pending.
Implicit Types cm : confirmation_ctx unit.

Definition cm_type cm : Z := if active (pending cm) =? SECURE_TRUE then ptype (pending cm) else CONFIRMATION_TYPE_NONE.
Definition cm_approved cm : bool := (active (pending cm) =? SECURE_TRUE) && (user_approved (pending cm) =? SECURE_TRUE).

Definition tx_pending cm : Prop := cm_type cm = CONFIRMATION_TYPE_SIGN_TRANSACTION.

(** What identifies the pending confirmation: its type, its handles and its
    data, but not the approval and the time. *)
Definition conf_id cm : option (Z * list Z * list Z * list Z * Z) :=
  let p := pending cm in
  if active p =? SECURE_TRUE
  then Some (ptype p, response_handle p, confirmation_handle p, operation_data p, operation_data_size p) else None.

Lemma conf_id_type cm cm' : conf_id cm' = conf_id cm → cm_type cm' = cm_type cm.
Proof. unfold conf_id, cm_type. destruct (_ =? _), (_ =? _); naive_solver. Qed.

Lemma get_type_spec cm : post (λ t, t = cm_type cm) (confirmation_manager_get_type cm).
Proof. unfold confirmation_manager_get_type. apply post_any. intros _. by apply post_done. Qed.

Lemma is_approved_spec cm : post (λ b, b = cm_approved cm) (confirmation_manager_is_approved cm).
Proof. unfold confirmation_manager_is_approved. apply post_any. intros _. by apply post_done. Qed.

Lemma clear_spec cm : post (λ cm', cm_type cm' = CONFIRMATION_TYPE_NONE) (confirmation_manager_clear cm).
Proof. unfold confirmation_manager_clear. apply post_any. intros _. by apply post_done. Qed.

(** A confirmation is created, dropped, or the request is refused. *)
Lemma create_spec cm type data n o a b r1 r2 now :
  post (λ '(r, _, cm'), (r = CONFIRMATION_RESULT_SUCCESS → cm_type cm' = type ∧ cm_approved cm' = false)
          ∧ (r ≠ CONFIRMATION_RESULT_SUCCESS → cm' = cm ∨ cm_type cm' = CONFIRMATION_TYPE_NONE))
    (confirmation_manager_create cm type data n o a b r1 r2 now).
Proof.
  unfold confirmation_manager_create. apply post_any. intros _. destruct (_ <? _); [apply post_done; split; by auto|].
  destruct data; [|apply post_done; split; by auto]. destruct (negb o); [apply post_done; split; by auto|].
  destruct (_ || _); [apply post_done; split; by auto|]. cbn zeta.
  destruct r1; [|apply post_done; split; by auto]. destruct r2; [|apply post_done; split; by auto].
  apply post_any. intros src. apply post_any. intros opdata. by apply post_done.
Qed.

Lemma validate_spec cm rh n ch m now :
  post (λ '(_, cm'), cm' = cm ∨ cm_type cm' = CONFIRMATION_TYPE_NONE) (confirmation_manager_validate cm rh n ch m now).
Proof.
  unfold confirmation_manager_validate. apply post_any. intros _. destruct (negb _); [by apply post_done; left|].
  destruct rh; [|by apply post_done; left]. destruct ch; [|by apply post_done; left].
  destruct (_ || _); [by apply post_done; left|]. cbn zeta. destruct (_ <? _); [by apply post_done; right|].
  apply post_any. intros v. apply post_any. intros [|]; [by apply post_done; left|].
  destruct (negb _); apply post_done; by left.
Qed.

Lemma approve_spec cm :
  post (λ cm', cm_type cm' = cm_type cm) (confirmation_manager_approve cm).
Proof.
  unfold confirmation_manager_approve. apply post_any. intros _. cbn zeta.
  destruct (active (pending cm) =? SECURE_TRUE) eqn:Ea; apply post_done; [|done].
  unfold cm_type. cbn. by rewrite Ea.
Qed.

Lemma approve_conf_id cm : post (λ cm', conf_id cm' = conf_id cm) (confirmation_manager_approve cm).
Proof.
  unfold confirmation_manager_approve. apply post_any. intros _. cbn zeta.
  destruct (active (pending cm) =? SECURE_TRUE) eqn:Ea; apply post_done; [|done].
  unfold conf_id. cbn. by rewrite Ea.
Qed.
End Pending.

(** ** The transaction of a session *)

Record tx := mk_tx {
  tx_in : list raw_tx_input_t;
  tx_out : list raw_tx_output_t;
  tx_lock : Z;
  tx_version : Z;
}.

Definition tx_ok (T : tx) : Prop := session_ok (tx_in T) (tx_out T) (tx_lock T) (tx_version T).

Definition session_tx (s : w3_signing_session_t) : tx :=
  mk_tx (ss_inputs s) (ss_outputs s) (ss_lock_time s) (ss_version s).

(** ** Requests *)

Lemma zeros_ok : Forall u32_ok (replicate 10 0).
Proof. by apply Forall_replicate. Qed.

Lemma parse_input_ok i x : u32_ok (pi_prev_index i) ∧ u32_ok (pi_sequence i) ∧ u64_ok (pi_amount i)
    ∧ Forall u32_ok (pi_derivation_path i) → parse_tx_input i = Some x → input_ok x.
Proof.
  intros (Hx & Hs & Ha & Hp). unfold parse_tx_input. destruct (zlen (pi_prev_txid i) =? 32) eqn:Et; [|done].
  cbn [negb]. destruct (_ || _) eqn:El; [done|]. intros [= <-]. apply orb_false_iff in El as [El1 El2]. btest.
  split; cbn [prev_txid prev_index sequence in_amount in_path in_path_len]; try done.
  - unfold PSBT_BIP32_PATH_MAX_LEN in *. rewrite zlen_ztake; [done|]. zl.
  - apply Forall_take, Forall_app. split; [done|]. exact zeros_ok.
  - split; [zl|done].
Qed.

Lemma parse_output_ok o x : u64_ok (po_amount o) ∧ Forall u32_ok (po_derivation_path o) →
  parse_tx_output o = Some x → output_ok x.
Proof.
  intros (Ha & Hp). unfold parse_tx_output. cbn zeta. destruct (_ || _) eqn:El; [done|].
  apply orb_false_iff in El as [El1 El2].
  assert (Hout : ∀ b len, 0 ≤ len ≤ PSBT_BIP32_PATH_MAX_LEN →
    output_ok (mk_output (po_amount o) (ztake 64 (po_destination_spk o ++ replicate 64 0)) (zlen (po_destination_spk o))
      b (ztake 10 (ztake len (po_derivation_path o) ++ replicate 10 0)) len)).
  { intros b len Hl. btest. split; cbn [out_amount destination_spk destination_spk_len out_path out_path_len]; try done.
    - unfold SPK_BUFFER_SIZE. rewrite zlen_ztake; [done|]. rewrite zlen_app, (zlen_replicate 64). zl.
    - split; [zl|done].
    - unfold PSBT_BIP32_PATH_MAX_LEN. rewrite zlen_ztake; [done|]. rewrite zlen_app, (zlen_replicate 10). zl.
    - apply Forall_take, Forall_app. split; [by apply Forall_take|]. exact zeros_ok. }
  destruct (po_has_derivation_path o).
  - destruct (_ || _) eqn:Ep; [done|]. intros [= <-]. apply orb_false_iff in Ep as [Ep1 Ep2]. btest.
    apply (Hout true). split; [zl|done].
  - destruct (negb _); [done|]. intros [= <-]. by apply (Hout false 0).
Qed.

Lemma mapM_ok {A B} (f : A → option B) (P : A → Prop) (Q : B → Prop) l l' :
  (∀ a b, P a → f a = Some b → Q b) → Forall P l → mapM f l = Some l' → Forall Q l'.
Proof.
  intros Hf Hl Hm. apply mapM_Some in Hm. induction Hm as [|a b l l' Hab _ IH]; [done|].
  apply Forall_cons in Hl as [Ha Hl]. constructor; [by eapply Hf|by apply IH].
Qed.

Lemma parse_transaction_ok rq ins outs : rq_ok rq → counts_ok rq = true → parse_transaction rq = Some (ins, outs) →
  session_ok ins outs (rq_lock_time rq) (rq_version rq).
Proof.
  intros [Hi Ho Hl Hv] Hc. unfold parse_transaction.
  intros (ins' & Ei & (outs' & Eo & [= <- <-])%bind_Some)%bind_Some.
  unfold counts_ok in Hc. apply negb_true_iff in Hc. rewrite !orb_false_iff in Hc.
  unfold RAW_TX_MAX_INPUTS, RAW_TX_MAX_OUTPUTS in Hc. btest.
  assert (Hli : zlen ins' = zlen (rq_inputs rq)).
  { unfold zlen. by rewrite (length_mapM _ _ _ Ei). }
  assert (Hlo : zlen outs' = zlen (rq_outputs rq)).
  { unfold zlen. by rewrite (length_mapM _ _ _ Eo). }
  split; [|by eapply mapM_ok; [apply parse_output_ok|exact Ho|]|done|done|..].
  - eapply mapM_ok; [apply parse_input_ok|exact Hi|done].
  - rewrite Hli. unfold u32_ok. zl.
  - rewrite Hlo. unfold u32_ok. zl.
Qed.
(** Removing a file that exists succeeds. *)
Class LittlefsRemoves (L : Type) `{Littlefs L} : Prop :=
  law_removes : ∀ l p, is_Some (lfs_data l p) → (lfs_remove l p).1 = 0.

Section SignInv.
Context {L E C M : Type} `{Littlefs L} `{SecureElement E} `{Secp} `{Ecdsa} `{Ew} `{Sha256 C}
  `{SessionUnion C M}.
Context `{!LittlefsLaws L} `{!LittlefsRemoves L} `{!Sha256Laws C} `{!SessionUnionLaws C M}.
Context (pubkey_verify : list Z → bool).

Abbreviation km := (km L E M).
Abbreviation taken := (taken (L := L) (E := E) (M := M)).
Implicit Types (k : km) (h : list taken) (T : tx) (t : stream_signing_session_t C).

Definition pay k : option (list Z) := fpay (km_fs k).
Definition state k : stream_signing_state_t := st_state (stream_of (C := C) k).
Definition session k : w3_signing_session_t := get_signing (km_mem k).

(** The transaction whose records lie in the payload [D]. *)
Definition stream_tx (D : list Z) t T : Prop :=
  payload_parts D t (tx_in T) (tx_out T) ∧ tx_lock T = st_lock_time t ∧ tx_version T = st_version t.

(** The hashes that a session signs with. *)
Definition stream_hashes t T : Prop :=
  st_hash_prevouts t = hash_prevouts (C := C) (tx_in T)
  ∧ st_hash_sequence t = hash_sequence (C := C) (tx_in T)
  ∧ st_hash_outputs t = hash_outputs (C := C) (tx_out T).

(** [keyset] was read during the step, from the files as they are after it. *)
Definition loaded (tk : taken) (keyset : wallet_keyset_t) : Prop :=
  ∃ k1 k2, load_keyset k1 = Done (Some keyset, k2) ∧ same_files (km_fs k2) (km_fs (tk_after tk)).

Definition keyset_file k : option (list Z) := fs_data (km_fs k) WALLET_KEYSET_PATH.

(** The single output goes to the fresh receive script of a keyset that was
    read from the file that [k] has. *)
Definition read_fresh k (outs : list raw_tx_output_t) : Prop :=
  ∃ ks k1 k2, load_keyset k1 = Done (Some ks, k2) ∧ keyset_file k2 = keyset_file k ∧ pays_fresh ks outs.

(** The step showed the transaction: the exact amounts, fee and destination,
    every output that is declared as change is the wallet's own, and if it is
    shown as a sweep, which has no destination, then it pays to the wallet. *)
Definition shown (tk : taken) T : Prop :=
  ∃ keyset info is_sweep unit,
    OShow (display_of info is_sweep unit) ∈ tk_outs tk
    ∧ shown_exactly (tx_in T) (tx_out T) (keyset_network keyset) info
    ∧ loaded tk keyset ∧ Forall (change_ok keyset) (tx_out T)
    ∧ (is_sweep = true → read_fresh (tk_after tk) (tx_out T)).

(** ** Screens and approvals *)

Definition is_screen (o : km_out) : bool := match o with OShow _ | OShowAction _ => true | _ => false end.
Definition no_screen (outs : list km_out) : Prop := Forall (λ o, is_screen o = false) outs.

(** After each of the steps [later] the confirmation that was pending after the
    step [tk] is still pending, and none of them showed a screen. *)
Definition kept_since (tk : taken) (later : list taken) : Prop :=
  Forall (λ x, conf_id (km_cm (tk_after x)) = conf_id (km_cm (tk_after tk)) ∧ no_screen (tk_outs x)) later.

(** The user approved the confirmation that was created in the step [tk]: it was
    not replaced until then, and the screen of [tk] was the last one. *)
Definition approved_since (tk : taken) (later : list taken) : Prop :=
  ∃ after ap before, later = after ++ ap :: before ∧ tk_ev ap = EvApprove ∧ kept_since tk (ap :: before).

Lemma approved_since_cons tk0 tk later : approved_since tk later → approved_since tk (tk0 :: later).
Proof. intros (a & ap & b & -> & He & Hk). by exists (tk0 :: a), ap, b. Qed.

(** A step of the past that showed [S] created a confirmation of type [ty]. While
    one of this type is pending it is that one, and if [A] then the user approved
    it. *)
Definition since (S : taken → Prop) (ty : Z) h (cm : confirmation_ctx unit) (A : Prop) : Prop :=
  ∃ later tk earlier, h = later ++ tk :: earlier ∧ S tk ∧ cm_type (km_cm (tk_after tk)) = ty
    ∧ (cm_type cm = ty → kept_since tk later ∧ conf_id cm = conf_id (km_cm (tk_after tk)))
    ∧ (A → approved_since tk later).

Definition seen_and_approved (S : taken → Prop) (ty : Z) h : Prop :=
  ∃ later tk earlier, h = later ++ tk :: earlier ∧ S tk ∧ cm_type (km_cm (tk_after tk)) = ty
    ∧ approved_since tk later.

Lemma since_cons S ty tk h cm (A B : Prop) : since S ty h cm A → no_screen (tk_outs tk) →
  (cm_type (km_cm (tk_after tk)) = ty → conf_id (km_cm (tk_after tk)) = conf_id cm) →
  (B → A ∨ tk_ev tk = EvApprove ∧ cm_type (km_cm (tk_after tk)) = ty) →
  since S ty (tk :: h) (km_cm (tk_after tk)) B.
Proof.
  intros (later & tk0 & earlier & -> & Hs & Hty & Hkept & Ha) Hq Hid HB. exists (tk :: later), tk0, earlier.
  assert (Hk : cm_type (km_cm (tk_after tk)) = ty →
    kept_since tk0 (tk :: later) ∧ conf_id (km_cm (tk_after tk)) = conf_id (km_cm (tk_after tk0))).
  { intros Ht. pose proof (Hid Ht) as Hi. rewrite (conf_id_type _ _ Hi) in Ht. destruct (Hkept Ht) as [Hk Hi0].
    rewrite Hi, Hi0. split; [|done]. by constructor; [split; congruence|]. }
  split_and!; [done|done|done|exact Hk|]. intros [HA|[He Ht]]%HB; [by apply approved_since_cons, Ha|].
  exists [], tk, later. split_and!; [done|done|by apply Hk].
Qed.

Lemma since_new (S : taken → Prop) ty tk h (A : Prop) : S tk → cm_type (km_cm (tk_after tk)) = ty → (A → False) →
  since S ty (tk :: h) (km_cm (tk_after tk)) A.
Proof. intros Hs Ht HA. exists [], tk, h. split_and!; [done|done|done|by repeat constructor|intros []%HA]. Qed.

Lemma since_mono S ty h cm (A B : Prop) : since S ty h cm A → (B → A) → since S ty h cm B.
Proof. intros (l & tk & e & -> & Hs & Ht & Hk & Ha) HB. exists l, tk, e. split_and!; auto. Qed.

(** The confirmation was dropped. *)
Lemma since_drop S ty h cm cm' (A B : Prop) : since S ty h cm A → cm_type cm' ≠ ty → (B → A) → since S ty h cm' B.
Proof. intros (l & tk & e & -> & Hs & Ht & _ & Ha) Hn HB. exists l, tk, e. split_and!; auto. by intros. Qed.

Lemma since_approved S ty h cm (A : Prop) : since S ty h cm A → A → seen_and_approved S ty h.
Proof. intros (l & tk & e & -> & Hs & Ht & _ & Ha) HA. exists l, tk, e. split_and!; auto. Qed.

Abbreviation tx_since h T := (since (λ tk, shown tk T) CONFIRMATION_TYPE_SIGN_TRANSACTION h).

Definition one_link h k : Prop :=
  tx_since h (session_tx (session k)) (km_cm k) (cm_approved (km_cm k) = true)
  ∧ tx_ok (session_tx (session k)) ∧ pay k = None ∧ state k = STREAM_STATE_RECEIVING.

Definition stream_link h k : Prop := ∃ D T,
  tx_since h T (km_cm k) (tx_pending (km_cm k) ∧ cm_approved (km_cm k) = true ∨ state k = STREAM_STATE_CONFIRMED)
  ∧ stream_tx D (stream_of k) T ∧ stream_hashes (stream_of k) T ∧ stream_ok (stream_of (C := C) k)
  ∧ bytes_ok D ∧ (pay k = Some D ∨ pay k = None).

Definition awaiting k : Prop := state k = STREAM_STATE_FINALIZED ∨ state k = STREAM_STATE_CONFIRMED.

Definition action_pending k : Prop := cm_type (km_cm k) = CONFIRMATION_TYPE_SIGN_ACTION_PROOF.
Definition action_data k : sap_pending_data_t := sap_pending_data (get_sap (C := C) (km_mem k)).

(** The step showed the action whose data is [d]: its name and its value. *)
Definition action_shown (tk : taken) (d : sap_pending_data_t) : Prop :=
  ∃ e cmd, tk_ev tk = EvAction e cmd
    ∧ d = mk_sap_data true 1 (ztake 63 (ac_action cmd)) (ztake 127 (ac_value cmd)) (ztake 255 (ac_bindings cmd))
    ∧ sap_parse_action (ac_action cmd) ≠ SAP_ACTION_COUNT
    ∧ OShowAction (mk_action_display (sap_parse_action (ac_action cmd))
        (if 0 <? zlen (ac_value cmd) then Some (ztake 127 (ac_value cmd)) else None)) ∈ tk_outs tk.

Abbreviation action_since h d := (since (λ tk, action_shown tk d) CONFIRMATION_TYPE_SIGN_ACTION_PROOF h).

(** While an action proof is pending there is no payload, and the action that
    is held was shown. *)
Definition action_ok h k : Prop := action_pending k → pay k = None
  ∧ (sap_valid (action_data k) = true → action_since h (action_data k) (km_cm k) (cm_approved (km_cm k) = true)).

Record inv h k : Prop := {
  inv_action : action_ok h k;
  inv_bytes : payload_bytes k;
  inv_receiving : state k = STREAM_STATE_RECEIVING → stream_ok (stream_of (C := C) k) ∨ pay k = None;
  inv_stream : awaiting k → stream_link h k;
  inv_one : tx_pending (km_cm k) → ¬ awaiting k →
    state k = STREAM_STATE_IDLE ∧ ss_active (session k) = false ∨ one_link h k;
}.

(** ** Steps that do not sign *)

(** No session. *)
Definition idle k : Prop :=
  state k = STREAM_STATE_IDLE ∧ ss_active (session k) = false ∧ sap_valid (action_data k) = false.

Lemma inv_idle h k : (action_pending k → pay k = None) → payload_bytes k → idle k → inv h k.
Proof.
  intros Hna Hb (Hs & Ha & Hv). split; [|done|by rewrite Hs|by intros []; rewrite Hs in *|by left].
  intros Hap. split; [by apply Hna|congruence].
Qed.

(** A session without a confirmation. *)
Lemma inv_unconfirmed h k : action_ok h k → payload_bytes k → state k = STREAM_STATE_RECEIVING →
  stream_ok (stream_of (C := C) k) ∨ pay k = None → ¬ tx_pending (km_cm k) → inv h k.
Proof.
  intros Hna Hb Hs Hr Hp. split; [done|done|done|intros []; congruence|done].
Qed.

(** A step that keeps the sessions, keeps or removes the payload, shows no
    screen, and at most drops or approves the confirmation, or replaces it by one
    of another kind. *)
Lemma inv_keep tk h k : let k' := tk_after tk in inv h k → payload_bytes k' → no_screen (tk_outs tk) →
  get_sap (C := C) (km_mem k') = get_sap (km_mem k) →
  get_stream (km_mem k') = get_stream (C := C) (km_mem k) → get_signing (km_mem k') = get_signing (km_mem k) →
  pay k' = pay k ∨ pay k' = None →
  (action_pending k' ∨ tx_pending (km_cm k') → conf_id (km_cm k') = conf_id (km_cm k)
     ∧ (cm_approved (km_cm k') = true → cm_approved (km_cm k) = true ∨ tk_ev tk = EvApprove)) →
  inv (tk :: h) k'.
Proof.
  intros k' [Hna Hb Hr Hs Ho] Hb' Hq Hsap Est Esg Hp Hcm.
  assert (Est' : stream_of (C := C) k' = stream_of k) by done.
  assert (Ess : session k' = session k) by done.
  assert (Estate : state k' = state k) by (unfold state; by rewrite Est').
  assert (Htype : action_pending k' ∨ tx_pending (km_cm k') → cm_type (km_cm k') = cm_type (km_cm k))
    by (intros [Hid _]%Hcm; by apply conf_id_type).
  split; [|done|..]; unfold awaiting in *; rewrite ?Estate, ?Est', ?Ess in *.
  - intros Hap. destruct (Hcm (or_introl Hap)) as [Hid Happ].
    destruct (Hna ltac:(unfold action_pending; by rewrite <- Htype by (by left))) as [Hn Hsn].
    unfold action_data in *. rewrite Hsap. split; [by destruct Hp as [-> |]|]. intros Hv.
    eapply since_cons; [by apply Hsn|done|by intros _|]. intros [|]%Happ; [by left|by right].
  - intros Hrc. destruct (Hr Hrc) as [?|Hn]; [by left|right]. destruct Hp as [->|]; done.
  - intros Haw. destruct (Hs Haw) as (D & T & Hsn & Htx & Hh & Hok & HbD & HpD). exists D, T.
    rewrite Est', Estate. split_and!; [|done..|destruct Hp as [-> | ->]; [done|by right]].
    eapply since_cons; [exact Hsn|done|by intros Ht; apply Hcm; right|].
    intros [[Hpd Ha]|Hc]; [|by left; right]. destruct (Hcm (or_intror Hpd)) as [_ Happ].
    destruct (Happ Ha) as [Ha'|He]; [left; left|by right]. split; [|done]. unfold tx_pending. by rewrite <- Htype by (by right).
  - intros Hpd Haw. destruct (Hcm (or_intror Hpd)) as [Hid Happ].
    destruct (Ho ltac:(unfold tx_pending; by rewrite <- Htype by (by right)) Haw) as [?|(Hsn & Hok & Hn & Hrc)]; [by left|right].
    unfold one_link. rewrite Ess, Estate. split_and!; [|done|by destruct Hp as [->|]|done].
    eapply since_cons; [exact Hsn|done|by intros _|]. intros [|]%Happ; [by left|by right].
Qed.

(** ** Resets *)

Lemma remove_gone (s : fs_ctx L) p : fs_data (fs_remove s p).2 p = None.
Proof.
  destruct (fs_remove s p) as [r s'] eqn:Er. destruct (fs_remove_spec _ _ _ _ Er) as (_ & H0' & Hn & _). cbn.
  destruct (decide (r = 0)) as [|Hr]; [by apply H0'|]. rewrite Hn by done.
  unfold fs_remove, fs_data in *. destruct (lfs s) as [l|]; [|done].
  destruct (lfs_data l p) eqn:Ed; [|done]. exfalso. apply Hr.
  pose proof (law_removes l p) as Hl. rewrite Ed in Hl. destruct (lfs_remove l p) as [r' l'].
  injection Er as <- _. apply Hl. eauto.
Qed.

Lemma stream_reset_spec k : let k' := stream_session_reset (C := C) k in
  idle k' ∧ pay k' = None ∧ km_cm k' = km_cm k.
Proof.
  unfold stream_session_reset. pose proof (remove_gone (km_fs k) STREAM_PAYLOAD_PATH) as Hg.
  destruct (fs_remove (km_fs k) STREAM_PAYLOAD_PATH) as [r s]. cbn [snd] in Hg.
  pose proof (remove_frame s STREAM_SIGS_PATH None ltac:(discriminate) Hg) as Hg2.
  destruct (fs_remove s STREAM_SIGS_PATH) as [r2 s2]. cbn zeta. split_and!; [|done|done].
  unfold idle, state, stream_of, session, action_data. cbn [set_mem km_mem]. rewrite law_get_stream.
  split_and!; [done|by apply law_stream_active|by apply law_stream_valid].
Qed.

Lemma no_payload k : pay k = None → payload_bytes k.
Proof. intros Hp d Hd. unfold pay, fpay in Hp. congruence. Qed.

Lemma inv_stream_reset h k : inv h (stream_session_reset (C := C) k).
Proof. destruct (stream_reset_spec k) as (? & ? & _). apply inv_idle; [by intros _|by apply no_payload|done]. Qed.

Lemma signing_reset_idle k : idle (signing_session_reset (C := C) k).
Proof.
  unfold idle, state, stream_of, session, action_data, signing_session_reset. cbn [set_mem km_mem].
  rewrite law_signing_state, law_get_signing, law_signing_valid. done.
Qed.

Lemma clear_confirmation_spec k :
  post (λ k', km_signer k' = km_signer k ∧ km_mem k' = km_mem k ∧ cm_type (km_cm k') = CONFIRMATION_TYPE_NONE)
    (clear_confirmation k).
Proof. unfold clear_confirmation. eapply post_bind; [apply clear_spec|]. intros c Hc. by apply post_done. Qed.

Lemma not_pending (cm : confirmation_ctx unit) : cm_type cm = CONFIRMATION_TYPE_NONE → ¬ tx_pending cm.
Proof. unfold tx_pending. by intros ->. Qed.

Lemma teardown_spec k :
  post (λ k', cm_type (km_cm k') = CONFIRMATION_TYPE_NONE ∧ pay k' = None ∧ idle k') (teardown (C := C) k).
Proof.
  unfold teardown. eapply post_bind; [apply clear_confirmation_spec|]. intros k1 (_ & _ & Hc).
  apply post_done. destruct (stream_reset_spec (signing_session_reset (C := C) k1)) as (_ & Hp & Hcm).
  unfold sap_session_init. split_and!; [by cbn; rewrite Hcm|exact Hp|].
  unfold idle, state, session, stream_of, action_data. cbn [set_mem km_mem].
  by rewrite law_sap_state, law_sap_active, law_get_sap.
Qed.

(** All the sessions are zero. *)
Lemma teardown_clears k : post (λ k', session k' = zero_signing) (teardown (C := C) k).
Proof.
  unfold teardown. apply post_any. intros k1. apply post_done.
  unfold session, sap_session_init, stream_session_reset, signing_session_reset.
  destruct (fs_remove _ STREAM_PAYLOAD_PATH) as [r1 s1]. destruct (fs_remove s1 STREAM_SIGS_PATH) as [r2 s2].
  apply law_reset.
Qed.

(** ** The keyset and the screen *)

Lemma load_keyset_file k : post (λ '(_, k'), keyset_file k' = keyset_file k) (load_keyset k).
Proof.
  unfold load_keyset. eapply post_bind; [by apply read_keyset_frame|]. intros [r w] Hw. by apply post_done.
Qed.

Lemma load_keyset_spec k :
  post (λ '(_, k'), km_cm k' = km_cm k ∧ km_mem k' = km_mem k ∧ pay k' = pay k) (load_keyset k).
Proof.
  unfold load_keyset. eapply post_bind; [by apply read_frame|]. intros [r w] Hw. by apply post_done.
Qed.

Lemma show_spec k e info sh is_sweep unit :
  post (λ '(st, _, d, k'), km_signer k' = km_signer k ∧ km_mem k' = km_mem k
          ∧ (st = fwpb_status_SUCCESS → d = Some (display_of info is_sweep unit)
               ∧ tx_pending (km_cm k') ∧ cm_approved (km_cm k') = false)
          ∧ (st ≠ fwpb_status_SUCCESS → km_cm k' = km_cm k ∨ cm_type (km_cm k') = CONFIRMATION_TYPE_NONE))
    (show_confirmation k e info sh is_sweep unit).
Proof.
  unfold show_confirmation. cbn zeta. eapply post_bind; [apply create_spec|]. intros [[r hs] cm] [Hc1 Hc2].
  destruct (bool_decide (r = _)) eqn:Er; cbn [negb].
  - apply bool_decide_eq_true in Er. specialize (Hc1 Er) as [Ht Ha]. destruct (_ || _).
    { eapply post_bind; [apply clear_confirmation_spec|]. intros k' (Hs & Hm & Hn). apply post_done. by split_and!; auto. }
    by apply post_done.
  - apply bool_decide_eq_false in Er. apply post_done. split_and!; [done|done|done|auto].
Qed.

(** ** A one-shot transaction is shown *)

Lemma request_confirmation_spec k e unit : tx_ok (session_tx (session k)) →
  (sw_active (ss_sweep (session k)) = true → read_fresh k (ss_outputs (session k))) →
  post (λ '(st, _, d, k'), km_mem k' = km_mem k ∧ pay k' = pay k
          ∧ (st ≠ fwpb_status_SUCCESS → km_cm k' = km_cm k ∨ cm_type (km_cm k') = CONFIRMATION_TYPE_NONE)
          ∧ (st = fwpb_status_SUCCESS → tx_pending (km_cm k') ∧ cm_approved (km_cm k') = false
               ∧ ∀ tk r, tk_outs tk = shows d ++ r → tk_after tk = k' → shown tk (session_tx (session k))))
    (raw_tx_request_confirmation (C := C) k e unit).
Proof.
  intros [Hin Hout _ _ _ _] Hsw. unfold raw_tx_request_confirmation. apply post_eq. intros [ks k1] E1.
  destruct (load_keyset_spec k _ E1) as (Hc1 & Hm1 & Hp1). pose proof (load_keyset_file k _ E1) as Hf1. cbn beta iota in Hf1.
  assert (Hs1 : get_signing (km_mem k1) = session k) by (unfold session; by rewrite Hm1).
  destruct ks as [keyset|]; [|apply post_done; split_and!; [done|done|by left; rewrite Hc1|done]].
  cbn zeta. rewrite Hs1. cbn [session_tx tx_in tx_out] in *.
  eapply post_bind; [by apply post_safe, get_info_ok|]. intros [err info] Hinfo.
  destruct (bool_decide (err = PSBT_OK)) eqn:Ee; cbn [negb];
    [|apply post_done; split_and!; [done|done|by left; rewrite Hc1|done]]. apply bool_decide_eq_true in Ee.
  eapply post_bind; [by apply (change_outputs_spec keyset)|]. intros ok Hok.
  destruct ok; cbn [negb]; [|apply post_done; split_and!; [done|done|by left; rewrite Hc1|done]].
  apply post_any. intros [sh|]; [|apply post_done; split_and!; [done|done|by left; rewrite Hc1|done]].
  eapply post_mono; [apply show_spec|]. intros [[[st hs] d] k'] (Hg & Hm & Hsucc & Hfail).
  split_and!; [congruence|unfold pay, km_fs in *; by rewrite Hg|by rewrite <- Hc1|].
  intros (-> & Hpd & Hna)%Hsucc. split_and!; [done|done|]. intros tk r Houts Hafter.
  exists keyset, info, (sw_active (ss_sweep (session k))), unit. split_and!; [|by apply Hinfo| |by apply Hok|].
  - rewrite Houts. apply elem_of_app. left. by left.
  - exists k, k1. split; [done|]. rewrite Hafter. intros q. unfold km_fs. by rewrite Hg.
  - intros (ks & ka & kb & ? & Hf & ?)%Hsw. exists ks, ka, kb. split_and!; [done| |done].
    rewrite Hf, <- Hf1, Hafter. unfold keyset_file, km_fs. by rewrite Hg.
Qed.

(** The end of a step: the invariant holds, whatever was before. *)
Definition ends (outs : list km_out) k : Prop :=
  ∀ (tk : taken) h, tk_outs tk = outs → tk_after tk = k → payload_bytes k → inv (tk :: h) k.

Lemma ends_idle outs k : pay k = None → idle k → ends outs k.
Proof. intros Hp Hi tk h _ _ Hb. apply inv_idle; [by intros _|done|done]. Qed.

Lemma ends_idle_unconfirmed outs k : cm_type (km_cm k) = CONFIRMATION_TYPE_NONE → idle k → ends outs k.
Proof. intros Hp Hi tk h _ _ Hb. apply inv_idle; [unfold action_pending; by rewrite Hp|done|done]. Qed.

Lemma activate_spec k e unit : tx_ok (session_tx (session k)) →
  (sw_active (ss_sweep (session k)) = true → read_fresh k (ss_outputs (session k))) → pay k = None →
  cm_type (km_cm k) = CONFIRMATION_TYPE_NONE →
  post (λ '(r, d, k'), ends (shows d ++ [ORsp r]) k') (activate_session (C := C) k e unit).
Proof.
  intros Hok Hsw Hp Hc. unfold activate_session. cbn zeta. set (s1 := mk_signing true _ _ _ _ _ _ _).
  set (k1 := set_mem k _).
  assert (Hs1 : session k1 = s1) by apply law_get_signing.
  assert (Htx : session_tx (session k1) = session_tx (session k)) by (by rewrite Hs1).
  eapply post_bind; [apply request_confirmation_spec; [by rewrite Htx|by rewrite Hs1]|]. intros [[[st hs] d] k2] (Hm & Hp2 & Hfail & Hsucc).
  destruct (bool_decide (st = _)) eqn:Est; apply post_done;
    [|apply ends_idle; [change (pay k2 = None); by rewrite Hp2|apply signing_reset_idle]].
  apply bool_decide_eq_true in Est. destruct (Hsucc Est) as (Hpd & Hna & Hshown).
  intros tk h Houts Hafter Hb.
  assert (Hst : state k2 = STREAM_STATE_RECEIVING).
  { unfold state, stream_of. rewrite Hm. cbn [k1 set_mem km_mem]. by rewrite law_signing_state. }
  assert (Hses : session k2 = session k1) by (unfold session; by rewrite Hm).
  assert (Hpn : pay k2 = None) by (by rewrite Hp2).
  split; [intros Hx; unfold action_pending in Hx; by rewrite Hpd in Hx|done|by right|intros []; congruence|].
  intros _ _. right. unfold one_link. rewrite Hses.
  split_and!; [|by rewrite Htx|done|done]. rewrite <- Hafter in Hpd |- *. apply since_new; [by eapply Hshown|done|congruence].
Qed.

Lemma sign_tx_ends k e rq : rq_ok rq →
  post (λ '(r, d, k'), ends (shows d ++ [ORsp r]) k') (key_manager_task_handle_sign_tx_request (C := C) k e rq).
Proof.
  intros Hrq. unfold key_manager_task_handle_sign_tx_request.
  apply post_eq. intros k1 E1. destruct (teardown_spec k _ E1) as (Hc & Hp & Hidle).
  pose proof (teardown_clears k _ E1) as Hz. unfold session in Hz.
  destruct (counts_ok rq) eqn:Eco; cbn [negb]; [|by apply post_done, ends_idle].
  destruct (negb _); [by apply post_done, ends_idle|].
  destruct (parse_transaction rq) as [[ins outs]|] eqn:Ep; [|by apply post_done, ends_idle; [|apply signing_reset_idle]].
  apply activate_spec; [..|done|done]; unfold store_transaction, session; cbn zeta; cbn [set_mem km_mem];
    rewrite law_get_signing; [by apply (parse_transaction_ok rq)|]. cbn [ss_sweep]. by rewrite Hz.
Qed.
(** Calls that change nothing but keys and other files. *)
Definition same_sessions k k' : Prop := km_cm k' = km_cm k ∧ km_mem k' = km_mem k ∧ pay k' = pay k.

Lemma same_sessions_refl k : same_sessions k k.
Proof. done. Qed.

Lemma same_sessions_trans k1 k2 k3 : same_sessions k1 k2 → same_sessions k2 k3 → same_sessions k1 k3.
Proof. intros (A1 & B1 & D1) (A2 & B2 & D2). split_and!; congruence. Qed.

Lemma same_idle k k' : same_sessions k k' → idle k → idle k'.
Proof. intros (_ & Hm & _) Hi. unfold idle, state, stream_of, session, action_data in *. by rewrite Hm. Qed.

Lemma same_no_pay k k' : same_sessions k k' → pay k = None → pay k' = None.
Proof. intros (_ & _ & ->). done. Qed.

Lemma init_sweep_spec k keyset sk :
  post (λ '(_, _, k'), same_sessions k k') (validate_and_init_sweep_ctx pubkey_verify k keyset sk).
Proof.
  unfold validate_and_init_sweep_ctx. destruct (_ =? _); [by apply post_done|]. destruct (_ || _); [by apply post_done|].
  apply post_any. intros a. apply post_any. intros b. destruct (negb b); [by apply post_done|].
  apply (post_bind (λ '(_, k'), same_sessions k k')).
  - unfold derive_sweep_hw_xpub. cbn zeta. eapply post_bind; [by apply derive_frame|]. intros [[ok key] w] Hw.
    destruct (negb ok); [by apply post_done|]. apply post_any. intros [ok' pub]. by apply post_done.
  - intros [[hw|] k'] Hk'; by apply post_done.
Qed.

Lemma init_sweep_file k keyset sk :
  post (λ '(_, _, k'), keyset_file k' = keyset_file k) (validate_and_init_sweep_ctx pubkey_verify k keyset sk).
Proof.
  unfold validate_and_init_sweep_ctx. destruct (_ =? _); [by apply post_done|]. destruct (_ || _); [by apply post_done|].
  apply post_any. intros a. apply post_any. intros b. destruct (negb b); [by apply post_done|].
  apply (post_bind (λ '(_, k'), keyset_file k' = keyset_file k)).
  - unfold derive_sweep_hw_xpub. cbn zeta. eapply post_bind; [by apply derive_keyset_frame|]. intros [[ok key] w] Hw.
    destruct (negb ok); [by apply post_done|]. apply post_any. intros [ok' pub]. by apply post_done.
  - intros [[hw|] k'] Hk'; by apply post_done.
Qed.

Lemma sweep_shape_spec keyset acct ins outs : Forall output_ok outs →
  post (λ st, st = fwpb_status_SUCCESS → pays_fresh keyset outs) (validate_sweep_tx_shape keyset acct ins outs).
Proof.
  intros Hok. unfold validate_sweep_tx_shape. apply post_any. intros ok. destruct (negb ok); [by apply post_done|].
  destruct (Z.eqb_spec (zlen outs) 1) as [El|]; cbn [negb]; [|by apply post_done].
  apply post_eq. intros [fresh|] Ef; [|by apply post_done].
  destruct outs as [|o [|? ?]]; [done| |rewrite !zlen_cons in El; pose proof (zlen_nonneg l); lia]. cbn [obind aget].
  apply Forall_inv in Hok. change (aget [o] 0) with (Done o). cbn [obind].
  eapply post_bind; [by apply output_fresh_spec|]. intros b Hb. apply post_done. destruct b; [|done]. intros _.
  exists o. split; [done|]. by rewrite (Hb eq_refl).
Qed.

Lemma sweep_ends k e sk rq : rq_ok rq →
  post (λ '(r, d, k'), ends (shows d ++ [ORsp r]) k')
    (key_manager_task_handle_sweep_sign (C := C) pubkey_verify k e sk rq).
Proof.
  intros Hrq. unfold key_manager_task_handle_sweep_sign.
  eapply post_bind; [apply teardown_spec|]. intros k1 (Hc & Hp & Hidle).
  destruct (counts_ok rq) eqn:Eco; cbn [negb]; [|by apply post_done, ends_idle].
  destruct (negb _); [by apply post_done, ends_idle|].
  apply post_eq. intros [ks k2] E2. pose proof (load_keyset_spec k1 _ E2) as Hk2. cbn beta iota in Hk2. fold (same_sessions k1 k2) in Hk2.
  destruct ks as [keyset|]; [|by apply post_done, ends_idle; [eapply same_no_pay|eapply same_idle]].
  destruct (negb _); [by apply post_done, ends_idle; [eapply same_no_pay|eapply same_idle]|].
  apply post_eq. intros [[st sw] k3] E3. pose proof (init_sweep_spec _ _ _ _ E3) as Hk3.
  pose proof (init_sweep_file _ _ _ _ E3) as Hf3. cbn beta iota in Hk3, Hf3.
  assert (Hp3' : pay k3 = None) by (rewrite <- Hp; by apply (same_sessions_trans _ _ _ Hk2 Hk3)).
  destruct sw as [sw|]; [|by apply post_done, ends_idle; [|apply signing_reset_idle]]. cbn zeta.
  destruct (parse_transaction rq) as [[ins outs]|] eqn:Ep; [|by apply post_done, ends_idle; [|apply signing_reset_idle]].
  destruct (parse_transaction_ok rq ins outs Hrq Eco Ep) as [_ Houts _ _ _ _].
  eapply post_bind; [by apply sweep_shape_spec|]. intros shape Hshape.
  case_bool_decide as Esh; cbn [negb]; [|by apply post_done, ends_idle; [|apply signing_reset_idle]].
  destruct (same_sessions_trans _ _ _ Hk2 Hk3) as (Hc3 & _ & Hp3).
  apply activate_spec.
  - unfold store_transaction, session. cbn zeta. cbn [set_mem km_mem]. rewrite law_get_signing.
    by apply (parse_transaction_ok rq).
  - unfold store_transaction, session. cbn zeta. cbn [set_mem km_mem]. rewrite law_get_signing. cbn [ss_outputs].
    intros _. exists keyset, k1, k2. split_and!; [done|by rewrite <- Hf3|by apply Hshape].
  - by rewrite <- Hp, <- Hp3.
  - by rewrite <- Hc, <- Hc3.
Qed.

(** ** Starting and receiving a stream *)

Lemma create_file_spec k path : own path →
  let '(_, k') := create_file k path in same_sessions k k'.
Proof.
  intros Ho. unfold create_file. destruct (fs_open_global _ _ _) as [r s] eqn:Eo.
  destruct (open_global_spec _ _ _ _ _ Eo) as (Hq & _ & Hat).
  assert (Hs : fpay s = pay k) by (apply Hq; by apply not_eq_sym).
  destruct (Z.eqb_spec r 0) as [Hr|]; cbn [negb]; [|by split_and!].
  destruct (Hat Hr) as (_ & D & _ & _ & Hopen). destruct (fs_close_global s) as [r2 s2] eqn:Ec.
  destruct (close_global_spec _ _ _ _ _ _ Hopen Ec) as (Hq2 & _). split_and!; [done|done|].
  rewrite <- Hs. unfold pay, km_fs. cbn. apply Hq2. by apply not_eq_sym.
Qed.

(** Creating the payload changes the payload alone. *)
Lemma create_payload_spec k :
  let '(_, k') := create_file k STREAM_PAYLOAD_PATH in km_cm k' = km_cm k ∧ km_mem k' = km_mem k.
Proof.
  unfold create_file. destruct (fs_open_global _ _ _) as [r s]. destruct (negb _); [done|].
  by destruct (fs_close_global s).
Qed.

Lemma begin_ends k rq outs : start_ok rq → start_counts_ok rq = true →
  cm_type (km_cm k) = CONFIRMATION_TYPE_NONE →
  ends outs (begin_stream (C := C) k rq).2.
Proof.
  intros Hrq Hc Hp. unfold begin_stream. destruct crypto_sha256_stream_init as [ctx|]; cbn [snd]; cycle 1.
  { intros tk h _ _ _. apply inv_stream_reset. }
  intros tk h _ _ Hb. apply inv_unconfirmed; [unfold action_ok, action_pending; cbn; by rewrite Hp|done| |left|by apply not_pending].
  - unfold state, stream_of, put_stream_of. cbn [set_mem km_mem]. by rewrite law_get_stream.
  - unfold stream_of, put_stream_of. cbn [set_mem km_mem]. rewrite law_get_stream.
    unfold start_counts_ok in Hc. rewrite !andb_true_iff, !negb_true_iff, !orb_false_iff in Hc.
    destruct Hrq as [Hni Hno Hl Hv]. unfold u32_ok in *. btest. by split; cbn; try lia.
Qed.

Lemma cleanup_spec k : same_sessions k (cleanup_stale_patch k).
Proof.
  unfold cleanup_stale_patch. destruct (fs_file_exists _ _); [|done]. split_and!; [done|done|].
  unfold pay, km_fs. cbn. by apply remove_frame.
Qed.

Lemma stream_start_ends k rq outs : start_ok rq →
  post (λ '(_, k'), ends outs k') (key_manager_task_handle_sign_stream_start (C := C) k rq).
Proof.
  intros Hrq. unfold key_manager_task_handle_sign_stream_start.
  eapply post_bind; [apply teardown_spec|]. intros k1 (Hc & Hp & Hidle). cbn zeta.
  pose proof (cleanup_spec k1) as Hk2. set (k2 := cleanup_stale_patch k1) in *. clearbody k2.
  destruct (start_counts_ok rq) eqn:Eco; cbn [negb]; [|by apply post_done, ends_idle; [eapply same_no_pay|eapply same_idle]].
  pose proof (create_payload_spec k2) as Hk3. destruct (create_file k2 STREAM_PAYLOAD_PATH) as [ok k3].
  destruct Hk3 as [Hc3 Hm3]. destruct Hk2 as (Hc2 & Hm2 & Hp2). destruct ok; cbn [negb]; apply post_done.
  - pose proof (begin_ends k3 rq outs Hrq Eco) as Hb. destruct (begin_stream k3 rq). apply Hb.
    by rewrite Hc3, Hc2.
  - apply ends_idle_unconfirmed; [by rewrite Hc3, Hc2|].
    unfold idle, state, stream_of, session, action_data in *. by rewrite Hm3, Hm2.
Qed.

Lemma sweep_start_ends k sk rq outs : start_ok rq →
  post (λ '(_, k'), ends outs k') (key_manager_task_handle_sweep_sign_stream_start (C := C) pubkey_verify k sk rq).
Proof.
  intros Hrq. unfold key_manager_task_handle_sweep_sign_stream_start.
  eapply post_bind; [apply teardown_spec|]. intros k1 (Hc & Hp & Hidle). cbn zeta.
  pose proof (cleanup_spec k1) as Hk2. set (k2 := cleanup_stale_patch k1) in *. clearbody k2.
  destruct (start_counts_ok rq) eqn:Eco; cbn [negb]; [|by apply post_done, ends_idle; [eapply same_no_pay|eapply same_idle]].
  eapply post_bind; [apply load_keyset_spec|]. intros [ks k3] Hk3. fold (same_sessions k2 k3) in Hk3.
  pose proof (same_sessions_trans _ _ _ Hk2 Hk3) as Hk13.
  destruct ks as [keyset|]; [|by apply post_done, ends_idle; [eapply same_no_pay|eapply same_idle]].
  destruct (negb _); [by apply post_done, ends_idle; [eapply same_no_pay|eapply same_idle]|].
  eapply post_bind; [apply init_sweep_spec|]. intros [[st sw] k4] Hk4.
  destruct sw as [sw|]; [|by apply post_done; intros ? ? _ _ _; apply inv_stream_reset].
  pose proof (same_sessions_trans _ _ _ Hk13 Hk4) as (Hc4 & _ & _). cbn zeta.
  set (k5 := put_stream_of k4 _). pose proof (create_payload_spec k5) as Hk6.
  destruct (create_file k5 STREAM_PAYLOAD_PATH) as [ok k6]. destruct Hk6 as [Hc6 _].
  destruct ok; cbn [negb]; apply post_done; [|by intros ? ? _ _ _; apply inv_stream_reset].
  pose proof (begin_ends k6 rq outs Hrq Eco) as Hb. destruct (begin_stream k6 rq). apply Hb.
  by rewrite Hc6, <- Hc, <- Hc4.
Qed.

(** Appending needs the file. *)
Lemma append_spec k path data : own path → let '(_, k') := append_to_file k path data in same_sessions k k'.
Proof.
  intros Ho. unfold append_to_file. destruct (fs_open_global _ _ _) as [r s] eqn:Eo.
  destruct (open_global_spec _ _ _ _ _ Eo) as (Hq & _ & Hat).
  assert (Hs : fpay s = pay k) by (apply Hq; by apply not_eq_sym).
  destruct (Z.eqb_spec r 0) as [Hr|]; cbn [negb]; [|by split_and!].
  destruct (Hat Hr) as (_ & D & _ & _ & Hopen). destruct (fs_file_write s g_file data) as [w s1] eqn:Ew.
  assert (Hpos : 0 ≤ open_start (Z.lor FS_O_WRONLY FS_O_APPEND) D ≤ zlen (open_contents (Z.lor FS_O_WRONLY FS_O_APPEND) D)).
  { change (0 ≤ zlen D ≤ zlen D). zl. }
  destruct (file_write_spec _ _ _ _ _ _ _ Hopen Hpos Ew) as (Hq1 & (pos' & d' & Hopen1) & _).
  destruct (fs_close_global s1) as [r2 s2] eqn:Ec.
  destruct (close_global_spec _ _ _ _ _ _ Hopen1 Ec) as (Hq2 & _). split_and!; [done|done|].
  rewrite <- Hs. unfold pay, km_fs. cbn. unfold fpay. rewrite Hq2 by (by apply not_eq_sym). apply Hq1.
Qed.

Lemma append_missing k data : pay k = None → (append_to_file k STREAM_PAYLOAD_PATH data).1 = None.
Proof.
  intros Hp. unfold append_to_file. destruct (fs_open_global _ _ _) as [r s] eqn:Eo.
  destruct (open_global_spec _ _ _ _ _ Eo) as (_ & _ & Hat).
  destruct (Z.eqb_spec r 0) as [Hr|]; cbn [negb]; [|done]. exfalso.
  destruct (Hat Hr) as (_ & D & [HD|(_ & Hbad & _)] & _); [|done]. unfold pay, fpay in Hp. congruence.
Qed.

Lemma append_payload_spec k data :
  let '(_, k') := append_to_file k STREAM_PAYLOAD_PATH data in km_cm k' = km_cm k ∧ km_mem k' = km_mem k.
Proof.
  unfold append_to_file. destruct (fs_open_global _ _ _) as [r s]. destruct (negb _); [done|].
  destruct (fs_file_write _ _ _) as [w s1]. by destruct (fs_close_global s1).
Qed.
(** Only a stream that nobody has confirmed yet has a payload while it
    receives. *)
Lemma receiving_payload h k : inv h k → state k = STREAM_STATE_RECEIVING → pay k ≠ None →
  stream_ok (stream_of (C := C) k) ∧ ¬ tx_pending (km_cm k)
  ∧ cm_type (km_cm k) ≠ CONFIRMATION_TYPE_SIGN_ACTION_PROOF.
Proof.
  intros [Hna _ Hr _ Ho] Hs Hp. split_and!; [by destruct (Hr Hs)| |by intros Hc; apply Hp, Hna]. intros Hpd.
  destruct (Ho Hpd) as [[? _]|(_ & _ & ? & _)]; [intros []|..]; congruence.
Qed.

Lemma inv_same tk h k : inv h k → tk_after tk = k → no_screen (tk_outs tk) → inv (tk :: h) k.
Proof. intros Hk <- Hq. eapply (inv_keep tk h); [done|by destruct Hk|by auto..]. Qed.

Lemma transfer_inv tk h k seq chunk : inv h k → no_screen (tk_outs tk) →
  tk_after tk = (key_manager_task_handle_sign_stream_transfer (C := C) k seq chunk).2 →
  payload_bytes (key_manager_task_handle_sign_stream_transfer (C := C) k seq chunk).2 →
  inv (tk :: h) (key_manager_task_handle_sign_stream_transfer (C := C) k seq chunk).2.
Proof.
  intros Hk Hq. unfold key_manager_task_handle_sign_stream_transfer. cbn zeta.
  destruct (bool_decide (st_state _ = _)) eqn:Est; cbn [negb]; [|intros Ha _; by apply inv_same]. intros _.
  apply bool_decide_eq_true in Est. fold (state k) in Est.
  destruct (negb _); [intros _; apply inv_stream_reset|]. destruct (_ =? 0); [intros _; apply inv_stream_reset|].
  destruct (_ <? _); [intros _; apply inv_stream_reset|].
  pose proof (append_payload_spec k chunk) as Ha. pose proof (append_missing k chunk) as Hmiss.
  destruct (append_to_file k STREAM_PAYLOAD_PATH chunk) as [[[|]|] k1]; try (intros _; apply inv_stream_reset).
  destruct (crypto_sha256_stream_update _ _) as [ctx|]; [|intros _; apply inv_stream_reset].
  destruct (receiving_payload _ _ Hk Est) as (Hok & Hnp & Hns); [intros Hp; by apply Hmiss in Hp|].
  destruct Ha as [Hc Hm]. cbn [snd]. intros Hb.
  apply inv_unconfirmed; [intros Ht; exfalso; apply Hns; by rewrite <- Hc|done|..].
  - unfold state, stream_of, put_stream_of. cbn [set_mem km_mem]. rewrite law_get_stream. exact Est.
  - left. unfold stream_of, put_stream_of. cbn [set_mem km_mem]. rewrite law_get_stream.
    by destruct Hok.
  - unfold put_stream_of. cbn [set_mem km_cm]. by rewrite Hc.
Qed.

(** ** A streamed transaction is shown *)

Lemma same_pay (s s' : fs_ctx L) : same_files s s' → fpay s' = fpay s.
Proof. intros Hq. apply Hq. Qed.

(** The parts of a payload are determined by it. *)
Lemma request_stream_spec k e : stream_ok (stream_of (C := C) k) → payload_bytes k →
  post (λ '(st, _, d, k'), km_mem k' = km_mem k ∧ pay k' = pay k
          ∧ (st = fwpb_status_SUCCESS → tx_pending (km_cm k') ∧ cm_approved (km_cm k') = false ∧ ∃ D T, pay k = Some D
               ∧ stream_tx D (stream_of k) T
               ∧ ∀ tk r, tk_outs tk = shows d ++ r → tk_after tk = k' → shown tk T))
    (stream_tx_request_confirmation (C := C) k e).
Proof.
  intros Hok Hb. unfold stream_tx_request_confirmation. apply post_eq. intros [ks k1] E1.
  destruct (load_keyset_spec k _ E1) as (Hc1 & Hm1 & Hp1).
  destruct ks as [keyset|]; [|by apply post_done; split_and!].
  assert (Ht : stream_of (C := C) k1 = stream_of k) by (unfold stream_of; by rewrite Hm1). cbn zeta. rewrite Ht.
  set (t := stream_of k) in *.
  assert (HD1 : ∀ D, fpay (km_fs k1) = Some D → bytes_ok D).
  { intros D HD. apply Hb. fold (pay k1) in HD. rewrite Hp1 in HD. exact HD. }
  eapply post_bind; [by apply stream_accounts_spec|]. intros [ok1 s1] [Hq1 _].
  assert (Hf1 : ∀ s, same_files (km_fs k1) s → pay (set_fs k1 s) = pay k).
  { intros s Hs. rewrite <- Hp1. by apply same_pay. }
  destruct ok1; cbn [negb]; [|apply post_done; split_and!; [done|by apply Hf1|done]].
  eapply post_bind; [apply stream_changes_spec; [done|]|].
  { intros D. change (km_fs (set_fs k1 s1)) with s1. rewrite (same_pay _ _ Hq1). apply HD1. }
  intros [ok2 s2] [Hq2 Hch]. change (km_fs (set_fs k1 s1)) with s1 in *.
  change (set_fs (set_fs k1 s1) s2) with (set_fs k1 s2).
  assert (Hq12 : same_files (km_fs k1) s2) by (by eapply same_files_trans).
  destruct ok2; cbn [negb]; [|apply post_done; split_and!; [done|by apply Hf1|done]].
  apply (post_bind (λ '(b, s), same_files (km_fs k1) s ∧ (b = true → sw_active (st_sweep t) = true → ∃ D outs,
    fpay (km_fs k1) = Some D ∧ payload_outputs D (st_num_inputs t) 0 (Z.to_nat (st_num_outputs t)) = Some outs
    ∧ pays_fresh keyset outs))).
  { change (km_fs (set_fs k1 s2)) with s2. destruct (sw_active _); [|by apply post_done].
    eapply post_mono; [apply stream_sweep_spec; [done|]|].
    - intros D. rewrite (same_pay _ _ Hq12). apply HD1.
    - intros [b s] [Hq Hfr]. rewrite (same_pay _ _ Hq12) in Hfr. split; [by eapply same_files_trans|by auto]. }
  intros [ok3 s3] [Hq3 Hfresh]. change (set_fs (set_fs k1 s2) s3) with (set_fs k1 s3).
  destruct ok3; cbn [negb]; [|apply post_done; split_and!; [done|by apply Hf1|done]].
  change (km_fs (set_fs k1 s3)) with s3.
  eapply post_bind; [apply stream_info_spec; [done|]|].
  { intros D. rewrite (same_pay _ _ Hq3). apply HD1. }
  intros [info s4] [Hq4 Hinfo]. change (set_fs (set_fs k1 s3) s4) with (set_fs k1 s4).
  assert (Hq14 : same_files (km_fs k1) s4) by (by eapply same_files_trans).
  destruct info as [info|]; [|apply post_done; split_and!; [done|by apply Hf1|done]].
  destruct (compute_stream_session_commitment_hash _ _) as [sh|];
    [|apply post_done; split_and!; [done|by apply Hf1|done]].
  eapply post_mono; [apply show_spec|]. intros [[[st hs] d] k'] (Hg & Hm & Hsucc & _).
  split_and!; [by rewrite Hm|unfold pay, km_fs in *; rewrite Hg; by apply Hf1|].
  intros (-> & Hpd & Hna)%Hsucc. split_and!; [done|done|].
  destruct (Hinfo info eq_refl) as (D & ins & outs & HD & Hparts & Hsh).
  rewrite (same_pay _ _ Hq3) in HD.
  exists D, (mk_tx ins outs (st_lock_time t) (st_version t)). split_and!; [by rewrite <- Hp1|done|].
  intros tk r Houts Hafter. exists keyset, info, (sw_active (st_sweep t)), (st_btc_display_unit t).
  split_and!; [|done| | |].
  - rewrite Houts. apply elem_of_app. left. by left.
  - exists k, k1. split; [done|]. rewrite Hafter. intros q. unfold km_fs at 1. rewrite Hg. apply Hq14.
  - destruct (Hch eq_refl) as (D' & outs' & HD' & Houts' & Hall). rewrite (same_pay _ _ Hq1), HD in HD'.
    injection HD' as <-. destruct Hparts as [_ Hp2]. rewrite Hp2 in Houts'. by injection Houts' as <-.
  - intros Hsw. destruct (Hfresh eq_refl Hsw) as (D' & outs' & HD' & Houts' & Hfr). rewrite HD in HD'.
    injection HD' as <-. destruct Hparts as [_ Hp2]. rewrite Hp2 in Houts'. injection Houts' as <-.
    exists keyset, k, k1. split_and!; [done| |done]. rewrite Hafter. unfold keyset_file, km_fs at 2. rewrite Hg.
    symmetry. apply Hq14.
Qed.
(** Without a payload there is nothing to hash. *)
Lemma hashes_missing (s : fs_ctx L) t : fpay s = None →
  post (λ '(r, _), r = None) (stream_compute_bip143_hashes (C := C) s t).
Proof.
  intros Hp. eapply post_mono; [apply (with_payload_spec _ _ _ (λ _ _, True))|].
  - intros s1 D HD. congruence.
  - intros [r s'] [_ [?|(D & HD & _)]]; [done|congruence].
Qed.

Lemma stream_of_put k t : stream_of (put_stream_of k t) = t.
Proof. apply law_get_stream. Qed.

Lemma finalize_inv h k e ch : inv h k →
  post (λ '(r, d, k'), ∀ tk : taken, tk_outs tk = shows d ++ [ORsp r] → tk_after tk = k' → payload_bytes k' →
          inv (tk :: h) k')
    (key_manager_task_handle_sign_stream_finalize (C := C) k e ch).
Proof.
  intros Hk. unfold key_manager_task_handle_sign_stream_finalize. cbn zeta.
  assert (Hreset : ∀ st k1, post (λ '(r, d, k'), ∀ tk : taken, tk_outs tk = shows d ++ [ORsp r] →
    tk_after tk = k' → payload_bytes k' → inv (tk :: h) k') (Done (status_only st, None, stream_session_reset (C := C) k1))).
  { intros st k1. apply post_done. intros tk _ _ _. apply inv_stream_reset. }
  destruct (bool_decide (st_state _ = _)) eqn:Est; cbn [negb]; [|apply post_done; intros tk Ho Ha _; apply inv_same; [done|done|rewrite Ho; by repeat constructor]].
  apply bool_decide_eq_true in Est. fold (state k) in Est. destruct (negb _); [apply Hreset|].
  destruct (crypto_sha256_stream_final _) as [hash|]; [|apply Hreset]. destruct (_ || _); [apply Hreset|].
  set (t1 := set_payload_hash (stream_of k) hash). set (k1 := put_stream_of k t1).
  assert (Ht1 : stream_of k1 = t1) by apply stream_of_put. rewrite Ht1.
  change (km_fs k1) with (km_fs k).
  destruct (pay k) as [D|] eqn:Hp; cycle 1.
  { eapply post_bind; [by apply hashes_missing|]. intros [r s] ->. apply Hreset. }
  destruct (receiving_payload _ _ Hk Est) as (Hok & _ & Hns); [by rewrite Hp|].
  assert (HbD : bytes_ok D) by (by eapply inv_bytes).
  eapply post_bind; [apply bip143_hashes_spec; [by destruct Hok|]|].
  { intros D' HD'. fold (pay k) in HD'. congruence. }
  intros [hs s] [Hq Hhs]. destruct hs as [[[hp hq] ho]|]; [|apply Hreset].
  destruct (Hhs hp hq ho eq_refl) as (D' & HD' & Hins & Houts). fold (pay k) in HD'. rewrite Hp in HD'. injection HD' as <-.
  change (stream_of (C := C) (set_fs k1 s)) with (stream_of (C := C) k1). rewrite Ht1.
  set (t2 := set_state _ _). set (k2 := put_stream_of (set_fs k1 s) t2).
  assert (Hp2 : pay k2 = Some D) by (rewrite <- Hp; by apply same_pay).
  assert (Ht2 : stream_of k2 = t2) by apply stream_of_put.
  assert (Hok2 : stream_ok (stream_of (C := C) k2)) by (rewrite Ht2; by destruct Hok).
  eapply post_bind; [apply request_stream_spec; [done|]|].
  { intros d Hd. fold (pay k2) in Hd. change (fs_data (km_fs k2) STREAM_PAYLOAD_PATH) with (pay k2) in Hd. congruence. }
  intros [[[st hs] d] k3] (Hm3 & Hp3 & Hsucc). destruct (bool_decide (st = _)) eqn:Es; [|apply Hreset].
  apply bool_decide_eq_true in Es. destruct (Hsucc Es) as (Hpd & Hna & D' & T & HD' & Htx & Hshown).
  rewrite Hp2 in HD'. injection HD' as <-. apply post_done. intros tk Ho Ha Hb.
  assert (Ht3 : stream_of k3 = t2) by (unfold stream_of in *; by rewrite Hm3).
  assert (Hs3 : state k3 = STREAM_STATE_FINALIZED) by (unfold state; by rewrite Ht3).
  split; [intros Hx; unfold action_pending in Hx; by rewrite Hpd in Hx|done|by rewrite Hs3| |]; cycle 1.
  { intros _ Hn. exfalso. apply Hn. by left. }
  intros _. exists D, T. rewrite Ht3, Hs3. rewrite Ht2 in Htx, Hok2. split_and!; [|done| |done|done|left; congruence].
  - rewrite <- Ha in Hpd, Hna |- *. apply since_new; [by eapply Hshown|done|]. intros [[_ ?]|?]; congruence.
  - destruct Htx as [[Hi Hout] _]. destruct (Hins _ Hi) as [Hhp Hhq]. split_and!; [exact Hhp|exact Hhq|exact (Houts _ Hout)].
Qed.
(** ** Signing *)

(** The digest is the BIP143 hash of an input of the transaction, and the
    signature carries the index of that input. *)
Definition signed_for T (sd : signed_digest) : Prop :=
  ∃ n i, tx_in T !! n = Some i ∧ sig_input_index (sd_signature sd) = Z.of_nat n
    ∧ sighash_type (sd_data sd) = PSBT_SIGHASH_ALL
    ∧ sighash (sd_data sd) = bip143 (C := C) (tx_in T) (tx_out T) (tx_lock T) (tx_version T) i
                               (witness_script (sd_data sd)) PSBT_SIGHASH_ALL.

Lemma sign_input_index (g : signer L E) i :
  post (λ '(_, sg, _), ∀ x, sg = Some x → sig_input_index x = km_input_index i) (sign_p2wsh_input g i).
Proof.
  unfold sign_p2wsh_input. apply post_any. intros [[found n] w]. cbn zeta.
  destruct found as [kp|]; [|by apply post_done]. destruct (negb _); [by apply post_done|].
  apply post_any. intros path. apply post_any. intros [[r sig] g']. destruct (negb _); [by apply post_done|].
  destruct (psbt_compact_sig_to_der _ _) as [err der]. destruct (negb _); [by apply post_done|].
  destruct (_ <? _); [by apply post_done|]. apply post_done. by intros x [= <-].
Qed.

Lemma sign_one_spec (g : signer L E) idx d :
  post (λ '(_, sd, g'), gpay g' = gpay g ∧ ∀ x, sd = Some x → sd_data x = d ∧ sig_input_index (sd_signature x) = idx)
    (sign_one g idx d).
Proof.
  unfold sign_one. apply post_eq. intros [[r sigs] g'] Es.
  assert (Hg : gpay g' = gpay g) by (by apply (sign_inputs_frame g _ _ _ eq_refl _ Es)).
  destruct sigs as [|x [|]]; [by apply post_done| |by apply post_done].
  destruct (bool_decide _); apply post_done; (split; [done|]); [|done]. intros ? [= <-]. split; [done|]. cbn.
  unfold key_manager_psbt_sign_p2wsh_inputs in Es. destruct (_ =? 0); [done|]. destruct (_ <? _); [done|].
  cbn [sign_p2wsh_loop] in Es. apply obind_inv in Es as ([[r1 s1] g1] & E1 & Es). destruct s1 as [x1|]; [|done].
  injection Es as _ <- _. by apply (sign_input_index g _ _ E1).
Qed.

Lemma signing_data_spec T idx pks : tx_ok T →
  post (λ '(_, r), ∀ d, r = Some d → ∃ n i, idx = Z.of_nat n ∧ tx_in T !! n = Some i
      ∧ sighash_type d = PSBT_SIGHASH_ALL
      ∧ sighash d = bip143 (C := C) (tx_in T) (tx_out T) (tx_lock T) (tx_version T) i (witness_script d) PSBT_SIGHASH_ALL)
    (raw_tx_p2wsh_input_signing_data (C := C) (tx_in T) (tx_out T) (tx_lock T) (tx_version T) idx pks).
Proof.
  intros [Hin Hout Hl Hv _ _]. unfold raw_tx_p2wsh_input_signing_data. destruct (_ || _); [by apply post_done|].
  apply post_eq. intros i Ei. apply post_any. intros kps. destruct (witness_script_of pks) as [script|]; [|by apply post_done].
  eapply post_bind; [by apply post_safe, sighash_spec|]. intros [hash|] Hh; [|by apply post_done]. apply post_done.
  intros d [= <-]. unfold aget in Ei. destruct (Z.leb_spec 0 idx); [|done].
  destruct (tx_in T !! Z.to_nat idx) as [i'|] eqn:El; [|done]. injection Ei as ->.
  exists (Z.to_nat idx), i. split_and!; [lia|done|done|by apply Hh].
Qed.

Lemma precomputed_data_spec T t i pks : tx_ok T → stream_hashes t T → input_ok i →
  tx_lock T = st_lock_time t → tx_version T = st_version t →
  post (λ '(_, r), ∀ d, r = Some d → sighash_type d = PSBT_SIGHASH_ALL
      ∧ sighash d = bip143 (C := C) (tx_in T) (tx_out T) (tx_lock T) (tx_version T) i (witness_script d) PSBT_SIGHASH_ALL)
    (raw_tx_p2wsh_input_signing_data_precomputed (C := C) (st_hash_prevouts t) (st_hash_sequence t)
       (st_hash_outputs t) (st_lock_time t) (st_version t) i pks).
Proof.
  intros [_ _ Hl Hv _ _] (-> & -> & ->) Hi <- <-. unfold raw_tx_p2wsh_input_signing_data_precomputed.
  apply post_any. intros kps. destruct (witness_script_of pks) as [script|]; [|by apply post_done].
  eapply post_bind; [apply post_safe, precomputed_spec; try done; apply zlen_hash256|].
  intros [hash|] Hh; [|by apply post_done]. apply post_done. intros d [= <-]. split; [done|by apply Hh].
Qed.

Lemma sign_raw_inputs_spec s keyset todo : ∀ (g : signer L E) idx sds D, tx_ok (session_tx s) → gpay g = D →
  Forall (signed_for (session_tx s)) sds →
  post (λ '(_, sds', g'), gpay g' = D ∧ Forall (signed_for (session_tx s)) sds')
    (sign_raw_inputs (C := C) g s keyset idx todo sds).
Proof.
  induction todo as [|i todo IH]; intros g idx sds D Hok Hg Hs; cbn [sign_raw_inputs]; [by apply post_done|].
  apply post_any. intros [| |pks]; [by apply post_done|by apply post_done|].
  eapply post_bind; [by apply (signing_data_spec (session_tx s) idx pks)|]. intros [err d] Hd.
  destruct d as [d|]; [|by apply post_done]. destruct (negb _); [by apply post_done|].
  eapply post_bind; [apply sign_one_spec|]. intros [[r sd] g'] [Hg' Hsd].
  destruct sd as [sd|]; [|by apply post_done; split; [congruence|]].
  apply IH; [done|congruence|]. apply Forall_app. split; [done|]. constructor; [|done].
  destruct (Hsd sd eq_refl) as [<- Hidx]. destruct (Hd _ eq_refl) as (n & x & -> & Hn & Ht & Hh).
  by exists n, x.
Qed.

(** What is signed was shown before, and approved since. *)
Definition tx_approved h T : Prop := seen_and_approved (λ tk, shown tk T) CONFIRMATION_TYPE_SIGN_TRANSACTION h.

Definition justified h (sd : signed_digest) : Prop :=
  ∃ T, tx_approved h T ∧ signed_for T sd.

(** The one-shot session is written back with its signatures and result. *)
Lemma one_link_put h k k' s : one_link h k → session_tx s = session_tx (session k) → ss_active s = true →
  km_cm k' = km_cm k → km_mem k' = put_signing (km_mem k) s → pay k' = None → one_link h k'.
Proof.
  intros (Hsn & Hok & Hp & Hst) Hs Ha Hc Hm Hp'. unfold one_link, state, stream_of, session in *.
  rewrite Hc, Hm, law_get_signing, law_signing_state, Hs, Ha. done.
Qed.

Lemma one_link_inv h k : tx_pending (km_cm k) → one_link h k → inv h k.
Proof.
  intros Hpd Hl. pose proof Hl as (_ & _ & Hp & Hst). split; [intros Hx; unfold action_pending in Hx; by rewrite Hpd in Hx|by apply no_payload|by right|intros []; congruence|by right].
Qed.

Lemma sign_raw_spec h k : one_link h k → ss_active (session k) = true →
  post (λ '(_, sds, k'), one_link h k' ∧ ss_active (session k') = true ∧ km_cm k' = km_cm k
      ∧ Forall (signed_for (session_tx (session k))) sds) (sign_raw_tx_with_hw_key (C := C) k).
Proof.
  intros Hl Ha. unfold sign_raw_tx_with_hw_key. eapply post_bind; [apply load_keyset_spec|]. intros [ks k1] (Hc & Hm & Hp).
  assert (Hs1 : session k1 = session k) by (unfold session; by rewrite Hm).
  assert (Hl1 : one_link h k1).
  { unfold one_link, state, stream_of, session in *. by rewrite Hc, Hm, Hp. }
  assert (Hret : one_link h k1 ∧ ss_active (session k1) = true ∧ km_cm k1 = km_cm k
    ∧ Forall (signed_for (session_tx (session k))) []) by (by rewrite Hs1).
  destruct ks as [keyset|]; [|by apply post_done]. destruct (negb _); [by apply post_done|]. cbn zeta.
  fold (session k1). apply post_any. intros ok. destruct (negb ok); [by apply post_done|].
  pose proof Hl1 as (_ & Hok & Hpn & _). eapply post_bind; [by apply sign_raw_inputs_spec|].
  intros [[st sds] g] [Hg Hsds]. apply post_done. cbn [set_signer km_mem].
  set (s' := set_signatures _ _). assert (Hs' : session_tx s' = session_tx (session k1)) by done.
  split_and!; [|unfold session; cbn; rewrite law_get_signing; cbn; by rewrite Hs1|done|by rewrite <- Hs1].
  eapply (one_link_put h k1); [done|exact Hs'|cbn; by rewrite Hs1|done|done|].
  unfold pay, km_fs. cbn. unfold gpay, wpay, kpay in Hg. by rewrite Hg.
Qed.
Lemma set_result_link h k r : one_link h k → ss_active (session k) = true →
  one_link h (set_result (C := C) k r).
Proof.
  intros Hl Ha. pose proof Hl as (_ & _ & Hp & _). by eapply (one_link_put h k _ (set_sign_result (session k) r)).
Qed.

(** The one-shot part of the message after an approval. *)
Lemma deferred_sign_inv h k : inv h k →
  post (λ '(sds, k'), inv h k' ∧ km_cm k' = km_cm k ∧ Forall (justified h) sds)
    (key_manager_task_try_deferred_sign (C := C) k).
Proof.
  intros Hk. unfold key_manager_task_try_deferred_sign. cbn zeta.
  change (st_state (get_stream (C := C) (km_mem k))) with (state k). fold (session k).
  destruct (bool_decide _ || bool_decide _) eqn:Est; [by apply post_done|].
  apply orb_false_iff in Est as [E1%bool_decide_eq_false E2%bool_decide_eq_false].
  destruct (ss_active (session k)) eqn:Ha; cbn [negb orb]; [|by apply post_done].
  destruct (_ <? _); [by apply post_done|].
  eapply post_bind; [apply get_type_spec|]. intros type ->.
  destruct (Z.eqb_spec (cm_type (km_cm k)) CONFIRMATION_TYPE_SIGN_TRANSACTION) as [Hpd|]; cbn [negb]; [|by apply post_done].
  eapply post_bind; [apply is_approved_spec|]. intros ap ->.
  destruct (cm_approved (km_cm k)) eqn:Hap; cbn [negb]; [|by apply post_done].
  assert (Hl : one_link h k).
  { destruct (inv_one _ _ Hk Hpd) as [[_ ?]|?]; [by intros []|congruence|done]. }
  assert (Hres : ∀ r, inv h (set_result (C := C) k r)) by (intros r; apply one_link_inv; [exact Hpd|by apply set_result_link]).
  apply post_any. intros [d|]; [|by apply post_done]. apply post_any. intros [sh|]; [|by apply post_done].
  apply post_any. intros diff. destruct (negb _); [by apply post_done|].
  eapply post_bind; [by apply (sign_raw_spec h)|]. intros [[st sds] k1] (Hl1 & Ha1 & Hc1 & Hs). apply post_done.
  split_and!; [apply one_link_inv; [cbn; by rewrite Hc1|by apply set_result_link]|done|].
  eapply Forall_impl; [exact Hs|]. intros sd Hsd. exists (session_tx (session k)). split; [|done].
  destruct Hl as (Hsn & _). by eapply since_approved.
Qed.

(** ** Signing a stream *)

(** What a stream that awaits its signatures keeps while it is signed: the
    transaction and its hashes. *)
Record stream_kept k k' : Prop := {
  sk_cm : km_cm k' = km_cm k;
  sk_pay : pay k' = pay k;
  sk_state : state k' = state k;
  sk_shape : st_num_inputs (stream_of (C := C) k') = st_num_inputs (stream_of (C := C) k)
    ∧ st_num_outputs (stream_of (C := C) k') = st_num_outputs (stream_of (C := C) k)
    ∧ st_version (stream_of (C := C) k') = st_version (stream_of (C := C) k)
    ∧ st_lock_time (stream_of (C := C) k') = st_lock_time (stream_of (C := C) k);
  sk_hashes : st_hash_prevouts (stream_of (C := C) k') = st_hash_prevouts (stream_of (C := C) k)
    ∧ st_hash_sequence (stream_of (C := C) k') = st_hash_sequence (stream_of (C := C) k)
    ∧ st_hash_outputs (stream_of (C := C) k') = st_hash_outputs (stream_of (C := C) k);
}.

Lemma km_kept_refl k : stream_kept k k.
Proof. by split. Qed.

Lemma kept_trans k1 k2 k3 : stream_kept k1 k2 → stream_kept k2 k3 → stream_kept k1 k3.
Proof.
  intros [A1 A2 A3 (A4 & A5 & A6 & A7) (A8 & A9 & A10)] [B1 B2 B3 (B4 & B5 & B6 & B7) (B8 & B9 & B10)].
  split; [congruence..| |]; split_and!; congruence.
Qed.

Lemma km_same_kept k k' : same_sessions k k' → stream_kept k k'.
Proof.
  intros (Hc & Hm & Hp). assert (Ht : stream_of (C := C) k' = stream_of k) by (unfold stream_of; by rewrite Hm).
  split; unfold state; rewrite ?Ht; done.
Qed.

Lemma kept_precompute k n done failed : stream_kept k (put_stream_of k (set_precompute (stream_of (C := C) k) n done failed)).
Proof. split; unfold state; rewrite ?stream_of_put; done. Qed.

(** The facts about a stream that signing relies on. *)
Record signable k T : Prop := {
  sg_ok : tx_ok T;
  sg_stream : stream_ok (stream_of (C := C) k);
  sg_hashes : stream_hashes (stream_of k) T;
  sg_fields : tx_lock T = st_lock_time (stream_of (C := C) k) ∧ tx_version T = st_version (stream_of (C := C) k);
  sg_inputs : ∀ D i x, pay k = Some D → 0 ≤ i < st_num_inputs (stream_of (C := C) k) →
    payload_input D i = Some x → tx_in T !! Z.to_nat i = Some x;
}.

Lemma signable_kept k k' T : stream_kept k k' → signable k T → signable k' T.
Proof.
  intros [A1 A2 A3 (A4 & A5 & A6 & A7) (A8 & A9 & A10)] [Hok [S1 S2 S3 S4] (H1' & H2' & H3') (F1 & F2) Hi].
  split; [done|split; congruence|split_and!; congruence|split; congruence|].
  intros D i x. rewrite A2, A4. apply Hi.
Qed.

Lemma link_signable h k : stream_link h k → ∃ T, signable k T
  ∧ tx_since h T (km_cm k) (tx_pending (km_cm k) ∧ cm_approved (km_cm k) = true ∨ state k = STREAM_STATE_CONFIRMED).
Proof.
  intros (D & T & Hsn & ([Hin Hout] & Hlk & Hvr) & Hh & Hok & HbD & Hp). exists T. split; [|done].
  pose proof Hok as [Hni Hno Hv Hl].
  assert (Hli : zlen (tx_in T) = st_num_inputs (stream_of (C := C) k)).
  { unfold zlen. rewrite (payload_inputs_length _ _ _ _ Hin). lia. }
  assert (Hlo : zlen (tx_out T) = st_num_outputs (stream_of (C := C) k)).
  { unfold zlen. rewrite (payload_outputs_length _ _ _ _ _ Hout). lia. }
  unfold STREAM_TX_MAX_INPUTS, STREAM_TX_MAX_OUTPUTS in *. split; [|done|done|done|].
  - split; [by eapply payload_inputs_ok| |congruence|congruence|..].
    + eapply (payload_outputs_ok D (st_num_inputs (stream_of (C := C) k))); [done|lia| |exact Hout]. done.
    + rewrite Hli. unfold u32_ok. lia.
    + rewrite Hlo. unfold u32_ok. lia.
  - intros D' i x HD' Hi Hx. destruct Hp as [Hp|Hp]; [|congruence]. rewrite Hp in HD'. injection HD' as <-.
    destruct (payload_inputs_lookup D _ 0 (tx_in T) (Z.to_nat i) Hin) as [E1 _]; [lia|].
    rewrite Z2Nat.id, Z.add_0_l in E1 by lia. congruence.
Qed.

Lemma kept_link h k k' : stream_kept k k' → stream_link h k → stream_link h k'.
Proof.
  intros [A1 A2 A3 (A4 & A5 & A6 & A7) (A8 & A9 & A10)]
    (D & T & Hsn & ([Hin Hout] & Hlk & Hvr) & (H1' & H2' & H3') & [S1 S2 S3 S4] & HbD & Hp).
  exists D, T. rewrite A1, A3, A2. split_and!; [done|split_and!|split_and!|split|done|done]; try congruence.
  split; congruence.
Qed.

Lemma kept_inv h k k' : inv h k → awaiting k → tx_pending (km_cm k) → stream_kept k k' → inv h k'.
Proof.
  intros [Hna Hb _ Hs _] Haw Hpd Hk. pose proof Hk as [Hc Hp Hst _ _].
  split; [intros Hx; unfold action_pending in Hx; rewrite Hc, Hpd in Hx; done| |by destruct Haw; rewrite Hst; congruence|intros _; by eapply kept_link, Hs|].
  - intros d Hd. apply Hb. unfold pay, fpay in Hp. by rewrite <- Hp.
  - intros _ Hn. exfalso. apply Hn. unfold awaiting in *. by rewrite Hst.
Qed.
Lemma set_fs_same k s : same_files (km_fs k) s → same_sessions k (set_fs k s).
Proof. intros Hq. split_and!; [done|done|by apply same_pay]. Qed.

(** The result of signing one input. *)
Definition signs_only T (r : input_result) : Prop := ∀ sd, r = input_signed sd → signed_for T sd.

Lemma sign_parsed_spec k keyset idx i T : signable k T → 0 ≤ idx → tx_in T !! Z.to_nat idx = Some i →
  post (λ '(r, k'), same_sessions k k' ∧ signs_only T r) (sign_parsed_input (C := C) k keyset idx i).
Proof.
  intros [Hok Hst Hh (Hl & Hv) _] Hidx Hi. unfold sign_parsed_input. cbn zeta. apply post_any. intros acct.
  destruct (negb _); [by apply post_done|]. apply post_any. intros [| |pks]; [by apply post_done..|].
  assert (Hio : input_ok i). { destruct Hok as [Hin _ _ _ _ _]. by apply (Forall_lookup_1 _ _ _ _ Hin Hi). }
  eapply post_bind; [by apply (precomputed_data_spec T (stream_of k) i pks)|]. intros [err d] Hd.
  destruct d as [d|]; [|by apply post_done]. destruct (negb _); [by apply post_done|].
  eapply post_bind; [apply sign_one_spec|]. intros [[r sd] g] [Hg Hsd].
  assert (Hk : same_sessions k (set_signer k g)) by (by split_and!).
  destruct sd as [sd|]; apply post_done; (split; [done|]); [|done]. intros ? [= <-].
  destruct (Hsd sd eq_refl) as [<- Hx]. destruct (Hd _ eq_refl) as [Ht Hsh].
  exists (Z.to_nat idx), i. split_and!; [done|lia|done|done].
Qed.

Lemma sign_stream_input_spec k keyset idx T : signable k T → 0 ≤ idx →
  post (λ '(r, k'), same_sessions k k' ∧ signs_only T r) (sign_stream_input (C := C) k keyset idx).
Proof.
  intros Hs Hidx. pose proof Hs as [_ Hst _ _ Hin]. unfold sign_stream_input.
  eapply post_bind; [by apply parse_input_closed|]. intros [i s] [Hq Hi]. cbn zeta.
  pose proof (set_fs_same k s Hq) as Hk. destruct i as [i|]; [|by apply post_done].
  destruct (Hi i eq_refl) as (D & HD & Hx & Hlt).
  eapply post_mono; [apply (sign_parsed_spec _ _ _ _ T); [by eapply signable_kept, Hs; apply km_same_kept|done|]|].
  - eapply Hin; [exact HD| |exact Hx]. lia.
  - intros [r k'] [Hk' Hr]. split; [by eapply same_sessions_trans|done].
Qed.

Lemma abandon_kept k : stream_kept k (precompute_abandon (C := C) k).
Proof.
  unfold precompute_abandon, precompute_failed. cbn zeta.
  set (k1 := put_stream_of k _).
  assert (Hk1 : stream_kept k k1) by apply kept_precompute.
  destruct (fs_remove (km_fs k1) STREAM_SIGS_PATH) as [r s] eqn:Er.
  assert (Hs : same_sessions k1 (set_fs k1 s)).
  { split_and!; [done|done|]. unfold pay, km_fs at 1. cbn. change s with (r, s).2. rewrite <- Er. by apply remove_frame. }
  eapply kept_trans; [exact Hk1|]. eapply kept_trans; [by apply km_same_kept|]. apply kept_precompute.
Qed.

Lemma precompute_loop_spec T n : ∀ k keyset i sds, signable k T → 0 ≤ i → Forall (signed_for T) sds →
  post (λ '(sds', k'), stream_kept k k' ∧ Forall (signed_for T) sds') (precompute_loop (C := C) n k keyset i sds).
Proof.
  induction n as [|n IH]; intros k keyset i sds Hs Hi Hsds; cbn [precompute_loop].
  { apply post_done. split; [apply kept_precompute|done]. }
  eapply post_bind; [by apply (sign_stream_input_spec _ _ _ T)|]. intros [r k1] [Hk1 Hr].
  assert (Hfail : stream_kept k (precompute_abandon (C := C) k1)).
  { eapply kept_trans; [by apply km_same_kept|apply abandon_kept]. }
  destruct r as [| | | | | |sd]; try (by apply post_done). specialize (Hr sd eq_refl).
  assert (Hall : Forall (signed_for T) (sds ++ [sd])) by (apply Forall_app; by split; [|constructor]).
  apply post_any. intros rec. pose proof (append_spec k1 STREAM_SIGS_PATH rec ltac:(discriminate)) as Hap.
  destruct (append_to_file k1 STREAM_SIGS_PATH rec) as [ok k2].
  assert (Hk2 : stream_kept k k2) by (eapply kept_trans; [by apply km_same_kept|by apply km_same_kept]).
  assert (Hfail2 : stream_kept k (precompute_abandon (C := C) k2)) by (eapply kept_trans; [done|apply abandon_kept]).
  destruct ok as [[|]|]; try (by apply post_done). cbn zeta. set (k3 := put_stream_of k2 _).
  assert (Hk3 : stream_kept k k3) by (eapply kept_trans; [exact Hk2|apply kept_precompute]).
  eapply post_mono; [apply IH; [by eapply signable_kept|lia|done]|]. intros [sds' k'] [Hk' Hf].
  split; [by eapply kept_trans|done].
Qed.

Lemma precompute_spec k T : signable k T →
  post (λ '(sds, k'), stream_kept k k' ∧ Forall (signed_for T) sds) (stream_precompute_signatures (C := C) k).
Proof.
  intros Hs. unfold stream_precompute_signatures.
  pose proof (create_file_spec k STREAM_SIGS_PATH ltac:(discriminate)) as Hk1.
  destruct (create_file k STREAM_SIGS_PATH) as [ok k1]. apply km_same_kept in Hk1.
  assert (Hf : ∀ k2, stream_kept k k2 → stream_kept k (precompute_failed (C := C) k2)).
  { intros k2 Hk2. eapply kept_trans; [exact Hk2|apply kept_precompute]. }
  destruct ok; cbn [negb]; [|apply post_done; by split; [apply Hf|]].
  eapply post_bind; [apply load_keyset_spec|]. intros [ks k2] Hk2. fold (same_sessions k1 k2) in Hk2.
  assert (Hk02 : stream_kept k k2) by (eapply kept_trans; [done|by apply km_same_kept]).
  destruct ks as [keyset|]; [|apply post_done; by split; [apply Hf|]].
  destruct (negb _); [apply post_done; by split; [apply Hf|]|].
  eapply post_mono; [apply precompute_loop_spec; [by eapply signable_kept|done|done]|].
  intros [sds k'] [Hk' Hsds]. split; [by eapply kept_trans|done].
Qed.

(** Checking the commitment reads the payload. *)
Lemma commitment_matches_spec k d :
  post (λ '(_, k'), same_sessions k k') (stream_commitment_matches (C := C) k d).
Proof.
  unfold stream_commitment_matches. pose proof (recompute_spec (C := C) (km_fs k)) as Hr.
  destruct (recompute_payload_hash_from_flash (km_fs k)) as [ph s]. destruct Hr as [Hq _]. cbn zeta.
  pose proof (set_fs_same k s Hq) as Hk. destruct ph as [ph|]; [|by apply post_done].
  destruct (compute_stream_session_commitment_hash _ _) as [sh|]; [|by apply post_done].
  apply post_any. intros diff. by apply post_done.
Qed.

Lemma abandon_stream_inv h k : post (inv h) (abandon_stream (C := C) k).
Proof. unfold abandon_stream. apply post_any. intros k1. apply post_done, inv_stream_reset. Qed.

Lemma same_inv h k k' : inv h k → same_sessions k k' → inv h k'.
Proof.
  intros [Hna Hb Hr Hs Ho] (Hc & Hm & Hp).
  assert (Hb' : payload_bytes k') by (intros d Hd; apply Hb; unfold pay, fpay in Hp; by rewrite <- Hp).
  split; unfold action_ok, action_pending, action_data, awaiting, stream_link, one_link, state, stream_of, session in *;
    rewrite ?Hc, ?Hm, ?Hp; done.
Qed.

Lemma deferred_stream_inv h k : inv h k →
  post (λ '(sds, k'), inv h k' ∧ Forall (justified h) sds) (key_manager_task_try_deferred_stream_sign (C := C) k).
Proof.
  intros Hk. unfold key_manager_task_try_deferred_stream_sign. change (st_state (stream_of (C := C) k)) with (state k).
  destruct (bool_decide (state k = _)) eqn:Est; cbn [negb]; [|by apply post_done]. apply bool_decide_eq_true in Est.
  eapply post_bind; [apply get_type_spec|]. intros type ->.
  destruct (Z.eqb_spec (cm_type (km_cm k)) CONFIRMATION_TYPE_SIGN_TRANSACTION) as [Hpd|]; cbn [negb]; [|by apply post_done].
  eapply post_bind; [apply is_approved_spec|]. intros ap ->.
  destruct (cm_approved (km_cm k)) eqn:Hap; cbn [negb]; [|by apply post_done].
  assert (Hab : ∀ k1, post (λ '(sds, k'), inv h k' ∧ Forall (justified h) sds)
    (let! k := abandon_stream (C := C) k1 in Done ([], k))).
  { intros k1. eapply post_bind; [apply (abandon_stream_inv h)|]. intros k2 Hk2. by apply post_done. }
  apply post_any. intros [d|]; [|apply Hab].
  eapply post_bind; [apply commitment_matches_spec|]. intros [same k1] Hk1.
  destruct same as [[|]|]; [|apply Hab..]. cbn zeta.
  pose proof (same_inv _ _ _ Hk Hk1) as Hi1.
  assert (Est1 : state k1 = STREAM_STATE_FINALIZED) by (rewrite <- Est; apply km_same_kept; done).
  assert (Hc1 : km_cm k1 = km_cm k) by (by destruct Hk1).
  destruct (inv_stream _ _ Hi1) as (D & T & Hsn & Htx & Hh & Hok & HbD & Hp); [by left|].
  set (k2 := put_stream_of k1 _).
  assert (Ht2 : stream_of k2 = set_state (stream_of k1) STREAM_STATE_CONFIRMED) by apply stream_of_put.
  assert (Hl2 : stream_link h k2).
  { exists D, T. rewrite Ht2. split_and!; [|done|done| |done|done].
    - eapply since_mono; [exact Hsn|]. intros _. left. by rewrite Hc1.
    - by destruct Hok. }
  assert (Haw : awaiting k2) by (right; unfold state; by rewrite Ht2).
  assert (Hi2 : inv h k2).
  { split; [intros Hx; unfold action_pending in Hx; cbn in Hx; rewrite Hc1, Hpd in Hx; done|exact (inv_bytes _ _ Hi1)|destruct Haw; congruence|done|by intros _ []]. }
  destruct (link_signable _ _ Hl2) as (T2 & Hs2 & Hsn').
  eapply post_mono; [by apply precompute_spec|]. intros [sds k'] [Hk' Hsds]. split; [eapply kept_inv; [done|done|cbn; by rewrite Hc1|done]|].
  eapply Forall_impl; [exact Hsds|]. intros sd Hsd. exists T2. split; [|done].
  eapply since_approved; [exact Hsn'|]. right. unfold state. by rewrite Ht2.
Qed.
End SignInv.
