(* ===== verification/SignSafe.v ===== *)
(** * Every signature was shown and approved

    The steps that sign or end a session keep the invariant of SignInv, so that
    in every run every signed digest belongs to a transaction that the screen
    showed before and that the user approved after that. *)

From S2P Require Import Prelude Sha256 Wstring Fs Wkek Confirmation Bip32 WalletKeys WalletAddr FwDelta Psbt PsbtSpec SignKey SignSession SignFrame SignTx SignStream SignPayload SignFlow Sap SignMachine SignInv.

Section SignSafe.
Context {L E C M : Type} `{Littlefs L} `{SecureElement E} `{Secp} `{Ecdsa} `{Ew} `{Sha256 C}
  `{SessionUnion C M}.
Context `{!LittlefsLaws L} `{!LittlefsRemoves L} `{!Sha256Laws C} `{!SessionUnionLaws C M}.
Context (pubkey_verify : list Z → bool).

Abbreviation km := (km L E M).
Abbreviation taken := (taken (L := L) (E := E) (M := M)).
Abbreviation inv := (inv (C := C)).
Abbreviation state := (state (C := C)).
Abbreviation justified := (justified (C := C)).
Abbreviation action_since h d := (since (λ tk, action_shown tk d) CONFIRMATION_TYPE_SIGN_ACTION_PROOF h).
Implicit Types (k : km) (h : list taken) (T : tx) (t : stream_signing_session_t C).

(** ** Fetching signatures *)

(** A file other than the payload is open, and the payload holds [P]. *)
Definition aside (P : option (list Z)) (s : fs_ctx L) : Prop :=
  fpay s = P ∧ ∃ f pos D, own f ∧ 0 ≤ pos ∧ fs_open_at s f pos D.

Lemma open_sigs k flags r s : fs_open_global (km_fs k) STREAM_SIGS_PATH flags = (r, s) →
  fpay s = pay k ∧ (r = 0 → aside (pay k) s).
Proof.
  intros Eo. destruct (open_global_spec _ _ _ _ _ Eo) as (Hq & _ & Hat).
  assert (Hs : fpay s = pay k) by (by apply Hq). split; [done|]. intros Hr. split; [done|].
  destruct (Hat Hr) as (_ & D & _ & _ & Hopen).
  exists STREAM_SIGS_PATH, (open_start flags D), (open_contents flags D).
  split_and!; [discriminate| |done]. unfold open_start. destruct (has_flag flags FS_O_APPEND); [apply zlen_nonneg|done].
Qed.

Lemma aside_seek P (s : fs_ctx L) off r s' : aside P s → 0 ≤ off → fs_file_seek s g_file off FS_SEEK_SET = (r, s') →
  fpay s' = P ∧ (∃ f pos D, own f ∧ fs_open_at s' f pos D) ∧ (0 ≤ r → aside P s').
Proof.
  intros (Hp & f & pos & D & Hf & _ & Ho) Hoff Es.
  destruct (file_seek_spec _ _ _ _ _ _ _ Ho Es) as (Hq & pos' & Ho' & Hpos).
  assert (Hp' : fpay s' = P) by (unfold fpay; by rewrite Hq). split_and!; [done|by exists f, pos', D|].
  intros Hr. split; [done|]. exists f, pos', D. split_and!; [done|by rewrite (Hpos Hr)|done].
Qed.

Lemma aside_read P (s : fs_ctx L) n r bs s' : aside P s → 0 ≤ n → fs_file_read s g_file n = (r, bs, s') → aside P s'.
Proof.
  intros (Hp & f & pos & D & Hf & Hpos & Ho) Hn Er.
  destruct (file_read_spec _ _ _ _ _ _ _ _ Ho Hn Hpos Er) as (Hq & Ho' & _).
  split; [unfold fpay; by rewrite Hq|]. exists f, (pos + zlen bs), D. split_and!; [done|zl|done].
Qed.

Lemma aside_close P (s : fs_ctx L) : fpay s = P → (∃ f pos D, own f ∧ fs_open_at s f pos D) →
  fpay (fs_close_global s).2 = P.
Proof.
  intros Hp (f & pos & D & Hf & Ho). destruct (fs_close_global s) as [r s'] eqn:Ec.
  destruct (close_global_spec _ _ _ _ _ _ Ho Ec) as (Hq & _). cbn. rewrite <- Hp. apply Hq. by apply not_eq_sym.
Qed.

Lemma aside_open P (s : fs_ctx L) : aside P s → ∃ f pos D, own f ∧ fs_open_at s f pos D.
Proof. intros (_ & f & pos & D & ? & _ & ?). by exists f, pos, D. Qed.

Lemma set_fs_pay k s : fpay s = pay k → same_sessions k (set_fs k s).
Proof. by intros Hs; split_and!. Qed.

Lemma small_offset start : 0 ≤ start < STREAM_TX_MAX_INPUTS → i32 (u32 (start * SIG_RECORD_SIZE)) = start * SIG_RECORD_SIZE
  ∧ i32 (start * SIG_RECORD_SIZE) = start * SIG_RECORD_SIZE.
Proof.
  unfold STREAM_TX_MAX_INPUTS, SIG_RECORD_SIZE, i32. intros. rewrite !(u32_small (start * (33 + 1 + 73))) by lia. by zdecide.
Qed.

Lemma cached_signature_same k idx : 0 ≤ idx < STREAM_TX_MAX_INPUTS →
  post (λ '(_, k'), same_sessions k k') (cached_signature k idx).
Proof.
  intros Hidx. unfold cached_signature. destruct (fs_open_global _ _ _) as [r s] eqn:Eo.
  destruct (open_sigs _ _ _ _ Eo) as [Hs Has].
  destruct (Z.eqb_spec r 0) as [Hr|]; cbn [negb]; [|apply post_done; by apply set_fs_pay].
  specialize (Has Hr). unfold flash_read_at_f. rewrite (proj1 (small_offset idx Hidx)).
  assert (Hoff : 0 ≤ idx * SIG_RECORD_SIZE) by (unfold SIG_RECORD_SIZE; lia).
  destruct (fs_file_seek s g_file _ FS_SEEK_SET) as [r1 s1] eqn:Es.
  destruct (aside_seek _ _ _ _ _ Has Hoff Es) as (Hp1 & Ho1 & Ha1).
  destruct (Z.ltb_spec r1 0) as [|Hr1].
  { pose proof (aside_close _ _ Hp1 Ho1) as Hc. destruct (fs_close_global s1). apply post_done. by apply set_fs_pay. }
  specialize (Ha1 Hr1). destruct (fs_file_read s1 g_file SIG_RECORD_SIZE) as [[r2 bs] s2] eqn:Er2.
  pose proof (aside_read _ _ SIG_RECORD_SIZE _ _ _ Ha1 ltac:(done) Er2) as Ha2.
  pose proof (aside_close _ _ (proj1 Ha2) (aside_open _ _ Ha2)) as Hc. destruct (fs_close_global s2) as [r3 s3].
  destruct (r2 =? SIG_RECORD_SIZE); [apply post_any; intros sig|]; apply post_done; by apply set_fs_pay.
Qed.

Lemma read_records_aside P n : ∀ (s : fs_ctx L) acc, aside P s →
  post (λ '(_, s'), aside P s') (read_records n s acc).
Proof.
  induction n as [|n IH]; intros s acc Hs; cbn [read_records]; [by apply post_done|].
  destruct (fs_file_read s g_file SIG_RECORD_SIZE) as [[r rec] s1] eqn:Er.
  pose proof (aside_read _ _ SIG_RECORD_SIZE _ _ _ Hs ltac:(done) Er) as Hs1. destruct (negb _); [by apply post_done|].
  apply post_any. intros [sig|]; [by apply IH|by apply post_done].
Qed.

Lemma cached_batch_same k start count : 0 ≤ start < STREAM_TX_MAX_INPUTS →
  post (λ '(_, k'), same_sessions k k') (cached_batch k start count).
Proof.
  intros Hst. unfold cached_batch. destruct (fs_open_global _ _ _) as [r s] eqn:Eo.
  destruct (open_sigs _ _ _ _ Eo) as [Hs Has].
  destruct (Z.eqb_spec r 0) as [Hr|]; cbn [negb]; [|apply post_done; by apply set_fs_pay].
  specialize (Has Hr). rewrite (proj2 (small_offset start Hst)).
  assert (Hoff : 0 ≤ start * SIG_RECORD_SIZE) by (unfold SIG_RECORD_SIZE; lia).
  destruct (fs_file_seek s g_file _ FS_SEEK_SET) as [r1 s1] eqn:Es.
  destruct (aside_seek _ _ _ _ _ Has Hoff Es) as (Hp1 & Ho1 & Ha1).
  destruct (Z.ltb_spec r1 0) as [|Hr1].
  { pose proof (aside_close _ _ Hp1 Ho1) as Hc. destruct (fs_close_global s1). apply post_done. by apply set_fs_pay. }
  eapply post_bind; [apply read_records_aside, Ha1, Hr1|]. intros [sigs s2] Ha2.
  pose proof (aside_close _ _ (proj1 Ha2) (aside_open _ _ Ha2)) as Hc. destruct (fs_close_global s2) as [r3 s3].
  apply post_done. by apply set_fs_pay.
Qed.

Lemma on_demand_spec k idx T : signable k T → 0 ≤ idx →
  post (λ '(_, _, sds, k'), same_sessions k k' ∧ Forall (signed_for (C := C) T) sds) (signature_on_demand (C := C) k idx).
Proof.
  intros Hs Hidx. pose proof Hs as [_ Hst _ _ Hin]. unfold signature_on_demand.
  eapply post_bind; [by apply parse_input_closed|]. intros [i s] [Hq Hi]. cbn zeta.
  pose proof (set_fs_same k s Hq) as Hk. destruct i as [i|]; [|by apply post_done].
  destruct (Hi i eq_refl) as (D & HD & Hx & Hlt).
  eapply post_bind; [apply load_keyset_spec|]. intros [ks k1] Hk1. fold (same_sessions (set_fs k s) k1) in Hk1.
  pose proof (same_sessions_trans _ _ _ Hk Hk1) as Hk01.
  destruct ks as [keyset|]; [|by apply post_done]. destruct (negb _); [by apply post_done|].
  eapply post_bind; [apply (sign_parsed_spec _ _ _ _ T)|].
  { by eapply signable_kept, Hs; apply km_same_kept. }
  { done. }
  { eapply Hin; [exact HD| |exact Hx]. lia. }
  intros [r k2] [Hk2 Hr]. pose proof (same_sessions_trans _ _ _ Hk01 Hk2) as Hk02.
  destruct r as [| | | | | |sd]; apply post_done; (split; [done|]); try done. by constructor; [apply Hr|].
Qed.

Lemma sign_batch_spec T n : ∀ k keyset i sds, signable k T → 0 ≤ i → Forall (signed_for (C := C) T) sds →
  post (λ '(_, sds', k'), same_sessions k k' ∧ Forall (signed_for (C := C) T) sds') (sign_batch (C := C) n k keyset i sds).
Proof.
  induction n as [|n IH]; intros k keyset i sds Hs Hi Hsds; cbn [sign_batch]; [by apply post_done|].
  apply (post_bind (λ '(_, sd, k'), same_sessions k k' ∧ ∀ x, sd = Some x → signed_for (C := C) T x)).
  - unfold sign_single_input. eapply post_bind; [by apply (sign_stream_input_spec _ _ _ T)|]. intros [r k1] [Hk1 Hr].
    destruct r as [| | | | | |sd]; apply post_done; (split; [done|]); try done. intros x [= <-]. by apply Hr.
  - intros [[st sd] k1] [Hk1 Hsd]. destruct sd as [sd|]; [|by apply post_done].
    eapply post_mono; [apply IH|].
    + by eapply signable_kept, Hs; apply km_same_kept.
    + lia.
    + apply Forall_app. split; [done|]. by constructor; [apply Hsd|].
    + intros [[st' sds'] k2] [Hk2 Hf]. split; [by eapply same_sessions_trans|done].
Qed.

Lemma batch_on_demand_spec k start count T : signable k T → 0 ≤ start →
  post (λ '(_, sds, k'), same_sessions k k' ∧ Forall (signed_for (C := C) T) sds) (batch_on_demand (C := C) k start count).
Proof.
  intros Hs Hst. unfold batch_on_demand. eapply post_bind; [apply load_keyset_spec|]. intros [ks k1] Hk1.
  fold (same_sessions k k1) in Hk1. destruct ks as [keyset|]; [|by apply post_done].
  destruct (negb _); [by apply post_done|].
  eapply post_mono; [apply (sign_batch_spec T)|]; [by eapply signable_kept, Hs; apply km_same_kept|done|done|].
  intros [[st sds] k2] [Hk2 Hf]. split; [by eapply same_sessions_trans|done].
Qed.

(** The transaction of a confirmed stream was approved. *)
Lemma confirmed_signable h k : inv h k → state k = STREAM_STATE_CONFIRMED →
  ∃ T, signable (C := C) k T ∧ tx_approved h T.
Proof.
  intros Hk Hst. destruct (link_signable h k) as (T & Hs & Hsn); [apply Hk; by right|].
  exists T. split; [done|]. eapply since_approved; [exact Hsn|by right].
Qed.

Lemma justified_all h T sds : tx_approved h T → Forall (signed_for (C := C) T) sds → Forall (justified h) sds.
Proof. intros Hs Hf. eapply Forall_impl; [exact Hf|]. intros sd Hsd. by exists T. Qed.

Lemma get_signature_inv h k idx : inv h k → 0 ≤ idx →
  post (λ '(_, _, sds, k'), inv h k' ∧ Forall (justified h) sds) (key_manager_task_handle_get_tx_signature (C := C) k idx).
Proof.
  intros Hk Hidx. unfold key_manager_task_handle_get_tx_signature. cbn zeta. fold (state k).
  destruct (bool_decide (state k = _)) eqn:Est; cbn [negb]; [|by apply post_done]. apply bool_decide_eq_true in Est.
  destruct (confirmed_signable _ _ Hk Est) as (T & Hs & Hsn). pose proof Hs as [_ [Hni _ _ _] _ _ _].
  destruct (Z.leb_spec (st_num_inputs (stream_of (C := C) k)) idx); [by apply post_done|].
  apply (post_bind (λ '(_, k'), same_sessions k k')).
  { destruct (_ && _); [apply cached_signature_same; lia|by apply post_done]. }
  intros [hit k1] Hk1.
  apply (post_bind (λ '(_, _, sds, k'), same_sessions k k' ∧ Forall (signed_for (C := C) T) sds)).
  { destruct hit as [sig|]; [by apply post_done|].
    eapply post_mono; [apply (on_demand_spec k1 idx T); [by eapply signable_kept, Hs; apply km_same_kept|done]|].
    intros [[[st sig] sds] k2] [Hk2 Hf]. split; [by eapply same_sessions_trans|done]. }
  intros [[[st sig] sds] k2] [Hk2 Hf]. pose proof (justified_all _ _ _ Hsn Hf) as Hj.
  destruct (_ && _); apply post_done; (split; [|done]); [apply inv_stream_reset|by eapply same_inv].
Qed.

Lemma get_batch_inv h k start count : inv h k → 0 ≤ start →
  post (λ '(_, _, sds, k'), inv h k' ∧ Forall (justified h) sds)
    (key_manager_task_handle_get_tx_signatures_batch (C := C) k start count).
Proof.
  intros Hk Hst. unfold key_manager_task_handle_get_tx_signatures_batch. cbn zeta. fold (state k).
  destruct (bool_decide (state k = _)) eqn:Est; cbn [negb]; [|by apply post_done]. apply bool_decide_eq_true in Est.
  destruct (_ || _); [by apply post_done|].
  destruct (confirmed_signable _ _ Hk Est) as (T & Hs & Hsn). pose proof Hs as [_ [Hni _ _ _] _ _ _].
  destruct (Z.leb_spec (st_num_inputs (stream_of (C := C) k)) start); [by apply post_done|].
  set (cnt := if _ <? _ then _ else count).
  apply (post_bind (λ '(_, k'), same_sessions k k')).
  { destruct (_ && _); [apply cached_batch_same; lia|by apply post_done]. }
  intros [hit k1] Hk1. pose proof (same_inv _ _ _ Hk Hk1) as Hi1. destruct hit as [sigs|].
  { apply post_done. split; [|done]. destruct (_ <=? _); [apply inv_stream_reset|done]. }
  eapply post_bind; [apply (batch_on_demand_spec k1 start cnt T); [by eapply signable_kept, Hs; apply km_same_kept|done]|].
  intros [[st sds] k2] [Hk2 Hf]. pose proof (justified_all _ _ _ Hsn Hf) as Hj.
  pose proof (same_inv _ _ _ Hi1 Hk2) as Hi2.
  destruct (bool_decide _); apply post_done; (split; [|done]); [|done].
  destruct (_ <=? _); [apply inv_stream_reset|done].
Qed.
(** ** Results *)

Lemma drop_inv h k c : inv h k → cm_type c = CONFIRMATION_TYPE_NONE → inv h (set_cm k c).
Proof.
  intros [Hna Hb Hr Hs Ho] Hc. split; [unfold action_ok, action_pending; cbn; by rewrite Hc|exact Hb|exact Hr| |].
  - intros Haw. destruct (Hs Haw) as (D & T & Hsn & Hrest). exists D, T. split; [|exact Hrest].
    eapply since_drop; [exact Hsn|cbn; by rewrite Hc|].
    intros [[Hpd _]|?]; [|by right]. unfold tx_pending in Hpd. cbn in Hpd. by rewrite Hc in Hpd.
  - unfold tx_pending. cbn. by rewrite Hc.
Qed.

Lemma validated_inv h k c : inv h k → c = km_cm k ∨ cm_type c = CONFIRMATION_TYPE_NONE → inv h (set_cm k c).
Proof. intros Hk [->|Hc]; [by destruct k|by apply drop_inv]. Qed.

(** The end of a session whose confirmation is cleared. *)
Lemma cleared_idle_inv h k k' : inv h k → cm_type (km_cm k') = CONFIRMATION_TYPE_NONE → pay k' = pay k → idle (C := C) k' → inv h k'.
Proof.
  intros Hk Hc Hp Hi. apply inv_idle; [unfold action_pending; by rewrite Hc| |done].
  intros d Hd. apply (inv_bytes _ _ Hk). unfold pay, fpay in Hp. by rewrite <- Hp.
Qed.

Lemma refuse_inv h k st : inv h k → post (λ '(_, k'), inv h k') (refuse (C := C) k st).
Proof.
  intros Hk. unfold refuse. eapply post_bind; [apply clear_confirmation_spec|]. intros k1 (Hg & Hm & Hc).
  apply post_done. apply (cleared_idle_inv h k); [done|done| |apply signing_reset_idle].
  unfold pay, km_fs. cbn. by rewrite Hg.
Qed.

Lemma one_shot_result_inv h k : inv h k → post (λ '(_, k'), inv h k') (one_shot_result (C := C) k).
Proof.
  intros Hk. unfold one_shot_result. apply post_any. intros [d|]; [|by apply refuse_inv]. cbn zeta.
  apply post_any. intros [sh|]; [|by apply refuse_inv]. apply post_any. intros diff.
  destruct (negb _); [by apply refuse_inv|]. destruct (_ && _).
  - eapply post_bind; [apply clear_confirmation_spec|]. intros k1 (Hg & Hm & Hc). apply post_done.
    apply (cleared_idle_inv h k); [done|done| |apply signing_reset_idle]. unfold pay, km_fs. cbn. by rewrite Hg.
  - destruct (_ && _); [by apply refuse_inv|by apply post_done].
Qed.

Lemma stream_result_inv h k : inv h k → post (λ '(_, k'), inv h k') (stream_result (C := C) k).
Proof.
  intros Hk. unfold stream_result. cbn zeta.
  assert (Hab : ∀ st k1, post (λ '(_, k'), inv h k') (let! k := abandon_stream (C := C) k1 in Done (status_only st, k))).
  { intros st k1. eapply post_bind; [apply (abandon_stream_inv h)|]. intros k2 Hk2. by apply post_done. }
  apply post_any. intros [d|]; [|apply Hab].
  eapply post_bind; [apply commitment_matches_spec|]. intros [same k1] Hk1.
  destruct same as [[|]|]; [|apply Hab..]. apply post_done. by eapply same_inv.
Qed.

Lemma tx_result_inv h k rh ch now : inv h k →
  post (λ '(_, k'), inv h k') (sign_transaction_confirmation_result_handler (C := C) k rh ch now).
Proof.
  intros Hk. unfold sign_transaction_confirmation_result_handler. eapply post_bind; [apply validate_spec|].
  intros [v c] Hc. pose proof (validated_inv _ _ _ Hk Hc) as Hk1. cbn zeta.
  destruct v; try (by apply post_done). destruct (st_state _); try (by apply post_done).
  - by apply one_shot_result_inv.
  - by apply one_shot_result_inv.
  - by apply stream_result_inv.
Qed.

(** ** Action proofs *)

(** The session of a pending action is written. *)
Lemma sap_put_inv h k s : pay k = None → ¬ tx_pending (km_cm k) →
  (sap_valid (sap_pending_data s) = true → action_since h (sap_pending_data s) (km_cm k) (cm_approved (km_cm k) = true)) →
  inv h (set_mem k (put_sap (C := C) (km_mem k) s)).
Proof.
  intros Hp Ht Hsn. set (k' := set_mem k _).
  assert (Hd : action_data (C := C) k' = sap_pending_data s) by (unfold action_data; cbn; by rewrite law_get_sap).
  assert (Hok : action_ok (C := C) h k') by (intros _; rewrite Hd; by split).
  assert (Hst : state k' = first_flag (sap_valid (sap_pending_data s))) by apply law_sap_state.
  assert (Hac : ss_active (session (C := C) k') = sap_valid (sap_pending_data s)) by apply law_sap_active.
  destruct (sap_valid (sap_pending_data s)) eqn:Ev.
  - apply inv_unconfirmed; [done|by apply no_payload|done|by right|done].
  - apply inv_idle; [done|by apply no_payload|]. split_and!; [done|done|by rewrite Hd].
Qed.

Lemma sap_init_idle k : idle (C := C) (sap_session_init (C := C) k).
Proof.
  unfold idle, SignInv.state, session, stream_of, action_data, sap_session_init. cbn [set_mem km_mem].
  by rewrite law_sap_state, law_sap_active, law_get_sap.
Qed.

Lemma sap_clear_inv h k : inv h k → post (inv h) (sap_clear_state (C := C) k).
Proof.
  intros Hk. unfold sap_clear_state. eapply post_bind; [apply clear_confirmation_spec|]. intros k1 (Hg & Hm & Hc).
  apply post_done. apply (cleared_idle_inv h k); [done|done| |apply sap_init_idle]. unfold pay, km_fs. cbn. by rewrite Hg.
Qed.

Lemma sap_result_inv h k rh ch now : inv h k →
  post (λ '(_, k'), inv h k') (sap_confirmation_result_handler (C := C) k rh ch now).
Proof.
  intros Hk. unfold sap_confirmation_result_handler. eapply post_bind; [apply validate_spec|].
  intros [v c] Hc. pose proof (validated_inv _ _ _ Hk Hc) as Hk1. cbn zeta.
  assert (Hcl : ∀ r : km_rsp, post (λ '(_, k'), inv h k') (let! k2 := sap_clear_state (C := C) (set_cm k c) in Done (r, k2))).
  { intros r. eapply post_bind; [by apply sap_clear_inv|]. intros k2 Hk2. by apply post_done. }
  destruct v; try apply Hcl; [|by apply post_done].
  destruct (sap_signed_ok _); [apply Hcl|]. destruct (sap_sign_attempted _); [apply Hcl|by apply post_done].
Qed.

(** The payload of an action: the pieces, one after another. *)
Definition action_payload (d : sap_pending_data_t) : list Z := concat (sap_pieces d).

(** No field holds the separator. *)
Definition plain (d : sap_pending_data_t) : Prop :=
  sap_contains_separator (sap_action d) = false ∧ sap_contains_separator (sap_value d) = false
  ∧ sap_contains_separator (sap_bindings d) = false.



Lemma sap_append_spec pieces : ∀ buf off, 0 ≤ off ≤ zlen buf →
  post (λ '(len, buf'), len = -1 ∨ len = off + zlen (concat pieces) ∧ zlen buf' = zlen buf
      ∧ ztake len buf' = ztake off buf ++ concat pieces) (sap_append buf off pieces).
Proof.
  induction pieces as [|p pieces IH]; intros buf off Hoff; cbn [sap_append concat].
  { apply post_done. right. rewrite zlen_nil, Z.add_0_r, app_nil_r. done. }
  destruct (_ <? _); [by apply post_done; left|]. intros [len buf'] (buf1 & Ew & E2)%obind_inv.
  unfold mwrite in Ew. destruct (_ && _) eqn:Eb; [|done]. injection Ew as <-. apply andb_true_iff in Eb as [_ Eb].
  apply Z.leb_le in Eb. pose proof (zlen_nonneg p) as Hnp.
  assert (Hzt : zlen (ztake off buf) = off) by (by apply zlen_ztake).
  assert (Hl1 : zlen (ztake off buf ++ p ++ zdrop (off + zlen p) buf) = zlen buf).
  { rewrite !zlen_app, Hzt, zlen_zdrop; lia. }
  destruct (IH _ (off + zlen p) ltac:(rewrite Hl1; lia) _ E2) as [->|(-> & Hl & Ht)]; [by left|right].
  split_and!; [rewrite zlen_app; lia|congruence|]. rewrite Ht, !app_assoc. f_equal.
  apply ztake_app_exact. rewrite zlen_app, Hzt. done.
Qed.

Lemma sap_build_spec d buf : post (λ '(len, buf'), len ≤ 0 ∨ mread buf' 0 len = Done (action_payload d)
    ∧ sap_valid d = true ∧ plain d) (sap_build_payload d buf).
Proof.
  unfold sap_build_payload. destruct (sap_valid d); cbn [negb]; [|apply post_done; by left].
  destruct (_ || _) eqn:Esep; [apply post_done; by left|].
  apply orb_false_iff in Esep as [[Ea Ev]%orb_false_iff Eb].
  eapply post_mono; [apply sap_append_spec; split; [done|apply zlen_nonneg]|].
  intros [len buf'] [->|(-> & Hl & Ht)]; [by left|]. right. split; [|by split_and!]. rewrite ztake_0 in Ht. cbn [app] in Ht.
  fold (action_payload d) in *. unfold mread. rewrite Z.add_0_l in *. pose proof (zlen_nonneg (action_payload d)).
  assert (zlen (action_payload d) ≤ zlen buf').
  { rewrite <- Ht at 1. unfold zlen, ztake. rewrite length_take. lia. }
  zdecide. cbn [andb]. by rewrite zdrop_0, Ht.
Qed.

(** A digest of an action that was shown before, and approved since. *)
Definition action_justified h (digest : list Z) : Prop :=
  ∃ d, seen_and_approved (λ tk, action_shown tk d) CONFIRMATION_TYPE_SIGN_ACTION_PROOF h ∧ plain d ∧ digest = sha256 (C := C) (action_payload d).

Lemma sap_sign_spec (s : sap_session_t) (w : wallet_ctx L E) P : wpay w = P →
  post (λ '(digest, s', w'), wpay w' = P ∧ sap_pending_data s' = sap_pending_data s
      ∧ ∀ x, digest = Some x → sap_valid (sap_pending_data s) = true ∧ plain (sap_pending_data s)
          ∧ x = sha256 (C := C) (action_payload (sap_pending_data s))) (sap_sign (C := C) s w).
Proof.
  intros Hw. unfold sap_sign. eapply post_bind; [apply sap_build_spec|]. intros [len buf] Hb. cbn zeta.
  destruct (Z.leb_spec len 0); [by apply post_done|]. destruct Hb as [?|(Hm & Hv & Hpl)]; [lia|]. rewrite Hm. cbn [obind].
  destruct (crypto_hash_sha256 _) as [hash|] eqn:Eh; [|by apply post_done]. apply law_hash_sha256 in Eh.
  eapply post_bind; [by apply auth_key_frame|]. intros [[ok key] w'] Hw'. destruct (negb ok); [by apply post_done|].
  destruct (bip32_sign key hash) as [[|] sig]; apply post_done; (split_and!; [done|done|]); [|done].
  intros x [= <-]. done.
Qed.

Lemma sap_deferred_inv h k : inv h k →
  post (λ '(digest, k'), inv h k' ∧ ∀ x, digest = Some x → action_justified h x)
    (key_manager_task_try_sap_deferred_sign (C := C) k).
Proof.
  intros Hk. unfold key_manager_task_try_sap_deferred_sign. cbn zeta. destruct (_ || _); [by apply post_done|].
  eapply post_bind; [apply get_type_spec|]. intros type ->.
  destruct (Z.eqb_spec (cm_type (km_cm k)) CONFIRMATION_TYPE_SIGN_ACTION_PROOF) as [Ht|]; cbn [negb]; [|by apply post_done].
  destruct (inv_action _ _ Hk Ht) as [Hp Hsn]. eapply post_bind; [apply is_approved_spec|]. intros ap ->.
  destruct (cm_approved (km_cm k)) eqn:Hap; cbn [negb]; [|by apply post_done].
  eapply post_bind; [by apply sap_sign_spec|]. intros [[digest s] w] (Hw & Hd & Hx). apply post_done.
  change (sap_pending_data (get_sap (km_mem k))) with (action_data (C := C) k) in *. split.
  - apply (sap_put_inv h (set_signer k (set_wallet (km_signer k) w))); [exact Hw|unfold tx_pending; cbn; by rewrite Ht|].
    rewrite Hd. cbn. by rewrite Hap.
  - intros x Ex. destruct (Hx x Ex) as (Hv & Hpl & ->). exists (action_data (C := C) k). split; [|done].
    by eapply since_approved; [apply Hsn|].
Qed.

Lemma action_inv h k e cmd :
  post (λ '(r, d, k'), ∀ tk : taken, tk_ev tk = EvAction e cmd → tk_outs tk = shows_action d ++ [ORsp r] →
      tk_after tk = k' → payload_bytes k' → inv (tk :: h) k')
    (key_manager_task_handle_sign_action_proof (C := C) k e cmd).
Proof.
  unfold key_manager_task_handle_sign_action_proof.
  assert (Hend : ∀ (r : km_rsp) (d : option action_display) k', ends (C := C) (shows_action d ++ [ORsp r]) k' →
    post (λ '(r, d, k'), ∀ tk : taken, tk_ev tk = EvAction e cmd → tk_outs tk = shows_action d ++ [ORsp r] →
      tk_after tk = k' → payload_bytes k' → inv (tk :: h) k') (Done (r, d, k'))).
  { intros r d k' He. apply post_done. intros tk _ Ho Ha Hb. by apply He. }
  eapply post_bind; [apply teardown_spec|]. intros k1 (Hc & Hp & Hidle).
  destruct (Z.eqb_spec (ac_version cmd) 1) as [Hver|]; cbn [negb]; [|by apply Hend, ends_idle]. cbn zeta.
  destruct (Z.eqb_spec (sap_parse_action (ac_action cmd)) SAP_ACTION_COUNT) as [|Hact]; [by apply Hend, ends_idle|].
  eapply post_bind; [by apply auth_key_frame|]. intros [[ok key] w] Hw. set (k2 := set_signer k1 _).
  assert (Hk2 : same_sessions k1 k2) by (split_and!; [done|done|rewrite Hp; exact Hw]).
  destruct (negb ok); [by apply Hend, ends_idle; [eapply same_no_pay|eapply same_idle]|].
  eapply post_bind; [apply create_spec|]. intros [[r hs] c] [Hc1 Hc2]. cbn [km_cm set_mem] in *.
  assert (Hp2 : pay k2 = None) by (by eapply same_no_pay).
  destruct (bool_decide (r = _)) eqn:Er; cbn [negb]; [|by apply Hend, ends_idle; [|apply sap_init_idle]].
  apply bool_decide_eq_true in Er. destruct (Hc1 Er) as [Hty Hna]. apply post_done. intros tk Hev Ho Ha Hb.
  apply (sap_put_inv (tk :: h) (set_cm k2 c)); [exact Hp2|unfold tx_pending; cbn; by rewrite Hty|].
  intros _. change (km_cm (set_cm k2 c)) with (km_cm (set_mem (set_cm k2 c) (km_mem (set_cm k2 c)))).
  assert (Hcm : km_cm (tk_after tk) = c) by (by rewrite Ha). cbn [km_cm set_cm set_mem]. rewrite <- Hcm in Hty, Hna |- *.
  apply since_new; [|done|congruence]. exists e, cmd. cbn [sap_pending_data]. rewrite Hver, Ho. split_and!; [done|done|done|]. apply elem_of_app. left. by left.
Qed.

(** ** Every step *)

(** The step keeps the invariant, and what it signs was shown and approved. *)
Definition step_ok h (ev : km_ev) (outs : list km_out) k : Prop :=
  payload_bytes k →
  inv (mk_taken ev outs k :: h) k ∧ (∀ sd, OSigned sd ∈ outs → justified h sd)
  ∧ ∀ x, OSignedAction x ∈ outs → action_justified h x.

Lemma no_screen_signed l l' (outs : list km_out) : no_screen outs →
  no_screen (map OSigned l ++ map OSignedAction l' ++ outs).
Proof. intros Ho. apply Forall_app. split; [|apply Forall_app; split; [|done]]; by apply Forall_map, Forall_true. Qed.

(** Nothing is signed. *)
Definition silent (outs : list km_out) : Prop :=
  Forall (λ o, match o with OSigned _ | OSignedAction _ => False | _ => True end) outs.

Lemma silent_signs outs : silent outs → (∀ sd, OSigned sd ∉ outs) ∧ ∀ x, OSignedAction x ∉ outs.
Proof. unfold silent. rewrite Forall_forall. intros Hs. split; intros x Hx; by apply Hs in Hx. Qed.

Lemma step_silent h ev outs k : (payload_bytes k → inv (mk_taken ev outs k :: h) k) → silent outs → step_ok h ev outs k.
Proof. intros Hi [Hs Ha]%silent_signs Hb. split_and!; [by apply Hi|intros x []%Hs|intros x []%Ha]. Qed.

Lemma step_ends h ev outs k : ends (C := C) outs k → silent outs → step_ok h ev outs k.
Proof. intros He. apply step_silent. by apply He. Qed.

Lemma step_inv h ev outs k : inv h k → silent outs → no_screen outs → step_ok h ev outs k.
Proof. intros Hi Hs Hq. apply step_silent; [|done]. intros _. by apply inv_same. Qed.

Lemma silent_shows d r : silent (shows d ++ [ORsp r]).
Proof. destruct d; by repeat constructor. Qed.

Lemma silent_shows_action d r : silent (shows_action d ++ [ORsp r]).
Proof. destruct d; by repeat constructor. Qed.

Lemma silent_rsp r : silent [ORsp r].
Proof. by repeat constructor. Qed.

Lemma silent_nil : silent [].
Proof. constructor. Qed.

(** Signatures of transactions, then answers. *)
Lemma step_signed h ev sds outs k : inv h k → Forall (justified h) sds → silent outs → no_screen outs →
  step_ok h ev (map OSigned sds ++ outs) k.
Proof.
  intros Hi Hj [Hs Ha]%silent_signs Hq _. split_and!; [apply inv_same; [done|done|by apply (no_screen_signed sds [])]| |].
  - rewrite Forall_forall in Hj. intros sd [(x & [= ->] & Hx)%list_elem_of_fmap|[]%Hs]%elem_of_app. by apply Hj.
  - intros x [(y & ? & _)%list_elem_of_fmap|[]%Ha]%elem_of_app. done.
Qed.

(** The steps of the user and of the other tasks. *)
Lemma outside_step_ok h k ev k' : inv h k →
  km_mem k' = km_mem k → pay k' = pay k ∨ pay k' = None →
  conf_id (km_cm k') = conf_id (km_cm k)
    ∧ (cm_approved (km_cm k') = true → cm_approved (km_cm k) = true ∨ ev = EvApprove)
  ∨ cm_type (km_cm k') ≠ CONFIRMATION_TYPE_SIGN_TRANSACTION
    ∧ cm_type (km_cm k') ≠ CONFIRMATION_TYPE_SIGN_ACTION_PROOF →
  step_ok h ev [] k'.
Proof.
  intros Hk Hm Hp Hc. apply step_silent; [|apply silent_nil]. intros Hb.
  apply (inv_keep (mk_taken ev [] k') h k); cbn [tk_after tk_outs tk_ev]; [done|done|constructor|by rewrite Hm..|done|].
  destruct Hc as [Hc|[Hn1 Hn2]]; [by intros _|]. by intros [|].
Qed.

Lemma approve_step_ok h k : inv h k →
  post (λ c, step_ok h EvApprove [] (set_cm k c)) (confirmation_manager_approve (km_cm k)).
Proof.
  intros Hk. eapply post_mono; [apply approve_conf_id|]. intros c Hc.
  apply (outside_step_ok h k); [done|done|by left|]. left. by split; [|right].
Qed.

Lemma confirm_step_ok h k e type data : inv h k → type ≠ CONFIRMATION_TYPE_SIGN_TRANSACTION →
  type ≠ CONFIRMATION_TYPE_SIGN_ACTION_PROOF →
  post (λ '(_, _, c), step_ok h (EvConfirm e type data) [] (set_cm k c))
    (confirmation_manager_create (km_cm k) type (Some data) (zlen data) true CONFIRMATION_HANDLE_SIZE
       CONFIRMATION_HANDLE_SIZE (rng1 e) (rng2 e) (systime e)).
Proof.
  intros Hk Ht1 Ht2. eapply post_mono; [apply create_spec|]. intros [[r hs] c] [Hc1 Hc2].
  apply (outside_step_ok h k); [done|done|by left|]. cbn.
  destruct (decide (r = CONFIRMATION_RESULT_SUCCESS)) as [Hr|Hr].
  - destruct (Hc1 Hr) as [-> _]. by right.
  - destruct (Hc2 Hr) as [->|Hn]; [left; by auto|right]. by rewrite Hn.
Qed.

Lemma transfer_step_ok h k seq chunk : inv h k →
  let '(st, k') := key_manager_task_handle_sign_stream_transfer (C := C) k seq chunk in
  step_ok h (EvTransfer seq chunk) [ORsp (status_only st)] k'.
Proof.
  intros Hk. pose proof (λ tk, transfer_inv tk h k seq chunk Hk) as Htr.
  destruct (key_manager_task_handle_sign_stream_transfer k seq chunk) as [st k'].
  apply step_silent; [|apply silent_rsp]. intros Hb. apply Htr; [by repeat constructor|done|done].
Qed.

Lemma deferred_step_ok h k : inv h k →
  post (λ '(outs, k'), step_ok h EvDeferred outs k') (km_step (C := C) pubkey_verify k EvDeferred).
Proof.
  intros Hk. cbn [km_step].
  eapply post_bind; [by apply (deferred_sign_inv h)|]. intros [sds1 k1] (H1k & _ & Hj1).
  eapply post_bind; [by apply (deferred_stream_inv h)|]. intros [sds2 k2] (H2k & Hj2).
  eapply post_bind; [by apply (sap_deferred_inv h)|]. intros [x k3] [H3k Hx].
  assert (Hj : Forall (justified h) (sds1 ++ sds2)) by (by apply Forall_app). rewrite Forall_forall in Hj.
  apply post_done. intros _. split_and!.
  - apply inv_same; [done|done|]. cbn [tk_outs]. rewrite <- (app_nil_r (map OSignedAction _)). apply no_screen_signed. constructor.
  - intros sd [(y & [= ->] & Hy)%list_elem_of_fmap|(y & ? & _)%list_elem_of_fmap]%elem_of_app; [by apply Hj|done].
  - intros d [(y & ? & _)%list_elem_of_fmap|(y & [= ->] & Hy)%list_elem_of_fmap]%elem_of_app; [done|].
    destruct x as [x|]; [|by apply not_elem_of_nil in Hy]. apply list_elem_of_singleton in Hy as ->. by apply Hx.
Qed.

Lemma result_step_ok h k rh ch now : inv h k →
  post (λ '(outs, k'), step_ok h (EvResult rh ch now) outs k') (km_step (C := C) pubkey_verify k (EvResult rh ch now)).
Proof.
  intros Hk. cbn [km_step]. eapply post_bind; [apply get_type_spec|]. intros type ->. destruct (_ =? _).
  - eapply post_bind; [by apply (tx_result_inv h)|]. intros [r k'] Hi. apply post_done, step_inv; [done|apply silent_rsp|by repeat constructor].
  - destruct (_ =? _); [|apply post_done, step_inv; [done|apply silent_nil|constructor]].
    eapply post_bind; [by apply (sap_result_inv h)|]. intros [r k'] Hi. apply post_done, step_inv; [done|apply silent_rsp|by repeat constructor].
Qed.

Lemma silent_fetched (sigs : list (list Z * list Z)) r : silent [OSignatures sigs; ORsp r].
Proof. by repeat constructor. Qed.

Lemma km_step_ok h k ev : inv h k → ev_ok k ev →
  post (λ '(outs, k'), step_ok h ev outs k') (km_step (C := C) pubkey_verify k ev).
Proof.
  intros Hk Hev. destruct ev as [e rq|e sk rq|rq|sk rq|seq chunk|e ch|idx|start count|e cmd| |rh ch now| | |e type data|g];
    [| | | | | | | | |by apply deferred_step_ok|by apply result_step_ok| | | |]; cbn [km_step ev_ok] in *.
  - eapply post_bind; [by apply sign_tx_ends|]. intros [[r d] k'] He. apply post_done, step_ends; [done|apply silent_shows].
  - eapply post_bind; [by apply sweep_ends|]. intros [[r d] k'] He. apply post_done, step_ends; [done|apply silent_shows].
  - eapply post_bind; [by apply (stream_start_ends _ _ [])|]. intros [b k'] He. apply post_done, step_ends; [done|apply silent_nil].
  - eapply post_bind; [by apply (sweep_start_ends _ _ _ _ [])|]. intros [b k'] He. apply post_done, step_ends; [done|apply silent_nil].
  - pose proof (transfer_step_ok h k seq chunk Hk) as Ht.
    destruct (key_manager_task_handle_sign_stream_transfer k seq chunk) as [st k']. by apply post_done.
  - eapply post_bind; [by apply (finalize_inv h)|]. intros [[r d] k'] Hf. apply post_done, step_silent; [|apply silent_shows].
    by apply Hf.
  - eapply post_bind; [apply (get_signature_inv h); [done|by destruct Hev]|]. intros [[[st sig] sds] k'] [Hi Hs].
    apply post_done, step_signed; [done|done|apply silent_fetched|by repeat constructor].
  - eapply post_bind; [apply (get_batch_inv h); [done|by destruct Hev as [[? _] _]]|]. intros [[[st sigs] sds] k'] [Hi Hs].
    apply post_done, step_signed; [done|done|apply silent_fetched|by repeat constructor].
  - eapply post_bind; [apply (action_inv h)|]. intros [[r d] k'] Hf. apply post_done, step_silent; [|apply silent_shows_action].
    by apply Hf.
  - eapply post_bind; [by apply (approve_step_ok h)|]. intros c Hc. by apply post_done.
  - eapply post_bind; [apply clear_confirmation_spec|]. intros k' (Hg & Hm & Hc). apply post_done.
    apply (outside_step_ok h k); [done|done|left; unfold pay, km_fs; by rewrite Hg|right]. by rewrite Hc.
  - eapply post_bind; [by apply (confirm_step_ok h); destruct Hev|]. intros [[r hs] c] Hc. by apply post_done.
  - apply post_done. apply (outside_step_ok h k); [done|done|exact Hev|left]. by auto.
Qed.

(** ** Every run *)

Lemma boot_inv k : km_boot (C := C) k → inv [] k.
Proof.
  intros (Hm & _ & Hp & Hb). destruct law_boot as (Hb1 & Hb2 & Hb3).
  apply inv_idle; [unfold action_pending, cm_type; by rewrite Hp|done|].
  unfold idle, SignInv.state, session, stream_of, action_data. by rewrite Hm, Hb1, Hb2, Hb3.
Qed.

Lemma km_reach_inv k0 h k : km_boot (C := C) k0 → km_reach (C := C) pubkey_verify k0 h k → inv h k.
Proof.
  intros Hb Hr. induction Hr as [|h k ev outs k' _ IH Hev Hstep Hbytes]; [by apply boot_inv|].
  by apply (km_step_ok h k ev IH Hev _ Hstep).
Qed.

(** ** What the screen says *)

(** The keyset that the device has says that the output is its own: as change of
    the current account, or as its fresh receive script. *)
Definition own_output k (o : raw_tx_output_t) : Prop :=
  ∃ ks k1 k2, load_keyset k1 = Done (Some ks, k2) ∧ keyset_file k2 = keyset_file k
    ∧ (wallet_change_output_belongs_to_policy ks (path_out o) (spk o) = Done true
       ∨ derive_current_fresh_receive_spk ks SPK_BUFFER_SIZE = Done (Some (spk o))).

(** What a screen says of a transaction. *)
Definition screen_says k (d : send_transaction_data_t) T : Prop :=
  dp_fee_sats d = decimal (sum_z (map in_amount (tx_in T)) - sum_z (map out_amount (tx_out T)))
  ∧ if dp_self_send d
    then dp_amount_sats d = decimal (sum_z (map out_amount (tx_out T))) ∧ Forall (own_output k) (tx_out T)
    else ∃ o network address, external (tx_out T) = [o] ∧ dp_amount_sats d = decimal (out_amount o)
      ∧ ew_script_to_address (spk o) network DESTINATION_ADDRESS_MAX_LEN = Some address
      ∧ dp_address d = ztake 127 address ∧ Forall (λ o, has_derivation_path o = true → own_output k o) (tx_out T).

(** Outputs that are not external are change. *)
Lemma no_external outs o : external outs = [] → o ∈ outs → has_derivation_path o = true.
Proof.
  unfold external. intros He Hin. destruct (has_derivation_path o) eqn:Eh; [done|exfalso].
  apply list_elem_of_In in Hin. assert (Hx : In o (List.filter (λ o, negb (has_derivation_path o)) outs)).
  { apply filter_In. split; [done|]. cbn. by rewrite Eh. }
  by rewrite He in Hx.
Qed.

Lemma shown_screen tk T : shown tk T → ∃ d, OShow d ∈ tk_outs tk ∧ screen_says (tk_after tk) d T.
Proof.
  intros (ks & info & sweep & unit & Hout & [Hfee Htot [Hr1 [Hr2 Hr3]] Hsend _] & (k1 & k2 & Hk & Hf) & Hch & Hsw).
  exists (display_of info sweep unit). split; [done|]. unfold screen_says, display_of.
  cbn [dp_fee_sats dp_self_send dp_amount_sats dp_address]. split; [by rewrite Hfee|].
  assert (Hown : ∀ o, o ∈ tx_out T → has_derivation_path o = true → own_output (tk_after tk) o).
  { intros o Ho Eh. exists ks, k1, k2. split_and!; [done|symmetry; apply Hf|].
    left. by apply (proj1 (Forall_forall _ _) Hch o Ho). }
  assert (Hsum : u64 (send_amount_sats info + change_amount_sats info) = sum_z (map out_amount (tx_out T))).
  { rewrite <- Htot. unfold u64. rewrite Z.mod_small; [done|]. unfold UINT64_MAX in *. lia. }
  destruct sweep; cbn [orb].
  - rewrite Hsum. split; [done|]. destruct (Hsw eq_refl) as (ks' & ka & kb & Hl & Hkf & o & -> & Hfr).
    apply Forall_singleton. exists ks', ka, kb. split_and!; [done|done|by right].
  - destruct (external (tx_out T)) as [|o [|? ?]] eqn:Ex; [..|done].
    + destruct Hsend as [-> _]. cbn [negb]. rewrite Hsum. split; [done|]. apply Forall_forall. intros o Ho.
      apply Hown; [done|]. by eapply no_external.
    + destruct Hsend as (-> & -> & Ha). cbn [negb].
      exists o, (keyset_network ks), (destination_address info). split_and!; [done|done|done|done|]. by apply Forall_forall.
Qed.

(** C1: The device signs only what the user saw and approved. In every run of
    the key manager from power-up, whatever commands the phone sends in whatever
    order and whatever the other tasks do to the wallet, the flash and the
    confirmation, a digest that any routine signs, of a one-shot request, a
    sweep or a stream, before or on demand, is the BIP143 digest, with
    SIGHASH_ALL, of the input with the index that the signature carries of one
    transaction. An earlier step showed that transaction: the exact fee and
    either the amount and the address of its only output that is not the wallet's
    own, or, when it showed no address, the total of the outputs, all of which
    then pay to scripts of the keyset on the device. The same step created a
    confirmation of type SIGN_TRANSACTION, and the user approved this one: from
    that step up to the approval it stayed pending with its handles and its data,
    and no other transaction or action was put on the screen. Not assumed is that
    the approval itself names a transaction, which it does not in the code. The
    other tasks may remove the payload file but not write it, and removing a file
    works. *)
Theorem signs_only_approved k0 h k ev outs k' sd :
  km_boot (C := C) k0 → km_reach (C := C) pubkey_verify k0 h k → ev_ok k ev →
  km_step (C := C) pubkey_verify k ev = Done (outs, k') → payload_bytes k' → OSigned sd ∈ outs →
  ∃ T after ap before tk earlier d,
    h = after ++ ap :: before ++ tk :: earlier
    ∧ signed_for (C := C) T sd ∧ OShow d ∈ tk_outs tk ∧ screen_says (tk_after tk) d T
    ∧ cm_type (km_cm (tk_after tk)) = CONFIRMATION_TYPE_SIGN_TRANSACTION
    ∧ tk_ev ap = EvApprove ∧ kept_since tk (ap :: before).
Proof.
  intros Hb Hr Hev Hstep Hbytes Hsd. pose proof (km_reach_inv _ _ _ Hb Hr) as Hi.
  destruct (km_step_ok h k ev Hi Hev _ Hstep Hbytes) as (_ & Hj & _).
  destruct (Hj sd Hsd) as (T & (l & tk & e & -> & Hsh & Ht & a & ap & b & -> & He & Hk) & Hsf).
  destruct (shown_screen tk T Hsh) as (d & Hd & Hs). exists T, a, ap, b, tk, e, d.
  rewrite <- app_assoc. by split_and!.
Qed.

(** ** Actions *)




End SignSafe.
