(* ===== verification/SignDemo.v ===== *)
(** * Signing: a concrete device

    A wallet on a file system in memory, toy cryptography and a session memory
    that keeps the member written last; they satisfy the laws that the signing
    theorems assume, and runs on them are the witnesses. *)

From S2P Require Import Prelude Sha256 Wstring Fs Wkek Confirmation Bip32 WalletKeys WalletCache WalletAddr FwDelta Psbt PsbtSpec SignKey SignSession SignFrame SignKeySpec SignTx SignStream SignPayload SignFlow Sap SignMachine SignInv SignSafe.

#[local] Existing Instance toy_sha256.
#[local] Existing Instance toy_sha256_laws.
#[local] Existing Instance toy_ew.
#[local] Existing Instance toy_ew_laws.
#[local] Existing Instance toy_secp.
#[local] Existing Instance toy_secp_laws.

#[global] Instance ram_fs_removes : LittlefsRemoves ram_fs.
Proof. intros l p. apply rel_remove. Qed.

(** ** Toy signatures *)

(** A signature is the key and the digest. *)
Definition toy_ecdsa : Ecdsa := {|
  crypto_ecc_sign_hash k h := if zlen (k ++ h) =? ECC_SIG_SIZE then Some (k ++ h) else None;
  ew_ec_sig_normalize s := Some s;
  ew_ec_sig_to_der s n := if zlen s <=? n then Some s else None;
|}.
#[local] Existing Instance toy_ecdsa.

Lemma toy_ecdsa_laws : EcdsaLaws.
Proof.
  split; simpl.
  - intros k h s. destruct (_ =? _) eqn:E; [|done]. intros [= <-]. by btest.
  - intros s n d. destruct (_ <=? _) eqn:E; [|done]. intros [= <-]. by btest.
Qed.

(** ** A session memory *)

(** The member written last; the others read as zero but for the flag at the
    start, which lies on the state of the streaming session. *)
Inductive last_written :=
| wrote_nothing
| wrote_signing (s : w3_signing_session_t)
| wrote_stream (t : stream_signing_session_t (list Z))
| wrote_sap (p : sap_session_t).

Definition flag_of (m : last_written) : bool :=
  match m with
  | wrote_nothing => false
  | wrote_signing s => ss_active s
  | wrote_stream t => bool_decide (st_state t = STREAM_STATE_RECEIVING)
  | wrote_sap p => sap_valid (sap_pending_data p)
  end.

Definition flagged_signing (b : bool) : w3_signing_session_t :=
  mk_signing b [] [] 0 0 [] fwpb_status_UNSPECIFIED zero_sweep.
Definition flagged_sap (b : bool) : sap_session_t :=
  mk_sap (mk_sap_data b 0 [] [] []) (replicate 600 0) (replicate 64 0) false false fwpb_status_UNSPECIFIED.

#[global] Instance last_written_union : SessionUnion (list Z) last_written := {
  zero_ctx := [];
  union_boot := wrote_nothing;
  get_signing m := match m with wrote_signing s => s | _ => flagged_signing (flag_of m) end;
  put_signing _ s := wrote_signing s;
  get_stream m := match m with wrote_stream t => t | _ => set_state (zero_stream []) (first_flag (flag_of m)) end;
  put_stream _ t := wrote_stream t;
  get_sap m := match m with wrote_sap p => p | _ => flagged_sap (flag_of m) end;
  put_sap _ p := wrote_sap p;
}.

#[global] Instance last_written_laws : SessionUnionLaws (list Z) last_written.
Proof.
  split; try done; intros m t b; cbn; unfold first_flag; intros ->; by destruct b.
Qed.

(** ** The device *)

Definition demo_account : list Z := [hardened 84; hardened 0; hardened 0].

Definition demo_setup : option (wallet_ctx ram_fs Z * wallet_keyset_t) :=
  match wallet_derive_key_priv_using_cache demo_wallet zero_key demo_account with
  | Done (true, acct, w) =>
      let ks := mk_keyset WALLET_KEYSET_VERSION NETWORK_MAINNET 0
                  (xpub_of (mk_key 0 (replicate 32 11) (replicate 32 12))) (xpub_of acct)
                  (xpub_of (mk_key 0 (replicate 32 13) (replicate 32 14))) in
      match wkek_encrypt_and_store (wk w) WALLET_KEYSET_PATH (keyset_bytes ks) with
      | Done (true, k) => Some (set_wk w k, ks)
      | _ => None
      end
  | _ => None
  end.

Definition demo_device_wallet : wallet_ctx ram_fs Z := Eval vm_compute in default demo_wallet (fst <$> demo_setup).
Definition demo_device_keyset : wallet_keyset_t := Eval vm_compute in default demo_keyset (snd <$> demo_setup).

Definition demo_policy : policy_ctx_t := mk_policy (Some demo_account) SECURE_FALSE SECURE_FALSE.

Definition demo_km : km ram_fs Z last_written :=
  mk_km (mk_signer demo_device_wallet demo_policy crypto_thread_boot)
    (confirmation_manager_init confirmation_boot) union_boot.

Definition demo_spk_at (p : list Z) : list Z :=
  match wallet_derive_p2wsh_scriptpubkey demo_device_keyset p MAX_WITNESS_PROGRAM_SIZE with
  | Done (Some s) => s
  | _ => []
  end.

Definition demo_request : sign_tx_request_cmd :=
  mk_tx_request 0
    [mk_tx_input (replicate 32 17) 0 0xFFFFFFFD 60000 (demo_account ++ [0; 3]);
     mk_tx_input (replicate 32 19) 4 0xFFFFFFFD 45000 (demo_account ++ [1; 2])]
    [mk_tx_output 70000 (0 :: 32 :: replicate 32 9) [] false;
     mk_tx_output 34000 (demo_spk_at (demo_account ++ [1; 8])) (demo_account ++ [1; 8]) true]
    2 0.

Definition demo_env : env := mk_env (Some (replicate 32 5)) (Some (replicate 32 6)) 10.

Definition demo_verify (pk : list Z) : bool := true.

Abbreviation demo_step := (km_step (C := list Z) demo_verify).

Definition after (k : km ram_fs Z last_written) (ev : km_ev) : list km_out * km ram_fs Z last_written :=
  match demo_step k ev with Done r => r | _ => ([], k) end.

Definition demo_shown := Eval vm_compute in after demo_km (EvSignTx demo_env demo_request).
Definition demo_approved := Eval vm_compute in after demo_shown.2 EvApprove.
Definition demo_signed := Eval vm_compute in after demo_approved.2 EvDeferred.

Definition demo_history : list (taken (L := ram_fs) (E := Z) (M := last_written)) :=
  [mk_taken EvApprove demo_approved.1 demo_approved.2;
   mk_taken (EvSignTx demo_env demo_request) demo_shown.1 demo_shown.2].

Lemma demo_boot : km_boot (C := list Z) demo_km.
Proof. by split_and!. Qed.

Ltac ranges := repeat first [apply Forall_nil_2 | apply Forall_cons_2 | split | done].

Lemma demo_request_ok : rq_ok demo_request.
Proof. split; [repeat (apply Forall_cons_2; [by split_and!; ranges|])..| |]; ranges. Qed.

Lemma demo_reach : km_reach (C := list Z) demo_verify demo_km demo_history demo_approved.2.
Proof.
  apply reach_step with (k := demo_shown.2); [|done|vm_compute; reflexivity|done].
  apply reach_step with (k := demo_km); [apply reach_boot|exact demo_request_ok|vm_compute; reflexivity|done].
Qed.

Definition demo_first_signature : option signed_digest :=
  match demo_signed.1 with OSigned sd :: _ => Some sd | _ => None end.

Lemma signs_only_approved_witness :
  ∃ sd T after ap before tk earlier d, demo_first_signature = Some sd
    ∧ demo_history = after ++ ap :: before ++ tk :: earlier
    ∧ signed_for (C := list Z) T sd ∧ OShow d ∈ tk_outs tk ∧ screen_says (tk_after tk) d T
    ∧ tk_ev ap = EvApprove ∧ kept_since tk (ap :: before).
Proof.
  eexists.
  destruct (signs_only_approved (C := list Z) demo_verify demo_km demo_history demo_approved.2 EvDeferred
    demo_signed.1 demo_signed.2 (default (mk_signed (mk_signing_data [] [] [] 0) (mk_km_sig 0 [] [] 0)) demo_first_signature))
    as (T & after & ap & before & tk & earlier & d & Hh & Hf & Hd & Hs & _ & Ha & Hk).
  - exact demo_boot.
  - exact demo_reach.
  - exact I.
  - vm_compute. reflexivity.
  - done.
  - left.
  - exists T, after, ap, before, tk, earlier, d. split; [reflexivity|]. by split_and!.
Defined.

(** ** A key within the policy *)

Definition demo_path : list Z := mainnet_receive 3.

Definition demo_seeded : wallet_ctx ram_fs Z := Eval vm_compute in
  match wallet_run demo_wallet [WDerive demo_path; WReboot] with Done w => w | _ => demo_wallet end.

Definition demo_pubkey : list Z := Eval vm_compute in
  match wallet_pubkey_at demo_seeded demo_path with Done (Some pk, _) => pk | _ => [] end.

(** The policy is on, no grant was presented, and the path is allowed. *)
Definition demo_signer : signer ram_fs Z :=
  mk_signer demo_seeded (mk_policy (Some demo_path) SECURE_TRUE SECURE_FALSE) crypto_thread_boot.

Definition demo_inputs : list key_manager_psbt_input_t :=
  [mk_km_input 0 (mk_signing_data [mk_keypath (replicate 33 2) (mainnet_receive 4) 5; mk_keypath demo_pubkey demo_path 5]
     [] (replicate 32 77) PSBT_SIGHASH_ALL)].

Definition demo_signatures := Eval vm_compute in
  match key_manager_psbt_sign_p2wsh_inputs demo_signer demo_inputs 4 with
  | Done (_, sigs, g) => (sigs, g) | _ => ([], demo_signer) end.

Lemma psbt_sign_sound_witness :
  length demo_signatures.1 = 1%nat ∧ Forall2 (signed_by_seed demo_signatures.2) demo_inputs demo_signatures.1.
Proof.
  split; [reflexivity|].
  eapply (psbt_sign_sound COIN_TYPE_MAINNET eq_refl demo_signer demo_inputs 4).
  - pose proof (run_ready COIN_TYPE_MAINNET [WDerive demo_path; WReboot] demo_wallet
      (factory_inv COIN_TYPE_MAINNET demo_wallet demo_factory) eq_refl ltac:(repeat constructor)) as Hr.
    replace (wallet_run demo_wallet _) with (Done demo_seeded) in Hr by (vm_compute; reflexivity). exact Hr.
  - repeat constructor.
  - vm_compute. reflexivity.
Defined.

(** The same request for a path that is not allowed. *)
Example other_path_refused :
  match key_manager_psbt_sign_p2wsh_inputs
          (mk_signer demo_seeded (mk_policy (Some (mainnet_receive 9)) SECURE_TRUE SECURE_FALSE) crypto_thread_boot)
          demo_inputs 4 with
  | Done (r, sigs, _) => r = KEY_MANAGER_PSBT_SIGN_POLICY_VIOLATION ∧ sigs = []
  | _ => False
  end.
Proof. vm_compute. done. Qed.

(** ** An action *)







(** ** The same transaction as a stream *)

(** The records of the phone for paths of five indices. *)
Definition input_record (i : sign_tx_input) : list Z :=
  pi_prev_txid i ++ le_encode 4 (pi_prev_index i) ++ le_encode 4 (pi_sequence i) ++ le_encode 8 (pi_amount i)
    ++ [5] ++ concat (map (le_encode 4) (pi_derivation_path i)).
Definition output_record (o : sign_tx_output) : list Z :=
  let p := po_derivation_path o in
  le_encode 8 (po_amount o) ++ [zlen (po_destination_spk o)] ++ ztake 35 (po_destination_spk o ++ replicate 35 0)
    ++ [if po_has_derivation_path o then 1 else 0; zlen p] ++ concat (map (le_encode 4) (ztake 5 (p ++ replicate 5 0))).

Definition demo_payload : list Z := Eval vm_compute in
  replicate (Z.to_nat STREAM_HEADER_SIZE) 0 ++ concat (map input_record (rq_inputs demo_request))
    ++ concat (map output_record (rq_outputs demo_request)).

Fixpoint demo_run (k : km ram_fs Z last_written) (evs : list (km_ev (L := ram_fs) (E := Z))) : list km_out * km ram_fs Z last_written :=
  match evs with
  | [] => ([], k)
  | ev :: evs => let '(o1, k) := after k ev in let '(o2, k) := demo_run k evs in (o1 ++ o2, k)
  end.

Definition demo_stream : list (km_ev (L := ram_fs) (E := Z)) :=
  [EvStreamStart (mk_stream_start 2 2 (rq_version demo_request) (rq_lock_time demo_request) (zlen demo_payload) 0);
   EvTransfer 0 (ztake 200 demo_payload); EvTransfer 1 (zdrop 200 demo_payload);
   EvFinalize demo_env (sha256 (C := list Z) demo_payload); EvApprove; EvDeferred; EvGetBatch 0 2].

Definition signed_digests (outs : list (km_out)) : list signed_digest :=
  flat_map (λ o, match o with OSigned sd => [sd] | _ => [] end) outs.
Definition displays (outs : list km_out) : list send_transaction_data_t :=
  flat_map (λ o, match o with OShow d => [d] | _ => [] end) outs.

(** Both ways show the same and sign the same. *)
Example stream_agrees_with_one_shot :
  let one_shot := (demo_run demo_km [EvSignTx demo_env demo_request; EvApprove; EvDeferred]).1 in
  let stream := (demo_run demo_km demo_stream).1 in
  signed_digests stream = signed_digests one_shot ∧ displays stream = displays one_shot
  ∧ length (signed_digests stream) = 2%nat.
Proof. vm_compute. done. Qed.

(** Without the approval nothing is signed. *)
Example unapproved_stream_is_silent :
  signed_digests (demo_run demo_km (List.filter (λ ev, match ev with EvApprove => false | _ => true end) demo_stream)).1 = [].
Proof. vm_compute. reflexivity. Qed.
