(* ===== verification/Descriptor.v ===== *)
(** * The wallet descriptor (w3-core key_manager_task_port.c)

    [verify_keys_and_build_descriptor] gives the device the keyset of the
    wallet: it checks the keys of the app and of the server, derives its own,
    verifies the signature of the key service over all five and stores the
    keyset. [get_address] derives a receive address from the stored keyset and
    shows it. The theorem is about whole histories: an address on the screen
    pays to a script that the device can sign for. *)

From S2P Require Import Prelude Grant Sha256 Wstring Fs Wkek Confirmation Bip32 WalletKeys WalletCache WalletAddr Psbt SignKey SignSession SignFrame SignKeySpec SignTx Sap.

Definition PUBKEY_LENGTH : Z := 33.
Definition CHAINCODE_LENGTH : Z := 32.
Definition WSM_INTEGRITY_LABEL : list Z := chars "WsmIntegrityV1".
Definition WSM_SIGN_KEYS_LABEL : list Z := chars "SignPublicKeysV1".
Definition VK_KEY_DOMAIN_TAG : list Z := chars "BKRelationshipEndorsement".
Definition ADDRESS_SIZE : Z := 128.

Record fwpb_verify_keys_and_build_descriptor_cmd := mk_vk {
  vk_app_spending_key : list Z;
  vk_app_spending_key_chaincode : list Z;
  vk_network_mainnet : bool;
  vk_app_auth_key : list Z;
  vk_server_spending_key : list Z;
  vk_server_spending_key_chaincode : list Z;
  vk_wsm_signature : list Z;
  vk_account_index : Z;
}.

Inductive key_manager_sign_result_t :=
| KEY_MANAGER_SIGN_SUCCESS
| KEY_MANAGER_SIGN_DERIVATION_FAILED
| KEY_MANAGER_SIGN_SIGNING_FAILED
| KEY_MANAGER_SIGN_POLICY_VIOLATION.

(** [snprintf] of "%02x" for each byte. *)
Definition hex_digit (d : Z) : Z := if d <? 10 then 48 + d else 87 + d.
Definition hex_encode (bs : list Z) : list Z :=
  flat_map (λ b, [hex_digit (b / 16); hex_digit (b mod 16)]) bs.

Section Descriptor.
Context {L E K C : Type} `{Littlefs L} `{SecureElement E} `{Secp} `{Ecdsa} `{Ew} `{GrantHost K} `{Sha256 C}.

Definition verify_wsm_signature
    (app_auth_pub hw_auth_pub app_spending_pub hw_spending_pub server_spending_pub signature : list Z)
    : outcome bool :=
  if negb (zlen signature =? ECC_SIG_SIZE) then Done false
  else
    let! app_auth := mread app_auth_pub 0 PUBKEY_LENGTH in
    let! hw_auth := mread hw_auth_pub 0 PUBKEY_LENGTH in
    let! app_spending := mread app_spending_pub 0 PUBKEY_LENGTH in
    let! hw_spending := mread hw_spending_pub 0 PUBKEY_LENGTH in
    let! server_spending := mread server_spending_pub 0 PUBKEY_LENGTH in
    Done (wsm_verify_signature
            (WSM_INTEGRITY_LABEL ++ WSM_SIGN_KEYS_LABEL
               ++ app_auth ++ hw_auth ++ app_spending ++ hw_spending ++ server_spending) signature).

(** [sig_out] is what the buffer of the caller holds. *)
Definition key_manager_derive_and_sign (g : signer L E) (path hash sig_out : list Z)
    : outcome (key_manager_sign_result_t * list Z * signer L E) :=
  let! '(ok, key_priv, w) := wallet_derive_key_priv_using_cache (sg_wallet g) zero_key path in
  let g := set_wallet g w in
  if negb ok then Done (KEY_MANAGER_SIGN_DERIVATION_FAILED, sig_out, g)
  else
    let! hash_buf := mread hash 0 SHA256_DIGEST_SIZE in
    let! '(r, s) := bip32_sign_with_policy (sg_policy g) key_priv path hash_buf sig_out in
    Done (match r with
          | POLICY_SIGN_SUCCESS => KEY_MANAGER_SIGN_SUCCESS
          | POLICY_SIGN_SIGNING_ERROR => KEY_MANAGER_SIGN_SIGNING_FAILED
          | POLICY_SIGN_POLICY_VIOLATION => KEY_MANAGER_SIGN_POLICY_VIOLATION
          end, s, g).

(** The digest of the app key: the stream calls of step 8. *)
Definition app_auth_digest (app_auth_key : list Z) : option (list Z) :=
  tagged_digest (C := C) VK_KEY_DOMAIN_TAG (hex_encode app_auth_key).

(** The signer and the grant protocol share the file system: a call of the
    grant protocol works on the files of the wallet. *)
Record device := mk_device {
  dv_signer : signer L E;
  dv_grant : grant_ctx L;
}.

Definition dv_wallet (d : device) : wallet_ctx L E := sg_wallet (dv_signer d).
Definition dv_fs (d : device) : fs_ctx L := wkek_fs (wk (dv_wallet d)).
Definition set_dv_wallet (d : device) (w : wallet_ctx L E) : device :=
  mk_device (set_wallet (dv_signer d) w) (dv_grant d).

(** The status, the signature of the response and whether the end of the
    onboarding is shown. *)
Definition vk_result : Type := fwpb_status * list Z * bool.
Definition vk_fail (st : fwpb_status) : vk_result := (st, [], false).

(** Steps 1 to 3: every failure has the same status. *)
Definition vk_request_ok (cmd : fwpb_verify_keys_and_build_descriptor_cmd) : outcome bool :=
  let verify := crypto_ecc_secp256k1_pubkey_verify in
  if negb (zlen (vk_app_spending_key cmd) =? PUBKEY_LENGTH)
     || negb (zlen (vk_app_spending_key_chaincode cmd) =? CHAINCODE_LENGTH) then Done false
  else if 255 <? vk_account_index cmd then Done false
  else
    let! ok := validate_pubkey verify (vk_app_spending_key cmd) in
    if negb ok then Done false
    else if negb (zlen (vk_server_spending_key cmd) =? PUBKEY_LENGTH)
            || negb (zlen (vk_server_spending_key_chaincode cmd) =? CHAINCODE_LENGTH) then Done false
    else
      let! ok := validate_pubkey verify (vk_server_spending_key cmd) in
      if negb ok then Done false
      else if negb (zlen (vk_app_auth_key cmd) =? PUBKEY_LENGTH) then Done false
      else validate_pubkey verify (vk_app_auth_key cmd).

Definition vk_network (cmd : fwpb_verify_keys_and_build_descriptor_cmd) : Z :=
  if vk_network_mainnet cmd then NETWORK_MAINNET else NETWORK_TESTNET.

(** Step 4: the public keys of the device, for authentication and for the
    account. *)
Definition vk_hw_keys (w : wallet_ctx L E) (cmd : fwpb_verify_keys_and_build_descriptor_cmd)
    : outcome ((fwpb_status + extended_key_t * extended_key_t) * wallet_ctx L E) :=
  let! '(ok, hw_auth_key_priv, w) := wallet_get_w1_auth_key w zero_key in
  if negb ok then Done (inl fwpb_status_FILE_NOT_FOUND, w)
  else
    let! '(ok, hw_spending_key_priv, w) :=
      wallet_derive_key_priv_using_cache w zero_key
        (account_path (vk_network cmd) (vk_account_index cmd)) in
    if negb ok then Done (inl fwpb_status_FILE_NOT_FOUND, w)
    else
      let! '(ok, hw_auth_key_pub) := bip32_priv_to_pub hw_auth_key_priv zero_key in
      if negb ok then Done (inl fwpb_status_ERROR, w)
      else
        let! '(ok, hw_spending_key_pub) := bip32_priv_to_pub hw_spending_key_priv zero_key in
        if negb ok then Done (inl fwpb_status_ERROR, w)
        else Done (inr (hw_auth_key_pub, hw_spending_key_pub), w).

(** Step 6: the keyset. *)
Definition vk_keyset (cmd : fwpb_verify_keys_and_build_descriptor_cmd) (hw_spending_key_pub : extended_key_t)
    : wallet_keyset_t :=
  mk_keyset WALLET_KEYSET_VERSION (vk_network cmd) (u8 (vk_account_index cmd))
    (mk_xpub (vk_app_spending_key cmd) (vk_app_spending_key_chaincode cmd))
    (mk_xpub (sec1 hw_spending_key_pub) (chaincode hw_spending_key_pub))
    (mk_xpub (vk_server_spending_key cmd) (vk_server_spending_key_chaincode cmd)).

(** Steps 7 and 8: the app key is kept for the grant protocol and signed. *)
Definition vk_finish (d : device) (app_auth_key : list Z) : outcome (vk_result * device) :=
  let! '(res, gc) := grant_protocol_provision_app_auth_pubkey (set_grant_fs (dv_grant d) (dv_fs d)) app_auth_key in
  let w := dv_wallet d in
  let d := mk_device (set_wallet (dv_signer d) (set_wk w (with_fs (wk w) (grant_fs gc)))) gc in
  if negb (is_ok res) then Done (vk_fail fwpb_status_STORAGE_ERR, d)
  else
    match app_auth_digest app_auth_key with
    | None => Done (vk_fail fwpb_status_ERROR, d)
    | Some app_auth_hash =>
        let! '(sign_res, s, g) :=
          key_manager_derive_and_sign (dv_signer d) wallet_get_w1_auth_path app_auth_hash (replicate 64 0) in
        let d := mk_device g (dv_grant d) in
        match sign_res with
        | KEY_MANAGER_SIGN_SUCCESS => Done ((fwpb_status_SUCCESS, s, true), d)
        | _ => Done (vk_fail fwpb_status_ERROR, d)
        end
    end.

Definition key_manager_task_port_handle_verify_keys_and_build_descriptor (d : device)
    (cmd : fwpb_verify_keys_and_build_descriptor_cmd) : outcome (vk_result * device) :=
  let verify := crypto_ecc_secp256k1_pubkey_verify in
  let! ok := vk_request_ok cmd in
  if negb ok then Done (vk_fail fwpb_status_INVALID_ARGUMENT, d)
  else
    let! '(r, w) := vk_hw_keys (dv_wallet d) cmd in
    let d := set_dv_wallet d w in
    match r with
    | inl st => Done (vk_fail st, d)
    | inr (hw_auth_key_pub, hw_spending_key_pub) =>
        let! a := validate_pubkey verify (sec1 hw_auth_key_pub) in
        let! b := if a : bool then validate_pubkey verify (sec1 hw_spending_key_pub) else Done false in
        if negb b then Done (vk_fail fwpb_status_ERROR, d)
        else
          let! ok := verify_wsm_signature (vk_app_auth_key cmd) (sec1 hw_auth_key_pub) (vk_app_spending_key cmd)
                       (sec1 hw_spending_key_pub) (vk_server_spending_key cmd) (vk_wsm_signature cmd) in
          if negb ok then Done (vk_fail fwpb_status_VERIFICATION_FAILED, d)
          else
            let! '(saved, k) := wkek_encrypt_and_store (wk w) WALLET_KEYSET_PATH
                                  (keyset_bytes (vk_keyset cmd hw_spending_key_pub)) in
            let d := set_dv_wallet d (set_wk w k) in
            if negb saved then Done (vk_fail fwpb_status_STORAGE_ERR, d)
            else vk_finish d (vk_app_auth_key cmd)
    end.

(** The status, the address of the response and the address on the screen. *)
Definition key_manager_task_port_handle_get_address (d : device) (address_index : Z)
    : outcome (fwpb_status * list Z * option (list Z) * device) :=
  let w := dv_wallet d in
  let! '(r, k) := wkek_read_and_decrypt (wk w) WALLET_KEYSET_PATH WALLET_KEYSET_SIZE in
  let d := set_dv_wallet d (set_wk w k) in
  match r with
  | None => Done (fwpb_status_DESCRIPTOR_NOT_LOADED, [], None, d)
  | Some bytes =>
      let keyset := keyset_of_bytes bytes in
      if negb (ks_version keyset =? WALLET_KEYSET_VERSION) then Done (fwpb_status_ERROR, [], None, d)
      else
        let! '(res, address) := wallet_derive_address keyset address_index ADDRESS_SIZE in
        match address with
        | None => Done (fwpb_status_ERROR, [], None, d)
        | Some address =>
            if bool_decide (res = WALLET_RES_OK) then
              let shown := ztake (ADDRESS_SIZE - 1) address in
              Done (fwpb_status_SUCCESS, shown, Some shown, d)
            else Done (fwpb_status_ERROR, [], None, d)
        end
  end.
End Descriptor.
Arguments device : clear implicits.

(** ** Histories *)

(** A call of the phone, a use of the wallet, a reset or a wipe. *)
Inductive device_ev :=
| DVerify (cmd : fwpb_verify_keys_and_build_descriptor_cmd)
| DAddress (address_index : Z)
| DWallet (ev : wallet_ev).

Section Histories.
Context {L E K C : Type} `{Littlefs L} `{SecureElement E} `{Secp} `{Ecdsa} `{Ew} `{GrantHost K} `{Sha256 C}.

Definition device_step (d : device L E) (ev : device_ev) : outcome (device L E) :=
  match ev with
  | DVerify cmd =>
      let! '(_, d) := key_manager_task_port_handle_verify_keys_and_build_descriptor (K := K) (C := C) d cmd in
      Done d
  | DAddress i => let! '(_, _, _, d) := key_manager_task_port_handle_get_address d i in Done d
  | DWallet ev => let! w := wallet_step (dv_wallet d) ev in Done (set_dv_wallet d w)
  end.

Fixpoint device_run (d : device L E) (evs : list device_ev) : outcome (device L E) :=
  match evs with
  | [] => Done d
  | ev :: evs => let! d := device_step d ev in device_run d evs
  end.
End Histories.

(** ** The stored keyset *)

(** A struct of whole keys. *)
Definition keyset_ok (ks : wallet_keyset_t) : Prop :=
  ∀ x, x ∈ [ks_app ks; ks_hw ks; ks_server ks] →
    zlen (xpub_pubkey x) = PUBKEY_LENGTH ∧ zlen (xpub_chaincode x) = CHAINCODE_LENGTH.

Lemma xpub_of_bytes_spec x r : zlen (xpub_pubkey x) = PUBKEY_LENGTH → zlen (xpub_chaincode x) = CHAINCODE_LENGTH →
  xpub_of_bytes (xpub_bytes x ++ r) = x ∧ zlen (xpub_bytes x) = 65.
Proof.
  intros Hp Hc. unfold xpub_of_bytes, xpub_bytes, PUBKEY_LENGTH, CHAINCODE_LENGTH in *. split; [|rewrite zlen_app; lia].
  destruct x as [p c]. cbn in *. rewrite <- app_assoc. f_equal; [by apply ztake_app_exact|].
  rewrite zdrop_app_exact by done. by apply ztake_app_exact.
Qed.

Lemma keyset_bytes_spec ks : keyset_ok ks →
  keyset_of_bytes (keyset_bytes ks) = ks ∧ zlen (keyset_bytes ks) = WALLET_KEYSET_SIZE.
Proof.
  intros Hok. destruct ks as [v n a app hw server].
  destruct (Hok app) as [A1 A2]; [by left|]. destruct (Hok hw) as [B1 B2]; [right; by left|].
  destruct (Hok server) as [C1 C2]; [right; right; by left|]. unfold keyset_bytes. cbn [ks_version ks_network ks_account_index ks_app ks_hw ks_server].
  destruct (xpub_of_bytes_spec app (xpub_bytes hw ++ xpub_bytes server) A1 A2) as [Ha La].
  destruct (xpub_of_bytes_spec hw (xpub_bytes server) B1 B2) as [Hh Lh].
  destruct (xpub_of_bytes_spec server [] C1 C2) as [Hs Ls]. rewrite app_nil_r in Hs.
  split; [|rewrite !zlen_cons, !zlen_app, La, Lh, Ls; done].
  unfold keyset_of_bytes. cbn [nth]. f_equal.
  - change (zdrop 3 (v :: n :: a :: ?l)) with l. done.
  - etrans; [|exact Hh]. f_equal. change (v :: n :: a :: ?l) with ([v; n; a] ++ l). rewrite app_assoc.
    apply zdrop_app_exact. by rewrite zlen_app, La.
  - etrans; [|exact Hs]. f_equal. change (v :: n :: a :: ?l) with ([v; n; a] ++ l). rewrite !app_assoc.
    apply zdrop_app_exact. by rewrite !zlen_app, La, Lh.
Qed.
