(* ===== verification/DescriptorSpec.v ===== *)
(** * Addresses that the device can spend from

    What the descriptor handlers of Descriptor.v guarantee on a medium without
    errors: the stored keyset was signed by the key service in a request of the
    history and its hardware key is the account key of the stored seed, through
    resets and wipes that are interrupted at any removal. *)

From S2P Require Import Prelude Grant Sha256 Wstring Fs Wkek Confirmation Bip32 WalletKeys WalletCache WalletAddr Psbt SignKey SignSession SignFrame SignKeySpec SignTx Sap SignDemo Descriptor.

Lemma safe_and {A} (P Q : A → Prop) (m : outcome A) : safe P m → post Q m → safe (λ a, P a ∧ Q a) m.
Proof. destruct m; simpl; try done. intros ? Hq. split; [done|]. by apply Hq. Qed.

Lemma mread_whole {A} (l : list A) n : zlen l = n → mread l 0 n = Done l.
Proof. intros <-. apply mread_all. Qed.

(** The account paths are shorter than the cached ones. *)
Lemma account_path_of_coin ct network a : path_of_coin ct (account_path network a).
Proof.
  unfold path_of_coin. destruct (get_derivation_path_parts _) as [parts|] eqn:Ep; [|done].
  apply find_parts_spec in Ep as [Hin Hp]. apply (f_equal zlen) in Hp. rewrite zlen_app in Hp.
  pose proof (zlen_nonneg (zdrop (zlen (path parts)) (account_path network a))) as Hn.
  change (zlen (account_path network a)) with 3 in Hp.
  unfold DERIVATION_PATHS in Hin. rewrite !elem_of_cons, elem_of_nil in Hin.
  destruct Hin as [->|[->|[->|[->|[->|[]]]]]]; cbn in Hp; first [lia|by right].
Qed.

Section DescriptorSpec.
Context {L E K C : Type} `{Littlefs L} `{SecureElement E} `{Secp} `{Ecdsa} `{Ew} `{GrantHost K} `{Sha256 C}.
Context `{!LittlefsLaws L} `{!LittlefsReliable L} `{!SecureElementLaws E} `{!SecpLaws} `{!EwLaws} `{!Sha256Laws C}.
Context (ct : coin_type_t) (Hct : known_coin ct = true).
Implicit Types (w : wallet_ctx L E) (g : signer L E) (d : device L E).

(** ** The files that a call leaves alone *)

(** The wallet depends on the key, the seed and the cache file only. *)
Lemma inv_files w k' : wallet_inv ct w → wkek_ok k' →
  (∀ q, q ∈ [WKEK_PATH; SEED_PATH; DERIVED_KEY_CACHE_PATH] → fs_data (wkek_fs k') q = fs_data (wkek_fs (wk w)) q) →
  stays ct w (set_wk w k').
Proof.
  intros (Hs & Hv & Hf & Hi) Hok Hq.
  assert (HW : fs_data (wkek_fs k') WKEK_PATH = fs_data (wkek_fs (wk w)) WKEK_PATH) by (apply Hq; by left).
  assert (HC : fs_data (wkek_fs k') DERIVED_KEY_CACHE_PATH = fs_data (wkek_fs (wk w)) DERIVED_KEY_CACHE_PATH)
    by (apply Hq; right; right; by left).
  destruct (seed_files (wk w) k' Hok Hs HW) as [Hs' Hm]; [apply Hq; right; by left|].
  assert (Hgood : ∀ c, good ct (wk w) c → good ct k' c).
  { intros c (? & ? & Hk). split_and!; [done|done|]. intros. eapply (seed_key_same w (set_wk w k')); [done|by apply Hk]. }
  split; [|done]. split_and!; [done|done| |by intros; apply Hgood, Hi]. cbn [set_wk wk]. unfold has_file. rewrite HC.
  intros Hc. destruct (Hf Hc) as (c & Ho & ?). exists c. split; [|by apply Hgood]. rewrite <- Ho. by apply opened_ext.
Qed.

(** The call keeps the wallet and the file of the keyset. *)
Definition leaves w w' : Prop := stays ct w w' ∧ keyset_of_wallet w' = keyset_of_wallet w.

Lemma leaves_trans w1 w2 w3 : leaves w1 w2 → leaves w2 w3 → leaves w1 w3.
Proof. intros [? ?] [? ?]. split; [by eapply stays_trans|congruence]. Qed.

Lemma leaves_refl w : wallet_inv ct w → leaves w w.
Proof. by intros; split. Qed.

Lemma derive_kept w o p : wallet_inv ct w → path_of_coin ct p →
  safe (λ '(ok, key, w'), leaves w w' ∧ (ok = true → seed_key (wk w') p key)) (wallet_derive_key_priv_using_cache w o p).
Proof.
  intros Hw Hp. eapply safe_mono; [apply safe_and|].
  - by apply (derive_ready ct).
  - by apply derive_keyset_frame.
  - intros [[ok key] w'] [(? & ? & ?) ?]. by split; [split; [split|]|].
Qed.

Lemma priv_to_pub_safe k o : safe (λ '(ok, P), ok = true → neuter k P) (bip32_priv_to_pub k o).
Proof.
  destruct (bip32_priv_to_pub k o) as [[ok P]| | |] eqn:EP; simpl; try done.
  - intros ->. by apply priv_to_pub_neuter in EP.
  - unfold bip32_priv_to_pub in EP. destruct (_ =? _); cbn in EP; [by case_match|done].
  - unfold bip32_priv_to_pub in EP. destruct (_ =? _); cbn in EP; [by case_match|done].
Qed.

Lemma w1_path_of_coin : path_of_coin ct wallet_get_w1_auth_path.
Proof. by right. Qed.

(** The public keys of the device. *)
Lemma hw_keys_kept w cmd : wallet_inv ct w →
  safe (λ '(r, w'), leaves w w' ∧ r ≠ inl fwpb_status_SUCCESS ∧ ∀ A S, r = inr (A, S) → ∃ a s,
      seed_key (wk w') wallet_get_w1_auth_path a ∧ neuter a A
      ∧ seed_key (wk w') (account_path (vk_network cmd) (vk_account_index cmd)) s ∧ neuter s S) (vk_hw_keys w cmd).
Proof.
  intros Hw. unfold vk_hw_keys, wallet_get_w1_auth_key. eapply safe_bind; [apply derive_kept; [done|apply w1_path_of_coin]|].
  intros [[ok a] w1] [K1 Ha]. destruct ok; cbn [negb]; [|done]. specialize (Ha eq_refl).
  eapply safe_bind; [apply derive_kept; [apply K1|apply account_path_of_coin]|].
  intros [[ok s] w2] [K2 Hs]. assert (K12 : leaves w w2) by (by eapply leaves_trans). destruct ok; cbn [negb]; [|done].
  specialize (Hs eq_refl). assert (Ha2 : seed_key (wk w2) wallet_get_w1_auth_path a).
  { eapply seed_key_same; [|exact Ha]. apply K2. }
  eapply safe_bind; [apply priv_to_pub_safe|]. intros [ok A] HA. destruct ok; cbn [negb]; [|done].
  eapply safe_bind; [apply priv_to_pub_safe|]. intros [ok S] HS. destruct ok; cbn [negb]; (split_and!; [done|done|]); [|done].
  intros A' S' [= <- <-]. exists a, s. auto.
Qed.

(** The account key of the keyset that is stored. *)
Lemma keyset_hw_account w cmd s S : 0 ≤ vk_account_index cmd ≤ 255 →
  seed_key (wk w) (account_path (vk_network cmd) (vk_account_index cmd)) s → neuter s S →
  ∃ m, master (wk w) m ∧ hw_account (vk_keyset cmd S) m ∧ zlen (sec1 S) = PUBKEY_LENGTH
    ∧ zlen (chaincode S) = CHAINCODE_LENGTH.
Proof.
  intros Ha (m & Hm & Hd) HS. assert (Hs : key_ok s).
  { destruct Hm as (? & _ & Hm & _). pose proof (derive_priv_ok m (account_path (vk_network cmd) (vk_account_index cmd)) Hm) as Hok.
    rewrite Hd in Hok. apply Hok. }
  pose proof HS as (_ & _ & Hp & Hc). apply law_pub in Hp as [Hp _]. unfold BIP32_SEC1_KEY_SIZE in Hp.
  assert (HcS : zlen (chaincode S) = 32) by (rewrite Hc; apply Hs).
  exists m. split_and!; [done| |done|done]. exists s, S. split_and!; [|by apply priv_to_pub_neuter|].
  - rewrite <- Hd. unfold account_path, coin_of. cbn [vk_keyset ks_network ks_account_index].
    replace (u8 (vk_account_index cmd)) with (vk_account_index cmd) by (unfold u8; rewrite Z.mod_small; lia).
    by destruct (vk_network cmd =? NETWORK_MAINNET).
  - unfold xpub_key. cbn [vk_keyset ks_hw xpub_pubkey xpub_chaincode]. unfold sec1 in *. cbn [aget].
    unfold aget. cbn. rewrite (mread_eq _ [prefix S] (key S) []); [|by rewrite app_nil_r|done|rewrite zlen_cons in Hp; unfold BIP32_KEY_SIZE; lia].
    cbn [obind]. rewrite (mread_eq _ [] (chaincode S) []); [|by rewrite app_nil_r|done|done]. by destruct S.
Qed.

(** The store of the keyset, once there is a key encryption key. *)
Lemma keyset_store_kept w data : wallet_inv ct w → has_file (wk w) WKEK_PATH → 0 < zlen data →
  safe (λ '(ok, k'), stays ct w (set_wk w k')
      ∧ (ok = true → opened k' WALLET_KEYSET_PATH (zlen data) = Some data)
      ∧ (ok = false → leaves w (set_wk w k'))) (wkek_encrypt_and_store (wk w) WALLET_KEYSET_PATH data).
Proof.
  intros Hw HW Hlen. eapply safe_mono; [apply wkek_store_ready; [apply Hw|done|done]|].
  intros [ok k'] (Hok & Hq & HWk & Hst & Hno). specialize (HWk HW).
  assert (Hs : stays ct w (set_wk w k')).
  { apply inv_files; [done|done|]. intros q. rewrite !elem_of_cons, elem_of_nil. intros [->|[->|[->|[]]]]; [done|by apply Hq..]. }
  split_and!; [done|intros Ho; by apply Hst|]. intros Hf. split; [done|]. by apply Hno.
Qed.

(** ** The app key *)

Lemma provision_ready (gc : grant_ctx L) pk : fs_ready (grant_fs gc) → zlen pk = 33 →
  ∃ r gc', grant_protocol_provision_app_auth_pubkey gc pk = Done (r, gc') ∧ fs_ready (grant_fs gc')
    ∧ (∀ q, q ≠ APP_AUTH_PUBKEY_PATH → fs_data (grant_fs gc') q = fs_data (grant_fs gc) q)
    ∧ (r = GRANT_RESULT_OK → fs_data (grant_fs gc') APP_AUTH_PUBKEY_PATH = Some pk).
Proof.
  intros Hs Hpk. unfold grant_protocol_provision_app_auth_pubkey. destruct (negb _); [by eexists _, _|].
  unfold grant_storage_write_app_auth_pubkey. set (flags := Z.lor _ _).
  destruct (open_ready (grant_fs gc) APP_AUTH_PUBKEY_PATH flags Hs) as (s1 & old & E1 & _ & Ho & _); [by right|].
  destruct (open_global_spec _ _ _ _ _ E1) as (Hq1 & _). rewrite E1. cbn [Z.eqb negb].
  change (fs_open_at s1 APP_AUTH_PUBKEY_PATH 0 []) in Ho. rewrite <- Hpk, mread_all. cbn [obind].
  destruct (write_ready s1 _ 0 [] pk Ho) as (s2 & E2 & _ & Ho2); [done|].
  destruct (file_write_spec _ _ _ _ _ _ _ Ho ltac:(done) E2) as (Hq2 & _). rewrite E2.
  destruct (close_ready _ _ _ _ Ho2) as (s3 & E3 & Hs3). rewrite E3.
  destruct (close_global_spec _ _ _ _ _ _ Ho2 E3) as (Hq3 & Hd3 & _). cbn [obind]. rewrite Z.eqb_refl.
  eexists _, _. split; [done|]. cbn [set_grant_fs grant_fs]. split_and!; [done| |].
  - intros q Hq. by rewrite Hq3, Hq2, Hq1.
  - intros _. rewrite Hd3 by done. unfold ztake, zdrop. rewrite drop_nil, app_nil_r. done.
Qed.

Lemma sign_with_policy_defined pol k p hash o :
  bip32_sign_with_policy pol k p hash o ≠ Undef ∧ bip32_sign_with_policy pol k p hash o ≠ Nofuel.
Proof.
  unfold bip32_sign_with_policy. case_match; [|done]. cbn zeta. destruct (negb _); [done|]. by destruct (bip32_sign _ _).
Qed.

Lemma derive_and_sign_kept g p hash o : wallet_inv ct (sg_wallet g) → path_of_coin ct p → zlen hash = 32 →
  safe (λ '(r, s, g'), leaves (sg_wallet g) (sg_wallet g') ∧ sg_policy g' = sg_policy g
      ∧ (r = KEY_MANAGER_SIGN_SUCCESS → signed_at g' p hash s)) (key_manager_derive_and_sign g p hash o).
Proof.
  intros Hw Hp Hh. unfold key_manager_derive_and_sign. eapply safe_bind; [by apply derive_kept|].
  intros [[ok k] w'] [Hk Hs]. destruct ok; cbn [negb]; [|done]. specialize (Hs eq_refl).
  replace SHA256_DIGEST_SIZE with (zlen hash) by done. rewrite mread_all. cbn [obind].
  pose proof (sign_with_policy_spec (sg_policy g) k p hash o) as Hpol. cbn [set_wallet sg_policy].
  destruct (bip32_sign_with_policy (sg_policy g) k p hash o) as [[r s]| | |] eqn:Er; cbn [obind]; [|done|..].
  - split_and!; [done|done|]. destruct r; try done. intros _. destruct (Hpol _ eq_refl eq_refl). by exists k.
  - exfalso. revert Er. apply sign_with_policy_defined.
  - exfalso. revert Er. apply sign_with_policy_defined.
Qed.

(** Signing leaves the file of the app key alone. *)
Lemma app_key_free : APP_AUTH_PUBKEY_PATH ∉ [WKEK_PATH; SEED_PATH; DERIVED_KEY_CACHE_PATH].
Proof. by apply (bool_decide_unpack _). Qed.

Lemma derive_and_sign_app_key g p hash o D : fs_data (wkek_fs (wk (sg_wallet g))) APP_AUTH_PUBKEY_PATH = D →
  post (λ '(_, _, g'), fs_data (wkek_fs (wk (sg_wallet g'))) APP_AUTH_PUBKEY_PATH = D) (key_manager_derive_and_sign g p hash o).
Proof.
  intros Hg. unfold key_manager_derive_and_sign. eapply post_bind; [by apply (derive_keeps _ app_key_free _ _ _ D)|].
  intros [[ok k] w'] Hw'. destruct (negb ok); [by apply post_done|]. apply post_any. intros h. apply post_any.
  intros [r s]. by apply post_done.
Qed.

Definition app_key_stored d (pk : list Z) : Prop := fs_data (dv_fs d) APP_AUTH_PUBKEY_PATH = Some pk.

Lemma finish_kept d pk : wallet_inv ct (dv_wallet d) → zlen pk = 33 →
  safe (λ '(st, s, ui, d'), leaves (dv_wallet d) (dv_wallet d')
      ∧ (st = fwpb_status_SUCCESS → app_key_stored d' pk
           ∧ signed_at (dv_signer d') wallet_get_w1_auth_path (sha256 (VK_KEY_DOMAIN_TAG ++ hex_encode pk)) s))
    (vk_finish (C := C) d pk).
Proof.
  intros Hw Hpk. unfold vk_finish. pose proof Hw as (((Hr & Hc & Hz) & _) & _).
  destruct (provision_ready (set_grant_fs (dv_grant d) (dv_fs d)) pk) as (r & gc & -> & Hr' & Hq & Hst); [done|done|].
  cbn [obind set_grant_fs grant_fs] in *. set (w' := set_wk _ _).
  assert (Hk : leaves (dv_wallet d) w').
  { split; [|by apply Hq]. apply inv_files; [done| |].
    - split_and!; [done|intros Hl dk|intros dk]; cbn; rewrite Hq by done; [by apply Hc|by apply Hz].
    - intros q. rewrite !elem_of_cons, elem_of_nil. intros [->|[->|[->|[]]]]; by apply Hq. }
  unfold is_ok. destruct (bool_decide (r = _)) eqn:Er; cbn [negb]; [|done]. apply bool_decide_eq_true in Er.
  destruct (app_auth_digest pk) as [h|] eqn:Eh; [|done]. apply tagged_digest_spec in Eh.
  eapply safe_bind; [apply safe_and; [apply derive_and_sign_kept; [apply Hk|apply w1_path_of_coin|]|]|].
  { subst h. apply law_digest. }
  { apply (derive_and_sign_app_key _ _ _ _ (Some pk)). by apply Hst. }
  intros [[sr s] g'] [(Hk' & _ & Hs) Hpk']. cbn [dv_signer sg_wallet set_wallet] in Hk'.
  assert (Hkk : leaves (dv_wallet d) (sg_wallet g')) by (by eapply leaves_trans).
  destruct sr; (split; [done|]); [|done..]. intros _. split; [done|]. rewrite <- Eh. auto.
Qed.

(** ** The request *)

Definition valid_pubkey (pk : list Z) : Prop := validate_pubkey crypto_ecc_secp256k1_pubkey_verify pk = Done true.

Definition request_ok (cmd : fwpb_verify_keys_and_build_descriptor_cmd) : Prop :=
  vk_account_index cmd ≤ 255
  ∧ (∀ pk, pk ∈ [vk_app_spending_key cmd; vk_server_spending_key cmd; vk_app_auth_key cmd] →
       zlen pk = PUBKEY_LENGTH ∧ valid_pubkey pk)
  ∧ (∀ c, c ∈ [vk_app_spending_key_chaincode cmd; vk_server_spending_key_chaincode cmd] → zlen c = CHAINCODE_LENGTH).

Lemma validate_safe (v : list Z → bool) pk : 0 < zlen pk →
  safe (λ b, b = true → validate_pubkey v pk = Done true) (validate_pubkey v pk).
Proof.
  intros Hl. unfold validate_pubkey. destruct (aget_total pk 0) as [x ->]; [lia|]. cbn [obind].
  destruct (_ && _); [done|]. by intros ->.
Qed.

Lemma vk_request_spec cmd : safe (λ b, b = true → request_ok cmd) (vk_request_ok cmd).
Proof.
  unfold vk_request_ok, PUBKEY_LENGTH, CHAINCODE_LENGTH.
  destruct (_ || _) eqn:E1; [done|]. apply orb_false_iff in E1 as [E1 E2]. destruct (255 <? _) eqn:E3; [done|].
  apply negb_false_iff in E1, E2. btest. eapply safe_bind; [apply validate_safe; lia|]. intros [|] V1; cbn [negb]; [|done].
  destruct (_ || _) eqn:E4; [done|]. apply orb_false_iff in E4 as [E4 E5]. apply negb_false_iff in E4, E5. btest.
  eapply safe_bind; [apply validate_safe; lia|]. intros [|] V2; cbn [negb]; [|done].
  destruct (negb _) eqn:E6; [done|]. apply negb_false_iff in E6. btest.
  eapply safe_mono; [apply validate_safe; lia|]. intros b V3 ->. split_and!; [done|..].
  - intros pk. rewrite !elem_of_cons, elem_of_nil. intros [->|[->|[->|[]]]]; (split; [done|]); [by apply V1|by apply V2|by apply V3].
  - intros c. rewrite !elem_of_cons, elem_of_nil. intros [->|[->|[]]]; done.
Qed.

(** ** The handler *)

(** The message that the key service signs: the three keys of the request and
    the two of the device. *)
Definition wsm_message (cmd : fwpb_verify_keys_and_build_descriptor_cmd) (A S : extended_key_t) : list Z :=
  WSM_INTEGRITY_LABEL ++ WSM_SIGN_KEYS_LABEL ++ vk_app_auth_key cmd ++ sec1 A ++ vk_app_spending_key cmd
    ++ sec1 S ++ vk_server_spending_key cmd.

(** The keyset of the request with hardware key [S], for master key [m]. *)
Definition vouched (m : extended_key_t) (cmd : fwpb_verify_keys_and_build_descriptor_cmd) (S : extended_key_t) : Prop :=
  request_ok cmd ∧ keyset_ok (vk_keyset cmd S) ∧ hw_account (vk_keyset cmd S) m
  ∧ ∃ a A, derive_priv_loop m None wallet_get_w1_auth_path = Done (true, a, None) ∧ neuter a A
      ∧ wsm_verify_signature (wsm_message cmd A S) (vk_wsm_signature cmd) = true.

Definition stored w cmd : Prop :=
  ∃ m S, master (wk w) m ∧ vouched m cmd S
    ∧ opened (wk w) WALLET_KEYSET_PATH WALLET_KEYSET_SIZE = Some (keyset_bytes (vk_keyset cmd S)).

Lemma verify_wsm_spec p1 p2 p3 p4 p5 sig : Forall (λ p, zlen p = PUBKEY_LENGTH) [p1; p2; p3; p4; p5] →
  safe (λ b, b = true → wsm_verify_signature (WSM_INTEGRITY_LABEL ++ WSM_SIGN_KEYS_LABEL ++ p1 ++ p2 ++ p3 ++ p4 ++ p5) sig = true)
    (verify_wsm_signature p1 p2 p3 p4 p5 sig).
Proof.
  rewrite !Forall_cons. intros (E1 & E2 & E3 & E4 & E5 & _). unfold verify_wsm_signature. destruct (negb _); [done|].
  rewrite (mread_whole p1), (mread_whole p2), (mread_whole p3), (mread_whole p4), (mread_whole p5) by done.
  exact (λ Hv, Hv).
Qed.

Lemma stored_kept w w' cmd : leaves w w' → stored w cmd → stored w' cmd.
Proof.
  intros [[_ [HW Hm]] Hk] (m & S & Hmm & Hv & Ho). exists m, S. split_and!; [by apply Hm|done|]. rewrite <- Ho.
  apply opened_files in Ho as [HK _]. apply opened_ext; [by apply HW|done].
Qed.

Lemma keyset_whole cmd S : request_ok cmd → zlen (sec1 S) = PUBKEY_LENGTH → zlen (chaincode S) = CHAINCODE_LENGTH →
  keyset_ok (vk_keyset cmd S).
Proof.
  intros (_ & Hp & Hc) ?? x. cbn [vk_keyset ks_app ks_hw ks_server]. rewrite !elem_of_cons, elem_of_nil.
  intros [->|[->|[->|[]]]]; cbn [xpub_pubkey xpub_chaincode]; (split; [|done || (apply Hc; by repeat first [left|right])]);
    first [done|apply Hp; by repeat first [left|right]].
Qed.

Lemma verify_keys_kept d cmd : wallet_inv ct (dv_wallet d) → 0 ≤ vk_account_index cmd →
  safe (λ '(st, s, ui, d'), stays ct (dv_wallet d) (dv_wallet d')
      ∧ (leaves (dv_wallet d) (dv_wallet d') ∨ stored (dv_wallet d') cmd)
      ∧ (st = fwpb_status_SUCCESS → stored (dv_wallet d') cmd ∧ app_key_stored d' (vk_app_auth_key cmd)
           ∧ signed_at (dv_signer d') wallet_get_w1_auth_path
               (sha256 (VK_KEY_DOMAIN_TAG ++ hex_encode (vk_app_auth_key cmd))) s))
    (key_manager_task_port_handle_verify_keys_and_build_descriptor (C := C) d cmd).
Proof.
  intros Hw Hidx. unfold key_manager_task_port_handle_verify_keys_and_build_descriptor.
  assert (Hid : leaves (dv_wallet d) (dv_wallet d)) by (by apply leaves_refl).
  eapply safe_bind; [apply vk_request_spec|]. intros [|] Hrq; cbn [negb]; [|split_and!; [apply Hid|by left|done]].
  specialize (Hrq eq_refl). pose proof Hrq as (Hi & Hpk & _).
  eapply safe_bind; [by apply hw_keys_kept|]. intros [r w] (Hk & Hns & Hr). cbn zeta.
  destruct r as [st|[A S]]; [split_and!; [apply Hk|by left|congruence]|]. clear Hns.
  destruct (Hr A S eq_refl) as (a & s & Hsa & HA & Hss & HS). clear Hr.
  destruct (keyset_hw_account w cmd s S) as (m & Hm & Hacc & HpS & HcS); [lia|done|done|].
  assert (HpA : zlen (sec1 A) = PUBKEY_LENGTH) by (destruct HA as (_ & _ & HA & _); by apply law_pub in HA as [? _]).
  assert (Hfail : ∀ st, st ≠ fwpb_status_SUCCESS → stays ct (dv_wallet d) w ∧ (leaves (dv_wallet d) w ∨ stored w cmd)
    ∧ (st = fwpb_status_SUCCESS → stored w cmd ∧ app_key_stored (set_dv_wallet d w) (vk_app_auth_key cmd)
      ∧ signed_at (dv_signer (set_dv_wallet d w)) wallet_get_w1_auth_path
          (sha256 (VK_KEY_DOMAIN_TAG ++ hex_encode (vk_app_auth_key cmd))) [])).
  { intros st ?. split_and!; [apply Hk|by left|done]. }
  eapply safe_bind; [apply validate_safe; unfold PUBKEY_LENGTH in *; lia|]. intros va _.
  eapply (safe_bind (λ _, True)).
  { destruct va; [|done]. eapply safe_mono; [apply validate_safe; unfold PUBKEY_LENGTH in *; lia|done]. }
  intros [|] _; cbn [negb]; [|by apply Hfail].
  eapply safe_bind; [apply verify_wsm_spec|].
  { repeat constructor; first [done|apply Hpk; by repeat first [left|right]]. }
  intros [|] Hwsm; cbn [negb]; [|by apply Hfail]. specialize (Hwsm eq_refl).
  assert (Hv : vouched m cmd S).
  { split_and!; [done|by apply keyset_whole|done|]. destruct Hsa as (m' & Hm' & Hd). exists a, A.
    by rewrite <- (master_functional _ _ _ Hm' Hm). }
  destruct (keyset_bytes_spec (vk_keyset cmd S)) as [_ Hlen]; [apply Hv|].
  eapply safe_bind; [apply keyset_store_kept; [apply Hk| |by rewrite Hlen]|].
  { destruct Hm as (? & Ho & _). by apply opened_files in Ho as [? _]. }
  rewrite Hlen. intros [ok k'] (Hs & Hst & Hno). assert (Hs' : stays ct (dv_wallet d) (set_wk w k')) by (eapply stays_trans; [apply Hk|done]).
  destruct ok; cbn [negb]; [|split_and!; [done|left; by eapply leaves_trans; [|apply Hno]|done]].
  assert (Hsto : stored (set_wk w k') cmd). { exists m, S. split_and!; [by apply Hs|done|by apply Hst]. }
  eapply safe_mono; [apply finish_kept; [apply Hs|by apply Hpk; right; right; left]|].
  intros [[[st sg] ui] d'] (Hk' & Hok). cbn [dv_wallet set_dv_wallet dv_signer set_wallet sg_wallet] in Hk'.
  assert (stored (dv_wallet d') cmd) by (by eapply stored_kept).
  split_and!; [eapply stays_trans; [exact Hs'|apply Hk']|by right|by intros Hst'; destruct (Hok Hst')].
Qed.

(** ** Histories *)

(** The keyset on the medium comes from a request of the history. *)
Definition device_inv (h : list device_ev) d : Prop :=
  wallet_inv ct (dv_wallet d)
  ∧ (has_file (wk (dv_wallet d)) WALLET_KEYSET_PATH → ∃ cmd, DVerify cmd ∈ h ∧ stored (dv_wallet d) cmd).

Definition device_ev_ok (ev : device_ev) : Prop :=
  match ev with
  | DVerify cmd => 0 ≤ vk_account_index cmd
  | DAddress i => 0 ≤ i
  | DWallet ev => ev_of_coin ct ev
  end.

Lemma leaves_inv h h' d d' : h ⊆ h' → device_inv h d → leaves (dv_wallet d) (dv_wallet d') → device_inv h' d'.
Proof.
  intros Hh [Hw Hks] Hk. split; [apply Hk|]. intros Hf. unfold has_file in Hf. pose proof Hk as [_ Hq].
  unfold keyset_of_wallet in Hq. rewrite Hq in Hf. destruct (Hks Hf) as (cmd & Hin & Hs).
  exists cmd. split; [by apply Hh|by eapply stored_kept].
Qed.

(** A reset keeps the files. *)
Lemma reboot_kept w : wallet_inv ct w → leaves w (wallet_reboot w).
Proof.
  intros (Hs & _ & Hf & _). split; [|done]. split; [by apply reboot_ready|]. apply keeps_files. done.
Qed.

(** The keyset is removed before the seed and before the key. *)
Definition keyset_first_at (n : nat) : bool :=
  let gone f := bool_decide (f ∈ take n removed_files) in
  implb (gone SEED_PATH || gone WKEK_PATH) (gone WALLET_KEYSET_PATH).

Lemma keyset_first n : SEED_PATH ∈ take n removed_files ∨ WKEK_PATH ∈ take n removed_files →
  WALLET_KEYSET_PATH ∈ take n removed_files.
Proof.
  assert (Hb : keyset_first_at n = true).
  { do 14 (destruct n as [|n]; [vm_compute; reflexivity|]).
    unfold keyset_first_at. rewrite take_ge by (simpl; lia). vm_compute. reflexivity. }
  unfold keyset_first_at in Hb. intros Hin. rewrite (proj2 (orb_true_iff _ _)) in Hb by (rewrite !bool_decide_eq_true; done).
  by apply bool_decide_eq_true in Hb.
Qed.

Lemma wipe_inv h d n : device_inv h d →
  device_inv h (set_dv_wallet d (wallet_reboot (set_wk (dv_wallet d) (with_fs (wk (dv_wallet d))
    (remove_all (take n removed_files) (wkek_fs (wk (dv_wallet d)))))))).
Proof.
  intros [Hw Hks]. split; [by apply wipe_ready|]. cbn [dv_wallet set_dv_wallet dv_signer set_wallet sg_wallet] in *.
  fold (dv_wallet d). pose proof Hw as (((Hr & _) & _) & _).
  destruct (removed_ready _ (take n removed_files) Hr) as [_ Hd]. set (s' := remove_all _ _) in *.
  set (w' := wallet_reboot _). change (∀ q, fs_data (wkek_fs (wk w')) q = if decide (q ∈ take n removed_files) then None
    else fs_data (wkek_fs (wk (dv_wallet d))) q) in Hd.
  pose proof (keyset_first n) as Ho. unfold has_file. rewrite Hd. case_decide as Hg; [by intros []|]. intros Hf. destruct (Hks Hf) as (cmd & Hin & m & S & (sd & Hsd & Hm) & Hv & Hop).
  exists cmd. split; [done|]. exists m, S. split_and!; [exists sd; split; [|done]|done|].
  - rewrite <- Hsd. apply opened_ext; rewrite Hd, decide_False by tauto; done.
  - rewrite <- Hop. apply opened_ext; rewrite Hd, decide_False by tauto; done.
Qed.

Lemma keyset_read_kept h d : device_inv h d →
  safe (λ '(r, k), leaves (dv_wallet d) (set_wk (dv_wallet d) k)
      ∧ ∀ bytes, r = Some bytes → ∃ cmd m S, DVerify cmd ∈ h ∧ master k m ∧ vouched m cmd S
          ∧ bytes = keyset_bytes (vk_keyset cmd S))
    (wkek_read_and_decrypt (wk (dv_wallet d)) WALLET_KEYSET_PATH WALLET_KEYSET_SIZE).
Proof.
  intros [Hw Hks]. eapply safe_mono; [apply wkek_read_ready; [apply Hw|done|]|].
  { intros (cmd & _ & m & S & _ & _ & Ho)%Hks. by apply opened_files in Ho as [? _]. }
  intros [r k] (Hok & Hq & ->). assert (Hst : stays ct (dv_wallet d) (set_wk (dv_wallet d) k)) by (by apply inv_files).
  split; [split; [done|apply Hq]|]. intros bytes Ho. pose proof Ho as [_ Hf]%opened_files.
  destruct (Hks Hf) as (cmd & Hin & m & S & Hm & Hv & Ho'). exists cmd, m, S. split_and!; [done|by apply Hst|done|congruence].
Qed.

(** What an address is: the script of a vouched keyset, whose hardware key the
    device has the private key of. *)
Definition spendable (h : list device_ev) w (i : Z) (address : list Z) : Prop :=
  ∃ cmd m S spk app hw server, let keyset := vk_keyset cmd S in
    DVerify cmd ∈ h ∧ master (wk w) m ∧ vouched m cmd S
    ∧ wallet_script keyset (receive_path keyset i) MAX_WITNESS_PROGRAM_SIZE app hw server spk
    ∧ ew_script_to_address spk (keyset_network keyset) ADDRESS_SIZE = Some address
    ∧ ∀ key, seed_key (wk w) (receive_path keyset i) key → neuter key hw.

Lemma hardened_range a : 0 ≤ a < 256 → 0 ≤ hardened a < 2 ^ 32.
Proof.
  intros Ha. unfold hardened, BIP32_HARDENED_BIT. assert (0 ≤ Z.lor a 0x80000000) by (apply Z.lor_nonneg; lia).
  split; [done|]. destruct (decide (Z.lor a 0x80000000 = 0)); [lia|]. apply Z.log2_lt_pow2; [lia|].
  rewrite Z.log2_lor by lia. apply Z.max_lub_lt; [|done]. destruct (decide (a = 0)) as [->|]; [done|].
  apply Z.log2_lt_pow2; lia.
Qed.

Lemma receive_path_range cmd S i : 0 ≤ i < BIP32_HARDENED_BIT →
  Forall (λ x, 0 ≤ x < 2 ^ 32) (receive_path (vk_keyset cmd S) i).
Proof.
  intros Hi. change BIP32_HARDENED_BIT with (2 ^ 31) in Hi. unfold receive_path. rewrite !Forall_cons.
  split; [done|]. split; [by destruct (_ =? _)|]. split; [apply hardened_range, Z.mod_pos_bound; lia|].
  split; [done|]. split; [lia|done].
Qed.

Lemma address_ready h d i : device_inv h d → 0 ≤ i →
  post (λ '(st, a, shown, d'), leaves (dv_wallet d) (dv_wallet d')
      ∧ ∀ s, shown = Some s → st = fwpb_status_SUCCESS ∧ a = s ∧ spendable h (dv_wallet d') i s)
    (key_manager_task_port_handle_get_address d i).
Proof.
  intros Hd Hi. unfold key_manager_task_port_handle_get_address.
  eapply post_bind; [by apply post_safe, (keyset_read_kept h)|].
  intros [r k] [Hk Hr]. destruct r as [bytes|]; [|by apply post_done]. destruct (Hr bytes eq_refl) as (cmd & m & S & Hin & Hm & Hv & ->).
  destruct (keyset_bytes_spec (vk_keyset cmd S)) as [-> _]; [apply Hv|]. set (keyset := vk_keyset cmd S).
  change (ks_version keyset =? WALLET_KEYSET_VERSION) with true. cbn [negb]. unfold wallet_derive_address.
  change (ADDRESS_SIZE =? 0) with false. destruct (_ <=? i) eqn:Eh; [by apply post_done|]. apply Z.leb_gt in Eh.
  apply post_eq. intros [res [a|]]; [|by intros; apply post_done]. intros ([spk|] & Espk & E1)%obind_inv; [|done].
  destruct (ew_script_to_address _ _ _) as [a'|] eqn:Ea; [|done]. injection E1 as <- ->. apply post_done. split; [done|].
  rewrite (ztake_all a) by (apply law_ew_address in Ea; lia). intros s [= <-]. split_and!; [done|done|].
  apply derive_spk_sound in Espk as (_ & _ & Hp & app & hw & server & Hs).
  exists cmd, m, S, spk, app, hw, server. split_and!; try done. intros key (m' & Hm' & Hd').
  rewrite <- (master_functional _ _ _ Hm Hm') in Hd'. eapply script_spendable; [|apply Hv|done|done|done].
  by apply receive_path_range.
Qed.

Lemma device_step_inv h d ev : device_inv h d → device_ev_ok ev →
  post (device_inv (h ++ [ev])) (device_step (K := K) (C := C) d ev).
Proof.
  intros Hd Hev. assert (Hsub : h ⊆ h ++ [ev]) by (intros x Hx; apply elem_of_app; by left). pose proof Hd as [Hw _].
  destruct ev as [cmd|i|ev]; cbn [device_step device_ev_ok] in *.
  - eapply post_bind; [by apply post_safe, verify_keys_kept|]. intros [[[st s] ui] d'] (Hs & [Hk|Hst] & _); apply post_done.
    + by eapply leaves_inv.
    + split; [apply Hs|]. intros _. exists cmd. split; [|done]. apply elem_of_app. right. by left.
  - eapply post_bind; [by apply (address_ready h)|]. intros [[[st a] shown] d'] [Hk _]. apply post_done. by eapply leaves_inv.
  - apply post_eq. intros w Hstep. apply post_done. destruct ev as [p| | |n]; cbn [wallet_step ev_of_coin] in *.
    + apply obind_inv in Hstep as ([[ok key] w'] & E1 & [= <-]). pose proof (derive_kept (dv_wallet d) zero_key p Hw Hev) as Hk.
      rewrite E1 in Hk. by eapply leaves_inv; [| |apply Hk].
    + injection Hstep as <-. eapply leaves_inv; [done|done|]. split; [|done]. split; [|done].
      destruct Hw as (? & ? & ? & ?). by split_and!.
    + injection Hstep as <-. eapply leaves_inv; [done|done|]. by apply reboot_kept.
    + injection Hstep as <-. apply wipe_inv. eapply leaves_inv; [done|done|]. by apply leaves_refl.
Qed.

Lemma device_run_inv evs : ∀ h d, device_inv h d → Forall device_ev_ok evs →
  post (device_inv (h ++ evs)) (device_run (K := K) (C := C) d evs).
Proof.
  induction evs as [|ev evs IH]; intros h d Hd Hevs; cbn [device_run].
  { rewrite app_nil_r. by apply post_done. }
  apply Forall_cons in Hevs as [Hev Hevs]. eapply post_bind; [by apply device_step_inv|]. intros d' Hd'.
  rewrite (app_assoc h [ev] evs : h ++ ev :: evs = _). by apply IH.
Qed.

Lemma factory_history d0 h d : factory (dv_wallet d0) → Forall device_ev_ok h →
  device_run (K := K) (C := C) d0 h = Done d → device_inv h d.
Proof.
  intros Hf Hevs Hrun. apply (device_run_inv h [] d0); [|done|done]. split; [by apply factory_inv|].
  destruct Hf as (_ & _ & _ & _ & Hf). unfold has_file. rewrite Hf. by intros [].
Qed.

(** C19: An address that the device shows can be spent from with the device.
    After any history of descriptor requests, address requests, key
    derivations at paths of one network, resets and wipes, complete or
    interrupted at any removal, on a device that started without files and whose
    medium has no errors ([LittlefsReliable]): the address on the screen is the one in the response, and it is the address of
    the 2-of-3 script of a keyset whose keys were signed by the key service in a
    request of the history, together with the authentication key of the stored
    seed; every private key of the stored seed at the path of the address is
    the key of the hardware public key in that script. Derivations for both
    networks mix up the keys ([WalletCache.testnet_path_gets_mainnet_key]). *)
Theorem shown_address_spendable d0 h d i st a s d' :
  factory (dv_wallet d0) → Forall device_ev_ok h → 0 ≤ i →
  device_run (K := K) (C := C) d0 h = Done d →
  key_manager_task_port_handle_get_address d i = Done (st, a, Some s, d') →
  st = fwpb_status_SUCCESS ∧ a = s ∧ spendable h (dv_wallet d') i s.
Proof.
  intros Hf Hevs Hi Hrun Ha. by apply (address_ready h d i (factory_history d0 h d Hf Hevs Hrun) Hi _ Ha).
Qed.

(** C20: A descriptor request that is answered with success has done all of its
    work, after any history of descriptor requests, address requests, key
    derivations at paths of one network, resets and wipes on a device that
    started without files and whose medium has no errors ([LittlefsReliable]).
    The stored keyset has the keys
    of the request and the account key of the stored seed, the signature of the
    key service over all five public keys was valid, the app key is stored for
    the grants, and the signature in the response is over the digest of the app
    key by the authentication key of the seed, allowed by the policy. On a medium
    with errors the app key can be missing ([success_without_app_key]). *)
Theorem descriptor_verified d0 h d cmd sig ui d' :
  factory (dv_wallet d0) → Forall device_ev_ok h → 0 ≤ vk_account_index cmd →
  device_run (K := K) (C := C) d0 h = Done d →
  key_manager_task_port_handle_verify_keys_and_build_descriptor (C := C) d cmd
    = Done ((fwpb_status_SUCCESS, sig, ui), d') →
  stored (dv_wallet d') cmd ∧ app_key_stored d' (vk_app_auth_key cmd)
  ∧ signed_at (dv_signer d') wallet_get_w1_auth_path
      (sha256 (VK_KEY_DOMAIN_TAG ++ hex_encode (vk_app_auth_key cmd))) sig.
Proof.
  intros Hf Hevs Hi Hrun Hr. destruct (factory_history d0 h d Hf Hevs Hrun) as [Hw _].
  pose proof (post_safe _ _ (verify_keys_kept d cmd Hw Hi) _ Hr) as (_ & _ & Hok). by apply Hok.
Qed.
End DescriptorSpec.

(** ** A device *)

#[local] Existing Instance toy_sha256.
#[local] Existing Instance toy_sha256_laws.
#[local] Existing Instance toy_ew.
#[local] Existing Instance toy_ew_laws.
#[local] Existing Instance toy_secp.
#[local] Existing Instance toy_secp_laws.
#[local] Existing Instance toy_ecdsa.

Definition new_device : device ram_fs Z :=
  mk_device (mk_signer demo_wallet (policy_init policy_boot wallet_get_w1_auth_path SECURE_TRUE) crypto_thread_boot)
    demo_grant_ctx.

Definition demo_request (account : Z) (wsm_byte : Z) : fwpb_verify_keys_and_build_descriptor_cmd :=
  mk_vk (2 :: replicate 32 11) (replicate 32 12) true (3 :: replicate 32 21) (2 :: replicate 32 13) (replicate 32 14)
    (replicate 64 wsm_byte) account.

Definition demo_history : list device_ev :=
  [DVerify (demo_request 1 6); DWallet (WDerive (mainnet_receive 4)); DWallet WReboot;
   DVerify (demo_request 2 7); DAddress 9; DWallet (WWipe 1)].

Definition after (h : list device_ev) : device ram_fs Z :=
  match device_run (K := unit) (C := list Z) new_device h with Done d => d | _ => new_device end.

Definition address_after (h : list device_ev) (i : Z) : outcome (fwpb_status * option (list Z)) :=
  let! '(st, _, s, _) := key_manager_task_port_handle_get_address (after h) i in Done (st, s).

Lemma demo_history_ok : Forall (device_ev_ok COIN_TYPE_MAINNET) demo_history.
Proof. repeat (apply Forall_cons; split); [done|by left|done..]. Qed.

Lemma shown_address_spendable_witness :
  ∃ a d', key_manager_task_port_handle_get_address (after demo_history) 5 = Done (fwpb_status_SUCCESS, a, Some a, d')
    ∧ spendable (K := unit) demo_history (dv_wallet d') 5 a.
Proof.
  eexists _, _. split; [vm_compute; reflexivity|].
  eapply (shown_address_spendable (K := unit) (C := list Z) COIN_TYPE_MAINNET eq_refl new_device demo_history (after demo_history) 5).
  - exact demo_factory.
  - exact demo_history_ok.
  - lia.
  - vm_compute. reflexivity.
  - vm_compute. reflexivity.
Defined.

Lemma descriptor_verified_witness :
  ∃ sig d', key_manager_task_port_handle_verify_keys_and_build_descriptor (K := unit) (C := list Z) (after demo_history)
      (demo_request 3 6) = Done ((fwpb_status_SUCCESS, sig, true), d')
    ∧ stored (K := unit) (dv_wallet d') (demo_request 3 6) ∧ app_key_stored d' (3 :: replicate 32 21)
    ∧ signed_at (dv_signer d') wallet_get_w1_auth_path
        (sha256 (VK_KEY_DOMAIN_TAG ++ hex_encode (3 :: replicate 32 21))) sig.
Proof.
  eexists _, _. split; [vm_compute; reflexivity|].
  eapply (descriptor_verified (K := unit) (C := list Z) COIN_TYPE_MAINNET eq_refl new_device demo_history (after demo_history)
    (demo_request 3 6)).
  - exact demo_factory.
  - exact demo_history_ok.
  - cbn. lia.
  - vm_compute. reflexivity.
  - vm_compute. reflexivity.
Defined.

(** A request without a valid signature leaves the keyset as it is; a wipe that
    got as far as the keyset leaves nothing to show. *)
Example unsigned_request_refused :
  address_after [DVerify (demo_request 1 6); DVerify (demo_request 2 7)] 5 = address_after [DVerify (demo_request 1 6)] 5
  ∧ address_after [DVerify (demo_request 1 6); DVerify (demo_request 2 6)] 5 ≠ address_after [DVerify (demo_request 1 6)] 5.
Proof. split; [vm_compute; reflexivity|vm_compute; discriminate]. Qed.

Example wiped_keyset_not_shown :
  address_after [DVerify (demo_request 1 6); DWallet (WWipe 2)] 5 = Done (fwpb_status_DESCRIPTOR_NOT_LOADED, None).
Proof. vm_compute. reflexivity. Qed.

(** The message of the key service has the five public keys and nothing else: a
    request with another chain code for the server key is accepted under the
    same signature, and changes the addresses. *)
Definition other_chaincode (cmd : fwpb_verify_keys_and_build_descriptor_cmd) : fwpb_verify_keys_and_build_descriptor_cmd :=
  mk_vk (vk_app_spending_key cmd) (vk_app_spending_key_chaincode cmd) (vk_network_mainnet cmd) (vk_app_auth_key cmd)
    (vk_server_spending_key cmd) (replicate 32 99) (vk_wsm_signature cmd) (vk_account_index cmd).

Lemma chaincodes_not_signed cmd A S : wsm_message (other_chaincode cmd) A S = wsm_message cmd A S.
Proof. done. Qed.

Example chaincode_changes_address :
  ∃ a b, address_after [DVerify (demo_request 1 6)] 5 = Done (fwpb_status_SUCCESS, Some a)
    ∧ address_after [DVerify (other_chaincode (demo_request 1 6))] 5 = Done (fwpb_status_SUCCESS, Some b) ∧ a ≠ b.
Proof. eexists _, _. split; [vm_compute; reflexivity|]. split; [vm_compute; reflexivity|]. discriminate. Qed.

(** The medium while the file of the app key cannot be closed: littlefs gives an
    error and what was written to the file is lost. *)
Definition app_key_close_fails : Littlefs ram_fs := {|
  lfs_file_opencfg := lfs_file_opencfg (L := ram_fs);
  lfs_file_close l h :=
    match ram_handle l h with
    | Some (p, _, _) => if decide (p = APP_AUTH_PUBKEY_PATH) then (-5, ram_set l h None) else lfs_file_close l h
    | None => lfs_file_close l h
    end;
  lfs_file_read := lfs_file_read (L := ram_fs);
  lfs_file_write := lfs_file_write (L := ram_fs);
  lfs_file_size := lfs_file_size (L := ram_fs);
  lfs_file_seek := lfs_file_seek (L := ram_fs);
  lfs_remove := lfs_remove (L := ram_fs);
  lfs_stat := lfs_stat (L := ram_fs);
  lfs_data := lfs_data (L := ram_fs);
  lfs_open_at := lfs_open_at (L := ram_fs);
|}.

Lemma app_key_close_fails_laws : @LittlefsLaws ram_fs app_key_close_fails.
Proof.
  pose proof ram_fs_laws as []. split; try done. intros l h p pos d r l' Ho Hc.
  change (ram_handle l h = Some (p, pos, d)) in Ho.
  cbn [lfs_file_close app_key_close_fails] in Hc. rewrite Ho in Hc. destruct (decide (p = APP_AUTH_PUBKEY_PATH)).
  - injection Hc as <- <-. cbn [lfs_data app_key_close_fails ram_fs_ops]. split; [|split; [done|]]; intros; by rewrite ram_find_set.
  - exact (law_close l h p pos d r l' Ho Hc).
Qed.

(** A request that is answered with success although the app key was not
    stored: the storage of the grants ignores the result of the close. *)
Example success_without_app_key :
  match @key_manager_task_port_handle_verify_keys_and_build_descriptor ram_fs Z unit (list Z)
          app_key_close_fails _ _ _ _ _ new_device (demo_request 1 6) with
  | Done ((st, _, _), d) => st = fwpb_status_SUCCESS ∧ fs_data (dv_fs d) APP_AUTH_PUBKEY_PATH = Some []
  | _ => False
  end.
Proof. vm_compute. done. Qed.
