(* ===== verification/Recovery.v ===== *)
(** * Recovery commands (w3-core: sealed_data_utils.c, eek_restoration.c,
    keyset_repair.c, lost_app_recovery.c, rotate_app_auth_keys.c,
    upgrade_rotate_app_auth_keys.c, recovery_composites.c,
    full_account_cloud_backup_restoration.c, key_manager_task_port.c)

    Commands that open keys which the app keeps sealed with the device, or sign
    with the authentication key of the device. A command is stored in the
    session of its kind and shown on the screen; the user approves it, and the
    second tap of the phone fetches the result. Two of them are continued by a
    third command.

    A step returns the response, the action that it puts on the screen and the
    uses of keys: every digest signed with the authentication key and every
    sealed key that was opened. *)

From S2P Require Import Prelude Sha256 Wstring Fs Wkek Confirmation Bip32 WalletKeys WalletAddr Psbt SignKey SignSession SignTx Sap Descriptor.

Definition CONFIRMATION_TYPE_LOST_APP_RECOVERY : Z := 5.
Definition CONFIRMATION_TYPE_LOST_APP_RECOVERY_SIGN_CHALLENGE : Z := 6.
Definition CONFIRMATION_TYPE_ROTATE_APP_AUTH_KEYS : Z := 7.
Definition CONFIRMATION_TYPE_SIGN_CHALLENGE_AND_SEAL_SEKS : Z := 8.
Definition CONFIRMATION_TYPE_RECOVERY_AUTHORIZE_LOST_APP : Z := 9.
Definition CONFIRMATION_TYPE_RECOVERY_AUTHORIZE_LOST_HW : Z := 10.
Definition CONFIRMATION_TYPE_EEK_RESTORATION_UNSEAL_SYMMETRIC_KEY : Z := 11.
Definition CONFIRMATION_TYPE_FULL_ACCOUNT_CLOUD_BACKUP_RESTORATION : Z := 12.
Definition CONFIRMATION_TYPE_UPGRADE_AUTHORIZE_W3 : Z := 13.
Definition CONFIRMATION_TYPE_UPGRADE_ROTATE_APP_AUTH_KEYS : Z := 14.
Definition CONFIRMATION_TYPE_KEYSET_REPAIR_UNSEAL_SYMMETRIC_KEY : Z := 15.
Definition CONFIRMATION_TYPE_KEYSET_REPAIR_ROTATE_HW_KEY : Z := 16.

Definition SAP_ACTION_CREATE_LOST_APP_RECOVERY : Z := 15.
Definition SAP_ACTION_ROTATE_APP_AUTH_KEYS : Z := 18.
Definition SAP_ACTION_EEK_RESTORATION : Z := 21.
Definition SAP_ACTION_FULL_ACCOUNT_CLOUD_BACKUP_RESTORE : Z := 22.
Definition SAP_ACTION_APPROVE_APP_RECOVERY : Z := 23.
Definition SAP_ACTION_START_RECOVERY : Z := 24.
Definition SAP_ACTION_COMPLETE_WALLET : Z := 25.
Definition SAP_ACTION_UPGRADE_WALLET : Z := 26.
Definition SAP_ACTION_INITIATE_WALLET_UPGRADE : Z := 29.
Definition SAP_ACTION_KEYSET_REPAIR_UNSEAL : Z := 32.
Definition SAP_ACTION_KEYSET_REPAIR_ROTATE : Z := 33.

Definition AUTH_CHALLENGE_TAG : list Z := chars "BKAuthChallenge".
Definition DELAY_NOTIFY_TAG : list Z := chars "BKDelayNotifyChallenge".
Definition AUTH_ROTATION_TAG : list Z := chars "BKAuthRotation".

(** ** Requests and sessions *)

Record fwpb_sealed_data := mk_sealed {
  sealed_bytes : list Z;
  sealed_nonce : list Z;
  sealed_tag : list Z;
}.
Definition zero_sealed : fwpb_sealed_data := mk_sealed [] [] [].

Record sealed_unseal_session_t := mk_unseal {
  us_sealed_key : fwpb_sealed_data;
  us_valid : bool;
}.
Definition zero_unseal : sealed_unseal_session_t := mk_unseal zero_sealed false.

Record lost_app_recovery_session_t := mk_lar {
  lar_unseal : sealed_unseal_session_t;
  lar_confirmed : bool;
}.
Definition zero_lar : lost_app_recovery_session_t := mk_lar zero_unseal false.

Record lar_sign_challenge_session_t := mk_sc {
  sc_challenge_hash : list Z;
  sc_valid : bool;
  sc_signed_ok : bool;
  sc_sign_attempted : bool;
  sc_sign_result : fwpb_status;
  sc_signature : list Z;
}.
Definition zero_sc : lar_sign_challenge_session_t :=
  mk_sc (replicate 32 0) false false false fwpb_status_UNSPECIFIED (replicate 64 0).

Record facbr_session_t := mk_facbr {
  fb_valid : bool;
  fb_confirmed : bool;
  fb_session_token : list Z;
}.
Definition zero_facbr : facbr_session_t := mk_facbr false false (replicate 32 0).

Record keyset_repair_rotate_session_t := mk_rotate {
  ro_access_token_hash : list Z;
  ro_next_account_index : Z;
  ro_mainnet : bool;
  ro_valid : bool;
}.
Definition zero_rotate : keyset_repair_rotate_session_t := mk_rotate (replicate 32 0) 0 false false.

Record fwpb_rotate_app_auth_keys_cmd := mk_raak_cmd {
  ra_action_proof_version : Z;
  ra_action : list Z;
  ra_value : list Z;
  ra_bindings : list Z;
  ra_account_id : list Z;
  ra_app_global_auth_key : list Z;
}.
Record raak_session_t := mk_raak {
  raak_cmd : fwpb_rotate_app_auth_keys_cmd;
  raak_valid : bool;
}.
Definition zero_raak : raak_session_t := mk_raak (mk_raak_cmd 0 [] [] [] [] []) false.

Record upgrade_raak_session_t := mk_uraak {
  ur_account_id : list Z;
  ur_app_global_auth_key : list Z;
  ur_valid : bool;
}.
Definition zero_uraak : upgrade_raak_session_t := mk_uraak [] [] false.

Record scas_session_t := mk_scas {
  scas_challenge_hash : list Z;
  scas_csek : list Z;
  scas_ssek : list Z;
  scas_valid : bool;
}.
Definition zero_scas : scas_session_t := mk_scas (replicate 32 0) (replicate 32 0) (replicate 32 0) false.

(** [rala_session_t], [ralh_session_t] and [uaw3_session_t]: an optional field
    is [None] when its flag is not set. *)
Record rala_session_t := mk_rala {
  rala_ddk : option fwpb_sealed_data;
  rala_ssek : option fwpb_sealed_data;
  rala_descriptor_backups : list Z;
  rala_activate_keyset : list Z;
  rala_version : Z;
  rala_valid : bool;
}.
Definition zero_rala : rala_session_t := mk_rala None None [] [] 0 false.

Record ralh_session_t := mk_ralh {
  ralh_ddk : option (list Z);
  ralh_descriptor_backups : list Z;
  ralh_activate_keyset : list Z;
  ralh_version : Z;
  ralh_valid : bool;
}.
Definition zero_ralh : ralh_session_t := mk_ralh None [] [] 0 false.

Record uaw3_session_t := mk_uaw3 {
  uaw3_ddk : option (list Z);
  uaw3_ssek : option fwpb_sealed_data;
  uaw3_descriptor_backups : list Z;
  uaw3_activate_keyset : list Z;
  uaw3_version : Z;
  uaw3_valid : bool;
}.
Definition zero_uaw3 : uaw3_session_t := mk_uaw3 None None [] [] 0 false.

(** The bindings of the two action proofs of a composite. *)
Record proof_bindings := mk_bindings {
  pb_descriptor_backups : list Z;
  pb_activate_keyset : list Z;
  pb_version : Z;
}.

Record lost_app_recovery_continue_cmd := mk_lar_continue {
  lc_action_proof_version : Z;
  lc_action : list Z;
  lc_value : list Z;
  lc_bindings : list Z;
  lc_next_account_index : Z;
  lc_mainnet : bool;
  lc_app_global_auth_key : list Z;
}.

(** A key descriptor: the serialized key, its path and the fingerprint of the
    master key. *)
Record fwpb_key_descriptor := mk_descriptor {
  kd_bare_bip32_key : list Z;
  kd_origin_path : option (list Z);
  kd_origin_fingerprint : list Z;
}.

(** What a response carries; an empty list is a field that was not filled. *)
Inductive recovery_result :=
| rv_none
| rv_unsealed (key : list Z)
| rv_confirmed
| rv_signature (sig : list Z)
| rv_rotated (descriptor : fwpb_key_descriptor) (sig : list Z)
| rv_auth_keys (proof account app_key pub : list Z)
| rv_sealed (sig : list Z) (csek ssek : fwpb_sealed_data)
| rv_authorized (ddk ssek : option (list Z)) (sealed_ddk : option fwpb_sealed_data) (backups keyset : list Z)
| rv_recovered (proof : list Z) (descriptor : option fwpb_key_descriptor) (app_key : list Z).

Record recovery_rsp := mk_rv_rsp {
  rv_status : fwpb_status;
  rv_handles : option (list Z * list Z);
  rv_result : recovery_result;
}.
Definition rv_only (st : fwpb_status) : recovery_rsp := mk_rv_rsp st None rv_none.

(** A use of the keys of the device. *)
Inductive key_use :=
| used_auth_key (digest : list Z)
| opened_sealed (sealed : fwpb_sealed_data).

(** The static sessions of the files. *)
Record sessions := mk_sessions {
  s_eek : sealed_unseal_session_t;
  s_repair : sealed_unseal_session_t;
  s_rotate : keyset_repair_rotate_session_t;
  s_lar : lost_app_recovery_session_t;
  s_sc : lar_sign_challenge_session_t;
  s_facbr : facbr_session_t;
  s_raak : raak_session_t;
  s_uraak : upgrade_raak_session_t;
  s_scas : scas_session_t;
  s_rala : rala_session_t;
  s_ralh : ralh_session_t;
  s_uaw3 : uaw3_session_t;
}.
Definition zero_sessions : sessions :=
  mk_sessions zero_unseal zero_unseal zero_rotate zero_lar zero_sc zero_facbr zero_raak zero_uraak
    zero_scas zero_rala zero_ralh zero_uaw3.

Definition put_eek x s := mk_sessions x (s_repair s) (s_rotate s) (s_lar s) (s_sc s) (s_facbr s) (s_raak s)
  (s_uraak s) (s_scas s) (s_rala s) (s_ralh s) (s_uaw3 s).
Definition put_repair x s := mk_sessions (s_eek s) x (s_rotate s) (s_lar s) (s_sc s) (s_facbr s) (s_raak s)
  (s_uraak s) (s_scas s) (s_rala s) (s_ralh s) (s_uaw3 s).
Definition put_rotate x s := mk_sessions (s_eek s) (s_repair s) x (s_lar s) (s_sc s) (s_facbr s) (s_raak s)
  (s_uraak s) (s_scas s) (s_rala s) (s_ralh s) (s_uaw3 s).
Definition put_lar x s := mk_sessions (s_eek s) (s_repair s) (s_rotate s) x (s_sc s) (s_facbr s) (s_raak s)
  (s_uraak s) (s_scas s) (s_rala s) (s_ralh s) (s_uaw3 s).
Definition put_sc x s := mk_sessions (s_eek s) (s_repair s) (s_rotate s) (s_lar s) x (s_facbr s) (s_raak s)
  (s_uraak s) (s_scas s) (s_rala s) (s_ralh s) (s_uaw3 s).
Definition put_facbr x s := mk_sessions (s_eek s) (s_repair s) (s_rotate s) (s_lar s) (s_sc s) x (s_raak s)
  (s_uraak s) (s_scas s) (s_rala s) (s_ralh s) (s_uaw3 s).
Definition put_raak x s := mk_sessions (s_eek s) (s_repair s) (s_rotate s) (s_lar s) (s_sc s) (s_facbr s) x
  (s_uraak s) (s_scas s) (s_rala s) (s_ralh s) (s_uaw3 s).
Definition put_uraak x s := mk_sessions (s_eek s) (s_repair s) (s_rotate s) (s_lar s) (s_sc s) (s_facbr s)
  (s_raak s) x (s_scas s) (s_rala s) (s_ralh s) (s_uaw3 s).
Definition put_scas x s := mk_sessions (s_eek s) (s_repair s) (s_rotate s) (s_lar s) (s_sc s) (s_facbr s)
  (s_raak s) (s_uraak s) x (s_rala s) (s_ralh s) (s_uaw3 s).
Definition put_rala x s := mk_sessions (s_eek s) (s_repair s) (s_rotate s) (s_lar s) (s_sc s) (s_facbr s)
  (s_raak s) (s_uraak s) (s_scas s) x (s_ralh s) (s_uaw3 s).
Definition put_ralh x s := mk_sessions (s_eek s) (s_repair s) (s_rotate s) (s_lar s) (s_sc s) (s_facbr s)
  (s_raak s) (s_uraak s) (s_scas s) (s_rala s) x (s_uaw3 s).
Definition put_uaw3 x s := mk_sessions (s_eek s) (s_repair s) (s_rotate s) (s_lar s) (s_sc s) (s_facbr s)
  (s_raak s) (s_uraak s) (s_scas s) (s_rala s) (s_ralh s) x.

Section Recovery.
Context {L E C : Type} `{Littlefs L} `{SecureElement E} `{Secp} `{Ecdsa} `{Sha256 C}.

Record recovery := mk_recovery {
  rc_signer : signer L E;
  rc_cm : confirmation_ctx unit;
  rc_sessions : sessions;
}.

Definition rc_wallet (d : recovery) : wallet_ctx L E := sg_wallet (rc_signer d).
Definition with_signer (d : recovery) (g : signer L E) : recovery := mk_recovery g (rc_cm d) (rc_sessions d).
Definition with_wallet (d : recovery) (w : wallet_ctx L E) : recovery := with_signer d (set_wallet (rc_signer d) w).
Definition with_cm (d : recovery) (c : confirmation_ctx unit) : recovery := mk_recovery (rc_signer d) c (rc_sessions d).
Definition on_sessions (f : sessions → sessions) (d : recovery) : recovery :=
  mk_recovery (rc_signer d) (rc_cm d) (f (rc_sessions d)).

Definition clear_cm (d : recovery) : outcome recovery :=
  let! c := confirmation_manager_clear (rc_cm d) in Done (with_cm d c).

(** The response, the action on the screen, the uses of keys and the state. *)
Definition step_result : Type := recovery_rsp * option Z * list key_use * recovery.
Definition reply (st : fwpb_status) (d : recovery) : outcome step_result := Done (rv_only st, None, [], d).

(** ** Helpers *)

Definition validate (d : recovery) (rh ch : list Z) (now : Z) : outcome (confirmation_result_t * recovery) :=
  let! '(v, c) := confirmation_manager_validate (rc_cm d) (Some rh) (zlen rh) (Some ch) (zlen ch) now in
  Done (v, with_cm d c).

(** The handles, if the confirmation was created. *)
Definition create_confirmation (d : recovery) (e : env) (type : Z) : outcome (option (list Z * list Z) * recovery) :=
  let! '(r, handles, c) :=
    confirmation_manager_create (rc_cm d) type (Some [1]) 1 true CONFIRMATION_HANDLE_SIZE CONFIRMATION_HANDLE_SIZE
      (rng1 e) (rng2 e) (systime e) in
  Done (if bool_decide (r = CONFIRMATION_RESULT_SUCCESS) then handles else None, with_cm d c).

(** The prompt, or the error path [failed]. *)
Definition create_confirmation_with_prompt (d : recovery) (e : env) (type sap_action : Z)
    (failed : recovery → outcome step_result) : outcome step_result :=
  let! '(handles, d) := create_confirmation d e type in
  match handles with
  | None => failed d
  | Some hs => Done (mk_rv_rsp fwpb_status_CONFIRMATION_PENDING (Some hs) rv_none, Some sap_action, [], d)
  end.

(** The output buffer is zeroed before the call. *)
Definition sealed_data_unseal (d : recovery) (sealed : fwpb_sealed_data) : outcome (option (list Z) * recovery) :=
  if (zlen (sealed_bytes sealed) =? 0) || (AES_256_LENGTH_BYTES <? zlen (sealed_bytes sealed)) then Done (None, d)
  else if negb (zlen (sealed_nonce sealed) =? AES_GCM_IV_LENGTH) then Done (None, d)
  else if negb (zlen (sealed_tag sealed) =? AES_GCM_TAG_LENGTH) then Done (None, d)
  else
    let w := rc_wallet d in
    let! '(res, key, k) := wallet_csek_decrypt (wk w) (sealed_bytes sealed) (sealed_nonce sealed) (sealed_tag sealed) in
    let d := with_wallet d (set_wk w k) in
    Done (match res, key with
          | WALLET_RES_OK, Some key => Some (ztake AES_256_LENGTH_BYTES (key ++ replicate 32 0))
          | _, _ => None
          end, d).

Definition seal_bytes (d : recovery) (input : list Z) : outcome (option fwpb_sealed_data * recovery) :=
  if (zlen input =? 0) || (AES_256_LENGTH_BYTES <? zlen input) then Done (None, d)
  else
    let w := rc_wallet d in
    let! '(res, r, k) := wallet_csek_encrypt (wk w) input in
    let d := with_wallet d (set_wk w k) in
    Done (match res, r with
          | WALLET_RES_OK, Some (ct, iv, tag) => Some (mk_sealed ct iv tag)
          | _, _ => None
          end, d).

Definition sign_status_to_fwpb (r : key_manager_sign_result_t) : fwpb_status :=
  match r with
  | KEY_MANAGER_SIGN_SUCCESS => fwpb_status_SUCCESS
  | KEY_MANAGER_SIGN_DERIVATION_FAILED => fwpb_status_KEY_DERIVATION_FAILED
  | KEY_MANAGER_SIGN_POLICY_VIOLATION => fwpb_status_INVALID_ARGUMENT
  | KEY_MANAGER_SIGN_SIGNING_FAILED => fwpb_status_SIGNING_FAILED
  end.

(** A signature with the authentication key, through the policy. *)
Definition auth_sign (d : recovery) (hash : list Z) : outcome (fwpb_status * list Z * list key_use * recovery) :=
  let! '(r, s, g) := key_manager_derive_and_sign (rc_signer d) wallet_get_w1_auth_path hash (replicate 64 0) in
  let st := sign_status_to_fwpb r in
  Done (st, s, if bool_decide (st = fwpb_status_SUCCESS) then [used_auth_key hash] else [], with_signer d g).

(** A signature with the authentication key, without the policy:
    [wallet_get_w1_auth_key] and [bip32_sign]. *)
Definition auth_sign_raw (d : recovery) (hash : list Z) : outcome (fwpb_status * list Z * list key_use * recovery) :=
  let! '(ok, auth_key, w) := wallet_get_w1_auth_key (rc_wallet d) zero_key in
  let d := with_wallet d w in
  if negb ok then Done (fwpb_status_KEY_DERIVATION_FAILED, [], [], d)
  else
    let '(ok, sig) := bip32_sign auth_key hash in
    if negb ok then Done (fwpb_status_SIGNING_FAILED, [], [], d)
    else Done (fwpb_status_SUCCESS, sig, [used_auth_key hash], d).

(** The digest of [data] under [tag], signed: the steps of the rotations. An
    empty string is refused. *)
Definition tagged_sign (d : recovery) (tag data : list Z) (may_be_empty : bool)
    : outcome (fwpb_status * list Z * list key_use * recovery) :=
  if (zlen data =? 0) && negb may_be_empty then Done (fwpb_status_INVALID_ARGUMENT, [], [], d)
  else
    match tagged_digest (C := C) tag data with
    | None => Done (fwpb_status_ERROR, [], [], d)
    | Some hash => auth_sign d hash
    end.

(** An action proof in a session of its own, and the status of [sap_sign]. *)
Definition sign_action (d : recovery) (data : sap_pending_data_t)
    : outcome (fwpb_status * list Z * list key_use * recovery) :=
  let s := mk_sap data (sap_payload_buffer zero_sap) (sap_signature zero_sap) false false fwpb_status_UNSPECIFIED in
  let! '(h, s, w) := sap_sign (C := C) s (rc_wallet d) in
  Done (sap_sign_result s, sap_signature s, match h with Some h => [used_auth_key h] | None => [] end, with_wallet d w).

(** An action proof of the fields of a command, when they fit. *)
Definition sign_action_fields (d : recovery) (version : Z) (action value bindings : list Z)
    : outcome (fwpb_status * list Z * list key_use * recovery) :=
  if (64 <=? zlen action) || (128 <=? zlen value) || (256 <=? zlen bindings)
  then Done (fwpb_status_INVALID_ARGUMENT, [], [], d)
  else sign_action d (mk_sap_data true version action value bindings).

Definition sign_sap_proof (d : recovery) (action bindings : list Z) (version : Z)
    : outcome (option (list Z) * list key_use * recovery) :=
  if (64 <=? zlen action) || (256 <=? zlen bindings) then Done (None, [], d)
  else
    let! '(st, sig, uses, d) := sign_action d (mk_sap_data true version action [] bindings) in
    Done (if bool_decide (st = fwpb_status_SUCCESS) then Some sig else None, uses, d).

(** ** Key descriptors (core key_manager_task.c) *)

Definition key_manager_derive_and_serialize_pubkey (d : recovery) (path : list Z) (version : Z)
    : outcome (option (list Z * list Z) * recovery) :=
  let w := rc_wallet d in
  let! '(res, key_priv, fps, k) := seed_derive_bip32 (wk w) path zero_key in
  let d := with_wallet d (set_wk w k) in
  match res, fps with
  | SEED_RES_OK, Some (master_fp, parent_fp) =>
      let! '(ok, key_pub) := bip32_priv_to_pub key_priv zero_key in
      if negb ok then Done (None, d)
      else
        let child_number := if 0 <? zlen path then default 0 (last path) else 0 in
        let! '(ok, bare) := bip32_serialize_ext_key key_pub None (Some parent_fp) version child_number (zlen path)
                              BIP32_SERIALIZED_EXT_KEY_SIZE in
        Done (if ok : bool then Some (bare, master_fp) else None, d)
  | _, _ => Done (None, d)
  end.

Definition key_manager_derive_key_descriptor (d : recovery) (path : list Z) (version : Z)
    : outcome (option fwpb_key_descriptor * recovery) :=
  let! '(r, d) := key_manager_derive_and_serialize_pubkey d path version in
  Done (match r with
        | None => None
        | Some (bare, master_fp) =>
            Some (mk_descriptor bare (if 0 <? zlen path then Some path else None) master_fp)
        end, d).

(** The descriptor of the next account key. *)
Definition next_spending_key (d : recovery) (mainnet : bool) (index : Z) : outcome (option fwpb_key_descriptor * recovery) :=
  key_manager_derive_key_descriptor d (account_path (if mainnet then NETWORK_MAINNET else NETWORK_TESTNET) index)
    (if mainnet then MAINNET_PUB else TESTNET_PUB).

(** ** sealed_data_utils.c *)

(** [put] writes the session that the caller owns. *)
Definition sealed_unseal_clear_state (put : sealed_unseal_session_t → sessions → sessions) (d : recovery)
    : outcome recovery :=
  let! d := clear_cm d in Done (on_sessions (put zero_unseal) d).

Definition sealed_unseal_begin (put : sealed_unseal_session_t → sessions → sessions) (d : recovery) (e : env)
    (sealed_key : fwpb_sealed_data) (sap_action type : Z) : outcome step_result :=
  let! d := sealed_unseal_clear_state put d in
  if negb (zlen (sealed_bytes sealed_key) =? AES_256_LENGTH_BYTES)
     || negb (zlen (sealed_nonce sealed_key) =? AES_GCM_IV_LENGTH)
     || negb (zlen (sealed_tag sealed_key) =? AES_GCM_TAG_LENGTH)
  then reply fwpb_status_INVALID_ARGUMENT d
  else
    let d := on_sessions (put (mk_unseal sealed_key true)) d in
    create_confirmation_with_prompt d e type sap_action
      (λ d, let! d := sealed_unseal_clear_state put d in reply fwpb_status_ERROR d).

Definition sealed_unseal_finish (get : sessions → sealed_unseal_session_t)
    (put : sealed_unseal_session_t → sessions → sessions) (d : recovery) (rh ch : list Z) (now : Z)
    : outcome step_result :=
  let! '(v, d) := validate d rh ch now in
  match v with
  | CONFIRMATION_RESULT_NOT_APPROVED => reply fwpb_status_CONFIRMATION_PENDING d
  | CONFIRMATION_RESULT_SUCCESS =>
      let session := get (rc_sessions d) in
      if negb (us_valid session) then let! d := sealed_unseal_clear_state put d in reply fwpb_status_ERROR d
      else
        let! '(r, d) := sealed_data_unseal d (us_sealed_key session) in
        let! d := sealed_unseal_clear_state put d in
        match r with
        | None => reply fwpb_status_ERROR d
        | Some key => Done (mk_rv_rsp fwpb_status_SUCCESS None (rv_unsealed key), None,
                            [opened_sealed (us_sealed_key session)], d)
        end
  | _ => let! d := sealed_unseal_clear_state put d in reply fwpb_status_CONFIRMATION_NOT_COMPLETED d
  end.

(** ** eek_restoration.c and the first tap of keyset_repair.c *)

Definition eek_restoration_unseal_symmetric_key_handle_init (d : recovery) (e : env) (sealed : fwpb_sealed_data) :=
  sealed_unseal_begin put_eek d e sealed SAP_ACTION_EEK_RESTORATION
    CONFIRMATION_TYPE_EEK_RESTORATION_UNSEAL_SYMMETRIC_KEY.
Definition eek_restoration_unseal_symmetric_key_confirmation_result_handler := sealed_unseal_finish s_eek put_eek.

Definition keyset_repair_unseal_symmetric_key_handle_init (d : recovery) (e : env) (sealed : fwpb_sealed_data) :=
  sealed_unseal_begin put_repair d e sealed SAP_ACTION_KEYSET_REPAIR_UNSEAL
    CONFIRMATION_TYPE_KEYSET_REPAIR_UNSEAL_SYMMETRIC_KEY.
Definition keyset_repair_unseal_confirmation_result_handler := sealed_unseal_finish s_repair put_repair.

(** ** The second tap of keyset_repair.c *)

Definition keyset_repair_rotate_clear_state (d : recovery) : outcome recovery :=
  let! d := clear_cm d in Done (on_sessions (put_rotate zero_rotate) d).

Definition keyset_repair_rotate_hw_key_handle_init (d : recovery) (e : env) (access_token_hash : list Z)
    (next_account_index : Z) (mainnet : bool) : outcome step_result :=
  let! d := keyset_repair_rotate_clear_state d in
  if negb (zlen access_token_hash =? SHA256_DIGEST_SIZE) then reply fwpb_status_INVALID_ARGUMENT d
  else
    let d := on_sessions (put_rotate (mk_rotate access_token_hash next_account_index mainnet true)) d in
    create_confirmation_with_prompt d e CONFIRMATION_TYPE_KEYSET_REPAIR_ROTATE_HW_KEY SAP_ACTION_KEYSET_REPAIR_ROTATE
      (λ d, let! d := keyset_repair_rotate_clear_state d in reply fwpb_status_ERROR d).

Definition keyset_repair_rotate_confirmation_result_handler (d : recovery) (rh ch : list Z) (now : Z)
    : outcome step_result :=
  let! '(v, d) := validate d rh ch now in
  match v with
  | CONFIRMATION_RESULT_NOT_APPROVED => reply fwpb_status_CONFIRMATION_PENDING d
  | CONFIRMATION_RESULT_SUCCESS =>
      let session := s_rotate (rc_sessions d) in
      if negb (ro_valid session) then let! d := keyset_repair_rotate_clear_state d in reply fwpb_status_ERROR d
      else
        let! '(desc, d) := next_spending_key d (ro_mainnet session) (ro_next_account_index session) in
        match desc with
        | None => let! d := keyset_repair_rotate_clear_state d in reply fwpb_status_KEY_DERIVATION_FAILED d
        | Some desc =>
            let! '(st, sig, uses, d) := auth_sign d (ro_access_token_hash session) in
            let! d := keyset_repair_rotate_clear_state d in
            Done (mk_rv_rsp st None (if bool_decide (st = fwpb_status_SUCCESS) then rv_rotated desc sig else rv_none),
                  None, uses, d)
        end
  | _ => let! d := keyset_repair_rotate_clear_state d in reply fwpb_status_CONFIRMATION_NOT_COMPLETED d
  end.

(** ** lost_app_recovery.c *)

Definition put_lar_unseal (u : sealed_unseal_session_t) (s : sessions) : sessions :=
  put_lar (mk_lar u (lar_confirmed (s_lar s))) s.
Definition put_lar_confirmed (b : bool) (s : sessions) : sessions := put_lar (mk_lar (lar_unseal (s_lar s)) b) s.

Definition lost_app_recovery_handle_init (d : recovery) (e : env) (sealed_ssek : fwpb_sealed_data) : outcome step_result :=
  let! '(r, scr, uses, d) := sealed_unseal_begin put_lar_unseal d e sealed_ssek SAP_ACTION_CREATE_LOST_APP_RECOVERY
                               CONFIRMATION_TYPE_LOST_APP_RECOVERY in
  Done (r, scr, uses, on_sessions (put_lar_confirmed false) d).

Definition lar_session_clear (d : recovery) : recovery := on_sessions (put_lar zero_lar) d.

Definition lar_confirmation_result_handler (d : recovery) (rh ch : list Z) (now : Z) : outcome step_result :=
  let! '(v, d) := validate d rh ch now in
  match v with
  | CONFIRMATION_RESULT_NOT_APPROVED => reply fwpb_status_CONFIRMATION_PENDING d
  | CONFIRMATION_RESULT_SUCCESS =>
      let session := lar_unseal (s_lar (rc_sessions d)) in
      if negb (us_valid session) then let! d := clear_cm d in reply fwpb_status_ERROR d
      else
        let! '(r, d) := sealed_data_unseal d (us_sealed_key session) in
        match r with
        | None => reply fwpb_status_ERROR (lar_session_clear d)
        | Some key => Done (mk_rv_rsp fwpb_status_SUCCESS None (rv_unsealed key), None,
                            [opened_sealed (us_sealed_key session)], on_sessions (put_lar_confirmed true) d)
        end
  | _ => let! d := clear_cm (lar_session_clear d) in reply fwpb_status_CONFIRMATION_NOT_COMPLETED d
  end.

Definition lost_app_recovery_is_session_ready (d : recovery) : bool :=
  us_valid (lar_unseal (s_lar (rc_sessions d))) && lar_confirmed (s_lar (rc_sessions d)).

(** Steps 1 to 3 of the continue handler: the status, the result, the uses. *)
Definition lar_continue (d : recovery) (cmd : lost_app_recovery_continue_cmd)
    : outcome (fwpb_status * recovery_result * list key_use * recovery) :=
  if negb (lc_action_proof_version cmd =? 1) then Done (fwpb_status_INVALID_ARGUMENT, rv_none, [], d)
  else if sap_parse_action (lc_action cmd) =? SAP_ACTION_COUNT then Done (fwpb_status_INVALID_ARGUMENT, rv_none, [], d)
  else if negb (sap_parse_action (lc_action cmd) =? SAP_ACTION_CREATE_LOST_APP_RECOVERY)
  then Done (fwpb_status_INVALID_ARGUMENT, rv_none, [], d)
  else
    let! '(st, proof, uses, d) :=
      sign_action_fields d (lc_action_proof_version cmd) (lc_action cmd) (lc_value cmd) (lc_bindings cmd) in
    if negb (bool_decide (st = fwpb_status_SUCCESS)) then Done (st, rv_none, uses, d)
    else
      let! '(desc, d) := next_spending_key d (lc_mainnet cmd) (lc_next_account_index cmd) in
      match desc with
      | None => Done (fwpb_status_KEY_DERIVATION_FAILED, rv_recovered proof None [], uses, d)
      | Some desc =>
          let! '(st, sig, uses2, d) := tagged_sign d VK_KEY_DOMAIN_TAG (lc_app_global_auth_key cmd) true in
          Done (st, rv_recovered proof (Some desc) (if bool_decide (st = fwpb_status_SUCCESS) then sig else []),
                uses ++ uses2, d)
      end.

Definition key_manager_task_handle_lost_app_recovery_continue (d : recovery) (cmd : lost_app_recovery_continue_cmd)
    : outcome step_result :=
  let! '(st, res, uses, d) :=
    if negb (lost_app_recovery_is_session_ready d) then Done (fwpb_status_ERROR, rv_none, [], d)
    else lar_continue d cmd in
  let! d := clear_cm (lar_session_clear d) in
  Done (mk_rv_rsp st None res, None, uses, d).

(** *** The challenge of a lost app *)

Definition lar_sc_clear_state (d : recovery) : outcome recovery :=
  let! d := clear_cm d in Done (on_sessions (put_sc zero_sc) d).

Definition lost_app_recovery_sign_challenge_handle_init (d : recovery) (e : env) (challenge : list Z)
    : outcome step_result :=
  let! d := lar_sc_clear_state d in
  if zlen challenge =? 0 then reply fwpb_status_INVALID_ARGUMENT d
  else
    let! '(ok, _, w) := wallet_get_w1_auth_key (rc_wallet d) zero_key in
    let d := with_wallet d w in
    if negb ok then reply fwpb_status_KEY_DERIVATION_FAILED d
    else
      match tagged_digest (C := C) AUTH_CHALLENGE_TAG challenge with
      | None => reply fwpb_status_ERROR d
      | Some hash =>
          let d := on_sessions (put_sc (mk_sc hash true false false fwpb_status_UNSPECIFIED (replicate 64 0))) d in
          create_confirmation_with_prompt d e CONFIRMATION_TYPE_LOST_APP_RECOVERY_SIGN_CHALLENGE
            SAP_ACTION_APPROVE_APP_RECOVERY (λ d, reply fwpb_status_ERROR (on_sessions (put_sc zero_sc) d))
      end.

Definition lar_sc_sign (d : recovery) : outcome (list key_use * recovery) :=
  let s := s_sc (rc_sessions d) in
  let! '(st, sig, uses, d) := auth_sign_raw d (sc_challenge_hash s) in
  let ok := bool_decide (st = fwpb_status_SUCCESS) in
  Done (uses, on_sessions (put_sc (mk_sc (sc_challenge_hash s) (sc_valid s) (if ok then true else sc_signed_ok s) true st
                                     (if ok then sig else sc_signature s))) d).

Definition lar_sc_confirmation_result_handler (d : recovery) (rh ch : list Z) (now : Z) : outcome step_result :=
  let! '(v, d) := validate d rh ch now in
  match v with
  | CONFIRMATION_RESULT_NOT_APPROVED => reply fwpb_status_CONFIRMATION_PENDING d
  | CONFIRMATION_RESULT_SUCCESS =>
      let! '(uses, d) := if negb (sc_sign_attempted (s_sc (rc_sessions d))) then lar_sc_sign d else Done ([], d) in
      let s := s_sc (rc_sessions d) in
      if sc_signed_ok s then
        let! d := lar_sc_clear_state d in
        Done (mk_rv_rsp fwpb_status_SUCCESS None (rv_signature (sc_signature s)), None, uses, d)
      else if sc_sign_attempted s then
        let! d := lar_sc_clear_state d in Done (rv_only (sc_sign_result s), None, uses, d)
      else Done (rv_only fwpb_status_CONFIRMATION_PENDING, None, uses, d)
  | _ => let! d := lar_sc_clear_state d in reply fwpb_status_CONFIRMATION_NOT_COMPLETED d
  end.

(** ** full_account_cloud_backup_restoration.c *)

Definition facbr_session_clear (d : recovery) : recovery := on_sessions (put_facbr zero_facbr) d.

Definition full_account_cloud_backup_restoration_handle_init (d : recovery) (e : env) : outcome step_result :=
  let! d := clear_cm d in
  let d := on_sessions (put_facbr (mk_facbr true false (replicate 32 0))) d in
  let! '(handles, d) := create_confirmation d e CONFIRMATION_TYPE_FULL_ACCOUNT_CLOUD_BACKUP_RESTORATION in
  match handles with
  | None => reply fwpb_status_ERROR (facbr_session_clear d)
  | Some (rh, ch) =>
      Done (mk_rv_rsp fwpb_status_CONFIRMATION_PENDING (Some (rh, ch)) rv_none,
            Some SAP_ACTION_FULL_ACCOUNT_CLOUD_BACKUP_RESTORE, [],
            on_sessions (put_facbr (mk_facbr true false rh)) d)
  end.

Definition full_account_cloud_backup_restoration_confirmation_result_handler (d : recovery) (rh ch : list Z) (now : Z)
    : outcome step_result :=
  let! '(v, d) := validate d rh ch now in
  match v with
  | CONFIRMATION_RESULT_NOT_APPROVED => reply fwpb_status_CONFIRMATION_PENDING d
  | CONFIRMATION_RESULT_SUCCESS =>
      let s := s_facbr (rc_sessions d) in
      if negb (fb_valid s) then let! d := clear_cm d in reply fwpb_status_ERROR d
      else Done (mk_rv_rsp fwpb_status_SUCCESS None rv_confirmed, None, [],
                 on_sessions (put_facbr (mk_facbr (fb_valid s) true (fb_session_token s))) d)
  | _ => let! d := clear_cm (facbr_session_clear d) in reply fwpb_status_CONFIRMATION_NOT_COMPLETED d
  end.

Definition full_account_cloud_backup_restoration_handle_continue (d : recovery) (session_token : list Z)
    (sealed_csek : fwpb_sealed_data) : outcome step_result :=
  let s := s_facbr (rc_sessions d) in
  if negb (fb_valid s && fb_confirmed s) then reply fwpb_status_INVALID_STATE d
  else
    let! differ :=
      if negb (zlen session_token =? CONFIRMATION_HANDLE_SIZE) then Done true
      else let! r := memcmp_s session_token (fb_session_token s) CONFIRMATION_HANDLE_SIZE in Done (negb (r =? 0)) in
    if differ : bool then let! d := clear_cm (facbr_session_clear d) in reply fwpb_status_CONFIRMATION_MISMATCH d
    else
      let! '(r, d) := sealed_data_unseal d sealed_csek in
      match r with
      | None => reply fwpb_status_SEAL_CSEK_UNSEAL_FAILED d
      | Some key =>
          let! d := clear_cm (facbr_session_clear d) in
          Done (mk_rv_rsp fwpb_status_SUCCESS None (rv_unsealed key), None, [opened_sealed sealed_csek], d)
      end.

(** ** rotate_app_auth_keys.c and upgrade_rotate_app_auth_keys.c *)

Definition raak_session_clear (d : recovery) : recovery := on_sessions (put_raak zero_raak) d.

Definition rotate_app_auth_keys_handle_init (d : recovery) (e : env) (cmd : fwpb_rotate_app_auth_keys_cmd)
    : outcome step_result :=
  let! d := clear_cm d in
  let d := on_sessions (put_raak (mk_raak cmd true)) d in
  create_confirmation_with_prompt d e CONFIRMATION_TYPE_ROTATE_APP_AUTH_KEYS SAP_ACTION_ROTATE_APP_AUTH_KEYS
    (λ d, reply fwpb_status_ERROR (raak_session_clear d)).

(** The public authentication key, derived from the seed. *)
Definition hw_auth_public_key (d : recovery) : outcome (option (list Z) * recovery) :=
  let w := rc_wallet d in
  let! '(res, key_priv, _, k) := seed_derive_bip32 (wk w) wallet_get_w1_auth_path zero_key in
  let d := with_wallet d (set_wk w k) in
  if negb (bool_decide (res = SEED_RES_OK)) then Done (None, d)
  else
    let! '(ok, key_pub) := bip32_priv_to_pub key_priv zero_key in
    Done (if ok : bool then Some (sec1 key_pub) else None, d).

(** The account, the app key and the public key, which both rotations share;
    [proof] is what the response has so far. *)
Definition rotate_keys (d : recovery) (proof account_id app_key : list Z)
    : outcome (fwpb_status * recovery_result * list key_use * recovery) :=
  let! '(st, sig1, uses1, d) := tagged_sign d AUTH_ROTATION_TAG account_id false in
  if negb (bool_decide (st = fwpb_status_SUCCESS)) then Done (st, rv_auth_keys proof [] [] [], uses1, d)
  else
    let! '(st, sig2, uses2, d) := tagged_sign d VK_KEY_DOMAIN_TAG app_key false in
    if negb (bool_decide (st = fwpb_status_SUCCESS)) then Done (st, rv_auth_keys proof sig1 [] [], uses1 ++ uses2, d)
    else
      let! '(pub, d) := hw_auth_public_key d in
      match pub with
      | None => Done (fwpb_status_KEY_DERIVATION_FAILED, rv_auth_keys proof sig1 sig2 [], uses1 ++ uses2, d)
      | Some pub => Done (fwpb_status_SUCCESS, rv_auth_keys proof sig1 sig2 pub, uses1 ++ uses2, d)
      end.

(** Steps 1 to 4 of the handler. *)
Definition raak_perform (d : recovery) (cmd : fwpb_rotate_app_auth_keys_cmd)
    : outcome (fwpb_status * recovery_result * list key_use * recovery) :=
  if negb (ra_action_proof_version cmd =? 1) then Done (fwpb_status_INVALID_ARGUMENT, rv_auth_keys [] [] [] [], [], d)
  else if sap_parse_action (ra_action cmd) =? SAP_ACTION_COUNT
  then Done (fwpb_status_INVALID_ARGUMENT, rv_auth_keys [] [] [] [], [], d)
  else if negb (sap_parse_action (ra_action cmd) =? SAP_ACTION_ROTATE_APP_AUTH_KEYS)
  then Done (fwpb_status_INVALID_ARGUMENT, rv_auth_keys [] [] [] [], [], d)
  else
    let! '(st, proof, uses, d) :=
      sign_action_fields d (ra_action_proof_version cmd) (ra_action cmd) (ra_value cmd) (ra_bindings cmd) in
    if negb (bool_decide (st = fwpb_status_SUCCESS)) then Done (st, rv_auth_keys [] [] [] [], uses, d)
    else
      let! '(st, res, uses2, d) := rotate_keys d proof (ra_account_id cmd) (ra_app_global_auth_key cmd) in
      Done (st, res, uses ++ uses2, d).

Definition raak_confirmation_result_handler (d : recovery) (rh ch : list Z) (now : Z) : outcome step_result :=
  let! '(v, d) := validate d rh ch now in
  match v with
  | CONFIRMATION_RESULT_NOT_APPROVED => reply fwpb_status_CONFIRMATION_PENDING d
  | CONFIRMATION_RESULT_SUCCESS =>
      let s := s_raak (rc_sessions d) in
      if negb (raak_valid s) then let! d := clear_cm d in reply fwpb_status_ERROR d
      else
        let! '(st, res, uses, d) := raak_perform d (raak_cmd s) in
        let! d := clear_cm (raak_session_clear d) in
        Done (mk_rv_rsp st None res, None, uses, d)
  | _ => let! d := clear_cm (raak_session_clear d) in reply fwpb_status_CONFIRMATION_NOT_COMPLETED d
  end.

Definition upgrade_raak_session_clear (d : recovery) : recovery := on_sessions (put_uraak zero_uraak) d.

Definition upgrade_rotate_app_auth_keys_handle_init (d : recovery) (e : env) (account_id app_key : list Z)
    : outcome step_result :=
  let! d := clear_cm d in
  let d := on_sessions (put_uraak (mk_uraak account_id app_key true)) d in
  create_confirmation_with_prompt d e CONFIRMATION_TYPE_UPGRADE_ROTATE_APP_AUTH_KEYS SAP_ACTION_INITIATE_WALLET_UPGRADE
    (λ d, reply fwpb_status_ERROR (upgrade_raak_session_clear d)).

Definition upgrade_raak_confirmation_result_handler (d : recovery) (rh ch : list Z) (now : Z) : outcome step_result :=
  let! '(v, d) := validate d rh ch now in
  match v with
  | CONFIRMATION_RESULT_NOT_APPROVED => reply fwpb_status_CONFIRMATION_PENDING d
  | CONFIRMATION_RESULT_SUCCESS =>
      let s := s_uraak (rc_sessions d) in
      if negb (ur_valid s) then let! d := clear_cm d in reply fwpb_status_ERROR d
      else
        let! '(st, res, uses, d) := rotate_keys d [] (ur_account_id s) (ur_app_global_auth_key s) in
        let! d := clear_cm (upgrade_raak_session_clear d) in
        Done (mk_rv_rsp st None res, None, uses, d)
  | _ => let! d := clear_cm (upgrade_raak_session_clear d) in reply fwpb_status_CONFIRMATION_NOT_COMPLETED d
  end.

(** ** recovery_composites.c *)

(** What follows [validate_confirmation]: [clear] is the clear-all of the
    command, [body] what it does for an approved confirmation. *)
Definition with_confirmation (clear : recovery → outcome recovery) (body : recovery → outcome step_result)
    (d : recovery) (rh ch : list Z) (now : Z) : outcome step_result :=
  let! '(v, d) := validate d rh ch now in
  match v with
  | CONFIRMATION_RESULT_NOT_APPROVED => reply fwpb_status_CONFIRMATION_PENDING d
  | CONFIRMATION_RESULT_SUCCESS => body d
  | _ => let! d := clear d in reply fwpb_status_CONFIRMATION_NOT_COMPLETED d
  end.

(** The label [fail]: a status that is not one of these becomes an error. *)
Definition fail_status (st : fwpb_status) : fwpb_status :=
  match st with
  | fwpb_status_SIGNING_FAILED | fwpb_status_KEY_DERIVATION_FAILED | fwpb_status_INVALID_ARGUMENT => st
  | _ => fwpb_status_ERROR
  end.

Definition fail_with (clear : recovery → outcome recovery) (st : fwpb_status) (uses : list key_use) (d : recovery)
    : outcome step_result :=
  let! d := clear d in Done (rv_only (fail_status st), None, uses, d).

Definition scas_clear_all (d : recovery) : outcome recovery :=
  let! d := clear_cm d in Done (on_sessions (put_scas zero_scas) d).

Definition recovery_composites_sign_challenge_and_seal_handle_init (d : recovery) (e : env)
    (challenge unsealed_csek unsealed_ssek : list Z) : outcome step_result :=
  let! d := scas_clear_all d in
  if zlen challenge =? 0 then reply fwpb_status_INVALID_ARGUMENT d
  else if negb (zlen unsealed_csek =? AES_256_LENGTH_BYTES) then reply fwpb_status_INVALID_ARGUMENT d
  else if negb (zlen unsealed_ssek =? AES_256_LENGTH_BYTES) then reply fwpb_status_INVALID_ARGUMENT d
  else
    let! '(ok, _, w) := wallet_get_w1_auth_key (rc_wallet d) zero_key in
    let d := with_wallet d w in
    if negb ok then reply fwpb_status_KEY_DERIVATION_FAILED d
    else
      match tagged_digest (C := C) DELAY_NOTIFY_TAG challenge with
      | None => reply fwpb_status_ERROR d
      | Some hash =>
          let d := on_sessions (put_scas (mk_scas hash unsealed_csek unsealed_ssek true)) d in
          create_confirmation_with_prompt d e CONFIRMATION_TYPE_SIGN_CHALLENGE_AND_SEAL_SEKS SAP_ACTION_START_RECOVERY
            (λ d, reply fwpb_status_ERROR (on_sessions (put_scas zero_scas) d))
      end.

Definition scas_confirmation_result_handler : recovery → list Z → list Z → Z → outcome step_result :=
  with_confirmation scas_clear_all (λ d,
    let s := s_scas (rc_sessions d) in
    if negb (scas_valid s) then let! d := scas_clear_all d in reply fwpb_status_ERROR d
    else
      let! '(st, sig, uses, d) := auth_sign_raw d (scas_challenge_hash s) in
      if negb (bool_decide (st = fwpb_status_SUCCESS)) then fail_with scas_clear_all st uses d
      else
        let! '(csek, d) := seal_bytes d (scas_csek s) in
        match csek with
        | None => fail_with scas_clear_all fwpb_status_UNSPECIFIED uses d
        | Some csek =>
            let! '(ssek, d) := seal_bytes d (scas_ssek s) in
            match ssek with
            | None => fail_with scas_clear_all fwpb_status_UNSPECIFIED uses d
            | Some ssek =>
                let! d := scas_clear_all d in
                Done (mk_rv_rsp fwpb_status_SUCCESS None (rv_sealed sig csek ssek), None, uses, d)
            end
        end).

(** [Some] of a field that is present. *)
Definition stash_sealed (x : fwpb_sealed_data) : option fwpb_sealed_data :=
  if 0 <? zlen (sealed_bytes x) then Some x else None.

(** A private key is absent or has the right size. *)
Definition stash_ddk (x : list Z) : option (option (list Z)) :=
  if 0 <? zlen x then (if zlen x =? AES_256_LENGTH_BYTES then Some (Some x) else None) else Some None.

Definition bindings_fit (b : proof_bindings) : bool :=
  (zlen (pb_descriptor_backups b) <? 256) && (zlen (pb_activate_keyset b) <? 256).

Definition unseal_optional (d : recovery) (x : option fwpb_sealed_data)
    : outcome (option (option (list Z)) * list key_use * recovery) :=
  match x with
  | None => Done (Some None, [], d)
  | Some sealed =>
      let! '(r, d) := sealed_data_unseal d sealed in
      Done (match r with Some key => Some (Some key) | None => None end,
            match r with Some _ => [opened_sealed sealed] | None => [] end, d)
  end.

Definition seal_optional (d : recovery) (x : option (list Z)) : outcome (option (option fwpb_sealed_data) * recovery) :=
  match x with
  | None => Done (Some None, d)
  | Some key =>
      let! '(r, d) := seal_bytes d key in
      Done (match r with Some sealed => Some (Some sealed) | None => None end, d)
  end.

(** The two action proofs at the end of the three authorizations. *)
Definition sign_proofs (clear : recovery → outcome recovery) (d : recovery) (backups keyset : list Z) (version : Z)
    (uses : list key_use) (ddk ssek : option (list Z)) (sealed_ddk : option fwpb_sealed_data) : outcome step_result :=
  let! '(sig1, uses1, d) := sign_sap_proof d (chars "UpdateDescriptorBackups") backups version in
  match sig1 with
  | None => fail_with clear fwpb_status_SIGNING_FAILED (uses ++ uses1) d
  | Some sig1 =>
      let! '(sig2, uses2, d) := sign_sap_proof d (chars "RotateSpendingKeyset") keyset version in
      match sig2 with
      | None => fail_with clear fwpb_status_SIGNING_FAILED (uses ++ uses1 ++ uses2) d
      | Some sig2 =>
          let! d := clear d in
          Done (mk_rv_rsp fwpb_status_SUCCESS None (rv_authorized ddk ssek sealed_ddk sig1 sig2), None,
                uses ++ uses1 ++ uses2, d)
      end
  end.

Definition rala_clear_all (d : recovery) : outcome recovery :=
  let! d := clear_cm d in Done (on_sessions (put_rala zero_rala) d).

Definition recovery_composites_authorize_lost_app_handle_init (d : recovery) (e : env)
    (sealed_ddk sealed_ssek : fwpb_sealed_data) (b : proof_bindings) : outcome step_result :=
  let! d := rala_clear_all d in
  let ddk := stash_sealed sealed_ddk in
  let ssek := stash_sealed sealed_ssek in
  if negb (bindings_fit b)
  then reply fwpb_status_INVALID_ARGUMENT (on_sessions (put_rala (mk_rala ddk ssek [] [] 0 false)) d)
  else
    let d := on_sessions (put_rala (mk_rala ddk ssek (pb_descriptor_backups b) (pb_activate_keyset b) (pb_version b) true)) d in
    create_confirmation_with_prompt d e CONFIRMATION_TYPE_RECOVERY_AUTHORIZE_LOST_APP SAP_ACTION_APPROVE_APP_RECOVERY
      (λ d, reply fwpb_status_ERROR (on_sessions (put_rala zero_rala) d)).

Definition rala_confirmation_result_handler : recovery → list Z → list Z → Z → outcome step_result :=
  with_confirmation rala_clear_all (λ d,
    let s := s_rala (rc_sessions d) in
    if negb (rala_valid s) then let! d := rala_clear_all d in reply fwpb_status_ERROR d
    else
      let! '(ddk, uses1, d) := unseal_optional d (rala_ddk s) in
      match ddk with
      | None => fail_with rala_clear_all fwpb_status_UNSPECIFIED uses1 d
      | Some ddk =>
          let! '(ssek, uses2, d) := unseal_optional d (rala_ssek s) in
          match ssek with
          | None => fail_with rala_clear_all fwpb_status_UNSPECIFIED (uses1 ++ uses2) d
          | Some ssek =>
              sign_proofs rala_clear_all d (rala_descriptor_backups s) (rala_activate_keyset s) (rala_version s)
                (uses1 ++ uses2) ddk ssek None
          end
      end).

Definition ralh_clear_all (d : recovery) : outcome recovery :=
  let! d := clear_cm d in Done (on_sessions (put_ralh zero_ralh) d).

Definition recovery_composites_authorize_lost_hw_handle_init (d : recovery) (e : env) (ddk_private_key : list Z)
    (b : proof_bindings) : outcome step_result :=
  let! d := ralh_clear_all d in
  match stash_ddk ddk_private_key with
  | None => reply fwpb_status_INVALID_ARGUMENT d
  | Some ddk =>
      if negb (bindings_fit b)
      then reply fwpb_status_INVALID_ARGUMENT (on_sessions (put_ralh (mk_ralh ddk [] [] 0 false)) d)
      else
        let d := on_sessions (put_ralh (mk_ralh ddk (pb_descriptor_backups b) (pb_activate_keyset b) (pb_version b) true)) d in
        create_confirmation_with_prompt d e CONFIRMATION_TYPE_RECOVERY_AUTHORIZE_LOST_HW SAP_ACTION_COMPLETE_WALLET
          (λ d, reply fwpb_status_ERROR (on_sessions (put_ralh zero_ralh) d))
  end.

Definition ralh_confirmation_result_handler : recovery → list Z → list Z → Z → outcome step_result :=
  with_confirmation ralh_clear_all (λ d,
    let s := s_ralh (rc_sessions d) in
    if negb (ralh_valid s) then let! d := ralh_clear_all d in reply fwpb_status_ERROR d
    else
      let! '(sealed, d) := seal_optional d (ralh_ddk s) in
      match sealed with
      | None => fail_with ralh_clear_all fwpb_status_UNSPECIFIED [] d
      | Some sealed =>
          sign_proofs ralh_clear_all d (ralh_descriptor_backups s) (ralh_activate_keyset s) (ralh_version s)
            [] None None sealed
      end).

Definition uaw3_clear_all (d : recovery) : outcome recovery :=
  let! d := clear_cm d in Done (on_sessions (put_uaw3 zero_uaw3) d).

Definition recovery_composites_upgrade_authorize_w3_handle_init (d : recovery) (e : env) (ddk_private_key : list Z)
    (sealed_ssek : fwpb_sealed_data) (b : proof_bindings) : outcome step_result :=
  let! d := uaw3_clear_all d in
  match stash_ddk ddk_private_key with
  | None => reply fwpb_status_INVALID_ARGUMENT d
  | Some ddk =>
      let ssek := stash_sealed sealed_ssek in
      if negb (bindings_fit b)
      then reply fwpb_status_INVALID_ARGUMENT (on_sessions (put_uaw3 (mk_uaw3 ddk ssek [] [] 0 false)) d)
      else
        let d := on_sessions (put_uaw3 (mk_uaw3 ddk ssek (pb_descriptor_backups b) (pb_activate_keyset b) (pb_version b) true)) d in
        create_confirmation_with_prompt d e CONFIRMATION_TYPE_UPGRADE_AUTHORIZE_W3 SAP_ACTION_UPGRADE_WALLET
          (λ d, reply fwpb_status_ERROR (on_sessions (put_uaw3 zero_uaw3) d))
  end.

Definition uaw3_confirmation_result_handler : recovery → list Z → list Z → Z → outcome step_result :=
  with_confirmation uaw3_clear_all (λ d,
    let s := s_uaw3 (rc_sessions d) in
    if negb (uaw3_valid s) then let! d := uaw3_clear_all d in reply fwpb_status_ERROR d
    else
      let! '(sealed, d) := seal_optional d (uaw3_ddk s) in
      match sealed with
      | None => fail_with uaw3_clear_all fwpb_status_UNSPECIFIED [] d
      | Some sealed =>
          let! '(ssek, uses, d) := unseal_optional d (uaw3_ssek s) in
          match ssek with
          | None => fail_with uaw3_clear_all fwpb_status_UNSPECIFIED uses d
          | Some ssek =>
              sign_proofs uaw3_clear_all d (uaw3_descriptor_backups s) (uaw3_activate_keyset s) (uaw3_version s)
                uses None ssek sealed
          end
      end).

(** ** The task *)

(** What [key_manager_task_handle_uxc_session_init] clears first. *)
Definition clear_sessions (d : recovery) : outcome recovery :=
  let d := lar_session_clear d in
  let d := raak_session_clear d in
  let d := upgrade_raak_session_clear d in
  let d := on_sessions (λ s, put_uaw3 zero_uaw3 (put_ralh zero_ralh (put_rala zero_rala (put_scas zero_scas s)))) d in
  let! d := sealed_unseal_clear_state put_eek d in
  let! d := clear_cm (facbr_session_clear d) in
  let! d := sealed_unseal_clear_state put_repair d in
  keyset_repair_rotate_clear_state d.

(** The handlers that the task registers for the result of a confirmation. *)
Definition confirmation_result (d : recovery) (rh ch : list Z) (now : Z) : outcome (option step_result) :=
  let! type := confirmation_manager_get_type (rc_cm d) in
  let handler :=
    if type =? CONFIRMATION_TYPE_LOST_APP_RECOVERY then Some lar_confirmation_result_handler
    else if type =? CONFIRMATION_TYPE_LOST_APP_RECOVERY_SIGN_CHALLENGE then Some lar_sc_confirmation_result_handler
    else if type =? CONFIRMATION_TYPE_ROTATE_APP_AUTH_KEYS then Some raak_confirmation_result_handler
    else if type =? CONFIRMATION_TYPE_SIGN_CHALLENGE_AND_SEAL_SEKS then Some scas_confirmation_result_handler
    else if type =? CONFIRMATION_TYPE_RECOVERY_AUTHORIZE_LOST_APP then Some rala_confirmation_result_handler
    else if type =? CONFIRMATION_TYPE_RECOVERY_AUTHORIZE_LOST_HW then Some ralh_confirmation_result_handler
    else if type =? CONFIRMATION_TYPE_EEK_RESTORATION_UNSEAL_SYMMETRIC_KEY
    then Some eek_restoration_unseal_symmetric_key_confirmation_result_handler
    else if type =? CONFIRMATION_TYPE_FULL_ACCOUNT_CLOUD_BACKUP_RESTORATION
    then Some full_account_cloud_backup_restoration_confirmation_result_handler
    else if type =? CONFIRMATION_TYPE_UPGRADE_AUTHORIZE_W3 then Some uaw3_confirmation_result_handler
    else if type =? CONFIRMATION_TYPE_UPGRADE_ROTATE_APP_AUTH_KEYS then Some upgrade_raak_confirmation_result_handler
    else if type =? CONFIRMATION_TYPE_KEYSET_REPAIR_UNSEAL_SYMMETRIC_KEY
    then Some keyset_repair_unseal_confirmation_result_handler
    else if type =? CONFIRMATION_TYPE_KEYSET_REPAIR_ROTATE_HW_KEY then Some keyset_repair_rotate_confirmation_result_handler
    else None in
  match handler with
  | None => Done None
  | Some handler => let! r := handler d rh ch now in Done (Some r)
  end.
End Recovery.
Arguments recovery : clear implicits.
