(* ===== verification/RecoverySpec.v ===== *)
(** * Keys are used for approved requests only

    The recovery commands as a machine, and its invariant: the session of the
    pending confirmation holds the request whose action the screen shows, and
    the flag that lets a handler use a key was set by the user after that. *)

From S2P Require Import Prelude Sha256 Wstring Fs Wkek Confirmation Bip32 WalletKeys WalletAddr Psbt SignKey SignSession SignFrame SignTx Sap SignInv SignSafe SignDemo Descriptor Recovery.

(** ** Requests *)

Inductive request :=
| RqEek (sealed : fwpb_sealed_data)
| RqRepairUnseal (sealed : fwpb_sealed_data)
| RqRepairRotate (access_token_hash : list Z) (next_account_index : Z) (mainnet : bool)
| RqLostApp (sealed_ssek : fwpb_sealed_data)
| RqLostAppChallenge (challenge : list Z)
| RqCloudBackup
| RqRotateKeys (cmd : fwpb_rotate_app_auth_keys_cmd)
| RqUpgradeRotate (account_id app_key : list Z)
| RqChallengeSeal (challenge csek ssek : list Z)
| RqAuthorizeLostApp (ddk ssek : fwpb_sealed_data) (b : proof_bindings)
| RqAuthorizeLostHw (ddk : list Z) (b : proof_bindings)
| RqUpgradeW3 (ddk : list Z) (ssek : fwpb_sealed_data) (b : proof_bindings).


(** What the screen says about a request. *)
Definition action (r : request) : Z :=
  match r with
  | RqEek _ => SAP_ACTION_EEK_RESTORATION
  | RqRepairUnseal _ => SAP_ACTION_KEYSET_REPAIR_UNSEAL
  | RqRepairRotate _ _ _ => SAP_ACTION_KEYSET_REPAIR_ROTATE
  | RqLostApp _ => SAP_ACTION_CREATE_LOST_APP_RECOVERY
  | RqLostAppChallenge _ => SAP_ACTION_APPROVE_APP_RECOVERY
  | RqCloudBackup => SAP_ACTION_FULL_ACCOUNT_CLOUD_BACKUP_RESTORE
  | RqRotateKeys _ => SAP_ACTION_ROTATE_APP_AUTH_KEYS
  | RqUpgradeRotate _ _ => SAP_ACTION_INITIATE_WALLET_UPGRADE
  | RqChallengeSeal _ _ _ => SAP_ACTION_START_RECOVERY
  | RqAuthorizeLostApp _ _ _ => SAP_ACTION_APPROVE_APP_RECOVERY
  | RqAuthorizeLostHw _ _ => SAP_ACTION_COMPLETE_WALLET
  | RqUpgradeW3 _ _ _ => SAP_ACTION_UPGRADE_WALLET
  end.






Section RecoverySpec.
Context {L E C : Type} `{Littlefs L} `{SecureElement E} `{Secp} `{Ecdsa} `{Sha256 C} `{!Sha256Laws C}.
Abbreviation recovery := (recovery L E).
Implicit Types (d : recovery) (r : request) (s : sessions).

Abbreviation sha256 := (sha256 (C := C)).

Definition handle_init d (e : env) r : outcome step_result :=
  match r with
  | RqEek x => eek_restoration_unseal_symmetric_key_handle_init d e x
  | RqRepairUnseal x => keyset_repair_unseal_symmetric_key_handle_init d e x
  | RqRepairRotate h i m => keyset_repair_rotate_hw_key_handle_init d e h i m
  | RqLostApp x => lost_app_recovery_handle_init d e x
  | RqLostAppChallenge c => lost_app_recovery_sign_challenge_handle_init (C := C) d e c
  | RqCloudBackup => full_account_cloud_backup_restoration_handle_init d e
  | RqRotateKeys cmd => rotate_app_auth_keys_handle_init d e cmd
  | RqUpgradeRotate a k => upgrade_rotate_app_auth_keys_handle_init d e a k
  | RqChallengeSeal c x y => recovery_composites_sign_challenge_and_seal_handle_init (C := C) d e c x y
  | RqAuthorizeLostApp x y b => recovery_composites_authorize_lost_app_handle_init d e x y b
  | RqAuthorizeLostHw x b => recovery_composites_authorize_lost_hw_handle_init d e x b
  | RqUpgradeW3 x y b => recovery_composites_upgrade_authorize_w3_handle_init d e x y b
  end.

(** ** What a request allows *)

Definition proof_digest (version : Z) (action value bindings : list Z) : list Z :=
  sha256 (action_payload (mk_sap_data true version action value bindings)).








(** ** Calls that change neither the confirmation nor a session *)


















(** ** Confirmations *)




(** ** The first tap *)

















(** ** The second tap *)





(** *** Unsealing *)




(** *** Signing *)






(** *** Composites *)














(** ** The third command *)





(** ** The machine *)

(** What happens to the task: the commands of the phone, the taps on the
    screen, the boot of the second processor, confirmations of other
    operations, and calls of other tasks, which move the signer. *)
Inductive rc_ev :=
| RcInit (e : env) (r : request)
| RcResult (rh ch : list Z) (now : Z)
| RcContinue (cmd : lost_app_recovery_continue_cmd)
| RcCloudContinue (token : list Z) (sealed : fwpb_sealed_data)
| RcUxcBoot
| RcApprove
| RcRefresh (now : Z)
| RcCancel
| RcOther (e : env) (type : Z)
| RcWorld (g : signer L E).

(** The screen, the uses of keys and the state after an event. *)
Definition rc_step d (ev : rc_ev) : outcome (option Z * list key_use * recovery) :=
  match ev with
  | RcInit e r => let! '(_, screen, uses, d) := handle_init d e r in Done (screen, uses, d)
  | RcResult rh ch now =>
      let! res := confirmation_result (C := C) d rh ch now in
      Done (match res with Some (_, screen, uses, d') => (screen, uses, d') | None => (None, [], d) end)
  | RcContinue cmd =>
      let! '(_, screen, uses, d) := key_manager_task_handle_lost_app_recovery_continue (C := C) d cmd in
      Done (screen, uses, d)
  | RcCloudContinue token x =>
      let! '(_, screen, uses, d) := full_account_cloud_backup_restoration_handle_continue d token x in
      Done (screen, uses, d)
  | RcUxcBoot => let! d := clear_sessions d in Done (None, [], d)
  | RcApprove => let! c := confirmation_manager_approve (rc_cm d) in Done (None, [], with_cm d c)
  | RcRefresh now => let! c := confirmation_manager_refresh_timestamp (rc_cm d) now in Done (None, [], with_cm d c)
  | RcCancel => let! d := clear_cm d in Done (None, [], d)
  | RcOther e type => let! '(_, d) := create_confirmation d e type in Done (None, [], d)
  | RcWorld g => Done (None, [], with_signer d g)
  end.


Record rc_taken := mk_rc_taken {
  rt_ev : rc_ev;
  rt_screen : option Z;
  rt_uses : list key_use;
}.
Implicit Types (h : list rc_taken) (t : rc_taken).







(** ** The invariant *)














(** ** Runs *)

Fixpoint rc_run h d (evs : list rc_ev) : outcome (list rc_taken * recovery) :=
  match evs with
  | [] => Done (h, d)
  | ev :: evs => let! '(screen, uses, d) := rc_step d ev in rc_run (mk_rc_taken ev screen uses :: h) d evs
  end.

End RecoverySpec.

(** ** A device *)

#[local] Existing Instance toy_sha256.
#[local] Existing Instance toy_sha256_laws.
#[local] Existing Instance toy_secp.
#[local] Existing Instance toy_ecdsa.

(** A device with a sealed key. *)
Definition sealing : option fwpb_sealed_data * recovery ram_fs Z := Eval vm_compute in
  let d := mk_recovery (mk_signer demo_device_wallet demo_policy crypto_thread_boot)
             (confirmation_manager_init confirmation_boot) zero_sessions in
  match seal_bytes d (replicate 32 42) with Done r => r | _ => (None, d) end.
Definition demo_sealed_key : fwpb_sealed_data := default zero_sealed sealing.1.
Definition recovery_device : recovery ram_fs Z := sealing.2.

Definition demo_continue (action : list Z) : lost_app_recovery_continue_cmd :=
  mk_lar_continue 1 action [] (chars "nonce=7") 3 true (replicate 33 2).

(** A request that is cancelled, one that is approved and continued, and a
    second attempt to continue it. *)
Definition recovery_events (action : list Z) : list (rc_ev (L := ram_fs) (E := Z)) :=
  [RcInit demo_env (RqEek demo_sealed_key); RcCancel; RcResult (replicate 32 5) (replicate 32 6) 20;
   RcInit demo_env (RqLostApp demo_sealed_key); RcResult (replicate 32 5) (replicate 32 6) 20;
   RcApprove; RcResult (replicate 32 5) (replicate 32 6) 30;
   RcContinue (demo_continue action); RcContinue (demo_continue action)].

Definition recovery_run (action : list Z) :=
  match rc_run (C := list Z) [] recovery_device (recovery_events action) with Done r => r | _ => ([], recovery_device) end.

(** How many keys each step used, newest first. *)
Example recovery_uses :
  map (λ t, length (rt_uses t)) (recovery_run (chars "CreateLostAppRecovery")).1 = [0; 2; 1; 0; 0; 0; 0; 0; 0]%nat
  ∧ map (λ t, length (rt_uses t)) (recovery_run (chars "DeleteAccount")).1 = [0; 0; 1; 0; 0; 0; 0; 0; 0]%nat.
Proof. vm_compute. done. Qed.

Definition demo_command : lost_app_recovery_continue_cmd := demo_continue (chars "CreateLostAppRecovery").




(** The hash of the access token is signed as it comes, without a tag: the
    digest of any action proof can be signed under this action. *)
Example repair_signs_any_digest :
  let digest := proof_digest (C := list Z) 1 (chars "DeleteAccount") [] [] in
  match rc_run (C := list Z) [] recovery_device
          [RcInit demo_env (RqRepairRotate digest 3 true); RcApprove; RcResult (replicate 32 5) (replicate 32 6) 20] with
  | Done (h, _) => map rt_uses h = [[used_auth_key digest]; []; []]
      ∧ map rt_screen h = [None; None; Some SAP_ACTION_KEYSET_REPAIR_ROTATE]
  | _ => False
  end.
Proof. vm_compute. done. Qed.

(** An approved recovery is continued long after the confirmation expired: the
    third command looks at neither the handles nor the time. *)
Example continue_has_no_timeout :
  match rc_run (C := list Z) [] recovery_device
          [RcInit demo_env (RqLostApp demo_sealed_key); RcApprove; RcResult (replicate 32 5) (replicate 32 6) 20;
           RcOther demo_env CONFIRMATION_TYPE_SIGN_TRANSACTION; RcCancel;
           RcResult (replicate 32 5) (replicate 32 6) (20 + 100 * CONFIRMATION_TIMEOUT_MS);
           RcContinue demo_command] with
  | Done (t :: _, _) => length (rt_uses t) = 2%nat
  | _ => False
  end.
Proof. vm_compute. done. Qed.
