(* ===== verification/UcCrc.v ===== *)
(** * The checksum of the Core/UXC link (lib/uc/src/uc.c, uc_compute_crc)

    CRC-16 (CCITT polynomial) over the header, with its crc field zeroed, and
    the payload. The register is a 16-bit [Z]; the algebra below shows what the
    checksum is for: it is a linear map, and a corruption confined to two
    neighbouring bytes is always noticed. *)

From S2P Require Import Prelude.

Definition UC_CRC_SEED : Z := 0xFFFF.
Definition UC_CRC_POLYNOMIAL : Z := 0x1021.

(** One turn of the loop over [j]. *)
Definition crc_bit (crc : Z) : Z :=
  if negb (Z.land crc 0x8000 =? 0)
  then u16 (Z.lxor (Z.shiftl crc 1) UC_CRC_POLYNOMIAL)
  else u16 (Z.shiftl crc 1).

Fixpoint crc_bits (j : nat) (crc : Z) : Z :=
  match j with
  | O => crc
  | S j => crc_bits j (crc_bit crc)
  end.

Definition crc_byte (crc b : Z) : Z := crc_bits 8 (Z.lxor crc (u16 (Z.shiftl b 8))).

(** The loop over [data]. *)
Fixpoint crc_data (crc : Z) (data : list Z) : Z :=
  match data with
  | [] => crc
  | b :: data => crc_data (crc_byte crc b) data
  end.

(** ** A 16-bit register *)

Definition reg_ok (x : Z) : Prop := 0 ≤ x < 65536.

Lemma reg_bits x : reg_ok x ↔ 0 ≤ x ∧ ∀ i, 16 ≤ i → Z.testbit x i = false.
Proof.
  unfold reg_ok. split.
  - intros Hx. split; [lia|]. intros i Hi.
    rewrite <- (Z.mod_small x (2 ^ 16)) by (simpl; lia). by apply Z.mod_pow2_bits_high.
  - intros [H0 H]. split; [done|].
    assert (x = x mod 2 ^ 16) as ->; [|apply (Z.mod_pos_bound x (2 ^ 16)); lia].
    apply Z.bits_inj'. intros i Hi. destruct (Z.lt_ge_cases i 16).
    + by rewrite Z.mod_pow2_bits_low.
    + rewrite Z.mod_pow2_bits_high by lia. by apply H.
Qed.

Lemma u16_bits x i : 0 ≤ i → Z.testbit (u16 x) i = (i <? 16) && Z.testbit x i.
Proof.
  intros Hi. unfold u16. change 65536 with (2 ^ 16). destruct (i <? 16) eqn:E; btest.
  - by rewrite Z.mod_pow2_bits_low.
  - by rewrite Z.mod_pow2_bits_high.
Qed.

Lemma lxor_reg x y : reg_ok x → reg_ok y → reg_ok (Z.lxor x y).
Proof.
  rewrite !reg_bits. intros [Hx Hxb] [Hy Hyb]. split; [by apply Z.lxor_nonneg|].
  intros i Hi. by rewrite Z.lxor_spec, Hxb, Hyb.
Qed.

Lemma land_bit15 x : negb (Z.land x 0x8000 =? 0) = Z.testbit x 15.
Proof.
  destruct (Z.testbit x 15) eqn:E.
  - apply negb_true_iff, Z.eqb_neq. intros H0.
    assert (Z.testbit (Z.land x 0x8000) 15 = true) as Hb by (rewrite Z.land_spec, E; done).
    rewrite H0 in Hb. by rewrite Z.bits_0 in Hb.
  - apply negb_false_iff, Z.eqb_eq. apply Z.bits_inj'. intros i Hi.
    rewrite Z.land_spec, Z.bits_0. change 0x8000 with (2 ^ 15). rewrite Z.pow2_bits_eqb by lia.
    destruct (15 =? i) eqn:E15; btest; [subst; by rewrite E|apply andb_false_r].
Qed.

Lemma crc_bit_spec x i :
  0 ≤ i → Z.testbit (crc_bit x) i =
    (i <? 16) && xorb ((0 <? i) && Z.testbit x (i - 1)) (Z.testbit x 15 && Z.testbit 0x1021 i).
Proof.
  intros Hi. unfold crc_bit. rewrite land_bit15.
  assert (Z.testbit (Z.shiftl x 1) i = (0 <? i) && Z.testbit x (i - 1)) as Hs.
  { destruct (0 <? i) eqn:E; btest; [by rewrite Z.shiftl_spec by lia|].
    by rewrite Z.shiftl_spec_low by lia. }
  destruct (Z.testbit x 15); rewrite u16_bits by done.
  - by rewrite Z.lxor_spec, Hs.
  - rewrite Hs. simpl. by rewrite xorb_false_r.
Qed.

Lemma crc_bit_reg x : reg_ok (crc_bit x).
Proof. unfold crc_bit, reg_ok. destruct (negb _); apply u16_range. Qed.

(** The shift register is linear over exclusive or... *)
Lemma crc_bit_lxor x y : crc_bit (Z.lxor x y) = Z.lxor (crc_bit x) (crc_bit y).
Proof.
  apply Z.bits_inj'. intros i Hi. rewrite Z.lxor_spec, !crc_bit_spec, !Z.lxor_spec by done.
  destruct (i <? 16), (0 <? i), (Z.testbit x (i - 1)), (Z.testbit y (i - 1)),
    (Z.testbit x 15), (Z.testbit y 15), (Z.testbit 0x1021 i); done.
Qed.

(** ... and loses no information. *)
Lemma crc_bit_zero x : reg_ok x → crc_bit x = 0 → x = 0.
Proof.
  intros [H0 Hx]%reg_bits E.
  assert (Z.testbit x 15 = false) as H15.
  { pose proof (crc_bit_spec x 0 ltac:(lia)) as Hb. rewrite E, Z.bits_0 in Hb.
    change (Z.testbit 0x1021 0) with true in Hb. cbn [andb Z.ltb Z.compare xorb] in Hb.
    rewrite andb_true_r in Hb. revert Hb. destruct (Z.testbit x 15); [discriminate|done]. }
  apply Z.bits_inj'. intros i Hi. rewrite Z.bits_0.
  destruct (Z.lt_ge_cases i 15) as [Hlt|Hge].
  - pose proof (crc_bit_spec x (i + 1) ltac:(lia)) as Hb. rewrite E, Z.bits_0, H15 in Hb.
    rewrite (proj2 (Z.ltb_lt _ 16)), (proj2 (Z.ltb_lt 0 _)) in Hb by lia.
    simpl in Hb. rewrite xorb_false_r in Hb. by replace (i + 1 - 1) with i in Hb by lia.
  - destruct (Z.eq_dec i 15) as [->|]; [done|]. apply Hx. lia.
Qed.

Lemma crc_bits_reg j x : reg_ok x → reg_ok (crc_bits j x).
Proof. revert x. induction j as [|j IH]; intros x Hx; simpl; [done|]. apply IH, crc_bit_reg. Qed.

Lemma crc_bits_lxor j x y : crc_bits j (Z.lxor x y) = Z.lxor (crc_bits j x) (crc_bits j y).
Proof. revert x y. induction j as [|j IH]; intros x y; simpl; [done|]. by rewrite crc_bit_lxor. Qed.

Lemma crc_bits_zero j x : reg_ok x → crc_bits j x = 0 → x = 0.
Proof.
  revert x. induction j as [|j IH]; intros x Hx; simpl; [done|].
  intros E. apply crc_bit_zero; [done|]. apply IH; [apply crc_bit_reg|done].
Qed.

Lemma crc_bits_add j k x : crc_bits (j + k) x = crc_bits k (crc_bits j x).
Proof. revert x. induction j as [|j IH]; intros x; simpl; [done|]. apply IH. Qed.

Lemma lxor_zero x y : Z.lxor x y = 0 → x = y.
Proof. apply Z.lxor_eq. Qed.

Lemma crc_bits_inj j x y : reg_ok x → reg_ok y → crc_bits j x = crc_bits j y → x = y.
Proof.
  intros Hx Hy E. apply lxor_zero, (crc_bits_zero j); [by apply lxor_reg|].
  rewrite crc_bits_lxor, E. apply Z.lxor_nilpotent.
Qed.

(** ** Bytes *)

Lemma hi_byte_reg b : reg_ok (u16 (Z.shiftl b 8)).
Proof. apply u16_range. Qed.

Lemma byte_reg b : byte_ok b → reg_ok b.
Proof. unfold byte_ok, reg_ok. lia. Qed.

Lemma crc_byte_reg crc b : reg_ok crc → reg_ok (crc_byte crc b).
Proof. intros. apply crc_bits_reg, lxor_reg; [done|apply hi_byte_reg]. Qed.

Lemma crc_data_reg crc data : reg_ok crc → reg_ok (crc_data crc data).
Proof. revert crc. induction data; intros; simpl; auto using crc_byte_reg. Qed.

Lemma crc_data_app crc d e : crc_data crc (d ++ e) = crc_data (crc_data crc d) e.
Proof. revert crc. induction d; intros; simpl; auto. Qed.

(** Eight shifts move a byte of the low half up without feedback. *)
Lemma crc_bits_low_byte b : byte_ok b → crc_bits 8 b = u16 (Z.shiftl b 8).
Proof.
  intros Hb.
  assert (∀ n, (n < 256)%nat → crc_bits 8 (Z.of_nat n) = u16 (Z.shiftl (Z.of_nat n) 8)) as H.
  { assert (forallb (λ n, crc_bits 8 (Z.of_nat n) =? u16 (Z.shiftl (Z.of_nat n) 8)) (seq 0 256)
            = true) as Hall by (vm_compute; reflexivity).
    rewrite forallb_forall in Hall. intros n Hn. apply Z.eqb_eq, (Hall n), in_seq. lia. }
  unfold byte_ok in Hb. rewrite <- (Z2Nat.id b) by lia. apply H. lia.
Qed.

(** Two bytes enter the register as one 16-bit word. *)
Lemma crc_two_bytes crc a b :
  reg_ok crc → byte_ok a → byte_ok b →
  crc_byte (crc_byte crc a) b = crc_bits 16 (Z.lxor crc (Z.lxor (u16 (Z.shiftl a 8)) b)).
Proof.
  intros Hc Ha Hb. unfold crc_byte. rewrite <- (crc_bits_low_byte b) by done.
  rewrite <- crc_bits_lxor, <- crc_bits_add. f_equal. by rewrite Z.lxor_assoc.
Qed.

Lemma word_inj a b a' b' :
  byte_ok a → byte_ok b → byte_ok a' → byte_ok b' →
  Z.lxor (u16 (Z.shiftl a 8)) b = Z.lxor (u16 (Z.shiftl a' 8)) b' → a = a' ∧ b = b'.
Proof.
  unfold byte_ok. intros Ha Hb Ha' Hb' E.
  assert (∀ x y, 0 ≤ x < 256 → 0 ≤ y < 256 → Z.lxor (u16 (Z.shiftl x 8)) y = y + x * 256) as Hw.
  { intros x y Hx Hy. rewrite u16_small by (rewrite Z.shiftl_mul_pow2; simpl; lia).
    change 256 with (2 ^ 8). rewrite Z.lxor_comm, <- (lor_shiftl_add y x 8) by (simpl; lia).
    apply Z.lxor_lor. apply Z.bits_inj'. intros k Hk. rewrite Z.land_spec, Z.bits_0.
    destruct (Z.lt_ge_cases k 8).
    - rewrite Z.shiftl_spec_low by done. apply andb_false_r.
    - rewrite <- (Z.mod_small y (2 ^ 8)) by (simpl; lia). by rewrite Z.mod_pow2_bits_high. }
  rewrite !Hw in E by done. lia.
Qed.

Lemma crc_byte_inj crc crc' b : reg_ok crc → reg_ok crc' → crc_byte crc b = crc_byte crc' b → crc = crc'.
Proof.
  intros Hc Hc' E. apply crc_bits_inj in E; [|by apply lxor_reg; [|apply hi_byte_reg]..].
  apply (f_equal (λ x, Z.lxor x (u16 (Z.shiftl b 8)))) in E.
  by rewrite !Z.lxor_assoc, Z.lxor_nilpotent, !Z.lxor_0_r in E.
Qed.

Lemma crc_data_inj crc crc' data :
  reg_ok crc → reg_ok crc' → crc_data crc data = crc_data crc' data → crc = crc'.
Proof.
  revert crc crc'. induction data as [|b data IH]; intros crc crc' Hc Hc' E; simpl in E; [done|].
  apply IH in E; [|by apply crc_byte_reg..]. by apply crc_byte_inj in E.
Qed.

(** A change confined to two neighbouring bytes changes the checksum. *)
Lemma crc_burst crc d e a b a' b' :
  reg_ok crc → byte_ok a → byte_ok b → byte_ok a' → byte_ok b' → (a, b) ≠ (a', b') →
  crc_data crc (d ++ a :: b :: e) ≠ crc_data crc (d ++ a' :: b' :: e).
Proof.
  intros Hc Ha Hb Ha' Hb' Hne E. rewrite !crc_data_app in E.
  pose proof (crc_data_reg crc d Hc) as Hr. set (r := crc_data crc d) in *. simpl in E.
  apply crc_data_inj in E; [|by repeat apply crc_byte_reg..].
  rewrite !crc_two_bytes in E by done.
  assert (∀ x y, byte_ok y → reg_ok (Z.lxor (u16 (Z.shiftl x 8)) y)) as Hw
    by (intros; apply lxor_reg; [apply hi_byte_reg|by apply byte_reg]).
  apply crc_bits_inj in E; [|by apply lxor_reg; auto..].
  apply (f_equal (Z.lxor r)) in E. rewrite <- !Z.lxor_assoc, Z.lxor_nilpotent, !Z.lxor_0_l in E.
  apply word_inj in E; [|done..]. destruct E as [-> ->]. done.
Qed.
