(* ===== verification/Uc.v ===== *)
(** * The link between the two processors (lib/uc)

    uc.c and uc_route.c: protobuf messages between the core processor and the
    user-interface processor, as COBS frames over a serial line, with a header
    that carries a checksum, sequence numbers and acknowledgements. A sender
    holds [wr_mutex] from the encoding to the acknowledgement; what the other
    tasks of the processor do while it waits (data received, the idle hook, the
    passing of time) is a list of events, [uc_ev].

    COBS, nanopb, the serial driver and the AEAD behind the crypto callbacks are
    classes of operations with laws. The message buffer is kept as bytes: the
    header is read from and written to its first 14. *)

From S2P Require Import Prelude Mempool Timer UcCrc.

(** ** Data *)

Inductive uc_err_t :=
| UC_ERR_NONE | UC_ERR_CRC_MISMATCH | UC_ERR_TOO_LARGE | UC_ERR_WR_FAILED | UC_ERR_INVALID_ARG
| UC_ERR_DECODE_FAILED | UC_ERR_DECODE_TOO_SMALL | UC_ERR_SIZE_MISMATCH | UC_ERR_MAX_RETRANSMITS
| UC_ERR_PROTO_ENCODE_FAILED | UC_ERR_PROTO_DECODE_FAILED | UC_ERR_MUTEX_FAILED | UC_ERR_Q_MAX
| UC_ERR_ENCRYPT_FAILED | UC_ERR_DECRYPT_FAILED.

#[export] Instance uc_err_dec : EqDecision uc_err_t.
Proof. solve_decision. Defined.

Inductive cobs_ret_t :=
| COBS_RET_SUCCESS | COBS_RET_ERR_BAD_ARG | COBS_RET_ERR_BAD_PAYLOAD | COBS_RET_ERR_EXHAUSTED.

Definition COBS_FRAME_DELIMITER : Z := 0.

Definition UC_RETRANSMIT_MAX_COUNT : nat := 3.
Definition UC_ACK_TIMEOUT_MS : Z := 200.
Definition UC_MSG_MAX_NUM : Z := 4.
Definition UC_MSG_HDR_SIZE : Z := 14.
Definition UC_ENCRYPTION_PADDING : Z := AES_GCM_IV_LENGTH + AES_GCM_TAG_LENGTH + 4.
Definition UC_MSG_OVERHEAD : Z := UC_MSG_HDR_SIZE + UC_ENCRYPTION_PADDING.
Definition UC_COBS_OVERHEAD (n : Z) : Z := 1 + n / (0xFF - 1) + n.
Definition UC_MSG_SIZE (n : Z) : Z := UC_MSG_OVERHEAD + n.
Definition UC_MSG_BUFFER_SIZE : Z := 1024.
Definition UC_DECRYPT_OFFSET : Z := 8.
Definition UC_ROUTE_MAX_NUM_REGISTRATIONS : nat := 17.

Definition UC_MSG_HDR_FLAGS_ACK : Z := 1.
Definition UC_MSG_HDR_FLAGS_NACK : Z := 2.
Definition UC_MSG_HDR_FLAGS_ENCRYPTED : Z := 4.
Definition UC_MSG_HDR_FLAGS_FIRST_MSG : Z := 8.
Definition UC_MSG_HDR_FLAGS_IMMEDIATE : Z := 16.

Definition UC_EVENT_ACK : Z := 1.
Definition UC_EVENT_NACK : Z := 2.
Definition UC_EVENT_TIMEOUT : Z := 4.
Definition UC_EVENT_ACK_TIMER : Z := 8.

(** [x & bits], as a condition. *)
Definition has (x bits : Z) : bool := negb (Z.land x bits =? 0).

Record uc_msg_hdr_t := mk_hdr {
  proto_tag : Z;        (* uint32_t *)
  hdr_send_seq : Z;     (* uint8_t *)
  hdr_ack_seq : Z;      (* uint8_t *)
  hdr_crc : Z;          (* uint16_t *)
  hdr_flags : Z;        (* uint16_t *)
  hdr_reserved : Z;     (* uint16_t *)
  payload_len : Z;      (* uint16_t *)
}.

Definition set_hdr_crc c h := mk_hdr (proto_tag h) (hdr_send_seq h) (hdr_ack_seq h) c
  (hdr_flags h) (hdr_reserved h) (payload_len h).
Definition set_payload_len n h := mk_hdr (proto_tag h) (hdr_send_seq h) (hdr_ack_seq h) (hdr_crc h)
  (hdr_flags h) (hdr_reserved h) n.

(** The packed struct, and reading it back from the start of a buffer. *)
Definition hdr_bytes (h : uc_msg_hdr_t) : list Z :=
  le_encode 4 (proto_tag h) ++ [hdr_send_seq h; hdr_ack_seq h] ++ le_encode 2 (hdr_crc h)
  ++ le_encode 2 (hdr_flags h) ++ le_encode 2 (hdr_reserved h) ++ le_encode 2 (payload_len h).

Definition hdr_of (msg : list Z) : outcome uc_msg_hdr_t :=
  let! tag := read_u32 msg 0 in
  let! send := aget msg 4 in
  let! ack := aget msg 5 in
  let! crc := read_u16 msg 6 in
  let! fl := read_u16 msg 8 in
  let! res := read_u16 msg 10 in
  let! len := read_u16 msg 12 in
  Done (mk_hdr tag send ack crc fl res len).

(** The two buffers of the loop: the header with a zero crc, the payload. *)
Definition uc_compute_crc (msg : list Z) : outcome Z :=
  let! h := hdr_of msg in
  let! payload := mread msg UC_MSG_HDR_SIZE (payload_len h) in
  Done (crc_data (crc_data UC_CRC_SEED (hdr_bytes (set_hdr_crc 0 h))) payload).

Definition _uc_write_seq_num (seq_num : Z) (buf : list Z) (off : Z) : outcome (list Z) :=
  let! buf := aset buf off (Z.land (Z.shiftr seq_num 0) 0xff) in
  let! buf := aset buf (off + 1) (Z.land (Z.shiftr seq_num 8) 0xff) in
  let! buf := aset buf (off + 2) (Z.land (Z.shiftr seq_num 16) 0xff) in
  aset buf (off + 3) (Z.land (Z.shiftr seq_num 24) 0xff).

Definition _uc_read_seq_num (buf : list Z) (off : Z) : outcome Z :=
  let! b0 := aget buf off in
  let! b1 := aget buf (off + 1) in
  let! b2 := aget buf (off + 2) in
  let! b3 := aget buf (off + 3) in
  Done (Z.lor (Z.lor (Z.lor (Z.lor 0 (Z.shiftl b0 0)) (Z.shiftl b1 8)) (Z.shiftl b2 16))
          (Z.shiftl b3 24)).

Definition _uc_cobs_to_err (ret : cobs_ret_t) : uc_err_t :=
  match ret with
  | COBS_RET_SUCCESS => UC_ERR_NONE
  | COBS_RET_ERR_BAD_ARG => UC_ERR_INVALID_ARG
  | COBS_RET_ERR_EXHAUSTED => UC_ERR_DECODE_TOO_SMALL
  | COBS_RET_ERR_BAD_PAYLOAD => UC_ERR_DECODE_FAILED
  end.

(** ** What lies outside of the sources *)

(** nanocobs: the incremental encoder over the parts of a message into a buffer
    of a given size, and the decoder. *)
Class Cobs := {
  cobs_encode : Z → list (list Z) → (cobs_ret_t + list Z);
  cobs_decode : list Z → Z → (cobs_ret_t + list Z);
}.

(** A frame is free of the delimiter but for its end, fits its buffer and
    decodes to the message; what is decoded fits its buffer and is made of
    bytes; a delimiter inside of a frame is an error; an error is not a success. *)
Class CobsLaws `(Cobs) : Prop := {
  cobs_frame cap parts f : cobs_encode cap parts = inr f →
    ∃ body, f = body ++ [COBS_FRAME_DELIMITER] ∧ (COBS_FRAME_DELIMITER ∉ body) ∧ zlen f ≤ cap;
  cobs_frame_bytes cap parts f : cobs_encode cap parts = inr f → bytes_ok (concat parts) → bytes_ok f;
  cobs_decode_encode cap parts f out : cobs_encode cap parts = inr f →
    zlen (concat parts) ≤ out → cobs_decode f out = inr (concat parts);
  cobs_decode_fits f out m : cobs_decode f out = inr m → zlen m ≤ out;
  cobs_decode_bytes f out m : bytes_ok f → cobs_decode f out = inr m → bytes_ok m;
  cobs_inner_delimiter a b out : a ≠ [] →
    cobs_decode (a ++ COBS_FRAME_DELIMITER :: b ++ [COBS_FRAME_DELIMITER]) out
    = inl COBS_RET_ERR_BAD_PAYLOAD;
  cobs_encode_error cap parts : cobs_encode cap parts ≠ inl COBS_RET_SUCCESS;
}.

(** The messages of uxc.proto as nanopb sees them, and the build configuration. *)
Class UcProto := {
  enc_t : Type;                              (* UC_CFG_ENC_PROTO_TYPE *)
  which_msg : enc_t → Z;
  enc_proto_size : Z;
  dec_proto_size : Z;                        (* sizeof(UC_CFG_DEC_PROTO_TYPE) *)
  pb_encode : enc_t → Z → option (list Z);
  pb_decode : list Z → bool * list Z;        (* success, and the struct it leaves *)
  UC_HOST_MODE : bool;
  UC_CFG_RD_BUFFER_SIZE : Z;
  UC_CFG_WR_BUFFER_SIZE : Z;
  fwpb_uxc_msg_host_display_cmd_tag : Z;
  fwpb_uxc_msg_device_display_action_tag : Z;
  fwpb_uxc_msg_device_display_touch_tag : Z;
  security_config_is_production : bool;
}.

(** The static assertions of uc_impl.h with the sizes of uc_cfg_host.h and
    uc_cfg_device.h, and the sizes nanopb respects. *)
Class UcProtoLaws `(UcProto) : Prop := {
  rd_size_range : 0 < dec_proto_size ≤ UC_CFG_RD_BUFFER_SIZE ∧ UC_CFG_RD_BUFFER_SIZE ≤ 888;
  wr_size_range : 0 < enc_proto_size ≤ UC_CFG_WR_BUFFER_SIZE ∧ UC_CFG_WR_BUFFER_SIZE ≤ 888;
  pb_encode_size m cap b : pb_encode m cap = Some b → zlen b ≤ UC_CFG_WR_BUFFER_SIZE ∧ bytes_ok b;
  pb_decode_size b : zlen (pb_decode b).2 = dec_proto_size ∧ bytes_ok (pb_decode b).2;
}.

(** The driver behind [send_cb]: the bytes it accepted of those offered. *)
Class Serial (C : Type) := {
  send_cb : C → list Z → Z * C;
  sent : C → list Z;
}.
Class SerialLaws (C : Type) `{Serial C} : Prop := {
  send_cb_range c d : 0 ≤ (send_cb c d).1;
  send_cb_sent c d :
    sent (send_cb c d).2 = sent c ++ ztake (Z.min (send_cb c d).1 (zlen d)) d;
}.

(** [uc_crypto_api_t]. Nonce and tag are buffers of the caller: the encryption
    is given what they hold and returns what it leaves in them. *)
Class CryptoApi (K : Type) := {
  gcm_encrypt : K → list Z → list Z → list Z → list Z → outcome (option (list Z * list Z * list Z) * K);
  gcm_decrypt : K → list Z → list Z → list Z → list Z → outcome (option (list Z));
  get_send_seq : K → outcome (Z * K);
  check_recv_seq : K → Z → bool * K;
  has_session : K → bool;
}.

(** The callbacks used when [uc_init] is given none. *)
#[export] Instance no_op_crypto : CryptoApi unit := {|
  gcm_encrypt k input _ nonce mac := Done (Some (input, nonce, mac), k);
  gcm_decrypt _ input _ _ _ := Done (Some input);
  get_send_seq k := Done (0, k);
  check_recv_seq k _ := (true, k);
  has_session _ := false;
|}.

(** ** State *)

(** [cb] is the number of the callback or queue that was registered. *)
Record uc_route_registration_t := mk_reg {
  reg_tag : Z;
  reg_cb : Z;
  initialized : bool;
}.

Record uc_state_priv_t {T K C : Type} := mk_uc {
  send_seq_num : Z;
  recv_seq_num : Z;
  sent_first_msg : bool;
  msg_buffer : list Z;
  msg_mutex : bool;                    (* held *)
  rd_index : Z;
  rd_enc_buffer : list Z;
  wr_mutex : bool;                     (* held *)
  wr_enc_buffer : list Z;
  ack_events : Z;
  ack_timer : @rtos_timer_t T;
  crypto : K;
  context : C;
  mempool : mempool_t;
  recv_sem : Z;
  send_sem : Z;
  registrations : list uc_route_registration_t;
  inbox : list (Z * Z * list Z);       (* callback, address, message: what was routed *)
}.
Arguments uc_state_priv_t : clear implicits.

Section Setters.
Context {T K C : Type}.
Implicit Types (s : uc_state_priv_t T K C).

Definition set_send_seq_num v s := @mk_uc T K C v (recv_seq_num s) (sent_first_msg s)
  (msg_buffer s) (msg_mutex s) (rd_index s) (rd_enc_buffer s) (wr_mutex s) (wr_enc_buffer s)
  (ack_events s) (ack_timer s) (crypto s) (context s) (mempool s) (recv_sem s) (send_sem s)
  (registrations s) (inbox s).
Definition set_recv_seq_num v s := @mk_uc T K C (send_seq_num s) v (sent_first_msg s)
  (msg_buffer s) (msg_mutex s) (rd_index s) (rd_enc_buffer s) (wr_mutex s) (wr_enc_buffer s)
  (ack_events s) (ack_timer s) (crypto s) (context s) (mempool s) (recv_sem s) (send_sem s)
  (registrations s) (inbox s).
Definition set_sent_first_msg v s := @mk_uc T K C (send_seq_num s) (recv_seq_num s) v
  (msg_buffer s) (msg_mutex s) (rd_index s) (rd_enc_buffer s) (wr_mutex s) (wr_enc_buffer s)
  (ack_events s) (ack_timer s) (crypto s) (context s) (mempool s) (recv_sem s) (send_sem s)
  (registrations s) (inbox s).
Definition set_msg_buffer v s := @mk_uc T K C (send_seq_num s) (recv_seq_num s) (sent_first_msg s)
  v (msg_mutex s) (rd_index s) (rd_enc_buffer s) (wr_mutex s) (wr_enc_buffer s) (ack_events s)
  (ack_timer s) (crypto s) (context s) (mempool s) (recv_sem s) (send_sem s) (registrations s)
  (inbox s).
Definition set_msg_mutex v s := @mk_uc T K C (send_seq_num s) (recv_seq_num s) (sent_first_msg s)
  (msg_buffer s) v (rd_index s) (rd_enc_buffer s) (wr_mutex s) (wr_enc_buffer s) (ack_events s)
  (ack_timer s) (crypto s) (context s) (mempool s) (recv_sem s) (send_sem s) (registrations s)
  (inbox s).
Definition set_rd_index v s := @mk_uc T K C (send_seq_num s) (recv_seq_num s) (sent_first_msg s)
  (msg_buffer s) (msg_mutex s) v (rd_enc_buffer s) (wr_mutex s) (wr_enc_buffer s) (ack_events s)
  (ack_timer s) (crypto s) (context s) (mempool s) (recv_sem s) (send_sem s) (registrations s)
  (inbox s).
Definition set_rd_enc_buffer v s := @mk_uc T K C (send_seq_num s) (recv_seq_num s)
  (sent_first_msg s) (msg_buffer s) (msg_mutex s) (rd_index s) v (wr_mutex s) (wr_enc_buffer s)
  (ack_events s) (ack_timer s) (crypto s) (context s) (mempool s) (recv_sem s) (send_sem s)
  (registrations s) (inbox s).
Definition set_wr_mutex v s := @mk_uc T K C (send_seq_num s) (recv_seq_num s) (sent_first_msg s)
  (msg_buffer s) (msg_mutex s) (rd_index s) (rd_enc_buffer s) v (wr_enc_buffer s) (ack_events s)
  (ack_timer s) (crypto s) (context s) (mempool s) (recv_sem s) (send_sem s) (registrations s)
  (inbox s).
Definition set_wr_enc_buffer v s := @mk_uc T K C (send_seq_num s) (recv_seq_num s)
  (sent_first_msg s) (msg_buffer s) (msg_mutex s) (rd_index s) (rd_enc_buffer s) (wr_mutex s) v
  (ack_events s) (ack_timer s) (crypto s) (context s) (mempool s) (recv_sem s) (send_sem s)
  (registrations s) (inbox s).
Definition set_ack_events v s := @mk_uc T K C (send_seq_num s) (recv_seq_num s) (sent_first_msg s)
  (msg_buffer s) (msg_mutex s) (rd_index s) (rd_enc_buffer s) (wr_mutex s) (wr_enc_buffer s) v
  (ack_timer s) (crypto s) (context s) (mempool s) (recv_sem s) (send_sem s) (registrations s)
  (inbox s).
Definition set_ack_timer v s := @mk_uc T K C (send_seq_num s) (recv_seq_num s) (sent_first_msg s)
  (msg_buffer s) (msg_mutex s) (rd_index s) (rd_enc_buffer s) (wr_mutex s) (wr_enc_buffer s)
  (ack_events s) v (crypto s) (context s) (mempool s) (recv_sem s) (send_sem s) (registrations s)
  (inbox s).
Definition set_crypto v s := @mk_uc T K C (send_seq_num s) (recv_seq_num s) (sent_first_msg s)
  (msg_buffer s) (msg_mutex s) (rd_index s) (rd_enc_buffer s) (wr_mutex s) (wr_enc_buffer s)
  (ack_events s) (ack_timer s) v (context s) (mempool s) (recv_sem s) (send_sem s)
  (registrations s) (inbox s).
Definition set_context v s := @mk_uc T K C (send_seq_num s) (recv_seq_num s) (sent_first_msg s)
  (msg_buffer s) (msg_mutex s) (rd_index s) (rd_enc_buffer s) (wr_mutex s) (wr_enc_buffer s)
  (ack_events s) (ack_timer s) (crypto s) v (mempool s) (recv_sem s) (send_sem s)
  (registrations s) (inbox s).
Definition set_mempool v s := @mk_uc T K C (send_seq_num s) (recv_seq_num s) (sent_first_msg s)
  (msg_buffer s) (msg_mutex s) (rd_index s) (rd_enc_buffer s) (wr_mutex s) (wr_enc_buffer s)
  (ack_events s) (ack_timer s) (crypto s) (context s) v (recv_sem s) (send_sem s)
  (registrations s) (inbox s).
Definition set_recv_sem v s := @mk_uc T K C (send_seq_num s) (recv_seq_num s) (sent_first_msg s)
  (msg_buffer s) (msg_mutex s) (rd_index s) (rd_enc_buffer s) (wr_mutex s) (wr_enc_buffer s)
  (ack_events s) (ack_timer s) (crypto s) (context s) (mempool s) v (send_sem s) (registrations s)
  (inbox s).
Definition set_send_sem v s := @mk_uc T K C (send_seq_num s) (recv_seq_num s) (sent_first_msg s)
  (msg_buffer s) (msg_mutex s) (rd_index s) (rd_enc_buffer s) (wr_mutex s) (wr_enc_buffer s)
  (ack_events s) (ack_timer s) (crypto s) (context s) (mempool s) (recv_sem s) v (registrations s)
  (inbox s).
Definition set_registrations v s := @mk_uc T K C (send_seq_num s) (recv_seq_num s)
  (sent_first_msg s) (msg_buffer s) (msg_mutex s) (rd_index s) (rd_enc_buffer s) (wr_mutex s)
  (wr_enc_buffer s) (ack_events s) (ack_timer s) (crypto s) (context s) (mempool s) (recv_sem s)
  (send_sem s) v (inbox s).
Definition set_inbox v s := @mk_uc T K C (send_seq_num s) (recv_seq_num s) (sent_first_msg s)
  (msg_buffer s) (msg_mutex s) (rd_index s) (rd_enc_buffer s) (wr_mutex s) (wr_enc_buffer s)
  (ack_events s) (ack_timer s) (crypto s) (context s) (mempool s) (recv_sem s) (send_sem s)
  (registrations s) v.
End Setters.

(** Something that happens on the processor: bytes received from the line, the
    idle hook, milliseconds passing. *)
Inductive uc_ev :=
| EvRx (data : list Z)
| EvIdle
| EvTick (ms : Z).

Section Uc.
Context {T K C : Type} `{!SwTimer T, !CryptoApi K, !Serial C} `{Cb : Cobs} `{P : UcProto}.
Abbreviation uc_state := (uc_state_priv_t T K C).

Definition UC_COBS_RD_ENC_BUFFER_SIZE : Z := UC_COBS_OVERHEAD (UC_MSG_SIZE UC_CFG_RD_BUFFER_SIZE).
Definition UC_COBS_WR_ENC_BUFFER_SIZE : Z := UC_COBS_OVERHEAD (UC_MSG_SIZE UC_CFG_WR_BUFFER_SIZE).

Definition set_event_bits (bits : Z) (s : uc_state) : uc_state :=
  set_ack_events (Z.lor (ack_events s) bits) s.
Definition clear_event_bits (bits : Z) (s : uc_state) : uc_state :=
  set_ack_events (Z.ldiff (ack_events s) bits) s.

(** ** Buffers, memory, routing *)

Definition _uc_should_encrypt (tag : Z) : bool :=
  if UC_HOST_MODE then tag =? fwpb_uxc_msg_host_display_cmd_tag
  else (tag =? fwpb_uxc_msg_device_display_action_tag)
       || (tag =? fwpb_uxc_msg_device_display_touch_tag).

Definition _uc_get_msg_buffer (s : uc_state) : outcome uc_state :=
  let! _ := ASSERT (negb (msg_mutex s)) in
  Done (set_msg_buffer (replicate (Z.to_nat UC_MSG_BUFFER_SIZE) 0) (set_msg_mutex true s)).

Definition _uc_put_msg_buffer (s : uc_state) : outcome uc_state :=
  let! _ := ASSERT (msg_mutex s) in
  Done (set_msg_mutex false s).

Definition _uc_ack_timer_expired (s : uc_state) : uc_state := set_event_bits UC_EVENT_ACK_TIMER s.

(** [rtos_semaphore_take] and [rtos_semaphore_give] on a counting semaphore. *)
Definition sem_take (n : Z) : bool * Z := if 0 <? n then (true, n - 1) else (false, n).
Definition sem_give (n : Z) : bool * Z := if n <? UC_MSG_MAX_NUM then (true, n + 1) else (false, n).

Definition uc_alloc_send_proto (s : uc_state) : outcome (Z * uc_state) :=
  let '(ok, n) := sem_take (send_sem s) in
  let! _ := ASSERT ok in
  let! '(a, pool) := mempool_alloc (mempool s) enc_proto_size in
  Done (a, set_mempool pool (set_send_sem n s)).

Definition uc_free_send_proto (a : option Z) (s : uc_state) : outcome uc_state :=
  match a with
  | None => Abort
  | Some a =>
      let! pool := mempool_free (mempool s) (Some a) in
      let '(ok, n) := sem_give (send_sem s) in
      let! _ := ASSERT ok in
      Done (set_mempool pool (set_send_sem n s))
  end.

Definition uc_free_recv_proto (a : option Z) (s : uc_state) : outcome uc_state :=
  match a with
  | None => Abort
  | Some a =>
      let! pool := mempool_free (mempool s) (Some a) in
      let '(ok, n) := sem_give (recv_sem s) in
      let! _ := ASSERT ok in
      Done (set_mempool pool (set_recv_sem n s))
  end.

(** The loop of [uc_route]: the first initialised registration of the tag. *)
Fixpoint route_find (regs : list uc_route_registration_t) (tag : Z) : option Z :=
  match regs with
  | [] => None
  | r :: regs =>
      if initialized r && (reg_tag r =? tag) then Some (reg_cb r) else route_find regs tag
  end.

Definition uc_route (tag a : Z) (proto : list Z) (s : uc_state) : outcome uc_state :=
  match route_find (registrations s) tag with
  | Some cb => Done (set_inbox (inbox s ++ [(cb, a, proto)]) s)
  | None => uc_free_recv_proto (Some a) s
  end.

Fixpoint register_loop (regs : list uc_route_registration_t) (tag cb : Z)
    : outcome (list uc_route_registration_t) :=
  match regs with
  | [] => Abort
  | r :: regs =>
      if negb (initialized r) then Done (mk_reg tag cb true :: regs)
      else
        let! _ := ASSERT (negb (reg_tag r =? tag)) in
        let! regs := register_loop regs tag cb in
        Done (r :: regs)
  end.

Definition uc_route_register (tag cb : Z) (s : uc_state) : outcome uc_state :=
  let! regs := register_loop (registrations s) tag cb in
  Done (set_registrations regs s).

Definition _uc_on_proto (tag : Z) (proto : list Z) (s : uc_state) : outcome uc_state :=
  let '(ok, n) := sem_take (recv_sem s) in
  let! _ := ASSERT ok in
  let! '(mem, pool) := mempool_alloc (mempool s) (zlen proto) in
  uc_route tag mem proto (set_mempool pool (set_recv_sem n s)).

(** ** Receiving *)

(** Restart the timer of the pure ACK, or start it. *)
Definition arm_ack_timer (s : uc_state) : outcome uc_state :=
  let! expired := rtos_timer_expired (ack_timer s) in
  if negb expired then
    let! t := rtos_timer_restart (ack_timer s) in Done (set_ack_timer t s)
  else
    let! t := rtos_timer_start (ack_timer s) UC_ACK_TIMEOUT_MS in Done (set_ack_timer t s).

(** The part of [uc_process_msg] from the decryption to the check of the replay
    counter, for a payload that is encrypted: the header with the length of the
    plaintext, or the error, or [None] for a replayed message. *)
Definition process_decrypt (h : uc_msg_hdr_t) (s : uc_state)
    : outcome ((uc_err_t + option uc_msg_hdr_t) * uc_state) :=
  if payload_len h <? UC_ENCRYPTION_PADDING then Done (inl UC_ERR_DECODE_FAILED, s)
  else
    let plaintext_len := payload_len h - UC_ENCRYPTION_PADDING in
    let! _ := ASSERT (plaintext_len <? payload_len h) in
    let h := set_hdr_crc 0 h in
    let! msg := mwrite (msg_buffer s) 0 (hdr_bytes h) in
    let! seq := _uc_read_seq_num msg
                  (UC_MSG_HDR_SIZE + plaintext_len + AES_GCM_IV_LENGTH + AES_GCM_TAG_LENGTH) in
    let! aad := _uc_write_seq_num seq (hdr_bytes h ++ replicate 4 0) UC_MSG_HDR_SIZE in
    let! nonce := mread msg (UC_MSG_HDR_SIZE + plaintext_len) AES_GCM_IV_LENGTH in
    let! ciphertext := mread msg UC_MSG_HDR_SIZE plaintext_len in
    let! msg := mwrite msg (UC_MSG_HDR_SIZE + UC_DECRYPT_OFFSET) ciphertext in
    let! mac := mread msg (UC_MSG_HDR_SIZE + plaintext_len + AES_GCM_IV_LENGTH) AES_GCM_TAG_LENGTH in
    let! moved := mread msg (UC_MSG_HDR_SIZE + UC_DECRYPT_OFFSET) plaintext_len in
    let! plaintext := gcm_decrypt (crypto s) moved aad nonce mac in
    match plaintext with
    | None => Done (inl UC_ERR_DECRYPT_FAILED, set_msg_buffer msg s)
    | Some plaintext =>
        let! msg := mwrite msg UC_MSG_HDR_SIZE plaintext in
        let h := set_payload_len plaintext_len h in
        let! msg := mwrite msg 0 (hdr_bytes h) in
        let s := set_msg_buffer msg s in
        let '(fresh, k) := check_recv_seq (crypto s) seq in
        let s := set_crypto k s in
        if fresh : bool then Done (inr (Some h), s)
        else
          let! s := _uc_put_msg_buffer s in
          if has (hdr_flags h) UC_MSG_HDR_FLAGS_IMMEDIATE
          then Done (inr None, set_event_bits UC_EVENT_ACK_TIMER s)
          else let! s := arm_ack_timer s in Done (inr None, s)
    end.

(** The rest: duplicates, acknowledgement, decoding, delivery. *)
Definition process_payload (cb : Z → list Z → uc_state → outcome uc_state) (h : uc_msg_hdr_t)
    (s : uc_state) : outcome (uc_err_t * uc_state) :=
  if UC_COBS_RD_ENC_BUFFER_SIZE <? payload_len h then Done (UC_ERR_DECODE_TOO_SMALL, s)
  else
    let s := if has (hdr_flags h) UC_MSG_HDR_FLAGS_FIRST_MSG && (hdr_send_seq h =? 1)
             then set_recv_seq_num 0 s else s in
    if negb (recv_seq_num s =? hdr_send_seq h) && (0 <? payload_len h) then
      let s := set_recv_seq_num (hdr_send_seq h) s in
      let! s :=
        if has (hdr_flags h) UC_MSG_HDR_FLAGS_IMMEDIATE then
          let! expired := rtos_timer_expired (ack_timer s) in
          let! s := if negb expired then
                      let! t := rtos_timer_stop (ack_timer s) in Done (set_ack_timer t s)
                    else Done s in
          Done (set_event_bits UC_EVENT_ACK_TIMER s)
        else arm_ack_timer s in
      let! payload := mread (msg_buffer s) UC_MSG_HDR_SIZE (payload_len h) in
      let '(ok, proto) := pb_decode payload in
      let! buf := mwrite (rd_enc_buffer s) 0 proto in
      let s := set_rd_enc_buffer buf s in
      if ok : bool then
        let! s := _uc_put_msg_buffer s in
        let! proto := mread (rd_enc_buffer s) 0 dec_proto_size in
        let! s := cb (proto_tag h) proto s in
        Done (UC_ERR_NONE, s)
      else Done (UC_ERR_PROTO_DECODE_FAILED, s)
    else
      let! s := _uc_put_msg_buffer s in
      Done (UC_ERR_NONE, if 0 <? payload_len h then set_event_bits UC_EVENT_ACK_TIMER s else s).

(** The message is in [msg_buffer]; the proto is decoded to [rd_enc_buffer]. *)
Definition uc_process_msg (cb : Z → list Z → uc_state → outcome uc_state) (msg_len : Z)
    (s : uc_state) : outcome (uc_err_t * uc_state) :=
  let! _ := ASSERT (msg_len <=? UC_MSG_BUFFER_SIZE) in
  let! h := hdr_of (msg_buffer s) in
  if negb (msg_len =? UC_MSG_HDR_SIZE + payload_len h) then Done (UC_ERR_SIZE_MISMATCH, s)
  else
    let! crc := uc_compute_crc (msg_buffer s) in
    if negb (hdr_crc h =? crc) then Done (UC_ERR_CRC_MISMATCH, s)
    else
      let s :=
        if (has (hdr_flags h) UC_MSG_HDR_FLAGS_ACK || has (hdr_flags h) UC_MSG_HDR_FLAGS_NACK)
           && (send_seq_num s <=? hdr_ack_seq h)
        then set_event_bits (if has (hdr_flags h) UC_MSG_HDR_FLAGS_ACK then UC_EVENT_ACK
                             else UC_EVENT_NACK) s
        else s in
      if has (hdr_flags h) UC_MSG_HDR_FLAGS_ENCRYPTED && (0 <? payload_len h) then
        let! '(r, s) := process_decrypt h s in
        match r with
        | inl err => Done (err, s)
        | inr None => Done (UC_ERR_NONE, s)
        | inr (Some h) => process_payload cb h s
        end
      else process_payload cb h s.

(** The loop over the received bytes; the bytes it left. *)
Fixpoint decode_loop (cb : Z → list Z → uc_state → outcome uc_state) (data : list Z) (s : uc_state)
    : outcome (uc_err_t * list Z * uc_state) :=
  match data with
  | [] => Done (UC_ERR_NONE, [], s)
  | byte :: data =>
      let! _ := ASSERT (rd_index s <? UC_COBS_RD_ENC_BUFFER_SIZE) in
      let! buf := aset (rd_enc_buffer s) (rd_index s) byte in
      let s := set_rd_index (u16 (rd_index s + 1)) (set_rd_enc_buffer buf s) in
      if byte =? COBS_FRAME_DELIMITER then
        let! s := _uc_get_msg_buffer s in
        let! '(err, s) :=
          match cobs_decode (ztake (rd_index s) (rd_enc_buffer s)) UC_MSG_BUFFER_SIZE with
          | inr m =>
              let! msg := mwrite (msg_buffer s) 0 m in
              let! '(err, s) := uc_process_msg cb (zlen m) (set_msg_buffer msg s) in
              if bool_decide (err ≠ UC_ERR_NONE)
              then let! s := _uc_put_msg_buffer s in Done (err, s)
              else Done (err, s)
          | inl _ => let! s := _uc_put_msg_buffer s in Done (UC_ERR_NONE, s)
          end in
        if bool_decide (err ≠ UC_ERR_NONE) then Done (err, data, s)
        else
          let! buf := mwrite (rd_enc_buffer s) 0 (replicate (Z.to_nat (rd_index s)) 0) in
          decode_loop cb data (set_rd_index 0 (set_rd_enc_buffer buf s))
      else decode_loop cb data s
  end.

Definition uc_decode (cb : Z → list Z → uc_state → outcome uc_state) (data : list Z) (s : uc_state)
    : outcome (uc_err_t * list Z * uc_state) :=
  match data with
  | [] => Done (UC_ERR_INVALID_ARG, [], s)
  | _ :: _ => decode_loop cb data s
  end.

(** Each turn consumes at least one byte. *)
Fixpoint handle_data_loop (fuel : nat) (data : list Z) (s : uc_state) : outcome uc_state :=
  match data with
  | [] => Done s
  | _ :: _ =>
      match fuel with
      | O => Nofuel
      | S fuel =>
          let! '(_, rest, s) := uc_decode _uc_on_proto data s in
          handle_data_loop fuel rest s
      end
  end.
Definition uc_handle_data (data : list Z) (s : uc_state) : outcome uc_state :=
  handle_data_loop (length data) data s.

(** ** Sending *)

(** [++send_seq_num], skipping 0. *)
Definition next_send_seq (n : Z) : Z :=
  let n := u8 (n + 1) in if n =? 0 then u8 (n + 1) else n.

(** The write loop: [false] when the driver accepted nothing. *)
Fixpoint uc_write (fuel : nat) (wr_buf : list Z) (c : C) : outcome (bool * C) :=
  match wr_buf with
  | [] => Done (true, c)
  | _ :: _ =>
      match fuel with
      | O => Nofuel
      | S fuel =>
          let '(wr_size, c) := send_cb c wr_buf in
          if wr_size =? 0 then Done (false, c)
          else uc_write fuel (zdrop (Z.min wr_size (zlen wr_buf)) wr_buf) c
      end
  end.

(** If the ACK sequence number is still the same, the ACK timer is stopped. *)
Definition stop_ack_timer (ack_seq_num : Z) (s : uc_state) : outcome uc_state :=
  if recv_seq_num s =? ack_seq_num then
    let! t := rtos_timer_stop (ack_timer s) in Done (set_ack_timer t s)
  else Done s.

(** [rtos_mutex_take] with the write lock held by another task is a time-out. *)
Definition _uc_ack_with_timeout (s : uc_state) : outcome (uc_err_t * uc_state) :=
  if wr_mutex s then Done (UC_ERR_MUTEX_FAILED, s)
  else
    let s := clear_event_bits UC_EVENT_ACK_TIMER (set_wr_mutex true s) in
    let ack_seq_num := recv_seq_num s in
    let s := set_send_seq_num (next_send_seq (send_seq_num s)) s in
    let h := mk_hdr 0 (send_seq_num s) ack_seq_num 0 UC_MSG_HDR_FLAGS_ACK 0 0 in
    let! crc := uc_compute_crc (hdr_bytes h ++ [0]) in
    let h := set_hdr_crc crc h in
    let! '(err, s) :=
      match cobs_encode UC_COBS_WR_ENC_BUFFER_SIZE [hdr_bytes h] with
      | inl ret => Done (_uc_cobs_to_err ret, s)
      | inr frame =>
          let! buf := mwrite (wr_enc_buffer s) 0 frame in
          let s := set_wr_enc_buffer buf s in
          let! s := stop_ack_timer ack_seq_num s in
          let! '(ok, c) := uc_write (length frame) frame (context s) in
          Done (if ok : bool then UC_ERR_NONE else UC_ERR_WR_FAILED, set_context c s)
      end in
    let! _ := ASSERT (wr_mutex s) in
    Done (err, set_wr_mutex false s).

Definition uc_ack (s : uc_state) : outcome (uc_err_t * uc_state) := _uc_ack_with_timeout s.

Definition uc_idle (s : uc_state) : outcome uc_state :=
  if has (ack_events s) UC_EVENT_ACK_TIMER
  then let! '(_, s) := _uc_ack_with_timeout s in Done s
  else Done s.

Definition uc_env_step (e : uc_ev) (s : uc_state) : outcome uc_state :=
  match e with
  | EvRx data => uc_handle_data data s
  | EvIdle => uc_idle s
  | EvTick ms =>
      let '(t, due) := pass (ack_timer s) ms in
      let s := set_ack_timer t s in
      Done (if due : bool then _uc_ack_timer_expired s else s)
  end.

Fixpoint uc_env_run (es : list uc_ev) (s : uc_state) : outcome uc_state :=
  match es with
  | [] => Done s
  | e :: es => let! s := uc_env_step e s in uc_env_run es s
  end.

(** Failure before anything is sent: give both locks back. *)
Definition encode_fail (err : uc_err_t) (s : uc_state) : outcome (uc_err_t * uc_state) :=
  let! s := _uc_put_msg_buffer s in
  let! _ := ASSERT (wr_mutex s) in
  Done (err, set_wr_mutex false s).

(** Encrypt the [n] payload bytes of [msg] in place, behind them the nonce, the
    tag and the replay counter. *)
Definition encode_encrypt (h : uc_msg_hdr_t) (n : Z) (s : uc_state) : outcome (bool * uc_state) :=
  let! '(seq, k) := get_send_seq (crypto s) in
  let s := set_crypto k s in
  let! msg := _uc_write_seq_num seq (msg_buffer s)
                (UC_MSG_HDR_SIZE + n + AES_GCM_IV_LENGTH + AES_GCM_TAG_LENGTH) in
  let! aad := _uc_write_seq_num seq (hdr_bytes h ++ replicate 4 0) UC_MSG_HDR_SIZE in
  let! plaintext := mread msg UC_MSG_HDR_SIZE n in
  let! nonce := mread msg (UC_MSG_HDR_SIZE + n) AES_GCM_IV_LENGTH in
  let! mac := mread msg (UC_MSG_HDR_SIZE + n + AES_GCM_IV_LENGTH) AES_GCM_TAG_LENGTH in
  let! '(r, k) := gcm_encrypt (crypto s) plaintext aad nonce mac in
  let s := set_crypto k s in
  match r with
  | None => Done (false, set_msg_buffer msg s)
  | Some (ciphertext, nonce, mac) =>
      let! msg := mwrite msg UC_MSG_HDR_SIZE ciphertext in
      let! msg := mwrite msg (UC_MSG_HDR_SIZE + n) nonce in
      let! msg := mwrite msg (UC_MSG_HDR_SIZE + n + AES_GCM_IV_LENGTH) mac in
      Done (true, set_msg_buffer msg s)
  end.

(** From the header to the payload in [msg_buffer]: the final header, crc not
    yet set. *)
Definition encode_payload (proto : enc_t) (proto_len : Z) (h : uc_msg_hdr_t) (s : uc_state)
    : outcome ((uc_err_t + uc_msg_hdr_t) * uc_state) :=
  if 0 <? proto_len then
    match pb_encode proto (UC_MSG_BUFFER_SIZE - UC_MSG_HDR_SIZE) with
    | None | Some [] => Done (inl UC_ERR_PROTO_ENCODE_FAILED, s)
    | Some d =>
        let! msg := mwrite (msg_buffer s) UC_MSG_HDR_SIZE d in
        let s := set_msg_buffer msg s in
        if has (hdr_flags h) UC_MSG_HDR_FLAGS_ENCRYPTED then
          let h := set_payload_len (u16 (zlen d + UC_ENCRYPTION_PADDING)) h in
          let! '(ok, s) := encode_encrypt h (zlen d) s in
          Done (if ok : bool then inr h else inl UC_ERR_ENCRYPT_FAILED, s)
        else Done (inr (set_payload_len (u16 (zlen d)) h), s)
    end
  else Done (inr (set_payload_len 0 h), s).

(** The message in [msg_buffer], with its checksum, as the parts given to COBS. *)
Definition encode_frame (h : uc_msg_hdr_t) (s : uc_state)
    : outcome (cobs_ret_t + list Z) :=
  let! msg := mwrite (msg_buffer s) 0 (hdr_bytes h) in
  let! crc := uc_compute_crc msg in
  let! payload := mread msg UC_MSG_HDR_SIZE (payload_len h) in
  Done (cobs_encode UC_COBS_WR_ENC_BUFFER_SIZE
          (hdr_bytes (set_hdr_crc crc h) :: (if payload_len h =? 0 then [] else [payload]))).

Definition ACK_BITS : Z := Z.lor (Z.lor UC_EVENT_ACK UC_EVENT_NACK) UC_EVENT_TIMEOUT.

(** [rtos_event_group_wait_bits], clearing what it returns. *)
Definition wait_bits (bits : Z) (s : uc_state) : Z * uc_state :=
  let flags := Z.land (ack_events s) bits in
  (flags, if flags =? 0 then s else clear_event_bits bits s).

(** The transmissions: [waits] holds what happens on the processor during each
    wait. The number of transmissions left decides the result. *)
Fixpoint retransmit_loop (n : nat) (pure_ack : bool) (frame : list Z)
    (waits : list (list uc_ev)) (s : uc_state) : outcome (uc_err_t * uc_state) :=
  match n with
  | O => Done (UC_ERR_MAX_RETRANSMITS, s)
  | S n =>
      let s := clear_event_bits ACK_BITS s in
      let! '(ok, c) := uc_write (length frame) frame (context s) in
      let s := set_context c s in
      if negb ok then Done (UC_ERR_WR_FAILED, s)
      else if pure_ack then Done (UC_ERR_NONE, s)
      else
        let! s := uc_env_run (default [] (head waits)) s in
        let '(flags, s) := wait_bits ACK_BITS s in
        if has flags UC_EVENT_ACK then Done (UC_ERR_NONE, s)
        else retransmit_loop n pure_ack frame (tail waits) s
  end.

Definition uc_encode (tag : Z) (proto : enc_t) (proto_len flags : Z) (waits : list (list uc_ev))
    (s : uc_state) : outcome (uc_err_t * uc_state) :=
  if wr_mutex s then Done (UC_ERR_MUTEX_FAILED, s)
  else
    let s := set_wr_mutex true s in
    let! s := _uc_get_msg_buffer s in
    if UC_MSG_BUFFER_SIZE - UC_MSG_HDR_SIZE <? proto_len then encode_fail UC_ERR_TOO_LARGE s
    else
      let ack_seq_num := recv_seq_num s in
      let s := set_send_seq_num (next_send_seq (send_seq_num s)) s in
      let first := (0 <? proto_len) && negb (sent_first_msg s) in
      let s := if first then set_sent_first_msg true s else s in
      let fl := Z.lor UC_MSG_HDR_FLAGS_ACK flags in
      let fl := if first then Z.lor fl UC_MSG_HDR_FLAGS_FIRST_MSG else fl in
      let encrypt := _uc_should_encrypt tag
                     && (has_session (crypto s) || security_config_is_production) in
      if encrypt && (UC_MSG_BUFFER_SIZE - (UC_MSG_HDR_SIZE + UC_ENCRYPTION_PADDING) <? proto_len)
      then encode_fail UC_ERR_TOO_LARGE s
      else
        let fl := if encrypt then Z.lor fl UC_MSG_HDR_FLAGS_ENCRYPTED else fl in
        let h := mk_hdr tag (send_seq_num s) ack_seq_num 0 fl 0 0 in
        let! '(r, s) := encode_payload proto proto_len h s in
        match r with
        | inl err => encode_fail err s
        | inr h =>
            let! r := encode_frame h s in
            match r with
            | inl ret => encode_fail (_uc_cobs_to_err ret) s
            | inr frame =>
                let! buf := mwrite (wr_enc_buffer s) 0 frame in
                let s := set_wr_enc_buffer buf s in
                let! s := _uc_put_msg_buffer s in
                let! s := stop_ack_timer ack_seq_num s in
                let! '(err, s) := retransmit_loop UC_RETRANSMIT_MAX_COUNT (proto_len =? 0) frame
                                    waits s in
                let! _ := ASSERT (wr_mutex s) in
                Done (err, set_wr_mutex false s)
            end
        end.

(** [proto] is the message at address [a]. *)
Definition _uc_send (a : Z) (proto : enc_t) (flags : Z) (waits : list (list uc_ev)) (s : uc_state)
    : outcome (bool * uc_state) :=
  let! '(err, s) := uc_encode (which_msg proto) proto enc_proto_size flags waits s in
  let! s := uc_free_send_proto (Some a) s in
  Done (bool_decide (err = UC_ERR_NONE), s).

Definition uc_send a proto waits s := _uc_send a proto 0 waits s.
Definition uc_send_immediate a proto waits s := _uc_send a proto UC_MSG_HDR_FLAGS_IMMEDIATE waits s.

(** [uc_init] with its memory pool at [base]. *)
Definition uc_init (base : Z) (k : K) (c : C) : uc_state :=
  @mk_uc T K C 0 0 false (replicate (Z.to_nat UC_MSG_BUFFER_SIZE) 0) false
    0 (replicate (Z.to_nat UC_COBS_RD_ENC_BUFFER_SIZE) 0) false
    (replicate (Z.to_nat UC_COBS_WR_ENC_BUFFER_SIZE) 0) 0 rtos_timer_create_static k c
    (mempool_create [(enc_proto_size, UC_MSG_MAX_NUM, base);
                     (dec_proto_size, UC_MSG_MAX_NUM, base + enc_proto_size * UC_MSG_MAX_NUM)])
    UC_MSG_MAX_NUM UC_MSG_MAX_NUM
    (replicate UC_ROUTE_MAX_NUM_REGISTRATIONS (mk_reg 0 0 false)) [].
End Uc.
