(* ===== verification/UcLink.v ===== *)
(** * Properties of the link between the two processors

    On the model of [Uc]: whatever arrives on the line, the receiver stays
    within its buffers and gives its locks back; a transmitted frame is
    delivered; a corrupted one is refused; a repeated one is not delivered
    again; a send ends after at most three transmissions. *)

From S2P Require Import Prelude Mempool Timer UcCrc Uc.

(** What the crypto callbacks promise: they preserve lengths, and bytes stay bytes. *)
Class CryptoLaws (K : Type) `{CryptoApi K} : Prop := {
  gcm_decrypt_safe k ct aad nonce mac :
    safe (λ r, ∀ pt, r = Some pt → zlen pt = zlen ct) (gcm_decrypt k ct aad nonce mac);
  gcm_encrypt_safe k pt aad nonce mac :
    zlen nonce = AES_GCM_IV_LENGTH → zlen mac = AES_GCM_TAG_LENGTH →
    safe (λ r, ∀ ct nonce' mac', r.1 = Some (ct, nonce', mac') →
            zlen ct = zlen pt ∧ zlen nonce' = AES_GCM_IV_LENGTH ∧ zlen mac' = AES_GCM_TAG_LENGTH
            ∧ (bytes_ok (pt ++ nonce ++ mac) → bytes_ok (ct ++ nonce' ++ mac')))
      (gcm_encrypt k pt aad nonce mac);
  get_send_seq_safe k : safe (λ r, 0 ≤ r.1 < 4294967296) (get_send_seq k);
}.

#[export] Instance no_op_crypto_laws : CryptoLaws unit.
Proof.
  split; [by intros ? ? ? ? ? ? [= ->]|by intros ? ? ? ? ? Hn Hm ? ? ? [= <- <- <-]|].
  intros k. simpl. lia.
Qed.

Section Link.
Context {T K C : Type} `{!SwTimer T, !CryptoApi K, !Serial C} `{Cb : Cobs} `{P : UcProto}.
Context `{!CryptoLaws K, !SerialLaws C, !CobsLaws Cb, !UcProtoLaws P}.
Abbreviation uc_state := (uc_state_priv_t T K C).
Implicit Types (s : uc_state) (h : uc_msg_hdr_t).

#[local] Arguments u8 : simpl never.
#[local] Arguments u16 : simpl never.
#[local] Arguments u32 : simpl never.
#[local] Arguments aget : simpl never.
#[local] Arguments aset : simpl never.
#[local] Arguments mread : simpl never.
#[local] Arguments mwrite : simpl never.
#[local] Arguments Z.add : simpl never.
#[local] Arguments Z.sub : simpl never.
#[local] Arguments Z.mul : simpl never.

(** ** The header *)

Record hdr_ok (h : uc_msg_hdr_t) : Prop := {
  tag_range : 0 ≤ proto_tag h < 4294967296;
  send_range : byte_ok (hdr_send_seq h);
  ack_range : byte_ok (hdr_ack_seq h);
  crc_range : 0 ≤ hdr_crc h < 65536;
  flags_range : 0 ≤ hdr_flags h < 65536;
  reserved_range : 0 ≤ hdr_reserved h < 65536;
  len_range : 0 ≤ payload_len h < 65536;
}.

Lemma zlen_hdr_bytes h : zlen (hdr_bytes h) = UC_MSG_HDR_SIZE.
Proof. unfold hdr_bytes. rewrite !zlen_app, !zlen_le_encode. reflexivity. Qed.

Lemma hdr_bytes_ok h : hdr_ok h → bytes_ok (hdr_bytes h).
Proof.
  intros []. unfold hdr_bytes, bytes_ok. rewrite !Forall_app. split_and!; try apply le_encode_bytes.
  do 2 (constructor; [done|]). constructor.
Qed.

(** A packed header reads back. *)
Lemma hdr_of_bytes h rest : hdr_ok h → hdr_of (hdr_bytes h ++ rest) = Done h.
Proof.
  intros []. destruct h as [tag send ack crc fl res len].
  unfold hdr_of, read_u32, read_u16, hdr_bytes. cbn [proto_tag hdr_send_seq hdr_ack_seq hdr_crc
    hdr_flags hdr_reserved payload_len] in *.
  rewrite <- !app_assoc.
  rewrite (mread_eq _ [] (le_encode 4 tag) ([send; ack] ++ _)) by (rewrite ?zlen_le_encode; done).
  cbn [obind]. rewrite le_decode_encode by (simpl; lia).
  change (aget _ 4) with (Done send). change (aget _ 5) with (Done ack). cbn [obind].
  rewrite (mread_eq _ (le_encode 4 tag ++ [send; ack]) (le_encode 2 crc) (le_encode 2 fl ++ _))
    by (rewrite ?zlen_app, ?zlen_le_encode, <- ?app_assoc; done).
  cbn [obind]. rewrite le_decode_encode by (simpl; lia).
  rewrite (mread_eq _ (le_encode 4 tag ++ [send; ack] ++ le_encode 2 crc) (le_encode 2 fl)
             (le_encode 2 res ++ _))
    by (rewrite ?zlen_app, ?zlen_le_encode, <- ?app_assoc; done).
  cbn [obind]. rewrite le_decode_encode by (simpl; lia).
  rewrite (mread_eq _ (le_encode 4 tag ++ [send; ack] ++ le_encode 2 crc ++ le_encode 2 fl)
             (le_encode 2 res) (le_encode 2 len ++ _))
    by (rewrite ?zlen_app, ?zlen_le_encode, <- ?app_assoc; done).
  cbn [obind]. rewrite le_decode_encode by (simpl; lia).
  rewrite (mread_eq _ (le_encode 4 tag ++ [send; ack] ++ le_encode 2 crc ++ le_encode 2 fl
                        ++ le_encode 2 res) (le_encode 2 len) rest)
    by (rewrite ?zlen_app, ?zlen_le_encode, <- ?app_assoc; done).
  cbn [obind]. by rewrite le_decode_encode by (simpl; lia).
Qed.

(** Any fourteen bytes are a header. *)
Lemma bytes_ok_sub (l : list Z) off n : bytes_ok l → bytes_ok (ztake n (zdrop off l)).
Proof. intros. apply Forall_take, Forall_drop. done. Qed.

Lemma safe_read_u16 {B} (Q : B → Prop) msg off (k : Z → outcome B) :
  bytes_ok msg → 0 ≤ off → off + 2 ≤ zlen msg →
  (∀ x, 0 ≤ x < 65536 → safe Q (k x)) → safe Q (obind (read_u16 msg off) k).
Proof.
  intros Hb H1 H2 Hk. unfold read_u16, mread. zdecide. cbn [andb obind]. apply Hk.
  pose proof (le_decode_range _ (bytes_ok_sub msg off 2 Hb)) as Hr.
  rewrite zlen_ztake in Hr by (rewrite zlen_zdrop; lia). simpl in Hr. lia.
Qed.

Lemma safe_read_u32 {B} (Q : B → Prop) msg off (k : Z → outcome B) :
  bytes_ok msg → 0 ≤ off → off + 4 ≤ zlen msg →
  (∀ x, 0 ≤ x < 4294967296 → safe Q (k x)) → safe Q (obind (read_u32 msg off) k).
Proof.
  intros Hb H1 H2 Hk. unfold read_u32, mread. zdecide. cbn [andb obind]. apply Hk.
  pose proof (le_decode_range _ (bytes_ok_sub msg off 4 Hb)) as Hr.
  rewrite zlen_ztake in Hr by (rewrite zlen_zdrop; lia). simpl in Hr. lia.
Qed.

Lemma hdr_of_safe msg : bytes_ok msg → UC_MSG_HDR_SIZE ≤ zlen msg → safe hdr_ok (hdr_of msg).
Proof.
  unfold UC_MSG_HDR_SIZE. intros Hb Hl. unfold hdr_of.
  assert (∀ i x, msg !! i = Some x → byte_ok x) as Hby by (intros; by eapply Forall_lookup_1).
  apply safe_read_u32; [done|lia..|]. intros tag Ht.
  apply safe_aget; [lia|]. intros send Hse%Hby. apply safe_aget; [lia|]. intros ack Hack%Hby.
  do 4 (apply safe_read_u16; [done|lia..|]; intros ? ?). by split.
Qed.

(** ** The receiver stays within its memory *)

Record uc_inv (s : uc_state) : Prop := {
  msg_buffer_len : zlen (msg_buffer s) = UC_MSG_BUFFER_SIZE;
  rd_buffer_len : zlen (rd_enc_buffer s) = UC_COBS_RD_ENC_BUFFER_SIZE;
  rd_buffer_bytes : bytes_ok (rd_enc_buffer s);
  rd_index_range : 0 ≤ rd_index s ≤ UC_COBS_RD_ENC_BUFFER_SIZE;
  wr_buffer_len : zlen (wr_enc_buffer s) = UC_COBS_WR_ENC_BUFFER_SIZE;
  send_seq_range : byte_ok (send_seq_num s);
  recv_seq_range : byte_ok (recv_seq_num s);
  pool_inv : pool_ok (mempool s);
}.

(** What reception leaves alone. *)
Definition tx_side (s : uc_state) : Z * bool * bool * list Z * C :=
  (send_seq_num s, sent_first_msg s, wr_mutex s, wr_enc_buffer s, context s).

Lemma tx_side_inv s s0 : tx_side s = tx_side s0 →
  send_seq_num s = send_seq_num s0 ∧ wr_mutex s = wr_mutex s0 ∧ context s = context s0.
Proof. unfold tx_side. intros E. by injection E. Qed.

(** The message buffer is locked ([true]) or free, and the sender's part is
    that of [s0]. *)
Definition rx_ok (s0 : uc_state) (locked : bool) (s : uc_state) : Prop :=
  uc_inv s ∧ msg_mutex s = locked ∧ tx_side s = tx_side s0.

Ltac inv_set := match goal with H : uc_inv _ |- _ => destruct H; split; cbn; try done end.

Lemma rd_size_bounds : 0 < dec_proto_size ≤ UC_COBS_RD_ENC_BUFFER_SIZE ∧ UC_COBS_RD_ENC_BUFFER_SIZE < 65536.
Proof.
  pose proof rd_size_range as [Hd Hr].
  unfold UC_COBS_RD_ENC_BUFFER_SIZE, UC_COBS_OVERHEAD, UC_MSG_SIZE, UC_MSG_OVERHEAD,
    UC_MSG_HDR_SIZE, UC_ENCRYPTION_PADDING, AES_GCM_IV_LENGTH, AES_GCM_TAG_LENGTH.
  set (n := 14 + (12 + 16 + 4) + UC_CFG_RD_BUFFER_SIZE).
  assert (0 ≤ n / (255 - 1) ≤ n) as Hdiv.
  { split; [apply Z.div_pos; lia|]. apply Z.div_le_upper_bound; lia. }
  lia.
Qed.

Lemma set_events_ok s0 b bits s : rx_ok s0 b s → rx_ok s0 b (set_event_bits bits s).
Proof. intros (Hi & Hm & Ht). split_and!; [inv_set|done|done]. Qed.

Lemma set_timer_ok s0 b t s : rx_ok s0 b s → rx_ok s0 b (set_ack_timer t s).
Proof. intros (Hi & Hm & Ht). split_and!; [inv_set|done|done]. Qed.

Lemma set_recv_seq_ok s0 b n s : byte_ok n → rx_ok s0 b s → rx_ok s0 b (set_recv_seq_num n s).
Proof. intros Hn (Hi & Hm & Ht). split_and!; [inv_set|done|done]. Qed.

Lemma set_crypto_ok s0 b k s : rx_ok s0 b s → rx_ok s0 b (set_crypto k s).
Proof. intros (Hi & Hm & Ht). split_and!; [inv_set|done|done]. Qed.

Lemma set_msg_ok s0 b m s :
  zlen m = UC_MSG_BUFFER_SIZE → rx_ok s0 b s → rx_ok s0 b (set_msg_buffer m s).
Proof. intros Hl (Hi & Hm & Ht). split_and!; [inv_set|done|done]. Qed.

#[local] Hint Resolve set_events_ok set_timer_ok set_recv_seq_ok set_crypto_ok : fw.

Lemma put_safe s0 s : rx_ok s0 true s → safe (rx_ok s0 false) (_uc_put_msg_buffer s).
Proof.
  intros (Hi & Hm & Ht). unfold _uc_put_msg_buffer. rewrite Hm. simpl.
  split_and!; [inv_set|done|done].
Qed.

Lemma timer_safe {B} (t : rtos_timer_t T) (Q : B → Prop) k :
  (∀ x, safe Q (k x)) → safe Q (obind (rtos_timer_expired t) k).
Proof. intros Hk. unfold rtos_timer_expired, timer_handle. destruct (tm_handle t); simpl; auto. Qed.

Lemma arm_safe s0 b s : rx_ok s0 b s → safe (rx_ok s0 b) (arm_ack_timer s).
Proof.
  intros Hs. unfold arm_ack_timer. apply timer_safe. intros x.
  unfold rtos_timer_restart, rtos_timer_start, timer_handle.
  destruct (negb x), (tm_handle (ack_timer s)) as [t|]; simpl; try done.
  - destruct (xTimerReset t); simpl; auto with fw.
  - destruct (xTimerChangePeriod t _); simpl; auto with fw.
Qed.

Lemma stop_safe s0 b s :
  rx_ok s0 b s → safe (rx_ok s0 b) (let! t := rtos_timer_stop (ack_timer s) in Done (set_ack_timer t s)).
Proof.
  intros Hs. unfold rtos_timer_stop, timer_handle.
  destruct (tm_handle (ack_timer s)); simpl; auto with fw.
Qed.

(** What the delivery callback has to respect. *)
Definition cb_safe (cb : Z → list Z → uc_state → outcome uc_state) : Prop :=
  ∀ s0 tag proto s, zlen proto = dec_proto_size → rx_ok s0 false s →
    safe (rx_ok s0 false) (cb tag proto s).

Lemma free_recv_safe s0 a n s :
  rx_ok s0 false s → live (mempool s) a n → safe (rx_ok s0 false) (uc_free_recv_proto (Some a) s).
Proof.
  intros (Hi & Hm & Ht) Hl. unfold uc_free_recv_proto.
  destruct (mempool_free_spec _ _ _ (pool_inv s Hi) Hl) as (pool & -> & Hp & _). cbn [obind].
  destruct (sem_give (recv_sem s)) as [ok m]. apply safe_assert. intros _. simpl.
  split_and!; [inv_set|done|done].
Qed.

Lemma on_proto_safe : cb_safe _uc_on_proto.
Proof.
  intros s0 tag proto s Hl (Hi & Hm & Ht). unfold _uc_on_proto.
  destruct (sem_take (recv_sem s)) as [ok m]. apply safe_assert. intros _.
  pose proof (mempool_alloc_safe (mempool s) (zlen proto) (pool_inv s Hi)) as Hsafe.
  destruct (mempool_alloc (mempool s) (zlen proto)) as [[a pool]| | |] eqn:E; try done.
  destruct (mempool_alloc_spec _ _ _ _ (pool_inv s Hi) E) as (Hp & n & _ & _ & Hlive & _).
  cbn [obind]. unfold uc_route.
  assert (rx_ok s0 false (set_mempool pool (set_recv_sem m s))) as Hok
    by (split_and!; [inv_set|done|done]).
  destruct (route_find _ tag) as [cb|].
  - destruct Hok as (Hi' & Hm' & Ht'). simpl. split_and!; [inv_set|done|done].
  - apply (free_recv_safe s0 a n); [done|]. apply Hlive. by left.
Qed.

Lemma le_write_seq_safe seq buf off :
  0 ≤ off → off + 4 ≤ zlen buf → safe (λ b, zlen b = zlen buf) (_uc_write_seq_num seq buf off).
Proof.
  intros H1 H2. unfold _uc_write_seq_num.
  do 3 (apply safe_aset; [rewrite ?zlen_insert; lia|]).
  rewrite aset_done by (rewrite !zlen_insert; lia). simpl. by rewrite !zlen_insert.
Qed.

Lemma read_seq_safe buf off :
  0 ≤ off → off + 4 ≤ zlen buf → safe (λ _, True) (_uc_read_seq_num buf off).
Proof.
  intros H1 H2. unfold _uc_read_seq_num. do 4 (apply safe_aget; [lia|]; intros ? _). done.
Qed.

Definition decrypt_post (h : uc_msg_hdr_t) (s0 : uc_state)
    (r : (uc_err_t + option uc_msg_hdr_t) * uc_state) : Prop :=
  match r.1 with
  | inl err => err ≠ UC_ERR_NONE ∧ rx_ok s0 true r.2
  | inr None => rx_ok s0 false r.2
  | inr (Some h') => rx_ok s0 true r.2 ∧ hdr_ok h' ∧ payload_len h' ≤ payload_len h
  end.

Lemma process_decrypt_safe s0 h s :
  rx_ok s0 true s → hdr_ok h → UC_MSG_HDR_SIZE + payload_len h ≤ UC_MSG_BUFFER_SIZE →
  safe (decrypt_post h s0) (process_decrypt h s).
Proof.
  intros Hs Hh Hlen. unfold process_decrypt. pose proof (msg_buffer_len s (proj1 Hs)) as Hm.
  unfold UC_ENCRYPTION_PADDING, AES_GCM_IV_LENGTH, AES_GCM_TAG_LENGTH, UC_DECRYPT_OFFSET,
    UC_MSG_HDR_SIZE, UC_MSG_BUFFER_SIZE in *.
  destruct (payload_len h <? _) eqn:Ep; [by split|]; btest.
  set (n := payload_len h - (12 + 16 + 4)). apply safe_assert. intros _.
  pose proof (zlen_hdr_bytes (set_hdr_crc 0 h)) as Hz. unfold UC_MSG_HDR_SIZE in Hz.
  apply safe_mwrite; [lia..|]. intros m1 _ Hm1.
  eapply safe_bind; [apply read_seq_safe; lia|]. intros seq _.
  eapply safe_bind; [apply le_write_seq_safe; [lia|rewrite zlen_app, Hz, zlen_replicate; lia]|].
  intros aad _. apply safe_mread; [lia..|]. intros _.
  apply safe_mread; [lia..|]. intros Hct. apply safe_mwrite; [lia..|]. intros m2 _ Hm2.
  apply safe_mread; [lia..|]. intros _. apply safe_mread; [lia..|]. intros Hct2.
  eapply safe_bind; [apply gcm_decrypt_safe|]. intros [pt|] Hpt; [|].
  2: { split; [done|]. apply set_msg_ok; [unfold UC_MSG_BUFFER_SIZE; lia|done]. }
  specialize (Hpt pt eq_refl). apply safe_mwrite; [lia..|]. intros m3 _ Hm3.
  pose proof (zlen_hdr_bytes (set_payload_len n (set_hdr_crc 0 h))) as Hz2.
  unfold UC_MSG_HDR_SIZE in Hz2. apply safe_mwrite; [lia..|]. intros m4 _ Hm4.
  cbn [crypto set_msg_buffer].
  assert (rx_ok s0 true (set_msg_buffer m4 s)) as Hs4
    by (apply set_msg_ok; [unfold UC_MSG_BUFFER_SIZE; lia|done]).
  destruct (check_recv_seq _ seq) as [[|] k'].
  - split_and!; [by apply set_crypto_ok| |cbn; lia]. destruct Hh. split; cbn; try done; lia.
  - eapply safe_bind; [apply put_safe, set_crypto_ok, Hs4|]. intros s5 Hs5.
    destruct (has _ _); [by apply set_events_ok|].
    eapply safe_bind; [by apply arm_safe|]. done.
Qed.

(** The buffer lock is still held exactly when an error is returned. *)
Definition process_post (s0 : uc_state) (r : uc_err_t * uc_state) : Prop :=
  rx_ok s0 (bool_decide (r.1 ≠ UC_ERR_NONE)) r.2.

Lemma bytes_ok_app (a b : list Z) : bytes_ok a → bytes_ok b → bytes_ok (a ++ b).
Proof. intros. by apply Forall_app. Qed.

Lemma mwrite_bytes (l d l' : list Z) off :
  bytes_ok l → bytes_ok d → mwrite l off d = Done l' → bytes_ok l'.
Proof.
  unfold mwrite. destruct (_ && _); [|done]. intros Hl Hd [= <-].
  apply bytes_ok_app; [by apply Forall_take|]. apply bytes_ok_app; [done|]. by apply Forall_drop.
Qed.

Lemma process_payload_safe cb s0 h s :
  cb_safe cb → rx_ok s0 true s → hdr_ok h →
  UC_MSG_HDR_SIZE + payload_len h ≤ UC_MSG_BUFFER_SIZE →
  safe (process_post s0) (process_payload cb h s).
Proof.
  intros Hcb Hs Hh Hlen. unfold process_payload. pose proof rd_size_bounds as [Hd _].
  destruct (_ <? payload_len h); [done|].
  set (s1 := if has _ _ && _ then set_recv_seq_num 0 s else s).
  assert (rx_ok s0 true s1) as Hs1
    by (unfold s1; destruct (_ && _); [apply set_recv_seq_ok; [unfold byte_ok; lia|done]|done]).
  clearbody s1. clear Hs s.
  destruct (negb _ && _).
  2: { eapply safe_bind; [by apply put_safe|]. intros s2 Hs2.
       destruct (0 <? _); simpl; [by apply set_events_ok|done]. }
  set (s2 := set_recv_seq_num _ s1).
  assert (rx_ok s0 true s2) as Hs2 by (apply set_recv_seq_ok; [apply Hh|done]).
  clearbody s2. clear Hs1 s1.
  eapply (safe_bind (rx_ok s0 true)).
  { destruct (has _ _); [|by apply arm_safe]. apply timer_safe. intros x.
    eapply (safe_bind (rx_ok s0 true)); [|intros s3 Hs3; by apply set_events_ok].
    destruct (negb x); [by apply stop_safe|done]. }
  intros s3 Hs3. pose proof (proj1 Hs3) as Hi3. pose proof (len_range h Hh).
  pose proof (msg_buffer_len s3 Hi3) as Hm. pose proof (rd_buffer_len s3 Hi3) as Hr.
  unfold UC_MSG_HDR_SIZE in *. apply safe_mread; [lia..|]. intros _.
  set (payload := ztake _ _). pose proof (pb_decode_size payload) as [Hz Hb].
  destruct (pb_decode payload) as [ok proto]. cbn [snd] in Hz, Hb.
  apply safe_mwrite; [lia..|]. intros buf Ebuf Hbuf.
  assert (rx_ok s0 true (set_rd_enc_buffer buf s3)) as Hs4.
  { destruct Hs3 as (_ & Hm3 & Ht3). split_and!; [|done|done].
    pose proof (mwrite_bytes _ _ _ _ (rd_buffer_bytes s3 Hi3) Hb Ebuf).
    inv_set. by rewrite Hbuf. }
  destruct ok; [|done]. eapply safe_bind; [by apply put_safe|]. intros s5 Hs5.
  pose proof (rd_buffer_len s5 (proj1 Hs5)) as Hr5. apply safe_mread; [lia..|]. intros Hpl.
  eapply safe_bind; [by apply Hcb|]. done.
Qed.

Lemma uc_process_msg_safe cb s0 n s :
  cb_safe cb → rx_ok s0 true s → bytes_ok (msg_buffer s) →
  safe (process_post s0) (uc_process_msg cb n s).
Proof.
  intros Hcb Hs Hb. unfold uc_process_msg. pose proof (msg_buffer_len s (proj1 Hs)) as Hm.
  apply safe_assert. intros Hn. btest.
  pose proof (hdr_of_safe (msg_buffer s) Hb) as Hh.
  assert (safe hdr_ok (hdr_of (msg_buffer s))) as Hh'
    by (apply Hh; rewrite Hm; unfold UC_MSG_HDR_SIZE, UC_MSG_BUFFER_SIZE; lia).
  destruct (hdr_of (msg_buffer s)) as [h| | |] eqn:Eh; try done. cbn [obind]. clear Hh.
  simpl in Hh'. destruct (n =? _) eqn:En; cbn [negb]; [|done]. btest. subst n.
  pose proof (len_range h Hh').
  assert (safe (λ _, True) (uc_compute_crc (msg_buffer s))) as Hcrc.
  { unfold uc_compute_crc. rewrite Eh. cbn [obind].
    apply safe_mread; [unfold UC_MSG_HDR_SIZE; lia|lia|lia|done]. }
  eapply safe_bind; [exact Hcrc|]. intros crc _. destruct (negb _); [done|].
  set (s1 := if (has _ _ || _) && _ then set_event_bits _ s else s).
  assert (rx_ok s0 true s1) as Hs1
    by (unfold s1; destruct (_ && _); [by apply set_events_ok|done]).
  clearbody s1. destruct (_ && _); [|by apply process_payload_safe].
  eapply safe_bind; [by apply process_decrypt_safe|]. intros [[err|[h'|]] s2] Hp; cbn in Hp.
  - destruct Hp as [Herr Hs2]. unfold process_post. cbn. by rewrite bool_decide_true.
  - destruct Hp as (Hs2 & Hh2 & Hl2). apply process_payload_safe; [done..|lia].
  - done.
Qed.

Lemma decode_loop_safe cb s0 data s :
  cb_safe cb → rx_ok s0 false s → bytes_ok data →
  safe (λ r, rx_ok s0 false r.2 ∧ (length r.1.2 ≤ length data)%nat ∧
             (data ≠ [] → (length r.1.2 < length data)%nat) ∧ bytes_ok r.1.2)
    (decode_loop cb data s).
Proof.
  intros Hcb Hs Hd. revert s Hs. induction Hd as [|byte data Hby Hd IH]; intros s Hs; simpl.
  { split_and!; [done|done|by intros []|constructor]. }
  pose proof rd_size_bounds as [Hdec Hrd].
  assert (∀ s', rx_ok s0 false s' → safe (λ r, rx_ok s0 false r.2 ∧
    (length r.1.2 ≤ S (length data))%nat ∧
    (byte :: data ≠ [] → (length r.1.2 < S (length data))%nat) ∧ bytes_ok r.1.2)
      (decode_loop cb data s')) as Hnext.
  { intros s' Hs'. eapply safe_mono; [by apply IH|]. intros r (? & ? & ? & ?).
    split_and!; [done|lia|intros; lia|done]. }
  apply safe_assert. intros Hidx. btest. pose proof Hs as (Hi & Hm & Ht). pose proof Hi as [].
  apply safe_aset; [lia|]. rewrite u16_small by lia.
  set (s1 := set_rd_index _ _).
  assert (rx_ok s0 false s1) as Hs1.
  { split_and!; [|done|done]. inv_set; [|by apply Forall_insert|lia]. by rewrite zlen_insert. }
  clearbody s1. clear Hi Hm Ht Hs msg_buffer_len0 rd_buffer_len0 rd_buffer_bytes0 rd_index_range0
    wr_buffer_len0 send_seq_range0 recv_seq_range0 pool_inv0 Hidx s.
  destruct (byte =? _); [|by apply Hnext]. destruct Hs1 as (Hi1 & Hm1 & Ht1).
  unfold _uc_get_msg_buffer. rewrite Hm1. cbn [negb ASSERT obind].
  set (s2 := set_msg_buffer _ _).
  assert (rx_ok s0 true s2) as Hs2.
  { split_and!; [|done|done]. inv_set. }
  assert (bytes_ok (msg_buffer s2)) as Hz
    by (apply Forall_replicate; unfold byte_ok; lia).
  clearbody s2. pose proof (proj1 Hs2) as Hi2.
  eapply (safe_bind (λ r, rx_ok s0 false r.2)).
  { destruct (cobs_decode _ _) as [ret|m] eqn:Ec.
    { eapply safe_bind; [by apply put_safe|]. done. }
    pose proof (cobs_decode_fits _ _ _ Ec) as Hfit.
    assert (bytes_ok m) as Hmb.
    { eapply cobs_decode_bytes; [|exact Ec]. apply Forall_take, (rd_buffer_bytes s2 Hi2). }
    pose proof (msg_buffer_len s2 Hi2) as Hml.
    apply safe_mwrite; [lia..|]. intros msg Emsg Hmsg.
    eapply safe_bind.
    { apply uc_process_msg_safe; [done|by apply set_msg_ok; [lia|]|].
      exact (mwrite_bytes _ _ _ _ Hz Hmb Emsg). }
    intros [err s3] Hp. unfold process_post in Hp. cbn [fst snd] in Hp.
    destruct (bool_decide (err ≠ UC_ERR_NONE)); [|done].
    eapply safe_bind; [by apply put_safe|]. done. }
  intros [err s3] Hs3. cbn [snd] in Hs3. destruct (bool_decide _).
  { cbn. split_and!; [done|lia|intros; lia|done]. }
  destruct Hs3 as (Hi3 & Hm3 & Ht3). pose proof Hi3 as [].
  apply safe_mwrite; [lia|rewrite zlen_replicate; lia|]. intros buf Ebuf Hbuf.
  apply Hnext. split_and!; [|done|done].
  assert (bytes_ok buf) by (eapply mwrite_bytes; [exact rd_buffer_bytes0| |exact Ebuf];
    apply Forall_replicate; unfold byte_ok; lia).
  inv_set; lia.
Qed.

(** Whatever bytes arrive, the receiver's loop ends, within memory, with the
    buffer lock released and the sender's part untouched. *)
Lemma handle_data_safe s0 data s :
  rx_ok s0 false s → bytes_ok data → safe (rx_ok s0 false) (uc_handle_data data s).
Proof.
  unfold uc_handle_data. intros Hs Hd.
  assert (∀ fuel data s, (length data ≤ fuel)%nat → rx_ok s0 false s → bytes_ok data →
            safe (rx_ok s0 false) (handle_data_loop fuel data s)) as H; [|by apply H].
  clear Hs Hd data s. induction fuel as [|fuel IH]; intros [|b data] s Hf Hs Hd; simpl; try done;
    [simpl in Hf; lia|].
  eapply safe_bind; [apply (decode_loop_safe _uc_on_proto s0 (b :: data)); [apply on_proto_safe|done..]|].
  intros [[err rest] s1] (Hs1 & _ & Hlt & Hr). cbn [fst snd] in *.
  specialize (Hlt ltac:(done)). simpl in Hlt, Hf. apply IH; [lia|done..].
Qed.

(** ** Transmissions *)

Definition ev_ok (e : uc_ev) : Prop := match e with EvRx data => bytes_ok data | _ => True end.

(** While a send holds the write lock, the rest of the processor does not touch
    the sender's state. *)
Lemma env_run_safe s0 es s :
  wr_mutex s0 = true → rx_ok s0 false s → Forall ev_ok es → safe (rx_ok s0 false) (uc_env_run es s).
Proof.
  intros Hw Hs Hes. revert s Hs. induction Hes as [|e es He _ IH]; intros s Hs; simpl; [done|].
  eapply safe_bind; [|exact IH]. destruct e as [data| |ms]; simpl.
  - by apply handle_data_safe.
  - unfold uc_idle, _uc_ack_with_timeout. destruct (has _ _); [|done].
    destruct (tx_side_inv s s0 (proj2 (proj2 Hs))) as (_ & -> & _). by rewrite Hw.
  - destruct (pass (ack_timer s) ms) as [t [|]]; simpl; auto with fw.
    apply set_events_ok. auto with fw.
Qed.

(** The driver is called until it has taken the whole frame or refuses. *)
Lemma uc_write_spec fuel d c :
  (length d ≤ fuel)%nat →
  ∃ ok c', uc_write fuel d c = Done (ok, c') ∧
    ∃ n, sent c' = sent c ++ ztake n d ∧ 0 ≤ n ≤ zlen d ∧ (ok = true → n = zlen d).
Proof.
  revert d c. induction fuel as [|fuel IH]; intros d c Hf; destruct d as [|b d]; simpl; try (simpl in Hf; lia).
  1, 2: exists true, c; split; [done|]; exists 0; by rewrite app_nil_r.
  pose proof (send_cb_range c (b :: d)) as Hr. pose proof (send_cb_sent c (b :: d)) as Hsent.
  destruct (send_cb c (b :: d)) as [n c1]. cbn [fst snd] in Hr, Hsent.
  destruct (n =? 0) eqn:E; btest.
  { subst n. exists false, c1. split; [done|]. exists 0. rewrite Z.min_l in Hsent by apply zlen_nonneg.
    split_and!; [done|lia|apply zlen_nonneg|done]. }
  pose proof (zlen_nonneg d). remember (Z.min n (zlen (b :: d))) as m eqn:Em.
  assert (1 ≤ m ≤ 1 + zlen d) as Hm by (rewrite zlen_cons in Em; lia).
  destruct (IH (zdrop m (b :: d)) c1) as (ok & c2 & -> & k & Hk & Hkr & Hok).
  { unfold zdrop. rewrite length_drop. simpl in *. lia. }
  exists ok, c2. split; [done|]. exists (m + k).
  rewrite zlen_zdrop in Hkr, Hok by (rewrite zlen_cons; lia). rewrite zlen_cons in *.
  split_and!; [|lia|lia|intros; specialize (Hok ltac:(done)); lia].
  rewrite Hk, Hsent, <- app_assoc. unfold ztake, zdrop.
  rewrite take_take_drop. do 2 f_equal. lia.
Qed.

(** What the transmissions of [frame] add to the line: [n] whole copies, then,
    if the driver refused, a part of one. *)
Definition transmitted (frame : list Z) (n : nat) (c c' : C) : Prop :=
  ∃ part, sent c' = sent c ++ concat (replicate n frame) ++ part ∧ zlen part ≤ zlen frame.

Lemma retransmit_safe n frame waits s0 s :
  wr_mutex s0 = true → rx_ok s0 false s → Forall (Forall ev_ok) waits →
  safe (λ r, uc_inv r.2 ∧ msg_mutex r.2 = false ∧ wr_mutex r.2 = true ∧
             send_seq_num r.2 = send_seq_num s0 ∧
             ∃ m, (m ≤ n)%nat ∧ transmitted frame m (context s) (context r.2) ∧
                  (r.1 = UC_ERR_NONE → (1 ≤ m)%nat) ∧
                  (r.1 = UC_ERR_NONE ∨ r.1 = UC_ERR_MAX_RETRANSMITS →
                     sent (context r.2) = sent (context s) ++ concat (replicate m frame)) ∧
                  (r.1 = UC_ERR_MAX_RETRANSMITS → m = n) ∧
                  (r.1 = UC_ERR_NONE ∨ r.1 = UC_ERR_WR_FAILED ∨ r.1 = UC_ERR_MAX_RETRANSMITS))
    (retransmit_loop n false frame waits s).
Proof.
  intros Hw. revert waits s0 s Hw. induction n as [|n IH]; intros waits s0 s Hw Hs Hes; simpl.
  { destruct Hs as (Hi & Hm & (Hq & Hwm & _)%tx_side_inv). split_and!; [done|done|congruence|done|].
    exists 0%nat. split_and!; try done; [|by rewrite app_nil_r|by right; right].
    exists []. rewrite app_nil_r. by split; [|apply zlen_nonneg]. }
  destruct (uc_write_spec (length frame) frame (context s)) as (ok & c & -> & k & Hk & Hkr & Hok);
    [done|]. cbn [obind]. set (s1 := set_context c _).
  assert (rx_ok s1 false s1) as Hs1.
  { destruct Hs as (Hi & Hm & _). split_and!; [inv_set|done|done]. }
  assert (wr_mutex s1 = true ∧ send_seq_num s1 = send_seq_num s0) as [Hw1 Hq1]
    by (destruct Hs as (_ & _ & (Hq & Hwm & _)%tx_side_inv); split; simpl; congruence).
  destruct ok; cbn [negb].
  2: { split_and!; [apply Hs1|apply Hs1|done|done|]. exists 0%nat. simpl.
       split_and!; try done; try lia; [|by intros [|]|auto].
       exists (ztake k frame). split; [done|]. rewrite zlen_ztake; lia. }
  rewrite (Hok eq_refl), ztake_all in Hk by lia.
  assert (Forall ev_ok (default [] (head waits)) ∧ Forall (Forall ev_ok) (tail waits)) as [Hev Htl]
    by (destruct Hes; simpl; split; try done; constructor).
  eapply safe_bind; [by apply env_run_safe|]. intros s2 Hs2. unfold wait_bits.
  set (s3 := if _ =? 0 then s2 else clear_event_bits _ s2).
  assert (rx_ok s1 false s3) as Hs3.
  { unfold s3. destruct (_ =? 0); [done|]. destruct Hs2 as (Hi & Hm & Ht).
    split_and!; [inv_set|done|done]. }
  clearbody s3. destruct (tx_side_inv s3 s1 (proj2 (proj2 Hs3))) as (Hq3 & Hw3 & Hc3).
  change (context s1) with c in Hc3.
  destruct (has _ _).
  - destruct Hs3 as (Hi3 & Hm3 & _). cbn [safe fst snd].
    split_and!; [done|done|congruence|congruence|]. exists 1%nat. simpl. rewrite app_nil_r.
    split_and!; try done; try lia; [|by rewrite Hc3|auto]. exists [].
    simpl. rewrite !app_nil_r, Hc3. split; [done|apply zlen_nonneg].
  - eapply safe_mono; [by apply (IH (tail waits) s1)|].
    intros [err s4] (Hi4 & Hm4 & Hw4 & Hq4 & m & Hm & (part & Hp & Hpl) & H1 & H2 & H3 & H4).
    cbn [fst snd] in *. split_and!; [done|done|done|congruence|]. rewrite Hc3, Hk in *.
    exists (S m). simpl. split_and!; [lia| |lia| |intros; f_equal; by apply H3|done].
    + exists part. split; [|done]. simpl. by rewrite Hp, <- !app_assoc.
    + intros He. rewrite H2 by done. by rewrite <- app_assoc.
Qed.

(** ** Messages on the wire *)

Lemma write_seq_num_spec seq l q k :
  zlen q = 4 → _uc_write_seq_num seq (l ++ q ++ k) (zlen l) = Done (l ++ le_encode 4 seq ++ k).
Proof.
  intros Hq. destruct q as [|q0 [|q1 [|q2 [|q3 [|q4 q]]]]]; autorewrite with zlen in Hq; try lia.
  2: { pose proof (zlen_nonneg q). lia. }
  unfold _uc_write_seq_num.
  assert (∀ n, 0 ≤ n → Z.land (Z.shiftr seq n) 0xff = (seq / 2 ^ n) mod 256) as Hbyte.
  { intros n Hn. change 0xff with (Z.ones 8). rewrite Z.land_ones by lia.
    by rewrite Z.shiftr_div_pow2. }
  rewrite !Hbyte by lia. simpl le_encode.
  rewrite !Z.div_div by lia. change (256 * 256) with (2 ^ 16).
  change (2 ^ 16 * 256) with (2 ^ 24). change (seq / 256) with (seq / 2 ^ 8).
  change (2 ^ 0) with 1. rewrite Z.div_1_r.
  assert (∀ i x, 0 ≤ i < 4 → ∀ l' : list Z, zlen l' = zlen (l ++ [q0; q1; q2; q3] ++ k) →
            aset l' (zlen l + i) x = Done (<[(length l + Z.to_nat i)%nat := x]> l')) as Hset.
  { intros i x Hi l' Hl'. rewrite aset_done by (rewrite Hl'; zl). do 2 f_equal. unfold zlen. lia. }
  rewrite <- (Z.add_0_r (zlen l)) at 1. rewrite Hset by (done || lia). cbn [obind].
  rewrite Hset by (rewrite ?zlen_insert; done || lia). cbn [obind].
  rewrite Hset by (rewrite ?zlen_insert; done || lia). cbn [obind].
  rewrite Hset by (rewrite ?zlen_insert; done || lia).
  rewrite !insert_app_r. done.
Qed.

Lemma read_seq_num_spec seq l k :
  0 ≤ seq < 4294967296 → _uc_read_seq_num (l ++ le_encode 4 seq ++ k) (zlen l) = Done seq.
Proof.
  intros Hs. unfold _uc_read_seq_num.
  assert (∀ i x, le_encode 4 seq !! i = Some x → aget (l ++ le_encode 4 seq ++ k) (zlen l + Z.of_nat i) = Done x) as Hget.
  { intros i x Hi. apply aget_Some; [zl|]. replace (Z.to_nat _) with (length l + i)%nat by (unfold zlen; lia).
    rewrite lookup_app_r by lia. replace (length l + i - length l)%nat with i by lia.
    by apply lookup_app_l_Some. }
  rewrite <- (Z.add_0_r (zlen l)) at 1.
  rewrite (Hget 0%nat _ eq_refl : aget _ (zlen l + 0) = _). cbn [obind].
  rewrite (Hget 1%nat _ eq_refl : aget _ (zlen l + 1) = _). cbn [obind].
  rewrite (Hget 2%nat _ eq_refl : aget _ (zlen l + 2) = _). cbn [obind].
  rewrite (Hget 3%nat _ eq_refl : aget _ (zlen l + 3) = _). cbn [obind]. f_equal.
  rewrite Z.lor_0_l, Z.shiftl_0_r, !Z.div_div by lia.
  assert (∀ x, 0 ≤ x mod 256 < 256) as Hm by (intros; apply Z.mod_pos_bound; lia).
  pose proof (Hm seq). pose proof (Hm (seq / 256)). pose proof (Hm (seq / (256 * 256))).
  pose proof (Hm (seq / (256 * 256 * 256))).
  rewrite (lor_shiftl_add _ _ 8) by (simpl; lia).
  rewrite (lor_shiftl_add _ _ 16) by (simpl; lia).
  rewrite (lor_shiftl_add _ _ 24) by (simpl; lia).
  rewrite <- (le_decode_encode 4 seq) at 5 by (simpl; lia). simpl le_decode.
  rewrite !Z.div_div by lia. change (2 ^ 8) with 256. change (2 ^ 16) with 65536.
  change (2 ^ 24) with 16777216. lia.
Qed.

(** The checksum of a header and a payload. *)
Definition wire_crc (h : uc_msg_hdr_t) (p : list Z) : Z :=
  crc_data (crc_data UC_CRC_SEED (hdr_bytes (set_hdr_crc 0 h))) p.

(** A header that fits its payload and carries its checksum. *)
Record sealed (h : uc_msg_hdr_t) (p : list Z) : Prop := {
  sealed_hdr : hdr_ok h;
  sealed_len : payload_len h = zlen p;
  sealed_crc : hdr_crc h = wire_crc h p;
  sealed_bytes : bytes_ok p;
  sealed_fits : UC_MSG_HDR_SIZE + zlen p ≤ UC_MSG_BUFFER_SIZE;
}.

Lemma compute_crc_spec h p rest :
  hdr_ok h → payload_len h = zlen p → uc_compute_crc (hdr_bytes h ++ p ++ rest) = Done (wire_crc h p).
Proof.
  intros Hh Hl. unfold uc_compute_crc. rewrite hdr_of_bytes by done. cbn [obind].
  rewrite (mread_eq _ (hdr_bytes h) p rest) by (rewrite ?zlen_hdr_bytes; done). done.
Qed.

Lemma wire_crc_range h p : 0 ≤ wire_crc h p < 65536.
Proof. apply crc_data_reg, crc_data_reg. unfold reg_ok, UC_CRC_SEED. lia. Qed.

(** The state in which a message is processed: locked, with the message at the
    start of the zeroed buffer. *)
Definition with_msg (m : list Z) (s : uc_state) : uc_state :=
  set_msg_buffer (m ++ replicate (Z.to_nat (UC_MSG_BUFFER_SIZE - zlen m)) 0) (set_msg_mutex true s).

Lemma write_msg m :
  zlen m ≤ UC_MSG_BUFFER_SIZE →
  mwrite (replicate (Z.to_nat UC_MSG_BUFFER_SIZE) 0) 0 m
  = Done (m ++ replicate (Z.to_nat (UC_MSG_BUFFER_SIZE - zlen m)) 0).
Proof.
  intros Hm. pose proof (zlen_nonneg m).
  apply (mwrite_eq _ [] (replicate (Z.to_nat (zlen m)) 0)); [|done|rewrite zlen_replicate; lia].
  cbn [app].
  replace (Z.to_nat UC_MSG_BUFFER_SIZE)
    with (Z.to_nat (zlen m) + Z.to_nat (UC_MSG_BUFFER_SIZE - zlen m))%nat by lia.
  apply replicate_add.
Qed.

(** Bytes of a frame before its delimiter are only collected. *)
Lemma decode_body cb body rest s :
  COBS_FRAME_DELIMITER ∉ body → 0 ≤ rd_index s →
  zlen (rd_enc_buffer s) = UC_COBS_RD_ENC_BUFFER_SIZE →
  rd_index s + zlen body < UC_COBS_RD_ENC_BUFFER_SIZE →
  ∃ buf, decode_loop cb (body ++ rest) s
         = decode_loop cb rest (set_rd_index (rd_index s + zlen body) (set_rd_enc_buffer buf s)) ∧
    ztake (rd_index s + zlen body) buf = ztake (rd_index s) (rd_enc_buffer s) ++ body ∧
    zlen buf = zlen (rd_enc_buffer s) ∧
    (bytes_ok body → bytes_ok (rd_enc_buffer s) → bytes_ok buf).
Proof.
  revert s. pose proof rd_size_bounds as [_ Hrd].
  induction body as [|b body IH]; intros s Hnot Hi Hr Hlen.
  { exists (rd_enc_buffer s). rewrite zlen_nil, Z.add_0_r, app_nil_r. split_and!; try done.
    destruct s; done. }
  apply not_elem_of_cons in Hnot as [Hb Hnot]. rewrite zlen_cons in *.
  pose proof (zlen_nonneg body). cbn [app decode_loop]. zdecide. cbn [ASSERT obind].
  rewrite aset_done by lia. cbn [obind]. 
  rewrite u16_small by lia.
  set (buf1 := <[Z.to_nat (rd_index s) := b]> (rd_enc_buffer s)).
  set (s1 := set_rd_index _ _).
  destruct (IH s1) as (buf & E & Ht & Hl & Hbs).
  - done.
  - cbn. lia.
  - cbn. unfold buf1. by rewrite zlen_insert.
  - cbn. lia.
  - exists buf. split_and!; [|cbn in Ht|cbn in Hl; unfold buf1 in Hl; by rewrite zlen_insert in Hl|].
    + rewrite E. unfold s1. cbn [set_rd_index set_rd_enc_buffer rd_index].
      by replace (rd_index s + (1 + zlen body)) with (rd_index s + 1 + zlen body) by lia.
    + replace (rd_index s + (1 + zlen body)) with (rd_index s + 1 + zlen body) by lia.
      rewrite Ht. unfold buf1, ztake. replace (Z.to_nat (rd_index s + 1)) with (S (Z.to_nat (rd_index s))) by lia.
      rewrite (take_S_r _ _ b) by (apply list_lookup_insert_eq; unfold zlen in *; lia).
      rewrite take_insert_ge by lia. by rewrite <- app_assoc.
    + intros Hbb Hrb. inversion Hbb; subst. apply Hbs; [done|]. by apply Forall_insert.
Qed.

(** What remains of [uc_decode] after a frame was decoded to a message. *)
Definition after_frame (cb : Z → list Z → uc_state → outcome uc_state) (rest : list Z)
    (r : uc_err_t * uc_state) : outcome (uc_err_t * list Z * uc_state) :=
  let '(err, s) := r in
  if bool_decide (err ≠ UC_ERR_NONE) then let! s := _uc_put_msg_buffer s in Done (err, rest, s)
  else
    let! buf := mwrite (rd_enc_buffer s) 0 (replicate (Z.to_nat (rd_index s)) 0) in
    decode_loop cb rest (set_rd_index 0 (set_rd_enc_buffer buf s)).

Lemma decode_frame cb cap parts f m rest s :
  cobs_encode cap parts = inr f → concat parts = m → zlen m ≤ UC_MSG_BUFFER_SIZE →
  bytes_ok m → zlen f ≤ UC_COBS_RD_ENC_BUFFER_SIZE → uc_inv s → rd_index s = 0 →
  msg_mutex s = false →
  ∃ buf, let s1 := set_rd_index (zlen f) (set_rd_enc_buffer buf s) in
    decode_loop cb (f ++ rest) s
    = (let! r := uc_process_msg cb (zlen m) (with_msg m s1) in after_frame cb rest r) ∧
    uc_inv s1.
Proof.
  intros Ef Em Hm Hmb Hf Hi H0 Hlock. pose proof Hi as []. pose proof rd_size_bounds as [_ Hrd].
  destruct (cobs_frame _ _ _ Ef) as (body & -> & Hnot & _).
  assert (bytes_ok (body ++ [COBS_FRAME_DELIMITER])) as Hfb
    by (eapply cobs_frame_bytes; [done|by rewrite Em]).
  rewrite zlen_app in Hf. change (zlen [COBS_FRAME_DELIMITER]) with 1 in Hf.
  rewrite <- app_assoc.
  destruct (decode_body cb body ([COBS_FRAME_DELIMITER] ++ rest) s) as (buf & -> & Ht & Hl & Hbs);
    [done|lia|done|lia|].
  rewrite H0 in *. rewrite Z.add_0_l in *. change (ztake 0 (rd_enc_buffer s)) with (@nil Z) in Ht.
  cbn [app] in Ht.
  exists (<[Z.to_nat (zlen body) := COBS_FRAME_DELIMITER]> buf). cbn zeta.
  pose proof (zlen_nonneg body).
  assert (ztake (zlen body + 1) (<[Z.to_nat (zlen body) := COBS_FRAME_DELIMITER]> buf)
          = body ++ [COBS_FRAME_DELIMITER]) as Hfull.
  { unfold ztake in *. replace (Z.to_nat (zlen body + 1)) with (S (Z.to_nat (zlen body))) by lia.
    rewrite (take_S_r _ _ COBS_FRAME_DELIMITER) by (apply list_lookup_insert_eq; unfold zlen in *; lia).
    by rewrite take_insert_ge, Ht by lia. }
  split.
  - cbn [app decode_loop rd_index rd_enc_buffer set_rd_index set_rd_enc_buffer].
    rewrite (proj2 (Z.ltb_lt _ _)) by lia. cbn [ASSERT obind].
    rewrite aset_done by lia. cbn [obind]. rewrite Z.eqb_refl, u16_small by lia.
    unfold _uc_get_msg_buffer. cbn [msg_mutex set_rd_index set_rd_enc_buffer].
    rewrite Hlock. cbn [negb ASSERT obind rd_index rd_enc_buffer msg_buffer set_rd_index
      set_rd_enc_buffer set_msg_buffer set_msg_mutex].
    rewrite Hfull, (cobs_decode_encode _ _ _ _ Ef) by (by rewrite Em). rewrite Em, write_msg by done.
    cbn [obind]. rewrite zlen_app. change (zlen [COBS_FRAME_DELIMITER]) with 1.
    unfold with_msg. cbn [set_msg_buffer set_msg_mutex set_rd_index set_rd_enc_buffer].
    destruct (uc_process_msg _ _ _) as [[err s']| | |]; cbn [obind after_frame]; try done.
    destruct (bool_decide (err ≠ UC_ERR_NONE)) eqn:Ee; cbn [obind].
    + destruct (_uc_put_msg_buffer s'); cbn [obind]; [|done..]. by rewrite Ee.
    + by rewrite Ee.
  - split; cbn; try done; rewrite ?zlen_insert; try lia.
    + apply Forall_insert; [|unfold byte_ok, COBS_FRAME_DELIMITER; lia].
      apply Forall_app in Hfb as [Hbb _]. by apply Hbs.
    + rewrite zlen_app. change (zlen [COBS_FRAME_DELIMITER]) with 1. lia.
Qed.

(** *** Processing a sealed message *)

(** The events an ACK or NACK in the header raises. *)
Definition note_ack (h : uc_msg_hdr_t) (s : uc_state) : uc_state :=
  if (has (hdr_flags h) UC_MSG_HDR_FLAGS_ACK || has (hdr_flags h) UC_MSG_HDR_FLAGS_NACK)
     && (send_seq_num s <=? hdr_ack_seq h)
  then set_event_bits (if has (hdr_flags h) UC_MSG_HDR_FLAGS_ACK then UC_EVENT_ACK
                       else UC_EVENT_NACK) s
  else s.

Lemma process_sealed cb h p s :
  sealed h p →
  uc_process_msg cb (UC_MSG_HDR_SIZE + zlen p) (with_msg (hdr_bytes h ++ p) s)
  = (let s1 := note_ack h (with_msg (hdr_bytes h ++ p) s) in
     if has (hdr_flags h) UC_MSG_HDR_FLAGS_ENCRYPTED && (0 <? payload_len h) then
       let! '(r, s) := process_decrypt h s1 in
       match r with
       | inl err => Done (err, s)
       | inr None => Done (UC_ERR_NONE, s)
       | inr (Some h) => process_payload cb h s
       end
     else process_payload cb h s1).
Proof.
  intros []. unfold uc_process_msg. rewrite (proj2 (Z.leb_le _ _)) by done. cbn [ASSERT obind].
  cbn [msg_buffer with_msg set_msg_buffer]. rewrite <- app_assoc, hdr_of_bytes by done. cbn [obind].
  rewrite sealed_len0, Z.eqb_refl. cbn [negb]. rewrite compute_crc_spec by done. cbn [obind].
  rewrite sealed_crc0, Z.eqb_refl. done.
Qed.

(** A message whose payload was changed within two neighbouring bytes is
    refused, and changes nothing. *)
Lemma process_corrupted cb h a x y b x' y' s :
  sealed h (a ++ x :: y :: b) → byte_ok x' → byte_ok y' → (x, y) ≠ (x', y') →
  let m := hdr_bytes h ++ a ++ x' :: y' :: b in
  uc_process_msg cb (zlen m) (with_msg m s) = Done (UC_ERR_CRC_MISMATCH, with_msg m s).
Proof.
  intros [] Hx Hy Hne m.
  assert (byte_ok x ∧ byte_ok y) as [Hx0 Hy0].
  { apply Forall_app in sealed_bytes0 as [_ Hb]. inversion Hb as [|? ? ? Hb']; subst.
    inversion Hb'; subst. done. }
  assert (zlen (a ++ x' :: y' :: b) = zlen (a ++ x :: y :: b)) as Hl
    by (rewrite !zlen_app, !zlen_cons; done).
  unfold uc_process_msg, m. rewrite zlen_app, zlen_hdr_bytes, Hl.
  rewrite (proj2 (Z.leb_le _ _)) by done. cbn [ASSERT obind].
  cbn [msg_buffer with_msg set_msg_buffer]. rewrite <- app_assoc, hdr_of_bytes by done. cbn [obind].
  rewrite sealed_len0, Z.eqb_refl. cbn [negb]. rewrite compute_crc_spec by (done || lia). cbn [obind].
  rewrite (proj2 (Z.eqb_neq _ _)); [done|]. rewrite sealed_crc0. unfold wire_crc.
  apply crc_burst; [|done..]. apply crc_data_reg. unfold reg_ok, UC_CRC_SEED. lia.
Qed.

(** *** Deliveries *)

Section Delivery.
Hypothesis (timer_reset : ∀ t : T, is_Some (xTimerReset t)).
Hypothesis (timer_start : ∀ (t : T) d, is_Some (xTimerChangePeriod t d)).

Record rx_ready (s : uc_state) : Prop := {
  ready_inv : uc_inv s;
  ready_lock : msg_mutex s = false;
  ready_timer : is_Some (tm_handle (ack_timer s));
  ready_index : rd_index s = 0;
}.

(** What routing a message depends on. *)
Definition route_side (s : uc_state) : mempool_t * Z * list uc_route_registration_t * list (Z * Z * list Z) :=
  (mempool s, recv_sem s, registrations s, inbox s).

Lemma arm_total s :
  is_Some (tm_handle (ack_timer s)) →
  ∃ t, arm_ack_timer s = Done (set_ack_timer t s) ∧ is_Some (tm_handle t).
Proof.
  intros [t Ht]. unfold arm_ack_timer, rtos_timer_expired, rtos_timer_restart, rtos_timer_start,
    timer_handle. rewrite Ht. cbn [obind].
  destruct (negb _).
  - destruct (timer_reset t) as [t' ->]. cbn. eauto.
  - destruct (timer_start t UC_ACK_TIMEOUT_MS) as [t' ->]. cbn. eauto.
Qed.

(** The acknowledgement of a new message, immediate or by timer. *)
Lemma ack_new_total h s :
  is_Some (tm_handle (ack_timer s)) →
  ∃ t ev, (if has (hdr_flags h) UC_MSG_HDR_FLAGS_IMMEDIATE then
             let! expired := rtos_timer_expired (ack_timer s) in
             let! s := if negb expired then
                         let! t := rtos_timer_stop (ack_timer s) in Done (set_ack_timer t s)
                       else Done s in
             Done (set_event_bits UC_EVENT_ACK_TIMER s)
           else arm_ack_timer s) = Done (set_ack_events ev (set_ack_timer t s))
          ∧ is_Some (tm_handle t).
Proof.
  intros Hs. destruct (has _ _).
  - destruct Hs as [t Ht]. unfold rtos_timer_expired, rtos_timer_stop, timer_handle. rewrite Ht.
    cbn [obind]. destruct (negb _); cbn [obind].
    + eexists _, _. split; [done|]. by eexists.
    + exists (ack_timer s). eexists. split; [|by exists t]. destruct s; done.
  - destruct (arm_total s Hs) as (t & -> & Ht). exists t, (ack_events s). by destruct s.
Qed.

(** A payload that was not seen before goes to the callback, with the buffer
    lock released. *)
Lemma process_payload_new cb h hd p rest proto s :
  uc_inv s → msg_mutex s = true → is_Some (tm_handle (ack_timer s)) → hdr_ok h →
  msg_buffer s = hd ++ p ++ rest → zlen hd = UC_MSG_HDR_SIZE → payload_len h = zlen p → 0 < zlen p →
  zlen p ≤ UC_COBS_RD_ENC_BUFFER_SIZE → pb_decode p = (true, proto) →
  (recv_seq_num s ≠ hdr_send_seq h ∨
   has (hdr_flags h) UC_MSG_HDR_FLAGS_FIRST_MSG = true ∧ hdr_send_seq h = 1) →
  ∃ s1, process_payload cb h s = (let! s2 := cb (proto_tag h) proto s1 in Done (UC_ERR_NONE, s2)) ∧
    uc_inv s1 ∧ msg_mutex s1 = false ∧ is_Some (tm_handle (ack_timer s1)) ∧
    recv_seq_num s1 = hdr_send_seq h ∧ route_side s1 = route_side s ∧ rd_index s1 = rd_index s ∧
    crypto s1 = crypto s.
Proof.
  intros Hi Hlock Ht Hh Hbuf Hhd Hlen Hpos Hfit Hpb Hnew. unfold process_payload.
  rewrite Hlen. rewrite (proj2 (Z.ltb_ge _ _)) by lia.
  set (s0 := if has _ _ && _ then set_recv_seq_num 0 s else s).
  assert (negb (recv_seq_num s0 =? hdr_send_seq h) = true) as Hneq.
  { unfold s0. destruct Hnew as [Hne|[-> E1]].
    - destruct (_ && _) eqn:E; [|by apply negb_true_iff, Z.eqb_neq].
      apply andb_true_iff in E as [_ ->%Z.eqb_eq]. done.
    - rewrite E1. done. }
  rewrite Hneq, (proj2 (Z.ltb_lt _ _)) by done. cbn [andb].
  set (s1 := set_recv_seq_num _ s0).
  assert (s1 = set_recv_seq_num (hdr_send_seq h) s) as -> by (unfold s1, s0; by destruct (_ && _)).
  destruct (ack_new_total h (set_recv_seq_num (hdr_send_seq h) s)) as (t & ev & -> & Htm); [done|].
  cbn [obind msg_buffer set_ack_events set_ack_timer set_recv_seq_num].
  rewrite Hbuf, (mread_eq _ hd p rest) by done. cbn [obind]. rewrite Hpb.
  pose proof (pb_decode_size p) as [Hz Hb]. rewrite Hpb in Hz, Hb. cbn [snd] in Hz, Hb.
  pose proof rd_size_bounds as [Hd _]. pose proof Hi as [].
  cbn [rd_enc_buffer set_ack_events set_ack_timer set_recv_seq_num].
  assert (mwrite (rd_enc_buffer s) 0 proto
          = Done (proto ++ zdrop dec_proto_size (rd_enc_buffer s))) as Hw.
  { rewrite (mwrite_eq _ [] (ztake dec_proto_size (rd_enc_buffer s)) proto
               (zdrop dec_proto_size (rd_enc_buffer s))); [done| |done|].
    - by rewrite <- (ztake_zdrop dec_proto_size (rd_enc_buffer s)) at 1.
    - rewrite zlen_ztake; lia. }
  rewrite Hw. cbn [obind]. unfold _uc_put_msg_buffer. cbn [msg_mutex set_rd_enc_buffer set_ack_events
    set_ack_timer set_recv_seq_num]. rewrite Hlock. cbn [ASSERT obind rd_enc_buffer set_rd_enc_buffer
    set_msg_mutex set_ack_events set_ack_timer set_recv_seq_num].
  rewrite (mread_eq _ [] proto (zdrop dec_proto_size (rd_enc_buffer s))) by done. cbn [obind].
  eexists. split; [done|]. split_and!; [|done..].
  pose proof (mwrite_bytes _ _ _ _ rd_buffer_bytes0 Hb Hw).
  split; cbn; try done; [|apply Hh].
  rewrite zlen_app, zlen_zdrop; lia.
Qed.

(** A payload with the number of the last one is acknowledged again and not
    delivered. *)
Lemma process_payload_dup cb h s :
  msg_mutex s = true → 0 < payload_len h ≤ UC_COBS_RD_ENC_BUFFER_SIZE →
  recv_seq_num s = hdr_send_seq h →
  (has (hdr_flags h) UC_MSG_HDR_FLAGS_FIRST_MSG && (hdr_send_seq h =? 1)) = false →
  process_payload cb h s
  = Done (UC_ERR_NONE, set_event_bits UC_EVENT_ACK_TIMER (set_msg_mutex false s)).
Proof.
  intros Hlock Hlen Hseq Hf. unfold process_payload. rewrite (proj2 (Z.ltb_ge _ _)) by lia.
  rewrite Hf, Hseq, Z.eqb_refl. cbn [negb andb]. unfold _uc_put_msg_buffer. rewrite Hlock.
  cbn [ASSERT obind]. by rewrite (proj2 (Z.ltb_lt _ _)) by lia.
Qed.

(** Encrypted payloads: ciphertext, nonce, tag, replay counter. *)
Definition packed (ct nonce mac : list Z) (seq : Z) : list Z := ct ++ nonce ++ mac ++ le_encode 4 seq.

(** What the receiver makes of the result of the decryption. *)
Definition opened (h' : uc_msg_hdr_t) (seq : Z) (s : uc_state)
    : outcome ((uc_err_t + option uc_msg_hdr_t) * uc_state) :=
  let '(fresh, k) := check_recv_seq (crypto s) seq in
  let s := set_crypto k s in
  if fresh : bool then Done (inr (Some h'), s)
  else
    let! s := _uc_put_msg_buffer s in
    if has (hdr_flags h') UC_MSG_HDR_FLAGS_IMMEDIATE
    then Done (inr None, set_event_bits UC_EVENT_ACK_TIMER s)
    else let! s := arm_ack_timer s in Done (inr None, s).

Lemma process_decrypt_spec h ct nonce mac seq pt rest s :
  zlen nonce = AES_GCM_IV_LENGTH → zlen mac = AES_GCM_TAG_LENGTH → 0 ≤ seq < 4294967296 →
  payload_len h = zlen (packed ct nonce mac seq) →
  msg_buffer s = hdr_bytes h ++ packed ct nonce mac seq ++ rest →
  gcm_decrypt (crypto s) ct (hdr_bytes (set_hdr_crc 0 h) ++ le_encode 4 seq) nonce mac
    = Done (Some pt) → zlen pt = zlen ct →
  let h' := set_payload_len (zlen pt) (set_hdr_crc 0 h) in
  ∃ rest', process_decrypt h s = opened h' seq (set_msg_buffer (hdr_bytes h' ++ pt ++ rest') s) ∧
    zlen (hdr_bytes h' ++ pt ++ rest') = zlen (msg_buffer s).
Proof.
  intros Hn Hm Hseq Hlen Hbuf Hdec Hpt h'. unfold process_decrypt, packed in *.
  unfold UC_ENCRYPTION_PADDING, AES_GCM_IV_LENGTH, AES_GCM_TAG_LENGTH, UC_DECRYPT_OFFSET in *.
  rewrite !zlen_app, Hn, Hm, zlen_le_encode in Hlen. pose proof (zlen_nonneg ct).
  rewrite Hlen. rewrite (proj2 (Z.ltb_ge _ _)) by lia.
  replace (zlen ct + (12 + (16 + Z.of_nat 4)) - (12 + 16 + 4)) with (zlen ct) by lia.
  rewrite (proj2 (Z.ltb_lt _ _)) by lia. cbn [ASSERT obind]. rewrite Hbuf.
  set (h0 := set_hdr_crc 0 h) in *. set (q := ct ++ nonce).
  set (tail := mac ++ le_encode 4 seq ++ rest).
  assert (∀ h, zlen (hdr_bytes h) = 14) as Hz by (intros; apply zlen_hdr_bytes).
  assert (zlen q = zlen ct + 12) as Hq by (unfold q; rewrite zlen_app; lia).
  rewrite (mwrite_eq _ [] (hdr_bytes h) (hdr_bytes h0) (q ++ tail))
    by (rewrite ?Hz; try done; unfold q, tail; by rewrite <- !app_assoc).
  cbn [obind app]. unfold UC_MSG_HDR_SIZE.
  assert (_uc_read_seq_num (hdr_bytes h0 ++ q ++ tail) (14 + zlen ct + 12 + 16) = Done seq) as ->.
  { replace (hdr_bytes h0 ++ q ++ tail) with ((hdr_bytes h0 ++ q ++ mac) ++ le_encode 4 seq ++ rest)
      by (unfold tail; by rewrite <- !app_assoc).
    rewrite <- (read_seq_num_spec seq (hdr_bytes h0 ++ q ++ mac) rest) by done. f_equal.
    rewrite !zlen_app, Hz, Hq. lia. }
  cbn [obind].
  assert (_uc_write_seq_num seq (hdr_bytes h0 ++ replicate 4 0) 14
          = Done (hdr_bytes h0 ++ le_encode 4 seq)) as ->.
  { rewrite <- (Hz h0), <- (app_nil_r (replicate 4 0)), write_seq_num_spec by done.
    by rewrite app_nil_r. }
  cbn [obind].
  rewrite (mread_eq _ (hdr_bytes h0 ++ ct) nonce tail)
    by (rewrite ?zlen_app, ?Hz; try done; unfold q; by rewrite <- !app_assoc).
  cbn [obind]. rewrite (mread_eq _ (hdr_bytes h0) ct (nonce ++ tail))
    by (rewrite ?Hz; try done; unfold q; by rewrite <- !app_assoc).
  cbn [obind].
  set (q8 := ztake 8 q). set (qm := ztake (zlen ct) (zdrop 8 q)). set (qe := zdrop (zlen ct) (zdrop 8 q)).
  assert (q = q8 ++ qm ++ qe) as Hqs by (unfold q8, qm, qe; by rewrite !ztake_zdrop).
  assert (zlen q8 = 8) as Hq8 by (unfold q8; rewrite zlen_ztake; lia).
  assert (zlen qm = zlen ct) as Hqm by (unfold qm; rewrite zlen_ztake; rewrite ?zlen_zdrop; lia).
  assert (zlen qe = 4) as Hqe by (unfold qe; rewrite !zlen_zdrop; rewrite ?zlen_zdrop; lia).
  rewrite (mwrite_eq _ (hdr_bytes h0 ++ q8) qm ct (qe ++ tail))
    by (rewrite ?zlen_app, ?Hz, ?Hq8; try done; rewrite Hqs; by rewrite <- !app_assoc).
  cbn [obind]. rewrite (mread_eq _ (hdr_bytes h0 ++ q8 ++ ct ++ qe) mac (le_encode 4 seq ++ rest))
    by (rewrite ?zlen_app, ?Hz, ?Hq8, ?Hqe; try lia; unfold tail; by rewrite <- !app_assoc).
  cbn [obind]. rewrite (mread_eq _ (hdr_bytes h0 ++ q8) ct (qe ++ tail))
    by (rewrite ?zlen_app, ?Hz, ?Hq8; done).
  cbn [obind]. rewrite Hdec. cbn [obind].
  set (body := q8 ++ ct ++ qe ++ tail).
  assert (zlen pt ≤ zlen body) as Hle.
  { unfold body. rewrite !zlen_app. pose proof (zlen_nonneg qe). pose proof (zlen_nonneg tail). lia. }
  rewrite (mwrite_eq _ (hdr_bytes h0) (ztake (zlen pt) body) pt (zdrop (zlen pt) body))
    by (rewrite ?Hz, ?ztake_zdrop, ?zlen_ztake; try done; try (pose proof (zlen_nonneg pt); lia);
        unfold body; by rewrite <- !app_assoc).
  cbn [obind]. rewrite <- Hpt. fold h'.
  rewrite (mwrite_eq _ [] (hdr_bytes h0) (hdr_bytes h') (pt ++ zdrop (zlen pt) body))
    by (rewrite ?Hz; done).
  cbn [obind app]. exists (zdrop (zlen pt) body). split.
  - unfold opened. cbn [crypto set_msg_buffer]. by destruct (check_recv_seq _ _).
  - rewrite !zlen_app, !Hz, zlen_zdrop by (pose proof (zlen_nonneg pt); lia).
    unfold body, tail. rewrite !zlen_app, Hq8, Hqe, Hn. lia.
Qed.

(** The payload [p] carries the encoded message [d] for a receiver whose crypto
    state is [k], and leaves it in [k']. *)
Definition carried (k : K) (h : uc_msg_hdr_t) (p d : list Z) (k' : K) : Prop :=
  if has (hdr_flags h) UC_MSG_HDR_FLAGS_ENCRYPTED then
    ∃ ct nonce mac seq, p = packed ct nonce mac seq ∧ zlen nonce = AES_GCM_IV_LENGTH ∧
      zlen mac = AES_GCM_TAG_LENGTH ∧ 0 ≤ seq < 4294967296 ∧ zlen d = zlen ct ∧
      gcm_decrypt k ct (hdr_bytes (set_hdr_crc 0 h) ++ le_encode 4 seq) nonce mac = Done (Some d) ∧
      check_recv_seq k seq = (true, k')
  else p = d ∧ k' = k.

(** The payload [p] decrypts to [d], and the replay check, whatever it answers,
    leaves the crypto state in [k']. *)
Definition opens (k : K) (h : uc_msg_hdr_t) (p d : list Z) (k' : K) : Prop :=
  if has (hdr_flags h) UC_MSG_HDR_FLAGS_ENCRYPTED then
    ∃ ct nonce mac seq fresh, p = packed ct nonce mac seq ∧ zlen nonce = AES_GCM_IV_LENGTH ∧
      zlen mac = AES_GCM_TAG_LENGTH ∧ 0 ≤ seq < 4294967296 ∧ zlen d = zlen ct ∧
      gcm_decrypt k ct (hdr_bytes (set_hdr_crc 0 h) ++ le_encode 4 seq) nonce mac = Done (Some d) ∧
      check_recv_seq k seq = (fresh, k')
  else p = d ∧ k' = k.

(** A receiver that has taken [p] already. *)
Definition replayed (k : K) (h : uc_msg_hdr_t) (p d : list Z) : Prop := opens k h p d k.

Lemma carried_opens k h p d k' : carried k h p d k' → opens k h p d k'.
Proof.
  unfold carried, opens. destruct (has _ _); [|done].
  intros (ct & nonce & mac & seq & ? & ? & ? & ? & ? & ? & ?). by exists ct, nonce, mac, seq, true.
Qed.

Lemma note_ack_fields h s :
  ∃ ev, note_ack h s = set_ack_events ev s.
Proof.
  unfold note_ack. destruct (_ && _); [by eexists|]. exists (ack_events s). by destruct s.
Qed.

Lemma with_msg_inv m s : uc_inv s → zlen m ≤ UC_MSG_BUFFER_SIZE → uc_inv (with_msg m s).
Proof.
  intros Hi Hm. inv_set. rewrite zlen_app, zlen_replicate. lia.
Qed.

Lemma packed_length ct nonce mac seq :
  zlen nonce = AES_GCM_IV_LENGTH → zlen mac = AES_GCM_TAG_LENGTH →
  zlen (packed ct nonce mac seq) = zlen ct + UC_ENCRYPTION_PADDING.
Proof.
  intros Hn Hm. unfold packed. rewrite !zlen_app, Hn, Hm, zlen_le_encode.
  unfold UC_ENCRYPTION_PADDING. lia.
Qed.

(** Processing a sealed message that carries a new [d]. *)
Lemma process_new cb h p d k' proto s :
  uc_inv s → is_Some (tm_handle (ack_timer s)) → sealed h p → carried (crypto s) h p d k' →
  0 < zlen d ≤ UC_COBS_RD_ENC_BUFFER_SIZE → pb_decode d = (true, proto) →
  (recv_seq_num s ≠ hdr_send_seq h ∨
   has (hdr_flags h) UC_MSG_HDR_FLAGS_FIRST_MSG = true ∧ hdr_send_seq h = 1) →
  ∃ s1, uc_process_msg cb (UC_MSG_HDR_SIZE + zlen p) (with_msg (hdr_bytes h ++ p) s)
        = (let! s2 := cb (proto_tag h) proto s1 in Done (UC_ERR_NONE, s2)) ∧
    uc_inv s1 ∧ msg_mutex s1 = false ∧ is_Some (tm_handle (ack_timer s1)) ∧
    recv_seq_num s1 = hdr_send_seq h ∧ route_side s1 = route_side s ∧ rd_index s1 = rd_index s ∧
    crypto s1 = k'.
Proof.
  intros Hi Ht Hse Hca Hd Hpb Hnew. rewrite process_sealed by done. cbn zeta.
  pose proof Hse as []. set (m := hdr_bytes h ++ p).
  assert (zlen m = UC_MSG_HDR_SIZE + zlen p) as Hm by (unfold m; by rewrite zlen_app, zlen_hdr_bytes).
  destruct (note_ack_fields h (with_msg m s)) as [ev ->].
  assert (uc_inv (set_ack_events ev (with_msg m s))) as Hi1
    by (pose proof (with_msg_inv m s Hi ltac:(lia)); inv_set).
  set (s0 := set_ack_events ev (with_msg m s)) in *. unfold carried in Hca.
  assert (msg_buffer s0 = hdr_bytes h ++ p ++ replicate (Z.to_nat (UC_MSG_BUFFER_SIZE - zlen m)) 0)
    as Hbuf by (unfold s0, with_msg, m; cbn [msg_buffer set_ack_events set_msg_buffer set_msg_mutex];
      by rewrite <- app_assoc).
  destruct (has (hdr_flags h) UC_MSG_HDR_FLAGS_ENCRYPTED) eqn:Ee.
  - destruct Hca as (ct & nonce & mac & seq & -> & Hn & Hma & Hseq & Hdl & Hdec & Hchk).
    pose proof (packed_length ct nonce mac seq Hn Hma) as Hpl.
    unfold UC_ENCRYPTION_PADDING, AES_GCM_IV_LENGTH, AES_GCM_TAG_LENGTH in Hpl.
    rewrite sealed_len0, (proj2 (Z.ltb_lt _ _)) by lia. cbn [andb].
    destruct (process_decrypt_spec h ct nonce mac seq d _ s0 Hn Hma Hseq sealed_len0 Hbuf Hdec Hdl)
      as (rest' & -> & Hl').
    unfold opened. cbn [crypto set_msg_buffer]. rewrite (Hchk : check_recv_seq (crypto s0) seq = _).
    cbn [obind]. set (h' := set_payload_len (zlen d) (set_hdr_crc 0 h)) in *.
    set (s2 := set_crypto k' _).
    assert (uc_inv s2) as Hi2.
    { pose proof (msg_buffer_len s0 Hi1) as Hml. rewrite <- Hl' in Hml. clear Hi. by inv_set. }
    destruct (process_payload_new cb h' (hdr_bytes h') d rest' proto s2)
      as (s1 & -> & H1 & H2 & H3 & H4 & H5 & H6 & H7); try done; try lia; [|].
    { pose proof (zlen_nonneg ct). destruct sealed_hdr0. split; cbn; try done; lia. }
    exists s1. done.
  - destruct Hca as [-> ->]. cbn [andb].
    destruct (process_payload_new cb h (hdr_bytes h) d _ proto s0 Hi1 eq_refl Ht sealed_hdr0 Hbuf)
      as (s1 & -> & H1 & H2 & H3 & H4 & H5 & H6 & H7); try done; try lia.
    exists s1. done.
Qed.

(** The end of a frame that was accepted: the read buffer is empty again. *)
Lemma after_frame_ready cb rest s :
  uc_inv s → msg_mutex s = false → is_Some (tm_handle (ack_timer s)) →
  ∃ buf, let s' := set_rd_index 0 (set_rd_enc_buffer buf s) in
    after_frame cb rest (UC_ERR_NONE, s) = decode_loop cb rest s' ∧ rx_ready s'.
Proof.
  intros Hi Hlock Ht. unfold after_frame. rewrite bool_decide_false by (by intros []). pose proof Hi as [].
  destruct (mwrite_done (rd_enc_buffer s) (replicate (Z.to_nat (rd_index s)) 0) 0)
    as (buf & Ew & Hl); [lia|rewrite zlen_replicate; lia|]. rewrite Ew. cbn [obind].
  exists buf. split; [done|]. split; [|done|done|done].
  assert (bytes_ok buf) by (eapply mwrite_bytes; [exact rd_buffer_bytes0| |exact Ew];
    apply Forall_replicate; unfold byte_ok; lia).
  split; cbn; try done; lia.
Qed.

(** A message for which a queue is registered goes there, in memory of its own. *)
Lemma on_proto_routes tag proto cb a pool s :
  route_find (registrations s) tag = Some cb → 0 < recv_sem s →
  mempool_alloc (mempool s) (zlen proto) = Done (a, pool) →
  _uc_on_proto tag proto s
  = Done (set_inbox (inbox s ++ [(cb, a, proto)]) (set_mempool pool (set_recv_sem (recv_sem s - 1) s))).
Proof.
  intros Hr Hs Ha. unfold _uc_on_proto, sem_take. rewrite (proj2 (Z.ltb_lt _ _)) by done.
  cbn [ASSERT obind]. rewrite Ha. cbn [obind]. unfold uc_route.
  cbn [registrations set_mempool set_recv_sem]. by rewrite Hr.
Qed.

(** A frame with a new message reaches the task that registered for it. *)
Lemma receive_new cap parts f h p d k' proto cb a pool rest s :
  rx_ready s → cobs_encode cap parts = inr f → concat parts = hdr_bytes h ++ p → sealed h p →
  zlen f ≤ UC_COBS_RD_ENC_BUFFER_SIZE → carried (crypto s) h p d k' →
  0 < zlen d ≤ UC_COBS_RD_ENC_BUFFER_SIZE → pb_decode d = (true, proto) →
  (recv_seq_num s ≠ hdr_send_seq h ∨
   has (hdr_flags h) UC_MSG_HDR_FLAGS_FIRST_MSG = true ∧ hdr_send_seq h = 1) →
  route_find (registrations s) (proto_tag h) = Some cb → 0 < recv_sem s →
  mempool_alloc (mempool s) dec_proto_size = Done (a, pool) →
  ∃ s', decode_loop _uc_on_proto (f ++ rest) s = decode_loop _uc_on_proto rest s' ∧ rx_ready s' ∧
    inbox s' = inbox s ++ [(cb, a, proto)] ∧ recv_seq_num s' = hdr_send_seq h ∧ crypto s' = k'.
Proof.
  intros [Hi Hlock Ht H0] Ef Em Hse Hf Hca Hd Hpb Hnew Hroute Hsem Halloc. pose proof Hse as [].
  assert (zlen (hdr_bytes h ++ p) = UC_MSG_HDR_SIZE + zlen p) as Hm
    by (by rewrite zlen_app, zlen_hdr_bytes).
  destruct (decode_frame _uc_on_proto cap parts f _ rest s Ef Em) as (buf & -> & Hi1);
    [lia|by apply bytes_ok_app; [apply hdr_bytes_ok|]|done|done|done|done|].
  set (s0 := set_rd_index _ _) in *. rewrite Hm.
  destruct (process_new _uc_on_proto h p d k' proto s0)
    as (s1 & -> & Hi2 & Hlock2 & Ht2 & Hseq2 & Hrs & Hidx & Hk); try done.
  injection Hrs as Hpool Hsm Hreg Hin. pose proof (pb_decode_size d) as [Hz _].
  rewrite Hpb in Hz. cbn [snd] in Hz.
  rewrite (on_proto_routes (proto_tag h) proto cb a pool s1) by (rewrite ?Hreg, ?Hsm, ?Hpool, ?Hz; done).
  cbn [obind].
  destruct (mempool_alloc_spec _ _ _ _ (pool_inv s Hi) Halloc) as (Hpok & _).
  set (s2 := set_inbox _ _). assert (uc_inv s2) as Hi3 by (clear Hi Hi1; inv_set).
  destruct (after_frame_ready _uc_on_proto rest s2 Hi3 Hlock2 Ht2) as (buf' & -> & Hr).
  eexists. split; [done|]. split_and!; [done|cbn; by rewrite Hin|done|done].
Qed.

(** A message with the number of the last one, from a receiver that is ready:
    it is accepted and leaves what the tasks see alone. *)
Definition kept (s : uc_state) (k' : K) (s1 : uc_state) : Prop :=
  uc_inv s1 ∧ msg_mutex s1 = false ∧ is_Some (tm_handle (ack_timer s1)) ∧
  recv_seq_num s1 = recv_seq_num s ∧ route_side s1 = route_side s ∧ rd_index s1 = rd_index s ∧
  crypto s1 = k'.

Lemma payload_dup_kept cb h s :
  uc_inv s → msg_mutex s = true → is_Some (tm_handle (ack_timer s)) →
  0 < payload_len h ≤ UC_COBS_RD_ENC_BUFFER_SIZE → recv_seq_num s = hdr_send_seq h →
  (has (hdr_flags h) UC_MSG_HDR_FLAGS_FIRST_MSG && (hdr_send_seq h =? 1)) = false →
  ∃ s1, process_payload cb h s = Done (UC_ERR_NONE, s1) ∧ kept s (crypto s) s1.
Proof.
  intros Hi Hlock Ht Hl Hq Hf. rewrite process_payload_dup by done. eexists. split; [done|].
  split_and!; try done. inv_set.
Qed.

Lemma process_dup cb h p d k' s :
  uc_inv s → is_Some (tm_handle (ack_timer s)) → sealed h p → opens (crypto s) h p d k' →
  0 < zlen d ≤ UC_COBS_RD_ENC_BUFFER_SIZE → recv_seq_num s = hdr_send_seq h →
  (has (hdr_flags h) UC_MSG_HDR_FLAGS_FIRST_MSG && (hdr_send_seq h =? 1)) = false →
  ∃ s1, uc_process_msg cb (UC_MSG_HDR_SIZE + zlen p) (with_msg (hdr_bytes h ++ p) s)
        = Done (UC_ERR_NONE, s1) ∧ kept s k' s1.
Proof.
  intros Hi Ht Hse Hre Hd Hq Hf. rewrite process_sealed by done. cbn zeta.
  pose proof Hse as []. set (m := hdr_bytes h ++ p).
  assert (zlen m = UC_MSG_HDR_SIZE + zlen p) as Hm by (unfold m; by rewrite zlen_app, zlen_hdr_bytes).
  destruct (note_ack_fields h (with_msg m s)) as [ev ->].
  assert (uc_inv (set_ack_events ev (with_msg m s))) as Hi1
    by (pose proof (with_msg_inv m s Hi ltac:(lia)); inv_set).
  set (s0 := set_ack_events ev (with_msg m s)) in *. unfold opens in Hre.
  assert (msg_buffer s0 = hdr_bytes h ++ p ++ replicate (Z.to_nat (UC_MSG_BUFFER_SIZE - zlen m)) 0)
    as Hbuf by (unfold s0, with_msg, m; cbn [msg_buffer set_ack_events set_msg_buffer set_msg_mutex];
      by rewrite <- app_assoc).
  destruct (has (hdr_flags h) UC_MSG_HDR_FLAGS_ENCRYPTED) eqn:Ee.
  2: { cbn [andb]. destruct Hre as [-> ->]. apply (payload_dup_kept cb h s0); try done; lia. }
  destruct Hre as (ct & nonce & mac & seq & fresh & -> & Hn & Hma & Hseq & Hdl & Hdec & Hchk).
  pose proof (packed_length ct nonce mac seq Hn Hma) as Hpl.
  unfold UC_ENCRYPTION_PADDING, AES_GCM_IV_LENGTH, AES_GCM_TAG_LENGTH in Hpl.
  rewrite sealed_len0, (proj2 (Z.ltb_lt _ _)) by lia. cbn [andb].
  destruct (process_decrypt_spec h ct nonce mac seq d _ s0 Hn Hma Hseq sealed_len0 Hbuf Hdec Hdl)
    as (rest' & -> & Hl').
  unfold opened. cbn [crypto set_msg_buffer]. rewrite (Hchk : check_recv_seq (crypto s0) seq = _).
  set (h' := set_payload_len (zlen d) (set_hdr_crc 0 h)) in *. set (s2 := set_crypto _ _).
  assert (uc_inv s2) as Hi2.
  { pose proof (msg_buffer_len s0 Hi1) as Hml. rewrite <- Hl' in Hml. clear Hi. by inv_set. }
  destruct fresh; cbn [obind].
  { apply (payload_dup_kept cb h' s2); done. }
  rewrite (eq_refl : _uc_put_msg_buffer s2 = Done (set_msg_mutex false s2)). cbn [obind].
  destruct (has _ UC_MSG_HDR_FLAGS_IMMEDIATE); cbn [obind].
  - eexists. split; [done|]. split_and!; try done. clear Hi Hi1. inv_set.
  - destruct (arm_total (set_msg_mutex false s2)) as (t & -> & Htm); [done|].
    cbn [obind]. eexists. split; [done|]. split_and!; try done. clear Hi Hi1. inv_set.
Qed.

(** A frame with the number of the last one is not delivered. *)
Lemma receive_dup cap parts f h p d k' rest s :
  rx_ready s → cobs_encode cap parts = inr f → concat parts = hdr_bytes h ++ p → sealed h p →
  zlen f ≤ UC_COBS_RD_ENC_BUFFER_SIZE → opens (crypto s) h p d k' →
  0 < zlen d ≤ UC_COBS_RD_ENC_BUFFER_SIZE → recv_seq_num s = hdr_send_seq h →
  (has (hdr_flags h) UC_MSG_HDR_FLAGS_FIRST_MSG && (hdr_send_seq h =? 1)) = false →
  ∃ s', decode_loop _uc_on_proto (f ++ rest) s = decode_loop _uc_on_proto rest s' ∧ rx_ready s' ∧
    route_side s' = route_side s ∧ recv_seq_num s' = hdr_send_seq h ∧ crypto s' = k'.
Proof.
  intros [Hi Hlock Ht H0] Ef Em Hse Hf Hre Hd Hq Hfirst. pose proof Hse as [].
  assert (zlen (hdr_bytes h ++ p) = UC_MSG_HDR_SIZE + zlen p) as Hm
    by (by rewrite zlen_app, zlen_hdr_bytes).
  destruct (decode_frame _uc_on_proto cap parts f _ rest s Ef Em) as (buf & -> & Hi1);
    [lia|by apply bytes_ok_app; [apply hdr_bytes_ok|]|done|done|done|done|].
  set (s0 := set_rd_index _ _) in *. rewrite Hm.
  destruct (process_dup _uc_on_proto h p d k' s0) as (s1 & -> & Hi2 & Hlock2 & Ht2 & Hq2 & Hrs & _ & Hk);
    try done. cbn [obind].
  destruct (after_frame_ready _uc_on_proto rest s1 Hi2 Hlock2 Ht2) as (buf' & -> & Hr).
  eexists. split; [done|]. split_and!; [done|done| |done]. cbn. by rewrite Hq2.
Qed.

(** However often the frame is repeated. *)
Lemma receive_dups m cap parts f h p d rest s :
  rx_ready s → cobs_encode cap parts = inr f → concat parts = hdr_bytes h ++ p → sealed h p →
  zlen f ≤ UC_COBS_RD_ENC_BUFFER_SIZE → replayed (crypto s) h p d →
  0 < zlen d ≤ UC_COBS_RD_ENC_BUFFER_SIZE → recv_seq_num s = hdr_send_seq h →
  (has (hdr_flags h) UC_MSG_HDR_FLAGS_FIRST_MSG && (hdr_send_seq h =? 1)) = false →
  ∃ s', decode_loop _uc_on_proto (concat (replicate m f) ++ rest) s = decode_loop _uc_on_proto rest s' ∧
    rx_ready s' ∧ route_side s' = route_side s ∧ recv_seq_num s' = hdr_send_seq h.
Proof.
  intros Hs Ef Em Hse Hf Hre Hd Hq Hfirst. revert s Hs Hre Hq.
  induction m as [|m IH]; intros s Hs Hre Hq; simpl; [by exists s|]. rewrite <- app_assoc.
  destruct (receive_dup cap parts f h p d (crypto s) (concat (replicate m f) ++ rest) s)
    as (s1 & -> & Hr1 & Hro & Hq1 & Hk1); try done.
  destruct (IH s1 Hr1) as (s2 & -> & Hr2 & Hro2 & Hq2); [by rewrite Hk1|done|].
  exists s2. split_and!; [done|done|congruence|done].
Qed.

(** A frame read to its end leaves the loop over the received data. *)
Lemma handle_data_done data s s' :
  data ≠ [] → decode_loop _uc_on_proto data s = decode_loop _uc_on_proto [] s' →
  uc_handle_data data s = Done s'.
Proof.
  intros Hne E. unfold uc_handle_data. destruct data as [|b data]; [done|].
  cbn [length handle_data_loop uc_decode]. rewrite E. cbn [obind decode_loop].
  by destruct (length data).
Qed.

(** The acknowledgement of the last message wakes the sender up. *)
Lemma has_set e bits : bits ≠ 0 → has (Z.lor e bits) bits = true.
Proof.
  intros Hb. unfold has. apply negb_true_iff, Z.eqb_neq. rewrite Z.land_lor_distr_l, Z.land_diag.
  by intros [_ ?]%Z.lor_eq_0_iff.
Qed.

Lemma receive_ack cap f h s :
  rx_ready s → cobs_encode cap [hdr_bytes h] = inr f → sealed h [] →
  zlen f ≤ UC_COBS_RD_ENC_BUFFER_SIZE → hdr_flags h = UC_MSG_HDR_FLAGS_ACK →
  send_seq_num s ≤ hdr_ack_seq h →
  ∃ s', uc_handle_data f s = Done s' ∧ rx_ready s' ∧ has (ack_events s') UC_EVENT_ACK = true ∧
    tx_side s' = tx_side s ∧ route_side s' = route_side s.
Proof.
  intros [Hi Hlock Ht H0] Ef Hse Hf Hfl Hack. pose proof Hse as [].
  assert (zlen (hdr_bytes h) = UC_MSG_HDR_SIZE) as Hm by apply zlen_hdr_bytes.
  assert (f ≠ []) as Hne by (destruct (cobs_frame _ _ _ Ef) as (body & -> & _); by destruct body).
  destruct (decode_frame _uc_on_proto cap [hdr_bytes h] f (hdr_bytes h) [] s Ef) as (buf & E & Hi1);
    [by rewrite <- (app_nil_r (hdr_bytes h)) at 2|unfold UC_MSG_HDR_SIZE, UC_MSG_BUFFER_SIZE in *; lia
    |by apply hdr_bytes_ok|done|done|done|done|].
  rewrite app_nil_r in E. set (s0 := set_rd_index _ _) in *.
  pose proof (process_sealed _uc_on_proto h [] s0 Hse) as Ep.
  rewrite zlen_nil, Z.add_0_r, app_nil_r, <- Hm in Ep. rewrite Ep in E. clear Ep.
  unfold note_ack in E. cbn [send_seq_num with_msg set_msg_buffer set_msg_mutex s0 set_rd_index
    set_rd_enc_buffer] in E. rewrite Hfl, (proj2 (Z.leb_le _ _)) in E by done.
  change (has UC_MSG_HDR_FLAGS_ACK UC_MSG_HDR_FLAGS_ACK) with true in E.
  change (has UC_MSG_HDR_FLAGS_ACK UC_MSG_HDR_FLAGS_ENCRYPTED) with false in E.
  cbn [orb andb] in E. unfold process_payload in E. rewrite Hfl, sealed_len0, zlen_nil in E.
  change (has UC_MSG_HDR_FLAGS_ACK UC_MSG_HDR_FLAGS_FIRST_MSG) with false in E.
  pose proof rd_size_bounds. rewrite (proj2 (Z.ltb_ge _ 0)) in E by lia.
  change (0 <? 0) with false in E. rewrite andb_false_r in E. cbn [andb] in E.
  set (s1 := set_event_bits _ _) in E.
  assert (uc_inv (set_msg_mutex false s1)) as Hi2.
  { pose proof (with_msg_inv (hdr_bytes h) s0 Hi1) as Hi2. clear Hi Hi1.
    rewrite Hm in Hi2. specialize (Hi2 ltac:(unfold UC_MSG_HDR_SIZE, UC_MSG_BUFFER_SIZE; lia)).
    destruct Hi2. by split. }
  rewrite (eq_refl : _uc_put_msg_buffer s1 = Done (set_msg_mutex false s1)) in E. cbn [obind] in E.
  destruct (after_frame_ready _uc_on_proto [] (set_msg_mutex false s1) Hi2 eq_refl Ht)
    as (buf' & E' & Hr). rewrite E' in E.
  eexists. split; [by apply handle_data_done|]. split_and!; [done| |done|done].
  by apply has_set.
Qed.
End Delivery.
End Link.
