(* ===== verification/UcSend.v ===== *)
(** * Sending over the link, and both ends together

    On the models of [Uc]: what [uc_encode] puts on the line, in which state it
    leaves the sender, and what the other processor makes of it. The two ends
    are builds with different protobuf configurations ([P] and [Q]) and share
    the framing; the sender's crypto state and the receiver's are related by
    [CryptoPair], which the secure channel discharges. *)

From S2P Require Import Prelude Mempool Timer UcCrc Uc UcLink.

(** What a pair of crypto callbacks promises the link: a message sealed with
    the next number of the one opens at the other, which takes its number once
    and, after that, does not change when it sees the message again. *)
Class CryptoPair (K : Type) `{CryptoApi K} := {
  paired : K → K → Prop;
  paired_opens a b seq a1 pt aad nonce0 mac0 ct nonce mac a2 :
    paired a b → get_send_seq a = Done (seq, a1) →
    gcm_encrypt a1 pt aad nonce0 mac0 = Done (Some (ct, nonce, mac), a2) →
    gcm_decrypt b ct aad nonce mac = Done (Some pt) ∧
    ∃ b', check_recv_seq b seq = (true, b') ∧ gcm_decrypt b' ct aad nonce mac = Done (Some pt) ∧
      ∃ fresh, check_recv_seq b' seq = (fresh, b');
}.

#[export] Program Instance no_op_pair : CryptoPair unit := {| paired _ _ := True |}.
Next Obligation.
  intros [] [] ? [] pt aad n0 m0 ct nonce mac [] _ _ [= <- _ _]. split; [done|]. by exists tt; eauto.
Qed.

(** The state invariant after an update of some fields. *)
Ltac inv_set := match goal with H : uc_inv _ |- _ => destruct H; split; cbn; try done end.

Section Send.
Context {T K C : Type} `{!SwTimer T, !CryptoApi K, !Serial C} `{Cb : Cobs} `{P : UcProto}.
Context `{!CryptoLaws K, !SerialLaws C, !CobsLaws Cb, !UcProtoLaws P}.
Abbreviation uc_state := (uc_state_priv_t T K C).
Implicit Types (s : uc_state) (h : uc_msg_hdr_t).

(** ** The payload *)

(** The payload [p] of the header [h] was made of the encoded message [d] with
    the crypto state [k]. *)
Definition made (k : K) (h : uc_msg_hdr_t) (p d : list Z) : Prop :=
  if has (hdr_flags h) UC_MSG_HDR_FLAGS_ENCRYPTED then
    ∃ seq k1 nonce0 mac0 ct nonce mac k2, get_send_seq k = Done (seq, k1) ∧
      gcm_encrypt k1 d (hdr_bytes (set_hdr_crc 0 h) ++ le_encode 4 seq) nonce0 mac0
        = Done (Some (ct, nonce, mac), k2) ∧
      p = packed ct nonce mac seq ∧ zlen ct = zlen d ∧ zlen nonce = AES_GCM_IV_LENGTH ∧
      zlen mac = AES_GCM_TAG_LENGTH ∧ 0 ≤ seq < 4294967296
  else p = d.

Lemma made_carried `{!CryptoPair K} k b h p d :
  paired k b → made k h p d → ∃ b', carried b h p d b' ∧ replayed b' h p d.
Proof.
  intros Hk. unfold made, carried, replayed, opens. destruct (has _ _); [|intros ->; by exists b].
  intros (seq & k1 & n0 & m0 & ct & nonce & mac & k2 & E1 & E2 & -> & Hc & Hn & Hm & Hs).
  destruct (paired_opens _ _ _ _ _ _ _ _ _ _ _ _ Hk E1 E2) as (Hd & b' & Hchk & Hd' & fresh & Hre).
  exists b'. split; [exists ct, nonce, mac, seq|exists ct, nonce, mac, seq, fresh]; done.
Qed.

Lemma made_length k h p d :
  made k h p d →
  zlen p = zlen d + (if has (hdr_flags h) UC_MSG_HDR_FLAGS_ENCRYPTED then UC_ENCRYPTION_PADDING else 0).
Proof.
  unfold made. destruct (has _ _); [|intros ->; lia].
  intros (seq & k1 & n0 & m0 & ct & nonce & mac & k2 & _ & _ & -> & Hc & Hn & Hm & _).
  rewrite packed_length by done. lia.
Qed.

Lemma made_pos k h p d : made k h p d → 0 < zlen d → 0 < zlen p.
Proof.
  intros ->%made_length Hd. destruct (has _ _); [|lia].
  unfold UC_ENCRYPTION_PADDING, AES_GCM_IV_LENGTH, AES_GCM_TAG_LENGTH. lia.
Qed.

Lemma zlen_split3 (q : list Z) a b c :
  0 ≤ a → 0 ≤ b → 0 ≤ c → a + b + c ≤ zlen q →
  ∃ q1 q2 q3 q4, q = q1 ++ q2 ++ q3 ++ q4 ∧ zlen q1 = a ∧ zlen q2 = b ∧ zlen q3 = c.
Proof.
  intros. exists (ztake a q), (ztake b (zdrop a q)), (ztake c (zdrop b (zdrop a q))),
    (zdrop c (zdrop b (zdrop a q))). rewrite !ztake_zdrop.
  split_and!; [done|rewrite zlen_ztake; lia|..]; rewrite zlen_ztake; rewrite ?zlen_zdrop; try lia;
    rewrite zlen_zdrop; lia.
Qed.

(** Encryption in place: the plaintext behind the header becomes the packed
    payload. *)
Lemma encode_encrypt_spec h hd d q s :
  msg_buffer s = hd ++ d ++ q → zlen hd = UC_MSG_HDR_SIZE → UC_ENCRYPTION_PADDING ≤ zlen q →
  has (hdr_flags h) UC_MSG_HDR_FLAGS_ENCRYPTED = true → hdr_crc h = 0 → bytes_ok (d ++ q) →
  safe (λ r, ∃ msg k, r.2 = set_msg_buffer msg (set_crypto k s) ∧ zlen msg = zlen (msg_buffer s) ∧
             (r.1 = true → ∃ p q', msg = hd ++ p ++ q' ∧ made (crypto s) h p d ∧ bytes_ok p))
    (encode_encrypt h (zlen d) s).
Proof.
  intros Hbuf Hhd Hq Henc Hcrc Hby. unfold encode_encrypt.
  unfold UC_ENCRYPTION_PADDING, AES_GCM_IV_LENGTH, AES_GCM_TAG_LENGTH, UC_MSG_HDR_SIZE in *.
  pose proof (get_send_seq_safe (crypto s)) as Hseq.
  destruct (get_send_seq (crypto s)) as [[seq k1]| | |] eqn:Eseq; try done. cbn [obind].
  cbn [safe fst] in Hseq. cbn [msg_buffer set_crypto crypto]. rewrite Hbuf.
  destruct (zlen_split3 q 12 16 4) as (q1 & q2 & q3 & q4 & -> & Hq1 & Hq2 & Hq3); [lia..|].
  assert (_uc_write_seq_num seq (hd ++ d ++ q1 ++ q2 ++ q3 ++ q4) (14 + zlen d + 12 + 16)
          = Done (hd ++ d ++ q1 ++ q2 ++ le_encode 4 seq ++ q4)) as ->.
  { replace (hd ++ d ++ q1 ++ q2 ++ q3 ++ q4) with ((hd ++ d ++ q1 ++ q2) ++ q3 ++ q4)
      by (by rewrite <- !app_assoc).
    replace (14 + zlen d + 12 + 16) with (zlen (hd ++ d ++ q1 ++ q2)) by (rewrite !zlen_app; lia).
    rewrite write_seq_num_spec by done. by rewrite <- !app_assoc. }
  cbn [obind].
  assert (_uc_write_seq_num seq (hdr_bytes h ++ replicate 4 0) 14
          = Done (hdr_bytes h ++ le_encode 4 seq)) as ->.
  { rewrite <- (app_nil_r (replicate 4 0)).
    rewrite <- (zlen_hdr_bytes h : _ = 14), write_seq_num_spec by done.
    by rewrite app_nil_r. }
  cbn [obind]. set (tail := le_encode 4 seq ++ q4).
  rewrite (mread_eq _ hd d (q1 ++ q2 ++ tail)) by done. cbn [obind].
  rewrite (mread_eq _ (hd ++ d) q1 (q2 ++ tail)) by (rewrite ?zlen_app; try lia; by rewrite <- app_assoc).
  cbn [obind]. rewrite (mread_eq _ (hd ++ d ++ q1) q2 tail)
    by (rewrite ?zlen_app; try lia; by rewrite <- !app_assoc).
  cbn [obind].
  pose proof (gcm_encrypt_safe k1 d (hdr_bytes h ++ le_encode 4 seq) q1 q2 Hq1 Hq2) as He.
  destruct (gcm_encrypt _ _ _ _ _) as [[[[[ct nonce] mac]|] k2]| | |] eqn:Ee; try done; cbn [obind].
  2: { eexists _, _. split; [done|]. split; [|done]. unfold tail.
       rewrite !zlen_app, zlen_le_encode. lia. }
  destruct (He _ _ _ eq_refl) as (Hct & Hno & Hma & Hb). clear He.
  unfold AES_GCM_IV_LENGTH, AES_GCM_TAG_LENGTH in Hno, Hma.
  assert (bytes_ok (d ++ q1 ++ q2)) as Hin.
  { unfold bytes_ok in *. rewrite !Forall_app in Hby. rewrite !Forall_app. tauto. }
  specialize (Hb Hin).
  rewrite (mwrite_eq _ hd d ct (q1 ++ q2 ++ tail)) by done. cbn [obind].
  rewrite (mwrite_eq _ (hd ++ ct) q1 nonce (q2 ++ tail))
    by (rewrite ?zlen_app; try lia; by rewrite <- app_assoc).
  cbn [obind]. rewrite (mwrite_eq _ (hd ++ ct ++ nonce) q2 mac tail)
    by (rewrite ?zlen_app; try lia; by rewrite <- !app_assoc).
  cbn [obind safe fst snd]. eexists _, _. split; [done|]. split.
  { unfold tail. rewrite !zlen_app, zlen_le_encode. lia. }
  intros _. exists (packed ct nonce mac seq), q4. split_and!.
  - unfold packed, tail. by rewrite <- !app_assoc.
  - unfold made. rewrite Henc.
    replace (set_hdr_crc 0 h) with h by (destruct h; cbn in *; by rewrite Hcrc).
    exists seq, k1, q1, q2, ct, nonce, mac, k2.
    unfold AES_GCM_IV_LENGTH, AES_GCM_TAG_LENGTH. split_and!; try done; lia.
  - unfold packed. rewrite !app_assoc. apply bytes_ok_app; [by rewrite <- app_assoc|].
    apply le_encode_bytes.
Qed.

Lemma wr_size_bounds : 0 < UC_COBS_WR_ENC_BUFFER_SIZE.
Proof.
  pose proof wr_size_range. unfold UC_COBS_WR_ENC_BUFFER_SIZE, UC_COBS_OVERHEAD, UC_MSG_SIZE,
    UC_MSG_OVERHEAD, UC_MSG_HDR_SIZE, UC_ENCRYPTION_PADDING, AES_GCM_IV_LENGTH, AES_GCM_TAG_LENGTH.
  pose proof (Z.div_pos (14 + (12 + 16 + 4) + UC_CFG_WR_BUFFER_SIZE) (0xFF - 1)). lia.
Qed.

(** From the zeroed message buffer to the payload, plain or encrypted. *)
Lemma encode_payload_spec proto n h s :
  0 < n → zlen (msg_buffer s) = UC_MSG_BUFFER_SIZE → bytes_ok (msg_buffer s) → hdr_ok h → hdr_crc h = 0 →
  safe (λ r, ∃ msg k, r.2 = set_msg_buffer msg (set_crypto k s) ∧ zlen msg = UC_MSG_BUFFER_SIZE ∧
    match r.1 with
    | inl err => err = UC_ERR_PROTO_ENCODE_FAILED ∨ err = UC_ERR_ENCRYPT_FAILED
    | inr h' => ∃ d hd p q, pb_encode proto (UC_MSG_BUFFER_SIZE - UC_MSG_HDR_SIZE) = Some d ∧
        0 < zlen d ∧ msg = hd ++ p ++ q ∧ zlen hd = UC_MSG_HDR_SIZE ∧ made (crypto s) h' p d ∧
        bytes_ok p ∧ h' = set_payload_len (zlen p) h ∧ UC_MSG_HDR_SIZE + zlen p ≤ UC_MSG_BUFFER_SIZE
    end)
    (encode_payload proto n h s).
Proof.
  intros Hn Hl Hby Hh Hcrc. unfold encode_payload. rewrite (proj2 (Z.ltb_lt _ _)) by done.
  assert (s = set_msg_buffer (msg_buffer s) (set_crypto (crypto s) s)) as Hs by (by destruct s).
  destruct (pb_encode _ _) as [d|] eqn:Ed; [|exists (msg_buffer s), (crypto s); split_and!; [exact Hs|done|by left]].
  destruct (pb_encode_size _ _ _ Ed) as [Hdl Hdb]. pose proof wr_size_range as [_ Hwr].
  destruct d as [|d0 d1]; [exists (msg_buffer s), (crypto s); split_and!; [exact Hs|done|by left]|]. set (d := d0 :: d1) in *.
  assert (0 < zlen d) as Hpos by (unfold d; rewrite zlen_cons; pose proof (zlen_nonneg d1); lia).
  clearbody d. unfold UC_MSG_BUFFER_SIZE, UC_MSG_HDR_SIZE in *.
  destruct (zlen_split3 (msg_buffer s) 14 (zlen d) 0) as (hd & q1 & q2 & q3 & Eb & Hh1 & Hq1 & Hq2);
    [lia..|].
  rewrite (mwrite_eq _ hd q1 d (q2 ++ q3)) by done. cbn [obind].
  assert (zlen (hd ++ d ++ q2 ++ q3) = 1024) as Hl'.
  { rewrite Eb in Hl. rewrite !zlen_app in *. lia. }
  destruct (has _ _) eqn:Ee.
  2: { rewrite u16_small by lia. cbn [safe fst snd].
       exists (hd ++ d ++ q2 ++ q3), (crypto s). split_and!; [by destruct s|done|].
       exists d, hd, d, (q2 ++ q3). split_and!; try done; [|lia].
       unfold made. cbn [hdr_flags set_payload_len]. by rewrite Ee. }
  unfold UC_ENCRYPTION_PADDING, AES_GCM_IV_LENGTH, AES_GCM_TAG_LENGTH.
  rewrite u16_small by lia. set (h' := set_payload_len _ h).
  eapply safe_bind.
  { apply (encode_encrypt_spec h' hd d (q2 ++ q3)); try done.
    unfold UC_ENCRYPTION_PADDING, AES_GCM_IV_LENGTH, AES_GCM_TAG_LENGTH.
    - rewrite !zlen_app in Hl'. rewrite zlen_app. lia.
    - apply bytes_ok_app; [done|]. rewrite Eb in Hby. unfold bytes_ok in *. rewrite !Forall_app in Hby.
      rewrite Forall_app. tauto. }
  intros [ok s'] (msg & k & Es & Hm & Hok). cbn [snd] in Es. subst s'. cbn [safe fst snd crypto msg_buffer set_msg_buffer] in *.
  exists msg, k. split_and!; [done|lia|]. destruct ok; [|by right].
  destruct (Hok eq_refl) as (p & q' & -> & Hmade & Hpb).
  pose proof (made_length _ _ _ _ Hmade) as Hlen. change (hdr_flags h') with (hdr_flags h) in Hlen.
  rewrite Ee in Hlen. unfold UC_ENCRYPTION_PADDING, AES_GCM_IV_LENGTH, AES_GCM_TAG_LENGTH in Hlen.
  exists d, hd, p, q'. split_and!; try done; [|lia]. unfold h'. by rewrite Hlen.
Qed.

(** The frame of a payload in the message buffer is a sealed message. *)
Lemma encode_frame_spec h hd p q s :
  msg_buffer s = hd ++ p ++ q → zlen hd = UC_MSG_HDR_SIZE → hdr_ok h → payload_len h = zlen p →
  0 < zlen p → bytes_ok p → UC_MSG_HDR_SIZE + zlen p ≤ UC_MSG_BUFFER_SIZE →
  ∃ parts, encode_frame h s = Done (cobs_encode UC_COBS_WR_ENC_BUFFER_SIZE parts) ∧
    concat parts = hdr_bytes (set_hdr_crc (wire_crc h p) h) ++ p ∧
    sealed (set_hdr_crc (wire_crc h p) h) p.
Proof.
  intros Hb Hhd Hh Hl Hpos Hpb Hfit. unfold encode_frame. rewrite Hb.
  rewrite (mwrite_eq _ [] hd (hdr_bytes h) (p ++ q)) by (rewrite ?zlen_hdr_bytes; done).
  cbn [obind app]. rewrite compute_crc_spec by done. cbn [obind].
  rewrite (mread_eq _ (hdr_bytes h) p q) by (rewrite ?zlen_hdr_bytes; done). cbn [obind].
  rewrite (proj2 (Z.eqb_neq _ _)) by lia. eexists. split; [done|]. split.
  - cbn. by rewrite app_nil_r.
  - pose proof (wire_crc_range h p). split; try done. destruct Hh. split; cbn; done.
Qed.

(** ** A whole send *)

(** The frame [f] with the header [h] and the payload [p] for the encoding [d]
    of [proto] is what [uc_encode] makes in the state [s]. *)
Record encoded (s : uc_state) (tag : Z) (proto : enc_t) (flags : Z)
    (h : uc_msg_hdr_t) (p d f : list Z) : Prop := {
  encoded_tag : proto_tag h = tag;
  encoded_seq : hdr_send_seq h = next_send_seq (send_seq_num s);
  encoded_ack : hdr_ack_seq h = recv_seq_num s;
  encoded_first : has (hdr_flags h) UC_MSG_HDR_FLAGS_FIRST_MSG = negb (sent_first_msg s);
  encoded_is_ack : has (hdr_flags h) UC_MSG_HDR_FLAGS_ACK = true;
  encoded_immediate :
    has (hdr_flags h) UC_MSG_HDR_FLAGS_IMMEDIATE = has flags UC_MSG_HDR_FLAGS_IMMEDIATE;
  encoded_proto : pb_encode proto (UC_MSG_BUFFER_SIZE - UC_MSG_HDR_SIZE) = Some d;
  encoded_nonempty : 0 < zlen d;
  encoded_made : made (crypto s) h p d;
  encoded_sealed : sealed h p;
  encoded_frame : ∃ parts, cobs_encode UC_COBS_WR_ENC_BUFFER_SIZE parts = inr f ∧
                    concat parts = hdr_bytes h ++ p;
}.

(** The errors of a send that put nothing on the line. *)
Definition encode_error (err : uc_err_t) : Prop :=
  err = UC_ERR_TOO_LARGE ∨ err = UC_ERR_PROTO_ENCODE_FAILED ∨ err = UC_ERR_ENCRYPT_FAILED ∨
  err = UC_ERR_INVALID_ARG ∨ err = UC_ERR_DECODE_TOO_SMALL ∨ err = UC_ERR_DECODE_FAILED.

(** How a send ends: nothing was sent, or [m] whole copies of the frame were,
    and a part of one if the driver gave up. *)
Definition send_post (s : uc_state) (tag : Z) (proto : enc_t) (flags : Z)
    (r : uc_err_t * uc_state) : Prop :=
  uc_inv r.2 ∧ wr_mutex r.2 = false ∧ msg_mutex r.2 = false ∧
  (sent (context r.2) = sent (context s) ∧ encode_error r.1 ∨
   ∃ h p d f m, encoded s tag proto flags h p d f ∧ (m ≤ UC_RETRANSMIT_MAX_COUNT)%nat ∧
     send_seq_num r.2 = hdr_send_seq h ∧
     ((r.1 = UC_ERR_NONE ∧ (1 ≤ m)%nat ∨ r.1 = UC_ERR_MAX_RETRANSMITS ∧ m = UC_RETRANSMIT_MAX_COUNT) ∧
      sent (context r.2) = sent (context s) ++ concat (replicate m f) ∨
      r.1 = UC_ERR_WR_FAILED ∧ transmitted f m (context s) (context r.2))).

Lemma encode_fail_post s0 tag proto flags err s :
  uc_inv s → msg_mutex s = true → wr_mutex s = true → sent (context s) = sent (context s0) →
  encode_error err → safe (send_post s0 tag proto flags) (encode_fail err s).
Proof.
  intros Hi Hm Hw Hc He. unfold encode_fail, _uc_put_msg_buffer. rewrite Hm. cbn [ASSERT obind].
  cbn [wr_mutex set_msg_mutex]. rewrite Hw. cbn [ASSERT obind safe]. split_and!; [inv_set|done|done|].
  by left.
Qed.

Lemma next_send_seq_range n : byte_ok (next_send_seq n) ∧ next_send_seq n ≠ 0.
Proof.
  unfold next_send_seq, byte_ok, u8. pose proof (Z.mod_pos_bound (n + 1) 256).
  pose proof (Z.mod_pos_bound ((n + 1) mod 256 + 1) 256).
  destruct (_ =? 0) eqn:E; btest; [|lia]. rewrite E. done.
Qed.

(** The flags of a header, for the two kinds of send. *)
Definition send_flags (flags : Z) (first encrypt : bool) : Z :=
  let fl := Z.lor UC_MSG_HDR_FLAGS_ACK flags in
  let fl := if first then Z.lor fl UC_MSG_HDR_FLAGS_FIRST_MSG else fl in
  if encrypt then Z.lor fl UC_MSG_HDR_FLAGS_ENCRYPTED else fl.

Lemma send_flags_spec flags first encrypt :
  flags = 0 ∨ flags = UC_MSG_HDR_FLAGS_IMMEDIATE →
  0 ≤ send_flags flags first encrypt < 65536 ∧
  has (send_flags flags first encrypt) UC_MSG_HDR_FLAGS_FIRST_MSG = first ∧
  has (send_flags flags first encrypt) UC_MSG_HDR_FLAGS_ACK = true ∧
  has (send_flags flags first encrypt) UC_MSG_HDR_FLAGS_IMMEDIATE
    = has flags UC_MSG_HDR_FLAGS_IMMEDIATE.
Proof. intros [-> | ->]; by destruct first, encrypt. Qed.

(** From the frame in [wr_enc_buffer] to the end of the send. *)
Definition transmit (ack : Z) (f : list Z) (waits : list (list uc_ev)) (s : uc_state)
    : outcome (uc_err_t * uc_state) :=
  let! s := _uc_put_msg_buffer s in
  let! s := stop_ack_timer ack s in
  let! '(err, s) := retransmit_loop UC_RETRANSMIT_MAX_COUNT false f waits s in
  let! _ := ASSERT (wr_mutex s) in
  Done (err, set_wr_mutex false s).

(** The sender's state when the frame is ready. *)
Record tx_ready (s0 : uc_state) (h : uc_msg_hdr_t) (s : uc_state) : Prop := {
  tx_inv : uc_inv s;
  tx_msg : msg_mutex s = true;
  tx_wr : wr_mutex s = true;
  tx_context : context s = context s0;
  tx_seq : send_seq_num s = hdr_send_seq h;
  tx_index : rd_index s = rd_index s0;
  tx_timer : ack_timer s = ack_timer s0;
}.

Lemma transmit_post s0 tag proto flags h p d f ack waits s :
  encoded s0 tag proto flags h p d f → tx_ready s0 h s → Forall (Forall ev_ok) waits →
  safe (send_post s0 tag proto flags) (transmit ack f waits s).
Proof.
  intros He [Hi Hm Hw Hc Hq _ _] Hwaits. unfold transmit.
  eapply safe_bind; [apply (put_safe s); done|]. intros s1 Hs1.
  eapply (safe_bind (rx_ok s false)).
  { unfold stop_ack_timer. destruct (_ =? _); [by apply stop_safe|done]. }
  intros s2 Hs2. destruct (tx_side_inv s2 s (proj2 (proj2 Hs2))) as (Hq2 & Hw2 & Hc2).
  eapply safe_bind; [by apply (retransmit_safe _ f waits s s2)|].
  intros [err s3] (Hi3 & Hm3 & Hw3 & Hq3 & m & Hle & Htr & H1 & H2 & H3 & H4). cbn [fst snd] in *.
  rewrite Hc2, Hc in Htr, H2. rewrite Hw3. cbn [ASSERT obind safe]. split_and!; [inv_set|done|done|].
  right. exists h, p, d, f, m. cbn [fst snd send_seq_num set_wr_mutex context].
  split_and!; [done|done|congruence|].
  destruct H4 as [-> |[-> | ->]]; [left|right; done|left].
  - split; [left; eauto|eauto].
  - split; [right; eauto|eauto].
Qed.

(** [uc_encode] fails before anything is sent, or transmits the encoded frame. *)
Lemma uc_encode_cases (F : Prop) (R : uc_err_t * uc_state → Prop) tag proto n flags waits s :
  uc_inv s → wr_mutex s = false → msg_mutex s = false → 0 < n → 0 ≤ tag < 4294967296 →
  flags = 0 ∨ flags = UC_MSG_HDR_FLAGS_IMMEDIATE →
  (∀ h s1, crypto s1 = crypto s → encode_payload proto n h s1 = Abort → F) →
  (∀ err s1, uc_inv s1 → msg_mutex s1 = true → wr_mutex s1 = true →
     sent (context s1) = sent (context s) → encode_error err → wp F R (encode_fail err s1)) →
  (∀ h p d f s1, encoded s tag proto flags h p d f → tx_ready s h s1 →
     wp F R (transmit (recv_seq_num s) f waits s1)) →
  wp F R (uc_encode tag proto n flags waits s).
Proof.
  intros Hi Hw Hm Hn Htag Hfl Habort Hfail Hsend. unfold uc_encode. rewrite Hw.
  unfold _uc_get_msg_buffer. cbn [msg_mutex set_wr_mutex]. rewrite Hm. cbn [negb ASSERT obind].
  set (s1 := set_msg_buffer _ _).
  assert (uc_inv s1) as Hi1 by inv_set.
  destruct (_ <? n); [apply Hfail; done || by left|].
  rewrite (proj2 (Z.ltb_lt _ _)) by done. cbn [andb].
  set (s2 := if negb (sent_first_msg _) then set_sent_first_msg true _ else _).
  destruct (next_send_seq_range (send_seq_num s)) as [Hnr _].
  assert (uc_inv s2 ∧ msg_mutex s2 = true ∧ wr_mutex s2 = true ∧ context s2 = context s ∧
          crypto s2 = crypto s ∧ send_seq_num s2 = next_send_seq (send_seq_num s) ∧
          rd_index s2 = rd_index s ∧ ack_timer s2 = ack_timer s ∧ msg_buffer s2 = msg_buffer s1)
    as (Hi2 & Hm2 & Hw2 & Hc2 & Hk2 & Hq2 & Hx2 & Ht2 & Hb2).
  { unfold s2. destruct (negb _); split_and!; try done; clear Hi; inv_set. }
  clearbody s2. set (enc := _ && (_ || _)).
  destruct (enc && _); [apply Hfail; try done; [by rewrite Hc2|by left]|].
  change (sent_first_msg (set_send_seq_num _ s1)) with (sent_first_msg s).
  change (recv_seq_num s1) with (recv_seq_num s).
  fold (send_flags flags (negb (sent_first_msg s)) enc).
  destruct (send_flags_spec flags (negb (sent_first_msg s)) enc Hfl) as (Hfr & Hf1 & Hf2 & Hf3).
  set (fl := send_flags _ _ _) in *. clearbody fl enc. set (h := mk_hdr _ _ _ _ _ _ _).
  assert (hdr_ok h) as Hh.
  { destruct Hi. split; cbn; try done; try lia. by rewrite Hq2. }
  eapply wp_bind_safe; [apply encode_payload_spec; [done|apply Hi2| |done|done]|by apply Habort|].
  { rewrite Hb2. apply Forall_replicate. unfold byte_ok. lia. }
  intros [r s3] (msg & k & E3 & Hl3 & Hr). cbn [fst snd] in E3, Hr. subst s3.
  assert (uc_inv (set_msg_buffer msg (set_crypto k s2))) as Hi3 by (clear Hi Hi1; inv_set).
  destruct r as [err|h'].
  { apply Hfail; try done; [cbn; by rewrite Hc2|]. unfold encode_error. tauto. }
  destruct Hr as (d & hd & p & q & Ed & Hd & -> & Hhd & Hmade & Hpb & -> & Hfit).
  pose proof (made_pos _ _ _ _ Hmade Hd) as Hpos.
  destruct (encode_frame_spec (set_payload_len (zlen p) h) hd p q (set_msg_buffer (hd ++ p ++ q) (set_crypto k s2)))
    as (parts & -> & Hparts & Hse); try done.
  { destruct Hh. unfold UC_MSG_HDR_SIZE, UC_MSG_BUFFER_SIZE in Hfit. split; cbn; try done; lia. }
  cbn [obind]. destruct (cobs_encode _ parts) as [ret|f] eqn:Ef.
  { apply Hfail; try done; [cbn; by rewrite Hc2|]. unfold encode_error.
    pose proof (cobs_encode_error UC_COBS_WR_ENC_BUFFER_SIZE parts). destruct ret; cbn; tauto. }
  destruct (cobs_frame _ _ _ Ef) as (_ & _ & _ & Hfl'). pose proof (wr_buffer_len _ Hi2) as Hwl.
  destruct (mwrite_done (wr_enc_buffer s2) f 0) as (buf & Ew & Hbl); [lia..|].
  cbn [wr_enc_buffer set_msg_buffer set_crypto]. rewrite Ew. cbn [obind].
  rewrite (proj2 (Z.eqb_neq n 0)) by lia.
  apply (Hsend (set_hdr_crc (wire_crc (set_payload_len (zlen p) h) p) (set_payload_len (zlen p) h))
           p d f).
  - split; try done; [by rewrite Hk2 in Hmade|by exists parts].
  - split; try done. clear Hi Hi1 Hi2. inv_set. lia.
Qed.

Lemma uc_encode_spec tag proto n flags waits s :
  uc_inv s → wr_mutex s = false → msg_mutex s = false → 0 < n → 0 ≤ tag < 4294967296 →
  flags = 0 ∨ flags = UC_MSG_HDR_FLAGS_IMMEDIATE → Forall (Forall ev_ok) waits →
  safe (send_post s tag proto flags) (uc_encode tag proto n flags waits s).
Proof.
  intros. apply wp_safe, uc_encode_cases; try done; intros; apply wp_safe.
  - by apply encode_fail_post.
  - by eapply transmit_post.
Qed.

(** ** Acknowledgements *)

Lemma wire_crc_set c h p : wire_crc (set_hdr_crc c h) p = wire_crc h p.
Proof. reflexivity. Qed.

(** What a pure ACK puts on the line. *)
Lemma ack_spec s s' :
  uc_inv s → is_Some (tm_handle (ack_timer s)) → _uc_ack_with_timeout s = Done (UC_ERR_NONE, s') →
  ∃ h f, sent (context s') = sent (context s) ++ f ∧
    cobs_encode UC_COBS_WR_ENC_BUFFER_SIZE [hdr_bytes h] = inr f ∧ sealed h [] ∧
    hdr_flags h = UC_MSG_HDR_FLAGS_ACK ∧ hdr_ack_seq h = recv_seq_num s.
Proof.
  intros Hi Ht. unfold _uc_ack_with_timeout. destruct (wr_mutex s); [done|].
  cbn [recv_seq_num send_seq_num clear_event_bits set_ack_events set_wr_mutex set_send_seq_num].
  set (h0 := mk_hdr _ _ _ _ _ _ _). destruct (next_send_seq_range (send_seq_num s)) as [Hnr _].
  assert (hdr_ok h0) as Hh by (destruct Hi; split; cbn; try done; unfold UC_MSG_HDR_FLAGS_ACK; lia).
  rewrite (compute_crc_spec h0 [] [0] Hh eq_refl : uc_compute_crc (hdr_bytes h0 ++ [0]) = _).
  cbn [obind].
  set (h := set_hdr_crc _ h0). pose proof (wire_crc_range h0 []).
  assert (sealed h []) as Hse.
  { split; [|reflexivity|symmetry; apply wire_crc_set|constructor|discriminate].
    clearbody h0. destruct Hh; split; cbn [proto_tag hdr_send_seq hdr_ack_seq hdr_crc hdr_flags hdr_reserved
      payload_len h set_hdr_crc]; assumption. }
  destruct (cobs_encode _ _) as [ret|f] eqn:Ef.
  { cbn [obind wr_mutex set_send_seq_num clear_event_bits set_ack_events set_wr_mutex ASSERT].
    pose proof (cobs_encode_error UC_COBS_WR_ENC_BUFFER_SIZE [hdr_bytes h]). by destruct ret. }
  cbn [obind wr_enc_buffer set_send_seq_num clear_event_bits set_ack_events set_wr_mutex].
  destruct (mwrite _ 0 f) as [buf| | |]; try done. cbn [obind].
  unfold stop_ack_timer, rtos_timer_stop, timer_handle. destruct Ht as [t Ht].
  cbn [recv_seq_num ack_timer set_wr_enc_buffer set_send_seq_num clear_event_bits set_ack_events
    set_wr_mutex]. rewrite Z.eqb_refl, Ht. cbn [obind context set_ack_timer set_wr_enc_buffer
    set_send_seq_num clear_event_bits set_ack_events set_wr_mutex].
  destruct (uc_write_spec (length f) f (context s)) as (ok & c & -> & n & Hn & Hnr' & Hok); [done|].
  cbn [obind wr_mutex set_context set_ack_timer set_wr_enc_buffer set_send_seq_num clear_event_bits
    set_ack_events set_wr_mutex ASSERT]. destruct ok; [|done]. intros [= <-].
  rewrite (Hok eq_refl), ztake_all in Hn by lia. by exists h, f.
Qed.

Lemma has_within e bits sub : Z.land bits sub = sub → has (Z.land e bits) sub = has e sub.
Proof. intros H. unfold has. by rewrite <- Z.land_assoc, H. Qed.

(** The acknowledgement that arrives during the first wait ends the send. *)
Lemma retransmit_acked n cap h f ack waits s :
  rx_ready s → cobs_encode cap [hdr_bytes h] = inr ack → sealed h [] →
  zlen ack ≤ UC_COBS_RD_ENC_BUFFER_SIZE → hdr_flags h = UC_MSG_HDR_FLAGS_ACK →
  send_seq_num s ≤ hdr_ack_seq h →
  wp False (λ r, wr_mutex r.2 = wr_mutex s ∧
              (r.1 = UC_ERR_NONE ∧ sent (context r.2) = sent (context s) ++ f ∨ r.1 = UC_ERR_WR_FAILED))
    (retransmit_loop (S n) false f ([EvRx ack] :: waits) s).
Proof.
  intros Hs Ef Hse Hl Hfl Hack. cbn [retransmit_loop].
  destruct (uc_write_spec (length f) f (context s)) as (ok & c & Ew & k & Hk & _ & Hok); [done|].
  cbn [context clear_event_bits set_ack_events]. rewrite Ew. cbn [obind].
  set (s1 := set_context c _). destruct ok; cbn [negb]; [|by split; [|right]].
  rewrite (Hok eq_refl), ztake_all in Hk by lia.
  assert (rx_ready s1) as Hs1 by (destruct Hs as [Hi ? ? ?]; split; [inv_set|done..]).
  cbn [head from_option id uc_env_run uc_env_step].
  destruct (receive_ack cap ack h s1) as (s2 & -> & _ & Hev & Htx & _); try done. cbn [obind].
  unfold wait_bits. rewrite has_within, Hev by done.
  destruct (tx_side_inv _ _ Htx) as (_ & Hw2 & Hc2).
  cbn [wp fst snd]. destruct (_ =? 0); (split; [done|left; split; [done|]]).
  - by rewrite Hc2.
  - cbn [context clear_event_bits set_ack_events]. by rewrite Hc2.
Qed.

Lemma transmit_acked s0 cap h h' f ack waits s :
  tx_ready s0 h' s → rd_index s0 = 0 → is_Some (tm_handle (ack_timer s0)) →
  cobs_encode cap [hdr_bytes h] = inr ack → sealed h [] → zlen ack ≤ UC_COBS_RD_ENC_BUFFER_SIZE →
  hdr_flags h = UC_MSG_HDR_FLAGS_ACK → hdr_send_seq h' ≤ hdr_ack_seq h →
  wp False (λ r, r.1 = UC_ERR_NONE ∧ sent (context r.2) = sent (context s0) ++ f
                 ∨ r.1 = UC_ERR_WR_FAILED)
    (transmit (recv_seq_num s0) f ([EvRx ack] :: waits) s).
Proof.
  intros [Hi Hm Hw Hc Hq Hx Htm] H0 Ht Ef Hse Hl Hfl Hack. unfold transmit, _uc_put_msg_buffer.
  rewrite Hm. cbn [ASSERT obind].
  assert (∃ s1, stop_ack_timer (recv_seq_num s0) (set_msg_mutex false s) = Done s1 ∧ rx_ready s1 ∧
            wr_mutex s1 = true ∧ context s1 = context s0 ∧ send_seq_num s1 = hdr_send_seq h')
    as (s1 & -> & Hs1 & Hw1 & Hc1 & Hq1).
  { unfold stop_ack_timer, rtos_timer_stop, timer_handle. cbn [ack_timer set_msg_mutex].
    rewrite Htm. destruct Ht as [t Ht]. rewrite Ht. cbn [obind].
    destruct (_ =? _); eexists; (split; [done|]); (split_and!; [|done..]);
      (split; [inv_set|done| |cbn; congruence]); [by eexists|cbn; rewrite Htm; by eexists]. }
  cbn [obind]. pose proof (retransmit_acked 2 cap h f ack waits s1 Hs1 Ef Hse Hl Hfl) as Hr.
  rewrite Hq1 in Hr. specialize (Hr Hack). apply wp_total in Hr as ([err s2] & E & Hw2 & Hres).
  unfold UC_RETRANSMIT_MAX_COUNT. rewrite E. cbn [obind fst snd] in *. rewrite Hw2, Hw1.
  cbn [ASSERT obind wp]. rewrite Hc1 in Hres. exact Hres.
Qed.

(** No assertion fails on the way to the frame if none does in the crypto
    callbacks. *)
Lemma mwrite_abort {A} (l d : list A) off : mwrite l off d ≠ Abort.
Proof. unfold mwrite. by destruct (_ && _). Qed.
Lemma mread_abort {A} (l : list A) off n : mread l off n ≠ Abort.
Proof. unfold mread. by destruct (_ && _). Qed.
Lemma aset_abort {A} (l : list A) i x : aset l i x ≠ Abort.
Proof. unfold aset. by destruct (_ && _). Qed.

Lemma write_seq_abort seq buf off : _uc_write_seq_num seq buf off ≠ Abort.
Proof.
  unfold _uc_write_seq_num.
  do 3 (intros [?%aset_abort|(? & _ & E)]%obind_abort; [done|revert E]). apply aset_abort.
Qed.

Lemma encode_payload_abort proto n h s :
  encode_payload proto n h s = Abort →
  get_send_seq (crypto s) = Abort ∨
  ∃ seq k pt aad nonce mac, get_send_seq (crypto s) = Done (seq, k) ∧
    gcm_encrypt k pt aad nonce mac = Abort.
Proof.
  unfold encode_payload. destruct (0 <? n); [|done].
  destruct (pb_encode _ _) as [[|d0 d]|]; try done.
  intros [?%mwrite_abort|(msg & _ & E)]%obind_abort; [done|].
  destruct (has _ _); [|done].
  apply obind_abort in E as [E|([ok s'] & _ & E)]; [|done]. revert E. unfold encode_encrypt.
  intros [E|([seq k] & Eseq & E)]%obind_abort; [by left|]. right. exists seq, k.
  apply obind_abort in E as [?%write_seq_abort|(? & _ & E)]; [done|].
  apply obind_abort in E as [?%write_seq_abort|(? & _ & E)]; [done|].
  do 3 (apply obind_abort in E as [?%mread_abort|(? & _ & E)]; [done|]).
  apply obind_abort in E as [E|([[[[ct no] ma]|] k2] & _ & E)]; [by repeat eexists| |done].
  do 3 (apply obind_abort in E as [?%mwrite_abort|(? & _ & E)]; [done|]). done.
Qed.
End Send.
