(* ===== verification/UcEnds.v ===== *)
(** * The two ends of the link

    The properties of uc.c, on the model of [Uc] and with the lemmas of [UcLink]
    and [UcSend]: the state of a processor stays well formed whatever arrives
    and whatever is sent; a send ends and delivers its message once; a send that
    is acknowledged succeeds; a corrupted frame is refused. The last part is a
    small instance of the classes, on which the properties are witnessed and the
    behaviours noted as findings are computed. *)

From S2P Require Import Prelude Mempool Timer UcCrc Uc UcLink UcSend.

(** ** One processor *)

Section Session.
Context {T K C : Type} `{!SwTimer T, !CryptoApi K, !Serial C} `{Cb : Cobs} `{P : UcProto}.
Context `{!CryptoLaws K, !SerialLaws C, !CobsLaws Cb, !UcProtoLaws P}.
Abbreviation uc_state := (uc_state_priv_t T K C).
Implicit Types (s : uc_state).

(** What can happen on a processor while nobody sends, and a send with what
    happens meanwhile. *)
Inductive link_op :=
| OpEvent (e : uc_ev)
| OpAck
| OpSend (tag : Z) (proto : enc_t) (flags : Z) (waits : list (list uc_ev)).

Definition op_ok (o : link_op) : Prop :=
  match o with
  | OpEvent e => ev_ok e
  | OpAck => True
  | OpSend tag _ flags waits =>
      0 ≤ tag < 4294967296 ∧ (flags = 0 ∨ flags = UC_MSG_HDR_FLAGS_IMMEDIATE) ∧
      Forall (Forall ev_ok) waits
  end.

Definition link_step (o : link_op) (s : uc_state) : outcome uc_state :=
  match o with
  | OpEvent e => uc_env_step e s
  | OpAck => let! '(_, s) := uc_ack s in Done s
  | OpSend tag proto flags waits =>
      let! '(_, s) := uc_encode tag proto enc_proto_size flags waits s in Done s
  end.

Fixpoint link_run (ops : list link_op) (s : uc_state) : outcome uc_state :=
  match ops with
  | [] => Done s
  | o :: ops => let! s := link_step o s in link_run ops s
  end.

(** Between two operations: well formed, and no lock held. *)
Definition at_rest (s : uc_state) : Prop := uc_inv s ∧ msg_mutex s = false ∧ wr_mutex s = false.

Lemma at_rest_rx s : at_rest s → rx_ok s false s.
Proof. by intros (Hi & Hm & _). Qed.

Lemma rx_at_rest s s' : at_rest s → rx_ok s false s' → at_rest s'.
Proof. intros (_ & _ & Hw) (Hi & Hm & (_ & Hw' & _)%tx_side_inv). split_and!; [done|done|congruence]. Qed.

Lemma ack_at_rest s : at_rest s → safe (λ r, at_rest r.2) (_uc_ack_with_timeout s).
Proof.
  intros (Hi & Hm & Hw). unfold _uc_ack_with_timeout. rewrite Hw.
  set (s1 := set_send_seq_num _ _). destruct (next_send_seq_range (send_seq_num s)) as [Hnr _].
  assert (uc_inv s1) as Hi1 by inv_set. set (h0 := mk_hdr _ _ _ _ _ _ _).
  assert (hdr_ok h0) as Hh by (destruct Hi; split; cbn; try done; unfold UC_MSG_HDR_FLAGS_ACK; lia).
  rewrite (compute_crc_spec h0 [] [0] Hh eq_refl : uc_compute_crc (hdr_bytes h0 ++ [0]) = _).
  cbn [obind]. eapply (safe_bind (λ r, uc_inv r.2 ∧ msg_mutex r.2 = false ∧ wr_mutex r.2 = true)).
  - destruct (cobs_encode _ _) as [ret|f] eqn:Ef; [done|].
    destruct (cobs_frame _ _ _ Ef) as (_ & _ & _ & Hf). pose proof (wr_buffer_len s1 Hi1) as Hl.
    apply safe_mwrite; [lia..|]. intros buf _ Hbuf.
    assert (rx_ok (set_wr_enc_buffer buf s1) false (set_wr_enc_buffer buf s1)) as Hs2.
    { split_and!; [clear Hi; inv_set; by rewrite Hbuf|done|done]. }
    eapply (safe_bind (rx_ok (set_wr_enc_buffer buf s1) false)).
    { unfold stop_ack_timer. destruct (_ =? _); [by apply stop_safe|done]. }
    intros s2 (Hi2 & Hm2 & (_ & Hw2 & _)%tx_side_inv).
    destruct (uc_write_spec (length f) f (context s2)) as (ok & c & -> & _); [done|].
    cbn [obind safe snd]. split_and!; [clear Hi Hi1; inv_set|done|done].
  - intros [err s2] (Hi2 & Hm2 & Hw2). cbn [snd] in *. rewrite Hw2. cbn [ASSERT obind safe].
    split_and!; [clear Hi Hi1; inv_set|done|done].
Qed.

Lemma step_at_rest o s : at_rest s → op_ok o → safe at_rest (link_step o s).
Proof.
  intros Hs Ho. destruct o as [[data| |ms]| |tag proto flags waits]; simpl in *.
  - eapply safe_mono; [by apply handle_data_safe; [apply at_rest_rx|]|]. intros s'. by apply rx_at_rest.
  - unfold uc_idle. destruct (has _ _); [|done]. eapply safe_bind; [by apply ack_at_rest|].
    by intros [].
  - destruct (pass (ack_timer s) ms) as [t [|]]; simpl; destruct Hs as (Hi & Hm & Hw);
      (split_and!; [inv_set|done|done]).
  - unfold uc_ack. eapply safe_bind; [by apply ack_at_rest|]. by intros [].
  - destruct Ho as (Ht & Hf & Hwaits). destruct Hs as (Hi & Hm & Hw). pose proof wr_size_range.
    eapply safe_bind; [apply uc_encode_spec; done || lia|].
    intros [err s'] (Hi' & Hw' & Hm' & _). done.
Qed.

Lemma uc_init_at_rest base k c : at_rest (uc_init base k c).
Proof.
  pose proof rd_size_bounds. pose proof wr_size_bounds. pose proof rd_size_range. pose proof wr_size_range.
  split_and!; [|done|done].
  split; cbn; rewrite ?zlen_replicate; try done; try lia;
    try (apply Forall_replicate; unfold byte_ok; lia); try (unfold byte_ok; lia).
  unfold UC_MSG_MAX_NUM. split.
  - repeat constructor; cbn; rewrite ?zlen_replicate; lia.
  - intros i j r1 r2 E1 E2 Hne. unfold apart.
    destruct i as [|[|i]], j as [|[|j]]; cbn in E1, E2; try done; simplify_eq; cbn; lia.
Qed.

(** C34: Whatever bytes arrive on the line, in whatever order they are mixed with
    the idle hook, the passing of time, explicit acknowledgements and sends
    (each with whatever arrives while it waits), from [uc_init] on: no read or
    write leaves its buffer, every loop ends, the buffers keep their sizes, the
    read index its range, the memory pool its order, and between two operations
    both locks are free. *)
Theorem uc_session_invariant (ops : list link_op) (base : Z) (k : K) (c : C) :
  Forall op_ok ops → safe at_rest (link_run ops (uc_init base k c)).
Proof.
  intros Hops. pose proof (uc_init_at_rest base k c) as Hs. revert Hs.
  generalize (uc_init base k c). induction Hops as [|o ops Ho _ IH]; intros s Hs; simpl; [done|].
  eapply safe_bind; [by apply step_at_rest|]. exact IH.
Qed.

(** C35: A send ends: after at most three transmissions of one frame, with both
    locks free again. Success means that one to three whole copies went out,
    [UC_ERR_MAX_RETRANSMITS] exactly three; when the driver refuses bytes the
    result is [UC_ERR_WR_FAILED]; every other error means that nothing was sent. *)
Theorem uc_send_bounded tag (proto : enc_t) n flags waits s :
  at_rest s → 0 < n → 0 ≤ tag < 4294967296 → flags = 0 ∨ flags = UC_MSG_HDR_FLAGS_IMMEDIATE →
  Forall (Forall ev_ok) waits →
  safe (λ '(err, s'), at_rest s' ∧
    (encode_error err ∧ sent (context s') = sent (context s) ∨
     ∃ h p d f m, encoded s tag proto flags h p d f ∧ (m ≤ 3)%nat ∧
       (err = UC_ERR_NONE ∧ (1 ≤ m)%nat ∧
          sent (context s') = sent (context s) ++ concat (replicate m f)
        ∨ err = UC_ERR_MAX_RETRANSMITS ∧ m = 3%nat ∧
          sent (context s') = sent (context s) ++ concat (replicate m f)
        ∨ err = UC_ERR_WR_FAILED ∧ transmitted f m (context s) (context s'))))
    (uc_encode tag proto n flags waits s).
Proof.
  intros (Hi & Hm & Hw) Hn Ht Hf Hwaits.
  eapply safe_mono; [by apply uc_encode_spec|].
  intros [err s'] (Hi' & Hw' & Hm' & Hcase). cbn [fst snd] in *. split; [done|].
  destruct Hcase as [[Hc He]|(h & p & d & f & m & He & Hle & _ & Hr)]; [by left|].
  right. exists h, p, d, f, m. split_and!; [done|done|].
  destruct Hr as [[[[-> ?]|[-> ->]] Hc]|?]; tauto.
Qed.

(** C37: A frame whose payload was changed within two neighbouring bytes, and
    that COBS still decodes, is refused with [UC_ERR_CRC_MISMATCH] and dropped in
    silence: nothing is delivered, no sequence number moves, nothing is sent or
    noted to be sent, neither an acknowledgement nor the NACK of the README, and
    no block of the pool is kept; the message buffer is free again. (The bytes of
    the frame stay in the read buffer, so that the next frame can be lost with
    them, see [frame_after_error_is_lost].) *)
Theorem uc_corruption_detected cap parts f h a x y b x' y' rest s :
  uc_inv s → msg_mutex s = false → rd_index s = 0 →
  sealed h (a ++ x :: y :: b) → byte_ok x' → byte_ok y' → (x, y) ≠ (x', y') →
  cobs_encode cap parts = inr f → concat parts = hdr_bytes h ++ a ++ x' :: y' :: b →
  zlen f ≤ UC_COBS_RD_ENC_BUFFER_SIZE →
  ∃ s', uc_decode _uc_on_proto (f ++ rest) s = Done (UC_ERR_CRC_MISMATCH, rest, s') ∧
    inbox s' = inbox s ∧ recv_seq_num s' = recv_seq_num s ∧ ack_events s' = ack_events s ∧
    crypto s' = crypto s ∧ mempool s' = mempool s ∧ msg_mutex s' = false ∧ tx_side s' = tx_side s.
Proof.
  intros Hi Hm H0 Hse Hx Hy Hne Ef Em Hf. pose proof Hse as [Hh Hlen Hcrc Hsb Hfit].
  set (m := hdr_bytes h ++ a ++ x' :: y' :: b) in *.
  assert (zlen m = UC_MSG_HDR_SIZE + zlen (a ++ x :: y :: b)) as Hl
    by (unfold m; rewrite !zlen_app, !zlen_cons, zlen_hdr_bytes; lia).
  assert (bytes_ok m) as Hb.
  { unfold m, bytes_ok in *. apply Forall_app in Hsb as [Ha Hxy].
    inversion Hxy as [|? ? _ Hy']; subst. inversion Hy'; subst.
    rewrite !Forall_app, !Forall_cons. split_and!; try done. by apply hdr_bytes_ok. }
  destruct (decode_frame _uc_on_proto cap parts f m rest s Ef Em) as (buf & E & _);
    [lia|done|done|done|done|done|].
  unfold m in E. rewrite (process_corrupted _ h a x y b) in E by done. cbn [obind after_frame] in E.
  rewrite bool_decide_true in E by done.
  assert (uc_decode _uc_on_proto (f ++ rest) s = decode_loop _uc_on_proto (f ++ rest) s) as ->.
  { destruct (cobs_frame _ _ _ Ef) as (body & -> & _). by destruct body. }
  rewrite E. eexists. split; [done|]. done.
Qed.
End Session.

(** ** Two processors *)

Section Ends.
Context {T K C : Type} `{!SwTimer T, !CryptoApi K, !Serial C} `{Cb : Cobs} (P Q : UcProto).
Context `{!CryptoLaws K, !CryptoPair K, !SerialLaws C, !CobsLaws Cb, !UcProtoLaws P, !UcProtoLaws Q}.
Abbreviation uc_state := (uc_state_priv_t T K C).

Hypothesis (timer_reset : ∀ t : T, is_Some (xTimerReset t)).
Hypothesis (timer_start : ∀ (t : T) d, is_Some (xTimerChangePeriod t d)).
(** uc_cfg_host.h and uc_cfg_device.h: what the one writes the other can read. *)
Hypothesis (wire_sizes : UC_CFG_WR_BUFFER_SIZE (UcProto := P) ≤ UC_CFG_RD_BUFFER_SIZE (UcProto := Q)).

(** The sender [s], build [P], is at rest and has sent its first message; the
    receiver [r], build [Q], is ready, decodes the message to [image], has a task
    registered for it as [cb] and memory for it at [a]. *)
Record link_ready (s r : uc_state) (tag : Z) (proto : enc_t (UcProto := P)) (image : list Z)
    (cb a : Z) : Prop := {
  lr_sender : at_rest (P := P) s;
  lr_started : sent_first_msg s = true;
  lr_receiver : rx_ready (P := Q) r;
  lr_crypto : paired (crypto s) (crypto r);
  lr_tag : 0 ≤ tag < 4294967296;
  lr_codec cap d : pb_encode (UcProto := P) proto cap = Some d → pb_decode (UcProto := Q) d = (true, image);
  lr_route : route_find (registrations r) tag = Some cb;
  lr_slot : 0 < recv_sem r;
  lr_memory : ∃ pool, mempool_alloc (mempool r) (dec_proto_size (UcProto := Q)) = Done (a, pool);
}.

(** What the receiver hands to its tasks: nothing, if the number of the message
    is the one that it recorded last. *)
Definition deliveries (s r : uc_state) (cb a : Z) (image : list Z) : list (Z * Z * list Z) :=
  if recv_seq_num r =? next_send_seq (send_seq_num s) then [] else [(cb, a, image)].

Lemma frame_fits :
  UC_COBS_WR_ENC_BUFFER_SIZE (P := P) ≤ UC_COBS_RD_ENC_BUFFER_SIZE (P := Q).
Proof.
  unfold UC_COBS_WR_ENC_BUFFER_SIZE, UC_COBS_RD_ENC_BUFFER_SIZE, UC_COBS_OVERHEAD, UC_MSG_SIZE.
  pose proof (Z.div_le_mono (UC_MSG_OVERHEAD + UC_CFG_WR_BUFFER_SIZE (UcProto := P))
                (UC_MSG_OVERHEAD + UC_CFG_RD_BUFFER_SIZE (UcProto := Q)) (0xFF - 1)). lia.
Qed.

Lemma proto_fits cap (proto : enc_t (UcProto := P)) d :
  pb_encode (UcProto := P) proto cap = Some d → zlen d ≤ UC_COBS_RD_ENC_BUFFER_SIZE (P := Q).
Proof.
  intros [Hd _]%pb_encode_size.
  unfold UC_COBS_RD_ENC_BUFFER_SIZE, UC_COBS_OVERHEAD, UC_MSG_SIZE, UC_MSG_OVERHEAD, UC_MSG_HDR_SIZE,
    UC_ENCRYPTION_PADDING, AES_GCM_IV_LENGTH, AES_GCM_TAG_LENGTH.
  pose proof (@rd_size_range Q _).
  pose proof (Z.div_pos (14 + (12 + 16 + 4) + UC_CFG_RD_BUFFER_SIZE (UcProto := Q)) (0xFF - 1)). lia.
Qed.

(** One to any number of copies of an encoded frame: one delivery, or none if
    the number is the receiver's last one. *)
Lemma copies_deliver s r tag proto flags image cb a h p d f m :
  link_ready s r tag proto image cb a → encoded (P := P) s tag proto flags h p d f → (1 ≤ m)%nat →
  ∃ r', uc_handle_data (P := Q) (concat (replicate m f)) r = Done r' ∧ rx_ready (P := Q) r' ∧
    inbox r' = inbox r ++ deliveries s r cb a image ∧ recv_seq_num r' = hdr_send_seq h.
Proof.
  intros [Hsnd Hst Hrcv Hpair Htag Hcodec Hroute Hslot [pool Hpool]]
    [Etag Eseq _ Efirst _ _ Epb Hd Hmade Hse (parts & Ef & Em)] Hm. destruct m as [|m]; [lia|]. simpl.
  destruct (made_carried _ _ _ _ _ Hpair Hmade) as (b' & Hca & Hre).
  pose proof frame_fits. pose proof (proto_fits _ _ _ Epb).
  destruct (cobs_frame _ _ _ Ef) as (body & Ebody & _ & Hfl). rewrite Hst in Efirst.
  assert (Hfirst : (has (hdr_flags h) UC_MSG_HDR_FLAGS_FIRST_MSG && (hdr_send_seq h =? 1)) = false) by (by rewrite Efirst).
  assert (Hone : ∃ r1, decode_loop _uc_on_proto (f ++ concat (replicate m f)) r
      = decode_loop _uc_on_proto (concat (replicate m f)) r1 ∧ rx_ready (P := Q) r1
    ∧ inbox r1 = inbox r ++ deliveries s r cb a image ∧ recv_seq_num r1 = hdr_send_seq h ∧ crypto r1 = b').
  { unfold deliveries. rewrite <- Eseq. destruct (Z.eqb_spec (recv_seq_num r) (hdr_send_seq h)) as [Hq|Hq].
    - destruct (receive_dup timer_reset timer_start (UC_COBS_WR_ENC_BUFFER_SIZE (P := P)) parts f h p d b'
                  (concat (replicate m f)) r) as (r1 & E1 & Hr1 & Hro & Hq1 & Hk1); try done; try lia.
      { by apply carried_opens. }
      exists r1. split_and!; [done|done| |done|done]. injection Hro as _ _ _ Hin. by rewrite Hin, app_nil_r.
    - apply (receive_new timer_reset timer_start (UC_COBS_WR_ENC_BUFFER_SIZE (P := P)) parts f h p d b' image cb a pool
               (concat (replicate m f)) r); try done; try lia; [by apply (Hcodec _ _ Epb)|by rewrite Etag]. }
  destruct Hone as (r1 & E1 & Hr1 & Hin1 & Hq1 & Hk1).
  destruct (receive_dups timer_reset timer_start m (UC_COBS_WR_ENC_BUFFER_SIZE (P := P)) parts f h p d [] r1)
    as (r2 & E2 & Hr2 & Hro & Hq2); try done; try lia; [by rewrite Hk1|].
  rewrite app_nil_r in E2. exists r2. split_and!; [|done| |done].
  - apply handle_data_done; [rewrite Ebody; by destruct body|]. by rewrite E1, E2.
  - injection Hro as _ _ _ Hin2. by rewrite Hin2.
Qed.

(** C29: Exactly once, or not at all. After the first message of a session (which
    is excepted), to a receiver that is ready and has a task and memory for it, a
    send that succeeds, or that gives up for want of an acknowledgement, has put
    on the line what the other processor turns into exactly one delivery of the
    message to the task registered for it, however many of the three
    transmissions were made, whether the message is encrypted or not, provided
    that its number differs from the last one the receiver recorded. If it is the
    same, which it is when 254 pure ACKs went out since, because they use up
    numbers that the receiver does not record, then nothing is delivered,
    although the send may succeed. *)
Theorem uc_exactly_once (s r : uc_state) tag proto image cb a n flags waits err s' :
  link_ready s r tag proto image cb a → 0 < n → flags = 0 ∨ flags = UC_MSG_HDR_FLAGS_IMMEDIATE →
  Forall (Forall ev_ok) waits → uc_encode (P := P) tag proto n flags waits s = Done (err, s') →
  err = UC_ERR_NONE ∨ err = UC_ERR_MAX_RETRANSMITS →
  ∃ line r', sent (context s') = sent (context s) ++ line ∧ uc_handle_data (P := Q) line r = Done r' ∧
    rx_ready (P := Q) r' ∧ inbox r' = inbox r ++ deliveries s r cb a image ∧
    recv_seq_num r' = next_send_seq (send_seq_num s).
Proof.
  intros Hl Hn Hf Hwaits E Herr. pose proof (lr_sender _ _ _ _ _ _ _ Hl) as (Hi & Hm & Hw).
  pose proof (uc_encode_spec tag proto n flags waits s Hi Hw Hm Hn (lr_tag _ _ _ _ _ _ _ Hl) Hf Hwaits) as Hs.
  rewrite E in Hs. destruct Hs as (_ & _ & _ & [[_ He]|(h & p & d & f & m & He & _ & _ & Hr)]).
  { cbn [fst] in He. by destruct Herr as [-> | ->], He as [|[|[|[|[|]]]]]. }
  cbn [fst snd] in Hr.
  assert ((1 ≤ m)%nat ∧ sent (context s') = sent (context s) ++ concat (replicate m f)) as [Hm1 Hsent].
  { destruct Hr as [[[[_ ?]|[_ ->]] ?]|[-> _]]; [done|split; [unfold UC_RETRANSMIT_MAX_COUNT; lia|done]|].
    by destruct Herr. }
  destruct (copies_deliver s r tag proto flags image cb a h p d f m Hl He Hm1)
    as (r' & Ed & Hr' & Hin & Hq).
  exists (concat (replicate m f)), r'. split_and!; try done. by rewrite Hq, (encoded_seq _ _ _ _ _ _ _ _ He).
Qed.

(** C36: A send is not stuck: once the peer has the message, its pure ACK, when
    it arrives during the first wait, ends the send with success after a single
    transmission. (Unless encoding failed before anything was sent, or the
    driver refused bytes; the crypto callbacks are taken not to assert.) *)
Theorem uc_acknowledged (s r r' : uc_state) ack tag proto n flags waits :
  at_rest (P := P) s → rd_index s = 0 → is_Some (tm_handle (ack_timer s)) →
  0 < n → 0 ≤ tag < 4294967296 → flags = 0 ∨ flags = UC_MSG_HDR_FLAGS_IMMEDIATE →
  (∃ seq k, get_send_seq (crypto s) = Done (seq, k) ∧
     ∀ pt aad nonce mac, gcm_encrypt k pt aad nonce mac ≠ Abort) →
  UC_COBS_WR_ENC_BUFFER_SIZE (P := Q) ≤ UC_COBS_RD_ENC_BUFFER_SIZE (P := P) →
  uc_inv (P := Q) r → is_Some (tm_handle (ack_timer r)) →
  recv_seq_num r = next_send_seq (send_seq_num s) →
  uc_ack (P := Q) r = Done (UC_ERR_NONE, r') → sent (context r') = sent (context r) ++ ack →
  ∃ err s', uc_encode (P := P) tag proto n flags ([EvRx ack] :: waits) s = Done (err, s') ∧
    (err = UC_ERR_NONE ∧ (∃ h p d f, encoded (P := P) s tag proto flags h p d f ∧
                            sent (context s') = sent (context s) ++ f)
     ∨ err = UC_ERR_WR_FAILED ∨ encode_error err).
Proof.
  intros (Hi & Hm & Hw) H0 Ht Hn Htag Hf (seq & k & Hgs & Hge) Hsz Hir Htr Hseq Hack Hsent.
  destruct (ack_spec r r' Hir Htr Hack) as (h & f & Hs & Ef & Hse & Hfl & Hak).
  rewrite Hs in Hsent. apply app_inv_head in Hsent. subst f.
  destruct (cobs_frame _ _ _ Ef) as (_ & _ & _ & Hl).
  cut (wp False (λ x : uc_err_t * uc_state, x.1 = UC_ERR_NONE ∧ (∃ h p d f, encoded (P := P) s tag proto flags h p d f ∧
                            sent (context x.2) = sent (context s) ++ f)
     ∨ x.1 = UC_ERR_WR_FAILED ∨ encode_error x.1)
    (uc_encode (P := P) tag proto n flags ([EvRx ack] :: waits) s)).
  { intros ([err s'] & E & H)%wp_total. eauto. }
  apply uc_encode_cases; try done.
  - intros h1 s1 Hk E. apply encode_payload_abort in E. rewrite Hk, Hgs in E.
    destruct E as [|(? & ? & pt & aad & no & ma & [= <- <-] & E)]; [done|]. by eapply Hge.
  - intros err s1 Hi1 Hm1 Hw1 Hc1 He. unfold encode_fail, _uc_put_msg_buffer. rewrite Hm1.
    cbn [ASSERT obind wr_mutex set_msg_mutex]. rewrite Hw1. cbn [ASSERT obind wp fst]. by right; right.
  - intros h1 p d f s1 He Htx.
    pose proof (transmit_acked s _ h h1 f ack waits s1 Htx H0 Ht Ef Hse) as Hx.
    specialize (Hx ltac:(lia) Hfl). rewrite Hak, Hseq, (encoded_seq _ _ _ _ _ _ _ _ He) in Hx.
    specialize (Hx ltac:(lia)). apply wp_total in Hx as ([err s2] & -> & Hx).
    cbn [wp fst snd] in *. destruct Hx as [[-> Hs2]| ->].
    + left. split; [done|]. by exists h1, p, d, f.
    + by right; left.
Qed.
End Ends.

(** ** A small instance *)

(** Framing by half bytes, so that a frame is easy to read. *)
Fixpoint nibbles (m : list Z) : list Z :=
  match m with [] => [] | b :: m => 1 + b / 16 :: 1 + b mod 16 :: nibbles m end.

Fixpoint unnibble (f : list Z) (acc : list Z) : option (list Z) :=
  match f with
  | [d] => if d =? 0 then Some acc else None
  | a :: b :: f => if (a =? 0) || (b =? 0) then None
                   else unnibble f (acc ++ [u8 ((a - 1) * 16 + (b - 1))])
  | [] => None
  end.

#[local] Instance demo_cobs : Cobs := {|
  cobs_encode cap parts :=
    let f := nibbles (concat parts) ++ [COBS_FRAME_DELIMITER] in
    if forallb is_byte (concat parts) && (zlen f <=? cap) then inr f
    else inl COBS_RET_ERR_EXHAUSTED;
  cobs_decode f out :=
    match unnibble f [] with
    | Some m => if zlen m <=? out then inr m else inl COBS_RET_ERR_EXHAUSTED
    | None => inl COBS_RET_ERR_BAD_PAYLOAD
    end;
|}.

#[local] Instance demo_proto : UcProto := {|
  enc_t := list Z; which_msg m := default 0 (head m); enc_proto_size := 8; dec_proto_size := 8;
  Uc.pb_encode m cap := if forallb is_byte m && (zlen m <=? 64) then Some m else None;
  Uc.pb_decode b := (true, ztake 8 (map u8 b ++ replicate 8 0));
  UC_HOST_MODE := true; UC_CFG_RD_BUFFER_SIZE := 888; UC_CFG_WR_BUFFER_SIZE := 704;
  fwpb_uxc_msg_host_display_cmd_tag := 99; fwpb_uxc_msg_device_display_action_tag := 98;
  fwpb_uxc_msg_device_display_touch_tag := 97; security_config_is_production := false;
|}.

#[local] Instance demo_serial : Serial (list Z) :=
  {| send_cb c d := (zlen d, c ++ d); sent c := c |}.

Lemma nibbles_spec m : bytes_ok m →
  (COBS_FRAME_DELIMITER ∉ nibbles m) ∧ bytes_ok (nibbles m) ∧
  ∀ acc, unnibble (nibbles m ++ [COBS_FRAME_DELIMITER]) acc = Some (acc ++ m).
Proof.
  unfold COBS_FRAME_DELIMITER. induction 1 as [|b m Hb Hm (IH1 & IH2 & IH3)]; simpl.
  { split_and!; [by apply not_elem_of_nil|constructor|]. intros acc. by rewrite app_nil_r. }
  unfold byte_ok in Hb.
  assert (0 ≤ b / 16 < 16) by (split; [apply Z.div_pos|apply Z.div_lt_upper_bound]; lia).
  pose proof (Z.mod_pos_bound b 16). split_and!.
  - rewrite !not_elem_of_cons. split_and!; [lia|lia|done].
  - constructor; [unfold byte_ok; lia|]. constructor; [unfold byte_ok; lia|done].
  - intros acc. rewrite (proj2 (Z.eqb_neq (1 + b / 16) 0)), (proj2 (Z.eqb_neq (1 + b mod 16) 0)) by lia.
    simpl. rewrite IH3, <- app_assoc. simpl. do 2 f_equal. f_equal.
    rewrite u8_small; [pose proof (Z.div_mod b 16); lia|pose proof (Z.div_mod b 16); lia].
Qed.

Lemma unnibble_bytes : ∀ f acc m, bytes_ok acc → unnibble f acc = Some m → bytes_ok m.
Proof.
  fix IH 1. intros [|a [|b f]] acc m Ha; simpl; [done| |].
  - destruct (_ =? 0); [|done]. by intros [= <-].
  - destruct (_ || _); [done|]. apply IH. apply Forall_app. split; [done|].
    constructor; [apply u8_byte|constructor].
Qed.

Lemma unnibble_inner : ∀ a b acc,
  unnibble (a ++ COBS_FRAME_DELIMITER :: b ++ [COBS_FRAME_DELIMITER]) acc = None.
Proof.
  fix IH 1. intros [|x [|y a]] b acc; simpl; [|by rewrite orb_true_r|by destruct (_ || _)].
  destruct (b ++ [COBS_FRAME_DELIMITER]) eqn:E; [by destruct b|done].
Qed.

#[local] Instance demo_cobs_laws : CobsLaws demo_cobs.
Proof.
  assert (∀ cap parts f, cobs_encode cap parts = inr f →
    f = nibbles (concat parts) ++ [COBS_FRAME_DELIMITER] ∧ bytes_ok (concat parts) ∧ zlen f ≤ cap) as Henc.
  { intros cap parts f. cbn. destruct (forallb _ _) eqn:Eb; [|done]. destruct (_ <=? _) eqn:El; [|done].
    intros [= <-]. split_and!; [done|by apply is_byte_ok|lia]. }
  split.
  - intros cap parts f (-> & Hb & Hl)%Henc. eexists. split_and!; [done|by apply nibbles_spec|done].
  - intros cap parts f (-> & Hb & Hl)%Henc _. apply bytes_ok_app; [by apply nibbles_spec|].
    constructor; [unfold byte_ok, COBS_FRAME_DELIMITER; lia|constructor].
  - intros cap parts f out (-> & Hb & _)%Henc Hl. cbn.
    destruct (nibbles_spec _ Hb) as (_ & _ & ->). cbn. by rewrite (proj2 (Z.leb_le _ _)).
  - intros f out m. cbn. destruct (unnibble f []) as [m'|]; [|done].
    destruct (_ <=? _) eqn:El; [|done]. intros [= <-]. lia.
  - intros f out m _. cbn. destruct (unnibble f []) as [m'|] eqn:E; [|done].
    destruct (_ <=? _); [|done]. intros [= <-]. by eapply unnibble_bytes, E; constructor.
  - intros a b out Ha. cbn. by rewrite unnibble_inner.
  - intros cap parts. cbn. by destruct (_ && _).
Qed.

#[local] Instance demo_proto_laws : UcProtoLaws demo_proto.
Proof.
  split; cbn; [lia|lia| |].
  - intros m cap b. destruct (forallb _ _) eqn:Eb; [|done]. destruct (_ <=? _) eqn:El; [|done].
    intros [= <-]. split; [lia|by apply is_byte_ok].
  - intros b. split.
    + rewrite zlen_ztake; [done|]. unfold zlen. rewrite length_app. simpl. lia.
    + apply Forall_take, Forall_app. split; [|repeat constructor; unfold byte_ok; lia].
      apply Forall_map, Forall_true. intros. apply u8_byte.
Qed.

#[local] Instance demo_serial_laws : SerialLaws (list Z).
Proof.
  split; cbn; intros c d; [apply zlen_nonneg|]. by rewrite Z.min_id, ztake_all.
Qed.

(** Two processors after start-up, the second with a task registered for tag 5;
    [demo_tx] has sent its first message. *)
Abbreviation demo_state := (uc_state_priv_t count_timer unit (list Z)).
Definition demo_init : demo_state := uc_init 1000 tt [].
Definition demo_rx : demo_state :=
  set_registrations (mk_reg 5 1 true :: replicate 16 (mk_reg 0 0 false)) demo_init.
Definition demo_tx : demo_state := set_send_seq_num 7 (set_sent_first_msg true demo_init).

Lemma demo_rest : at_rest demo_init ∧ at_rest demo_tx ∧ rx_ready demo_rx.
Proof.
  pose proof (uc_init_at_rest (T := count_timer) (C := list Z) 1000 tt []) as Hs. split_and!; [done|..].
  - destruct Hs as (Hi & Hm & Hw). split_and!; [|done|done]. inv_set.
  - destruct Hs as (Hi & Hm & Hw). split; [inv_set|done|by eexists|done].
Qed.

Lemma uc_session_invariant_witness :
  safe at_rest (link_run [OpSend 5 [5; 6; 7] 0 [[EvRx [1; 2; 0]; EvTick 200]]; OpEvent (EvRx [4; 0; 0]);
                          OpEvent EvIdle; OpAck] demo_init)
  ∧ match link_run [OpSend 5 [5; 6; 7] 0 [[EvRx [1; 2; 0]; EvTick 200]]; OpEvent (EvRx [4; 0; 0]);
                    OpEvent EvIdle; OpAck] demo_init with Done _ => true | _ => false end = true.
Proof.
  split; [|vm_compute; reflexivity].
  apply (uc_session_invariant (T := count_timer) (C := list Z) _ 1000 tt []).
  repeat constructor; unfold byte_ok; lia.
Defined.

Definition demo_msg : enc_t (UcProto := demo_proto) := [5; 6; 7].

(** Computing to the end: the error, and the state. *)
Definition result {A} (d : A) (o : outcome A) : A := match o with Done a => a | _ => d end.
Definition demo_send : uc_err_t * demo_state :=
  result (UC_ERR_NONE, demo_tx) (uc_encode 5 demo_msg 8 0 [] demo_tx).

Lemma demo_send_done :
  uc_encode 5 demo_msg 8 0 [] demo_tx = Done demo_send ∧ demo_send.1 = UC_ERR_MAX_RETRANSMITS.
Proof. split; vm_compute; reflexivity. Qed.

Lemma uc_send_bounded_witness :
  demo_send.1 = UC_ERR_MAX_RETRANSMITS ∧ at_rest demo_send.2.
Proof.
  pose proof (uc_send_bounded 5 demo_msg 8 0 [] demo_tx (proj1 (proj2 demo_rest)) ltac:(lia) ltac:(lia)
                (or_introl eq_refl) (List.Forall_nil _)) as H.
  rewrite (proj1 demo_send_done) in H. split; [exact (proj2 demo_send_done)|].
  destruct demo_send as [err s']. exact (proj1 H).
Defined.

Lemma demo_ready : link_ready demo_proto demo_proto demo_tx demo_rx 5 demo_msg [5; 6; 7; 0; 0; 0; 0; 0] 1 1000.
Proof.
  destruct demo_rest as (_ & Ht & Hr). split; try done.
  - intros cap d. cbn. by intros [= <-].
  - by eexists.
Qed.

Lemma uc_exactly_once_witness :
  ∃ line r', sent (context demo_send.2) = sent (context demo_tx) ++ line ∧
    uc_handle_data line demo_rx = Done r' ∧ rx_ready r' ∧
    inbox r' = inbox demo_rx ++ [(1, 1000, [5; 6; 7; 0; 0; 0; 0; 0])] ∧
    recv_seq_num r' = next_send_seq (send_seq_num demo_tx).
Proof.
  apply (uc_exactly_once demo_proto demo_proto (λ t, ltac:(by eexists)) (λ t d, ltac:(by eexists))
           ltac:(cbn; lia) demo_tx demo_rx 5 demo_msg _ 1 1000 8 0 [] demo_send.1 demo_send.2 demo_ready
           ltac:(lia) (or_introl eq_refl) (List.Forall_nil _)).
  - rewrite (proj1 demo_send_done). by destruct demo_send.
  - right. exact (proj2 demo_send_done).
Defined.

(** The receiver after the message, and its acknowledgement. *)
Definition demo_got : demo_state := set_recv_seq_num 8 demo_rx.
Definition demo_acked : uc_err_t * demo_state := result (UC_ERR_NONE, demo_got) (uc_ack demo_got).

Lemma uc_acknowledged_witness :
  ∃ err s', uc_encode 5 demo_msg 8 0 [[EvRx (context demo_acked.2)]] demo_tx = Done (err, s') ∧
    (err = UC_ERR_NONE ∧ (∃ h p d f, encoded demo_tx 5 demo_msg 0 h p d f ∧
                            sent (context s') = sent (context demo_tx) ++ f)
     ∨ err = UC_ERR_WR_FAILED ∨ encode_error err).
Proof.
  apply (uc_acknowledged demo_proto demo_proto demo_tx demo_got demo_acked.2).
  - exact (proj1 (proj2 demo_rest)).
  - reflexivity.
  - by eexists.
  - lia.
  - lia.
  - by left.
  - exists 0, tt. done.
  - unfold UC_COBS_WR_ENC_BUFFER_SIZE, UC_COBS_RD_ENC_BUFFER_SIZE. vm_compute. discriminate.
  - pose proof (ready_inv _ (proj2 (proj2 demo_rest))). inv_set.
  - by eexists.
  - reflexivity.
  - vm_compute. reflexivity.
  - reflexivity.
Defined.

Definition demo_hdr : uc_msg_hdr_t :=
  let h := mk_hdr 5 8 0 0 UC_MSG_HDR_FLAGS_ACK 0 3 in set_hdr_crc (wire_crc h [5; 6; 7]) h.
Definition demo_bad_frame : list Z :=
  nibbles (hdr_bytes demo_hdr ++ [5; 9; 7]) ++ [COBS_FRAME_DELIMITER].

Lemma demo_sealed : sealed demo_hdr [5; 6; 7].
Proof.
  split; [split; vm_compute; intuition discriminate|vm_compute; reflexivity..| |vm_compute; discriminate].
  repeat constructor; unfold byte_ok; lia.
Qed.

Lemma uc_corruption_detected_witness :
  ∃ s', uc_decode _uc_on_proto (demo_bad_frame ++ []) demo_rx = Done (UC_ERR_CRC_MISMATCH, [], s') ∧
    inbox s' = inbox demo_rx ∧ recv_seq_num s' = recv_seq_num demo_rx ∧
    ack_events s' = ack_events demo_rx ∧ crypto s' = crypto demo_rx ∧ mempool s' = mempool demo_rx ∧
    msg_mutex s' = false ∧ tx_side s' = tx_side demo_rx.
Proof.
  apply (uc_corruption_detected 2000 [hdr_bytes demo_hdr ++ [5; 9; 7]] demo_bad_frame demo_hdr [5] 6 7 [] 9 7 []
           demo_rx (ready_inv _ (proj2 (proj2 demo_rest))) eq_refl eq_refl demo_sealed).
  - unfold byte_ok. lia.
  - unfold byte_ok. lia.
  - intros E. discriminate E.
  - vm_compute. reflexivity.
  - apply app_nil_r.
  - vm_compute. discriminate.
Defined.

(** ** Behaviours of the code worth knowing *)

(** The frame that a processor which has sent nothing yet sends for [demo_msg]. *)
Definition first_frame : list Z :=
  let line := context (result (UC_ERR_NONE, demo_init) (uc_encode 5 demo_msg 8 0 [] demo_init)).2 in
  take (length line / 3) line.
Definition next_frame : list Z :=
  let line := context demo_send.2 in take (length line / 3) line.

(** The first message of a session, sent again because its acknowledgement was
    lost, is delivered again: the FIRST_MSG flag with number 1 resets the
    receiver's number on every copy. *)
Lemma first_message_repeats :
  length (inbox (result demo_rx (uc_handle_data (first_frame ++ first_frame) demo_rx))) = 2%nat
  ∧ length (inbox (result demo_rx (uc_handle_data (next_frame ++ next_frame) demo_rx))) = 1%nat.
Proof. split; vm_compute; reflexivity. Qed.

(** A pure ACK uses up a number that the receiver does not record. After 254 of
    them the next message has the number of the last one: the receiver drops it
    as a repetition and acknowledges it, and the send succeeds. *)
Lemma acks_use_up_numbers :
  let one_ack s := (result (UC_ERR_NONE, s) (uc_ack s)).2 in
  let s := Nat.iter 254 one_ack demo_send.2 in
  let got := result demo_rx (uc_handle_data next_frame demo_rx) in
  let next := skipn (length (context s)) (context (result (UC_ERR_NONE, s) (uc_encode 5 [1; 2; 3] 8 0 [] s)).2) in
  let ack := context (result (UC_ERR_NONE, got) (uc_ack got)).2 in
  length (inbox got) = 1%nat
  ∧ length (inbox (result demo_rx (uc_handle_data next got))) = 1%nat
  ∧ (result (UC_ERR_MAX_RETRANSMITS, s) (uc_encode 5 [1; 2; 3] 8 0 [[EvRx ack]] s)).1 = UC_ERR_NONE.
Proof. vm_compute. done. Qed.

(** A processor that refuses a frame keeps its bytes in the read buffer: the
    next frame, although intact, is lost. *)
Lemma frame_after_error_is_lost :
  length (inbox (result demo_rx (uc_handle_data (demo_bad_frame ++ next_frame) demo_rx))) = 0%nat
  ∧ length (inbox (result demo_rx (uc_handle_data (demo_bad_frame ++ next_frame ++ next_frame) demo_rx)))
    = 1%nat.
Proof. split; vm_compute; reflexivity. Qed.

(** The numbers of messages are compared without regard to their wrapping: the
    acknowledgement of message 255 is taken for that of message 1. *)
Lemma stale_ack_accepted :
  (result (UC_ERR_MAX_RETRANSMITS, demo_tx)
     (uc_encode 5 demo_msg 8 0
        [[EvRx (context (result (UC_ERR_NONE, demo_rx) (uc_ack (set_recv_seq_num 255 demo_rx))).2)]]
        (set_send_seq_num 255 demo_tx))).1 = UC_ERR_NONE
  ∧ next_send_seq 255 = 1.
Proof. split; vm_compute; reflexivity. Qed.

(** Two processors that send at the same time: each holds its write lock, so
    neither acknowledges the other, and both sends fail although both messages
    arrive. *)
Lemma crossing_sends_fail :
  let busy := [EvRx next_frame; EvTick 200; EvIdle] in
  let r := result (UC_ERR_NONE, demo_rx) (uc_encode 5 demo_msg 8 0 [busy; busy; busy]
             (set_sent_first_msg true (set_send_seq_num 7 demo_rx))) in
  r.1 = UC_ERR_MAX_RETRANSMITS ∧ length (inbox r.2) = 1%nat.
Proof. split; vm_compute; reflexivity. Qed.

(** Where the messages sent are at least as large as those received, received
    messages take their memory from the blocks for sending: with one received
    message not freed, the fourth message to send stops the processor. *)
Lemma received_messages_take_send_memory :
  (let! s := uc_handle_data next_frame demo_rx in
   let! '(_, s) := uc_alloc_send_proto s in
   let! '(_, s) := uc_alloc_send_proto s in
   let! '(_, s) := uc_alloc_send_proto s in
   uc_alloc_send_proto s) = Abort.
Proof. vm_compute. reflexivity. Qed.

(** A line that stays busy without a delimiter stops the receiver. *)
Lemma undelimited_input_asserts :
  uc_handle_data (replicate 960 1) demo_rx = Abort.
Proof. vm_compute. reflexivity. Qed.
