(* ===== verification/SecChan.v ===== *)
(** * The secure channels (lib/secure-channel, lib/crypto/src/key_exchange.c)

    secure_channel_common.c, secure_channel_uart.c, secure_channel_nfc.c and
    key_exchange.c: X25519 key agreement, session keys for the two directions,
    key confirmation, signatures over the exchange with the pinned
    certificates, AES-GCM under the session keys and the replay counters; and
    the handlers of the two key manager tasks that run the handshake between
    the processors.

    The cryptographic primitives are the class [ScCrypto], the certificate store
    (secure_channel_cert_common.c) the class [ScCerts]. Every function of the
    channel runs inside the critical section of its lock. *)

From stdpp Require Import strings.
From S2P Require Import Prelude Wstring Uc.
#[local] Open Scope list_scope.
#[local] Open Scope Z_scope.

(** ** Data *)

Inductive secure_channel_err_t :=
| SECURE_CHANNEL_OK
| SECURE_CHANNEL_NO_KEY
| SECURE_CHANNEL_FAILED_TO_DERIVE_KEY
| SECURE_CHANNEL_CIPHER_FAILED
| SECURE_CHANNEL_CONFIRMATION_FAILED
| SECURE_CHANNEL_VERIFY_FAILED
| SECURE_CHANNEL_ERROR_NO_CONFIRMATION
| SECURE_CHANNEL_ERROR_PARAMS
| SECURE_CHANNEL_ERROR_READ_CERT.

#[export] Instance sc_err_dec : EqDecision secure_channel_err_t.
Proof. solve_decision. Defined.

Inductive secure_channel_type_t :=
| SECURE_CHANNEL_NONE
| SECURE_NFC_CHANNEL_CORE
| SECURE_UART_CHANNEL_UXC
| SECURE_UART_CHANNEL_CORE.

#[export] Instance sc_type_dec : EqDecision secure_channel_type_t.
Proof. solve_decision. Defined.

Inductive key_purpose_t := KEY_PURPOSE_SEND | KEY_PURPOSE_RECV | KEY_PURPOSE_CONF.

Definition EC_PUBKEY_SIZE_X25519 : Z := 32.
Definition EC_PRIVKEY_SIZE_X25519 : Z := 32.
Definition ECC_SIG_SIZE : Z := 64.
Definition CRYPTO_SERIAL_SIZE : Z := 8.
Definition SECURE_CHANNEL_PUBKEY_MAX_LEN : Z := 64.
Definition SECURE_CHANNEL_KEY_CONFIRMATION_TAG_LEN : Z := 16.
Definition SECURE_CHANNEL_PROTOCOL_VERSION : Z := 1.
Definition SECURE_CHANNEL_PROTOCOL_MIN_VERSION : Z := 1.
Definition UINT32_MAX : Z := 4294967295.

Definition zeros (n : Z) : list Z := replicate (Z.to_nat n) 0.

(** The characters of a label. *)
Definition label (s : string) : list Z :=
  map (λ c, Z.of_N (Ascii.N_of_ascii c)) (String.list_ascii_of_string s).

Definition CORE_TO_HOST_CONFIRM : list Z := label "KEYCONFIRM-V1".
Definition UXC_TO_CORE_CONFIRM : list Z := label "UART-UXC-CONFIRM-V1".
Definition CORE_TO_UXC_CONFIRM : list Z := label "UART-CORE-CONFIRM-V1".
Definition KEY_EXCHANGE_DERIVATION_SENDING_LABEL : list Z := label "BK2HOST".
Definition KEY_EXCHANGE_DERIVATION_RECEIVING_LABEL : list Z := label "HOST2BK".
Definition KEY_EXCHANGE_DERIVATION_CONFIRMATION_LABEL : list Z := label "CONFIRM".
Definition KEY_EXCHANGE_SIGNATURE_LABEL : list Z := label "KEYEXCHANGE-V1".
Definition SC_CERT_UXC_ID : string := "w3_uxc_id".
Definition SC_CERT_CORE_ID : string := "w3_core_id".

Definition secure_channel_protocol_version_supported (v : Z) : bool :=
  SECURE_CHANNEL_PROTOCOL_MIN_VERSION <=? v.

(** ** What lies outside of the component *)

(** The primitives of lib/crypto; [E] is the state of the secure element. A call
    that returns false is [None]. *)
Class ScCrypto (E : Type) := {
  x25519_generate_key : E → option (list Z) * E;
  x25519_export_pubkey : list Z → option (list Z);
  crypto_ecc_compute_shared_secret : list Z → list Z → option (list Z);
  crypto_hkdf : list Z → list Z → option (list Z);           (* secret, label *)
  crypto_hmac : list Z → list Z → option (list Z);           (* key, message *)
  sc_hash : list Z → option (list Z);
  sc_random : E → Z → option (list Z) * E;
  sc_gcm_encrypt : list Z → list Z → list Z → list Z → option (list Z * list Z); (* key, in, nonce, aad *)
  sc_gcm_decrypt : list Z → list Z → list Z → list Z → list Z → option (list Z); (* ..., mac *)
  crypto_read_serial : option (list Z);
  crypto_sign_with_device_identity : list Z → option (list Z);
  sc_is_production : bool;                                   (* security_config.is_production *)
}.

(** secure_channel_cert.h: the local certificate's key signs, a pinned
    certificate verifies; [F] is the state of the certificate store. *)
Class ScCerts (F : Type) := {
  cert_t : Type;
  secure_channel_read_cert : F → string → outcome (option cert_t * F);
  secure_channel_sign_digest : F → list Z → outcome (option (list Z) * F);
  secure_channel_verify_digest : cert_t → list Z → list Z → bool;
}.

(** ** State *)

Record secure_channel_ctx_t := mk_sc {
  channel_type : secure_channel_type_t;
  send_key_buf : list Z;
  recv_key_buf : list Z;
  conf_key_buf : list Z;
  established : secure_bool_t;
}.

Definition set_keys (send recv conf : list Z) (c : secure_channel_ctx_t) : secure_channel_ctx_t :=
  mk_sc (channel_type c) send recv conf (established c).
Definition set_established (b : secure_bool_t) (c : secure_channel_ctx_t) : secure_channel_ctx_t :=
  mk_sc (channel_type c) (send_key_buf c) (recv_key_buf c) (conf_key_buf c) b.

Definition sc_ctx_boot (t : secure_channel_type_t) : secure_channel_ctx_t :=
  mk_sc t (zeros AES_256_LENGTH_BYTES) (zeros AES_256_LENGTH_BYTES) (zeros AES_256_LENGTH_BYTES)
    SECURE_FALSE.

(** [uxc_channel_local_state]. *)
Record uxc_channel_t := mk_local {
  privkey_buf : list Z;
  pubkey_buf : list Z;
  peer_pubkey_buf : list Z;
  recv_sequence_number : Z;
  send_sequence_number : Z;
  have_keys : secure_bool_t;
  confirmed : secure_bool_t;
}.

Definition set_privkey v l := mk_local v (pubkey_buf l) (peer_pubkey_buf l) (recv_sequence_number l)
  (send_sequence_number l) (have_keys l) (confirmed l).
Definition set_pubkey v l := mk_local (privkey_buf l) v (peer_pubkey_buf l) (recv_sequence_number l)
  (send_sequence_number l) (have_keys l) (confirmed l).
Definition set_peer_pubkey v l := mk_local (privkey_buf l) (pubkey_buf l) v (recv_sequence_number l)
  (send_sequence_number l) (have_keys l) (confirmed l).
Definition set_recv_sequence_number v l := mk_local (privkey_buf l) (pubkey_buf l) (peer_pubkey_buf l)
  v (send_sequence_number l) (have_keys l) (confirmed l).
Definition set_send_sequence_number v l := mk_local (privkey_buf l) (pubkey_buf l) (peer_pubkey_buf l)
  (recv_sequence_number l) v (have_keys l) (confirmed l).
Definition set_have_keys v l := mk_local (privkey_buf l) (pubkey_buf l) (peer_pubkey_buf l)
  (recv_sequence_number l) (send_sequence_number l) v (confirmed l).
Definition set_confirmed v l := mk_local (privkey_buf l) (pubkey_buf l) (peer_pubkey_buf l)
  (recv_sequence_number l) (send_sequence_number l) (have_keys l) v.

Definition local_boot : uxc_channel_t :=
  mk_local (zeros EC_PRIVKEY_SIZE_X25519) (zeros EC_PUBKEY_SIZE_X25519) (zeros EC_PUBKEY_SIZE_X25519)
    0 0 SECURE_FALSE SECURE_FALSE.

(** The channel of one processor, with what it calls; [secure_comms] is
    [SYSEVENT_UXC_SECURE_COMMS_ESTABLISHED]. *)
Record uart_channel {E F : Type} := mk_uart {
  sc_ctx : secure_channel_ctx_t;
  local : uxc_channel_t;
  se : E;
  certs : F;
  secure_comms : bool;
}.
Arguments uart_channel : clear implicits.

Section Setters.
Context {E F : Type}.
Implicit Types (u : uart_channel E F).
Definition set_ctx v u := @mk_uart E F v (local u) (se u) (certs u) (secure_comms u).
Definition set_local v u := @mk_uart E F (sc_ctx u) v (se u) (certs u) (secure_comms u).
Definition set_se v u := @mk_uart E F (sc_ctx u) (local u) v (certs u) (secure_comms u).
Definition set_certs v u := @mk_uart E F (sc_ctx u) (local u) (se u) v (secure_comms u).
Definition set_secure_comms v u := @mk_uart E F (sc_ctx u) (local u) (se u) (certs u) v.
End Setters.

(** ** Key exchange (key_exchange.c) *)

Section SecChan.
Context {E F : Type} `{!ScCrypto E, !ScCerts F}.
Abbreviation channel := (uart_channel E F).

Definition prepare_label (purpose : key_purpose_t) (use_sn : bool) : option (list Z) :=
  let prefix := match purpose with
                | KEY_PURPOSE_SEND => KEY_EXCHANGE_DERIVATION_SENDING_LABEL
                | KEY_PURPOSE_RECV => KEY_EXCHANGE_DERIVATION_RECEIVING_LABEL
                | KEY_PURPOSE_CONF => KEY_EXCHANGE_DERIVATION_CONFIRMATION_LABEL
                end in
  if use_sn then serial ← crypto_read_serial; Some (prefix ++ serial)
  else Some (prefix ++ zeros CRYPTO_SERIAL_SIZE).

Definition derive_key_with_purpose (purpose : key_purpose_t) (use_sn : bool) (shared_secret : list Z)
    : option (list Z) :=
  l ← prepare_label purpose use_sn; crypto_hkdf shared_secret l.

(** The three keys and the signature, if one is asked for ([with_sig]). [None]:
    the key buffers of the caller are zeroed. *)
Definition crypto_key_exchange (pk_peer sk_us pk_us : list Z) (with_sig use_sn : bool)
    : outcome (option (list Z * list Z * list Z * list Z)) :=
  let! _ := ASSERT (zlen pk_peer =? EC_PUBKEY_SIZE_X25519) in
  let! _ := ASSERT (zlen pk_us =? EC_PUBKEY_SIZE_X25519) in
  let! _ := ASSERT (zlen sk_us =? EC_PRIVKEY_SIZE_X25519) in
  Done (secret ← crypto_ecc_compute_shared_secret sk_us pk_peer;
        send_key ← derive_key_with_purpose KEY_PURPOSE_SEND use_sn secret;
        recv_key ← derive_key_with_purpose KEY_PURPOSE_RECV use_sn secret;
        conf_key ← derive_key_with_purpose KEY_PURPOSE_CONF use_sn secret;
        exchange_sig ← (if with_sig : bool
                        then crypto_sign_with_device_identity
                               (KEY_EXCHANGE_SIGNATURE_LABEL ++ pk_us ++ pk_peer)
                        else Some []);
        Some (send_key, recv_key, conf_key, exchange_sig)).

(** ** Common to the channels (secure_channel_common.c) *)

Definition confirmation_message_from_type (t : secure_channel_type_t) : outcome (list Z) :=
  match t with
  | SECURE_NFC_CHANNEL_CORE => Done CORE_TO_HOST_CONFIRM
  | SECURE_UART_CHANNEL_UXC => Done UXC_TO_CORE_CONFIRM
  | SECURE_UART_CHANNEL_CORE => Done CORE_TO_UXC_CONFIRM
  | SECURE_CHANNEL_NONE => Abort
  end.

Definition secure_channel_compute_confirmation (t : secure_channel_type_t) (conf_key : list Z)
    : outcome (secure_channel_err_t + list Z) :=
  let! _ := ASSERT (bool_decide (t ≠ SECURE_CHANNEL_NONE)) in
  let! message := confirmation_message_from_type t in
  match crypto_hmac conf_key message with
  | None => Done (inl SECURE_CHANNEL_FAILED_TO_DERIVE_KEY)
  | Some hmac_result =>
      let! tag := mread hmac_result 0 SECURE_CHANNEL_KEY_CONFIRMATION_TAG_LEN in Done (inr tag)
  end.

(** Send and receive keys are from the perspective of core: reversed on UXC. *)
Definition store_keys (send_key recv_key conf_key : list Z) (c : secure_channel_ctx_t)
    : outcome secure_channel_ctx_t :=
  match channel_type c with
  | SECURE_UART_CHANNEL_CORE | SECURE_NFC_CHANNEL_CORE => Done (set_keys send_key recv_key conf_key c)
  | SECURE_UART_CHANNEL_UXC => Done (set_keys recv_key send_key conf_key c)
  | SECURE_CHANNEL_NONE => Abort
  end.

Definition secure_channel_establish_impl (c : secure_channel_ctx_t) (pk_host sk_device pk_device : list Z)
    (with_sig : bool) : outcome (secure_channel_err_t * list Z * secure_channel_ctx_t) :=
  let c := set_established SECURE_FALSE
             (set_keys (zeros AES_256_LENGTH_BYTES) (zeros AES_256_LENGTH_BYTES) (conf_key_buf c) c) in
  if SECURE_CHANNEL_PUBKEY_MAX_LEN <? zlen pk_device
  then Done (SECURE_CHANNEL_FAILED_TO_DERIVE_KEY, [], c)
  else
    let use_sn := bool_decide (channel_type c = SECURE_NFC_CHANNEL_CORE) in
    let! _ := ASSERT (bool_decide (channel_type c ≠ SECURE_CHANNEL_NONE)) in
    let! keys := crypto_key_exchange pk_host sk_device pk_device with_sig use_sn in
    match keys with
    | None =>
        let! c := store_keys (zeros AES_256_LENGTH_BYTES) (zeros AES_256_LENGTH_BYTES)
                    (zeros AES_256_LENGTH_BYTES) c in
        Done (SECURE_CHANNEL_FAILED_TO_DERIVE_KEY, [], c)
    | Some (send_key, recv_key, conf_key, exchange_sig) =>
        let! c := store_keys send_key recv_key conf_key c in
        Done (SECURE_CHANNEL_OK, exchange_sig, set_established SECURE_TRUE c)
    end.

(** [secure_channel_cipher] for its two operations. *)
Definition cipher_encrypt (c : secure_channel_ctx_t) (data_in aad : list Z) (e : E)
    : (secure_channel_err_t + list Z * list Z * list Z) * E :=
  if negb (established c =? SECURE_TRUE) then (inl SECURE_CHANNEL_NO_KEY, e)
  else
    match sc_random e AES_GCM_IV_LENGTH with
    | (None, e) => (inl SECURE_CHANNEL_CIPHER_FAILED, e)
    | (Some nonce, e) =>
        match sc_gcm_encrypt (send_key_buf c) data_in nonce aad with
        | None => (inl SECURE_CHANNEL_CIPHER_FAILED, e)
        | Some (data_out, mac) => (inr (data_out, nonce, mac), e)
        end
    end.

Definition cipher_decrypt (c : secure_channel_ctx_t) (data_in aad nonce mac : list Z)
    : secure_channel_err_t + list Z :=
  if negb (established c =? SECURE_TRUE) then inl SECURE_CHANNEL_NO_KEY
  else
    match sc_gcm_decrypt (recv_key_buf c) data_in nonce aad mac with
    | None => inl SECURE_CHANNEL_CIPHER_FAILED
    | Some data_out => inr data_out
    end.

(** ** The channel between the processors (secure_channel_uart.c) *)

Definition _secure_uart_sign (pk_device pk_peer : list Z) (f : F)
    : outcome ((secure_channel_err_t + list Z) * F) :=
  let! _ := ASSERT (zlen pk_device =? EC_PUBKEY_SIZE_X25519) in
  let! _ := ASSERT (zlen pk_peer =? EC_PUBKEY_SIZE_X25519) in
  match sc_hash (pk_device ++ pk_peer) with
  | None => Done (inl SECURE_CHANNEL_CIPHER_FAILED, f)
  | Some digest =>
      let! '(r, f) := secure_channel_sign_digest f digest in
      match r with
      | None => Done (inl SECURE_CHANNEL_CIPHER_FAILED, f)
      | Some exchange_sig => Done (inr exchange_sig, f)
      end
  end.

Definition _secure_uart_verify (t : secure_channel_type_t) (pk_device pk_peer exchange_sig : list Z)
    (f : F) : outcome (secure_channel_err_t * F) :=
  let! _ := ASSERT (zlen pk_device =? EC_PUBKEY_SIZE_X25519) in
  let! _ := ASSERT (zlen pk_peer =? EC_PUBKEY_SIZE_X25519) in
  match sc_hash (pk_peer ++ pk_device) with
  | None => Done (SECURE_CHANNEL_CIPHER_FAILED, f)
  | Some digest =>
      match t with
      | SECURE_CHANNEL_NONE | SECURE_NFC_CHANNEL_CORE => Done (SECURE_CHANNEL_ERROR_PARAMS, f)
      | SECURE_UART_CHANNEL_CORE | SECURE_UART_CHANNEL_UXC =>
          let cert_id := if bool_decide (t = SECURE_UART_CHANNEL_CORE) then SC_CERT_UXC_ID
                         else SC_CERT_CORE_ID in
          let! '(verify_cert, f) := secure_channel_read_cert f cert_id in
          match verify_cert with
          | None =>
              Done (if sc_is_production then SECURE_CHANNEL_ERROR_READ_CERT else SECURE_CHANNEL_OK, f)
          | Some cert =>
              if negb (secure_channel_verify_digest cert digest exchange_sig) && sc_is_production
              then Done (SECURE_CHANNEL_VERIFY_FAILED, f)
              else Done (SECURE_CHANNEL_OK, f)
          end
      end
  end.

Definition secure_uart_channel_init (t : secure_channel_type_t) (u : channel) : outcome channel :=
  let! _ := ASSERT (bool_decide (t = SECURE_UART_CHANNEL_CORE ∨ t = SECURE_UART_CHANNEL_UXC)) in
  let c := sc_ctx u in
  Done (set_ctx (mk_sc t (send_key_buf c) (recv_key_buf c) (conf_key_buf c) (established c)) u).

Definition typed (u : channel) : outcome unit :=
  ASSERT (bool_decide (channel_type (sc_ctx u) ≠ SECURE_CHANNEL_NONE)).

Definition secure_uart_channel_reset_session (u : channel) : outcome channel :=
  let! _ := typed u in
  Done (set_secure_comms false
          (set_local local_boot
             (set_ctx (sc_ctx_boot (channel_type (sc_ctx u))) u))).

Definition secure_uart_channel_confirmed (u : channel) : bool :=
  if bool_decide (channel_type (sc_ctx u) = SECURE_CHANNEL_NONE) then false
  else confirmed (local u) =? SECURE_TRUE.

(** The received tag was made with the peer's channel type. *)
Definition peer_type (t : secure_channel_type_t) : secure_channel_type_t :=
  if bool_decide (t = SECURE_UART_CHANNEL_UXC) then SECURE_UART_CHANNEL_CORE
  else SECURE_UART_CHANNEL_UXC.

Definition secure_uart_channel_confirm_session (received_tag exchange_sig : list Z) (u : channel)
    : outcome (secure_channel_err_t * channel) :=
  let! _ := typed u in
  let t := channel_type (sc_ctx u) in
  let! r := secure_channel_compute_confirmation (peer_type t) (conf_key_buf (sc_ctx u)) in
  match r with
  | inl ret => Done (ret, u)
  | inr expected_tag =>
      let! cmp := memcmp_s expected_tag received_tag SECURE_CHANNEL_KEY_CONFIRMATION_TAG_LEN in
      if negb (cmp =? 0) then Done (SECURE_CHANNEL_CONFIRMATION_FAILED, u)
      else
        let l := local u in
        let! '(verify_ret, f) := _secure_uart_verify t (pubkey_buf l) (peer_pubkey_buf l) exchange_sig
                                   (certs u) in
        let u := set_certs f u in
        if bool_decide (verify_ret ≠ SECURE_CHANNEL_OK) then Done (SECURE_CHANNEL_VERIFY_FAILED, u)
        else
          let l := if confirmed l =? SECURE_FALSE
                   then set_send_sequence_number 0 (set_recv_sequence_number 0 (set_confirmed SECURE_TRUE l))
                   else l in
          let u := set_local l u in
          if negb (confirmed l =? SECURE_TRUE) then Done (SECURE_CHANNEL_CONFIRMATION_FAILED, u)
          else Done (SECURE_CHANNEL_OK, set_secure_comms true u)
  end.

Definition init_keys (u : channel) : secure_channel_err_t * channel :=
  if negb (have_keys (local u) =? SECURE_TRUE) then
    match x25519_generate_key (se u) with
    | (None, e) => (SECURE_CHANNEL_FAILED_TO_DERIVE_KEY, set_se e u)
    | (Some sk, e) =>
        let u := set_local (set_privkey sk (local u)) (set_se e u) in
        match x25519_export_pubkey sk with
        | None => (SECURE_CHANNEL_FAILED_TO_DERIVE_KEY,
                   set_local (set_privkey (zeros EC_PRIVKEY_SIZE_X25519) (local u)) u)
        | Some pk => (SECURE_CHANNEL_OK,
                      set_local (set_have_keys SECURE_TRUE (set_pubkey pk (local u))) u)
        end
    end
  else (SECURE_CHANNEL_OK, u).

(** [len] is the room for the public key. *)
Definition secure_uart_channel_public_key_init (len : Z) (u : channel)
    : outcome ((secure_channel_err_t + list Z) * channel) :=
  let! _ := typed u in
  let! _ := ASSERT (EC_PUBKEY_SIZE_X25519 <=? len) in
  let '(err, u) := init_keys u in
  Done (if bool_decide (err = SECURE_CHANNEL_OK) then inr (pubkey_buf (local u)) else inl err, u).

(** Our public key, the signature over the exchange and the confirmation tag.
    Both callers pass buffers of [ECC_SIG_SIZE] bytes for the signature and of
    at least [EC_PUBKEY_SIZE_X25519] for the key. *)
Definition secure_uart_channel_establish (pk_peer : list Z) (u : channel)
    : outcome ((secure_channel_err_t + list Z * list Z * list Z) * channel) :=
  let! _ := typed u in
  if negb (zlen pk_peer =? EC_PUBKEY_SIZE_X25519) then Done (inl SECURE_CHANNEL_ERROR_PARAMS, u)
  else
    let u := set_local (set_confirmed SECURE_FALSE (local u)) u in
    let '(ret, u) := init_keys u in
    if bool_decide (ret ≠ SECURE_CHANNEL_OK) then Done (inl ret, u)
    else
      let! '(ret, _, c) := secure_channel_establish_impl (sc_ctx u) pk_peer (privkey_buf (local u))
                             (pubkey_buf (local u)) false in
      let u := set_local (set_have_keys SECURE_FALSE
                            (set_privkey (zeros EC_PRIVKEY_SIZE_X25519) (local u))) (set_ctx c u) in
      if bool_decide (ret ≠ SECURE_CHANNEL_OK) then Done (inl ret, u)
      else
        let! r := secure_channel_compute_confirmation (channel_type c) (conf_key_buf c) in
        match r with
        | inl ret => Done (inl ret, u)
        | inr tag =>
            let! '(r, f) := _secure_uart_sign (pubkey_buf (local u)) pk_peer (certs u) in
            let u := set_certs f u in
            match r with
            | inl ret => Done (inl ret, u)
            | inr exchange_sig =>
                Done (inr (pubkey_buf (local u), exchange_sig, tag),
                      set_local (set_peer_pubkey pk_peer (local u)) u)
            end
        end.

Definition secure_uart_channel_encrypt (plaintext aad : list Z) (u : channel)
    : outcome (option (list Z * list Z * list Z) * channel) :=
  let! _ := typed u in
  if negb (confirmed (local u) =? SECURE_TRUE) then Done (None, u)
  else
    let '(r, e) := cipher_encrypt (sc_ctx u) plaintext aad (se u) in
    Done (match r with inr out => Some out | inl _ => None end, set_se e u).

Definition secure_uart_channel_decrypt (ciphertext aad nonce mac : list Z) (u : channel)
    : outcome (option (list Z)) :=
  let! _ := typed u in
  if negb (confirmed (local u) =? SECURE_TRUE) then Done None
  else Done (match cipher_decrypt (sc_ctx u) ciphertext aad nonce mac with
             | inr plaintext => Some plaintext
             | inl _ => None
             end).

Definition secure_uart_channel_get_send_seq_number (u : channel) : outcome (Z * channel) :=
  let prev_seq := send_sequence_number (local u) in
  let! _ := ASSERT (negb (prev_seq =? UINT32_MAX)) in
  let new_seq := u32 (prev_seq + 1) in
  Done (new_seq, set_local (set_send_sequence_number new_seq (local u)) u).

Definition secure_uart_channel_check_recv_seq_number (new_seq : Z) (u : channel) : bool * channel :=
  if recv_sequence_number (local u) <? new_seq
  then (true, set_local (set_recv_sequence_number new_seq (local u)) u)
  else (false, u).

(** The crypto callbacks that main.c hands to [uc_init]. *)
#[export] Instance uart_crypto : CryptoApi channel := {|
  gcm_encrypt u plaintext aad _ _ := secure_uart_channel_encrypt plaintext aad u;
  gcm_decrypt u ciphertext aad nonce mac := secure_uart_channel_decrypt ciphertext aad nonce mac u;
  get_send_seq := secure_uart_channel_get_send_seq_number;
  check_recv_seq u seq := secure_uart_channel_check_recv_seq_number seq u;
  has_session := secure_uart_channel_confirmed;
|}.

(** ** The channel to the phone (secure_channel_nfc.c) *)

Definition secure_nfc_channel_init (c : secure_channel_ctx_t) : secure_channel_ctx_t :=
  mk_sc SECURE_NFC_CHANNEL_CORE (send_key_buf c) (recv_key_buf c) (conf_key_buf c) (established c).

(** Our public key, the signature over the exchange and the confirmation tag;
    [len] is the room for the public key, [sig_len] that for the signature. *)
Definition secure_nfc_channel_establish (pk_host : list Z) (len sig_len : Z) (c : secure_channel_ctx_t)
    (e : E) : outcome ((secure_channel_err_t + list Z * list Z * list Z) * secure_channel_ctx_t * E) :=
  if negb (zlen pk_host =? EC_PUBKEY_SIZE_X25519) then Done (inl SECURE_CHANNEL_ERROR_PARAMS, c, e)
  else if negb (sig_len =? ECC_SIG_SIZE) then Done (inl SECURE_CHANNEL_ERROR_PARAMS, c, e)
  else if len <? EC_PUBKEY_SIZE_X25519 then Done (inl SECURE_CHANNEL_ERROR_PARAMS, c, e)
  else
    match x25519_generate_key e with
    | (None, e) => Done (inl SECURE_CHANNEL_FAILED_TO_DERIVE_KEY, c, e)
    | (Some sk, e) =>
        match x25519_export_pubkey sk with
        | None => Done (inl SECURE_CHANNEL_FAILED_TO_DERIVE_KEY, c, e)
        | Some pk =>
            let! '(ret, exchange_sig, c) := secure_channel_establish_impl c pk_host sk pk true in
            if bool_decide (ret ≠ SECURE_CHANNEL_OK) then Done (inl ret, c, e)
            else
              let! r := secure_channel_compute_confirmation SECURE_NFC_CHANNEL_CORE (conf_key_buf c) in
              match r with
              | inl ret => Done (inl ret, c, e)
              | inr tag => Done (inr (pk, exchange_sig, tag), c, e)
              end
        end
    end.

Definition secure_nfc_channel_encrypt (plaintext : list Z) (c : secure_channel_ctx_t) (e : E)
    : (secure_channel_err_t + list Z * list Z * list Z) * E := cipher_encrypt c plaintext [] e.

Definition secure_nfc_channel_decrypt (ciphertext nonce mac : list Z) (c : secure_channel_ctx_t)
    : secure_channel_err_t + list Z := cipher_decrypt c ciphertext [] nonce mac.

(** ** The handshake (the key manager tasks of the two processors) *)

(** fwpb_secure_channel_establish_cmd, _rsp and _confirm. *)
Record establish_cmd := mk_cmd { cmd_pk_host : list Z; cmd_version : Z }.
Record establish_rsp := mk_rsp {
  rsp_pk_device : list Z;
  rsp_exchange_sig : list Z;
  rsp_tag : list Z;
  rsp_version : Z;
}.
Record establish_confirm := mk_confirm {
  cf_exchange_sig : list Z;
  cf_tag : list Z;
  cf_version : Z;
}.

(** Core: start of a session; the message to send, if any. *)
Definition key_manager_task_handle_uxc_session_init (core : channel)
    : outcome (option establish_cmd * channel) :=
  let! '(r, core) := secure_uart_channel_public_key_init SECURE_CHANNEL_PUBKEY_MAX_LEN core in
  Done (match r with
        | inr pk => Some (mk_cmd pk SECURE_CHANNEL_PROTOCOL_VERSION)
        | inl _ => None
        end, core).

(** UXC: the command of core. *)
Definition handle_secure_channel_establish (cmd : establish_cmd) (uxc : channel)
    : outcome (option establish_rsp * channel) :=
  if negb (secure_channel_protocol_version_supported (cmd_version cmd)) then Done (None, uxc)
  else
    let! '(r, uxc) := secure_uart_channel_establish (cmd_pk_host cmd) uxc in
    Done (match r with
          | inr (pk, exchange_sig, tag) => Some (mk_rsp pk exchange_sig tag SECURE_CHANNEL_PROTOCOL_VERSION)
          | inl _ => None
          end, uxc).

(** Core: the response of UXC. *)
Definition key_manager_task_handle_uxc_session_response (rsp : establish_rsp) (core : channel)
    : outcome (option establish_confirm * channel) :=
  if negb (secure_channel_protocol_version_supported (rsp_version rsp)) then Done (None, core)
  else
    let! '(r, core) := secure_uart_channel_establish (rsp_pk_device rsp) core in
    match r with
    | inl _ => Done (None, core)
    | inr (_, exchange_sig, tag) =>
        let! '(ret, core) := secure_uart_channel_confirm_session (rsp_tag rsp) (rsp_exchange_sig rsp)
                               core in
        if bool_decide (ret ≠ SECURE_CHANNEL_OK) then Done (None, core)
        else Done (Some (mk_confirm exchange_sig tag SECURE_CHANNEL_PROTOCOL_VERSION), core)
    end.

(** UXC: the confirmation of core. *)
Definition handle_secure_channel_confirm (cf : establish_confirm) (uxc : channel)
    : outcome (bool * channel) :=
  if negb (secure_channel_protocol_version_supported (cf_version cf)) then Done (false, uxc)
  else
    let! '(ret, uxc) := secure_uart_channel_confirm_session (cf_tag cf) (cf_exchange_sig cf) uxc in
    Done (bool_decide (ret = SECURE_CHANNEL_OK), uxc).

(** The four messages, delivered in order. *)
Definition handshake (core uxc : channel) : outcome (bool * channel * channel) :=
  let! '(cmd, core) := key_manager_task_handle_uxc_session_init core in
  match cmd with
  | None => Done (false, core, uxc)
  | Some cmd =>
      let! '(rsp, uxc) := handle_secure_channel_establish cmd uxc in
      match rsp with
      | None => Done (false, core, uxc)
      | Some rsp =>
          let! '(cf, core) := key_manager_task_handle_uxc_session_response rsp core in
          match cf with
          | None => Done (false, core, uxc)
          | Some cf =>
              let! '(ok, uxc) := handle_secure_channel_confirm cf uxc in
              Done (ok, core, uxc)
          end
      end
  end.
End SecChan.
