(* ===== verification/ScCert.v ===== *)
(** * Certificates of the secure channel (lib/secure-channel)

    secure_channel_cert_common.c and secure_channel_cert_impl.c: the store of
    the certificate of this processor with its key, and of the certificates of
    its peers, each pinned on first use; and the migration of the files from a
    directory of earlier firmware, which may fail or be interrupted.

    The certificates are structs of picocert, a submodule: the class [Picocert]
    has the layout. The crypto library is the class [CertCrypto]. A C string is
    the list of its characters before the terminator, or the whole buffer when
    there is none. Every function runs under the mutex of the file. *)

From S2P Require Import Prelude Wstring Fs Uc SecChan.
#[local] Open Scope list_scope.
#[local] Open Scope Z_scope.

Definition FS_FILE_NAME_MAX_LEN : Z := 255.
Definition SC_CERT_FILE_PREFIX : string := "sc-".
Definition SC_CERT_OLD_DIRECTORY : string := "/secure_channel".
Definition ECC_PUBKEY_SEC1_UNCOMPRESSED_PREFIX : Z := 4.
Definition ECC_PRIVKEY_SIZE : Z := 32.
Definition ECC_PUBKEY_SIZE_ECDSA_UNCOMPRESSED : Z := 64.
Definition SE_WRAPPED_ECC_P256_KEY_BUFFER_SIZE : Z := 32 + 64 + (12 + 16).
Definition CERT_TYPE_UNSUPPORTED : Z := 0.
Definition CERT_TYPE_PICOCERT : Z := 1.
Definition CERT_TYPE_MAX_TYPES : Z := 2.
Definition SHA256_DIGEST_SIZE : Z := 32.

Inductive secure_channel_cert_err_t :=
| SECURE_CHANNEL_CERT_OK
| SECURE_CHANNEL_CERT_ERROR
| SECURE_CHANNEL_CERT_PINNED_MISMATCH
| SECURE_CHANNEL_CERT_PINNED_NOT_FOUND
| SECURE_CHANNEL_CERT_UNSUPPORTED_TYPE
| SECURE_CHANNEL_CERT_PINNED_ALREADY_EXISTS.

Inductive key_storage_type_t :=
| KEY_STORAGE_EXTERNAL_PLAINTEXT
| KEY_STORAGE_EXTERNAL_WRAPPED
| KEY_STORAGE_INTERNAL_IMMUTABLE
| KEY_STORAGE_INTERNAL_VOLATILE.

Record secure_channel_cert_desc_t := mk_desc {
  desc_id : list Z;
  desc_key_storage_type : key_storage_type_t;
}.

(** picocert.h: where the fields of [picocert_t] are, and its constants. *)
Class Picocert := {
  sizeof_picocert : Z;
  off_version : Z;
  off_issuer : Z;
  off_subject : Z;
  off_valid_from : Z;
  off_valid_to : Z;
  off_curve : Z;
  off_hash : Z;
  off_reserved : Z;
  off_public_key : Z;
  off_signature : Z;
  PICOCERT_MAX_NAME_LEN : Z;
  PICOCERT_CURRENT_VERSION : Z;
  PICOCERT_P256 : Z;
  PICOCERT_SHA256 : Z;
  sizeof_cert_data : Z;   (* secure_channel_cert_data_t: a type, a picocert, padding *)
}.

(** What the store relies on. *)
Class PicocertLaws `{Picocert} : Prop := {
  law_name_len : PICOCERT_MAX_NAME_LEN = 32;
  law_picocert_size : 0 ≤ sizeof_picocert;
  law_subject_off : 0 ≤ off_subject ∧ off_subject + PICOCERT_MAX_NAME_LEN ≤ sizeof_picocert;
  law_cert_data_size : 4 + sizeof_picocert ≤ sizeof_cert_data;
}.

(** Keys, hashes and signatures with P-256; [E] is the state of the generator. *)
Class CertCrypto (E : Type) := {
  cc_generate_key : E → key_storage_type_t → Z → option (list Z) * E;
  cc_export_pubkey : key_storage_type_t → list Z → option (list Z);
  cc_hash : list Z → option (list Z);
  cc_sign_hash : key_storage_type_t → list Z → list Z → option (list Z);   (* key, digest *)
  cc_verify_hash : list Z → list Z → list Z → bool;                       (* key, digest, signature *)
}.

(** Whether a path is a directory. *)
Class LittlefsDirs (L : Type) := lfs_is_dir : L → string → bool.

(** The characters of a C string and the string they make. *)
Fixpoint cstr (buf : list Z) : list Z :=
  match buf with
  | [] => []
  | c :: buf => if c =? 0 then [] else c :: cstr buf
  end.
Definition string_of (l : list Z) : string :=
  String.string_of_list_ascii (map (λ c, Ascii.ascii_of_nat (Z.to_nat c)) l).

Section ScCert.
Context {L E : Type} `{Littlefs L} `{!LittlefsDirs L} `{CertCrypto E} `{Picocert}.

Definition SC_CERT_ID_MAX_SIZE : Z := PICOCERT_MAX_NAME_LEN.

(** ** Data *)

Record secure_channel_cert_data_t := mk_cert {
  cd_type : Z;
  cd_picocert : list Z;
  cd_padding : list Z;
}.

(** The struct in memory. *)
Definition cert_bytes (c : secure_channel_cert_data_t) : list Z := le_encode 4 (cd_type c) ++ cd_picocert c ++ cd_padding c.
Definition cert_of_bytes (bs : list Z) : secure_channel_cert_data_t :=
  mk_cert (le_decode (ztake 4 bs)) (ztake sizeof_picocert (zdrop 4 bs)) (zdrop sizeof_picocert (zdrop 4 bs)).

Definition field (cert : list Z) (off n : Z) : list Z := ztake n (zdrop off cert).
Definition cert_subject (c : secure_channel_cert_data_t) : list Z :=
  cstr (field (cd_picocert c) off_subject PICOCERT_MAX_NAME_LEN).
Definition public_key (cert : list Z) : list Z := field cert off_public_key (1 + ECC_PUBKEY_SIZE_ECDSA_UNCOMPRESSED).

Definition bad_type (t : Z) : bool := (t =? CERT_TYPE_UNSUPPORTED) || (CERT_TYPE_MAX_TYPES <=? t).

Record store := mk_store {
  st_fs : fs_ctx L;
  st_se : E;
}.
Definition set_fs (s : store) (f : fs_ctx L) : store := mk_store f (st_se s).

Definition file_exists (s : store) (path : string) : bool := fs_file_exists (st_fs s) path.

(** ** Paths *)

Definition secure_channel_cert_subject_char_is_valid (c : Z) : bool :=
  ((97 <=? c) && (c <=? 122)) || ((65 <=? c) && (c <=? 90)) || ((48 <=? c) && (c <=? 57)) || (c =? 95) || (c =? 45).

Definition secure_channel_cert_subject_is_valid (subject : list Z) : bool :=
  let subject_len := Z.min (zlen subject) SC_CERT_ID_MAX_SIZE in
  if (subject_len =? 0) || (subject_len =? SC_CERT_ID_MAX_SIZE) then false
  else forallb secure_channel_cert_subject_char_is_valid subject.

(** [snprintf] into a buffer of [FS_FILE_NAME_MAX_LEN] bytes. *)
Definition snprintf_path (path : string) : option string :=
  if FS_FILE_NAME_MAX_LEN <=? Z.of_nat (String.length path) then None else Some path.

Definition flat_path (subject : list Z) (ext : string) : string := SC_CERT_FILE_PREFIX +:+ string_of subject +:+ ext.
Definition old_path (subject : list Z) (ext : string) : string := SC_CERT_OLD_DIRECTORY +:+ "/" +:+ string_of subject +:+ ext.

Definition secure_channel_cert_format_cert_path (subject : list Z) : option string :=
  if negb (secure_channel_cert_subject_is_valid subject) then None else snprintf_path (flat_path subject ".cert").
Definition secure_channel_cert_format_key_path (subject : list Z) : option string :=
  if negb (secure_channel_cert_subject_is_valid subject) then None else snprintf_path (flat_path subject ".key").

Definition resolve_cert_path (s : store) (subject : list Z) : option string :=
  if negb (secure_channel_cert_subject_is_valid subject) then None
  else
    match snprintf_path (old_path subject ".cert") with
    | Some path => if file_exists s path then Some path else secure_channel_cert_format_cert_path subject
    | None => secure_channel_cert_format_cert_path subject
    end.

Definition resolve_key_path (s : store) (subject : list Z) : option string :=
  if negb (secure_channel_cert_subject_is_valid subject) then None
  else
    match snprintf_path (old_path subject ".key") with
    | Some path => if file_exists s path then Some path else secure_channel_cert_format_key_path subject
    | None => secure_channel_cert_format_key_path subject
    end.

(** ** Files *)

Definition write_file (s : store) (path : option string) (data : list Z) : outcome (bool * store) :=
  match path with
  | None => Done (false, s)
  | Some path => let! '(ok, f) := fs_util_write_global (st_fs s) path data in Done (ok, set_fs s f)
  end.

Definition read_file (s : store) (path : option string) (size : Z) : outcome (option (list Z) * store) :=
  match path with
  | None => Done (None, s)
  | Some path =>
      if negb (file_exists s path) then Done (None, s)
      else let! '(r, f) := fs_util_read_global (st_fs s) path size in Done (r, set_fs s f)
  end.

Definition secure_channel_cert_load (s : store) (subject : list Z) : outcome (option secure_channel_cert_data_t * store) :=
  let! '(r, s) := read_file s (resolve_cert_path s subject) sizeof_cert_data in
  Done (match r with
        | None => None
        | Some bs => let c := cert_of_bytes bs in if bad_type (cd_type c) then None else Some c
        end, s).

Definition secure_channel_cert_write_cert (s : store) (subject : list Z) (c : secure_channel_cert_data_t)
    : outcome (bool * store) :=
  write_file s (secure_channel_cert_format_cert_path subject) (cert_bytes c).

Definition secure_channel_cert_write_key (s : store) (subject key_buf : list Z) : outcome (bool * store) :=
  let! _ := ASSERT (0 <? zlen key_buf) in
  write_file s (secure_channel_cert_format_key_path subject) key_buf.

Definition secure_channel_cert_read_key (s : store) (subject : list Z) (key_buf_size : Z)
    : outcome (option (list Z) * store) :=
  let! _ := ASSERT (0 <? key_buf_size) in
  read_file s (resolve_key_path s subject) key_buf_size.

Definition secure_channel_cert_exists (s : store) (subject : list Z) : bool :=
  match resolve_cert_path s subject with Some path => file_exists s path | None => false end.
Definition secure_channel_cert_key_exists (s : store) (subject : list Z) : bool :=
  match resolve_key_path s subject with Some path => file_exists s path | None => false end.

(** Success, and the store after the removal of a file that is there. *)
Definition remove_if_exists (s : store) (path : string) : bool * store :=
  if file_exists s path
  then let '(r, f) := fs_remove (st_fs s) path in (negb (r <? 0), set_fs s f)
  else (true, s).

Definition secure_channel_cert_clear_cert_and_key_files (s : store) (subject : list Z) : bool * store :=
  match secure_channel_cert_format_cert_path subject with
  | None => (false, s)
  | Some cert_path =>
      let '(ok, s) := remove_if_exists s cert_path in
      if negb ok then (false, s)
      else
        match secure_channel_cert_format_key_path subject with
        | None => (false, s)
        | Some key_path => remove_if_exists s key_path
        end
  end.

(** ** Certificates *)

Definition secure_channel_cert_verify_self_signed_picocert_signature (cert : list Z) : bool :=
  match cc_hash (ztake off_signature cert) with
  | None => false
  | Some digest =>
      match public_key cert with
      | [] => false
      | prefix :: key =>
          if negb (prefix =? ECC_PUBKEY_SEC1_UNCOMPRESSED_PREFIX) then false
          else cc_verify_hash key digest (field cert off_signature ECC_SIG_SIZE)
      end
  end.

(** The subject or the issuer: at most one less than the field, then a zero. *)
Definition name_field (subject : list Z) : list Z :=
  let n := Z.min (zlen subject) (PICOCERT_MAX_NAME_LEN - 1) in ztake n subject ++ [0].

Definition secure_channel_cert_format_picocert (storage : key_storage_type_t) (privkey pubkey subject : list Z)
    (valid_from valid_to : Z) : outcome (option (list Z)) :=
  let cert := zeros sizeof_picocert in
  let! cert := mwrite cert off_version [PICOCERT_CURRENT_VERSION] in
  let! cert := mwrite cert off_curve [PICOCERT_P256] in
  let! cert := mwrite cert off_hash [PICOCERT_SHA256] in
  let! cert := mwrite cert off_reserved (le_encode 4 0) in
  let! cert := mwrite cert off_issuer (name_field subject) in
  let! cert := mwrite cert off_subject (name_field subject) in
  let! cert := mwrite cert off_valid_from (le_encode 8 valid_from) in
  let! cert := mwrite cert off_valid_to (le_encode 8 valid_to) in
  let! cert := mwrite cert off_public_key [ECC_PUBKEY_SEC1_UNCOMPRESSED_PREFIX] in
  if negb (zlen pubkey =? ECC_PUBKEY_SIZE_ECDSA_UNCOMPRESSED) then Done None
  else
    let! cert := mwrite cert (off_public_key + 1) pubkey in
    let! signable := mread cert 0 off_signature in
    match cc_hash signable with
    | None => Done None
    | Some digest =>
        match cc_sign_hash storage privkey digest with
        | None => Done None
        | Some signature => let! cert := mwrite cert off_signature signature in Done (Some cert)
        end
    end.

Definition key_size (storage : key_storage_type_t) : Z :=
  match storage with
  | KEY_STORAGE_EXTERNAL_WRAPPED => SE_WRAPPED_ECC_P256_KEY_BUFFER_SIZE
  | _ => ECC_PRIVKEY_SIZE
  end.

Definition UINT64_MAX : Z := 2 ^ 64 - 1.

Definition secure_channel_cert_generate_certificate (s : store) (desc : secure_channel_cert_desc_t)
    : outcome (bool * store) :=
  let storage := desc_key_storage_type desc in
  let '(key, se) := cc_generate_key (st_se s) storage (key_size storage) in
  let s := mk_store (st_fs s) se in
  match key with
  | None => Done (false, s)
  | Some key_buf =>
      match cc_export_pubkey storage key_buf with
      | None => Done (false, s)
      | Some pubkey =>
          let! cert := secure_channel_cert_format_picocert storage key_buf pubkey (desc_id desc) 0 UINT64_MAX in
          match cert with
          | None => Done (false, s)
          | Some cert =>
              let c := mk_cert CERT_TYPE_PICOCERT cert (zeros (sizeof_cert_data - 4 - sizeof_picocert)) in
              let! '(ok, s) := secure_channel_cert_write_cert s (desc_id desc) c in
              if negb ok then Done (false, s)
              else secure_channel_cert_write_key s (desc_id desc) key_buf
          end
      end
  end.

(** ** The migration *)

Definition sc_migrate : list (string * string) :=
  [(SC_CERT_OLD_DIRECTORY +:+ "/w3_core_id.cert", "sc-w3_core_id.cert");
   (SC_CERT_OLD_DIRECTORY +:+ "/w3_core_id.key", "sc-w3_core_id.key");
   (SC_CERT_OLD_DIRECTORY +:+ "/w3_uxc_id.cert", "sc-w3_uxc_id.cert");
   (SC_CERT_OLD_DIRECTORY +:+ "/w3_uxc_id.key", "sc-w3_uxc_id.key")]%string.

Definition MIGRATE_BUF_SIZE : Z := 256.

(** One turn of the copy loop, and whether it leaves [all_ok] set. *)
Definition migrate_copy (s : store) (entry : string * string) : outcome (bool * store) :=
  let '(old, new) := entry in
  if negb (file_exists s old) then Done (true, s)
  else
    let filesize := fs_get_filesize (st_fs s) old in
    if (filesize <=? 0) || (MIGRATE_BUF_SIZE <? filesize) then Done (false, s)
    else
      let! '(r, f) := fs_util_read_global (st_fs s) old filesize in
      let s := set_fs s f in
      match r with
      | None => Done (false, s)
      | Some buf => let! '(ok, f) := fs_util_write_global (st_fs s) new buf in Done (ok, set_fs s f)
      end.

Fixpoint migrate_copies (s : store) (all_ok : bool) (entries : list (string * string)) : outcome (bool * store) :=
  match entries with
  | [] => Done (all_ok, s)
  | e :: entries => let! '(ok, s) := migrate_copy s e in migrate_copies s (all_ok && ok) entries
  end.

Fixpoint migrate_removes (s : store) (entries : list (string * string)) : store :=
  match entries with
  | [] => s
  | (old, _) :: entries =>
      migrate_removes (if file_exists s old then set_fs s (fs_remove (st_fs s) old).2 else s) entries
  end.

Definition is_directory (s : store) (path : string) : bool :=
  match lfs (st_fs s) with Some l => lfs_is_dir l path | None => false end.

Definition secure_channel_cert_migrate_from_directory (s : store) : outcome store :=
  if negb (is_directory s SC_CERT_OLD_DIRECTORY) then Done s
  else
    let! '(all_ok, s) := migrate_copies s true sc_migrate in
    if negb all_ok then Done s
    else
      let s := migrate_removes s sc_migrate in
      Done (set_fs s (fs_remove (st_fs s) SC_CERT_OLD_DIRECTORY).2).

(** The same, reset after [copies] turns of the first loop or [removes] of the
    second one. *)
Definition interrupted_migration (s : store) (copies removes : nat) : outcome store :=
  if negb (is_directory s SC_CERT_OLD_DIRECTORY) then Done s
  else
    let! '(all_ok, s) := migrate_copies s true (take copies sc_migrate) in
    if negb all_ok || bool_decide (copies < length sc_migrate)%nat then Done s
    else Done (migrate_removes s (take removes sc_migrate)).

(** ** The interface *)

Fixpoint init_certs (s : store) (descs : list secure_channel_cert_desc_t) : outcome store :=
  match descs with
  | [] => Done s
  | desc :: descs =>
      let! s :=
        if negb (secure_channel_cert_exists s (desc_id desc)) || negb (secure_channel_cert_key_exists s (desc_id desc)) then
          let '(_, s) := secure_channel_cert_clear_cert_and_key_files s (desc_id desc) in
          let! '(ok, s) := secure_channel_cert_generate_certificate s desc in
          let! _ := ASSERT ok in Done s
        else Done s in
      init_certs s descs
  end.

Definition secure_channel_cert_init (s : store) (secure_channel_product_certs : list secure_channel_cert_desc_t)
    : outcome store :=
  let! s := secure_channel_cert_migrate_from_directory s in
  init_certs s secure_channel_product_certs.

Definition secure_channel_read_cert (s : store) (cert_id : list Z) : outcome (option secure_channel_cert_data_t * store) :=
  let! '(r, s) := secure_channel_cert_load s cert_id in
  Done (match r with
        | None => None
        | Some c => if secure_channel_cert_verify_self_signed_picocert_signature (cd_picocert c) then Some c else None
        end, s).

Definition secure_channel_sign_digest (s : store) (desc : secure_channel_cert_desc_t) (digest : list Z)
    (signature_size : Z) : outcome (option (list Z) * store) :=
  if negb (signature_size =? ECC_SIG_SIZE) then Done (None, s)
  else if negb (zlen digest =? SHA256_DIGEST_SIZE) then Done (None, s)
  else
    let storage := desc_key_storage_type desc in
    let! '(key, s) := secure_channel_cert_read_key s (desc_id desc) (key_size storage) in
    Done (match key with None => None | Some key_buf => cc_sign_hash storage key_buf digest end, s).

Definition secure_channel_pin_picocert (s : store) (c : secure_channel_cert_data_t)
    : outcome (secure_channel_cert_err_t * store) :=
  let! _ := ASSERT (cd_type c =? CERT_TYPE_PICOCERT) in
  let subject := cert_subject c in
  if zlen subject =? PICOCERT_MAX_NAME_LEN then Done (SECURE_CHANNEL_CERT_ERROR, s)
  else if negb (secure_channel_cert_subject_is_valid subject) then Done (SECURE_CHANNEL_CERT_ERROR, s)
  else if secure_channel_cert_exists s subject then Done (SECURE_CHANNEL_CERT_PINNED_ALREADY_EXISTS, s)
  else if negb (secure_channel_cert_verify_self_signed_picocert_signature (cd_picocert c))
  then Done (SECURE_CHANNEL_CERT_ERROR, s)
  else
    let! '(ok, s) := secure_channel_cert_write_cert s subject c in
    Done (if ok : bool then SECURE_CHANNEL_CERT_OK else SECURE_CHANNEL_CERT_ERROR, s).

Definition secure_channel_pin_cert (s : store) (cert_data : option secure_channel_cert_data_t)
    : outcome (secure_channel_cert_err_t * store) :=
  match cert_data with
  | None => Done (SECURE_CHANNEL_CERT_ERROR, s)
  | Some c =>
      if bad_type (cd_type c) then Done (SECURE_CHANNEL_CERT_UNSUPPORTED_TYPE, s)
      else if cd_type c =? CERT_TYPE_PICOCERT then secure_channel_pin_picocert s c
      else Done (SECURE_CHANNEL_CERT_UNSUPPORTED_TYPE, s)
  end.

Definition secure_channel_matches_pinned_cert (s : store) (c : secure_channel_cert_data_t)
    : outcome (secure_channel_cert_err_t * store) :=
  if bad_type (cd_type c) then Done (SECURE_CHANNEL_CERT_UNSUPPORTED_TYPE, s)
  else
    let subject := cert_subject c in
    if zlen subject =? PICOCERT_MAX_NAME_LEN then Done (SECURE_CHANNEL_CERT_ERROR, s)
    else if negb (secure_channel_cert_subject_is_valid subject) then Done (SECURE_CHANNEL_CERT_ERROR, s)
    else if negb (secure_channel_cert_exists s subject) then Done (SECURE_CHANNEL_CERT_PINNED_NOT_FOUND, s)
    else
      let! '(r, s) := secure_channel_cert_load s subject in
      match r with
      | None => Done (SECURE_CHANNEL_CERT_ERROR, s)
      | Some pinned =>
          let! differ :=
            if negb (cd_type pinned =? cd_type c) then Done true
            else let! r := memcmp_s (cd_picocert c) (cd_picocert pinned) sizeof_picocert in Done (negb (r =? 0)) in
          Done (if differ : bool then SECURE_CHANNEL_CERT_PINNED_MISMATCH else SECURE_CHANNEL_CERT_OK, s)
      end.

Definition secure_channel_verify_digest (c : secure_channel_cert_data_t) (digest signature : list Z) : bool :=
  if bad_type (cd_type c) then false
  else if negb (zlen digest =? SHA256_DIGEST_SIZE) then false
  else if negb (zlen signature =? ECC_SIG_SIZE) then false
  else
    match public_key (cd_picocert c) with
    | [] => false
    | prefix :: key =>
        if negb (prefix =? ECC_PUBKEY_SEC1_UNCOMPRESSED_PREFIX) then false else cc_verify_hash key digest signature
    end.

(** The certificate of the response, when the kind of the command is the one of
    this store and the response has room for it. *)
Definition secure_channel_cert_handle_cmd_get (s : store) (kind_ok : bool) (room : Z) (cert_id : list Z)
    : outcome (option (list Z) * store) :=
  if negb kind_ok then Done (None, s)
  else if room <? sizeof_cert_data then Done (None, s)
  else
    let! '(r, s) := secure_channel_cert_load s cert_id in
    Done (match r with None => None | Some c => Some (cert_bytes c) end, s).
End ScCert.
Arguments store : clear implicits.
