(* ===== verification/ScCertSpec.v ===== *)
(** * The pinned certificate of a peer is final

    The first certificate that is pinned for a peer stays the one that the store
    answers with, on a medium whose calls other than [lfs_stat] may fail: through
    later requests to pin, through restarts, and through the migration of the
    old files, whether it completes, fails or is interrupted. *)

From S2P Require Import Prelude Wstring Fs Uc SecChan SignFrame ScCert.
#[local] Open Scope list_scope.
#[local] Open Scope Z_scope.

(** ** Strings *)

Lemma list_ascii_app x y :
  String.list_ascii_of_string (x +:+ y) = String.list_ascii_of_string x ++ String.list_ascii_of_string y.
Proof.
  induction x as [|c x IH]; [done|]. change (String c x +:+ y) with (String c (x +:+ y)). cbn. by rewrite IH.
Qed.

Lemma list_ascii_inj x y : String.list_ascii_of_string x = String.list_ascii_of_string y → x = y.
Proof.
  intros Heq. rewrite <- (String.string_of_list_ascii_of_string x), <- (String.string_of_list_ascii_of_string y).
  by rewrite Heq.
Qed.

Lemma length_string_app x y : String.length (x +:+ y) = (String.length x + String.length y)%nat.
Proof.
  induction x as [|c x IH]; [done|]. change (String c x +:+ y) with (String c (x +:+ y)). cbn. by rewrite IH.
Qed.

Lemma length_string_of l : String.length (string_of l) = length l.
Proof. induction l as [|c l IH]; [done|]. cbn. by f_equal. Qed.

Lemma append_cancel_l p x y : p +:+ x = p +:+ y → x = y.
Proof. intros Heq%(f_equal String.list_ascii_of_string). rewrite !list_ascii_app in Heq. by apply app_inv_head, list_ascii_inj in Heq. Qed.

Lemma append_cancel_r x y e : x +:+ e = y +:+ e → x = y.
Proof. intros Heq%(f_equal String.list_ascii_of_string). rewrite !list_ascii_app in Heq. by apply app_inv_tail, list_ascii_inj in Heq. Qed.

Lemma extensions_differ x y : x +:+ ".key" ≠ y +:+ ".cert".
Proof.
  intros Heq%(f_equal (λ s, last (String.list_ascii_of_string s))). rewrite !list_ascii_app in Heq.
  cbn [String.list_ascii_of_string] in Heq.
  change (?a ++ [?b; ?c; ?d; ?e]) with (a ++ [b; c; d] ++ [e]) in Heq.
  change (?a ++ [?b; ?c; ?d; ?f; ?e]) with (a ++ [b; c; d; f] ++ [e]) in Heq.
  rewrite !app_assoc, !last_snoc in Heq. discriminate.
Qed.

(** ** Paths *)

Lemma flat_cert_inj a b : flat_path a ".cert" = flat_path b ".cert" → string_of a = string_of b.
Proof. unfold flat_path. intros Heq%append_cancel_l. by apply append_cancel_r in Heq. Qed.

Lemma old_cert_inj a b : old_path a ".cert" = old_path b ".cert" → string_of a = string_of b.
Proof. unfold old_path. intros Heq%append_cancel_l%append_cancel_l. by apply append_cancel_r in Heq. Qed.

Lemma flat_key_cert a b : flat_path a ".key" ≠ flat_path b ".cert".
Proof. unfold flat_path. intros Heq%append_cancel_l. by apply extensions_differ in Heq. Qed.

Lemma old_key_cert a b : old_path a ".key" ≠ old_path b ".cert".
Proof. unfold old_path. intros Heq%append_cancel_l%append_cancel_l. by apply extensions_differ in Heq. Qed.

Lemma flat_old a b x y : flat_path a x ≠ old_path b y.
Proof. discriminate. Qed.

(** The entries of the migration belong to the two processors. *)
Lemma migrate_entries e : e ∈ sc_migrate →
  ∃ i x, e = (old_path i x, flat_path i x) ∧ (x = ".cert" ∨ x = ".key")%string.
Proof.
  unfold sc_migrate. rewrite !elem_of_cons, elem_of_nil. intros [->|[->|[->|[->|[]]]]].
  - exists (label SC_CERT_CORE_ID), ".cert"%string. split; [reflexivity|by left].
  - exists (label SC_CERT_CORE_ID), ".key"%string. split; [reflexivity|by right].
  - exists (label SC_CERT_UXC_ID), ".cert"%string. split; [reflexivity|by left].
  - exists (label SC_CERT_UXC_ID), ".key"%string. split; [reflexivity|by right].
Qed.

Lemma migrate_entry_cases e id : e ∈ sc_migrate →
  (e.1 = old_path id ".cert" ∧ e.2 = flat_path id ".cert") ∨ (e.1 ≠ old_path id ".cert" ∧ e.2 ≠ flat_path id ".cert").
Proof.
  intros (i & x & -> & [->| ->])%migrate_entries; cbn [fst snd]; [|right; split; [apply old_key_cert|apply flat_key_cert]].
  destruct (decide (string_of i = string_of id)) as [Heq|Hne]; [left|right].
  - unfold old_path, flat_path. by rewrite Heq.
  - split; [by intros ?%old_cert_inj|by intros ?%flat_cert_inj].
Qed.

Section ScCertSpec.
Context {L E : Type} `{Littlefs L} `{!LittlefsDirs L} `{CertCrypto E} `{Picocert}.
Context `{!LittlefsLaws L} `{!LittlefsStats L} `{!PicocertLaws}.
Implicit Types (s : store L E) (f : fs_ctx L) (c : secure_channel_cert_data_t).

(** ** Certificates in memory *)

Record cert_ok c : Prop := {
  ok_type : 0 ≤ cd_type c < 2 ^ 32;
  ok_bytes : bytes_ok (cd_picocert c);
  ok_size : zlen (cd_picocert c) = sizeof_picocert;
  ok_total : 4 + sizeof_picocert + zlen (cd_padding c) = sizeof_cert_data;
}.

Lemma cert_bytes_len c : cert_ok c → zlen (cert_bytes c) = sizeof_cert_data.
Proof. intros [_ _ Hs Ht]. unfold cert_bytes. rewrite !zlen_app, zlen_le_encode, Hs. lia. Qed.

Lemma cert_roundtrip c : cert_ok c → cert_of_bytes (cert_bytes c) = c.
Proof.
  intros [Hty _ Hs _]. unfold cert_of_bytes, cert_bytes.
  rewrite (zdrop_app_exact (le_encode 4 (cd_type c))), (ztake_app_exact (le_encode 4 (cd_type c))) by (by rewrite zlen_le_encode).
  rewrite ztake_app_exact, zdrop_app_exact by done. rewrite le_decode_encode by done. by destruct c.
Qed.

Lemma sizeof_cert_data_pos : 0 < sizeof_cert_data.
Proof. pose proof law_cert_data_size. pose proof law_picocert_size. lia. Qed.

(** ** Valid subjects *)

Abbreviation valid := secure_channel_cert_subject_is_valid.

Lemma valid_short id : valid id = true → zlen id < 32.
Proof.
  unfold secure_channel_cert_subject_is_valid, SC_CERT_ID_MAX_SIZE. rewrite law_name_len. cbn zeta.
  destruct (_ || _) eqn:Hl; [done|]. intros _. apply orb_false_iff in Hl as [_ Hl]. btest. lia.
Qed.

Lemma snprintf_ok id p x : (p = flat_path id x ∨ p = old_path id x) → (String.length x <= 5)%nat → valid id = true →
  snprintf_path p = Some p.
Proof.
  intros Hp Hx Hv%valid_short. unfold snprintf_path, FS_FILE_NAME_MAX_LEN.
  assert (Hl : (String.length p < 100)%nat).
  { unfold zlen in Hv. destruct Hp as [->| ->]; unfold flat_path, old_path; rewrite !length_string_app, length_string_of;
      cbn [String.length SC_CERT_FILE_PREFIX SC_CERT_OLD_DIRECTORY]; lia. }
  by destruct (Z.leb_spec 255 (Z.of_nat (String.length p))); [lia|].
Qed.

Lemma format_cert_path_ok id : valid id = true →
  secure_channel_cert_format_cert_path id = Some (flat_path id ".cert").
Proof.
  intros Hv. unfold secure_channel_cert_format_cert_path. rewrite Hv. cbn [negb].
  apply (snprintf_ok id _ ".cert"); [by left|cbn; lia|done].
Qed.

Lemma format_key_path_ok id : valid id = true → secure_channel_cert_format_key_path id = Some (flat_path id ".key").
Proof.
  intros Hv. unfold secure_channel_cert_format_key_path. rewrite Hv. cbn [negb].
  apply (snprintf_ok id _ ".key"); [by left|cbn; lia|done].
Qed.

Lemma resolve_ok s id : valid id = true →
  resolve_cert_path s id = Some (if file_exists s (old_path id ".cert") then old_path id ".cert" else flat_path id ".cert").
Proof.
  intros Hv. unfold resolve_cert_path. rewrite Hv, (format_cert_path_ok id Hv). cbn [negb].
  rewrite (snprintf_ok id _ ".cert"); [|by right|cbn; lia|done]. by destruct (file_exists s _).
Qed.

Lemma exists_file s p : file_exists s p = true ↔ is_Some (fs_data (st_fs s) p).
Proof. apply fs_file_exists_spec. Qed.

(** ** The certificate of a peer *)

Context (id : list Z) (c0 : secure_channel_cert_data_t) (Hid : valid id = true) (Hc0 : cert_ok c0).

Abbreviation O := (old_path id ".cert").
Abbreviation P := (flat_path id ".cert").

Definition has_cert f (p : string) : Prop := ∃ D, fs_data f p = Some D ∧ ztake sizeof_cert_data D = cert_bytes c0.

(** The file that the store reads holds the certificate. *)
Definition pinned f : Prop := has_cert f O ∨ fs_data f O = None ∧ has_cert f P.

(** Both files hold it, or there is only the new one. *)
Definition synced f : Prop := pinned f ∧ (fs_data f O = None ∨ has_cert f P).

(** The files of the peer are as they were. *)
Definition untouched f f' : Prop := fs_data f' O = fs_data f O ∧ fs_data f' P = fs_data f P.

Lemma untouched_refl f : untouched f f.
Proof. done. Qed.

Lemma untouched_trans f1 f2 f3 : untouched f1 f2 → untouched f2 f3 → untouched f1 f3.
Proof. intros [] []. split; congruence. Qed.

Lemma untouched_pinned f f' : untouched f f' → pinned f → pinned f'.
Proof. intros [Ho Hp]. unfold pinned, has_cert. by rewrite Ho, Hp. Qed.

Lemma untouched_synced f f' : untouched f f' → synced f → synced f'.
Proof. intros Hu [Hp Hs]. split; [by eapply untouched_pinned|]. destruct Hu as [Ho HP]. unfold has_cert. by rewrite Ho, HP. Qed.

Lemma read_untouched f p n : post (λ '(_, f'), untouched f f') (fs_util_read_global f p n).
Proof. intros [r f'] (Hq & _)%fs_util_read_spec. split; apply Hq. Qed.

Lemma write_untouched f p data : p ≠ O → p ≠ P → post (λ '(_, f'), untouched f f') (fs_util_write_global f p data).
Proof. intros Ho Hp [r f'] (Hq & _)%fs_util_write_spec. split; apply Hq; by apply not_eq_sym. Qed.

Lemma remove_untouched f p : p ≠ O → p ≠ P → untouched f (fs_remove f p).2.
Proof.
  intros Ho Hp. destruct (fs_remove f p) as [r f'] eqn:Er. apply fs_remove_spec in Er as (Hq & _).
  split; apply Hq; by apply not_eq_sym.
Qed.

(** ** The migration *)

Lemma copy_ok s e : e ∈ sc_migrate → pinned (st_fs s) →
  post (λ '(ok, s'), pinned (st_fs s') ∧ (ok = true → (e.1 = O ∨ synced (st_fs s)) → synced (st_fs s'))) (migrate_copy s e).
Proof.
  intros He Hp. destruct e as [old new]. unfold migrate_copy.
  destruct (file_exists s old) eqn:Ee; cbn [negb].
  2:{ apply post_done. split; [done|]. intros _ [Ho|Hs]; [|done]. cbn [fst] in Ho. subst old. split; [done|]. left.
      apply eq_None_not_Some. rewrite <- exists_file. by rewrite Ee. }
  cbn zeta. destruct (_ || _) eqn:Esz; [by apply post_done|]. apply orb_false_iff in Esz as [Esz _]. btest.
  apply post_eq. intros [r f1] Er. pose proof (read_untouched _ _ _ _ Er) as Hu1.
  destruct (fs_util_read_spec _ _ _ _ _ Er) as (Hq1 & Hr & _).
  assert (Hp1 : pinned f1) by exact (untouched_pinned _ _ Hu1 Hp).
  destruct r as [buf|]; [|by apply post_done; split]. apply post_eq. intros [ok f2] Ew. apply post_done. cbn [st_fs set_fs] in *.
  destruct (fs_util_write_spec _ _ _ _ _ Ew) as (Hq2 & Hok & _).
  destruct (migrate_entry_cases (old, new) id He) as [[Ho Hn]|[Ho Hn]]; cbn [fst snd] in Ho, Hn; subst.
  - destruct Hp1 as [Hp1|[Hnone _]].
    2:{ exfalso. apply exists_file in Ee as [D HD]. rewrite <- (Hq1 O), Hnone in HD. done. }
    destruct Hp1 as (D & HD & Hcert).
    assert (Hp2 : has_cert f2 O) by (exists D; by rewrite Hq2).
    split; [by left|]. intros -> _. split; [by left|]. right.
    destruct (Hr buf eq_refl) as (D' & HD' & Hbuf & _). rewrite Hq1, HD' in HD. injection HD as <-.
    rewrite (fs_get_filesize_data _ _ _ HD'), ztake_all in Hbuf by lia. subst buf.
    exists (overwrite (fs_data f1 P) D'). split; [by apply Hok|].
    unfold overwrite. rewrite ztake_app_le; [done|].
    pose proof (f_equal zlen Hcert) as Hl. rewrite (cert_bytes_len c0 Hc0) in Hl. unfold zlen, ztake in Hl |- *.
    rewrite length_take in Hl. lia.
  - assert (Hu2 : untouched f1 f2).
    { split; apply Hq2; [|by apply not_eq_sym]. apply migrate_entries in He as (i & x & [= -> ->] & _). by apply not_eq_sym, flat_old. }
    split; [exact (untouched_pinned _ _ Hu2 Hp1)|]. intros _ [?|Hs]; [done|].
    exact (untouched_synced _ _ Hu2 (untouched_synced _ _ Hu1 Hs)).
Qed.

Lemma copies_ok l : ∀ s b, (∀ e, e ∈ l → e ∈ sc_migrate) → pinned (st_fs s) →
  post (λ '(ok, s'), pinned (st_fs s')
      ∧ (ok = true → b = true ∧ (Exists (λ e, e.1 = O) l ∨ synced (st_fs s) → synced (st_fs s')))) (migrate_copies s b l).
Proof.
  induction l as [|e l IH]; intros s b Hl Hp; cbn [migrate_copies].
  { apply post_done. split; [done|]. intros Hb. split; [done|]. intros [Hx|Hs]; [by apply Exists_nil in Hx|done]. }
  eapply post_bind; [apply (copy_ok s e); [apply Hl; by left|done]|]. intros [ok s1] [Hp1 Hs1].
  eapply post_mono; [apply IH; [intros; apply Hl; by right|done]|]. intros [all s2] [Hp2 Hs2].
  split; [done|]. intros Ha. destruct (Hs2 Ha) as [Hb Hs]. apply andb_true_iff in Hb as [-> ->]. split; [done|].
  intros [[He|He]%Exists_cons|Hsync]; apply Hs; [right; by apply Hs1; [|left]|by left|right; by apply Hs1; [|right]].
Qed.

Lemma removes_ok l : ∀ s, (∀ e, e ∈ l → e ∈ sc_migrate) → pinned (st_fs s) →
  (Exists (λ e, e.1 = O) l → synced (st_fs s)) → pinned (st_fs (migrate_removes s l)).
Proof.
  induction l as [|[old new] l IH]; intros s Hl Hp Hs; cbn [migrate_removes]; [done|].
  assert (He : (old, new) ∈ sc_migrate) by (apply Hl; by left).
  set (s1 := if file_exists s old then _ else s).
  assert (Hkeep : pinned (st_fs s1) ∧ (synced (st_fs s) → synced (st_fs s1))).
  { unfold s1. destruct (file_exists s old); [|done]. cbn [st_fs set_fs].
    destruct (migrate_entry_cases _ id He) as [[Ho Hn]|[Ho Hn]]; cbn [fst snd] in Ho, Hn.
    - subst old. assert (Hsy : synced (st_fs s)) by (apply Hs; by constructor).
      assert (Hafter : synced (fs_remove (st_fs s) O).2); [|by split; [apply Hafter|]].
      destruct (fs_remove (st_fs s) O) as [r f] eqn:Er. apply fs_remove_spec in Er as (Hq & Hr0 & Hn0 & _).
      assert (HP : fs_data f P = fs_data (st_fs s) P) by (apply Hq, flat_old).
      cbn [snd]. destruct (decide (r = 0)) as [Hr|Hr].
      + assert (HcP : has_cert f P).
        { unfold has_cert. rewrite HP. pose proof Hsy as [Hpin [Hnone|?]]; [|done].
          destruct Hpin as [(D & HD & _)|[_ ?]]; [by rewrite Hnone in HD|done]. }
        split; [right|left]; [split; [by apply Hr0|done]|by apply Hr0].
      + eapply untouched_synced; [|exact Hsy]. split; [by apply Hn0|done].
    - assert (Hu : untouched (st_fs s) (fs_remove (st_fs s) old).2).
      { apply remove_untouched; [done|]. apply migrate_entries in He as (i & x & [= -> ->] & _). by apply not_eq_sym, flat_old. }
      split; [exact (untouched_pinned _ _ Hu Hp)|by intros Hsy; apply (untouched_synced _ _ Hu)]. }
  apply (IH s1); [intros; apply Hl; by right|exact (proj1 Hkeep)|]. intros Hx. apply (proj2 Hkeep), Hs. by constructor 2.
Qed.

Lemma migrate_ok s : pinned (st_fs s) →
  post (λ s', pinned (st_fs s')) (secure_channel_cert_migrate_from_directory s).
Proof.
  intros Hp. unfold secure_channel_cert_migrate_from_directory. destruct (negb _); [by apply post_done|].
  eapply post_bind; [by apply copies_ok|]. intros [ok s1] [Hp1 Hs1]. destruct ok; cbn [negb]; apply post_done; [|done].
  cbn [st_fs set_fs]. eapply untouched_pinned; [by apply remove_untouched|]. apply removes_ok; [done|done|].
  intros Hx. apply Hs1; [done|by left].
Qed.

Lemma interrupted_ok s n m : pinned (st_fs s) → post (λ s', pinned (st_fs s')) (interrupted_migration s n m).
Proof.
  intros Hp. unfold interrupted_migration. destruct (negb _); [by apply post_done|].
  assert (Htake : ∀ k e, e ∈ take k sc_migrate → e ∈ sc_migrate).
  { intros k e He. rewrite <- (take_drop k sc_migrate). apply elem_of_app. by left. }
  eapply post_bind; [apply copies_ok; [by apply Htake|done]|]. intros [ok s1] [Hp1 Hs1].
  destruct (negb ok || _) eqn:Estop; apply post_done; [done|].
  apply orb_false_iff in Estop as [->%negb_false_iff Hn%bool_decide_eq_false].
  apply removes_ok; [by apply Htake|done|]. intros Hx. apply Hs1; [done|left].
  rewrite take_ge by lia. apply Exists_exists in Hx as (e & He & Ho). apply Exists_exists. exists e. split; [by eapply Htake|done].
Qed.

(** ** The certificate of this processor *)

Lemma format_cert_some d p : secure_channel_cert_format_cert_path d = Some p → p = flat_path d ".cert".
Proof.
  unfold secure_channel_cert_format_cert_path, snprintf_path. destruct (negb _); [done|]. destruct (_ <=? _); [done|].
  by intros [= <-].
Qed.

Lemma format_key_some d p : secure_channel_cert_format_key_path d = Some p → p = flat_path d ".key".
Proof.
  unfold secure_channel_cert_format_key_path, snprintf_path. destruct (negb _); [done|]. destruct (_ <=? _); [done|].
  by intros [= <-].
Qed.

(** Files of another subject, and the keys of any. *)
Definition foreign (p : string) : Prop := p ≠ O ∧ p ≠ P.

Lemma foreign_cert d : string_of d ≠ string_of id → foreign (flat_path d ".cert").
Proof. intros Hd. split; [apply flat_old|by intros ?%flat_cert_inj]. Qed.

Lemma foreign_key d : foreign (flat_path d ".key").
Proof. split; [apply flat_old|apply flat_key_cert]. Qed.

Lemma write_file_untouched s p data : (∀ q, p = Some q → foreign q) →
  post (λ '(_, s'), untouched (st_fs s) (st_fs s')) (write_file s p data).
Proof.
  intros Hf. unfold write_file. destruct p as [p|]; [|by apply post_done]. destruct (Hf p eq_refl) as [Ho Hp].
  eapply post_bind; [by apply write_untouched|]. intros [ok f] Hu. by apply post_done.
Qed.

Lemma read_file_untouched s p n : post (λ '(_, s'), untouched (st_fs s) (st_fs s')) (read_file s p n).
Proof.
  unfold read_file. destruct p as [p|]; [|by apply post_done]. destruct (negb _); [by apply post_done|].
  eapply post_bind; [apply read_untouched|]. intros [r f] Hu. by apply post_done.
Qed.

Lemma remove_if_exists_untouched s p : foreign p → untouched (st_fs s) (st_fs (remove_if_exists s p).2).
Proof.
  intros [Ho Hp]. unfold remove_if_exists. destruct (file_exists s p); [|done].
  pose proof (remove_untouched (st_fs s) p Ho Hp) as Hu. by destruct (fs_remove (st_fs s) p).
Qed.

Lemma clear_untouched s d : string_of d ≠ string_of id →
  untouched (st_fs s) (st_fs (secure_channel_cert_clear_cert_and_key_files s d).2).
Proof.
  intros Hd. unfold secure_channel_cert_clear_cert_and_key_files.
  destruct (secure_channel_cert_format_cert_path d) as [p|] eqn:Ep; [|done]. apply format_cert_some in Ep as ->.
  pose proof (remove_if_exists_untouched s _ (foreign_cert d Hd)) as Hu1.
  destruct (remove_if_exists s (flat_path d ".cert")) as [ok s1]. destruct (negb ok); [done|].
  destruct (secure_channel_cert_format_key_path d) as [q|] eqn:Eq; [|done]. apply format_key_some in Eq as ->.
  exact (untouched_trans _ _ _ Hu1 (remove_if_exists_untouched s1 _ (foreign_key d))).
Qed.

Lemma generate_untouched s d : string_of (desc_id d) ≠ string_of id →
  post (λ '(_, s'), untouched (st_fs s) (st_fs s')) (secure_channel_cert_generate_certificate s d).
Proof.
  intros Hd. unfold secure_channel_cert_generate_certificate. cbn zeta.
  destruct (cc_generate_key _ _ _) as [key se]. destruct key as [key|]; [|by apply post_done].
  destruct (cc_export_pubkey _ _) as [pk|]; [|by apply post_done]. apply post_any. intros [cert|]; [|by apply post_done].
  eapply post_bind; [apply (write_file_untouched (mk_store (st_fs s) se)); by intros q ->%format_cert_some; apply foreign_cert|].
  intros [ok s1] Hu1. cbn [st_fs] in Hu1. destruct (negb ok); [by apply post_done|].
  unfold secure_channel_cert_write_key. apply post_any. intros _.
  eapply post_mono; [apply write_file_untouched; by intros q ->%format_key_some; apply foreign_key|].
  intros [ok2 s2] Hu2. exact (untouched_trans _ _ _ Hu1 Hu2).
Qed.

Lemma init_certs_untouched descs : ∀ s, Forall (λ d, string_of (desc_id d) ≠ string_of id) descs →
  post (λ s', untouched (st_fs s) (st_fs s')) (init_certs s descs).
Proof.
  induction descs as [|d descs IH]; intros s Hd; cbn [init_certs]; [by apply post_done|].
  apply Forall_cons in Hd as [Hd Hds]. apply (post_bind (λ s', untouched (st_fs s) (st_fs s'))).
  - destruct (_ || _); [|by apply post_done]. pose proof (clear_untouched s (desc_id d) Hd) as Hu1.
    destruct (secure_channel_cert_clear_cert_and_key_files s (desc_id d)) as [b s1].
    eapply post_bind; [by apply generate_untouched|]. intros [ok s2] Hu2. apply post_any. intros _. apply post_done.
    exact (untouched_trans _ _ _ Hu1 Hu2).
  - intros s1 Hu1. eapply post_mono; [by apply IH|]. intros s2 Hu2. exact (untouched_trans _ _ _ Hu1 Hu2).
Qed.

(** ** Reading and pinning *)

Lemma load_pinned s : pinned (st_fs s) →
  post (λ '(r, s'), untouched (st_fs s) (st_fs s') ∧ (r = None ∨ r = Some c0)) (secure_channel_cert_load s id).
Proof.
  intros Hp. unfold secure_channel_cert_load. apply post_eq. intros [r s1] Er.
  pose proof (read_file_untouched _ _ _ _ Er) as Hu. apply post_done. split; [done|].
  destruct r as [bs|]; [|by left]. unfold read_file in Er. rewrite (resolve_ok s id Hid) in Er.
  set (p := if file_exists s O then O else P) in Er.
  assert (Hcert : has_cert (st_fs s) p).
  { unfold p. destruct (file_exists s O) eqn:Eo.
    - apply exists_file in Eo as [D HD]. destruct Hp as [?|[Hn _]]; [done|]. by rewrite HD in Hn.
    - destruct Hp as [(D & HD & _)|[_ ?]]; [|done]. exfalso.
      apply not_true_iff_false in Eo. apply Eo, exists_file. by exists D. }
  destruct (negb _); [done|]. apply obind_inv in Er as ([r' f] & Er & [= -> _]).
  destruct (fs_util_read_spec _ _ _ _ _ Er) as (_ & Hr & _). destruct (Hr bs eq_refl) as (D & HD & -> & _).
  destruct Hcert as (D' & HD' & Hb). rewrite HD in HD'. injection HD' as <-. rewrite Hb, (cert_roundtrip c0 Hc0).
  destruct (bad_type _); [by left|by right].
Qed.

Lemma exists_pinned s : pinned (st_fs s) → secure_channel_cert_exists s id = true.
Proof.
  intros Hp. unfold secure_channel_cert_exists. rewrite (resolve_ok s id Hid). destruct (file_exists s O) eqn:Eo; [done|].
  apply exists_file. destruct Hp as [(D & HD & _)|[_ (D & HD & _)]]; [|by exists D]. exfalso.
  apply not_true_iff_false in Eo. apply Eo, exists_file. by exists D.
Qed.

(** A subject with the same file. *)
Lemma exists_same s d : string_of d = string_of id → valid d = true → pinned (st_fs s) → secure_channel_cert_exists s d = true.
Proof.
  intros Heq Hv Hp. unfold secure_channel_cert_exists. rewrite (resolve_ok s d Hv).
  assert (Ho : old_path d ".cert" = O) by (unfold old_path; by rewrite Heq).
  assert (HP : flat_path d ".cert" = P) by (unfold flat_path; by rewrite Heq).
  pose proof (exists_pinned s Hp) as He. unfold secure_channel_cert_exists in He. rewrite (resolve_ok s id Hid) in He.
  by rewrite Ho, HP.
Qed.

Lemma pin_untouched s c : pinned (st_fs s) →
  post (λ '(r, s'), untouched (st_fs s) (st_fs s') ∧ (string_of (cert_subject c) = string_of id → r ≠ SECURE_CHANNEL_CERT_OK))
    (secure_channel_pin_cert s (Some c)).
Proof.
  intros Hp. unfold secure_channel_pin_cert. destruct (bad_type _); [by apply post_done|].
  destruct (_ =? _); [|by apply post_done]. unfold secure_channel_pin_picocert. apply post_any. intros _. cbn zeta.
  destruct (_ =? _); [by apply post_done|]. destruct (valid (cert_subject c)) eqn:Ev; cbn [negb]; [|by apply post_done].
  destruct (secure_channel_cert_exists s (cert_subject c)) eqn:Ee; [by apply post_done|].
  assert (Hne : string_of (cert_subject c) ≠ string_of id).
  { intros Heq. by rewrite (exists_same s _ Heq Ev Hp) in Ee. }
  destruct (negb _); [by apply post_done|].
  eapply post_bind; [apply write_file_untouched; by intros q ->%format_cert_some; apply foreign_cert|].
  intros [ok s1] Hu. by apply post_done.
Qed.
End ScCertSpec.

(** ** Histories *)

Section Histories.
Context {L E : Type} `{Littlefs L} `{!LittlefsDirs L} `{CertCrypto E} `{Picocert}.
Context `{!LittlefsLaws L} `{!LittlefsStats L} `{!PicocertLaws}.
Context (secure_channel_product_certs : list secure_channel_cert_desc_t).
Implicit Types (s : store L E) (c : secure_channel_cert_data_t).

(** The calls of the store, a start of the firmware that is interrupted in the
    migration, and other tasks that write files of their own. *)
Inductive cert_ev :=
| CeInit
| CeInterrupted (copies removes : nat)
| CePin (c : secure_channel_cert_data_t)
| CeRead (cert_id : list Z)
| CeMatch (c : secure_channel_cert_data_t)
| CeSign (desc : secure_channel_cert_desc_t) (digest : list Z) (signature_size : Z)
| CeGet (kind_ok : bool) (room : Z) (cert_id : list Z)
| CeFiles (f : fs_ctx L).

Definition cert_step s (ev : cert_ev) : outcome (store L E) :=
  match ev with
  | CeInit => secure_channel_cert_init s secure_channel_product_certs
  | CeInterrupted n m => interrupted_migration s n m
  | CePin c => let! '(_, s) := secure_channel_pin_cert s (Some c) in Done s
  | CeRead id => let! '(_, s) := secure_channel_read_cert s id in Done s
  | CeMatch c => let! '(_, s) := secure_channel_matches_pinned_cert s c in Done s
  | CeSign d digest n => let! '(_, s) := secure_channel_sign_digest s d digest n in Done s
  | CeGet b room id => let! '(_, s) := secure_channel_cert_handle_cmd_get s b room id in Done s
  | CeFiles f => Done (set_fs s f)
  end.

(** Other tasks leave the files of the store alone. *)
Definition cert_ev_ok s (ev : cert_ev) : Prop :=
  match ev with
  | CeFiles f => ∀ i x, fs_data f (flat_path i x) = fs_data (st_fs s) (flat_path i x)
                        ∧ fs_data f (old_path i x) = fs_data (st_fs s) (old_path i x)
  | _ => True
  end.

Inductive cert_after : store L E → store L E → Prop :=
| after_nothing s : cert_after s s
| after_step s ev s1 s2 : cert_ev_ok s ev → cert_step s ev = Done s1 → cert_after s1 s2 → cert_after s s2.

(** A peer: not one of the certificates that this processor makes. *)
Definition is_peer (id : list Z) : Prop := Forall (λ d, string_of (desc_id d) ≠ string_of id) secure_channel_product_certs.

Lemma cert_step_ok id c0 s ev : secure_channel_cert_subject_is_valid id = true → cert_ok c0 → is_peer id →
  pinned id c0 (st_fs s) → cert_ev_ok s ev → post (λ s', pinned id c0 (st_fs s')) (cert_step s ev).
Proof.
  intros Hid Hc0 Hpeer Hp Hev.
  assert (Hload : ∀ d, post (λ '(_, s'), pinned id c0 (st_fs s')) (secure_channel_cert_load s d)).
  { intros d. unfold secure_channel_cert_load. eapply post_bind; [apply (read_file_untouched id)|].
    intros [r s1] Hu. apply post_done. exact (untouched_pinned _ _ _ _ Hu Hp). }
  destruct ev as [|n m|c|d|c|d digest n|b room d|f]; cbn [cert_step].
  - unfold secure_channel_cert_init. eapply post_bind; [by apply (migrate_ok id c0)|]. intros s1 Hp1.
    eapply post_mono; [by apply (init_certs_untouched id)|]. intros s2 Hu. exact (untouched_pinned _ _ _ _ Hu Hp1).
  - by apply interrupted_ok.
  - eapply post_bind; [by apply (pin_untouched id c0)|]. intros [r s1] [Hu _]. apply post_done.
    exact (untouched_pinned _ _ _ _ Hu Hp).
  - unfold secure_channel_read_cert. apply (post_bind (λ '(_, s'), pinned id c0 (st_fs s'))).
    { eapply post_bind; [apply Hload|]. intros [r s1] Hp1. by apply post_done. }
    intros [r s1] Hp1. by apply post_done.
  - apply (post_bind (λ '(_, s'), pinned id c0 (st_fs s'))); [|intros [r s1] Hp1; by apply post_done].
    unfold secure_channel_matches_pinned_cert. destruct (bad_type _); [by apply post_done|]. cbn zeta.
    destruct (_ =? _); [by apply post_done|]. destruct (negb _); [by apply post_done|]. destruct (negb _); [by apply post_done|].
    eapply post_bind; [apply Hload|]. intros [r s1] Hp1. destruct r; [|by apply post_done]. apply post_any. intros b. by apply post_done.
  - apply (post_bind (λ '(_, s'), pinned id c0 (st_fs s'))); [|intros [r s1] Hp1; by apply post_done].
    unfold secure_channel_sign_digest, secure_channel_cert_read_key. do 2 (destruct (negb _); [by apply post_done|]). cbn zeta.
    apply (post_bind (λ '(_, s'), untouched id (st_fs s) (st_fs s'))).
    { apply post_any. intros _. apply (read_file_untouched id). }
    intros [key s1] Hu. apply post_done. exact (untouched_pinned _ _ _ _ Hu Hp).
  - apply (post_bind (λ '(_, s'), pinned id c0 (st_fs s'))); [|intros [r s1] Hp1; by apply post_done].
    unfold secure_channel_cert_handle_cmd_get. destruct (negb _); [by apply post_done|]. destruct (_ <? _); [by apply post_done|].
    eapply post_bind; [apply Hload|]. intros [r s1] Hp1. by apply post_done.
  - apply post_done. eapply untouched_pinned; [|exact Hp]. split; apply Hev.
Qed.

Lemma cert_after_ok id c0 s s' : secure_channel_cert_subject_is_valid id = true → cert_ok c0 → is_peer id →
  cert_after s s' → pinned id c0 (st_fs s) → pinned id c0 (st_fs s').
Proof.
  intros Hid Hc0 Hpeer. induction 1 as [s|s ev s1 s2 Hev Hs _ IH]; [done|]. intros Hp.
  apply IH. exact (cert_step_ok id c0 s ev Hid Hc0 Hpeer Hp Hev _ Hs).
Qed.

(** What a successful pin has done. *)
Lemma pin_pinned s c s' : cert_ok c → secure_channel_pin_cert s (Some c) = Done (SECURE_CHANNEL_CERT_OK, s') →
  secure_channel_cert_subject_is_valid (cert_subject c) = true
  ∧ secure_channel_cert_verify_self_signed_picocert_signature (cd_picocert c) = true
  ∧ pinned (cert_subject c) c (st_fs s')
  ∧ ∀ q, q ≠ flat_path (cert_subject c) ".cert" → fs_data (st_fs s') q = fs_data (st_fs s) q.
Proof.
  intros Hc. unfold secure_channel_pin_cert. destruct (bad_type _); [done|]. destruct (_ =? _); [|done].
  unfold secure_channel_pin_picocert. intros (? & _ & E0)%obind_inv. cbn zeta in E0. destruct (_ =? _); [done|].
  destruct (secure_channel_cert_subject_is_valid (cert_subject c)) eqn:Ev; cbn [negb] in E0; [|done].
  destruct (secure_channel_cert_exists s (cert_subject c)) eqn:Ee; [done|].
  destruct (secure_channel_cert_verify_self_signed_picocert_signature (cd_picocert c)); cbn [negb] in E0; [|done].
  apply obind_inv in E0 as ([ok s1] & Ew & Er). destruct ok; [|done]. injection Er as <-.
  unfold secure_channel_cert_write_cert, write_file in Ew. rewrite (format_cert_path_ok _ Ev) in Ew.
  apply obind_inv in Ew as ([ok f] & Ew & [= -> <-]). cbn [st_fs set_fs].
  destruct (fs_util_write_spec _ _ _ _ _ Ew) as (Hq & Hok & _). split_and!; [done|done| |exact Hq].
  unfold secure_channel_cert_exists in Ee. rewrite (resolve_ok s _ Ev) in Ee.
  destruct (file_exists s (old_path (cert_subject c) ".cert")) eqn:Eo; [by rewrite Eo in Ee|]. right. split.
  - rewrite Hq by (apply not_eq_sym, flat_old). apply eq_None_not_Some. rewrite <- exists_file. by rewrite Eo.
  - eexists. split; [by apply Hok|].
    unfold overwrite. rewrite ztake_app_exact; [done|by rewrite cert_bytes_len].
Qed.

(** C33: The first certificate that is pinned for a peer is final. After a
    successful request to pin a certificate, which must carry a valid signature
    of its own key and changes no other file, along every history of further
    requests, starts of the firmware with complete, failing or interrupted
    migrations, and writes of other tasks: a certificate that is read for the
    peer is the pinned one, a certificate that is found to match has its bytes,
    and no other one can be pinned. Any call of the medium may fail at any time,
    [lfs_stat] on a file that is there excepted ([LittlefsStats]): after such a
    failure the next request to pin overwrites the certificate
    ([failed_stat_replaces_pin]). *)
Theorem pin_is_final s c s1 s2 :
  cert_ok c → is_peer (cert_subject c) →
  secure_channel_pin_cert s (Some c) = Done (SECURE_CHANNEL_CERT_OK, s1) → cert_after s1 s2 →
  secure_channel_cert_verify_self_signed_picocert_signature (cd_picocert c) = true
  ∧ (∀ q, q ≠ flat_path (cert_subject c) ".cert" → fs_data (st_fs s1) q = fs_data (st_fs s) q)
  ∧ (∀ c' s3, secure_channel_read_cert s2 (cert_subject c) = Done (Some c', s3) → c' = c)
  ∧ (∀ c' s3, cert_ok c' → cert_subject c' = cert_subject c →
       (secure_channel_matches_pinned_cert s2 c' = Done (SECURE_CHANNEL_CERT_OK, s3) → cd_picocert c' = cd_picocert c)
       ∧ secure_channel_pin_cert s2 (Some c') ≠ Done (SECURE_CHANNEL_CERT_OK, s3)).
Proof.
  intros Hc Hpeer Hpin Hafter. destruct (pin_pinned s c s1 Hc Hpin) as (Hv & Hself & Hp1 & Hq).
  pose proof (cert_after_ok _ c s1 s2 Hv Hc Hpeer Hafter Hp1) as Hp2. split_and!; [done|done| |].
  - intros c' s3 ([r s4] & El & Er)%obind_inv. injection Er as Er <-.
    destruct (load_pinned _ c Hv Hc s2 Hp2 _ El) as [_ [->| ->]]; [done|]. destruct (secure_channel_cert_verify_self_signed_picocert_signature _); [|done].
    by injection Er as <-.
  - intros c' s3 Hc' Hsub. split.
    + unfold secure_channel_matches_pinned_cert. rewrite Hsub, Hv. cbn [negb]. destruct (bad_type _); [done|]. cbn zeta.
      destruct (_ =? _); [done|]. destruct (negb _); [done|]. intros ([r s4] & El & Er)%obind_inv.
      destruct (load_pinned _ c Hv Hc s2 Hp2 _ El) as [_ [->| ->]]; [done|].
      apply obind_inv in Er as (b & Eb & Er). destruct b; [done|]. destruct (negb _); [done|].
      apply obind_inv in Eb as (m & Em & [= Eb]). apply negb_false_iff, Z.eqb_eq in Eb as ->.
      assert (Hlen : length (cd_picocert c') = length (cd_picocert c)).
      { pose proof (ok_size c' Hc'). pose proof (ok_size c Hc). unfold zlen in *. lia. }
      destruct (memcmp_s_zero _ _ Hlen (ok_bytes c' Hc') (ok_bytes c Hc)) as (r & Hr & Heq).
      rewrite (ok_size c' Hc'), Em in Hr. injection Hr as <-. by apply Heq.
    + intros Hpin2. destruct (pin_untouched _ c Hv s2 c' Hp2 _ Hpin2) as [_ Hno]. apply Hno; [by rewrite Hsub|done].
Qed.
End Histories.

(** ** A concrete store *)

(** The layout of version 1, packed, as python/bitkey/picocert.py has it. *)
#[local] Instance picocert_v1 : Picocert := {
  sizeof_picocert := 216;
  off_version := 0;
  off_issuer := 1;
  off_subject := 33;
  off_valid_from := 65;
  off_valid_to := 73;
  off_curve := 81;
  off_hash := 82;
  off_reserved := 83;
  off_public_key := 87;
  off_signature := 152;
  PICOCERT_MAX_NAME_LEN := 32;
  PICOCERT_CURRENT_VERSION := 1;
  PICOCERT_P256 := 0;
  PICOCERT_SHA256 := 0;
  sizeof_cert_data := 220;
}.

#[local] Instance picocert_v1_laws : PicocertLaws.
Proof. by split. Qed.

(** Keys are numbers; a signature names the key and the digest. *)
#[local] Instance toy_cert_crypto : CertCrypto Z := {
  cc_generate_key n _ size := (Some (replicate (Z.to_nat size) n), n + 1);
  cc_export_pubkey _ key := Some (replicate 64 (hd 0 key));
  cc_hash m := Some (le_encode 32 (foldl (λ a b, (a * 31 + b) mod 65521) 7 m));
  cc_sign_hash _ key digest := Some (replicate 32 (hd 0 key) ++ digest);
  cc_verify_hash key digest signature := bool_decide (signature = replicate 32 (hd 0 key) ++ digest);
}.

#[local] Instance ram_dirs : LittlefsDirs ram_fs :=
  λ l p, existsb (λ e, String.prefix (p +:+ "/") e.1) (ram_files l).

Definition core_certs : list secure_channel_cert_desc_t := [mk_desc (label SC_CERT_CORE_ID) KEY_STORAGE_EXTERNAL_WRAPPED].

Definition new_store (files : list (string * list Z)) : store ram_fs Z :=
  mk_store (mk_fs (Some (mk_ram files None None None)) true) 9.

(** The certificate of a peer with this key. *)
Definition peer_cert (key : Z) : secure_channel_cert_data_t :=
  match secure_channel_cert_format_picocert KEY_STORAGE_EXTERNAL_PLAINTEXT (replicate 32 key) (replicate 64 key)
          (label SC_CERT_UXC_ID) 0 (2 ^ 64 - 1) with
  | Done (Some cert) => mk_cert CERT_TYPE_PICOCERT cert []
  | _ => mk_cert 0 [] []
  end.

Definition old_files : list (string * list Z) :=
  [(SC_CERT_OLD_DIRECTORY +:+ "/w3_core_id.cert", replicate 220 1); (SC_CERT_OLD_DIRECTORY +:+ "/w3_core_id.key", replicate 124 2)].

Fixpoint cert_run (s : store ram_fs Z) (evs : list (cert_ev (L := ram_fs))) : outcome (store ram_fs Z) :=
  match evs with
  | [] => Done s
  | ev :: evs => let! s := cert_step core_certs s ev in cert_run s evs
  end.

Lemma run_after evs : ∀ s s', Forall (λ ev, match ev with CeFiles _ => False | _ => True end) evs → cert_run s evs = Done s' →
  cert_after core_certs s s'.
Proof.
  induction evs as [|ev evs IH]; intros s s' Hok; cbn [cert_run]; [intros [= <-]; constructor|].
  apply Forall_cons in Hok as [Hev Hok]. intros (s1 & Es & Hrun)%obind_inv.
  eapply after_step; [|exact Es|by apply IH]. by destruct ev.
Qed.

Definition pin_on (s : store ram_fs Z) (c : secure_channel_cert_data_t) : secure_channel_cert_err_t * store ram_fs Z :=
  match secure_channel_pin_cert s (Some c) with Done r => r | _ => (SECURE_CHANNEL_CERT_ERROR, s) end.

Definition demo_pin := Eval vm_compute in pin_on (new_store old_files) (peer_cert 77).
Definition demo_events : list (cert_ev (L := ram_fs)) :=
  [CeInterrupted 4 1; CePin (peer_cert 78); CeInit; CeRead (label SC_CERT_CORE_ID); CeInit; CePin (peer_cert 79)].
Definition demo_after : store ram_fs Z := Eval vm_compute in
  match cert_run demo_pin.2 demo_events with Done s => s | _ => new_store [] end.

Lemma pin_is_final_witness :
  ∃ s3, secure_channel_read_cert demo_after (label SC_CERT_UXC_ID) = Done (Some (peer_cert 77), s3)
    ∧ (∀ c' s3, secure_channel_read_cert demo_after (cert_subject (peer_cert 77)) = Done (Some c', s3) → c' = peer_cert 77)
    ∧ secure_channel_pin_cert demo_after (Some (peer_cert 78)) ≠ Done (SECURE_CHANNEL_CERT_OK, s3).
Proof.
  assert (Hok : ∀ k, k = 77 ∨ k = 78 → cert_ok (peer_cert k)).
  { intros k [->| ->]; (split; [vm_compute; by split; [discriminate|]| |reflexivity|reflexivity]);
      vm_compute; repeat (constructor; [split; [discriminate|reflexivity]|]); constructor. }
  destruct (pin_is_final core_certs (new_store old_files) (peer_cert 77) demo_pin.2 demo_after) as (_ & _ & Hread & Hrest).
  - apply Hok. by left.
  - constructor; [vm_compute; discriminate|constructor].
  - vm_compute. reflexivity.
  - apply (run_after demo_events); [repeat constructor|vm_compute; reflexivity].
  - eexists. split; [vm_compute; reflexivity|]. split; [exact Hread|].
    apply Hrest; [apply Hok; by right|vm_compute; reflexivity].
Defined.

(** A pin that is interrupted after the file was created cannot be repeated:
    nothing is read, and a certificate counts as pinned. *)
Example interrupted_pin_blocks :
  let s := new_store [(flat_path (label SC_CERT_UXC_ID) ".cert", [])] in
  match secure_channel_read_cert s (label SC_CERT_UXC_ID) with Done (r, _) => r = None | _ => False end
  ∧ (pin_on s (peer_cert 77)).1 = SECURE_CHANNEL_CERT_PINNED_ALREADY_EXISTS.
Proof. vm_compute. done. Qed.

(** A certificate without a key in the old directory, beside a file that cannot
    be copied: the start makes a new certificate and key, but the old
    certificate is still the one that is read, and does not fit the key. *)
Example old_certificate_shadows :
  let s := new_store [(old_path (label SC_CERT_CORE_ID) ".cert", cert_bytes (peer_cert 55));
                      (old_path (label SC_CERT_UXC_ID) ".cert", [])] in
  match cert_run s [CeInit] with
  | Done s =>
      match secure_channel_read_cert s (label SC_CERT_CORE_ID),
            secure_channel_sign_digest s (hd (mk_desc [] KEY_STORAGE_EXTERNAL_WRAPPED) core_certs) (replicate 32 3) 64 with
      | Done (Some c, _), Done (Some signature, _) =>
          c = peer_cert 55 ∧ secure_channel_verify_digest c (replicate 32 3) signature = false
      | _, _ => False
      end
  | _ => False
  end.
Proof. vm_compute. done. Qed.

(** The medium while [lfs_stat] fails: the other calls are those of [ram_fs]. *)
Definition stat_fails : Littlefs ram_fs := {|
  lfs_file_opencfg := lfs_file_opencfg (L := ram_fs);
  lfs_file_close := lfs_file_close (L := ram_fs);
  lfs_file_read := lfs_file_read (L := ram_fs);
  lfs_file_write := lfs_file_write (L := ram_fs);
  lfs_file_size := lfs_file_size (L := ram_fs);
  lfs_file_seek := lfs_file_seek (L := ram_fs);
  lfs_remove := lfs_remove (L := ram_fs);
  lfs_stat _ _ := None;
  lfs_data := lfs_data (L := ram_fs);
  lfs_open_at := lfs_open_at (L := ram_fs);
|}.

Lemma stat_fails_laws : @LittlefsLaws ram_fs stat_fails.
Proof. pose proof ram_fs_laws as []. by split. Qed.

(** A certificate is pinned and is the one that is read; a request to pin
    another one, during which [lfs_stat] fails, succeeds and replaces it. *)
Example failed_stat_replaces_pin :
  match secure_channel_read_cert demo_pin.2 (label SC_CERT_UXC_ID),
        @secure_channel_pin_cert ram_fs Z stat_fails _ _ demo_pin.2 (Some (peer_cert 78)) with
  | Done (Some c, _), Done (r, s) =>
      c = peer_cert 77 ∧ r = SECURE_CHANNEL_CERT_OK ∧
      match secure_channel_read_cert s (label SC_CERT_UXC_ID) with Done (Some c, _) => c = peer_cert 78 | _ => False end
  | _, _ => False
  end.
Proof. vm_compute. done. Qed.
