(* ===== verification/SecLink.v ===== *)
(** * Properties of the secure channel between the processors

    On the model of [SecChan]: what a confirmed session rests on, that replayed
    messages are refused, that an unconfirmed channel neither encrypts nor
    decrypts, and that an honest handshake gives the two processors a pair of
    crypto states as the link ([UcSend.CryptoPair]) needs it. *)

From Stdlib Require Import Sorted.
From stdpp Require Import strings.
From S2P Require Import Prelude Wstring Uc UcLink UcSend SecChan.
#[local] Open Scope list_scope.
#[local] Open Scope Z_scope.

(** ** What the primitives promise *)

Class ScCryptoLaws (E : Type) `{ScCrypto E} : Prop := {
  sc_law_key e sk e' : x25519_generate_key e = (Some sk, e') → zlen sk = EC_PRIVKEY_SIZE_X25519;
  sc_law_pub sk pk : x25519_export_pubkey sk = Some pk → zlen pk = EC_PUBKEY_SIZE_X25519;
  sc_law_dh a pa b pb : x25519_export_pubkey a = Some pa → x25519_export_pubkey b = Some pb →
    crypto_ecc_compute_shared_secret a pb = crypto_ecc_compute_shared_secret b pa;
  sc_law_hmac k m t : crypto_hmac k m = Some t → zlen t = 32 ∧ bytes_ok t;
  sc_law_random e n bs e' : 0 ≤ n → sc_random e n = (Some bs, e') → zlen bs = n ∧ bytes_ok bs;
  sc_law_gcm key pt nonce aad ct mac : sc_gcm_encrypt key pt nonce aad = Some (ct, mac) →
    zlen ct = zlen pt ∧ zlen mac = AES_GCM_TAG_LENGTH ∧ bytes_ok (ct ++ mac) ∧
    sc_gcm_decrypt key ct nonce aad mac = Some pt;
  sc_law_gcm_length key ct nonce aad mac pt :
    sc_gcm_decrypt key ct nonce aad mac = Some pt → zlen pt = zlen ct;
}.

(** Nothing fails. *)
Class ScCryptoUp (E : Type) `{ScCrypto E} : Prop := {
  up_key e : ∃ sk e' pk, x25519_generate_key e = (Some sk, e') ∧ x25519_export_pubkey sk = Some pk;
  up_shared a b : zlen a = EC_PRIVKEY_SIZE_X25519 → zlen b = EC_PUBKEY_SIZE_X25519 →
    is_Some (crypto_ecc_compute_shared_secret a b);
  up_hkdf z l : is_Some (crypto_hkdf z l);
  up_hmac k m : is_Some (crypto_hmac k m);
  up_hash m : ∃ d, sc_hash m = Some d ∧ zlen d = 32;   (* SHA256_DIGEST_SIZE *)
}.

(** The certificate stores of core ([f]) and UXC ([g]): each can sign the digests
    of SHA-256, the only ones a store accepts, and has pinned a certificate that
    verifies what the other signs. [ScCertLink] has this of the store of
    [ScCert]. *)
Class ScCertsLaws (F : Type) `{ScCerts F} := {
  mutual : F → F → Prop;
  core_signed : list Z → list Z → Prop;
  uxc_signed : list Z → list Z → Prop;
  core_signs f g d : mutual f g → zlen d = 32 →
    ∃ sig f', secure_channel_sign_digest f d = Done (Some sig, f') ∧ mutual f' g ∧ core_signed d sig;
  uxc_signs f g d : mutual f g → zlen d = 32 →
    ∃ sig g', secure_channel_sign_digest g d = Done (Some sig, g') ∧ mutual f g' ∧ uxc_signed d sig;
  core_verifies f g d sig : mutual f g → uxc_signed d sig →
    ∃ cert f', secure_channel_read_cert f SC_CERT_UXC_ID = Done (Some cert, f') ∧ mutual f' g ∧
      secure_channel_verify_digest cert d sig = true;
  uxc_verifies f g d sig : mutual f g → core_signed d sig →
    ∃ cert g', secure_channel_read_cert g SC_CERT_CORE_ID = Done (Some cert, g') ∧ mutual f g' ∧
      secure_channel_verify_digest cert d sig = true;
}.

Section SecLink.
Context {E F : Type} `{!ScCrypto E, !ScCerts F, !ScCryptoLaws E}.
Abbreviation channel := (uart_channel E F).
Implicit Types (u : channel).
#[local] Arguments derive_key_with_purpose : simpl never.
#[local] Arguments label : simpl never.

(** ** The callbacks, as the link uses them *)

(** What [a] seals, [b] opens: both confirmed, the send key of the one is the
    receive key of the other, and [b] has taken no number that [a] did not use. *)
Definition sealed_for (a b : channel) : Prop :=
  channel_type (sc_ctx a) ≠ SECURE_CHANNEL_NONE ∧ channel_type (sc_ctx b) ≠ SECURE_CHANNEL_NONE ∧
  confirmed (local b) = SECURE_TRUE ∧ established (sc_ctx b) = SECURE_TRUE ∧
  send_key_buf (sc_ctx a) = recv_key_buf (sc_ctx b) ∧
  recv_sequence_number (local b) ≤ send_sequence_number (local a) < 4294967296 ∧
  0 ≤ send_sequence_number (local a).

Lemma encrypt_out pt aad u ct nonce mac u' :
  secure_uart_channel_encrypt pt aad u = Done (Some (ct, nonce, mac), u') →
  sc_gcm_encrypt (send_key_buf (sc_ctx u)) pt nonce aad = Some (ct, mac) ∧
  zlen nonce = AES_GCM_IV_LENGTH ∧ bytes_ok nonce ∧ confirmed (local u) = SECURE_TRUE ∧
  established (sc_ctx u) = SECURE_TRUE.
Proof.
  unfold secure_uart_channel_encrypt, cipher_encrypt, typed. case_bool_decide; [|done]. cbn [ASSERT obind].
  destruct (confirmed _ =? _) eqn:Ec; [|done]. cbn [negb].
  destruct (established _ =? _) eqn:Ee; [|done]. cbn [negb].
  destruct (sc_random _ _) as [[n|] e] eqn:Er; [|done].
  destruct (sc_gcm_encrypt _ _ _ _) as [[out m]|] eqn:Eg; [|done]. intros [= <- <- <- <-].
  destruct (sc_law_random _ AES_GCM_IV_LENGTH _ _ ltac:(done) Er). btest. done.
Qed.

Lemma encrypt_done pt aad u :
  (∃ r, secure_uart_channel_encrypt pt aad u = Done r) ∨ secure_uart_channel_encrypt pt aad u = Abort.
Proof.
  unfold secure_uart_channel_encrypt, typed. case_bool_decide; [left|by right]. cbn [ASSERT obind].
  destruct (negb _); [eauto|]. destruct (cipher_encrypt _ _ _ _). eauto.
Qed.

#[export] Instance uart_crypto_laws : CryptoLaws channel.
Proof.
  split.
  - intros u ct aad nonce mac. cbn. unfold secure_uart_channel_decrypt, cipher_decrypt, typed.
    case_bool_decide; [|done]. cbn [ASSERT obind]. destruct (negb _); [done|]. cbn [safe].
    destruct (negb _); [done|]. destruct (sc_gcm_decrypt _ _ _ _ _) as [pt|] eqn:Eg; [|done].
    intros pt' [= <-]. by eapply sc_law_gcm_length.
  - intros u pt aad nonce mac _ _. cbn. 
    destruct (secure_uart_channel_encrypt pt aad u) as [[r u']| | |] eqn:Ee; cbn.
    + intros ct nonce' mac' ->. apply encrypt_out in Ee as (Eg & Hn & Hb & _ & _).
      apply sc_law_gcm in Eg as (Hc & Hm & Hb' & _). apply Forall_app in Hb' as [H1 H2].
      split_and!; try done. intros _. by repeat apply bytes_ok_app.
    + done.
    + by destruct (encrypt_done pt aad u) as [[? E']|E']; rewrite E' in Ee.
    + by destruct (encrypt_done pt aad u) as [[? E']|E']; rewrite E' in Ee.
  - intros u. cbn. unfold secure_uart_channel_get_send_seq_number. destruct (negb _); [|done].
    cbn [ASSERT obind safe fst]. apply u32_range.
Qed.

#[export] Program Instance uart_crypto_pair : CryptoPair channel := {| paired := sealed_for |}.
Next Obligation.
  intros a b seq a1 pt aad n0 m0 ct nonce mac a2 (Hta & Htb & Hcb & Heb & Hkey & Hseq & H0) E1 E2.
  cbn in E1, E2. unfold secure_uart_channel_get_send_seq_number in E1.
  destruct (negb _) eqn:Emax; [|done]. apply negb_true_iff in Emax. unfold UINT32_MAX in Emax. btest.
  cbn [ASSERT obind] in E1. rewrite u32_small in E1 by lia. injection E1 as <- <-.
  apply encrypt_out in E2 as (Eg & _). cbn [sc_ctx set_local] in Eg. rewrite Hkey in Eg.
  apply sc_law_gcm in Eg as (_ & _ & _ & Hdec).
  assert (∀ b' : channel, sc_ctx b' = sc_ctx b → confirmed (local b') = SECURE_TRUE →
            gcm_decrypt b' ct aad nonce mac = Done (Some pt)) as Hopen.
  { intros b' Hc Hf. cbn. unfold secure_uart_channel_decrypt, typed, cipher_decrypt. rewrite Hc, Hf, Heb, Hdec.
    by rewrite bool_decide_true. }
  split; [by apply Hopen|]. cbn. unfold secure_uart_channel_check_recv_seq_number.
  rewrite (proj2 (Z.ltb_lt _ _)) by lia. eexists. split; [done|]. split; [by apply Hopen|].
  exists false. cbn [local set_local recv_sequence_number set_recv_sequence_number].
  by rewrite Z.ltb_irrefl.
Qed.

(** ** Replay protection *)

(** The calls of a processor on its channel. *)
Inductive chan_op :=
| OpPublicKey
| OpEstablish (pk_peer : list Z)
| OpConfirm (tag exchange_sig : list Z)
| OpReset
| OpSendSeq
| OpRecvSeq (n : Z)
| OpEncrypt (pt aad : list Z)
| OpDecrypt (ct aad nonce mac : list Z).

(** What a call gives the outside. *)
Inductive chan_ev :=
| EvNothing
| EvConfirmed
| EvNumber (n : Z)         (* used for a message sent *)
| EvAccepted (n : Z)       (* of a message received *)
| EvCiphertext (ct : list Z)
| EvPlaintext (pt : list Z).

Definition chan_step (o : chan_op) (u : channel) : outcome (chan_ev * channel) :=
  match o with
  | OpPublicKey =>
      let! '(_, u) := secure_uart_channel_public_key_init SECURE_CHANNEL_PUBKEY_MAX_LEN u in
      Done (EvNothing, u)
  | OpEstablish pk => let! '(_, u) := secure_uart_channel_establish pk u in Done (EvNothing, u)
  | OpConfirm tag exchange_sig =>
      let! '(ret, u) := secure_uart_channel_confirm_session tag exchange_sig u in
      Done (if bool_decide (ret = SECURE_CHANNEL_OK) then EvConfirmed else EvNothing, u)
  | OpReset => let! u := secure_uart_channel_reset_session u in Done (EvNothing, u)
  | OpSendSeq => let! '(n, u) := secure_uart_channel_get_send_seq_number u in Done (EvNumber n, u)
  | OpRecvSeq n =>
      let '(ok, u) := secure_uart_channel_check_recv_seq_number n u in
      Done (if ok : bool then EvAccepted n else EvNothing, u)
  | OpEncrypt pt aad =>
      let! '(r, u) := secure_uart_channel_encrypt pt aad u in
      Done (match r with Some (ct, _, _) => EvCiphertext ct | None => EvNothing end, u)
  | OpDecrypt ct aad nonce mac =>
      let! r := secure_uart_channel_decrypt ct aad nonce mac u in
      Done (match r with Some pt => EvPlaintext pt | None => EvNothing end, u)
  end.

Fixpoint chan_run (ops : list chan_op) (u : channel) : outcome (list chan_ev * channel) :=
  match ops with
  | [] => Done ([], u)
  | o :: ops =>
      let! '(e, u) := chan_step o u in
      let! '(es, u) := chan_run ops u in
      Done (e :: es, u)
  end.

Definition accepted (es : list chan_ev) : list Z :=
  omap (λ e, match e with EvAccepted n => Some n | _ => None end) es.
Definition numbers (es : list chan_ev) : list Z :=
  omap (λ e, match e with EvNumber n => Some n | _ => None end) es.

(** The calls that do not end the session. *)
Definition keeps_session (o : chan_op) : bool :=
  match o with OpEstablish _ | OpReset => false | _ => true end.

Lemma check_recv_seq_spec n u :
  let '(ok, u') := secure_uart_channel_check_recv_seq_number n u in
  confirmed (local u') = confirmed (local u) ∧
  send_sequence_number (local u') = send_sequence_number (local u) ∧
  (if ok : bool then recv_sequence_number (local u) < n ∧ recv_sequence_number (local u') = n
   else u' = u).
Proof.
  unfold secure_uart_channel_check_recv_seq_number. destruct (_ <? n) eqn:En; [|done]. btest. done.
Qed.

(** Apart from the two calls that hand out numbers, a call of a confirmed
    session that does not end it leaves its counters and its confirmation. *)
Definition counters (l : uxc_channel_t) : Z * Z * secure_bool_t :=
  (recv_sequence_number l, send_sequence_number l, confirmed l).

Lemma init_keys_counters u : counters (local (init_keys u).2) = counters (local u).
Proof.
  unfold init_keys. destruct (negb _); [|done]. destruct (x25519_generate_key _) as [[sk|] e]; [|done].
  by destruct (x25519_export_pubkey sk).
Qed.

Lemma confirm_counters tag exchange_sig u ret u' :
  confirmed (local u) = SECURE_TRUE →
  secure_uart_channel_confirm_session tag exchange_sig u = Done (ret, u') →
  counters (local u') = counters (local u).
Proof.
  intros Hc. unfold secure_uart_channel_confirm_session, typed. destruct (bool_decide _); [|done].
  cbn [ASSERT obind]. destruct (secure_channel_compute_confirmation _ _) as [[e|t]| | |]; try done; cbn [obind].
  { by intros [= <- <-]. }
  destruct (memcmp_s _ _ _) as [cmp| | |]; try done. cbn [obind]. destruct (negb _); [by intros [= <- <-]|].
  destruct (_secure_uart_verify _ _ _ _ _) as [[v f]| | |]; try done. cbn [obind].
  destruct (bool_decide (v ≠ _)); [by intros [= <- <-]|]. rewrite Hc. cbn.
  change (SECURE_TRUE =? SECURE_FALSE) with false. cbn [negb]. rewrite Hc. by intros [= <- <-].
Qed.

Lemma step_counters o u e u' :
  confirmed (local u) = SECURE_TRUE → keeps_session o = true → chan_step o u = Done (e, u') →
  confirmed (local u') = SECURE_TRUE ∧
  match e with
  | EvAccepted n => recv_sequence_number (local u) < n ∧ recv_sequence_number (local u') = n ∧
                    send_sequence_number (local u') = send_sequence_number (local u)
  | EvNumber n => n = u32 (send_sequence_number (local u) + 1) ∧
                  send_sequence_number (local u) ≠ UINT32_MAX ∧
                  send_sequence_number (local u') = n ∧
                  recv_sequence_number (local u') = recv_sequence_number (local u)
  | _ => counters (local u') = counters (local u)
  end.
Proof.
  intros Hc Hk. destruct o as [|pk|tag sg| | |n|pt aad|ct aad nonce mac]; try done; cbn [chan_step].
  - unfold secure_uart_channel_public_key_init, typed. destruct (bool_decide _); [|done].
    cbn [ASSERT obind]. pose proof (init_keys_counters u) as Hi. destruct (init_keys u) as [err u1].
    cbn [ASSERT obind]. cbn [snd] in Hi. intros [= <- <-]. pose proof Hi as Hi'. injection Hi' as _ _ ->. done.
  - destruct (secure_uart_channel_confirm_session tag sg u) as [[ret u1]| | |] eqn:Ec; try done.
    cbn [obind]. apply confirm_counters in Ec; [|done]. intros [= <- <-].
    pose proof Ec as Ec'. injection Ec' as _ _ ->. by case_bool_decide.
  - unfold secure_uart_channel_get_send_seq_number. destruct (negb _) eqn:En; [|done].
    apply negb_true_iff in En. btest. cbn [ASSERT obind]. by intros [= <- <-].
  - pose proof (check_recv_seq_spec n u) as Hs. destruct (secure_uart_channel_check_recv_seq_number n u) as [ok u1].
    destruct Hs as (Hc1 & Hs1 & Hr). intros [= <- <-]. rewrite Hc1. split; [done|].
    destruct ok; [by destruct Hr|by subst].
  - unfold secure_uart_channel_encrypt, typed. destruct (bool_decide _); [|done]. cbn [ASSERT obind].
    destruct (negb _); [by intros [= <- <-]|]. destruct (cipher_encrypt _ _ _ _) as [r e1]. cbn [obind].
    intros [= <- <-]. destruct r as [|[[? ?] ?]]; done.
  - unfold secure_uart_channel_decrypt, typed. destruct (bool_decide _); [|done]. cbn [ASSERT obind].
    destruct (negb _); [by intros [= <- <-]|]. cbn [obind]. intros [= <- <-].
    by destruct (cipher_decrypt _ _ _ _ _).
Qed.

(** C31: Replay protection. In a confirmed session, whatever is received,
    decrypted or confirmed again, until the session is established anew or
    reset: the numbers accepted from the peer strictly increase, so that no
    number is accepted twice, and the numbers used for sending strictly increase
    as well, without wrapping. *)
Theorem uart_no_replay (ops : list chan_op) u es u' :
  confirmed (local u) = SECURE_TRUE → 0 ≤ send_sequence_number (local u) < 4294967296 →
  forallb keeps_session ops = true → chan_run ops u = Done (es, u') →
  StronglySorted Z.lt (recv_sequence_number (local u) :: accepted es) ∧
  StronglySorted Z.lt (send_sequence_number (local u) :: numbers es).
Proof.
  intros Hc Hr Hk Erun.
  cut (confirmed (local u') = SECURE_TRUE ∧
       StronglySorted Z.lt (recv_sequence_number (local u) :: accepted es) ∧
       StronglySorted Z.lt (send_sequence_number (local u) :: numbers es)); [by intros (_ & ?)|].
  revert u es Hc Hr Hk Erun. induction ops as [|o ops IH]; intros u es Hc Hr Hk Erun; cbn in Erun.
  { injection Erun as <- <-. split_and!; [done|repeat constructor..]. }
  apply andb_true_iff in Hk as [Hk1 Hk2].
  destruct (chan_step o u) as [[e u1]| | |] eqn:Es; try done. cbn [obind] in Erun.
  destruct (chan_run ops u1) as [[es1 u2]| | |] eqn:Er; try done. cbn [obind] in Erun. injection Erun as <- ->.
  destruct (step_counters _ _ _ _ Hc Hk1 Es) as [Hc1 He].
  assert (∀ a b l, a < b → StronglySorted Z.lt (b :: l) → StronglySorted Z.lt (a :: b :: l)) as Hlt.
  { intros a b l Hab Hs. constructor; [done|]. constructor; [done|].
    apply StronglySorted_inv in Hs as [_ Hs]. eapply Forall_impl; [done|]. simpl. lia. }
  destruct e; cbn [accepted numbers omap list_omap] in *.
  1, 2, 5, 6: injection He as E1 E2 _; rewrite <- E1, <- E2; apply IH; try done; by rewrite E2.
  - destruct He as (-> & Hmax & Hs1 & Hr1). unfold UINT32_MAX in Hmax.
    rewrite u32_small in Hs1 |- * by lia.
    destruct (IH u1 es1 Hc1) as (H1 & H2 & H3); [lia|done|done|].
    rewrite Hr1 in H2. rewrite Hs1 in H3. split_and!; [done|done|]. apply Hlt; [lia|done].
  - destruct He as (Hlt1 & Hr1 & Hs1). destruct (IH u1 es1 Hc1) as (H1 & H2 & H3); [lia|done|done|].
    rewrite Hr1 in H2. rewrite Hs1 in H3. split_and!; [done|by apply Hlt|done].
Qed.

(** ** A session that is not confirmed *)

Definition secret_event (e : chan_ev) : bool :=
  match e with EvCiphertext _ | EvPlaintext _ => true | _ => false end.

Lemma establish_unconfirms pk u r u' :
  zlen pk = EC_PUBKEY_SIZE_X25519 ∨ confirmed (local u) ≠ SECURE_TRUE →
  secure_uart_channel_establish pk u = Done (r, u') → confirmed (local u') ≠ SECURE_TRUE.
Proof.
  intros Hpk. unfold secure_uart_channel_establish, typed. destruct (bool_decide _); [|done].
  cbn [ASSERT obind]. destruct (zlen pk =? _) eqn:El; cbn [negb].
  2: { btest. intros [= <- <-]. by destruct Hpk. }
  clear Hpk El. set (u1 := set_local _ u).
  pose proof (init_keys_counters u1) as Hi. destruct (init_keys u1) as [ret u2]. cbn [snd] in Hi.
  injection Hi as _ _ Hc. cbn in Hc.
  assert (confirmed (local u2) ≠ SECURE_TRUE) as Hf by (by rewrite Hc). clear Hc.
  destruct (bool_decide _); [by intros [= <- <-]|].
  destruct (secure_channel_establish_impl _ _ _ _ _) as [[[ret2 sg] c]| | |]; try done. cbn [obind].
  destruct (bool_decide _); [by intros [= <- <-]|].
  destruct (secure_channel_compute_confirmation _ _) as [[e|t]| | |]; try done; cbn [obind];
    [by intros [= <- <-]|].
  destruct (_secure_uart_sign _ _ _) as [[[e|x] f]| | |]; try done; cbn [obind]; by intros [= <- <-].
Qed.

Lemma confirm_unconfirmed tag sg u ret u' :
  confirmed (local u) ≠ SECURE_TRUE → ret ≠ SECURE_CHANNEL_OK →
  secure_uart_channel_confirm_session tag sg u = Done (ret, u') → confirmed (local u') ≠ SECURE_TRUE.
Proof.
  intros Hc Hret. unfold secure_uart_channel_confirm_session, typed. destruct (bool_decide _); [|done].
  cbn [ASSERT obind]. destruct (secure_channel_compute_confirmation _ _) as [[e|t]| | |]; try done; cbn [obind].
  { by intros [= <- <-]. }
  destruct (memcmp_s _ _ _) as [cmp| | |]; try done. cbn [obind]. destruct (negb _); [by intros [= <- <-]|].
  destruct (_secure_uart_verify _ _ _ _ _) as [[v f]| | |]; try done. cbn [obind].
  destruct (bool_decide (v ≠ _)); [by intros [= <- <-]|].
  destruct (confirmed (local u) =? SECURE_FALSE) eqn:Ef; cbn.
  - intros [= <- _]. done.
  - rewrite (proj2 (Z.eqb_neq _ _)) by done. cbn [negb]. by intros [= _ <-].
Qed.

Lemma step_unconfirmed o u e u' :
  confirmed (local u) ≠ SECURE_TRUE → chan_step o u = Done (e, u') → e ≠ EvConfirmed →
  confirmed (local u') ≠ SECURE_TRUE ∧ secret_event e = false.
Proof.
  intros Hc. destruct o as [|pk|tag sg| | |n|pt aad|ct aad nonce mac]; cbn [chan_step].
  - unfold secure_uart_channel_public_key_init, typed. destruct (bool_decide _); [|done].
    cbn [ASSERT obind]. pose proof (init_keys_counters u) as Hi. destruct (init_keys u) as [err u1].
    cbn [ASSERT obind]. injection Hi as _ _ Hi. cbn [snd] in Hi. intros [= <- <-] _. by rewrite Hi.
  - destruct (secure_uart_channel_establish pk u) as [[r u1]| | |] eqn:Ee; try done. cbn [obind].
    intros [= <- <-] _. split; [|done]. by eapply establish_unconfirms; [right|].
  - destruct (secure_uart_channel_confirm_session tag sg u) as [[ret u1]| | |] eqn:Ec; try done. cbn [obind].
    intros [= <- <-]. case_bool_decide; [done|]. intros _. split; [|done]. by eapply confirm_unconfirmed.
  - unfold secure_uart_channel_reset_session, typed. destruct (bool_decide _); [|done]. cbn [ASSERT obind].
    by intros [= <- <-].
  - unfold secure_uart_channel_get_send_seq_number. destruct (negb _); [|done]. cbn [ASSERT obind].
    by intros [= <- <-].
  - pose proof (check_recv_seq_spec n u) as Hs. destruct (secure_uart_channel_check_recv_seq_number n u) as [ok u1].
    destruct Hs as (Hc1 & _). intros [= <- <-] _. rewrite Hc1. by destruct ok.
  - unfold secure_uart_channel_encrypt, typed. destruct (bool_decide _); [|done]. cbn [ASSERT obind].
    rewrite (proj2 (Z.eqb_neq _ _)) by done. cbn [negb obind]. by intros [= <- <-].
  - unfold secure_uart_channel_decrypt, typed. destruct (bool_decide _); [|done]. cbn [ASSERT obind].
    rewrite (proj2 (Z.eqb_neq _ _)) by done. cbn [negb obind]. by intros [= <- <-].
Qed.

Lemma run_unconfirmed ops u es u' :
  confirmed (local u) ≠ SECURE_TRUE → chan_run ops u = Done (es, u') → EvConfirmed ∉ es →
  Forall (λ e, secret_event e = false) es.
Proof.
  revert u es. induction ops as [|o ops IH]; intros u es Hc Erun Hno; cbn in Erun.
  { injection Erun as <- <-. constructor. }
  destruct (chan_step o u) as [[e u1]| | |] eqn:Es; try done. cbn [obind] in Erun.
  destruct (chan_run ops u1) as [[es1 u2]| | |] eqn:Er; try done. cbn [obind] in Erun.
  injection Erun as <- ->. apply not_elem_of_cons in Hno as [Hne Hno].
  destruct (step_unconfirmed _ _ _ _ Hc Es) as [Hc1 Hs]; [by intros ->|].
  constructor; [done|]. by eapply IH.
Qed.

(** An exchange that is not confirmed carries nothing: from a reset, or from
    the start of a new exchange of keys (whether it succeeds or fails), until a
    confirmation is accepted, the channel neither encrypts nor decrypts, also if
    a session was confirmed before. *)
Theorem uart_unconfirmed_silent o ops u es u' :
  o = OpReset ∨ (∃ pk, o = OpEstablish pk ∧ zlen pk = EC_PUBKEY_SIZE_X25519) →
  chan_run (o :: ops) u = Done (es, u') → EvConfirmed ∉ es →
  Forall (λ e, secret_event e = false) es.
Proof.
  intros Ho Erun Hno. cbn in Erun.
  destruct (chan_step o u) as [[e u1]| | |] eqn:Es; try done. cbn [obind] in Erun.
  destruct (chan_run ops u1) as [[es1 u2]| | |] eqn:Er; try done. cbn [obind] in Erun.
  injection Erun as <- ->. apply not_elem_of_cons in Hno as [Hne Hno].
  assert (confirmed (local u1) ≠ SECURE_TRUE ∧ secret_event e = false) as [Hc He].
  { destruct Ho as [-> |(pk & -> & Hpk)]; cbn [chan_step] in Es.
    - revert Es. unfold secure_uart_channel_reset_session, typed. destruct (bool_decide _); [|done].
      cbn [ASSERT obind]. by intros [= <- <-].
    - destruct (secure_uart_channel_establish pk u) as [[r u2]| | |] eqn:Ee; try done. cbn [obind] in Es.
      injection Es as <- <-. split; [|done]. by eapply establish_unconfirms; [left|]. }
  constructor; [done|]. by eapply run_unconfirmed.
Qed.

(** ** What a confirmed session rests on *)

(** The keys of the channel are those derived from the shared secret [z]. *)
Definition session_keys (c : secure_channel_ctx_t) (z : list Z) : Prop :=
  ∃ ks kr, derive_key_with_purpose KEY_PURPOSE_SEND false z = Some ks ∧
    derive_key_with_purpose KEY_PURPOSE_RECV false z = Some kr ∧
    derive_key_with_purpose KEY_PURPOSE_CONF false z = Some (conf_key_buf c) ∧
    (channel_type c = SECURE_UART_CHANNEL_CORE ∧ send_key_buf c = ks ∧ recv_key_buf c = kr ∨
     channel_type c = SECURE_UART_CHANNEL_UXC ∧ send_key_buf c = kr ∧ recv_key_buf c = ks).

(** A channel of one of the two processors, whose key pair, if it has one, is a
    pair. *)
Record chan_ok (u : channel) : Prop := {
  ok_type : channel_type (sc_ctx u) = SECURE_UART_CHANNEL_CORE ∨
            channel_type (sc_ctx u) = SECURE_UART_CHANNEL_UXC;
  ok_pair : have_keys (local u) = SECURE_TRUE →
            x25519_export_pubkey (privkey_buf (local u)) = Some (pubkey_buf (local u)) ∧
            zlen (privkey_buf (local u)) = EC_PRIVKEY_SIZE_X25519;
}.

Lemma init_keys_ok u u' :
  chan_ok u → init_keys u = (SECURE_CHANNEL_OK, u') →
  x25519_export_pubkey (privkey_buf (local u')) = Some (pubkey_buf (local u')) ∧
  zlen (privkey_buf (local u')) = EC_PRIVKEY_SIZE_X25519 ∧ have_keys (local u') = SECURE_TRUE ∧
  sc_ctx u' = sc_ctx u ∧ certs u' = certs u ∧ counters (local u') = counters (local u).
Proof.
  intros [_ Hp] Ei. pose proof (init_keys_counters u) as Hc. rewrite Ei in Hc. cbn [snd] in Hc.
  revert Ei. unfold init_keys.
  destruct (have_keys _ =? _) eqn:Eh; cbn [negb]; btest.
  { intros [= <-]. destruct (Hp Eh) as [? ?]. done. }
  destruct (x25519_generate_key (se u)) as [[sk|] e] eqn:Eg; [|done].
  destruct (x25519_export_pubkey sk) as [pk|] eqn:Ex; [|done]. intros [= <-].
  split_and!; try done. by eapply sc_law_key.
Qed.

Lemma establish_impl_ok c pk sk pkd sg c' :
  channel_type c = SECURE_UART_CHANNEL_CORE ∨ channel_type c = SECURE_UART_CHANNEL_UXC →
  secure_channel_establish_impl c pk sk pkd false = Done (SECURE_CHANNEL_OK, sg, c') →
  ∃ z, crypto_ecc_compute_shared_secret sk pk = Some z ∧ session_keys c' z ∧
    established c' = SECURE_TRUE ∧ channel_type c' = channel_type c.
Proof.
  intros Ht. unfold secure_channel_establish_impl. destruct (_ <? zlen pkd); [done|].
  cbn [channel_type set_established set_keys].
  rewrite bool_decide_true by (by destruct Ht as [-> | ->]). cbn [ASSERT obind].
  rewrite (bool_decide_false (_ = SECURE_NFC_CHANNEL_CORE)) by (by destruct Ht as [-> | ->]).
  unfold crypto_key_exchange. destruct (zlen pk =? _); [|done]. destruct (zlen pkd =? _); [|done].
  destruct (zlen sk =? _); [|done]. cbn [ASSERT obind].
  unfold store_keys. cbn [channel_type set_established set_keys].
  destruct (crypto_ecc_compute_shared_secret sk pk) as [z|]; cbn; [|by destruct (channel_type c)].
  destruct (derive_key_with_purpose KEY_PURPOSE_SEND false z) as [ks|] eqn:E1; cbn;
    [|by destruct (channel_type c)].
  destruct (derive_key_with_purpose KEY_PURPOSE_RECV false z) as [kr|] eqn:E2; cbn;
    [|by destruct (channel_type c)].
  destruct (derive_key_with_purpose KEY_PURPOSE_CONF false z) as [kc|] eqn:E3; cbn;
    [|by destruct (channel_type c)].
  destruct Ht as [Ht|Ht]; rewrite Ht; cbn; intros [= _ <-]; exists z;
    (split_and!; [done| |done|done]); exists ks, kr; cbn; rewrite Ht; auto 10.
Qed.

(** A successful exchange. *)
Record established_with (u : channel) (pk_peer pk exchange_sig tag : list Z) (u1 : channel) : Prop := {
  ew_secret : ∃ sk z, x25519_export_pubkey sk = Some pk ∧
    (have_keys (local u) = SECURE_TRUE → sk = privkey_buf (local u)) ∧
    crypto_ecc_compute_shared_secret sk pk_peer = Some z ∧ session_keys (sc_ctx u1) z;
  ew_established : established (sc_ctx u1) = SECURE_TRUE;
  ew_type : channel_type (sc_ctx u1) = channel_type (sc_ctx u);
  ew_pubkey : pubkey_buf (local u1) = pk;
  ew_peer : peer_pubkey_buf (local u1) = pk_peer;
  ew_unconfirmed : confirmed (local u1) = SECURE_FALSE;
  ew_no_keys : have_keys (local u1) = SECURE_FALSE;
  ew_peer_length : zlen pk_peer = EC_PUBKEY_SIZE_X25519;
  ew_length : zlen pk = EC_PUBKEY_SIZE_X25519;
  ew_tag : secure_channel_compute_confirmation (channel_type (sc_ctx u1)) (conf_key_buf (sc_ctx u1))
           = Done (inr tag);
  ew_signature : ∃ digest, sc_hash (pk ++ pk_peer) = Some digest ∧
    secure_channel_sign_digest (certs u) digest = Done (Some exchange_sig, certs u1);
}.

Lemma establish_ok pk_peer u pk exchange_sig tag u1 :
  chan_ok u → secure_uart_channel_establish pk_peer u = Done (inr (pk, exchange_sig, tag), u1) →
  established_with u pk_peer pk exchange_sig tag u1.
Proof.
  intros Hok. unfold secure_uart_channel_establish, typed. destruct (bool_decide _); [|done].
  cbn [ASSERT obind]. destruct (zlen pk_peer =? _) eqn:El; cbn [negb]; [|done]. btest.
  set (u0 := set_local _ u). assert (chan_ok u0) as Hok0 by (destruct Hok; by split).
  destruct (init_keys u0) as [ret u2] eqn:Ei. case_bool_decide as Hret; [done|].
  assert (ret = SECURE_CHANNEL_OK) as -> by (destruct ret; naive_solver).
  destruct (init_keys_ok u0 u2 Hok0 Ei) as (Hx & Hsk & Hh & Hctx & Hce & Hcnt).
  injection Hcnt as _ _ Hcf.
  destruct (secure_channel_establish_impl _ _ _ _ _) as [[[ret2 sg] c]| | |] eqn:Ee; try done.
  cbn [obind]. case_bool_decide as Hret2; [done|].
  assert (ret2 = SECURE_CHANNEL_OK) as -> by (destruct ret2; naive_solver).
  apply establish_impl_ok in Ee as (z & Hz & Hkeys & Hest & Hty); [|by rewrite Hctx; apply Hok0].
  rewrite Hctx in Hty. change (sc_ctx u0) with (sc_ctx u) in Hty.
  destruct (secure_channel_compute_confirmation _ _) as [[e|t]| | |] eqn:Et; try done; cbn [obind].
  destruct (_secure_uart_sign _ _ _) as [[[e|x] f]| | |] eqn:Es; try done; cbn [obind].
  intros [= <- <- <- <-]. cbn [local sc_ctx certs pubkey_buf set_local set_ctx set_certs set_have_keys
    set_privkey set_peer_pubkey] in Es |- *.
  split; cbn; try done; [|by eapply sc_law_pub|].
  - exists (privkey_buf (local u2)), z. split_and!; try done. intros Hk.
    unfold init_keys in Ei. cbn [have_keys local u0 set_local set_confirmed] in Ei. rewrite Hk in Ei.
    by injection Ei as <-.
  - revert Es. unfold _secure_uart_sign. destruct (_ =? _); [|done]. destruct (_ =? _); [|done].
    cbn [ASSERT obind]. destruct (sc_hash _) as [digest|]; [|done].
    destruct (secure_channel_sign_digest _ digest) as [[[sig|] f']| | |] eqn:Esd; try done. cbn [obind].
    intros [= <- <-]. exists digest. split; [done|]. rewrite <- Esd. by rewrite Hce.
Qed.

(** The tag of the peer, and what [secure_uart_channel_confirm_session] has
    checked when it accepts. *)
Lemma compute_confirmation_ok t k tag :
  secure_channel_compute_confirmation t k = Done (inr tag) →
  zlen tag = SECURE_CHANNEL_KEY_CONFIRMATION_TAG_LEN ∧ bytes_ok tag.
Proof.
  unfold secure_channel_compute_confirmation. destruct (bool_decide _); [|done]. cbn [ASSERT obind].
  destruct (confirmation_message_from_type t) as [m| | |]; try done. cbn [obind].
  destruct (crypto_hmac k m) as [x|] eqn:Eh; [|done]. apply sc_law_hmac in Eh as [Hl Hb].
  unfold mread, SECURE_CHANNEL_KEY_CONFIRMATION_TAG_LEN. zdecide. cbn [andb obind]. intros [= <-].
  split; [rewrite zdrop_0, zlen_ztake; lia|]. by apply bytes_ok_sub.
Qed.

Definition verified (u : channel) (exchange_sig : list Z) : Prop :=
  ∃ digest cert f,
    sc_hash (peer_pubkey_buf (local u) ++ pubkey_buf (local u)) = Some digest ∧
    secure_channel_read_cert (certs u)
      (if bool_decide (channel_type (sc_ctx u) = SECURE_UART_CHANNEL_CORE) then SC_CERT_UXC_ID
       else SC_CERT_CORE_ID) = Done (Some cert, f) ∧
    secure_channel_verify_digest cert digest exchange_sig = true.

Lemma confirm_ok tag exchange_sig u u' :
  zlen tag = SECURE_CHANNEL_KEY_CONFIRMATION_TAG_LEN → bytes_ok tag → sc_is_production = true →
  secure_uart_channel_confirm_session tag exchange_sig u = Done (SECURE_CHANNEL_OK, u') →
  secure_channel_compute_confirmation (peer_type (channel_type (sc_ctx u))) (conf_key_buf (sc_ctx u))
    = Done (inr tag) ∧
  verified u exchange_sig ∧ sc_ctx u' = sc_ctx u ∧ confirmed (local u') = SECURE_TRUE.
Proof.
  intros Hl Hb Hprod. unfold secure_uart_channel_confirm_session, typed. destruct (bool_decide _); [|done].
  cbn [ASSERT obind].
  destruct (secure_channel_compute_confirmation _ _) as [[e|t]| | |] eqn:Et; try done; cbn [obind].
  { intros [= -> _]. revert Et. unfold secure_channel_compute_confirmation.
    destruct (bool_decide _); [|done]. cbn [ASSERT obind].
    destruct (confirmation_message_from_type _) as [m| | |]; try done. cbn [obind].
    destruct (crypto_hmac _ m); [|done]. by destruct (mread _ _ _). }
  pose proof (compute_confirmation_ok _ _ _ Et) as [Htl Htb].
  destruct (memcmp_s_zero t tag) as (r & Er & Hr); [unfold zlen in *; lia|done|done|].
  rewrite Htl in Er. rewrite Er. cbn [obind]. destruct (r =? 0) eqn:E0; cbn [negb]; [|done]. btest.
  apply Hr in E0. subst t.
  destruct (_secure_uart_verify _ _ _ _ _) as [[v f]| | |] eqn:Ev; try done. cbn [obind].
  case_bool_decide as Hv; [done|]. assert (v = SECURE_CHANNEL_OK) as -> by (destruct v; naive_solver).
  set (l' := if _ =? SECURE_FALSE then _ else _).
  destruct (confirmed l' =? SECURE_TRUE) eqn:Ec; cbn [negb]; [|done]. btest.
  intros [= <-]. split_and!; try done.
  clear Ec l'. revert Ev. unfold _secure_uart_verify, verified.
  destruct (zlen (pubkey_buf _) =? _); [|done]. destruct (zlen (peer_pubkey_buf _) =? _); [|done].
  cbn [ASSERT obind]. destruct (sc_hash _) as [digest|]; [|done]. rewrite Hprod.
  destruct (channel_type (sc_ctx u)); try done.
  1: rewrite bool_decide_false by done. 2: rewrite bool_decide_true by done.
  all: destruct (secure_channel_read_cert _ _) as [[[cert|] f1]| | |] eqn:Erc; try done; cbn [obind].
  all: destruct (secure_channel_verify_digest cert digest exchange_sig) eqn:Evd; [|done].
  all: intros _; eauto 10.
Qed.

(** C30: Authenticity. On a production device, a session that a processor
    established with a public key and then confirmed has the keys derived from
    the exchange of that key with its own, the peer has proved with its tag that
    it holds the same confirmation key, and its signature over exactly these two
    public keys was verified with the certificate pinned for the peer. *)
Theorem uart_session_authentic pk_peer tag exchange_sig u pk own_sig own_tag u1 u2 :
  chan_ok u → sc_is_production = true →
  zlen tag = SECURE_CHANNEL_KEY_CONFIRMATION_TAG_LEN → bytes_ok tag →
  secure_uart_channel_establish pk_peer u = Done (inr (pk, own_sig, own_tag), u1) →
  secure_uart_channel_confirm_session tag exchange_sig u1 = Done (SECURE_CHANNEL_OK, u2) →
  ∃ sk z digest cert f,
    x25519_export_pubkey sk = Some pk ∧ crypto_ecc_compute_shared_secret sk pk_peer = Some z ∧
    session_keys (sc_ctx u2) z ∧
    secure_channel_compute_confirmation (peer_type (channel_type (sc_ctx u))) (conf_key_buf (sc_ctx u2))
      = Done (inr tag) ∧
    sc_hash (pk_peer ++ pk) = Some digest ∧
    secure_channel_read_cert (certs u1)
      (if bool_decide (channel_type (sc_ctx u) = SECURE_UART_CHANNEL_CORE) then SC_CERT_UXC_ID
       else SC_CERT_CORE_ID) = Done (Some cert, f) ∧
    secure_channel_verify_digest cert digest exchange_sig = true ∧
    confirmed (local u2) = SECURE_TRUE.
Proof.
  intros Hok Hprod Hl Hb Ee Ec.
  destruct (establish_ok _ _ _ _ _ _ Hok Ee) as [(sk & z & Hx & _ & Hz & Hk) _ Hty Hpk Hpeer _ _ _ _ _ _].
  destruct (confirm_ok _ _ _ _ Hl Hb Hprod Ec) as (Ht & (digest & cert & f & Hd & Hc & Hv) & Hctx & Hcf).
  rewrite Hpk, Hpeer in Hd. rewrite Hty in Hc, Ht. rewrite Hctx.
  exists sk, z, digest, cert, f. done.
Qed.

(** ** The honest handshake *)

Context `{!ScCryptoUp E, !ScCertsLaws F}.

Lemma init_keys_up u : chan_ok u → ∃ u', init_keys u = (SECURE_CHANNEL_OK, u').
Proof.
  intros _. unfold init_keys. destruct (negb _); [|eauto].
  destruct (up_key (se u)) as (sk & e & pk & -> & ->). eauto.
Qed.

Lemma derive_up t z : is_Some (derive_key_with_purpose t false z).
Proof. unfold derive_key_with_purpose. cbn. destruct t; apply up_hkdf. Qed.

Lemma compute_confirmation_up t k :
  t ≠ SECURE_CHANNEL_NONE → ∃ tag, secure_channel_compute_confirmation t k = Done (inr tag).
Proof.
  intros Ht. unfold secure_channel_compute_confirmation. rewrite bool_decide_true by done.
  cbn [ASSERT obind]. assert (∃ m, confirmation_message_from_type t = Done m) as [m ->]
    by (destruct t; [done|by eexists..]).
  cbn [obind]. destruct (up_hmac k m) as [x Ex]. rewrite Ex. apply sc_law_hmac in Ex as [Hl _].
  unfold mread, SECURE_CHANNEL_KEY_CONFIRMATION_TAG_LEN. zdecide. cbn. eauto.
Qed.

Lemma establish_up pk_peer u :
  chan_ok u → zlen pk_peer = EC_PUBKEY_SIZE_X25519 →
  (∀ d, zlen d = 32 → ∃ sg f, secure_channel_sign_digest (certs u) d = Done (Some sg, f)) →
  ∃ pk exchange_sig tag u1,
    secure_uart_channel_establish pk_peer u = Done (inr (pk, exchange_sig, tag), u1).
Proof.
  intros Hok Hpk Hsign. unfold secure_uart_channel_establish, typed.
  rewrite bool_decide_true by (destruct (ok_type u Hok) as [-> | ->]; done). cbn [ASSERT obind].
  rewrite Hpk, Z.eqb_refl. cbn [negb].
  set (u0 := set_local _ u). assert (chan_ok u0) as Hok0 by (destruct Hok; by split).
  destruct (init_keys_up u0 Hok0) as [u2 Ei]. rewrite Ei. rewrite bool_decide_false by (by intros []).
  destruct (init_keys_ok u0 u2 Hok0 Ei) as (Hx & Hsk & Hh & Hctx & Hce & _).
  pose proof (sc_law_pub _ _ Hx) as Hl.
  assert (∃ c', secure_channel_establish_impl (sc_ctx u2) pk_peer (privkey_buf (local u2))
            (pubkey_buf (local u2)) false = Done (SECURE_CHANNEL_OK, [], c') ∧
            channel_type c' = channel_type (sc_ctx u)) as (c' & -> & Hty).
  { unfold secure_channel_establish_impl. rewrite Hctx, Hl.
    change (SECURE_CHANNEL_PUBKEY_MAX_LEN <? EC_PUBKEY_SIZE_X25519) with false.
    cbn [channel_type set_established set_keys sc_ctx u0 set_local].
    rewrite bool_decide_true by (destruct (ok_type u Hok) as [-> | ->]; done). cbn [ASSERT obind].
    rewrite (bool_decide_false (_ = SECURE_NFC_CHANNEL_CORE))
      by (destruct (ok_type u Hok) as [-> | ->]; done).
    unfold crypto_key_exchange. rewrite Hpk, Hl, Hsk, !Z.eqb_refl. cbn [ASSERT obind].
    destruct (up_shared _ _ Hsk Hpk) as [z ->]. cbn.
    destruct (derive_up KEY_PURPOSE_SEND z) as [ks ->]. cbn.
    destruct (derive_up KEY_PURPOSE_RECV z) as [kr ->]. cbn.
    destruct (derive_up KEY_PURPOSE_CONF z) as [kc ->]. cbn.
    unfold store_keys. cbn. destruct (ok_type u Hok) as [Ht|Ht]; rewrite Ht; cbn; eexists;
      (split; [reflexivity|cbn; by rewrite ?Ht]). }
  cbn [obind]. rewrite bool_decide_false by (by intros []).
  destruct (compute_confirmation_up (channel_type c') (conf_key_buf c')) as [tag ->].
  { rewrite Hty. by destruct (ok_type u Hok) as [-> | ->]. }
  cbn [obind]. unfold _secure_uart_sign.
  cbn [local set_local pubkey_buf set_have_keys set_privkey set_ctx certs].
  rewrite Hl, Hpk, !Z.eqb_refl. cbn [ASSERT obind].
  destruct (up_hash (pubkey_buf (local u2) ++ pk_peer)) as (d & -> & Hd).
  rewrite Hce. destruct (Hsign d Hd) as (sg & f & Es). cbn [certs u0 set_local]. rewrite Es. cbn [obind]. eauto 10.
Qed.

Lemma hash_len m d : sc_hash m = Some d → zlen d = 32.
Proof. destruct (up_hash m) as (d' & -> & Hl). by intros [= <-]. Qed.

Lemma confirm_up tag exchange_sig u digest cert f :
  chan_ok u → confirmed (local u) = SECURE_FALSE →
  zlen (pubkey_buf (local u)) = EC_PUBKEY_SIZE_X25519 →
  zlen (peer_pubkey_buf (local u)) = EC_PUBKEY_SIZE_X25519 →
  secure_channel_compute_confirmation (peer_type (channel_type (sc_ctx u))) (conf_key_buf (sc_ctx u))
    = Done (inr tag) →
  sc_hash (peer_pubkey_buf (local u) ++ pubkey_buf (local u)) = Some digest →
  secure_channel_read_cert (certs u)
    (if bool_decide (channel_type (sc_ctx u) = SECURE_UART_CHANNEL_CORE) then SC_CERT_UXC_ID
     else SC_CERT_CORE_ID) = Done (Some cert, f) →
  secure_channel_verify_digest cert digest exchange_sig = true →
  secure_uart_channel_confirm_session tag exchange_sig u
  = Done (SECURE_CHANNEL_OK, set_secure_comms true
      (set_local (set_send_sequence_number 0 (set_recv_sequence_number 0
                    (set_confirmed SECURE_TRUE (local u)))) (set_certs f u))).
Proof.
  intros Hok Hcf Hl1 Hl2 Ht Hd Hr Hv. unfold secure_uart_channel_confirm_session, typed.
  rewrite bool_decide_true by (destruct (ok_type u Hok) as [-> | ->]; done). cbn [ASSERT obind].
  rewrite Ht. cbn [obind]. destruct (compute_confirmation_ok _ _ _ Ht) as [Htl Htb].
  destruct (memcmp_s_zero tag tag) as (r & Er & Hrz); [done..|]. rewrite Htl in Er. rewrite Er.
  rewrite (proj2 Hrz eq_refl). cbn [obind Z.eqb negb].
  assert (_secure_uart_verify (channel_type (sc_ctx u)) (pubkey_buf (local u)) (peer_pubkey_buf (local u))
            exchange_sig (certs u) = Done (SECURE_CHANNEL_OK, f)) as ->.
  { unfold _secure_uart_verify. rewrite Hl1, Hl2, !Z.eqb_refl. cbn [ASSERT obind]. rewrite Hd.
    destruct (ok_type u Hok) as [Hty|Hty]; rewrite Hty in *; rewrite Hr; cbn [obind]; by rewrite Hv. }
  cbn [obind]. rewrite bool_decide_false by (by intros []). rewrite Hcf. done.
Qed.

(** C32: The handshake works: if the processors have pinned each other's
    certificates and no primitive fails, the four messages of the key manager
    tasks, delivered in order, end with both sessions confirmed, and in both
    directions what the one seals the other opens, from fresh counters. *)
Theorem uart_handshake_pairs (core uxc : channel) :
  chan_ok core → channel_type (sc_ctx core) = SECURE_UART_CHANNEL_CORE →
  chan_ok uxc → channel_type (sc_ctx uxc) = SECURE_UART_CHANNEL_UXC →
  mutual (certs core) (certs uxc) →
  ∃ core' uxc', handshake core uxc = Done (true, core', uxc') ∧
    paired core' uxc' ∧ paired uxc' core' ∧
    secure_uart_channel_confirmed core' = true ∧ secure_uart_channel_confirmed uxc' = true ∧
    secure_comms core' = true ∧ secure_comms uxc' = true.
Proof.
  intros Hc Htc Hu Htu Hmut. unfold handshake, key_manager_task_handle_uxc_session_init.
  unfold secure_uart_channel_public_key_init, typed. rewrite bool_decide_true by (by rewrite Htc).
  cbn [ASSERT obind].
  change (EC_PUBKEY_SIZE_X25519 <=? SECURE_CHANNEL_PUBKEY_MAX_LEN) with true. cbn [ASSERT obind].
  destruct (init_keys_up core Hc) as [core1 Ei]. rewrite Ei. rewrite bool_decide_true by done.
  destruct (init_keys_ok core core1 Hc Ei) as (Hx & Hsk & Hh & Hctx & Hce & _).
  pose proof (sc_law_pub _ _ Hx) as Hlc. cbn [obind].
  assert (chan_ok core1) as Hc1 by (split; [rewrite Hctx; by left|done]).
  unfold handle_secure_channel_establish. cbn [cmd_version cmd_pk_host].
  change (secure_channel_protocol_version_supported SECURE_CHANNEL_PROTOCOL_VERSION) with true.
  cbn [negb]. rewrite <- Hce in Hmut.
  destruct (establish_up (pubkey_buf (local core1)) uxc Hu Hlc) as (pku & su & tu & uxc1 & Eu).
  { intros d Hd. destruct (uxc_signs _ _ d Hmut Hd) as (sg & g & ? & _). eauto. }
  rewrite Eu. cbn [obind]. destruct (establish_ok _ _ _ _ _ _ Hu Eu)
    as [(sku & z & Hxu & _ & Hz & Hku) Heu Htyu Hpku Hpeeru Hcfu Hhu _ Hlu Htagu (du & Hdu & Hsu)].
  destruct (uxc_signs _ _ du Hmut (hash_len _ _ Hdu)) as (sg & g & Hsg & Hmut1 & Hsigned). rewrite Hsu in Hsg.
  injection Hsg as <- <-.
  unfold key_manager_task_handle_uxc_session_response. cbn [rsp_version rsp_pk_device rsp_tag rsp_exchange_sig].
  change (secure_channel_protocol_version_supported SECURE_CHANNEL_PROTOCOL_VERSION) with true. cbn [negb].
  destruct (establish_up pku core1 Hc1 Hlu) as (pkc & sc & tc & core2 & Ec).
  { intros d Hd. destruct (core_signs _ _ d Hmut1 Hd) as (sg' & g' & ? & _). eauto. }
  rewrite Ec. cbn [obind]. destruct (establish_ok _ _ _ _ _ _ Hc1 Ec)
    as [(skc & zc & Hxc & Hskc & Hzc & Hkc) Hec Htyc Hpkc Hpeerc Hcfc Hhc _ Hlc2 Htagc (dc & Hdc & Hsc)].
  specialize (Hskc Hh). subst skc. rewrite Hx in Hxc. injection Hxc as <-.
  rewrite (sc_law_dh _ _ _ _ Hx Hxu), Hz in Hzc. injection Hzc as <-.
  rewrite Hctx, Htc in Htyc. rewrite Htu in Htyu.
  destruct (core_signs _ _ dc Hmut1 (hash_len _ _ Hdc)) as (sg & g & Hsg & Hmut2 & Hsignedc). rewrite Hsc in Hsg.
  injection Hsg as <- <-.
  destruct Hku as (ks & kr & Ks & Kr & Kc & Hdir). destruct Hkc as (ks' & kr' & Ks' & Kr' & Kc' & Hdir').
  rewrite Ks in Ks'. injection Ks' as <-. rewrite Kr in Kr'. injection Kr' as <-.
  rewrite Kc in Kc'. injection Kc' as Hconf.
  destruct Hdir as [[? _]|(_ & Hsend & Hrecv)]; [congruence|].
  destruct Hdir' as [(_ & Hsend' & Hrecv')|[? _]]; [|congruence].
  assert (chan_ok core2) as Hc2 by (split; [by left|by rewrite Hhc]).
  assert (chan_ok uxc1) as Hu1 by (split; [by right|by rewrite Hhu]).
  rewrite Htyu in Htagu. rewrite Htyc in Htagc.
  destruct (core_verifies _ _ du su Hmut2 Hsigned) as (certu & fc & Hrc & Hmut3 & Hvc).
  rewrite (confirm_up tu su core2 du certu fc); [|done|done|congruence|congruence
    |by rewrite Htyc, <- Hconf|by rewrite Hpeerc, Hpkc|by rewrite Htyc|done].
  cbn [obind]. rewrite bool_decide_false by (by intros []). cbn [obind].
  unfold handle_secure_channel_confirm. cbn [cf_version cf_tag cf_exchange_sig].
  change (secure_channel_protocol_version_supported SECURE_CHANNEL_PROTOCOL_VERSION) with true. cbn [negb].
  destruct (uxc_verifies _ _ dc sc Hmut3 Hsignedc) as (certc & fu & Hru & _ & Hvu).
  rewrite (confirm_up tc sc uxc1 dc certc fu); [|done|done|congruence|congruence
    |by rewrite Htyu, Hconf|by rewrite Hpeeru, Hpku|by rewrite Htyu|done].
  cbn [obind]. rewrite bool_decide_true by done. eexists _, _. split; [done|].
  assert (channel_type (sc_ctx core2) ≠ SECURE_CHANNEL_NONE) as Hn1 by (by rewrite Htyc).
  assert (channel_type (sc_ctx uxc1) ≠ SECURE_CHANNEL_NONE) as Hn2 by (by rewrite Htyu).
  split; [split_and!; cbn; done || lia || congruence|].
  split; [split_and!; cbn; done || lia || congruence|].
  split_and!; try done; unfold secure_uart_channel_confirmed; by rewrite bool_decide_false.
Qed.
End SecLink.

(** ** A small instance *)

Definition total (l : list Z) : Z := foldr Z.add 0 l.
Definition digest32 (n : Z) : list Z := map (λ i, u8 (n + i)) (seqZ 0 32).

#[local] Instance demo_sc : ScCrypto Z := {|
  x25519_generate_key e := (Some (replicate 32 (u8 e)), e + 1);
  x25519_export_pubkey sk := if zlen sk =? 32 then Some sk else None;
  crypto_ecc_compute_shared_secret a b := Some [total a + total b];
  crypto_hkdf z l := Some (digest32 (total z + total l));
  crypto_hmac k m := Some (digest32 (total k + total m));
  sc_hash m := Some (digest32 (total m));
  sc_random e n := (Some (zeros n), e + 1);
  sc_gcm_encrypt key pt nonce aad :=
    if forallb is_byte pt then Some (pt, replicate 16 (u8 (total key + total pt + total aad))) else None;
  sc_gcm_decrypt key ct nonce aad mac :=
    if bool_decide (mac = replicate 16 (u8 (total key + total ct + total aad))) then Some ct else None;
  crypto_read_serial := None;
  crypto_sign_with_device_identity _ := None;
  sc_is_production := true;
|}.

(** A store: our identity, and that of the pinned peer. *)
#[local] Instance demo_certs : ScCerts (Z * Z) := {|
  cert_t := Z;
  SecChan.secure_channel_read_cert f _ := Done (Some f.2, f);
  SecChan.secure_channel_sign_digest f d := Done (Some (d ++ [f.1]), f);
  SecChan.secure_channel_verify_digest cert d sg := bool_decide (sg = d ++ [cert]);
|}.

Lemma digest32_ok n : zlen (digest32 n) = 32 ∧ bytes_ok (digest32 n).
Proof. split; [done|]. apply Forall_map, Forall_true. intros. apply u8_byte. Qed.

#[local] Instance demo_sc_laws : ScCryptoLaws Z.
Proof.
  split; cbn.
  - by intros e sk e' [= <- <-].
  - intros sk pk. destruct (_ =? 32) eqn:El; [|done]. intros [= <-]. by apply Z.eqb_eq in El.
  - intros a pa b pb. destruct (_ =? 32); [|done]. destruct (_ =? 32); [|done]. intros [= <-] [= <-].
    by rewrite Z.add_comm.
  - intros k m t [= <-]. apply digest32_ok.
  - intros e n bs e' Hn [= <- <-]. unfold zeros. rewrite zlen_replicate. split; [lia|].
    apply Forall_replicate. unfold byte_ok. lia.
  - intros key pt nonce aad ct mac. destruct (forallb _ _) eqn:Eb; [|done]. intros [= <- <-].
    split_and!; [done|done| |by rewrite bool_decide_true].
    apply bytes_ok_app; [by apply is_byte_ok|]. apply (Forall_replicate _ 16), u8_byte.
  - intros key ct nonce aad mac pt. case_bool_decide; [|done]. by intros [= <-].
Qed.

#[local] Instance demo_sc_up : ScCryptoUp Z.
Proof. by split; cbn; eauto. Qed.

Abbreviation demo_channel := (uart_channel Z (Z * Z)).
Definition demo_core : demo_channel :=
  @mk_uart Z (Z * Z) (sc_ctx_boot SECURE_UART_CHANNEL_CORE) local_boot 10 (1, 2) false.
Definition demo_uxc : demo_channel :=
  @mk_uart Z (Z * Z) (sc_ctx_boot SECURE_UART_CHANNEL_UXC) local_boot 20 (2, 1) false.

Lemma demo_chan_ok : chan_ok demo_core ∧ chan_ok demo_uxc.
Proof. split; (split; [by left + by right|done]). Qed.

(** The two processors after their handshake. *)
Definition demo_session : demo_channel * demo_channel :=
  match handshake demo_core demo_uxc with Done (_, c, u) => (c, u) | _ => (demo_core, demo_uxc) end.

Lemma uart_no_replay_witness :
  ∃ es u', chan_run [OpRecvSeq 1; OpRecvSeq 1; OpRecvSeq 3; OpRecvSeq 2; OpSendSeq; OpSendSeq] demo_session.1
           = Done (es, u') ∧ accepted es = [1; 3] ∧ numbers es = [1; 2] ∧
    StronglySorted Z.lt (recv_sequence_number (local demo_session.1) :: accepted es).
Proof.
  eexists _, _. split; [vm_compute; reflexivity|]. split; [reflexivity|]. split; [reflexivity|].
  eapply (uart_no_replay [OpRecvSeq 1; OpRecvSeq 1; OpRecvSeq 3; OpRecvSeq 2; OpSendSeq; OpSendSeq]
            demo_session.1).
  - vm_compute. reflexivity.
  - vm_compute. split; [discriminate|reflexivity].
  - reflexivity.
  - vm_compute. reflexivity.
Defined.

Lemma uart_unconfirmed_silent_witness :
  ∃ es u', chan_run [OpReset; OpEncrypt [1; 2] []; OpDecrypt [1] [] [] []] demo_session.1 = Done (es, u') ∧
    Forall (λ e, secret_event e = false) es.
Proof.
  eexists _, _. split; [vm_compute; reflexivity|].
  eapply (uart_unconfirmed_silent OpReset [OpEncrypt [1; 2] []; OpDecrypt [1] [] [] []] demo_session.1).
  - by left.
  - vm_compute. reflexivity.
  - rewrite !not_elem_of_cons. split_and!; try discriminate. by apply not_elem_of_nil.
Defined.

(** What UXC answers to the public key that core generates, and what core makes
    of the answer. *)
Definition demo_reply : list Z * list Z * list Z :=
  match secure_uart_channel_establish (replicate 32 10) demo_uxc with
  | Done (inr x, _) => x
  | _ => ([], [], [])
  end.
Definition demo_established : list Z * list Z * list Z * demo_channel :=
  match secure_uart_channel_establish demo_reply.1.1 demo_core with
  | Done (inr x, u) => (x, u)
  | _ => ([], [], [], demo_core)
  end.
Definition demo_confirmed : demo_channel :=
  match secure_uart_channel_confirm_session demo_reply.2 demo_reply.1.2 demo_established.2 with
  | Done (_, u) => u
  | _ => demo_core
  end.

Lemma uart_session_authentic_witness :
  ∃ sk z digest cert f,
    x25519_export_pubkey sk = Some demo_established.1.1.1 ∧
    crypto_ecc_compute_shared_secret sk demo_reply.1.1 = Some z ∧
    session_keys (sc_ctx demo_confirmed) z ∧
    secure_channel_compute_confirmation (peer_type SECURE_UART_CHANNEL_CORE)
      (conf_key_buf (sc_ctx demo_confirmed)) = Done (inr demo_reply.2) ∧
    sc_hash (demo_reply.1.1 ++ demo_established.1.1.1) = Some digest ∧
    secure_channel_read_cert (certs demo_established.2) SC_CERT_UXC_ID = Done (Some cert, f) ∧
    secure_channel_verify_digest cert digest demo_reply.1.2 = true ∧
    confirmed (local demo_confirmed) = SECURE_TRUE.
Proof.
  apply (uart_session_authentic demo_reply.1.1 demo_reply.2 demo_reply.1.2 demo_core demo_established.1.1.1
           demo_established.1.1.2 demo_established.1.2 demo_established.2 demo_confirmed).
  - apply demo_chan_ok.
  - reflexivity.
  - vm_compute. reflexivity.
  - apply is_byte_ok. vm_compute. reflexivity.
  - vm_compute. reflexivity.
  - vm_compute. reflexivity.
Defined.
