(* ===== verification/ScCertLink.v ===== *)
(** * The certificate store under the handshake

    [SecLink.uart_handshake_pairs] is proved against the interface [ScCerts] of
    a certificate store. Here the store of [ScCert] is an instance of it, on a
    medium without errors, and the handshake runs on two stores whose
    certificates were made by [secure_channel_cert_init] and pinned by
    [secure_channel_pin_cert]. *)

From stdpp Require Import strings.
From S2P Require Import Prelude Wstring Fs Uc UcLink UcSend SecChan SignFrame ScCert ScCertSpec SecLink.
#[local] Open Scope list_scope.
#[local] Open Scope Z_scope.

(** Signing works with a key that has a public key, and what it signs verifies
    with that. *)
Class CertCryptoLaws (E : Type) `{CertCrypto E} : Prop :=
  cc_signs storage key pk digest : cc_export_pubkey storage key = Some pk → zlen digest = SHA256_DIGEST_SIZE →
    ∃ sg, cc_sign_hash storage key digest = Some sg ∧ zlen sg = ECC_SIG_SIZE ∧ cc_verify_hash pk digest sg = true.

Section ScCertLink.
Context {L E : Type} `{Littlefs L} `{!LittlefsDirs L} `{CertCrypto E} `{Picocert}.

(** The store of a processor, and the descriptor of its own certificate:
    secure_channel_product_certs[0]. *)
Record side := mk_side {
  side_store : store L E;
  side_desc : secure_channel_cert_desc_t;
}.

#[global] Instance store_certs : ScCerts side := {|
  cert_t := secure_channel_cert_data_t;
  SecChan.secure_channel_read_cert f cert_id :=
    let! '(r, s) := ScCert.secure_channel_read_cert (side_store f) (label cert_id) in
    Done (r, mk_side s (side_desc f));
  SecChan.secure_channel_sign_digest f digest :=
    let! '(r, s) := ScCert.secure_channel_sign_digest (side_store f) (side_desc f) digest ECC_SIG_SIZE in
    Done (r, mk_side s (side_desc f));
  SecChan.secure_channel_verify_digest := ScCert.secure_channel_verify_digest;
|}.

Context `{!LittlefsLaws L} `{!LittlefsReliable L} `{!PicocertLaws} `{!CertCryptoLaws E}.
Implicit Types (s : store L E) (f g : side).

(** The key file of this processor, and its public key. *)
Definition own_key f (pk : list Z) : Prop :=
  let storage := desc_key_storage_type (side_desc f) in
  ∃ p D, resolve_key_path (side_store f) (desc_id (side_desc f)) = Some p
    ∧ fs_data (st_fs (side_store f)) p = Some D ∧ key_size storage ≤ zlen D
    ∧ cc_export_pubkey storage (ztake (key_size storage) D) = Some pk.

(** The store has a certificate of the peer with this public key. *)
Definition has_peer f (cert_id : string) (pk : list Z) : Prop :=
  ∃ p D, resolve_cert_path (side_store f) (label cert_id) = Some p
    ∧ fs_data (st_fs (side_store f)) p = Some D ∧ sizeof_cert_data ≤ zlen D
    ∧ let c := cert_of_bytes (ztake sizeof_cert_data D) in
      bad_type (cd_type c) = false
      ∧ secure_channel_cert_verify_self_signed_picocert_signature (cd_picocert c) = true
      ∧ public_key (cd_picocert c) = ECC_PUBKEY_SEC1_UNCOMPRESSED_PREFIX :: pk.

(** ** Reading keeps the files *)

Definition same_files f f' : Prop :=
  side_desc f' = side_desc f ∧ ∀ q, fs_data (st_fs (side_store f')) q = fs_data (st_fs (side_store f)) q.

Lemma same_exists f f' p : same_files f f' → file_exists (side_store f') p = file_exists (side_store f) p.
Proof. intros [_ Hq]. apply eq_true_iff_eq. rewrite !exists_file. by rewrite Hq. Qed.

Lemma same_own_key f f' pk : same_files f f' → own_key f pk → own_key f' pk.
Proof.
  intros Hf (p & D & Hp & Hrest). pose proof Hf as [Hd Hq]. unfold own_key, resolve_key_path in *. rewrite Hd.
  exists p, D. split; [|by rewrite Hq]. rewrite <- Hp. destruct (negb _); [done|].
  destruct (snprintf_path _); [|done]. by rewrite (same_exists f f').
Qed.

Lemma same_has_peer f f' i pk : same_files f f' → has_peer f i pk → has_peer f' i pk.
Proof.
  intros Hf (p & D & Hp & Hrest). pose proof Hf as [_ Hq]. unfold has_peer, resolve_cert_path in *.
  exists p, D. split; [|by rewrite Hq]. rewrite <- Hp. destruct (negb _); [done|].
  destruct (snprintf_path _); [|done]. by rewrite (same_exists f f').
Qed.

Lemma read_file_ready s p D n : fs_ready (st_fs s) → fs_data (st_fs s) p = Some D → 0 < n ≤ zlen D →
  ∃ s', read_file s (Some p) n = Done (Some (ztake n D), s') ∧ fs_ready (st_fs s')
    ∧ ∀ q, fs_data (st_fs s') q = fs_data (st_fs s) q.
Proof.
  intros Hs Hd Hn. unfold read_file. rewrite (proj2 (exists_file s p)) by (rewrite Hd; eauto). cbn [negb].
  destruct (util_read_ready (st_fs s) p D n Hs Hd Hn) as (f & Er & Hf). rewrite Er. cbn [obind].
  eexists. split; [done|]. split; [done|]. apply (fs_util_read_spec _ _ _ _ _ Er).
Qed.

Lemma sign_ready f pk d : fs_ready (st_fs (side_store f)) → own_key f pk → zlen d = SHA256_DIGEST_SIZE →
  ∃ sg f', SecChan.secure_channel_sign_digest f d = Done (Some sg, f') ∧ fs_ready (st_fs (side_store f'))
    ∧ same_files f f' ∧ zlen sg = ECC_SIG_SIZE ∧ cc_verify_hash pk d sg = true.
Proof.
  intros Hs (p & D & Hp & HD & Hl & Hpk) Hd. destruct (cc_signs _ _ _ d Hpk Hd) as (sg & Hsg & Hlen & Hv).
  destruct (read_file_ready (side_store f) p D (key_size (desc_key_storage_type (side_desc f)))) as (s' & Er & Hs' & Hq);
    [done|done|split; [by destruct (desc_key_storage_type _)|done]|].
  cbn [SecChan.secure_channel_sign_digest store_certs]. unfold ScCert.secure_channel_sign_digest, secure_channel_cert_read_key.
  rewrite Z.eqb_refl, Hd, Z.eqb_refl. cbn [negb]. replace (0 <? _) with true by (by destruct (desc_key_storage_type _)).
  cbn [ASSERT obind]. rewrite Hp, Er. cbn [obind]. rewrite Hsg.
  eexists _, _. split; [done|]. by split_and!.
Qed.

Lemma verify_ready f i pk d sg : fs_ready (st_fs (side_store f)) → has_peer f i pk →
  zlen d = SHA256_DIGEST_SIZE → zlen sg = ECC_SIG_SIZE → cc_verify_hash pk d sg = true →
  ∃ cert f', SecChan.secure_channel_read_cert f i = Done (Some cert, f') ∧ fs_ready (st_fs (side_store f'))
    ∧ same_files f f' ∧ SecChan.secure_channel_verify_digest cert d sg = true.
Proof.
  intros Hs (p & D & Hp & HD & Hl & Hty & Hself & Hkey) Hd Hsg Hv.
  destruct (read_file_ready (side_store f) p D sizeof_cert_data) as (s' & Er & Hs' & Hq);
    [done|done|split; [apply sizeof_cert_data_pos|done]|].
  cbn [SecChan.secure_channel_read_cert SecChan.secure_channel_verify_digest store_certs].
  unfold ScCert.secure_channel_read_cert, secure_channel_cert_load. rewrite Hp, Er. cbn [obind]. rewrite Hty, Hself.
  eexists _, _. split; [done|]. split; [done|]. split; [done|].
  unfold ScCert.secure_channel_verify_digest. by rewrite Hty, Hd, Hsg, !Z.eqb_refl, Hkey.
Qed.

(** ** The interface *)

Context (core_pk uxc_pk : list Z).

(** Both stores can be read, each processor has its key, and the certificate of
    the other's. *)
Record trusts f g : Prop := {
  tr_core_ready : fs_ready (st_fs (side_store f));
  tr_uxc_ready : fs_ready (st_fs (side_store g));
  tr_core_key : own_key f core_pk;
  tr_uxc_key : own_key g uxc_pk;
  tr_core_pinned : has_peer f SC_CERT_UXC_ID uxc_pk;
  tr_uxc_pinned : has_peer g SC_CERT_CORE_ID core_pk;
}.

Definition signed (pk d sg : list Z) : Prop :=
  zlen d = SHA256_DIGEST_SIZE ∧ zlen sg = ECC_SIG_SIZE ∧ cc_verify_hash pk d sg = true.

Lemma trusts_core f f' g : fs_ready (st_fs (side_store f')) → same_files f f' → trusts f g → trusts f' g.
Proof. intros Hs Hf []. split; eauto using same_own_key, same_has_peer. Qed.

Lemma trusts_uxc f g g' : fs_ready (st_fs (side_store g')) → same_files g g' → trusts f g → trusts f g'.
Proof. intros Hs Hf []. split; eauto using same_own_key, same_has_peer. Qed.

#[program] Definition store_certs_laws : ScCertsLaws side := {|
  mutual := trusts;
  core_signed := signed core_pk;
  uxc_signed := signed uxc_pk;
|}.
Next Obligation.
  intros f g d Hm Hd. destruct (sign_ready f core_pk d) as (sg & f' & Es & Hs & Hf & Hl & Hv); [apply Hm..|done|].
  exists sg, f'. split; [done|]. split; [by eapply trusts_core|done].
Qed.
Next Obligation.
  intros f g d Hm Hd. destruct (sign_ready g uxc_pk d) as (sg & g' & Es & Hs & Hf & Hl & Hv); [apply Hm..|done|].
  exists sg, g'. split; [done|]. split; [by eapply trusts_uxc|done].
Qed.
Next Obligation.
  intros f g d sg Hm (Hd & Hl & Hv). destruct (verify_ready f SC_CERT_UXC_ID uxc_pk d sg) as (c & f' & Er & Hs & Hf & Hok);
    [apply Hm..|done|done|done|].
  exists c, f'. split; [done|]. split; [by eapply trusts_core|done].
Qed.
Next Obligation.
  intros f g d sg Hm (Hd & Hl & Hv). destruct (verify_ready g SC_CERT_CORE_ID core_pk d sg) as (c & g' & Er & Hs & Hf & Hok);
    [apply Hm..|done|done|done|].
  exists c, g'. split; [done|]. split; [by eapply trusts_uxc|done].
Qed.
End ScCertLink.
Arguments side : clear implicits.

(** ** Two processors *)

#[local] Existing Instance picocert_v1.
#[local] Existing Instance picocert_v1_laws.
#[local] Existing Instance toy_cert_crypto.
#[local] Existing Instance ram_dirs.
#[local] Existing Instance demo_sc.
#[local] Existing Instance demo_sc_laws.
#[local] Existing Instance demo_sc_up.

#[local] Instance toy_cert_crypto_laws : CertCryptoLaws Z.
Proof.
  intros storage key pk d [= <-] Hd. exists (replicate 32 (hd 0 key) ++ d). split; [done|].
  split; [by rewrite zlen_app, Hd|by apply bool_decide_true].
Qed.

Definition uxc_certs : list secure_channel_cert_desc_t := [mk_desc (label SC_CERT_UXC_ID) KEY_STORAGE_EXTERNAL_PLAINTEXT].
Definition fresh (se : Z) : store ram_fs Z := mk_store (mk_fs (Some (mk_ram [] None None None)) true) se.

(** Each processor makes its certificate, and pins the one of the other. *)
Definition provision : outcome (store ram_fs Z * store ram_fs Z) :=
  let! core := secure_channel_cert_init (fresh 9) core_certs in
  let! uxc := secure_channel_cert_init (fresh 20) uxc_certs in
  let! '(core_cert, core) := ScCert.secure_channel_read_cert core (label SC_CERT_CORE_ID) in
  let! '(uxc_cert, uxc) := ScCert.secure_channel_read_cert uxc (label SC_CERT_UXC_ID) in
  let! '(r1, core) := secure_channel_pin_cert core uxc_cert in
  let! '(r2, uxc) := secure_channel_pin_cert uxc core_cert in
  match r1, r2 with
  | SECURE_CHANNEL_CERT_OK, SECURE_CHANNEL_CERT_OK => Done (core, uxc)
  | _, _ => Abort
  end.

Definition provisioned : store ram_fs Z * store ram_fs Z := Eval vm_compute in
  match provision with Done x => x | _ => (fresh 0, fresh 0) end.

Example provision_works : provision = Done provisioned.
Proof. vm_compute. reflexivity. Qed.

Abbreviation store_channel := (uart_channel Z (side ram_fs Z)).
Definition store_core : store_channel :=
  @mk_uart Z (side ram_fs Z) (sc_ctx_boot SECURE_UART_CHANNEL_CORE) local_boot 10
    (mk_side provisioned.1 (mk_desc (label SC_CERT_CORE_ID) KEY_STORAGE_EXTERNAL_WRAPPED)) false.
Definition store_uxc : store_channel :=
  @mk_uart Z (side ram_fs Z) (sc_ctx_boot SECURE_UART_CHANNEL_UXC) local_boot 20
    (mk_side provisioned.2 (mk_desc (label SC_CERT_UXC_ID) KEY_STORAGE_EXTERNAL_PLAINTEXT)) false.

Lemma stores_trust : trusts (replicate 64 9) (replicate 64 20) (certs store_core) (certs store_uxc).
Proof.
  split; [split; [by eexists|done]..| | | |]; eexists _, _; (split; [vm_compute; reflexivity|]);
    (split; [vm_compute; reflexivity|]); vm_compute; (split; [discriminate|]); done.
Qed.

Lemma uart_handshake_pairs_witness :
  ∃ core' uxc', handshake store_core store_uxc = Done (true, core', uxc') ∧
    paired core' uxc' ∧ paired uxc' core' ∧
    secure_uart_channel_confirmed core' = true ∧ secure_uart_channel_confirmed uxc' = true ∧
    secure_comms core' = true ∧ secure_comms uxc' = true.
Proof.
  apply (uart_handshake_pairs (ScCertsLaws0 := store_certs_laws (replicate 64 9) (replicate 64 20)) store_core store_uxc).
  - split; [by left|done].
  - done.
  - split; [by right|done].
  - done.
  - exact stores_trust.
Defined.
